(* ===== verification/_CoqProject ===== *)
-Q . S2P
Prelude.v
TypesCurrency.v
TypesData.v
TypesCurrencyText.v
TypesEncoding.v
TypesCodec.v
TypesHash.v
SampleCrypto.v
TypesMerkle.v
TypesPolicy.v
TypesPolicySpec.v
TypesQdayAddress.v
TypesQdayAddressSpec.v
ConsensusWork.v
ConsensusState.v
ConsensusMerkle.v
ConsensusQday.v
ConsensusDifficulty.v
ConsensusMidState.v
ConsensusApply.v
ConsensusValidateV1.v
ConsensusValidate.v
ChainQday.v
SampleChain.v
ConsensusQdaySpec.v
ConsensusEnvelopeSpec.v
ConsensusDifficultySpec.v
ConsensusMidStateSpec.v
ConsensusValidateSpec.v
ConsensusBlockSpec.v
ConsensusPanicSpec.v
MerkleForest.v
ConsensusMerkleSpec.v
ConsensusMerkleUpdateSpec.v
ConsensusAccumulatorSpec.v
TypesMultiproof.v
TypesMultiproofSpec.v
TypesBlockCodecSpec.v
TypesDecodeSpec.v
ConsensusCodec.v
ConsensusTypeSpec.v
ConsensusProofSpec.v
ChainStore.v
ChainDB.v
ChainDBSpec.v
ChainCacheSpec.v
ChainDBStore.v
ChainDBInit.v
ChainPool.v
ChainManager.v
ChainManagerPool.v
Gateway.v
Syncer.v
ChainStoreSpec.v
ChainReorgSpec.v
ChainManagerSpec.v
ChainBestSpec.v
SampleStore.v
ChainPoolSpec.v
ChainLivenessSpec.v
ChainInvariantSpec.v
ChainUpdateSpec.v
QdayMiner.v
QdayMinerSpec.v
QdayService.v
QdayMining.v
QdayPayout.v
QdaySwap.v
QdaySignSpec.v
QdayPaymentSpec.v
QdayServiceSpec.v
QdayRelaySpec.v
QdayMiningSpec.v
QdayPayoutSpec.v
QdaySwapSpec.v
GatewaySpec.v
GatewayTransportSpec.v
SyncerPeerSpec.v
SyncerSpec.v
