(* ===== verification/Prelude.v ===== *)
(** * A verification development for the QDAY consensus core

    QDAY is a proof-of-work coin: a fork of the Sia node in which every output is locked
    by two signature schemes (Ed25519 and SLH-DSA) and in which unspent outputs lose value
    linearly once a proof that discrete logarithms are broken (the "canary" proof) has been
    mined.  This library models the part of the program that decides what a valid chain is
    (the packages [core/types], [core/blake2b] and [core/consensus] and the launch network of
    [coreutils/chain/qday.go]), the part that keeps the best one: the chain manager with
    its transaction pool ([coreutils/chain/manager.go]) and the database it stores them in
    ([coreutils/chain/db.go]), and the part that acts on it for a user: the miner
    ([coreutils/qday/miner.go]) and the wallet service of a node ([node/qday]) with its
    payments, relay, mining templates, pool payouts and atomic swaps, and the part that connects
    nodes: the gateway protocol ([core/gateway]) and the syncer ([coreutils/syncer]).  All paths
    below are relative to [src/].

    ** How the parts fit together

    A node receives a header or a block, checks it against the [State] of its parent
    ([ValidateOrphan], [ValidateHeader], [ValidateBlock]) and applies it ([ApplyBlock]).
    Validation of a block runs its transactions one after the other against a [MidState],
    the overlay of everything the block has created and spent so far: each transaction is
    first validated ([ValidateV2Transaction]) and then recorded ([ApplyV2Transaction]).
    What exists before the block is not stored in the [State]; it is committed to by the
    [ElementAccumulator], a forest of Merkle trees, and each input carries the proof of its
    parent.  An input is authorised by a spend policy whose hash is the address of the
    output; QDAY admits only two policy shapes, the native hybrid policy and the two
    branches of an atomic swap.  An envelope in the arbitrary data of every transaction
    says which kind it is (transfer, coinbase marker, canary proof, mining work).

    The [Manager] holds the state of the tip, a [Store] of blocks and states and the pool.
    [AddBlocks] stores headers of any known branch after the header checks; when a branch is
    sufficiently heavier than the tip, [reorgTo] finds the path to it ([reorgPath]), reverts
    and applies blocks one by one ([revertTip], [applyTip]), fully validating the new ones,
    and goes back when one of them fails.  Every move updates the Merkle proofs of the pool
    ([revertPoolUpdate], [applyPoolUpdate]); the pool is revalidated lazily on the next query.
    The [Store] of a node is a [DBStore]: encoded states, blocks, best indices and elements in
    the buckets of a key-value [DB], which is in memory ([MemDB]) or behind a write cache
    ([CacheDB]).

    The [Service] of a node shares the manager with its other goroutines.  A payment
    ([submitReviewed]) selects outputs of the wallet index, is signed ([SignTransfer]), brought
    to the current tip ([UpdateV2TransactionSet]), added to the pool and kept for relaying
    ([rememberBroadcast], [rebroadcastPending]) in memory and in a file.  A pool payout
    ([PoolPayout]) is in addition recorded under its request identifier before it is relayed.
    The claim or refund of an atomic swap ([spendAtomicSwap]) looks for an output at the address
    of the contract and goes the same way.
    [CandidateWithNonce] assembles a block from the pool, which [Mine] solves or which
    [buildMiningTemplate] turns into a job for external miners; [SubmitMiningBlock] takes
    their blocks back.

    Two nodes shake hands over a connection ([Dial], [Accept]) and then exchange requests.
    [handleRPC] answers them from the manager; a new block arrives as an outline without the
    transactions the sender expects in the receiver's pool, is completed ([Complete]) from the
    pool and, if need be, by asking the sender, added and relayed.  A node that is behind
    fetches headers and then their blocks from many peers at once ([parallelSync]); a peer that
    connects is offered the pool in packets ([qdayPoolRelayPlan]).

    ** Files

    The foundation.
    - [Prelude]: Go integers with their wrap-around, the outcome monad (value, error or
      panic), byte strings, fixed arrays, generic lemmas, tactics and hint databases.

    Package types.
    - [TypesCurrency]: [core/types/currency.go], 128-bit amounts as two 64-bit limbs.
    - [TypesCurrencyText]: the texts of amounts, of [currency.go] and of the wallet
      ([ParseAmount], [FormatAmount] of [node/qday/service.go]).
    - [TypesData]: the records and sum types of [core/types/types.go] and the policy type.
    - [TypesEncoding]: [Encoder] with its 1024-byte buffer, [Decoder] with its limit, and
      the generic combinators of [core/types/encoding.go].
    - [TypesCodec]: the [EncodeTo] and [DecodeFrom] of every type, and their round trips.
    - [TypesHash]: the class [Crypto] (BLAKE2b, Ed25519, SLH-DSA as parameters) and the
      hashing code of [core/types/hash.go] and [types.go] (identifiers, leaf hashes).
    - [SampleCrypto]: a toy instance of [Crypto] on which witnesses evaluate.
    - [TypesMerkle]: the streaming accumulator of [core/blake2b/blake2b.go], unlock hashes
      and policy addresses.
    - [TypesPolicy], [TypesPolicySpec]: [core/types/policy.go] (verification),
      [qday.go] (hybrid keys) and [qday_swap.go] (atomic swaps), and their theorems.
    - [TypesQdayAddress], [TypesQdayAddressSpec]: [core/types/qday_address.go], Bech32m.

    Package consensus.
    - [ConsensusWork]: the four-limb [Work] and target arithmetic of [application.go].
    - [ConsensusState]: [state.go] (network, state, rewards, weights, signature hashes) and
      the records of the [MidState].
    - [ConsensusMerkle]: [merkle.go], the element accumulator.
    - [ConsensusQday]: [qday.go]; the Edwards25519 group is a parameter (a class).
    - [ConsensusDifficulty]: the difficulty rules and [ApplyHeader] of [application.go].
    - [ConsensusMidState], [ConsensusApply]: the rest of [application.go], from the element
      overlay to [ApplyBlock] and [RevertBlock].
    - [ConsensusValidateV1], [ConsensusValidate]: [validation.go].
    - [ChainQday]: the launch parameters of [coreutils/chain/qday.go].
    - [SampleChain]: a small network with a mined block, on which witnesses evaluate.
    - [ConsensusQdaySpec], [ConsensusEnvelopeSpec], [ConsensusDifficultySpec],
      [ConsensusMidStateSpec], [ConsensusValidateSpec], [ConsensusBlockSpec],
      [ConsensusPanicSpec]: the theorems.
    - [MerkleForest]: the abstract forest of Merkle trees over a list of leaves.
    - [ConsensusMerkleSpec], [ConsensusMerkleUpdateSpec], [ConsensusAccumulatorSpec]: the
      accumulator against that forest, for adding, updating and reverting leaves.
    - [TypesMultiproof], [TypesMultiproofSpec], [TypesBlockCodecSpec]:
      [core/types/multiproof.go], the codec of v2 blocks and its round trip (after the
      consensus files because the proofs it restores are those of the accumulator).
    - [TypesDecodeSpec]: every decoder is total and yields well-formed values ([Typed], a class).
    - [ConsensusCodec]: the encodings of states, accumulators and v1 supplements.
    - [ConsensusTypeSpec], [ConsensusProofSpec]: applying a block to a well-typed state gives a
      well-typed state and well-typed proof updates.

    Package chain.
    - [ChainStore]: the interface [Store] (a class), [reorgPath] and the order of expiring
      contracts.
    - [ChainDB]: the interface [DB] (a class), [MemDB] and [CacheDB] of [db.go].
    - [ChainDBSpec], [ChainCacheSpec]: databases as transactions ([DBSpec], a class), which
      [MemDB] satisfies and [CacheDB] preserves.
    - [ChainDBStore], [ChainDBInit]: [DBStore] of [db.go] as an instance of [Store], opening
      it, [migrate.go] and the check of a network ([network.go]).
    - [ChainPool], [ChainManager], [ChainManagerPool]: the pool on its own, the manager, and
      the methods of the manager on the pool.
    - [ChainStoreSpec]: the contract of a store ([StoreSpec], a class over an abstract store
      of finite maps), block trees and paths in them.
    - [ChainReorgSpec], [ChainManagerSpec], [ChainBestSpec], [ChainPoolSpec],
      [ChainLivenessSpec], [ChainInvariantSpec]: the theorems, proved against [StoreSpec].
    - [SampleStore]: a store in memory that satisfies the contract, for the witnesses.
    - [ChainUpdateSpec]: transactions brought to another tip are the same transactions.

    Packages qday of coreutils and of the node.
    - [QdayMiner], [QdayMinerSpec]: [coreutils/qday/miner.go]; threads of the search as turns.
    - [QdayService]: [node/qday/service.go] (the wallet and its payments) and
      [rebroadcast.go], as methods of a state monad over the record [Service].
    - [QdayMining]: [mining.go]; [QdayPayout]: [pool_payout.go]; [QdaySwap]: [swap.go], over
      the same record.
    - [QdaySignSpec], [QdayPaymentSpec], [QdayServiceSpec]: signing, coin selection and
      payments; [QdayRelaySpec], [QdayMiningSpec], [QdayPayoutSpec], [QdaySwapSpec]: the other
      theorems.

    Packages gateway and syncer.
    - [Gateway]: [core/gateway]; the two ends of a handshake are programs ([proc]) that interleave
      over one connection ([link_step]).  [GatewaySpec]: outlines and messages;
      [GatewayTransportSpec]: the handshake.
    - [Syncer]: [coreutils/syncer]: the handler of requests ([peer.go]) as a state monad over the
      shared manager, [relay_budget.go], [txpool_relay.go], and [parallel_sync.go] with the
      coordinator and the workers as a step relation ([sync_step]).  [SyncerPeerSpec]: relayed
      blocks; [SyncerSpec]: the relay of the pool and the parallel sync.

    ** Modelling conventions

    Every Go integer is a [Z] and the width is written where the code can wrap ([u64],
    [i64], [u8]).  Byte strings and fixed arrays are lists of [Z]; [bytes_ok] says that the
    elements are bytes.  A function that can fail or panic returns [outcome]: [Ok], [Err]
    with the message of the Go error (the text up to the first formatted argument), or
    [Panic].  Methods with pointer receivers take and return the record.  Where the code
    shares memory (the Merkle proofs that [updateLeaves] rewrites through pointers into the
    elements of the block), leaves carry a reference to the element they belong to and the
    new proofs are written back through it ([leafRef], [write_back]).  Go maps are [gmap]s.
    Hash, signature and group operations are fields of the classes [Crypto] and
    [Edwards25519]; no property of them is assumed unless a theorem names it as a
    hypothesis, and every theorem with a hypothesis has a witness on the sample instances.

    Methods of the manager hold its mutex from entry to exit, so each is one atomic function
    on the record; the listeners, which run after the mutex is released, are recorded in the
    order of the calls ([m_calls]).  The clock and the random keys of listeners are arguments.
    [sort.Slice] leaves the order of equal keys open; the model keeps it.  On networks without
    QDAY parameters the slice of reverted v2 transactions shares memory with the stored block;
    that sharing is not modelled.  [StoreSpec] sees a stored state through its index: the
    encoding of a state drops what its height makes irrelevant.  It promises to give back only
    what has an encoding (states whose fields have their widths, blocks that decode from their
    own encoding), as a database that stores encodings must; the manager's theorems therefore
    ask that blocks it is given are [storable], which every decoded block with valid proofs is.
    A flush may fail; [flush_ok] is named where a theorem needs that it does not.  Blocks given to
    [AddValidatedV2Blocks] come with the states its caller computed; the invariant of the manager
    asks that they were validated one after the other ([prevalidated]).

    Methods of the service are functions on its record; before each call of the manager the
    next function of [sv_others] does what other goroutines did to it meanwhile, so that a
    theorem for every [sv_others] covers every interleaving of manager calls.  Files are the
    values their JSON texts stand for; whether a file was replaced and with which error is an
    argument, as are the clock, random bytes, peers and the pages of the wallet index.
    [GoOrder] is what Go leaves open: equal elements in [sort.Slice] and the order of maps.
    The handler of requests acts on the manager in the same way ([rs_others]); what it does to the
    peer and to others (answers, bans, syncing again, relaying) is recorded in order
    ([rs_actions]).  Channels are unbounded queues.

    Loops are structural or bounded by the data: the carry loops by the 64 trees of an
    accumulator, decoding loops by the declared element count, [readPolicy] and [verify]
    by the policy itself, the target search by the bits of the operand.  No theorem is
    conditional on fuel: where a fuel occurs (the encoder's write loop, [add_from]), it is
    computed from the data and shown to be enough.  The last loop of [reorgPath] runs on one
    step per height; [reorgPath_correct] shows that more fuel gives the same result in every
    block tree and [reorgPath_terminates] bounds it in every store.  The searches for
    unconfirmed parents run on one round per pool transaction, since each adds one.  The loops
    of the service that wait for the outside world (pages of the index, rounds of work, turns of
    a long poll, proof updates) take their number of rounds as an argument; liveness theorems
    say how many are enough, and safety theorems hold for any number.  The search for ancestors
    in the relay plan has a step for every parent link and the inner loop two rounds, which
    [relay_plan_correct] shows to be enough.

    ** What is proved

    - Safety of the chain ([ConsensusBlockSpec], [ConsensusValidateSpec]): an accepted
      block creates no value, spends each output once, spends only outputs that exist, each
      with both signatures over the hash of the spending transaction; applying it does not
      panic; the decay activates at most once and only by a valid proof.
    - The decay ([ConsensusQdaySpec]): the value of an output is exactly the floor of the
      linear schedule and never grows; total emission is bounded; the launch parameters are
      valid.
    - Fork choice and difficulty ([ConsensusDifficultySpec]).
    - The element accumulator ([ConsensusAccumulatorSpec]): applying a block builds exactly
      the forest over the changed and added leaves and keeps everybody's proofs valid,
      reverting it restores them, and a membership proof that verifies either names a real
      leaf or exhibits a hash collision.
    - The best chain ([ChainReorgSpec], [ChainBestSpec], [ChainLivenessSpec],
      [ChainInvariantSpec]): the path of a reorganisation is the shortest one and is found;
      [AddBlocks] keeps the best index equal to the chain from genesis to the tip, moves the
      tip only to a sufficiently heavier chain and undoes a failed move, also when the flush fails; past the final
      cut exactly the valid children of the tip are adopted; under every sequence of calls the pool is a valid
      set, and a set of transactions is added to it entirely, in its order, or not at all.
    - Validation cannot be made to panic ([ConsensusPanicSpec]), and updating a transaction set
      keeps the identifiers and the contents of all that was not confirmed, while its proofs follow the
      path to the new tip ([ChainUpdateSpec]).
    - Mining ([QdayMinerSpec], [QdayMiningSpec]): solved candidates and solved Stratum jobs are
      valid blocks; submitted blocks reach the manager unchanged.
    - The wallet ([QdayServiceSpec], [QdaySwapSpec], [QdayRelaySpec], [QdayPayoutSpec]): a
      payment that can be funded is made and pays exactly what was asked; a party to a swap can
      settle it; what is kept for relaying stays the same transactions until confirmed or
      expired, and survives a restart; a pool payout is made once, across
      failures of the disk and restarts.
    - The network ([GatewayTransportSpec], [GatewaySpec], [SyncerPeerSpec],
      [SyncerSpec]): every interleaving of a handshake comes to the same end; messages arrive
      as they were sent; a valid block relayed as an outline is completed, added and relayed; blocks fetched from
      many peers reach the manager in the order of their headers; the packets of the pool relay
      stand alone, fit a request and reach every transaction that can be sent.
    - Databases ([ChainDBSpec], [ChainCacheSpec]): any sequence of calls on [MemDB] is answered
      as by a committed and a working copy, and putting a [CacheDB] in front changes no answer
      and no committed bucket unless a key is read between its deletion and the next flush or a bucket
      with pending changes is iterated, where iteration misses pending keys.
    - Policies and swaps ([TypesPolicySpec]): [Verify] decides a declarative relation; the
      two admitted shapes need both schemes; swaps pay exactly one side.
    - Encodings: envelopes, addresses, amounts, policies, transactions and blocks round-trip, the
      latter with one compressed proof, and are canonical where the code means them to be;
      decoding any bytes gives an error or a well-formed value and never panics;
      the buffered encoder is transparent.
    - Arithmetic: [Currency] and [Work] operations are exact and panic exactly on overflow.
    - Deviations: [MulWithOverflow] misses an overflow, [QdayAtomicSwap.Address] panics on
      an invalid swap, the ephemeral-output helper builds parents that QDAY rejects,
      [cacheBucket.Get] returns deleted values and iteration skips pending ones.

    ** Not modelled, and the plan

    JSON forms (except the digest of a payout request), the assembly of BLAKE2b, logging, HTTP,
    key storage and all I/O.
    That [DBStore] satisfies [StoreSpec] is not proved; the theorems about the manager hold for
    every store with that contract, and [SampleStore] shows that it can be met.  Next, in this order:
    [DBStore] as an instance of [StoreSpec]; [core/rhp/v4] accounting; the upstream wallet of
    [coreutils/wallet].  Of the gateway the multiplexer, a third-party library, and of the syncer
    the management of connections, subnet bans, the DNS bootstrap and the timer loops are not
    modelled: they decide when the modelled parts run and with which peers. *)
From stdpp Require Import prelude strings.
From Stdlib Require Import ZArith Lia.

Declare Scope go_scope.
Delimit Scope go_scope with go.
Global Open Scope Z_scope.

(** ** Go machine integers

    Every Go integer is a [Z]; the width is written where the code wraps. *)

Abbreviation bytes := (list Z).
Abbreviation two8 := 256 (only parsing).
Abbreviation two32 := 4294967296 (only parsing).
Abbreviation two63 := 9223372036854775808 (only parsing).
Abbreviation two64 := 18446744073709551616 (only parsing).
Abbreviation two128 := 340282366920938463463374607431768211456 (only parsing).
Abbreviation two256 :=
  115792089237316195423570985008687907853269984665640564039457584007913129639936
  (only parsing).

(** Conversion to [uint8], [uint16], [uint32], [uint64] and [int64]. *)
Definition u8 (x : Z) : Z := x mod two8.
Definition u16 (x : Z) : Z := x mod 65536.
Definition u32 (x : Z) : Z := x mod two32.
Definition u64 (x : Z) : Z := x mod two64.
Definition i64 (x : Z) : Z := (x + two63) mod two64 - two63.

Definition is_u8 (x : Z) : Prop := 0 <= x < two8.
Definition is_u64 (x : Z) : Prop := 0 <= x < two64.
Definition is_i64 (x : Z) : Prop := - two63 <= x < two63.

(** ** Outcomes of Go code

    [Ok] is a normal return, [Err] a returned [error] (its message), [Panic] a
    run-time panic that unwinds the caller. *)
Inductive outcome (A : Type) : Type :=
| Ok (a : A)
| Err (e : string)
| Panic (p : string).
Arguments Ok {A} a.
Arguments Err {A} e.
Arguments Panic {A} p.

Global Instance outcome_ret : MRet outcome := fun A a => Ok a.
Global Instance outcome_bind : MBind outcome := fun A B f m =>
  match m with Ok a => f a | Err e => Err e | Panic p => Panic p end.
Global Instance outcome_fmap : FMap outcome := fun A B f m =>
  match m with Ok a => Ok (f a) | Err e => Err e | Panic p => Panic p end.

(** [if cond { return errors.New(msg) }] *)
Definition fail_if (cond : bool) (msg : string) : outcome unit :=
  if cond then Err msg else Ok tt.

(** [fmt.Errorf("prefix %w", err)] *)
Definition wrap_err {A} (prefix : string) (m : outcome A) : outcome A :=
  match m with Err e => Err (prefix +:+ e) | _ => m end.

Definition is_Ok {A} (m : outcome A) : Prop := exists a, m = Ok a.
Definition is_Panic {A} (m : outcome A) : Prop := exists p, m = Panic p.

(** A loop [for i, x := range l { body }] whose body may return an error. *)
Fixpoint for_each {A St} (l : list A) (i : nat) (s : St)
    (body : nat -> A -> St -> outcome St) : outcome St :=
  match l with
  | [] => Ok s
  | x :: l' => s' ← body i x s; for_each l' (Datatypes.S i) s' body
  end.

(** ** The [math/bits] package at 64 bits *)
Module bits.

Definition Add64 (x y carry : Z) : Z * Z :=
  (u64 (x + y + carry), (x + y + carry) / two64).

Definition Sub64 (x y borrow : Z) : Z * Z :=
  (u64 (x - y - borrow), if x <? y + borrow then 1 else 0).

(** Returns [(hi, lo)]. *)
Definition Mul64 (x y : Z) : Z * Z := ((x * y) / two64, (x * y) mod two64).

(** Returns [(quo, rem)]; panics for [y = 0] or [y <= hi]. *)
Definition Div64 (hi lo y : Z) : outcome (Z * Z) :=
  if y =? 0 then Panic "integer divide by zero"
  else if y <=? hi then Panic "integer overflow"
  else Ok ((hi * two64 + lo) / y, (hi * two64 + lo) mod y).

(** Minimum number of bits required to represent [x]; 0 for 0. *)
Definition Len64 (x : Z) : Z := if x =? 0 then 0 else Z.log2 x + 1.

Definition LeadingZeros64 (x : Z) : Z := 64 - Len64 x.

Fixpoint trailing_zeros (fuel : nat) (x : Z) : Z :=
  match fuel with
  | O => 0
  | S f => if Z.odd x then 0 else 1 + trailing_zeros f (x / 2)
  end.

(** 64 for [x = 0]. *)
Definition TrailingZeros64 (x : Z) : Z := trailing_zeros 64 x.

End bits.

(** [1 << n] and the single-bit test [x & (1 << n) != 0]. *)
Definition has_bit (x : Z) (n : Z) : bool := Z.testbit x n.

(** ** Byte strings *)

(** [binary.LittleEndian.PutUint*] into [n] bytes, and its inverse. *)
Fixpoint le_encode (n : nat) (z : Z) : bytes :=
  match n with
  | O => []
  | S n' => z mod two8 :: le_encode n' (z / two8)
  end.

Fixpoint le_decode (b : bytes) : Z :=
  match b with
  | [] => 0
  | x :: b' => x + two8 * le_decode b'
  end.

(** [binary.BigEndian]. *)
Definition be_encode (n : nat) (z : Z) : bytes := rev (le_encode n z).
Definition be_decode (b : bytes) : Z := le_decode (rev b).

Definition byte_ok (x : Z) : Prop := 0 <= x < two8.
Definition bytes_ok (b : bytes) : Prop := Forall byte_ok b.

(** [make([]byte, n)] *)
Definition zeros (n : nat) : bytes := replicate n 0.

(** [copy(dst[:], src)] into a zeroed array of [n] bytes. *)
Definition to_array (n : nat) (src : bytes) : bytes := take n (src ++ zeros n).

(** [b[i:j]] *)
Definition slice {A} (i j : nat) (b : list A) : list A := take (j - i) (drop i b).

(** The bytes of an ASCII string literal. *)
Fixpoint str_bytes (s : string) : bytes :=
  match s with
  | EmptyString => []
  | String c s' => Z.of_nat (Ascii.nat_of_ascii c) :: str_bytes s'
  end.

Definition zlen {A} (l : list A) : Z := Z.of_nat (length l).

(** Lexicographic [bytes.Compare] (-1, 0, 1). *)
Fixpoint bytes_compare (a b : bytes) : Z :=
  match a, b with
  | [], [] => 0
  | [], _ :: _ => -1
  | _ :: _, [] => 1
  | x :: a', y :: b' => if x <? y then -1 else if y <? x then 1 else bytes_compare a' b'
  end.

(** ** Automation *)
Create HintDb go.
Create Rewrite HintDb go.

(** Splits one [outcome] bind in a hypothesis, keeping the successful branch. *)
Ltac ok_step H :=
  match type of H with
  | mbind _ ?m = Ok _ =>
      let a := fresh "v" in let E := fresh "E" in
      destruct m as [a| |] eqn:E; cbn [mbind outcome_bind] in H; [|discriminate H|discriminate H]
  | fail_if ?c _ = Ok _ =>
      let E := fresh "E" in destruct c eqn:E; cbn [fail_if] in H; [discriminate H|]
  end.

Ltac bool_lia := rewrite ?andb_true_iff, ?orb_true_iff, ?negb_true_iff, ?andb_false_iff,
  ?orb_false_iff, ?negb_false_iff, ?Z.leb_le, ?Z.ltb_lt, ?Z.eqb_eq, ?Z.leb_gt, ?Z.ltb_ge,
  ?Z.eqb_neq in *; lia.

(** ** Shared lemmas *)

Lemma Ok_inj {A} (a b : A) : Ok a = Ok b -> a = b.
Proof. by injection 1. Qed.
Lemma wrap_err_ok {A} msg (m : outcome A) a : wrap_err msg m = Ok a <-> m = Ok a.
Proof. by destruct m. Qed.
Lemma fail_if_ok c msg u : fail_if c msg = Ok u -> c = false.
Proof. by destruct c. Qed.

Lemma u64_id x : is_u64 x -> u64 x = x.
Proof. apply Z.mod_small. Qed.

Lemma u64_range x : is_u64 (u64 x).
Proof. unfold is_u64, u64. apply Z.mod_pos_bound. lia. Qed.

Lemma i64_id x : is_i64 x -> i64 x = x.
Proof. unfold is_i64, i64. intros H. rewrite Z.mod_small; lia. Qed.

Lemma i64_range x : is_i64 (i64 x).
Proof.
  unfold is_i64, i64.
  pose proof (Z.mod_pos_bound (x + two63) two64 ltac:(lia)). lia.
Qed.

(** [int64(uint64(x)) = x] *)
Lemma i64_u64 x : is_i64 x -> i64 (u64 x) = x.
Proof.
  unfold is_i64, i64, u64. intros H.
  rewrite Zplus_mod_idemp_l, Z.mod_small; lia.
Qed.

Lemma u64_i64 x : is_u64 x -> u64 (i64 x) = x.
Proof.
  unfold is_u64, i64, u64. intros H.
  rewrite Zminus_mod_idemp_l. replace (x + two63 - two63) with x by lia.
  by apply Z.mod_small.
Qed.

Lemma add64_spec x y c :
  let '(s, co) := bits.Add64 x y c in s + co * two64 = x + y + c /\ is_u64 s.
Proof.
  unfold bits.Add64. split; [|apply u64_range].
  unfold u64. pose proof (Z.div_mod (x + y + c) two64 ltac:(lia)). lia.
Qed.

Lemma mul64_spec x y :
  let '(hi, lo) := bits.Mul64 x y in hi * two64 + lo = x * y /\ is_u64 lo.
Proof.
  unfold bits.Mul64. split; [|apply u64_range].
  pose proof (Z.div_mod (x * y) two64 ltac:(lia)). lia.
Qed.

Lemma length_le_encode n z : length (le_encode n z) = n.
Proof. revert z. induction n; intros; cbn; auto. Qed.

Lemma length_be_encode n z : length (be_encode n z) = n.
Proof. unfold be_encode. by rewrite length_rev, length_le_encode. Qed.

Lemma bytes_ok_le_encode n z : bytes_ok (le_encode n z).
Proof.
  revert z. induction n as [|n IH]; intros z; cbn; constructor; [|apply IH].
  unfold byte_ok. apply Z.mod_pos_bound. lia.
Qed.

Lemma bytes_ok_be_encode n z : bytes_ok (be_encode n z).
Proof. unfold be_encode, bytes_ok. apply Forall_rev, bytes_ok_le_encode. Qed.

Lemma le_decode_encode n z : le_decode (le_encode n z) = z mod 2 ^ (8 * Z.of_nat n).
Proof.
  revert z. induction n as [|n IH]; intros z.
  - cbn. by rewrite Z.mod_1_r.
  - cbn [le_encode le_decode]. rewrite IH.
    replace (8 * Z.of_nat (S n)) with (8 + 8 * Z.of_nat n) by lia.
    rewrite Z.pow_add_r by lia.
    pose proof (Z.pow_pos_nonneg 2 (8 * Z.of_nat n) ltac:(lia) ltac:(lia)).
    change (2 ^ 8) with two8. rewrite Z.rem_mul_r by lia. lia.
Qed.

Lemma le_encode_decode b : bytes_ok b -> le_encode (length b) (le_decode b) = b.
Proof.
  unfold bytes_ok, byte_ok. induction 1 as [|x b Hx Hb IH]; cbn [length le_encode le_decode]; auto.
  rewrite (Z.mul_comm 256), Z_mod_plus_full, Z.mod_small by lia.
  rewrite Z.div_add, (Z.div_small x), Z.add_0_l by lia. by rewrite IH.
Qed.

Lemma le_decode_range b : bytes_ok b -> 0 <= le_decode b < 2 ^ (8 * zlen b).
Proof.
  unfold zlen. induction 1 as [|x b Hx Hb IH]; cbn [length le_decode]; [cbn; lia|].
  replace (8 * Z.of_nat (S (length b))) with (8 + 8 * Z.of_nat (length b)) by lia.
  rewrite Z.pow_add_r by lia. unfold byte_ok in Hx. lia.
Qed.

Lemma le_decode_app a b :
  le_decode (a ++ b) = le_decode a + 2 ^ (8 * zlen a) * le_decode b.
Proof.
  unfold zlen. induction a as [|x a IH]; cbn [app length le_decode].
  - change (8 * Z.of_nat 0) with 0. lia.
  - rewrite IH. replace (8 * Z.of_nat (S (length a))) with (8 + 8 * Z.of_nat (length a)) by lia.
    rewrite Z.pow_add_r by lia. lia.
Qed.

Lemma le_decode_encode_8 z : is_u64 z -> le_decode (le_encode 8 z) = z.
Proof. intros H. rewrite le_decode_encode. apply Z.mod_small. exact H. Qed.

Lemma be_decode_encode_8 z : is_u64 z -> be_decode (be_encode 8 z) = z.
Proof. unfold be_decode, be_encode. rewrite rev_involutive. apply le_decode_encode_8. Qed.

Lemma be_decode_app a b :
  be_decode (a ++ b) = be_decode a * 2 ^ (8 * zlen b) + be_decode b.
Proof.
  unfold be_decode. rewrite rev_app_distr, le_decode_app. unfold zlen. rewrite length_rev. lia.
Qed.

Lemma length_to_array n src : length (to_array n src) = n.
Proof. unfold to_array, zeros. rewrite length_take, length_app, length_replicate. lia. Qed.

Lemma to_array_id n src : length src = n -> to_array n src = src.
Proof. intros <-. unfold to_array. by rewrite take_app_length. Qed.

Lemma zlen_app {A} (a b : list A) : zlen (a ++ b) = zlen a + zlen b.
Proof. unfold zlen. rewrite length_app. lia. Qed.

Lemma zlen_nonneg {A} (l : list A) : 0 <= zlen l.
Proof. unfold zlen. lia. Qed.

#[export] Hint Rewrite @length_app @length_take @length_drop @length_replicate length_le_encode
  length_be_encode length_to_array : go.
#[export] Hint Resolve u64_range i64_range bytes_ok_le_encode bytes_ok_be_encode : go.

(** A successful loop runs its body successfully at every index. *)
Lemma for_each_ok_inv {A St} (I : nat -> St -> Prop) (l : list A) i (s s' : St) body :
  for_each l i s body = Ok s' ->
  I i s ->
  (forall j x t t', l !! j = Some x -> I (i + j)%nat t -> body (i + j)%nat x t = Ok t' ->
     I (Datatypes.S (i + j)) t') ->
  I (i + length l)%nat s'.
Proof.
  revert i s. induction l as [|x l IH]; intros i s Hrun HI Hstep; cbn in *.
  - inv Hrun. by rewrite Nat.add_0_r.
  - destruct (body i x s) as [t| |] eqn:E; try discriminate. cbn in Hrun.
    replace (i + Datatypes.S (length l))%nat with (Datatypes.S i + length l)%nat by lia.
    apply (IH (Datatypes.S i) t Hrun).
    + specialize (Hstep 0%nat x s t eq_refl). rewrite Nat.add_0_r in Hstep. auto.
    + intros j y u u' Hj. specialize (Hstep (Datatypes.S j) y u u' Hj).
      by rewrite Nat.add_succ_r in Hstep.
Qed.

(** Indexing a successful loop: each element was visited with some state. *)
Lemma for_each_ok_elem {A St} (l : list A) i (s s' : St) body j x :
  for_each l i s body = Ok s' -> l !! j = Some x ->
  exists t t', body (i + j)%nat x t = Ok t'.
Proof.
  revert i s j. induction l as [|y l IH]; intros i s j Hrun Hj; [done|].
  cbn in Hrun. destruct (body i y s) as [t| |] eqn:E; try discriminate. cbn in Hrun.
  destruct j as [|j]; cbn in Hj.
  - inv Hj. rewrite Nat.add_0_r. eauto.
  - destruct (IH _ _ _ Hrun Hj) as (u & u' & Hu). rewrite Nat.add_succ_r. eauto.
Qed.
