(* ===== verification/TypesCurrency.v ===== *)
(** * [core/types/currency.go]: 128-bit currency arithmetic

    [Currency] is the two-limb unsigned integer of the source.  Operations that
    the source lets panic return [outcome]. *)
From stdpp Require Import prelude strings.
From Stdlib Require Import ZArith Lia.
From S2P Require Import Prelude.

Module Currency.

Record Currency : Type := mk { Lo : Z; Hi : Z }.

Global Instance currency_eq_dec : EqDecision Currency.
Proof. solve_decision. Defined.

Definition NewCurrency (lo hi : Z) : Currency := mk lo hi.
Definition NewCurrency64 (c : Z) : Currency := mk c 0.

Definition ZeroCurrency : Currency := mk 0 0.
Definition MaxCurrency : Currency :=
  NewCurrency 18446744073709551615 18446744073709551615.
Definition HastingsPerSiacoin : Currency := NewCurrency 2003764205206896640 54210.

Definition IsZero (c : Currency) : bool := bool_decide (c = ZeroCurrency).
Definition Equals (c v : Currency) : bool := bool_decide (c = v).

Definition Cmp (c v : Currency) : Z :=
  if bool_decide (c = v) then 0
  else if (Hi c <? Hi v) || ((Hi c =? Hi v) && (Lo c <? Lo v)) then -1
  else 1.

Definition AddWithOverflow (c v : Currency) : Currency * bool :=
  let '(lo, carry) := bits.Add64 (Lo c) (Lo v) 0 in
  let '(hi, carry) := bits.Add64 (Hi c) (Hi v) carry in
  (mk lo hi, negb (carry =? 0)).

Definition Add (c v : Currency) : outcome Currency :=
  let '(s, overflow) := AddWithOverflow c v in
  if overflow then Panic "overflow" else Ok s.

Definition SubWithUnderflow (c v : Currency) : Currency * bool :=
  let '(lo, borrow) := bits.Sub64 (Lo c) (Lo v) 0 in
  let '(hi, borrow) := bits.Sub64 (Hi c) (Hi v) borrow in
  (mk lo hi, negb (borrow =? 0)).

Definition Sub (c v : Currency) : outcome Currency :=
  let '(s, underflow) := SubWithUnderflow c v in
  if underflow then Panic "underflow" else Ok s.

Definition MulWithOverflow (c v : Currency) : Currency * bool :=
  let '(hi, lo) := bits.Mul64 (Lo c) (Lo v) in
  let '(p0, p1) := bits.Mul64 (Hi c) (Lo v) in
  let '(p2, p3) := bits.Mul64 (Lo c) (Hi v) in
  let '(hi, c0) := bits.Add64 hi p1 0 in
  let '(hi, c1) := bits.Add64 hi p3 c0 in
  (mk lo hi,
   (negb (Hi c =? 0) && negb (Hi v =? 0)) || negb (p0 =? 0) || negb (p2 =? 0) || negb (c1 =? 0)).

Definition Mul (c v : Currency) : outcome Currency :=
  let '(s, overflow) := MulWithOverflow c v in
  if overflow then Panic "overflow" else Ok s.

Definition Mul64WithOverflow (c : Currency) (v : Z) : Currency * bool :=
  let '(hi0, lo0) := bits.Mul64 (Lo c) v in
  let '(hi1, lo1) := bits.Mul64 (Hi c) v in
  let '(hi2, c0) := bits.Add64 hi0 lo1 0 in
  (mk lo0 hi2, negb (hi1 =? 0) || negb (c0 =? 0)).

Definition Mul64 (c : Currency) (v : Z) : outcome Currency :=
  let '(s, overflow) := Mul64WithOverflow c v in
  if overflow then Panic "overflow" else Ok s.

Definition quoRem64 (c : Currency) (v : Z) : outcome (Currency * Z) :=
  if Hi c <? v then
    '(lo, r) ← bits.Div64 (Hi c) (Lo c) v;
    Ok (mk lo 0, r)
  else
    '(hi, r) ← bits.Div64 0 (Hi c) v;
    '(lo, r) ← bits.Div64 r (Lo c) v;
    Ok (mk lo hi, r).

(** The increment [if q.Lo++; q.Lo == 0 { q.Hi++ }]. *)
Definition incr (q : Currency) : Currency :=
  let lo := u64 (Lo q + 1) in
  mk lo (if lo =? 0 then u64 (Hi q + 1) else Hi q).

Definition quoRem (c v : Currency) : outcome (Currency * Currency) :=
  if Hi v =? 0 then
    '(q, r64) ← quoRem64 c (Lo v);
    Ok (q, NewCurrency64 r64)
  else
    let n := bits.LeadingZeros64 (Hi v) in
    let v1 := NewCurrency (u64 (Z.shiftl (Lo v) n))
                (Z.lor (u64 (Z.shiftl (Hi v) n)) (Z.shiftr (Lo v) (64 - n))) in
    let u1 := NewCurrency (Z.lor (Z.shiftr (Lo c) 1) (u64 (Z.shiftl (Hi c) 63)))
                (Z.shiftr (Hi c) 1) in
    '(tq, _) ← bits.Div64 (Hi u1) (Lo u1) (Hi v1);
    let tq := Z.shiftr tq (63 - n) in
    let tq := if tq =? 0 then tq else tq - 1 in
    let q := NewCurrency64 tq in
    m ← Mul64 v tq;
    r ← Sub c m;
    if 0 <=? Cmp r v then
      r' ← Sub r v;
      Ok (incr q, r')
    else Ok (q, r).

Definition Div (c v : Currency) : outcome Currency :=
  '(q, _) ← quoRem c v; Ok q.

Definition Div64 (c : Currency) (v : Z) : outcome Currency :=
  '(q, _) ← quoRem64 c v; Ok q.

(** [func Siacoins(n uint32) Currency] *)
Definition Siacoins (n : Z) : outcome Currency := Mul64 HastingsPerSiacoin n.

(** [c.Big()]: the value as a big integer. *)
Definition Big (c : Currency) : Z := be_decode (be_encode 8 (Hi c) ++ be_encode 8 (Lo c)).

(** ** Specification: the value of a well-formed currency *)

Definition val (c : Currency) : Z := Lo c + two64 * Hi c.
Definition ok (c : Currency) : Prop := is_u64 (Lo c) /\ is_u64 (Hi c).

(** The currency holding [z mod 2^128]. *)
Definition of_Z (z : Z) : Currency := mk (z mod two64) (z / two64 mod two64).

Lemma ok_val c : ok c -> 0 <= val c < two128.
Proof. unfold ok, val, is_u64. lia. Qed.

Lemma val_inj c v : ok c -> ok v -> val c = val v -> c = v.
Proof. destruct c, v. unfold ok, val, is_u64; cbn. intros. f_equal; lia. Qed.

Lemma of_Z_ok z : ok (of_Z z).
Proof. unfold ok, of_Z, is_u64; cbn. pose proof (Z.mod_pos_bound z two64).
  pose proof (Z.mod_pos_bound (z / two64) two64). lia. Qed.

Lemma val_of_Z z : 0 <= z < two128 -> val (of_Z z) = z.
Proof.
  unfold val, of_Z; cbn. intros.
  rewrite (Z.mod_small (z / two64)).
  - pose proof (Z.div_mod z two64). lia.
  - split; [apply Z.div_pos|apply Z.div_lt_upper_bound]; lia.
Qed.

Lemma of_Z_val c : ok c -> of_Z (val c) = c.
Proof.
  intros H. apply val_inj; auto using of_Z_ok.
  apply val_of_Z, ok_val, H.
Qed.

Lemma zero_ok : ok ZeroCurrency.
Proof. unfold ok, is_u64; cbn; lia. Qed.

Lemma IsZero_val c : ok c -> IsZero c = (val c =? 0).
Proof.
  intros H. unfold IsZero. case_bool_decide as E.
  - subst. reflexivity.
  - symmetry. apply Z.eqb_neq. intros E'. apply E, val_inj; auto using zero_ok.
Qed.

Lemma Equals_val c v : ok c -> ok v -> Equals c v = (val c =? val v).
Proof.
  intros Hc Hv. unfold Equals. case_bool_decide as E.
  - subst. symmetry. apply Z.eqb_refl.
  - symmetry. apply Z.eqb_neq. intros E'. by apply E, val_inj.
Qed.

Lemma Cmp_spec c v : ok c -> ok v ->
  Cmp c v = (if val c =? val v then 0 else if val c <? val v then -1 else 1).
Proof.
  intros Hc Hv. unfold Cmp. rewrite <- (Equals_val c v Hc Hv). unfold Equals.
  case_bool_decide as E; [done|].
  assert (val c <> val v) by (intros ?; by apply E, val_inj).
  unfold ok, val, is_u64 in *.
  destruct ((Hi c <? Hi v) || ((Hi c =? Hi v) && (Lo c <? Lo v))) eqn:B;
    destruct (Lo c + two64 * Hi c <? Lo v + two64 * Hi v) eqn:L; bool_lia.
Qed.

Lemma AddWithOverflow_spec c v : ok c -> ok v ->
  AddWithOverflow c v = (of_Z (val c + val v), two128 <=? val c + val v).
Proof.
  unfold ok, is_u64. intros Hc Hv. unfold AddWithOverflow.
  pose proof (add64_spec (Lo c) (Lo v) 0) as H1.
  destruct (bits.Add64 (Lo c) (Lo v) 0) as [lo c1].
  pose proof (add64_spec (Hi c) (Hi v) c1) as H2.
  destruct (bits.Add64 (Hi c) (Hi v) c1) as [hi c2].
  unfold is_u64 in *. destruct H1, H2.
  assert (val c + val v = lo + two64 * hi + two128 * c2) as E by (unfold val; lia).
  f_equal.
  - unfold of_Z. rewrite E.
    replace (lo + two64 * hi + two128 * c2) with (lo + (hi + c2 * two64) * two64) by lia.
    rewrite Z_mod_plus_full, Z.div_add, Z.mod_small, (Z.div_small lo) by lia.
    rewrite Z.add_0_l, Z_mod_plus_full, Z.mod_small by lia. done.
  - rewrite E. destruct (c2 =? 0) eqn:B; cbn; symmetry; bool_lia.
Qed.

Lemma SubWithUnderflow_spec c v : ok c -> ok v ->
  SubWithUnderflow c v = (of_Z (val c - val v), val c <? val v).
Proof.
  unfold ok, is_u64. intros Hc Hv. unfold SubWithUnderflow, bits.Sub64.
  set (b := if Lo c <? Lo v + 0 then 1 else 0).
  set (b2 := if Hi c <? Hi v + b then 1 else 0).
  assert (0 <= Lo c - Lo v - 0 + two64 * b < two64) as Hlo.
  { unfold b. destruct (Lo c <? Lo v + 0) eqn:?; bool_lia. }
  assert (0 <= Hi c - Hi v - b + two64 * b2 < two64) as Hhi.
  { unfold b2, b in *. destruct (Lo c <? Lo v + 0) eqn:?;
      destruct (Hi c <? Hi v + _) eqn:?; bool_lia. }
  f_equal.
  - unfold of_Z. f_equal.
    + unfold u64. replace (val c - val v) with (Lo c - Lo v - 0 + (Hi c - Hi v) * two64)
        by (unfold val; lia). by rewrite Z_mod_plus_full.
    + unfold u64. replace (val c - val v)
        with ((Lo c - Lo v - 0 + two64 * b) + (Hi c - Hi v - b) * two64) by (unfold val; lia).
      rewrite Z.div_add, (Z.div_small (Lo c - Lo v - 0 + two64 * b)), Z.add_0_l by lia. done.
  - unfold val. unfold b2 in *. destruct (Hi c <? Hi v + b) eqn:?; cbn; symmetry; bool_lia.
Qed.

Lemma Mul64WithOverflow_spec c v : ok c -> is_u64 v ->
  Mul64WithOverflow c v = (of_Z (val c * v), two128 <=? val c * v).
Proof.
  unfold ok, is_u64. intros Hc Hv. unfold Mul64WithOverflow.
  pose proof (mul64_spec (Lo c) v) as H1. destruct (bits.Mul64 (Lo c) v) as [hi0 lo0].
  pose proof (mul64_spec (Hi c) v) as H2. destruct (bits.Mul64 (Hi c) v) as [hi1 lo1].
  pose proof (add64_spec hi0 lo1 0) as H3. destruct (bits.Add64 hi0 lo1 0) as [hi2 c0].
  unfold is_u64 in *. destruct H1, H2, H3.
  assert (0 <= hi0) by nia. assert (0 <= hi1) by nia. assert (0 <= c0) by nia.
  assert (val c * v = lo0 + two64 * hi2 + two128 * (hi1 + c0)) as E by (unfold val; nia).
  f_equal.
  - unfold of_Z. rewrite E.
    replace (lo0 + two64 * hi2 + two128 * (hi1 + c0))
      with (lo0 + (hi2 + (hi1 + c0) * two64) * two64) by lia.
    rewrite Z_mod_plus_full, Z.div_add, Z.mod_small, (Z.div_small lo0) by lia.
    rewrite Z.add_0_l, Z_mod_plus_full, Z.mod_small by lia. done.
  - rewrite E. destruct (hi1 =? 0) eqn:?, (c0 =? 0) eqn:?; cbn; symmetry; bool_lia.
Qed.

(** The panicking operations, as partial operations on values. *)
Lemma Add_spec c v : ok c -> ok v ->
  Add c v = if two128 <=? val c + val v then Panic "overflow" else Ok (of_Z (val c + val v)).
Proof. intros. unfold Add. by rewrite AddWithOverflow_spec. Qed.

Lemma Sub_spec c v : ok c -> ok v ->
  Sub c v = if val c <? val v then Panic "underflow" else Ok (of_Z (val c - val v)).
Proof. intros. unfold Sub. by rewrite SubWithUnderflow_spec. Qed.

Lemma Mul64_spec c v : ok c -> is_u64 v ->
  Mul64 c v = if two128 <=? val c * v then Panic "overflow" else Ok (of_Z (val c * v)).
Proof. intros. unfold Mul64. by rewrite Mul64WithOverflow_spec. Qed.

(** ** Division *)

Lemma div64_ok hi lo y : 0 <= hi < y -> is_u64 lo -> 0 < y < two64 ->
  bits.Div64 hi lo y = Ok ((hi * two64 + lo) / y, (hi * two64 + lo) mod y) /\
  0 <= (hi * two64 + lo) / y < two64.
Proof.
  unfold is_u64. intros Hh Hl Hy. unfold bits.Div64.
  destruct (y =? 0) eqn:?; [bool_lia|]. destruct (y <=? hi) eqn:?; [bool_lia|].
  split; [done|]. split; [apply Z.div_pos; lia|]. apply Z.div_lt_upper_bound; nia.
Qed.

Lemma quoRem64_spec c v : ok c -> is_u64 v ->
  quoRem64 c v =
    if v =? 0 then Panic "integer divide by zero"
    else Ok (of_Z (val c / v), val c mod v).
Proof.
  unfold ok, is_u64. intros Hc Hv. unfold quoRem64.
  destruct (v =? 0) eqn:E0.
  { apply Z.eqb_eq in E0. subst. by rewrite (proj2 (Z.ltb_ge _ _)) by lia. }
  apply Z.eqb_neq in E0. destruct (Hi c <? v) eqn:Hlt.
  - apply Z.ltb_lt in Hlt.
    destruct (div64_ok (Hi c) (Lo c) v) as [-> Hq]; [unfold is_u64; lia..|]. cbn [mbind outcome_bind].
    replace (Hi c * two64 + Lo c) with (val c) in * by (unfold val; lia).
    unfold of_Z. rewrite (Z.mod_small (val c / v)), (Z.div_small (val c / v)) by lia. done.
  - apply Z.ltb_ge in Hlt.
    destruct (div64_ok 0 (Hi c) v) as [-> Hq1]; [unfold is_u64; lia..|]. cbn [mbind outcome_bind].
    change (0 * two64 + Hi c) with (Hi c) in *.
    pose proof (Z.mod_pos_bound (Hi c) v ltac:(lia)) as Hr.
    destruct (div64_ok (Hi c mod v) (Lo c) v) as [-> Hq2]; [unfold is_u64; lia..|].
    cbn [mbind outcome_bind].
    pose proof (Z.div_mod (Hi c) v ltac:(lia)) as Hd.
    assert (val c = (Hi c mod v * two64 + Lo c) + (Hi c / v * two64) * v) as E
      by (unfold val; lia).
    rewrite E, Z.div_add, Z_mod_plus_full by lia.
    unfold of_Z. rewrite Z_mod_plus_full, Z.div_add, (Z.div_small (_ / _)) by lia.
    rewrite Z.add_0_l, (Z.mod_small (Hi c / v)), (Z.mod_small (_ / v)) by lia. done.
Qed.

Lemma Div64_spec c v : ok c -> is_u64 v ->
  Div64 c v = if v =? 0 then Panic "integer divide by zero" else Ok (of_Z (val c / v)).
Proof. intros. unfold Div64. rewrite quoRem64_spec by done. by destruct (v =? 0). Qed.

Lemma lor_disjoint a b n : 0 <= n -> 0 <= b < 2 ^ n -> Z.lor (a * 2 ^ n) b = a * 2 ^ n + b.
Proof.
  intros Hn Hb. symmetry. rewrite Z.add_nocarry_lxor, Z.lxor_lor; [done|..];
  apply Z.bits_inj'; intros i Hi; rewrite Z.land_spec, Z.bits_0;
  (destruct (Z.lt_ge_cases i n) as [Hlt|Hge];
   [by rewrite Z.mul_pow2_bits_low by lia
   |by rewrite <- (Z.mod_small b (2 ^ n)), Z.mod_pow2_bits_high, andb_false_r by lia]).
Qed.

(** *** The trial-quotient division [quoRem] *)

Lemma log2_norm x : 0 < x < two64 ->
  let n := bits.LeadingZeros64 x in
  0 <= n <= 63 /\ 2 ^ 63 <= x * 2 ^ n < two64.
Proof.
  intros Hx. unfold bits.LeadingZeros64, bits.Len64.
  destruct (x =? 0) eqn:?; [bool_lia|]. cbv zeta.
  pose proof (Z.log2_spec x ltac:(lia)) as [Hl Hu].
  assert (0 <= Z.log2 x) by apply Z.log2_nonneg.
  assert (Z.log2 x < 64) by (apply Z.log2_lt_pow2; lia).
  replace (64 - (Z.log2 x + 1)) with (63 - Z.log2 x) by lia.
  split; [lia|].
  assert (2 ^ 63 = 2 ^ Z.log2 x * 2 ^ (63 - Z.log2 x)) as E63
    by (rewrite <- Z.pow_add_r by lia; f_equal; lia).
  assert (two64 = 2 ^ (Z.succ (Z.log2 x)) * 2 ^ (63 - Z.log2 x)) as E64
    by (rewrite <- Z.pow_add_r by lia; change two64 with (2 ^ 64); f_equal; lia).
  pose proof (Z.pow_pos_nonneg 2 (63 - Z.log2 x) ltac:(lia) ltac:(lia)). nia.
Qed.

(** The high limb of [v << n] is [v / 2^(64-n)]. *)
Lemma shl_hi v n : ok v -> 0 <= n <= 63 -> Hi v * 2 ^ n < two64 ->
  Z.lor (u64 (Z.shiftl (Hi v) n)) (Z.shiftr (Lo v) (64 - n)) = val v / 2 ^ (64 - n).
Proof.
  unfold ok, is_u64. intros [Hl Hh] Hn Hb.
  rewrite Z.shiftl_mul_pow2, Z.shiftr_div_pow2 by lia.
  unfold u64. rewrite Z.mod_small by nia.
  assert (two64 = 2 ^ n * 2 ^ (64 - n)) as E64
    by (rewrite <- Z.pow_add_r by lia; change two64 with (2 ^ 64); f_equal; lia).
  pose proof (Z.pow_pos_nonneg 2 (64 - n) ltac:(lia) ltac:(lia)).
  rewrite lor_disjoint; [|lia|split; [apply Z.div_pos; lia|apply Z.div_lt_upper_bound; lia]].
  unfold val. replace (two64 * Hi v) with (Hi v * 2 ^ n * 2 ^ (64 - n)) by nia.
  rewrite Z.div_add by lia. lia.
Qed.

(** [u1 = c >> 1], limb by limb. *)
Lemma shr_one c : ok c ->
  Z.lor (Z.shiftr (Lo c) 1) (u64 (Z.shiftl (Hi c) 63)) = val c / 2 mod two64 /\
  Z.shiftr (Hi c) 1 = val c / 2 / two64.
Proof.
  unfold ok, is_u64. intros [Hl Hh]. rewrite !Z.shiftr_div_pow2, Z.shiftl_mul_pow2 by lia.
  change (2 ^ 1) with 2. split.
  - rewrite Z.lor_comm. unfold u64.
    replace (Hi c * 2 ^ 63 mod two64) with (Hi c mod 2 * 2 ^ 63).
    2:{ change two64 with (2 * 2 ^ 63). rewrite Zmult_mod_distr_r. done. }
    change (2 ^ 63) with two63. rewrite (lor_disjoint _ _ 63); [|lia|].
    2:{ change (2 ^ 63) with two63. split; [apply Z.div_pos|apply Z.div_lt_upper_bound]; lia. }
    change (2 ^ 63) with two63. unfold val.
    replace (Lo c + two64 * Hi c) with (Lo c + two63 * Hi c * 2) by lia.
    rewrite Z.div_add by lia.
    pose proof (Z.div_mod (Hi c) 2 ltac:(lia)). pose proof (Z.mod_pos_bound (Hi c) 2 ltac:(lia)).
    assert (0 <= Lo c / 2 < two63)
      by (split; [apply Z.div_pos|apply Z.div_lt_upper_bound]; lia).
    replace (Lo c / 2 + two63 * Hi c)
      with (Hi c mod 2 * two63 + Lo c / 2 + Hi c / 2 * two64) by lia.
    rewrite Z_mod_plus_full. symmetry. apply Z.mod_small. lia.
  - rewrite Z.div_div, (Z.mul_comm 2 two64), <- Z.div_div by lia. f_equal.
    unfold val. rewrite (Z.mul_comm two64 (Hi c)), Z.div_add, Z.div_small by lia. lia.
Qed.

(** The estimate is at most one above the quotient. *)
Lemma trial_bound V W c k : 1 <= k <= 64 ->
  2 ^ (63 + k) <= W -> W <= V <= W + 2 ^ k - 1 -> 0 <= c < two128 ->
  c / V <= c / W <= c / V + 1.
Proof.
  intros Hk HW HV Hc.
  pose proof (Z.pow_pos_nonneg 2 k ltac:(lia) ltac:(lia)) as Hk2.
  assert (2 ^ (63 + k) = two63 * 2 ^ k) as E by (rewrite Z.pow_add_r by lia; done).
  split; [apply Z.div_le_compat_l; lia|].
  set (q := c / V).
  assert (c < (q + 1) * V) as Hq.
  { pose proof (Z.div_mod c V ltac:(lia)). pose proof (Z.mod_pos_bound c V ltac:(lia)).
    unfold q. nia. }
  assert (0 <= q) by (apply Z.div_pos; lia).
  assert (2 ^ (65 - k) * 2 ^ (63 + k) = two128) as E2
    by (rewrite <- Z.pow_add_r by lia; change two128 with (2 ^ 128); f_equal; lia).
  assert (q * V <= c) as Hle by (pose proof (Z.mul_div_le c V ltac:(lia)); unfold q; lia).
  assert (q < 2 ^ (65 - k)) as Hqb by nia.
  assert ((q + 1) * (2 ^ k - 1) <= W) as Hkey.
  { destruct (Z.eq_dec k 1) as [->|].
    - change (2 ^ (65 - 1)) with two64 in *. change (2 ^ 1) with 2 in *.
      change (2 ^ (63 + 1)) with two64 in *. lia.
    - assert (2 ^ (65 - k) * 2 ^ k = 2 ^ 65) as E3
        by (rewrite <- Z.pow_add_r by lia; f_equal; lia).
      assert (2 ^ 65 <= 2 ^ (63 + k)) by (apply Z.pow_le_mono_r; lia).
      nia. }
  apply Z.lt_succ_r, Z.div_lt_upper_bound; nia.
Qed.

Lemma incr_spec tq : 0 <= tq < two64 -> incr (NewCurrency64 tq) = of_Z (tq + 1).
Proof.
  intros H. unfold incr, NewCurrency64, of_Z, u64; cbn.
  destruct (Z.eq_dec tq 18446744073709551615) as [->|]; [done|].
  rewrite !Z.mod_small, (Z.div_small (tq + 1)) by (rewrite ?Z.div_small; lia).
  destruct (tq + 1 =? 0) eqn:?; [bool_lia|done].
Qed.

Lemma of_Z_small z : 0 <= z < two64 -> of_Z z = NewCurrency64 z.
Proof. intros. unfold of_Z, NewCurrency64. rewrite Z.mod_small, Z.div_small by lia. done. Qed.

(** Adjusting a quotient estimate that is exact or one too small. *)
Lemma adjust_spec c v tq : ok c -> ok v -> two64 <= val v -> 0 <= tq ->
  val c / val v - 1 <= tq <= val c / val v ->
  (m ← Mul64 v tq;
   r ← Sub c m;
   if 0 <=? Cmp r v then r' ← Sub r v; Ok (incr (NewCurrency64 tq), r')
   else Ok (NewCurrency64 tq, r)) = Ok (of_Z (val c / val v), of_Z (val c mod val v)).
Proof.
  intros Hc Hv Hbig Htq Hest.
  pose proof (ok_val c Hc). pose proof (ok_val v Hv).
  pose proof (Z.div_mod (val c) (val v) ltac:(lia)) as Hdm.
  pose proof (Z.mod_pos_bound (val c) (val v) ltac:(lia)) as Hm.
  assert (val c / val v < two64) by (apply Z.div_lt_upper_bound; lia).
  set (q := val c / val v) in *.
  rewrite Mul64_spec by (auto; unfold is_u64; lia).
  destruct (two128 <=? val v * tq) eqn:?; [bool_lia || nia|]. cbn [mbind outcome_bind].
  assert (val (of_Z (val v * tq)) = val v * tq) as Em by (apply val_of_Z; nia).
  rewrite Sub_spec by auto using of_Z_ok. rewrite Em.
  destruct (val c <? val v * tq) eqn:?; [bool_lia || nia|]. cbn [mbind outcome_bind].
  assert (val (of_Z (val c - val v * tq)) = val c - val v * tq) as Er by (apply val_of_Z; nia).
  rewrite Cmp_spec, Sub_spec by auto using of_Z_ok. rewrite Er.
  assert (tq = q \/ tq = q - 1) as [->| ->] by lia.
  - replace (val c - val v * q) with (val c mod val v) by lia.
    destruct (_ =? val v) eqn:?; [bool_lia|]. destruct (_ <? val v) eqn:?; [|bool_lia].
    cbn. rewrite (of_Z_small q) by lia. done.
  - replace (val c - val v * (q - 1)) with (val c mod val v + val v) by lia.
    rewrite (proj2 (Z.ltb_ge (val c mod val v + val v) (val v))) by lia. rewrite Z.add_simpl_r.
    destruct (_ =? val v) eqn:?; cbn; rewrite incr_spec by lia; do 3 f_equal; lia.
Qed.

(** The trial quotient that [quoRem] computes for a divisor of at least 2^64. *)
Lemma trial_quotient c v : ok c -> ok v -> 0 < Hi v ->
  let n := bits.LeadingZeros64 (Hi v) in
  let v1hi := Z.lor (u64 (Z.shiftl (Hi v) n)) (Z.shiftr (Lo v) (64 - n)) in
  exists t r,
    bits.Div64 (Z.shiftr (Hi c) 1) (Z.lor (Z.shiftr (Lo c) 1) (u64 (Z.shiftl (Hi c) 63))) v1hi
      = Ok (t, r) /\
    0 <= Z.shiftr t (63 - n) /\
    val c / val v <= Z.shiftr t (63 - n) <= val c / val v + 1.
Proof.
  intros Hc Hv Hhi n v1hi.
  pose proof (ok_val c Hc) as Bc. pose proof Hv as [Hl Hh]. unfold is_u64 in Hl, Hh.
  destruct (log2_norm (Hi v)) as [Hn Hnorm]; [lia|]. fold n in Hn, Hnorm.
  unfold v1hi. rewrite shl_hi by (auto; lia).
  destruct (shr_one c Hc) as [-> ->].
  pose proof (Z.pow_pos_nonneg 2 (64 - n) ltac:(lia) ltac:(lia)) as Hk.
  assert (two64 = 2 ^ n * 2 ^ (64 - n)) as E64
    by (rewrite <- Z.pow_add_r by lia; change two64 with (2 ^ 64); f_equal; lia).
  set (D := val v / 2 ^ (64 - n)) in *.
  assert (Hi v * 2 ^ n <= D) as HD1.
  { apply Z.div_le_lower_bound; [lia|]. unfold val. nia. }
  assert (D < two64) as HD2.
  { apply Z.div_lt_upper_bound; [lia|]. unfold val. nia. }
  change (2 ^ 63) with two63 in Hnorm.
  destruct (div64_ok (val c / 2 / two64) (val c / 2 mod two64) D) as [-> _];
    [|apply u64_range|lia|].
  { split; [apply Z.div_pos; [apply Z.div_pos|]; lia|].
    apply Z.lt_le_trans with two63; [|lia].
    rewrite Z.div_div by lia. apply Z.div_lt_upper_bound; lia. }
  eexists _, _; split; [reflexivity|].
  replace (val c / 2 / two64 * two64 + val c / 2 mod two64) with (val c / 2)
    by (pose proof (Z.div_mod (val c / 2) two64 ltac:(lia)); lia).
  rewrite Z.shiftr_div_pow2 by lia.
  pose proof (Z.pow_pos_nonneg 2 (63 - n) ltac:(lia) ltac:(lia)).
  rewrite (Z.div_div (val c) 2), Z.div_div by lia.
  replace (2 * D * 2 ^ (63 - n)) with (D * 2 ^ (64 - n))
    by (replace (64 - n) with (1 + (63 - n)) by lia; rewrite Z.pow_add_r by lia; lia).
  split; [apply Z.div_pos; nia|].
  apply (trial_bound _ _ _ (64 - n)); [lia|..|lia].
  - rewrite Z.pow_add_r by lia. change (2 ^ 63) with two63. nia.
  - pose proof (Z.div_mod (val v) (2 ^ (64 - n)) ltac:(lia)).
    pose proof (Z.mod_pos_bound (val v) (2 ^ (64 - n)) ltac:(lia)). fold D in H0. nia.
Qed.

Lemma quoRem_total c v : ok c -> ok v -> v <> ZeroCurrency ->
  quoRem c v = Ok (of_Z (val c / val v), of_Z (val c mod val v)).
Proof.
  intros Hc Hv Hnz. pose proof Hv as [Hl Hh]. unfold is_u64 in Hl, Hh. unfold quoRem.
  destruct (Hi v =? 0) eqn:E.
  - apply Z.eqb_eq in E.
    assert (val v = Lo v) as -> by (unfold val; lia).
    assert (Lo v <> 0) by (intros ?; apply Hnz; destruct v; cbn in *; by subst).
    rewrite quoRem64_spec, (proj2 (Z.eqb_neq (Lo v) 0)) by (auto; lia). cbn [mbind outcome_bind].
    rewrite (of_Z_small (val c mod Lo v)); [done|].
    pose proof (Z.mod_pos_bound (val c) (Lo v) ltac:(lia)). lia.
  - apply Z.eqb_neq in E. cbv zeta. cbn [Hi Lo NewCurrency].
    destruct (trial_quotient c v Hc Hv ltac:(lia)) as (t & r & -> & Ht & Hest).
    cbn [mbind outcome_bind]. apply adjust_spec; auto; [unfold val; lia|..];
      destruct (Z.shiftr t _ =? 0) eqn:?; try bool_lia;
      pose proof (Z.div_pos (val c) (val v) ltac:(apply ok_val, Hc) ltac:(unfold val; lia)); bool_lia.
Qed.

(** ** Two-limb multiplication *)

(** [MulWithOverflow] is exact when the left factor fits in one limb. *)
(** The operations where the exact result is representable. *)
Lemma Add_ok c v : ok c -> ok v -> val c + val v < two128 -> Add c v = Ok (of_Z (val c + val v)).
Proof. intros Hc Hv H. rewrite Add_spec by done. by rewrite (proj2 (Z.leb_gt _ _)). Qed.

Lemma Sub_ok c v : ok c -> ok v -> val v <= val c -> Sub c v = Ok (of_Z (val c - val v)).
Proof. intros Hc Hv H. rewrite Sub_spec by done. by rewrite (proj2 (Z.ltb_ge _ _)). Qed.

Lemma Mul64_ok c v : ok c -> is_u64 v -> val c * v < two128 -> Mul64 c v = Ok (of_Z (val c * v)).
Proof. intros Hc Hv H. rewrite Mul64_spec by done. by rewrite (proj2 (Z.leb_gt _ _)). Qed.

Lemma Div64_ok c v : ok c -> is_u64 v -> 0 < v -> Div64 c v = Ok (of_Z (val c / v)).
Proof. intros Hc Hv H. rewrite Div64_spec by done. by destruct (Z.eqb_spec v 0); [lia|]. Qed.

(** A successful sum is exact. *)
Lemma Add_inv c v r : ok c -> ok v -> Add c v = Ok r -> ok r /\ val r = val c + val v.
Proof.
  intros Hc Hv. rewrite Add_spec by done. destruct (Z.leb_spec two128 (val c + val v)); [done|].
  intros [= <-]. pose proof (ok_val c Hc). pose proof (ok_val v Hv).
  split; [apply of_Z_ok|apply val_of_Z; lia].
Qed.

Lemma AddWithOverflow_inv c v r : ok c -> ok v -> AddWithOverflow c v = (r, false) ->
  ok r /\ val r = val c + val v.
Proof.
  intros Hc Hv. rewrite AddWithOverflow_spec by done. intros [= <- H].
  apply Z.leb_gt in H. pose proof (ok_val c Hc). pose proof (ok_val v Hv).
  split; [apply of_Z_ok|apply val_of_Z; lia].
Qed.

Lemma MulWithOverflow_small c v : ok c -> ok v -> Hi c = 0 ->
  MulWithOverflow c v = (of_Z (val c * val v), two128 <=? val c * val v).
Proof.
  unfold ok, is_u64. intros Hc Hv Hz. unfold MulWithOverflow. rewrite Hz.
  pose proof (mul64_spec (Lo c) (Lo v)) as H1. destruct (bits.Mul64 (Lo c) (Lo v)) as [hi lo].
  change (bits.Mul64 0 (Lo v)) with (0, 0). cbv iota beta.
  pose proof (mul64_spec (Lo c) (Hi v)) as H2. destruct (bits.Mul64 (Lo c) (Hi v)) as [p2 p3].
  assert (0 <= hi < two64) as Hhi by (unfold is_u64 in *; nia).
  replace (bits.Add64 hi 0 0) with (hi, 0).
  2:{ unfold bits.Add64, u64. rewrite Z.mod_small, Z.div_small by lia. f_equal; lia. }
  pose proof (add64_spec hi p3 0) as H3. destruct (bits.Add64 hi p3 0) as [h2 c1].
  unfold is_u64 in *. destruct H1, H2, H3.
  assert (0 <= p2) by nia. assert (0 <= c1) by nia.
  assert (val c * val v = lo + (h2 + (p2 + c1) * two64) * two64) as E
    by (unfold val; rewrite Hz; nia).
  f_equal.
  - unfold of_Z. rewrite E.
    rewrite Z_mod_plus_full, Z.div_add, Z.mod_small, (Z.div_small lo) by lia.
    rewrite Z.add_0_l, Z_mod_plus_full, Z.mod_small by lia. done.
  - rewrite E. destruct (p2 =? 0) eqn:?, (c1 =? 0) eqn:?; cbn; symmetry; bool_lia.
Qed.

End Currency.
Abbreviation Currency := Currency.Currency.

(** ** Properties *)

(** [quoRem] is total on non-zero divisors: its trial-quotient algorithm
    (normalising shift, 64-bit estimate, decrement, one correction) never
    panics and returns exactly the quotient and the remainder. *)
Theorem quoRem_correct c v :
  Currency.ok c -> Currency.ok v -> v <> Currency.ZeroCurrency ->
  exists q r, Currency.quoRem c v = Ok (q, r) /\
    Currency.ok q /\ Currency.ok r /\
    Currency.val c = Currency.val q * Currency.val v + Currency.val r /\
    0 <= Currency.val r < Currency.val v.
Proof.
  intros Hc Hv Hnz. rewrite (Currency.quoRem_total c v) by done.
  pose proof (Currency.ok_val c Hc) as Bc. pose proof (Currency.ok_val v Hv) as Bv.
  assert (0 < Currency.val v) as Hpos.
  { destruct (Z.eq_dec (Currency.val v) 0) as [E|]; [|lia]. destruct Hnz.
    apply Currency.val_inj; auto using Currency.zero_ok. }
  pose proof (Z.mod_pos_bound (Currency.val c) _ Hpos) as Hm.
  pose proof (Z.div_mod (Currency.val c) (Currency.val v) ltac:(lia)) as Hd.
  pose proof (Z.div_pos (Currency.val c) _ ltac:(lia) Hpos).
  pose proof (Z.mul_div_le (Currency.val c) _ Hpos).
  eexists _, _; split; [reflexivity|]. rewrite !Currency.val_of_Z by nia.
  auto 8 using Currency.of_Z_ok with lia.
Qed.

Lemma quoRem_correct_witness :
  exists q r, Currency.quoRem Currency.MaxCurrency Currency.HastingsPerSiacoin = Ok (q, r) /\
    Currency.ok q /\ Currency.ok r /\
    Currency.val Currency.MaxCurrency =
      Currency.val q * Currency.val Currency.HastingsPerSiacoin + Currency.val r /\
    0 <= Currency.val r < Currency.val Currency.HastingsPerSiacoin.
Proof.
  apply (quoRem_correct Currency.MaxCurrency Currency.HastingsPerSiacoin).
  - split; unfold is_u64; cbn; lia.
  - split; unfold is_u64; cbn; lia.
  - discriminate.
Defined.

(** The checked operations are exact: on well-formed operands each returns
    the mathematical result when it fits in 128 bits and panics exactly when it
    does not ([Div64] exactly when the divisor is zero). *)
Theorem currency_ops_exact c v n :
  Currency.ok c -> Currency.ok v -> is_u64 n ->
  Currency.Add c v = (if Currency.val c + Currency.val v <? two128
    then Ok (Currency.of_Z (Currency.val c + Currency.val v)) else Panic "overflow") /\
  Currency.Sub c v = (if Currency.val v <=? Currency.val c
    then Ok (Currency.of_Z (Currency.val c - Currency.val v)) else Panic "underflow") /\
  Currency.Mul64 c n = (if Currency.val c * n <? two128
    then Ok (Currency.of_Z (Currency.val c * n)) else Panic "overflow") /\
  Currency.Div64 c n = (if n =? 0 then Panic "integer divide by zero"
    else Ok (Currency.of_Z (Currency.val c / n))).
Proof.
  intros Hc Hv Hn.
  rewrite Currency.Add_spec, Currency.Sub_spec, Currency.Mul64_spec, Currency.Div64_spec by done.
  repeat split; rewrite ?Z.ltb_antisym, ?(Z.leb_antisym (Currency.val v));
    rewrite ?Z.ltb_antisym; by destruct (_ <=? _).
Qed.

Lemma currency_ops_exact_witness :
  Currency.Add Currency.MaxCurrency (Currency.NewCurrency64 1) = Panic "overflow" /\
  Currency.Sub Currency.MaxCurrency (Currency.NewCurrency64 1)
    = Ok (Currency.of_Z (two128 - 2)) /\
  Currency.Mul64 Currency.MaxCurrency 7 = Panic "overflow" /\
  Currency.Div64 Currency.MaxCurrency 7 = Ok (Currency.of_Z ((two128 - 1) / 7)).
Proof.
  apply (currency_ops_exact Currency.MaxCurrency (Currency.NewCurrency64 1) 7);
    repeat split; unfold is_u64; cbn; lia.
Defined.

(** [MulWithOverflow] is exact, including its overflow flag, whenever the
    receiver is below 2^64; but for a larger receiver the carry [c0] is folded
    back into the result instead of being reported, so there are operands whose
    product exceeds 128 bits for which no overflow is reported and the returned
    value is not even the product modulo 2^128. *)
Theorem MulWithOverflow_partial :
  (forall c v, Currency.ok c -> Currency.ok v -> Currency.Hi c = 0 ->
     Currency.MulWithOverflow c v =
       (Currency.of_Z (Currency.val c * Currency.val v),
        two128 <=? Currency.val c * Currency.val v)) /\
  (exists c v r, Currency.ok c /\ Currency.ok v /\
     two128 <= Currency.val c * Currency.val v /\
     Currency.MulWithOverflow c v = (r, false) /\
     r <> Currency.of_Z (Currency.val c * Currency.val v)).
Proof.
  split; [apply Currency.MulWithOverflow_small|].
  exists (Currency.mk 18446744073709551615 1), (Currency.mk 18446744073709551615 0).
  exists (Currency.mk 1 18446744073709551614).
  split; [|split; [|split; [|split]]]; [split; unfold is_u64; cbn; lia..|vm_compute; discriminate| |].
  - vm_compute. reflexivity.
  - vm_compute. discriminate.
Qed.
