(* ===== verification/TypesData.v ===== *)
(** * [core/types/types.go], [policy.go]: the data model

    One record per Go struct, one inductive per Go interface with a closed set
    of implementations.  Fixed-size arrays ([Hash256], [PublicKey], ...) are byte
    lists; [wf_*] predicates below give their lengths and the integer widths. *)
From stdpp Require Import prelude strings.
From Stdlib Require Import ZArith Lia.
From S2P Require Import Prelude TypesCurrency.

Abbreviation Hash256 := (list Z) (only parsing).
Abbreviation PublicKey := (list Z) (only parsing).
Abbreviation Signature := (list Z) (only parsing).
Abbreviation Specifier := (list Z) (only parsing).
Abbreviation Address := (list Z) (only parsing).
Abbreviation BlockID := (list Z) (only parsing).
Abbreviation TransactionID := (list Z) (only parsing).
Abbreviation SiacoinOutputID := (list Z) (only parsing).
Abbreviation SiafundOutputID := (list Z) (only parsing).
Abbreviation FileContractID := (list Z) (only parsing).
Abbreviation AttestationID := (list Z) (only parsing).
Abbreviation ElementID := (list Z) (only parsing).

Definition zeroHash : Hash256 := zeros 32.
Definition VoidAddress : Address := zeros 32.
Definition zeroSignature : Signature := zeros 64.

Definition UnassignedLeafIndex : Z := 10101010101010101010.

(** [func NewSpecifier(name string) (s Specifier)], for names of at most 16 bytes. *)
Definition NewSpecifier (name : string) : Specifier := to_array 16 (str_bytes name).
Definition SpecifierEd25519 : Specifier := NewSpecifier "ed25519".
Definition SpecifierSiacoinOutput : Specifier := NewSpecifier "siacoin output".
Definition SpecifierSiafundOutput : Specifier := NewSpecifier "siafund output".
Definition SpecifierFileContract : Specifier := NewSpecifier "file contract".
Definition SpecifierStorageProof : Specifier := NewSpecifier "storage proof".
Definition SpecifierFoundation : Specifier := NewSpecifier "foundation".
Definition SpecifierEntropy : Specifier := NewSpecifier "entropy".

(** ** [time.Time] and [time.Duration]

    A time is its number of nanoseconds since the internal epoch of package
    [time] (year 1); a duration is an [int64] number of nanoseconds. *)
Abbreviation Time := Z (only parsing).
Abbreviation Duration := Z (only parsing).
Definition Second : Duration := 1000000000.
Definition Hour : Duration := 3600 * Second.
Definition unixToInternal : Z := 62135596800.
Definition time_Unix (sec : Z) : Time := i64 (sec + unixToInternal) * Second.
Definition Unix (t : Time) : Z := i64 (t / Second - unixToInternal).
(** [t.Sub(u)] saturates at the extreme durations. *)
Definition time_Sub (t u : Time) : Duration := Z.max (- two63) (Z.min (two63 - 1) (t - u)).
Definition time_Before (t u : Time) : bool := t <? u.
Definition time_After (t u : Time) : bool := u <? t.
Definition time_Add (t : Time) (d : Duration) : Time := t + d.
(** Go's integer division truncates towards zero. *)
Definition dur_div (a b : Z) : Z := Z.quot a b.

(** ** Unlock conditions and v1 transactions *)

Record UnlockKey := { uk_Algorithm : Specifier; uk_Key : bytes }.

Record UnlockConditions := {
  uc_Timelock : Z; uc_PublicKeys : list UnlockKey; uc_SignaturesRequired : Z }.

Record ChainIndex := { ci_Height : Z; ci_ID : BlockID }.

Record SiacoinOutput := { sco_Value : Currency; sco_Address : Address }.

Record SiacoinInput := { sci_ParentID : SiacoinOutputID; sci_UnlockConditions : UnlockConditions }.

Record SiafundOutput := { sfo_Value : Z; sfo_Address : Address }.

Record SiafundInput := {
  sfi_ParentID : SiafundOutputID; sfi_UnlockConditions : UnlockConditions;
  sfi_ClaimAddress : Address }.

Record FileContract := {
  fc_Filesize : Z; fc_FileMerkleRoot : Hash256; fc_WindowStart : Z; fc_WindowEnd : Z;
  fc_Payout : Currency; fc_ValidProofOutputs : list SiacoinOutput;
  fc_MissedProofOutputs : list SiacoinOutput; fc_UnlockHash : Address; fc_RevisionNumber : Z }.

Record FileContractRevision := {
  fcr_ParentID : FileContractID; fcr_UnlockConditions : UnlockConditions;
  fcr_FileContract : FileContract }.

Record StorageProof := { sp_ParentID : FileContractID; sp_Leaf : bytes; sp_Proof : list Hash256 }.

Record FoundationAddressUpdate := { fau_NewPrimary : Address; fau_NewFailsafe : Address }.

Record CoveredFields := {
  cf_WholeTransaction : bool; cf_SiacoinInputs : list Z; cf_SiacoinOutputs : list Z;
  cf_FileContracts : list Z; cf_FileContractRevisions : list Z; cf_StorageProofs : list Z;
  cf_SiafundInputs : list Z; cf_SiafundOutputs : list Z; cf_MinerFees : list Z;
  cf_ArbitraryData : list Z; cf_Signatures : list Z }.

Record TransactionSignature := {
  ts_ParentID : Hash256; ts_PublicKeyIndex : Z; ts_Timelock : Z;
  ts_CoveredFields : CoveredFields; ts_Signature : bytes }.

Record Transaction := {
  tx_SiacoinInputs : list SiacoinInput; tx_SiacoinOutputs : list SiacoinOutput;
  tx_FileContracts : list FileContract; tx_FileContractRevisions : list FileContractRevision;
  tx_StorageProofs : list StorageProof; tx_SiafundInputs : list SiafundInput;
  tx_SiafundOutputs : list SiafundOutput; tx_MinerFees : list Currency;
  tx_ArbitraryData : list bytes; tx_Signatures : list TransactionSignature }.

(** ** Spend policies

    The interface field [Type] with its eight implementations; a nil interface
    (a developer error on which the code panics) has no counterpart. *)
#[warnings="-register-all"]
Inductive SpendPolicy : Type :=
| PolicyTypeAbove (height : Z)
| PolicyTypeAfter (t : Time)
| PolicyTypePublicKey (pk : PublicKey)
| PolicyTypeHash (h : Hash256)
| PolicyTypeSLHDSA (pk : bytes)
| PolicyTypeThreshold (N : Z) (Of : list SpendPolicy)
| PolicyTypeOpaque (a : Address)
| PolicyTypeUnlockConditions (uc : UnlockConditions).

Section SpendPolicy_ind.
Variable P : SpendPolicy -> Prop.
Hypothesis HAbove : forall h, P (PolicyTypeAbove h).
Hypothesis HAfter : forall t, P (PolicyTypeAfter t).
Hypothesis HPublicKey : forall pk, P (PolicyTypePublicKey pk).
Hypothesis HHash : forall h, P (PolicyTypeHash h).
Hypothesis HSLHDSA : forall pk, P (PolicyTypeSLHDSA pk).
Hypothesis HThreshold : forall n ps, Forall P ps -> P (PolicyTypeThreshold n ps).
Hypothesis HOpaque : forall a, P (PolicyTypeOpaque a).
Hypothesis HUC : forall uc, P (PolicyTypeUnlockConditions uc).

Fixpoint SpendPolicy_ind' (p : SpendPolicy) : P p :=
  match p with
  | PolicyTypeAbove h => HAbove h
  | PolicyTypeAfter t => HAfter t
  | PolicyTypePublicKey pk => HPublicKey pk
  | PolicyTypeHash h => HHash h
  | PolicyTypeSLHDSA pk => HSLHDSA pk
  | PolicyTypeThreshold n ps =>
      HThreshold n ps
        ((fix go l := match l return Forall P l with
           | [] => Forall_nil_2 P
           | q :: l' => Forall_cons_2 P q l' (SpendPolicy_ind' q) (go l') end) ps)
  | PolicyTypeOpaque a => HOpaque a
  | PolicyTypeUnlockConditions uc => HUC uc
  end.
End SpendPolicy_ind.

Record SatisfiedPolicy := {
  sat_Policy : SpendPolicy; sat_Signatures : list Signature; sat_Preimages : list bytes }.

(** ** v2 elements and transactions *)

Record V2FileContract := {
  v2fc_Capacity : Z; v2fc_Filesize : Z; v2fc_FileMerkleRoot : Hash256;
  v2fc_ProofHeight : Z; v2fc_ExpirationHeight : Z;
  v2fc_RenterOutput : SiacoinOutput; v2fc_HostOutput : SiacoinOutput;
  v2fc_MissedHostValue : Currency; v2fc_TotalCollateral : Currency;
  v2fc_RenterPublicKey : PublicKey; v2fc_HostPublicKey : PublicKey;
  v2fc_RevisionNumber : Z; v2fc_RenterSignature : Signature; v2fc_HostSignature : Signature }.

(** [shared] guards against mutating aliased Merkle proofs. *)
Record StateElement := { se_LeafIndex : Z; se_MerkleProof : list Hash256; se_shared : bool }.

Record ChainIndexElement := {
  cie_ID : BlockID; cie_StateElement : StateElement; cie_ChainIndex : ChainIndex }.

Record SiacoinElement := {
  sce_ID : SiacoinOutputID; sce_StateElement : StateElement;
  sce_SiacoinOutput : SiacoinOutput; sce_MaturityHeight : Z }.

Record SiafundElement := {
  sfe_ID : SiafundOutputID; sfe_StateElement : StateElement;
  sfe_SiafundOutput : SiafundOutput; sfe_ClaimStart : Currency }.

Record FileContractElement := {
  fce_ID : FileContractID; fce_StateElement : StateElement; fce_FileContract : FileContract }.

Record V2FileContractElement := {
  v2fce_ID : FileContractID; v2fce_StateElement : StateElement;
  v2fce_V2FileContract : V2FileContract }.

Record Attestation := {
  at_PublicKey : PublicKey; at_Key : bytes; at_Value : bytes; at_Signature : Signature }.

Record AttestationElement := {
  ae_ID : AttestationID; ae_StateElement : StateElement; ae_Attestation : Attestation }.

Record V2SiacoinInput := { v2sci_Parent : SiacoinElement; v2sci_SatisfiedPolicy : SatisfiedPolicy }.

Record V2SiafundInput := {
  v2sfi_Parent : SiafundElement; v2sfi_ClaimAddress : Address;
  v2sfi_SatisfiedPolicy : SatisfiedPolicy }.

Record V2FileContractRevision := {
  v2fcr_Parent : V2FileContractElement; v2fcr_Revision : V2FileContract }.

Record V2FileContractRenewal := {
  ren_FinalRenterOutput : SiacoinOutput; ren_FinalHostOutput : SiacoinOutput;
  ren_RenterRollover : Currency; ren_HostRollover : Currency;
  ren_NewContract : V2FileContract; ren_RenterSignature : Signature; ren_HostSignature : Signature }.

Record V2StorageProof := {
  v2sp_ProofIndex : ChainIndexElement; v2sp_Leaf : bytes; v2sp_Proof : list Hash256 }.

Inductive V2FileContractResolutionType : Type :=
| V2Renewal (r : V2FileContractRenewal)
| V2Proof (sp : V2StorageProof)
| V2FileContractExpiration.

Record V2FileContractResolution := {
  res_Parent : V2FileContractElement; res_Resolution : V2FileContractResolutionType }.

Record V2Transaction := {
  v2tx_SiacoinInputs : list V2SiacoinInput; v2tx_SiacoinOutputs : list SiacoinOutput;
  v2tx_SiafundInputs : list V2SiafundInput; v2tx_SiafundOutputs : list SiafundOutput;
  v2tx_FileContracts : list V2FileContract;
  v2tx_FileContractRevisions : list V2FileContractRevision;
  v2tx_FileContractResolutions : list V2FileContractResolution;
  v2tx_Attestations : list Attestation; v2tx_ArbitraryData : bytes;
  v2tx_NewFoundationAddress : option Address; v2tx_MinerFee : Currency }.

Record V2BlockData := {
  v2b_Height : Z; v2b_Commitment : Hash256; v2b_Transactions : list V2Transaction }.

Record BlockHeader := {
  bh_ParentID : BlockID; bh_Nonce : Z; bh_Timestamp : Time; bh_Commitment : Hash256 }.

Record Block := {
  b_ParentID : BlockID; b_Nonce : Z; b_Timestamp : Time; b_MinerPayouts : list SiacoinOutput;
  b_Transactions : list Transaction; b_V2 : option V2BlockData }.

Definition V2Transactions (b : Block) : list V2Transaction :=
  match b_V2 b with Some d => v2b_Transactions d | None => [] end.

Global Instance uk_eq_dec : EqDecision UnlockKey. Proof. solve_decision. Defined.
Global Instance uc_eq_dec : EqDecision UnlockConditions. Proof. solve_decision. Defined.
Global Instance sco_eq_dec : EqDecision SiacoinOutput. Proof. solve_decision. Defined.
Global Instance sfo_eq_dec : EqDecision SiafundOutput. Proof. solve_decision. Defined.
Global Instance ci_eq_dec : EqDecision ChainIndex. Proof. solve_decision. Defined.

(** ** Element memory management *)

(** [Move] panics on a shared element. *)
Definition StateElement_Move (se : StateElement) : outcome StateElement :=
  if se_shared se then Panic "Move called on shared StateElement" else Ok se.
Definition StateElement_Share (se : StateElement) : StateElement :=
  {| se_LeafIndex := se_LeafIndex se; se_MerkleProof := se_MerkleProof se; se_shared := true |}.
Definition StateElement_Copy (se : StateElement) : StateElement :=
  {| se_LeafIndex := se_LeafIndex se; se_MerkleProof := se_MerkleProof se; se_shared := false |}.

Definition set_sce_se (f : StateElement -> StateElement) (e : SiacoinElement) : SiacoinElement :=
  {| sce_ID := sce_ID e; sce_StateElement := f (sce_StateElement e);
     sce_SiacoinOutput := sce_SiacoinOutput e; sce_MaturityHeight := sce_MaturityHeight e |}.
Definition set_sfe_se (f : StateElement -> StateElement) (e : SiafundElement) : SiafundElement :=
  {| sfe_ID := sfe_ID e; sfe_StateElement := f (sfe_StateElement e);
     sfe_SiafundOutput := sfe_SiafundOutput e; sfe_ClaimStart := sfe_ClaimStart e |}.
Definition set_fce_se (f : StateElement -> StateElement) (e : FileContractElement)
    : FileContractElement :=
  {| fce_ID := fce_ID e; fce_StateElement := f (fce_StateElement e);
     fce_FileContract := fce_FileContract e |}.
Definition set_v2fce_se (f : StateElement -> StateElement) (e : V2FileContractElement)
    : V2FileContractElement :=
  {| v2fce_ID := v2fce_ID e; v2fce_StateElement := f (v2fce_StateElement e);
     v2fce_V2FileContract := v2fce_V2FileContract e |}.
Definition set_cie_se (f : StateElement -> StateElement) (e : ChainIndexElement)
    : ChainIndexElement :=
  {| cie_ID := cie_ID e; cie_StateElement := f (cie_StateElement e);
     cie_ChainIndex := cie_ChainIndex e |}.

Definition SiacoinElement_Share := set_sce_se StateElement_Share.
Definition SiacoinElement_Copy := set_sce_se StateElement_Copy.
Definition SiafundElement_Share := set_sfe_se StateElement_Share.
Definition SiafundElement_Copy := set_sfe_se StateElement_Copy.
Definition FileContractElement_Share := set_fce_se StateElement_Share.
Definition FileContractElement_Copy := set_fce_se StateElement_Copy.
Definition V2FileContractElement_Share := set_v2fce_se StateElement_Share.
Definition V2FileContractElement_Copy := set_v2fce_se StateElement_Copy.
Definition ChainIndexElement_Share := set_cie_se StateElement_Share.
Definition ChainIndexElement_Copy := set_cie_se StateElement_Copy.

(** [fc.MissedHostOutput()] *)
Definition V2FileContract_MissedHostOutput (fc : V2FileContract) : SiacoinOutput :=
  {| sco_Value := v2fc_MissedHostValue fc; sco_Address := sco_Address (v2fc_HostOutput fc) |}.

(** [fc.RiskedCollateral()], [fc.RiskedHostRevenue()] *)
Definition RiskedCollateral (fc : V2FileContract) : outcome Currency :=
  Currency.Sub (v2fc_TotalCollateral fc) (v2fc_MissedHostValue fc).
Definition RiskedHostRevenue (fc : V2FileContract) : outcome Currency :=
  Currency.Sub (sco_Value (v2fc_HostOutput fc)) (v2fc_TotalCollateral fc).

(** [txn.TotalFees()]: the sum of the miner fees, zero if it would overflow. *)
Definition TotalFees (txn : Transaction) : Currency :=
  (fix go (fees : list Currency) (sum : Currency) :=
     match fees with
     | [] => sum
     | fee :: rest =>
         let '(sum', overflow) := Currency.AddWithOverflow sum fee in
         if overflow then Currency.ZeroCurrency else go rest sum'
     end) (tx_MinerFees txn) Currency.ZeroCurrency.
