(* ===== verification/TypesCurrencyText.v ===== *)
(** * [core/types/currency.go], [node/qday/service.go]: amounts as text

    Decimal texts of 128-bit amounts, with and without a unit, and the amounts of the wallet
    in the current denomination.  Strings are lists of byte values.  Printing an amount and
    parsing it again gives the amount back. *)
From stdpp Require Import prelude strings.
From Stdlib Require Import ZArith Lia.
From S2P Require Import Prelude TypesCurrency TypesData.

(** ** Decimal integers: [big.Int] *)
Definition is_digit (c : Z) : bool := (48 <=? c) && (c <=? 57).

(** The digits of [n], before those of [acc]; a round per digit. *)
Fixpoint digits_from (fuel : nat) (n : Z) (acc : bytes) : bytes :=
  match fuel with
  | O => acc
  | S fuel => let acc := (48 + n mod 10) :: acc in if n <? 10 then acc else digits_from fuel (n / 10) acc
  end.
Definition digits (n : Z) : bytes := digits_from (S (S (Z.to_nat (Z.log2 n)))) n [].

(** [i.String()] *)
Definition Int_String (n : Z) : bytes := if n <? 0 then 45 :: digits (- n) else digits n.

Definition dec_value (s : bytes) : Z := foldl (fun v c => v * 10 + (c - 48)) 0 s.

(** [i.SetString(s, 10)] *)
Definition Int_SetString (s : bytes) : option Z :=
  let '(neg, ds) := match s with
                    | c :: s' => if c =? 45 then (true, s') else if c =? 43 then (false, s') else (false, s)
                    | [] => (false, s)
                    end in
  if negb (length ds =? 0)%nat && forallb is_digit ds
  then Some (if neg : bool then - dec_value ds else dec_value ds) else None.

(** ** Strings *)
Fixpoint TrimLeft (c : Z) (s : bytes) : bytes :=
  match s with [] => [] | x :: s' => if x =? c then TrimLeft c s' else s end.
Definition TrimRight (s : bytes) (c : Z) : bytes := rev (TrimLeft c (rev s)).

Definition Repeat (c : Z) (n : Z) : outcome bytes :=
  if n <? 0 then Panic "strings: negative Repeat count" else Ok (replicate (Z.to_nat n) c).

(** [strings.Split(s, sep)] for a separator of one byte *)
Fixpoint Split (s : bytes) (sep : Z) : list bytes :=
  match s with
  | [] => [[]]
  | c :: s' => if c =? sep then [] :: Split s' sep
               else match Split s' sep with [] => [[c]] | p :: ps => (c :: p) :: ps end
  end.

(** [strings.LastIndexAny(s, "0123456789.") + 1] *)
Fixpoint number_end (s : bytes) : nat :=
  match s with
  | [] => 0
  | c :: s' => match number_end s' with
               | O => if is_digit c || (c =? 46) then 1 else 0
               | S i => S (S i)
               end
  end.

(** The UTF-8 encodings of the characters that [unicode.IsSpace] accepts. *)
Definition spaces : list bytes :=
  map (fun c => [c]) [9; 10; 11; 12; 13; 32] ++ [[0xC2; 0x85]; [0xC2; 0xA0]; [0xE1; 0x9A; 0x80]] ++
  map (fun c => [0xE2; 0x80; c])
    [0x80; 0x81; 0x82; 0x83; 0x84; 0x85; 0x86; 0x87; 0x88; 0x89; 0x8A; 0xA8; 0xA9; 0xAF] ++
  [[0xE2; 0x81; 0x9F]; [0xE3; 0x80; 0x80]].
Fixpoint trim_with (table : list bytes) (fuel : nat) (s : bytes) : bytes :=
  match fuel with
  | O => s
  | S fuel => match list_find (fun sp => take (length sp) s = sp) table with
              | Some (_, sp) => trim_with table fuel (drop (length sp) s)
              | None => s
              end
  end.
Definition TrimSpace (s : bytes) : bytes :=
  let s := trim_with spaces (length s) s in rev (trim_with (map (@rev Z) spaces) (length s) (rev s)).

(** ** [ParseCurrency] and the printed forms *)
Definition Currency_big (v : Z) : Currency := Currency.NewCurrency (u64 v) (u64 (Z.shiftr v 64)).

Definition parseHastings (s : bytes) : outcome Currency :=
  match Int_SetString s with
  | None => Err "not an integer"
  | Some i => if i <? 0 then Err "value cannot be negative"
              else if two128 <=? i then Err "value overflows Currency representation"
              else Ok (Currency_big i)
  end.

(** [expToUnit] and the table of units; a rational is a pair of a numerator and a positive
    denominator. *)
Definition expToUnit (exp : Z) : Z := 10 ^ exp.
Definition unit_names : list (bytes * Z) :=
  [(str_bytes "pS", 12); (str_bytes "nS", 15); (str_bytes "uS", 18); (str_bytes "mS", 21);
   (str_bytes "SC", 24); (str_bytes "KS", 27); (str_bytes "MS", 30); (str_bytes "GS", 33);
   (str_bytes "TS", 36)].
Definition currencyUnits (unit : bytes) : option Z :=
  '(_, (_, exp)) ← list_find (fun p => p.1 = unit) unit_names; Some (expToUnit exp).

(** [r.SetString(n)].  Plain decimals are read here; [rat_other] stands for the other number
    syntaxes of [big.Rat] (signs, fractions, exponents, prefixes, underscores). *)
Definition plain_decimal (n : bytes) : option (Z * Z) :=
  match Split n 46 with
  | [i] => if negb (length i =? 0)%nat && forallb is_digit i then Some (dec_value i, 1) else None
  | [i; f] => if negb (length (i ++ f) =? 0)%nat && forallb is_digit (i ++ f)
              then Some (dec_value (i ++ f), 10 ^ zlen f) else None
  | _ => None
  end.
Definition Rat_SetString (rat_other : bytes -> option (Z * Z)) (n : bytes) : option (Z * Z) :=
  match plain_decimal n with Some r => Some r | None => rat_other n end.

Definition ParseCurrency (rat_other : bytes -> option (Z * Z)) (s : bytes) : outcome Currency :=
  let i := number_end s in
  if (i =? 0)%nat then Err "not a number" else
  let n := take i s in
  let unit := TrimSpace (drop i s) in
  if bool_decide (unit = []) || bool_decide (unit = str_bytes "H") then parseHastings n else
  match Rat_SetString rat_other n with
  | None => Err "not a number"
  | Some (num, den) =>
      match currencyUnits unit with
      | None => Err "invalid unit"
      | Some u => if negb ((num * u) mod den =? 0) then Err "not an integer"
                  else parseHastings (Int_String (num * u / den))
      end
  end.

Definition Currency_ExactString (c : Currency) : bytes := Int_String (Currency.val c).

Definition Currency_String (c : Currency) : bytes :=
  if Currency.IsZero c then str_bytes "0 SC" else
  let s := Int_String (Currency.val c) in
  let u := ((length s - 1) / 3)%nat in
  if (u <? 4)%nat then s ++ str_bytes " H" else
  let u := if (12 <? u)%nat then 12%nat else u in
  let mant := take (length s - u * 3) s in
  let frac := TrimRight (drop (length s - u * 3) s) 48 in
  let mant := if (0 <? length frac)%nat then mant ++ [46] ++ frac else mant in
  mant ++ [32] ++ (unit_names !!! (u - 4)%nat).1.

Definition Currency_MarshalText (c : Currency) : bytes := Int_String (Currency.val c).
Definition Currency_UnmarshalText (rat_other : bytes -> option (Z * Z)) (b : bytes) : outcome Currency :=
  ParseCurrency rat_other b.

(** ** The wallet's amounts *)
Definition FormatAmount (v unit : Currency) : outcome bytes :=
  if Currency.val unit =? 0 then Panic "division by zero" else
  let q := Currency.val v / Currency.val unit in
  let r := Currency.val v mod Currency.val unit in
  if r =? 0 then Ok (Int_String q) else
  let decimals := zlen (Currency_ExactString unit) - 1 in
  pad ← Repeat 48 (decimals - zlen (Int_String r));
  Ok (Int_String q ++ [46] ++ TrimRight (pad ++ Int_String r) 48).

Definition ParseAmount (rat_other : bytes -> option (Z * Z)) (str : bytes) (unit : Currency) : outcome Currency :=
  let decimals := zlen (Currency_ExactString unit) - 1 in
  let p := Split str 46 in
  if (2 <? length p)%nat || (80 <? zlen str) || (length (nth 0 p []) =? 0)%nat then Err "invalid amount" else
  let frac := if (length p =? 2)%nat then nth 1 p [] else [] in
  if decimals <? zlen frac then Err "too many decimal places" else
  pad ← Repeat 48 (decimals - zlen frac);
  let digits := nth 0 p [] ++ frac ++ pad in
  if negb (forallb is_digit digits) then Err "invalid amount" else ParseCurrency rat_other digits.

(** ** Decimal digits *)
Lemma is_digit_mod n : is_digit (48 + n mod 10) = true.
Proof. unfold is_digit. pose proof (Z.mod_pos_bound n 10 ltac:(lia)). apply andb_true_iff; split; apply Z.leb_le; lia. Qed.

Lemma dec_value_from s v : foldl (fun v c => v * 10 + (c - 48)) v s = v * 10 ^ zlen s + dec_value s.
Proof.
  unfold dec_value. revert v. induction s as [|c s IH]; intros v; cbn [foldl]; [unfold zlen; cbn; lia|].
  rewrite IH, (IH (0 * 10 + (c - 48))). unfold zlen. cbn [length]. rewrite Nat2Z.inj_succ, Z.pow_succ_r by lia. ring.
Qed.
Lemma dec_value_app a b : dec_value (a ++ b) = dec_value a * 10 ^ zlen b + dec_value b.
Proof. unfold dec_value at 1. rewrite foldl_app. apply dec_value_from. Qed.
Lemma dec_value_cons c s : dec_value (c :: s) = (c - 48) * 10 ^ zlen s + dec_value s.
Proof. apply (dec_value_app [c] s). Qed.
Lemma dec_value_zeros n : dec_value (replicate n 48) = 0.
Proof. induction n as [|n IH]; [done|]. cbn [replicate]. rewrite dec_value_cons. lia. Qed.
Lemma dec_value_bound s : forallb is_digit s = true -> 0 <= dec_value s < 10 ^ zlen s.
Proof.
  induction s as [|c s IH]; cbn [forallb]; [unfold zlen; cbn; lia|]. rewrite andb_true_iff. intros [Hc Hs].
  specialize (IH Hs). unfold is_digit in Hc. apply andb_true_iff in Hc as [H1%Z.leb_le H2%Z.leb_le].
  rewrite dec_value_cons. unfold zlen in *. cbn [length]. rewrite Nat2Z.inj_succ, Z.pow_succ_r by lia. nia.
Qed.

(** The digits of [n] are put before [acc]. *)
Lemma digits_from_spec fuel n acc : 0 <= n < 2 ^ Z.of_nat fuel -> exists ds,
  digits_from (S fuel) n acc = ds ++ acc /\ forallb is_digit ds = true /\ dec_value ds = n /\
  (1 <= length ds)%nat /\ (0 < n -> 10 ^ (zlen ds - 1) <= n) /\ (n = 0 -> length ds = 1%nat).
Proof.
  revert n acc. induction fuel as [|fuel IH]; intros n acc Hn.
  { exists [48]. assert (n = 0) as -> by (cbn in Hn; lia). split_and!; try done; lia. }
  remember (S fuel) as f eqn:Ef. cbn [digits_from]. destruct (Z.ltb_spec n 10) as [Hlt|Hge].
  - exists [48 + n mod 10]. rewrite Z.mod_small by lia. split_and!; [done| |unfold dec_value; cbn; lia|cbn; lia|unfold zlen; cbn; lia|done].
    cbn. rewrite andb_true_r. rewrite <- (Z.mod_small n 10) by lia. apply is_digit_mod.
  - subst f. destruct (IH (n / 10) ((48 + n mod 10) :: acc)) as (ds & E & Hd & Hv & Hl & Hp & _).
    { split; [apply Z.div_pos; lia|]. rewrite Nat2Z.inj_succ, Z.pow_succ_r in Hn by lia. apply Z.div_lt_upper_bound; lia. }
    exists (ds ++ [48 + n mod 10]). rewrite E, <- app_assoc. split_and!.
    + done.
    + rewrite forallb_app, Hd. cbn. by rewrite is_digit_mod.
    + rewrite dec_value_app, Hv. unfold zlen, dec_value. cbn. pose proof (Z.div_mod n 10 ltac:(lia)). lia.
    + rewrite length_app. cbn. lia.
    + intros _. assert (0 < n / 10) as Hq by (apply Z.div_str_pos; lia). specialize (Hp Hq).
      unfold zlen in *. rewrite length_app. cbn [length]. replace (Z.of_nat (length ds + 1) - 1) with (Z.succ (Z.of_nat (length ds) - 1)) by lia.
      rewrite Z.pow_succ_r by lia. pose proof (Z.mul_div_le n 10 ltac:(lia)). lia.
    + lia.
Qed.

Record decimal (n : Z) (ds : bytes) : Prop := {
  dc_digits : forallb is_digit ds = true; dc_value : dec_value ds = n;
  dc_length : (1 <= length ds)%nat; dc_lead : 0 < n -> 10 ^ (zlen ds - 1) <= n;
  dc_zero : n = 0 -> length ds = 1%nat }.
Lemma digits_decimal n : 0 <= n -> decimal n (digits n).
Proof.
  intros Hn. unfold digits. destruct (digits_from_spec (S (Z.to_nat (Z.log2 n))) n []) as (ds & E & H1 & H2 & H3 & H4 & H5).
  { split; [done|]. rewrite Nat2Z.inj_succ, Z2Nat.id by apply Z.log2_nonneg.
    destruct (Z.eq_dec n 0) as [->|]; [done|]. apply Z.log2_spec. lia. }
  rewrite E, app_nil_r. by split.
Qed.
Lemma Int_String_decimal n : 0 <= n -> decimal n (Int_String n).
Proof. intros Hn. unfold Int_String. rewrite (proj2 (Z.ltb_ge n 0)) by lia. by apply digits_decimal. Qed.

Lemma decimal_length n ds k : decimal n ds -> 0 <= n < 10 ^ k -> 0 < k -> zlen ds <= k.
Proof.
  intros [Hd Hv Hl Hp Hz] Hn Hk. destruct (Z.eq_dec n 0) as [E|Hnz].
  { specialize (Hz E). unfold zlen. lia. }
  specialize (Hp ltac:(lia)). destruct (Z.le_gt_cases (zlen ds) k) as [|Hgt]; [done|exfalso].
  pose proof (Z.pow_le_mono_r 10 k (zlen ds - 1) ltac:(lia) ltac:(lia)). lia.
Qed.
Lemma decimal_pow k ds : decimal (10 ^ k) ds -> 0 <= k -> zlen ds = k + 1.
Proof.
  intros Hd Hk. pose proof (decimal_length _ _ (k + 1) Hd) as Hle. pose proof (Z.pow_pos_nonneg 10 k ltac:(lia) Hk) as Hp.
  rewrite Z.pow_add_r in Hle by lia. specialize (Hle ltac:(lia) ltac:(lia)).
  pose proof (dec_value_bound _ (dc_digits _ _ Hd)) as Hb. rewrite (dc_value _ _ Hd) in Hb.
  destruct (Z.le_gt_cases (zlen ds) k) as [H|]; [exfalso|lia].
  pose proof (Z.pow_le_mono_r 10 (zlen ds) k ltac:(lia) H). lia.
Qed.

(** ** Parsing digits *)
Lemma Currency_big_of_Z v : Currency_big v = Currency.of_Z v.
Proof. unfold Currency_big, Currency.of_Z. by rewrite Z.shiftr_div_pow2 by lia. Qed.

Lemma Int_SetString_digits ds : ds <> [] -> forallb is_digit ds = true -> Int_SetString ds = Some (dec_value ds).
Proof.
  intros Hn Hd. destruct ds as [|c ds]; [done|]. unfold Int_SetString. cbn [forallb] in Hd.
  pose proof Hd as [Hc _]%andb_true_iff. unfold is_digit in Hc. apply andb_true_iff in Hc as [H1%Z.leb_le H2%Z.leb_le].
  rewrite (proj2 (Z.eqb_neq c 45)), (proj2 (Z.eqb_neq c 43)) by lia. cbn [length Nat.eqb negb andb forallb]. by rewrite Hd.
Qed.
Lemma parseHastings_digits ds : ds <> [] -> forallb is_digit ds = true -> dec_value ds < two128 ->
  parseHastings ds = Ok (Currency.of_Z (dec_value ds)).
Proof.
  intros Hn Hd Hv. unfold parseHastings. rewrite Int_SetString_digits by done. pose proof (dec_value_bound ds Hd).
  rewrite (proj2 (Z.ltb_ge (dec_value ds) 0)), (proj2 (Z.leb_gt two128 (dec_value ds))) by lia. by rewrite Currency_big_of_Z.
Qed.
Lemma decimal_nonempty n ds : decimal n ds -> ds <> [].
Proof. intros H ->. pose proof (dc_length _ _ H) as Hl. cbn in Hl. lia. Qed.
Lemma parseHastings_Int c : Currency.ok c -> parseHastings (Int_String (Currency.val c)) = Ok c.
Proof.
  intros Hc. pose proof (Currency.ok_val _ Hc). pose proof (Int_String_decimal (Currency.val c) ltac:(lia)) as Hd.
  rewrite parseHastings_digits; rewrite ?(dc_value _ _ Hd); [by rewrite Currency.of_Z_val| |apply Hd|lia].
  by eapply decimal_nonempty.
Qed.

(** ** Splitting and trimming *)
Abbreviation number_char c := (is_digit c || (c =? 46)).

Lemma number_end_app a b : forallb (fun c => number_char c) a = true -> number_end b = 0%nat ->
  number_end (a ++ b) = length a.
Proof.
  intros Ha Hb. induction a as [|c a IH]; [done|]. cbn [forallb] in Ha. apply andb_true_iff in Ha as [Hc Ha].
  cbn [app number_end length]. rewrite (IH Ha). destruct a; [by rewrite Hc|done].
Qed.
Lemma digit_not_dot c : is_digit c = true -> (c =? 46) = false.
Proof. unfold is_digit. intros [H1%Z.leb_le H2%Z.leb_le]%andb_true_iff. apply Z.eqb_neq. lia. Qed.
Lemma digits_number_chars ds : forallb is_digit ds = true -> forallb (fun c => number_char c) ds = true.
Proof.
  intros Hd. apply forallb_forall. intros c Hc. rewrite forallb_forall in Hd. by rewrite (Hd c Hc).
Qed.
Lemma Split_digits ds : forallb is_digit ds = true -> Split ds 46 = [ds].
Proof.
  induction ds as [|c ds IH]; [done|]. cbn [forallb Split]. rewrite andb_true_iff. intros [Hc Hd].
  by rewrite digit_not_dot, IH.
Qed.
Lemma Split_decimal a b : forallb is_digit a = true -> forallb is_digit b = true -> Split (a ++ [46] ++ b) 46 = [a; b].
Proof.
  intros Ha Hb. induction a as [|c a IH]; cbn [forallb app Split] in *.
  - by rewrite Split_digits.
  - apply andb_true_iff in Ha as [Hc Ha]. rewrite digit_not_dot by done. rewrite IH by done. done.
Qed.

Lemma TrimLeft_split c s : exists k, s = replicate k c ++ TrimLeft c s.
Proof.
  induction s as [|x s [k IH]]; [by exists 0%nat|]. cbn [TrimLeft]. destruct (Z.eqb_spec x c) as [->|]; [|by exists 0%nat].
  exists (S k). cbn. by rewrite <- IH.
Qed.
Lemma TrimRight_split s c : exists k, s = TrimRight s c ++ replicate k c.
Proof.
  unfold TrimRight. destruct (TrimLeft_split c (rev s)) as [k E]. exists k. rewrite <- (rev_involutive s) at 1. rewrite E at 1.
  rewrite rev_app_distr. f_equal. clear. induction k as [|k IH]; [done|]. cbn [replicate rev]. rewrite IH.
  by rewrite <- replicate_cons_app.
Qed.

(** ** Printed amounts *)
Lemma unit_facts (u : nat) : (4 <= u <= 12)%nat -> let name := (unit_names !!! (u - 4)%nat).1 in
  number_end (32 :: name) = 0%nat /\ TrimSpace (32 :: name) = name /\ name <> [] /\ name <> str_bytes "H" /\
  currencyUnits name = Some (10 ^ (3 * Z.of_nat u)).
Proof.
  intros Hu. do 4 (destruct u as [|u]; [lia|]).
  do 9 (destruct u as [|u]; [vm_compute; repeat split; discriminate|]). lia.
Qed.

(** A number with a unit that makes it whole. *)
Lemma ParseCurrency_unit rat_other n num den u c :
  forallb (fun c => number_char c) n = true -> n <> [] -> (4 <= u <= 12)%nat -> Currency.ok c ->
  plain_decimal n = Some (num, den) -> 0 < den -> num * 10 ^ (3 * Z.of_nat u) = Currency.val c * den ->
  ParseCurrency rat_other (n ++ [32] ++ (unit_names !!! (u - 4)%nat).1) = Ok c.
Proof.
  intros Hn Hne Hu Hc Hp Hden E. destruct (unit_facts u Hu) as (F1 & F2 & F3 & F4 & F5).
  unfold ParseCurrency. cbn [app]. rewrite number_end_app by done. destruct n as [|x n]; [done|].
  change (length (x :: n) =? 0)%nat with false. cbv iota.
  rewrite take_app_length, drop_app_length, F2, !bool_decide_eq_false_2 by done. cbn [orb].
  unfold Rat_SetString. rewrite Hp, F5, E, Z.mod_mul, Z.div_mul by lia. change (negb (0 =? 0)) with false. cbv iota.
  by apply parseHastings_Int.
Qed.

Lemma ParseCurrency_digits rat_other ds : ds <> [] -> forallb is_digit ds = true -> dec_value ds < two128 ->
  ParseCurrency rat_other ds = Ok (Currency.of_Z (dec_value ds)).
Proof.
  intros Hn Hd Hv. unfold ParseCurrency.
  assert (number_end ds = length ds) as ->.
  { rewrite <- (app_nil_r ds) at 1. apply number_end_app; [by apply digits_number_chars|done]. }
  rewrite (proj2 (Nat.eqb_neq (length ds) 0)) by (by destruct ds).
  rewrite take_ge, drop_ge by done. by apply parseHastings_digits.
Qed.

Lemma Currency_String_parts c : Currency.ok c -> Currency.IsZero c = false ->
  let s := Int_String (Currency.val c) in let u := ((length s - 1) / 3)%nat in
  ((u < 4)%nat /\ Currency_String c = s ++ str_bytes " H") \/
  exists u', (4 <= u' <= 12)%nat /\ (3 * u' < length s)%nat /\
    let mant := take (length s - u' * 3) s in let frac := TrimRight (drop (length s - u' * 3) s) 48 in
    Currency_String c = (if (0 <? length frac)%nat then mant ++ [46] ++ frac else mant) ++ [32] ++ (unit_names !!! (u' - 4)%nat).1.
Proof.
  intros Hc Hz s u. pose proof (Currency.ok_val _ Hc). pose proof (dc_length _ _ (Int_String_decimal (Currency.val c) ltac:(lia))) as Hl.
  unfold Currency_String. rewrite Hz. cbv zeta. fold s u in Hl |- *. pose proof (Nat.Div0.mul_div_le (length s - 1) 3) as Hd. fold u in Hd.
  destruct (Nat.ltb_spec u 4) as [Hlt|Hge]; [by left|right].
  exists (if (12 <? u)%nat then 12%nat else u). destruct (Nat.ltb_spec 12 u); split_and!; try lia; done.
Qed.

Lemma forallb_take {A} (f : A -> bool) n l : forallb f l = true -> forallb f (take n l) = true.
Proof. rewrite <- (take_drop n l) at 1. rewrite forallb_app. by intros [? _]%andb_true_iff. Qed.
Lemma forallb_drop {A} (f : A -> bool) n l : forallb f l = true -> forallb f (drop n l) = true.
Proof. rewrite <- (take_drop n l) at 1. rewrite forallb_app. by intros [_ ?]%andb_true_iff. Qed.
Lemma forallb_TrimRight s c f : forallb f s = true -> forallb f (TrimRight s c) = true.
Proof. destruct (TrimRight_split s c) as [k E]. rewrite E at 1. rewrite forallb_app. by intros [? _]%andb_true_iff. Qed.

(** Digits before and after a point, trimmed, are the digits scaled. *)
Lemma plain_decimal_parts a b : forallb is_digit a = true -> forallb is_digit b = true -> a <> [] ->
  let frac := TrimRight b 48 in let n := if (0 <? length frac)%nat then a ++ [46] ++ frac else a in
  exists num den, plain_decimal n = Some (num, den) /\ 0 < den /\ num * 10 ^ zlen b = dec_value (a ++ b) * den /\
    forallb (fun c => number_char c) n = true /\ n <> [].
Proof.
  intros Ha Hb Hne frac n. destruct (TrimRight_split b 48) as [k E]. fold frac in E.
  pose proof (forallb_TrimRight b 48 _ Hb) as Hf. fold frac in Hf.
  assert (dec_value (a ++ b) * 10 ^ zlen frac = dec_value (a ++ frac) * 10 ^ zlen b) as Ev.
  { rewrite E at 1. rewrite app_assoc, dec_value_app, dec_value_zeros, E. unfold zlen. rewrite !length_app, length_replicate.
    rewrite Nat2Z.inj_add, Z.pow_add_r by lia. ring. }
  subst n. destruct (Nat.ltb_spec 0 (length frac)) as [Hlt|Hge].
  - exists (dec_value (a ++ frac)), (10 ^ zlen frac). unfold plain_decimal. rewrite Split_decimal by done. split_and!.
    + rewrite forallb_app, Ha, Hf, (proj2 (Nat.eqb_neq _ 0)); [done|]. rewrite length_app. lia.
    + apply Z.pow_pos_nonneg; [lia|apply zlen_nonneg].
    + by rewrite Ev.
    + rewrite forallb_app, digits_number_chars by done. cbn. by apply digits_number_chars.
    + by destruct a.
  - assert (frac = []) as Ef by (destruct frac; [done|cbn in Hge; lia]). rewrite Ef in Ev. rewrite app_nil_r in Ev. unfold zlen in Ev at 1. cbn in Ev.
    exists (dec_value a), 1. unfold plain_decimal. rewrite Split_digits by done. split_and!.
    + rewrite Ha, (proj2 (Nat.eqb_neq _ 0)) by (by destruct a). done.
    + lia.
    + lia.
    + by apply digits_number_chars.
    + done.
Qed.

(** Printed amounts parse back.  For every 128-bit amount, [ParseCurrency] returns the amount
    from its exact decimal text and from its text with a unit, whatever the number syntaxes of
    [big.Rat] beyond plain decimals. *)
Theorem currency_text_roundtrip rat_other c : Currency.ok c ->
  ParseCurrency rat_other (Currency_String c) = Ok c /\ ParseCurrency rat_other (Currency_ExactString c) = Ok c.
Proof.
  intros Hc. pose proof (Currency.ok_val _ Hc) as Hv. pose proof (Int_String_decimal (Currency.val c) ltac:(lia)) as Hd. split.
  2:{ unfold Currency_ExactString. rewrite ParseCurrency_digits; rewrite ?(dc_value _ _ Hd); [by rewrite Currency.of_Z_val| |apply Hd|lia].
      by eapply decimal_nonempty. }
  destruct (Currency.IsZero c) eqn:Hz.
  { apply bool_decide_eq_true in Hz as ->. reflexivity. }
  destruct (Currency_String_parts c Hc Hz) as [[_ ->]|(u & Hu & Hlen & ->)].
  - unfold ParseCurrency. rewrite number_end_app by (first [apply digits_number_chars, Hd|reflexivity]).
    rewrite (proj2 (Nat.eqb_neq _ 0)) by (pose proof (dc_length _ _ Hd); lia).
    rewrite take_app_length, drop_app_length. change (TrimSpace (str_bytes " H")) with (str_bytes "H").
    rewrite (bool_decide_eq_true_2 (str_bytes "H" = str_bytes "H")), orb_true_r by done. by apply parseHastings_Int.
  - set (s := Int_String (Currency.val c)) in *. set (k := (length s - u * 3)%nat).
    destruct (plain_decimal_parts (take k s) (drop k s)) as (num & den & Hp & Hden & E & Hn & Hne).
    + apply forallb_take, Hd.
    + apply forallb_drop, Hd.
    + intros E%(f_equal length). rewrite length_take in E. cbn in E. lia.
    + eapply ParseCurrency_unit; try done. rewrite take_drop, (dc_value _ _ Hd) in E. rewrite <- E. do 2 f_equal.
      unfold zlen. rewrite length_drop. lia.
Qed.

Lemma currency_text_roundtrip_witness : let c := Currency.of_Z 12345678901234567890123456789012 in
  Currency_String c = str_bytes "12.345678901234567890123456789012 MS" /\
  ParseCurrency (fun _ => None) (Currency_String c) = Ok c.
Proof.
  intros c. split; [vm_compute; reflexivity|]. apply (currency_text_roundtrip (fun _ => None) c). apply Currency.of_Z_ok.
Defined.

(** ** Amounts in a denomination *)
Section Amounts.
Context (rat_other : bytes -> option (Z * Z)) (unit : Currency) (k : Z).
Context (Hk : 0 <= k) (Hunit : Currency.val unit = 10 ^ k).

Lemma unit_decimals : zlen (Currency_ExactString unit) - 1 = k.
Proof.
  pose proof (Z.pow_pos_nonneg 10 k ltac:(lia) Hk). unfold Currency_ExactString. rewrite Hunit.
  rewrite (decimal_pow k); [lia|apply Int_String_decimal; lia|done].
Qed.

(** What [ParseAmount] makes of a whole part and a fraction. *)
Definition amount_value (i f : bytes) : Z := dec_value i * 10 ^ k + dec_value f * 10 ^ (k - zlen f).

Lemma ParseAmount_parts i f str : forallb is_digit i = true -> forallb is_digit f = true -> i <> [] ->
  str = i /\ f = [] \/ str = i ++ [46] ++ f -> zlen f <= k -> zlen str <= 80 -> amount_value i f < two128 ->
  ParseAmount rat_other str unit = Ok (Currency.of_Z (amount_value i f)).
Proof.
  intros Hi Hf Hne Hs Hlf Hl Hv. unfold ParseAmount. rewrite unit_decimals.
  assert (exists p, Split str 46 = i :: p /\ (p = [] /\ f = [] \/ p = [f])) as (p & Ep & Hp).
  { destruct Hs as [[-> ->]| ->]; [rewrite Split_digits by done|rewrite Split_decimal by done]; eexists; split; [done|by left|done|by right]. }
  rewrite Ep. change (nth 0 (i :: p) []) with i.
  assert ((length (i :: p) <=? 2)%nat = true /\ (if (length (i :: p) =? 2)%nat then nth 1 (i :: p) [] else []) = f) as [E1 E2]
    by (destruct Hp as [[-> ->]| ->]; done).
  rewrite E2, Nat.ltb_antisym, E1, (proj2 (Z.ltb_ge 80 _)), (proj2 (Nat.eqb_neq (length i) 0)) by (done || by destruct i).
  cbn [negb orb]. rewrite (proj2 (Z.ltb_ge k _)) by done. unfold Repeat. rewrite (proj2 (Z.ltb_ge _ 0)) by lia. cbn [mbind outcome_bind].
  set (pad := replicate _ 48). assert (forallb is_digit (i ++ f ++ pad) = true) as Hd.
  { rewrite !forallb_app, Hi, Hf. cbn. subst pad. apply forallb_forall. intros x Hx%list_elem_of_In%elem_of_replicate. by destruct Hx as [-> _]. }
  rewrite Hd. cbn [negb]. assert (dec_value (i ++ f ++ pad) = amount_value i f) as Ev.
  { unfold amount_value. rewrite !dec_value_app. subst pad. rewrite dec_value_zeros. unfold zlen in *. rewrite length_app, length_replicate.
    rewrite Nat2Z.inj_add, Z2Nat.id by lia. replace (Z.of_nat (length f) + (k - Z.of_nat (length f))) with k by lia. lia. }
  rewrite ParseCurrency_digits, Ev; [done|by destruct i|done|by rewrite Ev].
Qed.

Lemma decimals_bound : Currency.ok unit -> k < 39.
Proof.
  intros Hu. pose proof (Currency.ok_val _ Hu) as H. rewrite Hunit in H. destruct (Z.lt_ge_cases k 39) as [|Hge]; [done|exfalso].
  pose proof (Z.pow_le_mono_r 10 39 k ltac:(lia) Hge). lia.
Qed.

Lemma amount_text_parts v : Currency.ok unit -> Currency.ok v -> exists str i f, FormatAmount v unit = Ok str /\
  forallb is_digit i = true /\ forallb is_digit f = true /\ i <> [] /\ (str = i /\ f = [] \/ str = i ++ [46] ++ f) /\
  zlen i <= 39 /\ zlen f <= k /\ amount_value i f = Currency.val v.
Proof.
  intros Hu Hv. pose proof (Currency.ok_val _ Hv) as Hvv. pose proof (Z.pow_pos_nonneg 10 k ltac:(lia) Hk) as Hp.
  unfold FormatAmount. rewrite Hunit, unit_decimals, (proj2 (Z.eqb_neq _ 0)) by lia. cbv zeta.
  set (q := Currency.val v / 10 ^ k). set (r := Currency.val v mod 10 ^ k).
  assert (0 <= q <= Currency.val v) as Hq by (subst q; split; [apply Z.div_pos; lia|apply Z.div_le_upper_bound; nia]).
  assert (0 <= r < 10 ^ k) as Hr by (apply Z.mod_pos_bound; lia).
  assert (Currency.val v = q * 10 ^ k + r) as Ev by (subst q r; pose proof (Z.div_mod (Currency.val v) (10 ^ k) ltac:(lia)); lia).
  pose proof (Int_String_decimal q ltac:(lia)) as Hdq. pose proof (Int_String_decimal r ltac:(lia)) as Hdr.
  assert (zlen (Int_String q) <= 39) as Hlq by (apply (decimal_length q); [done|lia|lia]).
  destruct (Z.eqb_spec r 0) as [E0|Hnz].
  { exists (Int_String q), (Int_String q), []. split_and!; try done; [apply Hdq|by eapply decimal_nonempty|by left|].
    unfold amount_value. rewrite (dc_value _ _ Hdq). change (dec_value []) with 0. lia. }
  assert (0 < k) as Hk0 by (destruct (Z.eq_dec k 0) as [E|]; [rewrite E in Hr; cbn in Hr; lia|lia]).
  pose proof (decimal_length r _ k Hdr Hr Hk0) as Hlr. unfold Repeat.
  rewrite (proj2 (Z.ltb_ge (k - zlen (Int_String r)) 0)) by lia. cbn [mbind outcome_bind].
  set (b := replicate _ 48 ++ Int_String r). destruct (TrimRight_split b 48) as [j Ej].
  assert (zlen b = k) as Hlb by (subst b; unfold zlen in *; rewrite length_app, length_replicate; lia).
  assert (dec_value b = r) as Hvb by (subst b; rewrite dec_value_app, dec_value_zeros, (dc_value _ _ Hdr); lia).
  assert (zlen (TrimRight b 48) + Z.of_nat j = k) as Hj by (rewrite Ej in Hlb; unfold zlen in *; rewrite length_app, length_replicate in Hlb; lia).
  eexists _, (Int_String q), (TrimRight b 48). split_and!; [done|apply Hdq| |by eapply decimal_nonempty|by right|done|lia|].
  - apply forallb_TrimRight. subst b. rewrite forallb_app, (dc_digits _ _ Hdr), andb_true_r. apply forallb_forall.
    intros x Hx%list_elem_of_In%elem_of_replicate. by destruct Hx as [-> _].
  - unfold amount_value. rewrite (dc_value _ _ Hdq). replace (k - zlen (TrimRight b 48)) with (Z.of_nat j) by lia.
    rewrite Ev, <- Hvb. rewrite Ej at 2. rewrite dec_value_app, dec_value_zeros. unfold zlen. rewrite length_replicate. lia.
Qed.
End Amounts.

(** The wallet's amounts survive printing.  In a denomination that is a power of ten, as
    both QDAY denominations are, [FormatAmount] succeeds on every amount and [ParseAmount]
    recovers exactly that amount from its text; and the text [I.F] a user types denotes
    [I] units and [F] scaled to the unit, without rounding. *)
Theorem amount_text_roundtrip rat_other unit k v : 0 <= k -> Currency.val unit = 10 ^ k -> Currency.ok unit -> Currency.ok v ->
  (exists str, FormatAmount v unit = Ok str /\ ParseAmount rat_other str unit = Ok v) /\
  (forall i f, forallb is_digit i = true -> forallb is_digit f = true -> i <> [] -> zlen f <= k -> zlen i + zlen f < 80 ->
     dec_value i * 10 ^ k + dec_value f * 10 ^ (k - zlen f) < two128 ->
     ParseAmount rat_other (i ++ [46] ++ f) unit = Ok (Currency.of_Z (dec_value i * 10 ^ k + dec_value f * 10 ^ (k - zlen f)))).
Proof.
  intros Hk Hu Huok Hv. split.
  - destruct (amount_text_parts unit k Hk Hu v Huok Hv) as (str & i & f & E & Hi & Hf & Hne & Hs & Hli & Hlf & Ev).
    exists str. split; [done|]. pose proof (decimals_bound unit k Hu Huok). pose proof (Currency.ok_val _ Hv).
    rewrite (ParseAmount_parts rat_other unit k Hk Hu i f); [by rewrite Ev, Currency.of_Z_val|done|done|done|done|done| |lia].
    destruct Hs as [[-> _]| ->]; [lia|]. unfold zlen in *. rewrite !length_app. cbn. lia.
  - intros i f Hi Hf Hne Hlf Hl Hlt. apply (ParseAmount_parts rat_other unit k Hk Hu); try done; [by right|].
    unfold zlen in *. rewrite !length_app. cbn. lia.
Qed.

Lemma amount_text_roundtrip_witness :
  exists str, FormatAmount (Currency.of_Z 1234500000000000000000000) Currency.HastingsPerSiacoin = Ok str /\
    ParseAmount (fun _ => None) str Currency.HastingsPerSiacoin = Ok (Currency.of_Z 1234500000000000000000000).
Proof.
  apply (amount_text_roundtrip (fun _ => None) Currency.HastingsPerSiacoin 24 (Currency.of_Z 1234500000000000000000000));
    [lia|reflexivity|split; split; reflexivity || discriminate|apply Currency.of_Z_ok].
Defined.
