(* ===== verification/TypesEncoding.v ===== *)
(** * [core/types/encoding.go]: the binary encoding

    An encoder is the byte string it writes.  A decoder is a function of the
    remaining stream and of the [io.LimitedReader] budget; the first error aborts
    decoding, which is what the sticky [d.err] amounts to for every caller that
    checks [d.Err()]. *)
From stdpp Require Import prelude strings.
From Stdlib Require Import ZArith Lia.
From S2P Require Import Prelude TypesCurrency TypesData.

(** ** Encoder *)

(** The buffered [Encoder]: what was flushed to the underlying writer (one that
    never fails, as a hasher, a byte counter or a memory buffer) and the 1024-byte
    buffer. *)
Module Encoder.
Record t := mk { w : bytes; buf : bytes }.
Definition bufSize : nat := 1024.
Definition New : t := mk [] [].

Definition Flush (e : t) : t :=
  if (0 <? zlen (buf e)) then mk (w e ++ buf e) [] else e.

(** The copy loop of [Write]; each iteration copies at least one byte, so
    [length p] iterations suffice. *)
Fixpoint write_loop (fuel : nat) (e : t) (p : bytes) : t :=
  match fuel, p with
  | _, [] => e
  | O, _ => e
  | S fuel, _ =>
      let e := if (length (buf e) =? bufSize)%nat then Flush e else e in
      let c := Nat.min (bufSize - length (buf e)) (length p) in
      write_loop fuel (mk (w e) (buf e ++ take c p)) (drop c p)
  end.
Definition Write (e : t) (p : bytes) : t := write_loop (length p) e p.
End Encoder.

(** The byte string each [Write*] method emits. *)
Definition WriteBool (b : bool) : bytes := [if b then 1 else 0].
Definition WriteUint8 (u : Z) : bytes := [u].
Definition WriteUint64 (u : Z) : bytes := le_encode 8 u.
Definition WriteTime (t : Time) : bytes := WriteUint64 (u64 (Unix t)).
Definition WriteBytes (b : bytes) : bytes := WriteUint64 (zlen b) ++ b.
Definition WriteString (s : bytes) : bytes := WriteBytes s.

Definition EncodePtr {A} (enc : A -> bytes) (p : option A) : bytes :=
  match p with Some x => WriteBool true ++ enc x | None => WriteBool false end.

Definition EncodeSlice {A} (enc : A -> bytes) (s : list A) : bytes :=
  WriteUint64 (zlen s) ++ flat_map enc s.

(** ** Decoder *)

Record Decoder := mkD { d_rest : bytes; d_N : Z }.
Definition Decode (A : Type) : Type := Decoder -> outcome (A * Decoder).

Global Instance decode_ret : MRet Decode := fun A x d => Ok (x, d).
Global Instance decode_bind : MBind Decode := fun A B f m d =>
  match m d with Ok (x, d') => f x d' | Err e => Err e | Panic p => Panic p end.

Definition decode_err {A} (msg : string) : Decode A := fun _ => Err msg.

(** Bytes the limited reader can still deliver. *)
Definition avail (d : Decoder) : Z := Z.max 0 (Z.min (zlen (d_rest d)) (d_N d)).

(** [d.Read(p)] with [len(p) = n]: 64-byte chunks through [io.ReadFull], which
    reports [io.EOF] when a chunk delivers nothing. *)
Definition Read (n : nat) : Decode bytes := fun d =>
  if Z.of_nat n <=? avail d then
    Ok (take n (d_rest d), mkD (drop n (d_rest d)) (d_N d - Z.of_nat n))
  else Err (if avail d mod 64 =? 0 then "EOF" else "unexpected EOF").

Definition ReadUint8 : Decode Z := b ← Read 1; mret (le_decode b).

Definition ReadBool : Decode bool :=
  b ← ReadUint8;
  if b =? 0 then mret false
  else if b =? 1 then mret true
  else decode_err "invalid bool value".

Definition ReadUint64 : Decode Z := b ← Read 8; mret (le_decode b).
Definition ReadTime : Decode Time := u ← ReadUint64; mret (time_Unix (i64 u)).

(** The guard [n > uint64(d.lr.N)] of every length-prefixed read. *)
Definition check_prefix (n : Z) : Decode unit := fun d =>
  if u64 (d_N d) <? n then Err "encoded object contains invalid length prefix" else Ok (tt, d).

Definition ReadBytes : Decode bytes :=
  n ← ReadUint64; _ ← check_prefix n; Read (Z.to_nat n).
Definition ReadString : Decode bytes := ReadBytes.

Fixpoint decode_n {A} (dec : Decode A) (n : nat) : Decode (list A) :=
  match n with
  | O => mret []
  | S n' => x ← dec; xs ← decode_n dec n'; mret (x :: xs)
  end.

Definition DecodeSlice {A} (dec : Decode A) : Decode (list A) :=
  n ← ReadUint64; _ ← check_prefix n; decode_n dec (Z.to_nat n).

Definition DecodePtr {A} (dec : Decode A) : Decode (option A) :=
  b ← ReadBool; if (b : bool) then x ← dec; mret (Some x) else mret None.

Definition NewBufDecoder (buf : bytes) : Decoder := mkD buf (zlen buf).

(** ** Fixed-size arrays: [Hash256], [Address], the IDs, keys and signatures *)
Definition Array_EncodeTo (a : bytes) : bytes := a.
Definition Hash256_DecodeFrom : Decode bytes := Read 32.
Definition Signature_DecodeFrom : Decode bytes := Read 64.
Definition Specifier_DecodeFrom : Decode bytes := Read 16.

(** ** Unlock conditions and currencies *)
Definition UnlockKey_EncodeTo (uk : UnlockKey) : bytes :=
  Array_EncodeTo (uk_Algorithm uk) ++ WriteBytes (uk_Key uk).
Definition UnlockKey_DecodeFrom : Decode UnlockKey :=
  a ← Specifier_DecodeFrom; k ← ReadBytes; mret {| uk_Algorithm := a; uk_Key := k |}.

Definition UnlockConditions_EncodeTo (uc : UnlockConditions) : bytes :=
  WriteUint64 (uc_Timelock uc) ++ EncodeSlice UnlockKey_EncodeTo (uc_PublicKeys uc) ++
  WriteUint64 (uc_SignaturesRequired uc).
Definition UnlockConditions_DecodeFrom : Decode UnlockConditions :=
  t ← ReadUint64; ks ← DecodeSlice UnlockKey_DecodeFrom; r ← ReadUint64;
  mret {| uc_Timelock := t; uc_PublicKeys := ks; uc_SignaturesRequired := r |}.

(** [bytes.TrimLeft(buf, "\x00")] *)
Fixpoint trim_zeros (b : bytes) : bytes :=
  match b with 0 :: b' => trim_zeros b' | _ => b end.

Definition V1Currency_EncodeTo (c : Currency) : bytes :=
  WriteBytes (trim_zeros (be_encode 8 (Currency.Hi c) ++ be_encode 8 (Currency.Lo c))).
Definition V1Currency_DecodeFrom : Decode Currency :=
  n ← ReadUint64;
  if 16 <? n then decode_err "Currency too large" else
  b ← Read (Z.to_nat n);
  let buf := zeros (16 - Z.to_nat n) ++ b in
  mret (Currency.mk (be_decode (drop 8 buf)) (be_decode (take 8 buf))).

Definition V2Currency_EncodeTo (c : Currency) : bytes :=
  WriteUint64 (Currency.Lo c) ++ WriteUint64 (Currency.Hi c).
Definition V2Currency_DecodeFrom : Decode Currency :=
  lo ← ReadUint64; hi ← ReadUint64; mret (Currency.mk lo hi).

Definition ChainIndex_EncodeTo (i : ChainIndex) : bytes :=
  WriteUint64 (ci_Height i) ++ Array_EncodeTo (ci_ID i).
Definition ChainIndex_DecodeFrom : Decode ChainIndex :=
  h ← ReadUint64; id ← Hash256_DecodeFrom; mret {| ci_Height := h; ci_ID := id |}.

Definition V1SiacoinOutput_EncodeTo (o : SiacoinOutput) : bytes :=
  V1Currency_EncodeTo (sco_Value o) ++ Array_EncodeTo (sco_Address o).
Definition V1SiacoinOutput_DecodeFrom : Decode SiacoinOutput :=
  v ← V1Currency_DecodeFrom; a ← Hash256_DecodeFrom; mret {| sco_Value := v; sco_Address := a |}.

Definition V2SiacoinOutput_EncodeTo (o : SiacoinOutput) : bytes :=
  V2Currency_EncodeTo (sco_Value o) ++ Array_EncodeTo (sco_Address o).
Definition V2SiacoinOutput_DecodeFrom : Decode SiacoinOutput :=
  v ← V2Currency_DecodeFrom; a ← Hash256_DecodeFrom; mret {| sco_Value := v; sco_Address := a |}.

(** siad expects a trailing "ClaimStart" value. *)
Definition V1SiafundOutput_EncodeTo (o : SiafundOutput) : bytes :=
  V1Currency_EncodeTo (Currency.NewCurrency64 (sfo_Value o)) ++ Array_EncodeTo (sfo_Address o) ++
  V1Currency_EncodeTo Currency.ZeroCurrency.
Definition V1SiafundOutput_DecodeFrom : Decode SiafundOutput :=
  v ← V1Currency_DecodeFrom;
  if negb (Currency.Hi v =? 0) then decode_err "value overflows siafund representation" else
  a ← Hash256_DecodeFrom; _ ← V1Currency_DecodeFrom;
  mret {| sfo_Value := Currency.Lo v; sfo_Address := a |}.

Definition V2SiafundOutput_EncodeTo (o : SiafundOutput) : bytes :=
  WriteUint64 (sfo_Value o) ++ Array_EncodeTo (sfo_Address o).
Definition V2SiafundOutput_DecodeFrom : Decode SiafundOutput :=
  v ← ReadUint64; a ← Hash256_DecodeFrom; mret {| sfo_Value := v; sfo_Address := a |}.

(** ** v1 transactions *)
Definition SiacoinInput_EncodeTo (i : SiacoinInput) : bytes :=
  Array_EncodeTo (sci_ParentID i) ++ UnlockConditions_EncodeTo (sci_UnlockConditions i).
Definition SiacoinInput_DecodeFrom : Decode SiacoinInput :=
  p ← Hash256_DecodeFrom; u ← UnlockConditions_DecodeFrom;
  mret {| sci_ParentID := p; sci_UnlockConditions := u |}.

Definition SiafundInput_EncodeTo (i : SiafundInput) : bytes :=
  Array_EncodeTo (sfi_ParentID i) ++ UnlockConditions_EncodeTo (sfi_UnlockConditions i) ++
  Array_EncodeTo (sfi_ClaimAddress i).
Definition SiafundInput_DecodeFrom : Decode SiafundInput :=
  p ← Hash256_DecodeFrom; u ← UnlockConditions_DecodeFrom; a ← Hash256_DecodeFrom;
  mret {| sfi_ParentID := p; sfi_UnlockConditions := u; sfi_ClaimAddress := a |}.

Definition FileContract_EncodeTo (fc : FileContract) : bytes :=
  WriteUint64 (fc_Filesize fc) ++ Array_EncodeTo (fc_FileMerkleRoot fc) ++
  WriteUint64 (fc_WindowStart fc) ++ WriteUint64 (fc_WindowEnd fc) ++
  V1Currency_EncodeTo (fc_Payout fc) ++
  EncodeSlice V1SiacoinOutput_EncodeTo (fc_ValidProofOutputs fc) ++
  EncodeSlice V1SiacoinOutput_EncodeTo (fc_MissedProofOutputs fc) ++
  Array_EncodeTo (fc_UnlockHash fc) ++ WriteUint64 (fc_RevisionNumber fc).
Definition FileContract_DecodeFrom : Decode FileContract :=
  fs ← ReadUint64; r ← Hash256_DecodeFrom; ws ← ReadUint64; we ← ReadUint64;
  p ← V1Currency_DecodeFrom; vo ← DecodeSlice V1SiacoinOutput_DecodeFrom;
  mo ← DecodeSlice V1SiacoinOutput_DecodeFrom; uh ← Hash256_DecodeFrom; rn ← ReadUint64;
  mret {| fc_Filesize := fs; fc_FileMerkleRoot := r; fc_WindowStart := ws; fc_WindowEnd := we;
          fc_Payout := p; fc_ValidProofOutputs := vo; fc_MissedProofOutputs := mo;
          fc_UnlockHash := uh; fc_RevisionNumber := rn |}.

Definition FileContractRevision_EncodeTo (rev : FileContractRevision) : bytes :=
  let fc := fcr_FileContract rev in
  Array_EncodeTo (fcr_ParentID rev) ++ UnlockConditions_EncodeTo (fcr_UnlockConditions rev) ++
  WriteUint64 (fc_RevisionNumber fc) ++ WriteUint64 (fc_Filesize fc) ++
  Array_EncodeTo (fc_FileMerkleRoot fc) ++ WriteUint64 (fc_WindowStart fc) ++
  WriteUint64 (fc_WindowEnd fc) ++
  EncodeSlice V1SiacoinOutput_EncodeTo (fc_ValidProofOutputs fc) ++
  EncodeSlice V1SiacoinOutput_EncodeTo (fc_MissedProofOutputs fc) ++
  Array_EncodeTo (fc_UnlockHash fc).
(** The payout of a revision is set to a sentinel. *)
Definition FileContractRevision_DecodeFrom : Decode FileContractRevision :=
  p ← Hash256_DecodeFrom; u ← UnlockConditions_DecodeFrom; rn ← ReadUint64; fs ← ReadUint64;
  r ← Hash256_DecodeFrom; ws ← ReadUint64; we ← ReadUint64;
  vo ← DecodeSlice V1SiacoinOutput_DecodeFrom; mo ← DecodeSlice V1SiacoinOutput_DecodeFrom;
  uh ← Hash256_DecodeFrom;
  mret {| fcr_ParentID := p; fcr_UnlockConditions := u;
          fcr_FileContract :=
            {| fc_Filesize := fs; fc_FileMerkleRoot := r; fc_WindowStart := ws; fc_WindowEnd := we;
               fc_Payout := Currency.MaxCurrency; fc_ValidProofOutputs := vo;
               fc_MissedProofOutputs := mo; fc_UnlockHash := uh; fc_RevisionNumber := rn |} |}.

Definition StorageProof_EncodeTo (sp : StorageProof) : bytes :=
  Array_EncodeTo (sp_ParentID sp) ++ Array_EncodeTo (sp_Leaf sp) ++
  EncodeSlice Array_EncodeTo (sp_Proof sp).
Definition StorageProof_DecodeFrom : Decode StorageProof :=
  p ← Hash256_DecodeFrom; l ← Read 64; pr ← DecodeSlice Hash256_DecodeFrom;
  mret {| sp_ParentID := p; sp_Leaf := l; sp_Proof := pr |}.

Definition FoundationAddressUpdate_EncodeTo (fau : FoundationAddressUpdate) : bytes :=
  Array_EncodeTo (fau_NewPrimary fau) ++ Array_EncodeTo (fau_NewFailsafe fau).
Definition FoundationAddressUpdate_DecodeFrom : Decode FoundationAddressUpdate :=
  p ← Hash256_DecodeFrom; f ← Hash256_DecodeFrom;
  mret {| fau_NewPrimary := p; fau_NewFailsafe := f |}.

Definition CoveredFields_EncodeTo (cf : CoveredFields) : bytes :=
  WriteBool (cf_WholeTransaction cf) ++
  EncodeSlice WriteUint64 (cf_SiacoinInputs cf) ++ EncodeSlice WriteUint64 (cf_SiacoinOutputs cf) ++
  EncodeSlice WriteUint64 (cf_FileContracts cf) ++
  EncodeSlice WriteUint64 (cf_FileContractRevisions cf) ++
  EncodeSlice WriteUint64 (cf_StorageProofs cf) ++ EncodeSlice WriteUint64 (cf_SiafundInputs cf) ++
  EncodeSlice WriteUint64 (cf_SiafundOutputs cf) ++ EncodeSlice WriteUint64 (cf_MinerFees cf) ++
  EncodeSlice WriteUint64 (cf_ArbitraryData cf) ++ EncodeSlice WriteUint64 (cf_Signatures cf).
Definition CoveredFields_DecodeFrom : Decode CoveredFields :=
  w ← ReadBool; a ← DecodeSlice ReadUint64; b ← DecodeSlice ReadUint64;
  c ← DecodeSlice ReadUint64; e ← DecodeSlice ReadUint64; f ← DecodeSlice ReadUint64;
  g ← DecodeSlice ReadUint64; h ← DecodeSlice ReadUint64; i ← DecodeSlice ReadUint64;
  j ← DecodeSlice ReadUint64; k ← DecodeSlice ReadUint64;
  mret {| cf_WholeTransaction := w; cf_SiacoinInputs := a; cf_SiacoinOutputs := b;
          cf_FileContracts := c; cf_FileContractRevisions := e; cf_StorageProofs := f;
          cf_SiafundInputs := g; cf_SiafundOutputs := h; cf_MinerFees := i;
          cf_ArbitraryData := j; cf_Signatures := k |}.

Definition TransactionSignature_EncodeTo (ts : TransactionSignature) : bytes :=
  Array_EncodeTo (ts_ParentID ts) ++ WriteUint64 (ts_PublicKeyIndex ts) ++
  WriteUint64 (ts_Timelock ts) ++ CoveredFields_EncodeTo (ts_CoveredFields ts) ++
  WriteBytes (ts_Signature ts).
Definition TransactionSignature_DecodeFrom : Decode TransactionSignature :=
  p ← Hash256_DecodeFrom; i ← ReadUint64; t ← ReadUint64; cf ← CoveredFields_DecodeFrom;
  s ← ReadBytes;
  mret {| ts_ParentID := p; ts_PublicKeyIndex := i; ts_Timelock := t; ts_CoveredFields := cf;
          ts_Signature := s |}.

Definition txnSansSigs_EncodeTo (txn : Transaction) : bytes :=
  EncodeSlice SiacoinInput_EncodeTo (tx_SiacoinInputs txn) ++
  EncodeSlice V1SiacoinOutput_EncodeTo (tx_SiacoinOutputs txn) ++
  EncodeSlice FileContract_EncodeTo (tx_FileContracts txn) ++
  EncodeSlice FileContractRevision_EncodeTo (tx_FileContractRevisions txn) ++
  EncodeSlice StorageProof_EncodeTo (tx_StorageProofs txn) ++
  EncodeSlice SiafundInput_EncodeTo (tx_SiafundInputs txn) ++
  EncodeSlice V1SiafundOutput_EncodeTo (tx_SiafundOutputs txn) ++
  EncodeSlice V1Currency_EncodeTo (tx_MinerFees txn) ++
  EncodeSlice WriteBytes (tx_ArbitraryData txn).

Definition Transaction_EncodeTo (txn : Transaction) : bytes :=
  txnSansSigs_EncodeTo txn ++ EncodeSlice TransactionSignature_EncodeTo (tx_Signatures txn).
Definition Transaction_DecodeFrom : Decode Transaction :=
  a ← DecodeSlice SiacoinInput_DecodeFrom; b ← DecodeSlice V1SiacoinOutput_DecodeFrom;
  c ← DecodeSlice FileContract_DecodeFrom; e ← DecodeSlice FileContractRevision_DecodeFrom;
  f ← DecodeSlice StorageProof_DecodeFrom; g ← DecodeSlice SiafundInput_DecodeFrom;
  h ← DecodeSlice V1SiafundOutput_DecodeFrom; i ← DecodeSlice V1Currency_DecodeFrom;
  j ← DecodeSlice ReadBytes; k ← DecodeSlice TransactionSignature_DecodeFrom;
  mret {| tx_SiacoinInputs := a; tx_SiacoinOutputs := b; tx_FileContracts := c;
          tx_FileContractRevisions := e; tx_StorageProofs := f; tx_SiafundInputs := g;
          tx_SiafundOutputs := h; tx_MinerFees := i; tx_ArbitraryData := j; tx_Signatures := k |}.

(** ** Spend policies *)
Definition maxPolicyDepth : nat := 32.

Fixpoint encodePolicy (p : SpendPolicy) : bytes :=
  match p with
  | PolicyTypeAbove h => WriteUint8 1 ++ WriteUint64 h
  | PolicyTypeAfter t => WriteUint8 2 ++ WriteTime t
  | PolicyTypePublicKey pk => WriteUint8 3 ++ Array_EncodeTo pk
  | PolicyTypeSLHDSA pk => WriteUint8 8 ++ Array_EncodeTo pk
  | PolicyTypeHash h => WriteUint8 4 ++ Array_EncodeTo h
  | PolicyTypeThreshold n l =>
      WriteUint8 5 ++ WriteUint8 n ++ WriteUint8 (u8 (zlen l)) ++ flat_map encodePolicy l
  | PolicyTypeOpaque a => WriteUint8 6 ++ Array_EncodeTo a
  | PolicyTypeUnlockConditions uc => WriteUint8 7 ++ UnlockConditions_EncodeTo uc
  end.

Definition SpendPolicy_EncodeTo (p : SpendPolicy) : bytes := WriteUint8 1 ++ encodePolicy p.

(** [readPolicy(depth)]; the fuel is [maxPolicyDepth + 1 - depth], so running out
    of it is the code's depth check. *)
Fixpoint readPolicy (fuel : nat) : Decode SpendPolicy :=
  match fuel with
  | O => decode_err "policy exceeds maximum nesting depth"
  | S fuel' =>
      op ← ReadUint8;
      if op =? 1 then h ← ReadUint64; mret (PolicyTypeAbove h)
      else if op =? 2 then t ← ReadTime; mret (PolicyTypeAfter t)
      else if op =? 3 then pk ← Hash256_DecodeFrom; mret (PolicyTypePublicKey pk)
      else if op =? 8 then pk ← Hash256_DecodeFrom; mret (PolicyTypeSLHDSA pk)
      else if op =? 4 then h ← Hash256_DecodeFrom; mret (PolicyTypeHash h)
      else if op =? 5 then
        n ← ReadUint8; k ← ReadUint8; l ← decode_n (readPolicy fuel') (Z.to_nat k);
        mret (PolicyTypeThreshold n l)
      else if op =? 6 then a ← Hash256_DecodeFrom; mret (PolicyTypeOpaque a)
      else if op =? 7 then uc ← UnlockConditions_DecodeFrom; mret (PolicyTypeUnlockConditions uc)
      else decode_err "unknown policy"
  end.

Definition SpendPolicy_DecodeFrom : Decode SpendPolicy :=
  v ← ReadUint8;
  if negb (v =? 1) then decode_err "unsupported policy version" else
  readPolicy (S maxPolicyDepth).

Definition SatisfiedPolicy_EncodeTo (sp : SatisfiedPolicy) : bytes :=
  SpendPolicy_EncodeTo (sat_Policy sp) ++ EncodeSlice Array_EncodeTo (sat_Signatures sp) ++
  EncodeSlice Array_EncodeTo (sat_Preimages sp).
Definition SatisfiedPolicy_DecodeFrom : Decode SatisfiedPolicy :=
  p ← SpendPolicy_DecodeFrom; s ← DecodeSlice Signature_DecodeFrom;
  pre ← DecodeSlice Hash256_DecodeFrom;
  mret {| sat_Policy := p; sat_Signatures := s; sat_Preimages := pre |}.

(** ** v2 elements *)
Definition StateElement_EncodeTo (se : StateElement) : bytes :=
  WriteUint64 (se_LeafIndex se) ++ EncodeSlice Array_EncodeTo (se_MerkleProof se).
Definition StateElement_DecodeFrom : Decode StateElement :=
  i ← ReadUint64; p ← DecodeSlice Hash256_DecodeFrom;
  mret {| se_LeafIndex := i; se_MerkleProof := p; se_shared := false |}.

Definition SiacoinElement_EncodeTo (e : SiacoinElement) : bytes :=
  StateElement_EncodeTo (sce_StateElement e) ++ Array_EncodeTo (sce_ID e) ++
  V2SiacoinOutput_EncodeTo (sce_SiacoinOutput e) ++ WriteUint64 (sce_MaturityHeight e).
Definition SiacoinElement_DecodeFrom : Decode SiacoinElement :=
  se ← StateElement_DecodeFrom; id ← Hash256_DecodeFrom; o ← V2SiacoinOutput_DecodeFrom;
  m ← ReadUint64;
  mret {| sce_ID := id; sce_StateElement := se; sce_SiacoinOutput := o; sce_MaturityHeight := m |}.

Definition V2SiacoinInput_EncodeTo (i : V2SiacoinInput) : bytes :=
  SiacoinElement_EncodeTo (v2sci_Parent i) ++ SatisfiedPolicy_EncodeTo (v2sci_SatisfiedPolicy i).
Definition V2SiacoinInput_DecodeFrom : Decode V2SiacoinInput :=
  p ← SiacoinElement_DecodeFrom; s ← SatisfiedPolicy_DecodeFrom;
  mret {| v2sci_Parent := p; v2sci_SatisfiedPolicy := s |}.

Definition ChainIndexElement_EncodeTo (e : ChainIndexElement) : bytes :=
  StateElement_EncodeTo (cie_StateElement e) ++ Array_EncodeTo (cie_ID e) ++
  ChainIndex_EncodeTo (cie_ChainIndex e).
Definition ChainIndexElement_DecodeFrom : Decode ChainIndexElement :=
  se ← StateElement_DecodeFrom; id ← Hash256_DecodeFrom; ci ← ChainIndex_DecodeFrom;
  mret {| cie_ID := id; cie_StateElement := se; cie_ChainIndex := ci |}.

Definition SiafundElement_EncodeTo (e : SiafundElement) : bytes :=
  StateElement_EncodeTo (sfe_StateElement e) ++ Array_EncodeTo (sfe_ID e) ++
  V2SiafundOutput_EncodeTo (sfe_SiafundOutput e) ++ V2Currency_EncodeTo (sfe_ClaimStart e).
Definition SiafundElement_DecodeFrom : Decode SiafundElement :=
  se ← StateElement_DecodeFrom; id ← Hash256_DecodeFrom; o ← V2SiafundOutput_DecodeFrom;
  c ← V2Currency_DecodeFrom;
  mret {| sfe_ID := id; sfe_StateElement := se; sfe_SiafundOutput := o; sfe_ClaimStart := c |}.

Definition V2SiafundInput_EncodeTo (i : V2SiafundInput) : bytes :=
  SiafundElement_EncodeTo (v2sfi_Parent i) ++ Array_EncodeTo (v2sfi_ClaimAddress i) ++
  SatisfiedPolicy_EncodeTo (v2sfi_SatisfiedPolicy i).
Definition V2SiafundInput_DecodeFrom : Decode V2SiafundInput :=
  p ← SiafundElement_DecodeFrom; a ← Hash256_DecodeFrom; s ← SatisfiedPolicy_DecodeFrom;
  mret {| v2sfi_Parent := p; v2sfi_ClaimAddress := a; v2sfi_SatisfiedPolicy := s |}.

Definition V2FileContract_EncodeTo (fc : V2FileContract) : bytes :=
  WriteUint64 (v2fc_Capacity fc) ++ WriteUint64 (v2fc_Filesize fc) ++
  Array_EncodeTo (v2fc_FileMerkleRoot fc) ++ WriteUint64 (v2fc_ProofHeight fc) ++
  WriteUint64 (v2fc_ExpirationHeight fc) ++ V2SiacoinOutput_EncodeTo (v2fc_RenterOutput fc) ++
  V2SiacoinOutput_EncodeTo (v2fc_HostOutput fc) ++ V2Currency_EncodeTo (v2fc_MissedHostValue fc) ++
  V2Currency_EncodeTo (v2fc_TotalCollateral fc) ++ Array_EncodeTo (v2fc_RenterPublicKey fc) ++
  Array_EncodeTo (v2fc_HostPublicKey fc) ++ WriteUint64 (v2fc_RevisionNumber fc) ++
  Array_EncodeTo (v2fc_RenterSignature fc) ++ Array_EncodeTo (v2fc_HostSignature fc).
Definition V2FileContract_DecodeFrom : Decode V2FileContract :=
  c ← ReadUint64; fs ← ReadUint64; r ← Hash256_DecodeFrom; ph ← ReadUint64; eh ← ReadUint64;
  ro ← V2SiacoinOutput_DecodeFrom; ho ← V2SiacoinOutput_DecodeFrom;
  mh ← V2Currency_DecodeFrom; tc ← V2Currency_DecodeFrom;
  rk ← Hash256_DecodeFrom; hk ← Hash256_DecodeFrom; rn ← ReadUint64;
  rs ← Signature_DecodeFrom; hs ← Signature_DecodeFrom;
  mret {| v2fc_Capacity := c; v2fc_Filesize := fs; v2fc_FileMerkleRoot := r;
          v2fc_ProofHeight := ph; v2fc_ExpirationHeight := eh; v2fc_RenterOutput := ro;
          v2fc_HostOutput := ho; v2fc_MissedHostValue := mh; v2fc_TotalCollateral := tc;
          v2fc_RenterPublicKey := rk; v2fc_HostPublicKey := hk; v2fc_RevisionNumber := rn;
          v2fc_RenterSignature := rs; v2fc_HostSignature := hs |}.

Definition FileContractElement_EncodeTo (e : FileContractElement) : bytes :=
  StateElement_EncodeTo (fce_StateElement e) ++ Array_EncodeTo (fce_ID e) ++
  FileContract_EncodeTo (fce_FileContract e).
Definition FileContractElement_DecodeFrom : Decode FileContractElement :=
  se ← StateElement_DecodeFrom; id ← Hash256_DecodeFrom; fc ← FileContract_DecodeFrom;
  mret {| fce_ID := id; fce_StateElement := se; fce_FileContract := fc |}.

Definition V2FileContractElement_EncodeTo (e : V2FileContractElement) : bytes :=
  StateElement_EncodeTo (v2fce_StateElement e) ++ Array_EncodeTo (v2fce_ID e) ++
  V2FileContract_EncodeTo (v2fce_V2FileContract e).
Definition V2FileContractElement_DecodeFrom : Decode V2FileContractElement :=
  se ← StateElement_DecodeFrom; id ← Hash256_DecodeFrom; fc ← V2FileContract_DecodeFrom;
  mret {| v2fce_ID := id; v2fce_StateElement := se; v2fce_V2FileContract := fc |}.

Definition V2FileContractRevision_EncodeTo (r : V2FileContractRevision) : bytes :=
  V2FileContractElement_EncodeTo (v2fcr_Parent r) ++ V2FileContract_EncodeTo (v2fcr_Revision r).
Definition V2FileContractRevision_DecodeFrom : Decode V2FileContractRevision :=
  p ← V2FileContractElement_DecodeFrom; r ← V2FileContract_DecodeFrom;
  mret {| v2fcr_Parent := p; v2fcr_Revision := r |}.

Definition V2FileContractRenewal_EncodeTo (r : V2FileContractRenewal) : bytes :=
  V2SiacoinOutput_EncodeTo (ren_FinalRenterOutput r) ++
  V2SiacoinOutput_EncodeTo (ren_FinalHostOutput r) ++ V2Currency_EncodeTo (ren_RenterRollover r) ++
  V2Currency_EncodeTo (ren_HostRollover r) ++ V2FileContract_EncodeTo (ren_NewContract r) ++
  Array_EncodeTo (ren_RenterSignature r) ++ Array_EncodeTo (ren_HostSignature r).
Definition V2FileContractRenewal_DecodeFrom : Decode V2FileContractRenewal :=
  ro ← V2SiacoinOutput_DecodeFrom; ho ← V2SiacoinOutput_DecodeFrom;
  rr ← V2Currency_DecodeFrom; hr ← V2Currency_DecodeFrom; nc ← V2FileContract_DecodeFrom;
  rs ← Signature_DecodeFrom; hs ← Signature_DecodeFrom;
  mret {| ren_FinalRenterOutput := ro; ren_FinalHostOutput := ho; ren_RenterRollover := rr;
          ren_HostRollover := hr; ren_NewContract := nc; ren_RenterSignature := rs;
          ren_HostSignature := hs |}.

Definition V2StorageProof_EncodeTo (sp : V2StorageProof) : bytes :=
  ChainIndexElement_EncodeTo (v2sp_ProofIndex sp) ++ Array_EncodeTo (v2sp_Leaf sp) ++
  EncodeSlice Array_EncodeTo (v2sp_Proof sp).
Definition V2StorageProof_DecodeFrom : Decode V2StorageProof :=
  pi ← ChainIndexElement_DecodeFrom; l ← Read 64; p ← DecodeSlice Hash256_DecodeFrom;
  mret {| v2sp_ProofIndex := pi; v2sp_Leaf := l; v2sp_Proof := p |}.

(** [res.Resolution.(EncoderTo).EncodeTo(e)] *)
Definition ResolutionType_EncodeTo (r : V2FileContractResolutionType) : bytes :=
  match r with
  | V2Renewal r => V2FileContractRenewal_EncodeTo r
  | V2Proof sp => V2StorageProof_EncodeTo sp
  | V2FileContractExpiration => []
  end.

Definition V2FileContractResolution_EncodeTo (res : V2FileContractResolution) : bytes :=
  V2FileContractElement_EncodeTo (res_Parent res) ++
  WriteUint8 (match res_Resolution res with
              | V2Renewal _ => 0 | V2Proof _ => 1 | V2FileContractExpiration => 2 end) ++
  ResolutionType_EncodeTo (res_Resolution res).
Definition V2FileContractResolution_DecodeFrom : Decode V2FileContractResolution :=
  p ← V2FileContractElement_DecodeFrom; t ← ReadUint8;
  if t =? 0 then r ← V2FileContractRenewal_DecodeFrom;
    mret {| res_Parent := p; res_Resolution := V2Renewal r |}
  else if t =? 1 then sp ← V2StorageProof_DecodeFrom;
    mret {| res_Parent := p; res_Resolution := V2Proof sp |}
  else if t =? 2 then mret {| res_Parent := p; res_Resolution := V2FileContractExpiration |}
  else decode_err "unknown resolution type".

Definition Attestation_EncodeTo (a : Attestation) : bytes :=
  Array_EncodeTo (at_PublicKey a) ++ WriteString (at_Key a) ++ WriteBytes (at_Value a) ++
  Array_EncodeTo (at_Signature a).
Definition Attestation_DecodeFrom : Decode Attestation :=
  pk ← Hash256_DecodeFrom; k ← ReadString; v ← ReadBytes; s ← Signature_DecodeFrom;
  mret {| at_PublicKey := pk; at_Key := k; at_Value := v; at_Signature := s |}.

(** ** v2 transactions *)

Definition nonempty {A} (l : list A) : bool := match l with [] => false | _ => true end.

(** The bit mask of the non-empty fields. *)
Definition field_flags (txn : V2Transaction) : list bool :=
  [ nonempty (v2tx_SiacoinInputs txn); nonempty (v2tx_SiacoinOutputs txn);
    nonempty (v2tx_SiafundInputs txn); nonempty (v2tx_SiafundOutputs txn);
    nonempty (v2tx_FileContracts txn); nonempty (v2tx_FileContractRevisions txn);
    nonempty (v2tx_FileContractResolutions txn); nonempty (v2tx_Attestations txn);
    nonempty (v2tx_ArbitraryData txn); bool_decide (v2tx_NewFoundationAddress txn <> None);
    negb (Currency.IsZero (v2tx_MinerFee txn)) ].

Fixpoint mask_of (i : Z) (l : list bool) : Z :=
  match l with
  | [] => 0
  | b :: l' => Z.lor (if b then Z.shiftl 1 i else 0) (mask_of (i + 1) l')
  end.

(** [if fields&(1<<i) != 0 { ... }] *)
Definition when (fields i : Z) (b : bytes) : bytes := if has_bit fields i then b else [].

Definition V2Transaction_EncodeTo (txn : V2Transaction) : bytes :=
  let fields := mask_of 0 (field_flags txn) in
  WriteUint8 2 ++ WriteUint64 fields ++
  when fields 0 (EncodeSlice V2SiacoinInput_EncodeTo (v2tx_SiacoinInputs txn)) ++
  when fields 1 (EncodeSlice V2SiacoinOutput_EncodeTo (v2tx_SiacoinOutputs txn)) ++
  when fields 2 (EncodeSlice V2SiafundInput_EncodeTo (v2tx_SiafundInputs txn)) ++
  when fields 3 (EncodeSlice V2SiafundOutput_EncodeTo (v2tx_SiafundOutputs txn)) ++
  when fields 4 (EncodeSlice V2FileContract_EncodeTo (v2tx_FileContracts txn)) ++
  when fields 5 (EncodeSlice V2FileContractRevision_EncodeTo (v2tx_FileContractRevisions txn)) ++
  when fields 6 (EncodeSlice V2FileContractResolution_EncodeTo (v2tx_FileContractResolutions txn)) ++
  when fields 7 (EncodeSlice Attestation_EncodeTo (v2tx_Attestations txn)) ++
  when fields 8 (WriteBytes (v2tx_ArbitraryData txn)) ++
  when fields 9 (match v2tx_NewFoundationAddress txn with Some a => Array_EncodeTo a | None => [] end) ++
  when fields 10 (V2Currency_EncodeTo (v2tx_MinerFee txn)).

Definition dwhen {A} (fields i : Z) (dflt : A) (dec : Decode A) : Decode A :=
  if has_bit fields i then dec else mret dflt.

Definition V2Transaction_DecodeFrom : Decode V2Transaction :=
  version ← ReadUint8;
  if negb (version =? 2) then decode_err "unsupported transaction version" else
  fields ← ReadUint64;
  a ← dwhen fields 0 [] (DecodeSlice V2SiacoinInput_DecodeFrom);
  b ← dwhen fields 1 [] (DecodeSlice V2SiacoinOutput_DecodeFrom);
  c ← dwhen fields 2 [] (DecodeSlice V2SiafundInput_DecodeFrom);
  e ← dwhen fields 3 [] (DecodeSlice V2SiafundOutput_DecodeFrom);
  f ← dwhen fields 4 [] (DecodeSlice V2FileContract_DecodeFrom);
  g ← dwhen fields 5 [] (DecodeSlice V2FileContractRevision_DecodeFrom);
  h ← dwhen fields 6 [] (DecodeSlice V2FileContractResolution_DecodeFrom);
  i ← dwhen fields 7 [] (DecodeSlice Attestation_DecodeFrom);
  j ← dwhen fields 8 [] ReadBytes;
  k ← dwhen fields 9 None (addr ← Hash256_DecodeFrom; mret (Some addr));
  l ← dwhen fields 10 Currency.ZeroCurrency V2Currency_DecodeFrom;
  mret {| v2tx_SiacoinInputs := a; v2tx_SiacoinOutputs := b; v2tx_SiafundInputs := c;
          v2tx_SiafundOutputs := e; v2tx_FileContracts := f; v2tx_FileContractRevisions := g;
          v2tx_FileContractResolutions := h; v2tx_Attestations := i; v2tx_ArbitraryData := j;
          v2tx_NewFoundationAddress := k; v2tx_MinerFee := l |}.

(** ** Semantic encoding (IDs and signature hashes) *)

Definition V2FileContract_nilSigs (fc : V2FileContract) : V2FileContract :=
  {| v2fc_Capacity := v2fc_Capacity fc; v2fc_Filesize := v2fc_Filesize fc;
     v2fc_FileMerkleRoot := v2fc_FileMerkleRoot fc; v2fc_ProofHeight := v2fc_ProofHeight fc;
     v2fc_ExpirationHeight := v2fc_ExpirationHeight fc; v2fc_RenterOutput := v2fc_RenterOutput fc;
     v2fc_HostOutput := v2fc_HostOutput fc; v2fc_MissedHostValue := v2fc_MissedHostValue fc;
     v2fc_TotalCollateral := v2fc_TotalCollateral fc;
     v2fc_RenterPublicKey := v2fc_RenterPublicKey fc; v2fc_HostPublicKey := v2fc_HostPublicKey fc;
     v2fc_RevisionNumber := v2fc_RevisionNumber fc;
     v2fc_RenterSignature := zeroSignature; v2fc_HostSignature := zeroSignature |}.

Definition Renewal_nilSigs (r : V2FileContractRenewal) : V2FileContractRenewal :=
  {| ren_FinalRenterOutput := ren_FinalRenterOutput r; ren_FinalHostOutput := ren_FinalHostOutput r;
     ren_RenterRollover := ren_RenterRollover r; ren_HostRollover := ren_HostRollover r;
     ren_NewContract := V2FileContract_nilSigs (ren_NewContract r);
     ren_RenterSignature := zeroSignature; ren_HostSignature := zeroSignature |}.

Definition nil_proof (se : StateElement) : StateElement :=
  {| se_LeafIndex := se_LeafIndex se; se_MerkleProof := []; se_shared := se_shared se |}.

Definition StorageProof_nilProof (sp : V2StorageProof) : V2StorageProof :=
  {| v2sp_ProofIndex := set_cie_se nil_proof (v2sp_ProofIndex sp);
     v2sp_Leaf := v2sp_Leaf sp; v2sp_Proof := v2sp_Proof sp |}.

Definition Resolution_normalize (r : V2FileContractResolutionType) : V2FileContractResolutionType :=
  match r with
  | V2Renewal r => V2Renewal (Renewal_nilSigs r)
  | V2Proof sp => V2Proof (StorageProof_nilProof sp)
  | V2FileContractExpiration => V2FileContractExpiration
  end.

Definition V2TransactionSemantics_EncodeTo (txn : V2Transaction) : bytes :=
  EncodeSlice (fun i => Array_EncodeTo (sce_ID (v2sci_Parent i))) (v2tx_SiacoinInputs txn) ++
  EncodeSlice V2SiacoinOutput_EncodeTo (v2tx_SiacoinOutputs txn) ++
  EncodeSlice (fun i => Array_EncodeTo (sfe_ID (v2sfi_Parent i))) (v2tx_SiafundInputs txn) ++
  EncodeSlice V2SiafundOutput_EncodeTo (v2tx_SiafundOutputs txn) ++
  EncodeSlice (fun fc => V2FileContract_EncodeTo (V2FileContract_nilSigs fc))
    (v2tx_FileContracts txn) ++
  EncodeSlice (fun r => Array_EncodeTo (v2fce_ID (v2fcr_Parent r)) ++
                V2FileContract_EncodeTo (V2FileContract_nilSigs (v2fcr_Revision r)))
    (v2tx_FileContractRevisions txn) ++
  EncodeSlice (fun r => Array_EncodeTo (v2fce_ID (res_Parent r)) ++
                ResolutionType_EncodeTo (Resolution_normalize (res_Resolution r)))
    (v2tx_FileContractResolutions txn) ++
  EncodeSlice Attestation_EncodeTo (v2tx_Attestations txn) ++
  WriteBytes (v2tx_ArbitraryData txn) ++
  EncodePtr Array_EncodeTo (v2tx_NewFoundationAddress txn) ++
  V2Currency_EncodeTo (v2tx_MinerFee txn).

(** ** Headers and v1 blocks *)
Definition BlockHeader_EncodeTo (h : BlockHeader) : bytes :=
  Array_EncodeTo (bh_ParentID h) ++ WriteUint64 (bh_Nonce h) ++ WriteTime (bh_Timestamp h) ++
  Array_EncodeTo (bh_Commitment h).
Definition BlockHeader_DecodeFrom : Decode BlockHeader :=
  p ← Hash256_DecodeFrom; n ← ReadUint64; t ← ReadTime; c ← Hash256_DecodeFrom;
  mret {| bh_ParentID := p; bh_Nonce := n; bh_Timestamp := t; bh_Commitment := c |}.

Definition V1Block_EncodeTo (b : Block) : bytes :=
  Array_EncodeTo (b_ParentID b) ++ WriteUint64 (b_Nonce b) ++ WriteTime (b_Timestamp b) ++
  EncodeSlice V1SiacoinOutput_EncodeTo (b_MinerPayouts b) ++
  EncodeSlice Transaction_EncodeTo (b_Transactions b).
Definition V1Block_DecodeFrom : Decode Block :=
  p ← Hash256_DecodeFrom; n ← ReadUint64; t ← ReadTime;
  mp ← DecodeSlice V1SiacoinOutput_DecodeFrom; txns ← DecodeSlice Transaction_DecodeFrom;
  mret {| b_ParentID := p; b_Nonce := n; b_Timestamp := t; b_MinerPayouts := mp;
          b_Transactions := txns; b_V2 := None |}.
