(* ===== verification/TypesCodec.v ===== *)
(** * Round trips of the binary encoding

    [Codec wf enc dec]: [dec] inverts [enc] on well-formed values, consuming
    exactly the bytes [enc] wrote and leaving the rest of the stream and the
    remaining budget.  One instance per Go type; records compose by instance
    resolution. *)
From stdpp Require Import prelude strings.
From Stdlib Require Import ZArith Lia.
From S2P Require Import Prelude TypesCurrency TypesData TypesEncoding.

(** The byte budget of a stream is a non-negative [int64]. *)
Class Codec {A} (wf : A -> Prop) (enc : A -> bytes) (dec : Decode A) : Prop :=
  codec_rt : forall x rest N, wf x -> zlen (enc x) <= N < two63 ->
    dec (mkD (enc x ++ rest) N) = Ok (x, mkD rest (N - zlen (enc x))).

(** Slice elements must occupy at least one byte each, as the length-prefix
    guard of [DecodeSlice] compares a count with a byte budget. *)
Class NonEmpty {A} (wf : A -> Prop) (enc : A -> bytes) : Prop :=
  enc_nonempty : forall x, wf x -> 1 <= zlen (enc x).

Lemma codec_step {A B} (wf : A -> Prop) enc dec `{!Codec wf enc dec} (f : A -> Decode B) x rest N :
  wf x -> zlen (enc x) <= N < two63 ->
  (dec ≫= f) (mkD (enc x ++ rest) N) = f x (mkD rest (N - zlen (enc x))).
Proof. intros Hwf HN. unfold mbind, decode_bind. by rewrite (codec_rt x rest N Hwf HN). Qed.

(** ** Primitive instances *)

Definition wf_array (n : nat) (b : bytes) : Prop := length b = n.
Definition wf_any {A} (x : A) : Prop := True.
(** A time read from or written to the wire: a whole number of Unix seconds. *)
Definition wf_time (t : Time) : Prop := exists s, is_i64 s /\ t = time_Unix s.

Lemma Read_app n b rest N : length b = n -> Z.of_nat n <= N ->
  Read n (mkD (b ++ rest) N) = Ok (b, mkD rest (N - Z.of_nat n)).
Proof.
  intros <- HN. unfold Read, avail. cbn [d_rest d_N]. rewrite zlen_app. unfold zlen.
  destruct (_ <=? _) eqn:E; [|bool_lia].
  by rewrite take_app_length, drop_app_length.
Qed.

Global Instance array_codec n : Codec (wf_array n) Array_EncodeTo (Read n).
Proof.
  intros b rest N Hb HN. unfold Array_EncodeTo, zlen in *. rewrite Hb in *.
  apply Read_app; [done|lia].
Qed.

Global Instance hash_codec : Codec (wf_array 32) Array_EncodeTo Hash256_DecodeFrom := array_codec 32.
Global Instance sig_codec : Codec (wf_array 64) Array_EncodeTo Signature_DecodeFrom := array_codec 64.
Global Instance spec_codec : Codec (wf_array 16) Array_EncodeTo Specifier_DecodeFrom := array_codec 16.

Lemma array_nonempty n : NonEmpty (wf_array (S n)) Array_EncodeTo.
Proof. intros b Hb. unfold Array_EncodeTo, zlen. rewrite Hb. lia. Qed.
Global Instance hash_nonempty : NonEmpty (wf_array 32) Array_EncodeTo := array_nonempty 31.
Global Instance sig_nonempty : NonEmpty (wf_array 64) Array_EncodeTo := array_nonempty 63.

Lemma zlen_WriteUint64 x : zlen (WriteUint64 x) = 8.
Proof. unfold zlen, WriteUint64. by rewrite length_le_encode. Qed.

Global Instance u64_codec : Codec is_u64 WriteUint64 ReadUint64.
Proof.
  intros x rest N Hx HN. rewrite zlen_WriteUint64 in *. unfold ReadUint64, WriteUint64.
  unfold mbind, decode_bind. rewrite Read_app by (rewrite ?length_le_encode; lia).
  unfold mret, decode_ret. by rewrite le_decode_encode_8.
Qed.
Global Instance u64_nonempty : NonEmpty is_u64 WriteUint64.
Proof. intros x _. rewrite zlen_WriteUint64. lia. Qed.

Global Instance u8_codec : Codec is_u8 WriteUint8 ReadUint8.
Proof.
  intros x rest N Hx HN. change (zlen (WriteUint8 x)) with 1 in *. unfold ReadUint8, WriteUint8.
  unfold mbind, decode_bind. rewrite Read_app by (cbn; lia).
  unfold mret, decode_ret. cbn [le_decode]. do 3 f_equal; lia.
Qed.

Global Instance bool_codec : Codec wf_any WriteBool ReadBool.
Proof.
  intros b rest N _ HN. unfold ReadBool.
  change (WriteBool b) with (WriteUint8 (if b then 1 else 0)) in *.
  rewrite (codec_step is_u8); [|apply _|unfold is_u8; destruct b; lia|lia].
  by destruct b.
Qed.

Lemma Unix_time_Unix s : is_i64 s -> Unix (time_Unix s) = s.
Proof.
  unfold is_i64, Unix, time_Unix, i64, Second, unixToInternal. intros H.
  rewrite Z.div_mul by lia. set (y := s + 62135596800).
  replace (y + two63) with (y + two63) by lia.
  replace ((y + two63) mod two64 - two63 - 62135596800 + two63)
    with ((y + two63) mod two64 - 62135596800) by lia.
  rewrite Zminus_mod_idemp_l. unfold y.
  replace (s + 62135596800 + two63 - 62135596800) with (s + two63) by lia.
  rewrite Z.mod_small by lia. lia.
Qed.

Global Instance time_codec : Codec wf_time WriteTime ReadTime.
Proof.
  intros t rest N (s & Hs & ->) HN. unfold ReadTime, WriteTime in *.
  rewrite Unix_time_Unix in * by done.
  rewrite (codec_step is_u64); [|apply _|apply u64_range|lia].
  unfold mret, decode_ret. by rewrite i64_u64.
Qed.

Lemma check_prefix_ok n rest N : n <= N < two63 -> 0 <= N ->
  check_prefix n (mkD rest N) = Ok (tt, mkD rest N).
Proof.
  intros. unfold check_prefix. cbn [d_N]. unfold u64. rewrite Z.mod_small by lia.
  destruct (_ <? _) eqn:E; [bool_lia|done].
Qed.

Lemma check_prefix_step {B} n (f : unit -> Decode B) rest N : n <= N < two63 -> 0 <= N ->
  (check_prefix n ≫= f) (mkD rest N) = f tt (mkD rest N).
Proof. intros. unfold mbind, decode_bind. by rewrite check_prefix_ok. Qed.

Global Instance bytes_codec : Codec wf_any WriteBytes ReadBytes.
Proof.
  intros b rest N _ HN. unfold WriteBytes, ReadBytes in *.
  rewrite <- app_assoc. rewrite zlen_app, zlen_WriteUint64 in *. unfold zlen in *.
  rewrite (codec_step is_u64); [|apply _|unfold is_u64; lia|rewrite zlen_WriteUint64; lia].
  rewrite zlen_WriteUint64, check_prefix_step, Nat2Z.id by lia.
  rewrite Read_app by lia. do 3 f_equal. lia.
Qed.
Global Instance bytes_nonempty : NonEmpty wf_any WriteBytes.
Proof. intros b _. unfold WriteBytes. rewrite zlen_app, zlen_WriteUint64. unfold zlen. lia. Qed.

Lemma decode_n_rt {A} (wf : A -> Prop) enc dec `{!Codec wf enc dec} l rest N :
  Forall wf l -> zlen (flat_map enc l) <= N < two63 ->
  decode_n dec (length l) (mkD (flat_map enc l ++ rest) N)
    = Ok (l, mkD rest (N - zlen (flat_map enc l))).
Proof.
  intros Hl. revert N. induction Hl as [|x l Hx Hl IH]; intros N HN; cbn [flat_map length decode_n].
  - unfold mret, decode_ret. do 3 f_equal. cbn. unfold zlen. cbn. lia.
  - cbn [flat_map] in HN. rewrite zlen_app in *. rewrite <- app_assoc.
    rewrite (codec_step wf); [|apply _|done|unfold zlen in *; lia].
    unfold mbind at 1, decode_bind at 1. rewrite IH by (unfold zlen in *; lia).
    unfold mret, decode_ret. do 3 f_equal. lia.
Qed.

Lemma flat_map_length_ge {A} (wf : A -> Prop) enc `{!NonEmpty wf enc} l :
  Forall wf l -> zlen l <= zlen (flat_map enc l).
Proof.
  induction 1 as [|x l Hx Hl IH]; [done|]. cbn [flat_map]. rewrite zlen_app.
  pose proof (enc_nonempty x Hx). unfold zlen in *. cbn [length]. lia.
Qed.

Global Instance slice_codec {A} (wf : A -> Prop) enc dec `{!Codec wf enc dec} `{!NonEmpty wf enc} :
  Codec (Forall wf) (EncodeSlice enc) (DecodeSlice dec).
Proof.
  intros l rest N Hl HN. unfold EncodeSlice, DecodeSlice in *.
  pose proof (flat_map_length_ge wf enc l Hl) as Hge.
  rewrite <- app_assoc. rewrite zlen_app, zlen_WriteUint64 in *.
  rewrite (codec_step is_u64);
    [|apply _|unfold is_u64, zlen in *; lia|rewrite zlen_WriteUint64; unfold zlen in *; lia].
  rewrite zlen_WriteUint64, check_prefix_step by (unfold zlen in *; lia).
  unfold zlen at 1. rewrite Nat2Z.id, (decode_n_rt wf) by (auto; lia).
  do 3 f_equal. lia.
Qed.
Global Instance slice_nonempty {A} (wf : A -> Prop) enc : NonEmpty (Forall wf) (EncodeSlice enc).
Proof. intros b _. unfold EncodeSlice. rewrite zlen_app, zlen_WriteUint64. unfold zlen. lia. Qed.

(** ** Composition tactics *)

Ltac zl := unfold zlen in *; cbn [length] in *; lia.

(** Runs the decoder through the fields of a record, one bind at a time. *)
Ltac codec_field :=
  match goal with
  | |- (?dec ≫= ?f) (mkD (?enc ?x ++ ?rest) ?N) = _ =>
      refine (eq_trans (codec_step _ enc dec f x rest N _ _) _);
      [first [eassumption|exact I]|zl|]
  end.

Ltac codec_done :=
  unfold mret, decode_ret;
  match goal with
  | |- Ok (_, mkD _ ?n) = Ok (?x, mkD _ ?m) => replace m with n by zl; destruct x; reflexivity
  end.

Ltac codec_record wf enc dec :=
  let H := fresh "Hwf" in let HN := fresh "HN" in
  intros ? ? ? H HN; unfold enc, dec in *; rewrite ?zlen_app in *; unfold wf in H;
  destruct_and? H; repeat rewrite <- app_assoc; repeat codec_field; codec_done.

(** The first field of a record already occupies a byte. *)
Ltac nonempty_record wf enc :=
  let H := fresh "Hwf" in
  intros ? H; unfold enc; unfold wf in H; destruct_and? H; rewrite ?zlen_app;
  match goal with
  | Hx : ?w ?x |- 1 <= zlen (?e ?x) + _ =>
      pose proof (@enc_nonempty _ w e _ x Hx); zl
  | |- 1 <= zlen (WriteBool _) + _ => unfold WriteBool; zl
  end.

(** ** v1 types *)

Definition wf_UnlockKey (uk : UnlockKey) : Prop := wf_array 16 (uk_Algorithm uk).
Global Instance UnlockKey_codec : Codec wf_UnlockKey UnlockKey_EncodeTo UnlockKey_DecodeFrom.
Proof. codec_record wf_UnlockKey UnlockKey_EncodeTo UnlockKey_DecodeFrom. Qed.
Global Instance UnlockKey_nonempty : NonEmpty wf_UnlockKey UnlockKey_EncodeTo.
Proof.
  intros x Hx. unfold UnlockKey_EncodeTo. rewrite zlen_app.
  pose proof (enc_nonempty (uk_Key x) I). zl.
Qed.

Definition wf_UnlockConditions (uc : UnlockConditions) : Prop :=
  is_u64 (uc_Timelock uc) /\ Forall wf_UnlockKey (uc_PublicKeys uc) /\
  is_u64 (uc_SignaturesRequired uc).
Global Instance UnlockConditions_codec :
  Codec wf_UnlockConditions UnlockConditions_EncodeTo UnlockConditions_DecodeFrom.
Proof. codec_record wf_UnlockConditions UnlockConditions_EncodeTo UnlockConditions_DecodeFrom. Qed.

Lemma trim_zeros_pad b : b = zeros (length b - length (trim_zeros b)) ++ trim_zeros b.
Proof.
  assert (forall l, length (trim_zeros l) <= length l)%nat as Hle.
  { induction l as [|[| |] l IH]; cbn; lia. }
  induction b as [|[| |] b IH]; cbn [trim_zeros]; rewrite ?Nat.sub_diag; try done.
  rewrite IH at 1. cbn [length]. rewrite Nat.sub_succ_l by apply Hle. done.
Qed.

Lemma currency_be c : Currency.ok c ->
  be_decode (be_encode 8 (Currency.Hi c)) = Currency.Hi c /\
  be_decode (be_encode 8 (Currency.Lo c)) = Currency.Lo c.
Proof. intros [??]. by rewrite !be_decode_encode_8. Qed.

Global Instance V1Currency_codec : Codec Currency.ok V1Currency_EncodeTo V1Currency_DecodeFrom.
Proof.
  intros c rest N Hc HN. unfold V1Currency_EncodeTo, V1Currency_DecodeFrom, WriteBytes in *.
  set (b := be_encode 8 (Currency.Hi c) ++ be_encode 8 (Currency.Lo c)) in *.
  assert (length b = 16%nat) as Hb by (unfold b; by rewrite length_app, !length_be_encode).
  pose proof (trim_zeros_pad b) as Hpad. rewrite Hb in Hpad.
  assert (length (trim_zeros b) <= 16)%nat as Ht.
  { apply (f_equal length) in Hpad. rewrite length_app in Hpad. unfold zeros in Hpad.
    rewrite length_replicate in Hpad. lia. }
  rewrite <- app_assoc. rewrite zlen_app, zlen_WriteUint64 in *.
  rewrite (codec_step is_u64);
    [|apply _|unfold is_u64; zl|rewrite zlen_WriteUint64; zl].
  rewrite zlen_WriteUint64. destruct (16 <? zlen (trim_zeros b)) eqn:E; [zl|].
  unfold zlen at 1. rewrite Nat2Z.id. unfold mbind, decode_bind. rewrite Read_app by zl.
  unfold mret, decode_ret. unfold zlen at 1 2. rewrite Nat2Z.id, <- Hpad.
  unfold b at 1 2. rewrite take_app_length', drop_app_length' by (by rewrite length_be_encode).
  destruct (currency_be c Hc) as [-> ->]. destruct c; cbn. do 3 f_equal. zl.
Qed.
Global Instance V1Currency_nonempty : NonEmpty Currency.ok V1Currency_EncodeTo.
Proof. intros x _. by apply bytes_nonempty. Qed.

Global Instance V2Currency_codec : Codec Currency.ok V2Currency_EncodeTo V2Currency_DecodeFrom.
Proof. codec_record Currency.ok V2Currency_EncodeTo V2Currency_DecodeFrom. Qed.
Global Instance V2Currency_nonempty : NonEmpty Currency.ok V2Currency_EncodeTo.
Proof. nonempty_record Currency.ok V2Currency_EncodeTo. Qed.

Definition wf_ChainIndex (i : ChainIndex) : Prop := is_u64 (ci_Height i) /\ wf_array 32 (ci_ID i).
Global Instance ChainIndex_codec : Codec wf_ChainIndex ChainIndex_EncodeTo ChainIndex_DecodeFrom.
Proof. codec_record wf_ChainIndex ChainIndex_EncodeTo ChainIndex_DecodeFrom. Qed.

Definition wf_SiacoinOutput (o : SiacoinOutput) : Prop :=
  Currency.ok (sco_Value o) /\ wf_array 32 (sco_Address o).
Global Instance V1SiacoinOutput_codec :
  Codec wf_SiacoinOutput V1SiacoinOutput_EncodeTo V1SiacoinOutput_DecodeFrom.
Proof. codec_record wf_SiacoinOutput V1SiacoinOutput_EncodeTo V1SiacoinOutput_DecodeFrom. Qed.
Global Instance V1SiacoinOutput_nonempty : NonEmpty wf_SiacoinOutput V1SiacoinOutput_EncodeTo.
Proof. nonempty_record wf_SiacoinOutput V1SiacoinOutput_EncodeTo. Qed.
Global Instance V2SiacoinOutput_codec :
  Codec wf_SiacoinOutput V2SiacoinOutput_EncodeTo V2SiacoinOutput_DecodeFrom.
Proof. codec_record wf_SiacoinOutput V2SiacoinOutput_EncodeTo V2SiacoinOutput_DecodeFrom. Qed.
Global Instance V2SiacoinOutput_nonempty : NonEmpty wf_SiacoinOutput V2SiacoinOutput_EncodeTo.
Proof. nonempty_record wf_SiacoinOutput V2SiacoinOutput_EncodeTo. Qed.

(** ** v1 transactions *)

Definition wf_SiafundOutput (o : SiafundOutput) : Prop :=
  is_u64 (sfo_Value o) /\ wf_array 32 (sfo_Address o).
Global Instance V1SiafundOutput_codec :
  Codec wf_SiafundOutput V1SiafundOutput_EncodeTo V1SiafundOutput_DecodeFrom.
Proof.
  intros x rest N [Hv Ha] HN. unfold V1SiafundOutput_EncodeTo, V1SiafundOutput_DecodeFrom in *.
  rewrite ?zlen_app in *. repeat rewrite <- app_assoc.
  assert (Currency.ok (Currency.NewCurrency64 (sfo_Value x))) by (split; [done|unfold is_u64; cbn; lia]).
  codec_field. cbn [Currency.Hi Currency.NewCurrency64 negb Z.eqb].
  codec_field. pose proof Currency.zero_ok. codec_field. codec_done.
Qed.
Global Instance V1SiafundOutput_nonempty : NonEmpty wf_SiafundOutput V1SiafundOutput_EncodeTo.
Proof.
  intros x _. unfold V1SiafundOutput_EncodeTo. rewrite zlen_app.
  pose proof (bytes_nonempty (trim_zeros (be_encode 8 0 ++ be_encode 8 (sfo_Value x))) I) as H.
  unfold V1Currency_EncodeTo at 1. cbn [Currency.Hi Currency.Lo Currency.NewCurrency64]. zl.
Qed.
Global Instance V2SiafundOutput_codec :
  Codec wf_SiafundOutput V2SiafundOutput_EncodeTo V2SiafundOutput_DecodeFrom.
Proof. codec_record wf_SiafundOutput V2SiafundOutput_EncodeTo V2SiafundOutput_DecodeFrom. Qed.
Global Instance V2SiafundOutput_nonempty : NonEmpty wf_SiafundOutput V2SiafundOutput_EncodeTo.
Proof. nonempty_record wf_SiafundOutput V2SiafundOutput_EncodeTo. Qed.

Definition wf_SiacoinInput (x : SiacoinInput) : Prop :=
  wf_array 32 (sci_ParentID x) /\
  wf_UnlockConditions (sci_UnlockConditions x).

Global Instance SiacoinInput_codec : Codec wf_SiacoinInput SiacoinInput_EncodeTo SiacoinInput_DecodeFrom.
Proof. codec_record wf_SiacoinInput SiacoinInput_EncodeTo SiacoinInput_DecodeFrom. Qed.

Global Instance SiacoinInput_nonempty : NonEmpty wf_SiacoinInput SiacoinInput_EncodeTo.
Proof. nonempty_record wf_SiacoinInput SiacoinInput_EncodeTo. Qed.

Definition wf_SiafundInput (x : SiafundInput) : Prop :=
  wf_array 32 (sfi_ParentID x) /\
  wf_UnlockConditions (sfi_UnlockConditions x) /\
  wf_array 32 (sfi_ClaimAddress x).

Global Instance SiafundInput_codec : Codec wf_SiafundInput SiafundInput_EncodeTo SiafundInput_DecodeFrom.
Proof. codec_record wf_SiafundInput SiafundInput_EncodeTo SiafundInput_DecodeFrom. Qed.

Global Instance SiafundInput_nonempty : NonEmpty wf_SiafundInput SiafundInput_EncodeTo.
Proof. nonempty_record wf_SiafundInput SiafundInput_EncodeTo. Qed.

Definition wf_FileContract (x : FileContract) : Prop :=
  is_u64 (fc_Filesize x) /\
  wf_array 32 (fc_FileMerkleRoot x) /\
  is_u64 (fc_WindowStart x) /\
  is_u64 (fc_WindowEnd x) /\
  Currency.ok (fc_Payout x) /\
  Forall wf_SiacoinOutput (fc_ValidProofOutputs x) /\
  Forall wf_SiacoinOutput (fc_MissedProofOutputs x) /\
  wf_array 32 (fc_UnlockHash x) /\
  is_u64 (fc_RevisionNumber x).

Global Instance FileContract_codec : Codec wf_FileContract FileContract_EncodeTo FileContract_DecodeFrom.
Proof. codec_record wf_FileContract FileContract_EncodeTo FileContract_DecodeFrom. Qed.

Global Instance FileContract_nonempty : NonEmpty wf_FileContract FileContract_EncodeTo.
Proof. nonempty_record wf_FileContract FileContract_EncodeTo. Qed.

(** The payout of a decoded revision is the sentinel [MaxCurrency]. *)

Definition wf_FileContractRevision (x : FileContractRevision) : Prop :=
  wf_array 32 (fcr_ParentID x) /\ wf_UnlockConditions (fcr_UnlockConditions x) /\
  wf_FileContract (fcr_FileContract x) /\
  fc_Payout (fcr_FileContract x) = Currency.MaxCurrency.
Global Instance FileContractRevision_codec :
  Codec wf_FileContractRevision FileContractRevision_EncodeTo FileContractRevision_DecodeFrom.
Proof.
  intros x rest N (Hp & Hu & Hfc & Hpay) HN. unfold wf_FileContract in Hfc. destruct_and? Hfc.
  unfold FileContractRevision_EncodeTo, FileContractRevision_DecodeFrom in *. cbv zeta in *.
  rewrite ?zlen_app in *. repeat rewrite <- app_assoc. repeat codec_field.
  unfold mret, decode_ret. destruct x as [p u fc], fc; cbn in *. subst. do 3 f_equal. zl.
Qed.
Global Instance FileContractRevision_nonempty :
  NonEmpty wf_FileContractRevision FileContractRevision_EncodeTo.
Proof. nonempty_record wf_FileContractRevision FileContractRevision_EncodeTo. Qed.

Definition wf_StorageProof (x : StorageProof) : Prop :=
  wf_array 32 (sp_ParentID x) /\
  wf_array 64 (sp_Leaf x) /\
  Forall (wf_array 32) (sp_Proof x).

Global Instance StorageProof_codec : Codec wf_StorageProof StorageProof_EncodeTo StorageProof_DecodeFrom.
Proof. codec_record wf_StorageProof StorageProof_EncodeTo StorageProof_DecodeFrom. Qed.

Global Instance StorageProof_nonempty : NonEmpty wf_StorageProof StorageProof_EncodeTo.
Proof. nonempty_record wf_StorageProof StorageProof_EncodeTo. Qed.

Definition wf_FoundationAddressUpdate (x : FoundationAddressUpdate) : Prop :=
  wf_array 32 (fau_NewPrimary x) /\
  wf_array 32 (fau_NewFailsafe x).

Global Instance FoundationAddressUpdate_codec : Codec wf_FoundationAddressUpdate FoundationAddressUpdate_EncodeTo FoundationAddressUpdate_DecodeFrom.
Proof. codec_record wf_FoundationAddressUpdate FoundationAddressUpdate_EncodeTo FoundationAddressUpdate_DecodeFrom. Qed.

Definition wf_CoveredFields (x : CoveredFields) : Prop :=
  Forall is_u64 (cf_SiacoinInputs x) /\
  Forall is_u64 (cf_SiacoinOutputs x) /\
  Forall is_u64 (cf_FileContracts x) /\
  Forall is_u64 (cf_FileContractRevisions x) /\
  Forall is_u64 (cf_StorageProofs x) /\
  Forall is_u64 (cf_SiafundInputs x) /\
  Forall is_u64 (cf_SiafundOutputs x) /\
  Forall is_u64 (cf_MinerFees x) /\
  Forall is_u64 (cf_ArbitraryData x) /\
  Forall is_u64 (cf_Signatures x).

Global Instance CoveredFields_codec : Codec wf_CoveredFields CoveredFields_EncodeTo CoveredFields_DecodeFrom.
Proof. codec_record wf_CoveredFields CoveredFields_EncodeTo CoveredFields_DecodeFrom. Qed.

Definition wf_TransactionSignature (x : TransactionSignature) : Prop :=
  wf_array 32 (ts_ParentID x) /\
  is_u64 (ts_PublicKeyIndex x) /\
  is_u64 (ts_Timelock x) /\
  wf_CoveredFields (ts_CoveredFields x).

Global Instance TransactionSignature_codec : Codec wf_TransactionSignature TransactionSignature_EncodeTo TransactionSignature_DecodeFrom.
Proof. codec_record wf_TransactionSignature TransactionSignature_EncodeTo TransactionSignature_DecodeFrom. Qed.

Global Instance TransactionSignature_nonempty : NonEmpty wf_TransactionSignature TransactionSignature_EncodeTo.
Proof. nonempty_record wf_TransactionSignature TransactionSignature_EncodeTo. Qed.

Lemma Forall_any {A} (l : list A) : Forall wf_any l.
Proof. induction l; constructor; done. Qed.

Definition wf_Transaction (x : Transaction) : Prop :=
  Forall wf_SiacoinInput (tx_SiacoinInputs x) /\
  Forall wf_SiacoinOutput (tx_SiacoinOutputs x) /\
  Forall wf_FileContract (tx_FileContracts x) /\
  Forall wf_FileContractRevision (tx_FileContractRevisions x) /\
  Forall wf_StorageProof (tx_StorageProofs x) /\
  Forall wf_SiafundInput (tx_SiafundInputs x) /\
  Forall wf_SiafundOutput (tx_SiafundOutputs x) /\
  Forall Currency.ok (tx_MinerFees x) /\
  Forall wf_TransactionSignature (tx_Signatures x).
Global Instance Transaction_codec :
  Codec wf_Transaction Transaction_EncodeTo Transaction_DecodeFrom.
Proof.
  intros x rest N H HN. unfold wf_Transaction in H. destruct_and? H.
  pose proof (Forall_any (tx_ArbitraryData x)).
  unfold Transaction_EncodeTo, txnSansSigs_EncodeTo, Transaction_DecodeFrom in *.
  rewrite ?zlen_app in *. repeat rewrite <- app_assoc. repeat codec_field. codec_done.
Qed.
Global Instance Transaction_nonempty : NonEmpty wf_Transaction Transaction_EncodeTo.
Proof.
  intros x _. unfold Transaction_EncodeTo, txnSansSigs_EncodeTo, EncodeSlice.
  rewrite ?zlen_app, zlen_WriteUint64. zl.
Qed.

(** ** Spend policies *)

(** Nesting depth below the root: the deepest [depth] at which [readPolicy] runs. *)
Fixpoint policy_depth (p : SpendPolicy) : nat :=
  match p with
  | PolicyTypeThreshold _ l => foldr (fun q m => Nat.max (S (policy_depth q)) m) 0%nat l
  | _ => 0%nat
  end.

Fixpoint wf_policy_node (p : SpendPolicy) : Prop :=
  match p with
  | PolicyTypeAbove h => is_u64 h
  | PolicyTypeAfter t => wf_time t
  | PolicyTypePublicKey b | PolicyTypeHash b | PolicyTypeSLHDSA b | PolicyTypeOpaque b =>
      wf_array 32 b
  | PolicyTypeThreshold n l =>
      is_u8 n /\ zlen l <= 255 /\ foldr (fun q P => wf_policy_node q /\ P) True l
  | PolicyTypeUnlockConditions uc => wf_UnlockConditions uc
  end.

Definition wf_SpendPolicy (p : SpendPolicy) : Prop :=
  wf_policy_node p /\ (policy_depth p <= maxPolicyDepth)%nat.

Lemma wf_children l :
  foldr (fun q P => wf_policy_node q /\ P) True l <-> Forall wf_policy_node l.
Proof.
  induction l as [|p l IH]; cbn; [split; auto|]. rewrite Forall_cons, IH. done.
Qed.

Lemma depth_children l d :
  (foldr (fun q m => Nat.max (S (policy_depth q)) m) 0 l < S d)%nat ->
  Forall (fun q => policy_depth q < d)%nat l.
Proof. induction l as [|p l IH]; cbn; intros; constructor; [lia|apply IH; lia]. Qed.

Definition policy_rt (p : SpendPolicy) : Prop := forall fuel,
  (policy_depth p < fuel)%nat -> Codec (fun q => q = p) encodePolicy (readPolicy fuel).

Lemma threshold_children_rt l fuel : Forall policy_rt l ->
  Forall (fun q => policy_depth q < fuel)%nat l -> forall rest N,
  zlen (flat_map encodePolicy l) <= N < two63 ->
  decode_n (readPolicy fuel) (length l) (mkD (flat_map encodePolicy l ++ rest) N)
    = Ok (l, mkD rest (N - zlen (flat_map encodePolicy l))).
Proof.
  induction 1 as [|p l Hp Hl IH]; intros Hd rest N HN; cbn [length decode_n flat_map].
  - unfold mret, decode_ret. do 3 f_equal. unfold zlen; cbn. lia.
  - inv Hd. cbn [flat_map] in HN. rewrite zlen_app in *. rewrite <- app_assoc.
    unfold mbind at 1, decode_bind at 1. rewrite (Hp fuel) by (done || zl).
    unfold mbind at 1, decode_bind at 1. rewrite IH by (done || zl).
    unfold mret, decode_ret. do 3 f_equal. zl.
Qed.

Lemma readPolicy_rt p : wf_policy_node p -> policy_rt p.
Proof.
  induction p as [h|t|pk|h|pk|n l IH|a|uc] using SpendPolicy_ind'; intros Hwf fuel Hd q rest N -> HN;
    destruct fuel as [|fuel]; try lia; cbn [encodePolicy readPolicy wf_policy_node] in *;
    rewrite zlen_app in HN; rewrite <- app_assoc;
    (refine (eq_trans (codec_step is_u8 WriteUint8 ReadUint8 _ _ _ N _ _) _);
     [unfold is_u8; lia|zl|]); cbn [Z.eqb Pos.eqb].
  1-5,7,8: rewrite zlen_app; codec_field; unfold mret, decode_ret; do 3 f_equal; zl.
  destruct Hwf as (Hn & Hlen & Hl). apply wf_children in Hl.
  rewrite !zlen_app in *. rewrite <- !app_assoc. codec_field.
  assert (is_u8 (zlen l)) by (unfold is_u8; zl).
  unfold u8 in *. rewrite (Z.mod_small (zlen l)) in * by assumption.
  codec_field. unfold zlen at 1. rewrite Nat2Z.id.
  unfold mbind, decode_bind. rewrite threshold_children_rt; [|..|apply depth_children, Hd|zl].
  - unfold mret, decode_ret. do 3 f_equal. zl.
  - rewrite Forall_forall in *. auto.
Qed.

Global Instance SpendPolicy_codec :
  Codec wf_SpendPolicy SpendPolicy_EncodeTo SpendPolicy_DecodeFrom.
Proof.
  intros p rest N [Hn Hd] HN. unfold SpendPolicy_EncodeTo, SpendPolicy_DecodeFrom in *.
  rewrite zlen_app in *. rewrite <- app_assoc.
  refine (eq_trans (codec_step is_u8 WriteUint8 ReadUint8 _ _ _ N _ _) _);
    [unfold is_u8; lia|zl|]. cbn [Z.eqb Pos.eqb negb].
  rewrite (readPolicy_rt p Hn (S maxPolicyDepth)) by (done || lia || zl).
  do 3 f_equal. zl.
Qed.

Definition wf_SatisfiedPolicy (x : SatisfiedPolicy) : Prop :=
  wf_SpendPolicy (sat_Policy x) /\ Forall (wf_array 64) (sat_Signatures x) /\
  Forall (wf_array 32) (sat_Preimages x).
Global Instance SatisfiedPolicy_codec :
  Codec wf_SatisfiedPolicy SatisfiedPolicy_EncodeTo SatisfiedPolicy_DecodeFrom.
Proof. codec_record wf_SatisfiedPolicy SatisfiedPolicy_EncodeTo SatisfiedPolicy_DecodeFrom. Qed.

(** ** v2 types *)

(** A decoded element is not shared. *)
Definition wf_StateElement (x : StateElement) : Prop :=
  is_u64 (se_LeafIndex x) /\ Forall (wf_array 32) (se_MerkleProof x) /\ se_shared x = false.
Global Instance StateElement_codec :
  Codec wf_StateElement StateElement_EncodeTo StateElement_DecodeFrom.
Proof.
  intros x rest N (Hi & Hp & Hs) HN. unfold StateElement_EncodeTo, StateElement_DecodeFrom in *.
  rewrite zlen_app in *. rewrite <- app_assoc. repeat codec_field.
  unfold mret, decode_ret. destruct x; cbn in *. subst. do 3 f_equal. zl.
Qed.
Global Instance StateElement_nonempty : NonEmpty wf_StateElement StateElement_EncodeTo.
Proof. nonempty_record wf_StateElement StateElement_EncodeTo. Qed.

Definition wf_SiacoinElement (x : SiacoinElement) : Prop :=
  wf_StateElement (sce_StateElement x) /\
  wf_array 32 (sce_ID x) /\
  wf_SiacoinOutput (sce_SiacoinOutput x) /\
  is_u64 (sce_MaturityHeight x).

Global Instance SiacoinElement_codec : Codec wf_SiacoinElement SiacoinElement_EncodeTo SiacoinElement_DecodeFrom.
Proof. codec_record wf_SiacoinElement SiacoinElement_EncodeTo SiacoinElement_DecodeFrom. Qed.

Global Instance SiacoinElement_nonempty : NonEmpty wf_SiacoinElement SiacoinElement_EncodeTo.
Proof. nonempty_record wf_SiacoinElement SiacoinElement_EncodeTo. Qed.

Definition wf_V2SiacoinInput (x : V2SiacoinInput) : Prop :=
  wf_SiacoinElement (v2sci_Parent x) /\
  wf_SatisfiedPolicy (v2sci_SatisfiedPolicy x).

Global Instance V2SiacoinInput_codec : Codec wf_V2SiacoinInput V2SiacoinInput_EncodeTo V2SiacoinInput_DecodeFrom.
Proof. codec_record wf_V2SiacoinInput V2SiacoinInput_EncodeTo V2SiacoinInput_DecodeFrom. Qed.

Global Instance V2SiacoinInput_nonempty : NonEmpty wf_V2SiacoinInput V2SiacoinInput_EncodeTo.
Proof. nonempty_record wf_V2SiacoinInput V2SiacoinInput_EncodeTo. Qed.

Definition wf_ChainIndexElement (x : ChainIndexElement) : Prop :=
  wf_StateElement (cie_StateElement x) /\
  wf_array 32 (cie_ID x) /\
  wf_ChainIndex (cie_ChainIndex x).

Global Instance ChainIndexElement_codec : Codec wf_ChainIndexElement ChainIndexElement_EncodeTo ChainIndexElement_DecodeFrom.
Proof. codec_record wf_ChainIndexElement ChainIndexElement_EncodeTo ChainIndexElement_DecodeFrom. Qed.

Global Instance ChainIndexElement_nonempty : NonEmpty wf_ChainIndexElement ChainIndexElement_EncodeTo.
Proof. nonempty_record wf_ChainIndexElement ChainIndexElement_EncodeTo. Qed.

Definition wf_SiafundElement (x : SiafundElement) : Prop :=
  wf_StateElement (sfe_StateElement x) /\
  wf_array 32 (sfe_ID x) /\
  wf_SiafundOutput (sfe_SiafundOutput x) /\
  Currency.ok (sfe_ClaimStart x).

Global Instance SiafundElement_codec : Codec wf_SiafundElement SiafundElement_EncodeTo SiafundElement_DecodeFrom.
Proof. codec_record wf_SiafundElement SiafundElement_EncodeTo SiafundElement_DecodeFrom. Qed.

Global Instance SiafundElement_nonempty : NonEmpty wf_SiafundElement SiafundElement_EncodeTo.
Proof. nonempty_record wf_SiafundElement SiafundElement_EncodeTo. Qed.

Definition wf_V2SiafundInput (x : V2SiafundInput) : Prop :=
  wf_SiafundElement (v2sfi_Parent x) /\
  wf_array 32 (v2sfi_ClaimAddress x) /\
  wf_SatisfiedPolicy (v2sfi_SatisfiedPolicy x).

Global Instance V2SiafundInput_codec : Codec wf_V2SiafundInput V2SiafundInput_EncodeTo V2SiafundInput_DecodeFrom.
Proof. codec_record wf_V2SiafundInput V2SiafundInput_EncodeTo V2SiafundInput_DecodeFrom. Qed.

Global Instance V2SiafundInput_nonempty : NonEmpty wf_V2SiafundInput V2SiafundInput_EncodeTo.
Proof. nonempty_record wf_V2SiafundInput V2SiafundInput_EncodeTo. Qed.

Definition wf_V2FileContract (x : V2FileContract) : Prop :=
  is_u64 (v2fc_Capacity x) /\
  is_u64 (v2fc_Filesize x) /\
  wf_array 32 (v2fc_FileMerkleRoot x) /\
  is_u64 (v2fc_ProofHeight x) /\
  is_u64 (v2fc_ExpirationHeight x) /\
  wf_SiacoinOutput (v2fc_RenterOutput x) /\
  wf_SiacoinOutput (v2fc_HostOutput x) /\
  Currency.ok (v2fc_MissedHostValue x) /\
  Currency.ok (v2fc_TotalCollateral x) /\
  wf_array 32 (v2fc_RenterPublicKey x) /\
  wf_array 32 (v2fc_HostPublicKey x) /\
  is_u64 (v2fc_RevisionNumber x) /\
  wf_array 64 (v2fc_RenterSignature x) /\
  wf_array 64 (v2fc_HostSignature x).

Global Instance V2FileContract_codec : Codec wf_V2FileContract V2FileContract_EncodeTo V2FileContract_DecodeFrom.
Proof. codec_record wf_V2FileContract V2FileContract_EncodeTo V2FileContract_DecodeFrom. Qed.

Global Instance V2FileContract_nonempty : NonEmpty wf_V2FileContract V2FileContract_EncodeTo.
Proof. nonempty_record wf_V2FileContract V2FileContract_EncodeTo. Qed.

Definition wf_FileContractElement (x : FileContractElement) : Prop :=
  wf_StateElement (fce_StateElement x) /\
  wf_array 32 (fce_ID x) /\
  wf_FileContract (fce_FileContract x).

Global Instance FileContractElement_codec : Codec wf_FileContractElement FileContractElement_EncodeTo FileContractElement_DecodeFrom.
Proof. codec_record wf_FileContractElement FileContractElement_EncodeTo FileContractElement_DecodeFrom. Qed.

Global Instance FileContractElement_nonempty : NonEmpty wf_FileContractElement FileContractElement_EncodeTo.
Proof. nonempty_record wf_FileContractElement FileContractElement_EncodeTo. Qed.

Definition wf_V2FileContractElement (x : V2FileContractElement) : Prop :=
  wf_StateElement (v2fce_StateElement x) /\
  wf_array 32 (v2fce_ID x) /\
  wf_V2FileContract (v2fce_V2FileContract x).

Global Instance V2FileContractElement_codec : Codec wf_V2FileContractElement V2FileContractElement_EncodeTo V2FileContractElement_DecodeFrom.
Proof. codec_record wf_V2FileContractElement V2FileContractElement_EncodeTo V2FileContractElement_DecodeFrom. Qed.

Global Instance V2FileContractElement_nonempty : NonEmpty wf_V2FileContractElement V2FileContractElement_EncodeTo.
Proof. nonempty_record wf_V2FileContractElement V2FileContractElement_EncodeTo. Qed.

Definition wf_V2FileContractRevision (x : V2FileContractRevision) : Prop :=
  wf_V2FileContractElement (v2fcr_Parent x) /\
  wf_V2FileContract (v2fcr_Revision x).

Global Instance V2FileContractRevision_codec : Codec wf_V2FileContractRevision V2FileContractRevision_EncodeTo V2FileContractRevision_DecodeFrom.
Proof. codec_record wf_V2FileContractRevision V2FileContractRevision_EncodeTo V2FileContractRevision_DecodeFrom. Qed.

Global Instance V2FileContractRevision_nonempty : NonEmpty wf_V2FileContractRevision V2FileContractRevision_EncodeTo.
Proof. nonempty_record wf_V2FileContractRevision V2FileContractRevision_EncodeTo. Qed.

Definition wf_V2FileContractRenewal (x : V2FileContractRenewal) : Prop :=
  wf_SiacoinOutput (ren_FinalRenterOutput x) /\
  wf_SiacoinOutput (ren_FinalHostOutput x) /\
  Currency.ok (ren_RenterRollover x) /\
  Currency.ok (ren_HostRollover x) /\
  wf_V2FileContract (ren_NewContract x) /\
  wf_array 64 (ren_RenterSignature x) /\
  wf_array 64 (ren_HostSignature x).

Global Instance V2FileContractRenewal_codec : Codec wf_V2FileContractRenewal V2FileContractRenewal_EncodeTo V2FileContractRenewal_DecodeFrom.
Proof. codec_record wf_V2FileContractRenewal V2FileContractRenewal_EncodeTo V2FileContractRenewal_DecodeFrom. Qed.

Definition wf_V2StorageProof (x : V2StorageProof) : Prop :=
  wf_ChainIndexElement (v2sp_ProofIndex x) /\
  wf_array 64 (v2sp_Leaf x) /\
  Forall (wf_array 32) (v2sp_Proof x).

Global Instance V2StorageProof_codec : Codec wf_V2StorageProof V2StorageProof_EncodeTo V2StorageProof_DecodeFrom.
Proof. codec_record wf_V2StorageProof V2StorageProof_EncodeTo V2StorageProof_DecodeFrom. Qed.

Definition wf_ResolutionType (r : V2FileContractResolutionType) : Prop :=
  match r with
  | V2Renewal r => wf_V2FileContractRenewal r
  | V2Proof sp => wf_V2StorageProof sp
  | V2FileContractExpiration => True
  end.
Definition wf_V2FileContractResolution (x : V2FileContractResolution) : Prop :=
  wf_V2FileContractElement (res_Parent x) /\ wf_ResolutionType (res_Resolution x).
Global Instance V2FileContractResolution_codec :
  Codec wf_V2FileContractResolution V2FileContractResolution_EncodeTo
    V2FileContractResolution_DecodeFrom.
Proof.
  intros [p r] rest N [Hp Hr] HN.
  unfold V2FileContractResolution_EncodeTo, V2FileContractResolution_DecodeFrom in *.
  cbn [res_Parent res_Resolution] in *. rewrite ?zlen_app in *. rewrite <- ?app_assoc. codec_field.
  refine (eq_trans (codec_step is_u8 WriteUint8 ReadUint8 _ _ _ _ _ _) _);
    [unfold is_u8; destruct r; lia|zl|].
  destruct r; cbn [Z.eqb Pos.eqb ResolutionType_EncodeTo wf_ResolutionType app] in *;
    try codec_field; unfold mret, decode_ret; do 3 f_equal; zl.
Qed.
Global Instance V2FileContractResolution_nonempty :
  NonEmpty wf_V2FileContractResolution V2FileContractResolution_EncodeTo.
Proof. nonempty_record wf_V2FileContractResolution V2FileContractResolution_EncodeTo. Qed.

Definition wf_Attestation (x : Attestation) : Prop :=
  wf_array 32 (at_PublicKey x) /\
  wf_array 64 (at_Signature x).

Global Instance Attestation_codec : Codec wf_Attestation Attestation_EncodeTo Attestation_DecodeFrom.
Proof. change ReadString with ReadBytes; change WriteString with WriteBytes; codec_record wf_Attestation Attestation_EncodeTo Attestation_DecodeFrom. Qed.

Global Instance Attestation_nonempty : NonEmpty wf_Attestation Attestation_EncodeTo.
Proof. nonempty_record wf_Attestation Attestation_EncodeTo. Qed.

(** ** v2 transactions *)

Definition wf_V2Transaction (x : V2Transaction) : Prop :=
  Forall wf_V2SiacoinInput (v2tx_SiacoinInputs x) /\
  Forall wf_SiacoinOutput (v2tx_SiacoinOutputs x) /\
  Forall wf_V2SiafundInput (v2tx_SiafundInputs x) /\
  Forall wf_SiafundOutput (v2tx_SiafundOutputs x) /\
  Forall wf_V2FileContract (v2tx_FileContracts x) /\
  Forall wf_V2FileContractRevision (v2tx_FileContractRevisions x) /\
  Forall wf_V2FileContractResolution (v2tx_FileContractResolutions x) /\
  Forall wf_Attestation (v2tx_Attestations x) /\
  from_option (wf_array 32) True (v2tx_NewFoundationAddress x) /\
  Currency.ok (v2tx_MinerFee x).

Lemma mask_testbit l k i : 0 <= k ->
  Z.testbit (mask_of k l) (k + Z.of_nat i) = nth i l false /\
  (forall j, 0 <= j < k -> Z.testbit (mask_of k l) j = false).
Proof.
  revert k i. induction l as [|b l IH]; intros k i Hk; cbn [mask_of nth].
  - split; intros; rewrite Z.bits_0; by destruct i.
  - assert (forall j, 0 <= j -> Z.testbit (if b then Z.shiftl 1 k else 0) j = (b && (j =? k))) as Hb.
    { intros j Hj. destruct b; [|by rewrite Z.bits_0].
      rewrite Z.shiftl_1_l, Z.pow2_bits_eqb by lia. by rewrite Z.eqb_sym. }
    split.
    + rewrite Z.lor_spec, Hb by lia. destruct i as [|i].
      * rewrite Z.add_0_r, Z.eqb_refl, andb_true_r.
        rewrite (proj2 (IH (k + 1) 0%nat ltac:(lia))) by lia. apply orb_false_r.
      * destruct (IH (k + 1) i ltac:(lia)) as [IH1 _].
        replace (k + Z.of_nat (S i)) with (k + 1 + Z.of_nat i) by lia. rewrite IH1.
        destruct (_ =? k) eqn:E; [bool_lia|]. by rewrite andb_false_r.
    + intros j Hj. rewrite Z.lor_spec, Hb by lia.
      rewrite (proj2 (IH (k + 1) i ltac:(lia))) by lia.
      destruct (j =? k) eqn:E; [bool_lia|]. by rewrite andb_false_r.
Qed.

Lemma mask_bound l k : 0 <= k -> 0 <= mask_of k l < 2 ^ (k + zlen l).
Proof.
  revert k. induction l as [|b l IH]; intros k Hk; cbn [mask_of].
  - split; [lia|apply Z.pow_pos_nonneg; zl].
  - destruct (IH (k + 1) ltac:(lia)) as [H1 H2].
    replace (k + zlen (b :: l)) with (k + 1 + zlen l) by zl.
    pose proof (Z.pow_pos_nonneg 2 k ltac:(lia) ltac:(lia)).
    assert (0 <= (if b then Z.shiftl 1 k else 0) < 2 ^ (k + 1 + zlen l)) as [Ha1 Ha2].
    { destruct b; [rewrite Z.shiftl_1_l|split; [lia|apply Z.pow_pos_nonneg; zl]].
      split; [lia|]. apply Z.pow_lt_mono_r; zl. }
    split; [apply Z.lor_nonneg; lia|].
    destruct (Z.eq_dec (Z.lor (if b then Z.shiftl 1 k else 0) (mask_of (k + 1) l)) 0) as [->|Hne];
      [apply Z.pow_pos_nonneg; zl|].
    apply Z.log2_lt_pow2; [assert (0 <= Z.lor (if b then Z.shiftl 1 k else 0) (mask_of (k + 1) l))
      by (apply Z.lor_nonneg; lia); lia|].
    rewrite Z.log2_lor by lia. apply Z.max_lub_lt.
    + destruct (Z.eq_dec (if b then Z.shiftl 1 k else 0) 0) as [->|]; [cbn; zl|].
      apply Z.log2_lt_pow2; lia.
    + destruct (Z.eq_dec (mask_of (k + 1) l) 0) as [->|]; [cbn; zl|]. apply Z.log2_lt_pow2; lia.
Qed.

Lemma flag_bit txn i : 0 <= i ->
  has_bit (mask_of 0 (field_flags txn)) i = nth (Z.to_nat i) (field_flags txn) false.
Proof.
  intros Hi. unfold has_bit.
  destruct (mask_testbit (field_flags txn) 0 (Z.to_nat i) ltac:(lia)) as [H _].
  by rewrite Z.add_0_l, Z2Nat.id in H.
Qed.

(** One optional field of the transaction. *)
Lemma when_step {A B} (wf : A -> Prop) enc dec `{!Codec wf enc dec} fields i (dflt : A)
    (f : A -> Decode B) x rest N :
  (has_bit fields i = true -> wf x) -> (has_bit fields i = false -> x = dflt) ->
  zlen (when fields i (enc x)) <= N < two63 ->
  (dwhen fields i dflt dec ≫= f) (mkD (when fields i (enc x) ++ rest) N)
    = f x (mkD rest (N - zlen (when fields i (enc x)))).
Proof.
  unfold when, dwhen. intros Ht Hf HN. destruct (has_bit fields i).
  - rewrite (codec_step wf) by (auto; apply _). done.
  - rewrite (Hf eq_refl). cbn. unfold mret, decode_ret, mbind, decode_bind.
    do 2 f_equal. zl.
Qed.

Definition encode_opt_addr (o : option Address) : bytes :=
  match o with Some a => Array_EncodeTo a | None => [] end.

Global Instance opt_addr_codec :
  Codec (from_option (wf_array 32) False) encode_opt_addr
    (addr ← Hash256_DecodeFrom; mret (Some addr)).
Proof.
  intros [a|] rest N Ha HN; [|done]. cbn [encode_opt_addr from_option] in *.
  codec_field. unfold mret, decode_ret. done.
Qed.

Lemma nonempty_false {A} (l : list A) : nonempty l = false -> l = [].
Proof. by destruct l. Qed.

Ltac codec_when txn :=
  match goal with
  | |- (dwhen ?F ?i ?dflt ?dec ≫= ?f) (mkD (when ?F ?i (?enc ?x) ++ ?rest) ?N) = _ =>
      refine (eq_trans (when_step _ enc dec F i dflt f x rest N _ _ _) _);
      [rewrite (flag_bit txn i) by lia; cbn [nth field_flags Z.to_nat Pos.to_nat Pos.iter_op Nat.add];
       intros; first [eassumption|exact I|idtac]
      |rewrite (flag_bit txn i) by lia; cbn [nth field_flags Z.to_nat Pos.to_nat Pos.iter_op Nat.add];
       first [exact (nonempty_false _)|idtac]
      |zl|]
  end.

Global Instance V2Transaction_codec :
  Codec wf_V2Transaction V2Transaction_EncodeTo V2Transaction_DecodeFrom.
Proof.
  intros x rest N H HN. unfold wf_V2Transaction in H. destruct_and? H.
  unfold V2Transaction_EncodeTo, V2Transaction_DecodeFrom in *. cbv zeta in *.
  change (match v2tx_NewFoundationAddress x with Some a => Array_EncodeTo a | None => [] end)
    with (encode_opt_addr (v2tx_NewFoundationAddress x)) in *.
  assert (is_u64 (mask_of 0 (field_flags x))) as Hmask.
  { pose proof (mask_bound (field_flags x) 0 ltac:(lia)) as Hb. change (zlen (field_flags x)) with 11 in Hb.
    change (2 ^ (0 + 11)) with 2048 in Hb. change (2 ^ 0) with 1 in Hb. unfold is_u64. lia. }
  rewrite ?zlen_app in *. repeat rewrite <- app_assoc.
  refine (eq_trans (codec_step is_u8 WriteUint8 ReadUint8 _ _ _ N _ _) _);
    [unfold is_u8; lia|zl|]. cbn [Z.eqb Pos.eqb negb].
  codec_field. do 9 (codec_when x). codec_when x; [..|codec_when x; [..|codec_done]].
  all: try change (Z.to_nat 9) with 9%nat in *; try change (Z.to_nat 10) with 10%nat in *;
    cbv iota in *.
  - apply bool_decide_eq_true in H8. by destruct (v2tx_NewFoundationAddress x).
  - intros Hn. apply bool_decide_eq_false in Hn.
    by destruct (v2tx_NewFoundationAddress x); [destruct Hn|].
  - intros Hz. by apply negb_false_iff, bool_decide_eq_true in Hz.
Qed.
Global Instance V2Transaction_nonempty : NonEmpty wf_V2Transaction V2Transaction_EncodeTo.
Proof. intros x _. unfold V2Transaction_EncodeTo. rewrite zlen_app.
  change (zlen (WriteUint8 2)) with 1. zl.
Qed.

(** ** Headers and v1 blocks *)

Definition wf_BlockHeader (x : BlockHeader) : Prop :=
  wf_array 32 (bh_ParentID x) /\ is_u64 (bh_Nonce x) /\ wf_time (bh_Timestamp x) /\
  wf_array 32 (bh_Commitment x).
Global Instance BlockHeader_codec : Codec wf_BlockHeader BlockHeader_EncodeTo BlockHeader_DecodeFrom.
Proof. codec_record wf_BlockHeader BlockHeader_EncodeTo BlockHeader_DecodeFrom. Qed.

Definition wf_V1Block (x : Block) : Prop :=
  wf_array 32 (b_ParentID x) /\ is_u64 (b_Nonce x) /\ wf_time (b_Timestamp x) /\
  Forall wf_SiacoinOutput (b_MinerPayouts x) /\ Forall wf_Transaction (b_Transactions x) /\
  b_V2 x = None.
Global Instance V1Block_codec : Codec wf_V1Block V1Block_EncodeTo V1Block_DecodeFrom.
Proof.
  intros x rest N H HN. unfold wf_V1Block in H. destruct_and? H.
  unfold V1Block_EncodeTo, V1Block_DecodeFrom in *. rewrite ?zlen_app in *.
  repeat rewrite <- app_assoc. do 5 codec_field.
  unfold mret, decode_ret. destruct x; cbn in *; subst. do 3 f_equal; zl.
Qed.

(** ** The whole-buffer round trip *)

Lemma codec_buf {A} (wf : A -> Prop) enc dec `{!Codec wf enc dec} x :
  wf x -> zlen (enc x) < two63 -> dec (NewBufDecoder (enc x)) = Ok (x, mkD [] 0).
Proof.
  intros Hwf HN. unfold NewBufDecoder. rewrite <- (app_nil_r (enc x)) at 1.
  rewrite (codec_rt x [] (zlen (enc x)) Hwf) by lia. by rewrite Z.sub_diag.
Qed.

(** A codec is a prefix code: no encoding continues another one. *)
Lemma codec_prefix_free {A} (wf : A -> Prop) enc dec `{!Codec wf enc dec} x y r s :
  wf x -> wf y -> zlen (enc x) < two63 -> zlen (enc y) < two63 ->
  enc x ++ r = enc y ++ s -> x = y /\ r = s.
Proof.
  intros Hx Hy Hlx Hly E. set (N := Z.max (zlen (enc x)) (zlen (enc y))).
  pose proof (codec_rt (enc:=enc) (dec:=dec) x r N Hx ltac:(unfold N; lia)) as H1.
  pose proof (codec_rt (enc:=enc) (dec:=dec) y s N Hy ltac:(unfold N; lia)) as H2. rewrite E, H2 in H1. by inv H1.
Qed.

(** ** Encoder refinement *)

(** What has been written so far, flushed or not. *)
Definition Encoder_written (e : Encoder.t) : bytes := Encoder.w e ++ Encoder.buf e.

Lemma Flush_written e : Encoder_written (Encoder.Flush e) = Encoder_written e.
Proof.
  unfold Encoder.Flush, Encoder_written. destruct (0 <? zlen (Encoder.buf e)); [|done].
  cbn. apply app_nil_r.
Qed.

Lemma Flush_empty e : Encoder.buf (Encoder.Flush e) = [].
Proof.
  unfold Encoder.Flush. destruct (0 <? zlen (Encoder.buf e)) eqn:E; [done|].
  destruct (Encoder.buf e); [done|]. cbn [length] in *. unfold zlen in E. cbn [length] in E. bool_lia.
Qed.

Lemma write_loop_spec fuel e p :
  (length p <= fuel)%nat -> (length (Encoder.buf e) <= Encoder.bufSize)%nat ->
  Encoder_written (Encoder.write_loop fuel e p) = Encoder_written e ++ p /\
  (length (Encoder.buf (Encoder.write_loop fuel e p)) <= Encoder.bufSize)%nat.
Proof.
  revert e p. induction fuel as [|fuel IH]; intros e [|x p] Hf Hb; try (cbn in Hf; lia);
    cbn [Encoder.write_loop]; rewrite ?app_nil_r; try done.
  set (e1 := if (length (Encoder.buf e) =? Encoder.bufSize)%nat then Encoder.Flush e else e).
  assert (Encoder_written e1 = Encoder_written e) as Hw.
  { unfold e1. destruct (_ =? _)%nat; [apply Flush_written|done]. }
  assert (length (Encoder.buf e1) < Encoder.bufSize)%nat as Hb1.
  { unfold e1. destruct (_ =? _)%nat eqn:E; [rewrite Flush_empty; cbn; unfold Encoder.bufSize; lia|].
    apply Nat.eqb_neq in E. lia. }
  set (c := Nat.min _ _). assert (1 <= c)%nat by (unfold c; cbn [length]; lia).
  edestruct IH as [H1 H2]; [..|split; [|exact H2]].
  - rewrite length_drop. cbn [length] in *. lia.
  - cbn [Encoder.buf]. rewrite length_app, length_take. lia.
  - rewrite H1. unfold Encoder_written in *. cbn [Encoder.w Encoder.buf].
    rewrite <- Hw, <- !app_assoc. by rewrite take_drop.
Qed.

(** The buffered encoder is transparent.  However the bytes of a sequence of
    [Write] calls straddle the 1024-byte buffer, after the final [Flush] the
    underlying writer has received exactly their concatenation, and the buffer
    never overflows on the way. *)
Theorem Encoder_refines_append (ps : list bytes) :
  let e := fold_left Encoder.Write ps Encoder.New in
  Encoder.Flush e = Encoder.mk (concat ps) [] /\
  (length (Encoder.buf e) <= Encoder.bufSize)%nat.
Proof.
  cbv zeta. enough (forall e, (length (Encoder.buf e) <= Encoder.bufSize)%nat ->
    let e' := fold_left Encoder.Write ps e in
    Encoder_written e' = Encoder_written e ++ concat ps /\
    (length (Encoder.buf e') <= Encoder.bufSize)%nat) as H.
  { destruct (H Encoder.New ltac:(cbn; lia)) as [H1 H2]. split; [|exact H2].
    rewrite <- Flush_written in H1. unfold Encoder_written in H1. rewrite Flush_empty in H1.
    rewrite app_nil_r in H1. destruct (Encoder.Flush _) as [w b] eqn:E. cbn in H1.
    pose proof (Flush_empty (fold_left Encoder.Write ps Encoder.New)) as Hb. rewrite E in Hb.
    cbn in Hb. by subst. }
  induction ps as [|p ps IH]; intros e He; cbn [fold_left concat]; [by rewrite app_nil_r|].
  destruct (write_loop_spec (length p) e p ltac:(lia) He) as [H1 H2].
  destruct (IH (Encoder.Write e p) H2) as [H3 H4]. split; [|exact H4].
  rewrite H3. unfold Encoder.Write. by rewrite H1, app_assoc.
Qed.

(** ** Nesting limit of policies *)

Definition too_deep (p : SpendPolicy) : Prop := forall fuel rest N,
  (fuel <= policy_depth p)%nat -> zlen (encodePolicy p) <= N < two63 ->
  readPolicy fuel (mkD (encodePolicy p ++ rest) N) = Err "policy exceeds maximum nesting depth".

Lemma too_deep_children l fuel :
  Forall wf_policy_node l -> Forall too_deep l ->
  (S fuel <= foldr (fun q m => Nat.max (S (policy_depth q)) m) 0 l)%nat -> forall rest N,
  zlen (flat_map encodePolicy l) <= N < two63 ->
  decode_n (readPolicy fuel) (length l) (mkD (flat_map encodePolicy l ++ rest) N)
    = Err "policy exceeds maximum nesting depth".
Proof.
  induction l as [|p l IH]; intros Hwf Hdeep Hd rest N HN; cbn [foldr] in Hd; [lia|].
  inv Hwf. inv Hdeep. cbn [length decode_n flat_map] in *. rewrite zlen_app in HN.
  rewrite <- app_assoc. unfold mbind at 1, decode_bind at 1.
  destruct (decide (policy_depth p < fuel)%nat) as [Hlt|Hge].
  - rewrite (readPolicy_rt p ltac:(done) fuel Hlt) by (done || zl).
    unfold mbind, decode_bind. by rewrite IH by (done || lia || zl).
  - match goal with H : too_deep p |- _ => rewrite (H fuel) by (lia || zl) end. done.
Qed.

Lemma readPolicy_too_deep p : wf_policy_node p -> too_deep p.
Proof.
  induction p as [h|t|pk|h|pk|n l IH|a|uc] using SpendPolicy_ind'; intros Hwf fuel rest N Hd HN;
    (destruct fuel as [|fuel]; [done|]); try (cbn in Hd; lia).
  cbn [encodePolicy readPolicy wf_policy_node policy_depth] in *.
  destruct Hwf as (Hn & Hlen & Hl). apply wf_children in Hl.
  rewrite !zlen_app in *. rewrite <- !app_assoc.
  refine (eq_trans (codec_step is_u8 WriteUint8 ReadUint8 _ _ _ N _ _) _);
    [unfold is_u8; lia|zl|]. cbn [Z.eqb Pos.eqb]. codec_field.
  assert (is_u8 (zlen l)) by (unfold is_u8; zl).
  unfold u8 in *. rewrite (Z.mod_small (zlen l)) in * by assumption.
  codec_field. unfold zlen at 1. rewrite Nat2Z.id.
  unfold mbind, decode_bind. rewrite too_deep_children; [done|done|..|done|zl].
  rewrite Forall_forall in *. auto.
Qed.

(** ** Properties *)

(** The wire encoding of a v2 transaction round-trips.  Whatever bytes follow
    it in the stream, [DecodeFrom] returns the transaction that [EncodeTo] wrote,
    with all eleven optional fields, and stops exactly at its end; hence two
    transactions with the same encoding, or one encoding a prefix of the other,
    are the same transaction. *)
Theorem V2Transaction_roundtrip (txn : V2Transaction) (rest : bytes) (N : Z) :
  wf_V2Transaction txn -> zlen (V2Transaction_EncodeTo txn) <= N < two63 ->
  V2Transaction_DecodeFrom (mkD (V2Transaction_EncodeTo txn ++ rest) N)
    = Ok (txn, mkD rest (N - zlen (V2Transaction_EncodeTo txn))) /\
  (forall txn' rest', wf_V2Transaction txn' -> zlen (V2Transaction_EncodeTo txn') < two63 ->
     V2Transaction_EncodeTo txn ++ rest = V2Transaction_EncodeTo txn' ++ rest' -> txn = txn').
Proof.
  intros Hwf HN. split; [by apply codec_rt|].
  intros txn' rest' Hwf' HN' E.
  by destruct (codec_prefix_free wf_V2Transaction V2Transaction_EncodeTo
    V2Transaction_DecodeFrom txn txn' rest rest' Hwf Hwf' ltac:(lia) HN' E).
Qed.

Definition ex_policy : SpendPolicy :=
  PolicyTypeThreshold 2 [PolicyTypePublicKey (replicate 32 7); PolicyTypeSLHDSA (replicate 32 9);
    PolicyTypeThreshold 1 [PolicyTypeAfter (time_Unix 1700000000); PolicyTypeOpaque (zeros 32)]].

Definition ex_txn : V2Transaction :=
  {| v2tx_SiacoinInputs :=
       [{| v2sci_Parent :=
             {| sce_ID := replicate 32 1;
                sce_StateElement :=
                  {| se_LeafIndex := 5; se_MerkleProof := [zeros 32]; se_shared := false |};
                sce_SiacoinOutput :=
                  {| sco_Value := Currency.mk 10 3; sco_Address := replicate 32 4 |};
                sce_MaturityHeight := 9 |};
           v2sci_SatisfiedPolicy :=
             {| sat_Policy := ex_policy; sat_Signatures := [replicate 64 2];
                sat_Preimages := [replicate 32 8] |} |}];
     v2tx_SiacoinOutputs := [{| sco_Value := Currency.mk 7 3; sco_Address := zeros 32 |}];
     v2tx_SiafundInputs := []; v2tx_SiafundOutputs := [];
     v2tx_FileContracts := []; v2tx_FileContractRevisions := [];
     v2tx_FileContractResolutions := []; v2tx_Attestations := [];
     v2tx_ArbitraryData := [1; 2; 3]; v2tx_NewFoundationAddress := Some (replicate 32 6);
     v2tx_MinerFee := Currency.mk 3 0 |}.

Ltac wf_ground :=
  repeat match goal with
  | |- Forall _ _ => constructor
  | |- _ = _ => vm_compute; reflexivity
  | |- _ /\ _ => split
  | |- _ < _ => vm_compute; reflexivity
  | |- exists s, _ /\ ?t = time_Unix s => exists (Unix t)
  | |- wf_array _ _ => reflexivity
  | |- _ <= _ < _ => split; [vm_compute; discriminate|vm_compute; reflexivity]
  | |- (_ <= _)%nat => vm_compute; lia
  | |- _ <= _ => vm_compute; discriminate
  | |- True => exact I
  | |- _ => hnf
  end.

Lemma V2Transaction_roundtrip_witness :
  V2Transaction_DecodeFrom (mkD (V2Transaction_EncodeTo ex_txn ++ [255]) 1000)
    = Ok (ex_txn, mkD [255] (1000 - zlen (V2Transaction_EncodeTo ex_txn))) /\ True.
Proof.
  split; [|exact I]. apply (V2Transaction_roundtrip ex_txn [255] 1000); wf_ground.
Defined.

(** Spend policies round-trip up to the nesting limit and not beyond it: a
    policy nested at most [maxPolicyDepth] deep is decoded to itself, and the
    encoding of a deeper one is rejected with the depth error (so no encoding makes
    [readPolicy] recurse further). *)
Theorem SpendPolicy_roundtrip_depth (p : SpendPolicy) (rest : bytes) (N : Z) :
  wf_policy_node p -> zlen (SpendPolicy_EncodeTo p) <= N < two63 ->
  SpendPolicy_DecodeFrom (mkD (SpendPolicy_EncodeTo p ++ rest) N) =
    if decide (policy_depth p <= maxPolicyDepth)%nat
    then Ok (p, mkD rest (N - zlen (SpendPolicy_EncodeTo p)))
    else Err "policy exceeds maximum nesting depth".
Proof.
  intros Hwf HN. destruct (decide _) as [Hd|Hd].
  - by apply SpendPolicy_codec.
  - unfold SpendPolicy_EncodeTo, SpendPolicy_DecodeFrom in *.
    rewrite zlen_app in *. rewrite <- app_assoc.
    refine (eq_trans (codec_step is_u8 WriteUint8 ReadUint8 _ _ _ N _ _) _);
      [unfold is_u8; lia|zl|]. cbn [Z.eqb Pos.eqb negb].
    apply (readPolicy_too_deep p Hwf); [lia|zl].
Qed.

(** 33 nested thresholds around a leaf. *)
Definition ex_deep_policy : SpendPolicy :=
  Nat.iter 33 (fun p => PolicyTypeThreshold 1 [p]) (PolicyTypeAbove 5).

Lemma SpendPolicy_roundtrip_depth_witness :
  SpendPolicy_DecodeFrom (mkD (SpendPolicy_EncodeTo ex_policy ++ []) 500)
    = Ok (ex_policy, mkD [] (500 - zlen (SpendPolicy_EncodeTo ex_policy))) /\
  SpendPolicy_DecodeFrom (mkD (SpendPolicy_EncodeTo ex_deep_policy ++ []) 500)
    = Err "policy exceeds maximum nesting depth".
Proof.
  split.
  - apply (SpendPolicy_roundtrip_depth ex_policy [] 500); wf_ground.
  - apply (SpendPolicy_roundtrip_depth ex_deep_policy [] 500); wf_ground.
Defined.

(** V1 blocks, with their transactions, contracts, storage proofs and
    signatures, round-trip through the v1 encoding (whose currencies drop leading
    zero bytes). *)
Theorem V1Block_roundtrip (b : Block) (rest : bytes) (N : Z) :
  wf_V1Block b -> zlen (V1Block_EncodeTo b) <= N < two63 ->
  V1Block_DecodeFrom (mkD (V1Block_EncodeTo b ++ rest) N)
    = Ok (b, mkD rest (N - zlen (V1Block_EncodeTo b))).
Proof. intros Hwf HN. by apply codec_rt. Qed.

Definition ex_v1block : Block :=
  {| b_ParentID := replicate 32 1; b_Nonce := 77; b_Timestamp := time_Unix 1600000000;
     b_MinerPayouts := [{| sco_Value := Currency.mk 0 5; sco_Address := replicate 32 9 |}];
     b_Transactions :=
       [{| tx_SiacoinInputs :=
             [{| sci_ParentID := replicate 32 3;
                 sci_UnlockConditions :=
                   {| uc_Timelock := 0;
                      uc_PublicKeys := [{| uk_Algorithm := SpecifierEd25519; uk_Key := replicate 32 8 |}];
                      uc_SignaturesRequired := 1 |} |}];
           tx_SiacoinOutputs := [{| sco_Value := Currency.mk 300 0; sco_Address := zeros 32 |}];
           tx_FileContracts := []; tx_FileContractRevisions := []; tx_StorageProofs := [];
           tx_SiafundInputs := [];
           tx_SiafundOutputs := [{| sfo_Value := 12; sfo_Address := zeros 32 |}];
           tx_MinerFees := [Currency.mk 1 0]; tx_ArbitraryData := [[1; 2]]; tx_Signatures := [] |}];
     b_V2 := None |}.

Lemma V1Block_roundtrip_witness :
  V1Block_DecodeFrom (mkD (V1Block_EncodeTo ex_v1block ++ []) 4000)
    = Ok (ex_v1block, mkD [] (4000 - zlen (V1Block_EncodeTo ex_v1block))) /\ True.
Proof. split; [apply (V1Block_roundtrip ex_v1block [] 4000); wf_ground|exact I]. Defined.
