(* ===== verification/TypesHash.v ===== *)
(** * [core/types/hash.go], [core/blake2b/blake2b.go]: hashing and identifiers

    The cryptographic primitives are parameters (class [Crypto]); every hash of the
    program is written as the byte string it feeds to BLAKE2b-256.  The file also
    holds the identifiers of [types.go] and the policy addresses of [policy.go]. *)
From stdpp Require Import prelude strings.
From Stdlib Require Import ZArith Lia.
From S2P Require Import Prelude TypesCurrency TypesData TypesEncoding.

(** ** Primitives from outside the repository *)
Class Crypto := {
  (** [golang.org/x/crypto/blake2b.Sum256] *)
  blake2b_Sum256 : bytes -> bytes;
  (** [crypto/sha256.Sum256], [crypto/sha512.Sum512] *)
  sha256_Sum256 : bytes -> bytes;
  sha512_Sum512 : bytes -> bytes;
  (** [ed25519.Verify], [ed25519.Sign], [ed25519.NewKeyFromSeed] *)
  ed25519_Verify : bytes -> bytes -> bytes -> bool;
  ed25519_Sign : bytes -> bytes -> bytes;
  ed25519_NewKeyFromSeed : bytes -> bytes;
  (** [circl/sign/slhdsa] at [SHA2_128s]: public keys and private keys in their
      binary form; [Verify] and [SignDeterministic] with message and context. *)
  slhdsa_UnmarshalBinary : bytes -> bool;
  slhdsa_Verify : bytes -> bytes -> bytes -> bytes -> bool;
  slhdsa_SignDeterministic : bytes -> bytes -> bytes -> outcome bytes;
  slhdsa_GenerateKey : bytes -> outcome (bytes * bytes) }.

(** Digest sizes. *)
Class CryptoSizes `{Crypto} : Prop := {
  blake2b_len : forall b, length (blake2b_Sum256 b) = 32%nat;
  sha256_len : forall b, length (sha256_Sum256 b) = 32%nat }.

Section Hash.
Context {crypto : Crypto}.

(** ** [core/blake2b] *)
Definition nodeHashPrefix : Z := 1.
Definition leafHashPrefix : Z := 0.

(** [hashBlockGeneric]: [Sum256(prefix || msg)] *)
Definition hashBlock (msg : bytes) (prefix : Z) : bytes := blake2b_Sum256 (prefix :: msg).
Definition SumLeaf (leaf : bytes) : bytes := hashBlock leaf leafHashPrefix.
Definition SumPair (left right : bytes) : bytes := hashBlock (left ++ right) nodeHashPrefix.

(** [hashBlocksGeneric] and its two users, on four 64-byte blocks. *)
Definition hashBlocks (msgs : list bytes) (prefix : Z) : list bytes :=
  map (fun msg => hashBlock msg prefix) msgs.
Definition SumLeaves (leaves : list bytes) : list bytes := hashBlocks leaves leafHashPrefix.
Fixpoint pair_blocks (nodes : list bytes) : list bytes :=
  match nodes with l :: r :: rest => (l ++ r) :: pair_blocks rest | _ => [] end.
Definition SumNodes (nodes : list bytes) : list bytes := hashBlocks (pair_blocks nodes) nodeHashPrefix.

End Hash.

(** The Merkle accumulator.  The 2^64-th leaf would index [Trees[64]] and panic;
    a Go slice has fewer than 2^63 elements, so no caller can add that many. *)
Module Accumulator.
Record t := mk { Trees : list bytes; NumLeaves : Z }.
Definition empty : t := mk (replicate 64 zeroHash) 0.

Definition hasTreeAtHeight (acc : t) (height : nat) : bool :=
  has_bit (NumLeaves acc) (Z.of_nat height).

Section Acc.
Context {crypto : Crypto}.

(** The carry loop: at most 64 trees, so 64 steps suffice. *)
Fixpoint carry (fuel : nat) (acc : t) (i : nat) (h : bytes) : nat * bytes :=
  match fuel with
  | O => (i, h)
  | S f => if hasTreeAtHeight acc i
           then carry f acc (S i) (SumPair (Trees acc !!! i) h)
           else (i, h)
  end.

Definition AddLeaf (acc : t) (h : bytes) : t :=
  let '(i, h') := carry 64 acc 0 h in
  mk (<[i := h']> (Trees acc)) (u64 (NumLeaves acc + 1)).

(** The loop [for i++; i < 64; i++]. *)
Fixpoint fold_up (n : nat) (acc : t) (i : nat) (root : bytes) : bytes :=
  match n with
  | O => root
  | S n' => fold_up n' acc (S i)
              (if hasTreeAtHeight acc i then SumPair (Trees acc !!! i) root else root)
  end.

Definition Root (acc : t) : bytes :=
  let i := bits.TrailingZeros64 (NumLeaves acc) in
  if i =? 64 then zeroHash
  else fold_up (63 - Z.to_nat i) acc (S (Z.to_nat i)) (Trees acc !!! Z.to_nat i).

Definition of_leaves (leaves : list bytes) : t := fold_left AddLeaf leaves empty.
End Acc.
End Accumulator.

Section Ids.
Context {crypto : Crypto}.

(** ** [hash.go] *)
Definition HashBytes (b : bytes) : Hash256 := blake2b_Sum256 b.

(** [h.WriteDistinguisher(p)] *)
Definition distinguisher (p : string) : bytes := str_bytes ("sia/" +:+ p +:+ "|").

(** [hashAll(elems...)]: the encodings of the elements, in order. *)
Definition hashAll (elems : list bytes) : Hash256 := blake2b_Sum256 (concat elems).

(** [case int: h.E.WriteUint64(uint64(e))] *)
Definition WriteInt (i : nat) : bytes := WriteUint64 (u64 (Z.of_nat i)).

Definition StandardAddress (pk : PublicKey) : Address :=
  blake2b_Sum256 (str_bytes "sia/address|" ++ [1; 3] ++ pk).

Definition timelockHash : Hash256 :=
  [0x51; 0x87; 0xb7; 0xa8; 0x02; 0x1b; 0xf4; 0xf2; 0xc0; 0x04; 0xea; 0x3a; 0x54; 0xcf; 0xec; 0xe1;
   0x75; 0x4f; 0x11; 0xc7; 0x62; 0x4d; 0x23; 0x63; 0xc7; 0xf4; 0xcf; 0x4f; 0xdd; 0xd1; 0x44; 0x1e].
Definition sigsrequiredHash : Hash256 :=
  [0xb3; 0x60; 0x10; 0xeb; 0x28; 0x5c; 0x15; 0x4a; 0x8c; 0xd6; 0x30; 0x84; 0xac; 0xbe; 0x7e; 0xac;
   0x0c; 0x4d; 0x62; 0x5a; 0xb4; 0xe1; 0xa7; 0x6e; 0x62; 0x4a; 0x87; 0x98; 0xcb; 0x63; 0x49; 0x7b].

Definition StandardUnlockHash (pk : PublicKey) : Address :=
  let buf := [leafHashPrefix] ++ SpecifierEd25519 ++ WriteUint64 32 ++ pk in
  let pubkeyHash := blake2b_Sum256 buf in
  SumPair (SumPair timelockHash pubkeyHash) sigsrequiredHash.

Definition leaf_hash (enc : bytes) : Hash256 := blake2b_Sum256 (WriteUint8 leafHashPrefix ++ enc).

Definition unlockConditionsRoot (uc : UnlockConditions) : Address :=
  Accumulator.Root (Accumulator.of_leaves
    (leaf_hash (WriteUint64 (uc_Timelock uc)) ::
     map (fun key => leaf_hash (UnlockKey_EncodeTo key)) (uc_PublicKeys uc) ++
     [leaf_hash (WriteUint64 (uc_SignaturesRequired uc))])).

Definition blockMerkleRoot (minerPayouts : list SiacoinOutput) (txns : list Transaction) : Hash256 :=
  Accumulator.Root (Accumulator.of_leaves
    (map (fun mp => leaf_hash (V1SiacoinOutput_EncodeTo mp)) minerPayouts ++
     map (fun txn => leaf_hash (Transaction_EncodeTo txn)) txns)).

Definition Transaction_MerkleLeafHash (txn : Transaction) : Hash256 :=
  hashAll [WriteUint8 leafHashPrefix; Transaction_EncodeTo txn].
Definition V2Transaction_MerkleLeafHash (txn : V2Transaction) : Hash256 :=
  hashAll [WriteUint8 leafHashPrefix; V2Transaction_EncodeTo txn].

(** ** [types.go]: keys, unlock hashes, identifiers *)
Definition VerifyHash (pk : PublicKey) (h : Hash256) (s : Signature) : bool := ed25519_Verify pk h s.
Definition SignHash (priv : bytes) (h : Hash256) : Signature := to_array 64 (ed25519_Sign priv h).
(** [priv[32:]] *)
Definition PrivateKey_PublicKey (priv : bytes) : PublicKey := to_array 32 (drop 32 priv).
Definition NewPrivateKeyFromSeed (seed : bytes) : bytes := ed25519_NewKeyFromSeed seed.

Definition PublicKey_UnlockKey (pk : PublicKey) : UnlockKey :=
  {| uk_Algorithm := SpecifierEd25519; uk_Key := pk |}.
Definition StandardUnlockConditions (pk : PublicKey) : UnlockConditions :=
  {| uc_Timelock := 0; uc_PublicKeys := [PublicKey_UnlockKey pk]; uc_SignaturesRequired := 1 |}.

Definition UnlockHash (uc : UnlockConditions) : Address :=
  match uc_PublicKeys uc with
  | [key] =>
      if (uc_Timelock uc =? 0) && bool_decide (uk_Algorithm key = SpecifierEd25519) &&
         (zlen (uk_Key key) =? 32) && (uc_SignaturesRequired uc =? 1)
      then StandardUnlockHash (uk_Key key)
      else unlockConditionsRoot uc
  | _ => unlockConditionsRoot uc
  end.

(** Work is the inverse of the ID, so the comparison is reversed. *)
Definition CmpWork (bid t : BlockID) : Z := bytes_compare t bid.

Definition MinerOutputID (bid : BlockID) (i : nat) : SiacoinOutputID :=
  hashAll [Array_EncodeTo bid; WriteInt i].
Definition FoundationOutputID (bid : BlockID) : SiacoinOutputID :=
  hashAll [Array_EncodeTo bid; Array_EncodeTo SpecifierFoundation].
Definition ClaimOutputID (sfoid : SiafundOutputID) : SiacoinOutputID :=
  hashAll [Array_EncodeTo sfoid].
Definition V2ClaimOutputID (sfoid : SiafundOutputID) : SiacoinOutputID :=
  hashAll [distinguisher "id/v2siacoinclaimoutput"; Array_EncodeTo sfoid].
Definition ValidOutputID (fcid : FileContractID) (i : nat) : SiacoinOutputID :=
  hashAll [Array_EncodeTo SpecifierStorageProof; Array_EncodeTo fcid; WriteBool true; WriteInt i].
Definition MissedOutputID (fcid : FileContractID) (i : nat) : SiacoinOutputID :=
  hashAll [Array_EncodeTo SpecifierStorageProof; Array_EncodeTo fcid; WriteBool false; WriteInt i].
Definition V2RenterOutputID (fcid : FileContractID) : SiacoinOutputID :=
  hashAll [distinguisher "id/v2filecontractoutput"; Array_EncodeTo fcid; WriteInt 0].
Definition V2HostOutputID (fcid : FileContractID) : SiacoinOutputID :=
  hashAll [distinguisher "id/v2filecontractoutput"; Array_EncodeTo fcid; WriteInt 1].
Definition V2RenewalID (fcid : FileContractID) : FileContractID :=
  hashAll [distinguisher "id/v2filecontractrenewal"; Array_EncodeTo fcid].

Definition Transaction_ID (txn : Transaction) : TransactionID := hashAll [txnSansSigs_EncodeTo txn].
Definition Transaction_FullHash (txn : Transaction) : Hash256 := hashAll [Transaction_EncodeTo txn].
Definition Transaction_SiacoinOutputID (txn : Transaction) (i : nat) : SiacoinOutputID :=
  hashAll [Array_EncodeTo SpecifierSiacoinOutput; txnSansSigs_EncodeTo txn; WriteInt i].
Definition Transaction_SiafundOutputID (txn : Transaction) (i : nat) : SiafundOutputID :=
  hashAll [Array_EncodeTo SpecifierSiafundOutput; txnSansSigs_EncodeTo txn; WriteInt i].
Definition SiafundClaimOutputID (txn : Transaction) (i : nat) : SiacoinOutputID :=
  hashAll [Array_EncodeTo (Transaction_SiafundOutputID txn i)].
Definition Transaction_FileContractID (txn : Transaction) (i : nat) : FileContractID :=
  hashAll [Array_EncodeTo SpecifierFileContract; txnSansSigs_EncodeTo txn; WriteInt i].

Definition V2Transaction_ID (txn : V2Transaction) : TransactionID :=
  hashAll [distinguisher "id/transaction"; V2TransactionSemantics_EncodeTo txn].
Definition V2Transaction_FullHash (txn : V2Transaction) : Hash256 :=
  hashAll [V2Transaction_EncodeTo txn].
Definition V2SiacoinOutputID (txid : TransactionID) (i : nat) : SiacoinOutputID :=
  hashAll [distinguisher "id/siacoinoutput"; Array_EncodeTo txid; WriteInt i].
Definition V2SiafundOutputID (txid : TransactionID) (i : nat) : SiafundOutputID :=
  hashAll [distinguisher "id/siafundoutput"; Array_EncodeTo txid; WriteInt i].
Definition V2FileContractID (txid : TransactionID) (i : nat) : FileContractID :=
  hashAll [distinguisher "id/filecontract"; Array_EncodeTo txid; WriteInt i].
Definition V2AttestationID (txid : TransactionID) (i : nat) : AttestationID :=
  hashAll [distinguisher "id/attestation"; Array_EncodeTo txid; WriteInt i].

Definition unassigned : StateElement :=
  {| se_LeafIndex := UnassignedLeafIndex; se_MerkleProof := []; se_shared := false |}.

(** Panics when [i] is out of range. *)
Definition EphemeralSiacoinOutput (txn : V2Transaction) (i : nat) : outcome SiacoinElement :=
  match v2tx_SiacoinOutputs txn !! i with
  | Some sco => Ok {| sce_ID := V2SiacoinOutputID (V2Transaction_ID txn) i;
                      sce_StateElement := unassigned; sce_SiacoinOutput := sco;
                      sce_MaturityHeight := 0 |}
  | None => Panic "index out of range"
  end.
Definition EphemeralSiafundOutput (txn : V2Transaction) (i : nat) : outcome SiafundElement :=
  match v2tx_SiafundOutputs txn !! i with
  | Some sfo => Ok {| sfe_ID := V2SiafundOutputID (V2Transaction_ID txn) i;
                      sfe_StateElement := unassigned; sfe_SiafundOutput := sfo;
                      sfe_ClaimStart := Currency.ZeroCurrency |}
  | None => Panic "index out of range"
  end.

Definition BlockHeader_ID (bh : BlockHeader) : BlockID :=
  HashBytes (bh_ParentID bh ++ le_encode 8 (bh_Nonce bh) ++
             le_encode 8 (u64 (Unix (bh_Timestamp bh))) ++ bh_Commitment bh).

Definition Block_Header (b : Block) : BlockHeader :=
  {| bh_ParentID := b_ParentID b; bh_Nonce := b_Nonce b; bh_Timestamp := b_Timestamp b;
     bh_Commitment := match b_V2 b with
                      | None => blockMerkleRoot (b_MinerPayouts b) (b_Transactions b)
                      | Some d => v2b_Commitment d
                      end |}.
Definition Block_ID (b : Block) : BlockID := BlockHeader_ID (Block_Header b).

(** ** [policy.go]: addresses *)

(** [p.Address()] and [PolicyOpaque(p)]; the two are mutually recursive in the
    source, through the sub-policies of a threshold. *)
Fixpoint SpendPolicy_Address (p : SpendPolicy) : Address :=
  match p with
  | PolicyTypeUnlockConditions uc => unlockConditionsRoot uc
  | PolicyTypeThreshold n l =>
      hashAll [distinguisher "address";
               SpendPolicy_EncodeTo (PolicyTypeThreshold n
                 (map (fun q => match q with
                                | PolicyTypeOpaque _ => q
                                | _ => PolicyTypeOpaque (SpendPolicy_Address q)
                                end) l))]
  | _ => hashAll [distinguisher "address"; SpendPolicy_EncodeTo p]
  end.

Definition PolicyOpaque (p : SpendPolicy) : SpendPolicy :=
  match p with
  | PolicyTypeOpaque _ => p
  | _ => PolicyTypeOpaque (SpendPolicy_Address p)
  end.

Definition AnyoneCanSpend : SpendPolicy := PolicyTypeThreshold 0 [].

End Ids.
