(* ===== verification/SampleCrypto.v ===== *)
(** * A concrete instance of the cryptographic primitives

    A small, computable and insecure instantiation of [Crypto], used only to
    evaluate the model on concrete inputs and to show that the hypotheses on the
    primitives can hold. *)
From stdpp Require Import prelude strings.
From Stdlib Require Import ZArith Lia.
From S2P Require Import Prelude TypesCurrency TypesData TypesEncoding TypesHash.

Module Sample.

Definition mix (b : bytes) : Z :=
  fold_left (fun acc x => Z.land (acc * 69069 + x + 1) 2305843009213693951) b 1.

Definition spread : Z :=
  80084422859880547211683076133703299733277748156566366325829078699459944778997.

Definition digest (n : nat) (b : bytes) : bytes := le_encode n (mix b * spread).

(** The two published digests of the standard unlock conditions are tabulated. *)
Definition sum256 (b : bytes) : bytes :=
  if decide (b = zeros 9) then timelockHash
  else if decide (b = [0; 1; 0; 0; 0; 0; 0; 0; 0]) then sigsrequiredHash
  else digest 32 b.

Definition ed_sign (priv msg : bytes) : bytes := digest 64 (drop 32 priv ++ msg).
Definition ed_verify (pk msg sig : bytes) : bool := bool_decide (sig = digest 64 (pk ++ msg)).

Definition slh_sign (priv msg ctx : bytes) : outcome bytes :=
  Ok (digest 32 (priv ++ msg ++ ctx) ++ zeros (Z.to_nat 7824)).
Definition slh_verify (pk msg sig ctx : bytes) : bool :=
  bool_decide (sig = digest 32 (pk ++ msg ++ ctx) ++ zeros (Z.to_nat 7824)).

Definition crypto : Crypto :=
  {| blake2b_Sum256 := sum256; sha256_Sum256 := digest 32; sha512_Sum512 := digest 64;
     ed25519_Verify := ed_verify; ed25519_Sign := ed_sign;
     ed25519_NewKeyFromSeed := fun seed => seed ++ digest 32 seed;
     slhdsa_UnmarshalBinary := fun pk => bool_decide (length pk = 32%nat);
     slhdsa_Verify := slh_verify; slhdsa_SignDeterministic := slh_sign;
     slhdsa_GenerateKey := fun seed => Ok (digest 32 seed, digest 32 seed) |}.

Lemma sizes : @CryptoSizes crypto.
Proof.
  split; intros b; unfold blake2b_Sum256, sha256_Sum256, crypto; [|apply length_le_encode].
  unfold sum256. repeat case_decide; [done|done|apply length_le_encode].
Qed.

End Sample.
