(* ===== verification/TypesMerkle.v ===== *)
(** * Correctness of the Merkle accumulator and of the derived addresses

    [core/blake2b]'s [Accumulator] computes the RFC 6962 tree hash of the leaves it
    was fed; the precomputed [StandardUnlockHash] and the inlined [StandardAddress]
    agree with the generic derivations. *)
From stdpp Require Import prelude strings.
From Stdlib Require Import ZArith Lia.
From S2P Require Import Prelude TypesCurrency TypesData TypesEncoding TypesHash TypesCodec SampleCrypto.

(** ** Reference definition (RFC 6962, section 2.1) *)
Section Reference.
Context {crypto : Crypto}.

(** Splits at the largest power of two strictly below the number of leaves. *)
Fixpoint tree_hash (fuel : nat) (l : list bytes) : bytes :=
  match fuel, l with
  | _, [] => zeroHash
  | _, [x] => x
  | O, _ => zeroHash
  | S f, _ =>
      let k := (2 ^ Nat.log2 (length l - 1))%nat in
      SumPair (tree_hash f (take k l)) (tree_hash f (drop k l))
  end.
Definition merkle_root (l : list bytes) : bytes := tree_hash (length l) l.

(** The root of a perfect tree over [2^h] leaves. *)
Fixpoint perfect (h : nat) (l : list bytes) : bytes :=
  match h with
  | O => hd zeroHash l
  | S h' => SumPair (perfect h' (take (2 ^ h') l)) (perfect h' (drop (2 ^ h') l))
  end.

Lemma pow2_pos h : (1 <= 2 ^ h)%nat.
Proof. pose proof (Nat.pow_nonzero 2 h). lia. Qed.

Lemma log2_split n h : (2 ^ h < n <= 2 ^ S h)%nat -> Nat.log2 (n - 1) = h.
Proof. intros H. apply Nat.log2_unique; cbn in *; lia. Qed.

Lemma log2_lt_len (n : nat) : (2 <= n)%nat -> (1 <= 2 ^ Nat.log2 (n - 1) < n)%nat.
Proof. intros H. pose proof (Nat.log2_spec (n - 1) ltac:(lia)). pose proof (pow2_pos (Nat.log2 (n-1))). lia. Qed.

Lemma tree_hash_irrel f g l : (length l <= f)%nat -> (length l <= g)%nat ->
  tree_hash f l = tree_hash g l.
Proof.
  revert g l. induction f as [|f IH]; intros [|g] [|x [|y l]] Hf Hg; try done; try (cbn in *; lia).
  cbn [tree_hash]. pose proof (log2_lt_len (length (x :: y :: l)) ltac:(cbn; lia)).
  set (k := (2 ^ Nat.log2 _)%nat) in *. cbn [length] in Hf, Hg, H.
  f_equal; apply IH; rewrite ?length_take, ?length_drop; cbn [length]; lia.
Qed.

Lemma tree_hash_fuel f l : (length l <= f)%nat -> tree_hash f l = merkle_root l.
Proof. intros. by apply tree_hash_irrel. Qed.

Lemma merkle_root_eq l : (2 <= length l)%nat ->
  let k := (2 ^ Nat.log2 (length l - 1))%nat in
  merkle_root l = SumPair (merkle_root (take k l)) (merkle_root (drop k l)).
Proof.
  intros Hl k. unfold merkle_root at 1. pose proof (log2_lt_len (length l) Hl) as Hk. fold k in Hk.
  destruct l as [|x [|y l]]; [cbn in Hl; lia|cbn in Hl; lia|].
  change (tree_hash (length (x :: y :: l)) (x :: y :: l)) with
    (SumPair (tree_hash (S (length l)) (take k (x :: y :: l)))
             (tree_hash (S (length l)) (drop k (x :: y :: l)))).
  clearbody k. cbn [length] in Hk.
  by rewrite !tree_hash_fuel by (rewrite ?length_drop, ?length_take; cbn [length]; lia).
Qed.

Lemma merkle_root_split h a b :
  length a = (2 ^ h)%nat -> (1 <= length b <= 2 ^ h)%nat ->
  merkle_root (a ++ b) = SumPair (merkle_root a) (merkle_root b).
Proof.
  intros Ha Hb. pose proof (pow2_pos h).
  rewrite merkle_root_eq by (rewrite length_app; lia).
  rewrite (log2_split _ h) by (rewrite length_app, Nat.pow_succ_r'; lia).
  by rewrite <- Ha, take_app_length, drop_app_length.
Qed.

Lemma merkle_root_perfect h l : length l = (2 ^ h)%nat -> merkle_root l = perfect h l.
Proof.
  revert l. induction h as [|h IH]; intros l Hl.
  - destruct l as [|x [|y l]]; cbn in Hl; [lia|done|lia].
  - cbn [perfect]. cbn in Hl. rewrite <- (take_drop (2 ^ h) l) at 1.
    assert (length (take (2 ^ h) l) = (2 ^ h)%nat) by (rewrite length_take; lia).
    assert (length (drop (2 ^ h) l) = (2 ^ h)%nat) by (rewrite length_drop; lia).
    pose proof (pow2_pos h). rewrite (merkle_root_split h) by lia. by rewrite !IH.
Qed.
End Reference.

(** ** Bits of the leaf count *)

Lemma has_bit_nat n i : has_bit (Z.of_nat n) (Z.of_nat i) = Nat.testbit n i.
Proof.
  unfold has_bit. rewrite Z.testbit_eqb, Nat.testbit_eqb by lia.
  change 2 with (Z.of_nat 2). change 1 with (Z.of_nat 1).
  rewrite <- Nat2Z.inj_pow, <- Nat2Z.inj_div, <- Nat2Z.inj_mod.
  destruct (_ =? _)%nat eqn:E; [apply Nat.eqb_eq in E|apply Nat.eqb_neq in E];
    [apply Z.eqb_eq|apply Z.eqb_neq]; lia.
Qed.

(** [n mod 2^(i+1)] from bit [i]. *)
Lemma mod_pow2_succ n i :
  (n mod 2 ^ S i = n mod 2 ^ i + (if Nat.testbit n i then 2 ^ i else 0))%nat.
Proof.
  pose proof (pow2_pos i). rewrite Nat.pow_succ_r', Nat.mul_comm, Nat.Div0.mod_mul_r.
  rewrite Nat.testbit_eqb. pose proof (Nat.mod_upper_bound (n / 2 ^ i) 2 ltac:(lia)).
  destruct (_ =? _)%nat eqn:E; [apply Nat.eqb_eq in E|apply Nat.eqb_neq in E]; nia.
Qed.

Lemma ones_stop n j : (n mod 2 ^ j = 2 ^ j - 1)%nat -> Nat.testbit n j = false ->
  exists q, (n + 1 = q * 2 ^ S j + 2 ^ j)%nat.
Proof.
  intros Hm Hb. pose proof (mod_pow2_succ n j) as E. rewrite Hb in E. pose proof (pow2_pos j).
  exists (n / 2 ^ S j)%nat. pose proof (Nat.div_mod_eq n (2 ^ S j)). nia.
Qed.

(** ** The invariant of the accumulator *)
Section AccInv.
Context {crypto : Crypto}.

(** Leaves covered by tree [i]: the [2^i] ones just below the [i] low bits. *)
Definition segment (l : list bytes) (i : nat) : list bytes :=
  take (2 ^ i) (drop (length l - length l mod 2 ^ S i) l).

Record acc_inv (acc : Accumulator.t) (l : list bytes) : Prop := {
  ai_len : Accumulator.NumLeaves acc = zlen l;
  ai_trees : length (Accumulator.Trees acc) = 64%nat;
  ai_tree : forall i, (i < 64)%nat -> Nat.testbit (length l) i = true ->
    Accumulator.Trees acc !!! i = perfect i (segment l i) }.

Lemma acc_has acc l i : acc_inv acc l ->
  Accumulator.hasTreeAtHeight acc i = Nat.testbit (length l) i.
Proof.
  intros H. unfold Accumulator.hasTreeAtHeight. rewrite (ai_len _ _ H). apply has_bit_nat.
Qed.

Lemma low_ones_lt n i : Z.of_nat (S n) < two64 -> (n mod 2 ^ i = 2 ^ i - 1)%nat -> (i < 64)%nat.
Proof.
  intros Hn Hm. destruct (decide (i < 64)%nat) as [|Hge]; [done|]. exfalso.
  assert (two64 <= Z.of_nat (2 ^ i)).
  { rewrite Nat2Z.inj_pow. apply (Z.pow_le_mono_r 2 64); lia. }
  pose proof (Nat.Div0.mod_le n (2 ^ i)). lia.
Qed.

Lemma carry_step acc l x i : acc_inv acc l -> Z.of_nat (S (length l)) < two64 ->
  (length l mod 2 ^ i = 2 ^ i - 1)%nat -> Nat.testbit (length l) i = true ->
  (length l mod 2 ^ S i = 2 ^ S i - 1)%nat /\
  SumPair (Accumulator.Trees acc !!! i) (perfect i (drop (length l + 1 - 2 ^ i) (l ++ [x])))
    = perfect (S i) (drop (length l + 1 - 2 ^ S i) (l ++ [x])).
Proof.
  intros Hinv Hn Hm Hb. pose proof (mod_pow2_succ (length l) i) as E. rewrite Hb in E.
  pose proof (pow2_pos i). rewrite (Nat.pow_succ_r' 2 i) in *.
  pose proof (Nat.Div0.mod_le (length l) (2 * 2 ^ i)) as Hle. split; [lia|].
  pose proof (low_ones_lt _ _ Hn Hm). rewrite (ai_tree _ _ Hinv) by done. cbn [perfect].
  rewrite drop_drop. unfold segment. rewrite Nat.pow_succ_r', E, Hm.
  f_equal; f_equal; [|f_equal; lia].
  rewrite drop_app_le by lia. rewrite take_app_le by (rewrite length_drop; lia).
  f_equal. f_equal. lia.
Qed.

Lemma carry_spec acc l x fuel i : acc_inv acc l -> Z.of_nat (S (length l)) < two64 ->
  (64 <= i + fuel)%nat -> (length l mod 2 ^ i = 2 ^ i - 1)%nat ->
  exists j, (j < 64)%nat /\ Nat.testbit (length l) j = false /\
    (length l mod 2 ^ j = 2 ^ j - 1)%nat /\
    Accumulator.carry fuel acc i (perfect i (drop (length l + 1 - 2 ^ i) (l ++ [x])))
      = (j, perfect j (drop (length l + 1 - 2 ^ j) (l ++ [x]))).
Proof.
  intros Hinv Hn. revert i. induction fuel as [|fuel IH]; intros i Hf Hm.
  - pose proof (low_ones_lt _ _ Hn Hm). lia.
  - cbn [Accumulator.carry]. rewrite (acc_has _ _ i Hinv).
    destruct (Nat.testbit (length l) i) eqn:Hb.
    + destruct (carry_step acc l x i Hinv Hn Hm Hb) as [Hm' ->]. apply IH; [lia|done].
    + exists i. pose proof (low_ones_lt _ _ Hn Hm). done.
Qed.

Lemma empty_inv : acc_inv Accumulator.empty [].
Proof. split; [done|done|]. intros i _ Hb. cbn [length] in Hb. by rewrite Nat.bits_0 in Hb. Qed.

(** Bits above the carry position are unchanged. *)
Lemma high_bits n q j i : (n + 1 = q * 2 ^ S j + 2 ^ j)%nat -> (j < i)%nat ->
  Nat.testbit (n + 1) i = Nat.testbit n i /\
  (n + 1 - (n + 1) mod 2 ^ S i = n - n mod 2 ^ S i)%nat.
Proof.
  intros Hq Hij. pose proof (pow2_pos j). pose proof (pow2_pos (S j)).
  assert (forall k, (S j <= k)%nat -> n mod 2 ^ k + 1 = (n + 1) mod 2 ^ k)%nat as Hmod.
  { intros k Hk. replace k with (S j + (k - S j))%nat by lia. rewrite Nat.pow_add_r.
    set (m := (2 ^ (k - S j))%nat). pose proof (pow2_pos (k - S j)). fold m in H1.
    assert (n = (2 ^ j - 1) + q * 2 ^ S j)%nat as Hn by lia.
    rewrite Hq. rewrite (Nat.add_comm (q * _)). rewrite Hn.
    rewrite !Nat.Div0.mod_mul_r, !Nat.Div0.mod_add, !Nat.div_add by lia.
    rewrite Nat.pow_succ_r'. rewrite !(Nat.mod_small _ (2 * 2 ^ j)) by lia.
    rewrite !(Nat.div_small _ (2 * 2 ^ j)) by lia. lia. }
  pose proof (Hmod (S i) ltac:(lia)) as H1. split; [|lia].
  pose proof (Hmod i ltac:(lia)) as H2.
  pose proof (mod_pow2_succ n i). pose proof (mod_pow2_succ (n + 1) i). pose proof (pow2_pos i).
  destruct (Nat.testbit n i), (Nat.testbit (n + 1) i); lia || done.
Qed.

Lemma low_bits n q j i : (n + 1 = q * 2 ^ S j + 2 ^ j)%nat -> (i < j)%nat ->
  Nat.testbit (n + 1) i = false.
Proof.
  intros -> Hij. pose proof (mod_pow2_succ (q * 2 ^ S j + 2 ^ j) i) as E.
  assert (2 ^ j = 2 ^ (j - S i) * 2 ^ S i)%nat as Hp
    by (rewrite <- Nat.pow_add_r; f_equal; lia).
  assert (q * 2 ^ S j + 2 ^ j = (q * 2 + 1) * 2 ^ (j - S i) * 2 ^ S i)%nat as Hs
    by (rewrite (Nat.pow_succ_r' 2 j), Hp; nia).
  rewrite Hs in *.
  rewrite Nat.Div0.mod_mul in E. pose proof (pow2_pos i). destruct (Nat.testbit _ _); lia || done.
Qed.

Lemma AddLeaf_inv acc l x : acc_inv acc l -> Z.of_nat (S (length l)) < two64 ->
  acc_inv (Accumulator.AddLeaf acc x) (l ++ [x]).
Proof.
  intros Hinv Hn. unfold Accumulator.AddLeaf.
  destruct (carry_spec acc l x 64 0 Hinv Hn ltac:(lia) ltac:(cbn; done)) as (j & Hj & Hb & Hm & E).
  change (2 ^ 0)%nat with 1%nat in E. replace (length l + 1 - 1)%nat with (length l) in E by lia.
  rewrite drop_app_length in E. cbn [perfect hd] in E. rewrite E. clear E.
  destruct (ones_stop _ _ Hm Hb) as [q Hq].
  assert (length (l ++ [x]) = length l + 1)%nat as Hlen by (rewrite length_app; done).
  split; cbn [Accumulator.NumLeaves Accumulator.Trees].
  - rewrite (ai_len _ _ Hinv), zlen_app. apply u64_id. unfold is_u64, zlen. cbn [length].
    lia.
  - rewrite length_insert. apply Hinv.
  - intros i Hi Hbi. unfold segment. rewrite Hlen in *. destruct (decide (i = j)) as [->|Hne].
    + rewrite list_lookup_total_insert_eq by (rewrite (ai_trees _ _ Hinv); done).
      pose proof (pow2_pos j). rewrite Hq at 1. rewrite Hq. rewrite Nat.add_comm, Nat.Div0.mod_add.
      rewrite Nat.mod_small by (rewrite Nat.pow_succ_r'; lia).
      f_equal. rewrite take_ge; [f_equal; lia|rewrite length_drop, Hlen; lia].
    + rewrite list_lookup_total_insert_ne by lia.
      destruct (decide (i < j)%nat) as [Hlt|Hge]; [by rewrite (low_bits _ _ _ _ Hq Hlt) in Hbi|].
      destruct (high_bits _ _ _ i Hq ltac:(lia)) as [H1 H2]. rewrite H1 in Hbi.
      rewrite (ai_tree _ _ Hinv i Hi Hbi), H2. unfold segment.
      pose proof (mod_pow2_succ (length l) i) as E. rewrite Hbi in E.
      pose proof (Nat.Div0.mod_le (length l) (2 ^ S i)).
      rewrite drop_app_le by lia. by rewrite take_app_le by (rewrite length_drop; lia).
Qed.
End AccInv.

(** ** The root *)

Lemma trailing_zeros_spec fuel n : 0 < n < 2 ^ Z.of_nat fuel ->
  exists t, (t < fuel)%nat /\ bits.trailing_zeros fuel n = Z.of_nat t /\
    exists m, n = (2 * m + 1) * 2 ^ Z.of_nat t.
Proof.
  revert n. induction fuel as [|fuel IH]; intros n Hn; [cbn in Hn; lia|].
  cbn [bits.trailing_zeros]. destruct (Z.odd n) eqn:E.
  - exists 0%nat. split; [lia|split; [done|]]. apply Z.odd_spec in E as [m ->]. exists m. lia.
  - assert (Z.even n = true) as Ev by (rewrite <- Z.negb_odd, E; done).
    apply Z.even_spec in Ev as [m ->]. rewrite (Z.mul_comm 2 m), Z.div_mul by lia.
    rewrite Nat2Z.inj_succ, Z.pow_succ_r in Hn by lia.
    destruct (IH m ltac:(lia)) as (t & Ht & Htz & k & ->). exists (S t).
    split; [lia|split; [lia|]]. exists k. rewrite Nat2Z.inj_succ, Z.pow_succ_r by lia. lia.
Qed.

Lemma TrailingZeros64_nat n : (0 < n)%nat -> Z.of_nat n < two64 ->
  exists t, (t < 64)%nat /\ bits.TrailingZeros64 (Z.of_nat n) = Z.of_nat t /\
    (n mod 2 ^ t = 0)%nat /\ Nat.testbit n t = true.
Proof.
  intros Hn Hlt. destruct (trailing_zeros_spec 64 (Z.of_nat n)) as (t & Ht & Htz & m & Hm).
  { change (2 ^ Z.of_nat 64) with two64. lia. }
  exists t. split; [done|split; [exact Htz|]]. pose proof (pow2_pos t).
  assert (n = (2 * Z.to_nat m + 1) * 2 ^ t)%nat as Hn'.
  { pose proof (Z.pow_pos_nonneg 2 (Z.of_nat t) ltac:(lia) ltac:(lia)).
    assert (0 <= m) by nia. apply Nat2Z.inj. rewrite Hm. 
    rewrite Nat2Z.inj_mul, Nat2Z.inj_pow. f_equal. lia. }
  split; [rewrite Hn'; apply Nat.Div0.mod_mul|].
  rewrite Nat.testbit_eqb. rewrite Hn', Nat.div_mul by lia.
  rewrite Nat.mul_comm, Nat.add_comm, Nat.Div0.mod_add. done.
Qed.

Section RootSpec.
Context {crypto : Crypto}.

(** The [r] last leaves, where [r] is the value of the [i] low bits. *)
Definition low_leaves (l : list bytes) (i : nat) : list bytes :=
  drop (length l - length l mod 2 ^ i) l.

Lemma length_segment l i : Nat.testbit (length l) i = true -> length (segment l i) = (2 ^ i)%nat.
Proof.
  intros Hb. unfold segment. rewrite length_take, length_drop.
  pose proof (mod_pow2_succ (length l) i) as E. rewrite Hb in E.
  pose proof (Nat.Div0.mod_le (length l) (2 ^ S i)). lia.
Qed.

Lemma low_leaves_succ l i :
  low_leaves l (S i) = if Nat.testbit (length l) i then segment l i ++ low_leaves l i
                       else low_leaves l i.
Proof.
  unfold low_leaves, segment. pose proof (mod_pow2_succ (length l) i) as E.
  destruct (Nat.testbit (length l) i) eqn:Hb; rewrite E; [|do 2 f_equal; lia].
  pose proof (Nat.Div0.mod_le (length l) (2 ^ S i)).
  rewrite <- (take_drop (2 ^ i) (drop _ l)) at 1. f_equal. rewrite drop_drop. f_equal. lia.
Qed.

Lemma fold_up_spec acc l k i : acc_inv acc l -> (i + k = 64)%nat ->
  (0 < length l mod 2 ^ i)%nat ->
  Accumulator.fold_up k acc i (merkle_root (low_leaves l i)) = merkle_root (low_leaves l 64).
Proof.
  intros Hinv. revert i. induction k as [|k IH]; intros i Hik Hpos; cbn [Accumulator.fold_up].
  - by replace i with 64%nat by lia.
  - rewrite (acc_has _ _ i Hinv). pose proof (low_leaves_succ l i) as Hs.
    pose proof (mod_pow2_succ (length l) i) as E.
    destruct (Nat.testbit (length l) i) eqn:Hb.
    + rewrite (ai_tree _ _ Hinv i ltac:(lia) Hb), <- merkle_root_perfect by by apply length_segment.
      rewrite <- (merkle_root_split i), <- Hs; [apply IH; lia|by apply length_segment|].
      unfold low_leaves. rewrite length_drop.
      pose proof (Nat.mod_upper_bound (length l) (2 ^ i) ltac:(pose proof (pow2_pos i); lia)).
      pose proof (Nat.Div0.mod_le (length l) (2 ^ i)). lia.
    + rewrite <- Hs. apply IH; lia.
Qed.

Lemma Root_spec acc l : acc_inv acc l -> Z.of_nat (length l) < two64 ->
  Accumulator.Root acc = merkle_root l.
Proof.
  intros Hinv Hlt. unfold Accumulator.Root. rewrite (ai_len _ _ Hinv). unfold zlen.
  destruct (length l) as [|n] eqn:El; [by destruct l|]. rewrite <- El in *.
  destruct (TrailingZeros64_nat (length l) ltac:(lia) Hlt) as (t & Ht & -> & Hm & Hb).
  destruct (_ =? 64) eqn:E64; [bool_lia|]. rewrite Nat2Z.id.
  pose proof (mod_pow2_succ (length l) t) as Em. rewrite Hb in Em. pose proof (pow2_pos t).
  rewrite (ai_tree _ _ Hinv t Ht Hb), <- merkle_root_perfect by by apply length_segment.
  replace (segment l t) with (low_leaves l (S t)).
  - rewrite fold_up_spec by (done || lia). unfold low_leaves.
    rewrite Nat.mod_small; [by rewrite Nat.sub_diag|].
    apply Nat2Z.inj_lt. rewrite Nat2Z.inj_pow. exact Hlt.
  - rewrite low_leaves_succ, Hb. unfold low_leaves at 1. rewrite Hm, Nat.sub_0_r, drop_all.
    apply app_nil_r.
Qed.

Lemma of_leaves_inv l : Z.of_nat (length l) < two64 -> acc_inv (Accumulator.of_leaves l) l.
Proof.
  induction l as [|x l IH] using rev_ind; intros Hl; [apply empty_inv|].
  rewrite length_app in Hl. cbn in Hl. unfold Accumulator.of_leaves in *. rewrite fold_left_app. cbn.
  apply AddLeaf_inv; [apply IH|]; lia.
Qed.
End RootSpec.

(** The streaming Merkle accumulator is the RFC 6962 tree hash.  After feeding
    any leaves (fewer than 2^64), [Root] is the root of the tree that splits at the
    largest power of two below the number of leaves; no leaves give the zero hash. *)
Theorem Accumulator_merkle_root {crypto : Crypto} (l : list bytes) :
  zlen l < two64 -> Accumulator.Root (Accumulator.of_leaves l) = merkle_root l.
Proof. intros Hl. by apply Root_spec; [apply of_leaves_inv|]. Qed.

Lemma Accumulator_merkle_root_witness :
  @Accumulator.Root Sample.crypto (@Accumulator.of_leaves Sample.crypto [[1]; [2]; [3]; [4]; [5]])
  = @merkle_root Sample.crypto [[1]; [2]; [3]; [4]; [5]].
Proof. apply (@Accumulator_merkle_root Sample.crypto). reflexivity. Defined.

(** ** Derived addresses *)

Lemma merkle_root_3 {crypto : Crypto} a b c : merkle_root [a; b; c] = SumPair (SumPair a b) c.
Proof. reflexivity. Qed.

(** The optimised address derivations agree with the generic ones.  The inlined
    [StandardAddress] is the address of the public-key policy, and [UnlockHash],
    with its precomputed digests for standard conditions, is always the Merkle root
    of the unlock conditions, which is the address of the corresponding policy.
    The two hypotheses say that the digests written in the source are the BLAKE2b
    hashes its comments claim. *)
Theorem standard_addresses_agree {crypto : Crypto} (pk : PublicKey) (uc : UnlockConditions) :
  timelockHash = HashBytes (0 :: le_encode 8 0) ->
  sigsrequiredHash = HashBytes (0 :: le_encode 8 1) ->
  StandardAddress pk = SpendPolicy_Address (PolicyTypePublicKey pk) /\
  UnlockHash uc = unlockConditionsRoot uc /\
  UnlockHash uc = SpendPolicy_Address (PolicyTypeUnlockConditions uc).
Proof.
  intros Ht Hs. assert (UnlockHash uc = unlockConditionsRoot uc) as Huc.
  { destruct uc as [tl [|[alg key] [|k2 ks]] n]; [done| |done]. unfold UnlockHash.
    cbn [uc_Timelock uc_PublicKeys uc_SignaturesRequired uk_Algorithm uk_Key].
    destruct (_ && _) eqn:E; [|done]. rewrite !andb_true_iff in E.
    destruct E as (((E1 & E2) & E3) & E4). apply Z.eqb_eq in E1, E3, E4.
    apply bool_decide_eq_true in E2. subst.
    unfold unlockConditionsRoot, StandardUnlockHash. cbn [map app uc_Timelock uc_PublicKeys uc_SignaturesRequired].
    match goal with |- context [Accumulator.of_leaves ?L] =>
      rewrite (Root_spec _ L (of_leaves_inv L ltac:(cbn; lia)) ltac:(cbn; lia)) end.
    rewrite merkle_root_3. unfold leaf_hash, UnlockKey_EncodeTo, WriteBytes. cbn [uk_Algorithm uk_Key].
    rewrite E3, Ht, Hs. reflexivity. }
  split_and!; [|done|exact Huc].
  unfold StandardAddress, SpendPolicy_Address, hashAll. cbn [concat]. by rewrite app_nil_r.
Qed.

Lemma standard_addresses_agree_witness :
  @UnlockHash Sample.crypto (StandardUnlockConditions (replicate 32 5))
  = @unlockConditionsRoot Sample.crypto (StandardUnlockConditions (replicate 32 5)) /\ True.
Proof.
  split; [|exact I].
  apply (@standard_addresses_agree Sample.crypto (replicate 32 5)); vm_compute; reflexivity.
Defined.

(** Replacing sub-policies by their opaque form, at any depth. *)
#[warnings="-register-all"]
Inductive opaquified {crypto : Crypto} : SpendPolicy -> SpendPolicy -> Prop :=
| opq_refl p : opaquified p p
| opq_hide p q : opaquified p q -> opaquified p (PolicyOpaque q)
| opq_threshold n l l' : Forall2 opaquified l l' ->
    opaquified (PolicyTypeThreshold n l) (PolicyTypeThreshold n l').

Fixpoint opaquified_ind' {crypto : Crypto} (P : SpendPolicy -> SpendPolicy -> Prop)
    (Hrefl : forall p, P p p) (Hhide : forall p q, opaquified p q -> P p q -> P p (PolicyOpaque q))
    (Hthr : forall n l l', Forall2 P l l' ->
       P (PolicyTypeThreshold n l) (PolicyTypeThreshold n l'))
    p q (H : opaquified p q) {struct H} : P p q :=
  match H with
  | opq_refl p => Hrefl p
  | opq_hide p q H => Hhide p q H (opaquified_ind' P Hrefl Hhide Hthr p q H)
  | opq_threshold n l l' Hl =>
      Hthr n l l'
        ((fix go l l' (Hl : Forall2 opaquified l l') : Forall2 P l l' :=
            match Hl with
            | @List.Forall2_nil _ _ _ => @List.Forall2_nil _ _ P
            | @List.Forall2_cons _ _ _ x y xs ys Hxy Hs =>
                @List.Forall2_cons _ _ P x y xs ys (opaquified_ind' P Hrefl Hhide Hthr x y Hxy) (go xs ys Hs)
            end) l l' Hl)
  end.

Lemma threshold_address {crypto : Crypto} n l :
  SpendPolicy_Address (PolicyTypeThreshold n l)
  = hashAll [distinguisher "address"; SpendPolicy_EncodeTo (PolicyTypeThreshold n (map PolicyOpaque l))].
Proof. done. Qed.

Lemma PolicyOpaque_idem {crypto : Crypto} p : PolicyOpaque (PolicyOpaque p) = PolicyOpaque p.
Proof. by destruct p. Qed.

Lemma opaquified_opaque {crypto : Crypto} p q : opaquified p q -> PolicyOpaque p = PolicyOpaque q.
Proof.
  revert p q. refine (opaquified_ind' (fun p q => PolicyOpaque p = PolicyOpaque q) _ _ _);
    [done|intros p q _ IH; by rewrite PolicyOpaque_idem|intros n l l' IH].
  unfold PolicyOpaque at 1 2. rewrite !threshold_address. do 6 f_equal.
  by induction IH as [|x y xs ys Hxy _ IH]; cbn; [|rewrite Hxy, IH].
Qed.

(** Hiding branches does not change the address.  A spender may replace any
    unsatisfied sub-policies, at any nesting depth, by their opaque form: as long as
    the root stays revealed the policy has the same address, so it still spends the
    outputs committed to the full policy. *)
Theorem opaque_preserves_address {crypto : Crypto} (p q : SpendPolicy) :
  opaquified p q ->
  (forall a, p <> PolicyTypeOpaque a) -> (forall a, q <> PolicyTypeOpaque a) ->
  SpendPolicy_Address p = SpendPolicy_Address q.
Proof.
  intros Hpq Hp Hq. apply opaquified_opaque in Hpq.
  destruct p, q; try (by inv Hpq); congruence || by edestruct Hp || by edestruct Hq.
Qed.

Lemma opaque_preserves_address_witness :
  @SpendPolicy_Address Sample.crypto (PolicyTypeThreshold 1 [PolicyTypeAbove 7; ex_policy])
  = @SpendPolicy_Address Sample.crypto
      (PolicyTypeThreshold 1 [PolicyTypeAbove 7; @PolicyOpaque Sample.crypto ex_policy]).
Proof.
  apply (@opaque_preserves_address Sample.crypto); [|done|done].
  apply opq_threshold. constructor; [apply opq_refl|].
  constructor; [apply opq_hide, opq_refl|constructor].
Defined.
