(* ===== verification/TypesPolicy.v ===== *)
(** * [core/types/policy.go] [Verify], [qday.go], [qday_swap.go]

    Verification of spend policies, the hybrid Ed25519 + SLH-DSA keys and the
    atomic-swap policies. *)
From stdpp Require Import prelude strings.
From Stdlib Require Import ZArith Lia.
From S2P Require Import Prelude TypesCurrency TypesData TypesEncoding TypesHash.

Definition QdaySignatureSize : nat := Z.to_nat 7856.
Definition QdaySignatureChunks : nat := Z.to_nat ((7856 + 31) / 32).
Arguments QdaySignatureSize : simpl never.
Arguments QdaySignatureChunks : simpl never.
Definition qdaySignatureContext : bytes := str_bytes "QDAY/reserve/v1".
Definition maxPolicies : Z := 1024.

Record QdayKeys := { qk_Classical : PublicKey; qk_Reserve : bytes }.
Global Instance qk_eq_dec : EqDecision QdayKeys. Proof. solve_decision. Defined.

Record QdayPrivateKeys := { qp_Classical : bytes; qp_Reserve : bytes; qp_Public : QdayKeys }.

(** The closure state of [Verify]: the unconsumed signatures and preimages and the
    number of sub-policies visited. *)
Record VerifyState := mkV {
  vs_sigs : list Signature; vs_preimages : list bytes; vs_total : Z }.

Section Verify.
Context {crypto : Crypto}.

(** ** [verifyQdayReserve] *)
Definition verifyQdayReserve (pk : bytes) (h : Hash256) (chunks : list bytes) : bool :=
  if negb (length chunks =? QdaySignatureChunks)%nat then false else
  let buf := concat chunks in
  if negb (forallb (fun b => b =? 0) (drop QdaySignatureSize buf)) then false else
  slhdsa_UnmarshalBinary pk && slhdsa_Verify pk h (take QdaySignatureSize buf) qdaySignatureContext.

(** ** [SpendPolicy.Verify] *)
Variable height : Z.
Variable medianTimestamp : Time.
Variable sigHash : Hash256.

Definition verify_above (h : Z) (s : VerifyState) : outcome VerifyState :=
  if h <=? height then Ok s else Err "height not above".

(** The key loop of unlock conditions; [required] is [p.SignaturesRequired]. *)
Fixpoint verify_uc_keys (keys : list UnlockKey) (required : Z) (sigs : list Signature)
    : outcome (Z * list Signature) :=
  match keys with
  | [] => Ok (required, sigs)
  | pk :: keys' =>
      if (required =? 0) || (zlen keys <? required) || (zlen sigs <? required)
      then Ok (required, sigs)
      else if bool_decide (uk_Algorithm pk = SpecifierEntropy)
      then Err "policy uses an entropy public key"
      else match sigs with
           | [] => Panic "index out of range"
           | sig :: sigs' =>
               if bool_decide (uk_Algorithm pk = SpecifierEd25519) then
                 let epk := to_array 32 (uk_Key pk) in
                 if VerifyHash epk sigHash sig
                 then verify_uc_keys keys' (required - 1) sigs'
                 else verify_uc_keys keys' required sigs
               else verify_uc_keys keys' (required - 1) sigs'
           end
  end.

Definition verify_uc (uc : UnlockConditions) (s : VerifyState) : outcome VerifyState :=
  s ← verify_above (uc_Timelock uc) s;
  r ← verify_uc_keys (uc_PublicKeys uc) (uc_SignaturesRequired uc) (vs_sigs s);
  if fst r =? 0 then Ok (mkV (snd r) (vs_preimages s) (vs_total s))
  else Err "threshold not reached: remaining signatures".

(** The loop over the sub-policies of a threshold. *)
Section Children.
Variable verify : SpendPolicy -> VerifyState -> outcome VerifyState.
Fixpoint verify_children (n : Z) (l : list SpendPolicy) (satisfied : Z) (s : VerifyState)
    : outcome VerifyState :=
  match l with
  | [] => if satisfied =? n then Ok s else Err "threshold not reached"
  | sp :: l' =>
      match sp with
      | PolicyTypeUnlockConditions _ => Err "unlock conditions cannot be sub-policies"
      | PolicyTypeOpaque _ => verify_children n l' satisfied s
      | _ => if satisfied =? n then Err "threshold exceeded"
             else s' ← verify sp s; verify_children n l' (u8 (satisfied + 1)) s'
      end
  end.
End Children.

Fixpoint verify (p : SpendPolicy) (s : VerifyState) : outcome VerifyState :=
  match p with
  | PolicyTypeAbove h => verify_above h s
  | PolicyTypeAfter t =>
      if time_After medianTimestamp t then Ok s else Err "median timestamp not after"
  | PolicyTypePublicKey pk =>
      match vs_sigs s with
      | sig :: sigs' =>
          if VerifyHash pk sigHash sig then Ok (mkV sigs' (vs_preimages s) (vs_total s))
          else Err "invalid signature"
      | [] => Err "invalid signature"
      end
  | PolicyTypeSLHDSA pk =>
      if (length (vs_preimages s) <? QdaySignatureChunks)%nat ||
         negb (verifyQdayReserve pk sigHash (take QdaySignatureChunks (vs_preimages s)))
      then Err "invalid SLH-DSA reserve signature"
      else Ok (mkV (vs_sigs s) (drop QdaySignatureChunks (vs_preimages s)) (vs_total s))
  | PolicyTypeHash h =>
      match vs_preimages s with
      | pre :: pres' =>
          if bool_decide (h = sha256_Sum256 pre) then Ok (mkV (vs_sigs s) pres' (vs_total s))
          else Err "invalid preimage"
      | [] => Err "invalid preimage"
      end
  | PolicyTypeThreshold n l =>
      let total := vs_total s + zlen l in
      if (maxPolicies <? total) || (255 <? zlen l) then Err "policy is too complex"
      else verify_children verify n l 0 (mkV (vs_sigs s) (vs_preimages s) total)
  | PolicyTypeOpaque _ => Err "opaque policy"
  | PolicyTypeUnlockConditions uc => verify_uc uc s
  end.

Definition Verify (p : SpendPolicy) (sigs : list Signature) (preimages : list bytes)
    : outcome unit :=
  s ← verify p (mkV sigs preimages 0);
  _ ← fail_if (0 <? zlen (vs_sigs s)) "superfluous signature(s)";
  fail_if (0 <? zlen (vs_preimages s)) "superfluous preimage(s)".

End Verify.

(** ** Hybrid keys *)
Section Keys.
Context {crypto : Crypto}.

Definition QdayKeys_Policy (k : QdayKeys) : SpendPolicy :=
  PolicyTypeThreshold 2 [PolicyTypePublicKey (qk_Classical k); PolicyTypeSLHDSA (qk_Reserve k)].
Definition QdayKeys_Bytes (k : QdayKeys) : bytes := qk_Classical k ++ qk_Reserve k.
Definition QdayKeys_Address (k : QdayKeys) : Address := SpendPolicy_Address (QdayKeys_Policy k).
Definition QdayKeys_Validate (k : QdayKeys) : outcome unit :=
  fail_if (bool_decide (qk_Classical k = zeros 32) || bool_decide (qk_Reserve k = zeros 32))
    "zero QDAY public key".

Definition QdayKeysFromSeed (seed : bytes) : outcome QdayPrivateKeys :=
  let ed := sha512_Sum512 (str_bytes "QDAY/ed25519/v1" ++ seed) in
  let pq := sha512_Sum512 (str_bytes "QDAY/slhdsa/v1" ++ seed) in
  let classical := NewPrivateKeyFromSeed (take 32 ed) in
  kp ← slhdsa_GenerateKey pq;
  Ok {| qp_Classical := classical; qp_Reserve := snd kp;
        qp_Public := {| qk_Classical := PrivateKey_PublicKey classical;
                        qk_Reserve := to_array 32 (fst kp) |} |}.

(** The [i]-th 32-byte chunk of the reserve signature, zero padded. *)
Definition sig_chunk (sig : bytes) (i : nat) : bytes :=
  to_array 32 (slice (Nat.min (i * 32) (length sig)) (Nat.min ((i + 1) * 32) (length sig)) sig).

Definition QdayPrivateKeys_Sign (k : QdayPrivateKeys) (h : Hash256) : outcome SatisfiedPolicy :=
  sig ← slhdsa_SignDeterministic (qp_Reserve k) h qdaySignatureContext;
  _ ← fail_if (negb (length sig =? QdaySignatureSize)%nat) "unexpected SLH-DSA signature length";
  Ok {| sat_Policy := QdayKeys_Policy (qp_Public k);
        sat_Signatures := [SignHash (qp_Classical k) h];
        sat_Preimages := map (sig_chunk sig) (seq 0 QdaySignatureChunks) |}.

(** ** Atomic swaps *)
Record QdayAtomicSwap := {
  sw_Recipient : QdayKeys; sw_Refund : QdayKeys; sw_SecretHash : Hash256; sw_RefundHeight : Z }.

Definition Swap_validate (s : QdayAtomicSwap) : outcome unit :=
  match QdayKeys_Validate (sw_Recipient s) with
  | Err _ => Err "invalid atomic-swap recipient keys"
  | _ =>
      match QdayKeys_Validate (sw_Refund s) with
      | Err _ => Err "invalid atomic-swap refund keys"
      | _ => _ ← fail_if (bool_decide (sw_SecretHash s = zeroHash)) "atomic-swap secret hash is zero";
             fail_if (sw_RefundHeight s =? 0) "atomic-swap refund height is zero"
      end
  end.

Definition claimBranch (s : QdayAtomicSwap) : SpendPolicy :=
  PolicyTypeThreshold 3 [PolicyTypePublicKey (qk_Classical (sw_Recipient s));
    PolicyTypeSLHDSA (qk_Reserve (sw_Recipient s)); PolicyTypeHash (sw_SecretHash s)].
Definition refundBranch (s : QdayAtomicSwap) : SpendPolicy :=
  PolicyTypeThreshold 3 [PolicyTypePublicKey (qk_Classical (sw_Refund s));
    PolicyTypeSLHDSA (qk_Reserve (sw_Refund s)); PolicyTypeAbove (sw_RefundHeight s)].

Definition Swap_Policy (s : QdayAtomicSwap) : outcome SpendPolicy :=
  _ ← Swap_validate s; Ok (PolicyTypeThreshold 1 [claimBranch s; refundBranch s]).
(** The address and the error of [s.Address()]; on an error the source hashes the
    empty policy, whose nil type panics in [EncodeTo]. *)
Definition Swap_Address (s : QdayAtomicSwap) : outcome Address :=
  match Swap_Policy s with
  | Ok p => Ok (SpendPolicy_Address p)
  | _ => Panic "unhandled policy type"
  end.
Definition ClaimPolicy (s : QdayAtomicSwap) : outcome SpendPolicy :=
  _ ← Swap_validate s; Ok (PolicyTypeThreshold 1 [claimBranch s; PolicyOpaque (refundBranch s)]).
Definition RefundPolicy (s : QdayAtomicSwap) : outcome SpendPolicy :=
  _ ← Swap_validate s; Ok (PolicyTypeThreshold 1 [PolicyOpaque (claimBranch s); refundBranch s]).

Definition set_policy (w : SatisfiedPolicy) (p : SpendPolicy) (extra : list bytes) : SatisfiedPolicy :=
  {| sat_Policy := p; sat_Signatures := sat_Signatures w;
     sat_Preimages := sat_Preimages w ++ extra |}.

(** [keys] is a pointer; [None] is nil. *)
Definition Swap_Claim (s : QdayAtomicSwap) (h : Hash256) (keys : option QdayPrivateKeys)
    (secret : bytes) : outcome SatisfiedPolicy :=
  match keys with
  | None => Err "atomic-swap claim keys do not match recipient"
  | Some k =>
      _ ← fail_if (negb (bool_decide (qp_Public k = sw_Recipient s)))
            "atomic-swap claim keys do not match recipient";
      _ ← fail_if (negb (bool_decide (sha256_Sum256 secret = sw_SecretHash s)))
            "atomic-swap secret does not match hashlock";
      w ← QdayPrivateKeys_Sign k h;
      p ← ClaimPolicy s;
      Ok (set_policy w p [secret])
  end.

Definition RefundSpend (s : QdayAtomicSwap) (h : Hash256) (keys : option QdayPrivateKeys)
    : outcome SatisfiedPolicy :=
  match keys with
  | None => Err "atomic-swap refund keys do not match sender"
  | Some k =>
      _ ← fail_if (negb (bool_decide (qp_Public k = sw_Refund s)))
            "atomic-swap refund keys do not match sender";
      w ← QdayPrivateKeys_Sign k h;
      p ← RefundPolicy s;
      Ok (set_policy w p [])
  end.

Definition IsQdayNativePolicy (p : SpendPolicy) : bool :=
  match p with
  | PolicyTypeThreshold n [PolicyTypePublicKey _; PolicyTypeSLHDSA _] => n =? 2
  | _ => false
  end.

Definition is_opaque (p : SpendPolicy) : bool :=
  match p with PolicyTypeOpaque _ => true | _ => false end.

(** The checks on the revealed branch. *)
Definition is_swap_branch (branch : SpendPolicy) : bool :=
  match branch with
  | PolicyTypeThreshold n [PolicyTypePublicKey _; PolicyTypeSLHDSA _; PolicyTypeHash lock] =>
      (n =? 3) && negb (bool_decide (lock = zeroHash))
  | PolicyTypeThreshold n [PolicyTypePublicKey _; PolicyTypeSLHDSA _; PolicyTypeAbove lock] =>
      (n =? 3) && negb (lock =? 0)
  | _ => false
  end.

Definition IsQdaySwapSpendPolicy (p : SpendPolicy) : bool :=
  match p with
  | PolicyTypeThreshold n [a; b] =>
      (n =? 1) &&
      match is_opaque a, is_opaque b with
      | true, false => is_swap_branch b
      | false, true => is_swap_branch a
      | _, _ => false
      end
  | _ => false
  end.

End Keys.
