(* ===== verification/TypesPolicySpec.v ===== *)
(** * What [SpendPolicy.Verify] accepts

    A declarative specification of satisfaction, the proof that [Verify] decides it,
    and its consequences for the hybrid keys and the atomic swaps. *)
From stdpp Require Import prelude strings.
From Stdlib Require Import ZArith Lia.
From S2P Require Import Prelude TypesCurrency TypesData TypesEncoding TypesHash TypesPolicy SampleCrypto.

#[local] Opaque QdaySignatureChunks.

Definition revealed (p : SpendPolicy) : Prop :=
  match p with PolicyTypeOpaque _ | PolicyTypeUnlockConditions _ => False | _ => True end.

(** Number of sub-policies [Verify] counts, and the width limits of thresholds. *)
Fixpoint policy_weight (p : SpendPolicy) : Z :=
  match p with
  | PolicyTypeThreshold _ l => zlen l + foldr (fun q z => policy_weight q + z) 0 l
  | _ => 0
  end.
Fixpoint policy_narrow (p : SpendPolicy) : Prop :=
  match p with
  | PolicyTypeThreshold _ l => zlen l <= 255 /\ foldr (fun q P => policy_narrow q /\ P) True l
  | _ => True
  end.
(** The [N] of every threshold is a [uint8]. *)
Fixpoint policy_u8 (p : SpendPolicy) : Prop :=
  match p with
  | PolicyTypeThreshold n l => is_u8 n /\ foldr (fun q P => policy_u8 q /\ P) True l
  | _ => True
  end.

Lemma policy_weight_nonneg p : 0 <= policy_weight p.
Proof.
  induction p as [| | | | |n l IH| |] using SpendPolicy_ind'; cbn; try lia.
  pose proof (zlen_nonneg l). enough (0 <= foldr (fun q z => policy_weight q + z) 0 l) by lia.
  clear H. induction IH; cbn; lia.
Qed.

Section Spec.
Context {crypto : Crypto}.
Variable height : Z.
Variable medianTimestamp : Time.
Variable sigHash : Hash256.

(** [Sat p sigs pres]: exactly these signatures and preimages, in this order,
    satisfy [p].  In a threshold the revealed sub-policies consume consecutive
    pieces, their number is the threshold, and the others are opaque. *)
Inductive Sat : SpendPolicy -> list Signature -> list bytes -> Prop :=
| Sat_Above h : h <= height -> Sat (PolicyTypeAbove h) [] []
| Sat_After t : t < medianTimestamp -> Sat (PolicyTypeAfter t) [] []
| Sat_PublicKey pk sig :
    VerifyHash pk sigHash sig = true -> Sat (PolicyTypePublicKey pk) [sig] []
| Sat_SLHDSA pk chunks :
    verifyQdayReserve pk sigHash chunks = true -> Sat (PolicyTypeSLHDSA pk) [] chunks
| Sat_Hash pre : Sat (PolicyTypeHash (sha256_Sum256 pre)) [] [pre]
| Sat_Threshold n l sigs pres : SatAll l n sigs pres -> Sat (PolicyTypeThreshold n l) sigs pres
| Sat_UC uc sigs :
    uc_Timelock uc <= height ->
    verify_uc_keys sigHash (uc_PublicKeys uc) (uc_SignaturesRequired uc) sigs = Ok (0, []) ->
    Sat (PolicyTypeUnlockConditions uc) sigs []
with SatAll : list SpendPolicy -> Z -> list Signature -> list bytes -> Prop :=
| SatAll_nil : SatAll [] 0 [] []
| SatAll_opaque a l k sigs pres :
    SatAll l k sigs pres -> SatAll (PolicyTypeOpaque a :: l) k sigs pres
| SatAll_revealed p l k sa pa sb pb :
    revealed p -> Sat p sa pa -> SatAll l k sb pb ->
    SatAll (p :: l) (k + 1) (sa ++ sb) (pa ++ pb).

Lemma SatAll_nonneg l k s p : SatAll l k s p -> 0 <= k.
Proof. induction 1; lia. Qed.

Lemma reserve_length pk h chunks :
  verifyQdayReserve pk h chunks = true -> length chunks = QdaySignatureChunks.
Proof.
  unfold verifyQdayReserve. destruct (_ =? _)%nat eqn:E; cbn [negb]; [|done].
  intros _. by apply Nat.eqb_eq.
Qed.

(** One run of [verify] from [s] to [s'] that satisfies [P] with what it consumed. *)
Definition consumes (P : list Signature -> list bytes -> Prop) (w : Z) (s s' : VerifyState) : Prop :=
  exists sg pr, vs_sigs s = sg ++ vs_sigs s' /\ vs_preimages s = pr ++ vs_preimages s' /\
    P sg pr /\ vs_total s' = vs_total s + w /\ vs_total s' <= maxPolicies.

Definition verify_ok (p : SpendPolicy) : Prop := forall s s', vs_total s <= maxPolicies ->
  verify height medianTimestamp sigHash p s = Ok s' <->
  consumes (Sat p) (policy_weight p) s s' /\ policy_narrow p.

Ltac vs_inv s s' := unfold consumes; destruct s as [S0 P0 T0], s' as [S1 P1 T1];
  cbn [vs_sigs vs_preimages vs_total policy_weight policy_narrow].

Lemma verify_leaf p : (forall n l, p <> PolicyTypeThreshold n l) -> revealed p -> verify_ok p.
Proof.
  intros Hp Hr s s' Htot. destruct p; cbn in Hr; try done; [..|by edestruct Hp]; vs_inv s s';
    cbn [verify vs_sigs vs_preimages vs_total] in *; unfold verify_above.
  - destruct (_ <=? _) eqn:E; (split; [intros H; inv H|intros [(sg & pr & H1 & H2 & H3 & H4 & H5) _]; inv H3]).
    + split; [|done]. exists [], []. split_and!; [done|done|constructor; bool_lia|lia|lia].
    + cbn in *. subst. f_equal. f_equal. lia.
    + bool_lia.
  - unfold time_After. destruct (_ <? _) eqn:E; (split; [intros H; inv H|intros [(sg & pr & H1 & H2 & H3 & H4 & H5) _]; inv H3]).
    + split; [|done]. exists [], []. split_and!; [done|done|constructor; bool_lia|lia|lia].
    + cbn in *. subst. f_equal. f_equal. lia.
    + bool_lia.
  - split.
    + destruct S0 as [|sig sigs]; [done|]. destruct (VerifyHash _ _ _) eqn:E; [|done].
      intros H; inv H. split; [|done]. exists [sig], []. split_and!; [done|done|by constructor|lia|lia].
    + intros [(sg & pr & H1 & H2 & H3 & H4 & H5) _]; inv H3. cbn in *. subst.
      match goal with Hv : VerifyHash _ _ _ = true |- _ => rewrite Hv end. f_equal. f_equal. lia.
  - split.
    + destruct P0 as [|pre pres]; [done|]. case_bool_decide as E; [|done].
      intros H; inv H. split; [|done]. exists [], [pre]. split_and!; [done|done|by constructor|lia|lia].
    + intros [(sg & pr & H1 & H2 & H3 & H4 & H5) _]; inv H3. cbn in *. subst.
      rewrite bool_decide_true by done. f_equal. f_equal. lia.
  - split.
    + destruct (_ <? _)%nat eqn:E1; [done|]. destruct (verifyQdayReserve _ _ _) eqn:E2; [|done].
      cbn. intros H; inv H. split; [|done]. exists [], (take QdaySignatureChunks P0).
      split_and!; [done|by rewrite take_drop|by constructor|lia|lia].
    + intros [(sg & pr & H1 & H2 & H3 & H4 & H5) _]; inv H3. cbn [app] in *. subst.
      match goal with Hv : verifyQdayReserve _ _ _ = true |- _ => rename Hv into H6 end.
      pose proof (reserve_length _ _ _ H6) as Hl.
      rewrite <- Hl, take_app_length, drop_app_length, H6.
      rewrite (proj2 (Nat.ltb_ge _ _)) by (rewrite length_app; lia). cbn. f_equal. f_equal. lia.
Qed.

Lemma verify_children_skip n sp l sat s :
  verify_children (verify height medianTimestamp sigHash) n (sp :: l) sat s =
  match sp with
  | PolicyTypeUnlockConditions _ => Err "unlock conditions cannot be sub-policies"
  | PolicyTypeOpaque _ => verify_children (verify height medianTimestamp sigHash) n l sat s
  | _ => if sat =? n then Err "threshold exceeded"
         else s' ← verify height medianTimestamp sigHash sp s;
              verify_children (verify height medianTimestamp sigHash) n l (u8 (sat + 1)) s'
  end.
Proof. by destruct sp. Qed.

Lemma verify_children_revealed n sp l sat s : revealed sp ->
  verify_children (verify height medianTimestamp sigHash) n (sp :: l) sat s =
  if sat =? n then Err "threshold exceeded"
  else s' ← verify height medianTimestamp sigHash sp s;
       verify_children (verify height medianTimestamp sigHash) n l (u8 (sat + 1)) s'.
Proof. by destruct sp. Qed.

Lemma children_ok n l : is_u8 n -> Forall (fun q => revealed q -> verify_ok q) l ->
  forall sat s s', 0 <= sat <= n -> vs_total s <= maxPolicies ->
  verify_children (verify height medianTimestamp sigHash) n l sat s = Ok s' <->
  consumes (SatAll l (n - sat)) (foldr (fun q z => policy_weight q + z) 0 l) s s' /\
  foldr (fun q P => policy_narrow q /\ P) True l.
Proof.
  intros Hn Hl. induction Hl as [|p l Hp Hl IH]; intros sat s s' Hsat Htot.
  - cbn. destruct (sat =? n) eqn:E.
    + split; [intros H; inv H; split; [|done]; exists [], [];
        replace (n - sat) with 0 by bool_lia; split_and!; [done|done|constructor|lia|lia]|].
      intros [(sg & pr & H1 & H2 & H3 & H4 & H5) _]. inv H3. vs_inv s s'. cbn in *. subst. do 2 f_equal. lia.
    + split; [done|]. intros [(sg & pr & H1 & H2 & H3 & H4 & H5) _]. inv H3. bool_lia.
  - destruct (decide (is_opaque p = true)) as [Ho|Ho].
    { destruct p; try done. rewrite verify_children_skip, IH by done.
      cbn [foldr policy_weight policy_narrow]. unfold consumes.
      split; intros [(sg & pr & H1 & H2 & H3 & H4 & H5) H6].
      - split; [|tauto]. exists sg, pr. split_and!; [done|done|by constructor|lia|lia].
      - split; [|tauto]. exists sg, pr. split_and!; [done|done|by inv H3|lia|lia]. }
    assert (revealed p \/ exists uc, p = PolicyTypeUnlockConditions uc) as [Hr|[uc ->]]
      by (destruct p; cbn; eauto; done).
    2:{ rewrite verify_children_skip. split; [done|].
        intros [(sg & pr & H1 & H2 & H3 & H4 & H5) H6]. by inv H3. }
    rewrite verify_children_revealed by done. pose proof (policy_weight_nonneg p).
    destruct (sat =? n) eqn:E.
    { split; [done|]. intros [(sg & pr & H1 & H2 & H3 & H4 & H5) H6].
      inv H3; try done.
      match goal with Hv : SatAll _ _ _ _ |- _ => pose proof (SatAll_nonneg _ _ _ _ Hv) end. bool_lia. }
    assert (u8 (sat + 1) = sat + 1) as -> by
      (apply Z.mod_small; unfold is_u8 in Hn; apply Z.eqb_neq in E; lia).
    apply Z.eqb_neq in E. split.
    + intros H'. destruct (verify _ _ _ p s) as [s1| |] eqn:E1; try done. cbn in H'.
      apply (Hp Hr) in E1 as [(sg1 & pr1 & A1 & A2 & A3 & A4 & A5) A6]; [|done].
      apply IH in H' as [(sg2 & pr2 & B1 & B2 & B3 & B4 & B5) B6]; [|lia|done].
      split; [|done]. exists (sg1 ++ sg2), (pr1 ++ pr2). cbn [foldr].
      split_and!; [by rewrite A1, B1, app_assoc|by rewrite A2, B2, app_assoc| |lia|lia].
      replace (n - sat) with (n - (sat + 1) + 1) by lia. by constructor.
    + intros [(sg & pr & H1 & H2 & H3 & H4 & H5) [H6 H7]]. cbn [foldr] in *.
      inv H3; try done.
      assert (0 <= foldr (fun q z => policy_weight q + z) 0 l).
      { clear. induction l as [|q l IH]; cbn; [lia|]. pose proof (policy_weight_nonneg q). lia. }
      set (s1 := mkV (sb ++ vs_sigs s') (pb ++ vs_preimages s') (vs_total s + policy_weight p)).
      assert (verify height medianTimestamp sigHash p s = Ok s1) as ->.
      { apply (Hp Hr); [done|]. split; [|done]. exists sa, pa. unfold s1. cbn.
        rewrite H1, H2, !app_assoc. split_and!; done || lia. }
      cbn. apply IH; [lia|unfold s1; cbn; lia|]. split; [|done]. exists sb, pb. unfold s1. cbn.
      split_and!; [done|done|by replace (n - (sat + 1)) with k by lia|lia|lia].
Qed.

Lemma foldr_and_Forall {A} (P : A -> Prop) l : foldr (fun q Q => P q /\ Q) True l <-> Forall P l.
Proof. induction l as [|x l IH]; cbn; [done|]. rewrite Forall_cons, IH. done. Qed.

Lemma verify_ok_all p : policy_u8 p -> revealed p -> verify_ok p.
Proof.
  induction p as [| | | | |n l IH| |] using SpendPolicy_ind'; intros Hu Hr; try by apply verify_leaf.
  destruct Hu as [Hn Hu]. apply foldr_and_Forall in Hu. intros s s' Htot.
  assert (Forall (fun q => revealed q -> verify_ok q) l) as Hl.
  { rewrite Forall_forall in *. auto. }
  cbn [verify policy_weight policy_narrow].
  assert (0 <= foldr (fun q z => policy_weight q + z) 0 l) as Hw.
  { clear. induction l as [|q l IH]; cbn; [lia|]. pose proof (policy_weight_nonneg q). lia. }
  set (st := mkV _ _ _). unfold is_u8 in Hn.
  destruct (_ || _) eqn:E.
  - split; [done|]. intros [(sg & pr & H1 & H2 & H3 & H4 & H5) [H6 H7]]. bool_lia.
  - apply orb_false_iff in E as [E1 E2].
    rewrite (children_ok n l Hn Hl 0 st s') by (unfold st; cbn; bool_lia).
    rewrite Z.sub_0_r. unfold consumes, st. cbn [vs_sigs vs_preimages vs_total].
    split; intros [(sg & pr & H1 & H2 & H3 & H4 & H5) H6].
    + split; [|split; [bool_lia|done]]. exists sg, pr. split_and!; [done|done|by constructor|lia|lia].
    + split; [|tauto]. exists sg, pr. split_and!; [done|done|by inv H3|lia|lia].
Qed.

Lemma zlen_zero {A} (l : list A) : (0 <? zlen l) = false <-> l = [].
Proof. destruct l; unfold zlen; cbn [length]; split; intros; done || bool_lia. Qed.

Lemma Verify_ok_iff p sigs pres :
  Verify height medianTimestamp sigHash p sigs pres = Ok tt <->
  exists t, verify height medianTimestamp sigHash p (mkV sigs pres 0) = Ok (mkV [] [] t).
Proof.
  unfold Verify. destruct (verify _ _ _ _ _) as [[sg pr t]| |]; cbn; [|split; [done|by intros [? ?]]..].
  destruct (0 <? zlen sg) eqn:E1; cbn; [split; [done|intros [? H]; inv H; discriminate E1]|].
  destruct (0 <? zlen pr) eqn:E2; cbn; [split; [done|intros [? H]; inv H; discriminate E2]|].
  apply zlen_zero in E1, E2. subst. split; eauto.
Qed.

(** [Verify] decides satisfaction: it accepts exactly the policies that the given
    signatures and preimages satisfy and that respect the complexity limits. *)
Lemma Verify_Sat p sigs pres : policy_u8 p ->
  Verify height medianTimestamp sigHash p sigs pres = Ok tt <->
  Sat p sigs pres /\ policy_weight p <= maxPolicies /\ policy_narrow p.
Proof.
  intros Hu. rewrite Verify_ok_iff.
  assert (revealed p \/ is_opaque p = true \/ exists uc, p = PolicyTypeUnlockConditions uc)
    as [Hr|[Ho|[uc ->]]] by (destruct p; cbn; eauto).
  - pose proof (fun t => verify_ok_all p Hu Hr (mkV sigs pres 0) (mkV [] [] t)
      ltac:(unfold maxPolicies; cbn; lia)) as Hv. setoid_rewrite Hv.
    unfold consumes. cbn [vs_sigs vs_preimages vs_total]. setoid_rewrite app_nil_r. split.
    + intros (t & (sg & pr & -> & -> & H3 & -> & H5) & H6). split_and!; [done|lia|done].
    + intros (H1 & H2 & H3). exists (policy_weight p). split; [|done].
      exists sigs, pres. split_and!; [done|done|done|lia|lia].
  - destruct p; try done. split; [by intros [? ?]|intros [H _]; inv H].
  - cbn [verify policy_weight policy_narrow]. unfold verify_uc, verify_above. split.
    + intros [t H]. destruct (_ <=? _) eqn:E; [|done]. cbn in H.
      destruct (verify_uc_keys _ _ _ _) as [[r sg]| |] eqn:Ek; try done. cbn in H.
      destruct (r =? 0) eqn:Er; [|done]. inv H. apply Z.eqb_eq in Er. subst.
      split_and!; [constructor; [bool_lia|done]|unfold maxPolicies; lia|done].
    + intros [H _]. inv H. exists 0. destruct (_ <=? _) eqn:E; [|bool_lia]. cbn.
      match goal with Hk : verify_uc_keys _ _ _ _ = _ |- _ => rewrite Hk end. done.
Qed.

(** ** Inversion on concrete thresholds *)

Lemma SatAll_revealed_iff p l k s q : revealed p ->
  SatAll (p :: l) k s q <-> exists sa pa sb pb, s = sa ++ sb /\ q = pa ++ pb /\
    Sat p sa pa /\ SatAll l (k - 1) sb pb.
Proof.
  intros Hr. split.
  - intros H. inv H; [done|]. eexists _, _, _, _. split_and!; try done.
    by replace (k0 + 1 - 1) with k0 by lia.
  - intros (sa & pa & sb & pb & -> & -> & H1 & H2). replace k with (k - 1 + 1) by lia. by constructor.
Qed.

Lemma SatAll_opaque_iff a l k s q : SatAll (PolicyTypeOpaque a :: l) k s q <-> SatAll l k s q.
Proof. split; [intros H; by inv H|by constructor]. Qed.

Lemma SatAll_nil_iff k s q : SatAll [] k s q <-> k = 0 /\ s = [] /\ q = [].
Proof. split; [intros H; by inv H|intros (-> & -> & ->); constructor]. Qed.

Lemma Sat_threshold_iff n l s q : Sat (PolicyTypeThreshold n l) s q <-> SatAll l n s q.
Proof. split; [intros H; by inv H|by constructor]. Qed.

(** The hybrid pair at the head of a threshold consumes one Ed25519 signature and
    the chunks of one SLH-DSA signature. *)
Lemma SatAll_hybrid pk rpk l k s q :
  SatAll (PolicyTypePublicKey pk :: PolicyTypeSLHDSA rpk :: l) k s q <->
  exists sig s' q', s = sig :: s' /\ q = take QdaySignatureChunks q ++ q' /\
    VerifyHash pk sigHash sig = true /\
    verifyQdayReserve rpk sigHash (take QdaySignatureChunks q) = true /\ SatAll l (k - 2) s' q'.
Proof.
  rewrite SatAll_revealed_iff by done.
  setoid_rewrite (fun k s q => SatAll_revealed_iff (PolicyTypeSLHDSA rpk) l k s q I). split.
  - intros (? & ? & ? & ? & -> & -> & H1 & sa & pa & sb & pb & -> & -> & H2 & H3). inv H1. inv H2.
    match goal with Hv : verifyQdayReserve _ _ _ = true |- _ =>
      pose proof (reserve_length _ _ _ Hv) as Hl end.
    exists sig, sb, pb. rewrite <- Hl. cbn [app]. rewrite take_app_length.
    replace (k - 2) with (k - 1 - 1) by lia. done.
  - intros (sig & s' & q' & -> & Hq & H1 & H2 & H3).
    exists [sig], [], s', q. split_and!; [done|done|by constructor|].
    exists [], (take QdaySignatureChunks q), s', q'. split_and!; [done|done|by constructor|].
    by replace (k - 1 - 1) with (k - 2) by lia.
Qed.
End Spec.

(** ** Hybrid keys and swaps *)
Section Hybrid.
Context {crypto : Crypto}.
Variable height : Z.
Variable medianTimestamp : Time.
Variable sigHash : Hash256.

(** One Ed25519 signature and one complete SLH-DSA signature by [k]. *)
Definition hybrid_signed (k : QdayKeys) (sigs : list Signature) (pres : list bytes) : Prop :=
  exists sig, sigs = [sig] /\ VerifyHash (qk_Classical k) sigHash sig = true /\
    verifyQdayReserve (qk_Reserve k) sigHash (take QdaySignatureChunks pres) = true.

Lemma Sat_native_iff k sigs pres :
  Sat height medianTimestamp sigHash (QdayKeys_Policy k) sigs pres <->
  hybrid_signed k sigs pres /\ length pres = QdaySignatureChunks.
Proof.
  unfold QdayKeys_Policy, hybrid_signed. rewrite Sat_threshold_iff, SatAll_hybrid.
  setoid_rewrite SatAll_nil_iff. split.
  - intros (sig & s' & q' & -> & Hq & H1 & H2 & _ & -> & ->). split; [eauto|].
    rewrite app_nil_r in Hq. rewrite Hq. by apply reserve_length in H2.
  - intros ((sig & -> & H1 & H2) & Hl). exists sig, [], []. split_and!; try done.
    by rewrite take_ge, app_nil_r by lia.
Qed.

(** A three-way branch whose last sub-policy consumes no signature. *)
Lemma Sat_branch_iff k lock sigs pres : revealed lock ->
  (forall sg pr, Sat height medianTimestamp sigHash lock sg pr -> sg = []) ->
  Sat height medianTimestamp sigHash
    (PolicyTypeThreshold 3 [PolicyTypePublicKey (qk_Classical k); PolicyTypeSLHDSA (qk_Reserve k); lock])
    sigs pres <->
  hybrid_signed k sigs pres /\
  Sat height medianTimestamp sigHash lock [] (drop QdaySignatureChunks pres).
Proof.
  intros Hr Hns. rewrite Sat_threshold_iff, SatAll_hybrid. unfold hybrid_signed.
  setoid_rewrite (fun k s q => SatAll_revealed_iff height medianTimestamp sigHash lock [] k s q Hr).
  setoid_rewrite SatAll_nil_iff. split.
  - intros (sig & s' & q' & -> & Hq & H1 & H2 & sa & pa & sb & pb & -> & -> & H3 & _ & -> & ->).
    pose proof (Hns _ _ H3). subst sa. rewrite app_nil_r in Hq. split; [exists sig; eauto|].
    assert (drop QdaySignatureChunks pres = pa) as ->; [|done].
    apply (app_inv_head (take QdaySignatureChunks pres)). by rewrite take_drop.
  - intros ((sig & -> & H1 & H2) & H3). exists sig, [], (drop QdaySignatureChunks pres).
    split_and!; [done|by rewrite take_drop|done|done|].
    exists [], (drop QdaySignatureChunks pres), [], []. split_and!; rewrite ?app_nil_r; done.
Qed.

Lemma Sat_hash_iff h sg pr :
  Sat height medianTimestamp sigHash (PolicyTypeHash h) sg pr <->
  sg = [] /\ exists pre, pr = [pre] /\ h = sha256_Sum256 pre.
Proof. split; [intros H; inv H; eauto|intros (-> & pre & -> & ->); constructor]. Qed.

Lemma Sat_above_iff h sg pr :
  Sat height medianTimestamp sigHash (PolicyTypeAbove h) sg pr <-> sg = [] /\ pr = [] /\ h <= height.
Proof. split; [intros H; by inv H|intros (-> & -> & ?); by constructor]. Qed.

Lemma Sat_claim_iff s sigs pres :
  Sat height medianTimestamp sigHash (claimBranch s) sigs pres <->
  hybrid_signed (sw_Recipient s) sigs pres /\
  exists secret, drop QdaySignatureChunks pres = [secret] /\ sw_SecretHash s = sha256_Sum256 secret.
Proof.
  unfold claimBranch. rewrite Sat_branch_iff, Sat_hash_iff; [|done|intros ? ? H; by inv H]. tauto.
Qed.

Lemma Sat_refund_iff s sigs pres :
  Sat height medianTimestamp sigHash (refundBranch s) sigs pres <->
  hybrid_signed (sw_Refund s) sigs pres /\ length pres = QdaySignatureChunks /\
  sw_RefundHeight s <= height.
Proof.
  unfold refundBranch. rewrite Sat_branch_iff, Sat_above_iff; [|done|intros ? ? H; by inv H].
  split; [intros (H & _ & Hd & Hh)|intros (H & Hl & Hh)]; split_and!; try done.
  - destruct H as (sig & -> & _ & Hr). apply reserve_length in Hr. rewrite length_take in Hr.
    assert (length (drop QdaySignatureChunks pres) = 0)%nat as Hd' by by rewrite Hd.
    rewrite length_drop in Hd'. lia.
  - by rewrite drop_ge by lia.
Qed.
End Hybrid.

(** C35: [Verify] decides policy satisfaction.  It returns nil exactly when the
    signatures and preimages, consumed in order with none left over, satisfy the
    policy in the declarative sense (the revealed branches of every threshold are
    all satisfied and exactly as many as required, hidden ones opaque, no unlock
    conditions nested), with at most 1024 sub-policies and 255 per threshold. *)
Theorem Verify_decides_satisfaction {crypto : Crypto} height medianTimestamp sigHash p sigs pres :
  policy_u8 p ->
  Verify height medianTimestamp sigHash p sigs pres = Ok tt <->
  Sat height medianTimestamp sigHash p sigs pres /\
  policy_weight p <= maxPolicies /\ policy_narrow p.
Proof. apply Verify_Sat. Qed.

Lemma Verify_decides_satisfaction_witness :
  @Verify Sample.crypto 10 0 [1; 2] (PolicyTypeThreshold 2 [PolicyTypeAbove 4; PolicyTypeOpaque [];
    PolicyTypePublicKey [3]]) [Sample.digest 64 [3; 1; 2]] [] = Ok tt.
Proof.
  apply (@Verify_decides_satisfaction Sample.crypto); [|split_and!].
  - repeat split; discriminate || reflexivity.
  - constructor. change 2 with (1 + 1). apply (SatAll_revealed _ _ _ _ _ _ [] []); [done|constructor; lia|].
    apply SatAll_opaque. change 1 with (0 + 1).
    apply (SatAll_revealed _ _ _ _ _ _ [Sample.digest 64 [3; 1; 2]] [] [] []); [done| |constructor].
    constructor. vm_compute. reflexivity.
  - vm_compute. discriminate.
  - repeat split; vm_compute; discriminate.
Defined.

(** The hybrid branch of a swap policy with its lock. *)
Definition swap_branch (k : QdayKeys) (lock : SpendPolicy) : SpendPolicy :=
  PolicyTypeThreshold 3 [PolicyTypePublicKey (qk_Classical k); PolicyTypeSLHDSA (qk_Reserve k); lock].

(** [p] is the native policy of [k], or reveals one branch of [k] with this lock. *)
Inductive reveals_keys (p : SpendPolicy) (k : QdayKeys) : option SpendPolicy -> Prop :=
| reveals_native : p = QdayKeys_Policy k -> reveals_keys p k None
| reveals_left a lock :
    p = PolicyTypeThreshold 1 [swap_branch k lock; PolicyTypeOpaque a] -> reveals_keys p k (Some lock)
| reveals_right a lock :
    p = PolicyTypeThreshold 1 [PolicyTypeOpaque a; swap_branch k lock] -> reveals_keys p k (Some lock).

Lemma native_shape p : IsQdayNativePolicy p = true -> exists k, p = QdayKeys_Policy k.
Proof.
  destruct p as [| | | | |n [|[] [|[] [|]]]| |]; try done. cbn. intros H. apply Z.eqb_eq in H as ->.
  by exists {| qk_Classical := pk; qk_Reserve := pk0 |}.
Qed.

Definition is_lock (p : SpendPolicy) : Prop :=
  match p with PolicyTypeHash _ | PolicyTypeAbove _ => True | _ => False end.

Lemma branch_shape p : is_swap_branch p = true -> exists k lock, p = swap_branch k lock /\ is_lock lock.
Proof.
  destruct p as [| | | | |n [|[] [|[] [|[] [|]]]]| |]; try done;
    cbn; intros H; apply andb_true_iff in H as [H _]; apply Z.eqb_eq in H as ->;
    eexists {| qk_Classical := _; qk_Reserve := _ |}, _; done.
Qed.

Lemma swap_shape p : IsQdaySwapSpendPolicy p = true ->
  exists k lock, reveals_keys p k (Some lock) /\ is_lock lock.
Proof.
  destruct p as [| | | | |n [|a [|b [|]]]| |]; try done. cbn [IsQdaySwapSpendPolicy].
  intros H. apply andb_true_iff in H as [Hn H]. apply Z.eqb_eq in Hn as ->.
  destruct (is_opaque a) eqn:Ea, (is_opaque b) eqn:Eb; try done;
    apply branch_shape in H as (k & lock & -> & Hl); exists k, lock; (split; [|done]).
  - destruct a; try done. by eapply reveals_right.
  - destruct b; try done. by eapply reveals_left.
Qed.

Lemma Sat_reveals {crypto : Crypto} height mt h p k lock sigs pres :
  reveals_keys p k (Some lock) -> Sat height mt h p sigs pres ->
  Sat height mt h (swap_branch k lock) sigs pres.
Proof.
  intros Hr Hs. inv Hr; apply Sat_threshold_iff in Hs.
  - apply SatAll_revealed_iff in Hs as (sa & pa & sb & pb & -> & -> & H1 & H2); [|done].
    apply SatAll_opaque_iff, SatAll_nil_iff in H2 as (_ & -> & ->). by rewrite !app_nil_r.
  - apply SatAll_opaque_iff, SatAll_revealed_iff in Hs
      as (sa & pa & sb & pb & -> & -> & H1 & H2); [|done].
    apply SatAll_nil_iff in H2 as (_ & -> & ->). by rewrite !app_nil_r.
Qed.

Lemma shape_u8 p k o : reveals_keys p k o -> from_option is_lock True o -> policy_u8 p.
Proof. intros Hr Hl. inv Hr; cbn; unfold is_u8; repeat split; lia || by destruct lock. Qed.

(** The part of the spend beyond the two signatures: nothing for a native policy, the
    preimage of the hash lock, or the refund height. *)
Definition lock_met {crypto : Crypto} (height : Z) (lock : option SpendPolicy) (pres : list bytes)
    : Prop :=
  match lock with
  | None => length pres = QdaySignatureChunks
  | Some (PolicyTypeHash h) => exists secret,
      drop QdaySignatureChunks pres = [secret] /\ h = sha256_Sum256 secret
  | Some (PolicyTypeAbove h) => drop QdaySignatureChunks pres = [] /\ h <= height
  | Some _ => False
  end.

(** A policy whose revealed keys both signed, with its lock opened. *)
Definition hybrid_authorised {crypto : Crypto} (height : Z) (sigHash : Hash256) (p : SpendPolicy)
    (sigs : list Signature) (pres : list bytes) : Prop :=
  exists k lock, reveals_keys p k lock /\ hybrid_signed sigHash k sigs pres /\
    lock_met height lock pres.

Lemma hybrid_spend {crypto : Crypto} height medianTimestamp sigHash p sigs pres :
  IsQdayNativePolicy p = true \/ IsQdaySwapSpendPolicy p = true ->
  Verify height medianTimestamp sigHash p sigs pres = Ok tt ->
  hybrid_authorised height sigHash p sigs pres.
Proof.
  intros [Hp|Hp] Hv.
  - apply native_shape in Hp as [k ->]. exists k, None. split; [by constructor|].
    apply Verify_Sat in Hv as (Hs & _ & _); [|cbn; unfold is_u8; repeat split; lia].
    by apply Sat_native_iff in Hs.
  - apply swap_shape in Hp as (k & lock & Hr & Hl). exists k, (Some lock). split; [done|].
    apply Verify_Sat in Hv as (Hs & _ & _); [|by eapply shape_u8].
    apply (Sat_reveals _ _ _ _ _ _ _ _ Hr) in Hs.
    apply Sat_branch_iff in Hs as [H1 H2]; [|by destruct lock|by destruct lock; try done; intros ? ? Hx; inv Hx].
    split; [done|]. destruct lock; try done.
    + by apply Sat_above_iff in H2 as (_ & ? & ?).
    + by apply Sat_hash_iff in H2 as (_ & ?).
Qed.

(** No spend under the two policy shapes the consensus rules admit succeeds on
    one signature scheme alone.  If a native policy or a swap spend policy verifies,
    the policy names a pair of keys such that the only Ed25519 signature is valid
    for the classical key and the SLH-DSA reserve signature is valid for the reserve
    key, both over the same hash; a swap additionally reveals the hash preimage or
    has reached its refund height. *)
Theorem hybrid_spend_needs_both {crypto : Crypto} height medianTimestamp sigHash p sigs pres :
  IsQdayNativePolicy p = true \/ IsQdaySwapSpendPolicy p = true ->
  Verify height medianTimestamp sigHash p sigs pres = Ok tt ->
  exists k lock, reveals_keys p k lock /\ hybrid_signed sigHash k sigs pres /\
    lock_met height lock pres.
Proof. exact (hybrid_spend height medianTimestamp sigHash p sigs pres). Qed.

(** Sample keys and their signatures over the hash [1; 2; 3]. *)
Definition ex_seed (x : Z) : bytes := replicate 32 x.
Definition ex_private (x : Z) : QdayPrivateKeys :=
  match @QdayKeysFromSeed Sample.crypto (ex_seed x) with
  | Ok k => k
  | _ => {| qp_Classical := []; qp_Reserve := []; qp_Public := {| qk_Classical := []; qk_Reserve := [] |} |}
  end.
Definition ex_signed (x : Z) : SatisfiedPolicy :=
  match @QdayPrivateKeys_Sign Sample.crypto (ex_private x) [1; 2; 3] with
  | Ok w => w
  | _ => {| sat_Policy := AnyoneCanSpend; sat_Signatures := []; sat_Preimages := [] |}
  end.

Lemma hybrid_spend_needs_both_witness :
  exists k lock, reveals_keys (sat_Policy (ex_signed 5)) k lock /\
    @hybrid_signed Sample.crypto [1; 2; 3] k (sat_Signatures (ex_signed 5)) (sat_Preimages (ex_signed 5)).
Proof.
  destruct (@hybrid_spend_needs_both Sample.crypto 7 0 [1; 2; 3] (sat_Policy (ex_signed 5))
    (sat_Signatures (ex_signed 5)) (sat_Preimages (ex_signed 5))) as (k & lock & H1 & H2 & _).
  - left. vm_compute. reflexivity.
  - vm_compute. reflexivity.
  - exists k, lock. split; [exact H1|exact H2].
Defined.

(** C36: an atomic swap pays exactly one of two parties.  For a valid swap, the claim
    and refund policies both spend the swap's address; the claim verifies if and only
    if it carries the recipient's two signatures and the preimage of the hash lock,
    at any height; the refund verifies if and only if it carries the sender's two
    signatures, nothing else, and the refund height is reached. *)
Theorem swap_spend_exact {crypto : Crypto} s height medianTimestamp sigHash sigs pres :
  Swap_validate s = Ok tt ->
  exists full claim refund,
    Swap_Policy s = Ok full /\ ClaimPolicy s = Ok claim /\ RefundPolicy s = Ok refund /\
    SpendPolicy_Address claim = SpendPolicy_Address full /\
    SpendPolicy_Address refund = SpendPolicy_Address full /\
    (Verify height medianTimestamp sigHash claim sigs pres = Ok tt <->
     hybrid_signed sigHash (sw_Recipient s) sigs pres /\
     exists secret, drop QdaySignatureChunks pres = [secret] /\
       sw_SecretHash s = sha256_Sum256 secret) /\
    (Verify height medianTimestamp sigHash refund sigs pres = Ok tt <->
     hybrid_signed sigHash (sw_Refund s) sigs pres /\
     length pres = QdaySignatureChunks /\ sw_RefundHeight s <= height).
Proof.
  intros Hv. unfold Swap_Policy, ClaimPolicy, RefundPolicy. rewrite Hv. cbn [mbind outcome_bind].
  eexists _, _, _. split_and!; [done|done|done|done|done|..].
  - rewrite Verify_Sat by (cbn; unfold is_u8; repeat split; lia).
    rewrite Sat_threshold_iff, SatAll_revealed_iff by done.
    unfold PolicyOpaque, refundBranch at 1. setoid_rewrite SatAll_opaque_iff.
    setoid_rewrite SatAll_nil_iff. rewrite <- Sat_claim_iff. split.
    + intros ((sa & pa & sb & pb & -> & -> & H & _ & -> & ->) & _). by rewrite !app_nil_r.
    + intros H. split; [exists sigs, pres, [], []; by rewrite !app_nil_r|].
      split; [vm_compute; discriminate|]. repeat split; vm_compute; discriminate.
  - rewrite Verify_Sat by (cbn; unfold is_u8; repeat split; lia).
    unfold PolicyOpaque, claimBranch at 1.
    rewrite Sat_threshold_iff, SatAll_opaque_iff, SatAll_revealed_iff by done.
    setoid_rewrite SatAll_nil_iff. rewrite <- Sat_refund_iff. split.
    + intros ((sa & pa & sb & pb & -> & -> & H & _ & -> & ->) & _). by rewrite !app_nil_r.
    + intros H. split; [exists sigs, pres, [], []; by rewrite !app_nil_r|].
      split; [vm_compute; discriminate|]. repeat split; vm_compute; discriminate.
Qed.

Definition ex_secret : bytes := replicate 32 77.
Definition ex_swap : QdayAtomicSwap :=
  {| sw_Recipient := qp_Public (ex_private 5); sw_Refund := qp_Public (ex_private 6);
     sw_SecretHash := Sample.digest 32 ex_secret; sw_RefundHeight := 100 |}.

Lemma swap_spend_exact_witness :
  exists full claim, Swap_Policy ex_swap = Ok full /\
    @ClaimPolicy Sample.crypto ex_swap = Ok claim /\
    @SpendPolicy_Address Sample.crypto claim = @SpendPolicy_Address Sample.crypto full.
Proof.
  destruct (@swap_spend_exact Sample.crypto ex_swap 5 0 [1] [] []) as
    (full & claim & refund & H1 & H2 & H3 & H4 & _).
  - vm_compute. reflexivity.
  - exists full, claim. split; [exact H1|]. split; [exact H2|exact H4].
Defined.

(** ** Signing *)

Lemma QdaySignatureChunks_val : QdaySignatureChunks = 246%nat.
Proof. vm_compute. reflexivity. Qed.

Lemma sig_chunk_full sig i : ((i + 1) * 32 <= length sig)%nat ->
  sig_chunk sig i = take 32 (drop (i * 32) sig).
Proof.
  intros Hi. unfold sig_chunk, slice. rewrite !Nat.min_l by lia.
  replace ((i + 1) * 32 - i * 32)%nat with 32%nat by lia.
  apply to_array_id. rewrite length_take, length_drop. lia.
Qed.

Lemma sig_chunks_prefix sig n : (n * 32 <= length sig)%nat ->
  concat (map (sig_chunk sig) (seq 0 n)) = take (n * 32) sig.
Proof.
  induction n as [|n IH]; intros Hn; [done|].
  rewrite seq_S, map_app, concat_app, IH by lia. cbn [map concat Nat.add].
  rewrite app_nil_r, sig_chunk_full by lia. rewrite take_take_drop. f_equal. lia.
Qed.

Lemma sig_chunks_concat sig : length sig = QdaySignatureSize ->
  concat (map (sig_chunk sig) (seq 0 QdaySignatureChunks)) = sig ++ zeros 16.
Proof.
  unfold QdaySignatureSize. intros Hl. rewrite QdaySignatureChunks_val.
  change 246%nat with (S 245). rewrite seq_S, map_app, concat_app, sig_chunks_prefix by lia.
  cbn [map concat]. rewrite Nat.add_0_l, app_nil_r.
  rewrite <- (take_drop (245 * 32) sig) at 3. rewrite <- app_assoc. f_equal.
  unfold sig_chunk, slice. rewrite (Nat.min_l (245 * 32)), (Nat.min_r ((245 + 1) * 32)) by lia.
  rewrite take_ge by (rewrite length_drop; lia). unfold to_array.
  assert (length (drop (245 * 32) sig) = 16)%nat as Hd by (rewrite length_drop; lia).
  rewrite take_app_ge by lia. f_equal. rewrite Hd. reflexivity.
Qed.

(** The signature schemes accept what they sign, for the keys [k]. *)
Class SchemeCorrect {crypto : Crypto} (k : QdayPrivateKeys) : Prop := {
  ed25519_correct : forall m,
    ed25519_Verify (qk_Classical (qp_Public k)) m (to_array 64 (ed25519_Sign (qp_Classical k) m)) = true;
  slhdsa_key_ok : slhdsa_UnmarshalBinary (qk_Reserve (qp_Public k)) = true;
  slhdsa_correct : forall m ctx, exists sig,
    slhdsa_SignDeterministic (qp_Reserve k) m ctx = Ok sig /\ length sig = QdaySignatureSize /\
    slhdsa_Verify (qk_Reserve (qp_Public k)) m sig ctx = true }.

Lemma Sign_signed {crypto : Crypto} k h `{!SchemeCorrect k} :
  exists w, QdayPrivateKeys_Sign k h = Ok w /\ sat_Policy w = QdayKeys_Policy (qp_Public k) /\
    hybrid_signed h (qp_Public k) (sat_Signatures w) (sat_Preimages w) /\
    length (sat_Preimages w) = QdaySignatureChunks.
Proof.
  destruct (slhdsa_correct h qdaySignatureContext) as (sig & Hs & Hl & Hv).
  unfold QdayPrivateKeys_Sign. rewrite Hs. cbn [mbind outcome_bind].
  rewrite (proj2 (Nat.eqb_eq _ _) Hl). cbn [negb fail_if].
  eexists. split; [done|]. cbn [sat_Policy sat_Signatures sat_Preimages].
  assert (length (map (sig_chunk sig) (seq 0 QdaySignatureChunks)) = QdaySignatureChunks) as Hn
    by by rewrite length_map, length_seq.
  split_and!; [done| |done]. exists (SignHash (qp_Classical k) h). split_and!; [done|apply ed25519_correct|].
  rewrite take_ge by lia. unfold verifyQdayReserve.
  rewrite (proj2 (Nat.eqb_eq _ _) Hn). cbn [negb]. rewrite sig_chunks_concat by done.
  rewrite <- Hl, drop_app_length, take_app_length, Hv, slhdsa_key_ok. reflexivity.
Qed.

Lemma hybrid_signed_app {crypto : Crypto} h k sigs pres extra :
  length pres = QdaySignatureChunks ->
  hybrid_signed h k sigs pres -> hybrid_signed h k sigs (pres ++ extra).
Proof.
  intros Hl (sig & -> & H1 & H2). exists sig. split_and!; [done|done|].
  rewrite <- Hl, take_app_length. by rewrite take_ge in H2 by lia.
Qed.

(** Signing produces spends that verify.  For keys whose schemes accept their
    own signatures, [Sign] yields a witness for the native policy; with the right
    secret, [Claim] yields a witness for the claim policy; and [RefundSpend] one
    that is accepted from the refund height on and rejected before it.  The SLH-DSA
    signature survives its transport as 246 zero-padded 32-byte preimages. *)
Theorem sign_then_verify {crypto : Crypto} k s height medianTimestamp h secret
    `{!SchemeCorrect k} :
  let accepted w :=
    Verify height medianTimestamp h (sat_Policy w) (sat_Signatures w) (sat_Preimages w) = Ok tt in
  (exists w, QdayPrivateKeys_Sign k h = Ok w /\ accepted w) /\
  (Swap_validate s = Ok tt -> qp_Public k = sw_Recipient s -> sha256_Sum256 secret = sw_SecretHash s ->
     exists w, Swap_Claim s h (Some k) secret = Ok w /\ accepted w) /\
  (Swap_validate s = Ok tt -> qp_Public k = sw_Refund s ->
     exists w, RefundSpend s h (Some k) = Ok w /\ (accepted w <-> sw_RefundHeight s <= height)).
Proof.
  intros accepted. unfold accepted.
  destruct (Sign_signed k h) as (w & Hw & Hp & Hh & Hl). split_and!.
  - exists w. split; [done|]. rewrite Hp. apply Verify_Sat; [cbn; unfold is_u8; repeat split; lia|].
    split_and!; [by apply Sat_native_iff|vm_compute; discriminate|].
    repeat split; vm_compute; discriminate.
  - intros Hs Hk Hsec. unfold Swap_Claim. rewrite !bool_decide_true, Hw by done. cbn.
    unfold ClaimPolicy. rewrite Hs. cbn [mbind outcome_bind]. eexists. split; [done|]. cbn [set_policy sat_Policy sat_Signatures sat_Preimages].
    apply Verify_Sat; [cbn; unfold is_u8; repeat split; lia|].
    split_and!; [|vm_compute; discriminate|repeat split; vm_compute; discriminate].
    apply Sat_threshold_iff, SatAll_revealed_iff; [done|].
    eexists _, _, [], []. split_and!; [by rewrite app_nil_r|by rewrite app_nil_r|..].
    + apply Sat_claim_iff. rewrite <- Hk. split; [by apply hybrid_signed_app|].
      exists secret. by rewrite <- Hl, drop_app_length.
    + apply SatAll_opaque_iff, SatAll_nil_iff. done.
  - intros Hs Hk. unfold RefundSpend. rewrite !bool_decide_true, Hw by done. cbn.
    unfold RefundPolicy. rewrite Hs. cbn [mbind outcome_bind]. eexists. split; [done|]. cbn [set_policy sat_Policy sat_Signatures sat_Preimages].
    rewrite app_nil_r, Verify_Sat by (cbn; unfold is_u8; repeat split; lia).
    unfold PolicyOpaque, claimBranch at 1.
    rewrite Sat_threshold_iff, SatAll_opaque_iff, SatAll_revealed_iff by done.
    setoid_rewrite SatAll_nil_iff. split.
    + intros ((sa & pa & sb & pb & _ & _ & H & _) & _). by apply Sat_refund_iff in H as (_ & _ & ?).
    + intros Hh'. split_and!; [|vm_compute; discriminate|repeat split; vm_compute; discriminate].
      eexists _, _, [], []. split_and!; [by rewrite app_nil_r|by rewrite app_nil_r| |done|done|done].
      apply Sat_refund_iff. rewrite <- Hk. done.
Qed.

Lemma sample_scheme_correct x : @SchemeCorrect Sample.crypto (ex_private x).
Proof.
  split.
  - intros m. unfold ed25519_Verify, ed25519_Sign, Sample.crypto, Sample.ed_verify, Sample.ed_sign.
    apply bool_decide_eq_true. unfold Sample.digest. rewrite to_array_id by apply length_le_encode.
    reflexivity.
  - reflexivity.
  - intros m ctx. exists (Sample.digest 32 (qp_Reserve (ex_private x) ++ m ++ ctx) ++ zeros (Z.to_nat 7824)).
    split; [reflexivity|]. split.
    + unfold Sample.digest, zeros, QdaySignatureSize.
      rewrite length_app, length_le_encode, length_replicate. lia.
    + unfold slhdsa_Verify, Sample.crypto, Sample.slh_verify. apply bool_decide_eq_true. do 2 f_equal.
Qed.

Lemma sign_then_verify_witness :
  exists w, @Swap_Claim Sample.crypto ex_swap [1; 2; 3] (Some (ex_private 5)) ex_secret = Ok w /\
    @Verify Sample.crypto 50 0 [1; 2; 3] (sat_Policy w) (sat_Signatures w) (sat_Preimages w) = Ok tt.
Proof.
  destruct (@sign_then_verify Sample.crypto (ex_private 5) ex_swap 50 0 [1; 2; 3] ex_secret
    (sample_scheme_correct 5)) as (_ & Hc & _).
  apply Hc; vm_compute; reflexivity.
Defined.

(** On an invalid swap [Address] never returns the validation error: [Policy]
    fails with an empty policy, and hashing its nil type panics. *)
Theorem Swap_Address_panics_iff_invalid {crypto : Crypto} (s : QdayAtomicSwap) :
  (exists msg, Swap_Address s = Panic msg) <-> (exists e, Swap_validate s = Err e).
Proof.
  unfold Swap_Address, Swap_Policy, Swap_validate, QdayKeys_Validate.
  destruct (_ || _); cbn; [naive_solver|]. destruct (_ || _); cbn; [naive_solver|].
  destruct (bool_decide _); cbn; [naive_solver|]. destruct (_ =? _); cbn; naive_solver.
Qed.
