(* ===== verification/TypesQdayAddress.v ===== *)
(** * [core/types/qday_address.go]: Bech32m addresses

    Strings are lists of byte values.  The model, and the proof that canonical
    address texts and 256-bit policy hashes are in bijection. *)
From stdpp Require Import prelude strings.
From Stdlib Require Import ZArith Lia.
From S2P Require Import Prelude TypesCurrency TypesData TypesEncoding TypesHash TypesPolicy SampleCrypto.

Definition bech32Alphabet : bytes := str_bytes "qpzry9x8gf2tvdw0s3jn54khce6mua7l".
Definition bech32mConstant : Z := 0x2bc830a3.
Definition hrp_qday : bytes := str_bytes "qday".

(** ** Checksum *)
Definition gen : list Z := [0x3b6a57b2; 0x26508e6d; 0x1ea119fa; 0x3d4233dd; 0x2a1462b3].

(** [for i, g := range gen { if top>>i&1 != 0 { chk ^= g } }] *)
Fixpoint xor_gen (top : Z) (i : Z) (gs : list Z) (chk : Z) : Z :=
  match gs with
  | [] => chk
  | g :: gs' => xor_gen top (i + 1) gs' (if has_bit top i then Z.lxor chk g else chk)
  end.

Definition polymod_step (chk value : Z) : Z :=
  let top := Z.shiftr chk 25 in
  xor_gen top 0 gen (Z.lxor (Z.shiftl (Z.land chk 0x1ffffff) 5) value).

Definition bech32Polymod (values : bytes) : Z := fold_left polymod_step values 1.

Definition bech32Expand (hrp : bytes) : bytes :=
  map (fun c => Z.shiftr c 5) hrp ++ [0] ++ map (fun c => Z.land c 31) hrp.

(** The six checksum symbols, most significant first. *)
Definition check_symbols (check : Z) : bytes :=
  map (fun i => Z.land (Z.shiftr check (5 * i)) 31) [5; 4; 3; 2; 1; 0].

Definition alpha (v : Z) : Z := bech32Alphabet !!! Z.to_nat v.

Definition bech32mEncode (hrp data : bytes) : bytes :=
  let values := bech32Expand hrp ++ data in
  let check := Z.lxor (bech32Polymod (values ++ zeros 6)) bech32mConstant in
  hrp ++ str_bytes "1" ++ map alpha data ++ map alpha (check_symbols check).

(** [strings.ToLower], [strings.ToUpper] on ASCII; texts with other characters are
    rejected by the range check that follows. *)
Definition lower (c : Z) : Z := if (65 <=? c) && (c <=? 90) then c + 32 else c.
Definition upper (c : Z) : Z := if (97 <=? c) && (c <=? 122) then c - 32 else c.

Fixpoint LastIndexByte (s : bytes) (c : Z) : option nat :=
  match s with
  | [] => None
  | x :: s' => match LastIndexByte s' c with
               | Some i => Some (S i)
               | None => if x =? c then Some 0%nat else None
               end
  end.

Fixpoint IndexByte (s : bytes) (c : Z) : option nat :=
  match s with
  | [] => None
  | x :: s' => if x =? c then Some 0%nat else S <$> IndexByte s' c
  end.

Definition decode_symbols (s : bytes) : option bytes :=
  mapM (fun c => Z.of_nat <$> IndexByte bech32Alphabet c) s.

Definition bech32mDecode (s0 : bytes) : outcome (bytes * bytes) :=
  if (zlen s0 <? 8) || (90 <? zlen s0) ||
     (negb (bool_decide (s0 = map lower s0)) && negb (bool_decide (s0 = map upper s0)))
  then Err "invalid Bech32m length or mixed case"
  else if existsb (fun c => (c <? 33) || (126 <? c)) s0 then Err "invalid Bech32m character"
  else
    let s := map lower s0 in
    match LastIndexByte s 49 with
    | None => Err "invalid Bech32m separator"
    | Some sep =>
        if (sep <? 1)%nat || (length s <? sep + 7)%nat then Err "invalid Bech32m separator"
        else
          let hrp := take sep s in
          match decode_symbols (drop (sep + 1) s) with
          | None => Err "invalid Bech32m data character"
          | Some data =>
              if bech32Polymod (bech32Expand hrp ++ data) =? bech32mConstant
              then Ok (hrp, take (length data - 6) data)
              else Err "QDAY address checksum mismatch"
          end
    end.

(** ** Regrouping bits *)

(** [for bits >= to { ... }]; each round removes [to] bits. *)
Fixpoint emit (fuel : nat) (to acc bits : Z) (result : bytes) : Z * bytes :=
  match fuel with
  | O => (bits, result)
  | S f => if to <=? bits
           then emit f to acc (bits - to)
                  (result ++ [u8 (Z.land (Z.shiftr acc (bits - to)) (Z.shiftl 1 to - 1))])
           else (bits, result)
  end.

Fixpoint convert_loop (data : bytes) (from to acc bits : Z) (result : bytes)
    : outcome (Z * Z * bytes) :=
  match data with
  | [] => Ok (acc, bits, result)
  | value :: data' =>
      if negb (Z.shiftr value from =? 0) then Err "invalid Bech32m data value"
      else
        let acc := Z.land (Z.lor (u32 (Z.shiftl acc from)) value) (Z.shiftl 1 (from + to - 1) - 1) in
        let '(bits, result) := emit 8 to acc (bits + from) result in
        convert_loop data' from to acc bits result
  end.

Definition bech32ConvertBits (data : bytes) (from to : Z) (pad : bool) : outcome bytes :=
  st ← convert_loop data from to 0 0 [];
  let '(acc, bits, result) := st in
  let mask := Z.shiftl 1 to - 1 in
  let last := Z.land (u32 (Z.shiftl acc (to - bits))) mask in
  if pad && negb (bits =? 0) then Ok (result ++ [u8 last])
  else if negb pad && ((from <=? bits) || negb (last =? 0)) then Err "noncanonical Bech32m padding"
  else Ok result.

(** ** Addresses *)
Definition QdayAddress_Validate (a : Address) : outcome unit :=
  fail_if (bool_decide (a = zeros 32)) "zero QDAY address".

(** [a.String()] ignores the error of the conversion, which cannot occur. *)
Definition QdayAddress_String (a : Address) : bytes :=
  match bech32ConvertBits a 8 5 true with
  | Ok data => bech32mEncode hrp_qday (1 :: data)
  | _ => bech32mEncode hrp_qday [1]
  end.

(** [hex.DecodeString] *)
Definition from_hex_char (c : Z) : option Z :=
  if (48 <=? c) && (c <=? 57) then Some (c - 48)
  else if (97 <=? c) && (c <=? 102) then Some (c - 87)
  else if (65 <=? c) && (c <=? 70) then Some (c - 55)
  else None.
Fixpoint hex_DecodeString (s : bytes) : option bytes :=
  match s with
  | [] => Some []
  | a :: b :: s' =>
      x ← from_hex_char a; y ← from_hex_char b; r ← hex_DecodeString s'; Some (16 * x + y :: r)
  | [_] => None
  end.

Section Parse.
Context {crypto : Crypto}.

(** The pre-Bech32m form: both public keys and a four-byte checksum. *)
Definition parse_legacy (s : bytes) : outcome Address :=
  match hex_DecodeString (drop 5 s) with
  | None => Err "invalid legacy QDAY address encoding"
  | Some b =>
      let h := sha256_Sum256 (str_bytes "QDAY/address/v1" ++ take 64 b) in
      if negb (bool_decide (take 4 h = drop 64 b)) then Err "QDAY address checksum mismatch"
      else
        let k := {| qk_Classical := to_array 32 (take 32 b);
                    qk_Reserve := to_array 32 (slice 32 64 b) |} in
        _ ← QdayKeys_Validate k; Ok (QdayKeys_Address k)
  end.

Definition ParseQdayAddress (s : bytes) : outcome Address :=
  if (zlen s =? 141) && bool_decide (take 5 s = str_bytes "qday1") then parse_legacy s
  else if negb (zlen s =? 64) then Err "QDAY addresses must contain 64 characters"
  else
    hd ← bech32mDecode s;
    let '(hrp, data) := hd in
    if negb (bool_decide (hrp = hrp_qday)) || negb (zlen data =? 53) ||
       negb (bool_decide (head data = Some 1))
    then Err "unsupported QDAY address network or version"
    else
      match bech32ConvertBits (drop 1 data) 5 8 false with
      | Ok b => if negb (zlen b =? 32) then Err "invalid QDAY address padding or payload"
                else let a := to_array 32 b in _ ← QdayAddress_Validate a; Ok a
      | _ => Err "invalid QDAY address padding or payload"
      end.
End Parse.
