(* ===== verification/TypesQdayAddressSpec.v ===== *)
(** * Bech32m addresses: the text and the policy hash determine each other *)
From stdpp Require Import prelude strings.
From Stdlib Require Import ZArith Lia.
From S2P Require Import Prelude TypesCurrency TypesData TypesEncoding TypesHash TypesPolicy.
From S2P Require Import TypesQdayAddress SampleCrypto.

(** ** The checksum is linear over GF(2) *)

Lemma land_lxor_distr a b m : Z.land (Z.lxor a b) m = Z.lxor (Z.land a m) (Z.land b m).
Proof.
  apply Z.bits_inj'. intros n Hn. rewrite !Z.land_spec, !Z.lxor_spec, !Z.land_spec.
  by destruct (Z.testbit a n), (Z.testbit b n), (Z.testbit m n).
Qed.

Lemma lxor_swap a b c d : Z.lxor (Z.lxor a b) (Z.lxor c d) = Z.lxor (Z.lxor a c) (Z.lxor b d).
Proof.
  apply Z.bits_inj'. intros n Hn. rewrite !Z.lxor_spec.
  by destruct (Z.testbit a n), (Z.testbit b n), (Z.testbit c n), (Z.testbit d n).
Qed.

Lemma xor_gen_linear gs t u i a b :
  xor_gen (Z.lxor t u) i gs (Z.lxor a b) = Z.lxor (xor_gen t i gs a) (xor_gen u i gs b).
Proof.
  revert i a b. induction gs as [|g gs IH]; intros i a b; [done|]. cbn [xor_gen].
  rewrite <- IH. f_equal. unfold has_bit. rewrite Z.lxor_spec.
  destruct (Z.testbit t i), (Z.testbit u i); cbn [xorb]; [|..|done].
  - by rewrite lxor_swap, Z.lxor_nilpotent, Z.lxor_0_r.
  - rewrite <- (Z.lxor_0_r b) at 2. by rewrite lxor_swap, Z.lxor_0_r.
  - by rewrite Z.lxor_assoc.
Qed.

Lemma xor_gen_0 gs i chk : xor_gen 0 i gs chk = chk.
Proof.
  revert i. induction gs as [|g gs IH]; intros i; [done|]. cbn [xor_gen]. unfold has_bit.
  by rewrite Z.bits_0, IH.
Qed.

Lemma polymod_step_linear a b x y :
  polymod_step (Z.lxor a b) (Z.lxor x y) = Z.lxor (polymod_step a x) (polymod_step b y).
Proof.
  unfold polymod_step. rewrite Z.shiftr_lxor, <- xor_gen_linear. f_equal.
  by rewrite land_lxor_distr, Z.shiftl_lxor, lxor_swap.
Qed.

Lemma polymod_split cs s t : fold_left polymod_step cs (Z.lxor s t) =
  Z.lxor (fold_left polymod_step (zeros (length cs)) s) (fold_left polymod_step cs t).
Proof.
  revert s t. induction cs as [|c cs IH]; intros s t; [done|]. cbn [fold_left length zeros replicate].
  rewrite <- (Z.lxor_0_l c) at 1. by rewrite polymod_step_linear, IH.
Qed.

Lemma lxor_range a b n : 0 <= n -> 0 <= a < 2 ^ n -> 0 <= b < 2 ^ n -> 0 <= Z.lxor a b < 2 ^ n.
Proof.
  intros Hn Ha Hb. assert (0 <= Z.lxor a b) by (apply Z.lxor_nonneg; lia). split; [done|].
  destruct (Z.eq_dec (Z.lxor a b) 0) as [->|Hne]; [lia|].
  apply Z.log2_lt_pow2; [lia|]. eapply Z.le_lt_trans; [apply Z.log2_lxor; lia|].
  assert (Hl : forall x, 0 <= x < 2 ^ n -> 0 < n -> Z.log2 x < n).
  { intros x Hx Hn'. destruct (Z.eq_dec x 0) as [->|]; [cbn; lia|]. apply Z.log2_lt_pow2; lia. }
  destruct (Z.eq_dec n 0) as [->|]; [cbn in *; assert (a = 0) as -> by lia;
    assert (b = 0) as -> by lia; by destruct Hne|].
  apply Z.max_lub_lt; apply Hl; lia.
Qed.

(** With an empty top, a step appends five bits. *)
Lemma polymod_step_small chk x : 0 <= chk < 2 ^ 25 -> 0 <= x < 32 ->
  polymod_step chk x = 32 * chk + x.
Proof.
  intros Hc Hx. unfold polymod_step.
  assert (Z.shiftr chk 25 = 0) as -> by (rewrite Z.shiftr_div_pow2, Z.div_small; lia).
  rewrite xor_gen_0. change 0x1ffffff with (Z.ones 25).
  rewrite Z.land_ones, Z.mod_small, Z.shiftl_mul_pow2 by lia.
  assert (Z.land (chk * 2 ^ 5) x = 0) as Hz.
  { rewrite <- (Z.mod_small x (2 ^ 5)), <- Z.land_ones by (lia || cbn; lia).
    apply Z.bits_inj'. intros n Hn. rewrite !Z.land_spec, Z.bits_0.
    destruct (Z.ltb_spec n 5).
    - rewrite <- Z.shiftl_mul_pow2, Z.shiftl_spec_low by lia. done.
    - rewrite Z.ones_spec_high by lia. by rewrite !andb_false_r. }
  rewrite <- Z.add_nocarry_lxor by exact Hz. change (2 ^ 5) with 32. lia.
Qed.

Lemma xor_gen_range gs t i z : Forall (fun g => 0 <= g < 2 ^ 30) gs -> 0 <= z < 2 ^ 30 ->
  0 <= xor_gen t i gs z < 2 ^ 30.
Proof.
  intros Hg. revert i z. induction Hg as [|g gs Hg _ IH]; intros i z Hz; [done|].
  cbn [xor_gen]. apply IH. destruct (has_bit _ _); [apply lxor_range; lia|lia].
Qed.

Lemma polymod_step_range chk x : 0 <= chk < 2 ^ 30 -> 0 <= x < 32 ->
  0 <= polymod_step chk x < 2 ^ 30.
Proof.
  intros Hc Hx. apply xor_gen_range; [repeat constructor; cbn; lia|].
  apply lxor_range; [lia| |lia]. change 0x1ffffff with (Z.ones 25).
  rewrite Z.land_ones, Z.shiftl_mul_pow2 by lia.
  pose proof (Z.mod_pos_bound chk (2 ^ 25) ltac:(lia)). lia.
Qed.

Definition symbols_ok (l : bytes) : Prop := Forall (fun x => 0 <= x < 32) l.

Lemma polymod_range l s : symbols_ok l -> 0 <= s < 2 ^ 30 ->
  0 <= fold_left polymod_step l s < 2 ^ 30.
Proof.
  intros Hl. revert s. induction Hl as [|x l Hx _ IH]; intros s Hs; [done|].
  cbn. apply IH, polymod_step_range; lia.
Qed.

(** ** Positional values *)
Definition digits (b : Z) (l : bytes) : Z := fold_left (fun v d => v * b + d) l 0.
Definition digits_ok (b : Z) (l : bytes) : Prop := Forall (fun x => 0 <= x < b) l.

Lemma digits_snoc b l d : digits b (l ++ [d]) = digits b l * b + d.
Proof. unfold digits. by rewrite fold_left_app. Qed.

Lemma digits_nonneg b l : 0 < b -> digits_ok b l -> 0 <= digits b l.
Proof.
  intros Hb. induction l as [|d l IH] using rev_ind; intros Hl; [done|].
  rewrite digits_snoc. apply Forall_app in Hl as [Hl Hd]. inv Hd. specialize (IH Hl). nia.
Qed.

Lemma digits_inj b l l' : 0 < b -> digits_ok b l -> digits_ok b l' -> length l = length l' ->
  digits b l = digits b l' -> l = l'.
Proof.
  intros Hb. revert l'. induction l as [|d l IH] using rev_ind; intros l' Hl Hl' Hlen Hv.
  - by destruct l'.
  - destruct l' as [|d' l' _] using rev_ind; [rewrite length_app in Hlen; cbn in Hlen; lia|].
    rewrite !length_app in Hlen. cbn in Hlen. rewrite !digits_snoc in Hv.
    apply Forall_app in Hl as [Hl Hd]. apply Forall_app in Hl' as [Hl' Hd']. inv Hd. inv Hd'.
    assert (d = d') as -> by (apply (f_equal (fun z => z mod b)) in Hv;
      rewrite !(Z.add_comm (_ * b)), !Z_mod_plus_full, !Z.mod_small in Hv by lia; done).
    f_equal. apply IH; [done|done|lia|nia].
Qed.

(** Six symbols run from the empty state give their base-32 value. *)
Lemma polymod_value l : symbols_ok l -> (length l <= 6)%nat ->
  fold_left polymod_step l 0 = digits 32 l /\ 0 <= digits 32 l < 32 ^ zlen l.
Proof.
  induction l as [|d l IH] using rev_ind; intros Hl Hlen; [done|].
  rewrite length_app in Hlen. cbn in Hlen. apply Forall_app in Hl as [Hl Hd]. inv Hd.
  destruct (IH Hl ltac:(lia)) as [IH1 IH2]. rewrite fold_left_app, digits_snoc, zlen_app. cbn [fold_left].
  rewrite IH1. replace (zlen [d]) with 1 by done. rewrite Z.pow_add_r by (unfold zlen; lia).
  assert (32 ^ zlen l <= 32 ^ 5) by (apply Z.pow_le_mono_r; unfold zlen; lia).
  rewrite polymod_step_small; [split; lia| |lia]. change (32 ^ 5) with (2 ^ 25) in *. lia.
Qed.

Lemma check_symbols_ok c : symbols_ok (check_symbols c).
Proof.
  unfold check_symbols. cbn [map]. change 31 with (Z.ones 5).
  repeat constructor; rewrite Z.land_ones by lia; apply Z.mod_pos_bound; done.
Qed.

Lemma check_symbols_value c : 0 <= c < 2 ^ 30 -> digits 32 (check_symbols c) = c.
Proof.
  intros Hc. unfold check_symbols, digits. cbn [map fold_left]. change 31 with (Z.ones 5).
  rewrite !Z.land_ones, !Z.shiftr_div_pow2 by lia. cbn [Z.mul]. 
  change (2 ^ (5 * 5)) with 33554432. change (2 ^ (5 * 4)) with 1048576.
  change (2 ^ (5 * 3)) with 32768. change (2 ^ (5 * 2)) with 1024.
  change (2 ^ (5 * 1)) with 32. change (2 ^ (5 * 0)) with 1. change (2 ^ 5) with 32.
  change (2 ^ 30) with 1073741824 in Hc. Z.div_mod_to_equations. lia.
Qed.

(** Six symbols complete the checksum exactly when they are the computed ones. *)
Lemma polymod_complete values cs : symbols_ok values -> symbols_ok cs -> length cs = 6%nat ->
  bech32Polymod (values ++ cs) = bech32mConstant <->
  cs = check_symbols (Z.lxor (bech32Polymod (values ++ zeros 6)) bech32mConstant).
Proof.
  intros Hv Hc Hl. unfold bech32Polymod. rewrite !fold_left_app.
  set (s := fold_left polymod_step values 1).
  assert (0 <= s < 2 ^ 30) as Hs by (apply polymod_range; [done|cbn; lia]).
  rewrite <- (Z.lxor_0_r s) at 1. rewrite polymod_split, Hl.
  set (P := fold_left polymod_step (zeros 6) s).
  assert (0 <= P < 2 ^ 30) as HP by (apply polymod_range; [repeat constructor; lia|done]).
  destruct (polymod_value cs Hc ltac:(lia)) as [-> Hr]. set (check := Z.lxor P bech32mConstant).
  assert (0 <= check < 2 ^ 30) by (apply lxor_range; [lia|done|unfold bech32mConstant; lia]).
  assert (Z.lxor P (digits 32 cs) = bech32mConstant <-> digits 32 cs = check) as ->.
  { unfold check. split; [intros <-|intros ->];
      by rewrite <- Z.lxor_assoc, Z.lxor_nilpotent, Z.lxor_0_l. }
  rewrite <- (check_symbols_value check) at 1 by done. split; [|by intros ->].
  apply digits_inj; [lia|done|apply check_symbols_ok|done].
Qed.

(** ** Regrouping preserves the value *)

(** [lia] with the positivity of the powers of two in the goal. *)
Ltac plia :=
  repeat match goal with
  | |- context [2 ^ ?n] =>
      lazymatch goal with
      | _ : 0 < 2 ^ n |- _ => fail
      | _ => assert (0 < 2 ^ n) by (apply Z.pow_pos_nonneg; lia)
      end
  end; lia.

Section Regroup.
Variables from to : Z.
Hypothesis Hft : (from = 8 /\ to = 5) \/ (from = 5 /\ to = 8).

(** [result] holds the leading digits of [V], of which [bits] low bits remain. *)
Record grouped (V bits : Z) (result : bytes) : Prop := {
  g_bits : 0 <= bits;
  g_val : digits (2 ^ to) result = V / 2 ^ bits;
  g_ok : digits_ok (2 ^ to) result }.

Lemma mask_land x n : 0 <= n -> Z.land x (Z.shiftl 1 n - 1) = x mod 2 ^ n.
Proof. intros Hn. rewrite Z.shiftl_1_l, <- Z.land_ones by lia. f_equal. rewrite Z.ones_equiv. lia. Qed.

Lemma emit_digit V bits : 0 <= V -> to <= bits <= from + to - 1 ->
  u8 (Z.land (Z.shiftr (V mod 2 ^ (from + to - 1)) (bits - to)) (Z.shiftl 1 to - 1))
  = (V / 2 ^ (bits - to)) mod 2 ^ to.
Proof.
  intros HV Hb. rewrite mask_land by lia. unfold u8.
  rewrite (Z.mod_small _ two8).
  2:{ pose proof (Z.mod_pos_bound (Z.shiftr (V mod 2 ^ (from + to - 1)) (bits - to)) (2 ^ to) ltac:(plia)).
      assert (2 ^ to <= two8) by (apply (Z.pow_le_mono_r 2 to 8); lia). split; [apply H|].
      eapply Z.lt_le_trans; [apply H|done]. }
  apply Z.bits_inj'. intros n Hn.
  destruct (Z.ltb_spec n to).
  - rewrite !Z.mod_pow2_bits_low, Z.shiftr_spec, Z.div_pow2_bits by lia.
    by rewrite Z.mod_pow2_bits_low by lia.
  - by rewrite !Z.mod_pow2_bits_high by lia.
Qed.

Lemma div_mod_pow V b t : 0 <= V -> 0 <= b -> 0 <= t ->
  V / 2 ^ (b + t) * 2 ^ t + (V / 2 ^ b) mod 2 ^ t = V / 2 ^ b.
Proof.
  intros. rewrite Z.pow_add_r, <- Z.div_div by plia.
  pose proof (Z.div_mod (V / 2 ^ b) (2 ^ t) ltac:(plia)). lia.
Qed.

Lemma emit_spec fuel V bits result :
  0 <= V -> bits <= from + to - 1 -> bits < Z.of_nat fuel * to -> grouped V bits result ->
  let '(bits', result') := emit fuel to (V mod 2 ^ (from + to - 1)) bits result in
  grouped V bits' result' /\ bits' < to /\ zlen result' * to + bits' = zlen result * to + bits.
Proof.
  intros HV. revert bits result. induction fuel as [|fuel IH]; intros bits result Hb Hf G.
  - cbn. destruct G. lia.
  - cbn [emit]. destruct (Z.leb_spec to bits) as [Hle|Hgt]; [|split_and!; [done|lia|lia]].
    rewrite emit_digit by lia. set (d := (V / 2 ^ (bits - to)) mod 2 ^ to).
    assert (grouped V (bits - to) (result ++ [d])) as G'.
    { destruct G as [g1 g2 g3]. split; [lia| |].
      - rewrite digits_snoc, g2. unfold d.
        pose proof (div_mod_pow V (bits - to) to ltac:(lia) ltac:(lia) ltac:(lia)) as E.
        by replace (bits - to + to) with bits in E by lia.
      - apply Forall_app. split; [done|]. constructor; [|done]. unfold d. apply Z.mod_pos_bound. plia. }
    specialize (IH (bits - to) (result ++ [d]) ltac:(lia) ltac:(lia) G').
    destruct (emit fuel to _ _ _) as [bits' result']. destruct IH as (I1 & I2 & I3).
    split_and!; [done|done|]. rewrite zlen_app in I3. replace (zlen [d]) with 1 in I3 by done. lia.
Qed.

Lemma acc_step V v : 0 <= V -> 0 <= v < 2 ^ from ->
  Z.land (Z.lor (u32 (Z.shiftl (V mod 2 ^ (from + to - 1)) from)) v) (Z.shiftl 1 (from + to - 1) - 1)
  = (V * 2 ^ from + v) mod 2 ^ (from + to - 1).
Proof.
  intros HV Hv. rewrite mask_land, Z.shiftl_mul_pow2 by lia.
  assert (from + to - 1 = 12) as E12 by lia. rewrite E12.
  pose proof (Z.mod_pos_bound V (2 ^ 12) ltac:(lia)) as Hm.
  assert (0 < 2 ^ from <= 2 ^ 8) as Hp
    by (split; [apply Z.pow_pos_nonneg; lia|apply Z.pow_le_mono_r; lia]).
  unfold u32. rewrite (Z.mod_small _ two32) by (change (2 ^ 12) with 4096 in *; nia).
  assert (Z.lor (V mod 2 ^ 12 * 2 ^ from) v = V mod 2 ^ 12 * 2 ^ from + v) as ->.
  { symmetry. apply Z.add_nocarry_lor. apply Z.bits_inj'. intros n Hn.
    rewrite Z.land_spec, Z.bits_0. destruct (Z.ltb_spec n from).
    - rewrite <- Z.shiftl_mul_pow2, Z.shiftl_spec_low by lia. done.
    - rewrite <- (Z.mod_small v (2 ^ from)) by lia. rewrite Z.mod_pow2_bits_high by lia. apply andb_false_r. }
  by rewrite <- (Zplus_mod_idemp_l (V mod 2 ^ 12 * 2 ^ from)), Zmult_mod_idemp_l, Zplus_mod_idemp_l.
Qed.

Lemma convert_loop_spec data V bits result :
  digits_ok (2 ^ from) data -> 0 <= V -> bits < to -> grouped V bits result ->
  exists W bits' result',
    convert_loop data from to (V mod 2 ^ (from + to - 1)) bits result
      = Ok (W mod 2 ^ (from + to - 1), bits', result') /\
    W = fold_left (fun v d => v * 2 ^ from + d) data V /\ 0 <= W /\ grouped W bits' result' /\ bits' < to /\
    zlen result' * to + bits' = zlen result * to + bits + zlen data * from.
Proof.
  intros Hd. revert V bits result. induction Hd as [|v data Hv Hd IH]; intros V bits result HV Hb G.
  - exists V, bits, result. unfold zlen. cbn. split_and!; done || lia.
  - cbn [convert_loop fold_left].
    assert (Z.shiftr v from = 0) as -> by (rewrite Z.shiftr_div_pow2, Z.div_small; lia).
    cbn [Z.eqb negb]. rewrite acc_step by lia. set (V' := V * 2 ^ from + v).
    assert (0 <= V') by (unfold V'; nia). destruct G as [g1 g2 g3].
    assert (grouped V' (bits + from) result) as G'.
    { split; [lia| |done]. rewrite g2. unfold V'. rewrite (Z.add_comm bits), Z.pow_add_r, <- Z.div_div by plia.
      by rewrite Z.div_add_l, (Z.div_small v), Z.add_0_r by plia. }
    pose proof (emit_spec 8 V' (bits + from) result ltac:(lia) ltac:(lia) ltac:(lia) G') as He.
    destruct (emit 8 to _ _ _) as [b1 r1]. destruct He as (He1 & He2 & He3).
    destruct (IH V' b1 r1 ltac:(lia) He2 He1) as (W & b2 & r2 & E & HW & HW0 & G2 & Hb2 & Hl).
    exists W, b2, r2. split_and!; try done. unfold zlen in *. cbn [length] in *. lia.
Qed.

Lemma convert_spec data : digits_ok (2 ^ from) data ->
  exists bits result,
    convert_loop data from to 0 0 [] = Ok (digits (2 ^ from) data mod 2 ^ (from + to - 1), bits, result) /\
    digits (2 ^ to) result = digits (2 ^ from) data / 2 ^ bits /\ digits_ok (2 ^ to) result /\
    0 <= bits < to /\ zlen result * to + bits = zlen data * from.
Proof.
  intros Hd. assert (grouped 0 0 []) as G by (split; [lia|done|constructor]).
  destruct (convert_loop_spec data 0 0 [] Hd ltac:(lia) ltac:(lia) G)
    as (W & bits & r & E & HW & HW0 & [g1 g2 g3] & Hb & Hl).
  rewrite Z.mod_0_l in E by plia. exists bits, r. unfold digits at 1 3. rewrite <- HW.
  replace (zlen (@nil Z)) with 0 in Hl by done. split_and!; done || lia.
Qed.
End Regroup.

(** 32 bytes become 52 symbols of value 16 times theirs. *)
Lemma convert_8_5 a : bytes_ok a -> length a = 32%nat ->
  exists data, bech32ConvertBits a 8 5 true = Ok data /\ symbols_ok data /\ length data = 52%nat /\
    digits 32 data = digits 256 a * 16.
Proof.
  intros Ha Hl. destruct (convert_spec 8 5 ltac:(lia) a Ha) as (bits & r & E & Hv & Hok & Hb & Hlen).
  unfold bech32ConvertBits. rewrite E. cbn [mbind outcome_bind]. unfold zlen in Hlen. rewrite Hl in Hlen.
  assert (bits = 1) as -> by lia. cbn [negb Z.eqb andb].
  change (5 - 1) with 4. set (V := digits (2 ^ 8) a) in *. rewrite mask_land by lia. unfold u32, u8.
  assert (0 <= V) by (apply digits_nonneg; [lia|done]).
  rewrite Z.shiftl_mul_pow2 by lia. change (2 ^ (8 + 5 - 1)) with 4096.
  change (2 ^ 4) with 16. change (2 ^ 5) with 32 in *. change (2 ^ 1) with 2 in *.
  assert ((V mod 4096 * 16) mod two32 mod 32 mod 256 = V mod 2 * 16) as ->.
  { Z.div_mod_to_equations. lia. }
  eexists. split; [done|]. split_and!.
  - apply Forall_app. split; [done|]. constructor; [|done].
    pose proof (Z.mod_pos_bound V 2 ltac:(lia)). lia.
  - rewrite length_app. cbn. lia.
  - rewrite digits_snoc, Hv. change 256 with (2 ^ 8). fold V. Z.div_mod_to_equations. lia.
Qed.

(** The inverse accepts exactly the values that are multiples of 16. *)
Lemma convert_5_8 data : symbols_ok data -> length data = 52%nat ->
  match bech32ConvertBits data 5 8 false with
  | Ok b => bytes_ok b /\ length b = 32%nat /\ digits 256 b * 16 = digits 32 data
  | _ => digits 32 data mod 16 <> 0
  end.
Proof.
  intros Ha Hl. destruct (convert_spec 5 8 ltac:(lia) data Ha) as (bits & r & E & Hv & Hok & Hb & Hlen).
  unfold bech32ConvertBits. rewrite E. cbn [mbind outcome_bind]. unfold zlen in Hlen. rewrite Hl in Hlen.
  assert (bits = 4) as -> by lia. cbn [negb Z.eqb andb Z.leb Z.compare orb].
  change (8 - 4) with 4. change 32 with (2 ^ 5). set (V := digits (2 ^ 5) data) in *.
  rewrite mask_land by lia. unfold u32.
  assert (0 <= V) by (apply digits_nonneg; [lia|done]).
  rewrite Z.shiftl_mul_pow2 by lia. change (2 ^ (5 + 8 - 1)) with 4096.
  change (2 ^ 4) with 16 in *. change (2 ^ 8) with 256 in *.
  assert ((V mod 4096 * 16) mod two32 mod 256 = V mod 16 * 16) as ->.
  { Z.div_mod_to_equations. lia. }
  change (5 <=? 4) with false. cbn [orb].
  destruct (V mod 16 * 16 =? 0) eqn:E0; cbn [negb].
  - split_and!; [done|lia|]. rewrite Hv. apply Z.eqb_eq in E0. Z.div_mod_to_equations. lia.
  - apply Z.eqb_neq in E0. lia.
Qed.

(** ** The alphabet *)

Lemma alphabet_table : forallb (fun v => let c := alpha (Z.of_nat v) in
    bool_decide (IndexByte bech32Alphabet c = Some v) && (lower c =? c) &&
    (33 <=? c) && (c <=? 126) && negb (c =? 49)) (seq 0 32) = true.
Proof. vm_compute. reflexivity. Qed.

Lemma alpha_spec v : 0 <= v < 32 ->
  IndexByte bech32Alphabet (alpha v) = Some (Z.to_nat v) /\ lower (alpha v) = alpha v /\
  33 <= alpha v <= 126 /\ alpha v <> 49.
Proof.
  intros Hv. pose proof alphabet_table as H. rewrite forallb_forall in H.
  specialize (H (Z.to_nat v) ltac:(apply in_seq; lia)). cbv zeta in H. rewrite Z2Nat.id in H by lia.
  rewrite !andb_true_iff in H. destruct H as ((((H1 & H2) & H3) & H4) & H5).
  apply bool_decide_eq_true in H1. split; [done|]. bool_lia.
Qed.

Lemma IndexByte_some s c i : IndexByte s c = Some i -> (i < length s)%nat /\ s !!! i = c.
Proof.
  revert i. induction s as [|x s IH]; intros i H; [done|]. cbn in H.
  destruct (x =? c) eqn:E; [inv H; split; [cbn; lia|cbn; bool_lia]|].
  apply fmap_Some in H as (j & Hj & ->). destruct (IH j Hj). split; [cbn; lia|done].
Qed.

Lemma decode_symbols_alpha l : symbols_ok l -> decode_symbols (map alpha l) = Some l.
Proof.
  intros Hl. apply mapM_Some. induction Hl as [|v l Hv _ IH]; constructor; [|done].
  destruct (alpha_spec v Hv) as (-> & _). cbn. by rewrite Z2Nat.id by lia.
Qed.

Lemma decode_symbols_inv s l : decode_symbols s = Some l -> symbols_ok l /\ s = map alpha l.
Proof.
  unfold decode_symbols. intros H. apply mapM_Some in H.
  induction H as [|c v s l H _ [IH1 ->]]; [split; [constructor|done]|].
  apply fmap_Some in H as (i & Hi & ->). destruct (IndexByte_some _ _ _ Hi) as [Hlt Ha].
  change (length bech32Alphabet) with 32%nat in Hlt. split; [constructor; [lia|done]|].
  cbn. f_equal. unfold alpha. by rewrite Nat2Z.id.
Qed.

Lemma LastIndexByte_split s c i : LastIndexByte s c = Some i ->
  s = take i s ++ c :: drop (i + 1) s.
Proof.
  revert i. induction s as [|x s IH]; intros i H; [done|]. cbn in H.
  destruct (LastIndexByte s c) as [j|] eqn:E.
  - inv H. cbn. f_equal. by apply IH.
  - destruct (x =? c) eqn:Ex; [|done]. inv H. cbn. f_equal. bool_lia.
Qed.

Lemma LastIndexByte_none s c : Forall (fun x => x <> c) s -> LastIndexByte s c = None.
Proof. induction 1 as [|x s Hx _ IH]; [done|]. cbn. rewrite IH. destruct (x =? c) eqn:E; [bool_lia|done]. Qed.

Lemma LastIndexByte_app p c q : Forall (fun x => x <> c) q ->
  LastIndexByte (p ++ c :: q) c = Some (length p).
Proof.
  intros Hq. induction p as [|x p IH]; cbn.
  - by rewrite LastIndexByte_none, Z.eqb_refl.
  - by rewrite IH.
Qed.

Definition expand_ok : symbols_ok (bech32Expand hrp_qday).
Proof. repeat constructor; vm_compute; congruence. Qed.

(** Decoding under the prefix [qday] accepts exactly the encoder's output. *)
Lemma encode_shape data : symbols_ok data -> exists cs, symbols_ok cs /\ length cs = 6%nat /\
  bech32mEncode hrp_qday data = hrp_qday ++ 49 :: map alpha (data ++ cs) /\
  bech32Polymod (bech32Expand hrp_qday ++ data ++ cs) = bech32mConstant.
Proof.
  intros Hd. unfold bech32mEncode. set (check := Z.lxor _ _). exists (check_symbols check).
  split_and!; [apply check_symbols_ok|done|by rewrite map_app|].
  rewrite app_assoc. apply polymod_complete; [|apply check_symbols_ok|done|done].
  apply Forall_app. split; [apply expand_ok|done].
Qed.

Lemma text_lower l : symbols_ok l -> map lower (hrp_qday ++ 49 :: map alpha l) = hrp_qday ++ 49 :: map alpha l.
Proof.
  intros Hl. rewrite map_app. cbn [map]. f_equal. f_equal.
  rewrite map_map. apply map_ext_Forall. eapply Forall_impl; [exact Hl|].
  intros v Hv. by apply alpha_spec.
Qed.

Lemma text_printable l : symbols_ok l ->
  existsb (fun c => (c <? 33) || (126 <? c)) (hrp_qday ++ 49 :: map alpha l) = false.
Proof.
  intros Hl. rewrite existsb_app. cbn [existsb orb]. change (existsb _ hrp_qday) with false. cbn [orb].
  change ((49 <? 33) || (126 <? 49)) with false. cbn [orb].
  induction Hl as [|v l Hv _ IH]; [done|]. cbn [map existsb]. rewrite IH, orb_false_r.
  destruct (alpha_spec v Hv) as (_ & _ & Hr & _). apply orb_false_iff. split; bool_lia.
Qed.

Lemma decode_encode data : symbols_ok data -> length data = 53%nat ->
  bech32mDecode (bech32mEncode hrp_qday data) = Ok (hrp_qday, data) /\
  length (bech32mEncode hrp_qday data) = 64%nat.
Proof.
  intros Hd Hl. destruct (encode_shape data Hd) as (cs & Hcs & Hlc & -> & Hp).
  assert (symbols_ok (data ++ cs)) as Hall by (apply Forall_app; done).
  assert (length (hrp_qday ++ 49 :: map alpha (data ++ cs)) = 64%nat) as Hlen.
  { rewrite length_app. cbn [length]. rewrite length_map, length_app, Hl, Hlc. done. }
  split; [|done]. unfold bech32mDecode. unfold zlen. rewrite Hlen, text_lower by done.
  cbn [Z.of_nat]. rewrite bool_decide_true by done. cbn [negb andb orb].
  change (Z.of_nat 64 <? 8) with false. change (90 <? Z.of_nat 64) with false. cbn [orb].
  rewrite text_printable by done. rewrite LastIndexByte_app.
  2:{ apply Forall_map. eapply Forall_impl; [exact Hall|]. intros v Hv. by apply alpha_spec. }
  change (length hrp_qday) with 4%nat. rewrite Hlen. cbn [Nat.ltb Nat.leb Nat.add orb].
  change (take 4 (hrp_qday ++ ?x)) with hrp_qday.
  change (drop 5 (hrp_qday ++ 49 :: map alpha (data ++ cs))) with (map alpha (data ++ cs)).
  rewrite decode_symbols_alpha by done. rewrite Hp, Z.eqb_refl.
  rewrite length_app, Hlc, Nat.add_sub, take_app_length. reflexivity.
Qed.

Lemma decode_inv s data : length s = 64%nat -> bech32mDecode s = Ok (hrp_qday, data) ->
  length data = 53%nat ->
  symbols_ok data /\ map lower s = bech32mEncode hrp_qday data.
Proof.
  intros Hls H Hld. unfold bech32mDecode in H. cbv zeta in H. destruct (_ || _ || _); [done|].
  destruct (existsb _ _); [done|]. destruct (LastIndexByte _ _) as [sep|] eqn:Es; [|done].
  destruct (_ || _)%nat; [done|]. destruct (decode_symbols _) as [l|] eqn:Ed; [|done].
  destruct (_ =? _) eqn:Ep; [|done]. injection H as Hh Ht. apply Z.eqb_eq in Ep.
  apply LastIndexByte_split in Es. apply decode_symbols_inv in Ed as [Hl Ed].
  rewrite Hh in *. rewrite Ed in Es. subst data.
  assert (length l = 59%nat) as Hll.
  { apply (f_equal length) in Es. rewrite length_map, Hls, length_app in Es.
    change (length hrp_qday) with 4%nat in Es. cbn [length] in Es. rewrite length_map in Es. lia. }
  assert (symbols_ok (take (length l - 6) l)) by by apply Forall_take. split; [done|].
  rewrite Es. set (cs := drop (length l - 6) l).
  assert (symbols_ok cs /\ length cs = 6%nat) as [Hcs Hlc]
    by (split; [by apply Forall_drop|unfold cs; rewrite length_drop; lia]).
  rewrite <- (take_drop (length l - 6) l) in Ep. fold cs in Ep. rewrite app_assoc in Ep.
  apply polymod_complete in Ep; [|apply Forall_app; split; [apply expand_ok|done]|done|done].
  unfold bech32mEncode. rewrite <- Ep. cbn [str_bytes app]. 
  rewrite <- map_app. unfold cs. by rewrite take_drop.
Qed.

Lemma one_symbol : 0 <= 1 < 32.
Proof. lia. Qed.

(** ** Legacy addresses *)
Lemma hex_decode_length n : forall s b, (length s <= n)%nat -> hex_DecodeString s = Some b -> length s = (2 * length b)%nat.
Proof.
  induction n as [|n IH]; intros s b Hn H; destruct s as [|x [|y s]]; cbn in Hn, H; try done; try lia; try (by injection H as <-).
  destruct (from_hex_char x); [|done]. cbn in H. destruct (from_hex_char y); [|done]. cbn in H.
  destruct (hex_DecodeString s) as [r|] eqn:E; [|done]. cbn in H. injection H as <-. cbn. rewrite (IH s r); [lia|lia|done].
Qed.
Lemma legacy_parts (c r x : bytes) : length c = 32%nat -> length r = 32%nat ->
  take 32 (c ++ r ++ x) = c /\ slice 32 64 (c ++ r ++ x) = r /\ take 64 (c ++ r ++ x) = c ++ r /\ drop 64 (c ++ r ++ x) = x.
Proof.
  intros Hc Hr. unfold slice. rewrite drop_app_length' by done. split_and!; [by apply take_app_length'|by apply take_app_length'| |].
  - rewrite app_assoc. apply take_app_length'. rewrite length_app. lia.
  - rewrite app_assoc. apply drop_app_length'. rewrite length_app. lia.
Qed.

Section Legacy.
Context {crypto : Crypto}.
(** The prefix and, in hexadecimal digits of any case, the two public keys, not zero, and the
    first four bytes of their digest. *)
Definition legacy_address (s : bytes) (a : Address) : Prop :=
  length s = 141%nat /\ take 5 s = str_bytes "qday1" /\ exists c r,
    hex_DecodeString (drop 5 s) = Some (c ++ r ++ take 4 (sha256_Sum256 (str_bytes "QDAY/address/v1" ++ c ++ r))) /\
    length c = 32%nat /\ length r = 32%nat /\ c <> zeros 32 /\ r <> zeros 32 /\
    a = QdayKeys_Address {| qk_Classical := c; qk_Reserve := r |}.

Lemma parse_legacy_spec s a : length s = 141%nat -> take 5 s = str_bytes "qday1" ->
  parse_legacy s = Ok a <-> legacy_address s a.
Proof.
  intros Hl Hp. unfold parse_legacy, legacy_address. split.
  - intros H. split_and!; [done|done|]. destruct (hex_DecodeString (drop 5 s)) as [b|] eqn:E; [|done].
    apply (hex_decode_length 136) in E as Hb; [|rewrite length_drop; lia]. rewrite length_drop in Hb.
    assert (exists c r x, b = c ++ r ++ x /\ length c = 32%nat /\ length r = 32%nat) as (c & r & x & -> & Hc & Hr).
    { exists (take 32 b), (take 32 (drop 32 b)), (drop 32 (drop 32 b)). rewrite !take_drop, !length_take, length_drop. split_and!; [done|lia|lia]. }
    destruct (legacy_parts c r x Hc Hr) as (E1 & E2 & E3 & E4). rewrite E1, E2, E3, E4, !to_array_id in H by done.
    destruct (negb _) eqn:Ec; [done|]. apply negb_false_iff, bool_decide_eq_true in Ec. subst x.
    unfold QdayKeys_Validate in H. destruct (fail_if _ _) eqn:Ev; [|done|done]. cbn [mbind outcome_bind] in H. injection H as <-.
    apply fail_if_ok, orb_false_iff in Ev as [V1%bool_decide_eq_false V2%bool_decide_eq_false]. by exists c, r.
  - intros (_ & _ & c & r & -> & Hc & Hr & V1 & V2 & ->).
    destruct (legacy_parts c r (take 4 (sha256_Sum256 (str_bytes "QDAY/address/v1" ++ c ++ r))) Hc Hr) as (E1 & E2 & E3 & E4).
    rewrite E1, E2, E3, E4, !to_array_id, bool_decide_true by done. cbn [negb]. unfold QdayKeys_Validate. cbn [qk_Classical qk_Reserve].
    by rewrite !bool_decide_false.
Qed.
End Legacy.

(** C39: the texts of addresses.  Every nonzero 32-byte hash prints to a 64-character text that
    parses back to it, and every 64-character text that parses is, up to case, the text of the
    hash it parses to: there is one canonical spelling per address, and no corrupted checksum,
    padding, prefix or version is accepted.  A text of another length parses exactly when it is
    a legacy address, the prefix followed by 136 hexadecimal digits of two nonzero public keys
    and their checksum, and then gives the address of these keys. *)
Theorem qday_address_bijection {crypto : Crypto} :
  (forall a, bytes_ok a -> length a = 32%nat -> a <> zeros 32 ->
     ParseQdayAddress (QdayAddress_String a) = Ok a /\ length (QdayAddress_String a) = 64%nat) /\
  (forall s a, length s = 64%nat -> ParseQdayAddress s = Ok a ->
     map lower s = QdayAddress_String a /\ bytes_ok a /\ length a = 32%nat /\ a <> zeros 32) /\
  (forall s a, length s <> 64%nat -> ParseQdayAddress s = Ok a <-> legacy_address s a).
Proof.
  split_and!.
  - intros a Ha Hl Hnz. destruct (convert_8_5 a Ha Hl) as (data & E & Hd & Hld & Hv).
    unfold QdayAddress_String. rewrite E.
    destruct (decode_encode (1 :: data)) as [Hdec Hlen];
      [constructor; [exact one_symbol|done]|cbn; lia|].
    split; [|done]. unfold ParseQdayAddress, zlen. rewrite Hlen, Hdec.
    change (Z.of_nat 64 =? 141) with false. change (Z.of_nat 64 =? 64) with true.
    cbn [andb negb mbind outcome_bind]. rewrite !bool_decide_true by done.
    cbn [length head]. rewrite Hld. change (Z.of_nat 53 =? 53) with true. cbn [negb orb drop]. rewrite drop_0.
    pose proof (convert_5_8 data Hd Hld) as Hc.
    destruct (bech32ConvertBits data 5 8 false) as [b| |];
      [|rewrite Hv, Z.mod_mul in Hc by lia; by destruct Hc..].
    destruct Hc as (Hb & Hlb & Hvb).
    assert (b = a) as -> by (apply (digits_inj 256); [lia|done|done|lia|lia]).
    rewrite Hl. change (Z.of_nat 32 =? 32) with true. cbn [negb]. rewrite to_array_id by done.
    unfold QdayAddress_Validate. by rewrite bool_decide_false.
  - intros s a Hls H. unfold ParseQdayAddress, zlen in H. rewrite Hls in H.
    change (Z.of_nat 64 =? 141) with false in H. change (Z.of_nat 64 =? 64) with true in H.
    cbn [andb negb] in H. destruct (bech32mDecode s) as [[hrp data]| |] eqn:E; [|done|done].
    cbn [mbind outcome_bind] in H. destruct (_ || _ || _) eqn:Ec; [done|].
    rewrite !orb_false_iff, !negb_false_iff, !bool_decide_eq_true in Ec.
    destruct Ec as ((-> & Hld) & Hh). apply Z.eqb_eq in Hld.
    destruct (decode_inv s data Hls E ltac:(lia)) as [Hd Hs]. rewrite Hs.
    destruct data as [|x data]; [done|]. cbn in Hh. injection Hh as ->. cbn [length] in Hld.
    cbn [drop] in H. inv Hd. pose proof (convert_5_8 data ltac:(done) ltac:(lia)) as Hc.
    rewrite drop_0 in H.
    destruct (bech32ConvertBits data 5 8 false) as [b| |]; [|done|done].
    destruct Hc as (Hb & Hlb & Hvb). rewrite Hlb in H. change (Z.of_nat 32 =? 32) with true in H.
    cbn [negb] in H. rewrite to_array_id in H by done. unfold QdayAddress_Validate in H.
    case_bool_decide as Hz; [done|]. cbn in H. injection H as <-.
    split_and!; [|done|done|done]. unfold QdayAddress_String.
    destruct (convert_8_5 b Hb Hlb) as (data' & -> & Hd' & Hld' & Hv').
    f_equal. f_equal. apply (digits_inj 32); [lia|done|done|lia|lia].
  - intros s a Hls. unfold ParseQdayAddress, zlen. destruct (Z.eqb_spec (Z.of_nat (length s)) 64); [lia|]. cbn [negb].
    destruct (Z.eqb_spec (Z.of_nat (length s)) 141) as [Hl|Hl]; cbn [andb]; [case_bool_decide as Hp|].
    + apply parse_legacy_spec; [lia|done].
    + split; [done|]. by intros (_ & ? & _).
    + split; [done|]. intros (? & _). lia.
Qed.

(** A published address of the network and the policy hash it stands for. *)
Definition ex_address_text : bytes :=
  str_bytes "qday1pdsa0ezy7y3nnmnxm0tx74q2kd9acvzs8329wfd2n6ycqnmygtt9stpwtsr".

Example ex_address_roundtrip :
  match @ParseQdayAddress Sample.crypto ex_address_text with
  | Ok a => QdayAddress_String a = ex_address_text
  | _ => False
  end.
Proof. vm_compute. reflexivity. Qed.

(** The legacy text of two keys. *)
Definition ex_legacy_text : bytes :=
  let keys := replicate 32 1 ++ replicate 32 2 in
  str_bytes "qday1" ++ flat_map (fun x => let digit n := if n <? 10 then 48 + n else 87 + n in [digit (x / 16); digit (x mod 16)])
    (keys ++ take 4 (@sha256_Sum256 Sample.crypto (str_bytes "QDAY/address/v1" ++ keys))).

(** The published address parses to a hash whose text it is, and the legacy text to the address
    of its keys. *)
Lemma qday_address_bijection_witness :
  (exists a, @ParseQdayAddress Sample.crypto ex_address_text = Ok a /\
    map lower ex_address_text = QdayAddress_String a /\ length a = 32%nat) /\
  exists a, @ParseQdayAddress Sample.crypto ex_legacy_text = Ok a /\ legacy_address (crypto := Sample.crypto) ex_legacy_text a.
Proof.
  split.
  2: { destruct (@ParseQdayAddress Sample.crypto ex_legacy_text) as [a| |] eqn:E; [|vm_compute in E; discriminate E|vm_compute in E; discriminate E].
    exists a. split; [reflexivity|]. apply (proj2 (proj2 (qday_address_bijection (crypto:=Sample.crypto)))); [vm_compute; discriminate|exact E]. }
  destruct (@ParseQdayAddress Sample.crypto ex_address_text) as [a| |] eqn:E.
  - exists a. split; [reflexivity|].
    destruct (proj1 (proj2 (qday_address_bijection (crypto:=Sample.crypto))) ex_address_text a) as (H1 & _ & H2 & _);
      [reflexivity|exact E|].
    split; [exact H1|exact H2].
  - exfalso. vm_compute in E. discriminate E.
  - exfalso. vm_compute in E. discriminate E.
Defined.
