(* ===== verification/ConsensusWork.v ===== *)
(** * [core/consensus/application.go]: work and targets

    A [Work] and a [BlockID] target are 32 big-endian bytes.  The four-limb loops
    of [Work.add], [sub], [mul64] and [div64] are unrolled. *)
From stdpp Require Import prelude strings.
From Stdlib Require Import ZArith Lia.
From S2P Require Import Prelude TypesCurrency TypesData.

Abbreviation Work := (list Z) (only parsing).

Module Work.

(** [binary.BigEndian.Uint64(w.n[i:])] *)
Definition limb (w : Work) (i : nat) : Z := be_decode (slice i (i + 8) w).
(** The four [PutUint64] calls, in memory order. *)
Definition of_limbs (l0 l1 l2 l3 : Z) : Work :=
  be_encode 8 l0 ++ be_encode 8 l1 ++ be_encode 8 l2 ++ be_encode 8 l3.

Definition Cmp (w v : Work) : Z := bytes_compare w v.

Definition add (w v : Work) : outcome Work :=
  let '(s3, c) := bits.Add64 (limb w 24) (limb v 24) 0 in
  let '(s2, c) := bits.Add64 (limb w 16) (limb v 16) c in
  let '(s1, c) := bits.Add64 (limb w 8) (limb v 8) c in
  let '(s0, c) := bits.Add64 (limb w 0) (limb v 0) c in
  if 0 <? c then Panic "Work.add: overflow" else Ok (of_limbs s0 s1 s2 s3).

Definition sub (w v : Work) : outcome Work :=
  let '(s3, c) := bits.Sub64 (limb w 24) (limb v 24) 0 in
  let '(s2, c) := bits.Sub64 (limb w 16) (limb v 16) c in
  let '(s1, c) := bits.Sub64 (limb w 8) (limb v 8) c in
  let '(s0, c) := bits.Sub64 (limb w 0) (limb v 0) c in
  if 0 <? c then Panic "Work.sub: underflow" else Ok (of_limbs s0 s1 s2 s3).

(** One round: the product limb and the carry [hi + cc]. *)
Definition mul_round (wi v c : Z) : Z * Z :=
  let '(hi, prod) := bits.Mul64 wi v in
  let '(prod, cc) := bits.Add64 prod c 0 in
  (prod, u64 (hi + cc)).

Definition mul64 (w : Work) (v : Z) : outcome Work :=
  let '(p3, c) := mul_round (limb w 24) v 0 in
  let '(p2, c) := mul_round (limb w 16) v c in
  let '(p1, c) := mul_round (limb w 8) v c in
  let '(p0, c) := mul_round (limb w 0) v c in
  if 0 <? c then Panic "Work.mul64: overflow" else Ok (of_limbs p0 p1 p2 p3).

Definition div64 (w : Work) (v : Z) : outcome Work :=
  if v =? 0 then Panic "Work.div64: division by zero" else
  r0 ← bits.Div64 0 (limb w 0) v;
  r1 ← bits.Div64 (snd r0) (limb w 8) v;
  r2 ← bits.Div64 (snd r1) (limb w 16) v;
  r3 ← bits.Div64 (snd r2) (limb w 24) v;
  Ok (of_limbs (fst r0) (fst r1) (fst r2) (fst r3)).

Definition min (w v : Work) : Work := if Cmp w v <? 0 then w else v.
Definition max (w v : Work) : Work := if 0 <? Cmp w v then w else v.

Definition oneWork : Work := be_encode 32 1.

End Work.

(** ** Targets *)
Definition maxTarget : Z := two256 - 1.

(** [i.FillBytes(buf)] for a 32-byte buffer: the absolute value, big-endian; it
    panics when the value does not fit. *)
Definition FillBytes (i : Z) : outcome bytes :=
  if two256 <=? Z.abs i then Panic "math/big: buffer too small to fit value"
  else Ok (be_encode 32 (Z.abs i)).

(** [big.Int.Div]: Euclidean division, panics on zero. *)
Definition big_Div (x y : Z) : outcome Z :=
  if y =? 0 then Panic "division by zero"
  else Ok (if 0 <? y then x / y else - (x / (- y))).

(** [i.BitLen()] *)
Definition BitLen (i : Z) : Z := if i =? 0 then 0 else Z.log2 (Z.abs i) + 1.

Definition invTarget (n : bytes) : outcome bytes :=
  q ← big_Div maxTarget (be_decode n); FillBytes q.

Definition intToTarget (i : Z) : outcome BlockID :=
  FillBytes (if 256 <=? BitLen i then maxTarget else i).

Definition addTarget (x y : BlockID) : outcome BlockID :=
  let xi := be_decode x in
  let yi := be_decode y in
  q ← big_Div (xi * yi) (xi + yi); intToTarget q.

Definition mulTargetFrac (x : BlockID) (n d : Z) : outcome BlockID :=
  q ← big_Div (be_decode x * n) d; intToTarget q.

(** ** The arithmetic is exact *)
Module WorkSpec.

Definition wval (w : Work) : Z := be_decode w.
Definition wok (w : Work) : Prop := length w = 32%nat /\ bytes_ok w.

Lemma limb_range w i : bytes_ok w -> is_u64 (Work.limb w i).
Proof.
  intros Hw. unfold Work.limb, be_decode, is_u64.
  assert (bytes_ok (rev (slice i (i + 8) w))) as Hs.
  { apply Forall_rev. unfold slice. by apply Forall_take, Forall_drop. }
  pose proof (le_decode_range _ Hs) as [H1 H2]. split; [done|].
  eapply Z.lt_le_trans; [exact H2|]. apply (Z.pow_le_mono_r 2 _ 64); [lia|].
  unfold zlen, slice. rewrite length_rev, length_take. lia.
Qed.

Lemma wval_limbs w : wok w ->
  wval w = ((Work.limb w 0 * two64 + Work.limb w 8) * two64 + Work.limb w 16) * two64 + Work.limb w 24.
Proof.
  intros [Hl Hb]. unfold wval, Work.limb, slice. cbn [Nat.add Nat.sub].
  rewrite drop_0.
  assert (w = take 8 w ++ take 8 (drop 8 w) ++ take 8 (drop 16 w) ++ take 8 (drop 24 w)) as E.
  { rewrite (take_ge (drop 24 w)) by (rewrite length_drop; lia).
    change 24%nat with (16 + 8)%nat. rewrite <- (drop_drop w 8 16). rewrite take_drop.
    change 16%nat with (8 + 8)%nat. rewrite <- (drop_drop w 8 8). by rewrite !take_drop. }
  rewrite E at 1. rewrite !be_decode_app. unfold zlen.
  rewrite !length_app, !length_take, !length_drop, Hl. cbn [Nat.add Nat.sub Nat.min].
  change (2 ^ (8 * Z.of_nat 24)) with (two64 * two64 * two64).
  change (2 ^ (8 * Z.of_nat 16)) with (two64 * two64).
  change (2 ^ (8 * Z.of_nat 8)) with two64. lia.
Qed.

Lemma of_limbs_spec a b c d : is_u64 a -> is_u64 b -> is_u64 c -> is_u64 d ->
  wok (Work.of_limbs a b c d) /\
  wval (Work.of_limbs a b c d) = ((a * two64 + b) * two64 + c) * two64 + d.
Proof.
  intros Ha Hb Hc Hd. unfold Work.of_limbs. split.
  - split; [rewrite !length_app, !length_be_encode; done|].
    unfold bytes_ok. rewrite !Forall_app. split_and!; apply bytes_ok_be_encode.
  - unfold wval. rewrite !be_decode_app, !be_decode_encode_8 by done.
    unfold zlen. rewrite !length_app, !length_be_encode. cbn [Nat.add].
    change (2 ^ (8 * Z.of_nat 24)) with (two64 * two64 * two64).
    change (2 ^ (8 * Z.of_nat 16)) with (two64 * two64).
    change (2 ^ (8 * Z.of_nat 8)) with two64. lia.
Qed.

Lemma wval_range w : wok w -> 0 <= wval w < two256.
Proof.
  intros [Hl Hb]. unfold wval, be_decode.
  pose proof (le_decode_range (rev w) (Forall_rev Hb)) as H.
  unfold zlen in H. rewrite length_rev, Hl in H. exact H.
Qed.

Lemma add64_val x y c : is_u64 x -> is_u64 y -> 0 <= c <= 1 ->
  let '(s, co) := bits.Add64 x y c in s + co * two64 = x + y + c /\ is_u64 s /\ 0 <= co <= 1.
Proof.
  intros Hx Hy Hc. pose proof (add64_spec x y c) as H. unfold bits.Add64 in *.
  destruct H as [H1 H2]. unfold is_u64 in *. split_and!; [done|lia|lia|nia|nia].
Qed.

Lemma sub64_val x y c : is_u64 x -> is_u64 y -> 0 <= c <= 1 ->
  let '(s, co) := bits.Sub64 x y c in s - co * two64 = x - y - c /\ is_u64 s /\ 0 <= co <= 1.
Proof.
  intros Hx Hy Hc. unfold bits.Sub64, is_u64, u64 in *. destruct (x <? y + c) eqn:E.
  - rewrite <- (Z.mod_add _ 1) by lia. rewrite Z.mod_small by bool_lia. bool_lia.
  - rewrite Z.mod_small by bool_lia. bool_lia.
Qed.

Ltac limbs w H := pose proof (limb_range w 0 (proj2 H)); pose proof (limb_range w 8 (proj2 H));
  pose proof (limb_range w 16 (proj2 H)); pose proof (limb_range w 24 (proj2 H)).

Lemma add_spec w v : wok w -> wok v ->
  match Work.add w v with
  | Ok r => wok r /\ wval r = wval w + wval v
  | Panic _ => two256 <= wval w + wval v
  | Err _ => False
  end.
Proof.
  intros Hw Hv. rewrite (wval_limbs w), (wval_limbs v) by done. limbs w Hw. limbs v Hv. unfold Work.add.
  pose proof (add64_val (Work.limb w 24) (Work.limb v 24) 0 ltac:(done) ltac:(done) ltac:(lia)) as E3.
  destruct (bits.Add64 _ _ 0) as [s3 c3]. destruct E3 as (E3 & ? & ?).
  pose proof (add64_val (Work.limb w 16) (Work.limb v 16) c3 ltac:(done) ltac:(done) ltac:(lia)) as E2.
  destruct (bits.Add64 _ _ c3) as [s2 c2]. destruct E2 as (E2 & ? & ?).
  pose proof (add64_val (Work.limb w 8) (Work.limb v 8) c2 ltac:(done) ltac:(done) ltac:(lia)) as E1.
  destruct (bits.Add64 _ _ c2) as [s1 c1]. destruct E1 as (E1 & ? & ?).
  pose proof (add64_val (Work.limb w 0) (Work.limb v 0) c1 ltac:(done) ltac:(done) ltac:(lia)) as E0.
  destruct (bits.Add64 _ _ c1) as [s0 c0]. destruct E0 as (E0 & ? & ?).
  destruct (0 <? c0) eqn:E; unfold is_u64 in *.
  - bool_lia.
  - destruct (of_limbs_spec s0 s1 s2 s3) as [Hok ->]; try done. split; [done|]. bool_lia.
Qed.

Lemma sub_spec w v : wok w -> wok v ->
  match Work.sub w v with
  | Ok r => wok r /\ wval r = wval w - wval v
  | Panic _ => wval w < wval v
  | Err _ => False
  end.
Proof.
  intros Hw Hv. rewrite (wval_limbs w), (wval_limbs v) by done. limbs w Hw. limbs v Hv. unfold Work.sub.
  pose proof (sub64_val (Work.limb w 24) (Work.limb v 24) 0 ltac:(done) ltac:(done) ltac:(lia)) as E3.
  destruct (bits.Sub64 _ _ 0) as [s3 c3]. destruct E3 as (E3 & ? & ?).
  pose proof (sub64_val (Work.limb w 16) (Work.limb v 16) c3 ltac:(done) ltac:(done) ltac:(lia)) as E2.
  destruct (bits.Sub64 _ _ c3) as [s2 c2]. destruct E2 as (E2 & ? & ?).
  pose proof (sub64_val (Work.limb w 8) (Work.limb v 8) c2 ltac:(done) ltac:(done) ltac:(lia)) as E1.
  destruct (bits.Sub64 _ _ c2) as [s1 c1]. destruct E1 as (E1 & ? & ?).
  pose proof (sub64_val (Work.limb w 0) (Work.limb v 0) c1 ltac:(done) ltac:(done) ltac:(lia)) as E0.
  destruct (bits.Sub64 _ _ c1) as [s0 c0]. destruct E0 as (E0 & ? & ?).
  destruct (0 <? c0) eqn:E; unfold is_u64 in *.
  - bool_lia.
  - destruct (of_limbs_spec s0 s1 s2 s3) as [Hok ->]; try done. split; [done|]. bool_lia.
Qed.

Lemma mul_round_val x v c : is_u64 x -> is_u64 v -> is_u64 c ->
  let '(p, co) := Work.mul_round x v c in p + co * two64 = x * v + c /\ is_u64 p /\ is_u64 co.
Proof.
  intros Hx Hv Hc. unfold Work.mul_round.
  pose proof (mul64_spec x v) as Hm. destruct (bits.Mul64 x v) as [hi lo]. destruct Hm as [Hm Hlo].
  pose proof (add64_spec lo c 0) as Ha. destruct (bits.Add64 lo c 0) as [p cc]. destruct Ha as [Ha Hp].
  unfold is_u64 in *. assert (0 <= x * v <= (two64 - 1) * (two64 - 1)) by nia.
  assert (0 <= hi <= two64 - 2) by nia.
  assert (0 <= cc <= 1) by lia.
  assert (0 <= hi + cc < two64) as Hr.
  { split; [lia|]. nia. }
  unfold u64. rewrite Z.mod_small by lia. split_and!; lia.
Qed.

Lemma mul64_val w v : wok w -> is_u64 v ->
  match Work.mul64 w v with
  | Ok r => wok r /\ wval r = wval w * v
  | Panic _ => two256 <= wval w * v
  | Err _ => False
  end.
Proof.
  intros Hw Hv. rewrite (wval_limbs w) by done. limbs w Hw. unfold Work.mul64.
  pose proof (mul_round_val (Work.limb w 24) v 0 ltac:(done) Hv ltac:(done)) as E3.
  destruct (Work.mul_round _ _ 0) as [p3 c3]. destruct E3 as (E3 & ? & ?).
  pose proof (mul_round_val (Work.limb w 16) v c3 ltac:(done) Hv ltac:(done)) as E2.
  destruct (Work.mul_round _ _ c3) as [p2 c2]. destruct E2 as (E2 & ? & ?).
  pose proof (mul_round_val (Work.limb w 8) v c2 ltac:(done) Hv ltac:(done)) as E1.
  destruct (Work.mul_round _ _ c2) as [p1 c1]. destruct E1 as (E1 & ? & ?).
  pose proof (mul_round_val (Work.limb w 0) v c1 ltac:(done) Hv ltac:(done)) as E0.
  destruct (Work.mul_round _ _ c1) as [p0 c0]. destruct E0 as (E0 & ? & ?).
  assert ((((Work.limb w 0 * two64 + Work.limb w 8) * two64 + Work.limb w 16) * two64 + Work.limb w 24) * v
    = (((p0 + c0 * two64) * two64 + p1) * two64 + p2) * two64 + p3) as Heq by lia.
  rewrite Heq. destruct (0 <? c0) eqn:E; unfold is_u64 in *.
  - bool_lia.
  - destruct (of_limbs_spec p0 p1 p2 p3) as [Hok ->]; try done. split; [done|]. bool_lia.
Qed.

Lemma Div64_val r x v : 0 <= r < v -> is_u64 x -> is_u64 v ->
  exists q, bits.Div64 r x v = Ok (q, (r * two64 + x) mod v) /\ is_u64 q /\
    r * two64 + x = q * v + (r * two64 + x) mod v /\ 0 <= (r * two64 + x) mod v < v.
Proof.
  intros Hr Hx Hv. unfold bits.Div64, is_u64 in *.
  destruct (v =? 0) eqn:E1; [bool_lia|]. destruct (v <=? r) eqn:E2; [bool_lia|].
  exists ((r * two64 + x) / v). pose proof (Z.mod_pos_bound (r * two64 + x) v ltac:(lia)).
  pose proof (Z.div_mod (r * two64 + x) v ltac:(lia)). split; [done|].
  split; [split; [apply Z.div_pos; lia|apply Z.div_lt_upper_bound; nia]|]. split; [lia|done].
Qed.

Lemma div64_val w v : wok w -> is_u64 v ->
  match Work.div64 w v with
  | Ok r => wok r /\ wval r = wval w / v /\ v <> 0
  | Panic _ => v = 0
  | Err _ => False
  end.
Proof.
  intros Hw Hv. unfold Work.div64. destruct (v =? 0) eqn:Ev; [bool_lia|]. apply Z.eqb_neq in Ev.
  rewrite (wval_limbs w) by done. limbs w Hw.
  destruct (Div64_val 0 (Work.limb w 0) v) as (q0 & -> & ? & D0 & R0); [unfold is_u64 in Hv; lia|done|done|].
  cbn [mbind outcome_bind fst snd]. set (r0 := (0 * two64 + Work.limb w 0) mod v) in *.
  destruct (Div64_val r0 (Work.limb w 8) v) as (q1 & -> & ? & D1 & R1); [done|done|done|].
  cbn [mbind outcome_bind fst snd]. set (r1 := (r0 * two64 + Work.limb w 8) mod v) in *.
  destruct (Div64_val r1 (Work.limb w 16) v) as (q2 & -> & ? & D2 & R2); [done|done|done|].
  cbn [mbind outcome_bind fst snd]. set (r2 := (r1 * two64 + Work.limb w 16) mod v) in *.
  destruct (Div64_val r2 (Work.limb w 24) v) as (q3 & -> & ? & D3 & R3); [done|done|done|].
  cbn [mbind outcome_bind fst snd]. set (r3 := (r2 * two64 + Work.limb w 24) mod v) in *.
  destruct (of_limbs_spec q0 q1 q2 q3) as [Hok ->]; try done. split_and!; [done| |done].
  apply (Z.div_unique_pos _ _ _ r3); [done|]. clearbody r0 r1 r2 r3. lia.
Qed.

(** ** Comparison *)

Lemma bytes_compare_val a b : length a = length b -> bytes_ok a -> bytes_ok b ->
  bytes_compare a b = match Z.compare (be_decode a) (be_decode b) with Lt => -1 | Eq => 0 | Gt => 1 end.
Proof.
  revert b. induction a as [|x a IH]; intros [|y b] Hl Ha Hb; try done. cbn in Hl.
  inv Ha. inv Hb. cbn [bytes_compare]. unfold byte_ok in *.
  assert (forall z l, be_decode (z :: l) = z * 2 ^ (8 * zlen l) + be_decode l) as Hcons.
  { intros z l. change (z :: l) with ([z] ++ l). rewrite be_decode_app. f_equal. f_equal. cbn. lia. }
  assert (forall l, bytes_ok l -> 0 <= be_decode l < 2 ^ (8 * zlen l)) as Hr.
  { intros l Hl'. unfold be_decode. pose proof (le_decode_range (rev l) (Forall_rev Hl')) as H'.
    unfold zlen in *. by rewrite length_rev in H'. }
  rewrite !Hcons. assert (zlen a = zlen b) as El by (unfold zlen; lia). rewrite El.
  pose proof (Hr a ltac:(done)) as Ra. pose proof (Hr b ltac:(done)) as Rb. rewrite El in Ra.
  set (p := 2 ^ (8 * zlen b)) in *.
  destruct (x <? y) eqn:E1; [|destruct (y <? x) eqn:E2].
  - rewrite (proj2 (Z.compare_lt_iff _ _)); [done|]. apply Z.ltb_lt in E1. nia.
  - rewrite (proj2 (Z.compare_gt_iff _ _)); [done|]. apply Z.ltb_lt in E2. nia.
  - assert (x = y) as -> by bool_lia. rewrite IH by (done || lia).
    destruct (Z.compare_spec (be_decode a) (be_decode b)) as [->| |].
    + by rewrite Z.compare_refl.
    + by rewrite (proj2 (Z.compare_lt_iff _ _)) by lia.
    + by rewrite (proj2 (Z.compare_gt_iff _ _)) by lia.
Qed.

Lemma Cmp_val w v : wok w -> wok v ->
  Work.Cmp w v = match Z.compare (wval w) (wval v) with Lt => -1 | Eq => 0 | Gt => 1 end.
Proof. intros [? ?] [? ?]. by apply bytes_compare_val; [congruence|..]. Qed.

Lemma min_val w v : wok w -> wok v ->
  wok (Work.min w v) /\ wval (Work.min w v) = Z.min (wval w) (wval v).
Proof.
  intros Hw Hv. unfold Work.min. rewrite Cmp_val by done.
  destruct (Z.compare_spec (wval w) (wval v)); cbn [Z.ltb Z.compare]; (split; [done|lia]).
Qed.
Lemma max_val w v : wok w -> wok v ->
  wok (Work.max w v) /\ wval (Work.max w v) = Z.max (wval w) (wval v).
Proof.
  intros Hw Hv. unfold Work.max. rewrite Cmp_val by done.
  destruct (Z.compare_spec (wval w) (wval v)); cbn [Z.ltb Z.compare]; (split; [done|lia]).
Qed.

Lemma wok_encode z : 0 <= z < two256 -> wok (be_encode 32 z) /\ wval (be_encode 32 z) = z.
Proof.
  intros Hz. split; [split; [apply length_be_encode|apply bytes_ok_be_encode]|].
  unfold wval, be_decode, be_encode. rewrite rev_involutive, le_decode_encode.
  apply Z.mod_small. exact Hz.
Qed.

Lemma one_val : wok Work.oneWork /\ wval Work.oneWork = 1.
Proof. apply wok_encode. lia. Qed.

End WorkSpec.
