(* ===== verification/ConsensusState.v ===== *)
(** * [core/consensus/state.go]: network parameters, chain state, hashes

    [Network], [State] and [MidState] as records; every method of [State] that does
    not touch the accumulator.  [QdayParams] comes from [qday.go], the accumulator
    record from [merkle.go]. *)
From stdpp Require Import prelude strings gmap.
From Stdlib Require Import ZArith Lia.
From S2P Require Import Prelude TypesCurrency TypesData TypesEncoding TypesHash TypesPolicy.
From S2P Require Import ConsensusWork.

(** ** Parameters *)
Record QdayParams := {
  qd_RulesVersion : Z; qd_Domain : Hash256; qd_Canary : bytes; qd_Reward : Currency;
  qd_ProofFee : Currency; qd_MiningBlocks : Z; qd_PremineAmount : Currency;
  qd_ShieldBlocks : Z; qd_DecayBlocks : Z; qd_DecayStep : Z; qd_ActivationDelay : Z;
  qd_DefendBits : Z; qd_V1Height : Z }.

(** The hardfork structs of the source are flattened. *)
Record Network := {
  n_Name : string; n_Qday : option QdayParams;
  n_InitialCoinbase : Currency; n_MinimumCoinbase : Currency; n_InitialTarget : BlockID;
  n_BlockInterval : Duration; n_MaturityDelay : Z;
  n_DevAddr_Height : Z; n_DevAddr_OldAddress : Address; n_DevAddr_NewAddress : Address;
  n_Tax_Height : Z; n_StorageProof_Height : Z;
  n_Oak_Height : Z; n_Oak_FixHeight : Z; n_Oak_GenesisTimestamp : Time;
  n_ASIC_Height : Z; n_ASIC_OakTime : Duration; n_ASIC_OakTarget : BlockID; n_ASIC_NonceFactor : Z;
  n_Foundation_Height : Z; n_Foundation_PrimaryAddress : Address;
  n_Foundation_FailsafeAddress : Address;
  n_V2_AllowHeight : Z; n_V2_RequireHeight : Z; n_V2_FinalCutHeight : Z;
  n_V2_EphemeralOutputHeight : Z }.

(** [merkle.go]: [ElementAccumulator] *)
Record ElementAccumulator := { ea_Trees : list Hash256; ea_NumLeaves : Z }.
Definition emptyAccumulator : ElementAccumulator :=
  {| ea_Trees := replicate 64 zeroHash; ea_NumLeaves := 0 |}.

Record State := {
  s_QdayHeight : Z; s_Network : Network; s_Index : ChainIndex;
  s_PrevTimestamps : list Time; s_Depth : BlockID; s_ChildTarget : BlockID;
  s_SiafundTaxRevenue : Currency; s_OakTime : Duration; s_OakTarget : BlockID;
  s_FoundationSubsidyAddress : Address; s_FoundationManagementAddress : Address;
  s_TotalWork : Work; s_Difficulty : Work; s_OakWork : Work;
  s_Elements : ElementAccumulator; s_Attestations : Z }.

(** The zero [time.Time] (year 1) is the origin of the time line. *)
Definition GenesisState (n : Network) : outcome State :=
  depth ← intToTarget maxTarget;
  tw ← invTarget depth;
  diff ← invTarget (n_InitialTarget n);
  Ok {| s_QdayHeight := 0; s_Network := n;
        s_Index := {| ci_Height := two64 - 1; ci_ID := zeroHash |};
        s_PrevTimestamps := replicate 11 0; s_Depth := depth; s_ChildTarget := n_InitialTarget n;
        s_SiafundTaxRevenue := Currency.ZeroCurrency; s_OakTime := 0; s_OakTarget := depth;
        s_FoundationSubsidyAddress := n_Foundation_PrimaryAddress n;
        s_FoundationManagementAddress := n_Foundation_FailsafeAddress n;
        s_TotalWork := tw; s_Difficulty := diff; s_OakWork := tw;
        s_Elements := emptyAccumulator; s_Attestations := 0 |}.

Definition childHeight (s : State) : Z := u64 (ci_Height (s_Index s) + 1).

Definition numTimestamps (s : State) : nat :=
  if childHeight s <? 11 then Z.to_nat (childHeight s) else 11%nat.

(** [sort.Slice] by [Before]; times that compare equal are equal. *)
Fixpoint insert_sorted (x : Time) (l : list Time) : list Time :=
  match l with
  | [] => [x]
  | y :: l' => if time_Before y x then y :: insert_sorted x l' else x :: l
  end.
Definition sort_times (l : list Time) : list Time := foldr insert_sorted [] l.

(** Indexing panics when there is no timestamp, at the genesis state. *)
Definition medianTimestamp (s : State) : outcome Time :=
  let ts := sort_times (take (numTimestamps s) (s_PrevTimestamps s)) in
  let n := length ts in
  if Nat.odd n then
    match ts !! (n / 2)%nat with Some t => Ok t | None => Panic "index out of range" end
  else
    match n with
    | O => Panic "index out of range"
    | _ =>
        match ts !! (n / 2 - 1)%nat, ts !! (n / 2)%nat with
        | Some l, Some r => Ok (time_Add l (dur_div (time_Sub r l) 2))
        | _, _ => Panic "index out of range"
        end
    end.

Definition isQday (s : State) : bool := bool_decide (is_Some (n_Qday (s_Network s))).

Definition MaxFutureTimestamp (s : State) (currentTime : Time) : Time :=
  if isQday s && (childHeight s =? 1) &&
     time_Before currentTime (n_Oak_GenesisTimestamp (s_Network s))
  then currentTime else time_Add currentTime (3 * Hour).

Definition SufficientlyHeavierThan (s t : State) : outcome bool :=
  d ← Work.div64 (s_Difficulty t) 5;
  w ← Work.add (s_TotalWork t) d;
  Ok (0 <? Work.Cmp (s_TotalWork s) w).

Definition BlockInterval (s : State) : Duration := n_BlockInterval (s_Network s).

Definition BlockReward (s : State) : outcome Currency :=
  match n_Qday (s_Network s) with
  | Some p =>
      Ok (if (childHeight s =? 0) || (qd_MiningBlocks p <? childHeight s)
          then Currency.ZeroCurrency else qd_Reward p)
  | None =>
      sc ← Currency.Siacoins (u32 (childHeight s));
      let '(r, underflow) := Currency.SubWithUnderflow (n_InitialCoinbase (s_Network s)) sc in
      Ok (if underflow || (Currency.Cmp r (n_MinimumCoinbase (s_Network s)) <? 0)
          then n_MinimumCoinbase (s_Network s) else r)
  end.

Definition PoWTarget (s : State) : outcome BlockID :=
  if childHeight s <? n_V2_FinalCutHeight (s_Network s) then Ok (s_ChildTarget s)
  else invTarget (s_Difficulty s).

Definition MaturityHeight (s : State) : Z := u64 (childHeight s + n_MaturityDelay (s_Network s)).
Definition SiafundCount : Z := 10000.
Definition AncestorDepth : Z := 1000.

(** Integer division and remainder panic on zero. *)
Definition go_div (a b : Z) : outcome Z :=
  if b =? 0 then Panic "integer divide by zero" else Ok (Z.quot a b).
Definition go_mod (a b : Z) : outcome Z :=
  if b =? 0 then Panic "integer divide by zero" else Ok (Z.rem a b).

Definition FoundationSubsidy (s : State) : outcome (option SiacoinOutput) :=
  if isQday s then Ok None
  else if bool_decide (s_FoundationSubsidyAddress s = VoidAddress) then Ok None
  else
    subsidyPerBlock ← Currency.Siacoins 30000;
    d ← go_div (365 * 24 * Hour) (BlockInterval s);
    let blocksPerYear := u64 d in
    let blocksPerMonth := blocksPerYear / 12 in
    let hardforkHeight := n_Foundation_Height (s_Network s) in
    if childHeight s <? hardforkHeight then Ok None else
    m ← go_mod (u64 (childHeight s - hardforkHeight)) blocksPerMonth;
    if negb (m =? 0) then Ok None else
    v ← Currency.Mul64 subsidyPerBlock
          (if childHeight s =? hardforkHeight then blocksPerYear else blocksPerMonth);
    Ok (Some {| sco_Value := v; sco_Address := s_FoundationSubsidyAddress s |}).

Definition NonceFactor (s : State) : Z :=
  if childHeight s <? n_ASIC_Height (s_Network s) then 1 else n_ASIC_NonceFactor (s_Network s).

Definition MaxBlockWeight : Z := 2000000.

(** ** Weights *)
Definition TransactionWeight (txn : Transaction) : Z := zlen (Transaction_EncodeTo txn).

Definition sci_nilProof (i : V2SiacoinInput) : V2SiacoinInput :=
  {| v2sci_Parent := set_sce_se nil_proof (v2sci_Parent i);
     v2sci_SatisfiedPolicy := v2sci_SatisfiedPolicy i |}.
Definition sfi_nilProof (i : V2SiafundInput) : V2SiafundInput :=
  {| v2sfi_Parent := set_sfe_se nil_proof (v2sfi_Parent i);
     v2sfi_ClaimAddress := v2sfi_ClaimAddress i;
     v2sfi_SatisfiedPolicy := v2sfi_SatisfiedPolicy i |}.
Definition fcr_nilProof (r : V2FileContractRevision) : V2FileContractRevision :=
  {| v2fcr_Parent := set_v2fce_se nil_proof (v2fcr_Parent r); v2fcr_Revision := v2fcr_Revision r |}.
Definition res_nilProof (r : V2FileContractResolution) : V2FileContractResolution :=
  {| res_Parent := set_v2fce_se nil_proof (res_Parent r);
     res_Resolution := match res_Resolution r with
                       | V2Proof sp => V2Proof (StorageProof_nilProof sp)
                       | x => x
                       end |}.

Definition V2TransactionWeight (txn : V2Transaction) : Z :=
  zlen (flat_map (fun i => V2SiacoinInput_EncodeTo (sci_nilProof i)) (v2tx_SiacoinInputs txn) ++
        flat_map V2SiacoinOutput_EncodeTo (v2tx_SiacoinOutputs txn) ++
        flat_map (fun i => V2SiafundInput_EncodeTo (sfi_nilProof i)) (v2tx_SiafundInputs txn) ++
        flat_map V2SiafundOutput_EncodeTo (v2tx_SiafundOutputs txn) ++
        flat_map V2FileContract_EncodeTo (v2tx_FileContracts txn) ++
        flat_map (fun r => V2FileContractRevision_EncodeTo (fcr_nilProof r))
          (v2tx_FileContractRevisions txn) ++
        flat_map (fun r => V2FileContractResolution_EncodeTo (res_nilProof r))
          (v2tx_FileContractResolutions txn) ++
        flat_map Attestation_EncodeTo (v2tx_Attestations txn) ++
        v2tx_ArbitraryData txn ++
        match v2tx_NewFoundationAddress txn with Some a => Array_EncodeTo a | None => [] end).

(** ** Taxes *)

(** The exact rational value of the float64 constant [0.039]. *)
Definition tax_num : Z := 5620492334958379.
Definition tax_den : Z := 144115188075855872.

Definition FileContractTax (s : State) (fc : FileContract) : Currency :=
  let i := Currency.Big (fc_Payout fc) in
  let i := if childHeight s <? n_Tax_Height (s_Network s)
           then (i * tax_num) / tax_den else i * 39 / 1000 in
  let i := i - i mod SiafundCount in
  Currency.NewCurrency (u64 i) (u64 (Z.shiftr i 64)).

Definition V2FileContractTax (fc : V2FileContract) : outcome Currency :=
  sum ← Currency.Add (sco_Value (v2fc_RenterOutput fc)) (sco_Value (v2fc_HostOutput fc));
  Currency.Div64 sum 25.

Section Hashes.
Context {crypto : Crypto}.

(** ** Storage proofs *)
Definition StorageProofLeafIndex (filesize : Z) (windowID : BlockID) (fcid : FileContractID)
    : outcome Z :=
  let numLeaves := filesize / 64 + (if filesize mod 64 =? 0 then 0 else 1) in
  if numLeaves =? 0 then Ok 0 else
  let seed := hashAll [Array_EncodeTo windowID; Array_EncodeTo fcid] in
  let word i := be_decode (slice i (i + 8) seed) in
  r0 ← bits.Div64 0 (word 0%nat) numLeaves;
  r1 ← bits.Div64 (snd r0) (word 8%nat) numLeaves;
  r2 ← bits.Div64 (snd r1) (word 16%nat) numLeaves;
  r3 ← bits.Div64 (snd r2) (word 24%nat) numLeaves;
  Ok (snd r3).

Definition StorageProofLeafHash (leaf : bytes) : Hash256 :=
  SumLeaf (if zlen leaf =? 64 then leaf else to_array 64 leaf).

(** ** Signature hashes *)
Definition replayPrefix (s : State) : bytes :=
  let h := ci_Height (s_Index s) in
  if n_V2_AllowHeight (s_Network s) <=? h then [2]
  else if n_Foundation_Height (s_Network s) <=? h then [1]
  else if n_ASIC_Height (s_Network s) <=? h then [0]
  else [].
Definition v2ReplayPrefix : Z := 2.

(** [for _, i := range idxs { ... list[i] ... }]; panics out of range. *)
Fixpoint encode_indices {A} (enc : A -> bytes) (l : list A) (idxs : list Z) : outcome bytes :=
  match idxs with
  | [] => Ok []
  | i :: idxs' =>
      match l !! Z.to_nat i with
      | Some x => rest ← encode_indices enc l idxs'; Ok (enc x ++ rest)
      | None => Panic "index out of range"
      end
  end.

Definition WholeSigHash (s : State) (txn : Transaction) (parentID : Hash256)
    (pubkeyIndex timelock : Z) (coveredSigs : list Z) : outcome Hash256 :=
  sigs ← encode_indices TransactionSignature_EncodeTo (tx_Signatures txn) coveredSigs;
  Ok (blake2b_Sum256
    (EncodeSlice (fun i => replayPrefix s ++ SiacoinInput_EncodeTo i) (tx_SiacoinInputs txn) ++
     EncodeSlice V1SiacoinOutput_EncodeTo (tx_SiacoinOutputs txn) ++
     EncodeSlice FileContract_EncodeTo (tx_FileContracts txn) ++
     EncodeSlice FileContractRevision_EncodeTo (tx_FileContractRevisions txn) ++
     EncodeSlice StorageProof_EncodeTo (tx_StorageProofs txn) ++
     EncodeSlice (fun i => replayPrefix s ++ SiafundInput_EncodeTo i) (tx_SiafundInputs txn) ++
     EncodeSlice V1SiafundOutput_EncodeTo (tx_SiafundOutputs txn) ++
     EncodeSlice V1Currency_EncodeTo (tx_MinerFees txn) ++
     EncodeSlice WriteBytes (tx_ArbitraryData txn) ++
     Array_EncodeTo parentID ++ WriteUint64 pubkeyIndex ++ WriteUint64 timelock ++ sigs)).

Definition PartialSigHash (s : State) (txn : Transaction) (cf : CoveredFields) : outcome Hash256 :=
  a ← encode_indices (fun i => replayPrefix s ++ SiacoinInput_EncodeTo i)
        (tx_SiacoinInputs txn) (cf_SiacoinInputs cf);
  b ← encode_indices V1SiacoinOutput_EncodeTo (tx_SiacoinOutputs txn) (cf_SiacoinOutputs cf);
  c ← encode_indices FileContract_EncodeTo (tx_FileContracts txn) (cf_FileContracts cf);
  d ← encode_indices FileContractRevision_EncodeTo (tx_FileContractRevisions txn)
        (cf_FileContractRevisions cf);
  e ← encode_indices StorageProof_EncodeTo (tx_StorageProofs txn) (cf_StorageProofs cf);
  f ← encode_indices (fun i => replayPrefix s ++ SiafundInput_EncodeTo i)
        (tx_SiafundInputs txn) (cf_SiafundInputs cf);
  g ← encode_indices V1SiafundOutput_EncodeTo (tx_SiafundOutputs txn) (cf_SiafundOutputs cf);
  h ← encode_indices V1Currency_EncodeTo (tx_MinerFees txn) (cf_MinerFees cf);
  i ← encode_indices WriteBytes (tx_ArbitraryData txn) (cf_ArbitraryData cf);
  j ← encode_indices TransactionSignature_EncodeTo (tx_Signatures txn) (cf_Signatures cf);
  Ok (blake2b_Sum256 (a ++ b ++ c ++ d ++ e ++ f ++ g ++ h ++ i ++ j)).

(** [s.EncodeTo(e)], with the accumulator encoding of [merkle.go]. *)
Definition ElementAccumulator_EncodeTo (acc : ElementAccumulator) : bytes :=
  WriteUint64 (ea_NumLeaves acc) ++
  concat (imap (fun i root => if has_bit (ea_NumLeaves acc) (Z.of_nat i)
                              then Array_EncodeTo root else []) (ea_Trees acc)).

Definition State_EncodeTo (s : State) : bytes :=
  ChainIndex_EncodeTo (s_Index s) ++
  flat_map WriteTime (take (numTimestamps s) (s_PrevTimestamps s)) ++
  Array_EncodeTo (s_Depth s) ++ Array_EncodeTo (s_ChildTarget s) ++
  V2Currency_EncodeTo (s_SiafundTaxRevenue s) ++
  WriteUint64 (u64 (s_OakTime s)) ++ Array_EncodeTo (s_OakTarget s) ++
  Array_EncodeTo (s_FoundationSubsidyAddress s) ++
  Array_EncodeTo (s_FoundationManagementAddress s) ++
  Array_EncodeTo (s_TotalWork s) ++ Array_EncodeTo (s_Difficulty s) ++
  Array_EncodeTo (s_OakWork s) ++ ElementAccumulator_EncodeTo (s_Elements s) ++
  WriteUint64 (s_Attestations s) ++ WriteUint64 (s_QdayHeight s).

Definition State_MerkleLeafHash (s : State) (minerAddr : Address) : Hash256 :=
  let stateHash := blake2b_Sum256 (State_EncodeTo s) in
  blake2b_Sum256 (WriteUint8 leafHashPrefix ++ distinguisher "commitment" ++
                  WriteUint8 v2ReplayPrefix ++ Array_EncodeTo stateHash ++ Array_EncodeTo minerAddr).

Definition Commitment (s : State) (minerAddr : Address) (txns : list Transaction)
    (v2txns : list V2Transaction) : Hash256 :=
  Accumulator.Root (Accumulator.of_leaves
    (State_MerkleLeafHash s minerAddr :: map Transaction_MerkleLeafHash txns ++
     map V2Transaction_MerkleLeafHash v2txns)).

Definition InputSigHash (s : State) (txn : V2Transaction) : Hash256 :=
  match n_Qday (s_Network s) with
  | Some p => hashAll [distinguisher "qday/sig/input/v1"; Array_EncodeTo (qd_Domain p);
                       V2TransactionSemantics_EncodeTo txn]
  | None => hashAll [distinguisher "sig/input"; WriteUint8 v2ReplayPrefix;
                     V2TransactionSemantics_EncodeTo txn]
  end.

Definition ContractSigHash (fc : V2FileContract) : Hash256 :=
  hashAll [distinguisher "sig/filecontract"; WriteUint8 v2ReplayPrefix;
           V2FileContract_EncodeTo (V2FileContract_nilSigs fc)].
Definition RenewalSigHash (r : V2FileContractRenewal) : Hash256 :=
  hashAll [distinguisher "sig/filecontractrenewal"; WriteUint8 v2ReplayPrefix;
           V2FileContractRenewal_EncodeTo (Renewal_nilSigs r)].
Definition AttestationSigHash (a : Attestation) : Hash256 :=
  hashAll [distinguisher "sig/attestation"; WriteUint8 v2ReplayPrefix;
           Attestation_EncodeTo {| at_PublicKey := at_PublicKey a; at_Key := at_Key a;
                                   at_Value := at_Value a; at_Signature := zeroSignature |}].
End Hashes.

(** ** Diffs and the intra-block state *)
Record SiacoinElementDiff := {
  sced_SiacoinElement : SiacoinElement; sced_Created : bool; sced_Spent : bool }.
Record SiafundElementDiff := {
  sfed_SiafundElement : SiafundElement; sfed_Created : bool; sfed_Spent : bool }.
Record FileContractElementDiff := {
  fced_FileContractElement : FileContractElement; fced_Created : bool;
  fced_Revision : option FileContract; fced_Resolved : bool; fced_Valid : bool }.
Record V2FileContractElementDiff := {
  v2fced_V2FileContractElement : V2FileContractElement; v2fced_Created : bool;
  v2fced_Revision : option V2FileContract;
  v2fced_Resolution : option V2FileContractResolutionType }.

Definition RevisionElement (diff : FileContractElementDiff) : option FileContractElement :=
  rev ← fced_Revision diff;
  Some {| fce_ID := fce_ID (fced_FileContractElement diff);
          fce_StateElement := StateElement_Share (fce_StateElement (fced_FileContractElement diff));
          fce_FileContract := rev |}.
Definition V2RevisionElement (diff : V2FileContractElementDiff) : option V2FileContractElement :=
  rev ← v2fced_Revision diff;
  Some {| v2fce_ID := v2fce_ID (v2fced_V2FileContractElement diff);
          v2fce_StateElement :=
            StateElement_Share (v2fce_StateElement (v2fced_V2FileContractElement diff));
          v2fce_V2FileContract := rev |}.

(** Go maps keyed by 32-byte identifiers. *)
Abbreviation idmap := (gmap (list Z)).

Record MidState := {
  ms_qdayProved : bool; ms_base : State; ms_elements : idmap nat;
  ms_spends : idmap TransactionID; ms_siafundTaxRevenue : Currency;
  ms_foundationSubsidy : Address; ms_foundationManagement : Address;
  ms_sces : list SiacoinElementDiff; ms_sfes : list SiafundElementDiff;
  ms_fces : list FileContractElementDiff; ms_v2fces : list V2FileContractElementDiff;
  ms_aes : list AttestationElement; ms_cie : ChainIndexElement }.

Record V1StorageProofSupplement := {
  sps_FileContract : FileContractElement; sps_WindowID : BlockID }.
Record V1TransactionSupplement := {
  ts_SiacoinInputs : list SiacoinElement; ts_SiafundInputs : list SiafundElement;
  ts_RevisedFileContracts : list FileContractElement;
  ts_StorageProofs : list V1StorageProofSupplement }.
Record V1BlockSupplement := {
  bs_Transactions : list V1TransactionSupplement;
  bs_ExpiringFileContracts : list FileContractElement }.

Definition index_out_of_range {A} : outcome A := Panic "index out of range".

(** Lookups; [None] is the false of the second result, an index that does not
    belong to the slice panics. *)
Definition ms_siacoinElement (ms : MidState) (ts : V1TransactionSupplement) (id : SiacoinOutputID)
    : outcome (option SiacoinElement) :=
  match ms_elements ms !! id with
  | Some i => match ms_sces ms !! i with
              | Some d => Ok (Some (sced_SiacoinElement d))
              | None => index_out_of_range
              end
  | None => Ok (List.find (fun e => bool_decide (sce_ID e = id)) (ts_SiacoinInputs ts))
  end.

Definition ms_siafundElement (ms : MidState) (ts : V1TransactionSupplement) (id : SiafundOutputID)
    : outcome (option SiafundElement) :=
  match ms_elements ms !! id with
  | Some i => match ms_sfes ms !! i with
              | Some d => Ok (Some (sfed_SiafundElement d))
              | None => index_out_of_range
              end
  | None => Ok (List.find (fun e => bool_decide (sfe_ID e = id)) (ts_SiafundInputs ts))
  end.

Definition ms_fileContractElement (ms : MidState) (ts : V1TransactionSupplement)
    (id : FileContractID) : outcome (option FileContractElement) :=
  match ms_elements ms !! id with
  | Some i => match ms_fces ms !! i with
              | Some d => Ok (Some (default (fced_FileContractElement d) (RevisionElement d)))
              | None => index_out_of_range
              end
  | None =>
      Ok (match List.find (fun e => bool_decide (fce_ID e = id)) (ts_RevisedFileContracts ts) with
          | Some fce => Some fce
          | None => sps_FileContract <$>
                    List.find (fun sps => bool_decide (fce_ID (sps_FileContract sps) = id))
                      (ts_StorageProofs ts)
          end)
  end.

Definition ms_storageProofWindowID (ms : MidState) (ts : V1TransactionSupplement)
    (id : FileContractID) : outcome (option BlockID) :=
  let supplied := sps_WindowID <$>
    List.find (fun sps => bool_decide (fce_ID (sps_FileContract sps) = id)) (ts_StorageProofs ts) in
  match ms_elements ms !! id with
  | Some i => match ms_fces ms !! i with
              | Some d =>
                  if fc_WindowStart (fce_FileContract (fced_FileContractElement d))
                     =? childHeight (ms_base ms)
                  then Ok (Some (ci_ID (s_Index (ms_base ms))))
                  else Ok supplied
              | None => index_out_of_range
              end
  | None => Ok supplied
  end.

Definition ms_spent (ms : MidState) (id : ElementID) : option TransactionID := ms_spends ms !! id.
Definition ms_isSpent (ms : MidState) (id : ElementID) : bool :=
  bool_decide (is_Some (ms_spends ms !! id)).

Definition zeroChainIndexElement : ChainIndexElement :=
  {| cie_ID := zeroHash;
     cie_StateElement := {| se_LeafIndex := 0; se_MerkleProof := []; se_shared := false |};
     cie_ChainIndex := {| ci_Height := 0; ci_ID := zeroHash |} |}.

Definition NewMidState (s : State) : MidState :=
  {| ms_qdayProved := false; ms_base := s; ms_elements := ∅; ms_spends := ∅;
     ms_siafundTaxRevenue := s_SiafundTaxRevenue s;
     ms_foundationSubsidy := s_FoundationSubsidyAddress s;
     ms_foundationManagement := s_FoundationManagementAddress s;
     ms_sces := []; ms_sfes := []; ms_fces := []; ms_v2fces := []; ms_aes := [];
     ms_cie := zeroChainIndexElement |}.
