(* ===== verification/ConsensusMerkle.v ===== *)
(** * [core/consensus/merkle.go]: the element accumulator

    A forest of perfect Merkle trees, one per set bit of the leaf count, and the
    functions that keep it and the proofs of its elements up to date. *)
From stdpp Require Import prelude strings gmap.
From Stdlib Require Import ZArith Lia.
From S2P Require Import Prelude TypesCurrency TypesData TypesEncoding TypesHash TypesPolicy.
From S2P Require Import ConsensusWork ConsensusState.

Definition mergeHeight (x y : Z) : Z := bits.Len64 (Z.lxor x y).
Definition clearBits (x n : Z) : Z := Z.ldiff x (2 ^ n - 1).

(** The object an [elementLeaf] points into: an entry of one of the diff slices of
    a [MidState], its chain index element, or a local copy. *)
Inductive leafRef :=
| RefSce (i : nat) | RefSfe (i : nat) | RefFce (i : nat) | RefV2fce (i : nat)
| RefAe (i : nat) | RefCie | RefLocal.

(** The embedded [*types.StateElement] is the pair of the pointer and the value it
    points to; no two leaves of a block share a pointer. *)
Record elementLeaf := {
  el_ref : leafRef; el_StateElement : StateElement; el_elementHash : Hash256; el_spent : bool }.

Definition el_LeafIndex (l : elementLeaf) : Z := se_LeafIndex (el_StateElement l).
Definition el_MerkleProof (l : elementLeaf) : list Hash256 := se_MerkleProof (el_StateElement l).
Definition se_setProof (f : list Hash256 -> list Hash256) (se : StateElement) : StateElement :=
  {| se_LeafIndex := se_LeafIndex se; se_MerkleProof := f (se_MerkleProof se);
     se_shared := se_shared se |}.
Definition el_setProof (f : list Hash256 -> list Hash256) (l : elementLeaf) : elementLeaf :=
  {| el_ref := el_ref l; el_StateElement := se_setProof f (el_StateElement l);
     el_elementHash := el_elementHash l; el_spent := el_spent l |}.
Definition el_setIndex (i : Z) (l : elementLeaf) : elementLeaf :=
  {| el_ref := el_ref l;
     el_StateElement := {| se_LeafIndex := i; se_MerkleProof := el_MerkleProof l;
                           se_shared := se_shared (el_StateElement l) |};
     el_elementHash := el_elementHash l; el_spent := el_spent l |}.

Section Merkle.
Context {crypto : Crypto}.

Fixpoint proofRoot_from (i : Z) (root : Hash256) (leafIndex : Z) (proof : list Hash256) : Hash256 :=
  match proof with
  | [] => root
  | h :: proof' =>
      proofRoot_from (i + 1)
        (if has_bit leafIndex i then SumPair h root else SumPair root h) leafIndex proof'
  end.
Definition proofRoot (leafHash : Hash256) (leafIndex : Z) (proof : list Hash256) : Hash256 :=
  proofRoot_from 0 leafHash leafIndex proof.

Definition storageProofRoot (leafHash : Hash256) (leafIndex filesize : Z) (proof : list Hash256)
    : Hash256 :=
  let lastLeafIndex :=
    if filesize mod 64 =? 0 then u64 (filesize / 64 - 1) else filesize / 64 in
  let subtreeHeight := Z.to_nat (bits.Len64 (Z.lxor leafIndex lastLeafIndex)) in
  if (length proof <? subtreeHeight)%nat then zeroHash
  else foldl (fun root h => SumPair h root)
         (proofRoot leafHash leafIndex (take subtreeHeight proof)) (drop subtreeHeight proof).

Definition el_hash (l : elementLeaf) : Hash256 :=
  blake2b_Sum256 ([leafHashPrefix] ++ el_elementHash l ++ le_encode 8 (el_LeafIndex l) ++
                  [if el_spent l then 1 else 0]).
Definition el_proofRoot (l : elementLeaf) : Hash256 :=
  proofRoot (el_hash l) (el_LeafIndex l) (el_MerkleProof l).

(** ** Leaves of the element types *)
Definition chainIndexLeaf (ref : leafRef) (e : ChainIndexElement) : elementLeaf :=
  {| el_ref := ref; el_StateElement := cie_StateElement e;
     el_elementHash := hashAll [distinguisher "leaf/chainindex"; Array_EncodeTo (cie_ID e);
                                ChainIndex_EncodeTo (cie_ChainIndex e)];
     el_spent := false |}.
Definition siacoinLeaf (ref : leafRef) (e : SiacoinElement) (spent : bool) : elementLeaf :=
  {| el_ref := ref; el_StateElement := sce_StateElement e;
     el_elementHash := hashAll [distinguisher "leaf/siacoin"; Array_EncodeTo (sce_ID e);
                                V2SiacoinOutput_EncodeTo (sce_SiacoinOutput e);
                                WriteUint64 (sce_MaturityHeight e)];
     el_spent := spent |}.
Definition siafundLeaf (ref : leafRef) (e : SiafundElement) (spent : bool) : elementLeaf :=
  {| el_ref := ref; el_StateElement := sfe_StateElement e;
     el_elementHash := hashAll [distinguisher "leaf/siafund"; Array_EncodeTo (sfe_ID e);
                                V2SiafundOutput_EncodeTo (sfe_SiafundOutput e);
                                V2Currency_EncodeTo (sfe_ClaimStart e)];
     el_spent := spent |}.
Definition fileContractLeaf (ref : leafRef) (e : FileContractElement) (rev : option FileContract)
    (spent : bool) : elementLeaf :=
  {| el_ref := ref; el_StateElement := fce_StateElement e;
     el_elementHash := hashAll [distinguisher "leaf/filecontract"; Array_EncodeTo (fce_ID e);
                                FileContract_EncodeTo (default (fce_FileContract e) rev)];
     el_spent := spent |}.
Definition v2FileContractLeaf (ref : leafRef) (e : V2FileContractElement)
    (rev : option V2FileContract) (spent : bool) : elementLeaf :=
  {| el_ref := ref; el_StateElement := v2fce_StateElement e;
     el_elementHash := hashAll [distinguisher "leaf/v2filecontract"; Array_EncodeTo (v2fce_ID e);
                                V2FileContract_EncodeTo (default (v2fce_V2FileContract e) rev)];
     el_spent := spent |}.
Definition attestationLeaf (ref : leafRef) (e : AttestationElement) : elementLeaf :=
  {| el_ref := ref; el_StateElement := ae_StateElement e;
     el_elementHash := hashAll [distinguisher "leaf/attestation"; Array_EncodeTo (ae_ID e);
                                Attestation_EncodeTo (ae_Attestation e)];
     el_spent := false |}.

(** ** Membership *)
Definition hasTreeAtHeight (acc : ElementAccumulator) (height : nat) : bool :=
  has_bit (ea_NumLeaves acc) (Z.of_nat height).

(** The shift of a proof longer than 63 hashes yields no bit, so that indexing the
    trees stays in range. *)
Definition containsLeaf (acc : ElementAccumulator) (l : elementLeaf) : bool :=
  let n := length (el_MerkleProof l) in
  hasTreeAtHeight acc n && bool_decide (ea_Trees acc !! n = Some (el_proofRoot l)).

Definition containsChainIndex acc cie := containsLeaf acc (chainIndexLeaf RefLocal cie).
Definition containsUnspentSiacoinElement acc sce :=
  containsLeaf acc (siacoinLeaf RefLocal sce false).
Definition containsSpentSiacoinElement acc sce := containsLeaf acc (siacoinLeaf RefLocal sce true).
Definition containsUnspentSiafundElement acc sfe :=
  containsLeaf acc (siafundLeaf RefLocal sfe false).
Definition containsSpentSiafundElement acc sfe := containsLeaf acc (siafundLeaf RefLocal sfe true).
Definition containsUnresolvedFileContractElement acc fce :=
  containsLeaf acc (fileContractLeaf RefLocal fce None false).
Definition containsUnresolvedV2FileContractElement acc fce :=
  containsLeaf acc (v2FileContractLeaf RefLocal fce None false).
Definition containsResolvedV2FileContractElement acc fce :=
  containsLeaf acc (v2FileContractLeaf RefLocal fce None true).

Definition ValidateTransactionElements (acc : ElementAccumulator) (txn : V2Transaction)
    : outcome unit :=
  let check typ l :=
    fail_if (negb (el_LeafIndex l =? UnassignedLeafIndex) && negb (containsLeaf acc l))
      (typ +:+ " parent has invalid Merkle proof") in
  _ ← for_each (v2tx_SiacoinInputs txn) 0 tt
        (fun _ i _ => check "siacoin input" (siacoinLeaf RefLocal (v2sci_Parent i) false));
  _ ← for_each (v2tx_SiafundInputs txn) 0 tt
        (fun _ i _ => check "siafund input" (siafundLeaf RefLocal (v2sfi_Parent i) false));
  _ ← for_each (v2tx_FileContractRevisions txn) 0 tt
        (fun _ r _ => check "file contract revision"
                        (v2FileContractLeaf RefLocal (v2fcr_Parent r) None false));
  for_each (v2tx_FileContractResolutions txn) 0 tt
    (fun _ r _ =>
       _ ← check "file contract resolution" (v2FileContractLeaf RefLocal (res_Parent r) None false);
       match res_Resolution r with
       | V2Proof sp => check "storage proof" (chainIndexLeaf RefLocal (v2sp_ProofIndex sp))
       | _ => Ok tt
       end).

(** ** Adding leaves *)

(** [for j := hi; j > lo && j >= 0; j-- { leaves[j].MerkleProof = append(..., h) }] *)
Definition append_proofs (lo hi : Z) (h : Hash256) (leaves : list elementLeaf) : list elementLeaf :=
  imap (fun j l => if (lo <? Z.of_nat j) && (Z.of_nat j <=? hi)
                   then el_setProof (fun p => p ++ [h]) l else l) leaves.

Definition grow (initialLeaves numLeaves : Z) (height : nat) (oldRoot h : Hash256)
    (treeGrowth : list (list Hash256)) : list (list Hash256) :=
  let curTreeIndex := u64 (u64 (numLeaves + 1) - u64 (2 ^ Z.of_nat height)) in
  let prevTreeIndex := u64 (u64 (numLeaves + 1) - u64 (2 ^ (Z.of_nat height + 1))) in
  imap (fun bit g =>
    if negb (has_bit initialLeaves (Z.of_nat bit)) then g else
    let treeStartIndex := clearBits initialLeaves (Z.of_nat bit + 1) in
    if curTreeIndex <=? treeStartIndex then g ++ [oldRoot]
    else if prevTreeIndex <=? treeStartIndex then g ++ [h]
    else g) treeGrowth.

(** The inner loop over the heights, from [height] on, for the leaf at index [i];
    [fuel] is the number of trees left.  The index arithmetic of the source is on
    [int]; it agrees with [Z] below [2^62] leaves. *)
Fixpoint add_walk (fuel height : nat) (i : Z) (initialLeaves : Z) (h : Hash256)
    (acc : ElementAccumulator) (leaves : list elementLeaf) (treeGrowth : list (list Hash256))
    : ElementAccumulator * list elementLeaf * list (list Hash256) :=
  match fuel with
  | O => (acc, leaves, treeGrowth)
  | S fuel' =>
      if negb (hasTreeAtHeight acc height) then
        ({| ea_Trees := <[height := h]> (ea_Trees acc); ea_NumLeaves := u64 (ea_NumLeaves acc + 1) |},
         leaves, treeGrowth)
      else
        let oldRoot := nth height (ea_Trees acc) zeroHash in
        let startOfNewTree := i - 2 ^ Z.of_nat height in
        let startOfOldTree := i - 2 ^ (Z.of_nat height + 1) in
        let leaves := append_proofs startOfNewTree i oldRoot leaves in
        let leaves := append_proofs startOfOldTree startOfNewTree h leaves in
        let treeGrowth := grow initialLeaves (ea_NumLeaves acc) height oldRoot h treeGrowth in
        add_walk fuel' (Datatypes.S height) i initialLeaves (SumPair oldRoot h) acc leaves treeGrowth
  end.

(** The outer loop, with [n] leaves left to add from index [i] on. *)
Fixpoint add_from (n i : nat) (initialLeaves : Z) (acc : ElementAccumulator)
    (leaves : list elementLeaf) (treeGrowth : list (list Hash256))
    : ElementAccumulator * list elementLeaf * list (list Hash256) :=
  match n, leaves !! i with
  | S n', Some el =>
      let el := el_setIndex (ea_NumLeaves acc) el in
      let '(acc, leaves, treeGrowth) :=
        add_walk 64 0 (Z.of_nat i) initialLeaves (el_hash el) acc (<[i := el]> leaves) treeGrowth in
      add_from n' (Datatypes.S i) initialLeaves acc leaves treeGrowth
  | _, _ => (acc, leaves, treeGrowth)
  end.

Definition addLeaves (acc : ElementAccumulator) (leaves : list elementLeaf)
    : ElementAccumulator * list elementLeaf * list (list Hash256) :=
  add_from (length leaves) 0 (ea_NumLeaves acc) acc leaves (replicate 64 []).

(** ** Updating leaves *)

(** [sort.Search]: binary search for the first index where [f] holds. *)
Fixpoint sort_Search_from (fuel i j : nat) (f : nat -> bool) : nat :=
  match fuel with
  | O => i
  | S fuel' =>
      if (i <? j)%nat then
        let h := ((i + j) / 2)%nat in
        if negb (f h) then sort_Search_from fuel' (Datatypes.S h) j f
        else sort_Search_from fuel' i h f
      else i
  end.
Definition sort_Search (n : nat) (f : nat -> bool) : nat := sort_Search_from (Datatypes.S n) 0 n f.

Definition splitLeaves (ls : list elementLeaf) (mid : Z) : list elementLeaf * list elementLeaf :=
  let split := sort_Search (length ls)
    (fun i => match ls !! i with Some l => mid <=? el_LeafIndex l | None => true end) in
  (take split ls, drop split ls).

(** [e.MerkleProof[i] = h] for each leaf. *)
Definition set_sibling (i : nat) (h : Hash256) (ls : list elementLeaf) : outcome (list elementLeaf) :=
  if forallb (fun l => (i <? length (el_MerkleProof l))%nat) ls
  then Ok (map (el_setProof (fun p => <[i := h]> p)) ls)
  else index_out_of_range.

Definition proof_at (i : nat) (l : elementLeaf) : outcome Hash256 :=
  match el_MerkleProof l !! i with Some h => Ok h | None => index_out_of_range end.

(** [recompute(i, i + 2^height, leaves)]: the height is the structural argument, the
    source recovers it from [j - i].  Returns the root and the updated leaves. *)
Fixpoint recompute (height : nat) (i : Z) (leaves : list elementLeaf)
    : outcome (Hash256 * list elementLeaf) :=
  match height with
  | O =>
      match leaves with
      | [] => index_out_of_range
      | [l] => Ok (el_hash l, leaves)
      | _ => Panic "consensus: multiple leaves with same accumulator index"
      end
  | S height' =>
      let mid := i + 2 ^ Z.of_nat height' in
      let '(lft, rgt) := splitLeaves leaves mid in
      '(leftRoot, lft, rgt) ←
        match lft with
        | [] => match rgt with
                | r :: _ => h ← proof_at height' r; Ok (h, lft, rgt)
                | [] => index_out_of_range
                end
        | _ :: _ =>
            '(leftRoot, lft) ← recompute height' i lft;
            rgt ← set_sibling height' leftRoot rgt;
            Ok (leftRoot, lft, rgt)
        end;
      '(rightRoot, lft, rgt) ←
        match rgt with
        | [] => match lft with
                | l :: _ => h ← proof_at height' l; Ok (h, lft, rgt)
                | [] => index_out_of_range
                end
        | _ :: _ =>
            '(rightRoot, rgt) ← recompute height' mid rgt;
            lft ← set_sibling height' rightRoot lft;
            Ok (rightRoot, lft, rgt)
        end;
      Ok (SumPair leftRoot rightRoot, lft ++ rgt)
  end.

(** [sort.Slice] by proof length, then leaf index; leaves with equal keys make
    [recompute] panic in whatever order. *)
Definition leaf_before (a b : elementLeaf) : bool :=
  if negb (length (el_MerkleProof a) =? length (el_MerkleProof b))%nat
  then (length (el_MerkleProof a) <? length (el_MerkleProof b))%nat
  else el_LeafIndex a <? el_LeafIndex b.
Fixpoint insert_leaf (x : elementLeaf) (l : list elementLeaf) : list elementLeaf :=
  match l with
  | [] => [x]
  | y :: l' => if leaf_before y x then y :: insert_leaf x l' else x :: l
  end.
Definition sort_leaves (l : list elementLeaf) : list elementLeaf := foldr insert_leaf [] l.

(** The runs of equal proof length of the sorted leaves, one per tree. *)
Definition group_leaves (leaves : list elementLeaf) : outcome (list (list elementLeaf)) :=
  if forallb (fun l => (length (el_MerkleProof l) <? 64)%nat) leaves
  then Ok (map (fun h => filter (fun l => length (el_MerkleProof l) = h) leaves) (seq 0 64))
  else index_out_of_range.

Definition updateTree (height : nat) (leaves : list elementLeaf) : outcome (list elementLeaf) :=
  match leaves with
  | [] => Ok []
  | l :: _ => snd <$> recompute height (clearBits (el_LeafIndex l) (Z.of_nat height)) leaves
  end.

Definition updateLeaves (leaves : list elementLeaf) : outcome (list (list elementLeaf)) :=
  trees ← group_leaves (sort_leaves leaves);
  @rev (list elementLeaf) <$> for_each trees 0 []
            (fun height ls done => ls' ← updateTree height ls; Ok (ls' :: done)).

(** ** Applying and reverting a block *)
Record elementApplyUpdate := {
  eau_updated : list (list elementLeaf); eau_treeGrowth : list (list Hash256);
  eau_oldNumLeaves : Z; eau_numLeaves : Z }.
Record elementRevertUpdate := { eru_updated : list (list elementLeaf); eru_numLeaves : Z }.

Definition move_all (leaves : list elementLeaf) : outcome unit :=
  for_each leaves 0 tt (fun _ l _ => _ ← StateElement_Move (el_StateElement l); Ok tt).

Definition set_roots (trees : list Hash256) (updated : list (list elementLeaf)) : list Hash256 :=
  imap (fun height root => match nth height updated [] with
                           | l :: _ => el_proofRoot l
                           | [] => root
                           end) trees.

(** Returns the new accumulator, the update and the added leaves; the updated
    leaves are those of the update, which shares their state elements. *)
Definition applyBlock (acc : ElementAccumulator) (updated added : list elementLeaf)
    : outcome (ElementAccumulator * elementApplyUpdate * list elementLeaf) :=
  _ ← move_all updated;
  _ ← move_all added;
  trees ← updateLeaves updated;
  let acc1 := {| ea_Trees := set_roots (ea_Trees acc) trees; ea_NumLeaves := ea_NumLeaves acc |} in
  let '(acc2, added', growth) := addLeaves acc1 added in
  let trees' := imap (fun height ls =>
    map (el_setProof (fun p => p ++ nth height growth [])) ls) trees in
  Ok (acc2, {| eau_updated := trees'; eau_treeGrowth := growth;
               eau_oldNumLeaves := ea_NumLeaves acc; eau_numLeaves := ea_NumLeaves acc2 |}, added').

Definition revertBlock (acc : ElementAccumulator) (updated added : list elementLeaf)
    : outcome (elementRevertUpdate * list elementLeaf) :=
  _ ← move_all updated;
  _ ← move_all added;
  trees ← updateLeaves updated;
  Ok ({| eru_updated := trees; eru_numLeaves := ea_NumLeaves acc |},
      imap (fun i l => el_setIndex (u64 (ea_NumLeaves acc + Z.of_nat i)) l) added).

(** ** Proofs of elements held elsewhere *)

(** [copy(dst, src)] *)
Definition copy_into {A} (dst src : list A) : list A :=
  take (length dst) src ++ drop (length src) dst.

Definition closest (leafIndex : Z) (best : elementLeaf) (ls : list elementLeaf) : elementLeaf :=
  foldl (fun best ul =>
    if mergeHeight leafIndex (el_LeafIndex ul) <? mergeHeight leafIndex (el_LeafIndex best)
    then ul else best) best ls.

Definition updateProof (e : StateElement) (updated : list (list elementLeaf))
    : outcome StateElement :=
  match updated !! length (se_MerkleProof e) with
  | None => index_out_of_range
  | Some [] => Ok e
  | Some (first :: rest) =>
      let best := closest (se_LeafIndex e) first rest in
      if el_LeafIndex best =? se_LeafIndex e
      then Ok (se_setProof (fun p => copy_into p (el_MerkleProof best)) e)
      else
        let mh := Z.to_nat (mergeHeight (se_LeafIndex e) (el_LeafIndex best)) in
        if (length (se_MerkleProof e) <? mh)%nat || (length (el_MerkleProof best) <? mh)%nat
        then Panic "slice bounds out of range"
        else
          let sibling := proofRoot (el_hash best) (el_LeafIndex best)
                           (take (mh - 1) (el_MerkleProof best)) in
          Ok (se_setProof (fun p =>
                <[(mh - 1)%nat := sibling]>
                  (take mh p ++ copy_into (drop mh p) (drop mh (el_MerkleProof best)))) e)
  end.

Definition eau_updateElementProof (eau : elementApplyUpdate) (e : StateElement)
    : outcome StateElement :=
  _ ← StateElement_Move e;
  if se_LeafIndex e =? UnassignedLeafIndex then Panic "cannot update an ephemeral element"
  else if eau_oldNumLeaves eau <=? se_LeafIndex e then Ok e
  else
    e ← updateProof e (eau_updated eau);
    let n := length (se_MerkleProof e) in
    if mergeHeight (eau_numLeaves eau) (se_LeafIndex e) =? Z.of_nat n then Ok e
    else match eau_treeGrowth eau !! n with
         | Some g => Ok (se_setProof (fun p => p ++ g) e)
         | None => index_out_of_range
         end.

Definition eru_updateElementProof (eru : elementRevertUpdate) (e : StateElement)
    : outcome StateElement :=
  _ ← StateElement_Move e;
  if se_LeafIndex e =? UnassignedLeafIndex then Panic "cannot update an ephemeral element"
  else if eru_numLeaves eru <=? se_LeafIndex e
  then Panic "cannot update an element that is not present in the accumulator"
  else
    let mh := mergeHeight (eru_numLeaves eru) (se_LeafIndex e) in
    let e := if mh <=? zlen (se_MerkleProof e)
             then se_setProof (take (Z.to_nat (mh - 1))) e else e in
    updateProof e (eru_updated eru).
End Merkle.
