(* ===== verification/ConsensusQday.v ===== *)
(** * [core/consensus/qday.go]: the QDAY rules

    The canary, the transaction envelope, the decay of spendable value after the
    activation height and the shape of QDAY transactions and blocks. *)
From stdpp Require Import prelude strings gmap.
From Stdlib Require Import ZArith Lia.
From S2P Require Import Prelude TypesCurrency TypesData TypesEncoding TypesHash TypesPolicy.
From S2P Require Import ConsensusWork ConsensusState.

(** The operations of [filippo.io/edwards25519] the source calls. *)
Class Edwards25519 := {
  ed_Point : Type; ed_Scalar : Type;
  Point_SetBytes : bytes -> option ed_Point; Point_Bytes : ed_Point -> bytes;
  Point_Equal : ed_Point -> ed_Point -> bool; NewIdentityPoint : ed_Point;
  MultByCofactor : ed_Point -> ed_Point;
  SetCanonicalBytes : bytes -> option ed_Scalar; Scalar_Equal : ed_Scalar -> ed_Scalar -> bool;
  NewScalar : ed_Scalar; ScalarBaseMult : ed_Scalar -> ed_Point }.

Definition QdayTransfer : Z := 1.
Definition QdayCoinbase : Z := 2.
Definition QdayCanaryProof : Z := 3.
Definition QdayMiningWork : Z := 4.

Record QdayEnvelope := {
  qe_Kind : Z; qe_Nonce : Z; qe_Keys : list QdayKeys; qe_Witness : bytes }.

(** The magic ["QDAY\x02"]. *)
Definition qdayMagic : bytes := str_bytes "QDAY" ++ [2].

Definition QdayEnvelope_Encode (e : QdayEnvelope) : bytes :=
  qdayMagic ++ [qe_Kind e] ++ le_encode 8 (qe_Nonce e) ++ le_encode 2 (u16 (zlen (qe_Keys e))) ++
  flat_map QdayKeys_Bytes (qe_Keys e) ++
  (if qe_Kind e =? QdayCanaryProof then qe_Witness e else []).

(** The keys of the envelope, in order, up to the first invalid one. *)
Fixpoint parse_keys (n i : nat) (b : bytes) : outcome (list QdayKeys) :=
  match n with
  | O => Ok []
  | S n' =>
      let k := {| qk_Classical := slice (16 + 64 * i) (48 + 64 * i) b;
                  qk_Reserve := slice (48 + 64 * i) (80 + 64 * i) b |} in
      _ ← QdayKeys_Validate k;
      ks ← parse_keys n' (Datatypes.S i) b;
      Ok (k :: ks)
  end.

Definition ParseQdayEnvelope (b : bytes) : outcome QdayEnvelope :=
  _ ← fail_if ((zlen b <? 16) || negb (bool_decide (take 5 b = qdayMagic))) "missing QDAY envelope";
  let kind := nth 5 b 0 in
  let nonce := le_decode (slice 6 14 b) in
  let n := le_decode (slice 14 16 b) in
  let w := if kind =? QdayCanaryProof then 32 else 0 in
  _ ← fail_if ((kind <? QdayTransfer) || (QdayMiningWork <? kind) || (128 <? n) ||
               negb (zlen b =? 16 + 64 * n + w)) "invalid QDAY envelope";
  keys ← parse_keys (Z.to_nat n) 0 b;
  Ok {| qe_Kind := kind; qe_Nonce := nonce; qe_Keys := keys;
        qe_Witness := if w =? 0 then zeros 32 else drop (length b - 32) b |}.

(** ** Activation and decay *)
Definition QdayV1Active (s : State) (height : Z) : bool :=
  match n_Qday (s_Network s) with
  | Some p => negb (qd_V1Height p =? 0) && (qd_V1Height p <=? height)
  | None => false
  end.

Definition QdayActive (s : State) (height : Z) : bool :=
  match n_Qday (s_Network s) with
  | Some _ => negb (s_QdayHeight s =? 0) && (s_QdayHeight s <=? height)
  | None => false
  end.

Definition QdayValue (s : State) (e : SiacoinElement) (height : Z) : outcome Currency :=
  let value := sco_Value (sce_SiacoinOutput e) in
  if negb (QdayActive s height) then Ok value else
  match n_Qday (s_Network s) with
  | None => Panic "nil pointer dereference"
  | Some p =>
      let start := Z.max (s_QdayHeight s) (sce_MaturityHeight e) in
      if (height <=? start) || (u64 (height - start) <=? qd_ShieldBlocks p) then Ok value else
      steps ← go_div (u64 (u64 (height - start) - qd_ShieldBlocks p)) (qd_DecayStep p);
      let age := u64 (steps * qd_DecayStep p) in
      if qd_DecayBlocks p <=? age then Ok Currency.ZeroCurrency else
      let remaining := u64 (qd_DecayBlocks p - age) in
      q ← Currency.Div64 value (qd_DecayBlocks p);
      qd ← Currency.Mul64 q (qd_DecayBlocks p);
      r ← Currency.Sub value qd;
      a ← Currency.Mul64 q remaining;
      b ← Currency.Mul64 r remaining;
      b ← Currency.Div64 b (qd_DecayBlocks p);
      Currency.Add a b
  end.

Definition QdayUnits (s : State) (height : Z) : outcome Currency :=
  if QdayActive s height then Currency.Div64 Currency.HastingsPerSiacoin 1000000
  else Ok Currency.HastingsPerSiacoin.

Definition set_ArbitraryData (txn : V2Transaction) (d : bytes) : V2Transaction :=
  {| v2tx_SiacoinInputs := v2tx_SiacoinInputs txn; v2tx_SiacoinOutputs := v2tx_SiacoinOutputs txn;
     v2tx_SiafundInputs := v2tx_SiafundInputs txn; v2tx_SiafundOutputs := v2tx_SiafundOutputs txn;
     v2tx_FileContracts := v2tx_FileContracts txn;
     v2tx_FileContractRevisions := v2tx_FileContractRevisions txn;
     v2tx_FileContractResolutions := v2tx_FileContractResolutions txn;
     v2tx_Attestations := v2tx_Attestations txn; v2tx_ArbitraryData := d;
     v2tx_NewFoundationAddress := v2tx_NewFoundationAddress txn;
     v2tx_MinerFee := v2tx_MinerFee txn |}.

(** [len(txn.X) + ... != 0 || txn.NewFoundationAddress != nil] *)
Definition qdayUnsupported (txn : V2Transaction) : bool :=
  negb (zlen (v2tx_SiafundInputs txn) + zlen (v2tx_SiafundOutputs txn) +
        zlen (v2tx_FileContracts txn) + zlen (v2tx_FileContractRevisions txn) +
        zlen (v2tx_FileContractResolutions txn) + zlen (v2tx_Attestations txn) =? 0) ||
  bool_decide (is_Some (v2tx_NewFoundationAddress txn)).

Section Qday.
Context {crypto : Crypto} {edwards : Edwards25519}.

Definition QdayParams_Validate (p : QdayParams) : outcome unit :=
  _ ← fail_if (negb (qd_RulesVersion p =? 2)) "unsupported QDAY consensus version";
  premine ← Currency.Siacoins 500000;
  _ ← fail_if (negb (bool_decide (qd_PremineAmount p = premine)))
        "QDAY premine must be exactly 500000 coins";
  bad ← (if bool_decide (qd_Domain p = zeroHash) || Currency.IsZero (qd_Reward p) ||
            Currency.IsZero (qd_ProofFee p) || (qd_MiningBlocks p =? 0) ||
            (10000000 <? qd_MiningBlocks p) || (qd_ShieldBlocks p =? 0) ||
            (10000000 <? qd_ShieldBlocks p) || (qd_DecayBlocks p =? 0) ||
            (10000000 <? qd_DecayBlocks p) || (qd_DecayStep p =? 0)
         then Ok true
         else m ← go_mod (qd_DecayBlocks p) (qd_DecayStep p);
              Ok (negb (m =? 0) || (qd_ActivationDelay p =? 0) ||
                  (100000 <? qd_ActivationDelay p) || (32 <? qd_DefendBits p)));
  _ ← fail_if bad "invalid QDAY consensus parameters";
  let '(mined, overflow) := Currency.Mul64WithOverflow (qd_Reward p) (qd_MiningBlocks p) in
  _ ← fail_if overflow "QDAY emission overflows";
  let '(_, overflow) := Currency.AddWithOverflow mined (qd_PremineAmount p) in
  _ ← fail_if overflow "QDAY gross emission overflows";
  match Point_SetBytes (qd_Canary p) with
  | None => Err "invalid canary point"
  | Some point => fail_if (Point_Equal point NewIdentityPoint) "invalid canary point"
  end.

(** The search of [QdayCanary] from [counter]; [None] when the fuel runs out. *)
Fixpoint QdayCanary_from (fuel : nat) (counter : Z) : option bytes :=
  match fuel with
  | O => None
  | S fuel' =>
      let next := QdayCanary_from fuel' (u64 (counter + 1)) in
      let h := blake2b_Sum256 (str_bytes "QDAY/Edwards25519/NUMS/canary/v1/" ++ le_encode 8 counter) in
      match Point_SetBytes h with
      | None => next
      | Some p =>
          if negb (bool_decide (Point_Bytes p = h)) then next else
          let p := MultByCofactor p in
          if Point_Equal p NewIdentityPoint then next else Some (to_array 32 (Point_Bytes p))
      end
  end.
Definition QdayCanary (fuel : nat) : option bytes := QdayCanary_from fuel 0.

Definition VerifyQdayProof (canary witness : bytes) : bool :=
  match SetCanonicalBytes witness with
  | None => false
  | Some s => negb (Scalar_Equal s NewScalar) &&
              bool_decide (Point_Bytes (ScalarBaseMult s) = canary)
  end.

(** [clear(b[6:14])] when the data is long enough. *)
Definition clear_nonce (b : bytes) : bytes :=
  if 14 <=? zlen b then take 6 b ++ zeros 8 ++ drop 14 b else b.

Definition QdayWorkIntent (s : State) (txn : V2Transaction) : outcome Hash256 :=
  match n_Qday (s_Network s) with
  | None => Panic "nil pointer dereference"
  | Some p =>
      Ok (hashAll [distinguisher "qday/defend/intent/v1"; Array_EncodeTo (qd_Domain p);
            Array_EncodeTo (V2Transaction_ID
              (set_ArbitraryData txn (clear_nonce (v2tx_ArbitraryData txn))))])
  end.

(** [h[i/8]&(1<<(7-i%8)) != 0] *)
Definition hash_bit (h : bytes) (i : nat) : bool := has_bit (nth (i / 8) h 0) (7 - Z.of_nat i mod 8).

Definition QdayWorkValid (intent : Hash256) (nonce difficulty : Z) : bool :=
  let h := blake2b_Sum256 (to_array 32 intent ++ le_encode 8 nonce) in
  forallb (fun i => negb (hash_bit h i)) (seq 0 (Z.to_nat difficulty)).

(** ** Transactions and block markers *)
Definition validateQdayTransaction (ms : MidState) (txn : V2Transaction) : outcome unit :=
  match n_Qday (s_Network (ms_base ms)) with
  | None => Panic "nil pointer dereference"
  | Some p =>
      e ← ParseQdayEnvelope (v2tx_ArbitraryData txn);
      _ ← fail_if (qdayUnsupported txn) "QDAY supports coin transfers only";
      _ ← fail_if (qe_Kind e =? QdayCoinbase) "coinbase marker is only valid first in a block";
      _ ← fail_if (qe_Kind e =? QdayMiningWork) "mining work marker is only valid last in a block";
      _ ← (if qe_Kind e =? QdayCanaryProof then
             _ ← fail_if (negb (s_QdayHeight (ms_base ms) =? 0) || ms_qdayProved ms ||
                          negb (qe_Nonce e =? 0) ||
                          negb (VerifyQdayProof (qd_Canary p) (qe_Witness e)))
                   "invalid or repeated QDAY proof";
             fail_if (Currency.Cmp (v2tx_MinerFee txn) (qd_ProofFee p) <? 0)
               "QDAY proof does not pay the minimum network fee"
           else Ok tt);
      _ ← fail_if ((zlen (v2tx_SiacoinInputs txn) =? 0) || (128 <? zlen (v2tx_SiacoinInputs txn)) ||
                   ((zlen (v2tx_SiacoinOutputs txn) =? 0) && negb (qe_Kind e =? QdayCanaryProof)) ||
                   (128 <? zlen (v2tx_SiacoinOutputs txn)) || negb (zlen (qe_Keys e) =? 0))
            "invalid QDAY transfer shape";
      _ ← for_each (v2tx_SiacoinInputs txn) 0 tt (fun _ inp _ =>
            if IsQdayNativePolicy (sat_Policy (v2sci_SatisfiedPolicy inp)) then Ok tt
            else fail_if (negb (QdayV1Active (ms_base ms) (childHeight (ms_base ms))) ||
                          negb (IsQdaySwapSpendPolicy (sat_Policy (v2sci_SatisfiedPolicy inp))))
                   "input must use native hybrid or atomic-swap policy");
      if QdayActive (ms_base ms) (childHeight (ms_base ms)) then
        intent ← QdayWorkIntent (ms_base ms) txn;
        fail_if (negb (QdayWorkValid intent (qe_Nonce e) (qd_DefendBits p)))
          "insufficient DEFEND work"
      else Ok tt
  end.

(** A transaction that carries neither coins nor a fee. *)
Definition is_bare_marker (txn : V2Transaction) : bool :=
  (zlen (v2tx_SiacoinInputs txn) + zlen (v2tx_SiacoinOutputs txn) =? 0) &&
  Currency.IsZero (v2tx_MinerFee txn) && negb (qdayUnsupported txn).

Definition coinbase_marker_ok (txn : V2Transaction) (payout : SiacoinOutput) : bool :=
  match ParseQdayEnvelope (v2tx_ArbitraryData txn) with
  | Ok e => (qe_Kind e =? QdayCoinbase) &&
            match qe_Keys e with
            | [k] => bool_decide (SpendPolicy_Address (QdayKeys_Policy k) = sco_Address payout)
            | _ => false
            end && is_bare_marker txn
  | _ => false
  end.

Definition work_marker_ok (work : V2Transaction) : bool :=
  match ParseQdayEnvelope (v2tx_ArbitraryData work) with
  | Ok e => (qe_Kind e =? QdayMiningWork) && (zlen (qe_Keys e) =? 0) &&
            bool_decide (qe_Witness e = zeros 32) && is_bare_marker work
  | _ => false
  end.

Definition validateQdayBlockMarkers (s : State) (b : Block) : outcome unit :=
  match b_V2 b, b_MinerPayouts b, V2Transactions b with
  | Some _, [payout], first :: rest =>
      _ ← fail_if (negb (zlen (b_Transactions b) =? 0)) "missing QDAY coinbase marker";
      _ ← fail_if (negb (coinbase_marker_ok first payout)) "invalid QDAY coinbase marker";
      if QdayV1Active s (childHeight s) then
        match last rest with
        | None => Err "missing QDAY mining work marker"
        | Some work => fail_if (negb (work_marker_ok work)) "invalid QDAY mining work marker"
        end
      else Ok tt
  | _, _, _ => Err "missing QDAY coinbase marker"
  end.
End Qday.
