(* ===== verification/ConsensusDifficulty.v ===== *)
(** * [core/consensus/application.go]: difficulty adjustment and headers

    The proof-of-work part of applying a block: [ApplyHeader] and the three
    difficulty rules (target based, v2, final cut).  Durations are [int64]; every
    product and sum of the source wraps through [i64]. *)
From stdpp Require Import prelude strings gmap.
From Stdlib Require Import ZArith Lia.
From S2P Require Import Prelude TypesCurrency TypesData TypesEncoding TypesHash TypesPolicy.
From S2P Require Import ConsensusWork ConsensusState.

Definition updateTotalWork (s : State) : outcome (Work * BlockID) :=
  if childHeight s <? n_V2_AllowHeight (s_Network s) then
    depth ← addTarget (s_Depth s) (s_ChildTarget s);
    w ← invTarget depth;
    Ok (w, depth)
  else
    totalWork ← Work.add (s_TotalWork s) (s_Difficulty s);
    depth ← invTarget totalWork;
    Ok (totalWork, depth).

Definition updateOakTime (s : State) (blockTimestamp parentTimestamp : Time) : Duration :=
  if childHeight s =? u64 (n_ASIC_Height (s_Network s) - 1) then n_ASIC_OakTime (s_Network s)
  else
    let prevTotalTime :=
      if childHeight s =? u64 (n_Oak_Height (s_Network s) - 1)
      then i64 (BlockInterval s * i64 (childHeight s)) else s_OakTime s in
    let decayedTime := i64 (dur_div (i64 (dur_div prevTotalTime Second * 995)) 1000 * Second) in
    i64 (decayedTime + time_Sub blockTimestamp parentTimestamp).

Definition updateOakTarget (s : State) : outcome BlockID :=
  if childHeight s =? u64 (n_ASIC_Height (s_Network s) - 1) then Ok (n_ASIC_OakTarget (s_Network s))
  else t ← mulTargetFrac (s_OakTarget s) 1000 995; addTarget t (s_ChildTarget s).

Definition updateOakWork (s : State) : outcome (Work * BlockID) :=
  if childHeight s <? n_V2_AllowHeight (s_Network s) then
    target ← updateOakTarget s;
    w ← invTarget target;
    Ok (w, target)
  else
    d ← Work.div64 (s_OakWork s) 200;
    w ← Work.sub (s_OakWork s) d;
    work ← Work.add w (s_Difficulty s);
    target ← invTarget work;
    Ok (work, target).

(** [float64(a)/float64(b) > n/d] and [< n/d], for [n, d > 0].  Both operands are
    below [2^53] (a duration in seconds is below [2^34]), and a quotient of such
    integers that differs from [25/10] or [10/25] differs by more than the rounding
    of a float64, so the comparison is that of the rationals; a zero divisor gives an
    infinity of the sign of [a], or NaN. *)
Definition ratio_gt (a b n d : Z) : bool :=
  if b =? 0 then 0 <? a else if 0 <? b then n * b <? a * d else a * d <? n * b.
Definition ratio_lt (a b n d : Z) : bool :=
  if b =? 0 then a <? 0 else if 0 <? b then a * d <? n * b else n * b <? a * d.

(** The clamp to a factor of 3 shared by the Oak and v2 rules. *)
Definition clamp_interval (interval t : Z) : Z :=
  if t <? dur_div interval 3 then dur_div interval 3
  else if i64 (interval * 3) <? t then i64 (interval * 3) else t.

Definition adjustTarget (s : State) (blockTimestamp targetTimestamp : Time) : outcome BlockID :=
  let blockInterval := dur_div (BlockInterval s) Second in
  let h := childHeight s in
  if h <=? n_Oak_Height (s_Network s) then
    if negb (h mod 500 =? 0) then Ok (s_ChildTarget s) else
    let ancestorDepth := if h <? 1000 then h else 1000 in
    let elapsed := dur_div (time_Sub blockTimestamp targetTimestamp) Second in
    let expected := i64 (blockInterval * ancestorDepth) in
    let '(expected, elapsed) :=
      if ratio_gt expected elapsed 25 10 then (25, 10)
      else if ratio_lt expected elapsed 10 25 then (10, 25)
      else (expected, elapsed) in
    mulTargetFrac (s_ChildTarget s) elapsed expected
  else
    let oakTotalTime := dur_div (s_OakTime s) Second in
    let height := ci_Height (s_Index s) in
    let elapsed :=
      if height <? n_Oak_FixHeight (s_Network s) then oakTotalTime
      else i64 (Unix (nth 0 (s_PrevTimestamps s) 0) - Unix (n_Oak_GenesisTimestamp (s_Network s))) in
    let delta := i64 (i64 (blockInterval * i64 height) - elapsed) in
    let shift := i64 (delta * delta) in
    let shift := if delta <? 0 then i64 (- shift) else shift in
    let shift := dur_div (i64 (shift * 10)) 100000000 in
    let targetBlockTime := clamp_interval blockInterval (i64 (blockInterval + shift)) in
    let oakTotalTime := if oakTotalTime <=? 0 then 1 else oakTotalTime in
    let targetBlockTime := if targetBlockTime =? 0 then 1 else targetBlockTime in
    hashrate ← big_Div maxTarget (be_decode (s_OakTarget s));
    hashrate ← big_Div hashrate oakTotalTime;
    let hashrate := hashrate * targetBlockTime in
    let hashrate := if hashrate =? 0 then 1 else hashrate in
    q ← big_Div maxTarget hashrate;
    newTarget ← intToTarget q;
    if h =? n_ASIC_Height (s_Network s) then Ok newTarget else
    minT ← mulTargetFrac (s_ChildTarget s) 1004 1000;
    maxT ← mulTargetFrac (s_ChildTarget s) 1000 1004;
    Ok (if CmpWork newTarget minT <? 0 then minT
        else if 0 <? CmpWork newTarget maxT then maxT else newTarget).

Definition adjustDifficultyV2 (s : State) (blockTimestamp : Time) : outcome Work :=
  let expectedTime := i64 (BlockInterval s * i64 (childHeight s)) in
  let actualTime := time_Sub blockTimestamp (n_Oak_GenesisTimestamp (s_Network s)) in
  let delta := i64 (expectedTime - actualTime) in
  let shift := i64 (i64 (10 * dur_div delta 10000) * dur_div delta 10000) in
  let shift := if delta <? 0 then i64 (- shift) else shift in
  let targetBlockTime := clamp_interval (BlockInterval s) (i64 (BlockInterval s + shift)) in
  let oakTime := if s_OakTime s <=? Second then Second else s_OakTime s in
  estimatedHashrate ← Work.div64 (s_OakWork s) (u64 (dur_div oakTime Second));
  newDifficulty ← Work.mul64 estimatedHashrate (u64 (dur_div targetBlockTime Second));
  maxAdjust ← Work.div64 (s_Difficulty s) 250;
  minDifficulty ← Work.sub (s_Difficulty s) maxAdjust;
  if Work.Cmp newDifficulty minDifficulty <? 0 then Ok minDifficulty else
  maxDifficulty ← Work.add (s_Difficulty s) maxAdjust;
  Ok (if 0 <? Work.Cmp newDifficulty maxDifficulty then maxDifficulty else newDifficulty).

(** The target block interval of the final-cut rule. *)
Definition targetInterval (s : State) (blockTimestamp : Time) : Duration :=
  let expectedDuration := i64 (BlockInterval s * i64 (childHeight s)) in
  let actualDuration := time_Sub blockTimestamp (n_Oak_GenesisTimestamp (s_Network s)) in
  let shift := dur_div (i64 (expectedDuration - actualDuration)) 1000 in
  let t := i64 (BlockInterval s + shift) in
  let t := Z.min t (i64 (BlockInterval s * 3)) in
  Z.max t (dur_div (BlockInterval s) 3).

Definition adjustDifficultyFinalCut (s : State) (blockTimestamp : Time) : outcome Work :=
  a ← Work.mul64 (s_OakWork s) (u64 (targetInterval s blockTimestamp));
  half ← Work.mul64 Work.oneWork (u64 (dur_div (s_OakTime s) 2));
  a ← Work.add a half;
  newDifficulty ← Work.div64 a (u64 (Z.max (s_OakTime s) 1));
  d250 ← Work.div64 (s_Difficulty s) 250;
  let maxAdjust := Work.max d250 Work.oneWork in
  hi ← Work.add (s_Difficulty s) maxAdjust;
  let newDifficulty := Work.min newDifficulty hi in
  lo ← Work.sub (s_Difficulty s) maxAdjust;
  let newDifficulty := Work.max newDifficulty lo in
  Ok (Work.max newDifficulty Work.oneWork).

Definition adjustDifficulty (s : State) (blockTimestamp targetTimestamp : Time)
    : outcome (Work * BlockID) :=
  if childHeight s <? n_V2_AllowHeight (s_Network s) then
    target ← adjustTarget s blockTimestamp targetTimestamp;
    w ← invTarget target;
    Ok (w, target)
  else
    difficulty ← (if childHeight s <? n_V2_FinalCutHeight (s_Network s)
                  then adjustDifficultyV2 s blockTimestamp
                  else adjustDifficultyFinalCut s blockTimestamp);
    target ← invTarget difficulty;
    Ok (difficulty, target).

(** ** Record updates of [State] *)
Definition set_pow (s : State) (index : ChainIndex) (ts : list Time) (depth childTarget : BlockID)
    (oakTime : Duration) (oakTarget : BlockID) (totalWork difficulty oakWork : Work) : State :=
  {| s_QdayHeight := s_QdayHeight s; s_Network := s_Network s; s_Index := index;
     s_PrevTimestamps := ts; s_Depth := depth; s_ChildTarget := childTarget;
     s_SiafundTaxRevenue := s_SiafundTaxRevenue s; s_OakTime := oakTime; s_OakTarget := oakTarget;
     s_FoundationSubsidyAddress := s_FoundationSubsidyAddress s;
     s_FoundationManagementAddress := s_FoundationManagementAddress s;
     s_TotalWork := totalWork; s_Difficulty := difficulty; s_OakWork := oakWork;
     s_Elements := s_Elements s; s_Attestations := s_Attestations s |}.

Section Header.
Context {crypto : Crypto}.

(** [next.PrevTimestamps]: the new timestamp, then the previous ones shifted. *)
Definition push_timestamp (t : Time) (prev : list Time) : list Time :=
  take (length prev) (t :: prev).

Definition ApplyHeader (s : State) (bh : BlockHeader) (targetTimestamp : Time) : outcome State :=
  if (0 <? ci_Height (s_Index s)) && negb (bool_decide (ci_ID (s_Index s) = bh_ParentID bh))
  then Panic "consensus: cannot apply non-child block"
  else
    next ←
      (if bool_decide (bh_ParentID bh = zeroHash) then
         let oakTime := updateOakTime s (bh_Timestamp bh) (bh_Timestamp bh) in
         '(oakWork, oakTarget) ← updateOakWork s;
         Ok (set_pow s {| ci_Height := 0; ci_ID := BlockHeader_ID bh |}
               (push_timestamp (bh_Timestamp bh) (s_PrevTimestamps s))
               (s_Depth s) (s_ChildTarget s) oakTime oakTarget
               (s_TotalWork s) (s_Difficulty s) oakWork)
       else
         '(totalWork, depth) ← updateTotalWork s;
         '(difficulty, childTarget) ← adjustDifficulty s (bh_Timestamp bh) targetTimestamp;
         let oakTime := updateOakTime s (bh_Timestamp bh) (nth 0 (s_PrevTimestamps s) 0) in
         '(oakWork, oakTarget) ← updateOakWork s;
         Ok (set_pow s {| ci_Height := u64 (ci_Height (s_Index s) + 1); ci_ID := BlockHeader_ID bh |}
               (push_timestamp (bh_Timestamp bh) (s_PrevTimestamps s))
               depth childTarget oakTime oakTarget totalWork difficulty oakWork));
    Ok (if n_V2_FinalCutHeight (s_Network next) <=? ci_Height (s_Index next)
        then set_pow next (s_Index next) (s_PrevTimestamps next) zeroHash zeroHash (s_OakTime next)
               zeroHash (s_TotalWork next) (s_Difficulty next) (s_OakWork next)
        else next).
End Header.
