(* ===== verification/ConsensusMidState.v ===== *)
(** * [core/consensus/application.go]: the intra-block state

    The [MidState] operations that record the creation, spending, revision and
    resolution of elements, and the application of v1 and v2 transactions and of the
    block itself.  [record*] returns a pointer into a diff slice; here it returns the
    index, and an index that does not belong to the slice panics. *)
From stdpp Require Import prelude strings gmap.
From Stdlib Require Import ZArith Lia.
From S2P Require Import Prelude TypesCurrency TypesData TypesEncoding TypesHash TypesPolicy.
From S2P Require Import ConsensusWork ConsensusState ConsensusQday.

(** ** Field updates *)
Definition ms_with (ms : MidState) (proved : bool) (elements : idmap nat)
    (spends : idmap TransactionID) (revenue : Currency) (sces : list SiacoinElementDiff)
    (sfes : list SiafundElementDiff) (fces : list FileContractElementDiff)
    (v2fces : list V2FileContractElementDiff) (aes : list AttestationElement) : MidState :=
  {| ms_qdayProved := proved; ms_base := ms_base ms; ms_elements := elements;
     ms_spends := spends; ms_siafundTaxRevenue := revenue;
     ms_foundationSubsidy := ms_foundationSubsidy ms;
     ms_foundationManagement := ms_foundationManagement ms;
     ms_sces := sces; ms_sfes := sfes; ms_fces := fces; ms_v2fces := v2fces; ms_aes := aes;
     ms_cie := ms_cie ms |}.
Definition set_qdayProved (ms : MidState) : MidState :=
  ms_with ms true (ms_elements ms) (ms_spends ms) (ms_siafundTaxRevenue ms)
    (ms_sces ms) (ms_sfes ms) (ms_fces ms) (ms_v2fces ms) (ms_aes ms).
Definition set_elements (ms : MidState) (m : idmap nat) : MidState :=
  ms_with ms (ms_qdayProved ms) m (ms_spends ms) (ms_siafundTaxRevenue ms)
    (ms_sces ms) (ms_sfes ms) (ms_fces ms) (ms_v2fces ms) (ms_aes ms).
Definition set_spends (ms : MidState) (m : idmap TransactionID) : MidState :=
  ms_with ms (ms_qdayProved ms) (ms_elements ms) m (ms_siafundTaxRevenue ms)
    (ms_sces ms) (ms_sfes ms) (ms_fces ms) (ms_v2fces ms) (ms_aes ms).
Definition set_revenue (ms : MidState) (c : Currency) : MidState :=
  ms_with ms (ms_qdayProved ms) (ms_elements ms) (ms_spends ms) c
    (ms_sces ms) (ms_sfes ms) (ms_fces ms) (ms_v2fces ms) (ms_aes ms).
Definition set_sces (ms : MidState) (l : list SiacoinElementDiff) : MidState :=
  ms_with ms (ms_qdayProved ms) (ms_elements ms) (ms_spends ms) (ms_siafundTaxRevenue ms)
    l (ms_sfes ms) (ms_fces ms) (ms_v2fces ms) (ms_aes ms).
Definition set_sfes (ms : MidState) (l : list SiafundElementDiff) : MidState :=
  ms_with ms (ms_qdayProved ms) (ms_elements ms) (ms_spends ms) (ms_siafundTaxRevenue ms)
    (ms_sces ms) l (ms_fces ms) (ms_v2fces ms) (ms_aes ms).
Definition set_fces (ms : MidState) (l : list FileContractElementDiff) : MidState :=
  ms_with ms (ms_qdayProved ms) (ms_elements ms) (ms_spends ms) (ms_siafundTaxRevenue ms)
    (ms_sces ms) (ms_sfes ms) l (ms_v2fces ms) (ms_aes ms).
Definition set_v2fces (ms : MidState) (l : list V2FileContractElementDiff) : MidState :=
  ms_with ms (ms_qdayProved ms) (ms_elements ms) (ms_spends ms) (ms_siafundTaxRevenue ms)
    (ms_sces ms) (ms_sfes ms) (ms_fces ms) l (ms_aes ms).
Definition set_aes (ms : MidState) (l : list AttestationElement) : MidState :=
  ms_with ms (ms_qdayProved ms) (ms_elements ms) (ms_spends ms) (ms_siafundTaxRevenue ms)
    (ms_sces ms) (ms_sfes ms) (ms_fces ms) (ms_v2fces ms) l.
Definition set_foundation (ms : MidState) (subsidy management : Address) (cie : ChainIndexElement)
    : MidState :=
  {| ms_qdayProved := ms_qdayProved ms; ms_base := ms_base ms; ms_elements := ms_elements ms;
     ms_spends := ms_spends ms; ms_siafundTaxRevenue := ms_siafundTaxRevenue ms;
     ms_foundationSubsidy := subsidy; ms_foundationManagement := management;
     ms_sces := ms_sces ms; ms_sfes := ms_sfes ms; ms_fces := ms_fces ms;
     ms_v2fces := ms_v2fces ms; ms_aes := ms_aes ms; ms_cie := cie |}.

(** An update through the pointer [&l[i]]. *)
Definition update_at {A} (i : nat) (f : A -> A) (l : list A) : outcome (list A) :=
  match l !! i with Some x => Ok (<[i := f x]> l) | None => index_out_of_range end.

(** ** Zero values *)
Definition zeroSE : StateElement :=
  {| se_LeafIndex := 0; se_MerkleProof := []; se_shared := false |}.
Definition zeroOutput : SiacoinOutput :=
  {| sco_Value := Currency.ZeroCurrency; sco_Address := zeroHash |}.
Definition zeroSCED : SiacoinElementDiff :=
  {| sced_SiacoinElement := {| sce_ID := zeroHash; sce_StateElement := zeroSE;
                               sce_SiacoinOutput := zeroOutput; sce_MaturityHeight := 0 |};
     sced_Created := false; sced_Spent := false |}.
Definition zeroSFED : SiafundElementDiff :=
  {| sfed_SiafundElement :=
       {| sfe_ID := zeroHash; sfe_StateElement := zeroSE;
          sfe_SiafundOutput := {| sfo_Value := 0; sfo_Address := zeroHash |};
          sfe_ClaimStart := Currency.ZeroCurrency |};
     sfed_Created := false; sfed_Spent := false |}.
Definition zeroFC : FileContract :=
  {| fc_Filesize := 0; fc_FileMerkleRoot := zeroHash; fc_WindowStart := 0; fc_WindowEnd := 0;
     fc_Payout := Currency.ZeroCurrency; fc_ValidProofOutputs := []; fc_MissedProofOutputs := [];
     fc_UnlockHash := zeroHash; fc_RevisionNumber := 0 |}.
Definition zeroFCED : FileContractElementDiff :=
  {| fced_FileContractElement :=
       {| fce_ID := zeroHash; fce_StateElement := zeroSE; fce_FileContract := zeroFC |};
     fced_Created := false; fced_Revision := None; fced_Resolved := false; fced_Valid := false |}.
Definition zeroV2FC : V2FileContract :=
  {| v2fc_Capacity := 0; v2fc_Filesize := 0; v2fc_FileMerkleRoot := zeroHash;
     v2fc_ProofHeight := 0; v2fc_ExpirationHeight := 0; v2fc_RenterOutput := zeroOutput;
     v2fc_HostOutput := zeroOutput; v2fc_MissedHostValue := Currency.ZeroCurrency;
     v2fc_TotalCollateral := Currency.ZeroCurrency; v2fc_RenterPublicKey := zeroHash;
     v2fc_HostPublicKey := zeroHash; v2fc_RevisionNumber := 0;
     v2fc_RenterSignature := zeroSignature; v2fc_HostSignature := zeroSignature |}.
Definition zeroV2FCED : V2FileContractElementDiff :=
  {| v2fced_V2FileContractElement :=
       {| v2fce_ID := zeroHash; v2fce_StateElement := zeroSE; v2fce_V2FileContract := zeroV2FC |};
     v2fced_Created := false; v2fced_Revision := None; v2fced_Resolution := None |}.

(** ** Siacoin elements *)
Definition recordSiacoinElement (ms : MidState) (id : SiacoinOutputID) : MidState * nat :=
  match ms_elements ms !! id with
  | Some i => (ms, i)
  | None =>
      let n := length (ms_sces ms) in
      (set_elements (set_sces ms (ms_sces ms ++ [zeroSCED])) (<[id := n]> (ms_elements ms)), n)
  end.

Definition modify_sced (ms : MidState) (id : SiacoinOutputID)
    (f : SiacoinElementDiff -> SiacoinElementDiff) : outcome MidState :=
  let '(ms, i) := recordSiacoinElement ms id in
  l ← update_at i f (ms_sces ms); Ok (set_sces ms l).

Definition createSiacoinElement (ms : MidState) (id : SiacoinOutputID) (sco : SiacoinOutput)
    : outcome MidState :=
  modify_sced ms id (fun d =>
    {| sced_SiacoinElement :=
         {| sce_ID := id; sce_StateElement := unassigned; sce_SiacoinOutput := sco;
            sce_MaturityHeight := if isQday (ms_base ms) then childHeight (ms_base ms) else 0 |};
       sced_Created := true; sced_Spent := sced_Spent d |}).

Definition createImmatureSiacoinElement (ms : MidState) (id : SiacoinOutputID) (sco : SiacoinOutput)
    : outcome MidState :=
  ms ← createSiacoinElement ms id sco;
  modify_sced ms id (fun d =>
    {| sced_SiacoinElement :=
         {| sce_ID := sce_ID (sced_SiacoinElement d);
            sce_StateElement := sce_StateElement (sced_SiacoinElement d);
            sce_SiacoinOutput := sce_SiacoinOutput (sced_SiacoinElement d);
            sce_MaturityHeight := MaturityHeight (ms_base ms) |};
       sced_Created := sced_Created d; sced_Spent := sced_Spent d |}).

Definition spendSiacoinElement (ms : MidState) (sce : SiacoinElement) (txid : TransactionID)
    : outcome MidState :=
  ms ← modify_sced ms (sce_ID sce) (fun d =>
         {| sced_SiacoinElement := SiacoinElement_Copy sce; sced_Created := sced_Created d;
            sced_Spent := true |});
  Ok (set_spends ms (<[sce_ID sce := txid]> (ms_spends ms))).

(** ** Siafund elements *)
Definition recordSiafundElement (ms : MidState) (id : SiafundOutputID) : MidState * nat :=
  match ms_elements ms !! id with
  | Some i => (ms, i)
  | None =>
      let n := length (ms_sfes ms) in
      (set_elements (set_sfes ms (ms_sfes ms ++ [zeroSFED])) (<[id := n]> (ms_elements ms)), n)
  end.

Definition modify_sfed (ms : MidState) (id : SiafundOutputID)
    (f : SiafundElementDiff -> SiafundElementDiff) : outcome MidState :=
  let '(ms, i) := recordSiafundElement ms id in
  l ← update_at i f (ms_sfes ms); Ok (set_sfes ms l).

Definition createSiafundElement (ms : MidState) (id : SiafundOutputID) (sfo : SiafundOutput)
    : outcome MidState :=
  modify_sfed ms id (fun d =>
    {| sfed_SiafundElement :=
         {| sfe_ID := id; sfe_StateElement := unassigned; sfe_SiafundOutput := sfo;
            sfe_ClaimStart := ms_siafundTaxRevenue ms |};
       sfed_Created := true; sfed_Spent := sfed_Spent d |}).

Definition spendSiafundElement (ms : MidState) (sfe : SiafundElement) (txid : TransactionID)
    : outcome MidState :=
  ms ← modify_sfed ms (sfe_ID sfe) (fun d =>
         {| sfed_SiafundElement := SiafundElement_Copy sfe; sfed_Created := sfed_Created d;
            sfed_Spent := true |});
  Ok (set_spends ms (<[sfe_ID sfe := txid]> (ms_spends ms))).

(** ** v1 file contract elements *)
Definition recordFileContractElement (ms : MidState) (id : FileContractID) : MidState * nat :=
  match ms_elements ms !! id with
  | Some i => (ms, i)
  | None =>
      let n := length (ms_fces ms) in
      (set_elements (set_fces ms (ms_fces ms ++ [zeroFCED])) (<[id := n]> (ms_elements ms)), n)
  end.

Definition modify_fced (ms : MidState) (id : FileContractID)
    (f : FileContractElementDiff -> FileContractElementDiff) : outcome MidState :=
  let '(ms, i) := recordFileContractElement ms id in
  l ← update_at i f (ms_fces ms); Ok (set_fces ms l).

Definition createFileContractElement (ms : MidState) (id : FileContractID) (fc : FileContract)
    : outcome MidState :=
  ms ← modify_fced ms id (fun d =>
         {| fced_FileContractElement :=
              {| fce_ID := id; fce_StateElement := unassigned; fce_FileContract := fc |};
            fced_Created := true; fced_Revision := fced_Revision d;
            fced_Resolved := fced_Resolved d; fced_Valid := fced_Valid d |});
  r ← Currency.Add (ms_siafundTaxRevenue ms) (FileContractTax (ms_base ms) fc);
  Ok (set_revenue ms r).

Definition set_payout (fc : FileContract) (payout : Currency) : FileContract :=
  {| fc_Filesize := fc_Filesize fc; fc_FileMerkleRoot := fc_FileMerkleRoot fc;
     fc_WindowStart := fc_WindowStart fc; fc_WindowEnd := fc_WindowEnd fc; fc_Payout := payout;
     fc_ValidProofOutputs := fc_ValidProofOutputs fc;
     fc_MissedProofOutputs := fc_MissedProofOutputs fc; fc_UnlockHash := fc_UnlockHash fc;
     fc_RevisionNumber := fc_RevisionNumber fc |}.

Definition reviseFileContractElement (ms : MidState) (fce : FileContractElement) (rev : FileContract)
    : outcome MidState :=
  let rev := set_payout rev (fc_Payout (fce_FileContract fce)) in
  modify_fced ms (fce_ID fce) (fun d =>
    let mk e r := {| fced_FileContractElement := e; fced_Created := fced_Created d;
                     fced_Revision := r; fced_Resolved := fced_Resolved d;
                     fced_Valid := fced_Valid d |} in
    let e := fced_FileContractElement d in
    if fced_Created d then
      mk {| fce_ID := fce_ID e; fce_StateElement := fce_StateElement e; fce_FileContract := rev |}
        (fced_Revision d)
    else match fced_Revision d with
         | Some _ => mk e (Some rev)
         | None => mk (FileContractElement_Copy fce) (Some rev)
         end).

Definition resolveFileContractElement (ms : MidState) (fce : FileContractElement) (valid : bool)
    (txid : TransactionID) : outcome MidState :=
  ms ← modify_fced ms (fce_ID fce) (fun d =>
         {| fced_FileContractElement := FileContractElement_Copy fce;
            fced_Created := fced_Created d; fced_Revision := fced_Revision d;
            fced_Resolved := true; fced_Valid := valid |});
  Ok (set_spends ms (<[fce_ID fce := txid]> (ms_spends ms))).

(** ** v2 file contract elements *)
Definition recordV2FileContractElement (ms : MidState) (id : FileContractID) : MidState * nat :=
  match ms_elements ms !! id with
  | Some i => (ms, i)
  | None =>
      let n := length (ms_v2fces ms) in
      (set_elements (set_v2fces ms (ms_v2fces ms ++ [zeroV2FCED])) (<[id := n]> (ms_elements ms)), n)
  end.

(** The update may itself panic. *)
Definition modify_v2fced (ms : MidState) (id : FileContractID)
    (f : V2FileContractElementDiff -> outcome V2FileContractElementDiff) : outcome MidState :=
  let '(ms, i) := recordV2FileContractElement ms id in
  match ms_v2fces ms !! i with
  | Some d => d ← f d; Ok (set_v2fces ms (<[i := d]> (ms_v2fces ms)))
  | None => index_out_of_range
  end.

Definition createV2FileContractElement (ms : MidState) (id : FileContractID) (fc : V2FileContract)
    : outcome MidState :=
  ms ← modify_v2fced ms id (fun d => Ok
         {| v2fced_V2FileContractElement :=
              {| v2fce_ID := id; v2fce_StateElement := unassigned; v2fce_V2FileContract := fc |};
            v2fced_Created := true; v2fced_Revision := v2fced_Revision d;
            v2fced_Resolution := v2fced_Resolution d |});
  tax ← V2FileContractTax fc;
  r ← Currency.Add (ms_siafundTaxRevenue ms) tax;
  Ok (set_revenue ms r).

Definition reviseV2FileContractElement (ms : MidState) (fce : V2FileContractElement)
    (rev : V2FileContract) : outcome MidState :=
  modify_v2fced ms (v2fce_ID fce) (fun d =>
    let mk e r := {| v2fced_V2FileContractElement := e; v2fced_Created := v2fced_Created d;
                     v2fced_Revision := r; v2fced_Resolution := v2fced_Resolution d |} in
    let e := v2fced_V2FileContractElement d in
    Ok (if v2fced_Created d then
          mk {| v2fce_ID := v2fce_ID e; v2fce_StateElement := v2fce_StateElement e;
                v2fce_V2FileContract := rev |} (v2fced_Revision d)
        else match v2fced_Revision d with
             | Some _ => mk e (Some rev)
             | None => mk (V2FileContractElement_Copy fce) (Some rev)
             end)).

Definition resolveV2FileContractElement (ms : MidState) (fce : V2FileContractElement)
    (res : V2FileContractResolutionType) (txid : TransactionID) : outcome MidState :=
  ms ← modify_v2fced ms (v2fce_ID fce) (fun d =>
         if v2fced_Created d then Panic "consensus: resolved a newly-created v2 contract"
         else Ok {| v2fced_V2FileContractElement := V2FileContractElement_Copy fce;
                    v2fced_Created := v2fced_Created d; v2fced_Revision := v2fced_Revision d;
                    v2fced_Resolution := Some res |});
  Ok (set_spends ms (<[v2fce_ID fce := txid]> (ms_spends ms))).

Definition createAttestationElement (ms : MidState) (id : AttestationID) (a : Attestation)
    : MidState :=
  set_elements
    (set_aes ms (ms_aes ms ++
       [{| ae_ID := id; ae_StateElement := unassigned; ae_Attestation := a |}]))
    (<[id := length (ms_aes ms)]> (ms_elements ms)).

Section Apply.
Context {crypto : Crypto}.

(** [ms.siafundTaxRevenue.Sub(ClaimStart).Div64(SiafundCount).Mul64(Value)] *)
Definition claimPortion (ms : MidState) (sfe : SiafundElement) : outcome Currency :=
  c ← Currency.Sub (ms_siafundTaxRevenue ms) (sfe_ClaimStart sfe);
  c ← Currency.Div64 c SiafundCount;
  Currency.Mul64 c (sfo_Value (sfe_SiafundOutput sfe)).

Definition create_all (id : nat -> SiacoinOutputID) (outs : list SiacoinOutput) (ms : MidState)
    : outcome MidState :=
  for_each outs 0 ms (fun i sco ms => createSiacoinElement ms (id i) sco).
Definition create_all_immature (id : nat -> SiacoinOutputID) (outs : list SiacoinOutput)
    (ms : MidState) : outcome MidState :=
  for_each outs 0 ms (fun i sco ms => createImmatureSiacoinElement ms (id i) sco).

(** [bytes.HasPrefix] *)
Definition has_prefix (b prefix : bytes) : bool := bool_decide (take (length prefix) b = prefix).

(** [update.DecodeFrom] with its error ignored: a short buffer leaves the rest of
    the two arrays zero. *)
Definition decode_update (b : bytes) : FoundationAddressUpdate :=
  {| fau_NewPrimary := to_array 32 (take 32 b); fau_NewFailsafe := to_array 32 (drop 32 b) |}.

Definition ApplyTransaction (ms : MidState) (txn : Transaction) (ts : V1TransactionSupplement)
    : outcome MidState :=
  let txid := Transaction_ID txn in
  ms ← for_each (tx_SiacoinInputs txn) 0 ms (fun _ sci ms =>
         o ← ms_siacoinElement ms ts (sci_ParentID sci);
         match o with
         | None => Panic "missing SiacoinElement"
         | Some sce => spendSiacoinElement ms (SiacoinElement_Share sce) txid
         end);
  ms ← create_all (Transaction_SiacoinOutputID txn) (tx_SiacoinOutputs txn) ms;
  ms ← for_each (tx_SiafundInputs txn) 0 ms (fun _ sfi ms =>
         o ← ms_siafundElement ms ts (sfi_ParentID sfi);
         match o with
         | None => Panic "missing SiafundElement"
         | Some sfe =>
             portion ← claimPortion ms sfe;
             ms ← spendSiafundElement ms (SiafundElement_Share sfe) txid;
             createImmatureSiacoinElement ms (ClaimOutputID (sfi_ParentID sfi))
               {| sco_Value := portion; sco_Address := sfi_ClaimAddress sfi |}
         end);
  ms ← for_each (tx_SiafundOutputs txn) 0 ms
         (fun i sfo ms => createSiafundElement ms (Transaction_SiafundOutputID txn i) sfo);
  ms ← for_each (tx_FileContracts txn) 0 ms
         (fun i fc ms => createFileContractElement ms (Transaction_FileContractID txn i) fc);
  ms ← for_each (tx_FileContractRevisions txn) 0 ms (fun _ fcr ms =>
         o ← ms_fileContractElement ms ts (fcr_ParentID fcr);
         match o with
         | None => Panic "missing FileContractElement"
         | Some fce => reviseFileContractElement ms (FileContractElement_Share fce)
                         (fcr_FileContract fcr)
         end);
  ms ← for_each (tx_StorageProofs txn) 0 ms (fun _ sp ms =>
         o ← ms_fileContractElement ms ts (sp_ParentID sp);
         match o with
         | None => Panic "missing V1StorageProofSupplement"
         | Some fce =>
             ms ← resolveFileContractElement ms (FileContractElement_Share fce) true txid;
             create_all_immature (ValidOutputID (sp_ParentID sp))
               (fc_ValidProofOutputs (fce_FileContract fce)) ms
         end);
  if n_Foundation_Height (s_Network (ms_base ms)) <=? ci_Height (s_Index (ms_base ms)) then
    Ok (foldl (fun ms arb =>
          if has_prefix arb SpecifierFoundation then
            let update := decode_update (drop (length SpecifierFoundation) arb) in
            set_foundation ms (fau_NewPrimary update) (fau_NewFailsafe update) (ms_cie ms)
          else ms) ms (tx_ArbitraryData txn))
  else Ok ms.

Definition is_canary_proof (txn : V2Transaction) : bool :=
  match ParseQdayEnvelope (v2tx_ArbitraryData txn) with
  | Ok e => qe_Kind e =? QdayCanaryProof
  | _ => false
  end.

(** One iteration over the resolutions of a v2 transaction. *)
Definition applyResolution (txid : TransactionID) (fcr : V2FileContractResolution) (ms : MidState)
    : outcome MidState :=
  let parent := res_Parent fcr in
  let fc := v2fce_V2FileContract parent in
  ms ← resolveV2FileContractElement ms (V2FileContractElement_Share parent) (res_Resolution fcr) txid;
  '(ms, renter, host) ←
    match res_Resolution fcr with
    | V2Renewal r =>
        ms ← createV2FileContractElement ms (V2RenewalID (v2fce_ID parent)) (ren_NewContract r);
        Ok (ms, ren_FinalRenterOutput r, ren_FinalHostOutput r)
    | V2Proof _ => Ok (ms, v2fc_RenterOutput fc, v2fc_HostOutput fc)
    | V2FileContractExpiration => Ok (ms, v2fc_RenterOutput fc, V2FileContract_MissedHostOutput fc)
    end;
  ms ← createImmatureSiacoinElement ms (V2RenterOutputID (v2fce_ID parent)) renter;
  createImmatureSiacoinElement ms (V2HostOutputID (v2fce_ID parent)) host.

Definition ApplyV2Transaction (ms : MidState) (txn : V2Transaction) : outcome MidState :=
  let ms := if isQday (ms_base ms) && is_canary_proof txn then set_qdayProved ms else ms in
  let txid := V2Transaction_ID txn in
  ms ← for_each (v2tx_SiacoinInputs txn) 0 ms (fun _ sci ms =>
         spendSiacoinElement ms (SiacoinElement_Share (v2sci_Parent sci)) txid);
  ms ← create_all (V2SiacoinOutputID txid) (v2tx_SiacoinOutputs txn) ms;
  ms ← for_each (v2tx_SiafundInputs txn) 0 ms (fun _ sfi ms =>
         ms ← spendSiafundElement ms (SiafundElement_Share (v2sfi_Parent sfi)) txid;
         portion ← claimPortion ms (v2sfi_Parent sfi);
         createImmatureSiacoinElement ms (V2ClaimOutputID (sfe_ID (v2sfi_Parent sfi)))
           {| sco_Value := portion; sco_Address := v2sfi_ClaimAddress sfi |});
  ms ← for_each (v2tx_SiafundOutputs txn) 0 ms
         (fun i sfo ms => createSiafundElement ms (V2SiafundOutputID txid i) sfo);
  ms ← for_each (v2tx_FileContracts txn) 0 ms
         (fun i fc ms => createV2FileContractElement ms (V2FileContractID txid i) fc);
  ms ← for_each (v2tx_FileContractRevisions txn) 0 ms (fun _ fcr ms =>
         reviseV2FileContractElement ms (V2FileContractElement_Share (v2fcr_Parent fcr))
           (v2fcr_Revision fcr));
  ms ← for_each (v2tx_FileContractResolutions txn) 0 ms (fun _ fcr ms => applyResolution txid fcr ms);
  ms ← for_each (v2tx_Attestations txn) 0 ms
         (fun i a ms => Ok (createAttestationElement ms (V2AttestationID txid i) a));
  Ok (match v2tx_NewFoundationAddress txn with
      | None => ms
      | Some a => set_foundation ms a
                    (if bool_decide (a = VoidAddress) then ms_foundationManagement ms else a)
                    (ms_cie ms)
      end).

(** [ms.ApplyBlock] *)
Definition MidState_ApplyBlock (ms : MidState) (b : Block) (bs : V1BlockSupplement)
    : outcome MidState :=
  if (n_V2_RequireHeight (s_Network (ms_base ms)) <=? childHeight (ms_base ms)) &&
     (negb (zlen (bs_Transactions bs) =? 0) || negb (zlen (bs_ExpiringFileContracts bs) =? 0))
  then Panic "consensus: block supplement must be empty after v2 hardfork" else
  ms ← for_each (b_Transactions b) 0 ms (fun i txn ms =>
         match bs_Transactions bs !! i with
         | Some ts => ApplyTransaction ms txn ts
         | None => index_out_of_range
         end);
  ms ← for_each (V2Transactions b) 0 ms (fun _ txn ms => ApplyV2Transaction ms txn);
  let bid := Block_ID b in
  ms ← create_all_immature (MinerOutputID bid) (b_MinerPayouts b) ms;
  subsidy ← FoundationSubsidy (ms_base ms);
  ms ← match subsidy with
       | Some sco => createImmatureSiacoinElement ms (FoundationOutputID bid) sco
       | None => Ok ms
       end;
  ms ← for_each (bs_ExpiringFileContracts bs) 0 ms (fun _ fce ms =>
         if ms_isSpent ms (fce_ID fce) then Ok ms else
         ms ← resolveFileContractElement ms (FileContractElement_Share fce) false bid;
         create_all_immature (MissedOutputID (fce_ID fce))
           (fc_MissedProofOutputs (fce_FileContract fce)) ms);
  Ok (set_foundation ms (ms_foundationSubsidy ms) (ms_foundationManagement ms)
        {| cie_ID := bid; cie_StateElement := unassigned;
           cie_ChainIndex := {| ci_Height := childHeight (ms_base ms); ci_ID := bid |} |}).
End Apply.
