(* ===== verification/ConsensusApply.v ===== *)
(** * [core/consensus/application.go]: applying and reverting blocks

    [ApplyBlock] and [RevertBlock] with the updates they return.  The leaves given to
    the accumulator point into the diffs; [write_back] stores the state elements the
    accumulator updated through those pointers. *)
From stdpp Require Import prelude strings gmap.
From Stdlib Require Import ZArith Lia.
From S2P Require Import Prelude TypesCurrency TypesData TypesEncoding TypesHash TypesPolicy.
From S2P Require Import ConsensusWork ConsensusState ConsensusMerkle ConsensusQday.
From S2P Require Import ConsensusDifficulty ConsensusMidState.

Record ApplyUpdate := {
  au_sces : list SiacoinElementDiff; au_sfes : list SiafundElementDiff;
  au_fces : list FileContractElementDiff; au_v2fces : list V2FileContractElementDiff;
  au_aes : list AttestationElement; au_cie : ChainIndexElement; au_eau : elementApplyUpdate }.

Record RevertUpdate := {
  ru_sces : list SiacoinElementDiff; ru_sfes : list SiafundElementDiff;
  ru_fces : list FileContractElementDiff; ru_v2fces : list V2FileContractElementDiff;
  ru_aes : list AttestationElement; ru_cie : ChainIndexElement; ru_eru : elementRevertUpdate }.

(** ** Writes through the pointers of leaves *)
Definition set_sced_se (se : StateElement) (d : SiacoinElementDiff) : SiacoinElementDiff :=
  {| sced_SiacoinElement := set_sce_se (fun _ => se) (sced_SiacoinElement d);
     sced_Created := sced_Created d; sced_Spent := sced_Spent d |}.
Definition set_sfed_se (se : StateElement) (d : SiafundElementDiff) : SiafundElementDiff :=
  {| sfed_SiafundElement := set_sfe_se (fun _ => se) (sfed_SiafundElement d);
     sfed_Created := sfed_Created d; sfed_Spent := sfed_Spent d |}.
Definition set_fced_se (se : StateElement) (d : FileContractElementDiff) : FileContractElementDiff :=
  {| fced_FileContractElement := set_fce_se (fun _ => se) (fced_FileContractElement d);
     fced_Created := fced_Created d; fced_Revision := fced_Revision d;
     fced_Resolved := fced_Resolved d; fced_Valid := fced_Valid d |}.
Definition set_v2fced_se (se : StateElement) (d : V2FileContractElementDiff)
    : V2FileContractElementDiff :=
  {| v2fced_V2FileContractElement := set_v2fce_se (fun _ => se) (v2fced_V2FileContractElement d);
     v2fced_Created := v2fced_Created d; v2fced_Revision := v2fced_Revision d;
     v2fced_Resolution := v2fced_Resolution d |}.
Definition set_ae_se (se : StateElement) (e : AttestationElement) : AttestationElement :=
  {| ae_ID := ae_ID e; ae_StateElement := se; ae_Attestation := ae_Attestation e |}.

Definition write_back (ms : MidState) (l : elementLeaf) : MidState :=
  let se := el_StateElement l in
  match el_ref l with
  | RefSce i => set_sces ms (alter (set_sced_se se) i (ms_sces ms))
  | RefSfe i => set_sfes ms (alter (set_sfed_se se) i (ms_sfes ms))
  | RefFce i => set_fces ms (alter (set_fced_se se) i (ms_fces ms))
  | RefV2fce i => set_v2fces ms (alter (set_v2fced_se se) i (ms_v2fces ms))
  | RefAe i => set_aes ms (alter (set_ae_se se) i (ms_aes ms))
  | RefCie => set_foundation ms (ms_foundationSubsidy ms) (ms_foundationManagement ms)
                (set_cie_se (fun _ => se) (ms_cie ms))
  | RefLocal => ms
  end.

Section Apply.
Context {crypto : Crypto}.

(** The leaves visited by [forEachAppliedElement] and [forEachRevertedElement]. *)
Definition appliedLeaves (sces : list SiacoinElementDiff) (sfes : list SiafundElementDiff)
    (fces : list FileContractElementDiff) (v2fces : list V2FileContractElementDiff)
    (aes : list AttestationElement) (cie : ChainIndexElement) : list elementLeaf :=
  imap (fun i d => siacoinLeaf (RefSce i) (sced_SiacoinElement d) (sced_Spent d)) sces ++
  imap (fun i d => siafundLeaf (RefSfe i) (sfed_SiafundElement d) (sfed_Spent d)) sfes ++
  imap (fun i d => fileContractLeaf (RefFce i) (fced_FileContractElement d) (fced_Revision d)
                     (fced_Resolved d)) fces ++
  imap (fun i d => v2FileContractLeaf (RefV2fce i) (v2fced_V2FileContractElement d)
                     (v2fced_Revision d) (bool_decide (is_Some (v2fced_Resolution d)))) v2fces ++
  imap (fun i e => attestationLeaf (RefAe i) e) aes ++
  [chainIndexLeaf RefCie cie].

Definition revertedLeaves (sces : list SiacoinElementDiff) (sfes : list SiafundElementDiff)
    (fces : list FileContractElementDiff) (v2fces : list V2FileContractElementDiff)
    : list elementLeaf :=
  imap (fun i d => siacoinLeaf (RefSce i) (sced_SiacoinElement d) false) sces ++
  imap (fun i d => siafundLeaf (RefSfe i) (sfed_SiafundElement d) false) sfes ++
  imap (fun i d => fileContractLeaf (RefFce i) (fced_FileContractElement d) None false) fces ++
  imap (fun i d => v2FileContractLeaf (RefV2fce i) (v2fced_V2FileContractElement d) None false) v2fces.

Definition is_unassigned (l : elementLeaf) : bool := el_LeafIndex l =? UnassignedLeafIndex.

(** ** Tree nodes *)
Definition treeNode : Type := Z * Z * Hash256.

(** The nodes above a leaf until one already seen; [n] is the row reached. *)
Fixpoint walk_up (i : Z) (leafIndex row col : Z) (h : Hash256) (proof : list Hash256)
    (seen : list (Z * Z)) : list treeNode * list (Z * Z) :=
  match proof with
  | [] => ([], seen)
  | sibling :: proof' =>
      let h := if has_bit leafIndex i then SumPair sibling h else SumPair h sibling in
      let row := row + 1 in
      let col := Z.shiftr col 1 in
      if bool_decide ((row, col) ∈ seen) then ([], seen)
      else
        let '(nodes, seen) := walk_up (i + 1) leafIndex row col h proof' ((row, col) :: seen) in
        ((row, col, h) :: nodes, seen)
  end.

Fixpoint tree_nodes (leaves : list elementLeaf) (seen : list (Z * Z)) : list treeNode :=
  match leaves with
  | [] => []
  | el :: leaves' =>
      let col := el_LeafIndex el in
      let '(nodes, seen) := walk_up 0 col 0 col (el_hash el) (el_MerkleProof el) ((0, col) :: seen) in
      (0, col, el_hash el) :: nodes ++ tree_nodes leaves' seen
  end.

(** The calls [fn(row, col, h)] in order. *)
Definition ApplyUpdate_ForEachTreeNode (au : ApplyUpdate) : list treeNode :=
  tree_nodes (appliedLeaves (au_sces au) (au_sfes au) (au_fces au) (au_v2fces au) (au_aes au)
                (au_cie au)) [].
Definition RevertUpdate_ForEachTreeNode (ru : RevertUpdate) : list treeNode :=
  tree_nodes (filter (fun el => el_LeafIndex el < eru_numLeaves (ru_eru ru))
    (revertedLeaves (ru_sces ru) (ru_sfes ru) (ru_fces ru) (ru_v2fces ru))) [].

Definition ApplyUpdate_UpdateElementProof (au : ApplyUpdate) (e : StateElement) :=
  eau_updateElementProof (au_eau au) e.
Definition RevertUpdate_UpdateElementProof (ru : RevertUpdate) (e : StateElement) :=
  eru_updateElementProof (ru_eru ru) e.

(** ** Blocks *)
Definition set_chain (s : State) (ms : MidState) (acc : ElementAccumulator) : State :=
  {| s_QdayHeight := s_QdayHeight s; s_Network := s_Network s; s_Index := s_Index s;
     s_PrevTimestamps := s_PrevTimestamps s; s_Depth := s_Depth s; s_ChildTarget := s_ChildTarget s;
     s_SiafundTaxRevenue := ms_siafundTaxRevenue ms; s_OakTime := s_OakTime s;
     s_OakTarget := s_OakTarget s; s_FoundationSubsidyAddress := ms_foundationSubsidy ms;
     s_FoundationManagementAddress := ms_foundationManagement ms; s_TotalWork := s_TotalWork s;
     s_Difficulty := s_Difficulty s; s_OakWork := s_OakWork s; s_Elements := acc;
     s_Attestations := u64 (s_Attestations s + zlen (ms_aes ms)) |}.

Definition set_QdayHeight (s : State) (h : Z) : State :=
  {| s_QdayHeight := h; s_Network := s_Network s; s_Index := s_Index s;
     s_PrevTimestamps := s_PrevTimestamps s; s_Depth := s_Depth s; s_ChildTarget := s_ChildTarget s;
     s_SiafundTaxRevenue := s_SiafundTaxRevenue s; s_OakTime := s_OakTime s;
     s_OakTarget := s_OakTarget s; s_FoundationSubsidyAddress := s_FoundationSubsidyAddress s;
     s_FoundationManagementAddress := s_FoundationManagementAddress s; s_TotalWork := s_TotalWork s;
     s_Difficulty := s_Difficulty s; s_OakWork := s_OakWork s; s_Elements := s_Elements s;
     s_Attestations := s_Attestations s |}.

(** The activation height, set once by the first canary proof. *)
Definition activate (s : State) (qdayProved : bool) : State :=
  match n_Qday (s_Network s) with
  | Some p => if (s_QdayHeight s =? 0) && qdayProved
              then set_QdayHeight s (u64 (ci_Height (s_Index s) + qd_ActivationDelay p)) else s
  | None => s
  end.

Definition ApplyBlock (s : State) (b : Block) (bs : V1BlockSupplement) (targetTimestamp : Time)
    : outcome (State * ApplyUpdate) :=
  if (0 <? ci_Height (s_Index s)) && negb (bool_decide (ci_ID (s_Index s) = b_ParentID b))
  then Panic "consensus: cannot apply non-child block" else
  ms ← MidState_ApplyBlock (NewMidState s) b bs;
  let leaves := appliedLeaves (ms_sces ms) (ms_sfes ms) (ms_fces ms) (ms_v2fces ms) (ms_aes ms)
                  (ms_cie ms) in
  let added := List.filter is_unassigned leaves in
  let updated := List.filter (fun l => negb (is_unassigned l)) leaves in
  '(acc, eau, added) ← applyBlock (s_Elements s) updated added;
  let ms' := foldl write_back ms (concat (eau_updated eau) ++ added) in
  next ← ApplyHeader (set_chain s ms acc) (Block_Header b) targetTimestamp;
  Ok (activate next (ms_qdayProved ms),
      {| au_sces := ms_sces ms'; au_sfes := ms_sfes ms'; au_fces := ms_fces ms';
         au_v2fces := ms_v2fces ms'; au_aes := ms_aes ms'; au_cie := ms_cie ms';
         au_eau := eau |}).

Definition RevertBlock (s : State) (b : Block) (bs : V1BlockSupplement) : outcome RevertUpdate :=
  if negb (bool_decide (ci_ID (s_Index s) = b_ParentID b))
  then Panic "consensus: cannot revert non-child block" else
  ms ← MidState_ApplyBlock (NewMidState s) b bs;
  let leaves := revertedLeaves (ms_sces ms) (ms_sfes ms) (ms_fces ms) (ms_v2fces ms) in
  let added := List.filter is_unassigned leaves in
  let updated := List.filter (fun l => negb (is_unassigned l)) leaves in
  '(eru, added) ← revertBlock (s_Elements s) updated added;
  let ms' := foldl write_back ms (concat (eru_updated eru) ++ added) in
  Ok {| ru_sces := rev (ms_sces ms'); ru_sfes := rev (ms_sfes ms'); ru_fces := rev (ms_fces ms');
        ru_v2fces := rev (ms_v2fces ms'); ru_aes := ms_aes ms'; ru_cie := ms_cie ms';
        ru_eru := eru |}.
End Apply.
