(* ===== verification/ConsensusValidateV1.v ===== *)
(** * [core/consensus/validation.go]: headers, payouts and v1 transactions

    Error values keep the fixed part of their message; the numbers and identifiers
    formatted into it are dropped. *)
From stdpp Require Import prelude strings gmap.
From Stdlib Require Import ZArith Lia.
From S2P Require Import Prelude TypesCurrency TypesData TypesEncoding TypesHash TypesPolicy.
From S2P Require Import ConsensusWork ConsensusState ConsensusMerkle ConsensusMidState.

(** [sum = sum.Add(x)] over a list; an overflow panics. *)
Definition sum_values (l : list Currency) (start : Currency) : outcome Currency :=
  for_each l 0 start (fun _ c sum => Currency.Add sum c).

(** A running sum with its sticky overflow flag, and the [add] closure of the
    overflow checks. *)
Definition overflow_add (acc : Currency * bool) (c : Currency) : Currency * bool :=
  let '(sum, overflow) := acc in
  if overflow then acc else Currency.AddWithOverflow sum c.
Definition overflow_sum (l : list Currency) (acc : Currency * bool) : Currency * bool :=
  foldl overflow_add acc l.
Definition overflow_or (b : bool) (acc : Currency * bool) : Currency * bool :=
  (fst acc, snd acc || b).

Definition values (l : list SiacoinOutput) : list Currency := map sco_Value l.

Section Header.
Context {crypto : Crypto}.

Definition ValidateHeader (s : State) (bh : BlockHeader) : outcome unit :=
  _ ← fail_if (negb (bool_decide (bh_ParentID bh = ci_ID (s_Index s)))) "wrong parent ID";
  median ← medianTimestamp s;
  _ ← fail_if (time_Before (bh_Timestamp bh) median) "timestamp too far in the past";
  r ← go_mod (bh_Nonce bh) (NonceFactor s);
  _ ← fail_if (negb (r =? 0)) "nonce not divisible by required factor";
  target ← PoWTarget s;
  fail_if (CmpWork (BlockHeader_ID bh) target <? 0) "insufficient work".

(** [sum, overflow = sum.AddWithOverflow(c)] followed by the overflow error. *)
Definition add_or_fail (sum c : Currency) (msg : string) : outcome Currency :=
  let '(sum, overflow) := Currency.AddWithOverflow sum c in
  if overflow then Err msg else Ok sum.

Definition validateMinerPayouts (s : State) (b : Block) : outcome unit :=
  reward ← BlockReward s;
  expectedSum ← for_each (b_Transactions b) 0 reward (fun _ txn sum =>
    for_each (tx_MinerFees txn) 0 sum (fun _ fee sum =>
      _ ← fail_if (Currency.IsZero fee) "transaction fee has zero value";
      add_or_fail sum fee "transaction fees overflow"));
  expectedSum ←
    match b_V2 b with
    | Some d =>
        sum ← for_each (v2b_Transactions d) 0 expectedSum (fun _ txn sum =>
                add_or_fail sum (v2tx_MinerFee txn) "v2 transaction fees overflow");
        _ ← fail_if (negb (zlen (b_MinerPayouts b) =? 1)) "block must have exactly one miner payout";
        Ok sum
    | None => Ok expectedSum
    end;
  sum ← for_each (b_MinerPayouts b) 0 Currency.ZeroCurrency (fun _ mp sum =>
    _ ← fail_if (Currency.IsZero (sco_Value mp) && negb (isQday s)) "miner payout has zero value";
    add_or_fail sum (sco_Value mp) "miner payouts overflow");
  fail_if (negb (bool_decide (sum = expectedSum)))
    "miner payout sum does not match block reward + fees".

Definition block_weight (b : Block) : Z :=
  foldl (fun w txn => u64 (w + V2TransactionWeight txn))
    (foldl (fun w txn => u64 (w + TransactionWeight txn)) 0 (b_Transactions b)) (V2Transactions b).

Definition ValidateOrphan (s : State) (b : Block) : outcome unit :=
  _ ← fail_if (MaxBlockWeight <? block_weight b) "block exceeds maximum weight";
  _ ← validateMinerPayouts s b;
  _ ← wrap_err "block has " (ValidateHeader s (Block_Header b));
  match b_V2 b with
  | Some d => fail_if (negb (v2b_Height d =? u64 (ci_Height (s_Index s) + 1)))
                "block height does not increment parent height"
  | None => Ok tt
  end.

(** ** v1 transactions *)
Definition validateCurrencyOverflow (ms : MidState) (txn : Transaction) : outcome unit :=
  let acc := overflow_sum (values (tx_SiacoinOutputs txn)) (Currency.ZeroCurrency, false) in
  let acc := foldl (fun acc sfo => overflow_or (SiafundCount <? sfo_Value sfo) acc) acc
               (tx_SiafundOutputs txn) in
  let acc := foldl (fun acc fc =>
      let acc := overflow_add acc (fc_Payout fc) in
      let acc := overflow_sum (values (fc_ValidProofOutputs fc)) acc in
      overflow_sum (values (fc_MissedProofOutputs fc)) acc) acc (tx_FileContracts txn) in
  let acc := foldl (fun acc fcr =>
      let acc := overflow_sum (values (fc_ValidProofOutputs (fcr_FileContract fcr))) acc in
      overflow_sum (values (fc_MissedProofOutputs (fcr_FileContract fcr))) acc) acc
      (tx_FileContractRevisions txn) in
  fail_if (snd acc) "transaction outputs exceed inputs".

Definition validateMinimumValues (txn : Transaction) : outcome unit :=
  fail_if (existsb (fun sco => Currency.IsZero (sco_Value sco)) (tx_SiacoinOutputs txn) ||
           existsb (fun fc => Currency.IsZero (fc_Payout fc)) (tx_FileContracts txn) ||
           existsb (fun sfo => sfo_Value sfo =? 0) (tx_SiafundOutputs txn) ||
           existsb Currency.IsZero (tx_MinerFees txn))
    "transaction creates a zero-valued output".

Definition validateSiacoins (ms : MidState) (txn : Transaction) (ts : V1TransactionSupplement)
    : outcome unit :=
  inputSum ← for_each (tx_SiacoinInputs txn) 0 Currency.ZeroCurrency (fun _ sci inputSum =>
    _ ← fail_if (childHeight (ms_base ms) <? uc_Timelock (sci_UnlockConditions sci))
          "siacoin input has timelocked parent";
    _ ← fail_if (ms_isSpent ms (sci_ParentID sci)) "siacoin input double-spends parent output";
    o ← ms_siacoinElement ms ts (sci_ParentID sci);
    match o with
    | None => Err "siacoin input spends nonexistent siacoin output"
    | Some parent =>
        _ ← fail_if (negb (bool_decide (UnlockHash (sci_UnlockConditions sci) =
                                        sco_Address (sce_SiacoinOutput parent))))
              "siacoin input claims incorrect unlock conditions for siacoin output";
        _ ← fail_if (childHeight (ms_base ms) <? sce_MaturityHeight parent)
              "siacoin input has immature parent";
        Currency.Add inputSum (sco_Value (sce_SiacoinOutput parent))
    end);
  outputSum ← sum_values (values (tx_SiacoinOutputs txn)) Currency.ZeroCurrency;
  outputSum ← sum_values (map fc_Payout (tx_FileContracts txn)) outputSum;
  outputSum ← sum_values (tx_MinerFees txn) outputSum;
  fail_if (negb (Currency.Cmp inputSum outputSum =? 0)) "siacoin inputs do not equal outputs".

Definition validateSiafunds (ms : MidState) (txn : Transaction) (ts : V1TransactionSupplement)
    : outcome unit :=
  let n := s_Network (ms_base ms) in
  inputSum ← for_each (tx_SiafundInputs txn) 0 0 (fun _ sfi inputSum =>
    _ ← fail_if (childHeight (ms_base ms) <? uc_Timelock (sfi_UnlockConditions sfi))
          "siafund input has timelocked parent";
    _ ← fail_if (ms_isSpent ms (sfi_ParentID sfi)) "siafund input double-spends parent output";
    o ← ms_siafundElement ms ts (sfi_ParentID sfi);
    match o with
    | None => Err "siafund input spends nonexistent siafund output"
    | Some parent =>
        let uh := UnlockHash (sfi_UnlockConditions sfi) in
        let addr := sfo_Address (sfe_SiafundOutput parent) in
        _ ← fail_if (negb (bool_decide (uh = addr)) &&
                     negb ((n_DevAddr_Height n <=? childHeight (ms_base ms)) &&
                           bool_decide (addr = n_DevAddr_OldAddress n) &&
                           bool_decide (uh = n_DevAddr_NewAddress n)))
              "siafund input claims incorrect unlock conditions for siafund output";
        Ok (u64 (inputSum + sfo_Value (sfe_SiafundOutput parent)))
    end);
  let outputSum := foldl (fun sum out => u64 (sum + sfo_Value out)) 0 (tx_SiafundOutputs txn) in
  fail_if (negb (inputSum =? outputSum)) "siafund inputs do not equal outputs".

(** ** v1 file contracts *)
Definition validateFormation (ms : MidState) (fc : FileContract) : outcome unit :=
  _ ← fail_if (fc_WindowStart fc <? childHeight (ms_base ms))
        "file contract has window that starts in the past";
  _ ← fail_if (fc_WindowEnd fc <=? fc_WindowStart fc)
        "file contract has window that ends before it begins";
  validSum ← sum_values (values (fc_ValidProofOutputs fc)) Currency.ZeroCurrency;
  missedSum ← sum_values (values (fc_MissedProofOutputs fc)) Currency.ZeroCurrency;
  _ ← fail_if (negb (Currency.Equals validSum missedSum))
        "file contract has valid payout that does not equal missed payout";
  taxed ← Currency.Add validSum (FileContractTax (ms_base ms) fc);
  fail_if (negb (Currency.Equals (fc_Payout fc) taxed))
    "file contract has payout with incorrect tax".

Definition validateV1Revision (ms : MidState) (ts : V1TransactionSupplement)
    (fcr : FileContractRevision) : outcome unit :=
  let rev := fcr_FileContract fcr in
  let h := childHeight (ms_base ms) in
  _ ← fail_if (h <? uc_Timelock (fcr_UnlockConditions fcr))
        "file contract revision has timelocked parent";
  _ ← fail_if (fc_WindowStart rev <? h)
        "file contract revision has window that starts in the past";
  _ ← fail_if (fc_WindowEnd rev <=? fc_WindowStart rev)
        "file contract revision has window that ends before it begins";
  _ ← fail_if (ms_isSpent ms (fcr_ParentID fcr))
        "file contract revision conflicts with previous proof or revision";
  o ← ms_fileContractElement ms ts (fcr_ParentID fcr);
  match o with
  | None => Err "file contract revision revises nonexistent file contract"
  | Some fce =>
      let parent := fce_FileContract fce in
      _ ← fail_if (fc_WindowStart parent <? h)
            "file contract revision revises contract after its proof window has opened";
      _ ← fail_if (fc_RevisionNumber rev <=? fc_RevisionNumber parent)
            "file contract revision does not have a higher revision number than its parent";
      _ ← fail_if (negb (bool_decide (UnlockHash (fcr_UnlockConditions fcr) = fc_UnlockHash parent)))
            "file contract revision claims incorrect unlock conditions";
      rv ← sum_values (values (fc_ValidProofOutputs rev)) Currency.ZeroCurrency;
      pv ← sum_values (values (fc_ValidProofOutputs parent)) Currency.ZeroCurrency;
      _ ← fail_if (negb (bool_decide (rv = pv))) "file contract revision changes valid payout sum";
      rm ← sum_values (values (fc_MissedProofOutputs rev)) Currency.ZeroCurrency;
      pm ← sum_values (values (fc_MissedProofOutputs parent)) Currency.ZeroCurrency;
      fail_if (negb (bool_decide (rm = pm))) "file contract revision changes missed payout sum"
  end.

Definition lastLeafIndex (filesize : Z) : Z :=
  if negb (filesize mod 64 =? 0) then filesize / 64 else u64 (filesize / 64 - 1).

(** [None] is the nil slice. *)
Definition storageProofLeaf (s : State) (leafIndex filesize : Z) (leaf : bytes) : option bytes :=
  let partial := take (Z.to_nat (filesize mod 64)) leaf in
  if childHeight s <? n_Tax_Height (s_Network s) then Some leaf
  else if childHeight s <? n_StorageProof_Height (s_Network s) then
    if leafIndex =? lastLeafIndex filesize then Some partial else Some leaf
  else if filesize =? 0 then None
  else if (leafIndex =? lastLeafIndex filesize) && negb (filesize mod 64 =? 0) then Some partial
  else Some leaf.

Fixpoint v1ProofRoot_from (i : nat) (root : Hash256) (leafIndex : Z) (subtreeHeight : nat)
    (proof : list Hash256) : Hash256 :=
  match proof with
  | [] => root
  | h :: proof' =>
      let root := if has_bit leafIndex (Z.of_nat i) || (subtreeHeight <=? i)%nat
                  then SumPair h root else SumPair root h in
      v1ProofRoot_from (Datatypes.S i) root leafIndex subtreeHeight proof'
  end.
Definition v1StorageProofRoot (leafIndex filesize : Z) (leaf : bytes) (proof : list Hash256)
    : Hash256 :=
  v1ProofRoot_from 0 (HashBytes ([0] ++ to_array 64 leaf)) leafIndex
    (Z.to_nat (bits.Len64 (Z.lxor leafIndex (lastLeafIndex filesize)))) proof.

Definition validateV1StorageProof (ms : MidState) (ts : V1TransactionSupplement) (sp : StorageProof)
    : outcome unit :=
  _ ← fail_if (ms_isSpent ms (sp_ParentID sp)) "storage proof conflicts with previous proof";
  o ← ms_fileContractElement ms ts (sp_ParentID sp);
  match o with
  | None => Err "storage proof references nonexistent file contract"
  | Some fce =>
      let fc := fce_FileContract fce in
      w ← ms_storageProofWindowID ms ts (sp_ParentID sp);
      match w with
      | None => Err "storage proof cannot be submitted until after window start"
      | Some windowID =>
          leafIndex ← StorageProofLeafIndex (fc_Filesize fc) windowID (sp_ParentID sp);
          match storageProofLeaf (ms_base ms) leafIndex (fc_Filesize fc) (sp_Leaf sp) with
          | None => Ok tt
          | Some leaf =>
              fail_if (negb (bool_decide (v1StorageProofRoot leafIndex (fc_Filesize fc) leaf
                                            (sp_Proof sp) = fc_FileMerkleRoot fc)))
                "storage proof has root that does not match contract Merkle root"
          end
      end
  end.

(** The quadratic duplicate search. *)
Fixpoint has_dup (l : list Hash256) : bool :=
  match l with [] => false | x :: l' => bool_decide (x ∈ l') || has_dup l' end.

Definition validateFileContracts (ms : MidState) (txn : Transaction) (ts : V1TransactionSupplement)
    : outcome unit :=
  _ ← for_each (tx_FileContracts txn) 0 tt (fun _ fc _ => validateFormation ms fc);
  _ ← for_each (tx_FileContractRevisions txn) 0 tt (fun _ fcr _ => validateV1Revision ms ts fcr);
  _ ← fail_if ((0 <? zlen (tx_StorageProofs txn)) &&
               ((0 <? zlen (tx_SiacoinOutputs txn)) || (0 <? zlen (tx_SiafundOutputs txn)) ||
                (0 <? zlen (tx_FileContracts txn)) || (0 <? zlen (tx_FileContractRevisions txn))))
        "transaction contains both a storage proof and other outputs";
  _ ← fail_if (has_dup (map sp_ParentID (tx_StorageProofs txn)))
        "storage proof resolves contract already resolved by storage proof";
  for_each (tx_StorageProofs txn) 0 tt (fun _ sp _ => validateV1StorageProof ms ts sp).

(** ** Foundation updates and signatures *)
Definition foundation_signed (ms : MidState) (txn : Transaction) : bool :=
  existsb (fun sci =>
    let uh := UnlockHash (sci_UnlockConditions sci) in
    (bool_decide (uh = s_FoundationSubsidyAddress (ms_base ms)) ||
     bool_decide (uh = s_FoundationManagementAddress (ms_base ms))) &&
    existsb (fun sig => bool_decide (ts_ParentID sig = sci_ParentID sci) &&
                        cf_WholeTransaction (ts_CoveredFields sig)) (tx_Signatures txn))
    (tx_SiacoinInputs txn).

Definition validateArbitraryData (ms : MidState) (txn : Transaction) : outcome unit :=
  if childHeight (ms_base ms) <? n_Foundation_Height (s_Network (ms_base ms)) then Ok tt else
  for_each (tx_ArbitraryData txn) 0 tt (fun _ arb _ =>
    if negb (has_prefix arb SpecifierFoundation) then Ok tt else
    match FoundationAddressUpdate_DecodeFrom
            (NewBufDecoder (drop (length SpecifierFoundation) arb)) with
    | Ok (update, _) =>
        _ ← fail_if (bool_decide (fau_NewPrimary update = VoidAddress) ||
                     bool_decide (fau_NewFailsafe update = VoidAddress))
              "transaction contains an uninitialized FoundationAddressUpdate";
        fail_if (negb (foundation_signed ms txn))
          "transaction contains an unsigned FoundationAddressUpdate"
    | _ => Err "transaction contains an improperly-encoded FoundationAddressUpdate"
    end).

Record sigMapEntry := { sm_need : Z; sm_keys : list UnlockKey; sm_used : list bool }.

Definition addEntry (sigMap : idmap sigMapEntry) (id : Hash256) (uc : UnlockConditions)
    (msg : string) : outcome (idmap sigMapEntry) :=
  match sigMap !! id with
  | Some _ => Err msg
  | None => Ok (<[id := {| sm_need := uc_SignaturesRequired uc; sm_keys := uc_PublicKeys uc;
                           sm_used := replicate (length (uc_PublicKeys uc)) false |}]> sigMap)
  end.

Definition signature_hash (s : State) (txn : Transaction) (sig : TransactionSignature)
    : outcome Hash256 :=
  if cf_WholeTransaction (ts_CoveredFields sig)
  then WholeSigHash s txn (ts_ParentID sig) (ts_PublicKeyIndex sig) (ts_Timelock sig)
         (cf_Signatures (ts_CoveredFields sig))
  else PartialSigHash s txn (ts_CoveredFields sig).

Definition checkSignature (ms : MidState) (txn : Transaction) (sig : TransactionSignature)
    (sigMap : idmap sigMapEntry) : outcome (idmap sigMapEntry) :=
  match sigMap !! ts_ParentID sig with
  | None => Err "signature references parent not present in transaction"
  | Some e =>
      let k := Z.to_nat (ts_PublicKeyIndex sig) in
      _ ← fail_if (zlen (sm_keys e) <=? ts_PublicKeyIndex sig)
            "signature points to a nonexistent public key";
      _ ← fail_if ((sm_need e =? 0) || nth k (sm_used e) false) "signature is redundant";
      _ ← fail_if (childHeight (ms_base ms) <? ts_Timelock sig)
            "timelock of signature has not expired";
      match sm_keys e !! k with
      | None => index_out_of_range
      | Some pk =>
          _ ← (if bool_decide (uk_Algorithm pk = SpecifierEd25519) then
                 sigHash ← signature_hash (ms_base ms) txn sig;
                 fail_if (negb (VerifyHash (to_array 32 (uk_Key pk)) sigHash
                                  (to_array 64 (ts_Signature sig)))) "signature is invalid"
               else fail_if (bool_decide (uk_Algorithm pk = SpecifierEntropy))
                      "signature uses an entropy public key");
          Ok (<[ts_ParentID sig := {| sm_need := u64 (sm_need e - 1); sm_keys := sm_keys e;
                                      sm_used := <[k := true]> (sm_used e) |}]> sigMap)
      end
  end.

Definition validateSignatures (ms : MidState) (txn : Transaction) : outcome unit :=
  m ← for_each (tx_SiacoinInputs txn) 0 ∅ (fun _ sci m =>
        addEntry m (sci_ParentID sci) (sci_UnlockConditions sci)
          "transaction spends siacoin input more than once");
  m ← for_each (tx_SiafundInputs txn) 0 m (fun _ sfi m =>
        addEntry m (sfi_ParentID sfi) (sfi_UnlockConditions sfi)
          "transaction spends siafund input more than once");
  m ← for_each (tx_FileContractRevisions txn) 0 m (fun _ fcr m =>
        addEntry m (fcr_ParentID fcr) (fcr_UnlockConditions fcr)
          "transaction revises file contract more than once");
  m ← for_each (tx_Signatures txn) 0 m (fun _ sig m => checkSignature ms txn sig m);
  fail_if (existsb (fun kv => 0 <? sm_need (snd kv)) (map_to_list m)) "parent has missing signatures".

Definition ValidateTransaction (ms : MidState) (txn : Transaction) (ts : V1TransactionSupplement)
    : outcome unit :=
  _ ← fail_if (n_V2_RequireHeight (s_Network (ms_base ms)) <=? childHeight (ms_base ms))
        "v1 transactions are not allowed after v2 hardfork is complete";
  _ ← validateCurrencyOverflow ms txn;
  _ ← fail_if (MaxBlockWeight <? TransactionWeight txn) "transaction exceeds maximum block weight";
  _ ← validateMinimumValues txn;
  _ ← validateSiacoins ms txn ts;
  _ ← validateSiafunds ms txn ts;
  _ ← validateFileContracts ms txn ts;
  _ ← validateArbitraryData ms txn;
  validateSignatures ms txn.
End Header.
