(* ===== verification/ConsensusValidate.v ===== *)
(** * [core/consensus/validation.go]: v2 transactions and blocks *)
From stdpp Require Import prelude strings gmap.
From Stdlib Require Import ZArith Lia.
From S2P Require Import Prelude TypesCurrency TypesData TypesEncoding TypesHash TypesPolicy.
From S2P Require Import ConsensusWork ConsensusState ConsensusMerkle ConsensusQday.
From S2P Require Import ConsensusMidState ConsensusValidateV1.

(** The [addContract] closure; the tax is computed only when its sum does not
    overflow. *)
Definition addContract (fc : V2FileContract) (acc : Currency * bool) : outcome (Currency * bool) :=
  let acc := overflow_sum [sco_Value (v2fc_RenterOutput fc); sco_Value (v2fc_HostOutput fc);
                           v2fc_MissedHostValue fc; v2fc_TotalCollateral fc] acc in
  let '(_, taxOverflow) := Currency.AddWithOverflow (sco_Value (v2fc_RenterOutput fc))
                             (sco_Value (v2fc_HostOutput fc)) in
  if taxOverflow then Ok (fst acc, true)
  else tax ← V2FileContractTax fc; Ok (overflow_add acc tax).

Definition validateV2CurrencyOverflow (ms : MidState) (txn : V2Transaction) : outcome unit :=
  let acc := overflow_sum (values (v2tx_SiacoinOutputs txn)) (Currency.ZeroCurrency, false) in
  let acc := foldl (fun acc sfo => overflow_or (SiafundCount <? sfo_Value sfo) acc) acc
               (v2tx_SiafundOutputs txn) in
  acc ← for_each (v2tx_FileContracts txn) 0 acc (fun _ fc acc => addContract fc acc);
  acc ← for_each (v2tx_FileContractRevisions txn) 0 acc
          (fun _ fcr acc => addContract (v2fcr_Revision fcr) acc);
  acc ← for_each (v2tx_FileContractResolutions txn) 0 acc (fun _ fcr acc =>
          match res_Resolution fcr with
          | V2Renewal r =>
              acc ← addContract (ren_NewContract r) acc;
              Ok (overflow_sum [sco_Value (ren_FinalRenterOutput r);
                    sco_Value (ren_FinalHostOutput r); ren_RenterRollover r; ren_HostRollover r] acc)
          | _ => Ok acc
          end);
  fail_if (snd (overflow_add acc (v2tx_MinerFee txn))) "transaction outputs exceed inputs".

Section Validate.
Context {crypto : Crypto} {edwards : Edwards25519}.

(** ** Siacoins *)
Definition validateEphemeralSiacoinElement (ms : MidState) (sci : V2SiacoinInput) : outcome unit :=
  let parent := v2sci_Parent sci in
  let created := j ← ms_elements ms !! sce_ID parent; d ← ms_sces ms !! j;
                 if sced_Created d then Some d else None in
  match created with
  | None => Err "spends nonexistent ephemeral output"
  | Some d =>
      if childHeight (ms_base ms) <? n_V2_EphemeralOutputHeight (s_Network (ms_base ms))
      then Ok tt else
      let esci := sced_SiacoinElement d in
      _ ← fail_if (negb (bool_decide (sce_ID parent = sce_ID esci)))
            "spends nonexistent ephemeral output";
      _ ← fail_if (negb (bool_decide (sce_SiacoinOutput parent = sce_SiacoinOutput esci)))
            "claims incorrect value for ephemeral output";
      fail_if (negb (sce_MaturityHeight parent =? sce_MaturityHeight esci))
        "claims incorrect maturity height for ephemeral output"
  end.

Definition validateV2SpendPolicy (ms : MidState) (sigHash : Hash256) (sp : SatisfiedPolicy)
    (parentAddress : Address) : outcome unit :=
  _ ← fail_if (negb (bool_decide (SpendPolicy_Address (sat_Policy sp) = parentAddress)))
        "claims incorrect policy for parent address";
  median ← medianTimestamp (ms_base ms);
  wrap_err "failed to satisfy spend policy: "
    (Verify (ci_Height (s_Index (ms_base ms))) median sigHash (sat_Policy sp)
       (sat_Signatures sp) (sat_Preimages sp)).

(** One iteration over the siacoin inputs; [spent] is the set of parents of the
    earlier ones. *)
Definition validateV2SiacoinInput (ms : MidState) (sigHash : Hash256) (sci : V2SiacoinInput)
    (spent : gset (list Z)) : outcome (gset (list Z)) :=
  let parent := v2sci_Parent sci in
  _ ← fail_if (ms_isSpent ms (sce_ID parent)) "siacoin input double-spends parent output";
  _ ← fail_if (bool_decide (sce_ID parent ∈ spent)) "siacoin input double-spends parent output";
  _ ← fail_if (childHeight (ms_base ms) <? sce_MaturityHeight parent)
        "siacoin input has immature parent";
  _ ← (if se_LeafIndex (sce_StateElement parent) =? UnassignedLeafIndex then
         wrap_err "siacoin input " (validateEphemeralSiacoinElement ms sci)
       else if negb (containsUnspentSiacoinElement (s_Elements (ms_base ms))
                       (SiacoinElement_Share parent)) then
         if containsSpentSiacoinElement (s_Elements (ms_base ms)) (SiacoinElement_Share parent)
         then Err "siacoin input double-spends output"
         else Err "siacoin input spends output not present in the accumulator"
       else Ok tt);
  _ ← wrap_err "siacoin input " (validateV2SpendPolicy ms sigHash (v2sci_SatisfiedPolicy sci)
                                   (sco_Address (sce_SiacoinOutput parent)));
  Ok ({[ sce_ID parent ]} ∪ spent).

(** [sum.Add(RenterOutput.Value).Add(HostOutput.Value).Add(tax)] *)
Definition add_contract_cost (fc : V2FileContract) (sum : Currency) : outcome Currency :=
  sum ← Currency.Add sum (sco_Value (v2fc_RenterOutput fc));
  sum ← Currency.Add sum (sco_Value (v2fc_HostOutput fc));
  tax ← V2FileContractTax fc;
  Currency.Add sum tax.

Definition v2InputSum (ms : MidState) (txn : V2Transaction) : outcome Currency :=
  for_each (v2tx_SiacoinInputs txn) 0 Currency.ZeroCurrency (fun _ sci sum =>
    v ← QdayValue (ms_base ms) (v2sci_Parent sci) (childHeight (ms_base ms));
    Currency.Add sum v).

Definition v2OutputSum (txn : V2Transaction) : outcome Currency :=
  for_each (v2tx_SiacoinOutputs txn) 0 Currency.ZeroCurrency (fun _ out sum =>
    _ ← fail_if (Currency.IsZero (sco_Value out)) "siacoin output has zero value";
    Currency.Add sum (sco_Value out)).

Definition validateV2Siacoins (ms : MidState) (txn : V2Transaction) : outcome unit :=
  let sigHash := InputSigHash (ms_base ms) txn in
  _ ← for_each (v2tx_SiacoinInputs txn) 0 ∅
        (fun _ sci spent => validateV2SiacoinInput ms sigHash sci spent);
  inputSum ← v2InputSum ms txn;
  outputSum ← v2OutputSum txn;
  outputSum ← for_each (v2tx_FileContracts txn) 0 outputSum (fun _ fc sum => add_contract_cost fc sum);
  '(inputSum, outputSum) ←
    for_each (v2tx_FileContractResolutions txn) 0 (inputSum, outputSum) (fun _ fcr sums =>
      match res_Resolution fcr with
      | V2Renewal r =>
          i ← Currency.Add (fst sums) (ren_RenterRollover r);
          i ← Currency.Add i (ren_HostRollover r);
          o ← add_contract_cost (ren_NewContract r) (snd sums);
          Ok (i, o)
      | _ => Ok sums
      end);
  outputSum ← Currency.Add outputSum (v2tx_MinerFee txn);
  fail_if (negb (bool_decide (inputSum = outputSum)) &&
           (negb (isQday (ms_base ms)) || (Currency.Cmp inputSum outputSum <? 0)))
    "siacoin inputs do not equal outputs".

(** ** Siafunds *)
Definition validateEphemeralSiafundElement (ms : MidState) (sfi : V2SiafundInput) : outcome unit :=
  let created := j ← ms_elements ms !! sfe_ID (v2sfi_Parent sfi); d ← ms_sfes ms !! j;
                 if sfed_Created d then Some d else None in
  match created with
  | None => Err "spends nonexistent ephemeral output"
  | Some _ =>
      fail_if (n_V2_EphemeralOutputHeight (s_Network (ms_base ms)) <=? childHeight (ms_base ms))
        "spends ephemeral output"
  end.

Definition validateV2SiafundInput (ms : MidState) (sigHash : Hash256) (sfi : V2SiafundInput)
    (spent : gset (list Z)) : outcome (gset (list Z)) :=
  let parent := v2sfi_Parent sfi in
  _ ← fail_if (ms_isSpent ms (sfe_ID parent)) "siafund input double-spends parent output";
  _ ← fail_if (bool_decide (sfe_ID parent ∈ spent)) "siafund input double-spends parent output";
  _ ← (if se_LeafIndex (sfe_StateElement parent) =? UnassignedLeafIndex then
         wrap_err "siafund input " (validateEphemeralSiafundElement ms sfi)
       else if negb (containsUnspentSiafundElement (s_Elements (ms_base ms))
                       (SiafundElement_Share parent)) then
         if containsSpentSiafundElement (s_Elements (ms_base ms)) (SiafundElement_Share parent)
         then Err "siafund input double-spends output"
         else Err "siafund input spends output not present in the accumulator"
       else Ok tt);
  _ ← wrap_err "siafund input " (validateV2SpendPolicy ms sigHash (v2sfi_SatisfiedPolicy sfi)
                                   (sfo_Address (sfe_SiafundOutput parent)));
  Ok ({[ sfe_ID parent ]} ∪ spent).

Definition validateV2Siafunds (ms : MidState) (txn : V2Transaction) : outcome unit :=
  let sigHash := InputSigHash (ms_base ms) txn in
  _ ← for_each (v2tx_SiafundInputs txn) 0 ∅
        (fun _ sfi spent => validateV2SiafundInput ms sigHash sfi spent);
  let inputSum := foldl (fun sum i => u64 (sum + sfo_Value (sfe_SiafundOutput (v2sfi_Parent i)))) 0
                    (v2tx_SiafundInputs txn) in
  outputSum ← for_each (v2tx_SiafundOutputs txn) 0 0 (fun _ out sum =>
    _ ← fail_if (sfo_Value out =? 0) "siafund output has zero value";
    Ok (u64 (sum + sfo_Value out)));
  fail_if (negb (inputSum =? outputSum)) "siafund inputs do not equal outputs".

(** ** v2 file contracts *)
Definition validateParent (ms : MidState) (revised resolved : gset (list Z))
    (fce : V2FileContractElement) : outcome unit :=
  _ ← fail_if (ms_isSpent ms (v2fce_ID fce)) "has already been resolved in transaction";
  _ ← fail_if (bool_decide (v2fce_ID fce ∈ revised)) "has already been revised by contract revision";
  _ ← fail_if (bool_decide (v2fce_ID fce ∈ resolved))
        "has already been resolved by contract resolution";
  if negb (containsUnresolvedV2FileContractElement (s_Elements (ms_base ms)) fce) then
    if containsResolvedV2FileContractElement (s_Elements (ms_base ms)) fce
    then Err "has already been resolved in a previous block"
    else Err "is not present in the accumulator"
  else Ok tt.

Definition validateContractSignatures (fc : V2FileContract) (renter host : PublicKey)
    : outcome unit :=
  let contractHash := ContractSigHash fc in
  _ ← fail_if (negb (VerifyHash renter contractHash (v2fc_RenterSignature fc)))
        "has invalid renter signature";
  fail_if (negb (VerifyHash host contractHash (v2fc_HostSignature fc))) "has invalid host signature".

Definition validateContract (ms : MidState) (fc : V2FileContract) : outcome unit :=
  let hostValue := sco_Value (v2fc_HostOutput fc) in
  _ ← fail_if (v2fc_Capacity fc <? v2fc_Filesize fc) "has filesize exceeding capacity";
  _ ← fail_if (v2fc_ProofHeight fc <? childHeight (ms_base ms))
        "has proof height that has already passed";
  _ ← fail_if (v2fc_ExpirationHeight fc <=? v2fc_ProofHeight fc)
        "leaves no time between proof height and expiration height";
  _ ← fail_if (Currency.IsZero (sco_Value (v2fc_RenterOutput fc)) && Currency.IsZero hostValue)
        "has zero value";
  _ ← fail_if (0 <? Currency.Cmp (v2fc_MissedHostValue fc) hostValue)
        "has missed host value exceeding valid host value";
  _ ← fail_if (0 <? Currency.Cmp (v2fc_TotalCollateral fc) hostValue)
        "has total collateral exceeding valid host value";
  validateContractSignatures fc (v2fc_RenterPublicKey fc) (v2fc_HostPublicKey fc).

(** The contract as of the last revision of this block. *)
Definition current_contract (ms : MidState) (fce : V2FileContractElement) : outcome V2FileContract :=
  match ms_elements ms !! v2fce_ID fce with
  | Some i => match ms_v2fces ms !! i with
              | Some d => Ok (default (v2fce_V2FileContract fce) (v2fced_Revision d))
              | None => index_out_of_range
              end
  | None => Ok (v2fce_V2FileContract fce)
  end.

Definition validateRevision (ms : MidState) (fce : V2FileContractElement) (rev : V2FileContract)
    : outcome unit :=
  let h := childHeight (ms_base ms) in
  cur ← current_contract ms fce;
  curOutputSum ← Currency.Add (sco_Value (v2fc_RenterOutput cur)) (sco_Value (v2fc_HostOutput cur));
  revOutputSum ← Currency.Add (sco_Value (v2fc_RenterOutput rev)) (sco_Value (v2fc_HostOutput rev));
  _ ← fail_if (v2fc_Capacity rev <? v2fc_Capacity cur) "decreases capacity";
  _ ← fail_if (v2fc_Capacity rev <? v2fc_Filesize rev) "has filesize exceeding capacity";
  _ ← fail_if (v2fc_ProofHeight cur <? h) "revises contract after its proof window has opened";
  _ ← fail_if (v2fc_RevisionNumber rev <=? v2fc_RevisionNumber cur)
        "does not increase revision number";
  _ ← fail_if (negb (Currency.Equals revOutputSum curOutputSum)) "modifies output sum";
  _ ← fail_if (0 <? Currency.Cmp (v2fc_MissedHostValue rev) (v2fc_MissedHostValue cur))
        "has missed host value exceeding old value";
  _ ← fail_if ((n_V2_EphemeralOutputHeight (s_Network (ms_base ms)) <=? h) &&
               (0 <? Currency.Cmp (v2fc_MissedHostValue rev) (sco_Value (v2fc_HostOutput rev))))
        "has missed host value exceeding valid host value";
  _ ← fail_if (negb (bool_decide (v2fc_TotalCollateral rev = v2fc_TotalCollateral cur)))
        "modifies total collateral";
  _ ← fail_if (v2fc_ProofHeight rev <? h) "has proof height that has already passed";
  _ ← fail_if (v2fc_ExpirationHeight rev <=? v2fc_ProofHeight rev)
        "leaves no time between proof height and expiration height";
  validateContractSignatures rev (v2fc_RenterPublicKey cur) (v2fc_HostPublicKey cur).

Definition validateRenewal (ms : MidState) (fc : V2FileContract) (renewal : V2FileContractRenewal)
    : outcome unit :=
  let new := ren_NewContract renewal in
  _ ← fail_if (negb (bool_decide (v2fc_RenterPublicKey fc = v2fc_RenterPublicKey new)))
        "file contract renewal changes renter public key";
  _ ← fail_if (negb (bool_decide (v2fc_HostPublicKey fc = v2fc_HostPublicKey new)))
        "file contract renewal changes host public key";
  t ← Currency.Add (sco_Value (ren_FinalRenterOutput renewal)) (ren_RenterRollover renewal);
  t ← Currency.Add t (sco_Value (ren_FinalHostOutput renewal));
  totalPayout ← Currency.Add t (ren_HostRollover renewal);
  existingPayout ← Currency.Add (sco_Value (v2fc_RenterOutput fc)) (sco_Value (v2fc_HostOutput fc));
  _ ← fail_if (negb (bool_decide (totalPayout = existingPayout)))
        "file contract renewal payout does not match existing contract payout";
  c ← Currency.Add (sco_Value (v2fc_RenterOutput new)) (sco_Value (v2fc_HostOutput new));
  tax ← V2FileContractTax new;
  newContractCost ← Currency.Add c tax;
  rollover ← Currency.Add (ren_RenterRollover renewal) (ren_HostRollover renewal);
  _ ← fail_if (0 <? Currency.Cmp rollover newContractCost)
        "file contract renewal has rollover exceeding new contract cost";
  _ ← wrap_err "file contract renewal initial revision " (validateContract ms new);
  let renewalHash := RenewalSigHash renewal in
  _ ← fail_if (negb (VerifyHash (v2fc_RenterPublicKey fc) renewalHash (ren_RenterSignature renewal)))
        "file contract renewal has invalid renter signature";
  fail_if (negb (VerifyHash (v2fc_HostPublicKey fc) renewalHash (ren_HostSignature renewal)))
    "file contract renewal has invalid host signature".

Definition validateV2StorageProof (ms : MidState) (fcid : FileContractID) (fc : V2FileContract)
    (sp : V2StorageProof) : outcome unit :=
  let index := cie_ChainIndex (v2sp_ProofIndex sp) in
  _ ← fail_if (childHeight (ms_base ms) <? v2fc_ProofHeight fc)
        "file contract storage proof cannot be submitted until after proof height";
  _ ← fail_if (negb (ci_Height index =? v2fc_ProofHeight fc))
        "file contract storage proof has ProofIndex height that does not match contract ProofHeight";
  _ ← fail_if (negb (containsChainIndex (s_Elements (ms_base ms))
                       (ChainIndexElement_Share (v2sp_ProofIndex sp))))
        "file contract storage proof has invalid history proof";
  leafIndex ← StorageProofLeafIndex (v2fc_Filesize fc) (ci_ID index) fcid;
  fail_if (negb (bool_decide (storageProofRoot (StorageProofLeafHash (v2sp_Leaf sp)) leafIndex
                                (v2fc_Filesize fc) (v2sp_Proof sp) = v2fc_FileMerkleRoot fc)))
    "file contract storage proof has root that does not match contract Merkle root".

Definition validateResolution (ms : MidState) (fcr : V2FileContractResolution) : outcome unit :=
  let fc := v2fce_V2FileContract (res_Parent fcr) in
  match res_Resolution fcr with
  | V2Renewal r => validateRenewal ms fc r
  | V2Proof sp => validateV2StorageProof ms (v2fce_ID (res_Parent fcr)) fc sp
  | V2FileContractExpiration =>
      fail_if (childHeight (ms_base ms) <=? v2fc_ExpirationHeight fc)
        "file contract expiration cannot be submitted until after expiration height"
  end.

Definition validateV2FileContracts (ms : MidState) (txn : V2Transaction) : outcome unit :=
  _ ← for_each (v2tx_FileContracts txn) 0 tt
        (fun _ fc _ => wrap_err "file contract " (validateContract ms fc));
  revised ← for_each (v2tx_FileContractRevisions txn) 0 (∅ : gset (list Z)) (fun _ fcr revised =>
    let parent := v2fcr_Parent fcr in
    _ ← wrap_err "file contract revision parent "
          (validateParent ms revised ∅ (V2FileContractElement_Share parent));
    _ ← fail_if (v2fc_ProofHeight (v2fce_V2FileContract parent) <? childHeight (ms_base ms))
          "file contract revision cannot be applied to contract after proof height";
    _ ← wrap_err "file contract revision "
          (validateRevision ms (V2FileContractElement_Share parent) (v2fcr_Revision fcr));
    Ok ({[ v2fce_ID parent ]} ∪ revised));
  _ ← for_each (v2tx_FileContractResolutions txn) 0 (∅ : gset (list Z)) (fun _ fcr resolved =>
    _ ← wrap_err "file contract renewal parent "
          (validateParent ms revised resolved (V2FileContractElement_Share (res_Parent fcr)));
    _ ← validateResolution ms fcr;
    Ok ({[ v2fce_ID (res_Parent fcr) ]} ∪ resolved));
  Ok tt.

(** ** Transactions *)
Definition validateAttestations (txn : V2Transaction) : outcome unit :=
  for_each (v2tx_Attestations txn) 0 tt (fun _ a _ =>
    _ ← fail_if (zlen (at_Key a) =? 0) "attestation has empty key";
    fail_if (negb (VerifyHash (at_PublicKey a) (AttestationSigHash a) (at_Signature a)))
      "attestation has invalid signature").

Definition validateFoundationUpdate (ms : MidState) (txn : V2Transaction) : outcome unit :=
  match v2tx_NewFoundationAddress txn with
  | None => Ok tt
  | Some _ =>
      fail_if (negb (existsb (fun i =>
                 bool_decide (sco_Address (sce_SiacoinOutput (v2sci_Parent i)) =
                              s_FoundationManagementAddress (ms_base ms))) (v2tx_SiacoinInputs txn)))
        "transaction changes Foundation address, but does not spend an input controlled by current address"
  end.

Definition ValidateV2Transaction (ms : MidState) (txn : V2Transaction) : outcome unit :=
  _ ← (if isQday (ms_base ms) then validateQdayTransaction ms txn else Ok tt);
  _ ← fail_if (childHeight (ms_base ms) <? n_V2_AllowHeight (s_Network (ms_base ms)))
        "v2 transactions are not allowed until v2 hardfork begins";
  _ ← validateV2CurrencyOverflow ms txn;
  _ ← fail_if (V2TransactionWeight txn =? 0) "transactions cannot be empty";
  _ ← fail_if (MaxBlockWeight <? V2TransactionWeight txn) "transaction exceeds maximum block weight";
  _ ← validateV2Siacoins ms txn;
  _ ← validateV2Siafunds ms txn;
  _ ← validateV2FileContracts ms txn;
  _ ← validateAttestations txn;
  validateFoundationUpdate ms txn.

(** ** Blocks *)
Definition validateSupplement (s : State) (b : Block) (bs : V1BlockSupplement) : outcome unit :=
  let acc := s_Elements s in
  _ ← fail_if ((n_V2_RequireHeight (s_Network s) <=? childHeight s) &&
               (negb (zlen (bs_Transactions bs) =? 0) ||
                negb (zlen (bs_ExpiringFileContracts bs) =? 0)))
        "v1 block supplements are not allowed after v2 hardfork is complete";
  _ ← fail_if (negb (zlen (bs_Transactions bs) =? zlen (b_Transactions b)))
        "incorrect number of transactions";
  _ ← for_each (bs_Transactions bs) 0 tt (fun _ ts _ =>
        _ ← for_each (ts_SiacoinInputs ts) 0 tt (fun _ sce _ =>
              fail_if (negb (containsUnspentSiacoinElement acc (SiacoinElement_Share sce)))
                "siacoin element is not present in the accumulator");
        _ ← for_each (ts_SiafundInputs ts) 0 tt (fun _ sfe _ =>
              fail_if (negb (containsUnspentSiafundElement acc (SiafundElement_Share sfe)))
                "siafund element is not present in the accumulator");
        _ ← for_each (ts_RevisedFileContracts ts) 0 tt (fun _ fce _ =>
              fail_if (negb (containsUnresolvedFileContractElement acc (FileContractElement_Share fce)))
                "revised file contract is not present in the accumulator");
        for_each (ts_StorageProofs ts) 0 tt (fun _ sps _ =>
          fail_if (negb (containsUnresolvedFileContractElement acc
                           (FileContractElement_Share (sps_FileContract sps))))
            "valid file contract is not present in the accumulator"));
  for_each (bs_ExpiringFileContracts bs) 0 tt (fun _ fce _ =>
    fail_if (negb (containsUnresolvedFileContractElement acc (FileContractElement_Share fce)))
      "expiring file contract is not present in the accumulator").

(** The first transaction of a QDAY block, and the last one once the upgrade is
    active, are markers that skip validation. *)
Definition is_marker (s : State) (b : Block) (i : nat) : bool :=
  isQday s && ((i =? 0)%nat ||
               (QdayV1Active s (childHeight s) && (i =? length (V2Transactions b) - 1)%nat)).

Definition validateBlockTransactions (s : State) (b : Block) (bs : V1BlockSupplement) (ms : MidState)
    : outcome MidState :=
  ms ← for_each (b_Transactions b) 0 ms (fun i txn ms =>
         match bs_Transactions bs !! i with
         | None => index_out_of_range
         | Some ts => _ ← wrap_err "transaction is invalid: " (ValidateTransaction ms txn ts);
                      ApplyTransaction ms txn ts
         end);
  for_each (V2Transactions b) 0 ms (fun i txn ms =>
    if is_marker s b i then ApplyV2Transaction ms txn else
    _ ← wrap_err "v2 transaction is invalid: " (ValidateV2Transaction ms txn);
    ApplyV2Transaction ms txn).

Definition ValidateBlock (s : State) (b : Block) (bs : V1BlockSupplement) : outcome unit :=
  _ ← (if isQday s && (0 <? childHeight s) then validateQdayBlockMarkers s b else Ok tt);
  _ ← ValidateOrphan s b;
  _ ← wrap_err "block supplement is invalid: " (validateSupplement s b bs);
  _ ← match b_V2 b with
      | Some d =>
          match b_MinerPayouts b with
          | [] => index_out_of_range
          | payout :: _ =>
              fail_if (negb (bool_decide (v2b_Commitment d =
                         Commitment s (sco_Address payout) (b_Transactions b) (V2Transactions b))))
                "commitment hash mismatch"
          end
      | None => Ok tt
      end;
  _ ← validateBlockTransactions s b bs (NewMidState s);
  Ok tt.
End Validate.
