(* ===== verification/ChainQday.v ===== *)
(** * [coreutils/chain/qday.go]: the launch parameters

    The network and the genesis block of the mainnet and devnet manifests without an
    inscription.  The JSON encodings that are hashed into the domain and stored in the
    genesis block are parameters. *)
From stdpp Require Import prelude strings gmap.
From Stdlib Require Import ZArith Lia.
From S2P Require Import Prelude TypesCurrency TypesData TypesEncoding TypesHash TypesPolicy.
From S2P Require Import TypesQdayAddress.
From S2P Require Import ConsensusWork ConsensusState ConsensusQday.

Definition QdayV1ActivationHeight : Z := 9100.

(** [types.Siacoins(n)] for the small constants of the manifest. *)
Definition coins (n : Z) : Currency :=
  match Currency.Siacoins n with Ok c => c | _ => Currency.ZeroCurrency end.

(** The point of scalar 1, the public devnet canary. *)
Definition devnetCanary : bytes := 88 :: replicate 31 102.

Definition launchParams (development : bool) (canary domain : bytes) : QdayParams :=
  {| qd_RulesVersion := 2; qd_Domain := domain;
     qd_Canary := if development then devnetCanary else canary;
     qd_Reward := coins 8; qd_ProofFee := coins 1; qd_MiningBlocks := 1000000;
     qd_PremineAmount := coins 500000;
     qd_ShieldBlocks := if development then 12 else 1440;
     qd_DecayBlocks := if development then 24 else 10080;
     qd_DecayStep := if development then 2 else 60;
     qd_ActivationDelay := if development then 1 else 6;
     qd_DefendBits := if development then 8 else 20;
     qd_V1Height := QdayV1ActivationHeight |}.

(** [types.BlockID{2: 16}], [types.BlockID{1: 15}] *)
Definition launchTarget (development : bool) : BlockID :=
  if development then [0; 15] ++ zeros 30 else [0; 0; 16] ++ zeros 29.

Definition launchNetwork (development : bool) (timestamp : Time) (canary domain : bytes) : Network :=
  {| n_Name := if development then "qday-devnet" else "qday-mainnet";
     n_Qday := Some (launchParams development canary domain);
     n_InitialCoinbase := Currency.ZeroCurrency; n_MinimumCoinbase := Currency.ZeroCurrency;
     n_InitialTarget := launchTarget development;
     n_BlockInterval := if development then 2 * Second else 60 * Second;
     n_MaturityDelay := if development then 2 else 60;
     n_DevAddr_Height := 0; n_DevAddr_OldAddress := zeroHash; n_DevAddr_NewAddress := zeroHash;
     n_Tax_Height := 0; n_StorageProof_Height := 0;
     n_Oak_Height := 0; n_Oak_FixHeight := 0; n_Oak_GenesisTimestamp := timestamp;
     n_ASIC_Height := 0; n_ASIC_OakTime := 0; n_ASIC_OakTarget := launchTarget development;
     n_ASIC_NonceFactor := 1;
     n_Foundation_Height := 0; n_Foundation_PrimaryAddress := zeroHash;
     n_Foundation_FailsafeAddress := zeroHash;
     n_V2_AllowHeight := 1; n_V2_RequireHeight := 1; n_V2_FinalCutHeight := 1;
     n_V2_EphemeralOutputHeight := 1 |}.

Section Manifest.
Context {crypto : Crypto} {edwards : Edwards25519}.
(** [json.Marshal] of the network and owner, and of the network. *)
Variable marshalDomain : Network -> Address -> bytes.
Variable marshalNetwork : Network -> bytes.

Definition genesisBlock (n : Network) (owner : Address) (timestamp : Time) (premine : Currency)
    : Block :=
  {| b_ParentID := zeroHash; b_Nonce := 0; b_Timestamp := timestamp; b_MinerPayouts := [];
     b_Transactions :=
       [{| tx_SiacoinInputs := [];
           tx_SiacoinOutputs := [{| sco_Value := premine; sco_Address := owner |}];
           tx_FileContracts := []; tx_FileContractRevisions := []; tx_StorageProofs := [];
           tx_SiafundInputs := []; tx_SiafundOutputs := []; tx_MinerFees := [];
           tx_ArbitraryData := [str_bytes "QDAY/genesis/v2/" ++ marshalNetwork n];
           tx_Signatures := [] |}];
     b_V2 := None |}.

(** [NewQdayManifest]; [canary] is the result of [consensus.QdayCanary()]. *)
Definition NewQdayManifest (owner : Address) (timestamp : Time) (development : bool)
    (canary : bytes) : outcome (Network * Block) :=
  _ ← QdayAddress_Validate owner;
  _ ← fail_if ((Unix timestamp <=? 0) || negb (timestamp mod Second =? 0))
        "genesis timestamp must be positive whole UTC seconds";
  let draft := launchNetwork development timestamp canary zeroHash in
  let domain := blake2b_Sum256 (str_bytes "QDAY/network/v2" ++ marshalDomain draft owner) in
  let n := launchNetwork development timestamp canary domain in
  _ ← QdayParams_Validate (launchParams development canary domain);
  Ok (n, genesisBlock n owner timestamp (qd_PremineAmount (launchParams development canary domain))).
End Manifest.
