(* ===== verification/SampleChain.v ===== *)
(** * A concrete chain

    An instance of the curve operations and the devnet genesis state, used to evaluate
    the model on concrete inputs. *)
From stdpp Require Import prelude strings gmap.
From Stdlib Require Import ZArith Lia.
From S2P Require Import Prelude TypesCurrency TypesData TypesEncoding TypesHash SampleCrypto.
From S2P Require Import TypesPolicy TypesPolicySpec ConsensusWork ConsensusState ConsensusQday.
From S2P Require Import ConsensusMerkle ConsensusDifficulty ConsensusMidState ConsensusApply.
From S2P Require Import ConsensusValidateV1 ConsensusValidate.
From S2P Require Import ChainQday.

Module SampleChain.

(** The additive group of integers modulo [2^252] stands for the curve. *)
Definition order : Z := 2 ^ 252.
Definition base : Z := le_decode devnetCanary mod order.
Definition edwards : Edwards25519 :=
  {| ed_Point := Z; ed_Scalar := Z;
     Point_SetBytes := fun b => if (length b =? 32)%nat then Some (le_decode b) else None;
     Point_Bytes := fun p => if p =? base then devnetCanary else le_encode 32 p;
     Point_Equal := Z.eqb; NewIdentityPoint := 0; MultByCofactor := fun p => (8 * p) mod order;
     SetCanonicalBytes := fun b =>
       if (length b =? 32)%nat && (le_decode b <? order) then Some (le_decode b) else None;
     Scalar_Equal := Z.eqb; NewScalar := 0; ScalarBaseMult := fun s => (s * base) mod order |}.

#[export] Existing Instance Sample.crypto.
#[export] Existing Instance edwards.

Definition timestamp : Time := time_Unix 1788998400.
Definition domain : bytes := replicate 32 7.
Definition params : QdayParams := launchParams true [] domain.
Definition network : Network := launchNetwork true timestamp [] domain.

(** A state whose next block has height [h]. *)
Definition at_height (h : Z) : State :=
  {| s_QdayHeight := 0; s_Network := network;
     s_Index := {| ci_Height := u64 (h - 1); ci_ID := zeroHash |};
     s_PrevTimestamps := []; s_Depth := []; s_ChildTarget := [];
     s_SiafundTaxRevenue := Currency.ZeroCurrency; s_OakTime := 0; s_OakTarget := [];
     s_FoundationSubsidyAddress := []; s_FoundationManagementAddress := [];
     s_TotalWork := []; s_Difficulty := []; s_OakWork := [];
     s_Elements := emptyAccumulator; s_Attestations := 0 |}.

Definition element (v : Currency) (maturity : Z) : SiacoinElement :=
  {| sce_ID := zeroHash; sce_StateElement := unassigned;
     sce_SiacoinOutput := {| sco_Value := v; sco_Address := zeroHash |};
     sce_MaturityHeight := maturity |}.

(** The devnet chain after its genesis block. *)
Definition keys : QdayPrivateKeys := Eval vm_compute in ex_private 5.
Definition owner : Address := Eval vm_compute in QdayKeys_Address (qp_Public keys).
Definition no_json (n : Network) : bytes := [].
Definition genesis : Block := genesisBlock no_json network owner timestamp (qd_PremineAmount params).
Definition genesis_supplement : V1BlockSupplement :=
  {| bs_Transactions := [{| ts_SiacoinInputs := []; ts_SiafundInputs := [];
                            ts_RevisedFileContracts := []; ts_StorageProofs := [] |}];
     bs_ExpiringFileContracts := [] |}.
Definition after_genesis : outcome (State * ApplyUpdate) :=
  s ← GenesisState network; ApplyBlock s genesis genesis_supplement timestamp.
Definition tip : State := Eval vm_compute in
  match after_genesis with Ok (s, _) => s | _ => at_height 1 end.

Lemma fmap_fst_ok {A B} (m : outcome (A * B)) a : fst <$> m = Ok a -> exists b, m = Ok (a, b).
Proof. destruct m as [[x y]| |]; [|done|done]. intros [= ->]. by exists y. Qed.

Lemma after_genesis_state : fst <$> after_genesis = Ok tip.
Proof. vm_cast_no_check (eq_refl (Ok tip)). Qed.
Lemma after_genesis_ok : exists au, after_genesis = Ok (tip, au).
Proof. by apply fmap_fst_ok, after_genesis_state. Qed.

(** ** A block with two transfers

    The first spends the premine, the second an output of the first and carries the
    canary proof. *)
Definition premine : SiacoinElement := Eval vm_compute in
  match after_genesis with
  | Ok (_, au) => match au_sces au with
                  | d :: _ => sced_SiacoinElement d
                  | [] => element Currency.ZeroCurrency 0
                  end
  | _ => element Currency.ZeroCurrency 0
  end.

Definition unsigned (parent : SiacoinElement) (outs : list SiacoinOutput) (fee : Currency)
    (data : bytes) (sp : SatisfiedPolicy) : V2Transaction :=
  {| v2tx_SiacoinInputs := [{| v2sci_Parent := parent; v2sci_SatisfiedPolicy := sp |}];
     v2tx_SiacoinOutputs := outs; v2tx_SiafundInputs := []; v2tx_SiafundOutputs := [];
     v2tx_FileContracts := []; v2tx_FileContractRevisions := []; v2tx_FileContractResolutions := [];
     v2tx_Attestations := []; v2tx_ArbitraryData := data; v2tx_NewFoundationAddress := None;
     v2tx_MinerFee := fee |}.

Definition no_policy : SatisfiedPolicy :=
  {| sat_Policy := AnyoneCanSpend; sat_Signatures := []; sat_Preimages := [] |}.

Definition signed (parent : SiacoinElement) (outs : list SiacoinOutput) (fee : Currency)
    (data : bytes) : V2Transaction :=
  let policy := {| sat_Policy := QdayKeys_Policy (qp_Public keys); sat_Signatures := [];
                   sat_Preimages := [] |} in
  let h := InputSigHash tip (unsigned parent outs fee data policy) in
  unsigned parent outs fee data
    match QdayPrivateKeys_Sign keys h with Ok w => w | _ => no_policy end.

Definition pay (n : Z) : SiacoinOutput := {| sco_Value := coins n; sco_Address := owner |}.
Definition envelope (kind nonce : Z) (ks : list QdayKeys) (w : bytes) : bytes :=
  QdayEnvelope_Encode {| qe_Kind := kind; qe_Nonce := nonce; qe_Keys := ks; qe_Witness := w |}.

Definition transfer1 : V2Transaction :=
  signed premine [pay 300000; pay 199999] (coins 1) (envelope QdayTransfer 1 [] (zeros 32)).
Definition change : SiacoinElement :=
  {| sce_ID := V2SiacoinOutputID (V2Transaction_ID transfer1) 1; sce_StateElement := unassigned;
     sce_SiacoinOutput := pay 199999; sce_MaturityHeight := 1 |}.
Definition transfer2 : V2Transaction :=
  signed change [pay 199997] (coins 2) (envelope QdayCanaryProof 0 [] (1 :: zeros 31)).
Definition coinbase : V2Transaction :=
  let t := unsigned premine [] Currency.ZeroCurrency
             (envelope QdayCoinbase 0 [qp_Public keys] (zeros 32)) no_policy in
  {| v2tx_SiacoinInputs := []; v2tx_SiacoinOutputs := []; v2tx_SiafundInputs := [];
     v2tx_SiafundOutputs := []; v2tx_FileContracts := []; v2tx_FileContractRevisions := [];
     v2tx_FileContractResolutions := []; v2tx_Attestations := [];
     v2tx_ArbitraryData := v2tx_ArbitraryData t; v2tx_NewFoundationAddress := None;
     v2tx_MinerFee := Currency.ZeroCurrency |}.

Definition with_nonce (nonce : Z) : Block :=
  {| b_ParentID := ci_ID (s_Index tip); b_Nonce := nonce;
     b_Timestamp := time_Add timestamp (2 * Second); b_MinerPayouts := [pay 11];
     b_Transactions := [];
     b_V2 := Some {| v2b_Height := 1;
                     v2b_Commitment := Commitment tip owner [] [coinbase; transfer1; transfer2];
                     v2b_Transactions := [coinbase; transfer1; transfer2] |} |}.

(** The nonce meets the proof-of-work target. *)
Definition block1 : Block := with_nonce 4558.
Definition no_supplement : V1BlockSupplement :=
  {| bs_Transactions := []; bs_ExpiringFileContracts := [] |}.

Lemma transfer1_valid : ValidateV2Transaction (NewMidState tip) transfer1 = Ok tt.
Proof. vm_cast_no_check (eq_refl (Ok tt)). Qed.
Lemma transfer1_applies : exists ms, ApplyV2Transaction (NewMidState tip) transfer1 = Ok ms.
Proof.
  assert (match ApplyV2Transaction (NewMidState tip) transfer1 with Ok _ => true | _ => false end = true)
    as H by vm_cast_no_check (eq_refl true).
  destruct (ApplyV2Transaction _ _) as [ms| |]; [by exists ms|done|done].
Qed.
Lemma block1_valid : ValidateBlock tip block1 no_supplement = Ok tt.
Proof. vm_cast_no_check (eq_refl (Ok tt)). Qed.

Definition after_block1 : outcome (State * ApplyUpdate) :=
  ApplyBlock tip block1 no_supplement timestamp.

(** The height at which the decay starts, set by the proof in the block. *)
Lemma after_block1_activates : (fun r => s_QdayHeight (fst r)) <$> after_block1 = Ok 2.
Proof. vm_cast_no_check (eq_refl (Ok 2)). Qed.
Lemma block1_applies : exists s au, after_block1 = Ok (s, au) /\ s_QdayHeight s = 2.
Proof.
  pose proof after_block1_activates as H. destruct after_block1 as [[s au]| |]; [|done|done].
  injection H as H. by exists s, au.
Qed.
End SampleChain.
