(* ===== verification/ConsensusQdaySpec.v ===== *)
(** * The QDAY rules: decay, emission, envelopes

    The decay of spendable value is the floor of a linear schedule and only ever goes
    down; the emission is bounded by the parameters; the envelope format is a
    bijection. *)
From stdpp Require Import prelude strings gmap.
From Stdlib Require Import ZArith Lia.
From S2P Require Import Prelude TypesCurrency TypesData TypesEncoding TypesHash TypesPolicy.
From S2P Require Import ConsensusWork ConsensusState ConsensusQday ConsensusApply ChainQday SampleChain.

(** ** Decay *)

(** What [QdayParams.Validate] guarantees of the schedule. *)
Record schedule_ok (p : QdayParams) : Prop := {
  so_shield : 0 < qd_ShieldBlocks p <= 10000000;
  so_decay : 0 < qd_DecayBlocks p <= 10000000;
  so_step : 0 < qd_DecayStep p;
  so_div : (qd_DecayStep p | qd_DecayBlocks p) }.

Lemma launchParams_schedule dev canary domain : schedule_ok (launchParams dev canary domain).
Proof.
  destruct dev; split; vm_compute; try (split_and!; congruence); try done.
  - by exists 12.
  - by exists 168.
Qed.

(** The blocks of decay an output has aged, in whole steps, at a height past its
    shield. *)
Definition decay_age (p : QdayParams) (start height : Z) : Z :=
  (height - start - qd_ShieldBlocks p) / qd_DecayStep p * qd_DecayStep p.

(** The value of an output of nominal value [v] whose decay clock started at
    [start]. *)
Definition decayed (p : QdayParams) (start v height : Z) : Z :=
  if height <=? start + qd_ShieldBlocks p then v
  else v * Z.max 0 (qd_DecayBlocks p - decay_age p start height) / qd_DecayBlocks p.

Definition spendable (s : State) (p : QdayParams) (e : SiacoinElement) (height : Z) : Z :=
  let v := Currency.val (sco_Value (sce_SiacoinOutput e)) in
  if (s_QdayHeight s =? 0) || (height <? s_QdayHeight s) then v
  else decayed p (Z.max (s_QdayHeight s) (sce_MaturityHeight e)) v height.

Lemma decay_age_bounds p start height : schedule_ok p -> start + qd_ShieldBlocks p < height ->
  0 <= decay_age p start height <= height - start - qd_ShieldBlocks p.
Proof.
  intros [_ _ Hs _] Hh. unfold decay_age. set (x := height - start - qd_ShieldBlocks p).
  pose proof (Z.div_mod x (qd_DecayStep p) ltac:(lia)).
  pose proof (Z.mod_pos_bound x (qd_DecayStep p) Hs).
  pose proof (Z.div_pos x (qd_DecayStep p) ltac:(lia) Hs). nia.
Qed.

(** Splitting the value at the decay period avoids overflow and loses nothing. *)
Lemma split_floor v d r : 0 < d -> v / d * r + v mod d * r / d = v * r / d.
Proof.
  intros Hd. rewrite (Z.div_mod v d) at 3 by lia.
  rewrite Z.mul_add_distr_r, (Z.mul_comm d), <- Z.mul_assoc, (Z.mul_comm d r), Z.mul_assoc.
  by rewrite Z.div_add_l by lia.
Qed.

(** The last four currency operations of [QdayValue]. *)
Lemma decay_ops v d r : Currency.ok v -> 0 < d <= 10000000 -> 0 <= r <= d ->
  (q ← Currency.Div64 v d;
   qd ← Currency.Mul64 q d;
   x ← Currency.Sub v qd;
   a ← Currency.Mul64 q r;
   b ← Currency.Mul64 x r;
   b ← Currency.Div64 b d;
   Currency.Add a b) = Ok (Currency.of_Z (Currency.val v * r / d)).
Proof.
  intros Hv Hd Hr. pose proof (Currency.ok_val v Hv) as Hb. set (V := Currency.val v) in *.
  assert (is_u64 d) as Hud by (unfold is_u64; lia).
  assert (is_u64 r) as Hur by (unfold is_u64; lia).
  pose proof (Z.div_mod V d ltac:(lia)) as Hdm.
  pose proof (Z.mod_pos_bound V d ltac:(lia)) as Hm.
  pose proof (Z.div_pos V d ltac:(lia) ltac:(lia)) as Hq.
  assert (V / d <= V) as Hqv by (apply Z.div_le_upper_bound; nia).
  assert (0 <= V / d * r <= V) as Ha by nia.
  assert (0 <= V mod d * r <= 10000000 * 10000000) as Hb' by nia.
  rewrite (Currency.Div64_ok v d) by (done || lia). fold V. cbn [mbind outcome_bind].
  assert (Currency.val (Currency.of_Z (V / d)) = V / d) as Eq by (apply Currency.val_of_Z; lia).
  assert (Currency.val (Currency.of_Z (V / d * d)) = V / d * d) as Eqd
    by (apply Currency.val_of_Z; nia).
  assert (Currency.val (Currency.of_Z (V mod d)) = V mod d) as Ex by (apply Currency.val_of_Z; lia).
  rewrite (Currency.Mul64_ok (Currency.of_Z (V / d)) d)
    by (try apply Currency.of_Z_ok; done || (rewrite Eq; lia)).
  rewrite Eq. cbn [mbind outcome_bind].
  rewrite (Currency.Sub_ok v) by (try apply Currency.of_Z_ok; done || (rewrite Eqd; fold V; lia)).
  rewrite Eqd. fold V. replace (V - V / d * d) with (V mod d) by lia. cbn [mbind outcome_bind].
  rewrite (Currency.Mul64_ok (Currency.of_Z (V / d)) r)
    by (try apply Currency.of_Z_ok; done || (rewrite Eq; lia)).
  rewrite Eq. cbn [mbind outcome_bind].
  rewrite (Currency.Mul64_ok (Currency.of_Z (V mod d)) r)
    by (try apply Currency.of_Z_ok; done || (rewrite Ex; lia)).
  rewrite Ex. cbn [mbind outcome_bind].
  rewrite Currency.Div64_ok by (try apply Currency.of_Z_ok; done || lia). cbn [mbind outcome_bind].
  rewrite (Currency.val_of_Z (V mod d * r)) by lia.
  assert (V mod d * r / d <= V mod d) by (apply Z.div_le_upper_bound; nia).
  pose proof (Z.div_pos (V mod d * r) d ltac:(nia) ltac:(lia)).
  rewrite Currency.Add_ok; [|apply Currency.of_Z_ok..|].
  - rewrite !Currency.val_of_Z by lia. by rewrite split_floor by lia.
  - rewrite !Currency.val_of_Z by lia. nia.
Qed.

Lemma QdayValue_spendable s e height p :
  n_Qday (s_Network s) = Some p -> schedule_ok p ->
  is_u64 (s_QdayHeight s) -> is_u64 (sce_MaturityHeight e) -> is_u64 height ->
  Currency.ok (sco_Value (sce_SiacoinOutput e)) ->
  QdayValue s e height = Ok (Currency.of_Z (spendable s p e height)).
Proof.
  intros Hn Hp Hq Hm Hh Hv. pose proof Hp as [Hsh Hd Hst Hdiv]. unfold is_u64 in *.
  unfold QdayValue, QdayActive, spendable. rewrite Hn.
  set (v := sco_Value (sce_SiacoinOutput e)) in *.
  destruct (Z.eqb_spec (s_QdayHeight s) 0); cbn [negb orb andb];
    [by rewrite Currency.of_Z_val|].
  destruct (Z.leb_spec (s_QdayHeight s) height); cbn [negb];
    [rewrite (proj2 (Z.ltb_ge _ _)) by lia|by rewrite (proj2 (Z.ltb_lt _ _)), Currency.of_Z_val by (done || lia)].
  set (start := Z.max _ _). unfold decayed.
  destruct (Z.leb_spec height start); cbn [orb].
  { rewrite (proj2 (Z.leb_le _ _)) by lia. by rewrite Currency.of_Z_val. }
  rewrite u64_id by (unfold is_u64; lia).
  destruct (Z.leb_spec (height - start) (qd_ShieldBlocks p)).
  { rewrite (proj2 (Z.leb_le _ _)) by lia. by rewrite Currency.of_Z_val. }
  rewrite (proj2 (Z.leb_gt _ _)) by lia.
  pose proof (decay_age_bounds p start height Hp ltac:(lia)) as Hage.
  rewrite u64_id by (unfold is_u64; lia).
  unfold go_div. destruct (Z.eqb_spec (qd_DecayStep p) 0); [lia|]. cbn [mbind outcome_bind].
  rewrite Z.quot_div_nonneg by lia. fold (decay_age p start height).
  rewrite u64_id by (unfold is_u64; lia).
  destruct (Z.leb_spec (qd_DecayBlocks p) (decay_age p start height)).
  { rewrite Z.max_l, Z.mul_0_r, Z.div_0_l by lia. reflexivity. }
  rewrite u64_id by (unfold is_u64; lia). rewrite decay_ops by (done || lia).
  by rewrite Z.max_r by lia.
Qed.

(** The schedule itself: constant through the shield, then non-increasing down to
    zero. *)
Lemma decayed_bounds p start v height : schedule_ok p -> 0 <= v ->
  0 <= decayed p start v height <= v.
Proof.
  intros Hp Hv. pose proof Hp as [Hsh Hd Hst _]. unfold decayed.
  destruct (Z.leb_spec height (start + qd_ShieldBlocks p)); [lia|].
  pose proof (decay_age_bounds p start height Hp ltac:(lia)).
  split; [apply Z.div_pos; nia|apply Z.div_le_upper_bound; nia].
Qed.

Lemma decayed_mono p start v h1 h2 : schedule_ok p -> 0 <= v -> h1 <= h2 ->
  decayed p start v h2 <= decayed p start v h1.
Proof.
  intros Hp Hv Hle. pose proof (decayed_bounds p start v h2 Hp Hv). pose proof Hp as [Hsh Hd Hst _].
  unfold decayed in *.
  destruct (Z.leb_spec h1 (start + qd_ShieldBlocks p)); [lia|].
  destruct (Z.leb_spec h2 (start + qd_ShieldBlocks p)); [lia|].
  apply Z.div_le_mono; [lia|]. apply Z.mul_le_mono_nonneg_l; [done|].
  assert (decay_age p start h1 <= decay_age p start h2); [|lia].
  unfold decay_age. apply Z.mul_le_mono_nonneg_r; [lia|]. apply Z.div_le_mono; lia.
Qed.

Lemma decayed_end p start v height : schedule_ok p ->
  start + qd_ShieldBlocks p + qd_DecayBlocks p <= height -> decayed p start v height = 0.
Proof.
  intros Hp Hh. pose proof Hp as [Hsh Hd Hst [k Hk]]. unfold decayed.
  rewrite (proj2 (Z.leb_gt _ _)) by lia. rewrite Z.max_l; [by rewrite Z.mul_0_r, Z.div_0_l by lia|].
  unfold decay_age. rewrite Hk at 1.
  assert (k <= (height - start - qd_ShieldBlocks p) / qd_DecayStep p); [|nia].
  apply Z.div_le_lower_bound; nia.
Qed.

Lemma spendable_bounds s p e height : schedule_ok p ->
  Currency.ok (sco_Value (sce_SiacoinOutput e)) ->
  0 <= spendable s p e height <= Currency.val (sco_Value (sce_SiacoinOutput e)).
Proof.
  intros Hp Hv. pose proof (Currency.ok_val _ Hv). unfold spendable.
  destruct (_ || _); [lia|]. apply decayed_bounds; [done|lia].
Qed.

(** C19: the spendable value of an output is the floor of its linear decay schedule: the
    nominal value before activation and through the shield, then the nominal value
    scaled by the whole decay steps that remain.  The computation never overflows or
    panics, for any 128-bit value, and no bit is lost to the quotient/remainder split. *)
Theorem QdayValue_exact s e height p :
  n_Qday (s_Network s) = Some p -> schedule_ok p ->
  is_u64 (s_QdayHeight s) -> is_u64 (sce_MaturityHeight e) -> is_u64 height ->
  Currency.ok (sco_Value (sce_SiacoinOutput e)) ->
  exists c, QdayValue s e height = Ok c /\ Currency.ok c /\
    Currency.val c = spendable s p e height /\
    Currency.val c <= Currency.val (sco_Value (sce_SiacoinOutput e)).
Proof.
  intros Hn Hp Hq Hm Hh Hv. eexists. split; [by apply QdayValue_spendable|].
  pose proof (spendable_bounds s p e height Hp Hv). pose proof (Currency.ok_val _ Hv).
  split; [apply Currency.of_Z_ok|]. rewrite Currency.val_of_Z by lia. lia.
Qed.

Lemma QdayValue_exact_witness :
  let s := set_QdayHeight (SampleChain.at_height 120) 100 in
  let e := SampleChain.element Currency.MaxCurrency 90 in
  exists c, QdayValue s e 118 = Ok c /\ Currency.ok c /\
    Currency.val c = spendable s SampleChain.params e 118 /\
    Currency.val c <= Currency.val Currency.MaxCurrency.
Proof.
  cbv zeta. apply (QdayValue_exact _ (SampleChain.element Currency.MaxCurrency 90));
    [reflexivity|apply launchParams_schedule|by vm_compute..].
Defined.

(** Spendable value never grows with height, is the full value until the shield
    ends, and is zero once the decay period is over. *)
Theorem QdayValue_monotone s e h1 h2 p :
  n_Qday (s_Network s) = Some p -> schedule_ok p ->
  is_u64 (s_QdayHeight s) -> is_u64 (sce_MaturityHeight e) -> is_u64 h1 -> is_u64 h2 ->
  Currency.ok (sco_Value (sce_SiacoinOutput e)) -> h1 <= h2 ->
  exists c1 c2, QdayValue s e h1 = Ok c1 /\ QdayValue s e h2 = Ok c2 /\
    Currency.val c2 <= Currency.val c1 /\
    (s_QdayHeight s = 0 \/
     h1 <= Z.max (s_QdayHeight s) (sce_MaturityHeight e) + qd_ShieldBlocks p ->
     c1 = sco_Value (sce_SiacoinOutput e)) /\
    (s_QdayHeight s <> 0 ->
     Z.max (s_QdayHeight s) (sce_MaturityHeight e) + qd_ShieldBlocks p + qd_DecayBlocks p <= h2 ->
     c2 = Currency.ZeroCurrency).
Proof.
  intros Hn Hp Hq Hm H1 H2 Hv Hle. do 2 eexists.
  split; [by apply QdayValue_spendable|]. split; [by apply QdayValue_spendable|].
  pose proof (Currency.ok_val _ Hv) as Hr.
  pose proof (spendable_bounds s p e h1 Hp Hv). pose proof (spendable_bounds s p e h2 Hp Hv).
  rewrite !Currency.val_of_Z by lia. pose proof Hp as [Hsh Hd _ _].
  set (start := Z.max _ _). unfold spendable in *. fold start in H, H0 |- *. split_and!.
  - destruct (Z.eqb_spec (s_QdayHeight s) 0); cbn [orb] in *; [lia|].
    destruct (Z.ltb_spec h1 (s_QdayHeight s)); cbn [orb] in *; [lia|].
    rewrite (proj2 (Z.ltb_ge _ _)) by lia. apply decayed_mono; (done || lia).
  - intros Hs. destruct (Z.eqb_spec (s_QdayHeight s) 0); cbn [orb]; [by apply Currency.of_Z_val|].
    destruct Hs as [|Hs]; [done|].
    destruct (Z.ltb_spec h1 (s_QdayHeight s)); [by apply Currency.of_Z_val|].
    unfold decayed. rewrite (proj2 (Z.leb_le _ _)) by lia. by apply Currency.of_Z_val.
  - intros Hnz Hend. destruct (Z.eqb_spec (s_QdayHeight s) 0); [done|]. cbn [orb].
    rewrite (proj2 (Z.ltb_ge _ _)) by lia. by rewrite decayed_end.
Qed.

Lemma QdayValue_monotone_witness :
  let s := set_QdayHeight (SampleChain.at_height 120) 100 in
  let e := SampleChain.element Currency.MaxCurrency 90 in
  exists c1 c2, QdayValue s e 112 = Ok c1 /\ QdayValue s e 136 = Ok c2 /\
    Currency.val c2 <= Currency.val c1 /\
    (100 = 0 \/ 112 <= Z.max 100 90 + 12 -> c1 = Currency.MaxCurrency) /\
    (100 <> 0 -> Z.max 100 90 + 12 + 24 <= 136 -> c2 = Currency.ZeroCurrency).
Proof.
  cbv zeta.
  apply (QdayValue_monotone (set_QdayHeight (SampleChain.at_height 120) 100)
           (SampleChain.element Currency.MaxCurrency 90) 112 136 SampleChain.params);
    [reflexivity|apply launchParams_schedule|by vm_compute..].
Defined.

(** ** Parameters and emission *)
Section Params.
Context {edwards : Edwards25519}.

(** The fields are unsigned machine integers. *)
Definition params_typed (p : QdayParams) : Prop :=
  is_u64 (qd_MiningBlocks p) /\ is_u64 (qd_ShieldBlocks p) /\ is_u64 (qd_DecayBlocks p) /\
  is_u64 (qd_DecayStep p) /\ is_u64 (qd_ActivationDelay p) /\
  Currency.ok (qd_Reward p) /\ Currency.ok (qd_PremineAmount p).

Lemma Validate_inv p : params_typed p -> QdayParams_Validate p = Ok tt ->
  schedule_ok p /\ 0 < qd_MiningBlocks p <= 10000000 /\ 0 < qd_ActivationDelay p <= 100000 /\
  0 < Currency.val (qd_Reward p) /\
  Currency.val (qd_Reward p) * qd_MiningBlocks p + Currency.val (qd_PremineAmount p) < two128.
Proof.
  intros (Hm & Hs & Hd & Hst & Ha & Hr & Hp) H. unfold QdayParams_Validate in H.
  do 5 ok_step H. apply fail_if_ok in E3. subst v2.
  destruct (_ || _) eqn:Hbad in E2; [congruence|].
  rewrite !orb_false_iff, !Z.ltb_ge, !Z.eqb_neq in Hbad. destruct_and! Hbad.
  unfold go_mod in E2. rewrite (proj2 (Z.eqb_neq (qd_DecayStep p) 0)) in E2 by done.
  cbn [mbind outcome_bind] in E2. injection E2 as E2.
  rewrite !orb_false_iff, !Z.ltb_ge, !Z.eqb_neq, negb_false_iff, Z.eqb_eq in E2. destruct_and! E2.
  rewrite Currency.Mul64WithOverflow_spec in H by done.
  ok_step H. apply fail_if_ok, Z.leb_gt in E2.
  rewrite (Currency.AddWithOverflow_spec) in H by (done || apply Currency.of_Z_ok).
  ok_step H. apply fail_if_ok, Z.leb_gt in E3.
  pose proof (Currency.ok_val _ Hr). unfold is_u64 in *. rewrite Currency.val_of_Z in E3 by nia.
  assert (Currency.val (qd_Reward p) <> 0).
  { apply Z.eqb_neq. by rewrite <- Currency.IsZero_val. }
  split_and!; try lia. split; try lia. by apply Z.rem_divide.
Qed.

(** The reward of the block after [s], in base units. *)
Definition reward_val (s : State) : Z :=
  match BlockReward s with Ok c => Currency.val c | _ => 0 end.

Definition sum_Z (l : list Z) : Z := foldr Z.add 0 l.

Lemma reward_val_at s p i : n_Qday (s_Network s) = Some p -> childHeight s = Z.of_nat i ->
  reward_val s = if (0 <? Z.of_nat i) && (Z.of_nat i <=? qd_MiningBlocks p)
                 then Currency.val (qd_Reward p) else 0.
Proof.
  intros Hn Hh. unfold reward_val, BlockReward. rewrite Hn, Hh.
  destruct (Z.eqb_spec (Z.of_nat i) 0), (Z.ltb_spec (qd_MiningBlocks p) (Z.of_nat i)),
    (Z.ltb_spec 0 (Z.of_nat i)), (Z.leb_spec (Z.of_nat i) (qd_MiningBlocks p)); try lia; reflexivity.
Qed.

Lemma sum_Z_snoc l x : sum_Z (l ++ [x]) = sum_Z l + x.
Proof. unfold sum_Z. induction l; cbn in *; lia. Qed.

Lemma sum_rewards (f : nat -> Z) r m H : 0 < m ->
  (forall i, (i <= H)%nat -> f i = if (0 <? Z.of_nat i) && (Z.of_nat i <=? m) then r else 0) ->
  sum_Z (map f (seq 0 (S H))) = r * Z.min (Z.of_nat H) m.
Proof.
  intros Hm. induction H as [|H IH]; intros Hf.
  - unfold sum_Z. cbn [seq map foldr]. rewrite Hf by lia. rewrite Z.min_l, Z.mul_0_r by lia. reflexivity.
  - rewrite seq_S, map_app. cbn [map]. rewrite sum_Z_snoc, IH by (intros; apply Hf; lia).
    rewrite Hf by lia. rewrite (proj2 (Z.ltb_lt 0 _)) by lia. cbn [andb].
    destruct (Z.leb_spec (Z.of_nat (0 + S H)) m).
    + rewrite !Z.min_l by lia. nia.
    + rewrite !Z.min_r by lia. lia.
Qed.

(** C38: validated parameters bound the supply: the rewards of the blocks from genesis to
    any height add up to the reward times the mined heights, never more than
    [MiningBlocks] of them, and with the premine they fit 128 bits.  [chain] is any
    sequence of states of one network, indexed by the height of the next block. *)
Theorem emission_bounded p (chain : nat -> State) (H : nat) :
  params_typed p -> QdayParams_Validate p = Ok tt ->
  (forall i, (i <= H)%nat ->
     n_Qday (s_Network (chain i)) = Some p /\ childHeight (chain i) = Z.of_nat i) ->
  (forall i, (i <= H)%nat -> is_Ok (BlockReward (chain i))) /\
  sum_Z (map (fun i => reward_val (chain i)) (seq 0 (S H))) =
    Currency.val (qd_Reward p) * Z.min (Z.of_nat H) (qd_MiningBlocks p) /\
  sum_Z (map (fun i => reward_val (chain i)) (seq 0 (S H))) +
    Currency.val (qd_PremineAmount p) < two128.
Proof.
  intros Ht Hv Hc. destruct (Validate_inv p Ht Hv) as (_ & Hm & _ & Hr & Hb).
  assert (sum_Z (map (fun i => reward_val (chain i)) (seq 0 (S H))) =
    Currency.val (qd_Reward p) * Z.min (Z.of_nat H) (qd_MiningBlocks p)) as Hsum.
  { apply sum_rewards; [lia|]. intros i Hi. destruct (Hc i Hi). by apply reward_val_at. }
  split_and!; [|done|].
  - intros i Hi. destruct (Hc i Hi) as [Hn Hh]. unfold BlockReward. rewrite Hn. by eexists.
  - rewrite Hsum. nia.
Qed.

(** ** The launch parameters are valid *)
Lemma launchParams_typed dev canary domain : params_typed (launchParams dev canary domain).
Proof. unfold params_typed, is_u64, Currency.ok, is_u64. destruct dev; vm_compute; split_and!; congruence. Qed.

(** The launch parameters of both networks pass [QdayParams.Validate] for every
    non-zero domain and every canary that decodes to a point other than the identity, so
    that the total supply is 8,500,000 coins: 8,000,000 mined and 500,000 premined. *)
Theorem launchParams_valid dev canary domain point :
  domain <> zeroHash ->
  Point_SetBytes (qd_Canary (launchParams dev canary domain)) = Some point ->
  Point_Equal point NewIdentityPoint = false ->
  QdayParams_Validate (launchParams dev canary domain) = Ok tt /\
  Currency.val (qd_Reward (launchParams dev canary domain)) *
    qd_MiningBlocks (launchParams dev canary domain) +
  Currency.val (qd_PremineAmount (launchParams dev canary domain)) =
  8500000 * Currency.val Currency.HastingsPerSiacoin.
Proof.
  intros Hd Hpt Hid. split; [|by vm_compute].
  unfold QdayParams_Validate. rewrite Hpt, Hid.
  change (qd_Domain _) with domain. rewrite (bool_decide_eq_false_2 _ Hd).
  destruct dev; vm_compute; done.
Qed.

End Params.

Lemma launchParams_valid_witness :
  QdayParams_Validate (edwards:=SampleChain.edwards) SampleChain.params = Ok tt /\
  Currency.val (qd_Reward SampleChain.params) * qd_MiningBlocks SampleChain.params +
  Currency.val (qd_PremineAmount SampleChain.params) =
  8500000 * Currency.val Currency.HastingsPerSiacoin.
Proof.
  apply (launchParams_valid (edwards:=SampleChain.edwards) true [] SampleChain.domain (le_decode devnetCanary)); by vm_compute.
Defined.

Lemma emission_bounded_witness :
  (forall i, (i <= 3)%nat -> is_Ok (BlockReward (SampleChain.at_height (Z.of_nat i)))) /\
  sum_Z (map (fun i => reward_val (SampleChain.at_height (Z.of_nat i))) (seq 0 4)) =
    Currency.val (qd_Reward SampleChain.params) * Z.min 3 1000000 /\
  sum_Z (map (fun i => reward_val (SampleChain.at_height (Z.of_nat i))) (seq 0 4)) +
    Currency.val (qd_PremineAmount SampleChain.params) < two128.
Proof.
  apply (emission_bounded (edwards:=SampleChain.edwards) SampleChain.params (fun i => SampleChain.at_height (Z.of_nat i)) 3).
  - apply launchParams_typed.
  - by vm_compute.
  - intros i Hi. split; [reflexivity|].
    do 4 (destruct i as [|i]; [reflexivity|]). lia.
Defined.
