(* ===== verification/ConsensusEnvelopeSpec.v ===== *)
(** * The QDAY transaction envelope is a bijective encoding *)
From stdpp Require Import prelude strings gmap.
From Stdlib Require Import ZArith Lia.
From S2P Require Import Prelude TypesCurrency TypesData TypesEncoding TypesHash TypesPolicy.
From S2P Require Import ConsensusWork ConsensusState ConsensusQday.

Definition key_ok (k : QdayKeys) : Prop :=
  length (qk_Classical k) = 32%nat /\ length (qk_Reserve k) = 32%nat /\
  bytes_ok (qk_Classical k) /\ bytes_ok (qk_Reserve k) /\ QdayKeys_Validate k = Ok tt.

(** The envelopes that have an encoding: only a proof carries a witness. *)
Record envelope_ok (e : QdayEnvelope) : Prop := {
  eo_kind : 1 <= qe_Kind e <= 4;
  eo_nonce : is_u64 (qe_Nonce e);
  eo_keys : Forall key_ok (qe_Keys e);
  eo_count : zlen (qe_Keys e) <= 128;
  eo_witness : length (qe_Witness e) = 32%nat /\ bytes_ok (qe_Witness e);
  eo_zero : qe_Kind e <> QdayCanaryProof -> qe_Witness e = zeros 32 }.

Lemma QdayKeys_Bytes_length k : key_ok k -> length (QdayKeys_Bytes k) = 64%nat.
Proof. intros (H1 & H2 & _). unfold QdayKeys_Bytes. rewrite length_app. lia. Qed.

Lemma keys_bytes_length ks : Forall key_ok ks ->
  length (flat_map QdayKeys_Bytes ks) = (64 * length ks)%nat.
Proof.
  induction 1 as [|k ks Hk Hks IH]; [done|]. cbn [flat_map length].
  rewrite length_app, IH, QdayKeys_Bytes_length by done. lia.
Qed.

Lemma bytes_ok_slice i j b : bytes_ok b -> bytes_ok (slice i j b).
Proof. intros H. unfold slice. by apply Forall_take, Forall_drop. Qed.

Lemma length_slice {A} i j (b : list A) : (j <= length b)%nat -> length (slice i j b) = (j - i)%nat.
Proof. intros H. unfold slice. rewrite length_take, length_drop. lia. Qed.

(** A slice splits at any point. *)
Lemma slice_split {A} i j k (b : list A) : (i <= j <= k)%nat -> (k <= length b)%nat ->
  slice i k b = slice i j b ++ slice j k b.
Proof.
  intros Hij Hk. unfold slice.
  replace (k - i)%nat with ((j - i) + (k - j))%nat by lia.
  rewrite <- (take_drop (j - i) (drop i b)) at 1.
  rewrite take_app, length_take, length_drop, drop_drop.
  rewrite (take_ge (take _ _)) by (rewrite length_take; lia).
  replace (i + (j - i))%nat with j by lia.
  replace (j - i + (k - j) - (j - i) `min` (length b - i))%nat with (k - j)%nat by lia. done.
Qed.

Lemma parse_keys_inv n i b ks : parse_keys n i b = Ok ks -> bytes_ok b ->
  (16 + 64 * (i + n) <= length b)%nat ->
  length ks = n /\ Forall key_ok ks /\
  flat_map QdayKeys_Bytes ks = slice (16 + 64 * i) (16 + 64 * (i + n)) b.
Proof.
  revert i ks. induction n as [|n IH]; intros i ks H Hb Hl; cbn [parse_keys] in H.
  - inv H. split_and!; [done|done|]. unfold slice. by replace (_ - _)%nat with 0%nat by lia.
  - ok_step H. destruct v. ok_step H. inv H.
    destruct (IH (Datatypes.S i) v E0 Hb ltac:(lia)) as (H1 & H2 & H3).
    split_and!; [cbn; lia| |].
    + constructor; [|done]. unfold key_ok. cbn [qk_Classical qk_Reserve].
      split_and!; first [by apply bytes_ok_slice|done|rewrite length_slice; lia].
    + cbn [flat_map]. rewrite H3. unfold QdayKeys_Bytes. cbn [qk_Classical qk_Reserve].
      rewrite <- slice_split by lia.
      rewrite (slice_split (16 + 64 * i) (80 + 64 * i) (16 + 64 * (i + Datatypes.S n)) b) by lia.
      f_equal. f_equal; lia.
Qed.

Lemma parse_keys_complete ks i pre post : Forall key_ok ks -> length pre = (16 + 64 * i)%nat ->
  parse_keys (length ks) i (pre ++ flat_map QdayKeys_Bytes ks ++ post) = Ok ks.
Proof.
  revert i pre. induction ks as [|k ks IH]; intros i pre Hks Hp; [done|].
  inv Hks. cbn [length parse_keys flat_map].
  match goal with Hk : key_ok k |- _ => pose proof Hk as (Hc & Hr & _ & _ & Hv) end.
  assert (slice (16 + 64 * i) (48 + 64 * i) (pre ++ (QdayKeys_Bytes k ++ flat_map QdayKeys_Bytes ks) ++ post)
          = qk_Classical k) as Ec.
  { unfold slice, QdayKeys_Bytes. rewrite drop_app_length' by done. rewrite <- !app_assoc.
    apply take_app_length'. lia. }
  assert (slice (48 + 64 * i) (80 + 64 * i) (pre ++ (QdayKeys_Bytes k ++ flat_map QdayKeys_Bytes ks) ++ post)
          = qk_Reserve k) as Er.
  { unfold slice, QdayKeys_Bytes. rewrite <- !app_assoc, (app_assoc pre).
    rewrite drop_app_length' by (rewrite length_app; lia). apply take_app_length'. lia. }
  rewrite Ec, Er. replace {| qk_Classical := qk_Classical k; qk_Reserve := qk_Reserve k |} with k
    by (by destruct k).
  rewrite Hv. cbn [mbind outcome_bind].
  rewrite <- app_assoc, (app_assoc pre). rewrite IH; [done|done|].
  rewrite length_app. unfold QdayKeys_Bytes. rewrite length_app. lia.
Qed.

(** The five fields of an encoded envelope. *)
Lemma envelope_split (b : bytes) : (16 <= length b)%nat ->
  b = take 5 b ++ [nth 5 b 0] ++ slice 6 14 b ++ slice 14 16 b ++ drop 16 b.
Proof.
  intros Hl. unfold slice. cbn [Nat.sub].
  do 16 (destruct b as [|? b]; [cbn in Hl; lia|]). reflexivity.
Qed.

Lemma Encode_header e : envelope_ok e -> exists rest,
  QdayEnvelope_Encode e = qdayMagic ++ [qe_Kind e] ++ le_encode 8 (qe_Nonce e) ++
    le_encode 2 (zlen (qe_Keys e)) ++ rest /\
  rest = flat_map QdayKeys_Bytes (qe_Keys e) ++
    (if qe_Kind e =? QdayCanaryProof then qe_Witness e else []) /\
  zlen rest = 64 * zlen (qe_Keys e) + (if qe_Kind e =? QdayCanaryProof then 32 else 0).
Proof.
  intros [Hk Hn Hks Hc Hw _]. eexists. split; [|split; [reflexivity|]].
  - unfold QdayEnvelope_Encode, u16. rewrite Z.mod_small; [done|].
    pose proof (zlen_nonneg (qe_Keys e)). lia.
  - unfold zlen. rewrite length_app, keys_bytes_length by done.
    destruct (_ =? _); cbn [length]; lia.
Qed.

Lemma le_decode_2 z : 0 <= z < 65536 -> le_decode (le_encode 2 z) = z.
Proof. intros H. rewrite le_decode_encode. by apply Z.mod_small. Qed.

Lemma Parse_Encode e : envelope_ok e -> ParseQdayEnvelope (QdayEnvelope_Encode e) = Ok e.
Proof.
  intros He. destruct (Encode_header e He) as (rest & -> & Er & Hlen).
  pose proof He as [Hk Hn Hks Hc [Hwl Hwb] Hz].
  set (n8 := le_encode 8 (qe_Nonce e)). set (n2 := le_encode 2 (zlen (qe_Keys e))).
  assert (length n8 = 8%nat) as L8 by apply length_le_encode.
  assert (length n2 = 2%nat) as L2 by apply length_le_encode.
  set (b := qdayMagic ++ [qe_Kind e] ++ n8 ++ n2 ++ rest).
  pose proof (zlen_nonneg (qe_Keys e)) as Hpos.
  assert (zlen b = 16 + zlen rest) as Hb
    by (unfold b, zlen; rewrite !length_app, L8, L2; cbn [length qdayMagic]; change (length qdayMagic) with 5%nat; lia).
  unfold ParseQdayEnvelope.
  assert (take 5 b = qdayMagic) as -> by (unfold b; by rewrite take_app_length').
  assert (nth 5 b 0 = qe_Kind e) as -> by reflexivity.
  assert (slice 6 14 b = n8) as ->.
  { unfold b, slice. rewrite (app_assoc qdayMagic), drop_app_length' by done.
    apply take_app_length'. lia. }
  assert (slice 14 16 b = n2) as ->.
  { unfold b, slice. rewrite (app_assoc qdayMagic), (app_assoc (qdayMagic ++ _)).
    rewrite drop_app_length' by (rewrite length_app, L8; done). apply take_app_length'. lia. }
  unfold n8, n2. rewrite le_decode_encode_8, le_decode_2 by (done || lia).
  rewrite bool_decide_eq_true_2 by done.
  rewrite (proj2 (Z.ltb_ge (zlen b) 16)) by (rewrite Hb, Hlen; destruct (_ =? _); lia).
  cbn [negb orb fail_if mbind outcome_bind]. unfold QdayTransfer, QdayMiningWork.
  rewrite (proj2 (Z.ltb_ge (qe_Kind e) 1)), (proj2 (Z.ltb_ge 4 (qe_Kind e))),
    (proj2 (Z.ltb_ge 128 _)) by lia.
  rewrite Hb, Hlen, Z.add_assoc, Z.eqb_refl. cbn [negb orb fail_if mbind outcome_bind].
  unfold zlen at 1. rewrite Nat2Z.id.
  assert (b = (qdayMagic ++ [qe_Kind e] ++ n8 ++ n2) ++ flat_map QdayKeys_Bytes (qe_Keys e) ++
    (if qe_Kind e =? QdayCanaryProof then qe_Witness e else [])) as Eb
    by (unfold b; rewrite Er, <- !app_assoc; done).
  rewrite Eb at 1. rewrite parse_keys_complete by (done || (rewrite !length_app, L8, L2; done)).
  cbn [mbind outcome_bind]. destruct e as [kind nonce keys wit]; cbn [qe_Kind qe_Nonce qe_Keys qe_Witness] in *.
  do 2 f_equal. destruct (Z.eqb_spec kind QdayCanaryProof) as [Ek|Ek].
  - cbn [Z.eqb]. rewrite Eb, app_assoc.
    rewrite drop_app_length'; [done|]. rewrite (length_app _ wit). lia.
  - cbn [Z.eqb]. symmetry. by apply Hz.
Qed.

Lemma Parse_inv b e : bytes_ok b -> ParseQdayEnvelope b = Ok e ->
  envelope_ok e /\ QdayEnvelope_Encode e = b.
Proof.
  intros Hb H. unfold ParseQdayEnvelope in H.
  ok_step H. apply fail_if_ok, orb_false_iff in E as [Hl Hm]. apply Z.ltb_ge in Hl.
  apply negb_false_iff, bool_decide_eq_true in Hm.
  ok_step H. apply fail_if_ok in E. rewrite !orb_false_iff, !Z.ltb_ge in E.
  destruct E as [[[Hk1 Hk2] Hn] Hlen]. apply negb_false_iff, Z.eqb_eq in Hlen.
  assert (bytes_ok (slice 14 16 b)) as Hb2 by by apply bytes_ok_slice.
  assert (length b >= 16)%nat as Hl' by (unfold zlen in Hl; lia).
  pose proof (le_decode_range _ Hb2) as Hr. set (n := le_decode (slice 14 16 b)) in *.
  ok_step H. injection H as <-.
  set (kind := nth 5 b 0) in *. unfold QdayTransfer, QdayMiningWork in *.
  destruct (parse_keys_inv _ _ _ _ E Hb) as (Hn' & Hks & Hflat).
  { unfold zlen in Hlen. destruct (kind =? _); lia. }
  assert (zlen v1 = n) as Hz by (unfold zlen; lia).
  assert (slice 14 16 b = le_encode 2 n) as E2.
  { symmetry. pose proof (le_encode_decode _ Hb2) as Hd. rewrite length_slice in Hd by lia. exact Hd. }
  assert (slice 6 14 b = le_encode 8 (le_decode (slice 6 14 b))) as E8.
  { symmetry. assert (bytes_ok (slice 6 14 b)) as Hb8 by by apply bytes_ok_slice.
    pose proof (le_encode_decode _ Hb8) as Hd. rewrite length_slice in Hd by lia. exact Hd. }
  split.
  - split; cbn [qe_Kind qe_Nonce qe_Keys qe_Witness].
    + lia.
    + pose proof (le_decode_range (slice 6 14 b) (bytes_ok_slice _ _ _ Hb)) as Hr8.
      unfold zlen in Hr8. rewrite length_slice in Hr8 by lia. exact Hr8.
    + done.
    + lia.
    + destruct (Z.eqb_spec kind QdayCanaryProof) as [Ek|Ek]; cbn [Z.eqb].
      * unfold zlen in Hlen. split; [rewrite length_drop; lia|by apply Forall_drop].
      * split; [done|]. apply Forall_replicate. unfold byte_ok. lia.
    + intros Hne. by rewrite (proj2 (Z.eqb_neq _ _) Hne).
  - unfold QdayEnvelope_Encode. cbn [qe_Kind qe_Nonce qe_Keys qe_Witness].
    rewrite Hz. unfold u16. rewrite Z.mod_small by lia. rewrite <- E2, <- E8, <- Hm.
    rewrite (envelope_split b) at 6 by lia. do 4 f_equal. rewrite Hflat. unfold slice.
    rewrite Nat.mul_0_r, !Nat.add_0_r, Nat.add_0_l.
    replace (16 + 64 * Z.to_nat n - 16)%nat with (64 * Z.to_nat n)%nat by lia.
    rewrite <- (take_drop (64 * Z.to_nat n) (drop 16 b)) at 2. f_equal. rewrite drop_drop.
    unfold zlen in Hlen. destruct (Z.eqb_spec kind QdayCanaryProof) as [Ek|Ek]; cbn [Z.eqb].
    + f_equal. lia.
    + symmetry. apply drop_ge. lia.
Qed.

(** C37: parsing accepts exactly the canonical encodings of well-formed envelopes: a byte
    string parses to an envelope if and only if it is that envelope's encoding, so no
    envelope has two encodings and no encoding is lost. *)
Theorem envelope_bijection b e : bytes_ok b ->
  (ParseQdayEnvelope b = Ok e <-> envelope_ok e /\ QdayEnvelope_Encode e = b).
Proof.
  intros Hb. split; [by apply Parse_inv|]. intros [He <-]. by apply Parse_Encode.
Qed.

Definition ex_envelope : QdayEnvelope :=
  {| qe_Kind := QdayCoinbase; qe_Nonce := 77;
     qe_Keys := [{| qk_Classical := replicate 32 1; qk_Reserve := replicate 32 2 |}];
     qe_Witness := zeros 32 |}.

Lemma envelope_bijection_witness :
  ParseQdayEnvelope (QdayEnvelope_Encode ex_envelope) = Ok ex_envelope <->
  envelope_ok ex_envelope /\ QdayEnvelope_Encode ex_envelope = QdayEnvelope_Encode ex_envelope.
Proof.
  apply (envelope_bijection (QdayEnvelope_Encode ex_envelope) ex_envelope).
  vm_compute. repeat constructor; congruence.
Defined.
