(* ===== verification/ConsensusDifficultySpec.v ===== *)
(** * Proof of work: exact arithmetic, bounded adjustment, fork choice *)
From stdpp Require Import prelude strings gmap.
From Stdlib Require Import ZArith Lia.
From S2P Require Import Prelude TypesCurrency TypesData TypesEncoding TypesHash TypesPolicy.
From S2P Require Import ConsensusWork ConsensusState ConsensusDifficulty SampleCrypto.
From S2P Require Import ConsensusQday ConsensusMidState ConsensusApply ChainQday SampleChain.
Import WorkSpec.

(** The successful branch of the 256-bit operations. *)
Lemma work_add_ok w v : wok w -> wok v -> wval w + wval v < two256 ->
  exists r, Work.add w v = Ok r /\ wok r /\ wval r = wval w + wval v.
Proof.
  intros Hw Hv H. pose proof (add_spec w v Hw Hv) as Hs.
  destruct (Work.add w v) as [r| |]; [|done|lia]. destruct Hs. eauto.
Qed.

Lemma work_sub_ok w v : wok w -> wok v -> wval v <= wval w ->
  exists r, Work.sub w v = Ok r /\ wok r /\ wval r = wval w - wval v.
Proof.
  intros Hw Hv H. pose proof (sub_spec w v Hw Hv) as Hs.
  destruct (Work.sub w v) as [r| |]; [|done|lia]. destruct Hs. eauto.
Qed.

Lemma work_mul64_ok w v : wok w -> is_u64 v -> wval w * v < two256 ->
  exists r, Work.mul64 w v = Ok r /\ wok r /\ wval r = wval w * v.
Proof.
  intros Hw Hv H. pose proof (mul64_val w v Hw Hv) as Hs.
  destruct (Work.mul64 w v) as [r| |]; [|done|lia]. destruct Hs. eauto.
Qed.

Lemma work_div64_ok w v : wok w -> is_u64 v -> 0 < v ->
  exists r, Work.div64 w v = Ok r /\ wok r /\ wval r = wval w / v.
Proof.
  intros Hw Hv H. pose proof (div64_val w v Hw Hv) as Hs.
  destruct (Work.div64 w v) as [r| |]; [|done|lia]. destruct Hs as (? & ? & _). eauto.
Qed.

(** The four-limb loops of [Work] compute 256-bit arithmetic exactly: each returns the
    exact sum, difference, product or quotient, and panics precisely when it is not
    representable or the divisor is zero; [Cmp] orders by value. *)
Theorem work_ops_exact w v n : wok w -> wok v -> is_u64 n ->
  (forall r, Work.add w v = Ok r -> wok r /\ wval r = wval w + wval v) /\
  (is_Ok (Work.add w v) <-> wval w + wval v < two256) /\
  (forall r, Work.sub w v = Ok r -> wok r /\ wval r = wval w - wval v) /\
  (is_Ok (Work.sub w v) <-> wval v <= wval w) /\
  (forall r, Work.mul64 w n = Ok r -> wok r /\ wval r = wval w * n) /\
  (is_Ok (Work.mul64 w n) <-> wval w * n < two256) /\
  (forall r, Work.div64 w n = Ok r -> wok r /\ wval r = wval w / n) /\
  (is_Ok (Work.div64 w n) <-> n <> 0) /\
  (Work.Cmp w v < 0 <-> wval w < wval v) /\ (Work.Cmp w v = 0 <-> wval w = wval v).
Proof.
  intros Hw Hv Hn.
  pose proof (add_spec w v Hw Hv) as Ha. pose proof (sub_spec w v Hw Hv) as Hs.
  pose proof (mul64_val w n Hw Hn) as Hm. pose proof (div64_val w n Hw Hn) as Hd.
  pose proof (Cmp_val w v Hw Hv) as Hc. pose proof (wval_range w Hw). pose proof (wval_range v Hv).
  assert (forall A (m : outcome A), is_Ok m <-> match m with Ok _ => True | _ => False end) as Hok.
  { intros A [a| |]; split; intros Hx; try done; [by exists a|by destruct Hx|by destruct Hx]. }
  unfold is_u64 in Hn. rewrite !Hok. rewrite Hc. clear Hc Hok.
  split_and!;
    repeat match goal with
    | |- context [Work.add w v] => destruct (Work.add w v)
    | |- context [Work.sub w v] => destruct (Work.sub w v)
    | |- context [Work.mul64 w n] => destruct (Work.mul64 w n)
    | |- context [Work.div64 w n] => destruct (Work.div64 w n)
    | |- forall r, Ok _ = Ok r -> _ => intros ? [= <-]
    | |- forall r, _ = Ok r -> _ => intros ? [=]
    end; destruct_and?; try done;
    repeat match goal with
    | Hr : wok ?r |- _ => pose proof (wval_range r Hr); clear Hr
    end; try lia;
    destruct (Z.compare_spec (wval w) (wval v)); lia.
Qed.

Lemma work_ops_exact_witness :
  let w := be_encode 32 (two256 - 1) in
  (forall r, Work.add w Work.oneWork = Ok r -> wok r /\ wval r = wval w + wval Work.oneWork) /\
  (is_Ok (Work.add w Work.oneWork) <-> wval w + wval Work.oneWork < two256).
Proof.
  cbv zeta.
  pose proof (work_ops_exact (be_encode 32 (two256 - 1)) Work.oneWork 7) as H.
  destruct H as (H1 & H2 & _); [apply wok_encode; lia|apply one_val|unfold is_u64; lia|].
  exact (conj H1 H2).
Defined.

(** ** Targets *)
Lemma invTarget_ok n : wok n -> 1 <= wval n ->
  exists t, invTarget n = Ok t /\ wok t /\ wval t = maxTarget / wval n.
Proof.
  intros Hn H1. unfold invTarget, big_Div. fold (wval n).
  destruct (Z.eqb_spec (wval n) 0); [lia|]. rewrite (proj2 (Z.ltb_lt 0 _)) by lia.
  cbn [mbind outcome_bind]. unfold FillBytes, maxTarget.
  assert (0 <= (two256 - 1) / wval n < two256) as Hq.
  { split; [apply Z.div_pos; lia|]. apply Z.div_lt_upper_bound; nia. }
  rewrite Z.abs_eq by lia. rewrite (proj2 (Z.leb_gt _ _)) by lia.
  eexists. split; [reflexivity|]. apply wok_encode. lia.
Qed.

(** ** The final-cut difficulty rule *)

(** The largest change of one adjustment. *)
Definition max_adjust (d : Z) : Z := Z.max (d / 250) 1.

(** Bounds under which the arithmetic of the rule cannot overflow; work below [2^191]
    is out of reach of any hash rate. *)
Record pow_ok (s : State) : Prop := {
  po_oak : wok (s_OakWork s) /\ wval (s_OakWork s) < 2 ^ 191;
  po_diff : wok (s_Difficulty s) /\ 1 <= wval (s_Difficulty s) < 2 ^ 191;
  po_total : wok (s_TotalWork s);
  po_time : is_i64 (s_OakTime s);
  po_interval : 0 < BlockInterval s < 2 ^ 61 }.

Lemma targetInterval_bounds s t : 0 < BlockInterval s < 2 ^ 61 ->
  BlockInterval s / 3 <= targetInterval s t <= 3 * BlockInterval s.
Proof.
  intros H. unfold targetInterval, dur_div.
  rewrite (i64_id (BlockInterval s * 3)) by (unfold is_i64; lia).
  rewrite (Z.quot_div_nonneg (BlockInterval s)) by lia.
  pose proof (Z.div_le_upper_bound (BlockInterval s) 3 (BlockInterval s) ltac:(lia) ltac:(lia)). lia.
Qed.

Lemma adjust_range d : 1 <= d -> 1 <= max_adjust d <= d.
Proof.
  intros H. unfold max_adjust.
  pose proof (Z.div_le_upper_bound d 250 d ltac:(lia) ltac:(lia)). lia.
Qed.

Lemma FinalCut_value s t : pow_ok s -> exists d, adjustDifficultyFinalCut s t = Ok d /\ wok d /\
  wval d = Z.max (Z.max (Z.min
             ((wval (s_OakWork s) * targetInterval s t + u64 (dur_div (s_OakTime s) 2)) /
                Z.max (s_OakTime s) 1)
             (wval (s_Difficulty s) + max_adjust (wval (s_Difficulty s))))
             (wval (s_Difficulty s) - max_adjust (wval (s_Difficulty s)))) 1.
Proof.
  intros [[Ho Hob] [Hd Hdb] _ Ht Hi].
  pose proof (targetInterval_bounds s t Hi) as Hti. pose proof (wval_range _ Ho) as Hor.
  pose proof (adjust_range _ (proj1 Hdb)) as Har.
  pose proof (Z.div_pos (BlockInterval s) 3 ltac:(lia) ltac:(lia)) as H3.
  set (T := targetInterval s t) in *. set (half := u64 (dur_div (s_OakTime s) 2)).
  set (O := wval (s_OakWork s)) in *. set (D := wval (s_Difficulty s)) in *.
  assert (is_u64 half) as Hh by apply u64_range. assert (is_u64 T) as HT by (unfold is_u64; lia).
  assert (0 <= O * T < 2 ^ 255) as HOT by nia.
  unfold adjustDifficultyFinalCut. fold T half. rewrite (u64_id T HT).
  destruct (work_mul64_ok _ T Ho HT) as (a & -> & Ha & Hav); [fold O; lia|]. cbn [mbind outcome_bind].
  fold O in Hav. destruct one_val as [Hone Honev].
  unfold is_u64 in Hh.
  destruct (work_mul64_ok Work.oneWork half Hone Hh) as (b & -> & Hb & Hbv); [lia|].
  cbn [mbind outcome_bind]. rewrite Honev, Z.mul_1_l in Hbv.
  destruct (work_add_ok a b Ha Hb) as (c & -> & Hc & Hcv); [lia|]. cbn [mbind outcome_bind].
  unfold is_i64 in Ht. rewrite (u64_id (Z.max _ 1)) by (unfold is_u64; lia).
  destruct (work_div64_ok c (Z.max (s_OakTime s) 1) Hc) as (n & -> & Hn & Hnv);
    [unfold is_u64; lia|lia|]. cbn [mbind outcome_bind].
  destruct (work_div64_ok (s_Difficulty s) 250 Hd) as (d250 & -> & Hd2 & Hd2v); [by unfold is_u64|lia|].
  cbn [mbind outcome_bind]. destruct (max_val d250 Work.oneWork Hd2 Hone) as [Hm Hmv].
  rewrite Honev, Hd2v in Hmv. fold D in Hmv. fold (max_adjust D) in Hmv.
  destruct (work_add_ok (s_Difficulty s) _ Hd Hm) as (hi & -> & Hhi & Hhiv); [fold D; lia|].
  cbn [mbind outcome_bind].
  destruct (work_sub_ok (s_Difficulty s) _ Hd Hm) as (lo & -> & Hlo & Hlov); [fold D; lia|].
  cbn [mbind outcome_bind]. eexists. split; [reflexivity|].
  destruct (min_val n hi Hn Hhi) as [H1 H1v]. destruct (max_val _ lo H1 Hlo) as [H2 H2v].
  destruct (max_val _ Work.oneWork H2 Hone) as [H4 H4v]. split; [done|].
  rewrite H4v, H2v, H1v, Hnv, Hcv, Hav, Hbv, Hhiv, Hlov, Hmv, Honev. reflexivity.
Qed.

(** The final-cut rule always produces a difficulty: the estimate
    [(OakWork * interval + OakTime/2) / OakTime] for a block interval within a factor of 3
    of the nominal one, clamped to a change of 0.4% (at least 1) and never below 1. *)
Theorem FinalCut_clamped s t : pow_ok s -> exists d, adjustDifficultyFinalCut s t = Ok d /\ wok d /\
  1 <= wval d /\
  Z.abs (wval d - wval (s_Difficulty s)) <= max_adjust (wval (s_Difficulty s)) /\
  BlockInterval s / 3 <= targetInterval s t <= 3 * BlockInterval s /\
  let estimate := (wval (s_OakWork s) * targetInterval s t + u64 (dur_div (s_OakTime s) 2)) /
                    Z.max (s_OakTime s) 1 in
  (Z.abs (estimate - wval (s_Difficulty s)) <= max_adjust (wval (s_Difficulty s)) -> 1 <= estimate ->
   wval d = estimate).
Proof.
  intros Hp. destruct (FinalCut_value s t Hp) as (d & -> & Hd & Hv). exists d.
  pose proof Hp as [_ [_ Hdb] _ _ Hi]. pose proof (adjust_range _ (proj1 Hdb)).
  cbv zeta. set (est := _ / _) in *.
  split; [done|]. split; [done|]. split; [lia|]. split; [lia|].
  split; [by apply targetInterval_bounds|]. lia.
Qed.

(** A decision procedure for [wok], to evaluate on concrete states. *)
Definition is_work (w : bytes) : bool :=
  (length w =? 32)%nat && forallb (fun x => (0 <=? x) && (x <? 256)) w.
Lemma is_work_wok w : is_work w = true -> wok w.
Proof.
  unfold is_work, wok. rewrite andb_true_iff, Nat.eqb_eq, forallb_forall. intros [Hl Hb].
  split; [done|]. apply Forall_forall. intros x Hx. apply list_elem_of_In, Hb in Hx.
  unfold byte_ok. bool_lia.
Qed.

(** The state after the devnet genesis block satisfies the bounds. *)
Lemma tip_pow_ok : pow_ok SampleChain.tip.
Proof.
  split; [split; [apply is_work_wok|]|split; [apply is_work_wok|]|apply is_work_wok|..];
    by vm_compute.
Qed.

Lemma FinalCut_clamped_witness :
  exists d, adjustDifficultyFinalCut SampleChain.tip (time_Add SampleChain.timestamp Second) = Ok d /\
    wok d /\ 1 <= wval d.
Proof.
  destruct (FinalCut_clamped SampleChain.tip (time_Add SampleChain.timestamp Second) tip_pow_ok)
    as (d & H1 & H2 & H3 & _).
  exact (ex_intro _ d (conj H1 (conj H2 H3))).
Defined.

(** ** Headers *)
Section Header.
Context {crypto : Crypto}.

Definition oak_next (s : State) : Z :=
  wval (s_OakWork s) - wval (s_OakWork s) / 200 + wval (s_Difficulty s).

(** The new work fields of a header past the final cut. *)
Lemma updateOakWork_ok s : pow_ok s -> n_V2_AllowHeight (s_Network s) <= childHeight s ->
  exists w t, updateOakWork s = Ok (w, t) /\ wok w /\ wval w = oak_next s.
Proof.
  intros [[Ho Hob] [Hd Hdb] _ _ _] Hh. unfold updateOakWork. rewrite (proj2 (Z.ltb_ge _ _)) by done.
  pose proof (wval_range _ Ho) as Hr.
  destruct (work_div64_ok _ 200 Ho) as (q & -> & Hq & Hqv); [by unfold is_u64|lia|].
  cbn [mbind outcome_bind].
  assert (wval (s_OakWork s) / 200 <= wval (s_OakWork s)) as Hle
    by (apply Z.div_le_upper_bound; lia).
  pose proof (Z.div_pos (wval (s_OakWork s)) 200 ltac:(lia) ltac:(lia)).
  destruct (work_sub_ok _ q Ho Hq) as (w & -> & Hw & Hwv); [lia|]. cbn [mbind outcome_bind].
  destruct (work_add_ok w _ Hw Hd) as (r & -> & Hr' & Hrv); [lia|]. cbn [mbind outcome_bind].
  destruct (invTarget_ok r Hr') as (t & -> & _); [lia|].
  eexists _, _. split; [reflexivity|]. split; [done|]. unfold oak_next. lia.
Qed.

Lemma updateTotalWork_ok s : pow_ok s -> wval (s_TotalWork s) + wval (s_Difficulty s) < two256 ->
  n_V2_AllowHeight (s_Network s) <= childHeight s ->
  exists tw dp, updateTotalWork s = Ok (tw, dp) /\ wok tw /\
    wval tw = wval (s_TotalWork s) + wval (s_Difficulty s).
Proof.
  intros [_ [Hd Hdb] Ht _ _] Htw Ha. unfold updateTotalWork. rewrite (proj2 (Z.ltb_ge _ _)) by lia.
  destruct (work_add_ok _ _ Ht Hd Htw) as (w & -> & Hw & Hwv). cbn [mbind outcome_bind].
  pose proof (wval_range _ Ht). destruct (invTarget_ok w Hw) as (dp & -> & _); [lia|]. by eexists _, _.
Qed.

Lemma adjustDifficulty_ok s timestamp targetTimestamp : pow_ok s ->
  n_V2_AllowHeight (s_Network s) <= childHeight s -> n_V2_FinalCutHeight (s_Network s) <= childHeight s ->
  exists d ct, adjustDifficulty s timestamp targetTimestamp = Ok (d, ct) /\
    1 <= wval d /\ Z.abs (wval d - wval (s_Difficulty s)) <= max_adjust (wval (s_Difficulty s)).
Proof.
  intros Hp Ha Hf. pose proof Hp as [_ [_ Hdb] _ _ _].
  unfold adjustDifficulty. rewrite (proj2 (Z.ltb_ge _ (n_V2_AllowHeight _))), (proj2 (Z.ltb_ge _ _)) by lia.
  destruct (FinalCut_value s timestamp Hp) as (d & -> & Hdw & Hdv).
  cbn [mbind outcome_bind]. pose proof (adjust_range _ (proj1 Hdb)).
  destruct (invTarget_ok d Hdw) as (ct & -> & _); [lia|]. eexists _, _. split; [reflexivity|]. lia.
Qed.

(** Applying a header past the final cut always succeeds when it extends the tip: the
    height grows by one, the total work by exactly the old difficulty, the timestamp is
    pushed on the window, the retired targets are zeroed, and the new difficulty stays
    within 0.4% of the old one and positive. *)
Theorem ApplyHeader_final_cut s bh targetTimestamp :
  pow_ok s -> wval (s_TotalWork s) + wval (s_Difficulty s) < two256 ->
  bh_ParentID bh = ci_ID (s_Index s) -> bh_ParentID bh <> zeroHash ->
  is_u64 (ci_Height (s_Index s) + 1) ->
  n_V2_AllowHeight (s_Network s) <= ci_Height (s_Index s) + 1 ->
  n_V2_FinalCutHeight (s_Network s) <= ci_Height (s_Index s) + 1 ->
  exists next, ApplyHeader s bh targetTimestamp = Ok next /\
    s_Index next = {| ci_Height := ci_Height (s_Index s) + 1; ci_ID := BlockHeader_ID bh |} /\
    s_PrevTimestamps next = push_timestamp (bh_Timestamp bh) (s_PrevTimestamps s) /\
    wval (s_TotalWork next) = wval (s_TotalWork s) + wval (s_Difficulty s) /\
    wval (s_OakWork next) = oak_next s /\
    1 <= wval (s_Difficulty next) /\
    Z.abs (wval (s_Difficulty next) - wval (s_Difficulty s)) <=
      max_adjust (wval (s_Difficulty s)) /\
    s_ChildTarget next = zeroHash /\ s_Depth next = zeroHash /\ s_OakTarget next = zeroHash /\
    s_Network next = s_Network s /\ s_QdayHeight next = s_QdayHeight s /\
    s_Elements next = s_Elements s.
Proof.
  intros Hp Htw Hpar Hnz Hu Ha Hf.
  assert (childHeight s = ci_Height (s_Index s) + 1) as Hch by (unfold childHeight; by apply u64_id).
  unfold ApplyHeader. rewrite Hpar, bool_decide_eq_true_2, andb_false_r by done.
  rewrite bool_decide_eq_false_2 by congruence.
  destruct (updateTotalWork_ok s Hp Htw ltac:(lia)) as (tw & dp & -> & _ & Htv). cbn [mbind outcome_bind].
  destruct (adjustDifficulty_ok s (bh_Timestamp bh) targetTimestamp Hp ltac:(lia) ltac:(lia))
    as (d & ct & -> & Hd1 & Hd2). cbn [mbind outcome_bind].
  destruct (updateOakWork_ok s Hp ltac:(lia)) as (w & ot & -> & Hw & Hwv). cbn [mbind outcome_bind].
  rewrite (u64_id _ Hu). cbn [set_pow s_Network s_Index ci_Height].
  rewrite (proj2 (Z.leb_le _ _)) by lia. eexists. split; [reflexivity|].
  cbn [set_pow s_Index s_PrevTimestamps s_TotalWork s_OakWork s_Difficulty s_ChildTarget s_Depth
       s_OakTarget s_Network s_QdayHeight s_Elements]. by split_and!.
Qed.

(** The child of a state outweighs it: one block of work is more than the fifth of a block the
    reorganisation rule asks for. *)
Lemma child_heavier s bh targetTimestamp :
  pow_ok s -> wval (s_TotalWork s) + wval (s_Difficulty s) < two256 ->
  bh_ParentID bh = ci_ID (s_Index s) -> bh_ParentID bh <> zeroHash ->
  is_u64 (ci_Height (s_Index s) + 1) ->
  n_V2_AllowHeight (s_Network s) <= ci_Height (s_Index s) + 1 ->
  n_V2_FinalCutHeight (s_Network s) <= ci_Height (s_Index s) + 1 ->
  exists next, ApplyHeader s bh targetTimestamp = Ok next /\ SufficientlyHeavierThan next s = Ok true.
Proof.
  intros Hp Htw Hpar Hnz Hu Ha Hf. pose proof Hp as [_ [Hd Hdb] Ht _ _].
  assert (childHeight s = ci_Height (s_Index s) + 1) as Hch by (unfold childHeight; by apply u64_id).
  unfold ApplyHeader. rewrite Hpar, bool_decide_eq_true_2, andb_false_r by done.
  rewrite bool_decide_eq_false_2 by congruence.
  destruct (updateTotalWork_ok s Hp Htw ltac:(lia)) as (tw & dp & -> & Hwt & Htv). cbn [mbind outcome_bind].
  destruct (adjustDifficulty_ok s (bh_Timestamp bh) targetTimestamp Hp ltac:(lia) ltac:(lia))
    as (d & ct & -> & _ & _). cbn [mbind outcome_bind].
  destruct (updateOakWork_ok s Hp ltac:(lia)) as (w & ot & -> & _). cbn [mbind outcome_bind].
  eexists. split; [reflexivity|]. unfold SufficientlyHeavierThan.
  destruct (work_div64_ok (s_Difficulty s) 5 Hd) as (q & -> & Hq & Hqv); [done|lia|]. cbn [mbind outcome_bind].
  assert (wval (s_Difficulty s) / 5 < wval (s_Difficulty s)) by (apply Z.div_lt; lia).
  destruct (work_add_ok _ q Ht Hq) as (v & -> & Hv & Hvv); [lia|]. cbn [mbind outcome_bind].
  case_match; cbn [s_TotalWork set_pow]; rewrite (Cmp_val tw v Hwt Hv), (proj2 (Z.compare_gt_iff _ _)) by lia; done.
Qed.
End Header.

Definition ex_header : BlockHeader :=
  {| bh_ParentID := ci_ID (s_Index SampleChain.tip); bh_Nonce := 3;
     bh_Timestamp := time_Add SampleChain.timestamp Second; bh_Commitment := zeroHash |}.

Lemma ApplyHeader_final_cut_witness :
  exists next, ApplyHeader (crypto:=Sample.crypto) SampleChain.tip ex_header SampleChain.timestamp
    = Ok next /\ ci_Height (s_Index next) = 1.
Proof.
  destruct (ApplyHeader_final_cut (crypto:=Sample.crypto) SampleChain.tip ex_header
              SampleChain.timestamp tip_pow_ok) as (next & H1 & H2 & _);
    [by vm_compute..|].
  exists next. split; [exact H1|]. rewrite H2. by vm_compute.
Defined.

(** ** Fork choice *)

(** The reorganisation rule is a strict order on work: a state that is sufficiently
    heavier has strictly more total work, by more than a fifth of the other's difficulty,
    and two states never displace each other, so that nodes do not flip between tips. *)
Theorem SufficientlyHeavierThan_asym s t :
  wok (s_TotalWork s) -> wok (s_TotalWork t) -> wok (s_Difficulty s) -> wok (s_Difficulty t) ->
  SufficientlyHeavierThan s t = Ok true ->
  wval (s_TotalWork s) > wval (s_TotalWork t) + wval (s_Difficulty t) / 5 /\
  SufficientlyHeavierThan t s <> Ok true.
Proof.
  intros Hs Ht Hds Hdt.
  assert (forall a b, wok (s_TotalWork a) -> wok (s_TotalWork b) -> wok (s_Difficulty b) ->
    SufficientlyHeavierThan a b = Ok true ->
    wval (s_TotalWork a) > wval (s_TotalWork b) + wval (s_Difficulty b) / 5) as Hgt.
  { intros a b Ha Hb Hd H. unfold SufficientlyHeavierThan in H.
    destruct (work_div64_ok _ 5 Hd) as (d & E & Hdo & Hdv); [by unfold is_u64|lia|].
    rewrite E in H. cbn [mbind outcome_bind] in H. ok_step H.
    pose proof (add_spec _ _ Hb Hdo) as Hadd. rewrite E0 in Hadd. destruct Hadd as [Hv Hvv].
    injection H as H. rewrite (Cmp_val _ _ Ha Hv) in H.
    destruct (Z.compare_spec (wval (s_TotalWork a)) (wval v)); cbn in H; [done|done|lia]. }
  intros H. pose proof (Hgt s t Hs Ht Hdt H). split; [done|]. intros H'.
  pose proof (Hgt t s Ht Hs Hds H').
  pose proof (wval_range _ Hds). pose proof (wval_range _ Hdt).
  pose proof (Z.div_pos (wval (s_Difficulty s)) 5 ltac:(lia) ltac:(lia)).
  pose proof (Z.div_pos (wval (s_Difficulty t)) 5 ltac:(lia) ltac:(lia)). lia.
Qed.

Definition heavier : State :=
  match ApplyHeader (crypto:=Sample.crypto) SampleChain.tip ex_header SampleChain.timestamp with
  | Ok s => s | _ => SampleChain.tip
  end.

Lemma SufficientlyHeavierThan_asym_witness :
  wval (s_TotalWork heavier) >
    wval (s_TotalWork SampleChain.tip) + wval (s_Difficulty SampleChain.tip) / 5 /\
  SufficientlyHeavierThan SampleChain.tip heavier <> Ok true.
Proof.
  apply (SufficientlyHeavierThan_asym heavier SampleChain.tip);
    [apply is_work_wok..|]; by vm_compute.
Defined.
