(* ===== verification/ConsensusMidStateSpec.v ===== *)
(** * The intra-block state: framing and invariants

    What each [MidState] operation leaves alone, and what a sequence of them records. *)
From stdpp Require Import prelude strings gmap.
From Stdlib Require Import ZArith Lia.
From S2P Require Import Prelude TypesCurrency TypesData TypesEncoding TypesHash TypesPolicy.
From S2P Require Import ConsensusWork ConsensusState ConsensusQday ConsensusMidState.

(** ** Loops and preorders *)
Lemma for_each_rel {A St} (R : St -> St -> Prop) `{!PreOrder R} (l : list A) i s s' body :
  (forall j x t t', x ∈ l -> body j x t = Ok t' -> R t t') ->
  for_each l i s body = Ok s' -> R s s'.
Proof.
  revert i s. induction l as [|x l IH]; intros i s Hb H; cbn in H; [by inv H|].
  destruct (body i x s) as [t| |] eqn:E; try discriminate. cbn in H.
  transitivity t; [by eapply Hb; [constructor|]|].
  eapply IH; [|done]. intros j y u u' Hy. apply Hb. by constructor.
Qed.

(** What no operation on the diffs changes, and what it may only extend. *)
Record frame (ms ms' : MidState) : Prop := {
  fr_base : ms_base ms' = ms_base ms;
  fr_proved : ms_qdayProved ms' = ms_qdayProved ms;
  fr_spends : forall id, is_Some (ms_spends ms !! id) -> is_Some (ms_spends ms' !! id) }.

Global Instance frame_preorder : PreOrder frame.
Proof.
  split; [by intros ms; split|].
  intros a b c [H1 H2 H3] [H4 H5 H6]. split; [congruence|congruence|auto].
Qed.

Create HintDb midstate.

Lemma frame_same ms ms' : ms_base ms' = ms_base ms -> ms_qdayProved ms' = ms_qdayProved ms ->
  ms_spends ms' = ms_spends ms -> frame ms ms'.
Proof. intros H1 H2 H3. split; [done|done|by rewrite H3]. Qed.

Lemma modify_sced_frame ms id f ms' : modify_sced ms id f = Ok ms' ->
  frame ms ms' /\ ms_spends ms' = ms_spends ms.
Proof.
  unfold modify_sced, recordSiacoinElement. intros H.
  destruct (ms_elements ms !! id); ok_step H; inv H; (split; [by apply frame_same|done]).
Qed.
Lemma modify_sfed_frame ms id f ms' : modify_sfed ms id f = Ok ms' ->
  frame ms ms' /\ ms_spends ms' = ms_spends ms.
Proof.
  unfold modify_sfed, recordSiafundElement. intros H.
  destruct (ms_elements ms !! id); ok_step H; inv H; (split; [by apply frame_same|done]).
Qed.
Lemma modify_fced_frame ms id f ms' : modify_fced ms id f = Ok ms' ->
  frame ms ms' /\ ms_spends ms' = ms_spends ms.
Proof.
  unfold modify_fced, recordFileContractElement. intros H.
  destruct (ms_elements ms !! id); ok_step H; inv H; (split; [by apply frame_same|done]).
Qed.
Lemma modify_v2fced_frame ms id f ms' : modify_v2fced ms id f = Ok ms' ->
  frame ms ms' /\ ms_spends ms' = ms_spends ms.
Proof.
  unfold modify_v2fced, recordV2FileContractElement. intros H.
  destruct (ms_elements ms !! id); destruct (_ !! _) in H; try discriminate; ok_step H; inv H;
    (split; [by apply frame_same|done]).
Qed.

Lemma frame_spend ms id txid : frame ms (set_spends ms (<[id := txid]> (ms_spends ms))).
Proof.
  split; [done|done|]. cbn. intros k Hk. destruct (decide (id = k)) as [->|Hne].
  - by rewrite lookup_insert_eq.
  - by rewrite lookup_insert_ne.
Qed.

Ltac frame_step :=
  match goal with
  | H : modify_sced _ _ _ = Ok _ |- _ => apply modify_sced_frame in H as [H _]
  | H : modify_sfed _ _ _ = Ok _ |- _ => apply modify_sfed_frame in H as [H _]
  | H : modify_fced _ _ _ = Ok _ |- _ => apply modify_fced_frame in H as [H _]
  | H : modify_v2fced _ _ _ = Ok _ |- _ => apply modify_v2fced_frame in H as [H _]
  end.

Lemma create_frame ms id sco ms' : createSiacoinElement ms id sco = Ok ms' -> frame ms ms'.
Proof. unfold createSiacoinElement. intros H. by frame_step. Qed.
Lemma createImmature_frame ms id sco ms' :
  createImmatureSiacoinElement ms id sco = Ok ms' -> frame ms ms'.
Proof.
  unfold createImmatureSiacoinElement. intros H. ok_step H. apply create_frame in E.
  frame_step. by transitivity v.
Qed.
Lemma spend_frame ms sce txid ms' : spendSiacoinElement ms sce txid = Ok ms' ->
  frame ms ms' /\ is_Some (ms_spends ms' !! sce_ID sce).
Proof.
  unfold spendSiacoinElement. intros H. ok_step H. inv H. frame_step.
  split; [|cbn; by rewrite lookup_insert_eq].
  transitivity v; [done|apply frame_spend].
Qed.
Lemma spendSiafund_frame ms sfe txid ms' : spendSiafundElement ms sfe txid = Ok ms' -> frame ms ms'.
Proof.
  unfold spendSiafundElement. intros H. ok_step H. inv H. frame_step.
  transitivity v; [done|apply frame_spend].
Qed.
Lemma createSiafund_frame ms id sfo ms' : createSiafundElement ms id sfo = Ok ms' -> frame ms ms'.
Proof. unfold createSiafundElement. intros H. by frame_step. Qed.
Lemma set_revenue_frame ms c : frame ms (set_revenue ms c).
Proof. by apply frame_same. Qed.
Lemma createFC_frame ms id fc ms' : createFileContractElement ms id fc = Ok ms' -> frame ms ms'.
Proof.
  unfold createFileContractElement. intros H. do 2 ok_step H. inv H. frame_step.
  transitivity v; [done|apply set_revenue_frame].
Qed.
Lemma reviseFC_frame ms fce rev ms' : reviseFileContractElement ms fce rev = Ok ms' -> frame ms ms'.
Proof. unfold reviseFileContractElement. intros H. by frame_step. Qed.
Lemma resolveFC_frame ms fce valid txid ms' :
  resolveFileContractElement ms fce valid txid = Ok ms' -> frame ms ms'.
Proof.
  unfold resolveFileContractElement. intros H. ok_step H. inv H. frame_step.
  transitivity v; [done|apply frame_spend].
Qed.
Lemma createV2FC_frame ms id fc ms' : createV2FileContractElement ms id fc = Ok ms' -> frame ms ms'.
Proof.
  unfold createV2FileContractElement. intros H. do 3 ok_step H. inv H. frame_step.
  transitivity v; [done|apply set_revenue_frame].
Qed.
Lemma reviseV2FC_frame ms fce rev ms' :
  reviseV2FileContractElement ms fce rev = Ok ms' -> frame ms ms'.
Proof. unfold reviseV2FileContractElement. intros H. by frame_step. Qed.
Lemma resolveV2FC_frame ms fce res txid ms' :
  resolveV2FileContractElement ms fce res txid = Ok ms' -> frame ms ms'.
Proof.
  unfold resolveV2FileContractElement. intros H. ok_step H. inv H. frame_step.
  transitivity v; [done|apply frame_spend].
Qed.
Lemma attest_frame ms id a : frame ms (createAttestationElement ms id a).
Proof. by apply frame_same. Qed.
Lemma set_foundation_frame ms a b c : frame ms (set_foundation ms a b c).
Proof. by apply frame_same. Qed.

#[export] Hint Resolve create_frame createImmature_frame spendSiafund_frame createSiafund_frame
  createFC_frame reviseFC_frame resolveFC_frame createV2FC_frame reviseV2FC_frame resolveV2FC_frame
  set_revenue_frame attest_frame set_foundation_frame : midstate.

Section Apply.
Context {crypto : Crypto}.

Lemma create_all_frame id outs ms ms' : create_all id outs ms = Ok ms' -> frame ms ms'.
Proof. apply (for_each_rel frame). intros; eauto with midstate. Qed.
Lemma create_all_immature_frame id outs ms ms' :
  create_all_immature id outs ms = Ok ms' -> frame ms ms'.
Proof. apply (for_each_rel frame). intros; eauto with midstate. Qed.

Lemma applyResolution_frame txid fcr ms ms' : applyResolution txid fcr ms = Ok ms' -> frame ms ms'.
Proof.
  unfold applyResolution. intros H. do 2 ok_step H. destruct v0 as [[ms1 renter] host]. ok_step H.
  apply resolveV2FC_frame in E. apply createImmature_frame in E1, H.
  assert (frame v ms1) as Hm.
  { destruct (res_Resolution fcr).
    - ok_step E0. inv E0. eauto with midstate.
    - by inv E0.
    - by inv E0. }
  transitivity v; [done|]. transitivity ms1; [done|]. by transitivity v0.
Qed.

(** The inputs of a v2 transaction are recorded as spent. *)
Lemma spend_inputs_frame txid (l : list V2SiacoinInput) i ms ms' :
  for_each l i ms (fun _ sci ms =>
    spendSiacoinElement ms (SiacoinElement_Share (v2sci_Parent sci)) txid) = Ok ms' ->
  frame ms ms' /\ forall sci, sci ∈ l -> is_Some (ms_spends ms' !! sce_ID (v2sci_Parent sci)).
Proof.
  revert i ms. induction l as [|sci l IH]; intros i ms H; cbn [for_each] in H.
  - inv H. split; [done|]. intros ? Hx. by apply not_elem_of_nil in Hx.
  - ok_step H. apply spend_frame in E as [Hf Hs]. apply IH in H as [Hf' Hs'].
    split; [by transitivity v|]. intros x Hx. apply elem_of_cons in Hx as [->|Hx]; [|by apply Hs'].
    by apply (fr_spends _ _ Hf').
Qed.

(** The effect of [ApplyV2Transaction] on the fields outside the diffs. *)
Record applied (txn : V2Transaction) (ms ms' : MidState) : Prop := {
  ap_base : ms_base ms' = ms_base ms;
  ap_proved : ms_qdayProved ms' = ms_qdayProved ms || (isQday (ms_base ms) && is_canary_proof txn);
  ap_mono : forall id, is_Some (ms_spends ms !! id) -> is_Some (ms_spends ms' !! id);
  ap_spent : forall sci, sci ∈ v2tx_SiacoinInputs txn ->
    is_Some (ms_spends ms' !! sce_ID (v2sci_Parent sci)) }.

Lemma frame_applied txn ms a b : frame a b -> applied txn ms a -> applied txn ms b.
Proof. intros [H1 H2 H3] [H4 H5 H6 H7]. split; [congruence|congruence|auto|auto]. Qed.

Lemma ApplyV2Transaction_applied txn ms ms' : ApplyV2Transaction ms txn = Ok ms' -> applied txn ms ms'.
Proof.
  unfold ApplyV2Transaction. set (ms0 := if _ && _ then _ else _). intros H.
  do 8 ok_step H. injection H as <-.
  assert (applied txn ms v) as H0.
  { apply spend_inputs_frame in E as [[Hb Hp Hs] Hin].
    subst ms0. destruct (isQday (ms_base ms) && is_canary_proof txn) eqn:Eq; cbn in *; split; auto.
    - by rewrite Hp, Eq, orb_true_r.
    - by rewrite Hp, Eq, orb_false_r. }
  assert (frame v v6) as Hf.
  { apply create_all_frame in E0.
    transitivity v0; [done|]. transitivity v1.
    { revert E1. apply (for_each_rel frame). intros j sfi t t' _ Hb. do 2 ok_step Hb.
      transitivity v7; eauto with midstate. }
    transitivity v2; [revert E2; apply (for_each_rel frame); intros; eauto with midstate|].
    transitivity v3; [revert E3; apply (for_each_rel frame); intros; eauto with midstate|].
    transitivity v4; [revert E4; apply (for_each_rel frame); intros; eauto with midstate|].
    transitivity v5; [revert E5; apply (for_each_rel frame); intros; by eapply applyResolution_frame|].
    revert E6. apply (for_each_rel frame). intros j a t t' _ [= <-]. apply attest_frame. }
  apply (frame_applied _ _ v); [|done].
  destruct (v2tx_NewFoundationAddress txn); [|done].
  transitivity v6; [done|apply set_foundation_frame].
Qed.

Lemma ApplyTransaction_frame txn ts ms ms' : ApplyTransaction ms txn ts = Ok ms' -> frame ms ms'.
Proof.
  unfold ApplyTransaction. intros H. do 7 ok_step H.
  transitivity v.
  { revert E. apply (for_each_rel frame). intros j sci t t' _ Hb. ok_step Hb.
    destruct v6; [|done]. by apply spend_frame in Hb as [? _]. }
  transitivity v0; [by eapply create_all_frame|].
  transitivity v1.
  { revert E1. apply (for_each_rel frame). intros j sfi t t' _ Hb. ok_step Hb.
    destruct v6; [|done]. do 2 ok_step Hb. transitivity v7; eauto with midstate. }
  transitivity v2; [revert E2; apply (for_each_rel frame); intros; eauto with midstate|].
  transitivity v3; [revert E3; apply (for_each_rel frame); intros; eauto with midstate|].
  transitivity v4.
  { revert E4. apply (for_each_rel frame). intros j fcr t t' _ Hb. ok_step Hb.
    destruct v6; [|done]. eauto with midstate. }
  transitivity v5.
  { revert E5. apply (for_each_rel frame). intros j sp t t' _ Hb. ok_step Hb.
    destruct v6; [|done]. ok_step Hb. transitivity v6; [eauto with midstate|].
    by eapply create_all_immature_frame. }
  destruct (_ <=? _); [|by inv H]. injection H as <-. clear. generalize (tx_ArbitraryData txn).
  intros l. revert v5. induction l as [|arb l IH]; intros ms; [done|]. cbn.
  etransitivity; [|apply IH]. case_match; [apply set_foundation_frame|done].
Qed.

(** Everything [ApplyBlock] does after the transactions. *)
Lemma MidState_ApplyBlock_inv ms b bs ms' : MidState_ApplyBlock ms b bs = Ok ms' ->
  exists ms1 ms2,
    for_each (b_Transactions b) 0 ms (fun i txn ms =>
      match bs_Transactions bs !! i with
      | Some ts => ApplyTransaction ms txn ts
      | None => index_out_of_range
      end) = Ok ms1 /\
    for_each (V2Transactions b) 0 ms1 (fun _ txn ms => ApplyV2Transaction ms txn) = Ok ms2 /\
    frame ms2 ms'.
Proof.
  unfold MidState_ApplyBlock. intros H. destruct (_ && _) in H; [discriminate|]. do 6 ok_step H.
  inv H. exists v, v0. split; [done|]. split; [done|].
  transitivity v1; [by eapply create_all_immature_frame|].
  transitivity v3.
  { destruct v2; [by eapply createImmature_frame|by inv E3]. }
  transitivity v4; [|apply set_foundation_frame].
  revert E4. apply (for_each_rel frame). intros j fce t t' _ Hb.
  destruct (ms_isSpent t (fce_ID fce)); [by inv Hb|]. ok_step Hb.
  transitivity v5; [eauto with midstate|by eapply create_all_immature_frame].
Qed.
End Apply.
