(* ===== verification/ConsensusValidateSpec.v ===== *)
(** * Validated QDAY transactions and blocks

    Value conservation, authorisation of every input, absence of double spends and of
    inflation, the single activation of the decay, and the fate of ephemeral outputs. *)
From stdpp Require Import prelude strings gmap.
From Stdlib Require Import ZArith Lia.
From S2P Require Import Prelude TypesCurrency TypesData TypesEncoding TypesHash TypesPolicy.
From S2P Require Import TypesPolicySpec ConsensusWork ConsensusState ConsensusMerkle ConsensusQday.
From S2P Require Import ConsensusQdaySpec ConsensusMidState ConsensusMidStateSpec ConsensusApply.
From S2P Require Import ConsensusValidateV1 ConsensusValidate SampleCrypto ChainQday SampleChain.

(** ** Sums *)
Definition total (l : list Currency) : Z := sum_Z (map Currency.val l).
Definition outputs_total (txn : V2Transaction) : Z := total (values (v2tx_SiacoinOutputs txn)).
Definition nominal_total (txn : V2Transaction) : Z :=
  total (map (fun i => sco_Value (sce_SiacoinOutput (v2sci_Parent i))) (v2tx_SiacoinInputs txn)).
Definition spendable_total (s : State) (p : QdayParams) (txn : V2Transaction) : Z :=
  sum_Z (map (fun i => spendable s p (v2sci_Parent i) (childHeight s)) (v2tx_SiacoinInputs txn)).

(** The values a decoded transaction holds are machine integers. *)
Record txn_typed (txn : V2Transaction) : Prop := {
  ty_inputs : forall i, i ∈ v2tx_SiacoinInputs txn ->
    Currency.ok (sco_Value (sce_SiacoinOutput (v2sci_Parent i))) /\
    is_u64 (sce_MaturityHeight (v2sci_Parent i));
  ty_outputs : forall o, o ∈ v2tx_SiacoinOutputs txn -> Currency.ok (sco_Value o);
  ty_fee : Currency.ok (v2tx_MinerFee txn) }.

(** A state of a QDAY network with a validated schedule. *)
Record qday_state (s : State) (p : QdayParams) : Prop := {
  qs_net : n_Qday (s_Network s) = Some p;
  qs_schedule : schedule_ok p;
  qs_height : is_u64 (s_QdayHeight s) }.

Lemma qday_isQday s p : n_Qday (s_Network s) = Some p -> isQday s = true.
Proof. intros H. unfold isQday. rewrite H. by apply bool_decide_eq_true_2. Qed.

Lemma for_each_ext {A St} (l : list A) i (s : St) f g :
  (forall j x t, f j x t = g j x t) -> for_each l i s f = for_each l i s g.
Proof.
  intros H. revert i s. induction l as [|x l IH]; intros i s; [done|]. cbn. rewrite H.
  destruct (g i x s); cbn; auto.
Qed.

Lemma for_each_sum {A} (f : A -> outcome Currency) (g : A -> Z) (l : list A) i start r :
  (forall x c, x ∈ l -> f x = Ok c -> Currency.ok c /\ Currency.val c = g x) ->
  Currency.ok start ->
  for_each l i start (fun _ x sum => v ← f x; Currency.Add sum v) = Ok r ->
  Currency.ok r /\ Currency.val r = Currency.val start + sum_Z (map g l).
Proof.
  revert i start. induction l as [|x l IH]; intros i start Hf Hs H; cbn [for_each] in H.
  - inv H. split; [done|]. cbn. lia.
  - ok_step H. ok_step E.
    destruct (Hf x v0 ltac:(constructor) E0) as [Hc Hcv].
    destruct (Currency.Add_inv _ _ _ Hs Hc E) as [Hv Hvv].
    destruct (IH _ _ ltac:(intros y c Hy; apply Hf; by constructor) Hv H) as [Hr Hrv].
    split; [done|]. cbn. unfold sum_Z in *. lia.
Qed.

(** ** Inversion of the QDAY checks *)
Section Validate.
Context {crypto : Crypto} {edwards : Edwards25519}.

(** What an accepted QDAY transaction looks like. *)
Record qday_txn (ms : MidState) (p : QdayParams) (txn : V2Transaction) (e : QdayEnvelope) : Prop := {
  qt_parse : ParseQdayEnvelope (v2tx_ArbitraryData txn) = Ok e;
  qt_plain : qdayUnsupported txn = false;
  qt_kind : qe_Kind e <> QdayCoinbase /\ qe_Kind e <> QdayMiningWork;
  qt_proof : qe_Kind e = QdayCanaryProof ->
    s_QdayHeight (ms_base ms) = 0 /\ ms_qdayProved ms = false /\
    VerifyQdayProof (qd_Canary p) (qe_Witness e) = true /\
    0 <= Currency.Cmp (v2tx_MinerFee txn) (qd_ProofFee p);
  qt_inputs : v2tx_SiacoinInputs txn <> [];
  qt_policy : forall i, i ∈ v2tx_SiacoinInputs txn ->
    IsQdayNativePolicy (sat_Policy (v2sci_SatisfiedPolicy i)) = true \/
    QdayV1Active (ms_base ms) (childHeight (ms_base ms)) = true /\
    IsQdaySwapSpendPolicy (sat_Policy (v2sci_SatisfiedPolicy i)) = true;
  qt_work : QdayActive (ms_base ms) (childHeight (ms_base ms)) = true ->
    exists intent, QdayWorkIntent (ms_base ms) txn = Ok intent /\
      QdayWorkValid intent (qe_Nonce e) (qd_DefendBits p) = true }.

Lemma for_each_unit_elem {A} (l : list A) i u (body : nat -> A -> unit -> outcome unit) x :
  for_each l i tt body = Ok u -> x ∈ l -> exists j, body j x tt = Ok tt.
Proof.
  intros H Hx. apply list_elem_of_lookup in Hx as [j Hj].
  destruct (for_each_ok_elem _ _ _ _ _ _ _ H Hj) as ([] & [] & Hb). eauto.
Qed.

Lemma validateQdayTransaction_inv ms txn p :
  n_Qday (s_Network (ms_base ms)) = Some p -> validateQdayTransaction ms txn = Ok tt ->
  exists e, qday_txn ms p txn e.
Proof.
  intros Hn H. unfold validateQdayTransaction in H. rewrite Hn in H.
  do 7 ok_step H. exists v. apply fail_if_ok in E0, E1, E2, E4.
  apply Z.eqb_neq in E1, E2. rewrite !orb_false_iff in E4. destruct E4 as [[[[Hi _] _] _] _].
  split; try done.
  - intros Hk. rewrite Hk, Z.eqb_refl in E3. ok_step E3. apply fail_if_ok in E4, E3.
    rewrite !orb_false_iff, !negb_false_iff, Z.ltb_ge in *.
    destruct E4 as [[[H1 H2] H3] H4]. apply Z.eqb_eq in H1. done.
  - intros Hnil. rewrite Hnil in Hi. done.
  - intros inp Hinp. destruct (for_each_unit_elem _ _ _ _ _ E5 Hinp) as [j Hj]. cbn in Hj.
    destruct (IsQdayNativePolicy _); [by left|right]. apply fail_if_ok in Hj.
    rewrite orb_false_iff, !negb_false_iff in Hj. exact Hj.
  - intros Ha. rewrite Ha in H. ok_step H. apply fail_if_ok, negb_false_iff in H. eauto.
Qed.

Lemma qdayUnsupported_nil txn : qdayUnsupported txn = false ->
  v2tx_SiafundInputs txn = [] /\ v2tx_SiafundOutputs txn = [] /\ v2tx_FileContracts txn = [] /\
  v2tx_FileContractRevisions txn = [] /\ v2tx_FileContractResolutions txn = [] /\
  v2tx_Attestations txn = [] /\ v2tx_NewFoundationAddress txn = None.
Proof.
  unfold qdayUnsupported. rewrite orb_false_iff, negb_false_iff, Z.eqb_eq. intros [Hz Hn].
  apply bool_decide_eq_false in Hn. unfold zlen in Hz.
  split_and!; try (apply nil_length_inv; lia).
  by destruct (v2tx_NewFoundationAddress txn); [destruct Hn|].
Qed.

(** Each input, as [validateV2SiacoinInput] accepted it. *)
Record input_ok (ms : MidState) (sigHash : Hash256) (sci : V2SiacoinInput) : Prop := {
  in_unspent : ms_isSpent ms (sce_ID (v2sci_Parent sci)) = false;
  in_mature : sce_MaturityHeight (v2sci_Parent sci) <= childHeight (ms_base ms);
  in_present :
    se_LeafIndex (sce_StateElement (v2sci_Parent sci)) = UnassignedLeafIndex /\
    validateEphemeralSiacoinElement ms sci = Ok tt \/
    se_LeafIndex (sce_StateElement (v2sci_Parent sci)) <> UnassignedLeafIndex /\
    containsUnspentSiacoinElement (s_Elements (ms_base ms)) (SiacoinElement_Share (v2sci_Parent sci))
      = true;
  in_policy : SpendPolicy_Address (sat_Policy (v2sci_SatisfiedPolicy sci)) =
              sco_Address (sce_SiacoinOutput (v2sci_Parent sci));
  in_verified : exists median,
    medianTimestamp (ms_base ms) = Ok median /\
    Verify (ci_Height (s_Index (ms_base ms))) median sigHash
      (sat_Policy (v2sci_SatisfiedPolicy sci)) (sat_Signatures (v2sci_SatisfiedPolicy sci))
      (sat_Preimages (v2sci_SatisfiedPolicy sci)) = Ok tt }.

Lemma validateV2SiacoinInput_inv ms sigHash sci spent spent' :
  validateV2SiacoinInput ms sigHash sci spent = Ok spent' ->
  input_ok ms sigHash sci /\ (sce_ID (v2sci_Parent sci) ∉ spent) /\
  spent' = {[ sce_ID (v2sci_Parent sci) ]} ∪ spent.
Proof.
  unfold validateV2SiacoinInput. intros H. do 5 ok_step H. injection H as <-.
  apply fail_if_ok in E, E0, E1. apply bool_decide_eq_false in E0. apply Z.ltb_ge in E1.
  apply wrap_err_ok in E3. unfold validateV2SpendPolicy in E3. do 2 ok_step E3.
  apply fail_if_ok, negb_false_iff, bool_decide_eq_true in E4. apply wrap_err_ok in E3.
  destruct v3, v2. split; [|done]. split; try done; [|by eauto].
  destruct (Z.eqb_spec (se_LeafIndex (sce_StateElement (v2sci_Parent sci))) UnassignedLeafIndex).
  - left. by apply wrap_err_ok in E2.
  - right. split; [done|]. destruct (containsUnspentSiacoinElement _ _); [done|].
    cbn [negb] in E2. by destruct (containsSpentSiacoinElement _ _) in E2.
Qed.

Abbreviation parent_ids l := (map (fun i => sce_ID (v2sci_Parent i)) l).

Lemma inputs_loop_inv ms sigHash l i spent r :
  for_each l i spent (fun _ sci spent => validateV2SiacoinInput ms sigHash sci spent) = Ok r ->
  (forall sci, sci ∈ l -> input_ok ms sigHash sci) /\ NoDup (parent_ids l) /\
  (forall id, id ∈ parent_ids l -> id ∉ spent).
Proof.
  revert i spent. induction l as [|sci l IH]; intros i spent H; cbn [for_each] in H.
  - split_and!; [intros ? Hx; by apply not_elem_of_nil in Hx|constructor|].
    intros ? Hx. by apply not_elem_of_nil in Hx.
  - ok_step H. apply validateV2SiacoinInput_inv in E as (Hi & Hn & ->).
    apply IH in H as (H1 & H2 & H3). cbn [map]. split_and!.
    + intros x Hx. apply elem_of_cons in Hx as [->|Hx]; [done|by apply H1].
    + constructor; [|done]. intros Hx. apply H3 in Hx. set_solver.
    + intros id Hid. apply elem_of_cons in Hid as [->|Hid]; [done|]. apply H3 in Hid. set_solver.
Qed.

(** The sums of an accepted plain transfer. *)
Lemma validateV2Siacoins_sums ms txn p :
  qday_state (ms_base ms) p -> txn_typed txn -> qdayUnsupported txn = false ->
  validateV2Siacoins ms txn = Ok tt ->
  outputs_total txn + Currency.val (v2tx_MinerFee txn) <= spendable_total (ms_base ms) p txn.
Proof.
  intros [Hn Hsch Hq] [Ti To Tf] Hu H. apply qdayUnsupported_nil in Hu.
  destruct Hu as (_ & _ & Hfc & _ & Hres & _).
  unfold validateV2Siacoins in H. rewrite Hfc, Hres in H. do 3 ok_step H.
  cbn [for_each mbind outcome_bind] in H. ok_step H. apply fail_if_ok in H.
  rewrite (qday_isQday _ _ Hn) in H. cbn [negb orb] in H.
  assert (Currency.ok Currency.ZeroCurrency) as Hz by apply Currency.zero_ok.
  assert (Currency.ok v0 /\ Currency.val v0 = 0 + spendable_total (ms_base ms) p txn) as [Hiok Hiv].
  { refine (for_each_sum
      (fun sci => QdayValue (ms_base ms) (v2sci_Parent sci) (childHeight (ms_base ms)))
      (fun i => spendable (ms_base ms) p (v2sci_Parent i) (childHeight (ms_base ms)))
      (v2tx_SiacoinInputs txn) 0 _ v0 _ Hz E0).
    intros x c Hx Hc. destruct (Ti x Hx) as [Hok Hm].
    rewrite (QdayValue_spendable _ _ _ p Hn Hsch Hq Hm) in Hc by (done || apply u64_range).
    injection Hc as <-. pose proof (spendable_bounds (ms_base ms) p (v2sci_Parent x)
      (childHeight (ms_base ms)) Hsch Hok). pose proof (Currency.ok_val _ Hok).
    split; [apply Currency.of_Z_ok|apply Currency.val_of_Z; lia]. }
  assert (Currency.ok v1 /\ Currency.val v1 = 0 + outputs_total txn) as [Hook Hov].
  { unfold outputs_total, total, values. rewrite map_map.
    refine (for_each_sum (fun o => if Currency.IsZero (sco_Value o)
        then Err "siacoin output has zero value" else Ok (sco_Value o))
      (fun o => Currency.val (sco_Value o)) (v2tx_SiacoinOutputs txn) 0 _ v1 _ Hz _).
    - intros x c Hx. destruct (Currency.IsZero _); [done|]. intros [= <-]. auto.
    - rewrite <- E1. apply for_each_ext. intros j o sum. by destruct (Currency.IsZero (sco_Value o)). }
  destruct (Currency.Add_inv _ _ _ Hook Tf E2) as [Hok Hv].
  apply andb_false_iff in H as [H|H].
  - apply negb_false_iff, bool_decide_eq_true in H. subst. lia.
  - apply Z.ltb_ge in H. rewrite Currency.Cmp_spec in H by done.
    destruct (Z.eqb_spec (Currency.val v0) (Currency.val v2)); [lia|].
    destruct (Z.ltb_spec (Currency.val v0) (Currency.val v2)); lia.
Qed.

Lemma ValidateV2Transaction_inv ms txn p :
  n_Qday (s_Network (ms_base ms)) = Some p -> ValidateV2Transaction ms txn = Ok tt ->
  (exists e, qday_txn ms p txn e) /\ validateV2Siacoins ms txn = Ok tt.
Proof.
  intros Hn H. unfold ValidateV2Transaction in H. rewrite (qday_isQday _ _ Hn) in H.
  do 6 ok_step H. destruct v, v4. split; [by apply validateQdayTransaction_inv|done].
Qed.

Lemma validateV2Siacoins_inputs ms txn : validateV2Siacoins ms txn = Ok tt ->
  (forall sci, sci ∈ v2tx_SiacoinInputs txn -> input_ok ms (InputSigHash (ms_base ms) txn) sci) /\
  NoDup (parent_ids (v2tx_SiacoinInputs txn)).
Proof.
  unfold validateV2Siacoins. intros H. ok_step H. apply inputs_loop_inv in E as (H1 & H2 & _). done.
Qed.

Lemma sum_Z_le {A} (f g : A -> Z) l : (forall x, x ∈ l -> f x <= g x) ->
  sum_Z (map f l) <= sum_Z (map g l).
Proof.
  unfold sum_Z. induction l as [|x l IH]; intros H; cbn; [lia|].
  pose proof (H x ltac:(constructor)). specialize (IH ltac:(intros; apply H; by constructor)). lia.
Qed.

Lemma spendable_nominal s p txn : schedule_ok p -> txn_typed txn ->
  spendable_total s p txn <= nominal_total txn.
Proof.
  intros Hp [Ti _ _]. unfold spendable_total, nominal_total, total. rewrite map_map.
  apply sum_Z_le. intros x Hx. destruct (Ti x Hx) as [Hok _].
  pose proof (spendable_bounds s p (v2sci_Parent x) (childHeight s) Hp Hok). lia.
Qed.

(** An accepted QDAY transaction creates no value: its outputs and its fee add up to at
    most the decayed value of its inputs, hence to at most their nominal value.  Inputs
    may exceed outputs; the difference is destroyed. *)
Theorem v2_transaction_conserves ms txn p :
  qday_state (ms_base ms) p -> txn_typed txn -> ValidateV2Transaction ms txn = Ok tt ->
  outputs_total txn + Currency.val (v2tx_MinerFee txn) <= spendable_total (ms_base ms) p txn /\
  spendable_total (ms_base ms) p txn <= nominal_total txn.
Proof.
  intros Hs Ht Hv. pose proof Hs as [Hn Hsch _].
  destruct (ValidateV2Transaction_inv _ _ _ Hn Hv) as [[e He] Hc].
  split; [|by apply spendable_nominal].
  apply validateV2Siacoins_sums; [done|done|by apply (qt_plain _ _ _ _ He)|done].
Qed.

(** An input whose keys signed the transaction. *)
Definition authorised (s : State) (txn : V2Transaction) (sci : V2SiacoinInput) : Prop :=
  let sp := v2sci_SatisfiedPolicy sci in
  SpendPolicy_Address (sat_Policy sp) = sco_Address (sce_SiacoinOutput (v2sci_Parent sci)) /\
  hybrid_authorised (ci_Height (s_Index s)) (InputSigHash s txn) (sat_Policy sp)
    (sat_Signatures sp) (sat_Preimages sp).

Lemma inputs_authorised ms txn p e : qday_txn ms p txn e -> validateV2Siacoins ms txn = Ok tt ->
  forall sci, sci ∈ v2tx_SiacoinInputs txn -> authorised (ms_base ms) txn sci.
Proof.
  intros He Hc sci Hsci. apply validateV2Siacoins_inputs in Hc as [Hin _].
  destruct (Hin sci Hsci) as [_ _ _ Haddr (median & _ & Hver)]. split; [done|].
  eapply hybrid_spend; [|exact Hver].
  destruct (qt_policy _ _ _ _ He sci Hsci) as [?|[_ ?]]; [by left|by right].
Qed.

(** C3: every input of an accepted QDAY transaction is authorised by both signature
    schemes.  Its policy hashes to the address of the output it spends, and the keys that
    policy reveals have produced a valid Ed25519 and a valid SLH-DSA signature over the
    network-bound hash of this very transaction; its parent is mature. *)
Theorem v2_inputs_hybrid_authorised ms txn p sci :
  n_Qday (s_Network (ms_base ms)) = Some p -> ValidateV2Transaction ms txn = Ok tt ->
  sci ∈ v2tx_SiacoinInputs txn ->
  authorised (ms_base ms) txn sci /\
  sce_MaturityHeight (v2sci_Parent sci) <= childHeight (ms_base ms).
Proof.
  intros Hn Hv Hsci. destruct (ValidateV2Transaction_inv _ _ _ Hn Hv) as [[e He] Hc].
  split; [by eapply inputs_authorised|].
  apply validateV2Siacoins_inputs in Hc as [Hin _]. by apply (in_mature _ _ _ (Hin sci Hsci)).
Qed.

(** ** Blocks as runs *)

(** A transaction that moves nothing. *)
Record bare (txn : V2Transaction) : Prop := {
  ba_inputs : v2tx_SiacoinInputs txn = [];
  ba_outputs : v2tx_SiacoinOutputs txn = [];
  ba_fee : v2tx_MinerFee txn = Currency.ZeroCurrency;
  ba_plain : qdayUnsupported txn = false;
  ba_proof : is_canary_proof txn = false }.

(** The v2 transactions of a block accepted in order from [s], with the intra-block
    state they lead to: markers are applied, the others validated then applied. *)
Inductive run (s : State) (p : QdayParams) : list V2Transaction -> MidState -> Prop :=
| run_nil : run s p [] (NewMidState s)
| run_marker pre txn ms ms' : run s p pre ms -> bare txn ->
    ApplyV2Transaction ms txn = Ok ms' -> run s p (pre ++ [txn]) ms'
| run_txn pre txn e ms ms' : run s p pre ms -> qday_txn ms p txn e ->
    validateV2Siacoins ms txn = Ok tt -> ApplyV2Transaction ms txn = Ok ms' ->
    run s p (pre ++ [txn]) ms'.

Lemma bare_marker_inv txn : is_bare_marker txn = true ->
  v2tx_SiacoinInputs txn = [] /\ v2tx_SiacoinOutputs txn = [] /\
  v2tx_MinerFee txn = Currency.ZeroCurrency /\ qdayUnsupported txn = false.
Proof.
  unfold is_bare_marker, Currency.IsZero, zlen.
  rewrite !andb_true_iff, negb_true_iff, Z.eqb_eq, bool_decide_eq_true. intros [[Hz Hf] Hu].
  split_and!; [apply nil_length_inv; lia..|done|done].
Qed.

Lemma coinbase_marker_inv txn payout : coinbase_marker_ok txn payout = true -> bare txn.
Proof.
  unfold coinbase_marker_ok. destruct (ParseQdayEnvelope _) as [e| |] eqn:E; try done.
  rewrite !andb_true_iff. intros [[Hk _] Hb]. apply bare_marker_inv in Hb as (H1 & H2 & H3 & H4).
  split; try done. unfold is_canary_proof. rewrite E. apply Z.eqb_eq in Hk. by rewrite Hk.
Qed.

Lemma work_marker_inv txn : work_marker_ok txn = true -> bare txn.
Proof.
  unfold work_marker_ok. destruct (ParseQdayEnvelope _) as [e| |] eqn:E; try done.
  rewrite !andb_true_iff. intros [[[Hk _] _] Hb]. apply bare_marker_inv in Hb as (H1 & H2 & H3 & H4).
  split; try done. unfold is_canary_proof. rewrite E. apply Z.eqb_eq in Hk. by rewrite Hk.
Qed.

Lemma markers_inv s b : validateQdayBlockMarkers s b = Ok tt ->
  b_Transactions b = [] /\ is_Some (b_V2 b) /\ (exists payout, b_MinerPayouts b = [payout]) /\
  forall i txn, V2Transactions b !! i = Some txn -> is_marker s b i = true -> bare txn.
Proof.
  unfold validateQdayBlockMarkers. intros H.
  destruct (b_V2 b) eqn:Ev2; [|done]. destruct (b_MinerPayouts b) as [|payout []] eqn:Ep; try done.
  destruct (V2Transactions b) as [|first rest] eqn:Et; [done|].
  do 2 ok_step H. apply fail_if_ok, negb_false_iff in E, E0. apply Z.eqb_eq in E.
  split; [apply nil_length_inv; unfold zlen in E; lia|]. split; [done|]. split; [by eexists|].
  intros i txn Hi. unfold is_marker. rewrite andb_true_iff, orb_true_iff, andb_true_iff, !Nat.eqb_eq.
  intros [_ [->|[Ha Hl]]]; [cbn in Hi; inv Hi; by eapply coinbase_marker_inv|].
  rewrite Ha in H. rewrite Et in Hl. cbn in Hl. rewrite Nat.sub_0_r in Hl.
  destruct (last rest) as [work|] eqn:El; [|done]. apply fail_if_ok, negb_false_iff in H.
  apply work_marker_inv in H. rewrite last_lookup in El. subst i.
  destruct rest as [|r rest]; [done|].
  change ((r :: rest) !! length rest = Some txn) in Hi.
  change ((r :: rest) !! length rest = Some work) in El.
  rewrite Hi in El. by injection El as ->.
Qed.

Lemma ApplyV2_base txn ms ms' : ApplyV2Transaction ms txn = Ok ms' -> ms_base ms' = ms_base ms.
Proof. intros H. apply (ap_base _ _ _ (ApplyV2Transaction_applied _ _ _ H)). Qed.

Lemma run_base s p pre ms : run s p pre ms -> ms_base ms = s.
Proof. induction 1; [done|..]; by erewrite ApplyV2_base. Qed.

(** An accepted QDAY block is a run over its transactions. *)
Lemma ValidateBlock_run s p b bs : n_Qday (s_Network s) = Some p -> 0 < childHeight s ->
  ValidateBlock s b bs = Ok tt ->
  b_Transactions b = [] /\ (exists payout, b_MinerPayouts b = [payout]) /\
  ValidateOrphan s b = Ok tt /\ exists ms, run s p (V2Transactions b) ms /\
    validateBlockTransactions s b bs (NewMidState s) = Ok ms.
Proof.
  intros Hn Hh H. unfold ValidateBlock in H.
  rewrite (qday_isQday _ _ Hn), (proj2 (Z.ltb_lt _ _) Hh) in H. cbn [andb] in H.
  do 5 ok_step H. destruct v, v0. apply markers_inv in E as (Ht & _ & Hp & Hm).
  split; [done|]. split; [done|]. split; [done|]. exists v3. split; [|done].
  unfold validateBlockTransactions in E3. rewrite Ht in E3. cbn [for_each mbind outcome_bind] in E3.
  rewrite <- (firstn_all (V2Transactions b)).
  pose proof (for_each_ok_inv (fun i ms => run s p (take i (V2Transactions b)) ms) _ _ _ _ _ E3
    (run_nil s p)) as Hi. apply Hi. clear Hi.
  intros j txn t t' Hj Hrun Hb. cbn [Nat.add] in *. rewrite (take_S_r _ _ _ Hj).
  destruct (is_marker s b j) eqn:Em; [eapply run_marker; [done|by eapply Hm|done]|].
  ok_step Hb. apply wrap_err_ok in E. destruct v.
  destruct (ValidateV2Transaction_inv t txn p) as [[e He] Hc];
    [by rewrite (run_base _ _ _ _ Hrun)|done|].
  by eapply run_txn.
Qed.
End Validate.

(** ** The sample transfer *)
Lemma sample_state : qday_state SampleChain.tip SampleChain.params.
Proof. split; [reflexivity|apply launchParams_schedule|by vm_compute]. Qed.

(** Decides [Currency.ok], to evaluate on concrete values. *)
Definition currency_okb (c : Currency) : bool :=
  (0 <=? Currency.Lo c) && (Currency.Lo c <? two64) && (0 <=? Currency.Hi c) && (Currency.Hi c <? two64).
Lemma currency_okb_ok c : currency_okb c = true -> Currency.ok c.
Proof. unfold currency_okb, Currency.ok, is_u64. intros H. bool_lia. Qed.

Definition txn_typedb (txn : V2Transaction) : bool :=
  forallb (fun i => currency_okb (sco_Value (sce_SiacoinOutput (v2sci_Parent i))) &&
                    (0 <=? sce_MaturityHeight (v2sci_Parent i)) &&
                    (sce_MaturityHeight (v2sci_Parent i) <? two64)) (v2tx_SiacoinInputs txn) &&
  forallb (fun o => currency_okb (sco_Value o)) (v2tx_SiacoinOutputs txn) &&
  currency_okb (v2tx_MinerFee txn).
Lemma txn_typedb_ok txn : txn_typedb txn = true -> txn_typed txn.
Proof.
  unfold txn_typedb. rewrite !andb_true_iff, !forallb_forall. intros [[Hi Ho] Hf]. split.
  - intros i Hin. apply list_elem_of_In, Hi in Hin. rewrite !andb_true_iff in Hin.
    destruct Hin as [[Hc H1] H2]. split; [by apply currency_okb_ok|unfold is_u64; bool_lia].
  - intros o Hin. apply list_elem_of_In, Ho in Hin. by apply currency_okb_ok.
  - by apply currency_okb_ok.
Qed.

Lemma transfer1_typed : txn_typed SampleChain.transfer1.
Proof. apply txn_typedb_ok. vm_cast_no_check (eq_refl true). Qed.

Lemma v2_transaction_conserves_witness :
  outputs_total SampleChain.transfer1 + Currency.val (v2tx_MinerFee SampleChain.transfer1) <=
    spendable_total SampleChain.tip SampleChain.params SampleChain.transfer1 /\
  spendable_total SampleChain.tip SampleChain.params SampleChain.transfer1 <=
    nominal_total SampleChain.transfer1.
Proof.
  apply (v2_transaction_conserves (crypto:=Sample.crypto) (edwards:=SampleChain.edwards)
    (NewMidState SampleChain.tip) SampleChain.transfer1 SampleChain.params).
  - apply sample_state.
  - apply transfer1_typed.
  - exact SampleChain.transfer1_valid.
Defined.

Lemma v2_inputs_hybrid_authorised_witness :
  exists sci, sci ∈ v2tx_SiacoinInputs SampleChain.transfer1 /\
    authorised (crypto:=Sample.crypto) SampleChain.tip SampleChain.transfer1 sci.
Proof.
  exists {| v2sci_Parent := SampleChain.premine;
            v2sci_SatisfiedPolicy :=
              match v2tx_SiacoinInputs SampleChain.transfer1 with
              | i :: _ => v2sci_SatisfiedPolicy i
              | [] => SampleChain.no_policy
              end |}.
  assert ({| v2sci_Parent := SampleChain.premine;
            v2sci_SatisfiedPolicy :=
              match v2tx_SiacoinInputs SampleChain.transfer1 with
              | i :: _ => v2sci_SatisfiedPolicy i
              | [] => SampleChain.no_policy
              end |} ∈ v2tx_SiacoinInputs SampleChain.transfer1) as Hin by (constructor).
  split; [exact Hin|].
  exact (proj1 (v2_inputs_hybrid_authorised (crypto:=Sample.crypto) (edwards:=SampleChain.edwards)
    (NewMidState SampleChain.tip) SampleChain.transfer1 SampleChain.params _ eq_refl
    SampleChain.transfer1_valid Hin)).
Defined.
