(* ===== verification/ConsensusBlockSpec.v ===== *)
(** * Accepted QDAY blocks

    Rule induction over the runs of [ConsensusValidateSpec]: no double spend, every
    input exists, no inflation, one activation, and application without panic. *)
From stdpp Require Import prelude strings gmap.
From Stdlib Require Import ZArith Lia.
From S2P Require Import Prelude TypesCurrency TypesData TypesEncoding TypesHash TypesPolicy.
From S2P Require Import TypesPolicySpec ConsensusWork ConsensusState ConsensusMerkle ConsensusQday.
From S2P Require Import ConsensusQdaySpec ConsensusMidState ConsensusMidStateSpec.
From S2P Require Import ConsensusDifficulty ConsensusApply.
From S2P Require Import ConsensusValidateV1 ConsensusValidate ConsensusValidateSpec.
From S2P Require Import SampleCrypto ChainQday SampleChain.

(** ** The siacoin diffs of a QDAY block *)

(** [modify_sced] touches exactly the entry of its identifier. *)
Lemma modify_sced_effect ms id f ms' : modify_sced ms id f = Ok ms' ->
  exists i d,
    ms_elements ms' = <[id := i]> (ms_elements ms) /\ ms_sces ms' !! i = Some (f d) /\
    (forall j, j <> i -> ms_sces ms' !! j = ms_sces ms !! j) /\
    (ms_elements ms !! id = Some i /\ ms_sces ms !! i = Some d \/
     ms_elements ms !! id = None /\ i = length (ms_sces ms) /\ d = zeroSCED).
Proof.
  unfold modify_sced, recordSiacoinElement, update_at. intros H.
  destruct (ms_elements ms !! id) as [i|] eqn:Ei.
  - destruct (ms_sces ms !! i) as [d|] eqn:Ed; [|done]. inv H. exists i, d. cbn.
    split; [by rewrite insert_id|]. split; [by apply list_lookup_insert_eq; eapply lookup_lt_Some|].
    split; [intros j Hj; by apply list_lookup_insert_ne|by left].
  - cbn [ms_sces set_elements set_sces ms_with] in H.
    rewrite list_lookup_middle in H by done. inv H.
    exists (length (ms_sces ms)), zeroSCED. cbn. split; [done|].
    split; [apply list_lookup_insert_eq; rewrite length_app; cbn; lia|].
    split; [|by right]. intros j Hj. rewrite list_lookup_insert_ne by done.
    destruct (decide (j < length (ms_sces ms))%nat); [by apply lookup_app_l|].
    rewrite lookup_ge_None_2 by (rewrite length_app; cbn; lia).
    symmetry. apply lookup_ge_None_2. lia.
Qed.

(** Every identifier indexes the diff that carries it, and every created, still
    unspent element satisfies [C]. *)
Record diffs_ok (C : SiacoinElement -> Prop) (ms : MidState) : Prop := {
  do_index : forall id i, ms_elements ms !! id = Some i ->
    exists d, ms_sces ms !! i = Some d /\ sce_ID (sced_SiacoinElement d) = id;
  do_created : forall i d, ms_sces ms !! i = Some d -> sced_Created d = true ->
    ms_spends ms !! sce_ID (sced_SiacoinElement d) = None -> C (sced_SiacoinElement d) }.

Lemma diffs_ok_mono (C D : SiacoinElement -> Prop) ms : (forall e, C e -> D e) ->
  diffs_ok C ms -> diffs_ok D ms.
Proof. intros H [H1 H2]. split; [done|]. eauto. Qed.

Lemma modify_sced_total C ms id f : diffs_ok C ms -> is_Ok (modify_sced ms id f).
Proof.
  intros [Hi _]. unfold modify_sced, recordSiacoinElement, update_at.
  destruct (ms_elements ms !! id) as [i|] eqn:Ei.
  - destruct (Hi _ _ Ei) as (d & -> & _). by eexists.
  - cbn. rewrite list_lookup_middle by done. by eexists.
Qed.

(** An update that sets the identifier keeps the index consistent; its entry is fine
    when it is not created, already spent, or in [C]. *)
Lemma modify_sced_diffs C ms id f ms' :
  modify_sced ms id f = Ok ms' -> diffs_ok C ms ->
  (forall d, sce_ID (sced_SiacoinElement (f d)) = id) ->
  (forall d, sced_Created (f d) = true -> ms_spends ms !! id = None -> C (sced_SiacoinElement (f d))) ->
  diffs_ok C ms'.
Proof.
  intros Hm [Hi Hc] Hid Hf. pose proof (modify_sced_frame _ _ _ _ Hm) as [_ Hsp].
  apply modify_sced_effect in Hm as (i & d & He & Hd & Hother & Hold). split.
  - intros id' j Hj. rewrite He in Hj.
    apply lookup_insert_Some in Hj as [[<- <-]|[Hne Hj]]; [eauto|].
    destruct (Hi _ _ Hj) as (d' & Hd' & Hid').
    assert (j <> i) as Hji.
    { intros ->. destruct Hold as [[Hii _]|(_ & -> & _)].
      - destruct (Hi _ _ Hii) as (d2 & Hd2 & Hid2). congruence.
      - apply lookup_lt_Some in Hd'. lia. }
    rewrite (Hother j Hji). eauto.
  - intros j d' Hj Hcr Hns. rewrite Hsp in Hns. destruct (decide (j = i)) as [->|Hji].
    + rewrite Hd in Hj. injection Hj as <-. rewrite Hid in Hns. by apply Hf.
    + rewrite Hother in Hj by done. eauto.
Qed.

Section Blocks.
Context {crypto : Crypto} {edwards : Edwards25519}.

Lemma spend_diffs C ms sce txid ms' :
  spendSiacoinElement ms sce txid = Ok ms' -> diffs_ok C ms -> diffs_ok C ms'.
Proof.
  unfold spendSiacoinElement. intros H Hok. ok_step H. injection H as <-.
  pose proof (modify_sced_frame _ _ _ _ E) as [_ Hsp].
  pose proof (modify_sced_effect _ _ _ _ E) as (i & d & He & Hd & Hother & Hold).
  assert (diffs_ok (fun e => C e \/ sce_ID e = sce_ID sce) v) as [H1 H2].
  { eapply modify_sced_diffs; [done|eapply diffs_ok_mono; [|done]; auto|done|].
    intros d' _ _. by right. }
  split; [done|]. cbn [set_spends ms_with ms_sces ms_spends]. intros j d' Hj Hcr Hns.
  apply lookup_insert_None in Hns as [Hns Hne].
  destruct (H2 j d' Hj Hcr Hns) as [?|Heq]; [done|]. by destruct Hne.
Qed.

Lemma spend_all_diffs C txid (l : list V2SiacoinInput) i ms ms' :
  for_each l i ms (fun _ sci ms =>
    spendSiacoinElement ms (SiacoinElement_Share (v2sci_Parent sci)) txid) = Ok ms' ->
  diffs_ok C ms -> diffs_ok C ms'.
Proof.
  revert i ms. induction l as [|sci l IH]; intros i ms H Hok; cbn [for_each] in H; [by inv H|].
  ok_step H. eapply IH; [done|]. by eapply spend_diffs.
Qed.

(** The element a v2 output becomes. *)
Definition created_element (s : State) (txid : TransactionID) (k : nat) (out : SiacoinOutput)
    : SiacoinElement :=
  {| sce_ID := V2SiacoinOutputID txid k; sce_StateElement := unassigned; sce_SiacoinOutput := out;
     sce_MaturityHeight := childHeight s |}.

(** An element created by an output of one of the transactions [pre]. *)
Definition created_in (s : State) (pre : list V2Transaction) (e : SiacoinElement) : Prop :=
  exists T k out, T ∈ pre /\ v2tx_SiacoinOutputs T !! k = Some out /\
    e = created_element s (V2Transaction_ID T) k out.

Lemma create_diffs C ms id sco ms' :
  createSiacoinElement ms id sco = Ok ms' -> isQday (ms_base ms) = true -> diffs_ok C ms ->
  C {| sce_ID := id; sce_StateElement := unassigned; sce_SiacoinOutput := sco;
       sce_MaturityHeight := childHeight (ms_base ms) |} -> diffs_ok C ms'.
Proof.
  unfold createSiacoinElement. intros H Hq Hok HC. rewrite Hq in H.
  eapply modify_sced_diffs; [done|done|done|]. by intros.
Qed.

Lemma create_all_diffs (C : SiacoinElement -> Prop) id outs i ms ms' :
  for_each outs i ms (fun i sco ms => createSiacoinElement ms (id i) sco) = Ok ms' ->
  isQday (ms_base ms) = true -> diffs_ok C ms ->
  (forall k out, outs !! k = Some out ->
     C {| sce_ID := id (i + k)%nat; sce_StateElement := unassigned; sce_SiacoinOutput := out;
          sce_MaturityHeight := childHeight (ms_base ms) |}) ->
  diffs_ok C ms'.
Proof.
  revert i ms. induction outs as [|o outs IH]; intros i ms H Hq Hok HC; cbn [for_each] in H.
  - by inv H.
  - ok_step H. pose proof (fr_base _ _ (create_frame _ _ _ _ E)) as Hb.
    eapply IH; [exact H|by rewrite Hb| |].
    + eapply create_diffs; [done|done|done|]. specialize (HC 0%nat o eq_refl).
      by rewrite Nat.add_0_r in HC.
    + intros k out Hk. rewrite Hb. specialize (HC (Datatypes.S k) out Hk).
      by rewrite Nat.add_succ_r in HC.
Qed.

(** A plain transfer spends its inputs and creates its outputs, nothing else. *)
Lemma ApplyV2Transaction_plain ms txn : qdayUnsupported txn = false ->
  ApplyV2Transaction ms txn =
    (ms1 ← for_each (v2tx_SiacoinInputs txn) 0
             (if isQday (ms_base ms) && is_canary_proof txn then set_qdayProved ms else ms)
             (fun _ sci ms => spendSiacoinElement ms (SiacoinElement_Share (v2sci_Parent sci))
                                (V2Transaction_ID txn));
     create_all (V2SiacoinOutputID (V2Transaction_ID txn)) (v2tx_SiacoinOutputs txn) ms1).
Proof.
  intros Hu. unfold ApplyV2Transaction.
  apply qdayUnsupported_nil in Hu as (-> & -> & -> & -> & -> & -> & ->). cbn [for_each mbind outcome_bind].
  destruct (for_each (v2tx_SiacoinInputs txn) _ _ _) as [ms1| |]; [|done|done].
  cbn [mbind outcome_bind]. by destruct (create_all _ _ ms1).
Qed.

Lemma created_in_mono s pre txn e : created_in s pre e -> created_in s (pre ++ [txn]) e.
Proof. intros (T & k & out & HT & H). exists T, k, out. split; [set_solver|done]. Qed.

Lemma apply_diffs s pre ms txn ms' : ApplyV2Transaction ms txn = Ok ms' ->
  qdayUnsupported txn = false -> isQday s = true -> ms_base ms = s ->
  diffs_ok (created_in s pre) ms -> diffs_ok (created_in s (pre ++ [txn])) ms'.
Proof.
  intros H Hu Hq Hb Hok. rewrite ApplyV2Transaction_plain in H by done. ok_step H.
  set (ms0 := if _ && _ then _ else _) in E.
  assert (diffs_ok (created_in s (pre ++ [txn])) ms0 /\ ms_base ms0 = s) as [H0 Hb0].
  { split; [|subst ms0; by destruct (_ && _)].
    apply (diffs_ok_mono (created_in s pre)); [intros e; apply created_in_mono|].
    subst ms0. destruct (_ && _); [|done]. by destruct Hok. }
  pose proof (spend_inputs_frame _ _ _ _ _ E) as [[Hb1 _ _] _].
  assert (diffs_ok (created_in s (pre ++ [txn])) v) as H1 by (by eapply spend_all_diffs).
  eapply create_all_diffs; [exact H|by rewrite Hb1, Hb0|done|].
  intros k out Hk. exists txn, k, out. split; [set_solver|]. split; [done|].
  by rewrite Hb1, Hb0.
Qed.

Lemma NewMidState_diffs C s : diffs_ok C (NewMidState s).
Proof. by split; cbn. Qed.

Lemma run_diffs s p pre ms : n_Qday (s_Network s) = Some p -> run s p pre ms ->
  diffs_ok (created_in s pre) ms.
Proof.
  intros Hn Hrun. pose proof (qday_isQday _ _ Hn) as Hq.
  induction Hrun as [|pre txn ms ms' Hrun IH Hb Ha|pre txn e ms ms' Hrun IH He Hv Ha];
    [apply NewMidState_diffs| |];
    (eapply apply_diffs; [exact Ha| |done|by eapply run_base|done]).
  - apply Hb.
  - apply He.
Qed.

(** ** Splitting a run *)
Lemma run_split s p l ms : run s p l ms -> forall pre txn post, l = pre ++ txn :: post ->
  exists t t', run s p pre t /\ ApplyV2Transaction t txn = Ok t' /\
    (bare txn \/ exists e, qday_txn t p txn e /\ validateV2Siacoins t txn = Ok tt).
Proof.
  induction 1 as [|l x ms ms' Hrun IH Hb Ha|l x e ms ms' Hrun IH He Hv Ha]; intros pre txn post Heq.
  - by destruct pre.
  - destruct post as [|y post _] using rev_ind.
    + apply app_inj_tail in Heq as [-> ->]. eauto 10.
    + rewrite app_comm_cons, app_assoc in Heq. apply app_inj_tail in Heq as [-> ->]. eauto.
  - destruct post as [|y post _] using rev_ind.
    + apply app_inj_tail in Heq as [-> ->]. eauto 10.
    + rewrite app_comm_cons, app_assoc in Heq. apply app_inj_tail in Heq as [-> ->]. eauto.
Qed.

(** ** No double spend *)
Abbreviation block_inputs txns := (flat_map v2tx_SiacoinInputs txns).
Abbreviation parent_ids l := (map (fun i => sce_ID (v2sci_Parent i)) l).

Lemma run_no_double_spend s p pre ms : run s p pre ms ->
  NoDup (parent_ids (block_inputs pre)) /\
  forall id, id ∈ parent_ids (block_inputs pre) -> is_Some (ms_spends ms !! id).
Proof.
  induction 1 as [|pre txn ms ms' Hrun [IH1 IH2] Hb Ha|pre txn e ms ms' Hrun [IH1 IH2] He Hv Ha].
  - split; [constructor|]. intros id Hid. by apply not_elem_of_nil in Hid.
  - apply ApplyV2Transaction_applied in Ha as [_ _ Hm _].
    rewrite flat_map_app. cbn. rewrite (ba_inputs _ Hb). cbn. rewrite app_nil_r. auto.
  - apply ApplyV2Transaction_applied in Ha as [_ _ Hm Hs].
    apply validateV2Siacoins_inputs in Hv as [Hin Hnd].
    rewrite flat_map_app. cbn. rewrite app_nil_r, map_app. split.
    + apply NoDup_app. split; [done|]. split; [|done]. intros id Hid Hid'.
      apply IH2 in Hid. apply list_elem_of_fmap in Hid' as (sci & -> & Hsci).
      pose proof (in_unspent _ _ _ (Hin sci Hsci)) as Hu. unfold ms_isSpent in Hu.
      by apply bool_decide_eq_false in Hu.
    + intros id Hid. apply elem_of_app in Hid as [Hid|Hid]; [auto|].
      apply list_elem_of_fmap in Hid as (sci & -> & Hsci). auto.
Qed.

(** C2: an accepted QDAY block spends every output at most once: the parents of all its
    inputs, over all its transactions, are pairwise distinct. *)
Theorem valid_block_no_double_spend s p b bs :
  n_Qday (s_Network s) = Some p -> 0 < childHeight s -> ValidateBlock s b bs = Ok tt ->
  NoDup (parent_ids (block_inputs (V2Transactions b))).
Proof.
  intros Hn Hh Hv. destruct (ValidateBlock_run _ _ _ _ Hn Hh Hv) as (_ & _ & _ & ms & Hrun & _).
  by apply (run_no_double_spend _ _ _ _ Hrun).
Qed.

(** ** Every input exists *)
Lemma ephemeral_created s p pre ms sci : n_Qday (s_Network s) = Some p -> run s p pre ms ->
  n_V2_EphemeralOutputHeight (s_Network s) <= childHeight s ->
  ms_isSpent ms (sce_ID (v2sci_Parent sci)) = false ->
  validateEphemeralSiacoinElement ms sci = Ok tt ->
  exists T k out, T ∈ pre /\ v2tx_SiacoinOutputs T !! k = Some out /\
    sce_ID (v2sci_Parent sci) = V2SiacoinOutputID (V2Transaction_ID T) k /\
    sce_SiacoinOutput (v2sci_Parent sci) = out /\
    sce_MaturityHeight (v2sci_Parent sci) = childHeight s.
Proof.
  intros Hn Hrun Hh Hsp Hv. pose proof (run_diffs _ _ _ _ Hn Hrun) as [Hi Hc].
  unfold validateEphemeralSiacoinElement in Hv.
  destruct (ms_elements ms !! sce_ID (v2sci_Parent sci)) as [i|] eqn:Ei; [|done].
  cbn [mbind option_bind] in Hv. destruct (Hi _ _ Ei) as (d & Hd & Hid). rewrite Hd in Hv.
  cbn [mbind option_bind] in Hv. destruct (sced_Created d) eqn:Hcr; [|done].
  rewrite (run_base _ _ _ _ Hrun), (proj2 (Z.ltb_ge _ _)) in Hv by done.
  do 2 ok_step Hv. apply fail_if_ok, negb_false_iff in E, E0, Hv.
  apply bool_decide_eq_true in E0. apply Z.eqb_eq in Hv.
  apply bool_decide_eq_false in Hsp. rewrite <- Hid in Hsp.
  destruct (Hc i d Hd Hcr) as (T & k & out & HT & Hk & He).
  { by apply eq_None_not_Some. }
  exists T, k, out. split; [done|]. split; [done|]. rewrite <- Hid, E0, Hv, He. done.
Qed.

(** C4: every input of an accepted QDAY block spends something that exists: a leaf of the
    element accumulator that is marked unspent, or an output with the same identifier,
    value, address and maturity created by an earlier transaction of the same block. *)
Theorem valid_block_inputs_exist s p b bs pre txn post sci :
  n_Qday (s_Network s) = Some p -> 0 < childHeight s ->
  n_V2_EphemeralOutputHeight (s_Network s) <= childHeight s ->
  ValidateBlock s b bs = Ok tt -> V2Transactions b = pre ++ txn :: post ->
  sci ∈ v2tx_SiacoinInputs txn ->
  containsUnspentSiacoinElement (s_Elements s) (SiacoinElement_Share (v2sci_Parent sci)) = true \/
  exists T k out, T ∈ pre /\ v2tx_SiacoinOutputs T !! k = Some out /\
    sce_ID (v2sci_Parent sci) = V2SiacoinOutputID (V2Transaction_ID T) k /\
    sce_SiacoinOutput (v2sci_Parent sci) = out /\
    sce_MaturityHeight (v2sci_Parent sci) = childHeight s.
Proof.
  intros Hn Hh Heh Hv Hl Hsci.
  destruct (ValidateBlock_run _ _ _ _ Hn Hh Hv) as (_ & _ & _ & ms & Hrun & _).
  destruct (run_split _ _ _ _ Hrun _ _ _ Hl) as (t & t' & Ht & _ & [Hb|(e & He & Hc)]).
  { rewrite (ba_inputs _ Hb) in Hsci. by apply not_elem_of_nil in Hsci. }
  apply validateV2Siacoins_inputs in Hc as [Hin _]. destruct (Hin sci Hsci) as [Hu _ Hp _ _].
  destruct Hp as [[_ Hp]|[_ Hp]]; [right; by eapply ephemeral_created|left].
  by rewrite (run_base _ _ _ _ Ht) in Hp.
Qed.

(** ** No inflation *)
Lemma add_or_fail_inv sum c msg r : Currency.ok sum -> Currency.ok c ->
  add_or_fail sum c msg = Ok r -> Currency.ok r /\ Currency.val r = Currency.val sum + Currency.val c.
Proof.
  intros Hs Hc. unfold add_or_fail. destruct (Currency.AddWithOverflow sum c) as [x []] eqn:E; [done|].
  intros [= <-]. by apply Currency.AddWithOverflow_inv.
Qed.

Lemma fees_loop l i sum msg r : Currency.ok sum -> (forall txn, txn ∈ l -> txn_typed txn) ->
  for_each l i sum (fun _ txn sum => add_or_fail sum (v2tx_MinerFee txn) msg) = Ok r ->
  Currency.ok r /\
  Currency.val r = Currency.val sum + sum_Z (map (fun txn => Currency.val (v2tx_MinerFee txn)) l).
Proof.
  revert i sum. induction l as [|txn l IH]; intros i sum Hs Ht H; cbn [for_each] in H.
  - inv H. split; [done|]. cbn. lia.
  - ok_step H. destruct (Ht txn ltac:(constructor)) as [_ _ Hf].
    destruct (add_or_fail_inv _ _ _ _ Hs Hf E) as [Hv Hvv].
    destruct (IH _ _ Hv ltac:(intros; apply Ht; by constructor) H) as [Hr Hrv].
    split; [done|]. cbn. unfold sum_Z in *. lia.
Qed.

(** The machine integers of a decoded block. *)
Record block_typed (b : Block) : Prop := {
  bt_txns : forall txn, txn ∈ V2Transactions b -> txn_typed txn;
  bt_payouts : forall o, o ∈ b_MinerPayouts b -> Currency.ok (sco_Value o) }.

Lemma BlockReward_qday s p : n_Qday (s_Network s) = Some p -> Currency.ok (qd_Reward p) ->
  exists c, BlockReward s = Ok c /\ Currency.ok c /\ Currency.val c = reward_val s.
Proof.
  intros Hn Hr. unfold reward_val, BlockReward. rewrite Hn. eexists. split; [reflexivity|].
  split; [|done]. destruct (_ || _); [apply Currency.zero_ok|done].
Qed.

Lemma miner_payout s p b : n_Qday (s_Network s) = Some p -> Currency.ok (qd_Reward p) ->
  block_typed b -> b_Transactions b = [] -> (exists o, b_MinerPayouts b = [o]) ->
  validateMinerPayouts s b = Ok tt ->
  total (values (b_MinerPayouts b)) =
    reward_val s + sum_Z (map (fun txn => Currency.val (v2tx_MinerFee txn)) (V2Transactions b)).
Proof.
  intros Hn Hr [Ht Hp] Hnil [o Ho] H. unfold validateMinerPayouts in H.
  destruct (BlockReward_qday _ _ Hn Hr) as (c & Hc & Hcok & Hcv). rewrite Hc, Hnil, Ho in H.
  cbn [for_each mbind outcome_bind] in H. ok_step H.
  assert (Currency.ok v /\ Currency.val v = reward_val s +
    sum_Z (map (fun txn => Currency.val (v2tx_MinerFee txn)) (V2Transactions b))) as [Hv Hvv].
  { unfold V2Transactions in *. destruct (b_V2 b) as [d|].
    - do 2 ok_step E. injection E as ->. rewrite <- Hcv. by eapply fees_loop.
    - injection E as <-. split; [done|]. cbn. lia. }
  ok_step H. apply fail_if_ok, negb_false_iff, bool_decide_eq_true in H. subst v0.
  ok_step E0. injection E0 as ->. ok_step E1.
  assert (Currency.ok (sco_Value o)) as Hoo by (apply Hp; rewrite Ho; constructor).
  destruct (add_or_fail_inv _ _ _ _ Currency.zero_ok Hoo E1) as [_ Hwv].
  assert (total (values (b_MinerPayouts b)) = Currency.val (sco_Value o)) as ->
    by (rewrite Ho; unfold total, sum_Z, values; cbn [map foldr]; lia).
  change (Currency.val Currency.ZeroCurrency) with 0 in Hwv. lia.
Qed.

Lemma run_sums s p l ms : qday_state s p -> (forall txn, txn ∈ l -> txn_typed txn) -> run s p l ms ->
  sum_Z (map outputs_total l) + sum_Z (map (fun txn => Currency.val (v2tx_MinerFee txn)) l) <=
  sum_Z (map (spendable_total s p) l).
Proof.
  intros Hs Ht Hrun.
  induction Hrun as [|pre txn ms ms' Hrun IH Hb Ha|pre txn e ms ms' Hrun IH He Hv Ha]; [done|..];
    (specialize (IH ltac:(intros; apply Ht; set_solver)); rewrite !map_app; cbn [map];
     rewrite !sum_Z_snoc).
  - destruct Hb as [Hi Ho Hf _ _].
    assert (outputs_total txn = 0) as -> by (unfold outputs_total; by rewrite Ho).
    assert (spendable_total s p txn = 0) as -> by (unfold spendable_total; by rewrite Hi).
    rewrite Hf. change (Currency.val Currency.ZeroCurrency) with 0. lia.
  - pose proof (run_base _ _ _ _ Hrun) as Hbase. subst s.
    pose proof (validateV2Siacoins_sums ms txn p Hs (Ht txn ltac:(set_solver))
      (qt_plain _ _ _ _ He) Hv). lia.
Qed.

(** C1: an accepted QDAY block cannot inflate the supply: the miner is paid exactly the
    block reward plus the fees, and everything the block creates (transaction outputs and
    payout) is at most the reward plus the decayed value of what it spends. *)
Theorem valid_block_no_inflation s p b bs :
  qday_state s p -> Currency.ok (qd_Reward p) -> 0 < childHeight s -> block_typed b ->
  ValidateBlock s b bs = Ok tt ->
  total (values (b_MinerPayouts b)) =
    reward_val s + sum_Z (map (fun txn => Currency.val (v2tx_MinerFee txn)) (V2Transactions b)) /\
  sum_Z (map outputs_total (V2Transactions b)) + total (values (b_MinerPayouts b)) <=
    reward_val s + sum_Z (map (spendable_total s p) (V2Transactions b)).
Proof.
  intros Hs Hr Hh Ht Hv. pose proof Hs as [Hn _ _].
  destruct (ValidateBlock_run _ _ _ _ Hn Hh Hv) as (Hnil & Hpay & Horph & ms & Hrun & _).
  unfold ValidateOrphan in Horph. do 2 ok_step Horph. destruct v0.
  pose proof (miner_payout _ _ _ Hn Hr Ht Hnil Hpay E0) as Hm. split; [done|].
  pose proof (run_sums _ _ _ _ Hs (bt_txns _ Ht) Hrun). lia.
Qed.

(** ** Activation *)
Lemma run_proved s p l ms : n_Qday (s_Network s) = Some p -> run s p l ms ->
  ms_qdayProved ms = existsb is_canary_proof l /\
  (length (List.filter is_canary_proof l) <= 1)%nat /\
  forall txn, txn ∈ l -> is_canary_proof txn = true ->
    s_QdayHeight s = 0 /\ exists e, ParseQdayEnvelope (v2tx_ArbitraryData txn) = Ok e /\
      VerifyQdayProof (qd_Canary p) (qe_Witness e) = true /\
      0 <= Currency.Cmp (v2tx_MinerFee txn) (qd_ProofFee p).
Proof.
  intros Hn Hrun. pose proof (qday_isQday _ _ Hn) as Hq.
  induction Hrun as [|pre txn ms ms' Hrun (IH1 & IH2 & IH3) Hb Ha
                     |pre txn e ms ms' Hrun (IH1 & IH2 & IH3) He Hv Ha].
  - split_and!; [done|cbn; lia|]. intros ? Hx. by apply not_elem_of_nil in Hx.
  - apply ApplyV2Transaction_applied in Ha as [_ Hp _ _].
    rewrite (ba_proof _ Hb), andb_false_r, orb_false_r in Hp.
    rewrite existsb_app, List.filter_app, length_app. cbn. rewrite (ba_proof _ Hb). cbn.
    rewrite orb_false_r. split_and!; [congruence|lia|].
    intros x Hx Hpx. apply elem_of_app in Hx as [Hx|Hx]; [auto|].
    apply list_elem_of_singleton in Hx. subst. by rewrite (ba_proof _ Hb) in Hpx.
  - apply ApplyV2Transaction_applied in Ha as [_ Hp _ _].
    rewrite (run_base _ _ _ _ Hrun), Hq in Hp. cbn [andb] in Hp.
    rewrite existsb_app, List.filter_app, length_app. cbn. rewrite orb_false_r.
    pose proof (qt_parse _ _ _ _ He) as Hparse. split_and!; [congruence| |].
    + destruct (is_canary_proof txn) eqn:Ec; cbn; [|lia].
      assert (List.filter is_canary_proof pre = []) as ->; [|cbn; lia].
      unfold is_canary_proof in Ec. rewrite Hparse in Ec. apply Z.eqb_eq in Ec.
      destruct (qt_proof _ _ _ _ He Ec) as (_ & Hnp & _). rewrite Hnp in IH1. symmetry in IH1.
      clear -IH1. induction pre as [|x pre IH]; [done|]. cbn in *.
      apply orb_false_iff in IH1 as [-> H]. auto.
    + intros x Hx Hpx. apply elem_of_app in Hx as [Hx|Hx]; [auto|].
      apply list_elem_of_singleton in Hx. subst x.
      unfold is_canary_proof in Hpx. rewrite Hparse in Hpx. apply Z.eqb_eq in Hpx.
      destruct (qt_proof _ _ _ _ He Hpx) as (H1 & _ & H3 & H4).
      rewrite (run_base _ _ _ _ Hrun) in H1. split; [done|]. exists e. done.
Qed.

(** The transactions of a run, applied without validation, lead to the same state. *)
Lemma for_each_snoc {A St} (l : list A) x i (s : St) body :
  for_each (l ++ [x]) i s body = (t ← for_each l i s body; body (i + length l)%nat x t).
Proof.
  revert i s. induction l as [|y l IH]; intros i s; cbn.
  - rewrite Nat.add_0_r. by destruct (body i x s).
  - destruct (body i y s); cbn; [|done|done]. rewrite IH. by rewrite Nat.add_succ_r.
Qed.

Lemma run_apply s p l ms : run s p l ms ->
  for_each l 0 (NewMidState s) (fun _ txn ms => ApplyV2Transaction ms txn) = Ok ms.
Proof. induction 1 as [|? ? ? ? ? IH|? ? ? ? ? ? IH]; [done|..]; rewrite for_each_snoc, IH; done. Qed.

(** The state after an accepted block, before the header is applied. *)
Lemma ValidateBlock_proved s p b bs ms' : n_Qday (s_Network s) = Some p -> 0 < childHeight s ->
  ValidateBlock s b bs = Ok tt -> MidState_ApplyBlock (NewMidState s) b bs = Ok ms' ->
  ms_qdayProved ms' = existsb is_canary_proof (V2Transactions b).
Proof.
  intros Hn Hh Hv Ha.
  destruct (ValidateBlock_run _ _ _ _ Hn Hh Hv) as (Hnil & _ & _ & ms & Hrun & _).
  destruct (MidState_ApplyBlock_inv _ _ _ _ Ha) as (ms1 & ms2 & H1 & H2 & Hf).
  rewrite Hnil in H1. injection H1 as <-. rewrite (run_apply _ _ _ _ Hrun) in H2. injection H2 as <-.
  rewrite (fr_proved _ _ Hf). by apply (run_proved _ _ _ _ Hn Hrun).
Qed.

Lemma ApplyHeader_qday s bh t next : ApplyHeader s bh t = Ok next ->
  s_QdayHeight next = s_QdayHeight s /\ s_Network next = s_Network s.
Proof.
  unfold ApplyHeader. intros H. destruct (_ && _) in H; [discriminate|]. ok_step H.
  injection H as <-.
  assert (s_QdayHeight v = s_QdayHeight s /\ s_Network v = s_Network s) as [Hq Hn].
  { destruct (bool_decide _) in E.
    - ok_step E. destruct v0. by injection E as <-.
    - do 3 (ok_step E; match goal with x : (_ * _)%type |- _ => destruct x end). by injection E as <-. }
  destruct (_ <=? _); cbn; by rewrite ?Hq, ?Hn.
Qed.

(** C5: the decay is activated once, by a valid proof.  Applying an accepted block keeps
    an activation height that is set; otherwise the height becomes set exactly when the
    block contains a canary proof, which is then unique, opens the published challenge and
    pays the proof fee, and the height is that of the block plus the activation delay. *)
Theorem activation_once s p b bs t s' au :
  n_Qday (s_Network s) = Some p -> 0 < childHeight s ->
  ValidateBlock s b bs = Ok tt -> ApplyBlock s b bs t = Ok (s', au) ->
  (s_QdayHeight s <> 0 -> s_QdayHeight s' = s_QdayHeight s /\
     forall txn, txn ∈ V2Transactions b -> is_canary_proof txn = false) /\
  (s_QdayHeight s = 0 ->
     (forall txn, txn ∈ V2Transactions b -> is_canary_proof txn = false) /\ s_QdayHeight s' = 0 \/
     exists txn e, txn ∈ V2Transactions b /\ List.filter is_canary_proof (V2Transactions b) = [txn] /\
       ParseQdayEnvelope (v2tx_ArbitraryData txn) = Ok e /\
       VerifyQdayProof (qd_Canary p) (qe_Witness e) = true /\
       0 <= Currency.Cmp (v2tx_MinerFee txn) (qd_ProofFee p) /\
       s_QdayHeight s' = u64 (ci_Height (s_Index s') + qd_ActivationDelay p)).
Proof.
  intros Hn Hh Hv Ha. unfold ApplyBlock in Ha. destruct (_ && _) in Ha; [discriminate|].
  ok_step Ha. ok_step Ha. destruct v0 as [[acc eau] added]. ok_step Ha. injection Ha as <- _.
  apply (ValidateBlock_proved _ _ _ _ _ Hn Hh Hv) in E.
  apply ApplyHeader_qday in E1 as [Hq Hnet]. cbn [set_chain s_QdayHeight s_Network] in Hq, Hnet.
  destruct (ValidateBlock_run _ _ _ _ Hn Hh Hv) as (_ & _ & _ & ms & Hrun & _).
  destruct (run_proved _ _ _ _ Hn Hrun) as (_ & Hone & Hproof).
  unfold activate. rewrite Hnet, Hn, Hq, E.
  split.
  - intros Hnz. rewrite (proj2 (Z.eqb_neq _ _) Hnz). cbn [andb]. split; [done|].
    intros txn Htxn. destruct (is_canary_proof txn) eqn:Ec; [|done].
    by destruct (Hproof txn Htxn Ec) as [? _].
  - intros Hz. rewrite Hz, Z.eqb_refl. cbn [andb].
    destruct (existsb is_canary_proof (V2Transactions b)) eqn:Ex.
    + right. apply existsb_exists in Ex as (txn & Hin & Hc). apply list_elem_of_In in Hin.
      destruct (Hproof txn Hin Hc) as (_ & e & He1 & He2 & He3).
      exists txn, e. split_and!; [done| |done|done|done|done].
      assert (In txn (List.filter is_canary_proof (V2Transactions b))) as Hf
        by (apply filter_In; by rewrite <- list_elem_of_In).
      destruct (List.filter is_canary_proof (V2Transactions b)) as [|x [|y l]];
        [by destruct Hf| |cbn in Hone; lia].
      destruct Hf as [->|Hf]; [done|by destruct Hf].
    + left. split; [|by rewrite Hq]. intros txn Htxn.
      destruct (is_canary_proof txn) eqn:Ec; [|done].
      rewrite <- Ex. symmetry. apply existsb_exists. exists txn. by rewrite <- list_elem_of_In.
Qed.

(** ** Application does not panic *)
Lemma createImmature_total C ms id sco : diffs_ok C ms ->
  exists ms', createImmatureSiacoinElement ms id sco = Ok ms'.
Proof.
  intros Hok. unfold createImmatureSiacoinElement, createSiacoinElement.
  destruct (modify_sced_total C ms id (fun d =>
    {| sced_SiacoinElement :=
         {| sce_ID := id; sce_StateElement := unassigned; sce_SiacoinOutput := sco;
            sce_MaturityHeight := if isQday (ms_base ms) then childHeight (ms_base ms) else 0 |};
       sced_Created := true; sced_Spent := sced_Spent d |}) Hok) as [ms1 H1].
  rewrite H1. cbn [mbind outcome_bind]. apply (modify_sced_total (fun _ => True)).
  eapply modify_sced_diffs; [exact H1| |done|done].
  by apply (diffs_ok_mono C).
Qed.

(** Past the v2 hardfork the supplement of a valid block is empty. *)
Lemma valid_supplement s b bs : n_V2_RequireHeight (s_Network s) <= childHeight s -> ValidateBlock s b bs = Ok tt ->
  bs_Transactions bs = [] /\ bs_ExpiringFileContracts bs = [].
Proof.
  intros Hr Hv. unfold ValidateBlock in Hv. do 3 ok_step Hv. apply wrap_err_ok in E1.
  unfold validateSupplement in E1. ok_step E1. apply fail_if_ok in E2.
  rewrite (proj2 (Z.leb_le _ _) Hr) in E2. cbn [andb] in E2.
  rewrite orb_false_iff, !negb_false_iff, !Z.eqb_eq in E2. unfold zlen in E2. destruct E2.
  split; apply nil_length_inv; lia.
Qed.

(** C20: the intra-block application of an accepted block never panics: whenever
    [ValidateBlock] accepts a block of a QDAY network after genesis and from the v2 require height on,
    [MidState.ApplyBlock] succeeds from the same state. *)
Theorem valid_block_applies s p b bs :
  n_Qday (s_Network s) = Some p -> 0 < childHeight s ->
  n_V2_RequireHeight (s_Network s) <= childHeight s ->
  ValidateBlock s b bs = Ok tt ->
  exists ms, MidState_ApplyBlock (NewMidState s) b bs = Ok ms.
Proof.
  intros Hn Hh Hr Hv.
  destruct (ValidateBlock_run _ _ _ _ Hn Hh Hv) as (Hnil & [o Ho] & _ & ms & Hrun & _).
  destruct (valid_supplement _ _ _ Hr Hv) as [Hb1 Hb2].
  unfold MidState_ApplyBlock. rewrite Hb1, Hb2, Hnil, Ho. rewrite andb_false_r.
  cbn [for_each mbind outcome_bind]. rewrite (run_apply _ _ _ _ Hrun). cbn [mbind outcome_bind].
  unfold create_all_immature. cbn [for_each].
  destruct (createImmature_total _ ms (MinerOutputID (Block_ID b) 0) o (run_diffs _ _ _ _ Hn Hrun))
    as [ms1 H1].
  rewrite H1. cbn [mbind outcome_bind].
  assert (ms_base ms1 = s) as ->
    by (rewrite (fr_base _ _ (createImmature_frame _ _ _ _ H1)); by eapply run_base).
  unfold FoundationSubsidy. rewrite (qday_isQday _ _ Hn). cbn [mbind outcome_bind]. by eexists.
Qed.

(** ** Ephemeral outputs *)

(** C40: a parent built by [EphemeralSiacoinOutput] is never accepted.  From the height of
    ephemeral outputs on, which is 1 on every QDAY network, an input of an accepted block that
    spends an output without a leaf carries the height of the block as the maturity of its
    parent.  The parent that the helper builds, from whatever transaction, carries maturity
    zero: [ValidateBlock] accepts no block with an input on it. *)
Theorem ephemeral_helper_rejected s p b bs pre txn post sci :
  n_Qday (s_Network s) = Some p -> 0 < childHeight s ->
  n_V2_EphemeralOutputHeight (s_Network s) <= childHeight s ->
  V2Transactions b = pre ++ txn :: post -> sci ∈ v2tx_SiacoinInputs txn ->
  (ValidateBlock s b bs = Ok tt -> se_LeafIndex (sce_StateElement (v2sci_Parent sci)) = UnassignedLeafIndex ->
   sce_MaturityHeight (v2sci_Parent sci) = childHeight s) /\
  (forall T k, EphemeralSiacoinOutput T k = Ok (v2sci_Parent sci) -> ValidateBlock s b bs <> Ok tt).
Proof.
  intros Hn Hh Heh Hl Hsci.
  assert (ValidateBlock s b bs = Ok tt -> se_LeafIndex (sce_StateElement (v2sci_Parent sci)) = UnassignedLeafIndex ->
    sce_MaturityHeight (v2sci_Parent sci) = childHeight s) as Hm.
  { intros Hv Hu. destruct (ValidateBlock_run _ _ _ _ Hn Hh Hv) as (_ & _ & _ & ms & Hrun & _).
    destruct (run_split _ _ _ _ Hrun _ _ _ Hl) as (t & t' & Ht & _ & [Hb|(e & He & Hc)]).
    { rewrite (ba_inputs _ Hb) in Hsci. by apply not_elem_of_nil in Hsci. }
    apply validateV2Siacoins_inputs in Hc as [Hin _]. destruct (Hin sci Hsci) as [Hsp _ [[_ Hp]|[Hp _]] _ _]; [|done].
    by destruct (ephemeral_created _ _ _ _ _ Hn Ht Heh Hsp Hp) as (T & k & out & _ & _ & _ & _ & H). }
  split; [exact Hm|]. intros T k HT Hv. unfold EphemeralSiacoinOutput in HT.
  destruct (v2tx_SiacoinOutputs T !! k) as [out|]; [|done]. injection HT as HT.
  specialize (Hm Hv). rewrite <- HT in Hm. specialize (Hm eq_refl). cbn in Hm. lia.
Qed.
End Blocks.

(** ** The sample block *)
Lemma sample_typed : block_typed SampleChain.block1.
Proof.
  split.
  - intros txn Hin. apply txn_typedb_ok.
    assert (forallb txn_typedb (V2Transactions SampleChain.block1) = true) as H
      by vm_cast_no_check (eq_refl true).
    rewrite forallb_forall in H. by apply H, list_elem_of_In.
  - intros o Hin. apply currency_okb_ok.
    assert (forallb (fun o => currency_okb (sco_Value o)) (b_MinerPayouts SampleChain.block1) = true)
      as H by vm_cast_no_check (eq_refl true).
    rewrite forallb_forall in H. by apply H, list_elem_of_In.
Qed.

Lemma valid_block_no_double_spend_witness :
  NoDup (map (fun i => sce_ID (v2sci_Parent i))
    (flat_map v2tx_SiacoinInputs (V2Transactions SampleChain.block1))).
Proof.
  exact (valid_block_no_double_spend (crypto:=Sample.crypto) (edwards:=SampleChain.edwards)
    SampleChain.tip SampleChain.params SampleChain.block1 SampleChain.no_supplement eq_refl eq_refl
    SampleChain.block1_valid).
Defined.

Lemma valid_block_inputs_exist_witness :
  exists sci, sci ∈ v2tx_SiacoinInputs SampleChain.transfer2 /\
  (containsUnspentSiacoinElement (crypto:=Sample.crypto) (s_Elements SampleChain.tip)
     (SiacoinElement_Share (v2sci_Parent sci)) = true \/
   exists T k out, T ∈ [SampleChain.coinbase; SampleChain.transfer1] /\
     v2tx_SiacoinOutputs T !! k = Some out /\
     sce_ID (v2sci_Parent sci) = V2SiacoinOutputID (crypto:=Sample.crypto)
       (V2Transaction_ID (crypto:=Sample.crypto) T) k /\
     sce_SiacoinOutput (v2sci_Parent sci) = out /\
     sce_MaturityHeight (v2sci_Parent sci) = childHeight SampleChain.tip).
Proof.
  destruct (v2tx_SiacoinInputs SampleChain.transfer2) as [|sci l] eqn:E; [discriminate E|].
  exists sci. split; [constructor|].
  apply (valid_block_inputs_exist (crypto:=Sample.crypto) (edwards:=SampleChain.edwards)
    SampleChain.tip SampleChain.params SampleChain.block1 SampleChain.no_supplement
    [SampleChain.coinbase; SampleChain.transfer1] SampleChain.transfer2 []).
  - reflexivity.
  - reflexivity.
  - by vm_compute.
  - exact SampleChain.block1_valid.
  - reflexivity.
  - rewrite E. constructor.
Defined.

Lemma valid_block_no_inflation_witness :
  total (values (b_MinerPayouts SampleChain.block1)) = reward_val SampleChain.tip +
    sum_Z (map (fun txn => Currency.val (v2tx_MinerFee txn)) (V2Transactions SampleChain.block1)) /\
  sum_Z (map outputs_total (V2Transactions SampleChain.block1)) +
    total (values (b_MinerPayouts SampleChain.block1)) <=
    reward_val SampleChain.tip +
    sum_Z (map (spendable_total SampleChain.tip SampleChain.params) (V2Transactions SampleChain.block1)).
Proof.
  apply (valid_block_no_inflation (crypto:=Sample.crypto) (edwards:=SampleChain.edwards)
    SampleChain.tip SampleChain.params SampleChain.block1 SampleChain.no_supplement).
  - apply sample_state.
  - apply currency_okb_ok. reflexivity.
  - reflexivity.
  - apply sample_typed.
  - exact SampleChain.block1_valid.
Defined.

Lemma activation_once_witness : exists s' au,
  SampleChain.after_block1 = Ok (s', au) /\ s_QdayHeight s' = 2 /\
  exists txn, txn ∈ V2Transactions SampleChain.block1 /\ is_canary_proof txn = true.
Proof.
  destruct SampleChain.block1_applies as (s' & au & H & Hq). exists s', au.
  split; [exact H|]. split; [exact Hq|].
  destruct (activation_once (crypto:=Sample.crypto) (edwards:=SampleChain.edwards)
    SampleChain.tip SampleChain.params SampleChain.block1 SampleChain.no_supplement
    SampleChain.timestamp s' au eq_refl eq_refl SampleChain.block1_valid H) as [_ H2].
  destruct (H2 eq_refl) as [[_ Hz]|(txn & e & Hin & Hf & _)].
  - rewrite Hq in Hz. discriminate Hz.
  - exists txn. split; [exact Hin|].
    assert (In txn (List.filter is_canary_proof (V2Transactions SampleChain.block1))) as Hx
      by (rewrite Hf; left; reflexivity).
    apply filter_In in Hx as [_ Hx]. exact Hx.
Defined.

Lemma valid_block_applies_witness :
  exists ms, MidState_ApplyBlock (crypto:=Sample.crypto) (NewMidState SampleChain.tip)
    SampleChain.block1 SampleChain.no_supplement = Ok ms.
Proof.
  apply (valid_block_applies (crypto:=Sample.crypto) (edwards:=SampleChain.edwards)
    SampleChain.tip SampleChain.params).
  - reflexivity.
  - reflexivity.
  - by vm_compute.
  - exact SampleChain.block1_valid.
Defined.

(** The sample block spends the change of its first transfer with maturity 1; with the parent
    that [EphemeralSiacoinOutput] builds for the same output the block is refused. *)
Definition helper_parent : SiacoinElement :=
  {| sce_ID := sce_ID SampleChain.change; sce_StateElement := unassigned;
     sce_SiacoinOutput := SampleChain.pay 199999; sce_MaturityHeight := 0 |}.
Definition helper_input : V2SiacoinInput :=
  {| v2sci_Parent := helper_parent; v2sci_SatisfiedPolicy := SampleChain.no_policy |}.
Definition helper_transfer : V2Transaction :=
  {| v2tx_SiacoinInputs := [helper_input]; v2tx_SiacoinOutputs := v2tx_SiacoinOutputs SampleChain.transfer2;
     v2tx_SiafundInputs := []; v2tx_SiafundOutputs := []; v2tx_FileContracts := []; v2tx_FileContractRevisions := [];
     v2tx_FileContractResolutions := []; v2tx_Attestations := [];
     v2tx_ArbitraryData := v2tx_ArbitraryData SampleChain.transfer2; v2tx_NewFoundationAddress := None;
     v2tx_MinerFee := v2tx_MinerFee SampleChain.transfer2 |}.
Definition helper_block : Block :=
  {| b_ParentID := b_ParentID SampleChain.block1; b_Nonce := b_Nonce SampleChain.block1;
     b_Timestamp := b_Timestamp SampleChain.block1; b_MinerPayouts := b_MinerPayouts SampleChain.block1;
     b_Transactions := []; b_V2 := Some {| v2b_Height := 1; v2b_Commitment := zeroHash;
       v2b_Transactions := [SampleChain.coinbase; SampleChain.transfer1; helper_transfer] |} |}.
Lemma ephemeral_helper_rejected_witness :
  EphemeralSiacoinOutput (crypto:=Sample.crypto) SampleChain.transfer1 1 = Ok helper_parent /\
  ValidateBlock (crypto:=Sample.crypto) (edwards:=SampleChain.edwards) SampleChain.tip helper_block
    SampleChain.no_supplement <> Ok tt.
Proof.
  assert (EphemeralSiacoinOutput (crypto:=Sample.crypto) SampleChain.transfer1 1 = Ok helper_parent) as He by reflexivity.
  split; [exact He|].
  apply (proj2 (ephemeral_helper_rejected (crypto:=Sample.crypto) (edwards:=SampleChain.edwards) SampleChain.tip SampleChain.params
    helper_block SampleChain.no_supplement [SampleChain.coinbase; SampleChain.transfer1] helper_transfer [] helper_input
    eq_refl eq_refl ltac:(by vm_compute) eq_refl ltac:(constructor)) SampleChain.transfer1 1%nat He).
Defined.
