(* ===== verification/ConsensusPanicSpec.v ===== *)
(** * Validating a QDAY transaction never panics

    The checks of [ValidateV2Transaction] as equations on well-typed plain transfers: what it
    computes, that it returns [nil] or an error, and when it returns [nil]. *)
From stdpp Require Import prelude strings gmap.
From Stdlib Require Import ZArith Lia.
From S2P Require Import Prelude TypesCurrency TypesData TypesEncoding TypesHash TypesPolicy.
From S2P Require Import TypesPolicySpec ConsensusWork ConsensusState ConsensusMerkle ConsensusQday.
From S2P Require Import ConsensusQdaySpec ConsensusMidState ConsensusApply.
From S2P Require Import ConsensusValidateV1 ConsensusValidate ConsensusValidateSpec SampleCrypto ChainQday SampleChain.

(** ** Outcomes without a panic *)
Definition quiet {A} (r : outcome A) : Prop := match r with Panic _ => False | _ => True end.

Create HintDb quiet.
Lemma quiet_Ok {A} (x : A) : quiet (Ok x).
Proof. done. Qed.
Lemma quiet_Err {A} e : quiet (@Err A e).
Proof. done. Qed.
Lemma quiet_fail_if c msg : quiet (fail_if c msg).
Proof. by destruct c. Qed.
Lemma quiet_bind {A B} (m : outcome A) (f : A -> outcome B) : quiet m -> (forall x, m = Ok x -> quiet (f x)) -> quiet (m ≫= f).
Proof. destruct m; cbn; auto. Qed.
Lemma quiet_wrap {A} msg (m : outcome A) : quiet m -> quiet (wrap_err msg m).
Proof. by destruct m. Qed.
Lemma quiet_for_each {A St} (l : list A) i (s : St) body : (forall j x t, x ∈ l -> quiet (body j x t)) ->
  quiet (for_each l i s body).
Proof.
  revert i s. induction l as [|x l IH]; intros i s Hb; [done|]. cbn [for_each]. apply quiet_bind; [apply Hb; by left|].
  intros t _. apply IH. intros j y u Hy. apply Hb. by right.
Qed.
#[export] Hint Resolve quiet_Ok quiet_Err quiet_fail_if quiet_wrap : quiet.

Lemma parse_keys_quiet n i b : quiet (parse_keys n i b).
Proof.
  revert i. induction n as [|n IH]; intros i; cbn [parse_keys]; [done|]. apply quiet_bind; [apply quiet_fail_if|].
  intros _ _. apply quiet_bind; [apply IH|done].
Qed.
Lemma ParseQdayEnvelope_quiet b : quiet (ParseQdayEnvelope b).
Proof.
  unfold ParseQdayEnvelope. apply quiet_bind; [auto with quiet|]. intros _ _. apply quiet_bind; [auto with quiet|].
  intros _ _. apply quiet_bind; [apply parse_keys_quiet|done].
Qed.

(** ** Sums that fit *)
Lemma sum_Z_nonneg {A} (g : A -> Z) l : (forall x, x ∈ l -> 0 <= g x) -> 0 <= sum_Z (map g l).
Proof.
  induction l as [|x l IH]; intros H; [done|]. cbn. unfold sum_Z in *. pose proof (H x ltac:(by left)).
  assert (0 <= foldr Z.add 0 (map g l)); [|lia]. apply IH. intros y Hy. apply H. by right.
Qed.

Lemma for_each_sum_ok {A} (f : A -> outcome Currency) (g : A -> Z) (l : list A) i start :
  (forall x, x ∈ l -> 0 <= g x < two128 /\ f x = Ok (Currency.of_Z (g x))) -> 0 <= start -> start + sum_Z (map g l) < two128 ->
  for_each l i (Currency.of_Z start) (fun _ x sum => v ← f x; Currency.Add sum v) = Ok (Currency.of_Z (start + sum_Z (map g l))).
Proof.
  revert i start. induction l as [|x l IH]; intros i start Hf Hs Hlt; cbn [for_each].
  { f_equal. f_equal. cbn. lia. }
  destruct (Hf x ltac:(by left)) as [Hx ->]. cbn [mbind outcome_bind].
  assert (0 <= sum_Z (map g l)) as Hl by (apply sum_Z_nonneg; intros y Hy; apply Hf; by right).
  cbn in Hlt. unfold sum_Z in *. rewrite Currency.Add_ok, !Currency.val_of_Z by (apply Currency.of_Z_ok || (rewrite ?Currency.val_of_Z by lia; lia) || lia).
  cbn [mbind outcome_bind]. rewrite IH; [f_equal; f_equal; cbn; lia| |lia|cbn in *; lia].
  intros y Hy. apply Hf. by right.
Qed.

Section Eval.
Context {crypto : Crypto} {edwards : Edwards25519}.
Context (ms : MidState) (p : QdayParams) (txn : V2Transaction).
Context (Hs : qday_state (ms_base ms) p) (Ht : txn_typed txn).

Lemma v2InputSum_ok : nominal_total txn < two128 ->
  v2InputSum ms txn = Ok (Currency.of_Z (spendable_total (ms_base ms) p txn)).
Proof.
  intros Hlt. unfold v2InputSum, spendable_total. change Currency.ZeroCurrency with (Currency.of_Z 0).
  rewrite (for_each_sum_ok _ (fun i => spendable (ms_base ms) p (v2sci_Parent i) (childHeight (ms_base ms)))); [done| |lia|].
  - intros i Hi. destruct (ty_inputs _ Ht i Hi) as [Hok Hm]. destruct Hs as [Hn Hsch Hq].
    pose proof (spendable_bounds (ms_base ms) p (v2sci_Parent i) (childHeight (ms_base ms)) Hsch Hok).
    pose proof (Currency.ok_val _ Hok). split; [lia|]. apply QdayValue_spendable; try done. apply u64_range.
  - pose proof (spendable_nominal (ms_base ms) p txn (qs_schedule _ _ Hs) Ht). unfold spendable_total in *. lia.
Qed.

Lemma output_loop l n acc : (forall o, o ∈ l -> Currency.ok (sco_Value o)) -> 0 <= acc ->
  acc + total (values l) < two128 ->
  for_each l n (Currency.of_Z acc) (fun _ out sum =>
    _ ← fail_if (Currency.IsZero (sco_Value out)) "siacoin output has zero value"; Currency.Add sum (sco_Value out)) =
  if existsb (fun o => Currency.IsZero (sco_Value o)) l
  then Err "siacoin output has zero value" else Ok (Currency.of_Z (acc + total (values l))).
Proof.
  unfold total, values. rewrite map_map. revert acc n.
  induction l as [|o l IH]; intros acc n Ho H0 Hlt; cbn [for_each existsb map]; [cbn; do 2 f_equal; lia|].
  destruct (Currency.IsZero (sco_Value o)); cbn [fail_if mbind outcome_bind orb]; [done|].
  pose proof (Currency.ok_val _ (Ho o ltac:(by left))) as Hov.
  assert (0 <= sum_Z (map (fun x => Currency.val (sco_Value x)) l)) as Hnn.
  { apply sum_Z_nonneg. intros y Hy. apply Currency.ok_val. apply Ho. by right. }
  cbn in Hlt. unfold sum_Z in *.
  rewrite Currency.Add_ok by (try apply Currency.of_Z_ok; try (apply Ho; by left); rewrite Currency.val_of_Z; lia).
  cbn [mbind outcome_bind]. rewrite Currency.val_of_Z by lia. rewrite IH; [|intros y Hy; apply Ho; by right|lia|cbn in *; lia].
  destruct (existsb _ l); [done|]. do 2 f_equal. cbn. lia.
Qed.
Lemma v2OutputSum_eval : outputs_total txn < two128 -> v2OutputSum txn =
  if existsb (fun o => Currency.IsZero (sco_Value o)) (v2tx_SiacoinOutputs txn)
  then Err "siacoin output has zero value" else Ok (Currency.of_Z (outputs_total txn)).
Proof.
  intros Hlt. unfold v2OutputSum. change Currency.ZeroCurrency with (Currency.of_Z 0).
  rewrite output_loop; [done|apply Ht|lia|unfold outputs_total in Hlt; lia].
Qed.

Lemma overflow_sum_eval l acc : Forall Currency.ok l -> 0 <= acc < two128 ->
  snd (overflow_sum l (Currency.of_Z acc, false)) = (two128 <=? acc + total l) /\
  (acc + total l < two128 -> overflow_sum l (Currency.of_Z acc, false) = (Currency.of_Z (acc + total l), false)).
Proof.
  intros Hl. revert acc. unfold total. induction Hl as [|c l Hc Hl IH]; intros acc Ha.
  { cbn. split; [symmetry; apply Z.leb_gt; lia|]. intros _. do 2 f_equal. lia. }
  pose proof (Currency.ok_val _ Hc). cbn [map overflow_sum foldl].
  assert (0 <= sum_Z (map Currency.val l)) as Hnn.
  { apply sum_Z_nonneg. intros y Hy. apply Currency.ok_val. rewrite Forall_forall in Hl. by apply Hl. }
  unfold overflow_add at 2 4. rewrite Currency.AddWithOverflow_spec by (done || apply Currency.of_Z_ok).
  rewrite Currency.val_of_Z by lia. unfold sum_Z in *. cbn [foldr].
  destruct (Z.leb_spec two128 (acc + Currency.val c)).
  - assert (forall k, overflow_sum l (k, true) = (k, true)) as E.
    { intros k. unfold overflow_sum. clear. induction l as [|x l IHl]; [done|]. cbn. exact IHl. }
    unfold overflow_sum in E. rewrite E. cbn [snd]. split; [symmetry; apply Z.leb_le; lia|lia].
  - specialize (IH (acc + Currency.val c) ltac:(lia)). rewrite !Z.add_assoc. exact IH.
Qed.

Lemma validateV2CurrencyOverflow_eval : qdayUnsupported txn = false ->
  validateV2CurrencyOverflow ms txn =
  fail_if (two128 <=? outputs_total txn + Currency.val (v2tx_MinerFee txn)) "transaction outputs exceed inputs".
Proof.
  intros Hu. apply qdayUnsupported_nil in Hu as (_ & Esf & Efc & Ere & Eres & _ & _).
  unfold validateV2CurrencyOverflow. rewrite Esf, Efc, Ere, Eres. cbn [for_each foldl mbind outcome_bind].
  f_equal. assert (Forall Currency.ok (values (v2tx_SiacoinOutputs txn))) as Hl.
  { unfold values. apply Forall_map, Forall_forall. intros o Ho. by apply (ty_outputs _ Ht). }
  change Currency.ZeroCurrency with (Currency.of_Z 0). destruct (overflow_sum_eval _ 0 Hl ltac:(lia)) as [E1 E2].
  pose proof (Currency.ok_val _ (ty_fee _ Ht)) as Hf. unfold outputs_total. rewrite Z.add_0_l in E1, E2.
  destruct (Z.leb_spec two128 (total (values (v2tx_SiacoinOutputs txn)))) as [Hle|Hlt].
  - destruct (overflow_sum _ _) as [c o]. cbn in E1. subst o. cbn. symmetry. apply Z.leb_le. lia.
  - rewrite E2 by done. unfold overflow_add. rewrite Currency.AddWithOverflow_spec by (apply Currency.of_Z_ok || apply Ht).
    rewrite Currency.val_of_Z; [done|]. split; [|done]. unfold total. apply sum_Z_nonneg. intros c Hc. apply Currency.ok_val.
    rewrite Forall_forall in Hl. by apply Hl.
Qed.

(** A plain transfer is checked input by input and then by value. *)
Lemma validateV2Siacoins_eval : qdayUnsupported txn = false -> nominal_total txn < two128 ->
  outputs_total txn + Currency.val (v2tx_MinerFee txn) < two128 ->
  validateV2Siacoins ms txn =
    (_ ← for_each (v2tx_SiacoinInputs txn) 0 ∅
           (fun _ sci spent => validateV2SiacoinInput ms (InputSigHash (ms_base ms) txn) sci spent);
     _ ← fail_if (existsb (fun o => Currency.IsZero (sco_Value o)) (v2tx_SiacoinOutputs txn)) "siacoin output has zero value";
     fail_if (spendable_total (ms_base ms) p txn <? outputs_total txn + Currency.val (v2tx_MinerFee txn))
       "siacoin inputs do not equal outputs").
Proof.
  intros Hu Hin Hout. pose proof (Currency.ok_val _ (ty_fee _ Ht)) as Hfee.
  apply qdayUnsupported_nil in Hu as (_ & _ & Efc & _ & Eres & _ & _).
  assert (0 <= outputs_total txn) as Hnn.
  { unfold outputs_total, total, values. rewrite map_map. apply sum_Z_nonneg. intros o Ho. apply Currency.ok_val.
    by apply (ty_outputs _ Ht). }
  assert (0 <= spendable_total (ms_base ms) p txn < two128) as Hsp.
  { split; [|pose proof (spendable_nominal (ms_base ms) p txn (qs_schedule _ _ Hs) Ht); lia].
    apply sum_Z_nonneg. intros i Hi. destruct (ty_inputs _ Ht i Hi) as [Hok _].
    apply (spendable_bounds (ms_base ms) p (v2sci_Parent i) (childHeight (ms_base ms)) (qs_schedule _ _ Hs) Hok). }
  unfold validateV2Siacoins. rewrite v2InputSum_ok, v2OutputSum_eval, Efc, Eres by lia.
  destruct (for_each _ _ _ _) as [sp| |]; [|done|done]. cbn [mbind outcome_bind for_each].
  destruct (existsb _ _); [done|]. cbn [mbind outcome_bind fail_if].
  rewrite Currency.Add_ok by (try apply Currency.of_Z_ok; try apply Ht; rewrite Currency.val_of_Z; lia).
  cbn [mbind outcome_bind]. rewrite (Currency.val_of_Z (outputs_total txn)) by lia. f_equal.
  rewrite (qday_isQday _ _ (qs_net _ _ Hs)). cbn [negb orb].
  rewrite Currency.Cmp_spec, !Currency.val_of_Z by (apply Currency.of_Z_ok || lia).
  destruct (Z.ltb_spec (spendable_total (ms_base ms) p txn) (outputs_total txn + Currency.val (v2tx_MinerFee txn))) as [H|H].
  - destruct (Z.eqb_spec (spendable_total (ms_base ms) p txn) (outputs_total txn + Currency.val (v2tx_MinerFee txn))); [lia|].
    rewrite bool_decide_eq_false_2; [done|]. intros E. apply (f_equal Currency.val) in E. rewrite !Currency.val_of_Z in E by lia. lia.
  - destruct (Z.eqb_spec (spendable_total (ms_base ms) p txn) (outputs_total txn + Currency.val (v2tx_MinerFee txn))) as [E|_].
    + rewrite E, bool_decide_eq_true_2 by done. done.
    + apply andb_false_r.
Qed.

(** ** No panic *)
Section VerifyQuiet.
Context (height : Z) (median : Time) (sigHash : Hash256).
Abbreviation quiet_policy sp := (forall st, quiet (verify height median sigHash sp st)).

Lemma verify_children_quiet n l k st : Forall (fun sp => quiet_policy sp) l ->
  quiet (verify_children (verify height median sigHash) n l k st).
Proof.
  intros Hl. revert k st. induction Hl as [|sp l Hsp Hl IH]; intros k st; cbn [verify_children]; [by case_match|].
  destruct sp; try done; try (apply IH); (destruct (_ =? _); [done|apply quiet_bind; [apply Hsp|intros; apply IH]]).
Qed.
Lemma threshold_quiet n l : Forall (fun sp => quiet_policy sp) l -> quiet_policy (PolicyTypeThreshold n l).
Proof. intros Hl st. cbn [verify]. destruct (_ || _); [done|by apply verify_children_quiet]. Qed.
Lemma key_quiet k : quiet_policy (PolicyTypePublicKey k).
Proof. intros st. cbn. by repeat case_match. Qed.
Lemma reserve_quiet k : quiet_policy (PolicyTypeSLHDSA k).
Proof. intros st. cbn [verify]. by case_match. Qed.
Lemma opaque_quiet a : quiet_policy (PolicyTypeOpaque a).
Proof. done. Qed.
Lemma lock_quiet lock : is_lock lock -> quiet_policy lock.
Proof. destruct lock; try done; intros _ st; cbn; unfold verify_above; by repeat case_match. Qed.
#[local] Hint Resolve key_quiet reserve_quiet lock_quiet opaque_quiet : quiet.
Lemma branch_quiet k lock : is_lock lock -> quiet_policy (swap_branch k lock).
Proof. intros Hl. apply threshold_quiet. repeat constructor; auto with quiet. Qed.

Lemma Verify_quiet pol sigs pres : IsQdayNativePolicy pol = true \/ IsQdaySwapSpendPolicy pol = true ->
  quiet (Verify height median sigHash pol sigs pres).
Proof.
  intros H. unfold Verify. apply quiet_bind; [|intros st _; apply quiet_bind; auto with quiet].
  generalize (mkV sigs pres 0). change (quiet_policy pol). destruct H as [H|H].
  - apply native_shape in H as [k ->]. apply threshold_quiet. repeat constructor; auto with quiet.
  - apply swap_shape in H as (k & lock & Hr & Hl).
    inversion Hr; subst; apply threshold_quiet; repeat constructor; auto using branch_quiet with quiet.
Qed.
End VerifyQuiet.

Lemma validateV2SiacoinInput_quiet h sci spent : quiet (medianTimestamp (ms_base ms)) ->
  IsQdayNativePolicy (sat_Policy (v2sci_SatisfiedPolicy sci)) = true \/
  IsQdaySwapSpendPolicy (sat_Policy (v2sci_SatisfiedPolicy sci)) = true ->
  quiet (validateV2SiacoinInput ms h sci spent).
Proof.
  intros Hm Hp. unfold validateV2SiacoinInput. do 3 (apply quiet_bind; [auto with quiet|]; intros _ _).
  apply quiet_bind; [|intros _ _; apply quiet_bind; [|done]].
  - destruct (_ =? _); [|by repeat case_match]. apply quiet_wrap. unfold validateEphemeralSiacoinElement.
    destruct (ms_elements ms !! _ ≫= _); [|done]. destruct (_ <? _); [done|].
    do 2 (apply quiet_bind; [auto with quiet|]; intros _ _). auto with quiet.
  - apply quiet_wrap. unfold validateV2SpendPolicy. apply quiet_bind; [auto with quiet|]. intros _ _.
    apply quiet_bind; [done|]. intros median _. by apply quiet_wrap, Verify_quiet.
Qed.

Lemma validateQdayTransaction_quiet : quiet (validateQdayTransaction ms txn).
Proof.
  unfold validateQdayTransaction. rewrite (qs_net _ _ Hs). apply quiet_bind; [apply ParseQdayEnvelope_quiet|]. intros e _.
  do 3 (apply quiet_bind; [auto with quiet|]; intros _ _). apply quiet_bind.
  { destruct (_ =? _); [|done]. apply quiet_bind; auto with quiet. }
  intros _ _. apply quiet_bind; [auto with quiet|]. intros _ _. apply quiet_bind.
  { apply quiet_for_each. intros j i [] _. destruct (IsQdayNativePolicy _); auto with quiet. }
  intros _ _. destruct (QdayActive _ _); [|done]. unfold QdayWorkIntent. rewrite (qs_net _ _ Hs).
  apply quiet_bind; auto with quiet.
Qed.

Lemma plain_rest_ok : qdayUnsupported txn = false ->
  (_ ← validateV2Siafunds ms txn; _ ← validateV2FileContracts ms txn; _ ← validateAttestations txn;
   validateFoundationUpdate ms txn) = Ok tt.
Proof.
  intros Hu. apply qdayUnsupported_nil in Hu as (E1 & E2 & E3 & E4 & E5 & E6 & E7).
  unfold validateV2Siafunds, validateV2FileContracts, validateAttestations, validateFoundationUpdate.
  by rewrite E1, E2, E3, E4, E5, E6, E7.
Qed.

(** The checks that follow those of [validateQdayTransaction]. *)
Lemma ValidateV2Transaction_eval : nominal_total txn < two128 ->
  ValidateV2Transaction ms txn =
    (_ ← validateQdayTransaction ms txn;
     _ ← fail_if (childHeight (ms_base ms) <? n_V2_AllowHeight (s_Network (ms_base ms)))
           "v2 transactions are not allowed until v2 hardfork begins";
     _ ← fail_if (two128 <=? outputs_total txn + Currency.val (v2tx_MinerFee txn)) "transaction outputs exceed inputs";
     _ ← fail_if (V2TransactionWeight txn =? 0) "transactions cannot be empty";
     _ ← fail_if (MaxBlockWeight <? V2TransactionWeight txn) "transaction exceeds maximum block weight";
     _ ← for_each (v2tx_SiacoinInputs txn) 0 ∅
           (fun _ sci spent => validateV2SiacoinInput ms (InputSigHash (ms_base ms) txn) sci spent);
     _ ← fail_if (existsb (fun o => Currency.IsZero (sco_Value o)) (v2tx_SiacoinOutputs txn)) "siacoin output has zero value";
     fail_if (spendable_total (ms_base ms) p txn <? outputs_total txn + Currency.val (v2tx_MinerFee txn))
       "siacoin inputs do not equal outputs").
Proof.
  intros Hn. unfold ValidateV2Transaction. rewrite (qday_isQday _ _ (qs_net _ _ Hs)).
  destruct (validateQdayTransaction ms txn) as [[]| |] eqn:E; [|done|done]. cbn [mbind outcome_bind].
  destruct (validateQdayTransaction_inv _ _ _ (qs_net _ _ Hs) E) as [e He]. pose proof (qt_plain _ _ _ _ He) as Hu.
  rewrite validateV2CurrencyOverflow_eval by done.
  destruct (_ <? n_V2_AllowHeight _); [done|]. cbn [fail_if mbind outcome_bind].
  destruct (Z.leb_spec two128 (outputs_total txn + Currency.val (v2tx_MinerFee txn))) as [|Hlt]; [done|]. cbn [fail_if mbind outcome_bind].
  destruct (V2TransactionWeight txn =? 0); [done|]. cbn [fail_if mbind outcome_bind].
  destruct (MaxBlockWeight <? _); [done|]. cbn [fail_if mbind outcome_bind].
  rewrite validateV2Siacoins_eval by done. destruct (for_each _ _ _ _) as [sp| |]; [|done|done]. cbn [mbind outcome_bind].
  destruct (existsb _ _); [done|]. cbn [fail_if mbind outcome_bind]. destruct (_ <? _); [done|]. cbn [fail_if mbind outcome_bind].
  by apply plain_rest_ok.
Qed.

Lemma ValidateV2Transaction_quiet : quiet (medianTimestamp (ms_base ms)) -> nominal_total txn < two128 ->
  quiet (ValidateV2Transaction ms txn).
Proof.
  intros Hm Hn. rewrite ValidateV2Transaction_eval by done. apply quiet_bind; [apply validateQdayTransaction_quiet|].
  intros [] E. destruct (validateQdayTransaction_inv _ _ _ (qs_net _ _ Hs) E) as [e He].
  do 4 (apply quiet_bind; [auto with quiet|]; intros _ _). apply quiet_bind; [|intros; apply quiet_bind; auto with quiet].
  apply quiet_for_each. intros j i sp Hi. apply validateV2SiacoinInput_quiet; [done|].
  destruct (qt_policy _ _ _ _ He i Hi) as [?|[_ ?]]; auto.
Qed.
End Eval.

(** C9: validation cannot be made to crash.  On a QDAY network, whatever intra-block state it
    has reached, [ValidateV2Transaction] returns [nil] or an error and never panics, for every
    transaction whose fields have their widths and whose inputs claim less than [2^128] in
    total. *)
Theorem v2_validation_never_panics {crypto : Crypto} {edwards : Edwards25519} (ms : MidState) (p : QdayParams) (txn : V2Transaction)
    (median : Time) :
  qday_state (ms_base ms) p -> medianTimestamp (ms_base ms) = Ok median -> txn_typed txn -> nominal_total txn < two128 ->
  ValidateV2Transaction ms txn = Ok tt \/ exists e, ValidateV2Transaction ms txn = Err e.
Proof.
  intros Hs Hm Ht Hn. pose proof (ValidateV2Transaction_quiet ms p txn Hs Ht ltac:(by rewrite Hm) Hn) as H.
  destruct (ValidateV2Transaction ms txn) as [[]|e|]; [by left|right; by exists e|done].
Qed.

Lemma tip_median : medianTimestamp SampleChain.tip = Ok SampleChain.timestamp.
Proof. vm_compute. reflexivity. Qed.

Lemma v2_validation_never_panics_witness :
  let r := ValidateV2Transaction (crypto:=Sample.crypto) (edwards:=SampleChain.edwards) (NewMidState SampleChain.tip)
             SampleChain.transfer1 in
  nominal_total SampleChain.transfer1 < two128 /\ (r = Ok tt \/ exists e, r = Err e).
Proof.
  intros r. assert (nominal_total SampleChain.transfer1 < two128) as Hn by (apply Z.ltb_lt; vm_cast_no_check (eq_refl true)).
  split; [exact Hn|]. subst r.
  exact (v2_validation_never_panics (crypto:=Sample.crypto) (edwards:=SampleChain.edwards) (NewMidState SampleChain.tip)
    SampleChain.params SampleChain.transfer1 SampleChain.timestamp sample_state tip_median transfer1_typed Hn).
Defined.
