(* ===== verification/MerkleForest.v ===== *)
(** * The forest of perfect Merkle trees over a list of leaf hashes

    The abstract contents of an [ElementAccumulator]: the nodes of the forest addressed by
    level and position, the sibling path of a leaf and the height at which two paths merge.
    [core/consensus/merkle.go] and [core/types/multiproof.go] are proved against it. *)
From stdpp Require Import prelude.
From Stdlib Require Import ZArith Lia.
From S2P Require Import Prelude TypesData TypesHash TypesMerkle ConsensusState ConsensusMerkle.
Local Open Scope nat_scope.

(** ** Positions *)

Definition sibling (j : nat) : nat := if Nat.odd j then j - 1 else j + 1.

(** The paths of leaves [a] and [b] meet in the node above level [h]. *)
Definition merge (a b h : nat) : Prop := a / 2 ^ S h = b / 2 ^ S h /\ a / 2 ^ h <> b / 2 ^ h.

Lemma pow2_nz i : 2 ^ i <> 0.
Proof. by apply Nat.pow_nonzero. Qed.

Lemma div_pow_succ k i : k / 2 ^ S i = k / 2 ^ i / 2.
Proof. rewrite Nat.pow_succ_r', Nat.mul_comm, Nat.Div0.div_div. done. Qed.

Lemma div_pow_add k i m : k / 2 ^ (i + m) = k / 2 ^ i / 2 ^ m.
Proof. rewrite Nat.pow_add_r, Nat.Div0.div_div. done. Qed.

(** Equal at a level, equal at every higher one. *)
Lemma div_pow_up a b i m : i <= m -> a / 2 ^ i = b / 2 ^ i -> a / 2 ^ m = b / 2 ^ m.
Proof. intros Hle H. replace m with (i + (m - i)) by lia. by rewrite !div_pow_add, H. Qed.

Lemma div_pow_le a b i : a <= b -> a / 2 ^ i <= b / 2 ^ i.
Proof. apply Nat.Div0.div_le_mono. Qed.

Lemma in_block k i j : k / 2 ^ i = j <-> j * 2 ^ i <= k < (j + 1) * 2 ^ i.
Proof.
  pose proof (pow2_nz i). pose proof (Nat.div_mod_eq k (2 ^ i)).
  pose proof (Nat.mod_upper_bound k (2 ^ i) ltac:(done)). split; intros ?; nia.
Qed.

Lemma testbit_odd n i : Nat.testbit n i = Nat.odd (n / 2 ^ i).
Proof. by rewrite Nat.testbit_odd, Nat.shiftr_div_pow2. Qed.

Lemma odd_half n : Nat.odd n = true -> n = 2 * (n / 2) + 1.
Proof. intros H. pose proof (Nat.div2_odd n) as E. rewrite H, Nat.div2_div in E. exact E. Qed.

Lemma even_half n : Nat.odd n = false -> n = 2 * (n / 2).
Proof. intros H. pose proof (Nat.div2_odd n) as E. rewrite H, Nat.div2_div in E. change (Nat.b2n false) with 0 in E. lia. Qed.

Lemma merge_sym a b h : merge a b h -> merge b a h.
Proof. intros [H1 H2]. split; congruence. Qed.

Lemma merge_unique a b h h' : merge a b h -> merge a b h' -> h = h'.
Proof.
  intros [H1 H2] [H3 H4]. destruct (Nat.lt_trichotomy h h') as [Hl|[->|Hl]]; [|done|]; exfalso.
  - apply H4. by apply (div_pow_up _ _ (S h)).
  - apply H2. by apply (div_pow_up _ _ (S h')).
Qed.

(** A smaller leaf merges from the left: at level [h] it is just below. *)
Lemma merge_lt k n h : merge k n h -> k < n ->
  Nat.odd (n / 2 ^ h) = true /\ n / 2 ^ h = k / 2 ^ h + 1.
Proof.
  intros [H1 H2] Hlt. rewrite !div_pow_succ in H1. pose proof (div_pow_le k n h ltac:(lia)).
  destruct (Nat.odd (n / 2 ^ h)) eqn:E; [apply odd_half in E|apply even_half in E];
    (destruct (Nat.odd (k / 2 ^ h)) eqn:E'; [apply odd_half in E'|apply even_half in E']); lia.
Qed.

Lemma merge_intro k n h : Nat.odd (n / 2 ^ h) = true -> n / 2 ^ h = k / 2 ^ h + 1 -> merge k n h.
Proof.
  intros H1 H2. split; [|lia]. rewrite !div_pow_succ. apply odd_half in H1.
  replace (k / 2 ^ h) with ((n / 2 ^ h / 2) * 2) by lia. by rewrite Nat.div_mul.
Qed.

Lemma log2_lxor_div (x y : Z) : (0 <= x)%Z -> (0 <= y)%Z -> x <> y ->
  (let h := Z.log2 (Z.lxor x y) in 0 <= h /\ x / 2 ^ (h + 1) = y / 2 ^ (h + 1) /\ x / 2 ^ h <> y / 2 ^ h)%Z.
Proof.
  intros Hx Hy Hne h. assert (0 <= Z.lxor x y)%Z by (apply Z.lxor_nonneg; tauto).
  assert (Z.lxor x y <> 0)%Z by (rewrite Z.lxor_eq_0_iff; done).
  pose proof (Z.log2_nonneg (Z.lxor x y)) as Hh. fold h in Hh.
  pose proof (Z.log2_spec (Z.lxor x y) ltac:(lia)) as [H1 H2]. fold h in H1, H2.
  split; [done|]. rewrite <- !Z.shiftr_div_pow2 by lia. split.
  - apply Z.lxor_eq. rewrite <- Z.shiftr_lxor, Z.shiftr_div_pow2 by lia. apply Z.div_small. lia.
  - intros E. apply Z.lxor_eq_0_iff in E. rewrite <- Z.shiftr_lxor, Z.shiftr_div_pow2 in E by lia.
    pose proof (Z.div_le_lower_bound (Z.lxor x y) (2 ^ h) 1 ltac:(lia) ltac:(lia)). lia.
Qed.

Lemma merge_exists a b : a <> b -> exists h, merge a b h /\
  mergeHeight (Z.of_nat a) (Z.of_nat b) = Z.of_nat (h + 1).
Proof.
  intros Hne. destruct (log2_lxor_div (Z.of_nat a) (Z.of_nat b)) as (H0 & H1 & H2); [lia..|].
  set (h := Z.log2 _) in *. exists (Z.to_nat h). assert (Z.of_nat (Z.to_nat h) = h) as Eh by lia. split.
  - unfold merge. rewrite <- Eh in H1, H2. replace (Z.of_nat (Z.to_nat h) + 1)%Z with (Z.of_nat (S (Z.to_nat h))) in H1 by lia.
    change 2%Z with (Z.of_nat 2) in H1, H2. rewrite <- !Nat2Z.inj_pow, <- !Nat2Z.inj_div in H1, H2.
    split; lia.
  - unfold mergeHeight, bits.Len64. rewrite (proj2 (Z.eqb_neq _ _)); [fold h; lia|].
    rewrite Z.lxor_eq_0_iff. lia.
Qed.

Lemma merge_height a b h : merge a b h ->
  mergeHeight (Z.of_nat a) (Z.of_nat b) = Z.of_nat (h + 1).
Proof.
  intros H. destruct (merge_exists a b) as (h' & H' & ->); [by intros ->; destruct H|].
  by rewrite (merge_unique _ _ _ _ H H').
Qed.

Lemma sibling_half j : sibling j / 2 = j / 2.
Proof.
  unfold sibling. destruct (Nat.odd j) eqn:E; [apply odd_half in E|apply even_half in E].
  - replace (j - 1) with (j / 2 * 2) by lia. by rewrite Nat.div_mul.
  - replace (j + 1) with (1 + j / 2 * 2) by lia. by rewrite Nat.div_add.
Qed.

Lemma sibling_odd b : 2 * b = sibling (2 * b + 1).
Proof. unfold sibling. rewrite Nat.odd_odd. lia. Qed.

Lemma sibling_even b : 2 * b + 1 = sibling (2 * b).
Proof. unfold sibling. by rewrite Nat.odd_even. Qed.

(** Leaves that merge above level [h] are in sibling subtrees at level [h]. *)
Lemma merge_sibling a b h : merge a b h -> b / 2 ^ h = sibling (a / 2 ^ h).
Proof.
  intros [H1 H2]. rewrite !div_pow_succ in H1. unfold sibling.
  destruct (Nat.odd (a / 2 ^ h)) eqn:E; [apply odd_half in E|apply even_half in E];
    (destruct (Nat.odd (b / 2 ^ h)) eqn:E'; [apply odd_half in E'|apply even_half in E']); lia.
Qed.

Lemma sibling_merge a b h : b / 2 ^ h = sibling (a / 2 ^ h) -> merge a b h.
Proof.
  intros H. split.
  - by rewrite !div_pow_succ, H, sibling_half.
  - rewrite H. unfold sibling. destruct (Nat.odd _) eqn:E; [apply odd_half in E|]; lia.
Qed.

(** ** Nodes and sibling paths *)
Section Forest.
Context {crypto : Crypto}.
Implicit Types L : list Hash256.

(** The node at level [i] and position [j]: the root over leaves [j*2^i .. (j+1)*2^i). *)
Definition node L (i j : nat) : Hash256 := perfect i (take (2 ^ i) (drop (j * 2 ^ i) L)).

(** The siblings on the path of leaf [k], from level [i] on for [m] levels. *)
Definition sibs L (k i m : nat) : list Hash256 :=
  map (fun l => node L l (sibling (k / 2 ^ l))) (seq i m).

(** The proof of leaf [k] in the forest over [L]: its siblings up to the root of its tree. *)
Definition forest_proof L (k : nat) (p : list Hash256) : Prop :=
  exists h, merge k (length L) h /\ p = sibs L k 0 h.

Lemma node_zero L j : node L 0 j = default zeroHash (L !! j).
Proof.
  unfold node. cbn [perfect Nat.pow]. rewrite Nat.mul_1_r.
  rewrite <- (Nat.add_0_r j) at 2. rewrite <- lookup_drop. by destruct (drop j L).
Qed.

Lemma node_succ L i j : node L (S i) j = SumPair (node L i (2 * j)) (node L i (2 * j + 1)).
Proof.
  unfold node at 1. cbn [perfect]. pose proof (pow2_nz i). rewrite Nat.pow_succ_r'. f_equal.
  - rewrite take_take, Nat.min_l by lia. unfold node. f_equal. f_equal. f_equal. lia.
  - rewrite skipn_firstn_comm, drop_drop. unfold node. f_equal. f_equal; [lia|]. f_equal. lia.
Qed.

Lemma node_agree L L' i j :
  (forall m, j * 2 ^ i <= m < (j + 1) * 2 ^ i -> L !! m = L' !! m) -> node L i j = node L' i j.
Proof.
  revert j. induction i as [|i IH]; intros j H.
  - rewrite !node_zero. rewrite H; [done|cbn; lia].
  - rewrite !node_succ. rewrite Nat.pow_succ_r' in H. f_equal; apply IH; intros m Hm; apply H; nia.
Qed.

Lemma node_app L X i j : (j + 1) * 2 ^ i <= length L -> node (L ++ X) i j = node L i j.
Proof. intros H. apply node_agree. intros m Hm. rewrite lookup_app_l; [done|lia]. Qed.

(** A changed leaf outside the block of a node does not change it. *)
Lemma node_insert_ne L k x i j : k / 2 ^ i <> j -> node (<[k := x]> L) i j = node L i j.
Proof.
  intros H. apply node_agree. intros m Hm. rewrite list_lookup_insert_ne; [done|].
  intros ->. apply H. by apply in_block.
Qed.

Lemma length_node `{!CryptoSizes} L i j : Forall (fun h => length h = 32) L -> length (node L i j) = 32.
Proof.
  intros HL. destruct i as [|i]; [|rewrite node_succ; apply blake2b_len].
  rewrite node_zero. destruct (L !! j) as [x|] eqn:E; [|done].
  exact (proj1 (Forall_lookup _ _) HL _ _ E).
Qed.

Lemma length_sibs L k i m : length (sibs L k i m) = m.
Proof. unfold sibs. by rewrite length_map, length_seq. Qed.

Lemma sibs_snoc L k i m : sibs L k i (S m) = sibs L k i m ++ [node L (i + m) (sibling (k / 2 ^ (i + m)))].
Proof. unfold sibs. by rewrite seq_S, map_app. Qed.

Lemma sibs_app L k i m n : sibs L k i (m + n) = sibs L k i m ++ sibs L k (i + m) n.
Proof. unfold sibs. by rewrite seq_app, map_app. Qed.

Lemma take_sibs L k i m n : n <= m -> take n (sibs L k i m) = sibs L k i n.
Proof.
  intros H. replace m with (n + (m - n)) by lia. rewrite sibs_app.
  by rewrite take_app_le, take_ge by (rewrite length_sibs; lia).
Qed.

Lemma drop_sibs L k i m n : n <= m -> drop n (sibs L k i m) = sibs L k (i + n) (m - n).
Proof.
  intros H. replace m with (n + (m - n)) at 1 by lia. rewrite sibs_app.
  by rewrite drop_app_length' by (by rewrite length_sibs).
Qed.

Lemma lookup_sibs L k i m l : l < m ->
  sibs L k i m !! l = Some (node L (i + l) (sibling (k / 2 ^ (i + l)))).
Proof.
  intros H. unfold sibs. rewrite list_lookup_fmap, lookup_seq_lt by done. done.
Qed.

Lemma sibs_agree L L' k i m :
  (forall l, i <= l < i + m -> node L l (sibling (k / 2 ^ l)) = node L' l (sibling (k / 2 ^ l))) ->
  sibs L k i m = sibs L' k i m.
Proof.
  intros H. unfold sibs. apply map_ext_in. intros l Hl%in_seq. apply H. lia.
Qed.

(** Leaves of one subtree have the same siblings above it. *)
Lemma sibs_same_block L k k' i m : k / 2 ^ i = k' / 2 ^ i -> sibs L k i m = sibs L k' i m.
Proof.
  intros H. unfold sibs. apply map_ext_in. intros l Hl%in_seq.
  by rewrite (div_pow_up k k' i l) by (done || lia).
Qed.

(** Climbing the siblings computes the ancestor. *)
Lemma proofRoot_sibs L k i m :
  proofRoot_from (Z.of_nat i) (node L i (k / 2 ^ i)) (Z.of_nat k) (sibs L k i m) =
  node L (i + m) (k / 2 ^ (i + m)).
Proof.
  revert i. induction m as [|m IH]; intros i; [by rewrite Nat.add_0_r|].
  change (sibs L k i (S m)) with (node L i (sibling (k / 2 ^ i)) :: sibs L k (S i) m).
  cbn [proofRoot_from]. rewrite has_bit_nat, testbit_odd.
  replace (Z.of_nat i + 1)%Z with (Z.of_nat (S i)) by lia.
  replace (i + S m) with (S i + m) by lia. rewrite <- IH. f_equal.
  rewrite node_succ, div_pow_succ. unfold sibling.
  destruct (Nat.odd (k / 2 ^ i)) eqn:E; [apply odd_half in E|apply even_half in E];
    f_equal; f_equal; lia.
Qed.

Lemma forest_proof_length L k p h : forest_proof L k p -> merge k (length L) h -> length p = h.
Proof. intros (h' & H & ->) Hm. rewrite length_sibs. by apply (merge_unique k (length L)). Qed.

Lemma forest_proof_eq L k p h : merge k (length L) h -> forest_proof L k p <-> p = sibs L k 0 h.
Proof.
  intros Hm. split; [|intros ->; by exists h]. intros (h' & H & ->).
  by rewrite (merge_unique _ _ _ _ H Hm).
Qed.
End Forest.

(** [represents acc L]: the accumulator is the forest over the leaf hashes [L].  The bound
    keeps the Go [int] arithmetic of [addLeaves] exact. *)
Record represents {crypto : Crypto} (acc : ElementAccumulator) (L : list Hash256) : Prop := {
  rep_num : ea_NumLeaves acc = zlen L;
  rep_trees : length (ea_Trees acc) = 64;
  rep_bound : (zlen L < 2 ^ 62)%Z;
  rep_tree : forall i, Nat.odd (length L / 2 ^ i) = true ->
    ea_Trees acc !! i = Some (node L i (length L / 2 ^ i - 1)) }.

(** ** Growing the forest by one leaf

    While leaf [N] is added, the trees below height [h] have been merged into the tree of the
    new leaf.  [level N h k m]: leaf [k] is then under a root of height [m]. *)
Definition level (N h k m : nat) : Prop :=
  (k / 2 ^ h = N / 2 ^ h /\ m = h) \/ (k / 2 ^ h <> N / 2 ^ h /\ merge k N m).

(** The [h] low bits of [N] are set. *)
Definition low_ones (N h : nat) : Prop := N + 1 = (N / 2 ^ h + 1) * 2 ^ h.

Lemma low_ones_0 N : low_ones N 0.
Proof. unfold low_ones. change (2 ^ 0) with 1. rewrite Nat.div_1_r. lia. Qed.

Lemma low_ones_succ N h : low_ones N h -> Nat.odd (N / 2 ^ h) = true -> low_ones N (S h).
Proof.
  unfold low_ones. intros H Ho. rewrite div_pow_succ, Nat.pow_succ_r'. apply odd_half in Ho. nia.
Qed.

Lemma low_ones_div N h : low_ones N h -> (N + 1) / 2 ^ h = N / 2 ^ h + 1.
Proof. unfold low_ones. intros ->. by rewrite Nat.div_mul by apply pow2_nz. Qed.

(** The blocks of size [2^h] at the end, by index comparison. *)
Lemma last_block N h k : low_ones N h -> k <= N -> k / 2 ^ h = N / 2 ^ h <-> N < k + 2 ^ h.
Proof. unfold low_ones. intros H Hk. pose proof (pow2_nz h). rewrite in_block. nia. Qed.

Lemma before_last_block N h k : low_ones N h -> 1 <= N / 2 ^ h ->
  k / 2 ^ h = N / 2 ^ h - 1 <-> N < k + 2 ^ S h /\ k + 2 ^ h <= N.
Proof.
  unfold low_ones. intros H Hk. pose proof (pow2_nz h). rewrite in_block, Nat.pow_succ_r'. nia.
Qed.

Lemma level_new N k m : k < N -> merge k N m -> level N 0 k m.
Proof. intros Hk Hm. right. split; [|done]. change (2 ^ 0) with 1. rewrite !Nat.div_1_r. lia. Qed.

Lemma level_last N h k m : level N h k m -> k / 2 ^ h = N / 2 ^ h -> m = h.
Proof. intros [[_ ->]|[H _]] E; done. Qed.

Lemma level_before N h k m : Nat.odd (N / 2 ^ h) = true -> level N h k m ->
  k / 2 ^ h = N / 2 ^ h - 1 -> m = h.
Proof.
  intros Ho [[E _]|[_ Hm]] E'; pose proof (odd_half _ Ho) as H; [lia|].
  apply (merge_unique k N); [done|]. apply merge_intro; [done|lia].
Qed.

Lemma level_merged N h k : Nat.odd (N / 2 ^ h) = true ->
  k / 2 ^ h = N / 2 ^ h \/ k / 2 ^ h = N / 2 ^ h - 1 -> level N (S h) k (S h).
Proof.
  intros Ho E. left. split; [|done]. rewrite !div_pow_succ. apply odd_half in Ho.
  destruct E as [->| ->]; [done|]. rewrite Ho at 1.
  replace (2 * (N / 2 ^ h / 2) + 1 - 1) with (N / 2 ^ h / 2 * 2) by lia. by rewrite Nat.div_mul.
Qed.

Lemma level_other N h k m : Nat.odd (N / 2 ^ h) = true -> level N h k m -> k <= N ->
  k / 2 ^ h <> N / 2 ^ h -> k / 2 ^ h <> N / 2 ^ h - 1 -> level N (S h) k m.
Proof.
  intros Ho [[E _]|[_ Hm]] Hk H1 H2; [done|]. right. split; [|done].
  rewrite !div_pow_succ. pose proof (div_pow_le k N h Hk). apply odd_half in Ho. intros E.
  pose proof (Nat.div_mod_eq (k / 2 ^ h) 2). pose proof (Nat.mod_upper_bound (k / 2 ^ h) 2). lia.
Qed.

Lemma carry_high N h l : low_ones N h -> Nat.odd (N / 2 ^ h) = false -> S h <= l ->
  (N + 1) / 2 ^ l = N / 2 ^ l.
Proof.
  intros Hl Ho Hlt. apply (div_pow_up _ _ (S h)); [done|]. rewrite !div_pow_succ, (low_ones_div _ _ Hl).
  apply even_half in Ho. rewrite Ho at 1.
  replace (2 * (N / 2 ^ h / 2) + 1) with (1 + N / 2 ^ h / 2 * 2) by lia. by rewrite Nat.div_add by lia.
Qed.

Lemma carry_low N h l : low_ones N h -> l < h -> Nat.odd ((N + 1) / 2 ^ l) = false.
Proof.
  unfold low_ones. intros -> Hlt. replace h with (S (h - l - 1) + l) at 2 by lia.
  rewrite Nat.pow_add_r, Nat.mul_assoc, Nat.div_mul by apply pow2_nz.
  rewrite Nat.pow_succ_r', Nat.odd_mul, Nat.odd_mul. cbn [Nat.odd Nat.even negb andb].
  apply andb_false_r.
Qed.

Lemma level_done N h k m : low_ones N h -> Nat.odd (N / 2 ^ h) = false -> k <= N ->
  level N h k m -> merge k (N + 1) m.
Proof.
  intros Hl Ho Hk. pose proof (low_ones_div _ _ Hl) as Hd. apply even_half in Ho as He.
  intros [[E ->]|[E Hm]].
  - apply merge_intro; [|lia]. rewrite Hd, Nat.odd_add, Ho. done.
  - assert (S h <= m) as Hm'.
    { destruct Hm as [H1 H2]. destruct (decide (m < h)) as [Hlt|].
      { exfalso. apply E. by apply (div_pow_up _ _ (S m)). }
      destruct (decide (m = h)) as [->|]; [|lia]. exfalso.
      assert (k < N) as Hlt by (destruct (decide (k = N)) as [->|]; [done|lia]).
      destruct (merge_lt k N h (conj H1 H2) Hlt) as [Ho' _]. congruence. }
    destruct Hm as [H1 H2]. split; rewrite (carry_high N h) by (done || lia); done.
Qed.

Section Grow.
Context {crypto : Crypto}.

(** Siblings below the root of the tree of [k] lie inside that tree. *)
Lemma sibling_inside k l m : l < m -> (sibling (k / 2 ^ l) + 1) * 2 ^ l <= (k / 2 ^ m + 1) * 2 ^ m.
Proof.
  intros H. replace m with (S l + (m - S l)) by lia. rewrite div_pow_add, Nat.pow_add_r.
  pose proof (pow2_nz l). pose proof (pow2_nz (m - S l)) as Hz.
  pose proof (Nat.div_mod_eq (k / 2 ^ S l) (2 ^ (m - S l))).
  pose proof (Nat.mod_upper_bound (k / 2 ^ S l) (2 ^ (m - S l)) Hz).
  assert ((sibling (k / 2 ^ l) + 1) <= (k / 2 ^ S l + 1) * 2) as Hs.
  { rewrite div_pow_succ, <- sibling_half. pose proof (Nat.div_mod_eq (sibling (k / 2 ^ l)) 2).
    pose proof (Nat.mod_upper_bound (sibling (k / 2 ^ l)) 2). lia. }
  set (q := k / 2 ^ S l) in *. set (B := 2 ^ (m - S l)) in *.
  assert (q + 1 <= (q / B + 1) * B) by nia. rewrite Nat.pow_succ_r'.
  transitivity ((q + 1) * 2 * 2 ^ l); [nia|].
  transitivity ((q / B + 1) * B * 2 * 2 ^ l); [nia|lia].
Qed.

Lemma sibs_app_leaves L X k b m : merge k (length L) m -> k < length L -> b <= m ->
  sibs (L ++ X) k b (m - b) = sibs L k b (m - b).
Proof.
  intros Hm Hk Hb. apply sibs_agree. intros l Hl. apply node_app.
  pose proof (sibling_inside k l m ltac:(lia)). destruct (merge_lt _ _ _ Hm Hk) as [_ E].
  pose proof (pow2_nz m). pose proof (Nat.div_mod_eq (length L) (2 ^ m)). nia.
Qed.

(** The tree that leaf [N] is merged with lies in the old forest. *)
Lemma old_root_app L x h : Nat.odd (length L / 2 ^ h) = true ->
  node L h (length L / 2 ^ h - 1) = node (L ++ [x]) h (length L / 2 ^ h - 1).
Proof.
  intros Ho%odd_half. symmetry. apply node_app. pose proof (pow2_nz h).
  pose proof (Nat.div_mod_eq (length L) (2 ^ h)). nia.
Qed.

(** [p] is the part above level [b] of the proof of leaf [k], in a settled forest and in the
    middle of adding leaf [N]. *)
Definition settled (L : list Hash256) (k b : nat) (p : list Hash256) : Prop :=
  exists m, merge k (length L) m /\ b <= m /\ p = sibs L k b (m - b).
Definition tracks (L' : list Hash256) (N h k b : nat) (p : list Hash256) : Prop :=
  exists m, level N h k m /\ b <= m /\ p = sibs L' k b (m - b).

Lemma settled_tracks L x k b p : k < length L -> settled L k b p ->
  tracks (L ++ [x]) (length L) 0 k b p.
Proof.
  intros Hk (m & Hm & Hb & ->). exists m. split; [by apply level_new|]. split; [done|].
  by rewrite sibs_app_leaves.
Qed.

Lemma tracks_new L' N : tracks L' N 0 N 0 [].
Proof. exists 0. split; [by left|]. done. Qed.

Lemma tracks_settled L x h k b p : low_ones (length L) h -> Nat.odd (length L / 2 ^ h) = false ->
  k <= length L -> tracks (L ++ [x]) (length L) h k b p -> settled (L ++ [x]) k b p.
Proof.
  intros Hl Ho Hk (m & Hm & Hb & ->). exists m. split; [|done]. rewrite length_app.
  by apply (level_done _ h).
Qed.

(** What one merge appends to the proof of leaf [k]. *)
Definition bump (N h k : nat) (oldRoot newRoot : Hash256) (p : list Hash256) : list Hash256 :=
  if decide (N < k + 2 ^ h) then p ++ [oldRoot]
  else if decide (N < k + 2 ^ S h) then p ++ [newRoot] else p.

Lemma tracks_bump L x h k b p : let N := length L in let L' := L ++ [x] in
  low_ones N h -> Nat.odd (N / 2 ^ h) = true -> k <= N -> tracks L' N h k b p ->
  tracks L' N (S h) k b (bump N h k (node L h (N / 2 ^ h - 1)) (node L' h (N / 2 ^ h)) p).
Proof.
  intros N L' Hl Ho Hk (m & Hm & Hb & ->). pose proof (odd_half _ Ho) as Hh. unfold bump.
  pose proof (old_root_app L x h Ho) as Er. fold N L' in Er. rewrite Er.
  assert (forall s, m = h -> node L' h s = node L' h (sibling (k / 2 ^ h)) ->
    (k / 2 ^ h = N / 2 ^ h \/ k / 2 ^ h = N / 2 ^ h - 1) ->
    tracks L' N (S h) k b (sibs L' k b (m - b) ++ [node L' h s])) as Happ.
  { intros s -> -> E. exists (S h). split; [by apply level_merged|]. split; [lia|].
    replace (S h - b) with (S (h - b)) by lia. rewrite sibs_snoc.
    by replace (b + (h - b)) with h by lia. }
  destruct (decide (N < k + 2 ^ h)) as [H1|H1];
    [apply (last_block N h k Hl Hk) in H1|rewrite <- (last_block N h k Hl Hk) in H1].
  { apply Happ; [by eapply level_last| |by left]. rewrite H1. unfold sibling. by rewrite Ho. }
  pose proof (before_last_block N h k Hl ltac:(lia)) as Hbl.
  rewrite (last_block N h k Hl Hk) in H1.
  destruct (decide (N < k + 2 ^ S h)) as [H2|H2].
  { assert (k / 2 ^ h = N / 2 ^ h - 1) as E by (apply Hbl; lia).
    apply Happ; [by eapply level_before| |by right]. rewrite E. unfold sibling.
    replace (Nat.odd (N / 2 ^ h - 1)) with false; [f_equal; lia|].
    rewrite Hh. replace (2 * (N / 2 ^ h / 2) + 1 - 1) with (2 * (N / 2 ^ h / 2)) by lia.
    by rewrite Nat.odd_even. }
  exists m. split; [|done]. apply level_other; [done..| |].
  - rewrite (last_block N h k Hl Hk). lia.
  - rewrite Hbl. lia.
Qed.
End Grow.
