(* ===== verification/ConsensusMerkleSpec.v ===== *)
(** * Correctness of the element accumulator ([core/consensus/merkle.go])

    Membership proofs are complete and sound, and adding, updating and reverting leaves keeps
    the accumulator and every proof in step with the abstract forest of [MerkleForest]. *)
From stdpp Require Import prelude strings.
From Stdlib Require Import ZArith Lia.
From S2P Require Import Prelude TypesData TypesEncoding TypesCodec TypesHash SampleCrypto TypesMerkle.
From S2P Require Import ConsensusState ConsensusMerkle MerkleForest.
Local Open Scope nat_scope.

(** ** Membership *)
Section Membership.
Context {crypto : Crypto}.

Lemma rep_has acc L h : represents acc L -> hasTreeAtHeight acc h = Nat.odd (length L / 2 ^ h).
Proof.
  intros H. unfold hasTreeAtHeight. rewrite (rep_num _ _ H). unfold zlen.
  by rewrite has_bit_nat, testbit_odd.
Qed.

(** A leaf of the forest, with its path, is accepted. *)
Lemma containsLeaf_complete acc L k l : represents acc L ->
  L !! k = Some (el_hash l) -> el_LeafIndex l = Z.of_nat k ->
  forest_proof L k (el_MerkleProof l) -> containsLeaf acc l = true.
Proof.
  intros Hrep Hl Hk (h & Hm & Hp). pose proof (lookup_lt_Some _ _ _ Hl) as Hlt.
  destruct (merge_lt _ _ _ Hm Hlt) as [Ho Hd].
  unfold containsLeaf. rewrite Hp, length_sibs, (rep_has _ _ _ Hrep), Ho. cbn [andb].
  apply bool_decide_true. rewrite (rep_tree _ _ Hrep _ Ho). f_equal.
  unfold el_proofRoot, proofRoot. rewrite Hk, Hp. change 0%Z with (Z.of_nat 0).
  replace (el_hash l) with (node L 0 (k / 2 ^ 0)) by (rewrite node_zero, Nat.div_1_r, Hl; done).
  rewrite proofRoot_sibs. cbn [Nat.add]. f_equal. lia.
Qed.

(** ** Soundness

    The strings hashed when the forest is built, and when a proof is checked. *)
Definition el_input (l : elementLeaf) : bytes :=
  [leafHashPrefix] ++ el_elementHash l ++ le_encode 8 (el_LeafIndex l) ++
  [if el_spent l then 1%Z else 0%Z].
Definition node_input (a b : Hash256) : bytes := nodeHashPrefix :: a ++ b.

Definition forest_input (LL : list elementLeaf) (x : bytes) : Prop :=
  (exists l, l ∈ LL /\ x = el_input l) \/
  (exists i j, (2 * j + 2) * 2 ^ i <= length LL /\
     x = node_input (node (map el_hash LL) i (2 * j)) (node (map el_hash LL) i (2 * j + 1))).

Fixpoint path_inputs (i : Z) (root : Hash256) (k : Z) (proof : list Hash256) : list bytes :=
  match proof with
  | [] => []
  | h :: proof' =>
      let x := if has_bit k i then node_input h root else node_input root h in
      x :: path_inputs (i + 1) (blake2b_Sum256 x) k proof'
  end.
Definition proof_inputs (l : elementLeaf) : list bytes :=
  el_input l :: path_inputs 0 (el_hash l) (el_LeafIndex l) (el_MerkleProof l).

(** Two different strings with one digest, one hashed by the forest, one by the proof. *)
Definition collision (LL : list elementLeaf) (l : elementLeaf) : Prop :=
  exists x y, forest_input LL x /\ y ∈ proof_inputs l /\ x <> y /\
    blake2b_Sum256 x = blake2b_Sum256 y.

(** Only the bits of the index along the path matter. *)
Lemma proofRoot_bits p i r k k' :
  (forall m, m < length p -> has_bit k (i + Z.of_nat m) = has_bit k' (i + Z.of_nat m)) ->
  proofRoot_from i r k p = proofRoot_from i r k' p /\ path_inputs i r k p = path_inputs i r k' p.
Proof.
  revert i r. induction p as [|h p IH]; intros i r H; [done|]. cbn [proofRoot_from path_inputs].
  assert (has_bit k i = has_bit k' i) as -> by (pose proof (H 0 ltac:(cbn; lia)) as E; by rewrite Z.add_0_r in E).
  destruct (IH (i + 1)%Z (if has_bit k' i then SumPair h r else SumPair r h)) as [-> _].
  { intros m Hm. pose proof (H (S m) ltac:(cbn; lia)) as E.
    replace (i + Z.of_nat (S m))%Z with (i + 1 + Z.of_nat m)%Z in E by lia. exact E. }
  split; [done|]. f_equal.
  edestruct (IH (i + 1)%Z) as [_ ->]; [|done].
  intros m Hm. pose proof (H (S m) ltac:(cbn; lia)) as E.
  replace (i + Z.of_nat (S m))%Z with (i + 1 + Z.of_nat m)%Z in E by lia. exact E.
Qed.

Context {sizes : CryptoSizes}.

Lemma leaf_hashes_32 LL : Forall (fun h => length h = 32) (map el_hash LL).
Proof. apply Forall_map, Forall_true. intros l. apply blake2b_len. Qed.

(** Walking down from a node of the forest along a proof that reaches it. *)
Lemma proofRoot_descend LL p i r (k : nat) :
  let L := map el_hash LL in let t := i + length p in
  length r = 32 -> (k / 2 ^ t + 1) * 2 ^ t <= length LL ->
  proofRoot_from (Z.of_nat i) r (Z.of_nat k) p = node L t (k / 2 ^ t) ->
  r = node L i (k / 2 ^ i) \/
  exists x y, forest_input LL x /\ y ∈ path_inputs (Z.of_nat i) r (Z.of_nat k) p /\ x <> y /\
    blake2b_Sum256 x = blake2b_Sum256 y.
Proof.
  intros L. revert i r. induction p as [|h p IH]; intros i r t Hr Ht E.
  { left. unfold t in *. cbn [proofRoot_from length] in *. by rewrite Nat.add_0_r in E. }
  cbn [proofRoot_from path_inputs] in *. rewrite has_bit_nat, testbit_odd in *.
  set (y := if Nat.odd (k / 2 ^ i) then node_input h r else node_input r h) in *.
  assert ((if Nat.odd (k / 2 ^ i) then SumPair h r else SumPair r h) = blake2b_Sum256 y) as Ey
    by (unfold y; by destruct (Nat.odd _)).
  rewrite Ey in E. replace (Z.of_nat i + 1)%Z with (Z.of_nat (S i)) in * by lia.
  assert (t = S i + length p) as Et by (unfold t; cbn [length]; lia). rewrite Et in *.
  destruct (IH (S i) (blake2b_Sum256 y) (blake2b_len y) Ht E) as [E1|(x & y' & Hx & Hy & Hne & Heq)];
    [|right; exists x, y'; split_and!; [done|by right|done|done]].
  set (j := k / 2 ^ S i) in *.
  assert ((2 * j + 2) * 2 ^ i <= length LL) as Hj.
  { assert (j * 2 ^ S i + 2 ^ S i <= length LL); [|rewrite Nat.pow_succ_r' in *; nia].
    etransitivity; [|exact Ht]. unfold j. rewrite div_pow_add.
    pose proof (pow2_nz (S i)) as Hz1. pose proof (pow2_nz (length p)) as Hz2.
    pose proof (Nat.div_mod_eq (k / 2 ^ S i) (2 ^ length p)).
    pose proof (Nat.mod_upper_bound (k / 2 ^ S i) (2 ^ length p) Hz2).
    rewrite Nat.pow_add_r. nia. }
  set (x := node_input (node L i (2 * j)) (node L i (2 * j + 1))).
  assert (blake2b_Sum256 x = blake2b_Sum256 y) as Exy by (rewrite E1, node_succ; done).
  destruct (decide (x = y)) as [Hxy|Hne].
  2: { right. exists x, y. split_and!; [right; by exists i, j|by left|done|done]. }
  left. pose proof (length_node L i (2 * j) (leaf_hashes_32 LL)) as H1.
  pose proof (length_node L i (2 * j + 1) (leaf_hashes_32 LL)) as H2.
  unfold x, y, node_input in Hxy.
  assert (k / 2 ^ i / 2 = j) as Ej by (unfold j; by rewrite div_pow_succ).
  remember (node L i (2 * j)) as a eqn:Ea. remember (node L i (2 * j + 1)) as b eqn:Eb.
  destruct (Nat.odd (k / 2 ^ i)) eqn:Eo; injection Hxy as Hxy.
  - apply odd_half in Eo. apply app_inj_2 in Hxy as [_ <-]; [|by rewrite H2, Hr].
    rewrite Eb. f_equal. lia.
  - apply even_half in Eo. apply app_inj_1 in Hxy as [<- _]; [|by rewrite H1, Hr].
    rewrite Ea. f_equal. lia.
Qed.

Lemma odd_low q r n m : m < n -> Nat.odd ((q * 2 ^ n + r) / 2 ^ m) = Nat.odd (r / 2 ^ m).
Proof.
  intros H. pose proof (pow2_nz m).
  replace (q * 2 ^ n + r) with (r + q * 2 ^ (n - m - 1) * 2 * 2 ^ m).
  - rewrite Nat.div_add by done. rewrite Nat.odd_add, Nat.odd_mul. cbn [Nat.odd Nat.even negb].
    by rewrite andb_false_r, xorb_false_r.
  - replace n with (S (n - m - 1) + m) at 2 by lia. rewrite Nat.pow_add_r, Nat.pow_succ_r'. lia.
Qed.

Lemma el_input_inj a b : length (el_elementHash a) = 32 -> length (el_elementHash b) = 32 ->
  is_u64 (el_LeafIndex a) -> is_u64 (el_LeafIndex b) -> el_input a = el_input b ->
  el_elementHash a = el_elementHash b /\ el_LeafIndex a = el_LeafIndex b /\ el_spent a = el_spent b.
Proof.
  intros Ha Hb Ia Ib E. unfold el_input in E. apply app_inj_1 in E as [_ E]; [|done].
  apply app_inj_1 in E as [E1 E]; [|by rewrite Ha, Hb].
  apply app_inj_1 in E as [E2 E3]; [|by rewrite !length_le_encode].
  split; [done|]. split; [|by destruct (el_spent a), (el_spent b)].
  apply (f_equal le_decode) in E2. rewrite !le_decode_encode_8 in E2 by done. done.
Qed.

Record leaves_ok (LL : list elementLeaf) : Prop := {
  lo_index : forall k l, LL !! k = Some l -> el_LeafIndex l = Z.of_nat k;
  lo_hash : forall l, l ∈ LL -> length (el_elementHash l) = 32 }.

Lemma containsLeaf_sound_aux acc LL l :
  represents acc (map el_hash LL) -> leaves_ok LL ->
  is_u64 (el_LeafIndex l) -> length (el_elementHash l) = 32 -> containsLeaf acc l = true ->
  (exists l', LL !! Z.to_nat (el_LeafIndex l) = Some l' /\
     el_elementHash l' = el_elementHash l /\ el_spent l' = el_spent l) \/ collision LL l.
Proof.
  intros Hrep [Hix Hh] Hi Hel Hc. apply andb_true_iff in Hc as [Ht Hroot].
  apply bool_decide_eq_true in Hroot. rewrite (rep_has _ _ _ Hrep) in Ht.
  set (n := length (el_MerkleProof l)) in *. set (N := length (map el_hash LL)) in *.
  assert (N = length LL) as EN by (unfold N; by rewrite length_map).
  rewrite (rep_tree _ _ Hrep n Ht) in Hroot. injection Hroot as Hroot.
  set (a := Z.to_nat (el_LeafIndex l)). assert (el_LeafIndex l = Z.of_nat a) as Ea by (unfold is_u64 in Hi; lia).
  pose proof (odd_half _ Ht) as Hodd. pose proof (pow2_nz n) as Hz.
  pose proof (Nat.mod_upper_bound a (2 ^ n) Hz) as Hr. pose proof (Nat.div_mod_eq a (2 ^ n)) as Hdm.
  set (k := (N / 2 ^ n - 1) * 2 ^ n + a mod 2 ^ n).
  assert (k / 2 ^ n = N / 2 ^ n - 1) as Hk.
  { unfold k. rewrite Nat.add_comm, Nat.div_add, Nat.div_small by lia. done. }
  pose proof (Nat.div_mod_eq N (2 ^ n)).
  assert (k < length LL) as Hlt by (rewrite <- EN; unfold k; nia).
  assert (forall m, m < n -> has_bit (el_LeafIndex l) (0 + Z.of_nat m) = has_bit (Z.of_nat k) (0 + Z.of_nat m)) as Hbits.
  { intros m Hm. rewrite Z.add_0_l, Ea, !has_bit_nat, !testbit_odd. unfold k.
    rewrite odd_low by done. rewrite Hdm at 1. rewrite Nat.mul_comm. by rewrite odd_low. }
  destruct (proofRoot_bits (el_MerkleProof l) 0 (el_hash l) _ _ Hbits) as [E1 E2].
  unfold el_proofRoot, proofRoot in Hroot. rewrite E1 in Hroot.
  destruct (proofRoot_descend LL (el_MerkleProof l) 0 (el_hash l) k) as [Hleaf|(x & y & Hx & Hy & Hne & Heq)].
  - apply blake2b_len.
  - cbn [Nat.add]. fold n. rewrite Hk. nia.
  - cbn [Nat.add]. fold n. rewrite Hk. symmetry. exact Hroot.
  - rewrite node_zero, Nat.div_1_r in Hleaf. rewrite list_lookup_fmap in Hleaf.
    destruct (lookup_lt_is_Some_2 LL k Hlt) as [l' El']. rewrite El' in Hleaf. cbn in Hleaf.
    destruct (decide (el_input l' = el_input l)) as [Heq|Hne].
    + left. apply list_elem_of_lookup_2 in El' as Hin.
      assert (is_u64 (el_LeafIndex l')) by (rewrite (Hix _ _ El'); pose proof (rep_bound _ _ Hrep) as Hb;
        unfold is_u64, zlen in *; fold N in Hb; lia).
      destruct (el_input_inj l' l) as (H1 & H2 & H3); [by apply Hh|done..|].
      exists l'. rewrite (Hix _ _ El'), Ea in H2. replace a with k by lia. done.
    + right. exists (el_input l'), (el_input l).
      split_and!; [left; exists l'; split; [by eapply list_elem_of_lookup_2|done]|left|done|done].
  - right. exists x, y. split_and!; [done|unfold proof_inputs; rewrite E2; by right|done|done].
Qed.
End Membership.

(** ** Adding leaves *)
Section AddLeaves.
Context {crypto : Crypto}.

Lemma el_hash_setProof f l : el_hash (el_setProof f l) = el_hash l.
Proof. done. Qed.

Lemma pow2_Z h : Z.of_nat (2 ^ h) = (2 ^ Z.of_nat h)%Z.
Proof. by rewrite Nat2Z.inj_pow. Qed.

Lemma clearBits_nat n b : clearBits (Z.of_nat n) (Z.of_nat b) = Z.of_nat (n / 2 ^ b * 2 ^ b).
Proof.
  unfold clearBits. replace (2 ^ Z.of_nat b - 1)%Z with (Z.ones (Z.of_nat b))
    by (rewrite Z.ones_equiv; lia).
  rewrite Z.ldiff_ones_r, Z.shiftl_mul_pow2, Z.shiftr_div_pow2 by lia.
  by rewrite Nat2Z.inj_mul, Nat2Z.inj_div, pow2_Z.
Qed.

(** The state element set to index [k] and proof [p]. *)
Definition el_place (k : Z) (p : list Hash256) (l : elementLeaf) : elementLeaf :=
  el_setProof (fun _ => p) (el_setIndex k l).

(** The hashes of leaves added after [N0] others. *)
Definition added_hashes (N0 : nat) (leaves : list elementLeaf) : list Hash256 :=
  imap (fun j l => el_hash (el_setIndex (Z.of_nat (N0 + j)) l)) leaves.

(** Leaf [j] of the slice while leaf [i] is processed: placed if [j <= i], else as given. *)
Definition placed (N0 i : nat) (P : nat -> list Hash256 -> Prop) (leaves0 leaves : list elementLeaf) : Prop :=
  length leaves = length leaves0 /\
  forall j l0, leaves0 !! j = Some l0 ->
    if decide (j < i) then exists p, leaves !! j = Some (el_place (Z.of_nat (N0 + j)) p l0) /\ P (N0 + j) p
    else leaves !! j = Some l0.

(** The growth slices: empty for heights without a tree, otherwise they extend the proofs
    of the leaves of that tree. *)
Definition tree_start (N0 b : nat) : nat := N0 / 2 ^ S b * 2 ^ S b.
Definition grown (N0 : nat) (P : nat -> nat -> list Hash256 -> Prop) (growth : list (list Hash256)) : Prop :=
  length growth = 64 /\ forall b, b < 64 -> exists g, growth !! b = Some g /\
    if Nat.odd (N0 / 2 ^ b) then P (tree_start N0 b) b g else g = [].

Lemma append_both N0 i h r1 r2 leaves0 leaves (P Q : nat -> list Hash256 -> Prop) :
  (forall k p, k <= N0 + i -> P k p -> Q k (bump (N0 + i) h k r1 r2 p)) ->
  placed N0 (S i) P leaves0 leaves ->
  let s1 := (Z.of_nat i - 2 ^ Z.of_nat h)%Z in let s2 := (Z.of_nat i - 2 ^ (Z.of_nat h + 1))%Z in
  placed N0 (S i) Q leaves0 (append_proofs s2 s1 r2 (append_proofs s1 (Z.of_nat i) r1 leaves)).
Proof.
  intros HPQ [Hlen Hp] s1 s2. unfold append_proofs. split; [by rewrite !length_imap|].
  intros j l0 Hj. specialize (Hp j l0 Hj). rewrite !list_lookup_imap.
  assert (s1 = Z.of_nat i - Z.of_nat (2 ^ h))%Z as E1 by (unfold s1; by rewrite pow2_Z).
  assert (s2 = Z.of_nat i - Z.of_nat (2 ^ S h))%Z as E2
    by (unfold s2; rewrite pow2_Z; do 2 f_equal; lia).
  pose proof (Nat.pow_succ_r' 2 h). pose proof (pow2_nz h).
  destruct (decide (j < S i)) as [Hlt|Hge].
  - destruct Hp as (p & -> & HP). cbn [fmap option_fmap option_map].
    exists (bump (N0 + i) h (N0 + j) r1 r2 p). split; [|by apply HPQ; [lia|]].
    unfold bump. destruct (decide (N0 + i < N0 + j + 2 ^ h)) as [H1|H1].
    + rewrite (proj2 (Z.ltb_lt s1 (Z.of_nat j))), (proj2 (Z.leb_le (Z.of_nat j) (Z.of_nat i))) by lia.
      cbn [andb]. rewrite (proj2 (Z.leb_gt (Z.of_nat j) s1)), andb_false_r by lia. done.
    + rewrite (proj2 (Z.ltb_ge s1 (Z.of_nat j))) by lia. cbn [andb].
      rewrite (proj2 (Z.leb_le (Z.of_nat j) s1)), andb_true_r by lia.
      destruct (decide (N0 + i < N0 + j + 2 ^ S h)) as [H2|H2];
        [rewrite (proj2 (Z.ltb_lt s2 (Z.of_nat j))) by lia|rewrite (proj2 (Z.ltb_ge s2 (Z.of_nat j))) by lia]; done.
  - rewrite Hp. cbn [fmap option_fmap option_map].
    rewrite (proj2 (Z.leb_gt (Z.of_nat j) (Z.of_nat i))), andb_false_r by lia.
    rewrite (proj2 (Z.leb_gt (Z.of_nat j) s1)), andb_false_r by lia. done.
Qed.

Lemma grow_bump N0 N h r1 r2 growth (P Q : nat -> nat -> list Hash256 -> Prop) :
  (Z.of_nat N < 2 ^ 62)%Z -> low_ones N h -> Nat.odd (N / 2 ^ h) = true -> N0 <= N ->
  (forall k b p, k <= N -> P k b p -> Q k b (bump N h k r1 r2 p)) ->
  grown N0 P growth -> grown N0 Q (grow (Z.of_nat N0) (Z.of_nat N) h r1 r2 growth).
Proof.
  intros HN Hl Ho HN0 HPQ [Hlen Hg]. unfold grow. split; [by rewrite length_imap|].
  intros b Hb. destruct (Hg b Hb) as (g & Eg & Hgb). rewrite list_lookup_imap, Eg.
  cbn [fmap option_fmap option_map]. eexists. split; [done|].
  rewrite has_bit_nat, testbit_odd. destruct (Nat.odd (N0 / 2 ^ b)); cbn [negb]; [|done].
  replace (Z.of_nat b + 1)%Z with (Z.of_nat (S b)) by lia.
  replace (Z.of_nat h + 1)%Z with (Z.of_nat (S h)) by lia.
  rewrite clearBits_nat. fold (tree_start N0 b). rewrite <- !pow2_Z.
  pose proof (low_ones_succ _ _ Hl Ho) as Hl'. unfold low_ones in Hl, Hl'.
  pose proof (pow2_nz h) as Hz. pose proof (Nat.pow_succ_r' 2 h) as Hps. change (2 ^ 62)%Z with 4611686018427387904%Z in HN.
  assert (2 ^ S h <= N + 1) as Hle by nia.
  assert (tree_start N0 b <= N) as Hts.
  { unfold tree_start. pose proof (Nat.div_mod_eq N0 (2 ^ S b)). lia. }
  rewrite (u64_id (Z.of_nat N + 1)), (u64_id (Z.of_nat (2 ^ h))), (u64_id (Z.of_nat (2 ^ S h)))
    by (unfold is_u64; lia).
  rewrite !u64_id by (unfold is_u64; lia).
  specialize (HPQ (tree_start N0 b) b g ltac:(lia) Hgb). unfold bump in HPQ.
  destruct (decide (N < tree_start N0 b + 2 ^ h)) as [H1|H1];
    [rewrite (proj2 (Z.leb_le _ _)) by lia; done|].
  destruct (decide (N < tree_start N0 b + 2 ^ S h)) as [H2|H2];
    (rewrite (proj2 (Z.leb_gt _ _)) by lia).
  - rewrite (proj2 (Z.leb_le _ _)) by lia. done.
  - rewrite (proj2 (Z.leb_gt _ _)) by lia. done.
Qed.

Lemma insert_tree acc L x h : represents acc L -> (Z.of_nat (S (length L)) < 2 ^ 62)%Z ->
  low_ones (length L) h -> Nat.odd (length L / 2 ^ h) = false ->
  represents {| ea_Trees := <[h := node (L ++ [x]) h (length L / 2 ^ h)]> (ea_Trees acc);
                ea_NumLeaves := u64 (ea_NumLeaves acc + 1) |} (L ++ [x]).
Proof.
  intros Hrep Hb Hl Ho. set (N := length L) in *.
  assert (length (L ++ [x]) = N + 1) as HN by (by rewrite length_app).
  change (2 ^ 62)%Z with 4611686018427387904%Z in Hb.
  split; cbn [ea_NumLeaves ea_Trees].
  - rewrite (rep_num _ _ Hrep). unfold zlen. rewrite HN. fold N. rewrite u64_id; [lia|].
    unfold is_u64. lia.
  - by rewrite length_insert, (rep_trees _ _ Hrep).
  - unfold zlen. rewrite HN. lia.
  - rewrite HN. intros i Hi. destruct (Nat.lt_trichotomy i h) as [Hlt|[->|Hgt]].
    + by rewrite (carry_low N h) in Hi.
    + assert (h < 64).
      { destruct (decide (h < 64)) as [|Hge]; [done|]. exfalso. unfold low_ones in Hl.
        pose proof (Nat.pow_le_mono_r 2 64 h ltac:(lia) ltac:(lia)) as Hp.
        assert (2 ^ h <= N + 1) by nia. apply Nat2Z.inj_le in Hp. rewrite !pow2_Z in Hp.
        assert (Z.of_nat (2 ^ h) <= Z.of_nat N + 1)%Z by lia. rewrite pow2_Z in *.
        change (2 ^ Z.of_nat 64)%Z with 18446744073709551616%Z in Hp. lia. }
      rewrite list_lookup_insert_eq by (rewrite (rep_trees _ _ Hrep); done).
      f_equal. f_equal. rewrite (low_ones_div _ _ Hl). lia.
    + rewrite (carry_high N h) in Hi |- * by (done || lia).
      rewrite list_lookup_insert_ne by lia. rewrite (rep_tree _ _ Hrep i Hi). f_equal.
      by apply old_root_app.
Qed.

Lemma add_walk_spec fuel h i N0 acc L x leaves0 leaves growth :
  let N := length L in let L' := L ++ [x] in
  represents acc L -> (Z.of_nat (S N) < 2 ^ 62)%Z -> N = N0 + i -> h + fuel = 64 -> low_ones N h ->
  placed N0 (S i) (fun k p => tracks L' N h k 0 p) leaves0 leaves ->
  grown N0 (tracks L' N h) growth ->
  exists acc' leaves' growth',
    add_walk fuel h (Z.of_nat i) (Z.of_nat N0) (node L' h (N / 2 ^ h)) acc leaves growth
      = (acc', leaves', growth') /\
    represents acc' L' /\ placed N0 (S i) (fun k p => settled L' k 0 p) leaves0 leaves' /\
    grown N0 (settled L') growth'.
Proof.
  intros N L' Hrep Hb HN. revert h leaves growth.
  induction fuel as [|fuel IH]; intros h leaves growth Hf Hl Hp Hg.
  { exfalso. unfold low_ones in Hl. replace h with 64 in Hl by lia.
    assert (2 ^ 64 <= N + 1) as Hle by nia. apply Nat2Z.inj_le in Hle. rewrite pow2_Z in Hle.
    change (2 ^ Z.of_nat 64)%Z with 18446744073709551616%Z in Hle.
    change (2 ^ 62)%Z with 4611686018427387904%Z in Hb. lia. }
  cbn [add_walk]. rewrite (rep_has _ _ _ Hrep). fold N.
  destruct (Nat.odd (N / 2 ^ h)) eqn:Ho; cbn [negb].
  - assert (nth h (ea_Trees acc) zeroHash = node L h (N / 2 ^ h - 1)) as ->
      by (by rewrite nth_lookup, (rep_tree _ _ Hrep h Ho)).
    assert (SumPair (node L h (N / 2 ^ h - 1)) (node L' h (N / 2 ^ h)) = node L' (S h) (N / 2 ^ S h)) as ->.
    { pose proof (old_root_app L x h Ho) as Er. fold N L' in Er. rewrite Er, node_succ, div_pow_succ.
      pose proof (odd_half _ Ho). f_equal; f_equal; lia. }
    rewrite (rep_num _ _ Hrep). unfold zlen. fold N.
    apply IH; [lia|by apply low_ones_succ| |].
    + apply (append_both N0 i h _ _ _ _ (fun k p => tracks L' N h k 0 p)); [|done].
      intros k p Hk Ht. rewrite <- HN in *. by apply tracks_bump.
    + apply (grow_bump N0 N h _ _ _ (tracks L' N h)); [lia|done|done|lia| |done].
      intros k b p Hk Ht. by apply tracks_bump.
  - eexists _, _, _. split; [done|]. split; [by apply insert_tree|]. split.
    + destruct Hp as [Hlen Hp]. split; [done|]. intros j l0 Hj. specialize (Hp j l0 Hj).
      destruct (decide (j < S i)); [|done]. destruct Hp as (p & ? & Ht). exists p. split; [done|].
      apply (tracks_settled L x h); [done|done|lia|done].
    + destruct Hg as [Hlen Hg]. split; [done|]. intros b Hb'. destruct (Hg b Hb') as (g & ? & Hgb).
      exists g. split; [done|]. destruct (Nat.odd (N0 / 2 ^ b)); [|done].
      apply (tracks_settled L x h); [done|done| |done]. unfold tree_start.
      pose proof (Nat.div_mod_eq N0 (2 ^ S b)). fold N. lia.
Qed.

Lemma el_place_fresh k l : el_MerkleProof l = [] -> el_place k [] l = el_setIndex k l.
Proof.
  destruct l as [r [ix pf sh] hh sp]. unfold el_MerkleProof. cbn. intros ->. done.
Qed.

Lemma added_hashes_lookup N0 leaves i l : leaves !! i = Some l ->
  take (S i) (added_hashes N0 leaves) =
  take i (added_hashes N0 leaves) ++ [el_hash (el_setIndex (Z.of_nat (N0 + i)) l)].
Proof.
  intros H. apply take_S_r. unfold added_hashes. by rewrite list_lookup_imap, H.
Qed.

Lemma length_added N0 leaves : length (added_hashes N0 leaves) = length leaves.
Proof. apply length_imap. Qed.

Lemma placed_next N0 i L x leaves0 leaves l0 : length L = N0 + i ->
  leaves0 !! i = Some l0 -> el_MerkleProof l0 = [] ->
  placed N0 i (fun k p => settled L k 0 p) leaves0 leaves ->
  placed N0 (S i) (fun k p => tracks (L ++ [x]) (length L) 0 k 0 p) leaves0
    (<[i := el_setIndex (Z.of_nat (N0 + i)) l0]> leaves).
Proof.
  intros HL Hi Hf [Hlen Hp]. pose proof (lookup_lt_Some _ _ _ Hi) as Hlt.
  split; [by rewrite length_insert|]. intros j l Hj. specialize (Hp j l Hj).
  destruct (Nat.lt_trichotomy j i) as [Hlt'|[->|Hgt]].
  - rewrite decide_True in Hp by lia. rewrite decide_True by lia.
    destruct Hp as (p & Hp & Hs). exists p. rewrite list_lookup_insert_ne by lia. split; [done|].
    apply settled_tracks; [lia|done].
  - rewrite decide_True by lia. simplify_eq. exists []. rewrite list_lookup_insert_eq by lia.
    rewrite el_place_fresh by done. split; [done|]. rewrite HL. apply tracks_new.
  - rewrite decide_False in Hp by lia. rewrite decide_False by lia.
    by rewrite list_lookup_insert_ne by lia.
Qed.

Lemma grown_next N0 L x growth : N0 <= length L -> grown N0 (settled L) growth ->
  grown N0 (tracks (L ++ [x]) (length L) 0) growth.
Proof.
  intros HL [Hlen Hg]. split; [done|]. intros b Hb. destruct (Hg b Hb) as (g & Eg & Hgb).
  exists g. split; [done|]. destruct (Nat.odd (N0 / 2 ^ b)) eqn:Ho; [|done].
  apply settled_tracks; [|done]. unfold tree_start. apply odd_half in Ho.
  pose proof (pow2_nz b). rewrite div_pow_succ, Nat.pow_succ_r'.
  pose proof (Nat.div_mod_eq N0 (2 ^ b)). nia.
Qed.

Lemma add_from_spec N0 L0 leaves0 n : length L0 = N0 ->
  (Z.of_nat (N0 + length leaves0) < 2 ^ 62)%Z ->
  (forall l, l ∈ leaves0 -> el_MerkleProof l = []) ->
  forall i acc leaves growth,
  let L := L0 ++ take i (added_hashes N0 leaves0) in
  i + n = length leaves0 -> represents acc L ->
  placed N0 i (fun k p => settled L k 0 p) leaves0 leaves -> grown N0 (settled L) growth ->
  let L' := L0 ++ added_hashes N0 leaves0 in
  exists acc' leaves' growth',
    add_from n i (Z.of_nat N0) acc leaves growth = (acc', leaves', growth') /\
    represents acc' L' /\ placed N0 (length leaves0) (fun k p => settled L' k 0 p) leaves0 leaves' /\
    grown N0 (settled L') growth'.
Proof.
  intros HL0 Hb Hfresh. induction n as [|n IH]; intros i acc leaves growth L Hn Hrep Hp Hg L'.
  - assert (L = L') as E by (unfold L, L'; f_equal; apply take_ge; rewrite length_added; lia).
    cbn [add_from]. rewrite <- E. exists acc, leaves, growth.
    replace (length leaves0) with i by lia. done.
  - destruct (lookup_lt_is_Some_2 leaves0 i ltac:(lia)) as [l0 Hl0].
    assert (length L = N0 + i) as HL
      by (unfold L; rewrite length_app, length_take, length_added; lia).
    cbn [add_from]. pose proof (proj2 Hp i l0 Hl0) as Hi. rewrite decide_False in Hi by lia. rewrite Hi.
    rewrite (rep_num _ _ Hrep). unfold zlen. rewrite HL.
    set (x := el_hash (el_setIndex (Z.of_nat (N0 + i)) l0)).
    assert (L ++ [x] = L0 ++ take (S i) (added_hashes N0 leaves0)) as EL
      by (rewrite (added_hashes_lookup _ _ _ _ Hl0); unfold L; by rewrite app_assoc).
    destruct (add_walk_spec 64 0 i N0 acc L x leaves0 (<[i:=el_setIndex (Z.of_nat (N0 + i)) l0]> leaves) growth)
      as (acc1 & leaves1 & growth1 & E & Hrep1 & Hp1 & Hg1); [done|lia|done|done|apply low_ones_0| | |].
    + apply placed_next; [done|done| |done]. apply Hfresh. by eapply list_elem_of_lookup_2.
    + apply grown_next; [lia|done].
    + assert (node (L ++ [x]) 0 (length L / 2 ^ 0) = x) as Ex
        by (rewrite node_zero, Nat.div_1_r, lookup_app_r, Nat.sub_diag by lia; done).
      rewrite Ex in E. rewrite E.
      rewrite EL in *. apply IH; [lia|done..].
Qed.

(** [addLeaves] on an accumulator for [L0]: the new accumulator is the forest over [L0] and
    the new leaves, each of them placed with its proof, and the growth slices extend the
    proofs of the old ones. *)
Lemma addLeaves_spec acc L0 leaves : let N0 := length L0 in
  let L' := L0 ++ added_hashes N0 leaves in
  represents acc L0 -> (Z.of_nat (N0 + length leaves) < 2 ^ 62)%Z ->
  (forall l, l ∈ leaves -> el_MerkleProof l = []) ->
  exists acc' leaves' growth, addLeaves acc leaves = (acc', leaves', growth) /\
    represents acc' L' /\ placed N0 (length leaves) (fun k p => settled L' k 0 p) leaves leaves' /\
    grown N0 (settled L') growth.
Proof.
  intros N0 L' Hrep Hb Hf. unfold addLeaves. rewrite (rep_num _ _ Hrep). unfold zlen. fold N0.
  apply (add_from_spec N0 L0); [done|done|done|lia|..]; rewrite ?take_0, ?app_nil_r.
  - done.
  - split; [done|]. intros j l0 Hj. by rewrite decide_False by lia.
  - split; [done|]. intros b Hb'. exists []. rewrite lookup_replicate_2 by done. split; [done|].
    destruct (Nat.odd (N0 / 2 ^ b)) eqn:Ho; [|done]. exists b. rewrite Nat.sub_diag.
    split; [|done]. fold N0. apply merge_intro; [done|]. unfold tree_start.
    apply odd_half in Ho. rewrite (Nat.pow_succ_r' 2 b) at 2.
    replace (N0 / 2 ^ S b * (2 * 2 ^ b)) with (N0 / 2 ^ S b * 2 * 2 ^ b) by lia.
    rewrite Nat.div_mul by apply pow2_nz. rewrite div_pow_succ. lia.
Qed.

Lemma settled_forest L k p : settled L k 0 p <-> forest_proof L k p.
Proof.
  unfold settled, forest_proof. split.
  - intros (m & Hm & _ & ->). exists m. by rewrite Nat.sub_0_r.
  - intros (m & Hm & ->). exists m. rewrite Nat.sub_0_r. split; [done|]. split; [lia|done].
Qed.

(** Appending the growth of its tree to the proof of an old leaf. *)
Lemma growth_extends L0 X k h p g : merge k (length L0) h -> k < length L0 ->
  forest_proof L0 k p -> settled (L0 ++ X) (tree_start (length L0) h) h g ->
  forest_proof (L0 ++ X) k (p ++ g).
Proof.
  intros Hm Hk Hp (m & Hm' & Hle & ->). apply (forest_proof_eq _ _ _ _ Hm) in Hp as ->.
  destruct (merge_lt _ _ _ Hm Hk) as [Ho Hd]. pose proof (odd_half _ Ho).
  assert (k / 2 ^ h = tree_start (length L0) h / 2 ^ h) as Hb.
  { unfold tree_start. rewrite (Nat.pow_succ_r' 2 h) at 2.
    rewrite Nat.mul_assoc, Nat.div_mul by apply pow2_nz. rewrite div_pow_succ. lia. }
  exists m. split.
  - destruct Hm' as [H1 H2]. split.
    + rewrite <- H1. apply (div_pow_up _ _ h); [lia|done].
    + rewrite (div_pow_up _ _ h m Hle Hb). done.
  - replace m with (h + (m - h)) at 2 by lia. rewrite sibs_app. cbn [Nat.add]. f_equal.
    + pose proof (sibs_app_leaves L0 X k 0 h Hm Hk ltac:(lia)) as E. by rewrite Nat.sub_0_r in E.
    + by apply sibs_same_block.
Qed.
End AddLeaves.
