(* ===== verification/ConsensusMerkleUpdateSpec.v ===== *)
(** * Updating the leaves of the element accumulator

    [updateLeaves] recomputes exactly the proofs that a set of changed leaves affects, and
    [updateProof] carries those changes over to the proof of any other element. *)
From stdpp Require Import prelude strings sorting.
From Stdlib Require Import ZArith Lia.
From S2P Require Import Prelude TypesData TypesEncoding TypesHash TypesMerkle.
From S2P Require Import ConsensusState ConsensusMerkle MerkleForest ConsensusMerkleSpec.
Local Open Scope nat_scope.

(** ** Binary search *)
Lemma sort_Search_from_spec f n fuel i j : i <= j <= n -> j - i < fuel ->
  (forall a b, a <= b < n -> f a = true -> f b = true) ->
  (forall a, a < i -> f a = false) -> (forall a, j <= a < n -> f a = true) ->
  let s := sort_Search_from fuel i j f in
  s <= n /\ (forall a, a < s -> f a = false) /\ (forall a, s <= a < n -> f a = true).
Proof.
  revert i j. induction fuel as [|fuel IH]; intros i j Hij Hf Hmono Hlo Hhi; [lia|].
  cbn [sort_Search_from]. destruct (i <? j) eqn:E; [|apply Nat.ltb_ge in E; split_and!; [lia|done|]].
  - apply Nat.ltb_lt in E. pose proof (Nat.div_mod_eq (i + j) 2).
    pose proof (Nat.mod_upper_bound (i + j) 2). set (h := (i + j) / 2) in *.
    destruct (f h) eqn:Ef; cbn [negb].
    + apply IH; [lia|lia|done|done|]. intros a Ha. apply (Hmono h); [lia|done].
    + apply IH; [lia|lia|done| |done]. intros a Ha. destruct (f a) eqn:Ea; [|done].
      rewrite (Hmono a h) in Ef; [done|lia|done].
  - intros a Ha. apply Hhi. lia.
Qed.

Lemma StronglySorted_lookup {A} (R : A -> A -> Prop) l i j a b : StronglySorted R l -> i < j ->
  l !! i = Some a -> l !! j = Some b -> R a b.
Proof.
  intros H. revert i j. induction H as [|x l Hl IH HF]; intros i j Hij Ha Hb; [done|].
  destruct i as [|i], j as [|j]; cbn in *; [lia| |lia|].
  - simplify_eq. exact (proj1 (Forall_lookup _ _) HF _ _ Hb).
  - apply (IH i j); [lia|done|done].
Qed.

(** [sort.Search] for the first index at or above [mid] splits a sorted slice there. *)
Lemma search_split {A} (ix : A -> Z) (ls : list A) (mid : Z) :
  StronglySorted (fun a b => (ix a <= ix b)%Z) ls ->
  let s := sort_Search (length ls)
    (fun i => match ls !! i with Some l => (mid <=? ix l)%Z | None => true end) in
  Forall (fun l => (ix l < mid)%Z) (take s ls) /\ Forall (fun l => (mid <= ix l)%Z) (drop s ls).
Proof.
  intros Hs. unfold sort_Search.
  set (f := fun i => match ls !! i with Some l => (mid <=? ix l)%Z | None => true end).
  assert (forall i l, ls !! i = Some l -> f i = (mid <=? ix l)%Z) as Hf by (intros i l Hl; unfold f; by rewrite Hl).
  destruct (sort_Search_from_spec f (length ls) (S (length ls)) 0 (length ls)) as (H1 & H2 & H3);
    [lia|lia| |lia|lia|].
  { intros a b Hab Ha. destruct (decide (a = b)) as [->|]; [done|].
    destruct (lookup_lt_is_Some_2 ls a ltac:(lia)) as [la Ela].
    destruct (lookup_lt_is_Some_2 ls b ltac:(lia)) as [lb Elb].
    rewrite (Hf _ _ Ela) in Ha. rewrite (Hf _ _ Elb).
    pose proof (StronglySorted_lookup _ _ a b _ _ Hs ltac:(lia) Ela Elb). cbn in *. bool_lia. }
  set (s := sort_Search_from _ _ _ _) in *. split; apply Forall_lookup; intros i l Hl.
  - apply lookup_take_Some in Hl as [Hl Hi]. specialize (H2 i Hi). rewrite (Hf _ _ Hl) in H2. bool_lia.
  - rewrite lookup_drop in Hl. pose proof (lookup_lt_Some _ _ _ Hl) as Hlt.
    specialize (H3 (s + i) ltac:(lia)). rewrite (Hf _ _ Hl) in H3. bool_lia.
Qed.

Section Update.
Context {crypto : Crypto}.

Definition idx (l : elementLeaf) : nat := Z.to_nat (el_LeafIndex l).
Definition idx_ok (l : elementLeaf) : Prop := (0 <= el_LeafIndex l)%Z.
Definition by_idx (a b : elementLeaf) : Prop := idx a < idx b.
Abbreviation sorted := (StronglySorted by_idx).

Lemma sorted_take_drop n ls : sorted ls -> sorted (take n ls) /\ sorted (drop n ls).
Proof.
  intros H. rewrite <- (take_drop n ls) in H. apply StronglySorted_app in H. tauto.
Qed.

(** Splitting sorted leaves at an index. *)
Lemma splitLeaves_spec ls mid : sorted ls -> Forall idx_ok ls ->
  exists lft rgt, splitLeaves ls (Z.of_nat mid) = (lft, rgt) /\ ls = lft ++ rgt /\
    Forall (fun l => idx l < mid) lft /\ Forall (fun l => mid <= idx l) rgt.
Proof.
  intros Hs Hok. destruct (search_split el_LeafIndex ls (Z.of_nat mid)) as [Hl Hr].
  { induction Hs as [|l ls Hs IH HF]; [constructor|]. apply Forall_cons in Hok as [Hl Hok].
    constructor; [by apply IH|]. rewrite Forall_forall in *. intros x Hx. specialize (HF x Hx).
    specialize (Hok x Hx). unfold by_idx, idx, idx_ok in *. lia. }
  unfold splitLeaves. eexists _, _. split; [done|]. split; [by rewrite take_drop|].
  set (s := sort_Search _ _) in *. clearbody s.
  pose proof (Forall_take _ s _ Hok) as Hok1. pose proof (Forall_drop _ s _ Hok) as Hok2.
  split; rewrite Forall_forall in *; intros l Hin;
    [specialize (Hl l Hin); specialize (Hok1 l Hin)|specialize (Hr l Hin); specialize (Hok2 l Hin)];
    unfold idx, idx_ok in *; lia.
Qed.

(** ** [recompute] *)

(** Leaf [l] with the siblings below level [h] taken from the forest over [L1]. *)
Definition fix_to (L1 : list Hash256) (h : nat) (l : elementLeaf) : elementLeaf :=
  el_setProof (fun p => sibs L1 (idx l) 0 h ++ drop h p) l.

(** Leaves of one subtree with the proofs of the old forest below its root. *)
Definition under (L0 : list Hash256) (h b : nat) (l : elementLeaf) : Prop :=
  idx_ok l /\ idx l / 2 ^ h = b /\ take h (el_MerkleProof l) = sibs L0 (idx l) 0 h.

(** On block [b] at level [h], [L1] is [L0] with the leaves [ls] changed. *)
Record changed (L0 L1 : list Hash256) (h b : nat) (ls : list elementLeaf) : Prop := {
  ch_new : forall l, l ∈ ls -> L1 !! idx l = Some (el_hash l);
  ch_same : forall m, m / 2 ^ h = b -> (forall l, l ∈ ls -> idx l <> m) -> L1 !! m = L0 !! m }.

Lemma el_eta l : el_setProof (fun p => p) l = l.
Proof. by destruct l as [? [] ? ?]. Qed.

Lemma el_setProof_ext f g l : f (el_MerkleProof l) = g (el_MerkleProof l) ->
  el_setProof f l = el_setProof g l.
Proof. destruct l as [? [] ? ?]. unfold el_setProof, se_setProof, el_MerkleProof. cbn. by intros ->. Qed.

Lemma proof_setProof f l : el_MerkleProof (el_setProof f l) = f (el_MerkleProof l).
Proof. done. Qed.

Lemma under_length L0 h b l : under L0 h b l -> h <= length (el_MerkleProof l).
Proof.
  intros (_ & _ & H). apply (f_equal length) in H. rewrite length_take, length_sibs in H. lia.
Qed.

Lemma under_lookup L0 h b l m : under L0 h b l -> m < h ->
  el_MerkleProof l !! m = Some (node L0 m (sibling (idx l / 2 ^ m))).
Proof.
  intros (_ & _ & H) Hm. rewrite <- (lookup_take_lt _ h) by done. rewrite H. by rewrite lookup_sibs.
Qed.

Lemma under_down L0 h b l : under L0 (S h) b l -> under L0 h (idx l / 2 ^ h) l.
Proof.
  intros (H1 & _ & H3). split; [done|]. split; [done|]. apply (f_equal (take h)) in H3.
  rewrite take_take, Nat.min_l in H3 by lia. rewrite H3. apply take_sibs. lia.
Qed.

Lemma fix_to_same L1 h l v : el_MerkleProof l !! h = Some v ->
  v = node L1 h (sibling (idx l / 2 ^ h)) -> fix_to L1 h l = fix_to L1 (S h) l.
Proof.
  intros Hv ->. apply el_setProof_ext. rewrite sibs_snoc, <- app_assoc. cbn [Nat.add app].
  f_equal. by apply drop_S.
Qed.

Lemma drop_insert_here {A} (p : list A) h v : h < length p -> drop h (<[h := v]> p) = v :: drop (S h) p.
Proof.
  intros H. rewrite (drop_S _ v) by (by rewrite list_lookup_insert_eq). f_equal.
  by rewrite drop_insert_lt by lia.
Qed.

Lemma set_fix_to L1 h l v : h < length (el_MerkleProof l) -> v = node L1 h (sibling (idx l / 2 ^ h)) ->
  el_setProof (fun p => <[h := v]> p) (fix_to L1 h l) = fix_to L1 (S h) l /\
  fix_to L1 h (el_setProof (fun p => <[h := v]> p) l) = fix_to L1 (S h) l.
Proof.
  intros Hl ->. split.
  - transitivity (el_setProof (fun p => <[h := node L1 h (sibling (idx l / 2 ^ h))]>
      (sibs L1 (idx l) 0 h ++ drop h p)) l); [done|]. apply el_setProof_ext.
    rewrite sibs_snoc, <- app_assoc. cbn [Nat.add app].
    rewrite insert_app_r_alt by (rewrite length_sibs; lia). rewrite length_sibs, Nat.sub_diag.
    f_equal. destruct (lookup_lt_is_Some_2 _ _ Hl) as [w Hw]. by rewrite (drop_S _ _ _ Hw).
  - transitivity (el_setProof (fun p => sibs L1 (idx l) 0 h ++
      drop h (<[h := node L1 h (sibling (idx l / 2 ^ h))]> p)) l); [done|]. apply el_setProof_ext.
    rewrite drop_insert_here by done. by rewrite sibs_snoc, <- app_assoc.
Qed.

Lemma set_sibling_ok h v ls : Forall (fun l => h < length (el_MerkleProof l)) ls ->
  set_sibling h v ls = Ok (map (el_setProof (fun p => <[h := v]> p)) ls).
Proof.
  intros H. unfold set_sibling. rewrite (proj2 (forallb_forall _ _)); [done|].
  intros l Hl. apply Nat.ltb_lt. rewrite Forall_forall in H. apply H. by apply list_elem_of_In.
Qed.

Lemma changed_sub L0 L1 h b j ls sub :
  changed L0 L1 (S h) b ls -> j / 2 = b ->
  (forall l, l ∈ sub <-> l ∈ ls /\ idx l / 2 ^ h = j) -> changed L0 L1 h j sub.
Proof.
  intros [Hn Hs] Hj Hsub. split.
  - intros l Hl. apply Hn. by apply Hsub in Hl as [? _].
  - intros m Hm Hno. apply Hs; [by rewrite div_pow_succ, Hm|]. intros l Hl <-.
    apply (Hno l); [|done]. by apply Hsub.
Qed.

(** A subtree without changed leaves keeps its root. *)
Lemma changed_none L0 L1 h b j ls : changed L0 L1 (S h) b ls -> j / 2 = b ->
  (forall l, l ∈ ls -> idx l / 2 ^ h <> j) -> node L1 h j = node L0 h j.
Proof.
  intros [_ Hs] Hj Hno. apply node_agree. intros m Hm. apply in_block in Hm.
  apply Hs; [by rewrite div_pow_succ, Hm|]. intros l Hl <-. by apply (Hno l).
Qed.

Lemma idx_setProof f l : idx (el_setProof f l) = idx l.
Proof. done. Qed.

Lemma sorted_map_setProof f ls : sorted ls -> sorted (map (el_setProof f) ls).
Proof.
  induction 1 as [|l ls Hs IH HF]; cbn; constructor; [done|].
  apply Forall_map. eapply Forall_impl; [exact HF|]. done.
Qed.

Lemma changed_map L0 L1 h b f ls : changed L0 L1 h b ls -> changed L0 L1 h b (map (el_setProof f) ls).
Proof.
  intros [Hn Hs]. split.
  - intros l (l0 & -> & Hl)%list_elem_of_fmap. exact (Hn l0 Hl).
  - intros m Hm Hno. apply Hs; [done|]. intros l Hl.
    apply (Hno (el_setProof f l)). apply list_elem_of_fmap. by exists l.
Qed.

Lemma under_set L0 h b v l : under L0 h b l -> under L0 h b (el_setProof (fun p => <[h := v]> p) l).
Proof.
  intros (H1 & H2 & H3). split; [done|]. split; [done|].
  rewrite proof_setProof, take_insert_ge by lia. exact H3.
Qed.

(** Halving a block: the left part is in its first half, the right part in the second. *)
Lemma halves L0 h b l mid : under L0 (S h) b l -> mid = b * 2 ^ S h + 2 ^ h ->
  idx l / 2 ^ h = if decide (idx l < mid) then 2 * b else 2 * b + 1.
Proof.
  intros (_ & Hb & _) ->. apply in_block in Hb. rewrite Nat.pow_succ_r' in *. pose proof (pow2_nz h).
  destruct (decide _); apply in_block; nia.
Qed.

(** The two halves of a step, each empty or recomputed. *)
Section Step.
Context (L0 L1 : list Hash256) (h b : nat).
Context (IH : forall j ls, ls <> [] -> sorted ls -> Forall (under L0 h j) ls ->
  changed L0 L1 h j ls ->
  recompute h (Z.of_nat (j * 2 ^ h)) ls = Ok (node L1 h j, map (fix_to L1 h) ls)).

Lemma half_sibling l j : idx l / 2 ^ h = j -> sibling j = sibling (idx l / 2 ^ h).
Proof. by intros <-. Qed.

(** Only the right half changes. *)
Lemma recompute_right rgt : Forall (under L0 (S h) b) rgt ->
  Forall (fun l => idx l / 2 ^ h = 2 * b + 1) rgt -> node L1 h (2 * b) = node L0 h (2 * b) ->
  Forall (fun l => el_MerkleProof l !! h = Some (node L1 h (2 * b))) rgt /\
  map (fix_to L1 h) rgt = map (fix_to L1 (S h)) rgt.
Proof.
  intros Hu Hb Hn. assert (Forall (fun l => el_MerkleProof l !! h = Some (node L1 h (2 * b))) rgt) as Hp.
  { rewrite Forall_forall in *. intros l Hl. rewrite (under_lookup _ _ _ _ h (Hu l Hl)) by lia.
    rewrite (Hb l Hl), Hn. unfold sibling. rewrite Nat.odd_odd. f_equal. f_equal. lia. }
  split; [done|]. apply map_ext_in. intros l Hl%list_elem_of_In. rewrite Forall_forall in Hp, Hb.
  eapply fix_to_same; [by apply Hp|]. rewrite (Hb l Hl). unfold sibling. rewrite Nat.odd_odd. f_equal. lia.
Qed.

(** Only the left half changes. *)
Lemma recompute_left lft : Forall (under L0 (S h) b) lft ->
  Forall (fun l => idx l / 2 ^ h = 2 * b) lft -> node L1 h (2 * b + 1) = node L0 h (2 * b + 1) ->
  Forall (fun l => el_MerkleProof l !! h = Some (node L1 h (2 * b + 1))) lft /\
  map (fix_to L1 h) lft = map (fix_to L1 (S h)) lft.
Proof.
  intros Hu Hb Hn. assert (Forall (fun l => el_MerkleProof l !! h = Some (node L1 h (2 * b + 1))) lft) as Hp.
  { rewrite Forall_forall in *. intros l Hl. rewrite (under_lookup _ _ _ _ h (Hu l Hl)) by lia.
    rewrite (Hb l Hl), Hn. unfold sibling. rewrite Nat.odd_even. done. }
  split; [done|]. apply map_ext_in. intros l Hl%list_elem_of_In. rewrite Forall_forall in Hp, Hb.
  eapply fix_to_same; [by apply Hp|]. rewrite (Hb l Hl). unfold sibling. by rewrite Nat.odd_even.
Qed.

(** Setting the sibling before or after the recursive call gives the same leaves. *)
Lemma map_set_fix j s ls : Forall (under L0 (S h) b) ls -> Forall (fun l => idx l / 2 ^ h = j) ls ->
  s = sibling j ->
  map (el_setProof (fun p => <[h := node L1 h s]> p)) (map (fix_to L1 h) ls) = map (fix_to L1 (S h)) ls /\
  map (fix_to L1 h) (map (el_setProof (fun p => <[h := node L1 h s]> p)) ls) = map (fix_to L1 (S h)) ls.
Proof.
  intros Hu Hj ->. rewrite !map_map. rewrite Forall_forall in Hu, Hj.
  split; apply map_ext_in; intros l Hl%list_elem_of_In;
    pose proof (under_length _ _ _ _ (Hu l Hl)); apply set_fix_to; try lia; by rewrite (Hj l Hl).
Qed.

Lemma under_half j ls : Forall (under L0 (S h) b) ls -> Forall (fun l => idx l / 2 ^ h = j) ls ->
  Forall (under L0 h j) ls.
Proof.
  intros Hu Hj. rewrite Forall_forall in *. intros l Hl.
  rewrite <- (Hj l Hl). eapply under_down. by apply Hu.
Qed.

Lemma fix_lookup ls v : Forall (under L0 (S h) b) ls ->
  Forall (fun l => el_MerkleProof l !! h = Some v) ls ->
  Forall (fun l => el_MerkleProof l !! h = Some v) (map (fix_to L1 h) ls).
Proof.
  intros _ H. apply Forall_map. eapply Forall_impl; [exact H|]. intros l Hl. unfold fix_to. cbn [compose].
  rewrite proof_setProof, lookup_app_r by (rewrite length_sibs; lia).
  by rewrite length_sibs, Nat.sub_diag, lookup_drop, Nat.add_0_r.
Qed.
End Step.

(** One half of a split block. *)
Record half (L0 L1 : list Hash256) (h b j : nat) (ls : list elementLeaf) : Prop := {
  hf_sorted : sorted ls;
  hf_under : Forall (under L0 (S h) b) ls;
  hf_block : Forall (fun l => idx l / 2 ^ h = j) ls;
  hf_changed : changed L0 L1 h j ls }.

Lemma split_block L0 L1 h b ls : sorted ls -> Forall (under L0 (S h) b) ls ->
  changed L0 L1 (S h) b ls ->
  exists lft rgt, splitLeaves ls (Z.of_nat (b * 2 ^ S h) + 2 ^ Z.of_nat h) = (lft, rgt) /\
    ls = lft ++ rgt /\ half L0 L1 h b (2 * b) lft /\ half L0 L1 h b (2 * b + 1) rgt.
Proof.
  intros Hs Hu Hc. set (mid := b * 2 ^ S h + 2 ^ h).
  assert (Z.of_nat (b * 2 ^ S h) + 2 ^ Z.of_nat h = Z.of_nat mid)%Z as ->
    by (unfold mid; rewrite Nat2Z.inj_add, pow2_Z; done).
  destruct (splitLeaves_spec ls mid Hs) as (lft & rgt & Esp & -> & Hl & Hr).
  { eapply Forall_impl; [exact Hu|]. by intros l [? _]. }
  exists lft, rgt. split; [done|]. split; [done|].
  apply Forall_app in Hu as [Hul Hur]. apply StronglySorted_app in Hs as (_ & Hsl & Hsr).
  assert (Forall (fun l => idx l / 2 ^ h = 2 * b) lft) as Hbl.
  { rewrite Forall_forall in *. intros l Hin. rewrite (halves L0 h b l mid (Hul l Hin) eq_refl).
    by rewrite decide_True by by apply Hl. }
  assert (Forall (fun l => idx l / 2 ^ h = 2 * b + 1) rgt) as Hbr.
  { rewrite Forall_forall in *. intros l Hin. rewrite (halves L0 h b l mid (Hur l Hin) eq_refl).
    rewrite decide_False; [done|]. specialize (Hr l Hin). lia. }
  split; split; try done; (apply (changed_sub _ _ _ b _ (lft ++ rgt)); [done| |]).
  - by rewrite Nat.mul_comm, Nat.div_mul.
  - intros l. rewrite Forall_forall in Hbl, Hbr. rewrite elem_of_app.
    split; [naive_solver|]. intros [[?|Hin] E]; [done|]. rewrite (Hbr l Hin) in E. lia.
  - replace (2 * b + 1) with (1 + b * 2) by lia. by rewrite Nat.div_add.
  - intros l. rewrite Forall_forall in Hbl, Hbr. rewrite elem_of_app.
    split; [naive_solver|]. intros [[Hin|?] E]; [|done]. rewrite (Hbl l Hin) in E. lia.
Qed.

Lemma recompute_spec L0 L1 h : forall b ls, ls <> [] -> sorted ls -> Forall (under L0 h b) ls ->
  changed L0 L1 h b ls ->
  recompute h (Z.of_nat (b * 2 ^ h)) ls = Ok (node L1 h b, map (fix_to L1 h) ls).
Proof.
  induction h as [|h IH]; intros b ls Hne Hs Hu Hc.
  - destruct ls as [|l [|l' ls]]; [done| |].
    + cbn [recompute map]. rewrite node_zero. destruct (proj1 (Forall_cons _ _ _) Hu) as [(_ & E & _) _].
      rewrite Nat.div_1_r in E. rewrite <- E, (ch_new _ _ _ _ _ Hc l) by left. cbn [default].
      do 3 f_equal. symmetry. apply el_eta.
    + exfalso. inv Hs. rewrite !Forall_cons in *. unfold by_idx in *.
      destruct Hu as ((_ & E1 & _) & (_ & E2 & _) & _). rewrite !Nat.div_1_r in *. lia.
  - destruct (split_block L0 L1 h b ls Hs Hu Hc)
      as (lft & rgt & Esp & -> & [Hsl Hul Hbl Hcl] & [Hsr Hur Hbr Hcr]).
    cbn [recompute]. rewrite Esp.
    assert (Z.of_nat (b * 2 ^ S h) + 2 ^ Z.of_nat h = Z.of_nat ((2 * b + 1) * 2 ^ h))%Z as ->
      by (rewrite <- pow2_Z, Nat.pow_succ_r'; lia).
    assert (Z.of_nat (b * 2 ^ S h) = Z.of_nat (2 * b * 2 ^ h))%Z as -> by (rewrite Nat.pow_succ_r'; lia).
    assert (2 * b / 2 = b) as Hb1 by (by rewrite Nat.mul_comm, Nat.div_mul).
    assert ((2 * b + 1) / 2 = b) as Hb2
      by (replace (2 * b + 1) with (1 + b * 2) by lia; by rewrite Nat.div_add).
    pose proof (under_half _ _ _ _ _ Hul Hbl) as Hul'. pose proof (under_half _ _ _ _ _ Hur Hbr) as Hur'.
    rewrite map_app, node_succ. destruct lft as [|l0 lft].
    + destruct rgt as [|r0 rgt]; [done|].
      destruct (recompute_right L0 L1 h b (r0 :: rgt) Hur Hbr) as [Hp Heq].
      { apply (changed_none _ _ _ b _ _ Hc Hb1). intros l Hin. rewrite Forall_forall in Hbr.
        cbn [app] in Hin. rewrite (Hbr l Hin). lia. }
      assert (proof_at h r0 = Ok (node L1 h (2 * b))) as ->
        by (unfold proof_at; by rewrite (proj1 (proj1 (Forall_cons _ _ _) Hp))).
      cbn [mbind outcome_bind]. rewrite (IH (2 * b + 1)) by done. cbn [mbind outcome_bind].
      rewrite set_sibling_ok by done. cbn [mbind outcome_bind].
      by rewrite <- Heq.
    + rewrite (IH (2 * b)) by done. cbn [mbind outcome_bind].
      rewrite set_sibling_ok.
      2:{ eapply Forall_impl; [exact Hur|]. intros l Hin%under_length. lia. }
      cbn [mbind outcome_bind]. destruct rgt as [|r0 rgt].
      * destruct (recompute_left L0 L1 h b (l0 :: lft) Hul Hbl) as [Hp Heq].
        { apply (changed_none _ _ _ b _ _ Hc Hb2). intros l Hin. rewrite Forall_forall in Hbl.
          rewrite app_nil_r in Hin. rewrite (Hbl l Hin). lia. }
        pose proof (fix_lookup L0 L1 h b _ _ Hul Hp) as Hp'. rewrite <- Heq. cbn [map] in Hp' |- *.
        unfold proof_at. rewrite (proj1 (proj1 (Forall_cons _ _ _) Hp')). cbn [mbind outcome_bind].
        by rewrite app_nil_r.
      * remember (r0 :: rgt) as rs eqn:Ers.
        destruct (map_set_fix L0 L1 h b (2 * b) (2 * b + 1) (l0 :: lft) Hul Hbl) as [El _].
        { unfold sibling. by rewrite Nat.odd_even. }
        destruct (map_set_fix L0 L1 h b (2 * b + 1) (2 * b) rs Hur Hbr) as [_ Er].
        { unfold sibling. rewrite Nat.odd_odd. lia. }
        pose proof (IH (2 * b + 1) (map (el_setProof (fun p => <[h := node L1 h (2 * b)]> p)) rs)) as IHr.
        rewrite Er in IHr. rewrite Ers in IHr |- *. cbn [map] in IHr |- *. rewrite IHr.
        -- cbn [mbind outcome_bind]. rewrite set_sibling_ok.
           ++ cbn [mbind outcome_bind]. cbn [map] in El |- *. by rewrite <- El.
           ++ rewrite <- map_cons. apply Forall_map. eapply Forall_impl; [exact Hul|].
              intros l Hin%under_length. unfold fix_to. cbn [compose].
              rewrite proof_setProof, length_app, length_sibs, length_drop. lia.
        -- done.
        -- rewrite <- map_cons. apply sorted_map_setProof. by rewrite <- Ers.
        -- rewrite <- map_cons. apply Forall_map. rewrite <- Ers. eapply Forall_impl; [exact Hur'|].
           intros l Hin. by apply under_set.
        -- rewrite <- map_cons. apply changed_map. by rewrite <- Ers.
Qed.

(** ** [updateLeaves] *)

Definition le_key (a b : elementLeaf) : Prop :=
  length (el_MerkleProof a) < length (el_MerkleProof b) \/
  (length (el_MerkleProof a) = length (el_MerkleProof b) /\ (el_LeafIndex a <= el_LeafIndex b)%Z).

#[local] Instance le_key_trans : Transitive le_key.
Proof. intros a b c. unfold le_key. lia. Qed.

Lemma leaf_before_key a b : if leaf_before a b then le_key a b else le_key b a.
Proof.
  unfold leaf_before, le_key. destruct (length (el_MerkleProof a) =? length (el_MerkleProof b)) eqn:E; cbn [negb].
  - apply Nat.eqb_eq in E. destruct (el_LeafIndex a <? el_LeafIndex b)%Z eqn:E2; lia.
  - apply Nat.eqb_neq in E. destruct (_ <? _) eqn:E2; [apply Nat.ltb_lt in E2|apply Nat.ltb_ge in E2]; lia.
Qed.

Lemma elem_of_insert_leaf x y l : x ∈ insert_leaf y l <-> x = y \/ x ∈ l.
Proof.
  induction l as [|z l IH]; cbn; [set_solver|]. destruct (leaf_before z y); rewrite !elem_of_cons, ?IH; tauto.
Qed.

Lemma insert_leaf_sorted x l : StronglySorted le_key l -> StronglySorted le_key (insert_leaf x l).
Proof.
  induction 1 as [|y l Hs IH HF]; cbn; [by repeat constructor|].
  pose proof (leaf_before_key y x) as Hk. destruct (leaf_before y x).
  - constructor; [done|]. rewrite Forall_forall in *. intros z [->|Hz]%elem_of_insert_leaf; [done|by apply HF].
  - constructor; [by constructor|]. constructor; [done|]. eapply Forall_impl; [exact HF|].
    intros z Hz. by etransitivity.
Qed.

Lemma sort_leaves_sorted l : StronglySorted le_key (sort_leaves l).
Proof. induction l; cbn; [constructor|by apply insert_leaf_sorted]. Qed.

Lemma elem_of_sort_leaves x l : x ∈ sort_leaves l <-> x ∈ l.
Proof. induction l as [|y l IH]; cbn; [done|]. by rewrite elem_of_insert_leaf, IH, elem_of_cons. Qed.

Lemma insert_leaf_perm x l : insert_leaf x l ≡ₚ x :: l.
Proof.
  induction l as [|y l IH]; cbn; [done|]. destruct (leaf_before y x); [|done]. rewrite IH. constructor.
Qed.

Lemma sort_leaves_perm l : sort_leaves l ≡ₚ l.
Proof. induction l as [|y l IH]; cbn; [done|]. by rewrite insert_leaf_perm, IH. Qed.

(** The leaves of the tree of height [h]. *)
Definition tree_group (h : nat) (U : list elementLeaf) : list elementLeaf :=
  filter (fun l => length (el_MerkleProof l) = h) (sort_leaves U).

Lemma elem_of_group h U l : l ∈ tree_group h U <-> length (el_MerkleProof l) = h /\ l ∈ U.
Proof. unfold tree_group. by rewrite list_elem_of_filter, elem_of_sort_leaves. Qed.

Lemma group_sorted h U : NoDup (map idx U) -> Forall idx_ok U -> sorted (tree_group h U).
Proof.
  intros Hnd Hok. unfold tree_group.
  assert (NoDup (map idx (sort_leaves U))) as Hnd' by (by rewrite sort_leaves_perm).
  assert (Forall idx_ok (sort_leaves U)) as Hok' by (by rewrite sort_leaves_perm).
  induction (sort_leaves_sorted U) as [|x l Hs IH HF]; [constructor|].
  cbn [map] in Hnd'. apply NoDup_cons in Hnd' as [Hni Hnd']. apply Forall_cons in Hok' as [Hx Hok'].
  rewrite filter_cons. specialize (IH Hnd' Hok').
  destruct (decide (length (el_MerkleProof x) = h)) as [Hh|]; [|done]. constructor; [done|].
  apply Forall_forall. intros y [Hy Hin]%list_elem_of_filter.
  rewrite Forall_forall in HF, Hok'. specialize (HF y Hin) as Hk. specialize (Hok' y Hin).
  unfold le_key, by_idx, idx_ok, idx in *. destruct (decide (el_LeafIndex x = el_LeafIndex y)) as [E|]; [|lia].
  exfalso. apply Hni. apply list_elem_of_fmap. exists y. split; [by rewrite E|done].
Qed.

(** The hashes after the leaves [U] changed. *)
Definition update_hashes (L0 : list Hash256) (U : list elementLeaf) : list Hash256 :=
  foldr (fun l L => <[idx l := el_hash l]> L) L0 U.

Lemma length_update L0 U : length (update_hashes L0 U) = length L0.
Proof. induction U; cbn; [done|by rewrite length_insert]. Qed.

Lemma update_same L0 U m : (forall l, l ∈ U -> idx l <> m) -> update_hashes L0 U !! m = L0 !! m.
Proof.
  induction U as [|l U IH]; intros H; [done|]. cbn.
  rewrite list_lookup_insert_ne by (apply H; left). apply IH. intros l' Hl'. apply H. by right.
Qed.

Lemma update_new L0 U l : NoDup (map idx U) -> l ∈ U -> idx l < length L0 ->
  update_hashes L0 U !! idx l = Some (el_hash l).
Proof.
  induction U as [|x U IH]; intros Hnd Hin Hlt; [by apply elem_of_nil in Hin|].
  cbn [map] in Hnd. apply NoDup_cons in Hnd as [Hni Hnd]. cbn. apply elem_of_cons in Hin as [->|Hin].
  - apply list_lookup_insert_eq. by fold (update_hashes L0 U); rewrite length_update.
  - rewrite list_lookup_insert_ne; [by apply IH|]. intros E. apply Hni. rewrite E.
    apply list_elem_of_fmap. by exists l.
Qed.

(** Changed leaves with correct proofs in the forest over [L0]. *)
Record leaves_of (L0 : list Hash256) (U : list elementLeaf) : Prop := {
  lv_nodup : NoDup (map idx U);
  lv_ok : forall l, l ∈ U -> idx_ok l /\ idx l < length L0 /\ forest_proof L0 (idx l) (el_MerkleProof l) }.

Lemma leaves_of_merge L0 U l : leaves_of L0 U -> l ∈ U ->
  merge (idx l) (length L0) (length (el_MerkleProof l)) /\
  el_MerkleProof l = sibs L0 (idx l) 0 (length (el_MerkleProof l)).
Proof.
  intros H Hl. destruct (lv_ok _ _ H l Hl) as (_ & _ & h & Hm & E).
  assert (length (el_MerkleProof l) = h) as -> by (by rewrite E, length_sibs). done.
Qed.

(** All leaves of a group lie in one tree. *)
Lemma group_block L0 U h l : leaves_of L0 U -> l ∈ tree_group h U ->
  under L0 h (length L0 / 2 ^ h - 1) l /\ merge (idx l) (length L0) h.
Proof.
  intros H [Hh Hl]%elem_of_group. destruct (leaves_of_merge _ _ _ H Hl) as [Hm Hp].
  destruct (lv_ok _ _ H l Hl) as (Hi & Hlt & _). rewrite Hh in *. split; [|done].
  destruct (merge_lt _ _ _ Hm Hlt) as [_ E]. split; [done|]. split; [lia|].
  by rewrite take_ge by lia.
Qed.

Lemma updateTree_spec L0 U h : leaves_of L0 U ->
  updateTree h (tree_group h U) = Ok (map (fix_to (update_hashes L0 U) h) (tree_group h U)).
Proof.
  intros H. destruct (tree_group h U) as [|l ls] eqn:Eg; [done|]. unfold updateTree.
  assert (l ∈ tree_group h U) as Hl by (rewrite Eg; left).
  destruct (group_block _ _ _ _ H Hl) as [(Hi & Hb & _) Hm]. set (b := length L0 / 2 ^ h - 1) in *.
  destruct (lv_ok _ _ H l) as (_ & Hlt & _); [by apply elem_of_group in Hl as [_ ?]|].
  destruct (merge_lt _ _ _ Hm Hlt) as [Ho _].
  replace (el_LeafIndex l) with (Z.of_nat (idx l)) by (unfold idx, idx_ok in *; lia).
  rewrite clearBits_nat, Hb. rewrite (recompute_spec L0 (update_hashes L0 U)); [done|done|..].
  - rewrite <- Eg. apply group_sorted; [apply H|]. apply Forall_forall. intros x Hx. by apply (lv_ok _ _ H).
  - apply Forall_forall. intros x Hx. rewrite <- Eg in Hx.
    by destruct (group_block _ _ _ _ H Hx) as [? _].
  - rewrite <- Eg. split.
    + intros x Hx%elem_of_group. apply update_new; [apply H|apply Hx|].
      by destruct (lv_ok _ _ H x (proj2 Hx)) as (? & ? & _).
    + intros m Hmb Hno. apply update_same. intros x Hx <-. apply (Hno x); [|done].
      apply elem_of_group. split; [|done]. destruct (leaves_of_merge _ _ _ H Hx) as [Hmx _].
      apply (merge_unique (idx x) (length L0)); [done|]. apply merge_intro; [done|].
      apply odd_half in Ho. unfold b in Hmb. lia.
Qed.

Lemma for_each_collect {A B} (f : nat -> A -> outcome B) (g : nat -> A -> B) (l : list A) i acc :
  (forall j x, l !! j = Some x -> f (i + j) x = Ok (g (i + j) x)) ->
  for_each l i acc (fun n x done => y ← f n x; Ok (y :: done)) =
  Ok (rev (imap (fun j x => g (i + j) x) l) ++ acc).
Proof.
  revert i acc. induction l as [|x l IH]; intros i acc H; [done|]. cbn [for_each].
  pose proof (H 0 x eq_refl) as E. rewrite Nat.add_0_r in E. rewrite E. cbn [mbind outcome_bind].
  rewrite IH by (intros j y Hy; replace (S i + j) with (i + S j) by lia; by apply H).
  f_equal. rewrite imap_cons. cbn [rev]. rewrite <- app_assoc, Nat.add_0_r. cbn [app].
  do 2 f_equal. apply imap_ext. intros j y _. cbn. f_equal. lia.
Qed.

Definition updated_trees (L1 : list Hash256) (U : list elementLeaf) : list (list elementLeaf) :=
  map (fun h => map (fix_to L1 h) (tree_group h U)) (seq 0 64).

Lemma lookup_updated_trees L1 U h : h < 64 ->
  updated_trees L1 U !! h = Some (map (fix_to L1 h) (tree_group h U)).
Proof. intros H. unfold updated_trees. by rewrite list_lookup_fmap, lookup_seq_lt. Qed.

Lemma height_lt_64 k N h : merge k N h -> k < N -> (Z.of_nat N < 2 ^ 62)%Z -> h < 64.
Proof.
  intros Hm Hk HN. destruct (merge_lt _ _ _ Hm Hk) as [_ E].
  destruct (decide (h < 64)) as [|Hge]; [done|]. exfalso.
  rewrite Nat.div_small in E; [lia|]. apply Nat2Z.inj_lt. rewrite pow2_Z.
  pose proof (Z.pow_le_mono_r 2 62 (Z.of_nat h) ltac:(lia) ltac:(lia)). lia.
Qed.

Lemma updateLeaves_spec L0 U : leaves_of L0 U -> (Z.of_nat (length L0) < 2 ^ 62)%Z ->
  updateLeaves U = Ok (updated_trees (update_hashes L0 U) U).
Proof.
  intros H HN. unfold updateLeaves, group_leaves.
  rewrite (proj2 (forallb_forall _ _)).
  2:{ intros l Hl%list_elem_of_In. apply (elem_of_sort_leaves l U) in Hl. apply Nat.ltb_lt.
      destruct (leaves_of_merge _ _ _ H Hl) as [Hm _]. destruct (lv_ok _ _ H l Hl) as (_ & Hlt & _).
      by eapply height_lt_64. }
  cbn [mbind outcome_bind].
  rewrite (for_each_collect updateTree (fun h ls => map (fix_to (update_hashes L0 U) h) ls)).
  - cbn [fmap outcome_fmap]. rewrite app_nil_r, rev_involutive. done.
  - intros h ls Hh. cbn [Nat.add]. rewrite list_lookup_fmap in Hh.
    destruct (decide (h < 64)); [|by rewrite lookup_seq_ge in Hh by lia].
    rewrite lookup_seq_lt in Hh by done. injection Hh as <-. by apply updateTree_spec.
Qed.

(** ** What an update promises to the holders of other proofs

    [trees] carries, per tree, the leaves by which [L1] differs from [L0], with (at least)
    their siblings in the forest over [L1]. *)
Record update_ok (L0 L1 : list Hash256) (trees : list (list elementLeaf)) : Prop := {
  uo_len : length L1 = length L0;
  uo_64 : length trees = 64;
  uo_changed : forall k h, k < length L0 -> merge k (length L0) h -> L1 !! k <> L0 !! k ->
    exists ls l, trees !! h = Some ls /\ l ∈ ls /\ idx l = k;
  uo_leaf : forall h ls l, trees !! h = Some ls -> l ∈ ls ->
    idx_ok l /\ idx l < length L0 /\ merge (idx l) (length L0) h /\
    L1 !! idx l = Some (el_hash l) /\ take h (el_MerkleProof l) = sibs L1 (idx l) 0 h }.

Lemma updated_trees_ok L0 U : leaves_of L0 U -> (Z.of_nat (length L0) < 2 ^ 62)%Z ->
  update_ok L0 (update_hashes L0 U) (updated_trees (update_hashes L0 U) U).
Proof.
  intros H HN. split; [apply length_update|done|..].
  - intros k h Hk Hm Hne. pose proof (height_lt_64 _ _ _ Hm Hk HN) as Hh.
    destruct (decide (Exists (fun l => idx l = k) U)) as [(l & Hl & E)%Exists_exists|Hno].
    + exists (map (fix_to (update_hashes L0 U) h) (tree_group h U)), (fix_to (update_hashes L0 U) h l).
      split; [by apply lookup_updated_trees|]. split; [|done].
      apply list_elem_of_fmap. exists l. split; [done|]. apply elem_of_group. split; [|done].
      destruct (leaves_of_merge _ _ _ H Hl) as [Hml _]. rewrite E in Hml. by eapply merge_unique.
    + exfalso. apply Hne, update_same. intros l Hl E. apply Hno, Exists_exists. by exists l.
  - intros h ls l Hls Hl.
    assert (h < 64) as Hh by (apply lookup_lt_Some in Hls; done).
    rewrite lookup_updated_trees in Hls by done. injection Hls as <-.
    apply list_elem_of_fmap in Hl as (l0 & -> & Hl).
    destruct (group_block _ _ _ _ H Hl) as [(Hi & _) Hm]. apply elem_of_group in Hl as [Hlen Hl].
    destruct (lv_ok _ _ H l0 Hl) as (_ & Hlt & _).
    change (idx (fix_to _ h l0)) with (idx l0). split_and!; [done|done|done| |].
    + change (el_hash (fix_to _ h l0)) with (el_hash l0). by apply update_new; [apply H|..].
    + unfold fix_to. rewrite proof_setProof. by rewrite take_app_le, take_ge by (rewrite length_sibs; lia).
Qed.

(** A node none of whose leaves is listed is unchanged. *)
Lemma update_node L0 L1 trees h i j : update_ok L0 L1 trees ->
  (forall m, j * 2 ^ i <= m < (j + 1) * 2 ^ i -> m < length L0 /\ merge m (length L0) h) ->
  (forall ls l, trees !! h = Some ls -> l ∈ ls -> idx l / 2 ^ i <> j) ->
  node L1 i j = node L0 i j.
Proof.
  intros H Hin Hno. apply node_agree. intros m Hm. destruct (Hin m Hm) as [Hlt Hmg].
  destruct (decide (L1 !! m = L0 !! m)) as [|Hne]; [done|]. exfalso.
  destruct (uo_changed _ _ _ H m h Hlt Hmg Hne) as (ls & l & Hls & Hl & E).
  apply (Hno ls l Hls Hl). rewrite E. by apply in_block.
Qed.

(** Every leaf under a node of the tree of [k] below its root is in that tree. *)
Lemma same_tree k N h m : k < N -> merge k N h -> m / 2 ^ h = k / 2 ^ h -> m < N /\ merge m N h.
Proof.
  intros Hk Hm E. destruct (merge_lt _ _ _ Hm Hk) as [Ho Hd]. split.
  - apply in_block in E. pose proof (pow2_nz h). pose proof (Nat.div_mod_eq N (2 ^ h)). nia.
  - apply merge_intro; [done|lia].
Qed.

Lemma sibling_same_tree k h l m : l < h -> m / 2 ^ l = sibling (k / 2 ^ l) -> m / 2 ^ h = k / 2 ^ h.
Proof.
  intros Hl E. apply (div_pow_up _ _ (S l)); [lia|]. by rewrite !div_pow_succ, E, sibling_half.
Qed.

Lemma set_roots_rep acc L0 L1 trees : represents acc L0 -> update_ok L0 L1 trees ->
  (forall h ls l, trees !! h = Some ls -> l ∈ ls -> length (el_MerkleProof l) = h) ->
  represents {| ea_Trees := set_roots (ea_Trees acc) trees; ea_NumLeaves := ea_NumLeaves acc |} L1.
Proof.
  intros Hr Hu Hlen. split; cbn [ea_NumLeaves ea_Trees].
  - rewrite (rep_num _ _ Hr). unfold zlen. by rewrite (uo_len _ _ _ Hu).
  - unfold set_roots. by rewrite length_imap, (rep_trees _ _ Hr).
  - unfold zlen. rewrite (uo_len _ _ _ Hu). apply Hr.
  - rewrite (uo_len _ _ _ Hu). intros h Ho. unfold set_roots.
    rewrite list_lookup_imap, (rep_tree _ _ Hr h Ho). cbn [fmap option_fmap option_map]. f_equal.
    assert (h < 64) as Hh by (pose proof (lookup_lt_Some _ _ _ (rep_tree _ _ Hr h Ho)) as E;
      by rewrite (rep_trees _ _ Hr) in E).
    destruct (lookup_lt_is_Some_2 trees h) as [ls Hls]; [by rewrite (uo_64 _ _ _ Hu)|].
    rewrite nth_lookup, Hls. destruct ls as [|l ls]; cbn [default].
    + symmetry. apply (update_node _ _ _ h _ _ Hu).
      * intros m Hm. apply in_block in Hm. apply odd_half in Ho as Hh2. split.
        -- apply in_block in Hm. pose proof (pow2_nz h). pose proof (Nat.div_mod_eq (length L0) (2 ^ h)). nia.
        -- apply merge_intro; [done|lia].
      * intros ls l E Hl. rewrite Hls in E. injection E as <-. by apply elem_of_nil in Hl.
    + destruct (uo_leaf _ _ _ Hu h (l :: ls) l Hls ltac:(left)) as (Hi & Hlt & Hm & Hl1 & Hp).
      pose proof (Hlen h (l :: ls) l Hls ltac:(left)) as Hll. rewrite take_ge in Hp by lia.
      destruct (merge_lt _ _ _ Hm Hlt) as [_ E].
      change (el_proofRoot l = node L1 h (length L0 / 2 ^ h - 1)). unfold el_proofRoot, proofRoot.
      replace (el_LeafIndex l) with (Z.of_nat (idx l)) by (unfold idx, idx_ok in *; lia).
      rewrite Hp. replace (el_hash l) with (node L1 0 (idx l / 2 ^ 0)) by (rewrite node_zero, Nat.div_1_r, Hl1; done).
      change 0%Z with (Z.of_nat 0). rewrite proofRoot_sibs. cbn [Nat.add]. f_equal. lia.
Qed.

(** ** [updateProof] *)
Lemma closest_spec k ls : forall best, let b := closest k best ls in
  (b = best \/ b ∈ ls) /\
  forall l, l = best \/ l ∈ ls ->
    (mergeHeight k (el_LeafIndex b) <= mergeHeight k (el_LeafIndex l))%Z.
Proof.
  induction ls as [|x ls IH]; intros best; cbn [closest foldl].
  - split; [by left|]. intros l [->|Hl]; [lia|by apply elem_of_nil in Hl].
  - unfold closest in IH.
    destruct (IH (if (mergeHeight k (el_LeafIndex x) <? mergeHeight k (el_LeafIndex best))%Z then x else best))
      as [Hb Hmin].
    set (best' := if (_ <? _)%Z then x else best) in *. split.
    + destruct Hb as [->|Hb]; [|right; by right]. unfold best'. destruct (_ <? _)%Z; [right; left|by left].
    + assert (forall y, (y = best \/ y = x) ->
        (mergeHeight k (el_LeafIndex best') <= mergeHeight k (el_LeafIndex y))%Z) as Hy.
      { intros y Hy. unfold best'. destruct (_ <? _)%Z eqn:E; [apply Z.ltb_lt in E|apply Z.ltb_ge in E];
          destruct Hy as [->| ->]; lia. }
      pose proof (Hmin best' ltac:(by left)) as Hbb.
      intros l [->|[->|Hl]%elem_of_cons]; [etransitivity; [exact Hbb|apply Hy; by left]
        |etransitivity; [exact Hbb|apply Hy; by right]|apply Hmin; by right].
Qed.

Lemma se_eta e : se_setProof (fun _ => se_MerkleProof e) e = e.
Proof. by destruct e. Qed.

Lemma se_setProof_ext f p e : f (se_MerkleProof e) = p -> se_setProof f e = se_setProof (fun _ => p) e.
Proof. destruct e. unfold se_setProof. cbn. by intros ->. Qed.

Section UpdateProof.
Context (L0 L1 : list Hash256) (trees : list (list elementLeaf)) (k h : nat).
Context (Hu : update_ok L0 L1 trees) (Hk : k < length L0) (Hm : merge k (length L0) h).

(** Siblings up to level [m] are unchanged if no listed leaf merges below it. *)
Lemma siblings_unchanged m : m <= h ->
  (forall ls l l', trees !! h = Some ls -> l ∈ ls -> merge k (idx l) l' -> m <= l') ->
  sibs L1 k 0 m = sibs L0 k 0 m.
Proof.
  intros Hmh Hno. apply sibs_agree. intros l Hl. apply (update_node _ _ _ h _ _ Hu).
  - intros x Hx. apply in_block in Hx. apply (same_tree k); [done|done|].
    by apply (sibling_same_tree k h l); [lia|].
  - intros ls x Hls Hx E. apply sibling_merge in E. specialize (Hno ls x l Hls Hx E). lia.
Qed.

Lemma listed_same_tree ls l : trees !! h = Some ls -> l ∈ ls -> idx l / 2 ^ h = k / 2 ^ h.
Proof.
  intros Hls Hl. destruct (uo_leaf _ _ _ Hu h ls l Hls Hl) as (_ & Hlt & Hml & _).
  destruct (merge_lt _ _ _ Hml Hlt) as [_ E1]. destruct (merge_lt _ _ _ Hm Hk) as [_ E2]. lia.
Qed.

(** The proof of [k] spliced with that of a leaf [kb] that merges with it above level [m]. *)
Lemma splice kb m p bp : m < h -> merge k kb m -> p = sibs L0 k 0 h ->
  take h bp = sibs L1 kb 0 h -> sibs L1 k 0 m = sibs L0 k 0 m ->
  <[m := node L1 m (kb / 2 ^ m)]>
    (take (m + 1) p ++ copy_into (drop (m + 1) p) (drop (m + 1) bp)) = sibs L1 k 0 h.
Proof.
  intros Hlt Hmb -> Hbp Hlow. assert (h <= length bp) as Hbl.
  { apply (f_equal length) in Hbp. rewrite length_take, length_sibs in Hbp. lia. }
  assert (copy_into (drop (m + 1) (sibs L0 k 0 h)) (drop (m + 1) bp) = sibs L1 k (m + 1) (h - (m + 1))) as ->.
  { unfold copy_into. rewrite !length_drop, length_sibs. rewrite (drop_ge _ (length bp - _)) by (rewrite length_drop, length_sibs; lia).
    rewrite app_nil_r, take_drop_commute. replace (m + 1 + (h - (m + 1))) with h by lia.
    rewrite Hbp, drop_sibs by lia. cbn [Nat.add]. apply sibs_same_block.
    destruct Hmb as [E _]. rewrite Nat.add_1_r. done. }
  rewrite take_sibs by lia. rewrite Nat.add_1_r, sibs_snoc. cbn [Nat.add].
  rewrite <- app_assoc, insert_app_r_alt by (rewrite length_sibs; lia).
  rewrite length_sibs, Nat.sub_diag. cbn [app]. rewrite <- Hlow.
  replace h with (m + S (h - S m)) at 2 by lia. rewrite sibs_app. f_equal. cbn [Nat.add].
  change (node L1 m (kb / 2 ^ m) :: sibs L1 k (S m) (h - S m) =
    node L1 m (sibling (k / 2 ^ m)) :: sibs L1 k (S m) (h - S m)).
  by rewrite (merge_sibling _ _ _ Hmb).
Qed.

Lemma updateProof_spec e : (Z.of_nat (length L0) < 2 ^ 62)%Z -> se_LeafIndex e = Z.of_nat k ->
  forest_proof L0 k (se_MerkleProof e) ->
  updateProof e trees = Ok (se_setProof (fun _ => sibs L1 k 0 h) e).
Proof.
  intros HN He Hp. apply (forest_proof_eq _ _ _ _ Hm) in Hp.
  assert (length (se_MerkleProof e) = h) as Hlen by (by rewrite Hp, length_sibs).
  unfold updateProof. rewrite Hlen.
  destruct (lookup_lt_is_Some_2 trees h) as [ls Hls];
    [rewrite (uo_64 _ _ _ Hu); by eapply height_lt_64|]. rewrite Hls.
  destruct ls as [|first rest].
  { rewrite siblings_unchanged; [|done|].
    - rewrite <- Hp. by rewrite se_eta.
    - intros ls l l' E Hl. rewrite Hls in E. injection E as <-. by apply elem_of_nil in Hl. }
  rewrite He. destruct (closest_spec (Z.of_nat k) rest first) as [Hb Hmin].
  set (best := closest _ _ _) in *.
  assert (best ∈ first :: rest) as Hbin by (rewrite elem_of_cons; tauto).
  destruct (uo_leaf _ _ _ Hu h _ best Hls Hbin) as (Hbi & Hblt & Hbm & Hbh & Hbp).
  assert (el_LeafIndex best = Z.of_nat (idx best)) as Ebi by (unfold idx, idx_ok in *; lia).
  assert (h <= length (el_MerkleProof best)) as Hbl.
  { apply (f_equal length) in Hbp. rewrite length_take, length_sibs in Hbp. lia. }
  rewrite Ebi in *. destruct (Z.of_nat (idx best) =? Z.of_nat k)%Z eqn:E.
  - apply Z.eqb_eq in E. assert (idx best = k) as Ek by lia. f_equal. apply se_setProof_ext.
    unfold copy_into. rewrite Hlen, drop_ge, app_nil_r by lia. by rewrite Hbp, Ek.
  - apply Z.eqb_neq in E. destruct (merge_exists k (idx best)) as (m & Hmb & Hmh); [lia|].
    rewrite Hmh. pose proof (listed_same_tree _ _ Hls Hbin) as Hst.
    assert (m < h) as Hlt.
    { destruct (decide (m < h)) as [|]; [done|]. exfalso. apply (proj2 Hmb).
      apply (div_pow_up _ _ h); [lia|done]. }
    rewrite Nat2Z.id, (proj2 (Nat.ltb_ge _ _)), (proj2 (Nat.ltb_ge _ _)) by lia. cbn [orb].
    replace (m + 1 - 1) with m by lia. f_equal. apply se_setProof_ext.
    assert (proofRoot (el_hash best) (Z.of_nat (idx best)) (take m (el_MerkleProof best)) =
            node L1 m (idx best / 2 ^ m)) as ->.
    { assert (take m (el_MerkleProof best) = sibs L1 (idx best) 0 m) as ->.
      { apply (f_equal (take m)) in Hbp. rewrite take_take, Nat.min_l in Hbp by lia.
        rewrite Hbp. apply take_sibs. lia. }
      unfold proofRoot. change 0%Z with (Z.of_nat 0).
      replace (el_hash best) with (node L1 0 (idx best / 2 ^ 0)) by (rewrite node_zero, Nat.div_1_r, Hbh; done).
      by rewrite proofRoot_sibs. }
    apply splice; [done|done|done|done|]. apply siblings_unchanged; [lia|].
    intros ls l l' Hls' Hl Hml. rewrite Hls in Hls'. injection Hls' as <-.
    specialize (Hmin l (proj1 (elem_of_cons _ _ _) Hl)).
    destruct (uo_leaf _ _ _ Hu h _ l Hls Hl) as (Hli & _).
    replace (el_LeafIndex l) with (Z.of_nat (idx l)) in Hmin by (unfold idx, idx_ok in *; lia).
    rewrite Hmh, (merge_height _ _ _ Hml) in Hmin. lia.
Qed.
End UpdateProof.
End Update.
