(* ===== verification/ConsensusAccumulatorSpec.v ===== *)
(** * Applying and reverting blocks on the element accumulator

    The theorems of [core/consensus/merkle.go]: membership is sound, [applyBlock] refines the
    abstract forest and keeps every proof valid, and [revertBlock] undoes it. *)
From stdpp Require Import prelude strings.
From Stdlib Require Import ZArith Lia.
From S2P Require Import Prelude TypesData TypesEncoding TypesHash SampleCrypto TypesMerkle.
From S2P Require Import ConsensusState ConsensusMerkle MerkleForest ConsensusMerkleSpec ConsensusMerkleUpdateSpec.
Local Open Scope nat_scope.

Section Blocks.
Context {crypto : Crypto}.

Definition unshared (l : elementLeaf) : Prop := se_shared (el_StateElement l) = false.

Lemma move_all_ok ls : (forall l, l ∈ ls -> unshared l) -> move_all ls = Ok tt.
Proof.
  unfold move_all. generalize 0 as i. induction ls as [|l ls IH]; intros i H; [done|]. cbn [for_each].
  assert (StateElement_Move (el_StateElement l) = Ok (el_StateElement l)) as ->
    by (unfold StateElement_Move; by rewrite (H l ltac:(left))). cbn [mbind outcome_bind].
  apply IH. intros x Hx. apply H. by right.
Qed.

Lemma fix_to_length L1 h U l : l ∈ tree_group h U -> length (el_MerkleProof (fix_to L1 h l)) = h.
Proof.
  intros [Hl _]%elem_of_group. unfold fix_to. rewrite proof_setProof, length_app, length_sibs, length_drop. lia.
Qed.

Lemma nth_updated L1 U h : h < 64 -> nth h (updated_trees L1 U) [] = map (fix_to L1 h) (tree_group h U).
Proof. intros H. by rewrite nth_lookup, lookup_updated_trees. Qed.

(** The proof of an old leaf after the forest over [L1] grew by [X]. *)
Lemma old_leaf_grows L1 X growth k h : grown (length L1) (settled (L1 ++ X)) growth ->
  (Z.of_nat (length L1) < 2 ^ 62)%Z -> k < length L1 -> merge k (length L1) h ->
  exists g, growth !! h = Some g /\ forest_proof (L1 ++ X) k (sibs L1 k 0 h ++ g).
Proof.
  intros [_ Hg] HN Hk Hm. destruct (Hg h) as (g & Eg & Hs); [by eapply height_lt_64|].
  destruct (merge_lt _ _ _ Hm Hk) as [Ho _]. rewrite Ho in Hs. exists g. split; [done|].
  apply (growth_extends L1 X k h); [done|done|by exists h|done].
Qed.

(** The accumulator after a block, and the update handed to proof holders. *)
Record block_applied (L1 : list Hash256) (X : list Hash256) (U : list elementLeaf)
    (added added' : list elementLeaf) (acc' : ElementAccumulator) (eau : elementApplyUpdate) : Prop := {
  ba_rep : represents acc' (L1 ++ X);
  ba_grown : grown (length L1) (settled (L1 ++ X)) (eau_treeGrowth eau);
  ba_old : eau_oldNumLeaves eau = Z.of_nat (length L1);
  ba_num : eau_numLeaves eau = Z.of_nat (length (L1 ++ X));
  ba_updated : forall h, h < 64 -> exists g, eau_treeGrowth eau !! h = Some g /\
    eau_updated eau !! h = Some (map (el_setProof (fun p => p ++ g)) (map (fix_to L1 h) (tree_group h U)));
  ba_len : length (eau_updated eau) = 64;
  ba_added : placed (length L1) (length added) (fun k p => settled (L1 ++ X) k 0 p) added added' }.

Lemma applyBlock_spec acc L0 U added :
  let N0 := length L0 in let L1 := update_hashes L0 U in let X := added_hashes N0 added in
  represents acc L0 -> leaves_of L0 U -> (Z.of_nat (N0 + length added) < 2 ^ 62)%Z ->
  (forall l, l ∈ U -> unshared l) -> (forall l, l ∈ added -> unshared l /\ el_MerkleProof l = []) ->
  exists acc' eau added', applyBlock acc U added = Ok (acc', eau, added') /\
    block_applied L1 X U added added' acc' eau.
Proof.
  intros N0 L1 X Hr HU HN Hsh Hadd. assert (length L1 = N0) as HL1 by apply length_update.
  unfold applyBlock. rewrite !move_all_ok by (done || intros l Hl; by destruct (Hadd l Hl)).
  cbn [mbind outcome_bind]. rewrite (updateLeaves_spec L0 U HU) by (fold N0; lia). fold L1.
  cbn [mbind outcome_bind].
  pose proof (updated_trees_ok L0 U HU ltac:(fold N0; lia)) as Hok. fold L1 in Hok.
  pose proof (set_roots_rep acc L0 L1 _ Hr Hok) as Hr1.
  destruct (addLeaves_spec {| ea_Trees := set_roots (ea_Trees acc) (updated_trees L1 U);
      ea_NumLeaves := ea_NumLeaves acc |} L1 added) as (acc' & added' & growth & E & Hr' & Hp & Hg).
  - apply Hr1. intros h ls l Hls Hl. assert (h < 64) as Hh by (by apply lookup_lt_Some in Hls).
    rewrite lookup_updated_trees in Hls by done. injection Hls as <-.
    apply list_elem_of_fmap in Hl as (l0 & -> & Hl). by eapply fix_to_length.
  - by rewrite HL1.
  - intros l Hl. by destruct (Hadd l Hl).
  - rewrite HL1 in *. fold X in Hr', Hp, Hg. rewrite E. eexists _, _, _. split; [done|].
    split; cbn [eau_treeGrowth eau_oldNumLeaves eau_numLeaves eau_updated]; rewrite ?HL1; try done.
    + apply (rep_num _ _ Hr).
    + apply (rep_num _ _ Hr').
    + intros h Hh. destruct Hg as [_ Hg]. destruct (Hg h Hh) as (g & Eg & _). exists g. split; [done|].
      rewrite list_lookup_imap, lookup_updated_trees by done. cbn [fmap option_fmap option_map].
      by rewrite nth_lookup, Eg.
Qed.

(** The growth is appended to the listed leaves too; their siblings below stay readable. *)
Lemma applied_update_ok L0 L1 X U added added' acc' eau : leaves_of L0 U -> L1 = update_hashes L0 U ->
  (Z.of_nat (length L0) < 2 ^ 62)%Z -> block_applied L1 X U added added' acc' eau ->
  update_ok L0 L1 (eau_updated eau).
Proof.
  intros HU -> HN Hba. destruct (updated_trees_ok L0 U HU HN) as [H1 _ H3 H4].
  split; [done|apply Hba|..].
  - intros k h Hk Hm Hne. destruct (H3 k h Hk Hm Hne) as (ls & l & Hls & Hl & Ek).
    assert (h < 64) as Hh by (by apply lookup_lt_Some in Hls).
    rewrite lookup_updated_trees in Hls by done. injection Hls as <-.
    destruct (ba_updated _ _ _ _ _ _ _ Hba h Hh) as (g & _ & ->).
    eexists _, (el_setProof (fun p => p ++ g) l). split; [done|]. split; [|done].
    apply list_elem_of_fmap. by exists l.
  - intros h ls l Hls Hl.
    assert (h < 64) as Hh by (apply lookup_lt_Some in Hls; by rewrite (ba_len _ _ _ _ _ _ _ Hba) in Hls).
    destruct (ba_updated _ _ _ _ _ _ _ Hba h Hh) as (g & _ & E). rewrite Hls in E. injection E as ->.
    apply list_elem_of_fmap in Hl as (l0 & -> & Hl).
    destruct (H4 h _ l0 (lookup_updated_trees _ _ _ Hh) Hl) as (A1 & A2 & A3 & A4 & A5).
    split_and!; try done. rewrite proof_setProof. apply list_elem_of_fmap in Hl as (l1 & -> & Hl).
    rewrite take_app_le by (by rewrite (fix_to_length _ _ U)). exact A5.
Qed.

Lemma eau_update_spec L0 L1 X U added added' acc' eau e k : leaves_of L0 U ->
  L1 = update_hashes L0 U -> (Z.of_nat (length L0) < 2 ^ 62)%Z ->
  block_applied L1 X U added added' acc' eau ->
  k < length L0 -> se_shared e = false -> se_LeafIndex e = Z.of_nat k ->
  forest_proof L0 k (se_MerkleProof e) ->
  exists p, eau_updateElementProof eau e = Ok (se_setProof (fun _ => p) e) /\
    forest_proof (L1 ++ X) k p.
Proof.
  intros HU EL1 HN Hba Hk Hsh He Hp. pose proof (applied_update_ok _ _ _ _ _ _ _ _ HU EL1 HN Hba) as Huo.
  assert (length L1 = length L0) as HL1 by (by rewrite EL1, length_update).
  destruct (merge_exists k (length L0)) as (h & Hm & _); [lia|].
  unfold eau_updateElementProof, StateElement_Move. rewrite Hsh. cbn [mbind outcome_bind].
  change (2 ^ 62)%Z with 4611686018427387904%Z in HN.
  rewrite He, (proj2 (Z.eqb_neq (Z.of_nat k) UnassignedLeafIndex)) by (unfold UnassignedLeafIndex; lia).
  rewrite (ba_old _ _ _ _ _ _ _ Hba), HL1, (proj2 (Z.leb_gt _ _)) by lia.
  rewrite (updateProof_spec L0 L1 _ k h) by (done || change (2 ^ 62)%Z with 4611686018427387904%Z; lia).
  cbn [mbind outcome_bind se_setProof se_MerkleProof se_LeafIndex].
  rewrite length_sibs, (ba_num _ _ _ _ _ _ _ Hba), He.
  destruct (old_leaf_grows L1 X (eau_treeGrowth eau) k h) as (g & Eg & Hg);
    [apply Hba|rewrite HL1; change (2 ^ 62)%Z with 4611686018427387904%Z; lia|lia|by rewrite HL1|].
  pose proof Hg as (h' & Hm' & E').
  assert (h <= h') as Hle.
  { apply (f_equal length) in E'. rewrite length_app, !length_sibs in E'. lia. }
  assert (mergeHeight (Z.of_nat (length (L1 ++ X))) (Z.of_nat k) = Z.of_nat (h' + 1)) as ->
    by (apply merge_height; by apply merge_sym).
  rewrite (proj2 (Z.eqb_neq _ _)) by lia. rewrite Eg. by exists (sibs L1 k 0 h ++ g).
Qed.
(** The leaves of the update and the added leaves are members of the new accumulator. *)
Lemma updated_member L0 U added added' acc' eau l :
  let L1 := update_hashes L0 U in let X := added_hashes (length L0) added in
  leaves_of L0 U -> (Z.of_nat (length L0) < 2 ^ 62)%Z -> block_applied L1 X U added added' acc' eau ->
  l ∈ U -> exists ls l', l' ∈ ls /\ ls ∈ eau_updated eau /\
    el_ref l' = el_ref l /\ el_hash l' = el_hash l /\ containsLeaf acc' l' = true.
Proof.
  intros L1 X HU HN Hba Hl. destruct (leaves_of_merge _ _ _ HU Hl) as [Hm _].
  destruct (lv_ok _ _ HU l Hl) as (Hi & Hlt & _). set (h := length (el_MerkleProof l)) in *.
  pose proof (height_lt_64 _ _ _ Hm Hlt HN) as Hh.
  destruct (ba_updated _ _ _ _ _ _ _ Hba h Hh) as (g & Eg & Els).
  set (l' := el_setProof (fun p => p ++ g) (fix_to L1 h l)).
  assert (length L1 = length L0) as HL1 by apply length_update.
  destruct (old_leaf_grows L1 X (eau_treeGrowth eau) (idx l) h)
    as (g' & Eg' & Hg); [apply Hba|by rewrite HL1|lia|by rewrite HL1|].
  rewrite Eg in Eg'. injection Eg' as <-.
  eexists _, l'. split; [|split; [by eapply list_elem_of_lookup_2|split; [done|split; [done|]]]].
  - apply list_elem_of_fmap. exists (fix_to L1 h l). split; [done|]. apply list_elem_of_fmap.
    exists l. split; [done|]. by apply elem_of_group.
  - apply (containsLeaf_complete acc' (L1 ++ X) (idx l)); [apply Hba| | |].
    + change (el_hash l') with (el_hash l). rewrite lookup_app_l by lia.
      apply update_new; [apply HU|done|done].
    + change (el_LeafIndex l = Z.of_nat (idx l)). unfold idx, idx_ok in *. lia.
    + unfold l', fix_to. rewrite !proof_setProof. by rewrite (drop_ge _ h), app_nil_r by done.
Qed.

Lemma added_member L0 U added added' acc' eau j l :
  let L1 := update_hashes L0 U in let X := added_hashes (length L0) added in
  block_applied L1 X U added added' acc' eau -> added !! j = Some l ->
  exists l', added' !! j = Some l' /\ el_LeafIndex l' = Z.of_nat (length L0 + j) /\
    el_elementHash l' = el_elementHash l /\ el_spent l' = el_spent l /\ containsLeaf acc' l' = true.
Proof.
  intros L1 X Hba Hj. pose proof (proj2 (ba_added _ _ _ _ _ _ _ Hba) j l Hj) as Hp.
  unfold L1 in Hp. rewrite length_update in Hp. fold L1 in Hp.
  rewrite decide_True in Hp by (by eapply lookup_lt_Some).
  destruct Hp as (p & Ea & Hs). eexists. split; [done|]. do 3 (split; [done|]).
  apply (containsLeaf_complete acc' (L1 ++ X) (length L0 + j)); [apply Hba| |done|by apply settled_forest].
  unfold L1. rewrite lookup_app_r, length_update by (rewrite length_update; lia).
  replace (length L0 + j - length L0) with j by lia. unfold X, added_hashes.
  by rewrite list_lookup_imap, Hj.
Qed.
(** ** Reverting *)

Lemma update_unchanged L0 U0 : (forall l, l ∈ U0 -> L0 !! idx l = Some (el_hash l)) ->
  update_hashes L0 U0 = L0.
Proof.
  induction U0 as [|l U0 IH]; intros H; [done|]. cbn. fold (update_hashes L0 U0).
  rewrite IH by (intros x Hx; apply H; by right). apply list_insert_id. apply H. left.
Qed.

(** The old versions of the changed leaves lead from [L1] back to [L0]. *)
Lemma revert_update_ok L0 U U0 : leaves_of L0 U0 -> (Z.of_nat (length L0) < 2 ^ 62)%Z ->
  (forall l, l ∈ U0 -> L0 !! idx l = Some (el_hash l)) ->
  (forall l, l ∈ U -> exists l0, l0 ∈ U0 /\ idx l0 = idx l) ->
  update_ok (update_hashes L0 U) L0 (updated_trees L0 U0).
Proof.
  intros H0 HN Hh Hsub. pose proof (updated_trees_ok L0 U0 H0 HN) as Hok.
  rewrite (update_unchanged L0 U0 Hh) in Hok. destruct Hok as [_ _ _ H4].
  split; rewrite ?length_update; [done|done| |exact H4].
  intros k h Hk Hm Hne. pose proof (height_lt_64 _ _ _ Hm Hk HN) as Hh64.
  destruct (decide (Exists (fun l => idx l = k) U)) as [(l & Hl & E)%Exists_exists|Hno].
  - destruct (Hsub l Hl) as (l0 & Hl0 & E0).
    exists (map (fix_to L0 h) (tree_group h U0)), (fix_to L0 h l0).
    split; [by apply lookup_updated_trees|]. split; [|by change (idx (fix_to L0 h l0)) with (idx l0); congruence].
    apply list_elem_of_fmap. exists l0. split; [done|]. apply elem_of_group. split; [|done].
    destruct (leaves_of_merge _ _ _ H0 Hl0) as [Hml _]. rewrite E0, E in Hml. by eapply merge_unique.
  - exfalso. apply Hne. symmetry. apply update_same. intros l Hl E. apply Hno, Exists_exists. by exists l.
Qed.

Lemma merge_grows k N X h h' : k < N -> merge k N h -> merge k (N + X) h' -> h <= h'.
Proof.
  intros Hk Hm [H1 _]. destruct (merge_lt _ _ _ Hm Hk) as [_ E].
  destruct (decide (h <= h')) as [|Hlt]; [done|]. exfalso.
  pose proof (div_pow_up _ _ (S h') h ltac:(lia) H1). pose proof (div_pow_le N (N + X) h ltac:(lia)). lia.
Qed.

Lemma eru_update_spec acc L0 U U0 X e k : leaves_of L0 U0 -> represents acc L0 ->
  (forall l, l ∈ U0 -> L0 !! idx l = Some (el_hash l)) ->
  (forall l, l ∈ U -> exists l0, l0 ∈ U0 /\ idx l0 = idx l) ->
  k < length L0 -> se_shared e = false -> se_LeafIndex e = Z.of_nat k ->
  forest_proof (update_hashes L0 U ++ X) k (se_MerkleProof e) ->
  let eru := {| eru_updated := updated_trees L0 U0; eru_numLeaves := ea_NumLeaves acc |} in
  exists p, eru_updateElementProof eru e = Ok (se_setProof (fun _ => p) e) /\ forest_proof L0 k p.
Proof.
  intros H0 Hr Hh Hsub Hk Hsh He (h' & Hm' & Ep) eru. set (L1 := update_hashes L0 U) in *.
  assert (length L1 = length L0) as HL1 by apply length_update.
  pose proof (rep_bound _ _ Hr) as HN. unfold zlen in HN.
  pose proof (revert_update_ok L0 U U0 H0 HN Hh Hsub) as Huo. fold L1 in Huo.
  destruct (merge_exists k (length L0)) as (h & Hm & _); [lia|].
  rewrite length_app, HL1 in Hm'. pose proof (merge_grows _ _ _ _ _ Hk Hm Hm') as Hle.
  unfold eru_updateElementProof, StateElement_Move. rewrite Hsh. cbn [mbind outcome_bind].
  change (2 ^ 62)%Z with 4611686018427387904%Z in HN.
  rewrite He, (proj2 (Z.eqb_neq (Z.of_nat k) UnassignedLeafIndex)) by (unfold UnassignedLeafIndex; lia).
  cbn [eru_numLeaves eru]. rewrite (rep_num _ _ Hr). unfold zlen. rewrite (proj2 (Z.leb_gt _ _)) by lia.
  rewrite (merge_height (length L0) k h) by (by apply merge_sym).
  match goal with |- context [updateProof ?x _] =>
    assert (x = se_setProof (fun _ => sibs L1 k 0 h) e) as -> end.
  { pose proof (sibs_app_leaves L1 X k 0 h ltac:(by rewrite HL1) ltac:(lia) ltac:(lia)) as Es.
    rewrite Nat.sub_0_r in Es. rewrite Ep, length_sibs.
    destruct (_ <=? _)%Z eqn:Ele.
    - apply Z.leb_le in Ele. apply se_setProof_ext. rewrite Ep.
      replace (Z.to_nat (Z.of_nat (h + 1) - 1)) with h by lia. by rewrite take_sibs.
    - apply Z.leb_gt in Ele. assert (h' = h) as -> by lia. rewrite <- Es, <- Ep. symmetry. apply se_eta. }
  rewrite (updateProof_spec L1 L0 _ k h).
  - exists (sibs L0 k 0 h). split; [by destruct e|]. by exists h.
  - exact Huo.
  - lia.
  - by rewrite HL1.
  - rewrite HL1. change (2 ^ 62)%Z with 4611686018427387904%Z. lia.
  - exact He.
  - exists h. by rewrite HL1.
Qed.
End Blocks.

(** C21: membership proofs are complete and sound.  A leaf of the forest that carries its
    sibling path is accepted by [containsLeaf]; and if [containsLeaf] accepts any claimed
    leaf, then the forest has at that very index a leaf with the same element hash and the
    same spent flag, or two different strings with one BLAKE2b digest are exhibited, one
    hashed by the forest and the other by the check of the proof. *)
Theorem containsLeaf_complete_and_sound {crypto : Crypto} {sizes : CryptoSizes}
    acc (LL : list elementLeaf) (l : elementLeaf) :
  represents acc (map el_hash LL) -> leaves_ok LL ->
  is_u64 (el_LeafIndex l) -> length (el_elementHash l) = 32 ->
  (forall k l', LL !! k = Some l' -> forest_proof (map el_hash LL) k (el_MerkleProof l) ->
     el_LeafIndex l = Z.of_nat k -> el_elementHash l = el_elementHash l' ->
     el_spent l = el_spent l' -> containsLeaf acc l = true) /\
  (containsLeaf acc l = true ->
   (exists l', LL !! Z.to_nat (el_LeafIndex l) = Some l' /\
      el_elementHash l' = el_elementHash l /\ el_spent l' = el_spent l) \/ collision LL l).
Proof.
  intros Hr Hok Hi Hh. split; [|by apply containsLeaf_sound_aux].
  intros k l' Hk Hp Hix He Hs. apply (containsLeaf_complete acc (map el_hash LL) k); [done| |done|done].
  rewrite list_lookup_fmap, Hk. cbn. f_equal. unfold el_hash.
  by rewrite He, Hs, Hix, (lo_index _ Hok _ _ Hk).
Qed.

(** C22: [applyBlock] refines the abstract forest.  From an accumulator for [L0], changing the
    leaves [U] (given with valid proofs) and adding fresh leaves never panics and yields the
    accumulator of the changed and extended list; every leaf of the update and every added
    leaf is a member of it; and the holder of any other valid proof gets a valid proof for
    the new accumulator from [updateElementProof]. *)
Theorem applyBlock_refines {crypto : Crypto} acc L0 U added :
  let L' := update_hashes L0 U ++ added_hashes (length L0) added in
  represents acc L0 -> leaves_of L0 U -> (Z.of_nat (length L0 + length added) < 2 ^ 62)%Z ->
  (forall l, l ∈ U -> unshared l) -> (forall l, l ∈ added -> unshared l /\ el_MerkleProof l = []) ->
  exists acc' eau added', applyBlock acc U added = Ok (acc', eau, added') /\
    represents acc' L' /\
    (forall l, l ∈ U -> exists ls l', l' ∈ ls /\ ls ∈ eau_updated eau /\
       el_ref l' = el_ref l /\ el_hash l' = el_hash l /\ containsLeaf acc' l' = true) /\
    (forall j l, added !! j = Some l -> exists l', added' !! j = Some l' /\
       el_LeafIndex l' = Z.of_nat (length L0 + j) /\ el_elementHash l' = el_elementHash l /\
       el_spent l' = el_spent l /\ containsLeaf acc' l' = true) /\
    (forall e k, k < length L0 -> se_shared e = false -> se_LeafIndex e = Z.of_nat k ->
       forest_proof L0 k (se_MerkleProof e) ->
       exists p, eau_updateElementProof eau e = Ok (se_setProof (fun _ => p) e) /\
         forest_proof L' k p).
Proof.
  intros L' Hr HU HN Hsh Hadd.
  destruct (applyBlock_spec acc L0 U added Hr HU HN Hsh Hadd) as (acc' & eau & added' & E & Hba).
  exists acc', eau, added'. split; [done|]. split; [apply Hba|].
  assert (Z.of_nat (length L0) < 2 ^ 62)%Z as HN' by lia. split; [|split].
  - intros l Hl. by apply (updated_member L0 U added added').
  - intros j l Hj. by apply (added_member L0 U added added' acc' eau).
  - intros e k Hk He Hix Hp. by apply (eau_update_spec L0 _ _ U added added' acc').
Qed.

(** C23: [revertBlock] undoes [applyBlock] for the holders of proofs.  Given the old versions of
    the changed leaves, reverting does not panic; it turns every valid proof of an element
    that existed before the block into its valid proof before the block, so an element
    carried forward by the apply update and back by the revert update is unchanged. *)
Theorem revertBlock_undoes {crypto : Crypto} acc L0 U U0 added :
  let L' := update_hashes L0 U ++ added_hashes (length L0) added in
  represents acc L0 -> leaves_of L0 U -> leaves_of L0 U0 ->
  (forall l, l ∈ U0 -> L0 !! idx l = Some (el_hash l)) ->
  (forall l, l ∈ U -> exists l0, l0 ∈ U0 /\ idx l0 = idx l) ->
  (Z.of_nat (length L0 + length added) < 2 ^ 62)%Z ->
  (forall l, l ∈ U ++ U0 -> unshared l) -> (forall l, l ∈ added -> unshared l /\ el_MerkleProof l = []) ->
  exists acc' eau added' eru added'',
    applyBlock acc U added = Ok (acc', eau, added') /\
    revertBlock acc U0 added = Ok (eru, added'') /\
    (forall e k, k < length L0 -> se_shared e = false -> se_LeafIndex e = Z.of_nat k ->
       forest_proof L' k (se_MerkleProof e) ->
       exists p, eru_updateElementProof eru e = Ok (se_setProof (fun _ => p) e) /\ forest_proof L0 k p) /\
    (forall e k, k < length L0 -> se_shared e = false -> se_LeafIndex e = Z.of_nat k ->
       forest_proof L0 k (se_MerkleProof e) ->
       exists e1, eau_updateElementProof eau e = Ok e1 /\ eru_updateElementProof eru e1 = Ok e).
Proof.
  intros L' Hr HU H0 Hh Hsub HN Hsh Hadd.
  destruct (applyBlock_spec acc L0 U added Hr HU HN) as (acc' & eau & added' & E & Hba);
    [intros l Hl; apply Hsh, elem_of_app; by left|done|].
  assert (Z.of_nat (length L0) < 2 ^ 62)%Z as HN' by lia.
  eexists acc', eau, added', _, _. split; [done|]. unfold revertBlock.
  rewrite !move_all_ok by (intros l Hl; (by destruct (Hadd l Hl)) || (apply Hsh, elem_of_app; by right)).
  cbn [mbind outcome_bind]. rewrite (updateLeaves_spec L0 U0 H0 HN').
  rewrite (update_unchanged L0 U0 Hh). cbn [mbind outcome_bind]. split; [done|].
  split; [intros e k Hk Hse Hi Hp; by apply (eru_update_spec acc L0 U U0 (added_hashes (length L0) added) e k)|].
  intros e k Hk Hse Hi Hp.
  destruct (eau_update_spec L0 _ _ U added added' acc' eau e k HU eq_refl HN' Hba Hk Hse Hi Hp) as (p & Ep & Hfp).
  eexists. split; [done|].
  destruct (eru_update_spec acc L0 U U0 (added_hashes (length L0) added) (se_setProof (fun _ => p) e) k)
    as (p0 & -> & Hp0); [done..|].
  f_equal. transitivity (se_setProof (fun _ => p0) e); [by destruct e|].
  destruct Hp as (h & Hm & E1). destruct Hp0 as (h0 & Hm0 & E2).
  rewrite (merge_unique _ _ _ _ Hm0 Hm) in E2. rewrite E2, <- E1. apply se_eta.
Qed.

(** ** Witnesses: an accumulator with one leaf *)
Module SampleAccumulator.
Definition leaf (sp : bool) : elementLeaf :=
  {| el_ref := RefLocal;
     el_StateElement := {| se_LeafIndex := 0; se_MerkleProof := []; se_shared := false |};
     el_elementHash := zeros 32; el_spent := sp |}.
Definition acc : ElementAccumulator :=
  {| ea_Trees := @el_hash Sample.crypto (leaf false) :: replicate 63 zeroHash; ea_NumLeaves := 1 |}.
Definition hashes : list Hash256 := map (@el_hash Sample.crypto) [leaf false].

Lemma represents_acc : @represents Sample.crypto acc hashes.
Proof.
  split; [done|done|done|]. intros [|i] Hi; [done|]. exfalso. cbn [length hashes map] in Hi.
  rewrite Nat.div_small in Hi; [done|]. pose proof (Nat.pow_gt_1 2 (S i) ltac:(lia) ltac:(lia)). cbn [length]. lia.
Qed.

Lemma merge_0_1 : merge 0 1 0.
Proof. done. Qed.

Lemma leaves_acc sp : @leaves_of Sample.crypto hashes [leaf sp].
Proof.
  split; [by apply NoDup_singleton|]. intros l Hl%list_elem_of_singleton. subst l.
  split; [done|]. split; [unfold idx; cbn; constructor|]. by exists 0.
Qed.

Lemma leaves_ok_acc : leaves_ok [leaf false].
Proof.
  split; [by intros [|k] l E; [injection E as <-|]|]. intros l Hl%list_elem_of_singleton. by subst l.
Qed.
End SampleAccumulator.

Lemma containsLeaf_complete_and_sound_witness :
  @containsLeaf Sample.crypto SampleAccumulator.acc (SampleAccumulator.leaf false) = true.
Proof.
  apply (proj1 (@containsLeaf_complete_and_sound Sample.crypto Sample.sizes SampleAccumulator.acc
    [SampleAccumulator.leaf false] (SampleAccumulator.leaf false)
    SampleAccumulator.represents_acc SampleAccumulator.leaves_ok_acc ltac:(done) ltac:(done))
    0 (SampleAccumulator.leaf false)); try reflexivity.
  exists 0. split; [exact SampleAccumulator.merge_0_1|reflexivity].
Defined.

Lemma applyBlock_refines_witness : exists acc' eau added',
  @applyBlock Sample.crypto SampleAccumulator.acc [SampleAccumulator.leaf true] [SampleAccumulator.leaf false]
    = Ok (acc', eau, added') /\ ea_NumLeaves acc' = 2%Z.
Proof.
  destruct (@applyBlock_refines Sample.crypto SampleAccumulator.acc SampleAccumulator.hashes
    [SampleAccumulator.leaf true] [SampleAccumulator.leaf false]) as (acc' & eau & added' & E & Hr & _).
  - exact SampleAccumulator.represents_acc.
  - exact (SampleAccumulator.leaves_acc true).
  - reflexivity.
  - intros l Hl%list_elem_of_singleton. by subst l.
  - intros l Hl%list_elem_of_singleton. by subst l.
  - exists acc', eau, added'. split; [exact E|exact (rep_num _ _ Hr)].
Defined.

Lemma revertBlock_undoes_witness : exists eru added'',
  @revertBlock Sample.crypto SampleAccumulator.acc [SampleAccumulator.leaf false] [SampleAccumulator.leaf false]
    = Ok (eru, added'') /\
  exists e1 eau, @eau_updateElementProof Sample.crypto eau (el_StateElement (SampleAccumulator.leaf false)) = Ok e1 /\
    @eru_updateElementProof Sample.crypto eru e1 = Ok (el_StateElement (SampleAccumulator.leaf false)).
Proof.
  destruct (@revertBlock_undoes Sample.crypto SampleAccumulator.acc SampleAccumulator.hashes
    [SampleAccumulator.leaf true] [SampleAccumulator.leaf false] [SampleAccumulator.leaf false])
    as (acc' & eau & added' & eru & added'' & _ & E & _ & Hrt).
  - exact SampleAccumulator.represents_acc.
  - exact (SampleAccumulator.leaves_acc true).
  - exact (SampleAccumulator.leaves_acc false).
  - intros l Hl%list_elem_of_singleton. by subst l.
  - intros l Hl%list_elem_of_singleton. subst l. exists (SampleAccumulator.leaf false).
    split; [left|reflexivity].
  - reflexivity.
  - intros l Hl. rewrite elem_of_app, !list_elem_of_singleton in Hl. by destruct Hl as [-> | ->].
  - intros l Hl%list_elem_of_singleton. by subst l.
  - exists eru, added''. split; [exact E|].
    destruct (Hrt (el_StateElement (SampleAccumulator.leaf false)) 0) as (e1 & H1 & H2); [|done..| |].
    + constructor.
    + exists 0. split; [exact SampleAccumulator.merge_0_1|reflexivity].
    + exists e1, eau. split; [exact H1|exact H2].
Defined.
