(* ===== verification/TypesMultiproof.v ===== *)
(** * [core/types/multiproof.go] and the v2 block codec

    A block's transactions are sent with one Merkle proof for all their elements: the proofs
    are stripped before encoding and rebuilt by the decoder from the leaf indices and the
    node hashes that no leaf determines. *)
From stdpp Require Import prelude strings.
From Stdlib Require Import ZArith Lia.
From S2P Require Import Prelude TypesCurrency TypesData TypesEncoding TypesHash.
From S2P Require Import ConsensusState ConsensusMerkle.

(** ** The state elements of a value

    [forEachElementLeaf] hands out pointers into the transactions, in a fixed order.
    [elems] lists the elements in that order, [put_elems] writes a list of new values through
    the same pointers, [elem_hashes] lists the element hashes of the leaves. *)
Class Elems (T : Type) := {
  elems : T -> list StateElement;
  put_elems : T -> list StateElement -> T;
  elem_hashes : T -> list Hash256 }.

Section Leaves.
Context {crypto : Crypto}.

Definition put1 {A} (set : StateElement -> A -> A) (x : A) (es : list StateElement) : A :=
  match es with e :: _ => set e x | [] => x end.

Definition sce_setElement (e : StateElement) (x : SiacoinElement) : SiacoinElement :=
  {| sce_ID := sce_ID x; sce_StateElement := e; sce_SiacoinOutput := sce_SiacoinOutput x;
     sce_MaturityHeight := sce_MaturityHeight x |}.
Definition sfe_setElement (e : StateElement) (x : SiafundElement) : SiafundElement :=
  {| sfe_ID := sfe_ID x; sfe_StateElement := e; sfe_SiafundOutput := sfe_SiafundOutput x;
     sfe_ClaimStart := sfe_ClaimStart x |}.
Definition v2fce_setElement (e : StateElement) (x : V2FileContractElement) : V2FileContractElement :=
  {| v2fce_ID := v2fce_ID x; v2fce_StateElement := e; v2fce_V2FileContract := v2fce_V2FileContract x |}.
Definition cie_setElement (e : StateElement) (x : ChainIndexElement) : ChainIndexElement :=
  {| cie_ID := cie_ID x; cie_StateElement := e; cie_ChainIndex := cie_ChainIndex x |}.

(** [siacoinLeaf], [siafundLeaf], [v2FileContractLeaf], [chainIndexLeaf]: element hashes *)
Definition mp_siacoinLeaf (e : SiacoinElement) : Hash256 :=
  hashAll [distinguisher "leaf/siacoin"; Array_EncodeTo (sce_ID e);
           V2SiacoinOutput_EncodeTo (sce_SiacoinOutput e); WriteUint64 (sce_MaturityHeight e)].
Definition mp_siafundLeaf (e : SiafundElement) : Hash256 :=
  hashAll [distinguisher "leaf/siafund"; Array_EncodeTo (sfe_ID e);
           V2SiafundOutput_EncodeTo (sfe_SiafundOutput e); V2Currency_EncodeTo (sfe_ClaimStart e)].
Definition mp_v2FileContractLeaf (e : V2FileContractElement) : Hash256 :=
  hashAll [distinguisher "leaf/v2filecontract"; Array_EncodeTo (v2fce_ID e);
           V2FileContract_EncodeTo (v2fce_V2FileContract e)].
Definition mp_chainIndexLeaf (e : ChainIndexElement) : Hash256 :=
  hashAll [distinguisher "leaf/chainindex"; Array_EncodeTo (cie_ID e);
           ChainIndex_EncodeTo (cie_ChainIndex e)].

#[global] Instance sci_elems : Elems V2SiacoinInput := {|
  elems i := [sce_StateElement (v2sci_Parent i)];
  put_elems := put1 (fun e i => {| v2sci_Parent := sce_setElement e (v2sci_Parent i);
                                   v2sci_SatisfiedPolicy := v2sci_SatisfiedPolicy i |});
  elem_hashes i := [mp_siacoinLeaf (v2sci_Parent i)] |}.
#[global] Instance sfi_elems : Elems V2SiafundInput := {|
  elems i := [sfe_StateElement (v2sfi_Parent i)];
  put_elems := put1 (fun e i => {| v2sfi_Parent := sfe_setElement e (v2sfi_Parent i);
                                   v2sfi_ClaimAddress := v2sfi_ClaimAddress i;
                                   v2sfi_SatisfiedPolicy := v2sfi_SatisfiedPolicy i |});
  elem_hashes i := [mp_siafundLeaf (v2sfi_Parent i)] |}.
#[global] Instance fcr_elems : Elems V2FileContractRevision := {|
  elems r := [v2fce_StateElement (v2fcr_Parent r)];
  put_elems := put1 (fun e r => {| v2fcr_Parent := v2fce_setElement e (v2fcr_Parent r);
                                   v2fcr_Revision := v2fcr_Revision r |});
  elem_hashes r := [mp_v2FileContractLeaf (v2fcr_Parent r)] |}.
#[global] Instance res_elems : Elems V2FileContractResolution := {|
  elems r := v2fce_StateElement (res_Parent r) ::
    match res_Resolution r with V2Proof sp => [cie_StateElement (v2sp_ProofIndex sp)] | _ => [] end;
  put_elems r es :=
    match es with
    | [] => r
    | e :: es' =>
        {| res_Parent := v2fce_setElement e (res_Parent r);
           res_Resolution :=
             match res_Resolution r, es' with
             | V2Proof sp, e' :: _ =>
                 V2Proof {| v2sp_ProofIndex := cie_setElement e' (v2sp_ProofIndex sp);
                            v2sp_Leaf := v2sp_Leaf sp; v2sp_Proof := v2sp_Proof sp |}
             | t, _ => t
             end |}
    end;
  elem_hashes r := mp_v2FileContractLeaf (res_Parent r) ::
    match res_Resolution r with V2Proof sp => [mp_chainIndexLeaf (v2sp_ProofIndex sp)] | _ => [] end |}.

(** A slice: its elements one after the other. *)
Fixpoint put_list {T} `{Elems T} (l : list T) (es : list StateElement) : list T :=
  match l with
  | [] => []
  | x :: l' => let n := length (elems x) in
               put_elems x (take n es) :: put_list l' (drop n es)
  end.
#[global] Instance list_elems {T} `{Elems T} : Elems (list T) := {|
  elems l := concat (map elems l); put_elems := put_list; elem_hashes l := concat (map elem_hashes l) |}.

Definition V2Transaction_elems (txn : V2Transaction) : list StateElement :=
  elems (v2tx_SiacoinInputs txn) ++ elems (v2tx_SiafundInputs txn) ++
  elems (v2tx_FileContractRevisions txn) ++ elems (v2tx_FileContractResolutions txn).
Definition V2Transaction_put (txn : V2Transaction) (es : list StateElement) : V2Transaction :=
  let n1 := length (elems (v2tx_SiacoinInputs txn)) in
  let n2 := length (elems (v2tx_SiafundInputs txn)) in
  let n3 := length (elems (v2tx_FileContractRevisions txn)) in
  {| v2tx_SiacoinInputs := put_elems (v2tx_SiacoinInputs txn) (take n1 es);
     v2tx_SiacoinOutputs := v2tx_SiacoinOutputs txn;
     v2tx_SiafundInputs := put_elems (v2tx_SiafundInputs txn) (take n2 (drop n1 es));
     v2tx_SiafundOutputs := v2tx_SiafundOutputs txn;
     v2tx_FileContracts := v2tx_FileContracts txn;
     v2tx_FileContractRevisions :=
       put_elems (v2tx_FileContractRevisions txn) (take n3 (drop n2 (drop n1 es)));
     v2tx_FileContractResolutions :=
       put_elems (v2tx_FileContractResolutions txn) (drop n3 (drop n2 (drop n1 es)));
     v2tx_Attestations := v2tx_Attestations txn; v2tx_ArbitraryData := v2tx_ArbitraryData txn;
     v2tx_NewFoundationAddress := v2tx_NewFoundationAddress txn; v2tx_MinerFee := v2tx_MinerFee txn |}.
Definition V2Transaction_elem_hashes (txn : V2Transaction) : list Hash256 :=
  elem_hashes (v2tx_SiacoinInputs txn) ++ elem_hashes (v2tx_SiafundInputs txn) ++
  elem_hashes (v2tx_FileContractRevisions txn) ++ elem_hashes (v2tx_FileContractResolutions txn).
#[global] Instance txn_elems : Elems V2Transaction := {|
  elems := V2Transaction_elems; put_elems := V2Transaction_put;
  elem_hashes := V2Transaction_elem_hashes |}.

(** ** Leaves

    [ml_pos] is the position of the element in the visiting order: the pointer. *)
Record mleaf := { ml_pos : nat; ml_StateElement : StateElement; ml_ElementHash : Hash256 }.
Definition ml_LeafIndex (l : mleaf) : Z := se_LeafIndex (ml_StateElement l).
Definition ml_MerkleProof (l : mleaf) : list Hash256 := se_MerkleProof (ml_StateElement l).
Definition ml_setProof (f : list Hash256 -> list Hash256) (l : mleaf) : mleaf :=
  {| ml_pos := ml_pos l; ml_StateElement := se_setProof f (ml_StateElement l);
     ml_ElementHash := ml_ElementHash l |}.

(** [elementLeaf.hash]: never spent *)
Definition ml_leafHash (l : mleaf) : Hash256 :=
  HashBytes ([leafHashPrefix] ++ ml_ElementHash l ++ le_encode 8 (ml_LeafIndex l) ++ [0]).

Definition assigned (e : StateElement) : bool := negb (se_LeafIndex e =? UnassignedLeafIndex).

Definition forEachElementLeaf (txns : list V2Transaction) : list mleaf :=
  List.filter (fun l => assigned (ml_StateElement l))
    (imap (fun i '(e, h) => {| ml_pos := i; ml_StateElement := e; ml_ElementHash := h |})
       (zip (elems txns) (elem_hashes txns))).

(** [sort.Slice] by leaf index; leaves with equal indices are interchangeable for the proof. *)
Fixpoint ml_insert (x : mleaf) (l : list mleaf) : list mleaf :=
  match l with
  | [] => [x]
  | y :: l' => if ml_LeafIndex y <? ml_LeafIndex x then y :: ml_insert x l' else x :: l
  end.
Definition ml_sort (l : list mleaf) : list mleaf := foldr ml_insert [] l.

(** The trees, by height, with their leaves in order; empty ones are skipped by the callers. *)
Definition forEachTree (txns : list V2Transaction) : outcome (list (list mleaf)) :=
  let ls := forEachElementLeaf txns in
  if forallb (fun l => (length (ml_MerkleProof l) <? 64)%nat) ls
  then Ok (map (fun h => ml_sort (filter (fun l => length (ml_MerkleProof l) = h) ls)) (seq 0 64))
  else index_out_of_range.

Definition tree_bounds (height : nat) (leaves : list mleaf) : Z * Z :=
  match leaves with
  | l :: _ => let start := clearBits (ml_LeafIndex l) (Z.of_nat height + 1) in
              (start, u64 (start + 2 ^ Z.of_nat height))
  | [] => (0, 0)
  end.

Definition ml_splitLeaves (ls : list mleaf) (mid : Z) : list mleaf * list mleaf :=
  let split := sort_Search (length ls)
    (fun i => match ls !! i with Some l => mid <=? ml_LeafIndex l | None => true end) in
  (take split ls, drop split ls).

(** [visit(i, j, leaves)]: the height, [TrailingZeros64(j - i)] in the source, decreases by
    one at each level. *)
Fixpoint proofSize (height : nat) (i j : Z) (leaves : list mleaf) : nat :=
  match leaves with
  | [] => 1
  | _ :: _ =>
      match height with
      | O => 0
      | S height' =>
          let mid := u64 (i + j) / 2 in
          let '(lft, rgt) := ml_splitLeaves leaves mid in
          (proofSize height' i mid lft + proofSize height' mid j rgt)%nat
      end
  end.

Definition ml_proof_at (i : nat) (ls : list mleaf) : outcome Hash256 :=
  match ls with
  | l :: _ => match ml_MerkleProof l !! i with Some h => Ok h | None => index_out_of_range end
  | [] => index_out_of_range
  end.

Fixpoint compute_visit (height : nat) (i j : Z) (leaves : list mleaf) : outcome (list Hash256) :=
  match height with
  | O => Ok []
  | S height' =>
      let mid := u64 (i + j) / 2 in
      let '(lft, rgt) := ml_splitLeaves leaves mid in
      a ← match lft with
          | [] => h ← ml_proof_at height' rgt; Ok [h]
          | _ :: _ => compute_visit height' i mid lft
          end;
      b ← match rgt with
          | [] => h ← ml_proof_at height' lft; Ok [h]
          | _ :: _ => compute_visit height' mid j rgt
          end;
      Ok (a ++ b)
  end.

(** [ls[i].MerkleProof[height-1] = h] *)
Definition ml_set_sibling (i : nat) (h : Hash256) (ls : list mleaf) : outcome (list mleaf) :=
  if forallb (fun l => (i <? length (ml_MerkleProof l))%nat) ls
  then Ok (map (ml_setProof (fun p => <[i := h]> p)) ls) else index_out_of_range.

(** Returns the root, the leaves with their proofs and the rest of the multiproof. *)
Fixpoint expand_visit (height : nat) (i j : Z) (leaves : list mleaf) (proof : list Hash256)
    : outcome (Hash256 * list mleaf * list Hash256) :=
  match leaves with
  | [] => match proof with h :: proof' => Ok (h, [], proof') | [] => index_out_of_range end
  | l :: _ =>
      match height with
      | O => Ok (ml_leafHash l, leaves, proof)
      | S height' =>
          let mid := u64 (i + j) / 2 in
          let '(lft, rgt) := ml_splitLeaves leaves mid in
          '(leftRoot, lft, proof) ← expand_visit height' i mid lft proof;
          '(rightRoot, rgt, proof) ← expand_visit height' mid j rgt proof;
          rgt ← ml_set_sibling height' leftRoot rgt;
          lft ← ml_set_sibling height' rightRoot lft;
          Ok (SumPair leftRoot rightRoot, lft ++ rgt, proof)
      end
  end.

(** ** The three operations *)
Definition multiproofSize (txns : list V2Transaction) : outcome nat :=
  trees ← forEachTree txns;
  for_each trees 0 0%nat (fun h ls size =>
    match ls with
    | [] => Ok size
    | _ => let '(i, j) := tree_bounds h ls in Ok (size + proofSize h i j ls)%nat
    end).

Definition computeMultiproof (txns : list V2Transaction) : outcome (list Hash256) :=
  trees ← forEachTree txns;
  for_each trees 0 [] (fun h ls proof =>
    match ls with
    | [] => Ok proof
    | _ => let '(i, j) := tree_bounds h ls in p ← compute_visit h i j ls; Ok (proof ++ p)
    end).

(** The proof written to the element at a position, if it is the element of a leaf. *)
Definition write_proofs (leaves : list mleaf) (es : list StateElement) : list StateElement :=
  imap (fun i e => match List.find (fun l => (ml_pos l =? i)%nat) leaves with
                   | Some l => ml_StateElement l
                   | None => e
                   end) es.

Definition expandMultiproof (txns : list V2Transaction) (proof : list Hash256)
    : outcome (list V2Transaction) :=
  trees ← forEachTree txns;
  '(_, leaves) ← for_each trees 0 (proof, []) (fun h ls '(proof, done) =>
    match ls with
    | [] => Ok (proof, done)
    | _ => let '(i, j) := tree_bounds h ls in
           '(_, ls', proof) ← expand_visit h i j ls proof; Ok (proof, done ++ ls')
    end);
  Ok (put_elems txns (write_proofs leaves (elems txns))).

(** ** [V2TransactionsMultiproof] *)
Definition infer_numLeaves (ls : list mleaf) : Z :=
  foldl (fun numLeaves l =>
    let n := u64 (2 ^ Z.of_nat (length (ml_MerkleProof l))) in
    Z.lor numLeaves (Z.lor (Z.ldiff (ml_LeafIndex l) (u64 (n - 1))) n)) 0 ls.

Definition strip_proof (e : StateElement) : StateElement :=
  if assigned e then se_setProof (fun _ => []) e else e.

Definition V2TransactionsMultiproof_EncodeTo (txns : list V2Transaction) : outcome bytes :=
  let prooflessTxns := put_elems txns (map (fun e => strip_proof (StateElement_Copy e)) (elems txns)) in
  multiproof ← computeMultiproof txns;
  Ok (EncodeSlice V2Transaction_EncodeTo prooflessTxns ++
      WriteUint64 (infer_numLeaves (forEachElementLeaf txns)) ++
      concat (map Array_EncodeTo multiproof)).

(** [make([]Hash256, bits.Len64(l.LeafIndex^numLeaves)-1)] *)
Definition blank_proof (numLeaves : Z) (e : StateElement) : StateElement :=
  if assigned e
  then se_setProof (fun _ => replicate (Z.to_nat (bits.Len64 (Z.lxor (se_LeafIndex e) numLeaves) - 1)) zeroHash) e
  else e.

Definition lift_outcome {A} (m : outcome A) : Decode A := fun d => x ← m; Ok (x, d).

Definition V2TransactionsMultiproof_DecodeFrom : Decode (list V2Transaction) :=
  txns ← DecodeSlice V2Transaction_DecodeFrom;
  numLeaves ← ReadUint64;
  _ ← (if forallb (fun l => ml_LeafIndex l <? numLeaves) (forEachElementLeaf txns)
       then mret tt else decode_err "invalid leaf index");
  let txns := put_elems txns (map (blank_proof numLeaves) (elems txns)) in
  n ← lift_outcome (multiproofSize txns);
  multiproof ← decode_n Hash256_DecodeFrom n;
  lift_outcome (expandMultiproof txns multiproof).

(** ** [V2BlockData] and [V2Block] *)
Definition V2BlockData_EncodeTo (b : V2BlockData) : outcome bytes :=
  txns ← V2TransactionsMultiproof_EncodeTo (v2b_Transactions b);
  Ok (WriteUint64 (v2b_Height b) ++ Array_EncodeTo (v2b_Commitment b) ++ txns).
Definition V2BlockData_DecodeFrom : Decode V2BlockData :=
  h ← ReadUint64; c ← Hash256_DecodeFrom; txns ← V2TransactionsMultiproof_DecodeFrom;
  mret {| v2b_Height := h; v2b_Commitment := c; v2b_Transactions := txns |}.

Definition V2Block_EncodeTo (b : Block) : outcome bytes :=
  v2 ← match b_V2 b with
       | Some d => e ← V2BlockData_EncodeTo d; Ok (WriteBool true ++ e)
       | None => Ok (WriteBool false)
       end;
  Ok (V1Block_EncodeTo b ++ v2).
Definition V2Block_DecodeFrom : Decode Block :=
  b ← V1Block_DecodeFrom; v2 ← DecodePtr V2BlockData_DecodeFrom;
  mret {| b_ParentID := b_ParentID b; b_Nonce := b_Nonce b; b_Timestamp := b_Timestamp b;
          b_MinerPayouts := b_MinerPayouts b; b_Transactions := b_Transactions b; b_V2 := v2 |}.
End Leaves.
