(* ===== verification/TypesMultiproofSpec.v ===== *)
(** * Multiproofs and v2 blocks round-trip

    Transactions whose proofs are valid for one accumulator are rebuilt exactly by the
    decoder: the encoder's multiproof determines every sibling of every proof. *)
From stdpp Require Import prelude strings sorting.
From Stdlib Require Import ZArith Lia.
From S2P Require Import Prelude TypesCurrency TypesData TypesEncoding TypesCodec TypesHash SampleCrypto TypesMerkle.
From S2P Require Import ConsensusState ConsensusMerkle MerkleForest ConsensusMerkleSpec ConsensusMerkleUpdateSpec.
From S2P Require Import TypesMultiproof.
Local Open Scope nat_scope.

(** ** Laws of element access *)
Class ElemsLaws (T : Type) {E : Elems T} : Prop := {
  put_same : forall x, put_elems x (elems x) = x;
  elems_put : forall x es, length es = length (elems x) -> elems (put_elems x es) = es;
  put_put : forall x es es', length es = length (elems x) -> length es' = length (elems x) ->
    put_elems (put_elems x es) es' = put_elems x es';
  hashes_put : forall x es, elem_hashes (put_elems x es) = elem_hashes x;
  length_hashes : forall x, length (elem_hashes x) = length (elems x) }.

Ltac cbn_txn := cbn [v2tx_SiacoinInputs v2tx_SiacoinOutputs v2tx_SiafundInputs v2tx_SiafundOutputs
  v2tx_FileContracts v2tx_FileContractRevisions v2tx_FileContractResolutions v2tx_Attestations
  v2tx_ArbitraryData v2tx_NewFoundationAddress v2tx_MinerFee].

Section Laws.
Context {crypto : Crypto}.

#[export] Instance sci_laws : ElemsLaws V2SiacoinInput.
Proof.
  split; [by intros [[]]|intros x [|e [|]] H; easy|intros x [|e [|]] [|? [|]] H H'; easy|by intros x [|]|done].
Qed.
#[export] Instance sfi_laws : ElemsLaws V2SiafundInput.
Proof.
  split; [by intros [[]]|intros x [|e [|]] H; easy|intros x [|e [|]] [|? [|]] H H'; easy|by intros x [|]|done].
Qed.
#[export] Instance fcr_laws : ElemsLaws V2FileContractRevision.
Proof.
  split; [by intros [[]]|intros x [|e [|]] H; easy|intros x [|e [|]] [|? [|]] H H'; easy|by intros x [|]|done].
Qed.
#[export] Instance res_laws : ElemsLaws V2FileContractResolution.
Proof.
  split.
  - by intros [[] [| [[]] |]].
  - intros [? [| |]] [|e [|e' [|]]] H; easy.
  - intros [? [| |]] [|e [|e' [|]]] [|? [|? [|]]] H H'; easy.
  - by intros [? [| |]] [|e [|e' ?]].
  - by intros [? [| |]].
Qed.

#[export] Instance list_laws {T} `{ElemsLaws T} : ElemsLaws (list T).
Proof.
  split; cbn [elems put_elems elem_hashes list_elems].
  - intros l. induction l as [|x l IH]; [done|]. cbn.
    by rewrite take_app_length, drop_app_length, put_same, IH.
  - intros l. induction l as [|x l IH]; intros es; [by destruct es|]. cbn. rewrite length_app. intros He.
    rewrite elems_put by (rewrite length_take; lia). rewrite IH by (rewrite length_drop; lia).
    apply take_drop.
  - intros l. induction l as [|x l IH]; intros es es'; [done|]. cbn. rewrite length_app. intros He He'.
    assert (length (take (length (elems x)) es) = length (elems x)) as Hl by (rewrite length_take; lia).
    rewrite elems_put, Hl, put_put by (done || rewrite length_take; lia).
    by rewrite IH by (rewrite length_drop; lia).
  - intros l. induction l as [|x l IH]; intros es; [done|]. cbn. by rewrite hashes_put, IH.
  - intros l. induction l as [|x l IH]; [done|]. cbn. by rewrite !length_app, length_hashes, IH.
Qed.

Lemma split4 {A} (es : list A) a b c d : length es = a + (b + (c + d)) ->
  length (take a es) = a /\ length (take b (drop a es)) = b /\
  length (take c (drop b (drop a es))) = c /\ length (drop c (drop b (drop a es))) = d.
Proof. intros H. rewrite !length_take, !length_drop. lia. Qed.

#[export] Instance txn_laws : ElemsLaws V2Transaction.
Proof.
  split; cbn [elems put_elems elem_hashes txn_elems].
  - intros [a1 a2 a3 a4 a5 a6 a7 a8 a9 a10 a11]. unfold V2Transaction_elems, V2Transaction_put. cbn_txn.
    by rewrite !drop_app_length, !take_app_length, !put_same.
  - intros [a1 a2 a3 a4 a5 a6 a7 a8 a9 a10 a11] es. unfold V2Transaction_elems, V2Transaction_put. cbn_txn. rewrite !length_app. intros He.
    apply split4 in He as (H1 & H2 & H3 & H4). rewrite !elems_put by done. by rewrite !take_drop.
  - intros [a1 a2 a3 a4 a5 a6 a7 a8 a9 a10 a11] es es'. unfold V2Transaction_elems, V2Transaction_put. cbn_txn. rewrite !length_app. intros He He'.
    apply split4 in He as (H1 & H2 & H3 & H4). apply split4 in He' as (H1' & H2' & H3' & H4').
    rewrite !elems_put by done. rewrite H1, H2, H3. cbn_txn. by rewrite !put_put by done.
  - intros [a1 a2 a3 a4 a5 a6 a7 a8 a9 a10 a11] es. unfold V2Transaction_elem_hashes, V2Transaction_put. cbn_txn. by rewrite !hashes_put.
  - intros [a1 a2 a3 a4 a5 a6 a7 a8 a9 a10 a11]. unfold V2Transaction_elem_hashes, V2Transaction_elems. cbn_txn.
    by rewrite !length_app, !length_hashes.
Qed.
End Laws.

(** ** Visiting a tree *)
Section Visit.
Context {crypto : Crypto} (L : list Hash256).

Definition mix (l : mleaf) : nat := Z.to_nat (ml_LeafIndex l).
Definition msorted : list mleaf -> Prop := StronglySorted (fun a b => (ml_LeafIndex a <= ml_LeafIndex b)%Z).

(** A leaf of the forest over [L] inside block [b] of level [h], with its siblings below. *)
Definition munder (h b : nat) (l : mleaf) : Prop :=
  (0 <= ml_LeafIndex l)%Z /\ L !! mix l = Some (ml_leafHash l) /\ mix l / 2 ^ h = b /\
  take h (ml_MerkleProof l) = sibs L (mix l) 0 h.

Definition blank (l : mleaf) : mleaf := ml_setProof (fun p => replicate (length p) zeroHash) l.
Definition mfix (h : nat) (l : mleaf) : mleaf :=
  ml_setProof (fun p => sibs L (mix l) 0 h ++ drop h (replicate (length p) zeroHash)) l.

Lemma sort_Search_ext f g n : (forall i, f i = g i) -> sort_Search n f = sort_Search n g.
Proof.
  intros H. unfold sort_Search. generalize (S n) as fuel, 0 as i. revert n.
  intros n fuel. revert n. induction fuel as [|fuel IH]; intros n i; [done|]. cbn [sort_Search_from].
  rewrite H. destruct (i <? n); [|done]. by destruct (negb _).
Qed.

Lemma ml_split_map f ls mid lft rgt : (forall l, ml_LeafIndex (f l) = ml_LeafIndex l) ->
  ml_splitLeaves ls mid = (lft, rgt) -> ml_splitLeaves (map f ls) mid = (map f lft, map f rgt).
Proof.
  intros Hf E. unfold ml_splitLeaves in *. rewrite length_map.
  rewrite (sort_Search_ext _ (fun i => match ls !! i with Some l => (mid <=? ml_LeafIndex l)%Z | None => true end)).
  - injection E as <- <-. f_equal; [apply (eq_sym (fmap_take _ _ _))|apply (eq_sym (fmap_drop _ _ _))].
  - intros i. change (map f ls) with (f <$> ls). rewrite list_lookup_fmap. destruct (ls !! i); cbn; [by rewrite Hf|done].
Qed.

(** Splitting a block into its halves. *)
Lemma ml_split_block h b ls : msorted ls -> Forall (munder (S h) b) ls ->
  let mid := Z.of_nat ((2 * b + 1) * 2 ^ h) in
  exists lft rgt, ml_splitLeaves ls mid = (lft, rgt) /\ ls = lft ++ rgt /\
    msorted lft /\ msorted rgt /\ Forall (munder h (2 * b)) lft /\ Forall (munder h (2 * b + 1)) rgt.
Proof.
  intros Hs Hu mid. destruct (search_split ml_LeafIndex ls mid Hs) as [Hl Hr].
  unfold ml_splitLeaves. set (s := sort_Search _ _) in *. clearbody s.
  exists (take s ls), (drop s ls). split; [done|]. split; [by rewrite take_drop|].
  rewrite <- (take_drop s ls) in Hs. apply StronglySorted_app in Hs as (_ & Hs1 & Hs2).
  split; [done|]. split; [done|].
  pose proof (Forall_take _ s _ Hu) as Hu1. pose proof (Forall_drop _ s _ Hu) as Hu2.
  pose proof (pow2_nz h). split; rewrite Forall_forall in *; intros l Hin.
  - destruct (Hu1 l Hin) as (H1 & H2 & H3 & H4). specialize (Hl l Hin). split_and!; [done|done| |].
    + apply in_block in H3. rewrite Nat.pow_succ_r' in H3. apply in_block. unfold mid, mix in *. nia.
    + apply (f_equal (take h)) in H4. rewrite take_take, Nat.min_l in H4 by lia. rewrite H4. apply take_sibs. lia.
  - destruct (Hu2 l Hin) as (H1 & H2 & H3 & H4). specialize (Hr l Hin). split_and!; [done|done| |].
    + apply in_block in H3. rewrite Nat.pow_succ_r' in H3. apply in_block. unfold mid, mix in *. nia.
    + apply (f_equal (take h)) in H4. rewrite take_take, Nat.min_l in H4 by lia. rewrite H4. apply take_sibs. lia.
Qed.

(** The sibling that a proof records above an empty half. *)
Lemma munder_sibling h b l : munder (S h) b l ->
  ml_MerkleProof l !! h = Some (node L h (sibling (mix l / 2 ^ h))).
Proof.
  intros (_ & _ & _ & H). rewrite <- (lookup_take_lt _ (S h)) by lia. rewrite H. by rewrite lookup_sibs by lia.
Qed.

Lemma munder_length h b l : munder h b l -> h <= length (ml_MerkleProof l).
Proof. intros (_ & _ & _ & H). apply (f_equal length) in H. rewrite length_take, length_sibs in H. lia. Qed.

Lemma ml_set_mfix h b j s ls : Forall (munder (S h) b) ls -> Forall (munder h j) ls -> s = sibling j ->
  ml_set_sibling h (node L h s) (map (mfix h) ls) = Ok (map (mfix (S h)) ls).
Proof.
  intros Hu Hj ->. unfold ml_set_sibling. rewrite Forall_forall in Hu, Hj.
  rewrite (proj2 (forallb_forall _ _)).
  - f_equal. rewrite map_map. apply map_ext_in. intros l Hl%list_elem_of_In.
    destruct l as [pos [ix pf sh] eh]. unfold mfix, ml_setProof, se_setProof. cbn [ml_pos ml_StateElement
      ml_ElementHash se_LeafIndex se_MerkleProof se_shared]. do 2 f_equal.
    pose proof (munder_length _ _ _ (Hu _ Hl)) as Hlen. unfold ml_MerkleProof in Hlen. cbn in Hlen.
    destruct (Hj _ Hl) as (_ & _ & Ej & _). unfold mix, ml_LeafIndex in *.
    cbn [ml_StateElement se_LeafIndex] in *.
    rewrite insert_app_r_alt, length_sibs, Nat.sub_diag by (rewrite length_sibs; lia).
    rewrite sibs_snoc, <- app_assoc. cbn [Nat.add app]. f_equal. rewrite Ej.
    rewrite (drop_S _ zeroHash) by (apply lookup_replicate_2; lia). done.
  - intros l Hl%list_elem_of_In. apply list_elem_of_fmap in Hl as (l0 & -> & Hl).
    apply Nat.ltb_lt. unfold mfix, ml_setProof, ml_MerkleProof. cbn. pose proof (munder_length _ _ _ (Hu _ Hl)).
    rewrite length_app, length_sibs, length_drop, length_replicate. unfold ml_MerkleProof in *. lia.
Qed.

Lemma proof_at_half h b j s ls : ls <> [] -> Forall (munder (S h) b) ls -> Forall (munder h j) ls ->
  s = sibling j -> ml_proof_at h ls = Ok (node L h s).
Proof.
  intros Hne Hu Hj ->. destruct ls as [|l ls]; [done|]. apply Forall_cons in Hu as [Hu _].
  apply Forall_cons in Hj as [(_ & _ & <- & _) _]. unfold ml_proof_at. by rewrite (munder_sibling _ _ _ Hu).
Qed.

Lemma mfix_0 ls : map (mfix 0) ls = map blank ls.
Proof. done. Qed.

(** What a visit of block [b] at level [h] does for the encoder, the size and the decoder. *)
Definition visited (h b : nat) (ls : list mleaf) (p : list Hash256) : Prop :=
  let i := Z.of_nat (b * 2 ^ h) in let j := Z.of_nat ((b + 1) * 2 ^ h) in
  proofSize h i j (map blank ls) = length p /\
  (forall rest, expand_visit h i j (map blank ls) (p ++ rest) = Ok (node L h b, map (mfix h) ls, rest)).

Lemma visited_empty h b : visited h b [] [node L h b].
Proof. by destruct h. Qed.

Lemma mid_eq h b : (Z.of_nat ((b + 1) * 2 ^ S h) < 2 ^ 62)%Z ->
  (u64 (Z.of_nat (b * 2 ^ S h) + Z.of_nat ((b + 1) * 2 ^ S h)) / 2)%Z = Z.of_nat ((2 * b + 1) * 2 ^ h) /\
  b * 2 ^ S h = 2 * b * 2 ^ h /\ (b + 1) * 2 ^ S h = (2 * b + 1 + 1) * 2 ^ h.
Proof.
  intros H. change (2 ^ 62)%Z with 4611686018427387904%Z in H. rewrite Nat.pow_succ_r' in *.
  split; [|split; lia]. rewrite u64_id by (unfold is_u64; lia).
  replace (Z.of_nat (b * (2 * 2 ^ h)) + Z.of_nat ((b + 1) * (2 * 2 ^ h)))%Z
    with (Z.of_nat ((2 * b + 1) * 2 ^ h) * 2)%Z by lia. by rewrite Z.div_mul.
Qed.

(** A block from its halves. *)
Lemma visited_step h b ls lft rgt p q : ls <> [] -> (Z.of_nat ((b + 1) * 2 ^ S h) < 2 ^ 62)%Z ->
  Forall (munder (S h) b) ls -> ls = lft ++ rgt ->
  ml_splitLeaves ls (Z.of_nat ((2 * b + 1) * 2 ^ h)) = (lft, rgt) ->
  Forall (munder h (2 * b)) lft -> Forall (munder h (2 * b + 1)) rgt ->
  visited h (2 * b) lft p -> visited h (2 * b + 1) rgt q -> visited (S h) b ls (p ++ q).
Proof.
  intros Hne HN Hu Els Esp Hl Hr [P1 P2] [Q1 Q2]. destruct (mid_eq h b HN) as (Em & Ei & Ej).
  unfold visited. cbn [proofSize expand_visit]. rewrite Em.
  rewrite (ml_split_map blank ls _ lft rgt) by done. rewrite Ei, Ej in *.
  rewrite Els in Hu. apply Forall_app in Hu as [Hul Hur]. split.
  - destruct ls as [|l ls]; [done|]. cbn [map]. by rewrite P1, Q1, length_app.
  - intros rest. destruct ls as [|l ls]; [done|]. cbn [map]. rewrite <- app_assoc, P2.
    cbn [mbind outcome_bind]. rewrite Q2. cbn [mbind outcome_bind].
    rewrite (ml_set_mfix h b (2 * b + 1) (2 * b) rgt Hur Hr (sibling_odd b)). cbn [mbind outcome_bind].
    rewrite (ml_set_mfix h b (2 * b) (2 * b + 1) lft Hul Hl (sibling_even b)).
    cbn [mbind outcome_bind]. rewrite node_succ, <- map_app, <- Els. done.
Qed.

Lemma visit_spec h : forall b ls, ls <> [] -> msorted ls -> Forall (munder h b) ls ->
  (Z.of_nat ((b + 1) * 2 ^ h) < 2 ^ 62)%Z ->
  exists p, compute_visit h (Z.of_nat (b * 2 ^ h)) (Z.of_nat ((b + 1) * 2 ^ h)) ls = Ok p /\
    visited h b ls p.
Proof.
  induction h as [|h IH]; intros b ls Hne Hs Hu HN.
  - exists []. split; [done|]. destruct ls as [|l ls]; [done|]. split; [done|]. intros rest.
    apply Forall_cons in Hu as [(H1 & H2 & H3 & _) _]. cbn [map expand_visit]. rewrite node_zero.
    rewrite Nat.div_1_r in H3. rewrite <- H3, H2. cbn [default]. done.
  - destruct (mid_eq h b HN) as (Em & Ei & Ej).
    destruct (ml_split_block h b ls Hs Hu) as (lft & rgt & Esp & Els & Hsl & Hsr & Hl & Hr).
    cbn [compute_visit]. rewrite Em, Esp. rewrite Ei, Ej.
    pose proof Hu as Hu'. rewrite Els in Hu'. apply Forall_app in Hu' as [Hul Hur].
    assert ((2 * b + 1) * 2 ^ h <= (b + 1) * 2 ^ S h) as Hle by (rewrite Nat.pow_succ_r'; nia).
    destruct lft as [|l lft].
    + destruct rgt as [|r rgt]; [done|].
      rewrite (proof_at_half h b (2 * b + 1) (2 * b) (r :: rgt)); [|done|done|done|apply sibling_odd].
      cbn [mbind outcome_bind].
      destruct (IH (2 * b + 1) (r :: rgt)) as (q & Eq & Hq); [done|done|done|by rewrite <- Ej|].
      rewrite Eq. cbn [mbind outcome_bind]. eexists. split; [done|].
      apply (visited_step h b ls [] (r :: rgt)); try done. apply visited_empty.
    + destruct (IH (2 * b) (l :: lft)) as (p & Ep & Hp); [done|done|done|lia|].
      rewrite Ep. cbn [mbind outcome_bind]. destruct rgt as [|r rgt].
      * rewrite (proof_at_half h b (2 * b) (2 * b + 1)); [|done|done|done|apply sibling_even].
        cbn [mbind outcome_bind]. eexists. split; [done|].
        apply (visited_step h b ls (l :: lft) []); try done. apply visited_empty.
      * destruct (IH (2 * b + 1) (r :: rgt)) as (q & Eq & Hq); [done|done|done|by rewrite <- Ej|].
        rewrite Eq. cbn [mbind outcome_bind]. eexists. split; [done|].
        by apply (visited_step h b ls (l :: lft) (r :: rgt)).
Qed.

(** ** All trees *)
Definition tree_ok (h : nat) (t : list mleaf) : Prop :=
  t <> [] -> exists b, msorted t /\ Forall (munder h b) t /\ (Z.of_nat ((b + 1) * 2 ^ h) < 2 ^ 62)%Z /\
    tree_bounds h t = (Z.of_nat (b * 2 ^ h), Z.of_nat ((b + 1) * 2 ^ h)).

Lemma tree_bounds_blank h t : tree_bounds h (map blank t) = tree_bounds h t.
Proof. by destruct t. Qed.

Definition size_step (h : nat) (ls : list mleaf) (size : nat) : outcome nat :=
  match ls with
  | [] => Ok size
  | _ => let '(i, j) := tree_bounds h ls in Ok (size + proofSize h i j ls)
  end.
Definition compute_step (h : nat) (ls : list mleaf) (proof : list Hash256) : outcome (list Hash256) :=
  match ls with
  | [] => Ok proof
  | _ => let '(i, j) := tree_bounds h ls in p ← compute_visit h i j ls; Ok (proof ++ p)
  end.
Definition expand_step (h : nat) (ls : list mleaf) (s : list Hash256 * list mleaf)
    : outcome (list Hash256 * list mleaf) :=
  let '(proof, done) := s in
  match ls with
  | [] => Ok (proof, done)
  | _ => let '(i, j) := tree_bounds h ls in
         '(_, ls', proof) ← expand_visit h i j ls proof; Ok (proof, done ++ ls')
  end.

Lemma trees_spec T : forall i, (forall h t, T !! h = Some t -> tree_ok (i + h) t) ->
  exists p, (forall acc, for_each T i acc compute_step = Ok (acc ++ p)) /\
    (forall n, for_each (map (map blank) T) i n size_step = Ok (n + length p)) /\
    (forall rest done, for_each (map (map blank) T) i (p ++ rest, done) expand_step =
       Ok (rest, done ++ concat (imap (fun h t => map (mfix (i + h)) t) T))).
Proof.
  induction T as [|t T IH]; intros i H.
  - exists []. cbn. split; [intros; by rewrite app_nil_r|]. split; [intros; by rewrite Nat.add_0_r|].
    intros. by rewrite app_nil_r.
  - destruct (IH (S i)) as (p & Hc & Hn & He).
    { intros h t' Ht'. replace (S i + h) with (i + S h) by lia. by apply H. }
    pose proof (H 0 t eq_refl) as Ht. rewrite Nat.add_0_r in Ht. cbn [for_each map].
    rewrite imap_cons, Nat.add_0_r. cbn [concat].
    assert (imap ((fun h t => map (mfix (i + h)) t) ∘ S) T = imap (fun h t => map (mfix (S i + h)) t) T) as ->.
    { apply imap_ext. intros h t' _. cbn. f_equal. f_equal. lia. }
    destruct t as [|l t].
    + exists p. cbn [map app compute_step size_step mbind outcome_bind]. done.
    + destruct Ht as (b & Hs & Hu & HN & Hb); [done|].
      destruct (visit_spec i b (l :: t)) as (q & Eq & Hq1 & Hq2); [done..|].
      exists (q ++ p). split; [|split].
      * intros acc. assert (compute_step i (l :: t) acc = Ok (acc ++ q)) as ->
          by (unfold compute_step; by rewrite Hb, Eq). cbn [mbind outcome_bind]. by rewrite Hc, app_assoc.
      * intros n. change (blank l :: map blank t) with (map blank (l :: t)).
        assert (size_step i (map blank (l :: t)) n = Ok (n + length q)) as ->
          by (unfold size_step; by rewrite tree_bounds_blank, Hb, Hq1).
        cbn [mbind outcome_bind]. rewrite Hn, length_app. f_equal. lia.
      * intros rest done. change (blank l :: map blank t) with (map blank (l :: t)).
        assert (expand_step i (map blank (l :: t)) ((q ++ p) ++ rest, done) =
          Ok (p ++ rest, done ++ map (mfix i) (l :: t))) as ->
          by (unfold expand_step; by rewrite tree_bounds_blank, Hb, <- app_assoc, Hq2).
        cbn [mbind outcome_bind]. by rewrite He, <- app_assoc.
Qed.
End Visit.

(** ** Transaction sets *)
Section Sets.
Context {crypto : Crypto}.

(** The precondition of [V2TransactionsMultiproof]: all proofs are valid for one accumulator. *)
Definition leaf_valid (L : list Hash256) (l : mleaf) : Prop :=
  (0 <= ml_LeafIndex l)%Z /\ L !! mix l = Some (ml_leafHash l) /\
  forest_proof L (mix l) (ml_MerkleProof l).
Definition proofs_valid (L : list Hash256) (txns : list V2Transaction) : Prop :=
  (Z.of_nat (length L) < 2 ^ 62)%Z /\ forall l, l ∈ forEachElementLeaf txns -> leaf_valid L l.

Definition mtree (ls : list mleaf) (h : nat) : list mleaf :=
  ml_sort (filter (fun l => length (ml_MerkleProof l) = h) ls).

Lemma elem_of_ml_insert x y l : x ∈ ml_insert y l <-> x = y \/ x ∈ l.
Proof.
  induction l as [|z l IH]; cbn; [set_solver|]. destruct (_ <? _)%Z; rewrite !elem_of_cons, ?IH; tauto.
Qed.

Lemma elem_of_ml_sort x l : x ∈ ml_sort l <-> x ∈ l.
Proof. induction l as [|y l IH]; cbn; [done|]. by rewrite elem_of_ml_insert, IH, elem_of_cons. Qed.

Lemma ml_insert_sorted x l : msorted l -> msorted (ml_insert x l).
Proof.
  unfold msorted. induction 1 as [|y l Hs IH HF]; cbn; [repeat constructor|].
  destruct (_ <? _)%Z eqn:E; [apply Z.ltb_lt in E|apply Z.ltb_ge in E].
  - constructor; [done|]. rewrite Forall_forall in *. intros z [->|Hz]%elem_of_ml_insert; [lia|by apply HF].
  - constructor; [by constructor|]. constructor; [done|]. eapply Forall_impl; [exact HF|]. cbn. lia.
Qed.

Lemma ml_sort_sorted l : msorted (ml_sort l).
Proof. induction l as [|x l IH]; [constructor|]. by apply (ml_insert_sorted x (ml_sort l)). Qed.

Lemma ml_sort_map f l : (forall x, ml_LeafIndex (f x) = ml_LeafIndex x) ->
  ml_sort (map f l) = map f (ml_sort l).
Proof.
  intros Hf. induction l as [|x l IH]; [done|]. change (ml_insert (f x) (ml_sort (map f l)) = map f (ml_insert x (ml_sort l))).
  rewrite IH. generalize (ml_sort l) as s.
  induction s as [|y s IHs]; cbn; [done|]. rewrite !Hf. destruct (_ <? _)%Z; cbn; [by rewrite IHs|done].
Qed.

Lemma mtree_blank ls h : mtree (map blank ls) h = map blank (mtree ls h).
Proof.
  unfold mtree. rewrite <- ml_sort_map by done. f_equal.
  induction ls as [|l ls IH]; [done|]. cbn [map]. rewrite !filter_cons, IH.
  assert (length (ml_MerkleProof (blank l)) = length (ml_MerkleProof l)) as ->
    by (unfold blank, ml_setProof, ml_MerkleProof; cbn; apply length_replicate).
  by destruct (decide _).
Qed.

Lemma elem_of_mtree ls h l : l ∈ mtree ls h <-> length (ml_MerkleProof l) = h /\ l ∈ ls.
Proof. unfold mtree. by rewrite elem_of_ml_sort, list_elem_of_filter. Qed.

Lemma leaf_valid_lt L l : leaf_valid L l -> mix l < length L.
Proof. intros (_ & H & _). by eapply lookup_lt_Some. Qed.

Lemma mtree_ok L ls h : (Z.of_nat (length L) < 2 ^ 62)%Z -> (forall l, l ∈ ls -> leaf_valid L l) ->
  tree_ok L h (mtree ls h).
Proof.
  intros HN Hv Hne. exists (length L / 2 ^ h - 1).
  assert (Forall (fun l => munder L h (length L / 2 ^ h - 1) l /\ merge (mix l) (length L) h /\
    mix l < length L) (mtree ls h)) as Hu.
  { apply Forall_forall. intros l [Hl Hin]%elem_of_mtree. pose proof (Hv l Hin) as Hvl.
    pose proof (leaf_valid_lt _ _ Hvl) as Hlt. destruct Hvl as (H1 & H2 & (h' & Hm & Ep)).
    assert (h' = h) as -> by (rewrite <- Hl, Ep; by rewrite length_sibs).
    destruct (merge_lt _ _ _ Hm Hlt) as [_ E]. split; [|done].
    split; [done|]. split; [done|]. split; [lia|]. by rewrite take_ge by lia. }
  split; [apply ml_sort_sorted|]. split; [eapply Forall_impl; [exact Hu|]; by intros l (? & _)|].
  destruct (mtree ls h) as [|l t]; [done|].
  apply Forall_cons in Hu as [((H0 & _ & Hb & _) & Hm & Hlt) _].
  destruct (merge_lt _ _ _ Hm Hlt) as [Ho E]. apply odd_half in Ho.
  assert ((length L / 2 ^ h - 1 + 1) * 2 ^ h <= length L) as Hle.
  { pose proof (pow2_nz h). pose proof (Nat.div_mod_eq (length L) (2 ^ h)). nia. }
  split; [lia|]. unfold tree_bounds.
  replace (ml_LeafIndex l) with (Z.of_nat (mix l)) by (unfold mix; lia).
  replace (Z.of_nat h + 1)%Z with (Z.of_nat (S h)) by lia. rewrite clearBits_nat.
  assert (mix l / 2 ^ S h * 2 ^ S h = (length L / 2 ^ h - 1) * 2 ^ h) as ->.
  { rewrite div_pow_succ, Hb, Nat.pow_succ_r'.
    replace ((length L / 2 ^ h - 1) / 2) with (length L / 2 ^ h / 2); [lia|].
    rewrite Ho at 2. replace (2 * (length L / 2 ^ h / 2) + 1 - 1) with (length L / 2 ^ h / 2 * 2) by lia.
    by rewrite Nat.div_mul. }
  f_equal. rewrite <- pow2_Z, u64_id; [lia|]. change (2 ^ 62)%Z with 4611686018427387904%Z in HN.
  unfold is_u64. nia.
Qed.

Lemma leaf_valid_height L l : (Z.of_nat (length L) < 2 ^ 62)%Z -> leaf_valid L l ->
  length (ml_MerkleProof l) < 64.
Proof.
  intros HN Hv. pose proof (leaf_valid_lt _ _ Hv) as Hlt. destruct Hv as (_ & _ & (h & Hm & ->)).
  rewrite length_sibs. by eapply height_lt_64.
Qed.

Lemma forEachTree_ok L txns : proofs_valid L txns ->
  forEachTree txns = Ok (map (mtree (forEachElementLeaf txns)) (seq 0 64)).
Proof.
  intros [HN Hv]. unfold forEachTree. rewrite (proj2 (forallb_forall _ _)); [done|].
  intros l Hl%list_elem_of_In. apply Nat.ltb_lt. by eapply leaf_valid_height; [|apply Hv].
Qed.

(** A valid leaf is unchanged by restoring its siblings. *)
Lemma mfix_valid L l : leaf_valid L l -> mfix L (length (ml_MerkleProof l)) l = l.
Proof.
  intros (_ & _ & (h & Hm & Ep)). rewrite Ep, length_sibs.
  destruct l as [pos [ix pf sh] eh]. unfold mfix, ml_setProof, se_setProof, ml_MerkleProof in *. cbn in Ep |- *.
  do 2 f_equal. rewrite Ep at 2. rewrite drop_ge, app_nil_r by (rewrite length_replicate, Ep, length_sibs; lia).
  by rewrite Ep.
Qed.

Lemma concat_mfix L ls : (forall l, l ∈ ls -> leaf_valid L l) ->
  imap (fun h t => map (mfix L (0 + h)) t) (map (mtree ls) (seq 0 64)) = map (mtree ls) (seq 0 64).
Proof.
  intros Hv. rewrite <- (list_fmap_id (map (mtree ls) (seq 0 64))) at 2.
  apply list_eq. intros h. rewrite list_lookup_imap, !list_lookup_fmap.
  destruct (seq 0 64 !! h) as [x|] eqn:E; [|done]. cbn. f_equal. apply lookup_seq in E as [-> _]. cbn.
  transitivity (map id (mtree ls h)); [|apply map_id]. apply map_ext_in. intros l Hl%list_elem_of_In.
  apply elem_of_mtree in Hl as [<- Hl]. by apply mfix_valid, Hv.
Qed.

(** ** The inferred number of leaves *)

Lemma testbit_div_eq a b h i : (0 <= a)%Z -> (0 <= b)%Z -> (0 <= h <= i)%Z ->
  (a / 2 ^ h = b / 2 ^ h)%Z -> Z.testbit a i = Z.testbit b i.
Proof.
  intros Ha Hb Hi E. replace i with (i - h + h)%Z by lia. rewrite <- !Z.shiftr_spec by lia.
  by rewrite !Z.shiftr_div_pow2, E by lia.
Qed.

Lemma div_eq_testbit a b h : (0 <= h)%Z -> (forall i, (h <= i)%Z -> Z.testbit a i = Z.testbit b i) ->
  (a / 2 ^ h = b / 2 ^ h)%Z.
Proof.
  intros Hh H. rewrite <- !Z.shiftr_div_pow2 by lia. apply Z.bits_inj'. intros i Hi.
  rewrite !Z.shiftr_spec by lia. apply H. lia.
Qed.

(** One leaf contributes the bits of the leaf count from the height of its tree on. *)
Lemma leaf_bits L l i : (Z.of_nat (length L) < 2 ^ 62)%Z -> leaf_valid L l -> (0 <= i)%Z ->
  let h := Z.of_nat (length (ml_MerkleProof l)) in let n := u64 (2 ^ h) in
  Z.testbit (Z.lor (Z.ldiff (ml_LeafIndex l) (u64 (n - 1))) n) i =
  (h <=? i)%Z && Z.testbit (Z.of_nat (length L)) i.
Proof.
  intros HN Hv Hi h n. pose proof (leaf_valid_lt _ _ Hv) as Hlt.
  pose proof (leaf_valid_height _ _ HN Hv) as Hh64. destruct Hv as (H0 & _ & (h' & Hm & Ep)).
  assert (length (ml_MerkleProof l) = h') as El by (by rewrite Ep, length_sibs).
  assert (n = 2 ^ h)%Z as En.
  { unfold n. apply u64_id. unfold is_u64, h. split; [lia|].
    change 18446744073709551616%Z with (2 ^ 64)%Z. apply Z.pow_lt_mono_r; lia. }
  assert (u64 (n - 1) = Z.ones h) as ->.
  { rewrite Z.ones_equiv, En. rewrite u64_id; [lia|]. pose proof (u64_range (2 ^ h)) as Hr. fold n in Hr.
    unfold is_u64 in *. pose proof (Z.pow_pos_nonneg 2 h ltac:(lia) ltac:(lia)). lia. }
  rewrite Z.lor_spec, Z.ldiff_spec, Z.testbit_ones_nonneg by lia. rewrite En, Z.pow2_bits_eqb by lia.
  destruct (merge_lt _ _ _ Hm Hlt) as [Ho _]. rewrite <- testbit_odd, <- has_bit_nat in Ho.
  unfold has_bit in Ho. rewrite <- El in Ho. fold h in Ho.
  destruct (Z.lt_trichotomy i h) as [Hl|[->|Hg]].
  - rewrite (proj2 (Z.ltb_lt i h)), (proj2 (Z.eqb_neq h i)), (proj2 (Z.leb_gt h i)) by lia.
    by rewrite andb_false_r.
  - rewrite Z.eqb_refl, orb_true_r, (proj2 (Z.leb_le h h)), Ho by lia. done.
  - rewrite (proj2 (Z.ltb_ge i h)), (proj2 (Z.eqb_neq h i)), (proj2 (Z.leb_le h i)) by lia.
    rewrite andb_true_r, orb_false_r. cbn [andb].
    apply (testbit_div_eq _ _ (h + 1)); [lia|lia|lia|].
    replace (ml_LeafIndex l) with (Z.of_nat (mix l)) by (unfold mix; lia).
    destruct Hm as [E _]. rewrite <- El in E. unfold h.
    replace (Z.of_nat (length (ml_MerkleProof l)) + 1)%Z with (Z.of_nat (S (length (ml_MerkleProof l)))) by lia.
    rewrite <- pow2_Z, <- !Nat2Z.inj_div. by rewrite E.
Qed.

Lemma infer_bits L ls i : (Z.of_nat (length L) < 2 ^ 62)%Z -> (forall l, l ∈ ls -> leaf_valid L l) ->
  (0 <= i)%Z -> Z.testbit (infer_numLeaves ls) i =
  existsb (fun l => (Z.of_nat (length (ml_MerkleProof l)) <=? i)%Z) ls && Z.testbit (Z.of_nat (length L)) i.
Proof.
  intros HN Hv Hi. unfold infer_numLeaves.
  assert (forall ls acc, (forall l, l ∈ ls -> leaf_valid L l) ->
    Z.testbit (foldl (fun n l => Z.lor n (Z.lor (Z.ldiff (ml_LeafIndex l)
      (u64 (u64 (2 ^ Z.of_nat (length (ml_MerkleProof l))) - 1))) (u64 (2 ^ Z.of_nat (length (ml_MerkleProof l)))))) acc ls) i =
    Z.testbit acc i || existsb (fun l => (Z.of_nat (length (ml_MerkleProof l)) <=? i)%Z) ls && Z.testbit (Z.of_nat (length L)) i) as H.
  { clear Hv ls. intros ls. induction ls as [|l ls IH]; intros acc Hv; cbn [foldl existsb]; [by rewrite orb_false_r|].
    rewrite IH by (intros x Hx; apply Hv; by right). rewrite Z.lor_spec, (leaf_bits L) by (done || apply Hv; left).
    destruct (Z.testbit acc i), (_ <=? i)%Z, (existsb _ ls), (Z.testbit (Z.of_nat (length L)) i); done. }
  rewrite H by done. by rewrite Z.bits_0.
Qed.

Lemma infer_spec L ls : (Z.of_nat (length L) < 2 ^ 62)%Z -> (forall l, l ∈ ls -> leaf_valid L l) ->
  is_u64 (infer_numLeaves ls) /\ forall l, l ∈ ls ->
    (ml_LeafIndex l < infer_numLeaves ls)%Z /\
    bits.Len64 (Z.lxor (ml_LeafIndex l) (infer_numLeaves ls)) = Z.of_nat (length (ml_MerkleProof l) + 1).
Proof.
  intros HN Hv. pose proof (fun i => infer_bits L ls i HN Hv) as Hb. set (n := infer_numLeaves ls) in *.
  assert (0 <= n)%Z as Hn0.
  { unfold n, infer_numLeaves. assert (forall acc, (0 <= acc)%Z -> (forall l, l ∈ ls -> (0 <= ml_LeafIndex l)%Z) ->
      (0 <= foldl (fun n l => Z.lor n (Z.lor (Z.ldiff (ml_LeafIndex l)
      (u64 (u64 (2 ^ Z.of_nat (length (ml_MerkleProof l))) - 1))) (u64 (2 ^ Z.of_nat (length (ml_MerkleProof l)))))) acc ls)%Z) as H.
    { clear. induction ls as [|l ls IH]; intros acc Ha Hl; [done|]. cbn. apply IH.
      - rewrite !Z.lor_nonneg, Z.ldiff_nonneg. pose proof (Hl l ltac:(left)).
        pose proof (u64_range (2 ^ Z.of_nat (length (ml_MerkleProof l)))). unfold is_u64 in *. lia.
      - intros x Hx. apply Hl. by right. }
    apply H; [done|]. intros l Hl. by destruct (Hv l Hl). }
  assert (n / 2 ^ 62 = 0)%Z as Hn62.
  { rewrite <- (Z.div_small (Z.of_nat (length L)) (2 ^ 62)) by lia. apply div_eq_testbit; [lia|].
    intros i Hi. rewrite Hb by lia. destruct (existsb _ ls); [done|]. cbn [andb]. symmetry.
    rewrite <- (Z.bits_0 i). apply (testbit_div_eq _ _ 62); [lia|lia|lia|].
    by rewrite !Z.div_small by lia. }
  assert (n < 2 ^ 62)%Z as Hn by (apply Z.div_small_iff in Hn62; lia).
  change (2 ^ 62)%Z with 4611686018427387904%Z in Hn. split; [unfold is_u64; lia|].
  intros l Hl. pose proof (Hv l Hl) as Hvl. pose proof (leaf_valid_lt _ _ Hvl) as Hlt.
  destruct Hvl as (H0 & _ & (h & Hm & Ep)).
  assert (length (ml_MerkleProof l) = h) as El by (by rewrite Ep, length_sibs).
  assert (n / 2 ^ Z.of_nat h = Z.of_nat (length L) / 2 ^ Z.of_nat h)%Z as Ed.
  { apply div_eq_testbit; [lia|]. intros i Hi. rewrite Hb by lia.
    rewrite (proj2 (existsb_exists _ _)); [done|]. exists l. split; [by apply list_elem_of_In|]. apply Z.leb_le. lia. }
  destruct (merge_lt _ _ _ Hm Hlt) as [Ho E].
  assert (Z.to_nat n / 2 ^ h = length L / 2 ^ h) as Ed'.
  { apply Nat2Z.inj. rewrite !Nat2Z.inj_div, pow2_Z, Z2Nat.id by lia. exact Ed. }
  assert (merge (mix l) (Z.to_nat n) h) as Hm' by (apply merge_intro; [by rewrite Ed'|lia]).
  assert (ml_LeafIndex l = Z.of_nat (mix l)) as Eix by (unfold mix; lia).
  pose proof (merge_height _ _ _ Hm') as Hmh. rewrite Z2Nat.id in Hmh by lia. split.
  - rewrite Eix. destruct (decide (mix l < Z.to_nat n)) as [|Hge]; [lia|]. exfalso.
    pose proof (div_pow_le (Z.to_nat n) (mix l) h ltac:(lia)). lia.
  - rewrite Eix, El. exact Hmh.
Qed.
End Sets.
