(* ===== verification/TypesBlockCodecSpec.v ===== *)
(** * Blocks round-trip through the multiproof encoding

    The decoder of a block sees transactions without proofs, the inferred number of leaves and
    the multiproof; it returns the transactions the encoder was given. *)
From stdpp Require Import prelude strings sorting.
From Stdlib Require Import ZArith Lia.
From S2P Require Import Prelude TypesCurrency TypesData TypesEncoding TypesCodec TypesHash SampleCrypto TypesMerkle.
From S2P Require Import ConsensusState ConsensusMerkle MerkleForest ConsensusMerkleSpec ConsensusMerkleUpdateSpec.
From S2P Require Import TypesMultiproof TypesMultiproofSpec.
Local Open Scope nat_scope.

(** ** Well-formedness is a property of the elements and of the rest *)
Class ElemsWf {T} {E : Elems T} (wf : T -> Prop) : Prop := {
  wf_elems : forall x, wf x -> Forall wf_StateElement (elems x);
  wf_put : forall x es, wf x -> Forall wf_StateElement es -> wf (put_elems x es) }.

Section Wf.
Context {crypto : Crypto}.

#[export] Instance sci_wf : ElemsWf wf_V2SiacoinInput.
Proof.
  split.
  - intros x [[H _] _]. by apply Forall_singleton.
  - intros x [|e es] H Hes; [done|]. apply Forall_cons in Hes as [He _].
    destruct H as ((? & ? & ? & ?) & ?). done.
Qed.
#[export] Instance sfi_wf : ElemsWf wf_V2SiafundInput.
Proof.
  split.
  - intros x [[H _] _]. by apply Forall_singleton.
  - intros x [|e es] H Hes; [done|]. apply Forall_cons in Hes as [He _].
    destruct H as ((? & ? & ? & ?) & ? & ?). done.
Qed.
#[export] Instance fcr_wf : ElemsWf wf_V2FileContractRevision.
Proof.
  split.
  - intros x [[H _] _]. by apply Forall_singleton.
  - intros x [|e es] H Hes; [done|]. apply Forall_cons in Hes as [He _].
    destruct H as ((? & ? & ?) & ?). done.
Qed.
#[export] Instance res_wf : ElemsWf wf_V2FileContractResolution.
Proof.
  split.
  - intros [p r] [[H _] Hr]. cbn. constructor; [done|]. destruct r as [|sp|]; [constructor| |constructor].
    destruct Hr as [[Hr _] _]. by apply Forall_singleton.
  - intros [p r] [|e es] H Hes; [done|]. apply Forall_cons in Hes as [He Hes].
    destruct H as ((? & ? & ?) & Hr). cbn in *. split; [done|].
    destruct r as [|sp|]; [done| |done]. destruct es as [|e' es]; [done|].
    apply Forall_cons in Hes as [He' _]. destruct Hr as ((? & ? & ?) & ? & ?). done.
Qed.
#[export] Instance list_wf {T} (wf : T -> Prop) `{ElemsWf T wf} : ElemsWf (Forall wf).
Proof.
  split; cbn [elems put_elems list_elems].
  - intros l Hl. induction Hl; cbn; [constructor|]. apply Forall_app. split; [by apply wf_elems|done].
  - intros l es Hl. revert es. induction Hl; intros es Hes; cbn; constructor.
    + apply wf_put; [done|by apply Forall_take].
    + apply IHHl. by apply Forall_drop.
Qed.
#[export] Instance txn_wf : ElemsWf wf_V2Transaction.
Proof.
  split; cbn [elems put_elems txn_elems]; unfold wf_V2Transaction.
  - intros x H. destruct_and? H. unfold V2Transaction_elems.
    rewrite !Forall_app. split_and!; by apply wf_elems.
  - intros x es H Hes. destruct_and? H. unfold V2Transaction_put. cbn_txn.
    split_and!; try done; (apply wf_put; [done|]); auto using Forall_take, Forall_drop.
Qed.
End Wf.

(** ** Leaves of rewritten elements *)
Section Rewrite.
Context {crypto : Crypto}.
Implicit Types (txns : list V2Transaction) (l : mleaf).

Definition ml_map (g : StateElement -> StateElement) l : mleaf :=
  {| ml_pos := ml_pos l; ml_StateElement := g (ml_StateElement l); ml_ElementHash := ml_ElementHash l |}.

Lemma elem_of_leaves txns l : l ∈ forEachElementLeaf txns <->
  elems txns !! ml_pos l = Some (ml_StateElement l) /\
  elem_hashes txns !! ml_pos l = Some (ml_ElementHash l) /\ assigned (ml_StateElement l) = true.
Proof.
  unfold forEachElementLeaf. rewrite list_elem_of_In, filter_In, <- list_elem_of_In, list_elem_of_lookup.
  split.
  - intros [(i & Hi) Ha]. rewrite list_lookup_imap in Hi.
    destruct (zip _ _ !! i) as [[e h]|] eqn:E; [|done]. cbn in Hi. injection Hi as <-. cbn.
    apply lookup_zip_Some in E as [E1 E2]. done.
  - intros (E1 & E2 & Ha). split; [|done]. exists (ml_pos l). rewrite list_lookup_imap.
    rewrite (proj2 (lookup_zip_Some _ _ _ _ _) (conj E1 E2)). cbn. by destruct l.
Qed.

Lemma length_elem_hashes txns : length (elem_hashes txns) = length (elems txns).
Proof. apply length_hashes. Qed.

Lemma leaves_map g txns : (forall e, se_LeafIndex (g e) = se_LeafIndex e) ->
  forEachElementLeaf (put_elems txns (map g (elems txns))) = map (ml_map g) (forEachElementLeaf txns).
Proof.
  intros Hg. unfold forEachElementLeaf. rewrite elems_put, hashes_put by apply length_map.
  assert (forall es (hs : list Hash256), zip (map g es) hs = (fun p => (g p.1, p.2)) <$> zip es hs) as Ez.
  { induction es as [|e es IH]; intros [|h hs]; [done..|]. cbn. f_equal. apply IH. }
  rewrite Ez, imap_fmap. generalize (zip (elems txns) (elem_hashes txns)) as z.
  assert (forall (z : list (StateElement * Hash256)) k,
    List.filter (fun l => assigned (ml_StateElement l))
      (imap (fun i '(e, h) => {| ml_pos := k + i; ml_StateElement := g e; ml_ElementHash := h |}) z) =
    map (ml_map g) (List.filter (fun l => assigned (ml_StateElement l))
      (imap (fun i '(e, h) => {| ml_pos := k + i; ml_StateElement := e; ml_ElementHash := h |}) z))) as H.
  { induction z as [|[e h] z IH]; intros k; [done|]. rewrite !imap_cons. cbn [List.filter ml_StateElement].
    specialize (IH (S k)).
    assert (forall f : StateElement -> StateElement, imap ((λ i '(e, h), {| ml_pos := k + i; ml_StateElement := f e; ml_ElementHash := h |}) ∘ S) z
      = imap (λ i '(e, h), {| ml_pos := S k + i; ml_StateElement := f e; ml_ElementHash := h |}) z) as Es.
    { intros f. apply imap_ext. intros i [e' h'] _. cbn. f_equal. lia. }
    pose proof (Es (fun x => x)) as Ei. cbv beta in Ei. rewrite (Es g), Ei, IH.
    assert (assigned (g e) = assigned e) as -> by (unfold assigned; by rewrite Hg).
    by destruct (assigned e). }
  intros z. etransitivity; [|etransitivity; [exact (H z 0)|]]; [|done].
  f_equal. apply imap_ext. by intros i [e h] _.
Qed.

Lemma put_map_map g f txns :
  put_elems (put_elems txns (map g (elems txns))) (map f (elems (put_elems txns (map g (elems txns)))))
  = put_elems txns (map (fun e => f (g e)) (elems txns)).
Proof. rewrite elems_put, map_map by apply length_map. apply put_put; apply length_map. Qed.

Lemma find_pos ls l : l ∈ ls -> (forall l', l' ∈ ls -> ml_pos l' = ml_pos l -> l' = l) ->
  List.find (fun x => ml_pos x =? ml_pos l) ls = Some l.
Proof.
  intros Hin Hu. destruct (List.find _ ls) as [l'|] eqn:E.
  - apply find_some in E as [H1 H2%Nat.eqb_eq]. f_equal. apply Hu; [by apply list_elem_of_In|done].
  - exfalso. pose proof (find_none _ _ E l) as H. cbn in H. rewrite Nat.eqb_refl in H.
    by discriminate H; apply list_elem_of_In.
Qed.

(** Writing the leaves of [txns] over the same elements with other proofs restores them. *)
Lemma write_leaves txns g ls : (forall l, l ∈ ls <-> l ∈ forEachElementLeaf txns) ->
  (forall e, e ∈ elems txns -> assigned e = false -> g e = e) ->
  write_proofs ls (map g (elems txns)) = elems txns.
Proof.
  intros Hls Hg. unfold write_proofs. apply list_eq. intros i. rewrite list_lookup_imap.
  change (map g (elems txns)) with (g <$> elems txns). rewrite list_lookup_fmap.
  destruct (elems txns !! i) as [e|] eqn:E; [|done]. cbn. f_equal.
  destruct (assigned e) eqn:Ea.
  - pose proof (length_elem_hashes txns) as Hlen.
    destruct (lookup_lt_is_Some_2 (elem_hashes txns) i) as [h Eh].
    { rewrite Hlen. by eapply lookup_lt_Some. }
    pose (l := {| ml_pos := i; ml_StateElement := e; ml_ElementHash := h |}).
    assert (List.find (fun x => ml_pos x =? i) ls = Some l) as ->; [apply (find_pos ls l)|done].
    + apply Hls, elem_of_leaves. done.
    + intros l' (H1 & H2 & _)%Hls%elem_of_leaves Hp. rewrite Hp in H1, H2. change (ml_pos l) with i in H1, H2.
      rewrite E in H1. rewrite Eh in H2. destruct l'. cbn in *. subst l. cbn in *. by simplify_eq.
  - destruct (List.find _ ls) as [l|] eqn:Ef; [|by apply Hg; [eapply list_elem_of_lookup_2|]].
    apply find_some in Ef as [Hin Hp%Nat.eqb_eq]. apply list_elem_of_In, Hls, elem_of_leaves in Hin.
    destruct Hin as (H1 & _ & H3). rewrite Hp, E in H1. by simplify_eq.
Qed.
End Rewrite.

(** ** The round trip of a transaction set *)
Section Roundtrip.
Context {crypto : Crypto}.
Implicit Types (txns : list V2Transaction) (L : list Hash256).

Definition stripped (e : StateElement) : StateElement := strip_proof (StateElement_Copy e).

Lemma strip_index e : se_LeafIndex (stripped e) = se_LeafIndex e.
Proof. unfold stripped, strip_proof. by destruct (assigned _). Qed.
Lemma assigned_stripped e : assigned (stripped e) = assigned e.
Proof. unfold assigned. by rewrite strip_index. Qed.
Lemma blank_index n e : se_LeafIndex (blank_proof n e) = se_LeafIndex e.
Proof. unfold blank_proof. by destruct (assigned _). Qed.

Lemma strip_unassigned e : wf_StateElement e -> assigned e = false -> stripped e = e.
Proof.
  intros (_ & _ & Hs) Ha. unfold stripped, strip_proof.
  assert (StateElement_Copy e = e) as -> by (destruct e; cbn in *; by subst). by rewrite Ha.
Qed.

Lemma wf_stripped e : wf_StateElement e -> wf_StateElement (stripped e).
Proof.
  intros (H1 & H2 & H3). unfold stripped, strip_proof. destruct (assigned _); [|done].
  split; [done|]. split; [constructor|done].
Qed.

Lemma leaf_wf txns l : Forall wf_V2Transaction txns -> l ∈ forEachElementLeaf txns ->
  wf_StateElement (ml_StateElement l).
Proof.
  intros Hwf (H & _)%elem_of_leaves. apply wf_elems in Hwf. rewrite Forall_forall in Hwf.
  by eapply Hwf, list_elem_of_lookup_2.
Qed.

(** The decoder's blank proofs have the lengths the encoder saw. *)
Lemma blanked_leaf L txns l : Forall wf_V2Transaction txns -> proofs_valid L txns ->
  l ∈ forEachElementLeaf txns ->
  ml_map (fun e => blank_proof (infer_numLeaves (forEachElementLeaf txns)) (stripped e)) l = blank l.
Proof.
  intros Hwf [HN Hv] Hl. destruct (infer_spec L _ HN Hv) as [_ Hi]. destruct (Hi l Hl) as [_ Hb].
  pose proof (leaf_wf _ _ Hwf Hl) as (_ & _ & Hs). apply elem_of_leaves in Hl as (_ & _ & Ha).
  destruct l as [pos [ix pf sh] h]. unfold ml_LeafIndex, ml_MerkleProof in Hb.
  unfold ml_map, blank, ml_setProof, stripped, strip_proof, StateElement_Copy in *. cbn in Hs, Ha, Hb |- *. subst sh.
  unfold assigned in *. cbn in *. rewrite Ha. unfold blank_proof, assigned. cbn. rewrite Ha.
  unfold se_setProof. cbn. rewrite Hb. do 3 f_equal. lia.
Qed.

Lemma blanked_leaves L txns : Forall wf_V2Transaction txns -> proofs_valid L txns ->
  let n := infer_numLeaves (forEachElementLeaf txns) in
  forEachElementLeaf (put_elems txns (map (fun e => blank_proof n (stripped e)) (elems txns)))
  = map blank (forEachElementLeaf txns).
Proof.
  intros Hwf Hv n. rewrite leaves_map by (intros e; by rewrite blank_index, strip_index).
  apply map_ext_in. intros l Hl%list_elem_of_In. by eapply blanked_leaf.
Qed.

Lemma blanked_trees L txns : Forall wf_V2Transaction txns -> proofs_valid L txns ->
  let n := infer_numLeaves (forEachElementLeaf txns) in
  forEachTree (put_elems txns (map (fun e => blank_proof n (stripped e)) (elems txns)))
  = Ok (map (map blank) (map (mtree (forEachElementLeaf txns)) (seq 0 64))).
Proof.
  intros Hwf Hv n. unfold forEachTree. rewrite (blanked_leaves L) by done. rewrite (proj2 (forallb_forall _ _)).
  - f_equal. rewrite map_map. apply map_ext. intros h. apply mtree_blank.
  - intros l Hl%list_elem_of_In. apply list_elem_of_fmap in Hl as (l0 & -> & Hl). apply Nat.ltb_lt.
    unfold blank, ml_setProof, ml_MerkleProof. cbn. rewrite length_replicate. destruct Hv as [HN Hv].
    by apply (leaf_valid_height L), Hv.
Qed.

Lemma elem_of_trees L txns l : proofs_valid L txns ->
  l ∈ concat (map (mtree (forEachElementLeaf txns)) (seq 0 64)) <-> l ∈ forEachElementLeaf txns.
Proof.
  intros [HN Hv]. rewrite list_elem_of_In, in_concat. split.
  - intros (t & Ht & Hl). apply in_map_iff in Ht as (h & <- & _).
    apply list_elem_of_In, elem_of_mtree in Hl. tauto.
  - intros Hl. exists (mtree (forEachElementLeaf txns) (length (ml_MerkleProof l))). split.
    + apply in_map, in_seq. pose proof (leaf_valid_height L l HN (Hv l Hl)). lia.
    + by apply list_elem_of_In, elem_of_mtree.
Qed.

(** The encoder's multiproof, the size the decoder computes for it and its expansion. *)
Lemma multiproof_spec L txns : Forall wf_V2Transaction txns -> proofs_valid L txns ->
  let n := infer_numLeaves (forEachElementLeaf txns) in
  let blanked := put_elems txns (map (fun e => blank_proof n (stripped e)) (elems txns)) in
  exists p, computeMultiproof txns = Ok p /\ multiproofSize blanked = Ok (length p) /\
    expandMultiproof blanked p = Ok txns.
Proof.
  intros Hwf Hv n blanked. pose proof (blanked_trees L txns Hwf Hv : forEachTree blanked = _) as Hb.
  destruct (trees_spec L (map (mtree (forEachElementLeaf txns)) (seq 0 64)) 0) as (p & Hc & Hn & He).
  { intros h t Ht. change (map (mtree (forEachElementLeaf txns)) (seq 0 64)) with
      (mtree (forEachElementLeaf txns) <$> seq 0 64) in Ht. rewrite list_lookup_fmap in Ht.
    destruct (seq 0 64 !! h) as [x|] eqn:E; [|done]. apply lookup_seq in E as [-> _]. injection Ht as <-.
    destruct Hv as [HN Hv]. by apply mtree_ok. }
  exists p. split; [|split].
  - unfold computeMultiproof. rewrite (forEachTree_ok L) by done. exact (Hc []).
  - unfold multiproofSize. rewrite Hb. exact (Hn 0).
  - unfold expandMultiproof. rewrite Hb. cbn [mbind outcome_bind]. specialize (He [] []).
    rewrite app_nil_r in He. unfold expand_step in He. rewrite He. cbn [mbind outcome_bind]. do 2 f_equal.
    rewrite concat_mfix by apply Hv. cbn [app]. unfold blanked.
    rewrite elems_put by apply length_map. rewrite write_leaves.
    + rewrite put_put; [apply put_same|apply length_map|done].
    + intros l. by apply (elem_of_trees L).
    + intros e He' Ha. apply wf_elems in Hwf. rewrite Forall_forall in Hwf.
      rewrite strip_unassigned by auto. unfold blank_proof. by rewrite Ha.
Qed.

(** The hashes of a multiproof are entries of the proofs. *)
Definition proof_wf (l : mleaf) : Prop := Forall (wf_array 32) (ml_MerkleProof l).

Lemma ml_proof_at_wf i ls h : Forall proof_wf ls -> ml_proof_at i ls = Ok h -> wf_array 32 h.
Proof.
  intros Hls E. destruct ls as [|l ls]; [done|]. apply Forall_cons in Hls as [Hl _]. cbn in E.
  destruct (ml_MerkleProof l !! i) eqn:E'; [|done]. injection E as <-.
  eapply Forall_lookup_1; [exact Hl|done].
Qed.

Ltac bind_case E a Ha :=
  match type of E with (?A ≫= ?f) = ?r =>
    destruct A as [a| |] eqn:Ha; [change (f a = r) in E; cbv beta in E|discriminate E|discriminate E]
  end.

Lemma compute_visit_wf h : forall i j ls p, Forall proof_wf ls -> compute_visit h i j ls = Ok p ->
  Forall (wf_array 32) p.
Proof.
  induction h as [|h IH]; intros i j ls p Hls E; cbn [compute_visit] in E.
  - injection E as <-. constructor.
  - destruct (ml_splitLeaves ls _) as [lft rgt] eqn:Es. unfold ml_splitLeaves in Es. injection Es as El Er.
    assert (Forall proof_wf lft) as Hl by (rewrite <- El; by apply Forall_take).
    assert (Forall proof_wf rgt) as Hr by (rewrite <- Er; by apply Forall_drop). clear El Er.
    bind_case E a Ha. bind_case E b Hb. injection E as <-. apply Forall_app. split.
    + destruct lft; [|exact (IH _ _ _ _ Hl Ha)]. ok_step Ha. injection Ha as <-. apply Forall_singleton.
      eapply ml_proof_at_wf; [|eassumption]; done.
    + destruct rgt; [|exact (IH _ _ _ _ Hr Hb)]. ok_step Hb. injection Hb as <-. apply Forall_singleton.
      eapply ml_proof_at_wf; [|eassumption]; done.
Qed.

Lemma compute_trees_wf T : forall i acc p, Forall (Forall proof_wf) T -> Forall (wf_array 32) acc ->
  for_each T i acc compute_step = Ok p -> Forall (wf_array 32) p.
Proof.
  induction T as [|t T IH]; intros i acc p HT Hacc E; cbn [for_each] in E; [by injection E as <-|].
  apply Forall_cons in HT as [Ht HT]. bind_case E acc' E0. apply (IH _ _ _ HT) in E; [done|].
  destruct t as [|l t]; [by injection E0 as <-|]. unfold compute_step in E0.
  destruct (tree_bounds i (l :: t)) as [a b]. bind_case E0 q Hq. injection E0 as <-.
  apply Forall_app. split; [done|by eapply compute_visit_wf].
Qed.

Lemma computeMultiproof_wf txns p : Forall wf_V2Transaction txns -> computeMultiproof txns = Ok p ->
  Forall (wf_array 32) p.
Proof.
  intros Hwf E. unfold computeMultiproof, forEachTree in E.
  destruct (forallb _ _); [|done]. apply compute_trees_wf in E; [done| |constructor].
  apply Forall_forall. intros t (h & -> & _)%list_elem_of_fmap.
  apply Forall_forall. intros l [_ Hl]%elem_of_mtree. by apply (leaf_wf _ _ Hwf Hl).
Qed.

(** ** The codec of a transaction set *)
Lemma lift_step {A B} (m : outcome A) (f : A -> Decode B) x d : m = Ok x ->
  (lift_outcome m ≫= f) d = f x d.
Proof. intros ->. done. Qed.

Lemma ret_step {A B} (x : A) (f : A -> Decode B) d : (mret x ≫= f) d = f x d.
Proof. done. Qed.

Lemma multiproof_roundtrip L txns : Forall wf_V2Transaction txns -> proofs_valid L txns ->
  exists enc : bytes, V2TransactionsMultiproof_EncodeTo txns = Ok enc /\
    forall rest N, (zlen enc <= N < two63)%Z ->
      V2TransactionsMultiproof_DecodeFrom (mkD (enc ++ rest) N) = Ok (txns, mkD rest (N - zlen enc)).
Proof.
  intros Hwf Hv. destruct (multiproof_spec L txns Hwf Hv) as (p & Hc & Hn & He).
  pose proof (computeMultiproof_wf _ _ Hwf Hc) as Hp. unfold V2TransactionsMultiproof_EncodeTo.
  rewrite Hc. cbn [mbind outcome_bind]. eexists. split; [done|]. intros rest N.
  change (fun e => strip_proof (StateElement_Copy e)) with stripped.
  destruct (infer_spec L _ (proj1 Hv) (proj2 Hv)) as [Hu Hi]. rewrite <- flat_map_concat_map.
  assert (Forall wf_V2Transaction (put_elems txns (map stripped (elems txns)))) as Hwf'.
  { apply wf_put; [done|]. apply wf_elems in Hwf. rewrite Forall_forall in *.
    intros e (e0 & -> & He0)%list_elem_of_fmap. by apply wf_stripped, Hwf. }
  set (n := infer_numLeaves _) in *. rewrite !zlen_app. intros HN. rewrite <- !app_assoc.
  unfold V2TransactionsMultiproof_DecodeFrom.
  rewrite (codec_step (Forall wf_V2Transaction)); [|apply _|done|zl].
  rewrite (codec_step is_u64); [|apply _|done|zl].
  rewrite (proj2 (forallb_forall _ _)).
  2: { intros l Hl%list_elem_of_In. rewrite leaves_map in Hl by apply strip_index.
       apply list_elem_of_fmap in Hl as (l0 & -> & Hl). unfold ml_map, ml_LeafIndex. cbn.
       rewrite strip_index. apply Z.ltb_lt. by destruct (Hi l0 Hl). }
  rewrite put_map_map, ret_step.
  rewrite (lift_step _ _ (length p) _ Hn). unfold mbind at 1, decode_bind at 1.
  rewrite (decode_n_rt (wf_array 32) Array_EncodeTo Hash256_DecodeFrom p); [|done|zl]. unfold lift_outcome.
  rewrite He. cbn [mbind outcome_bind]. do 3 f_equal. lia.
Qed.
End Roundtrip.

(** ** Blocks *)
Definition wf_V2BlockData (d : V2BlockData) : Prop :=
  is_u64 (v2b_Height d) /\ wf_array 32 (v2b_Commitment d) /\ Forall wf_V2Transaction (v2b_Transactions d).
Definition v1_part (b : Block) : Block :=
  {| b_ParentID := b_ParentID b; b_Nonce := b_Nonce b; b_Timestamp := b_Timestamp b;
     b_MinerPayouts := b_MinerPayouts b; b_Transactions := b_Transactions b; b_V2 := None |}.
Definition wf_V2Block (b : Block) : Prop :=
  wf_V1Block (v1_part b) /\ match b_V2 b with Some d => wf_V2BlockData d | None => True end.
Definition block_proofs_valid {crypto : Crypto} (L : list Hash256) (b : Block) : Prop :=
  match b_V2 b with Some d => proofs_valid L (v2b_Transactions d) | None => True end.

Section Blocks.
Context {crypto : Crypto}.

Lemma V2BlockData_rt L d : wf_V2BlockData d -> proofs_valid L (v2b_Transactions d) ->
  exists enc : bytes, V2BlockData_EncodeTo d = Ok enc /\
    forall rest N, (zlen enc <= N < two63)%Z ->
      V2BlockData_DecodeFrom (mkD (enc ++ rest) N) = Ok (d, mkD rest (N - zlen enc)).
Proof.
  intros (Hh & Hc & Hwf) Hv. destruct (multiproof_roundtrip L _ Hwf Hv) as (enc & E & Hrt).
  unfold V2BlockData_EncodeTo. rewrite E. cbn [mbind outcome_bind]. eexists. split; [done|].
  intros rest N HN. rewrite !zlen_app in *. rewrite <- !app_assoc. unfold V2BlockData_DecodeFrom.
  do 2 codec_field. unfold mbind, decode_bind. rewrite Hrt by zl. unfold mret, decode_ret.
  destruct d as [h c txns]. cbn in *. do 3 f_equal. zl.
Qed.

Lemma V2Block_rt (L : list Hash256) (b : Block) :
  wf_V2Block b -> block_proofs_valid L b ->
  exists enc : bytes, V2Block_EncodeTo b = Ok enc /\
    forall rest N, (zlen enc <= N < two63)%Z ->
      V2Block_DecodeFrom (mkD (enc ++ rest) N) = Ok (b, mkD rest (N - zlen enc)).
Proof.
  intros [H1 H2] Hv. unfold V2Block_EncodeTo, block_proofs_valid in *.
  change (V1Block_EncodeTo b) with (V1Block_EncodeTo (v1_part b)).
  destruct b as [pid nonce ts mps txns [d|]]; cbn [b_V2] in *.
  - destruct (V2BlockData_rt L d H2 Hv) as (enc & E & Hrt). rewrite E. cbn [mbind outcome_bind].
    eexists. split; [done|]. intros rest N HN. rewrite !zlen_app in *. rewrite <- !app_assoc.
    unfold V2Block_DecodeFrom. codec_field. unfold DecodePtr. unfold mbind at 1, decode_bind at 1.
    rewrite (codec_step wf_any); [|apply _|done|zl]. unfold mbind at 1, decode_bind at 1. rewrite Hrt by zl.
    unfold mret, decode_ret. cbn. do 3 f_equal. zl.
  - cbn [mbind outcome_bind]. eexists. split; [done|]. intros rest N HN. rewrite !zlen_app in *.
    rewrite <- !app_assoc. unfold V2Block_DecodeFrom. codec_field. unfold DecodePtr.
    unfold mbind at 1, decode_bind at 1. rewrite (codec_step wf_any); [|apply _|done|zl].
    unfold mret, decode_ret. cbn. do 3 f_equal. zl.
Qed.

(** C33: v2 blocks round-trip through their multiproof encoding.  For every well-formed block whose
    transactions carry valid proofs for one accumulator state (any forest of fewer than 2^62
    leaves; ephemeral elements carry no proof), the encoder returns: stripping the proofs,
    inferring the number of leaves and merging the proofs into one multiproof cannot fail.
    Decoding the result, whatever follows it in the stream, rebuilds every Merkle proof and
    returns the same block, consuming exactly the encoding. *)
Theorem V2Block_roundtrip (L : list Hash256) (b : Block) :
  wf_V2Block b -> block_proofs_valid L b ->
  exists enc : bytes, V2Block_EncodeTo b = Ok enc /\
    forall rest N, (zlen enc <= N < two63)%Z ->
      V2Block_DecodeFrom (mkD (enc ++ rest) N) = Ok (b, mkD rest (N - zlen enc)).
Proof. apply V2Block_rt. Qed.
End Blocks.

(** A block spending two elements of an accumulator of three leaves, and an ephemeral one. *)
Module SampleBlock.
Definition element (i : Z) (p : list Hash256) : SiacoinElement :=
  {| sce_ID := replicate 32 (u8 (i + 1));
     sce_StateElement := {| se_LeafIndex := i; se_MerkleProof := p; se_shared := false |};
     sce_SiacoinOutput := {| sco_Value := Currency.mk 10 3; sco_Address := replicate 32 4%Z |};
     sce_MaturityHeight := 9 |}.
Definition spend (e : SiacoinElement) : V2SiacoinInput :=
  {| v2sci_Parent := e;
     v2sci_SatisfiedPolicy := {| sat_Policy := ex_policy; sat_Signatures := []; sat_Preimages := [] |} |}.
Definition leaf_hash (e : SiacoinElement) : Hash256 :=
  @ml_leafHash Sample.crypto {| ml_pos := 0; ml_StateElement := sce_StateElement e;
    ml_ElementHash := @mp_siacoinLeaf Sample.crypto e |}.
Definition hashes : list Hash256 :=
  Eval vm_compute in map (fun i => leaf_hash (element i [])) [0; 1; 2]%Z.
Definition txn : V2Transaction :=
  {| v2tx_SiacoinInputs :=
       [spend (element 2 []); spend (element 0 (@sibs Sample.crypto hashes 0 0 1)); spend (element UnassignedLeafIndex [])];
     v2tx_SiacoinOutputs := [{| sco_Value := Currency.mk 7 3; sco_Address := zeros 32 |}];
     v2tx_SiafundInputs := []; v2tx_SiafundOutputs := [];
     v2tx_FileContracts := []; v2tx_FileContractRevisions := [];
     v2tx_FileContractResolutions := []; v2tx_Attestations := [];
     v2tx_ArbitraryData := [1; 2; 3]%Z; v2tx_NewFoundationAddress := None;
     v2tx_MinerFee := Currency.mk 3 0 |}.
Definition block : Block :=
  {| b_ParentID := replicate 32 1%Z; b_Nonce := 77; b_Timestamp := time_Unix 1600000000;
     b_MinerPayouts := []; b_Transactions := [];
     b_V2 := Some {| v2b_Height := 5; v2b_Commitment := replicate 32 2%Z; v2b_Transactions := [txn] |} |}.

Definition leaf0 : mleaf :=
  {| ml_pos := 0; ml_StateElement := sce_StateElement (element 2 []);
     ml_ElementHash := @mp_siacoinLeaf Sample.crypto (element 2 []) |}.
Definition leaf1 : mleaf :=
  {| ml_pos := 1; ml_StateElement := sce_StateElement (element 0 (@sibs Sample.crypto hashes 0 0 1));
     ml_ElementHash := @mp_siacoinLeaf Sample.crypto (element 0 []) |}.

Lemma leaves : @forEachElementLeaf Sample.crypto [txn] = [leaf0; leaf1].
Proof. vm_compute. reflexivity. Qed.

Lemma valid : @block_proofs_valid Sample.crypto hashes block.
Proof.
  split; [done|]. intros l Hl. change (v2b_Transactions _) with [txn] in Hl.
  rewrite leaves, elem_of_cons, list_elem_of_singleton in Hl. destruct Hl as [-> | ->].
  - split; [done|]. split; [vm_compute; reflexivity|]. exists 0. by split.
  - split; [done|]. split; [vm_compute; reflexivity|]. exists 1. by split.
Qed.
End SampleBlock.

Lemma V2Block_roundtrip_witness : exists enc : bytes,
  @V2Block_EncodeTo Sample.crypto SampleBlock.block = Ok enc /\
  @V2Block_DecodeFrom Sample.crypto (mkD (enc ++ [255%Z]) (zlen enc + 1)) = Ok (SampleBlock.block, mkD [255%Z] 1).
Proof.
  destruct (@V2Block_roundtrip Sample.crypto SampleBlock.hashes SampleBlock.block) as (enc & E & H).
  - wf_ground.
  - exact SampleBlock.valid.
  - exists enc. split; [exact E|]. vm_compute in E. injection E as <-.
    refine (eq_trans (H [255]%Z _ _) _); [split; [vm_compute; discriminate|reflexivity]|reflexivity].
Defined.
