(* ===== verification/TypesDecodeSpec.v ===== *)
(** * Decoders are total and their results well-formed

    [Typed wf dec]: on every byte stream [dec] returns a value that satisfies [wf] or an
    error; it never panics.  One instance per Go type, composed like the codecs. *)
From stdpp Require Import prelude strings.
From Stdlib Require Import ZArith Lia.
From S2P Require Import Prelude TypesCurrency TypesData TypesEncoding TypesCodec TypesHash SampleCrypto.
From S2P Require Import ConsensusState ConsensusMerkle TypesMultiproof TypesMultiproofSpec TypesBlockCodecSpec.

Class Typed {A} (wf : A -> Prop) (dec : Decode A) : Prop :=
  typed : forall d, bytes_ok (d_rest d) ->
    match dec d with
    | Ok (x, d') => wf x /\ bytes_ok (d_rest d')
    | Err _ => True
    | Panic _ => False
    end.
#[export] Hint Mode Typed + - ! : typeclass_instances.

Lemma typed_bind {A B} (wa : A -> Prop) (wb : B -> Prop) dec (f : A -> Decode B) :
  Typed wa dec -> (forall x, wa x -> Typed wb (f x)) -> Typed wb (dec ≫= f).
Proof.
  intros Ha Hf d Hd. unfold mbind, decode_bind. pose proof (Ha d Hd) as H.
  destruct (dec d) as [[x d']|e|]; [|done|done]. destruct H as [Hx Hd']. by apply Hf.
Qed.
Lemma typed_ret {A} (wf : A -> Prop) x : wf x -> Typed wf (mret x).
Proof. by intros H d Hd. Qed.
Lemma typed_err {A} (wf : A -> Prop) msg : Typed wf (decode_err msg).
Proof. by intros d Hd. Qed.
Lemma typed_weaken {A} (wf wf' : A -> Prop) dec : Typed wf dec -> (forall x, wf x -> wf' x) -> Typed wf' dec.
Proof. intros H Hw d Hd. specialize (H d Hd). destruct (dec d) as [[x d']|e|]; [|done|done]. destruct H. auto. Qed.
Lemma typed_if {A} (wf : A -> Prop) (b : bool) dec1 dec2 : Typed wf dec1 -> Typed wf dec2 -> Typed wf (if b then dec1 else dec2).
Proof. by destruct b. Qed.

(** Runs through the fields of a record. *)
Ltac typed_field := eapply typed_bind; [apply _|let x := fresh "x" in let H := fresh "H" in intros x H; cbv beta].
Ltac typed_record wf dec := unfold dec; repeat typed_field; apply typed_ret; unfold wf; cbn; split_and?; first [eassumption|exact I].

(** ** Primitives *)

(** A string of bytes of the given length. *)
Definition ty_array (n : nat) (b : bytes) : Prop := wf_array n b /\ bytes_ok b.

Lemma Read_typed n : Typed (ty_array n) (Read n).
Proof.
  intros d Hd. unfold Read. destruct (_ <=? _) eqn:E; [|done]. apply Z.leb_le in E. unfold avail, zlen in E.
  cbn [d_rest]. split; [split|]; [unfold wf_array; rewrite length_take; lia|by apply Forall_take|by apply Forall_drop].
Qed.
#[export] Instance array_typed n : Typed (wf_array n) (Read n).
Proof. eapply typed_weaken; [apply Read_typed|]. by intros b []. Qed.
#[export] Instance hash_typed : Typed (wf_array 32) Hash256_DecodeFrom := array_typed 32.
#[export] Instance sig_typed : Typed (wf_array 64) Signature_DecodeFrom := array_typed 64.
#[export] Instance spec_typed : Typed (wf_array 16) Specifier_DecodeFrom := array_typed 16.

#[export] Instance u64_typed : Typed is_u64 ReadUint64.
Proof.
  eapply typed_bind; [apply Read_typed|]. intros b [Hl Hb]. apply typed_ret.
  pose proof (le_decode_range b Hb) as H. unfold zlen in H. rewrite Hl in H. exact H.
Qed.
#[export] Instance u8_typed : Typed is_u8 ReadUint8.
Proof.
  eapply typed_bind; [apply Read_typed|]. intros b [Hl Hb]. apply typed_ret.
  pose proof (le_decode_range b Hb) as H. unfold zlen in H. rewrite Hl in H. exact H.
Qed.
#[export] Instance bool_typed : Typed wf_any ReadBool.
Proof.
  unfold ReadBool. typed_field. apply typed_if; [by apply typed_ret|]. apply typed_if; [by apply typed_ret|apply typed_err].
Qed.
#[export] Instance time_typed : Typed wf_time ReadTime.
Proof. unfold ReadTime. typed_field. apply typed_ret. exists (i64 x). split; [apply i64_range|done]. Qed.

Lemma check_prefix_typed n : Typed (fun _ => True) (check_prefix n).
Proof. intros d Hd. unfold check_prefix. by destruct (_ <? _). Qed.
#[export] Instance bytes_typed : Typed wf_any ReadBytes.
Proof.
  unfold ReadBytes. typed_field. eapply typed_bind; [apply check_prefix_typed|]. intros _ _.
  eapply typed_weaken; [apply Read_typed|done].
Qed.

Lemma decode_n_typed {A} (wf : A -> Prop) dec n : Typed wf dec -> Typed (fun l => Forall wf l /\ length l = n) (decode_n dec n).
Proof.
  intros H. induction n as [|n IH]; cbn [decode_n]; [by apply typed_ret|].
  eapply typed_bind; [exact H|]. intros x Hx. eapply typed_bind; [exact IH|]. intros l [Hl Hn].
  apply typed_ret. split; [by constructor|cbn; lia].
Qed.
#[export] Instance slice_typed {A} (wf : A -> Prop) dec : Typed wf dec -> Typed (Forall wf) (DecodeSlice dec).
Proof.
  intros H. unfold DecodeSlice. typed_field. eapply typed_bind; [apply check_prefix_typed|]. intros _ _.
  eapply typed_weaken; [by apply decode_n_typed|]. by intros l [].
Qed.
#[export] Instance ptr_typed {A} (wf : A -> Prop) dec : Typed wf dec -> Typed (from_option wf True) (DecodePtr dec).
Proof.
  intros H. unfold DecodePtr. typed_field. apply typed_if; [|by apply typed_ret].
  eapply typed_bind; [exact H|]. intros y Hy. by apply typed_ret.
Qed.

(** ** v1 types *)
#[export] Instance UnlockKey_typed : Typed wf_UnlockKey UnlockKey_DecodeFrom.
Proof. typed_record wf_UnlockKey UnlockKey_DecodeFrom. Qed.
#[export] Instance UnlockConditions_typed : Typed wf_UnlockConditions UnlockConditions_DecodeFrom.
Proof. typed_record wf_UnlockConditions UnlockConditions_DecodeFrom. Qed.

Lemma be_decode_u64 b : bytes_ok b -> length b = 8%nat -> is_u64 (be_decode b).
Proof.
  intros Hb Hl. unfold be_decode. pose proof (le_decode_range (rev b) (Forall_rev Hb)) as H.
  unfold zlen in H. rewrite length_rev, Hl in H. exact H.
Qed.
#[export] Instance V1Currency_typed : Typed Currency.ok V1Currency_DecodeFrom.
Proof.
  unfold V1Currency_DecodeFrom. typed_field. destruct (16 <? x) eqn:E; [apply typed_err|]. apply Z.ltb_ge in E.
  eapply typed_bind; [apply Read_typed|]. intros b [Hl Hb]. apply typed_ret. unfold is_u64 in H.
  assert (length (zeros (16 - Z.to_nat x) ++ b) = 16%nat) as Hlen.
  { unfold zeros, wf_array in *. rewrite length_app, length_replicate. lia. }
  assert (bytes_ok (zeros (16 - Z.to_nat x) ++ b)) as Hok.
  { apply Forall_app. split; [|done]. apply Forall_replicate. unfold byte_ok. lia. }
  split; cbn [Currency.Lo Currency.Hi]; apply be_decode_u64; [by apply Forall_drop|rewrite length_drop; lia
    |by apply Forall_take|rewrite length_take; lia].
Qed.
#[export] Instance V2Currency_typed : Typed Currency.ok V2Currency_DecodeFrom.
Proof. typed_record Currency.ok V2Currency_DecodeFrom. Qed.
#[export] Instance ChainIndex_typed : Typed wf_ChainIndex ChainIndex_DecodeFrom.
Proof. typed_record wf_ChainIndex ChainIndex_DecodeFrom. Qed.
#[export] Instance V1SiacoinOutput_typed : Typed wf_SiacoinOutput V1SiacoinOutput_DecodeFrom.
Proof. typed_record wf_SiacoinOutput V1SiacoinOutput_DecodeFrom. Qed.
#[export] Instance V2SiacoinOutput_typed : Typed wf_SiacoinOutput V2SiacoinOutput_DecodeFrom.
Proof. typed_record wf_SiacoinOutput V2SiacoinOutput_DecodeFrom. Qed.
#[export] Instance V1SiafundOutput_typed : Typed wf_SiafundOutput V1SiafundOutput_DecodeFrom.
Proof.
  unfold V1SiafundOutput_DecodeFrom. typed_field. apply typed_if; [apply typed_err|]. do 2 typed_field.
  apply typed_ret. destruct H as [Hlo _]. by split.
Qed.
#[export] Instance V2SiafundOutput_typed : Typed wf_SiafundOutput V2SiafundOutput_DecodeFrom.
Proof. typed_record wf_SiafundOutput V2SiafundOutput_DecodeFrom. Qed.
#[export] Instance SiacoinInput_typed : Typed wf_SiacoinInput SiacoinInput_DecodeFrom.
Proof. typed_record wf_SiacoinInput SiacoinInput_DecodeFrom. Qed.
#[export] Instance SiafundInput_typed : Typed wf_SiafundInput SiafundInput_DecodeFrom.
Proof. typed_record wf_SiafundInput SiafundInput_DecodeFrom. Qed.
#[export] Instance FileContract_typed : Typed wf_FileContract FileContract_DecodeFrom.
Proof. typed_record wf_FileContract FileContract_DecodeFrom. Qed.
#[export] Instance FileContractRevision_typed : Typed wf_FileContractRevision FileContractRevision_DecodeFrom.
Proof.
  unfold FileContractRevision_DecodeFrom. repeat typed_field. apply typed_ret. unfold wf_FileContractRevision, wf_FileContract.
  cbn. split_and!; first [eassumption|reflexivity|split; done].
Qed.
#[export] Instance StorageProof_typed : Typed wf_StorageProof StorageProof_DecodeFrom.
Proof. typed_record wf_StorageProof StorageProof_DecodeFrom. Qed.
#[export] Instance FoundationAddressUpdate_typed : Typed wf_FoundationAddressUpdate FoundationAddressUpdate_DecodeFrom.
Proof. typed_record wf_FoundationAddressUpdate FoundationAddressUpdate_DecodeFrom. Qed.
#[export] Instance CoveredFields_typed : Typed wf_CoveredFields CoveredFields_DecodeFrom.
Proof. typed_record wf_CoveredFields CoveredFields_DecodeFrom. Qed.
#[export] Instance TransactionSignature_typed : Typed wf_TransactionSignature TransactionSignature_DecodeFrom.
Proof. typed_record wf_TransactionSignature TransactionSignature_DecodeFrom. Qed.
#[export] Instance Transaction_typed : Typed wf_Transaction Transaction_DecodeFrom.
Proof. typed_record wf_Transaction Transaction_DecodeFrom. Qed.

(** ** Spend policies *)
Lemma depth_bound (l : list SpendPolicy) d : Forall (fun q => policy_depth q < d)%nat l ->
  (foldr (fun q m => Nat.max (S (policy_depth q)) m) 0 l <= d)%nat.
Proof. induction 1; cbn; lia. Qed.

Lemma readPolicy_typed fuel : Typed (fun p => wf_policy_node p /\ (policy_depth p < fuel)%nat) (readPolicy fuel).
Proof.
  induction fuel as [|fuel IH]; cbn [readPolicy]; [apply typed_err|]. typed_field.
  repeat (apply typed_if); try apply typed_err;
    try (typed_field; apply typed_ret; cbn; split; [assumption|lia]).
  do 2 typed_field. eapply typed_bind; [by apply decode_n_typed|]. intros l [Hl Hn]. apply typed_ret.
  apply Forall_and in Hl as [Hw Hd]. cbn [wf_policy_node policy_depth]. rewrite wf_children. unfold is_u8 in *.
  split_and!; [lia|lia|unfold zlen; lia|done|]. apply depth_bound in Hd. lia.
Qed.
#[export] Instance SpendPolicy_typed : Typed wf_SpendPolicy SpendPolicy_DecodeFrom.
Proof.
  unfold SpendPolicy_DecodeFrom. typed_field. apply typed_if; [apply typed_err|].
  eapply typed_weaken; [apply readPolicy_typed|]. intros p [H1 H2]. split; [done|lia].
Qed.

(** ** v2 types *)
#[export] Instance SatisfiedPolicy_typed : Typed wf_SatisfiedPolicy SatisfiedPolicy_DecodeFrom.
Proof. typed_record wf_SatisfiedPolicy SatisfiedPolicy_DecodeFrom. Qed.
#[export] Instance StateElement_typed : Typed wf_StateElement StateElement_DecodeFrom.
Proof. unfold StateElement_DecodeFrom. repeat typed_field. by apply typed_ret. Qed.
#[export] Instance SiacoinElement_typed : Typed wf_SiacoinElement SiacoinElement_DecodeFrom.
Proof. typed_record wf_SiacoinElement SiacoinElement_DecodeFrom. Qed.
#[export] Instance V2SiacoinInput_typed : Typed wf_V2SiacoinInput V2SiacoinInput_DecodeFrom.
Proof. typed_record wf_V2SiacoinInput V2SiacoinInput_DecodeFrom. Qed.
#[export] Instance ChainIndexElement_typed : Typed wf_ChainIndexElement ChainIndexElement_DecodeFrom.
Proof. typed_record wf_ChainIndexElement ChainIndexElement_DecodeFrom. Qed.
#[export] Instance SiafundElement_typed : Typed wf_SiafundElement SiafundElement_DecodeFrom.
Proof. typed_record wf_SiafundElement SiafundElement_DecodeFrom. Qed.
#[export] Instance V2SiafundInput_typed : Typed wf_V2SiafundInput V2SiafundInput_DecodeFrom.
Proof. typed_record wf_V2SiafundInput V2SiafundInput_DecodeFrom. Qed.
#[export] Instance V2FileContract_typed : Typed wf_V2FileContract V2FileContract_DecodeFrom.
Proof. typed_record wf_V2FileContract V2FileContract_DecodeFrom. Qed.
#[export] Instance FileContractElement_typed : Typed wf_FileContractElement FileContractElement_DecodeFrom.
Proof. typed_record wf_FileContractElement FileContractElement_DecodeFrom. Qed.
#[export] Instance V2FileContractElement_typed : Typed wf_V2FileContractElement V2FileContractElement_DecodeFrom.
Proof. typed_record wf_V2FileContractElement V2FileContractElement_DecodeFrom. Qed.
#[export] Instance V2FileContractRevision_typed : Typed wf_V2FileContractRevision V2FileContractRevision_DecodeFrom.
Proof. typed_record wf_V2FileContractRevision V2FileContractRevision_DecodeFrom. Qed.
#[export] Instance V2FileContractRenewal_typed : Typed wf_V2FileContractRenewal V2FileContractRenewal_DecodeFrom.
Proof. typed_record wf_V2FileContractRenewal V2FileContractRenewal_DecodeFrom. Qed.
#[export] Instance V2StorageProof_typed : Typed wf_V2StorageProof V2StorageProof_DecodeFrom.
Proof. typed_record wf_V2StorageProof V2StorageProof_DecodeFrom. Qed.
#[export] Instance V2FileContractResolution_typed : Typed wf_V2FileContractResolution V2FileContractResolution_DecodeFrom.
Proof.
  unfold V2FileContractResolution_DecodeFrom. do 2 typed_field.
  repeat (apply typed_if); try apply typed_err; try typed_field; by apply typed_ret.
Qed.
#[export] Instance Attestation_typed : Typed wf_Attestation Attestation_DecodeFrom.
Proof. change ReadString with ReadBytes. typed_record wf_Attestation Attestation_DecodeFrom. Qed.

Lemma dwhen_typed {A} (wf : A -> Prop) fields i dflt dec : Typed wf dec -> wf dflt -> Typed wf (dwhen fields i dflt dec).
Proof. intros H Hd. unfold dwhen. apply typed_if; [done|by apply typed_ret]. Qed.
Lemma opt_addr_typed : Typed (from_option (wf_array 32) True) (addr ← Hash256_DecodeFrom; mret (Some addr)).
Proof. typed_field. by apply typed_ret. Qed.

#[export] Instance V2Transaction_typed : Typed wf_V2Transaction V2Transaction_DecodeFrom.
Proof.
  unfold V2Transaction_DecodeFrom. typed_field. apply typed_if; [apply typed_err|]. typed_field.
  do 9 (eapply typed_bind; [apply dwhen_typed; [apply _|first [constructor|exact I]]|intros]).
  eapply typed_bind; [apply dwhen_typed; [apply opt_addr_typed|exact I]|intros].
  eapply typed_bind; [apply dwhen_typed; [apply _|apply Currency.zero_ok]|intros].
  apply typed_ret. unfold wf_V2Transaction. cbn. split_and!; assumption.
Qed.
#[export] Instance BlockHeader_typed : Typed wf_BlockHeader BlockHeader_DecodeFrom.
Proof. typed_record wf_BlockHeader BlockHeader_DecodeFrom. Qed.
#[export] Instance V1Block_typed : Typed wf_V1Block V1Block_DecodeFrom.
Proof. unfold V1Block_DecodeFrom. repeat typed_field. apply typed_ret. by unfold wf_V1Block; split_and!. Qed.

(** ** Multiproofs

    Expanding consumes exactly as many hashes as [multiproofSize] asked for, whatever leaf
    indices the transactions claim. *)
Section Expand.
Context {crypto : Crypto} {sizes : CryptoSizes}.
Abbreviation hashes_ok := (Forall (wf_array 32)).

Definition good (H : nat) (l : mleaf) : Prop :=
  wf_StateElement (ml_StateElement l) /\ length (ml_MerkleProof l) = H.

Lemma ml_set_sibling_good H i h ls : Forall (good H) ls -> (i < H)%nat -> wf_array 32 h ->
  exists ls', ml_set_sibling i h ls = Ok ls' /\ Forall (good H) ls'.
Proof.
  intros Hg Hi Hh. rewrite Forall_forall in Hg. unfold ml_set_sibling. rewrite (proj2 (forallb_forall _ _)).
  - eexists. split; [done|]. rewrite Forall_forall. intros l' Hl'. apply list_elem_of_fmap in Hl' as (l & -> & Hl).
    destruct (Hg l Hl) as [(H1 & H2 & H3) H4]. split; [split_and!; [done| |done]|].
    + cbn. by apply Forall_insert.
    + unfold ml_MerkleProof. cbn. by rewrite length_insert.
  - intros l Hl%list_elem_of_In. apply Nat.ltb_lt. destruct (Hg l Hl) as [_ ->]. done.
Qed.

Lemma ml_split_Forall (P : mleaf -> Prop) ls mid lft rgt : ml_splitLeaves ls mid = (lft, rgt) -> Forall P ls ->
  Forall P lft /\ Forall P rgt.
Proof. intros [= <- <-] H. split; [by apply Forall_take|by apply Forall_drop]. Qed.

Lemma expand_visit_total H h : forall i j ls proof, (h <= H)%nat -> Forall (good H) ls -> hashes_ok proof ->
  (proofSize h i j ls <= length proof)%nat ->
  exists root ls' proof', expand_visit h i j ls proof = Ok (root, ls', proof') /\ wf_array 32 root /\
    Forall (good H) ls' /\ hashes_ok proof' /\ (length proof' + proofSize h i j ls = length proof)%nat.
Proof.
  induction h as [|h IH]; intros i j ls proof Hh Hg Hp Hl; (destruct ls as [|l ls]; [cbn in *; destruct proof as [|x proof]; [cbn in Hl; lia|];
    apply Forall_cons in Hp as [Hx Hp]; exists x, [], proof; split_and!; [done|done|constructor|done|cbn; lia]|]).
  - exists (ml_leafHash l), (l :: ls), proof. split_and!; [done|apply blake2b_len|done|done|cbn; lia].
  - cbn [expand_visit proofSize] in *. destruct (ml_splitLeaves (l :: ls) _) as [lft rgt] eqn:E.
    destruct (ml_split_Forall _ _ _ _ _ E Hg) as [Hlft Hrgt].
    destruct (IH i (u64 (i + j) / 2) lft proof ltac:(lia) Hlft Hp ltac:(lia)) as (r1 & l1 & p1 & E1 & W1 & G1 & P1 & N1).
    destruct (IH (u64 (i + j) / 2) j rgt p1 ltac:(lia) Hrgt P1 ltac:(lia)) as (r2 & l2 & p2 & E2 & W2 & G2 & P2 & N2).
    destruct (ml_set_sibling_good H h r1 l2 G2 ltac:(lia) W1) as (l2' & E3 & G3).
    destruct (ml_set_sibling_good H h r2 l1 G1 ltac:(lia) W2) as (l1' & E4 & G4).
    rewrite E1. cbn [mbind outcome_bind]. rewrite E2. cbn [mbind outcome_bind]. rewrite E3. cbn [mbind outcome_bind].
    rewrite E4. cbn [mbind outcome_bind]. eexists _, _, _. split; [done|].
    split_and!; [apply blake2b_len|by apply Forall_app|done|lia].
Qed.

Lemma trees_total T : forall i, (forall h t, T !! h = Some t -> Forall (good (i + h)) t) ->
  exists n, (forall acc, for_each T i acc size_step = Ok (acc + n)%nat) /\
    forall proof done, (n <= length proof)%nat -> hashes_ok proof ->
      Forall (fun l => wf_StateElement (ml_StateElement l)) done ->
      exists proof' done', for_each T i (proof, done) expand_step = Ok (proof', done') /\
        Forall (fun l => wf_StateElement (ml_StateElement l)) done'.
Proof.
  induction T as [|t T IH]; intros i Hg.
  { exists 0%nat. split; [intros acc; by rewrite Nat.add_0_r|]. intros proof done _ _ Hd. by exists proof, done. }
  destruct (IH (S i)) as (n & Hn & He).
  { intros h t' Ht'. pose proof (Hg (S h) t' Ht') as H. by rewrite Nat.add_succ_r in H. }
  pose proof (Hg 0%nat t eq_refl) as Ht. rewrite Nat.add_0_r in Ht.
  destruct t as [|l t]; [exists n; cbn [for_each size_step expand_step mbind outcome_bind]; by split|].
  destruct (tree_bounds i (l :: t)) as [a b] eqn:Eb. exists (proofSize i a b (l :: t) + n)%nat. split.
  - intros acc. cbn [for_each].
    assert (size_step i (l :: t) acc = Ok (acc + proofSize i a b (l :: t))%nat) as -> by (unfold size_step; by rewrite Eb).
    cbn [mbind outcome_bind]. rewrite Hn. f_equal. lia.
  - intros proof done Hl Hp Hd. cbn [for_each].
    assert (expand_step i (l :: t) (proof, done) =
      ('(_, ls', proof) ← expand_visit i a b (l :: t) proof; Ok (proof, done ++ ls'))) as ->
      by (unfold expand_step; by rewrite Eb).
    destruct (expand_visit_total i i a b (l :: t) proof ltac:(lia) Ht Hp ltac:(lia)) as (r & ls' & p' & -> & _ & G & P & N).
    cbn [mbind outcome_bind]. apply He; [lia|done|]. apply Forall_app. split; [done|].
    eapply Forall_impl; [exact G|]. by intros x [].
Qed.

Lemma log2_u64 x : is_u64 x -> Z.log2 x < 64.
Proof. unfold is_u64. intros H. destruct (Z.eq_dec x 0) as [->|]; [cbn; lia|]. apply Z.log2_lt_pow2; lia. Qed.

(** The decoder's blank proofs are shorter than 64 hashes. *)
Lemma blank_wf n e : wf_StateElement e -> is_u64 n -> wf_StateElement (blank_proof n e) /\
  (assigned e = true -> (length (se_MerkleProof (blank_proof n e)) < 64)%nat).
Proof.
  intros (H1 & H2 & H3) Hn. unfold blank_proof. destruct (assigned e) eqn:Ea; [|by split].
  split.
  - split_and!; [done| |done]. cbn. by apply Forall_replicate.
  - intros _. cbn. rewrite length_replicate. unfold bits.Len64. destruct (_ =? 0) eqn:Ez; [lia|].
    pose proof (log2_u64 _ H1). pose proof (log2_u64 _ Hn). unfold is_u64 in *.
    pose proof (Z.log2_lxor (se_LeafIndex e) n ltac:(lia) ltac:(lia)). lia.
Qed.

Lemma write_proofs_wf leaves es : Forall (fun l => wf_StateElement (ml_StateElement l)) leaves ->
  Forall wf_StateElement es -> Forall wf_StateElement (write_proofs leaves es).
Proof.
  intros Hl He. rewrite Forall_forall in Hl. unfold write_proofs. apply Forall_lookup. intros i e.
  rewrite list_lookup_imap. destruct (es !! i) as [e0|] eqn:E; [|done]. intros [= <-].
  destruct (List.find _ leaves) as [l|] eqn:Ef; [apply find_some in Ef as [Hin _]; by apply Hl, list_elem_of_In|].
  rewrite Forall_lookup in He. by eapply He.
Qed.

Lemma multiproof_total (txns : list V2Transaction) n : Forall wf_V2Transaction txns -> is_u64 n ->
  let blanked := put_elems txns (map (blank_proof n) (elems txns)) in
  exists k, multiproofSize blanked = Ok k /\ forall proof, hashes_ok proof -> length proof = k ->
    exists txns', expandMultiproof blanked proof = Ok txns' /\ Forall wf_V2Transaction txns'.
Proof.
  intros Hwf Hn blanked. pose proof (wf_elems _ Hwf) as He.
  assert (Forall wf_StateElement (map (blank_proof n) (elems txns))) as Hb.
  { apply Forall_fmap. eapply Forall_impl; [exact He|]. intros e H. by apply blank_wf. }
  assert (forall l, l ∈ forEachElementLeaf blanked -> wf_StateElement (ml_StateElement l) /\
    (length (ml_MerkleProof l) < 64)%nat) as Hl.
  { intros l (E & _ & Ea)%elem_of_leaves. unfold blanked in E. rewrite elems_put in E by apply length_map.
    unfold ml_MerkleProof.
    apply list_lookup_fmap_Some in E as (e & Ee & E). rewrite Ee in *. rewrite Forall_lookup in He. pose proof (He _ _ E) as H.
    destruct (blank_wf n e H Hn) as [H1 H2]. split; [done|]. apply H2. unfold assigned in *. by rewrite blank_index in Ea. }
  assert (forEachTree blanked = Ok (map (mtree (forEachElementLeaf blanked)) (seq 0 64))) as Et.
  { unfold forEachTree. rewrite (proj2 (forallb_forall _ _)); [done|]. intros l Hin%list_elem_of_In. apply Nat.ltb_lt. by apply Hl. }
  destruct (trees_total (map (mtree (forEachElementLeaf blanked)) (seq 0 64)) 0) as (k & Hk & Hx).
  { intros h t E. apply list_lookup_fmap_Some in E as (h' & -> & E). apply lookup_seq in E as [-> _].
    rewrite Forall_forall. intros l [El Hin]%elem_of_mtree. split; [by apply Hl|done]. }
  exists k. split; [unfold multiproofSize; rewrite Et; exact (Hk 0%nat)|]. intros proof Hp Hlen.
  destruct (Hx proof [] ltac:(lia) Hp ltac:(constructor)) as (p' & ls & E & Hls).
  unfold expandMultiproof. rewrite Et. cbn [mbind outcome_bind]. unfold expand_step in E. rewrite E. cbn [mbind outcome_bind].
  eexists. split; [done|]. apply wf_put; [by apply wf_put|]. apply write_proofs_wf; [done|].
  unfold blanked. by rewrite elems_put by apply length_map.
Qed.

#[export] Instance multiproof_typed : Typed (Forall wf_V2Transaction) V2TransactionsMultiproof_DecodeFrom.
Proof.
  unfold V2TransactionsMultiproof_DecodeFrom. do 2 typed_field.
  eapply typed_bind; [apply (typed_if (fun _ => True)); [by apply typed_ret|apply typed_err]|]. intros _ _. cbv zeta.
  destruct (multiproof_total x x0 H H0) as (k & Ek & Hx).
  intros d Hd. unfold mbind at 1, decode_bind at 1, lift_outcome at 1. rewrite Ek. cbn [mbind outcome_bind].
  revert d Hd. change (Typed (Forall wf_V2Transaction) (multiproof ← decode_n Hash256_DecodeFrom k;
    lift_outcome (expandMultiproof (put_elems x (map (blank_proof x0) (elems x))) multiproof))).
  eapply typed_bind; [apply decode_n_typed, hash_typed|]. intros proof [Hp Hlen]. intros d Hd. unfold lift_outcome.
  destruct (Hx proof Hp Hlen) as (txns' & -> & Hw). by split.
Qed.

#[export] Instance V2BlockData_typed : Typed wf_V2BlockData V2BlockData_DecodeFrom.
Proof. unfold V2BlockData_DecodeFrom. repeat typed_field. by apply typed_ret. Qed.

#[export] Instance V2Block_typed : Typed wf_V2Block V2Block_DecodeFrom.
Proof.
  unfold V2Block_DecodeFrom. do 2 typed_field. apply typed_ret. split; [|by destruct x0].
  unfold wf_V1Block in *. by destruct_and? H.
Qed.

(** C32: decoding is total and type-safe.  Whatever bytes arrive, with whatever budget, the
    decoders of blocks and of v1 and v2 transactions return an error or a value in which every
    integer fits its width, every hash, key and signature has its length, every policy respects
    the nesting limit and every time is a whole second; they never panic.  In particular the
    expansion of a block's compressed Merkle proof never runs out of hashes and never indexes
    outside a proof, whatever leaf indices and leaf count the bytes claim. *)
Theorem decode_type_safe (buf : bytes) (N : Z) : bytes_ok buf ->
  match V2Block_DecodeFrom (mkD buf N) with
  | Ok (b, _) => wf_V2Block b | Err _ => True | Panic _ => False end /\
  match V2Transaction_DecodeFrom (mkD buf N) with
  | Ok (txn, _) => wf_V2Transaction txn | Err _ => True | Panic _ => False end /\
  match Transaction_DecodeFrom (mkD buf N) with
  | Ok (txn, _) => wf_Transaction txn | Err _ => True | Panic _ => False end.
Proof.
  intros Hb. pose proof (V2Block_typed (mkD buf N) Hb) as H1. pose proof (V2Transaction_typed (mkD buf N) Hb) as H2.
  pose proof (Transaction_typed (mkD buf N) Hb) as H3. split_and!.
  - destruct (V2Block_DecodeFrom _) as [[b d]| |]; [apply H1|done|done].
  - destruct (V2Transaction_DecodeFrom _) as [[t d]| |]; [apply H2|done|done].
  - destruct (Transaction_DecodeFrom _) as [[t d]| |]; [apply H3|done|done].
Qed.
End Expand.

(** The encoding of a block whose transaction spends outputs with Merkle proofs. *)
Definition sample_stream : bytes :=
  Eval vm_compute in match @V2Block_EncodeTo Sample.crypto SampleBlock.block with Ok enc => enc | _ => [] end.

Lemma sample_stream_ok : bytes_ok sample_stream.
Proof.
  apply Forall_forall. assert (H : forallb (fun b => (0 <=? b) && (b <? 256))%Z sample_stream = true) by (vm_compute; reflexivity).
  rewrite forallb_forall in H. intros x Hx. specialize (H x (proj1 (list_elem_of_In _ _) Hx)). unfold byte_ok. lia.
Qed.

Lemma decode_type_safe_witness : exists b d,
  @V2Block_DecodeFrom Sample.crypto (mkD sample_stream (zlen sample_stream)) = Ok (b, d) /\ wf_V2Block b.
Proof.
  pose proof (@decode_type_safe Sample.crypto Sample.sizes sample_stream (zlen sample_stream) sample_stream_ok) as [H _].
  exists SampleBlock.block, (mkD [] 0).
  assert (E : @V2Block_DecodeFrom Sample.crypto (mkD sample_stream (zlen sample_stream)) = Ok (SampleBlock.block, mkD [] 0))
    by (vm_compute; reflexivity).
  rewrite E in H. split; [exact E|exact H].
Defined.
