(* ===== verification/ConsensusCodec.v ===== *)
(** * The encodings of package [consensus]

    [State], its accumulator and the supplements of v1 blocks, as they are stored by the chain
    database.  A state is written without its network, and without the timestamps and tree
    roots that its height and leaf count make irrelevant. *)
From stdpp Require Import prelude strings gmap.
From Stdlib Require Import ZArith Lia.
From S2P Require Import Prelude TypesCurrency TypesData TypesEncoding TypesCodec TypesHash.
From S2P Require Import ConsensusWork ConsensusState.

(** ** Decoders *)
(** The loop over [acc.Trees] from tree [i] on. *)
Fixpoint decode_trees (numLeaves : Z) (i : Z) (n : nat) : Decode (list Hash256) :=
  match n with
  | O => mret []
  | S n' =>
      root ← (if has_bit numLeaves i then Hash256_DecodeFrom else mret zeroHash);
      roots ← decode_trees numLeaves (i + 1) n';
      mret (root :: roots)
  end.
Definition ElementAccumulator_DecodeFrom : Decode ElementAccumulator :=
  n ← ReadUint64; trees ← decode_trees n 0 64;
  mret {| ea_Trees := trees; ea_NumLeaves := n |}.

(** [min(index.Height + 1, 11)] *)
Definition timestampCount (index : ChainIndex) : nat :=
  if u64 (ci_Height index + 1) <? 11 then Z.to_nat (u64 (ci_Height index + 1)) else 11%nat.

(** Into a zeroed state of the network [n]. *)
Definition State_DecodeFrom (n : Network) : Decode State :=
  index ← ChainIndex_DecodeFrom;
  ts ← decode_n ReadTime (timestampCount index);
  depth ← Hash256_DecodeFrom; target ← Hash256_DecodeFrom; tax ← V2Currency_DecodeFrom;
  oakTime ← ReadUint64; oakTarget ← Hash256_DecodeFrom;
  subsidy ← Hash256_DecodeFrom; management ← Hash256_DecodeFrom;
  totalWork ← Read 32; difficulty ← Read 32; oakWork ← Read 32;
  elements ← ElementAccumulator_DecodeFrom; attestations ← ReadUint64; qdayHeight ← ReadUint64;
  mret {| s_QdayHeight := qdayHeight; s_Network := n; s_Index := index;
          s_PrevTimestamps := ts ++ replicate (11 - length ts) 0; s_Depth := depth;
          s_ChildTarget := target; s_SiafundTaxRevenue := tax; s_OakTime := i64 oakTime;
          s_OakTarget := oakTarget; s_FoundationSubsidyAddress := subsidy;
          s_FoundationManagementAddress := management; s_TotalWork := totalWork;
          s_Difficulty := difficulty; s_OakWork := oakWork; s_Elements := elements;
          s_Attestations := attestations |}.

Definition V1StorageProofSupplement_EncodeTo (sps : V1StorageProofSupplement) : bytes :=
  FileContractElement_EncodeTo (sps_FileContract sps) ++ Array_EncodeTo (sps_WindowID sps).
Definition V1StorageProofSupplement_DecodeFrom : Decode V1StorageProofSupplement :=
  fc ← FileContractElement_DecodeFrom; w ← Hash256_DecodeFrom;
  mret {| sps_FileContract := fc; sps_WindowID := w |}.

Definition V1TransactionSupplement_EncodeTo (ts : V1TransactionSupplement) : bytes :=
  EncodeSlice SiacoinElement_EncodeTo (ts_SiacoinInputs ts) ++
  EncodeSlice SiafundElement_EncodeTo (ts_SiafundInputs ts) ++
  EncodeSlice FileContractElement_EncodeTo (ts_RevisedFileContracts ts) ++
  EncodeSlice V1StorageProofSupplement_EncodeTo (ts_StorageProofs ts).
Definition V1TransactionSupplement_DecodeFrom : Decode V1TransactionSupplement :=
  a ← DecodeSlice SiacoinElement_DecodeFrom; b ← DecodeSlice SiafundElement_DecodeFrom;
  c ← DecodeSlice FileContractElement_DecodeFrom; e ← DecodeSlice V1StorageProofSupplement_DecodeFrom;
  mret {| ts_SiacoinInputs := a; ts_SiafundInputs := b; ts_RevisedFileContracts := c; ts_StorageProofs := e |}.

Definition V1BlockSupplement_EncodeTo (bs : V1BlockSupplement) : bytes :=
  EncodeSlice V1TransactionSupplement_EncodeTo (bs_Transactions bs) ++
  EncodeSlice FileContractElement_EncodeTo (bs_ExpiringFileContracts bs).
Definition V1BlockSupplement_DecodeFrom : Decode V1BlockSupplement :=
  a ← DecodeSlice V1TransactionSupplement_DecodeFrom; b ← DecodeSlice FileContractElement_DecodeFrom;
  mret {| bs_Transactions := a; bs_ExpiringFileContracts := b |}.

(** ** Round trips of the supplements *)
Definition wf_V1StorageProofSupplement (x : V1StorageProofSupplement) : Prop :=
  wf_FileContractElement (sps_FileContract x) /\ wf_array 32 (sps_WindowID x).
#[export] Instance V1StorageProofSupplement_codec :
  Codec wf_V1StorageProofSupplement V1StorageProofSupplement_EncodeTo V1StorageProofSupplement_DecodeFrom.
Proof. codec_record wf_V1StorageProofSupplement V1StorageProofSupplement_EncodeTo V1StorageProofSupplement_DecodeFrom. Qed.
#[export] Instance V1StorageProofSupplement_nonempty :
  NonEmpty wf_V1StorageProofSupplement V1StorageProofSupplement_EncodeTo.
Proof. nonempty_record wf_V1StorageProofSupplement V1StorageProofSupplement_EncodeTo. Qed.

Definition wf_V1TransactionSupplement (x : V1TransactionSupplement) : Prop :=
  Forall wf_SiacoinElement (ts_SiacoinInputs x) /\ Forall wf_SiafundElement (ts_SiafundInputs x) /\
  Forall wf_FileContractElement (ts_RevisedFileContracts x) /\
  Forall wf_V1StorageProofSupplement (ts_StorageProofs x).
#[export] Instance V1TransactionSupplement_codec :
  Codec wf_V1TransactionSupplement V1TransactionSupplement_EncodeTo V1TransactionSupplement_DecodeFrom.
Proof. codec_record wf_V1TransactionSupplement V1TransactionSupplement_EncodeTo V1TransactionSupplement_DecodeFrom. Qed.
#[export] Instance V1TransactionSupplement_nonempty :
  NonEmpty wf_V1TransactionSupplement V1TransactionSupplement_EncodeTo.
Proof. nonempty_record wf_V1TransactionSupplement V1TransactionSupplement_EncodeTo. Qed.

Definition wf_V1BlockSupplement (x : V1BlockSupplement) : Prop :=
  Forall wf_V1TransactionSupplement (bs_Transactions x) /\
  Forall wf_FileContractElement (bs_ExpiringFileContracts x).
#[export] Instance V1BlockSupplement_codec :
  Codec wf_V1BlockSupplement V1BlockSupplement_EncodeTo V1BlockSupplement_DecodeFrom.
Proof. codec_record wf_V1BlockSupplement V1BlockSupplement_EncodeTo V1BlockSupplement_DecodeFrom. Qed.

(** ** Round trip of the state *)
Definition wf_Accumulator (acc : ElementAccumulator) : Prop :=
  is_u64 (ea_NumLeaves acc) /\ length (ea_Trees acc) = 64%nat /\ Forall (wf_array 32) (ea_Trees acc).

(** What a decoder sees of an accumulator: the roots of trees it has. *)
Definition norm_trees (numLeaves : Z) (trees : list Hash256) : list Hash256 :=
  imap (fun i root => if has_bit numLeaves (Z.of_nat i) then root else zeroHash) trees.
Definition norm_Accumulator (acc : ElementAccumulator) : ElementAccumulator :=
  {| ea_Trees := norm_trees (ea_NumLeaves acc) (ea_Trees acc); ea_NumLeaves := ea_NumLeaves acc |}.

(** The bytes of the trees from number [k] on, and their normal form. *)
Definition enc_trees (n : Z) (k : nat) (trees : list Hash256) : bytes :=
  concat (imap (fun i root => if has_bit n (Z.of_nat (k + i)) then Array_EncodeTo root else []) trees).
Definition trees_from (n : Z) (k : nat) (trees : list Hash256) : list Hash256 :=
  imap (fun i root => if has_bit n (Z.of_nat (k + i)) then root else zeroHash) trees.

Lemma enc_trees_cons n k root trees : enc_trees n k (root :: trees) =
  (if has_bit n (Z.of_nat k) then Array_EncodeTo root else []) ++ enc_trees n (S k) trees.
Proof.
  unfold enc_trees. rewrite imap_cons, Nat.add_0_r. cbn [concat]. do 2 f_equal. apply imap_ext. intros i x _. cbn.
  by rewrite Nat.add_succ_r.
Qed.
Lemma trees_from_cons n k root trees : trees_from n k (root :: trees) =
  (if has_bit n (Z.of_nat k) then root else zeroHash) :: trees_from n (S k) trees.
Proof.
  unfold trees_from. rewrite imap_cons, Nat.add_0_r. f_equal. apply imap_ext. intros i x _. cbn.
  by rewrite Nat.add_succ_r.
Qed.

Lemma enc_trees_norm n k trees : enc_trees n k (trees_from n k trees) = enc_trees n k trees.
Proof.
  revert k. induction trees as [|root trees IH]; intros k; [done|]. rewrite trees_from_cons, !enc_trees_cons, IH.
  by destruct (has_bit _ _).
Qed.
Lemma trees_from_idem n k trees : trees_from n k (trees_from n k trees) = trees_from n k trees.
Proof.
  revert k. induction trees as [|root trees IH]; intros k; [done|]. rewrite !trees_from_cons, IH.
  by destruct (has_bit _ _).
Qed.

Lemma decode_trees_rt n trees k rest N : Forall (wf_array 32) trees -> zlen (enc_trees n k trees) <= N < two63 ->
  decode_trees n (Z.of_nat k) (length trees) (mkD (enc_trees n k trees ++ rest) N) =
  Ok (trees_from n k trees, mkD rest (N - zlen (enc_trees n k trees))).
Proof.
  intros Hwf. revert k N. induction Hwf as [|root trees Hr Hwf IH]; intros k N HN.
  { change (enc_trees n k []) with (@nil Z). change (zlen []) with 0. by rewrite Z.sub_0_r. }
  rewrite enc_trees_cons, trees_from_cons in *. cbn [length decode_trees]. rewrite <- app_assoc, zlen_app in *.
  replace (Z.of_nat k + 1) with (Z.of_nat (S k)) by lia. destruct (has_bit n (Z.of_nat k)).
  - rewrite (codec_step (wf_array 32)); [|apply _|done|zl]. unfold mbind at 1, decode_bind at 1. rewrite IH by zl.
    unfold mret, decode_ret. do 3 f_equal. zl.
  - cbn [app] in *. change (zlen []) with 0 in *. unfold mbind at 1, decode_bind at 1, mret at 1, decode_ret at 1.
    unfold mbind at 1, decode_bind at 1. rewrite IH by zl. unfold mret, decode_ret. by rewrite Z.add_0_l.
Qed.

(** The accumulator comes back in normal form. *)
Definition normal_Accumulator (acc : ElementAccumulator) : Prop := wf_Accumulator acc /\ norm_Accumulator acc = acc.

#[export] Instance ElementAccumulator_codec :
  Codec normal_Accumulator ElementAccumulator_EncodeTo ElementAccumulator_DecodeFrom.
Proof.
  intros [trees n] rest N [(Hn & Hlen & Hwf) Hnorm] HN. unfold ElementAccumulator_EncodeTo, ElementAccumulator_DecodeFrom in *.
  cbn [ea_Trees ea_NumLeaves] in *. change (concat _) with (enc_trees n 0 trees) in *. rewrite <- app_assoc, zlen_app in *.
  rewrite (codec_step is_u64); [|apply _|done|zl]. rewrite <- Hlen. change 0 with (Z.of_nat 0).
  unfold mbind at 1, decode_bind at 1. rewrite zlen_WriteUint64 in *. rewrite decode_trees_rt by (done || lia).
  injection Hnorm as Ht. change (norm_trees n trees) with (trees_from n 0 trees) in Ht. rewrite Ht.
  unfold mret, decode_ret. do 3 f_equal; lia.
Qed.

Lemma norm_Accumulator_encode acc : ElementAccumulator_EncodeTo (norm_Accumulator acc) = ElementAccumulator_EncodeTo acc.
Proof.
  unfold ElementAccumulator_EncodeTo. f_equal. apply (enc_trees_norm (ea_NumLeaves acc) 0).
Qed.
Lemma norm_Accumulator_normal acc : wf_Accumulator acc -> normal_Accumulator (norm_Accumulator acc).
Proof.
  intros (Hn & Hlen & Hwf). split; [split; [done|split]|].
  - cbn. unfold norm_trees. by rewrite length_imap.
  - cbn. unfold norm_trees. apply Forall_lookup. intros i x (y & Hy & ->)%list_lookup_imap_Some.
    destruct (has_bit _ _); [by eapply Forall_lookup in Hy|done].
  - unfold norm_Accumulator. f_equal. apply (trees_from_idem (ea_NumLeaves acc) 0).
Qed.

(** The fields of a state have their width; only the timestamps that count are whole seconds. *)
Definition wf_State (s : State) : Prop :=
  wf_ChainIndex (s_Index s) /\ length (s_PrevTimestamps s) = 11%nat /\
  Forall wf_time (take (numTimestamps s) (s_PrevTimestamps s)) /\
  wf_array 32 (s_Depth s) /\ wf_array 32 (s_ChildTarget s) /\ Currency.ok (s_SiafundTaxRevenue s) /\
  is_i64 (s_OakTime s) /\ wf_array 32 (s_OakTarget s) /\ wf_array 32 (s_FoundationSubsidyAddress s) /\
  wf_array 32 (s_FoundationManagementAddress s) /\ wf_array 32 (s_TotalWork s) /\
  wf_array 32 (s_Difficulty s) /\ wf_array 32 (s_OakWork s) /\ wf_Accumulator (s_Elements s) /\
  is_u64 (s_Attestations s) /\ is_u64 (s_QdayHeight s).

(** What a decoder sees of a state. *)
Definition norm_State (n : Network) (s : State) : State :=
  {| s_QdayHeight := s_QdayHeight s; s_Network := n; s_Index := s_Index s;
     s_PrevTimestamps := take (numTimestamps s) (s_PrevTimestamps s) ++ replicate (11 - numTimestamps s) 0;
     s_Depth := s_Depth s; s_ChildTarget := s_ChildTarget s; s_SiafundTaxRevenue := s_SiafundTaxRevenue s;
     s_OakTime := s_OakTime s; s_OakTarget := s_OakTarget s;
     s_FoundationSubsidyAddress := s_FoundationSubsidyAddress s;
     s_FoundationManagementAddress := s_FoundationManagementAddress s; s_TotalWork := s_TotalWork s;
     s_Difficulty := s_Difficulty s; s_OakWork := s_OakWork s; s_Elements := norm_Accumulator (s_Elements s);
     s_Attestations := s_Attestations s |}.

Lemma numTimestamps_le s : (numTimestamps s <= 11)%nat.
Proof.
  unfold numTimestamps. destruct (_ <? _) eqn:E; [|done]. apply Z.ltb_lt in E.
  pose proof (u64_range (ci_Height (s_Index s) + 1)) as H. unfold is_u64 in H. unfold childHeight in *. lia.
Qed.

(** Decoding what a state encodes to gives its normal form. *)
Lemma State_roundtrip n s rest N : wf_State s -> zlen (State_EncodeTo s) <= N < two63 ->
  State_DecodeFrom n (mkD (State_EncodeTo s ++ rest) N) = Ok (norm_State n s, mkD rest (N - zlen (State_EncodeTo s))).
Proof.
  intros Hwf HN. unfold wf_State in Hwf. destruct_and? Hwf. unfold State_EncodeTo, State_DecodeFrom in *.
  rewrite <- (norm_Accumulator_encode (s_Elements s)) in *. rewrite !zlen_app in *. repeat rewrite <- app_assoc. codec_field.
  change (timestampCount (s_Index s)) with (numTimestamps s).
  assert (Hlen : length (take (numTimestamps s) (s_PrevTimestamps s)) = numTimestamps s).
  { rewrite length_take. pose proof (numTimestamps_le s). lia. }
  unfold norm_State. set (ts := take (numTimestamps s) (s_PrevTimestamps s)) in *.
  rewrite <- Hlen. unfold mbind at 1, decode_bind at 1. rewrite (decode_n_rt wf_time); [|apply _|done|zl].
  assert (is_u64 (u64 (s_OakTime s))) by apply u64_range. pose proof (norm_Accumulator_normal (s_Elements s) ltac:(done)).
  repeat codec_field. unfold mret, decode_ret.
  match goal with |- Ok (_, mkD _ ?n) = Ok (_, mkD _ ?m) => replace m with n by zl end.
  by rewrite i64_u64.
Qed.
