(* ===== verification/ConsensusTypeSpec.v ===== *)
(** * Applying blocks keeps states well-typed

    Every field of the state that [ApplyHeader] and [ApplyBlock] return has its width, so that
    it can be stored and read back ([State_roundtrip]). *)
From stdpp Require Import prelude strings gmap.
From Stdlib Require Import ZArith Lia.
From S2P Require Import Prelude TypesCurrency TypesData TypesEncoding TypesCodec TypesHash TypesPolicy.
From S2P Require Import ConsensusWork ConsensusState ConsensusMerkle ConsensusQday ConsensusDifficulty.
From S2P Require Import ConsensusMidState ConsensusApply ConsensusCodec.

(** The network parameters that are copied into states. *)
Definition wf_Network (n : Network) : Prop :=
  is_i64 (n_ASIC_OakTime n) /\ wf_array 32 (n_ASIC_OakTarget n).

(** ** Work and targets are 32 bytes *)
Lemma of_limbs_32 a b c d : wf_array 32 (Work.of_limbs a b c d).
Proof. unfold wf_array, Work.of_limbs. by rewrite !length_app, !length_be_encode. Qed.

Lemma work_add_32 w v r : Work.add w v = Ok r -> wf_array 32 r.
Proof. unfold Work.add. repeat case_match; try done. intros [= <-]. apply of_limbs_32. Qed.
Lemma work_sub_32 w v r : Work.sub w v = Ok r -> wf_array 32 r.
Proof. unfold Work.sub. repeat case_match; try done. intros [= <-]. apply of_limbs_32. Qed.
Lemma work_mul_32 w v r : Work.mul64 w v = Ok r -> wf_array 32 r.
Proof. unfold Work.mul64. repeat case_match; try done. intros [= <-]. apply of_limbs_32. Qed.
Lemma work_div_32 w v r : Work.div64 w v = Ok r -> wf_array 32 r.
Proof.
  unfold Work.div64. destruct (v =? 0); [done|]. intros H. do 4 ok_step H. injection H as <-. apply of_limbs_32.
Qed.
Lemma FillBytes_32 i r : FillBytes i = Ok r -> wf_array 32 r.
Proof. unfold FillBytes. case_match; [done|]. intros [= <-]. unfold wf_array. by rewrite length_be_encode. Qed.
Lemma intToTarget_32 i r : intToTarget i = Ok r -> wf_array 32 r.
Proof. apply FillBytes_32. Qed.
Lemma invTarget_32 n r : invTarget n = Ok r -> wf_array 32 r.
Proof. unfold invTarget. intros H. ok_step H. by eapply FillBytes_32. Qed.
Lemma addTarget_32 x y r : addTarget x y = Ok r -> wf_array 32 r.
Proof. unfold addTarget. intros H. ok_step H. by eapply intToTarget_32. Qed.
Lemma mulTargetFrac_32 x n d r : mulTargetFrac x n d = Ok r -> wf_array 32 r.
Proof. unfold mulTargetFrac. intros H. ok_step H. by eapply intToTarget_32. Qed.

Create HintDb sizes.
#[export] Hint Resolve work_add_32 work_sub_32 work_mul_32 work_div_32 FillBytes_32 intToTarget_32
  invTarget_32 addTarget_32 mulTargetFrac_32 : sizes.

Lemma pick_32 (c : bool) (a b : bytes) : wf_array 32 a -> wf_array 32 b -> wf_array 32 (if c then a else b).
Proof. by destruct c. Qed.
Lemma work_min_32 a b : wf_array 32 a -> wf_array 32 b -> wf_array 32 (Work.min a b).
Proof. apply pick_32. Qed.
Lemma work_max_32 a b : wf_array 32 a -> wf_array 32 b -> wf_array 32 (Work.max a b).
Proof. apply pick_32. Qed.
Lemma one_32 : wf_array 32 Work.oneWork.
Proof. reflexivity. Qed.
#[export] Hint Resolve pick_32 work_min_32 work_max_32 one_32 : sizes.

(** ** Headers *)
Section Header.
Context (s : State) (Hn : wf_Network (s_Network s)) (Hs : wf_State s).

Lemma updateTotalWork_32 w d : updateTotalWork s = Ok (w, d) -> wf_array 32 w /\ wf_array 32 d.
Proof.
  unfold updateTotalWork. destruct (_ <? _); intros H; repeat ok_step H; injection H as <- <-; eauto with sizes.
Qed.
Lemma updateOakTarget_32 r : updateOakTarget s = Ok r -> wf_array 32 r.
Proof.
  unfold updateOakTarget. destruct (_ =? _); intros H; [injection H as <-; apply Hn|]. ok_step H. eauto with sizes.
Qed.
Lemma updateOakWork_32 w t : updateOakWork s = Ok (w, t) -> wf_array 32 w /\ wf_array 32 t.
Proof.
  unfold updateOakWork. destruct (_ <? _); intros H; repeat ok_step H; injection H as <- <-;
    eauto using updateOakTarget_32 with sizes.
Qed.

Lemma target_32 : wf_array 32 (s_ChildTarget s).
Proof. apply Hs. Qed.
Lemma adjustTarget_32 t1 t2 r : adjustTarget s t1 t2 = Ok r -> wf_array 32 r.
Proof.
  pose proof target_32 as Ht. unfold adjustTarget. destruct (_ <=? _).
  - destruct (negb _); [by intros [= <-]|]. destruct (if ratio_gt _ _ _ _ then _ else _). eauto with sizes.
  - intros H. do 4 ok_step H. destruct (childHeight s =? _); [injection H as <-; eauto with sizes|].
    do 2 ok_step H. injection H as <-. repeat (apply pick_32); eauto with sizes.
Qed.
Lemma adjustDifficultyV2_32 t r : adjustDifficultyV2 s t = Ok r -> wf_array 32 r.
Proof.
  unfold adjustDifficultyV2. intros H. do 4 ok_step H. destruct (Work.Cmp _ _ <? 0); [injection H as <-; eauto with sizes|].
  ok_step H. injection H as <-. apply pick_32; eauto with sizes.
Qed.
Lemma adjustDifficultyFinalCut_32 t r : adjustDifficultyFinalCut s t = Ok r -> wf_array 32 r.
Proof.
  unfold adjustDifficultyFinalCut. intros H. repeat ok_step H. injection H as <-.
  apply work_max_32; [apply work_max_32|]; [apply work_min_32| |]; eauto with sizes.
Qed.
Lemma adjustDifficulty_32 t1 t2 w d : adjustDifficulty s t1 t2 = Ok (w, d) -> wf_array 32 w /\ wf_array 32 d.
Proof.
  unfold adjustDifficulty. destruct (_ <? _); intros H.
  - do 2 ok_step H. injection H as <- <-. eauto using adjustTarget_32 with sizes.
  - ok_step H. ok_step H. injection H as <- <-. split; [|eauto with sizes].
    destruct (_ <? _); eauto using adjustDifficultyV2_32, adjustDifficultyFinalCut_32.
Qed.
Lemma updateOakTime_i64 t1 t2 : is_i64 (updateOakTime s t1 t2).
Proof. unfold updateOakTime. destruct (_ =? _); [apply Hn|apply i64_range]. Qed.

(** The timestamps that count after one more block. *)
Lemma push_timestamp_wf t index : wf_time t -> index = 0 \/ index = u64 (ci_Height (s_Index s) + 1) ->
  let k := (if u64 (index + 1) <? 11 then Z.to_nat (u64 (index + 1)) else 11%nat) in
  length (push_timestamp t (s_PrevTimestamps s)) = 11%nat /\
  Forall wf_time (take k (push_timestamp t (s_PrevTimestamps s))).
Proof.
  intros Ht Hi k. unfold wf_State in Hs. destruct Hs as (_ & Hlen & Hts & _). unfold push_timestamp. rewrite Hlen.
  split; [rewrite length_take; cbn [length]; lia|]. rewrite take_take. cbn [length].
  assert (k <= S (numTimestamps s))%nat as Hk.
  { subst k. unfold numTimestamps, childHeight. destruct Hi as [->|Hi]; [change (u64 (0 + 1)) with 1; cbn; lia|].
    subst index. assert (u64 (u64 (ci_Height (s_Index s) + 1) + 1) <= u64 (ci_Height (s_Index s) + 1) + 1).
    { pose proof (u64_range (ci_Height (s_Index s) + 1)) as Hr. unfold is_u64, u64 in *. apply Z.mod_le; lia. }
    pose proof (u64_range (ci_Height (s_Index s) + 1)). unfold is_u64 in *.
    repeat case_match; bool_lia. }
  destruct (k `min` 11)%nat as [|j] eqn:Ej; [constructor|]. cbn [take]. constructor; [done|].
  replace j with (j `min` numTimestamps s)%nat by lia. rewrite <- take_take. by apply Forall_take.
Qed.
End Header.

Section Apply.
Context {crypto : Crypto} {sizes : CryptoSizes}.

Lemma BlockHeader_ID_32 bh : wf_array 32 (BlockHeader_ID bh).
Proof. apply blake2b_len. Qed.

Lemma ApplyHeader_typed s bh ts s' : wf_Network (s_Network s) -> wf_State s -> wf_time (bh_Timestamp bh) ->
  ApplyHeader s bh ts = Ok s' -> wf_State s' /\ s_Network s' = s_Network s.
Proof.
  intros Hn Hs Ht. unfold ApplyHeader. destruct (_ && _); [done|]. intros H.
  destruct (if bool_decide _ then _ else _) as [next| |] eqn:E; cbn [mbind outcome_bind] in H; [|done|done].
  assert (wf_State next /\ s_Network next = s_Network s) as [Hw En].
  { destruct (bool_decide _).
    - destruct (updateOakWork s) as [[w t]| |] eqn:Ew; cbn [mbind outcome_bind] in E; [|done|done].
      injection E as <-. split; [|done]. destruct (updateOakWork_32 s Hn w t Ew) as [H1 H2].
      destruct (push_timestamp_wf s Hs (bh_Timestamp bh) 0 Ht ltac:(by left)) as [H3 H4].
      pose proof (updateOakTime_i64 s Hn (bh_Timestamp bh) (bh_Timestamp bh)).
      unfold wf_State in *. destruct_and? Hs. cbn [set_pow s_QdayHeight s_Network s_Index s_PrevTimestamps s_Depth s_ChildTarget s_SiafundTaxRevenue
        s_OakTime s_OakTarget s_FoundationSubsidyAddress s_FoundationManagementAddress s_TotalWork s_Difficulty
        s_OakWork s_Elements s_Attestations].
      split; [by split; [|apply BlockHeader_ID_32]|]. split; [exact H3|]. split; [exact H4|]. by split_and!.
    - destruct (updateTotalWork s) as [[tw dp]| |] eqn:Etw; cbn [mbind outcome_bind] in E; [|done|done].
      destruct (adjustDifficulty s _ ts) as [[df ct]| |] eqn:Ed; cbn [mbind outcome_bind] in E; [|done|done].
      destruct (updateOakWork s) as [[w t]| |] eqn:Ew; cbn [mbind outcome_bind] in E; [|done|done].
      injection E as <-. split; [|done]. destruct (updateOakWork_32 s Hn w t Ew) as [H1 H2].
      destruct (updateTotalWork_32 s tw dp Etw) as [H5 H6]. destruct (adjustDifficulty_32 s Hs _ _ df ct Ed) as [H7 H8].
      destruct (push_timestamp_wf s Hs (bh_Timestamp bh) (u64 (ci_Height (s_Index s) + 1)) Ht ltac:(by right)) as [H3 H4].
      pose proof (updateOakTime_i64 s Hn (bh_Timestamp bh) (nth 0 (s_PrevTimestamps s) 0)).
      unfold wf_State in *. destruct_and? Hs. cbn [set_pow s_QdayHeight s_Network s_Index s_PrevTimestamps s_Depth s_ChildTarget s_SiafundTaxRevenue
        s_OakTime s_OakTarget s_FoundationSubsidyAddress s_FoundationManagementAddress s_TotalWork s_Difficulty
        s_OakWork s_Elements s_Attestations].
      split; [split; [apply u64_range|apply BlockHeader_ID_32]|]. split; [exact H3|]. split; [exact H4|]. by split_and!. }
  injection H as <-. destruct (_ <=? _); [|done]. split; [|done].
  unfold wf_State in *. destruct_and? Hw. cbn. by split_and!.
Qed.

(** ** The accumulator *)
Lemma SumPair_32 a b : wf_array 32 (SumPair a b).
Proof. apply blake2b_len. Qed.
Lemma el_hash_32 l : wf_array 32 (el_hash l).
Proof. apply blake2b_len. Qed.
Lemma proofRoot_32 h i proof : wf_array 32 h -> wf_array 32 (proofRoot h i proof).
Proof.
  unfold proofRoot. generalize 0. revert h. induction proof as [|x proof IH]; intros h k Hh; [done|]. cbn [proofRoot_from].
  apply IH. destruct (has_bit i k); apply SumPair_32.
Qed.

Lemma set_roots_wf trees updated : Forall (wf_array 32) trees -> Forall (wf_array 32) (set_roots trees updated).
Proof.
  intros H. unfold set_roots. apply Forall_lookup. intros i x (y & Hy & ->)%list_lookup_imap_Some.
  destruct (nth i updated []); [by eapply Forall_lookup in Hy|apply proofRoot_32, el_hash_32].
Qed.

Lemma add_walk_wf fuel height i n h acc leaves growth : wf_array 32 h -> wf_Accumulator acc ->
  wf_Accumulator (add_walk fuel height i n h acc leaves growth).1.1.
Proof.
  revert height h leaves growth. induction fuel as [|fuel IH]; intros height h leaves growth Hh Ha; [done|]. cbn [add_walk].
  destruct (negb _); [|apply IH; [apply SumPair_32|done]]. destruct Ha as (Hn & Hl & Ht). cbn.
  split; [apply u64_range|]. cbn. split; [by rewrite length_insert|by apply Forall_insert].
Qed.
Lemma add_from_wf n i init acc leaves growth : wf_Accumulator acc -> wf_Accumulator (add_from n i init acc leaves growth).1.1.
Proof.
  revert i acc leaves growth. induction n as [|n IH]; intros i acc leaves growth Ha; [done|]. cbn [add_from].
  destruct (leaves !! i) as [el|]; [|done].
  pose proof (add_walk_wf 64 0 (Z.of_nat i) init (el_hash (el_setIndex (ea_NumLeaves acc) el)) acc
    (<[i := el_setIndex (ea_NumLeaves acc) el]> leaves) growth (el_hash_32 _) Ha) as H.
  destruct (add_walk _ _ _ _ _ _ _ _) as [[acc' leaves'] growth']. by apply IH.
Qed.

Lemma applyBlock_wf acc updated added acc' eau added' : wf_Accumulator acc ->
  applyBlock acc updated added = Ok (acc', eau, added') -> wf_Accumulator acc'.
Proof.
  intros (Hn & Hl & Ht) H. unfold applyBlock in H. do 3 ok_step H.
  set (acc1 := {| ea_Trees := set_roots (ea_Trees acc) v1; ea_NumLeaves := ea_NumLeaves acc |}) in *.
  assert (wf_Accumulator acc1) as Ha.
  { split; [done|]. cbn. split; [unfold set_roots; by rewrite length_imap|by apply set_roots_wf]. }
  pose proof (add_from_wf (length added) 0 (ea_NumLeaves acc1) acc1 added (replicate 64 []) Ha) as H'.
  unfold addLeaves in H. destruct (add_from _ _ _ _ _ _) as [[a l] g]. by injection H as <- _ _.
Qed.

(** ** The intra-block state *)

(** The part of it that ends up in the next state. *)
Definition typed_ms (ms : MidState) : Prop :=
  Currency.ok (ms_siafundTaxRevenue ms) /\ wf_array 32 (ms_foundationSubsidy ms) /\
  wf_array 32 (ms_foundationManagement ms).

(** An operation that keeps a property of it. *)
Definition preserves (I : MidState -> Prop) (f : MidState -> outcome MidState) : Prop :=
  forall ms ms', I ms -> f ms = Ok ms' -> I ms'.
Abbreviation keeps := (preserves typed_ms).

Lemma keeps_ret I : preserves I Ok.
Proof. by intros ms ms' H [= <-]. Qed.
Lemma keeps_bind {I} (f g : MidState -> outcome MidState) : preserves I f -> preserves I g -> preserves I (fun ms => ms ← f ms; g ms).
Proof. intros Hf Hg ms ms' Hm H. ok_step H. eauto. Qed.
Lemma keeps_skip {I A} (r : MidState -> outcome A) (g : MidState -> A -> outcome MidState) :
  (forall x, preserves I (fun ms => g ms x)) -> preserves I (fun ms => x ← r ms; g ms x).
Proof. intros Hg ms ms' Hm H. ok_step H. by eapply Hg. Qed.
Lemma keeps_for_each {I A} (l : list A) i body : (forall j x, x ∈ l -> preserves I (body j x)) ->
  preserves I (fun ms => for_each l i ms body).
Proof.
  revert i. induction l as [|x l IH]; intros i Hb ms ms' Hm H; cbn [for_each] in H; [by injection H as <-|]. ok_step H.
  eapply (IH (Datatypes.S i)); [|by eapply Hb; [left| |done]|done]. intros j y Hy. apply Hb. by right.
Qed.
Lemma keeps_panic I msg : preserves I (fun _ => Panic msg).
Proof. done. Qed.

Lemma modify_sced_typed id h : keeps (fun ms => modify_sced ms id h).
Proof.
  intros ms ms' Hm H. unfold modify_sced, recordSiacoinElement in H.
  destruct (ms_elements ms !! id); ok_step H; by injection H as <-.
Qed.
Lemma modify_sfed_typed id h : keeps (fun ms => modify_sfed ms id h).
Proof.
  intros ms ms' Hm H. unfold modify_sfed, recordSiafundElement in H.
  destruct (ms_elements ms !! id); ok_step H; by injection H as <-.
Qed.
Lemma modify_fced_typed id h : keeps (fun ms => modify_fced ms id h).
Proof.
  intros ms ms' Hm H. unfold modify_fced, recordFileContractElement in H.
  destruct (ms_elements ms !! id); ok_step H; by injection H as <-.
Qed.
Lemma modify_v2fced_typed id h : keeps (fun ms => modify_v2fced ms id h).
Proof.
  intros ms ms' Hm H. unfold modify_v2fced, recordV2FileContractElement in H.
  destruct (ms_elements ms !! id); destruct (_ !! _); try done; ok_step H; by injection H as <-.
Qed.

Lemma currency_add_ok a b c : Currency.Add a b = Ok c -> Currency.ok c.
Proof.
  unfold Currency.Add, Currency.AddWithOverflow, bits.Add64. destruct (negb _); [done|]. intros [= <-].
  split; apply u64_range.
Qed.
#[local] Hint Resolve keeps_ret keeps_panic modify_sced_typed modify_sfed_typed modify_fced_typed modify_v2fced_typed : core.

Lemma spends_typed id txid : keeps (fun ms => Ok (set_spends ms (<[id := txid]> (ms_spends ms)))).
Proof. intros ms ms' Hm H. by injection H as <-. Qed.
#[local] Hint Resolve spends_typed : core.

Lemma createSiacoin_typed id sco : keeps (fun ms => createSiacoinElement ms id sco).
Proof. intros ms ms' Hm H. by eapply modify_sced_typed. Qed.
Lemma createImmature_typed id sco : keeps (fun ms => createImmatureSiacoinElement ms id sco).
Proof.
  intros ms ms' Hm H. unfold createImmatureSiacoinElement in H. ok_step H.
  eapply modify_sced_typed; [by eapply createSiacoin_typed|exact H].
Qed.
Lemma spendSiacoin_typed sce txid : keeps (fun ms => spendSiacoinElement ms sce txid).
Proof. apply (keeps_bind (fun ms => modify_sced ms _ _)); auto. Qed.
Lemma createSiafund_typed id sfo : keeps (fun ms => createSiafundElement ms id sfo).
Proof. intros ms ms' Hm H. by eapply modify_sfed_typed. Qed.
Lemma spendSiafund_typed sfe txid : keeps (fun ms => spendSiafundElement ms sfe txid).
Proof. apply (keeps_bind (fun ms => modify_sfed ms _ _)); auto. Qed.
Lemma revenue_typed ms c r : typed_ms ms -> Currency.Add (ms_siafundTaxRevenue ms) c = Ok r -> typed_ms (set_revenue ms r).
Proof. intros (_ & H1 & H2) H. by split; [eapply currency_add_ok|]. Qed.
Lemma createFileContract_typed id fc : keeps (fun ms => createFileContractElement ms id fc).
Proof.
  intros ms ms' Hm H. unfold createFileContractElement in H. do 2 ok_step H. injection H as <-.
  eapply revenue_typed; [by eapply modify_fced_typed|done].
Qed.
Lemma createV2FileContract_typed id fc : keeps (fun ms => createV2FileContractElement ms id fc).
Proof.
  intros ms ms' Hm H. unfold createV2FileContractElement in H. do 3 ok_step H. injection H as <-.
  eapply revenue_typed; [by eapply modify_v2fced_typed|done].
Qed.
Lemma reviseFileContract_typed fce rev : keeps (fun ms => reviseFileContractElement ms fce rev).
Proof. apply modify_fced_typed. Qed.
Lemma resolveFileContract_typed fce valid txid : keeps (fun ms => resolveFileContractElement ms fce valid txid).
Proof. apply (keeps_bind (fun ms => modify_fced ms _ _)); auto. Qed.
Lemma reviseV2FileContract_typed fce rev : keeps (fun ms => reviseV2FileContractElement ms fce rev).
Proof. apply modify_v2fced_typed. Qed.
Lemma resolveV2FileContract_typed fce res txid : keeps (fun ms => resolveV2FileContractElement ms fce res txid).
Proof. apply (keeps_bind (fun ms => modify_v2fced ms _ _)); auto. Qed.
#[local] Hint Resolve createSiacoin_typed createImmature_typed spendSiacoin_typed createSiafund_typed spendSiafund_typed
  createFileContract_typed createV2FileContract_typed reviseFileContract_typed resolveFileContract_typed
  reviseV2FileContract_typed resolveV2FileContract_typed : core.

Lemma create_all_typed id outs : keeps (create_all id outs).
Proof. apply keeps_for_each. auto. Qed.
Lemma create_all_immature_typed id outs : keeps (create_all_immature id outs).
Proof. apply keeps_for_each. auto. Qed.
#[local] Hint Resolve create_all_typed create_all_immature_typed : core.

Lemma foundation_typed ms a b cie : typed_ms ms -> wf_array 32 a -> wf_array 32 b -> typed_ms (set_foundation ms a b cie).
Proof. by intros (H & _ & _). Qed.

Lemma to_array_32 b : wf_array 32 (to_array 32 b).
Proof. unfold wf_array, to_array. rewrite length_take, length_app. unfold zeros. rewrite length_replicate. lia. Qed.

Lemma ApplyTransaction_typed txn ts : keeps (fun ms => ApplyTransaction ms txn ts).
Proof.
  unfold ApplyTransaction.
  apply (keeps_bind (fun ms => for_each _ 0 ms _)).
  { apply keeps_for_each. intros j x _. apply keeps_skip. intros [sce|]; auto. }
  apply (keeps_bind (create_all _ _)); [auto|].
  apply (keeps_bind (fun ms => for_each _ 0 ms _)).
  { apply keeps_for_each. intros j x _. apply keeps_skip. intros [sfe|]; [|auto]. apply keeps_skip. intros portion.
    apply (keeps_bind (fun ms => spendSiafundElement ms _ _)); auto. }
  apply (keeps_bind (fun ms => for_each _ 0 ms _)); [apply keeps_for_each; auto|].
  apply (keeps_bind (fun ms => for_each _ 0 ms _)); [apply keeps_for_each; auto|].
  apply (keeps_bind (fun ms => for_each _ 0 ms _)).
  { apply keeps_for_each. intros j x _. apply keeps_skip. intros [fce|]; auto. }
  apply (keeps_bind (fun ms => for_each _ 0 ms _)).
  { apply keeps_for_each. intros j x _. apply keeps_skip. intros [fce|]; [|auto].
    apply (keeps_bind (fun ms => resolveFileContractElement ms _ _ _)); auto. }
  intros ms ms' Hm H. destruct (_ <=? _); [|by injection H as <-]. injection H as <-.
  revert ms Hm. induction (tx_ArbitraryData txn) as [|arb l IH]; intros ms Hm; [done|]. cbn [foldl]. apply IH.
  destruct (has_prefix _ _); [|done]. apply foundation_typed; [done| |]; apply to_array_32.
Qed.

Lemma applyResolution_typed txid fcr : keeps (applyResolution txid fcr).
Proof.
  intros ms ms' Hm H. unfold applyResolution in H. ok_step H.
  assert (typed_ms v) as Hv by (by eapply resolveV2FileContract_typed).
  destruct (match res_Resolution fcr with V2Renewal _ => _ | _ => _ end) as [[[ms2 ro] ho]| |] eqn:E2; [|done|done].
  cbn [mbind outcome_bind] in H.
  assert (typed_ms ms2) as H2.
  { destruct (res_Resolution fcr); [ok_step E2; injection E2 as <- _ _; by eapply createV2FileContract_typed| |];
      by injection E2 as <- _ _. }
  ok_step H. eapply createImmature_typed; [|exact H]. by eapply createImmature_typed.
Qed.

(** A new foundation address is an address. *)
Definition foundation_wf (txn : V2Transaction) : Prop := forall a, v2tx_NewFoundationAddress txn = Some a -> wf_array 32 a.

Lemma ApplyV2Transaction_typed txn : foundation_wf txn -> keeps (fun ms => ApplyV2Transaction ms txn).
Proof.
  intros Hwf ms0 ms' Hm. unfold ApplyV2Transaction.
  assert (typed_ms (if isQday (ms_base ms0) && is_canary_proof txn then set_qdayProved ms0 else ms0)) as Hm' by by destruct (_ && _).
  revert Hm'. generalize (if isQday (ms_base ms0) && is_canary_proof txn then set_qdayProved ms0 else ms0). clear ms0 Hm.
  intros ms. revert ms ms'. apply (keeps_bind (fun ms => for_each _ 0 ms _)); [apply keeps_for_each; auto|].
  apply (keeps_bind (create_all _ _)); [auto|].
  apply (keeps_bind (fun ms => for_each _ 0 ms _)).
  { apply keeps_for_each. intros j x _. apply (keeps_bind (fun ms => spendSiafundElement ms _ _)); [auto|].
    apply keeps_skip. auto. }
  apply (keeps_bind (fun ms => for_each _ 0 ms _)); [apply keeps_for_each; auto|].
  apply (keeps_bind (fun ms => for_each _ 0 ms _)); [apply keeps_for_each; auto|].
  apply (keeps_bind (fun ms => for_each _ 0 ms _)); [apply keeps_for_each; auto|].
  apply (keeps_bind (fun ms => for_each _ 0 ms _)); [apply keeps_for_each; intros; apply applyResolution_typed|].
  apply (keeps_bind (fun ms => for_each _ 0 ms _)).
  { apply keeps_for_each. intros j x _ ms ms' Hm H. by injection H as <-. }
  intros ms ms' Hm H. injection H as <-. unfold foundation_wf in Hwf. destruct (v2tx_NewFoundationAddress txn) as [a|]; [|done].
  specialize (Hwf a eq_refl). apply foundation_typed; [done|done|]. apply pick_32; [apply Hm|done].
Qed.

Lemma MidState_ApplyBlock_typed b bs : Forall foundation_wf (V2Transactions b) ->
  keeps (fun ms => MidState_ApplyBlock ms b bs).
Proof.
  intros Hwf ms0 ms0' Hm0. unfold MidState_ApplyBlock. destruct (_ && _); [done|]. revert ms0 ms0' Hm0.
  apply (keeps_bind (fun ms => for_each _ 0 ms _)).
  { apply keeps_for_each. intros j x _. destruct (bs_Transactions bs !! j); [apply ApplyTransaction_typed|apply keeps_panic]. }
  apply (keeps_bind (fun ms => for_each _ 0 ms _)).
  { apply keeps_for_each. intros j x Hx. apply ApplyV2Transaction_typed. by eapply Forall_forall in Hwf. }
  apply (keeps_bind (create_all_immature _ _)); [auto|]. apply keeps_skip. intros subsidy.
  apply (keeps_bind (fun ms => match subsidy with Some sco => _ | None => _ end)); [destruct subsidy; auto|].
  apply (keeps_bind (fun ms => for_each _ 0 ms _)).
  { apply keeps_for_each. intros j x _ ms ms' Hm H. destruct (ms_isSpent ms _); [by injection H as <-|]. ok_step H.
    eapply create_all_immature_typed; [|exact H]. by eapply resolveFileContract_typed. }
  intros ms ms' Hm H. by injection H as <-.
Qed.

(** Applying a block to a well-typed state gives a well-typed state of the same network. *)
Lemma ApplyBlock_typed s b bs ts s' au : wf_Network (s_Network s) -> wf_State s -> wf_time (b_Timestamp b) ->
  Forall foundation_wf (V2Transactions b) -> ApplyBlock s b bs ts = Ok (s', au) ->
  wf_State s' /\ s_Network s' = s_Network s.
Proof.
  intros Hn Hs Ht Hf H. unfold ApplyBlock in H. destruct (_ && _); [done|]. ok_step H.
  assert (typed_ms v) as (Hv1 & Hv2 & Hv3).
  { eapply (MidState_ApplyBlock_typed b bs Hf); [|exact E]. unfold wf_State in Hs. destruct_and? Hs. by split_and!. }
  destruct (applyBlock _ _ _) as [[[acc eau] added]| |] eqn:Ea; cbn [mbind outcome_bind] in H; [|done|done].
  destruct (ApplyHeader _ _ _) as [next| |] eqn:Eh; cbn [mbind outcome_bind] in H; [|done|done]. injection H as <- _.
  assert (wf_State (set_chain s v acc)) as Hc.
  { pose proof (applyBlock_wf _ _ _ _ _ _ ltac:(apply Hs) Ea). unfold wf_State in *. destruct_and? Hs. cbn. split_and!; try done.
    apply u64_range. }
  destruct (ApplyHeader_typed (set_chain s v acc) (Block_Header b) ts next Hn Hc Ht Eh) as [Hw En]. unfold activate. rewrite En. cbn [s_Network set_chain].
  destruct (n_Qday (s_Network s)) as [p|]; [|done]. destruct (_ && _); [|done].
  unfold wf_State in *. destruct_and? Hw. cbn. split; [|done]. split_and!; try done. apply u64_range.
Qed.
End Apply.
