(* ===== verification/ConsensusProofSpec.v ===== *)
(** * Merkle proofs stay well-typed

    The proofs that [ApplyBlock] and [RevertBlock] hand out, and those that an update makes
    for elements held elsewhere, are lists of 32-byte hashes. *)
From stdpp Require Import prelude strings gmap.
From Stdlib Require Import ZArith Lia.
From S2P Require Import Prelude TypesCurrency TypesData TypesEncoding TypesCodec TypesHash TypesPolicy.
From S2P Require Import ConsensusWork ConsensusState ConsensusMerkle ConsensusQday ConsensusMidState ConsensusApply.
From S2P Require Import ConsensusCodec ConsensusTypeSpec.

(** An element of the right widths, shared or not. *)
Definition element_ok (e : StateElement) : Prop := is_u64 (se_LeafIndex e) /\ Forall (wf_array 32) (se_MerkleProof e).
Lemma wf_element_ok e : wf_StateElement e -> element_ok e.
Proof. by intros (H1 & H2 & _). Qed.
Lemma copy_wf e : element_ok e -> wf_StateElement (StateElement_Copy e).
Proof. by intros [H1 H2]. Qed.
Lemma share_ok e : element_ok e -> element_ok (StateElement_Share e).
Proof. done. Qed.
Lemma unassigned_ok : element_ok unassigned.
Proof. split; [by vm_compute|constructor]. Qed.
#[export] Hint Resolve wf_element_ok share_ok unassigned_ok : core.

Section Proofs.
Context {crypto : Crypto} {sizes : CryptoSizes}.
Abbreviation hashes := (Forall (wf_array 32)).
Definition leaf_ok (l : elementLeaf) : Prop := element_ok (el_StateElement l).

Lemma set_proof_ok f l : leaf_ok l -> (hashes (el_MerkleProof l) -> hashes (f (el_MerkleProof l))) -> leaf_ok (el_setProof f l).
Proof. intros [H1 H2] Hf. split; [exact H1|]. by apply Hf. Qed.
Lemma set_index_ok i l : is_u64 i -> leaf_ok l -> leaf_ok (el_setIndex i l).
Proof. by intros Hi [H1 H2]. Qed.

(** ** Updating leaves *)
Lemma set_sibling_leaves i h ls ls' : wf_array 32 h -> Forall leaf_ok ls -> set_sibling i h ls = Ok ls' -> Forall leaf_ok ls'.
Proof.
  unfold set_sibling. intros Hh Hl H. destruct (forallb _ _); [|done]. injection H as <-.
  apply Forall_map. eapply Forall_impl; [exact Hl|]. intros l Hl'. apply set_proof_ok; [done|]. intros Hp. by apply Forall_insert.
Qed.
Lemma proof_at_32 i l h : leaf_ok l -> proof_at i l = Ok h -> wf_array 32 h.
Proof.
  unfold proof_at. intros [_ H] E. destruct (el_MerkleProof l !! i) eqn:El; [|done]. injection E as <-.
  by apply (Forall_lookup_1 _ _ _ _ H El).
Qed.
Lemma recompute_ok height : forall i ls root ls', Forall leaf_ok ls -> recompute height i ls = Ok (root, ls') ->
  wf_array 32 root /\ Forall leaf_ok ls'.
Proof.
  induction height as [|height IH]; intros i ls root ls' Hl H; cbn [recompute] in H.
  { destruct ls as [|l [|? ?]]; [done| |done]. injection H as <- <-. split; [apply el_hash_32|done]. }
  unfold splitLeaves in H. set (k := sort_Search _ _) in H.
  assert (Forall leaf_ok (take k ls)) as Ht by by apply Forall_take. assert (Forall leaf_ok (drop k ls)) as Hd by by apply Forall_drop.
  generalize dependent (take k ls). generalize dependent (drop k ls). intros rgt Hr lft H Hlf. clear k Hl ls.
  set (mid := i + 2 ^ Z.of_nat height) in H.
  match type of H with (?e ≫= _) = _ => destruct e as [[[lr l2] r2]| |] eqn:E1; [|done|done] end. cbn [mbind outcome_bind] in H.
  assert (wf_array 32 lr /\ Forall leaf_ok l2 /\ Forall leaf_ok r2) as (H1 & H2 & H3).
  { destruct lft as [|l lft].
    - destruct rgt as [|r rgt]; [done|]. ok_step E1. injection E1 as <- <- <-. split_and!; [|done|done]. eapply proof_at_32; [|exact E]. by inv Hr.
    - ok_step E1. destruct v as [h l']. ok_step E1. injection E1 as <- <- <-. destruct (IH _ _ _ _ Hlf E) as [? ?].
      split_and!; [done|done|]. eapply set_sibling_leaves; [|exact Hr|exact E0]; done. }
  clear E1 Hr Hlf lft rgt.
  match type of H with (?e ≫= _) = _ => destruct e as [[[rr l3] r3]| |] eqn:E1; [|done|done] end. cbn [mbind outcome_bind] in H.
  injection H as <- <-. split; [apply SumPair_32|]. apply Forall_app.
  destruct r2 as [|r r2].
  - destruct l2 as [|l l2]; [done|]. ok_step E1. by injection E1 as <- <- <-.
  - ok_step E1. destruct v as [h l']. ok_step E1. injection E1 as <- <- <-. destruct (IH _ _ _ _ H3 E) as [? ?].
    split; [eapply set_sibling_leaves; [|exact H2|exact E0]; done|done].
Qed.

Lemma insert_leaf_ok x l : leaf_ok x -> Forall leaf_ok l -> Forall leaf_ok (insert_leaf x l).
Proof. intros Hx. induction 1 as [|y l Hy Hl IH]; cbn [insert_leaf]; [by constructor|]. destruct (leaf_before y x); [by constructor|]. constructor; [exact Hx|]. by constructor. Qed.
Lemma sort_leaves_ok l : Forall leaf_ok l -> Forall leaf_ok (sort_leaves l).
Proof. unfold sort_leaves. induction 1; cbn [foldr]; [constructor|by apply insert_leaf_ok]. Qed.

Lemma updateTree_ok h ls ls' : Forall leaf_ok ls -> updateTree h ls = Ok ls' -> Forall leaf_ok ls'.
Proof.
  unfold updateTree. intros Hl H. destruct ls as [|l ls]; [by injection H as <-|].
  destruct (recompute h _ (l :: ls)) as [[root r]| |] eqn:Er; [|done|done]. injection H as <-. by eapply recompute_ok.
Qed.
Lemma updateTrees_ok gs : forall i acc out, Forall (Forall leaf_ok) acc -> Forall (Forall leaf_ok) gs ->
  for_each gs i acc (fun height ls done => ls' ← updateTree height ls; Ok (ls' :: done)) = Ok out -> Forall (Forall leaf_ok) out.
Proof.
  induction gs as [|g gs IH]; intros i acc out Ha Hg E; [by injection E as <-|]. cbn [for_each] in E.
  apply Forall_cons in Hg as [Hg1 Hg]. ok_step E. eapply (IH (S i)); [|exact Hg|exact E].
  ok_step E0. injection E0 as <-. constructor; [|done]. by eapply updateTree_ok.
Qed.
Lemma updateLeaves_ok ls trees : Forall leaf_ok ls -> updateLeaves ls = Ok trees -> Forall (Forall leaf_ok) trees.
Proof.
  intros Hl H. unfold updateLeaves in H. ok_step H. unfold group_leaves in E. destruct (forallb _ _); [|done]. apply Ok_inj in E as <-.
  match type of H with (_ <$> ?e) = _ => destruct e as [ds| |] eqn:E; [|done|done] end. injection H as <-. apply Forall_rev.
  eapply updateTrees_ok; [| |exact E]; [constructor|].
  apply Forall_forall. intros g (h & -> & _)%list_elem_of_fmap. apply Forall_forall. intros l [_ Hin]%list_elem_of_filter.
  apply sort_leaves_ok in Hl. rewrite Forall_forall in Hl. by apply Hl.
Qed.

(** ** Adding leaves *)
Lemma append_proofs_ok lo hi h ls : wf_array 32 h -> Forall leaf_ok ls -> Forall leaf_ok (append_proofs lo hi h ls).
Proof.
  intros Hh Hl. apply Forall_lookup. intros i x (l & Hi & ->)%list_lookup_imap_Some. apply (Forall_lookup_1 _ _ _ _ Hl) in Hi.
  destruct (_ && _); [|done]. apply set_proof_ok; [done|]. intros Hp. apply Forall_app. split; [done|by constructor].
Qed.
Lemma grow_ok init n height a b g : wf_array 32 a -> wf_array 32 b -> Forall hashes g -> Forall hashes (grow init n height a b g).
Proof.
  intros Ha Hb Hg. apply Forall_lookup. intros i x (l & Hi & ->)%list_lookup_imap_Some. apply (Forall_lookup_1 _ _ _ _ Hg) in Hi.
  cbv zeta beta. destruct (negb _); [done|]. destruct (_ <=? _); [|destruct (_ <=? _); [|done]]; (apply Forall_app; split; [done|by constructor]).
Qed.
Lemma add_walk_ok fuel height i n h acc ls growth : wf_array 32 h -> wf_Accumulator acc -> Forall leaf_ok ls -> Forall hashes growth ->
  let r := add_walk fuel height i n h acc ls growth in wf_Accumulator r.1.1 /\ Forall leaf_ok r.1.2 /\ Forall hashes r.2.
Proof.
  revert height h ls growth. induction fuel as [|fuel IH]; intros height h ls growth Hh Ha Hl Hg r; [done|]. subst r.
  pose proof (add_walk_wf (S fuel) height i n h acc ls growth Hh Ha) as Hw. cbn [add_walk] in *.
  destruct (negb _); [done|]. assert (wf_array 32 (nth height (ea_Trees acc) zeroHash)) as Ho.
  { destruct (nth_in_or_default height (ea_Trees acc) zeroHash) as [Hin| ->]; [|by vm_compute].
    destruct Ha as (_ & _ & Ht). rewrite Forall_forall in Ht. by apply Ht, list_elem_of_In. }
  apply IH; [apply SumPair_32|done|apply append_proofs_ok; [done|]; by apply append_proofs_ok|by apply grow_ok].
Qed.
Lemma add_from_ok n : forall i init acc ls growth, wf_Accumulator acc -> Forall leaf_ok ls -> Forall hashes growth ->
  let r := add_from n i init acc ls growth in wf_Accumulator r.1.1 /\ Forall leaf_ok r.1.2 /\ Forall hashes r.2.
Proof.
  induction n as [|n IH]; intros i init acc ls growth Ha Hl Hg r; [done|]. subst r. cbn [add_from].
  destruct (ls !! i) as [el|] eqn:Ei; [|done]. apply (Forall_lookup_1 _ _ _ _ Hl) in Ei.
  assert (leaf_ok (el_setIndex (ea_NumLeaves acc) el)) as He by (apply set_index_ok; [apply Ha|done]).
  pose proof (add_walk_ok 64 0 (Z.of_nat i) init (el_hash (el_setIndex (ea_NumLeaves acc) el)) acc
    (<[i := el_setIndex (ea_NumLeaves acc) el]> ls) growth (el_hash_32 _) Ha ltac:(by apply Forall_insert) Hg) as H.
  destruct (add_walk _ _ _ _ _ _ _ _) as [[acc' ls'] growth']. destruct H as (? & ? & ?). by apply IH.
Qed.

(** ** The updates of a block *)
Definition apply_ok (eau : elementApplyUpdate) : Prop := Forall (Forall leaf_ok) (eau_updated eau) /\ Forall hashes (eau_treeGrowth eau).
Lemma applyBlock_ok acc updated added acc' eau added' : wf_Accumulator acc -> Forall leaf_ok updated -> Forall leaf_ok added ->
  applyBlock acc updated added = Ok (acc', eau, added') -> apply_ok eau /\ Forall leaf_ok added'.
Proof.
  intros (Hn & Hl & Ht) Hu Ha H. unfold applyBlock in H. do 3 ok_step H. apply updateLeaves_ok in E1; [|done].
  set (acc1 := {| ea_Trees := set_roots (ea_Trees acc) v1; ea_NumLeaves := ea_NumLeaves acc |}) in *.
  assert (wf_Accumulator acc1) as Hacc.
  { split; [done|]. cbn. split; [unfold set_roots; by rewrite length_imap|by apply set_roots_wf]. }
  pose proof (add_from_ok (length added) 0 (ea_NumLeaves acc1) acc1 added (replicate 64 []) Hacc Ha ltac:(by apply Forall_replicate)) as H'.
  unfold addLeaves in H. destruct (add_from _ _ _ _ _ _) as [[a l] g]. cbn in H'. destruct H' as (_ & Hl' & Hg). injection H as _ <- <-.
  split; [|done]. split; [|done]. cbn. apply Forall_lookup. intros i x (t & Hi & ->)%list_lookup_imap_Some.
  apply (Forall_lookup_1 _ _ _ _ E1) in Hi. apply Forall_map. eapply Forall_impl; [exact Hi|]. intros y Hy. apply set_proof_ok; [done|].
  intros Hp. apply Forall_app. split; [done|]. destruct (nth_in_or_default i g []) as [Hin| ->]; [|constructor].
  rewrite Forall_forall in Hg. by apply Hg, list_elem_of_In.
Qed.
Lemma revertBlock_ok acc updated added eru added' : Forall leaf_ok updated -> Forall leaf_ok added ->
  revertBlock acc updated added = Ok (eru, added') -> Forall (Forall leaf_ok) (eru_updated eru) /\ Forall leaf_ok added'.
Proof.
  intros Hu Ha H. unfold revertBlock in H. do 3 ok_step H. apply updateLeaves_ok in E1; [|done]. injection H as <- <-. split; [done|].
  apply Forall_lookup. intros i x (l & Hi & ->)%list_lookup_imap_Some. apply (Forall_lookup_1 _ _ _ _ Ha) in Hi.
  apply set_index_ok; [apply u64_range|done].
Qed.

(** ** Proofs of elements held elsewhere *)
Lemma copy_into_hashes p q : hashes p -> hashes q -> hashes (copy_into p q).
Proof. intros Hp Hq. apply Forall_app. split; [by apply Forall_take|by apply Forall_drop]. Qed.
Lemma closest_ok i ls : forall best, leaf_ok best -> Forall leaf_ok ls -> leaf_ok (closest i best ls).
Proof.
  unfold closest. induction ls as [|l ls IH]; intros best Hb Hl; [done|]. apply Forall_cons in Hl as [H Hl]. cbn [foldl].
  apply IH; [|done]. by destruct (_ <? _).
Qed.
Lemma updateProof_wf e updated e' : wf_StateElement e -> Forall (Forall leaf_ok) updated -> updateProof e updated = Ok e' -> wf_StateElement e'.
Proof.
  intros (H1 & H2 & H3) Hu H. unfold updateProof in H. destruct (updated !! _) as [[|l ls]|] eqn:El; [by injection H as <-| |done].
  apply (Forall_lookup_1 _ _ _ _ Hu) in El. apply Forall_cons in El as [Hl Hls].
  pose proof (closest_ok (se_LeafIndex e) ls l Hl Hls) as [_ Hb]. set (best := closest _ _ _) in *.
  change (se_MerkleProof (el_StateElement best)) with (el_MerkleProof best) in Hb.
  destruct (_ =? _). { injection H as <-. split_and!; [done|by apply copy_into_hashes|done]. }
  destruct (_ || _); [done|]. injection H as <-. split_and!; [done| |done]. cbn. apply Forall_insert; [|apply proofRoot_32, el_hash_32].
  apply Forall_app. split; [by apply Forall_take|]. apply copy_into_hashes; by apply Forall_drop.
Qed.
Lemma eau_update_wf eau e e' : apply_ok eau -> wf_StateElement e -> eau_updateElementProof eau e = Ok e' -> wf_StateElement e'.
Proof.
  intros [Hu Hg] He H. unfold eau_updateElementProof in H. ok_step H. destruct (_ =? _); [done|]. destruct (_ <=? _); [by injection H as <-|].
  ok_step H. apply updateProof_wf in E0; [|done|done]. destruct (_ =? _); [by injection H as <-|].
  destruct (eau_treeGrowth eau !! _) as [g|] eqn:Eg; [|done]. injection H as <-. apply (Forall_lookup_1 _ _ _ _ Hg) in Eg.
  destruct E0 as (H1 & H2 & H3). split_and!; [done| |done]. by apply Forall_app.
Qed.
Lemma eru_update_wf eru e e' : Forall (Forall leaf_ok) (eru_updated eru) -> wf_StateElement e ->
  eru_updateElementProof eru e = Ok e' -> wf_StateElement e'.
Proof.
  intros Hu He H. unfold eru_updateElementProof in H. ok_step H. destruct (_ =? _); [done|]. destruct (_ <=? _); [done|].
  eapply updateProof_wf; [|exact Hu|exact H]. destruct (_ <=? _); [|done]. destruct He as (H1 & H2 & H3). split_and!; [done|by apply Forall_take|done].
Qed.
End Proofs.

(** ** The elements of a block *)
Record elements_ok (ms : MidState) : Prop := {
  eo_sces : Forall (fun d => element_ok (sce_StateElement (sced_SiacoinElement d))) (ms_sces ms);
  eo_sfes : Forall (fun d => element_ok (sfe_StateElement (sfed_SiafundElement d))) (ms_sfes ms);
  eo_fces : Forall (fun d => element_ok (fce_StateElement (fced_FileContractElement d))) (ms_fces ms);
  eo_v2fces : Forall (fun d => element_ok (v2fce_StateElement (v2fced_V2FileContractElement d))) (ms_v2fces ms);
  eo_aes : Forall (fun e => element_ok (ae_StateElement e)) (ms_aes ms);
  eo_cie : element_ok (cie_StateElement (ms_cie ms)) }.

Section Elements.
Context {crypto : Crypto} {sizes : CryptoSizes}.
Abbreviation keeps_elements := (preserves elements_ok).

Lemma zeroSE_ok : element_ok zeroSE.
Proof. split; [by vm_compute|constructor]. Qed.
Lemma update_at_ok {A} (P : A -> Prop) i f l l' : (forall x, P x -> P (f x)) -> Forall P l -> update_at i f l = Ok l' -> Forall P l'.
Proof.
  unfold update_at. intros Hf Hl H. destruct (l !! i) as [x|] eqn:Ei; [|done]. injection H as <-.
  apply Forall_insert; [done|]. apply Hf. by apply (Forall_lookup_1 _ _ _ _ Hl Ei).
Qed.

(** The entry of a diff list, new or old, after the update. *)
Ltac recorded H Hf E :=
  injection H as <-; split; try done; cbn; eapply update_at_ok; [exact Hf| |exact E]; cbn;
  first [done|apply Forall_app; split; [done|]; constructor; [apply zeroSE_ok|done]].

Lemma modify_sced_elements id f :
  (forall d, element_ok (sce_StateElement (sced_SiacoinElement d)) -> element_ok (sce_StateElement (sced_SiacoinElement (f d)))) ->
  keeps_elements (fun ms => modify_sced ms id f).
Proof.
  intros Hf ms ms' [H1 H2 H3 H4 H5 H6] H. unfold modify_sced, recordSiacoinElement in H.
  destruct (ms_elements ms !! id); ok_step H; recorded H Hf E.
Qed.
Lemma modify_sfed_elements id f :
  (forall d, element_ok (sfe_StateElement (sfed_SiafundElement d)) -> element_ok (sfe_StateElement (sfed_SiafundElement (f d)))) ->
  keeps_elements (fun ms => modify_sfed ms id f).
Proof.
  intros Hf ms ms' [H1 H2 H3 H4 H5 H6] H. unfold modify_sfed, recordSiafundElement in H.
  destruct (ms_elements ms !! id); ok_step H; recorded H Hf E.
Qed.
Lemma modify_fced_elements id f :
  (forall d, element_ok (fce_StateElement (fced_FileContractElement d)) -> element_ok (fce_StateElement (fced_FileContractElement (f d)))) ->
  keeps_elements (fun ms => modify_fced ms id f).
Proof.
  intros Hf ms ms' [H1 H2 H3 H4 H5 H6] H. unfold modify_fced, recordFileContractElement in H.
  destruct (ms_elements ms !! id); ok_step H; recorded H Hf E.
Qed.
Lemma modify_v2fced_elements id f :
  (forall d d', element_ok (v2fce_StateElement (v2fced_V2FileContractElement d)) -> f d = Ok d' ->
     element_ok (v2fce_StateElement (v2fced_V2FileContractElement d'))) ->
  keeps_elements (fun ms => modify_v2fced ms id f).
Proof.
  intros Hf ms ms' [H1 H2 H3 H4 H5 H6] H. unfold modify_v2fced, recordV2FileContractElement in H.
  assert (Forall (fun d => element_ok (v2fce_StateElement (v2fced_V2FileContractElement d))) (ms_v2fces ms ++ [zeroV2FCED])) as H4'.
  { apply Forall_app. split; [done|]. constructor; [apply zeroSE_ok|done]. }
  destruct (ms_elements ms !! id); (destruct (_ !! _) as [d|] eqn:Ed; [|done]); ok_step H; injection H as <-;
    (split; try done; cbn; apply Forall_insert; [done|]; eapply Hf; [|exact E]).
  - by apply (Forall_lookup_1 _ _ _ _ H4 Ed).
  - by apply (Forall_lookup_1 _ _ _ _ H4' Ed).
Qed.

(** *** Operations *)
Ltac by_modify :=
  match goal with
  | |- preserves _ (fun ms => modify_sced ms _ _) => apply modify_sced_elements
  | |- preserves _ (fun ms => modify_sfed ms _ _) => apply modify_sfed_elements
  | |- preserves _ (fun ms => modify_fced ms _ _) => apply modify_fced_elements
  | |- preserves _ (fun ms => modify_v2fced ms _ _) => apply modify_v2fced_elements
  end; cbn; auto.

Lemma spends_elements id txid : keeps_elements (fun ms => Ok (set_spends ms (<[id := txid]> (ms_spends ms)))).
Proof. intros ms ms' [] H. injection H as <-. by split. Qed.
Lemma revenue_elements ms r : elements_ok ms -> elements_ok (set_revenue ms r).
Proof. intros []. by split. Qed.
#[local] Hint Resolve keeps_ret keeps_panic spends_elements revenue_elements : core.

Lemma createSiacoin_elements id sco : keeps_elements (fun ms => createSiacoinElement ms id sco).
Proof. intros ms ms' Hm H. eapply modify_sced_elements; [|exact Hm|exact H]. cbn. auto. Qed.
Lemma createImmature_elements id sco : keeps_elements (fun ms => createImmatureSiacoinElement ms id sco).
Proof.
  intros ms ms' Hm H. unfold createImmatureSiacoinElement in H. ok_step H.
  eapply modify_sced_elements; [|by eapply createSiacoin_elements|exact H]. done.
Qed.
Lemma spendSiacoin_elements sce txid : element_ok (sce_StateElement sce) -> keeps_elements (fun ms => spendSiacoinElement ms sce txid).
Proof. intros He. apply (keeps_bind (fun ms => modify_sced ms _ _)); [by_modify|auto]. Qed.
Lemma createSiafund_elements id sfo : keeps_elements (fun ms => createSiafundElement ms id sfo).
Proof. intros ms ms' Hm H. eapply modify_sfed_elements; [|exact Hm|exact H]. cbn. auto. Qed.
Lemma spendSiafund_elements sfe txid : element_ok (sfe_StateElement sfe) -> keeps_elements (fun ms => spendSiafundElement ms sfe txid).
Proof. intros He. apply (keeps_bind (fun ms => modify_sfed ms _ _)); [by_modify|auto]. Qed.
Lemma createFileContract_elements id fc : keeps_elements (fun ms => createFileContractElement ms id fc).
Proof.
  intros ms ms' Hm H. unfold createFileContractElement in H. do 2 ok_step H. injection H as <-. apply revenue_elements.
  eapply modify_fced_elements; [|exact Hm|exact E]. cbn. auto.
Qed.
Lemma createV2FileContract_elements id fc : keeps_elements (fun ms => createV2FileContractElement ms id fc).
Proof.
  intros ms ms' Hm H. unfold createV2FileContractElement in H. do 3 ok_step H. injection H as <-. apply revenue_elements.
  eapply modify_v2fced_elements; [|exact Hm|exact E]. cbn. intros d d' _ [= <-]. cbn. auto.
Qed.
Lemma reviseFileContract_elements fce rev : element_ok (fce_StateElement fce) -> keeps_elements (fun ms => reviseFileContractElement ms fce rev).
Proof.
  intros He. unfold reviseFileContractElement. cbv zeta. by_modify. intros d Hd. destruct (fced_Created d); [done|]. by destruct (fced_Revision d).
Qed.
Lemma resolveFileContract_elements fce valid txid : element_ok (fce_StateElement fce) ->
  keeps_elements (fun ms => resolveFileContractElement ms fce valid txid).
Proof. intros He. apply (keeps_bind (fun ms => modify_fced ms _ _)); [by_modify|auto]. Qed.
Lemma reviseV2FileContract_elements fce rev : element_ok (v2fce_StateElement fce) ->
  keeps_elements (fun ms => reviseV2FileContractElement ms fce rev).
Proof.
  intros He. unfold reviseV2FileContractElement. by_modify. intros d d' Hd [= <-]. destruct (v2fced_Created d); [done|]. by destruct (v2fced_Revision d).
Qed.
Lemma resolveV2FileContract_elements fce res txid : element_ok (v2fce_StateElement fce) ->
  keeps_elements (fun ms => resolveV2FileContractElement ms fce res txid).
Proof.
  intros He. apply (keeps_bind (fun ms => modify_v2fced ms _ _)); [|auto]. by_modify. intros d d' Hd H.
  destruct (v2fced_Created d); [done|]. by injection H as <-.
Qed.
#[local] Hint Resolve createSiacoin_elements createImmature_elements spendSiacoin_elements createSiafund_elements spendSiafund_elements
  createFileContract_elements createV2FileContract_elements reviseFileContract_elements resolveFileContract_elements
  reviseV2FileContract_elements resolveV2FileContract_elements : core.
Lemma create_all_elements id outs : keeps_elements (create_all id outs).
Proof. apply keeps_for_each. auto. Qed.
Lemma create_all_immature_elements id outs : keeps_elements (create_all_immature id outs).
Proof. apply keeps_for_each. auto. Qed.
#[local] Hint Resolve create_all_elements create_all_immature_elements : core.
Lemma foundation_elements ms a b : elements_ok ms -> elements_ok (set_foundation ms a b (ms_cie ms)).
Proof. intros []. by split. Qed.

(** *** Transactions *)
Lemma keeps_find {A} (Q : A -> Prop) (r : MidState -> outcome A) (g : MidState -> A -> outcome MidState) :
  (forall ms x, elements_ok ms -> r ms = Ok x -> Q x) -> (forall x, Q x -> keeps_elements (fun ms => g ms x)) ->
  keeps_elements (fun ms => x ← r ms; g ms x).
Proof. intros Hr Hg ms ms' Hm H. ok_step H. eapply Hg; [by eapply Hr|done|done]. Qed.
Lemma find_ok {A} (P : A -> Prop) f l x : Forall P l -> List.find f l = Some x -> P x.
Proof. intros Hl [Hin _]%find_some. rewrite Forall_forall in Hl. by apply Hl, list_elem_of_In. Qed.

Section V1.
Context (ts : V1TransactionSupplement) (Hts : wf_V1TransactionSupplement ts).
Lemma siacoinElement_ok ms id o : elements_ok ms -> ms_siacoinElement ms ts id = Ok o -> forall e, o = Some e -> element_ok (sce_StateElement e).
Proof.
  intros [H1 _ _ _ _ _] H e ->. unfold ms_siacoinElement in H. destruct (ms_elements ms !! id) as [i|].
  - destruct (ms_sces ms !! i) eqn:Ei; [|done]. injection H as <-. by apply (Forall_lookup_1 _ _ _ _ H1 Ei).
  - injection H as H. destruct Hts as (Hs & _). apply (find_ok _ _ _ _ Hs) in H as [H _]. auto.
Qed.
Lemma siafundElement_ok ms id o : elements_ok ms -> ms_siafundElement ms ts id = Ok o -> forall e, o = Some e -> element_ok (sfe_StateElement e).
Proof.
  intros [_ H1 _ _ _ _] H e ->. unfold ms_siafundElement in H. destruct (ms_elements ms !! id) as [i|].
  - destruct (ms_sfes ms !! i) eqn:Ei; [|done]. injection H as <-. by apply (Forall_lookup_1 _ _ _ _ H1 Ei).
  - injection H as H. destruct Hts as (_ & Hs & _). apply (find_ok _ _ _ _ Hs) in H as [H _]. auto.
Qed.
Lemma fileContractElement_ok ms id o : elements_ok ms -> ms_fileContractElement ms ts id = Ok o -> forall e, o = Some e -> element_ok (fce_StateElement e).
Proof.
  intros [_ _ H1 _ _ _] H e ->. unfold ms_fileContractElement in H. destruct (ms_elements ms !! id) as [i|].
  - destruct (ms_fces ms !! i) as [d|] eqn:Ei; [|done]. apply (Forall_lookup_1 _ _ _ _ H1) in Ei. injection H as <-.
    unfold RevisionElement. by destruct (fced_Revision d).
  - destruct Hts as (_ & _ & Hs & Hp). injection H as H. destruct (List.find _ (ts_RevisedFileContracts ts)) as [x|] eqn:Ef.
    + injection H as <-. apply (find_ok _ _ _ _ Hs) in Ef as [Ef _]. auto.
    + destruct (List.find _ (ts_StorageProofs ts)) as [x|] eqn:Ex; [|done]. injection H as <-.
      apply (find_ok _ _ _ _ Hp) in Ex as [[Ex _] _]. auto.
Qed.

Lemma ApplyTransaction_elements txn : keeps_elements (fun ms => ApplyTransaction ms txn ts).
Proof.
  unfold ApplyTransaction.
  apply (keeps_bind (fun ms => for_each _ 0 ms _)).
  { apply keeps_for_each. intros j x _. apply (keeps_find (fun o => forall e, o = Some e -> element_ok (sce_StateElement e))); [intros ms o; apply siacoinElement_ok|]. intros [sce|] Hq; [|auto].
    apply spendSiacoin_elements. exact (Hq _ eq_refl). }
  apply (keeps_bind (create_all _ _)); [auto|].
  apply (keeps_bind (fun ms => for_each _ 0 ms _)).
  { apply keeps_for_each. intros j x _. apply (keeps_find (fun o => forall e, o = Some e -> element_ok (sfe_StateElement e))); [intros ms o; apply siafundElement_ok|]. intros [sfe|] Hq; [|auto].
    apply keeps_skip. intros portion. apply (keeps_bind (fun ms => spendSiafundElement ms _ _)); [|auto].
    apply spendSiafund_elements. exact (Hq _ eq_refl). }
  apply (keeps_bind (fun ms => for_each _ 0 ms _)); [apply keeps_for_each; auto|].
  apply (keeps_bind (fun ms => for_each _ 0 ms _)); [apply keeps_for_each; auto|].
  apply (keeps_bind (fun ms => for_each _ 0 ms _)).
  { apply keeps_for_each. intros j x _. apply (keeps_find (fun o => forall e, o = Some e -> element_ok (fce_StateElement e))); [intros ms o; apply fileContractElement_ok|]. intros [fce|] Hq; [|auto].
    apply reviseFileContract_elements. exact (Hq _ eq_refl). }
  apply (keeps_bind (fun ms => for_each _ 0 ms _)).
  { apply keeps_for_each. intros j x _. apply (keeps_find (fun o => forall e, o = Some e -> element_ok (fce_StateElement e))); [intros ms o; apply fileContractElement_ok|]. intros [fce|] Hq; [|auto].
    apply (keeps_bind (fun ms => resolveFileContractElement ms _ _ _)); [|auto]. apply resolveFileContract_elements. exact (Hq _ eq_refl). }
  intros ms ms' Hm H. destruct (_ <=? _); [|by injection H as <-]. injection H as <-.
  revert ms Hm. induction (tx_ArbitraryData txn) as [|arb l IH]; intros ms Hm; [done|]. cbn [foldl]. apply IH.
  destruct (has_prefix _ _); [|done]. by apply foundation_elements.
Qed.
End V1.

Lemma applyResolution_elements txid fcr : element_ok (v2fce_StateElement (res_Parent fcr)) -> keeps_elements (applyResolution txid fcr).
Proof.
  intros He ms ms' Hm H. unfold applyResolution in H. ok_step H.
  assert (elements_ok v) as Hv by (eapply resolveV2FileContract_elements; [|exact Hm|exact E]; done).
  destruct (match res_Resolution fcr with V2Renewal _ => _ | _ => _ end) as [[[ms2 ro] ho]| |] eqn:E2; [|done|done].
  cbn [mbind outcome_bind] in H.
  assert (elements_ok ms2) as H2.
  { destruct (res_Resolution fcr); [ok_step E2; injection E2 as <- _ _; by eapply createV2FileContract_elements| |];
      by injection E2 as <- _ _. }
  ok_step H. eapply createImmature_elements; [|exact H]. by eapply createImmature_elements.
Qed.

Lemma ApplyV2Transaction_elements txn : wf_V2Transaction txn -> keeps_elements (fun ms => ApplyV2Transaction ms txn).
Proof.
  intros (W1 & _ & W3 & _ & _ & W6 & W7 & _) ms0 ms' Hm. unfold ApplyV2Transaction.
  rewrite Forall_forall in W1. rewrite Forall_forall in W3. rewrite Forall_forall in W6. rewrite Forall_forall in W7.
  assert (elements_ok (if isQday (ms_base ms0) && is_canary_proof txn then set_qdayProved ms0 else ms0)) as Hm'
    by (destruct (_ && _); [|done]; destruct Hm; by split).
  revert Hm'. generalize (if isQday (ms_base ms0) && is_canary_proof txn then set_qdayProved ms0 else ms0). clear ms0 Hm.
  intros ms. revert ms ms'. apply (keeps_bind (fun ms => for_each _ 0 ms _)).
  { apply keeps_for_each. intros j x [[Hx _] _]%W1. apply spendSiacoin_elements. cbn. auto. }
  apply (keeps_bind (create_all _ _)); [auto|].
  apply (keeps_bind (fun ms => for_each _ 0 ms _)).
  { apply keeps_for_each. intros j x [[Hx _] _]%W3. apply (keeps_bind (fun ms => spendSiafundElement ms _ _)).
    - apply spendSiafund_elements. cbn. auto.
    - apply keeps_skip. auto. }
  apply (keeps_bind (fun ms => for_each _ 0 ms _)); [apply keeps_for_each; auto|].
  apply (keeps_bind (fun ms => for_each _ 0 ms _)); [apply keeps_for_each; auto|].
  apply (keeps_bind (fun ms => for_each _ 0 ms _)).
  { apply keeps_for_each. intros j x [[Hx _] _]%W6. apply reviseV2FileContract_elements. cbn. auto. }
  apply (keeps_bind (fun ms => for_each _ 0 ms _)).
  { apply keeps_for_each. intros j x [[Hx _] _]%W7. apply applyResolution_elements. auto. }
  apply (keeps_bind (fun ms => for_each _ 0 ms _)).
  { apply keeps_for_each. intros j x _ ms ms' [] H. injection H as <-. split; try done. cbn. apply Forall_app.
    split; [done|]. constructor; [cbn; auto|done]. }
  intros ms ms' Hm H. injection H as <-. destruct (v2tx_NewFoundationAddress txn) as [a|]; [|done]. by apply foundation_elements.
Qed.

Lemma MidState_ApplyBlock_elements b bs : Forall wf_V2Transaction (V2Transactions b) -> wf_V1BlockSupplement bs ->
  keeps_elements (fun ms => MidState_ApplyBlock ms b bs).
Proof.
  intros Hwf [Hb1 Hb2] ms0 ms0' Hm0. unfold MidState_ApplyBlock. destruct (_ && _); [done|]. revert ms0 ms0' Hm0.
  apply (keeps_bind (fun ms => for_each _ 0 ms _)).
  { apply keeps_for_each. intros j x _. destruct (bs_Transactions bs !! j) eqn:Ej; [|apply keeps_panic].
    apply ApplyTransaction_elements. by apply (Forall_lookup_1 _ _ _ _ Hb1 Ej). }
  apply (keeps_bind (fun ms => for_each _ 0 ms _)).
  { apply keeps_for_each. intros j x Hx. apply ApplyV2Transaction_elements. by eapply Forall_forall in Hwf. }
  apply (keeps_bind (create_all_immature _ _)); [auto|]. apply keeps_skip. intros subsidy.
  apply (keeps_bind (fun ms => match subsidy with Some sco => _ | None => _ end)); [destruct subsidy; auto|].
  apply (keeps_bind (fun ms => for_each _ 0 ms _)).
  { apply keeps_for_each. intros j x Hx ms ms' Hm H. destruct (ms_isSpent ms _); [by injection H as <-|]. ok_step H.
    rewrite Forall_forall in Hb2. apply Hb2 in Hx as [Hx _].
    eapply create_all_immature_elements; [|exact H]. eapply resolveFileContract_elements; [|exact Hm|exact E]. cbn. auto. }
  intros ms ms' [] H. injection H as <-. by split.
Qed.

(** *** Blocks *)
Lemma imap_leaves {A} (e : A -> StateElement) (f : nat -> A -> elementLeaf) (l : list A) :
  (forall i x, el_StateElement (f i x) = e x) -> Forall (fun x => element_ok (e x)) l -> Forall leaf_ok (imap f l).
Proof.
  intros Hf Hl. apply Forall_lookup. intros i y (x & Hi & ->)%list_lookup_imap_Some. unfold leaf_ok. rewrite Hf.
  by apply (Forall_lookup_1 _ _ _ _ Hl Hi).
Qed.
Lemma appliedLeaves_ok ms : elements_ok ms ->
  Forall leaf_ok (appliedLeaves (ms_sces ms) (ms_sfes ms) (ms_fces ms) (ms_v2fces ms) (ms_aes ms) (ms_cie ms)).
Proof.
  intros [H1 H2 H3 H4 H5 H6]. unfold appliedLeaves. rewrite !Forall_app.
  split_and!; [by eapply imap_leaves; [|exact H1]|by eapply imap_leaves; [|exact H2]|by eapply imap_leaves; [|exact H3]
    |by eapply imap_leaves; [|exact H4]|by eapply imap_leaves; [|exact H5]|by constructor].
Qed.
Lemma revertedLeaves_ok ms : elements_ok ms -> Forall leaf_ok (revertedLeaves (ms_sces ms) (ms_sfes ms) (ms_fces ms) (ms_v2fces ms)).
Proof.
  intros [H1 H2 H3 H4 H5 H6]. unfold revertedLeaves. rewrite !Forall_app.
  split_and!; [by eapply imap_leaves; [|exact H1]|by eapply imap_leaves; [|exact H2]|by eapply imap_leaves; [|exact H3]
    |by eapply imap_leaves; [|exact H4]].
Qed.
Lemma filter_leaves f ls : Forall leaf_ok ls -> Forall leaf_ok (List.filter f ls).
Proof.
  intros Hl. apply Forall_forall. intros l [Hin _]%list_elem_of_In%filter_In. rewrite Forall_forall in Hl. by apply Hl, list_elem_of_In.
Qed.

Lemma alter_ok {A} (P : A -> Prop) f i (l : list A) : (forall x, P x -> P (f x)) -> Forall P l -> Forall P (alter f i l).
Proof. intros Hf Hl. apply Forall_alter; [done|]. intros x _. apply Hf. Qed.
Lemma write_back_elements ms l : leaf_ok l -> elements_ok ms -> elements_ok (write_back ms l).
Proof.
  intros Hl [H1 H2 H3 H4 H5 H6]. unfold write_back. destruct (el_ref l); split; try done; cbn; by apply alter_ok.
Qed.
Lemma write_all_elements ls : forall ms, Forall leaf_ok ls -> elements_ok ms -> elements_ok (foldl write_back ms ls).
Proof.
  induction ls as [|l ls IH]; intros ms Hl Hm; [done|]. apply Forall_cons in Hl as [H Hl]. cbn [foldl]. by apply IH, write_back_elements.
Qed.
Lemma new_elements s : elements_ok (NewMidState s).
Proof. split; try constructor; try constructor; by vm_compute. Qed.

Lemma ApplyBlock_proofs s b bs t s' au : wf_Accumulator (s_Elements s) -> Forall wf_V2Transaction (V2Transactions b) ->
  wf_V1BlockSupplement bs -> ApplyBlock s b bs t = Ok (s', au) ->
  apply_ok (au_eau au) /\ Forall (fun d => element_ok (sce_StateElement (sced_SiacoinElement d))) (au_sces au) /\
  Forall (fun d => element_ok (sfe_StateElement (sfed_SiafundElement d))) (au_sfes au).
Proof.
  intros Ha Hb Hbs H. unfold ApplyBlock in H. destruct (_ && _); [done|]. ok_step H. rename v into ms.
  assert (elements_ok ms) as Hm by (by eapply MidState_ApplyBlock_elements; [exact Hb|exact Hbs|apply new_elements|exact E]).
  pose proof (appliedLeaves_ok ms Hm) as Hl.
  match type of H with (?e ≫= _) = _ => destruct e as [[[acc eau] added]| |] eqn:Ea; [|done|done] end. cbn [mbind outcome_bind] in H.
  destruct (applyBlock_ok _ _ _ _ _ _ Ha (filter_leaves _ _ Hl) (filter_leaves _ _ Hl) Ea) as [He Hadd].
  ok_step H. injection H as _ <-. cbn. split; [exact He|].
  assert (elements_ok (foldl write_back ms (concat (eau_updated eau) ++ added))) as [H1 H2 _ _ _ _]; [|by split].
  apply write_all_elements; [|done]. apply Forall_app. split; [|done]. apply Forall_concat, He.
Qed.
Lemma RevertBlock_proofs s b bs ru : Forall wf_V2Transaction (V2Transactions b) -> wf_V1BlockSupplement bs ->
  RevertBlock s b bs = Ok ru -> Forall (Forall leaf_ok) (eru_updated (ru_eru ru)).
Proof.
  intros Hb Hbs H. unfold RevertBlock in H. destruct (negb _); [done|]. ok_step H. rename v into ms.
  assert (elements_ok ms) as Hm by (by eapply MidState_ApplyBlock_elements; [exact Hb|exact Hbs|apply new_elements|exact E]).
  pose proof (revertedLeaves_ok ms Hm) as Hl.
  match type of H with (?e ≫= _) = _ => destruct e as [[eru added]| |] eqn:Ea; [|done|done] end. cbn [mbind outcome_bind] in H.
  injection H as <-. by eapply revertBlock_ok; [| |exact Ea]; apply filter_leaves.
Qed.
End Elements.
