(* ===== verification/ChainStore.v ===== *)
(** * [coreutils/chain/manager.go]: the store interface and reorganisation paths

    [Store] is the interface the chain manager is written against.  Reads and writes return
    an [outcome]: implementations handle I/O errors internally by panicking.  An absent value
    is [None]. *)
From stdpp Require Import prelude strings gmap.
From Stdlib Require Import ZArith Lia.
From S2P Require Import Prelude TypesCurrency TypesData TypesEncoding TypesHash.
From S2P Require Import ConsensusState ConsensusApply.

(** An error value; [None] is [nil]. *)
Abbreviation error := (option string).

Class Store (St : Type) := {
  st_BestIndex : St -> Z -> outcome (option ChainIndex);
  st_SupplementTipTransaction : St -> Transaction -> outcome V1TransactionSupplement;
  st_SupplementTipBlock : St -> Block -> outcome V1BlockSupplement;
  st_Block : St -> BlockID -> outcome (option (Block * option V1BlockSupplement));
  st_Header : St -> BlockID -> outcome (option BlockHeader);
  st_AddBlock : St -> Block -> option V1BlockSupplement -> outcome St;
  st_PruneBlock : St -> BlockID -> outcome St;
  st_State : St -> BlockID -> outcome (option State);
  st_AddState : St -> State -> outcome St;
  st_AncestorTimestamp : St -> BlockID -> outcome (option Time);
  st_ApplyBlock : St -> State -> ApplyUpdate -> outcome St;
  st_RevertBlock : St -> State -> RevertUpdate -> outcome St;
  st_Flush : St -> outcome (St * error) }.

Definition ErrMissingBlock : string := "missing block at index".
Definition ErrFutureBlock : string := "block's timestamp is too far in the future".

Definition zeroIndex : ChainIndex := {| ci_Height := 0; ci_ID := zeroHash |}.
Definition zeroBlock : Block :=
  {| b_ParentID := zeroHash; b_Nonce := 0; b_Timestamp := 0; b_MinerPayouts := [];
     b_Transactions := []; b_V2 := None |}.

(** The loops whose length depends on the stored blocks run on fuel. *)
Definition out_of_fuel {A} : outcome A := Panic "out of fuel".

Definition nil_dereference {A} : outcome A := Panic "invalid memory address or nil pointer dereference".

Section Store.
Context {St : Type} {store : Store St}.

Definition blockAndParent (s : St) (id : BlockID)
    : outcome (option (Block * option V1BlockSupplement * State)) :=
  r ← st_Block s id;
  cs ← st_State s (b_ParentID (match r with Some (b, _) => b | None => zeroBlock end));
  Ok (match r, cs with Some (b, bs), Some cs => Some (b, bs, cs) | _, _ => None end).

(** ** [reorgPath]

    [rewind] with the length of the two paths so far. *)
Definition rewind (s : St) (maxLen : Z) (pathLen : nat) (index : ChainIndex) : outcome ChainIndex :=
  if maxLen <? Z.of_nat pathLen then Err "reorg path is too long" else
  bh ← st_Header s (ci_ID index);
  match bh with
  | None => Err ErrMissingBlock
  | Some bh => Ok {| ci_Height := u64 (ci_Height index - 1); ci_ID := bh_ParentID bh |}
  end.

(** [for a.Height > height { path = append(path, a); rewind(&a) }]; [other] is the length of
    the other path. *)
Fixpoint rewind_above (fuel : nat) (s : St) (maxLen : Z) (other : nat) (height : Z) (a : ChainIndex)
    (path : list ChainIndex) : outcome (ChainIndex * list ChainIndex) :=
  if height <? ci_Height a then
    match fuel with
    | O => out_of_fuel
    | S fuel' =>
        let path := path ++ [a] in
        a ← rewind s maxLen (other + length path) a;
        rewind_above fuel' s maxLen other height a path
    end
  else Ok (a, path).

(** [for a != b { ... }] *)
Fixpoint rewind_both (fuel : nat) (s : St) (maxLen : Z) (a b : ChainIndex)
    (revert apply : list ChainIndex) : outcome (list ChainIndex * list ChainIndex) :=
  if bool_decide (a = b) then Ok (revert, apply)
  else
    match fuel with
    | O => out_of_fuel
    | S fuel' =>
        let revert := revert ++ [a] in
        let apply := apply ++ [b] in
        a ← rewind s maxLen (length revert + length apply) a;
        b ← rewind s maxLen (length revert + length apply) b;
        rewind_both fuel' s maxLen a b revert apply
    end.

(** The fuel of the last loop is a parameter here; [reorgPath] uses one step per height. *)
Definition reorgPath_fuel (fuel : nat) (s : St) (a b : ChainIndex) (maxLen : Z)
    : outcome (list ChainIndex * list ChainIndex) :=
  '(a, revert) ← rewind_above (Z.to_nat (ci_Height a - ci_Height b)) s maxLen 0 (ci_Height b) a [];
  '(b, apply) ← rewind_above (Z.to_nat (ci_Height b - ci_Height a)) s maxLen (length revert)
                  (ci_Height a) b [];
  '(a, apply) ← (if bool_decide (a = zeroIndex) then
                   g ← st_BestIndex s 0; let a := default zeroIndex g in Ok (a, apply ++ [a])
                 else Ok (a, apply));
  '(revert, apply) ← rewind_both fuel s maxLen a b revert apply;
  Ok (revert, rev apply).

Definition reorgPath (s : St) (a b : ChainIndex) (maxLen : Z)
    : outcome (list ChainIndex * list ChainIndex) :=
  reorgPath_fuel (S (S (Z.to_nat (Z.min (ci_Height a) (ci_Height b))))) s a b maxLen.
End Store.

(** ** Expiring contracts

    [m.expiringFileContractOrder] maps block IDs to the order of the contracts that expire. *)
Definition overwriteExpirations (order : idmap (list FileContractID)) (bid : BlockID)
    (bs : V1BlockSupplement) : outcome V1BlockSupplement :=
  match order !! bid with
  | None => Ok bs
  | Some order =>
      if negb (length (bs_ExpiringFileContracts bs) =? length order)%nat
      then Err "expiring file contract order length mismatch" else
      let elements : idmap FileContractElement :=
        foldl (fun m fce => <[fce_ID fce := fce]> m) ∅ (bs_ExpiringFileContracts bs) in
      fces ← for_each order 0 [] (fun _ fcID acc =>
               match elements !! fcID with
               | Some fce => Ok (acc ++ [fce])
               | None => Err "missing expiring file contract"
               end);
      Ok {| bs_Transactions := bs_Transactions bs; bs_ExpiringFileContracts := fces |}
  end.
