(* ===== verification/ChainDB.v ===== *)
(** * [coreutils/chain/db.go]: key-value databases

    The interface [DB], the database in memory and the write cache.  A bucket is a handle
    (its name and the database), so its methods take the state of the database and the name.
    Values are the non-nil byte strings; a nil value is an absent one.  Maps are iterated in
    an order of their own, as in Go. *)
From stdpp Require Import prelude strings gmap sorting.
From Stdlib Require Import ZArith Lia.
From S2P Require Import Prelude.

Abbreviation bucketMap := (gmap string (gmap bytes bytes)).

Class DB (D : Type) := {
  (* the database after the call (a cache prepares its own bucket) and whether there is one *)
  db_Bucket : D -> string -> D * bool;
  db_CreateBucket : D -> string -> outcome D;
  db_Flush : D -> outcome D;
  db_Cancel : D -> D;
  (* DBBucket *)
  db_Get : D -> string -> bytes -> option bytes;
  db_Put : D -> string -> bytes -> bytes -> outcome D;
  db_Delete : D -> string -> bytes -> outcome D;
  db_Iter : D -> string -> list (bytes * bytes) }.

(** ** [MemDB] *)
Module MemDB.
Record t := mk { buckets : bucketMap; puts : bucketMap; dels : gmap string (gset bytes) }.

Definition NewMemDB : t := mk ∅ ∅ ∅.

(** [m[bucket][key]] on a map that may be nil. *)
Definition lookup2 (m : bucketMap) (bucket : string) (key : bytes) : option bytes :=
  m !! bucket ≫= (fun b => b !! key).
Definition is_del (db : t) (bucket : string) (key : bytes) : bool :=
  match dels db !! bucket with Some s => bool_decide (key ∈ s) | None => false end.

(** Both loops of [Flush] work on every bucket separately. *)
Definition flush_puts (bs ps : bucketMap) : bucketMap :=
  merge (fun b p => match p with Some p => Some (p ∪ default ∅ b) | None => b end) bs ps.
Definition remove_keys (s : gset bytes) (b : gmap bytes bytes) : gmap bytes bytes :=
  set_fold delete b s.
Definition flush_dels (bs : bucketMap) (ds : gmap string (gset bytes)) : bucketMap :=
  merge (fun b d => match d with Some d => Some (remove_keys d (default ∅ b)) | None => b end) bs ds.
Definition Flush (db : t) : t := mk (flush_dels (flush_puts (buckets db) (puts db)) (dels db)) ∅ ∅.

Definition Cancel (db : t) : t := mk (buckets db) ∅ ∅.

Definition get (db : t) (bucket : string) (key : bytes) : option bytes :=
  match lookup2 (puts db) bucket key with
  | Some val => Some val
  | None => if is_del db bucket key then None else lookup2 (buckets db) bucket key
  end.

Definition put (db : t) (bucket : string) (key value : bytes) : outcome t :=
  match puts db !! bucket, buckets db !! bucket with
  | None, None => Err "bucket does not exist"
  | p, _ => Ok (mk (buckets db) (<[bucket := <[key := value]> (default ∅ p)]> (puts db))
                   (alter (fun s => s ∖ {[key]}) bucket (dels db)))
  end.

Definition delete (db : t) (bucket : string) (key : bytes) : outcome t :=
  match dels db !! bucket, buckets db !! bucket with
  | None, None => Err "bucket does not exist"
  | d, _ => Ok (mk (buckets db) (alter (base.delete key) bucket (puts db))
                   (<[bucket := {[key]} ∪ default ∅ d]> (dels db)))
  end.

Definition Bucket (db : t) (name : string) : bool :=
  negb (bool_decide (buckets db !! name = None) && bool_decide (puts db !! name = None) &&
        bool_decide (dels db !! name = None)).

Definition CreateBucket (db : t) (name : string) : outcome t :=
  match buckets db !! name with
  | Some _ => Err "bucket already exists"
  | None => Ok (mk (buckets db) (<[name := ∅]> (puts db)) (<[name := ∅]> (dels db)))
  end.

(** The committed keys with the pending changes; keys that are only pending are not visited. *)
Definition Iter (db : t) (bucket : string) : list (bytes * bytes) :=
  omap (fun kv => match lookup2 (puts db) bucket kv.1 with
                  | Some pval => Some (kv.1, pval)
                  | None => if is_del db bucket kv.1 then None else Some kv
                  end) (map_to_list (default ∅ (buckets db !! bucket))).
End MemDB.

#[export] Instance memDB : DB MemDB.t := {|
  db_Bucket db name := (db, MemDB.Bucket db name); db_CreateBucket := MemDB.CreateBucket;
  db_Flush db := Ok (MemDB.Flush db); db_Cancel := MemDB.Cancel; db_Get := MemDB.get;
  db_Put := MemDB.put; db_Delete := MemDB.delete; db_Iter := MemDB.Iter |}.

(** ** [CacheDB] *)

(** Ascending keys, [bytes.Compare(kvs[i][0], kvs[j][0]) < 0]. *)
Definition kv_le (x y : bytes * bytes) : Prop := bytes_compare x.1 y.1 <= 0.
#[export] Instance kv_le_dec : RelDecision kv_le.
Proof. intros x y. unfold kv_le. apply _. Defined.

Module CacheDB.
Section CacheDB.
Context {D : Type} {db : DB D}.

Record t := mk { mem : MemDB.t; inner : D; kvs : gmap string (list (bytes * bytes)) }.

Definition NewCacheDB (d : D) : t := mk MemDB.NewMemDB d ∅.

Definition Bucket (c : t) (name : string) : t * bool :=
  let '(d, ok) := db_Bucket (inner c) name in
  if ok then
    if MemDB.Bucket (mem c) name then (mk (mem c) d (kvs c), true)
    else match MemDB.CreateBucket (mem c) name with
         | Ok m => (mk m d (kvs c), true)
         | _ => (mk (mem c) d (kvs c), true)
         end
  else (mk (mem c) d (kvs c), false).

Definition CreateBucket (c : t) (name : string) : outcome t :=
  d ← db_CreateBucket (inner c) name;
  m ← MemDB.CreateBucket (mem c) name;
  Ok (mk m d (kvs c)).

(** [cacheBucket] *)
Definition Get (c : t) (name : string) (key : bytes) : option bytes :=
  match MemDB.get (mem c) name key with
  | Some val => Some val
  | None => db_Get (inner c) name key
  end.
Definition Put (c : t) (name : string) (key value : bytes) : outcome t :=
  m ← MemDB.put (mem c) name key value; Ok (mk m (inner c) (kvs c)).
Definition Delete (c : t) (name : string) (key : bytes) : outcome t :=
  m ← MemDB.delete (mem c) name key; Ok (mk m (inner c) (kvs c)).
Definition Iter (c : t) (name : string) : list (bytes * bytes) :=
  MemDB.Iter (mem c) name ++
  List.filter (fun kv => negb (bool_decide (is_Some (MemDB.lookup2 (MemDB.puts (mem c)) name kv.1)) ||
                               MemDB.is_del (mem c) name kv.1)) (db_Iter (inner c) name).

(** The pending writes that are not deleted, and the pending deletions, appended to [kvs]. *)
Definition gather_puts (m : MemDB.t) (kvs : gmap string (list (bytes * bytes)))
    : gmap string (list (bytes * bytes)) :=
  merge (fun old p => match p with
                      | Some kvs' => Some (default [] old ++ kvs')
                      | None => old
                      end) kvs
    (map_imap (fun name puts =>
       Some (List.filter (fun kv => negb (MemDB.is_del m name kv.1)) (map_to_list puts))) (MemDB.puts m)).
Definition gather_dels (m : MemDB.t) (kvs : gmap string (list (bytes * bytes)))
    : gmap string (list (bytes * bytes)) :=
  merge (fun old p => match p with
                      | Some keys => Some (default [] old ++ map (fun key => (key, [])) (elements (keys : gset bytes)))
                      | None => old
                      end) kvs (MemDB.dels m).

(** One bucket of the underlying database, its writes in the order of the keys.  Errors of the
    calls are dropped; calling a method of a bucket that does not exist panics. *)
Definition ignore_err {A} (x : A) (r : outcome A) : outcome A :=
  match r with Err _ => Ok x | r => r end.
Definition flush_bucket (op : D -> bytes -> bytes -> outcome D) (d : D) (name : string)
    (l : list (bytes * bytes)) : outcome D :=
  let '(d, ok) := db_Bucket d name in
  for_each (merge_sort kv_le l) 0 d (fun _ kv d =>
    if ok : bool then ignore_err d (op d kv.1 kv.2) else Panic "nil pointer dereference").
Definition flush_all (op : D -> string -> bytes -> bytes -> outcome D) (d : D)
    (kvs : gmap string (list (bytes * bytes))) : outcome D :=
  for_each (map_to_list kvs) 0 d (fun _ b d => flush_bucket (fun d => op d b.1) d b.1 b.2).

Definition Flush (c : t) : outcome t :=
  let puts := gather_puts (mem c) (kvs c) in
  d ← flush_all db_Put (inner c) puts;
  let cleared := (fun _ => []) <$> puts in
  let dels := gather_dels (mem c) cleared in
  d ← flush_all (fun d name key _ => db_Delete d name key) d dels;
  let m := MemDB.mk ((fun _ => ∅) <$> MemDB.buckets (mem c)) ((fun _ => ∅) <$> MemDB.puts (mem c))
             ((fun _ => ∅) <$> MemDB.dels (mem c)) in
  d ← db_Flush d;
  Ok (mk m d ((fun _ => []) <$> dels)).

Definition Cancel (c : t) : t := mk (MemDB.Cancel (mem c)) (db_Cancel (inner c)) (kvs c).
End CacheDB.
Arguments t : clear implicits.
End CacheDB.

#[export] Instance cacheDB {D} {db : DB D} : DB (CacheDB.t D) := {|
  db_Bucket := CacheDB.Bucket; db_CreateBucket := CacheDB.CreateBucket;
  db_Flush := CacheDB.Flush; db_Cancel := CacheDB.Cancel; db_Get := CacheDB.Get;
  db_Put := CacheDB.Put; db_Delete := CacheDB.Delete; db_Iter := CacheDB.Iter |}.
