(* ===== verification/ChainDBSpec.v ===== *)
(** * Databases as transactions

    [TDB] is what [DB] promises: the committed buckets and the working copy that [Flush]
    commits and [Cancel] drops.  It is itself an instance of the interface, and [DBSpec] is
    the contract that ties an implementation to it.  [MemDB] satisfies it; [CacheDB] does as
    long as deleted keys are not read before the next flush. *)
From stdpp Require Import prelude strings gmap sorting.
From Stdlib Require Import ZArith Lia.
From S2P Require Import Prelude ChainDB.

(** ** The specification *)
Record TDB := mkT { committed : bucketMap; working : bucketMap }.

Definition t_lookup (m : bucketMap) (name : string) (key : bytes) : option bytes :=
  m !! name ≫= (fun b => b !! key).

Definition t_Put (t : TDB) (name : string) (key value : bytes) : TDB :=
  mkT (committed t) (alter (<[key := value]>) name (working t)).
Definition t_Delete (t : TDB) (name : string) (key : bytes) : TDB :=
  mkT (committed t) (alter (delete key) name (working t)).
Definition t_CreateBucket (t : TDB) (name : string) : TDB :=
  mkT (committed t) (<[name := ∅]> (working t)).
Definition t_Flush (t : TDB) : TDB := mkT (working t) (working t).
Definition t_Cancel (t : TDB) : TDB := mkT (committed t) (committed t).

(** What [Iter] visits: the keys of the committed bucket that are still there, with their
    working values.  Keys that are only pending are not visited. *)
Definition t_Iter (t : TDB) (name : string) : gmap bytes bytes :=
  filter (fun kv => is_Some (t_lookup (committed t) name kv.1)) (default ∅ (working t !! name)).

Definition no_bucket {A} : outcome A := Err "bucket does not exist".
Definition bucket_exists {A} : outcome A := Err "bucket already exists".

#[export] Instance transactionDB : DB TDB := {|
  db_Bucket t name := (t, bool_decide (is_Some (working t !! name)));
  db_CreateBucket t name := match committed t !! name with
                            | Some _ => bucket_exists
                            | None => Ok (t_CreateBucket t name)
                            end;
  db_Flush t := Ok (t_Flush t); db_Cancel := t_Cancel;
  db_Get t := t_lookup (working t);
  db_Put t name key value := if decide (is_Some (working t !! name)) then Ok (t_Put t name key value) else no_bucket;
  db_Delete t name key := if decide (is_Some (working t !! name)) then Ok (t_Delete t name key) else no_bucket;
  db_Iter t name := map_to_list (t_Iter t name) |}.

(** Outcomes related by [R] on their values, with equal errors. *)
Definition out_rel {A B} (R : A -> B -> Prop) (x : outcome A) (y : outcome B) : Prop :=
  match x, y with
  | Ok a, Ok b => R a b
  | Err e, Err e' => e = e'
  | _, _ => False
  end.

(** The order in which [Iter] visits the keys is not specified; a bucket without pending
    changes is visited entirely. *)
Class DBSpec (D : Type) {db : DB D} := {
  db_rep : D -> TDB -> Prop;
  rep_Bucket : forall d t name, db_rep d t ->
    db_rep (db_Bucket d name).1 t /\ (db_Bucket d name).2 = bool_decide (is_Some (working t !! name));
  rep_CreateBucket : forall d t name, db_rep d t ->
    out_rel db_rep (db_CreateBucket d name) (db_CreateBucket t name);
  rep_DBFlush : forall d t, db_rep d t -> out_rel db_rep (db_Flush d) (db_Flush t);
  rep_Cancel : forall d t, db_rep d t -> db_rep (db_Cancel d) (db_Cancel t);
  rep_Get : forall d t name key, db_rep d t -> db_Get d name key = t_lookup (working t) name key;
  rep_Put : forall d t name key value, db_rep d t ->
    out_rel db_rep (db_Put d name key value) (db_Put t name key value);
  rep_Delete : forall d t name key, db_rep d t ->
    out_rel db_rep (db_Delete d name key) (db_Delete t name key);
  rep_Iter : forall d t name, db_rep d t -> committed t !! name = working t !! name ->
    db_Iter d name ≡ₚ map_to_list (default ∅ (working t !! name)) }.

(** A bucket without pending changes. *)
Lemma t_Iter_clean t name : committed t !! name = working t !! name -> t_Iter t name = default ∅ (working t !! name).
Proof.
  intros E. unfold t_Iter, t_lookup. rewrite E. apply map_filter_id. intros k v H. cbn.
  destruct (working t !! name) as [b|]; cbn in *; [by eexists|done].
Qed.

#[export] Instance transaction_spec : DBSpec TDB.
Proof.
  refine {| db_rep := eq |}; try (intros; subst; done).
  - intros d t name ->. cbn. by destruct (committed t !! name).
  - intros d t name key value ->. cbn. by destruct (decide _).
  - intros d t name key ->. cbn. by destruct (decide _).
  - intros d t name -> E. cbn. by rewrite t_Iter_clean.
Defined.

(** ** [MemDB] is a transaction *)
Module MemSpec.
Import MemDB.

Lemma remove_keys_spec s b k : (k ∈ s -> remove_keys s b !! k = None) /\ ((k ∉ s) -> remove_keys s b !! k = b !! k).
Proof.
  unfold remove_keys. revert k.
  apply (set_fold_ind_L (fun r X => forall k, (k ∈ X -> r !! k = None) /\ ((k ∉ X) -> r !! k = b !! k))).
  - intros k. split; [|done]. intros Hk. by apply elem_of_empty in Hk.
  - intros x X r Hx IH k. rewrite elem_of_union, elem_of_singleton. destruct (decide (k = x)) as [->|Hne].
    + rewrite lookup_delete_eq. split; [done|]. intros Hk. destruct Hk. by left.
    + rewrite lookup_delete_ne by done. split; intros Hk; apply (IH k); tauto.
Qed.
Lemma lookup_remove_keys s b k : remove_keys s b !! k = if decide (k ∈ s) then None else b !! k.
Proof. destruct (remove_keys_spec s b k). destruct (decide _); auto. Qed.

(** The bucket after a flush, from its committed, pending and deleted parts. *)
Definition view_bucket (b p : option (gmap bytes bytes)) (d : option (gset bytes)) : option (gmap bytes bytes) :=
  let x := match p with Some p => Some (p ∪ default ∅ b) | None => b end in
  match d with Some d => Some (remove_keys d (default ∅ x)) | None => x end.

Lemma lookup_Flush db name :
  buckets (Flush db) !! name = view_bucket (buckets db !! name) (puts db !! name) (dels db !! name).
Proof.
  unfold Flush, flush_dels, flush_puts, view_bucket. cbn [buckets]. rewrite !lookup_merge.
  by destruct (buckets db !! name), (puts db !! name), (dels db !! name).
Qed.

(** Pending buckets come in pairs unless they are committed, and no key is both pending and
    deleted. *)
Record inv (db : t) : Prop := {
  inv_dels : forall name, is_Some (dels db !! name) -> is_Some (puts db !! name) \/ is_Some (buckets db !! name);
  inv_puts : forall name, is_Some (puts db !! name) -> is_Some (dels db !! name) \/ is_Some (buckets db !! name);
  inv_disjoint : forall name p d k, puts db !! name = Some p -> dels db !! name = Some d -> k ∈ d -> p !! k = None }.

Definition rep (db : t) (s : TDB) : Prop := s = mkT (buckets db) (buckets (Flush db)) /\ inv db.

Lemma Bucket_view db name : Bucket db name = bool_decide (is_Some (buckets (Flush db) !! name)).
Proof.
  rewrite lookup_Flush. unfold Bucket, view_bucket.
  by destruct (buckets db !! name), (puts db !! name), (dels db !! name).
Qed.

Lemma view_key b p d k : (forall p' d', p = Some p' -> d = Some d' -> k ∈ d' -> p' !! k = None) ->
  (view_bucket b p d ≫= (fun x => x !! k)) =
  match p ≫= (fun x => x !! k) with
  | Some v => Some v
  | None => if match d with Some s => bool_decide (k ∈ s) | None => false end then None else b ≫= (fun x => x !! k)
  end.
Proof.
  intros Hd. unfold view_bucket.
  assert ((match p with Some p => Some (p ∪ default ∅ b) | None => b end ≫= (fun x => x !! k)) =
          match p ≫= (fun x => x !! k) with Some v => Some v | None => b ≫= (fun x => x !! k) end) as E.
  { destruct p as [p|]; [|done]. cbn. rewrite lookup_union. destruct b as [b|]; cbn; [by destruct (p !! k), (b !! k)|]. rewrite lookup_empty. by destruct (p !! k). }
  destruct d as [d|]; [|exact E]. cbn. rewrite lookup_remove_keys. case_bool_decide; [rewrite decide_True by done|rewrite decide_False by done].
  - destruct p as [p|]; [|done]. cbn. by rewrite (Hd p d).
  - rewrite <- E. by destruct p, b.
Qed.

Lemma get_view db name key : inv db -> get db name key = t_lookup (buckets (Flush db)) name key.
Proof.
  intros Hi. unfold t_lookup. rewrite lookup_Flush, view_key; [done|]. intros p d Hp Hd. by eapply inv_disjoint.
Qed.

(** Two databases with the same committed buckets and the same view of each bucket. *)
Lemma rep_intro db s : buckets db = committed s ->
  (forall name, view_bucket (buckets db !! name) (puts db !! name) (dels db !! name) = working s !! name) ->
  inv db -> rep db s.
Proof.
  intros Hc Hw Hi. split; [|done]. destruct s as [c w]. cbn [committed working] in *. subst c. f_equal. apply map_eq. intros name.
  by rewrite lookup_Flush, Hw.
Qed.

Lemma rep_committed db s : rep db s -> committed s = buckets db.
Proof. by intros [-> _]. Qed.
Lemma rep_working db s name : rep db s ->
  working s !! name = view_bucket (buckets db !! name) (puts db !! name) (dels db !! name).
Proof. intros [-> _]. apply lookup_Flush. Qed.

Lemma pending_puts db name : inv db -> Bucket db name = true -> puts db !! name = None -> is_Some (buckets db !! name).
Proof.
  intros Hi Hb Hp. unfold Bucket in Hb. destruct (buckets db !! name) as [b|] eqn:Eb; [by eexists|]. exfalso.
  rewrite Hp in Hb. destruct (dels db !! name) as [d|] eqn:Ed; [|done].
  destruct (inv_dels _ Hi name) as [[? H]|[? H]]; [by rewrite Ed|congruence|congruence].
Qed.
Lemma pending_dels db name : inv db -> Bucket db name = true -> dels db !! name = None -> is_Some (buckets db !! name).
Proof.
  intros Hi Hb Hd. unfold Bucket in Hb. destruct (buckets db !! name) as [b|] eqn:Eb; [by eexists|]. exfalso.
  rewrite Hd in Hb. destruct (puts db !! name) as [p|] eqn:Ep; [|done].
  destruct (inv_puts _ Hi name) as [[? H]|[? H]]; [by rewrite Ep|congruence|congruence].
Qed.

(** The shapes of [put] and [delete]. *)
Lemma put_eq db name key value : inv db ->
  put db name key value =
  if Bucket db name then
    Ok (mk (buckets db) (<[name := <[key := value]> (default ∅ (puts db !! name))]> (puts db))
           (alter (fun s => s ∖ {[key]}) name (dels db)))
  else no_bucket.
Proof.
  intros Hi. unfold put. destruct (Bucket db name) eqn:Eb.
  - destruct (puts db !! name) as [p|] eqn:Ep; [done|]. by destruct (pending_puts db name Hi Eb Ep) as [b ->].
  - unfold Bucket in Eb. by destruct (puts db !! name), (buckets db !! name), (dels db !! name).
Qed.
Lemma delete_eq db name key : inv db ->
  delete db name key =
  if Bucket db name then
    Ok (mk (buckets db) (alter (base.delete key) name (puts db))
           (<[name := {[key]} ∪ default ∅ (dels db !! name)]> (dels db)))
  else no_bucket.
Proof.
  intros Hi. unfold delete. destruct (Bucket db name) eqn:Eb.
  - destruct (dels db !! name) as [p|] eqn:Ep; [done|]. by destruct (pending_dels db name Hi Eb Ep) as [b ->].
  - unfold Bucket in Eb. by destruct (puts db !! name), (buckets db !! name), (dels db !! name).
Qed.

(** The view of a bucket after a write and after a deletion. *)
Lemma view_put b p d k v : view_bucket b (Some (<[k := v]> (default ∅ p))) ((fun s => s ∖ {[k]}) <$> d) =
  Some (<[k := v]> (default ∅ (view_bucket b p d))).
Proof.
  unfold view_bucket. destruct d as [d|]; cbn; f_equal; apply map_eq; intros k'.
  - rewrite lookup_remove_keys. destruct (decide (k' = k)) as [->|Hne].
    + rewrite decide_False by set_solver. by rewrite lookup_union, !lookup_insert_eq; destruct (default ∅ b !! k).
    + rewrite (lookup_insert_ne _ k k') by done. rewrite lookup_remove_keys, lookup_union, lookup_insert_ne by done.
      destruct (decide (k' ∈ d)); [by rewrite decide_True by set_solver|rewrite decide_False by set_solver].
      destruct p as [p|]; cbn; [by rewrite lookup_union|]. rewrite lookup_empty. by destruct (default ∅ b !! k').
  - destruct (decide (k' = k)) as [->|Hne].
    + by rewrite lookup_union, !lookup_insert_eq; destruct (default ∅ b !! k).
    + rewrite lookup_union, !lookup_insert_ne by done. destruct p as [p|]; cbn; [by rewrite lookup_union|].
      rewrite lookup_empty. by destruct (default ∅ b !! k').
Qed.
Lemma view_delete b p d k : view_bucket b (base.delete k <$> p) (Some ({[k]} ∪ default ∅ d)) =
  Some (base.delete k (default ∅ (view_bucket b p d))).
Proof.
  unfold view_bucket. cbn. f_equal. apply map_eq. intros k'. rewrite lookup_remove_keys.
  destruct (decide (k' = k)) as [->|Hne]; [by rewrite decide_True by set_solver; rewrite lookup_delete_eq|].
  rewrite lookup_delete_ne by done. destruct d as [d|]; cbn.
  - rewrite lookup_remove_keys. destruct (decide (k' ∈ d)); [by rewrite decide_True by set_solver|rewrite decide_False by set_solver].
    destruct p as [p|]; cbn; [by rewrite !lookup_union, lookup_delete_ne|done].
  - rewrite decide_False by set_solver. destruct p as [p|]; cbn; [by rewrite !lookup_union, lookup_delete_ne|done].
Qed.

Lemma view_Some b p d : is_Some b \/ is_Some p \/ is_Some d -> is_Some (view_bucket b p d).
Proof. unfold view_bucket. destruct b, p, d; cbn; intros H; try by eexists. by destruct H as [[??]|[[??]|[??]]]. Qed.

Lemma rep_clean bs : rep (mk bs ∅ ∅) (mkT bs bs).
Proof.
  apply rep_intro; [done|done|]. split; intros name; rewrite ?lookup_empty; [by intros [? ?]|by intros [? ?]|done].
Qed.
Lemma rep_flushed db : rep (Flush db) (mkT (buckets (Flush db)) (buckets (Flush db))).
Proof. apply rep_clean. Qed.
Lemma rep_cancelled db : rep (Cancel db) (mkT (buckets db) (buckets db)).
Proof. apply rep_clean. Qed.

Lemma rep_CreateBucket db s name : rep db s -> out_rel rep (CreateBucket db name) (db_CreateBucket s name).
Proof.
  intros Hr. pose proof (proj2 Hr) as Hi. unfold CreateBucket. cbn [db_CreateBucket transactionDB].
  rewrite (rep_committed _ _ Hr). destruct (buckets db !! name) as [b|] eqn:Eb; [done|]. cbn. apply rep_intro; cbn.
  - by rewrite (rep_committed _ _ Hr).
  - intros n. destruct (decide (n = name)) as [->|Hne].
    + rewrite !lookup_insert_eq, Eb. unfold view_bucket. cbn. f_equal.
    + by rewrite !lookup_insert_ne, (rep_working _ _ _ Hr).
  - split; cbn; intros n; (destruct (decide (n = name)) as [->|Hne];
      [rewrite !lookup_insert_eq|rewrite !lookup_insert_ne by done]); eauto using inv_dels, inv_puts.
    + intros p d k [= <-] [= <-]. set_solver.
    + apply (inv_disjoint _ Hi).
Qed.

Lemma rep_put db s name key value : rep db s -> out_rel rep (put db name key value) (db_Put s name key value).
Proof.
  intros Hr. pose proof (proj2 Hr) as Hi. rewrite put_eq, Bucket_view by done. cbn [db_Put transactionDB].
  rewrite (rep_working _ _ _ Hr), lookup_Flush. case_bool_decide as Hb; [rewrite decide_True by done|by rewrite decide_False by done].
  cbn. apply rep_intro; cbn.
  - by rewrite (rep_committed _ _ Hr).
  - intros n. destruct (decide (n = name)) as [->|Hne].
    + rewrite lookup_insert_eq, !lookup_alter_eq, view_put, (rep_working _ _ _ Hr). by destruct Hb as [v ->].
    + by rewrite lookup_insert_ne, !lookup_alter_ne, (rep_working _ _ _ Hr).
  - split; cbn; intros n; (destruct (decide (n = name)) as [->|Hne];
      [rewrite ?lookup_insert_eq, ?lookup_alter_eq|rewrite ?lookup_insert_ne, ?lookup_alter_ne by done]); eauto using inv_dels, inv_puts.
    + intros _. destruct (dels db !! name) as [d|] eqn:Ed; [left; by eexists|right].
      apply pending_dels; [done| |done]. rewrite Bucket_view, lookup_Flush. apply bool_decide_eq_true_2. congruence.
    + intros p d k [= <-]. destruct (dels db !! name) as [d0|] eqn:Ed; [|done]. intros [= <-] Hk.
      rewrite lookup_insert_ne by set_solver. destruct (puts db !! name) as [p|] eqn:Ep; [|done]. cbn.
      eapply (inv_disjoint _ Hi); [done|done|set_solver].
    + apply (inv_disjoint _ Hi).
Qed.

Lemma rep_delete db s name key : rep db s -> out_rel rep (delete db name key) (db_Delete s name key).
Proof.
  intros Hr. pose proof (proj2 Hr) as Hi. rewrite delete_eq, Bucket_view by done. cbn [db_Delete transactionDB].
  rewrite (rep_working _ _ _ Hr), lookup_Flush. case_bool_decide as Hb; [rewrite decide_True by done|by rewrite decide_False by done].
  cbn. apply rep_intro; cbn.
  - by rewrite (rep_committed _ _ Hr).
  - intros n. destruct (decide (n = name)) as [->|Hne].
    + rewrite lookup_insert_eq, !lookup_alter_eq, view_delete, (rep_working _ _ _ Hr). by destruct Hb as [v ->].
    + by rewrite lookup_insert_ne, !lookup_alter_ne, (rep_working _ _ _ Hr).
  - split; cbn; intros n; (destruct (decide (n = name)) as [->|Hne];
      [rewrite ?lookup_insert_eq, ?lookup_alter_eq|rewrite ?lookup_insert_ne, ?lookup_alter_ne by done]); eauto using inv_dels, inv_puts.
    + intros _. destruct (puts db !! name) as [p|] eqn:Ep; [left; by eexists|right].
      apply pending_puts; [done| |done]. rewrite Bucket_view, lookup_Flush. apply bool_decide_eq_true_2. congruence.
    + intros p d k. destruct (puts db !! name) as [p0|] eqn:Ep; [|done]. intros [= <-] [= <-] Hk.
      destruct (decide (k = key)) as [->|Hkk]; [apply lookup_delete_eq|]. rewrite lookup_delete_ne by done.
      destruct (dels db !! name) as [d|] eqn:Ed; cbn in Hk; [|set_solver]. eapply (inv_disjoint _ Hi); [done|done|set_solver].
    + apply (inv_disjoint _ Hi).
Qed.

(** The keys that [Iter] visits are different. *)
Lemma omap_keys (f : bytes * bytes -> option (bytes * bytes)) l : (forall kv kv', f kv = Some kv' -> kv'.1 = kv.1) ->
  (omap f l).*1 `sublist_of` l.*1.
Proof.
  intros Hf. induction l as [|kv l IH]; [done|]. cbn [omap list_omap]. rewrite fmap_cons.
  destruct (f kv) as [kv'|] eqn:E; [|by constructor]. rewrite fmap_cons, (Hf _ _ E). by constructor.
Qed.
Lemma Iter_spec db s name : rep db s -> Iter db name ≡ₚ map_to_list (t_Iter s name).
Proof.
  intros [-> Hi]. unfold Iter. set (f := fun kv : bytes * bytes => _).
  assert (forall kv kv', f kv = Some kv' -> kv'.1 = kv.1) as Hf by (intros kv kv'; unfold f; repeat case_match; by intros [= <-]).
  apply NoDup_Permutation; [|apply NoDup_map_to_list|].
  - apply (NoDup_fmap_1 fst). eapply sublist_NoDup; [|by apply omap_keys]. apply NoDup_fst_map_to_list.
  - intros [k v]. rewrite list_elem_of_omap, elem_of_map_to_list. unfold t_Iter. cbn [committed working].
    rewrite map_lookup_filter_Some. cbn [fst].
    assert (default ∅ (buckets (Flush db) !! name) !! k = get db name k) as ->.
    { rewrite (get_view _ _ _ Hi). unfold t_lookup. by destruct (buckets (Flush db) !! name). }
    unfold t_lookup, get, lookup2. split.
    + intros ([k0 v0] & Hin%elem_of_map_to_list & E). pose proof (Hf _ _ E) as Ek. cbn in Ek. subst k0. unfold f in E. cbn [fst] in E.
      unfold lookup2 in E. destruct (buckets db !! name) as [b|]; cbn in Hin |- *; [|done]. rewrite Hin.
      repeat case_match; try done; by injection E as <-.
    + intros [E [v0 Hv]]. destruct (buckets db !! name) as [b|] eqn:Eb; cbn in Hv, E |- *; [|done]. exists (k, v0).
      rewrite elem_of_map_to_list. split; [done|]. unfold f, lookup2. cbn [fst].
      repeat case_match; try done; by (injection E as <- || (cbn in *; congruence)).
Qed.
End MemSpec.

#[export] Instance memDB_spec : DBSpec MemDB.t.
Proof.
  refine {| db_rep := MemSpec.rep |}.
  - intros d t name H. split; [done|]. cbn. rewrite MemSpec.Bucket_view. by destruct H as [-> _].
  - apply MemSpec.rep_CreateBucket.
  - intros d t [-> Hi]. cbn. apply MemSpec.rep_flushed.
  - intros d t [-> Hi]. cbn. apply MemSpec.rep_cancelled.
  - intros d t name key [-> Hi]. by apply MemSpec.get_view.
  - apply MemSpec.rep_put.
  - apply MemSpec.rep_delete.
  - intros d t name H E. rewrite <- t_Iter_clean by done. by apply MemSpec.Iter_spec.
Defined.

(** ** Sequences of calls

    Every access fetches its bucket first, as [DBStore] does. *)
Inductive dbop :=
| OpCreate (name : string)
| OpGet (name : string) (key : bytes)
| OpPut (name : string) (key value : bytes)
| OpDelete (name : string) (key : bytes)
| OpIter (name : string)
| OpFlush
| OpCancel.
(** The answer of an iteration: the pairs it visits, in whatever order, and their number. *)
Inductive reply :=
| RNoBucket | RValue (v : option bytes) | RPairs (kvs : gmap bytes bytes) (n : nat)
| RError (e : option string) | RPanic.
Definition visited (l : list (bytes * bytes)) : reply := RPairs (list_to_map l) (length l).
Lemma visited_map (m : gmap bytes bytes) l : l ≡ₚ map_to_list m -> visited l = RPairs m (size m).
Proof.
  intros Hp. unfold visited. f_equal; [|by rewrite Hp, length_map_to_list].
  rewrite (list_to_map_proper l (map_to_list m)); [apply list_to_map_to_list|rewrite Hp; apply NoDup_fst_map_to_list|done].
Qed.

Section Run.
Context {D : Type} {db : DB D}.
Definition commit (d : D) (r : outcome D) : D * reply :=
  match r with Ok d' => (d', RError None) | Err e => (d, RError (Some e)) | Panic _ => (d, RPanic) end.
Definition do_op (d : D) (op : dbop) : D * reply :=
  match op with
  | OpCreate name => commit d (db_CreateBucket d name)
  | OpGet name key =>
      let '(d, ok) := db_Bucket d name in (d, if ok : bool then RValue (db_Get d name key) else RNoBucket)
  | OpPut name key value =>
      let '(d, ok) := db_Bucket d name in if ok : bool then commit d (db_Put d name key value) else (d, RNoBucket)
  | OpDelete name key =>
      let '(d, ok) := db_Bucket d name in if ok : bool then commit d (db_Delete d name key) else (d, RNoBucket)
  | OpIter name =>
      let '(d, ok) := db_Bucket d name in (d, if ok : bool then visited (db_Iter d name) else RNoBucket)
  | OpFlush => commit d (db_Flush d)
  | OpCancel => (db_Cancel d, RError None)
  end.
Fixpoint run (d : D) (ops : list dbop) : D * list reply :=
  match ops with
  | [] => (d, [])
  | op :: ops => let '(d, r) := do_op d op in let '(d, rs) := run d ops in (d, r :: rs)
  end.
End Run.

Lemma commit_rel {D E} (R : D -> E -> Prop) d e x y : R d e -> out_rel R x y ->
  R (commit d x).1 (commit e y).1 /\ (commit d x).2 = (commit e y).2.
Proof. destruct x, y; cbn; try done. by intros ? ->. Qed.

Section Refine.
Context {D : Type} {db : DB D} {spec : DBSpec D}.

(** An iteration of this call is answered as by the specification. *)
Definition iter_agrees (t : TDB) (op : dbop) : Prop := forall n d, op = OpIter n -> db_rep d t -> db_Iter d n ≡ₚ db_Iter t n.
Fixpoint iters_agree (t : TDB) (ops : list dbop) : Prop :=
  match ops with
  | [] => True
  | op :: ops => iter_agrees t op /\ iters_agree (do_op t op).1 ops
  end.

(** A call that fetches its bucket first. *)
Lemma bucket_refines d t name (f : D -> D * reply) (g : TDB -> TDB * reply) : db_rep d t ->
  (forall d', db_rep d' t -> db_rep (f d').1 (g t).1 /\ (f d').2 = (g t).2) ->
  let x := (let '(d, ok) := db_Bucket d name in if ok : bool then f d else (d, RNoBucket)) in
  let y := (let '(t, ok) := db_Bucket t name in if ok : bool then g t else (t, RNoBucket)) in
  db_rep x.1 y.1 /\ x.2 = y.2.
Proof.
  intros Hr H. destruct (rep_Bucket d t name Hr) as [Hr' Ho]. destruct (db_Bucket d name) as [d' ok].
  cbn [fst snd db_Bucket transactionDB] in *. rewrite Ho. case_bool_decide; [by apply H|done].
Qed.

Lemma do_op_refines d t op : db_rep d t -> iter_agrees t op ->
  db_rep (do_op d op).1 (do_op t op).1 /\ (do_op d op).2 = (do_op t op).2.
Proof.
  intros Hr Hi. destruct op as [n|n k|n k v|n k|n| |]; cbn [do_op].
  - apply commit_rel; [done|by apply rep_CreateBucket].
  - pose proof (bucket_refines d t n (fun d => (d, RValue (db_Get d n k))) (fun t => (t, RValue (db_Get t n k))) Hr) as H.
    cbn [fst snd] in H. destruct (db_Bucket d n) as [d' [|]], (db_Bucket t n) as [t' [|]]; apply H; intros d0 H0; by rewrite (rep_Get _ _ _ _ H0).
  - apply bucket_refines; [done|]. intros d' H'. apply commit_rel; [done|by apply rep_Put].
  - apply bucket_refines; [done|]. intros d' H'. apply commit_rel; [done|by apply rep_Delete].
  - pose proof (bucket_refines d t n (fun d => (d, visited (db_Iter d n))) (fun t => (t, visited (db_Iter t n))) Hr) as H.
    cbn [fst snd] in H. assert (forall d', db_rep d' t -> db_rep d' t /\ visited (db_Iter d' n) = visited (db_Iter t n)) as H1.
    { intros d' H'. split; [done|]. rewrite (visited_map (t_Iter t n) (db_Iter d' n)) by exact (Hi n d' eq_refl H'). symmetry. by apply visited_map. }
    specialize (H H1). destruct (db_Bucket d n) as [d' [|]], (db_Bucket t n) as [t' [|]]; exact H.
  - apply commit_rel; [done|by apply rep_DBFlush].
  - split; [by apply rep_Cancel|done].
Qed.

Lemma run_refines d t ops : db_rep d t -> iters_agree t ops ->
  db_rep (run d ops).1 (run t ops).1 /\ (run d ops).2 = (run t ops).2.
Proof.
  revert d t. induction ops as [|op ops IH]; intros d t Hr Hi; [done|]. destruct Hi as [Ho Hi]. cbn [run].
  destruct (do_op_refines d t op Hr Ho) as [Hr' E]. destruct (do_op d op) as [d' r], (do_op t op) as [t' r']. cbn in *. subst r'.
  destruct (IH d' t' Hr' Hi) as [Hf Es]. destruct (run d' ops), (run t' ops). cbn in *. by subst.
Qed.
End Refine.

(** Iterations of a [MemDB] always agree with the specification. *)
Lemma mem_iters_agree ops : forall t, iters_agree (D := MemDB.t) t ops.
Proof.
  induction ops as [|op ops IH]; intros t; [done|]. split; [|apply IH]. intros n d -> Hr. by apply MemSpec.Iter_spec.
Qed.

(** C29: the database in memory is a transaction.  Whatever sequence of calls is made on a new
    [MemDB], creating buckets, reading, writing, deleting, iterating, flushing and cancelling,
    every call answers as if there were one committed and one working copy of the buckets, where
    reads and writes go to the working copy, an iteration visits each key of the committed copy
    that the working copy still has once, with its working value, [Flush] commits the working
    copy and [Cancel] discards it; in the end the committed buckets are those of the
    specification. *)
Theorem MemDB_refines_transactions (ops : list dbop) :
  (run MemDB.NewMemDB ops).2 = (run (mkT ∅ ∅) ops).2 /\
  MemDB.buckets (run MemDB.NewMemDB ops).1 = committed (run (mkT ∅ ∅) ops).1.
Proof.
  destruct (run_refines MemDB.NewMemDB (mkT ∅ ∅) ops) as [Hr E]; [apply MemSpec.rep_clean|apply mem_iters_agree|].
  split; [done|]. symmetry. by apply MemSpec.rep_committed.
Qed.
