(* ===== verification/ChainCacheSpec.v ===== *)
(** * The write cache over a database

    A [CacheDB] over any database that keeps the contract [DBSpec] behaves as a transaction
    as long as no key is read between its deletion and the next flush and no bucket is iterated
    while it has pending changes. *)
From stdpp Require Import prelude strings gmap sorting.
From Stdlib Require Import ZArith Lia.
From S2P Require Import Prelude ChainDB ChainDBSpec.
Import MemSpec.

(** ** Writing lists of keys into a bucket *)
Definition write_all (l : list (bytes * bytes)) (b : gmap bytes bytes) : gmap bytes bytes :=
  foldl (fun b kv => <[kv.1 := kv.2]> b) b l.
Definition remove_all (l : list (bytes * bytes)) (b : gmap bytes bytes) : gmap bytes bytes :=
  foldl (fun b kv => delete kv.1 b) b l.

Lemma lookup_write_all l b k : NoDup l.*1 ->
  write_all l b !! k = match (list_to_map l : gmap bytes bytes) !! k with Some v => Some v | None => b !! k end.
Proof.
  revert b. induction l as [|[k' v'] l IH]; intros b Hnd; [done|]. rewrite fmap_cons in Hnd.
  apply NoDup_cons in Hnd as [Hin Hnd]. rewrite list_to_map_cons.
  change (write_all _ b) with (write_all l (<[k' := v']> b)). rewrite IH by done. destruct (decide (k = k')) as [->|Hne].
  - rewrite lookup_insert_eq, (not_elem_of_list_to_map_1 _ _ Hin). by rewrite lookup_insert_eq.
  - by rewrite !lookup_insert_ne.
Qed.

Lemma lookup_remove_all l b k : remove_all l b !! k = if decide (k ∈ l.*1) then None else b !! k.
Proof.
  revert b. induction l as [|[k' v'] l IH]; intros b; [done|].
  change (remove_all _ b) with (remove_all l (delete k' b)). rewrite IH, fmap_cons. cbn [fst].
  destruct (decide (k = k')) as [->|Hne].
  - rewrite lookup_delete_eq, (decide_True _ _ (list_elem_of_here k' _)). by destruct (decide _).
  - rewrite lookup_delete_ne by done. destruct (decide (k ∈ l.*1)) as [H|H].
    + by rewrite decide_True by (by right).
    + by rewrite decide_False by (intros [?|?]%elem_of_cons; done).
Qed.

Lemma write_all_map p b l : l ≡ₚ map_to_list p -> write_all l b = p ∪ b.
Proof.
  intros Hp. assert (NoDup l.*1) as Hnd by (rewrite Hp; apply NoDup_fst_map_to_list).
  apply map_eq. intros k. rewrite lookup_write_all, (list_to_map_proper _ _ Hnd Hp), list_to_map_to_list by done.
  rewrite lookup_union. by destruct (p !! k), (b !! k).
Qed.

Lemma remove_all_set d b l : l ≡ₚ map (fun k => (k, [])) (elements (d : gset bytes)) -> remove_all l b = MemDB.remove_keys d b.
Proof.
  intros Hp. apply map_eq. intros k. rewrite lookup_remove_all, lookup_remove_keys.
  assert (k ∈ l.*1 <-> k ∈ d) as Hk.
  { rewrite Hp, <- list_fmap_compose. change (fst ∘ (fun k : bytes => (k, [] : bytes))) with (@id bytes).
    rewrite list_fmap_id. apply elem_of_elements. }
  destruct (decide (k ∈ l.*1)), (decide (k ∈ d)); tauto.
Qed.

(** ** Flushing into the underlying database *)
Section Flush.
Context {D : Type} {db : DB D} {spec : DBSpec D}.
Implicit Types (t : TDB) (l : list (bytes * bytes)).

(** A batch operation and its effect on one bucket. *)
Record batch (op : D -> string -> bytes -> bytes -> outcome D) (f : list (bytes * bytes) -> gmap bytes bytes -> gmap bytes bytes) : Prop := {
  batch_nil : forall b, f [] b = b;
  batch_step : forall d t name k v, db_rep d t -> is_Some (working t !! name) ->
    exists d', op d name k v = Ok d' /\ db_rep d' (mkT (committed t) (alter (f [(k, v)]) name (working t)));
  batch_cons : forall kv l b, f (kv :: l) b = f l (f [kv] b) }.

Definition set_bucket t (name : string) (g : gmap bytes bytes -> gmap bytes bytes) : TDB :=
  mkT (committed t) (alter g name (working t)).

Context op f (Hb : batch op f).

Lemma set_bucket_nil t name : set_bucket t name (f []) = t.
Proof. destruct t as [c w]. unfold set_bucket. cbn. f_equal. apply alter_id. intros x _. apply (batch_nil _ _ Hb). Qed.
Lemma set_bucket_cons t name kv l :
  set_bucket (set_bucket t name (f [kv])) name (f l) = set_bucket t name (f (kv :: l)).
Proof.
  unfold set_bucket. cbn. f_equal. rewrite alter_alter_eq. apply alter_ext. intros x _.
  symmetry. apply (batch_cons _ _ Hb).
Qed.

Lemma for_each_batch l i d t name : db_rep d t -> (l = [] \/ is_Some (working t !! name)) ->
  exists d', for_each l i d (fun _ kv d => CacheDB.ignore_err d (op d name kv.1 kv.2)) = Ok d' /\
    db_rep d' (set_bucket t name (f l)).
Proof.
  revert i d t. induction l as [|[k v] l IH]; intros i d t Hr Hs.
  - exists d. by rewrite set_bucket_nil.
  - destruct Hs as [|Hs]; [done|]. destruct (batch_step _ _ Hb d t name k v Hr Hs) as (d1 & E & Hr1).
    cbn [for_each]. cbn [fst snd]. rewrite E. cbn [CacheDB.ignore_err mbind outcome_bind].
    destruct (IH (Datatypes.S i) d1 _ Hr1) as (d' & E' & Hr'); [right; by apply lookup_alter_is_Some|].
    exists d'. split; [exact E'|]. by rewrite <- set_bucket_cons.
Qed.

Lemma flush_bucket_spec l d t name : db_rep d t -> (l = [] \/ is_Some (working t !! name)) ->
  exists d', CacheDB.flush_bucket (fun d => op d name) d name l = Ok d' /\
    db_rep d' (set_bucket t name (f (merge_sort kv_le l))).
Proof.
  intros Hr Hs. unfold CacheDB.flush_bucket. destruct (rep_Bucket d t name Hr) as [Hr' Ho].
  destruct (db_Bucket d name) as [d' ok]. cbn in Hr', Ho. subst ok. case_bool_decide as Hw.
  - apply for_each_batch; [done|]. by right.
  - destruct Hs as [->|]; [|done]. exists d'. by rewrite set_bucket_nil.
Qed.

(** The effect on all buckets. *)
Definition flush_buckets (kvs : list (string * list (bytes * bytes))) (w : bucketMap) : bucketMap :=
  foldl (fun w b => alter (f (merge_sort kv_le b.2)) b.1 w) w kvs.

Lemma lookup_flush_buckets kvs w name : NoDup kvs.*1 ->
  flush_buckets kvs w !! name =
  match (list_to_map kvs : gmap string _) !! name with
  | Some l => f (merge_sort kv_le l) <$> w !! name
  | None => w !! name
  end.
Proof.
  revert w. induction kvs as [|[n l] kvs IH]; intros w Hnd; [done|]. rewrite fmap_cons in Hnd.
  apply NoDup_cons in Hnd as [Hin Hnd]. rewrite list_to_map_cons.
  change (flush_buckets _ w) with (flush_buckets kvs (alter (f (merge_sort kv_le l)) n w)). rewrite IH by done.
  destruct (decide (name = n)) as [->|Hne].
  - rewrite lookup_insert_eq, (not_elem_of_list_to_map_1 _ _ Hin). by rewrite lookup_alter_eq.
  - by rewrite lookup_insert_ne, lookup_alter_ne.
Qed.

Lemma for_each_buckets kvs i d t : db_rep d t ->
  (forall n l, (n, l) ∈ kvs -> l = [] \/ is_Some (working t !! n)) ->
  exists d', for_each kvs i d (fun _ b d => CacheDB.flush_bucket (fun d => op d b.1) d b.1 b.2) = Ok d' /\
    db_rep d' (mkT (committed t) (flush_buckets kvs (working t))).
Proof.
  revert i d t. induction kvs as [|[n l] kvs IH]; intros i d t Hr Hs; [exists d; by destruct t|].
  destruct (flush_bucket_spec l d t n Hr) as (d1 & E & Hr1); [apply Hs; by left|].
  cbn [for_each]. cbn [fst snd]. rewrite E. cbn [mbind outcome_bind].
  destruct (IH (Datatypes.S i) d1 _ Hr1) as (d' & E' & Hr').
  { intros n' l' Hin. destruct (Hs n' l') as [|Hw]; [by right|by left|right]. by apply lookup_alter_is_Some. }
  exists d'. split; [exact E'|exact Hr'].
Qed.

Lemma flush_all_spec (kvs : gmap string (list (bytes * bytes))) d t : db_rep d t ->
  (forall n l, kvs !! n = Some l -> l = [] \/ is_Some (working t !! n)) ->
  exists d' w, CacheDB.flush_all op d kvs = Ok d' /\ db_rep d' (mkT (committed t) w) /\
    forall n, w !! n = match kvs !! n with
                       | Some l => f (merge_sort kv_le l) <$> working t !! n
                       | None => working t !! n
                       end.
Proof.
  intros Hr Hs. destruct (for_each_buckets (map_to_list kvs) 0 d t Hr) as (d' & E & Hr').
  { intros n l Hin%elem_of_map_to_list. by apply Hs. }
  exists d', (flush_buckets (map_to_list kvs) (working t)). split; [exact E|]. split; [done|]. intros n.
  by rewrite lookup_flush_buckets, list_to_map_to_list by apply NoDup_fst_map_to_list.
Qed.
End Flush.

Section Cache.
Context {D : Type} {db : DB D} {spec : DBSpec D}.

Lemma put_batch : batch db_Put write_all.
Proof.
  split; [done| |done]. intros d t name k v Hr Hs. pose proof (rep_Put d t name k v Hr) as H.
  cbn [db_Put transactionDB] in H. rewrite decide_True in H by done.
  destruct (db_Put d name k v) as [d'| |]; [|done|done]. by exists d'.
Qed.
Lemma delete_batch : batch (fun d name key _ => db_Delete d name key) remove_all.
Proof.
  split; [done| |done]. intros d t name k v Hr Hs. pose proof (rep_Delete d t name k Hr) as H.
  cbn [db_Delete transactionDB] in H. rewrite decide_True in H by done.
  destruct (db_Delete d name k) as [d'| |]; [|done|done]. by exists d'.
Qed.

(** ** What a cache stands for *)
Record cache_rep (c : CacheDB.t D) (t : TDB) (t0 : TDB) : Prop := {
  cr_inner : db_rep (CacheDB.inner c) t0;
  cr_committed : committed t = committed t0;
  cr_buckets : MemDB.buckets (CacheDB.mem c) = ∅;
  cr_inv : MemSpec.inv (CacheDB.mem c);
  cr_sub : forall n, MemDB.Bucket (CacheDB.mem c) n = true -> is_Some (working t0 !! n);
  cr_working : forall n, working t !! n =
    match working t0 !! n with
    | Some b => view_bucket (Some b) (MemDB.puts (CacheDB.mem c) !! n) (MemDB.dels (CacheDB.mem c) !! n)
    | None => None
    end;
  cr_kvs : forall n l, CacheDB.kvs c !! n = Some l -> l = [] }.

Lemma view_empty b p d : p = None \/ p = Some ∅ -> d = None \/ d = Some ∅ -> view_bucket (Some b) p d = Some b.
Proof.
  intros [-> | ->] [-> | ->]; unfold view_bucket; cbn; f_equal; rewrite ?(left_id_L ∅ (∪)); try done;
    apply map_eq; intros k; by rewrite lookup_remove_keys, decide_False by set_solver.
Qed.

Definition deleted (m : MemDB.t) (n : string) (k : bytes) : Prop := MemDB.is_del m n k = true.

Lemma out_rel_inv (r : outcome MemDB.t) x m : out_rel MemSpec.rep r x -> r = Ok m -> MemSpec.inv m.
Proof. intros H ->. destruct x; [|done|done]. apply H. Qed.

Lemma mem_put_inv m n k v m' : MemSpec.inv m -> MemDB.put m n k v = Ok m' -> MemSpec.inv m'.
Proof. intros Hi. eapply out_rel_inv, (rep_put m (mkT _ _)). by split. Qed.
Lemma mem_delete_inv m n k m' : MemSpec.inv m -> MemDB.delete m n k = Ok m' -> MemSpec.inv m'.
Proof. intros Hi. eapply out_rel_inv, (rep_delete m (mkT _ _)). by split. Qed.
Lemma mem_create_inv m n m' : MemSpec.inv m -> MemDB.CreateBucket m n = Ok m' -> MemSpec.inv m'.
Proof. intros Hi. eapply out_rel_inv, (rep_CreateBucket m (mkT _ _)). by split. Qed.

Context (c : CacheDB.t D) (t t0 : TDB) (Hc : cache_rep c t t0).

Lemma cache_exists n : is_Some (working t !! n) <-> is_Some (working t0 !! n).
Proof.
  rewrite (cr_working _ _ _ Hc). destruct (working t0 !! n) as [b|]; [|done]. split; [by eexists|].
  intros _. apply view_Some. left. by eexists.
Qed.
Lemma cache_absent n : working t0 !! n = None ->
  MemDB.puts (CacheDB.mem c) !! n = None /\ MemDB.dels (CacheDB.mem c) !! n = None.
Proof.
  intros Hn. destruct (MemDB.Bucket (CacheDB.mem c) n) eqn:E; [destruct (cr_sub _ _ _ Hc n E); congruence|].
  unfold MemDB.Bucket in E. by destruct (MemDB.buckets _ !! n), (MemDB.puts _ !! n), (MemDB.dels _ !! n).
Qed.

Lemma cache_missing n : working t !! n = None ->
  MemDB.puts (CacheDB.mem c) !! n = None /\ MemDB.dels (CacheDB.mem c) !! n = None.
Proof.
  intros Hn. apply cache_absent. destruct (working t0 !! n) as [b|] eqn:E; [|done].
  destruct (proj2 (cache_exists n)); [by rewrite E|congruence].
Qed.

(** A read gives the pending value, or what the underlying database holds, even for a key
    that has been deleted since. *)
Lemma cache_Get n k :
  CacheDB.Get c n k = if MemDB.is_del (CacheDB.mem c) n k then t_lookup (working t0) n k else t_lookup (working t) n k.
Proof.
  unfold CacheDB.Get. rewrite (rep_Get _ _ _ _ (cr_inner _ _ _ Hc)). unfold MemDB.get.
  assert (MemDB.lookup2 (MemDB.buckets (CacheDB.mem c)) n k = None) as -> by (rewrite (cr_buckets _ _ _ Hc); done).
  unfold t_lookup. rewrite (cr_working _ _ _ Hc n). unfold MemDB.lookup2, MemDB.is_del.
  pose proof (inv_disjoint _ (cr_inv _ _ _ Hc) n) as Hd. pose proof (cache_absent n) as Hn.
  destruct (working t0 !! n) as [b|].
  - rewrite view_key by (intros p d Ep Ed; by apply Hd). cbn.
    destruct (MemDB.puts (CacheDB.mem c) !! n) as [p|] eqn:Ep, (MemDB.dels (CacheDB.mem c) !! n) as [d|] eqn:Ed; cbn;
      try case_bool_decide as Hk; try done; try (by destruct (p !! k)). by rewrite (Hd p d k).
  - by destruct (Hn eq_refl) as [-> ->].
Qed.

Lemma cache_rep_inner d : db_rep d t0 -> cache_rep (CacheDB.mk (CacheDB.mem c) d (CacheDB.kvs c)) t t0.
Proof. intros Hr. by split; cbn; apply Hc || apply Hr. Qed.

Lemma cache_Bucket n : let c' := (CacheDB.Bucket c n).1 in
  cache_rep c' t t0 /\ (CacheDB.Bucket c n).2 = bool_decide (is_Some (working t !! n)) /\
  (forall n' k, deleted (CacheDB.mem c') n' k -> deleted (CacheDB.mem c) n' k) /\
  (is_Some (working t !! n) -> MemDB.Bucket (CacheDB.mem c') n = true).
Proof.
  unfold CacheDB.Bucket. destruct (rep_Bucket _ _ n (cr_inner _ _ _ Hc)) as [Hr Ho].
  destruct (db_Bucket (CacheDB.inner c) n) as [d ok]. cbn in Hr, Ho. subst ok.
  rewrite (bool_decide_ext _ _ (cache_exists n)). case_bool_decide as Hw.
  2:{ cbn. split; [by apply cache_rep_inner|]. split; [done|]. split; [done|]. intros H%cache_exists. done. }
  destruct (MemDB.Bucket (CacheDB.mem c) n) eqn:Eb.
  { cbn. split; [by apply cache_rep_inner|done]. }
  unfold MemDB.CreateBucket. rewrite (cr_buckets _ _ _ Hc), lookup_empty. cbn.
  assert (MemDB.puts (CacheDB.mem c) !! n = None /\ MemDB.dels (CacheDB.mem c) !! n = None) as [Ep Ed].
  { unfold MemDB.Bucket in Eb. by destruct (MemDB.buckets _ !! n), (MemDB.puts _ !! n), (MemDB.dels _ !! n). }
  split; [|split; [done|split]].
  - split; cbn; try apply Hc; [done|done| | |].
    + eapply (mem_create_inv (CacheDB.mem c) n); [apply Hc|]. unfold MemDB.CreateBucket.
      by rewrite (cr_buckets _ _ _ Hc), lookup_empty.
    + intros n' Hb. destruct (decide (n' = n)) as [->|Hne]; [done|]. apply (cr_sub _ _ _ Hc).
      unfold MemDB.Bucket in *. cbn in Hb. rewrite !lookup_insert_ne in Hb by done. by rewrite (cr_buckets _ _ _ Hc).
    + intros n'. rewrite (cr_working _ _ _ Hc n'). destruct (decide (n' = n)) as [->|Hne]; [|by rewrite !lookup_insert_ne].
      rewrite !lookup_insert_eq, Ep, Ed. destruct (working t0 !! n); [|done]. symmetry. by apply view_empty; right.
  - intros n' k. unfold deleted, MemDB.is_del. cbn. destruct (decide (n' = n)) as [->|Hne]; [|by rewrite lookup_insert_ne].
    rewrite lookup_insert_eq. by rewrite bool_decide_eq_true.
  - intros _. unfold MemDB.Bucket. cbn. rewrite !lookup_insert_eq. by rewrite andb_false_r.
Qed.

Lemma cache_Put n k v : MemDB.Bucket (CacheDB.mem c) n = true -> exists c',
  CacheDB.Put c n k v = Ok c' /\ cache_rep c' (t_Put t n k v) t0 /\
  (forall n' k', deleted (CacheDB.mem c') n' k' -> deleted (CacheDB.mem c) n' k' /\ (n', k') <> (n, k)).
Proof.
  intros Hb. unfold CacheDB.Put. pose proof (mem_put_inv (CacheDB.mem c) n k v) as Hinv.
  rewrite put_eq, Hb in * by apply Hc. eexists. split; [done|]. split.
  - split; cbn; try apply Hc.
    + eapply Hinv; [apply Hc|done].
    + intros n' Hn'. apply (cr_sub _ _ _ Hc). destruct (decide (n' = n)) as [->|Hne]; [done|].
      unfold MemDB.Bucket in *. cbn in Hn'. by rewrite lookup_insert_ne, lookup_alter_ne in Hn'.
    + intros n'. destruct (decide (n' = n)) as [->|Hne].
      * rewrite lookup_insert_eq, !lookup_alter_eq, (cr_working _ _ _ Hc n).
        destruct (working t0 !! n) as [b|] eqn:Ew; [|done]. rewrite view_put.
        destruct (view_Some (Some b) (MemDB.puts (CacheDB.mem c) !! n) (MemDB.dels (CacheDB.mem c) !! n)) as [x ->]; [left; by eexists|done].
      * by rewrite lookup_insert_ne, !lookup_alter_ne, (cr_working _ _ _ Hc n').
  - intros n' k'. unfold deleted, MemDB.is_del. cbn. destruct (decide (n' = n)) as [->|Hne].
    + rewrite lookup_alter_eq. destruct (MemDB.dels (CacheDB.mem c) !! n) as [d|]; [|done]. cbn. rewrite !bool_decide_eq_true.
      intros [H1 H2]%elem_of_difference. split; [done|]. intros [= ->]. set_solver.
    + rewrite lookup_alter_ne by done. intros H. split; [done|congruence].
Qed.

Lemma cache_Delete n k : MemDB.Bucket (CacheDB.mem c) n = true -> exists c',
  CacheDB.Delete c n k = Ok c' /\ cache_rep c' (t_Delete t n k) t0 /\
  (forall n' k', deleted (CacheDB.mem c') n' k' -> deleted (CacheDB.mem c) n' k' \/ (n', k') = (n, k)).
Proof.
  intros Hb. unfold CacheDB.Delete. pose proof (mem_delete_inv (CacheDB.mem c) n k) as Hinv.
  rewrite delete_eq, Hb in * by apply Hc. eexists. split; [done|]. split.
  - split; cbn; try apply Hc.
    + eapply Hinv; [apply Hc|done].
    + intros n' Hn'. apply (cr_sub _ _ _ Hc). destruct (decide (n' = n)) as [->|Hne]; [done|].
      unfold MemDB.Bucket in *. cbn in Hn'. by rewrite lookup_insert_ne, lookup_alter_ne in Hn'.
    + intros n'. destruct (decide (n' = n)) as [->|Hne].
      * rewrite lookup_insert_eq, !lookup_alter_eq, (cr_working _ _ _ Hc n).
        destruct (working t0 !! n) as [b|] eqn:Ew; [|done]. rewrite view_delete.
        destruct (view_Some (Some b) (MemDB.puts (CacheDB.mem c) !! n) (MemDB.dels (CacheDB.mem c) !! n)) as [x ->]; [left; by eexists|done].
      * by rewrite lookup_insert_ne, !lookup_alter_ne, (cr_working _ _ _ Hc n').
  - intros n' k'. unfold deleted, MemDB.is_del. cbn. destruct (decide (n' = n)) as [->|Hne].
    + rewrite lookup_insert_eq, bool_decide_eq_true. intros [->%elem_of_singleton|H]%elem_of_union; [by right|left].
      destruct (MemDB.dels (CacheDB.mem c) !! n) as [d|]; cbn in H; [by apply bool_decide_eq_true_2|set_solver].
    + rewrite lookup_insert_ne by done. by left.
Qed.

Lemma cache_CreateBucket n : match CacheDB.CreateBucket c n, db_CreateBucket t n with
  | Ok c', Ok t' => (exists t0', cache_rep c' t' t0') /\ forall n' k, deleted (CacheDB.mem c') n' k -> deleted (CacheDB.mem c) n' k
  | Err e, Err e' => e = e'
  | _, _ => False end.
Proof.
  unfold CacheDB.CreateBucket. pose proof (ChainDBSpec.rep_CreateBucket _ _ n (cr_inner _ _ _ Hc)) as H.
  cbn [db_CreateBucket transactionDB] in *. rewrite (cr_committed _ _ _ Hc).
  destruct (committed t0 !! n); [by destruct (db_CreateBucket _ n)|].
  destruct (db_CreateBucket (CacheDB.inner c) n) as [d| |]; [|done|done]. cbn [out_rel] in H. cbn [mbind outcome_bind].
  pose proof (mem_create_inv (CacheDB.mem c) n) as Hi. unfold MemDB.CreateBucket in *.
  rewrite (cr_buckets _ _ _ Hc), lookup_empty in *. cbn [mbind outcome_bind]. split.
  - exists (t_CreateBucket t0 n). split; cbn; try apply Hc; [done|done| | |].
    + eapply Hi; [apply Hc|done].
    + intros n' Hb. apply lookup_insert_is_Some. destruct (decide (n = n')) as [|Hne]; [by left|right; split; [done|]].
      apply (cr_sub _ _ _ Hc). unfold MemDB.Bucket in *. cbn in Hb. rewrite !lookup_insert_ne in Hb by done.
      by rewrite (cr_buckets _ _ _ Hc).
    + intros n'. destruct (decide (n' = n)) as [->|Hne]; [|rewrite !lookup_insert_ne by done; apply Hc].
      rewrite !lookup_insert_eq. symmetry. apply view_empty; by right.
  - intros n' k. unfold deleted, MemDB.is_del. cbn. destruct (decide (n' = n)) as [->|Hne]; [|by rewrite lookup_insert_ne].
    rewrite lookup_insert_eq. by rewrite bool_decide_eq_true.
Qed.

Lemma cache_Cancel : cache_rep (CacheDB.Cancel c) (t_Cancel t) (t_Cancel t0) /\
  forall n k, ~ deleted (CacheDB.mem (CacheDB.Cancel c)) n k.
Proof.
  split; [|done]. split; cbn; try apply Hc.
  - apply rep_Cancel, Hc.
  - apply rep_clean.
  - intros n Hb. unfold MemDB.Bucket in Hb. cbn in Hb. by rewrite (cr_buckets _ _ _ Hc) in Hb.
  - intros n. rewrite (cr_committed _ _ _ Hc), !lookup_empty. by destruct (committed t0 !! n).
Qed.

(** What is gathered for one bucket. *)
Lemma gather_puts_lookup n : default [] (CacheDB.gather_puts (CacheDB.mem c) (CacheDB.kvs c) !! n) =
  match MemDB.puts (CacheDB.mem c) !! n with Some p => map_to_list p | None => [] end.
Proof.
  unfold CacheDB.gather_puts. rewrite lookup_merge, map_lookup_imap.
  pose proof (cr_kvs _ _ _ Hc n) as Hk. destruct (MemDB.puts (CacheDB.mem c) !! n) as [p|] eqn:Ep; cbn.
  - rewrite (forallb_filter_id).
    + destruct (CacheDB.kvs c !! n) as [l|]; cbn; [by rewrite (Hk l)|done].
    + apply forallb_forall. intros [k v] Hin%list_elem_of_In%elem_of_map_to_list. unfold MemDB.is_del.
      destruct (MemDB.dels _ !! n) as [d|] eqn:Ed; [|done]. apply negb_true_iff, bool_decide_eq_false. intros Hd.
      pose proof (inv_disjoint _ (cr_inv _ _ _ Hc) n p d k Ep Ed Hd). cbn in *. congruence.
  - destruct (CacheDB.kvs c !! n) as [l|]; cbn; [by apply Hk|done].
Qed.

Lemma gather_dels_lookup (kvs : gmap string (list (bytes * bytes))) n : (forall l, kvs !! n = Some l -> l = []) ->
  default [] (CacheDB.gather_dels (CacheDB.mem c) kvs !! n) =
  match MemDB.dels (CacheDB.mem c) !! n with Some d => map (fun k => (k, [])) (elements d) | None => [] end.
Proof.
  intros Hk. unfold CacheDB.gather_dels. rewrite lookup_merge.
  destruct (MemDB.dels (CacheDB.mem c) !! n) as [d|], (kvs !! n) as [l|]; cbn; rewrite ?(Hk l) by done; done.
Qed.

(** Only buckets of the cache have something to flush, and those exist. *)
Lemma puts_exist n l : CacheDB.gather_puts (CacheDB.mem c) (CacheDB.kvs c) !! n = Some l ->
  l = [] \/ is_Some (working t0 !! n).
Proof.
  intros E. pose proof (gather_puts_lookup n) as H. rewrite E in H. cbn in H. subst l.
  destruct (MemDB.puts (CacheDB.mem c) !! n) as [p|] eqn:Ep; [right|by left]. apply (cr_sub _ _ _ Hc).
  unfold MemDB.Bucket. rewrite Ep. by rewrite (bool_decide_eq_false_2 (Some p = None)), andb_false_r.
Qed.
Lemma dels_exist kvs n l : (forall l, kvs !! n = Some l -> l = []) ->
  CacheDB.gather_dels (CacheDB.mem c) kvs !! n = Some l -> l = [] \/ is_Some (working t0 !! n).
Proof.
  intros Hk E. pose proof (gather_dels_lookup kvs n Hk) as H. rewrite E in H. cbn in H. subst l.
  destruct (MemDB.dels (CacheDB.mem c) !! n) as [d|] eqn:Ed; [right|by left]. apply (cr_sub _ _ _ Hc).
  unfold MemDB.Bucket. rewrite Ed. by rewrite (bool_decide_eq_false_2 (Some d = None)), andb_false_r.
Qed.

Lemma flush_write n b : write_all (merge_sort kv_le (default [] (CacheDB.gather_puts (CacheDB.mem c) (CacheDB.kvs c) !! n))) b =
  default ∅ (MemDB.puts (CacheDB.mem c) !! n) ∪ b.
Proof.
  rewrite gather_puts_lookup. destruct (MemDB.puts (CacheDB.mem c) !! n) as [p|]; cbn [default from_option id].
  - apply write_all_map, merge_sort_Permutation.
  - by rewrite (left_id_L ∅ (∪)).
Qed.

(** The two passes over one bucket give its view. *)
Lemma flush_bucket_view n kvs : (forall l, kvs !! n = Some l -> l = []) ->
  match CacheDB.gather_dels (CacheDB.mem c) kvs !! n with
  | Some l => remove_all (merge_sort kv_le l) <$>
      match CacheDB.gather_puts (CacheDB.mem c) (CacheDB.kvs c) !! n with
      | Some l => write_all (merge_sort kv_le l) <$> working t0 !! n
      | None => working t0 !! n
      end
  | None => match CacheDB.gather_puts (CacheDB.mem c) (CacheDB.kvs c) !! n with
            | Some l => write_all (merge_sort kv_le l) <$> working t0 !! n
            | None => working t0 !! n
            end
  end = match working t0 !! n with
        | Some b => view_bucket (Some b) (MemDB.puts (CacheDB.mem c) !! n) (MemDB.dels (CacheDB.mem c) !! n)
        | None => None
        end.
Proof.
  intros Hk. destruct (working t0 !! n) as [b|]; [|by repeat case_match].
  assert (match CacheDB.gather_puts (CacheDB.mem c) (CacheDB.kvs c) !! n with
          | Some l => write_all (merge_sort kv_le l) <$> Some b | None => Some b end =
          Some (default ∅ (MemDB.puts (CacheDB.mem c) !! n) ∪ b)) as ->.
  { rewrite <- flush_write. by destruct (CacheDB.gather_puts _ _ !! n). }
  transitivity (Some (remove_all (merge_sort kv_le (default [] (CacheDB.gather_dels (CacheDB.mem c) kvs !! n)))
    (default ∅ (MemDB.puts (CacheDB.mem c) !! n) ∪ b))); [by destruct (CacheDB.gather_dels _ _ !! n)|].
  rewrite gather_dels_lookup by done. unfold view_bucket.
  destruct (MemDB.dels (CacheDB.mem c) !! n) as [d|].
  - rewrite (remove_all_set d) by apply merge_sort_Permutation. destruct (MemDB.puts _ !! n); cbn; [done|].
    by rewrite (left_id_L ∅ (∪)).
  - cbn. destruct (MemDB.puts _ !! n); cbn; [done|]. by rewrite (left_id_L ∅ (∪)).
Qed.

Lemma cleared_inv m : MemSpec.inv m ->
  MemSpec.inv (MemDB.mk ((fun _ => ∅) <$> MemDB.buckets m) ((fun _ => ∅) <$> MemDB.puts m) ((fun _ => ∅) <$> MemDB.dels m)).
Proof.
  intros Hi. split; cbn; intros n; rewrite !lookup_fmap.
  - rewrite !fmap_is_Some. apply (inv_dels _ Hi).
  - rewrite !fmap_is_Some. apply (inv_puts _ Hi).
  - intros p d k (? & _ & ->)%fmap_Some _ _. done.
Qed.

Lemma cache_Flush : exists c', CacheDB.Flush c = Ok c' /\ cache_rep c' (t_Flush t) (t_Flush t) /\
  forall n k, ~ deleted (CacheDB.mem c') n k.
Proof.
  unfold CacheDB.Flush.
  destruct (flush_all_spec _ _ put_batch (CacheDB.gather_puts (CacheDB.mem c) (CacheDB.kvs c)) _ t0 (cr_inner _ _ _ Hc) puts_exist)
    as (d1 & w1 & E1 & Hr1 & Hw1). rewrite E1. cbn [mbind outcome_bind].
  set (cleared := (fun _ => []) <$> CacheDB.gather_puts (CacheDB.mem c) (CacheDB.kvs c)).
  assert (forall n l, cleared !! n = Some l -> l = []) as Hcl.
  { intros n l. unfold cleared. rewrite lookup_fmap. by intros (? & _ & ->)%fmap_Some. }
  destruct (flush_all_spec _ _ delete_batch (CacheDB.gather_dels (CacheDB.mem c) cleared) d1 _ Hr1)
    as (d2 & w2 & E2 & Hr2 & Hw2).
  { intros n l E. destruct (dels_exist _ n l (Hcl n) E) as [->|Hs]; [by left|right]. cbn. rewrite Hw1.
    destruct (CacheDB.gather_puts _ _ !! n); [by apply fmap_is_Some|done]. }
  rewrite E2. cbn [mbind outcome_bind]. pose proof (rep_DBFlush _ _ Hr2) as Hr3.
  cbn [db_Flush transactionDB] in Hr3. destruct (db_Flush d2) as [d3| |]; [|done|done]. cbn [out_rel] in Hr3.
  cbn [mbind outcome_bind]. eexists. split; [done|].
  assert (w2 = working t) as Ew.
  { apply map_eq. intros n. rewrite Hw2, (cr_working _ _ _ Hc n). cbn [working]. rewrite Hw1. by apply flush_bucket_view, Hcl. }
  split; [|intros n k; unfold deleted, MemDB.is_del; cbn; rewrite lookup_fmap; by destruct (MemDB.dels _ !! n)].
  subst w2. split; cbn; [exact Hr3|done|by rewrite (cr_buckets _ _ _ Hc), fmap_empty| | | |].
  - apply cleared_inv, Hc.
  - intros n Hb. apply cache_exists, (cr_sub _ _ _ Hc). unfold MemDB.Bucket in *. cbn in Hb. rewrite !lookup_fmap in Hb.
    by destruct (MemDB.buckets _ !! n), (MemDB.puts _ !! n), (MemDB.dels _ !! n).
  - intros n. rewrite !lookup_fmap. destruct (working t !! n) as [b|]; [|done]. symmetry. apply view_empty.
    + by destruct (MemDB.puts _ !! n); [right|left].
    + by destruct (MemDB.dels _ !! n); [right|left].
  - intros n l. rewrite lookup_fmap. by intros (? & _ & ->)%fmap_Some.
Qed.
End Cache.

(** ** Sequences of calls on a cache *)

(** The buckets that have been changed since the last flush or cancellation. *)
Definition next_touched (touched : gset string) (op : dbop) : gset string :=
  match op with
  | OpCreate n | OpPut n _ _ | OpDelete n _ => {[n]} ∪ touched
  | OpGet _ _ | OpIter _ => touched
  | OpFlush | OpCancel => ∅
  end.
(** No key is read between its deletion and the next flush, write or cancellation, and no
    bucket is iterated while it has pending changes. *)
Fixpoint fresh_reads (dirty : gset (string * bytes)) (touched : gset string) (ops : list dbop) : bool :=
  match ops with
  | [] => true
  | op :: ops =>
      match op with
      | OpCreate _ => fresh_reads dirty (next_touched touched op) ops
      | OpGet n k => bool_decide ((n, k) ∉ dirty) && fresh_reads dirty (next_touched touched op) ops
      | OpPut n k _ => fresh_reads (dirty ∖ {[(n, k)]}) (next_touched touched op) ops
      | OpDelete n k => fresh_reads (dirty ∪ {[(n, k)]}) (next_touched touched op) ops
      | OpIter n => bool_decide (n ∉ touched) && fresh_reads dirty (next_touched touched op) ops
      | OpFlush | OpCancel => fresh_reads ∅ (next_touched touched op) ops
      end
  end.

(** A bucket without pending changes, in the specification and in the memory of a cache. *)
Definition clean (t : TDB) (n : string) : Prop := committed t !! n = working t !! n.
Definition idle (m : MemDB.t) (n : string) : Prop :=
  default ∅ (MemDB.puts m !! n) = ∅ /\ default ∅ (MemDB.dels m !! n) = ∅.

Lemma clean_op t op touched : (forall n, n ∉ touched -> clean t n) ->
  forall n, n ∉ next_touched touched op -> clean (do_op t op).1 n.
Proof.
  unfold clean. intros Hc n Hn. destruct op as [m|m k|m k v|m k|m| |]; cbn [next_touched] in Hn; cbn [do_op]; cbn.
  - destruct (committed t !! m); cbn; [apply Hc; set_solver|]. rewrite lookup_insert_ne by set_solver. apply Hc. set_solver.
  - by apply Hc.
  - case_bool_decide; [|apply Hc; set_solver]. rewrite decide_True by done. cbn. rewrite lookup_alter_ne by set_solver. apply Hc. set_solver.
  - case_bool_decide; [|apply Hc; set_solver]. rewrite decide_True by done. cbn. rewrite lookup_alter_ne by set_solver. apply Hc. set_solver.
  - by apply Hc.
  - done.
  - done.
Qed.

(** Such iterations are answered alike by every database that keeps the contract. *)
Lemma fresh_iters {D} {db : DB D} {spec : DBSpec D} ops : forall dirty touched t, (forall n, n ∉ touched -> clean t n) ->
  fresh_reads dirty touched ops = true -> iters_agree t ops.
Proof.
  induction ops as [|op ops IH]; intros dirty touched t Hc Hf; [done|]. split.
  - intros n d -> Hr. cbn in Hf. apply andb_true_iff in Hf as [Hn%bool_decide_eq_true _].
    rewrite (rep_Iter d t n Hr (Hc n Hn)). cbn. by rewrite t_Iter_clean by by apply Hc.
  - pose proof (clean_op t op touched Hc) as Hc'.
    destruct op; cbn [fresh_reads] in Hf; try apply andb_true_iff in Hf as [_ Hf]; by eapply IH.
Qed.

Lemma run_snoc {D} {db : DB D} (d : D) ops op : (run d (ops ++ [op])).1 = (do_op (run d ops).1 op).1.
Proof.
  revert d. induction ops as [|o ops IH]; intros d; cbn [run app].
  - cbn [fst]. by destruct (do_op d op).
  - destruct (do_op d o) as [d' r]. specialize (IH d'). destruct (run d' (ops ++ [op])), (run d' ops). cbn in *. done.
Qed.

Section CacheRun.
Context {D : Type} {db : DB D} {spec : DBSpec D}.

Lemma idle_fetched (c : CacheDB.t D) m n : idle (CacheDB.mem c) n -> idle (CacheDB.mem (CacheDB.Bucket c m).1) n.
Proof.
  intros Hi. unfold CacheDB.Bucket. destruct (db_Bucket (CacheDB.inner c) m) as [d [|]]; [|done].
  destruct (MemDB.Bucket (CacheDB.mem c) m); [done|]. unfold MemDB.CreateBucket.
  destruct (MemDB.buckets (CacheDB.mem c) !! m); [done|]. unfold idle in *. cbn.
  destruct (decide (n = m)) as [->|Hne]; [by rewrite !lookup_insert_eq|by rewrite !lookup_insert_ne].
Qed.

(** Calls leave the buckets idle that they do not change. *)
Lemma idle_op (c : CacheDB.t D) op touched : (forall n, n ∉ touched -> idle (CacheDB.mem c) n) ->
  (op = OpFlush -> is_Ok (CacheDB.Flush c)) ->
  forall n, n ∉ next_touched touched op -> idle (CacheDB.mem (do_op c op).1) n.
Proof.
  intros Hi Hok n Hn. destruct op as [m|m k|m k v|m k|m| |]; cbn [next_touched] in Hn; cbn [do_op].
  1: assert (n <> m /\ n ∉ touched) as [Hne Ht] by set_solver.
  3, 4: assert (n <> m /\ n ∉ touched) as [Hne Ht] by set_solver.
  - cbn [db_CreateBucket cacheDB]. unfold CacheDB.CreateBucket, MemDB.CreateBucket.
    destruct (db_CreateBucket (CacheDB.inner c) m); cbn; [|by apply Hi|by apply Hi].
    destruct (MemDB.buckets (CacheDB.mem c) !! m); cbn; [by apply Hi|]. unfold idle. cbn. rewrite !lookup_insert_ne by done. by apply Hi.
  - pose proof (idle_fetched c m n (Hi n Hn)) as H. cbn [db_Bucket cacheDB]. by destruct (CacheDB.Bucket c m) as [c' [|]].
  - pose proof (idle_fetched c m n (Hi n Ht)) as H. cbn [db_Bucket cacheDB]. destruct (CacheDB.Bucket c m) as [c' [|]]; [|done].
    cbn [db_Put cacheDB fst] in *. unfold CacheDB.Put, MemDB.put. cbn.
    destruct (MemDB.puts (CacheDB.mem c') !! m), (MemDB.buckets (CacheDB.mem c') !! m); cbn; try done;
      unfold idle; cbn; by rewrite lookup_insert_ne, lookup_alter_ne.
  - pose proof (idle_fetched c m n (Hi n Ht)) as H. cbn [db_Bucket cacheDB]. destruct (CacheDB.Bucket c m) as [c' [|]]; [|done].
    cbn [db_Delete cacheDB fst] in *. unfold CacheDB.Delete, MemDB.delete. cbn.
    destruct (MemDB.dels (CacheDB.mem c') !! m), (MemDB.buckets (CacheDB.mem c') !! m); cbn; try done;
      unfold idle; cbn; by rewrite lookup_insert_ne, lookup_alter_ne.
  - pose proof (idle_fetched c m n (Hi n Hn)) as H. cbn [db_Bucket cacheDB]. by destruct (CacheDB.Bucket c m) as [c' [|]].
  - destruct (Hok eq_refl) as [c' E]. cbn [db_Flush cacheDB]. rewrite E. cbn. unfold CacheDB.Flush in E.
    do 3 (match type of E with (?A ≫= ?f) = _ => destruct A; [cbn [mbind outcome_bind] in E|done|done] end).
    injection E as <-. unfold idle. cbn. rewrite !lookup_fmap. by destruct (MemDB.puts _ !! n), (MemDB.dels _ !! n).
  - done.
Qed.

Lemma cache_Iter c t t0 n : cache_rep c t t0 -> idle (CacheDB.mem c) n -> clean t n ->
  CacheDB.Iter c n ≡ₚ map_to_list (t_Iter t n).
Proof.
  intros Hc [Hp Hd] Hcl. unfold CacheDB.Iter, MemDB.Iter. rewrite (cr_buckets _ _ _ Hc), lookup_empty.
  cbn [default from_option id]. rewrite map_to_list_empty. cbn [omap list_omap app].
  assert (working t !! n = working t0 !! n) as Ew.
  { rewrite (cr_working _ _ _ Hc n). destruct (working t0 !! n) as [b|]; [|done]. apply view_empty.
    - destruct (MemDB.puts _ !! n); cbn in Hp; subst; auto.
    - destruct (MemDB.dels _ !! n); cbn in Hd; subst; auto. }
  rewrite t_Iter_clean by done. rewrite forallb_filter_id.
  - rewrite Ew. apply (rep_Iter _ _ _ (cr_inner _ _ _ Hc)). rewrite <- (cr_committed _ _ _ Hc), <- Ew. exact Hcl.
  - apply forallb_forall. intros [k v] _. cbn [fst]. unfold MemDB.lookup2, MemDB.is_del.
    destruct (MemDB.puts _ !! n); cbn in Hp; subst; destruct (MemDB.dels _ !! n); cbn in Hd; subst; done.
Qed.

Definition tracks (c : CacheDB.t D) (dirty : gset (string * bytes)) : Prop :=
  forall n k, deleted (CacheDB.mem c) n k -> (n, k) ∈ dirty.

Definition same_step (c : CacheDB.t D) (t : TDB) (dirty : gset (string * bytes)) (x : CacheDB.t D * reply) (y : TDB * reply) : Prop :=
  (exists t0, cache_rep x.1 y.1 t0) /\ tracks x.1 dirty /\ x.2 = y.2.

(** The bucket is fetched and an operation runs on it. *)
Lemma cache_with_bucket c t t0 dirty dirty' n (f : CacheDB.t D -> outcome (CacheDB.t D)) (g : TDB -> outcome TDB) :
  cache_rep c t t0 -> tracks c dirty -> (is_Some (working t !! n) -> exists t', g t = Ok t' /\
    forall c', cache_rep c' t t0 -> tracks c' dirty -> MemDB.Bucket (CacheDB.mem c') n = true ->
      exists c'', f c' = Ok c'' /\ cache_rep c'' t' t0 /\ tracks c'' dirty') ->
  (working t !! n = None -> forall c', cache_rep c' t t0 -> tracks c' dirty -> tracks c' dirty') ->
  same_step c t dirty'
    (let '(d, ok) := db_Bucket c n in if ok : bool then commit d (f d) else (d, RNoBucket))
    (let '(d, ok) := db_Bucket t n in if ok : bool then commit d (g d) else (d, RNoBucket)).
Proof.
  intros Hc Ht Hok Hno. cbn [db_Bucket cacheDB transactionDB]. destruct (cache_Bucket c t t0 Hc n) as (Hc' & Eo & Hd & Hb).
  destruct (CacheDB.Bucket c n) as [c' ok]. cbn in *. subst ok. assert (tracks c' dirty) as Ht' by (intros n' k' H; by apply Ht, Hd).
  case_bool_decide as Hw.
  - destruct (Hok Hw) as (t' & -> & H). destruct (H c' Hc' Ht' (Hb Hw)) as (c'' & -> & Hc'' & Ht'').
    split; [by exists t0|done].
  - assert (working t !! n = None) as E by (destruct (working t !! n); [by destruct Hw; eexists|done]).
    split; [by exists t0|]. split; [by apply Hno|done].
Qed.

Lemma cache_op c t t0 dirty touched op ops : cache_rep c t t0 -> tracks c dirty ->
  (forall n, n ∉ touched -> idle (CacheDB.mem c) n /\ clean t n) -> fresh_reads dirty touched (op :: ops) = true ->
  exists dirty', same_step c t dirty' (do_op c op) (do_op t op) /\ fresh_reads dirty' (next_touched touched op) ops = true.
Proof.
  intros Hc Ht Hq Hf. destruct op as [n|n k|n k v|n k|n| |]; cbn [fresh_reads] in Hf; cbn [do_op].
  - exists dirty. split; [|done]. pose proof (cache_CreateBucket c t t0 Hc n) as H.
    change (db_CreateBucket c n) with (CacheDB.CreateBucket c n).
    destruct (CacheDB.CreateBucket c n) as [c'|e|], (db_CreateBucket t n) as [t'|e'|]; try done; cbn [commit].
    + destruct H as [Hr Hd]. split; [done|]. split; [|done]. intros n' k' Hk. by apply Ht, Hd.
    + subst e'. split; [by exists t0|done].
  - apply andb_true_iff in Hf as [Hk%bool_decide_eq_true Hf]. exists dirty. split; [|done]. cbn [db_Bucket cacheDB transactionDB].
    destruct (cache_Bucket c t t0 Hc n) as (Hc' & Eo & Hd & Hb). destruct (CacheDB.Bucket c n) as [c' ok]. cbn in *. subst ok.
    split; [by exists t0|]. split; [intros n' k' H; by apply Ht, Hd|]. cbn. case_bool_decide; [|done].
    rewrite (cache_Get c' t t0 Hc' n k). destruct (MemDB.is_del (CacheDB.mem c') n k) eqn:E; [|done].
    destruct Hk. by apply Ht, Hd.
  - exists (dirty ∖ {[(n, k)]}). split; [|done]. eapply cache_with_bucket; [done|done| |].
    + intros Hw. cbn [db_Put cacheDB transactionDB]. rewrite decide_True by done.
      eexists. split; [done|]. intros c' Hc' Ht' Hb. destruct (cache_Put c' t t0 Hc' n k v Hb) as (c'' & E & Hc'' & Hd).
      exists c''. split; [done|]. split; [done|]. intros n' k' Hk'. destruct (Hd _ _ Hk') as [H1 H2]. specialize (Ht' _ _ H1). set_solver.
    + intros Hn c' Hc' Ht' n' k' Hk'. apply elem_of_difference. split; [by apply Ht'|]. intros E%elem_of_singleton.
      injection E as E1 E2. rewrite E1 in Hk'.
      destruct (cache_missing c' t t0 Hc' n Hn) as [_ Ed]. unfold deleted, MemDB.is_del in Hk'. by rewrite Ed in Hk'.
  - exists (dirty ∪ {[(n, k)]}). split; [|done]. eapply cache_with_bucket; [done|done| |].
    + intros Hw. cbn [db_Delete cacheDB transactionDB]. rewrite decide_True by done.
      eexists. split; [done|]. intros c' Hc' Ht' Hb. destruct (cache_Delete c' t t0 Hc' n k Hb) as (c'' & E & Hc'' & Hd).
      exists c''. split; [done|]. split; [done|]. intros n' k' Hk'. destruct (Hd _ _ Hk') as [H1|H1]; [specialize (Ht' _ _ H1)|]; set_solver.
    + intros Hn c' Hc' Ht' n' k' Hk'. specialize (Ht' _ _ Hk'). set_solver.
  - apply andb_true_iff in Hf as [Hn%bool_decide_eq_true Hf]. exists dirty. split; [|done]. cbn [db_Bucket cacheDB transactionDB].
    destruct (Hq n Hn) as [Hi Hcl]. pose proof (idle_fetched c n n Hi) as Hi'.
    destruct (cache_Bucket c t t0 Hc n) as (Hc' & Eo & Hd & Hb). destruct (CacheDB.Bucket c n) as [c' ok]. cbn in *. subst ok.
    split; [by exists t0|]. split; [intros n' k' H; by apply Ht, Hd|]. cbn. case_bool_decide; [|done].
    rewrite (visited_map (t_Iter t n) (CacheDB.Iter c' n)) by by eapply cache_Iter. symmetry. by apply visited_map.
  - exists ∅. split; [|done]. destruct (cache_Flush c t t0 Hc) as (c' & E & Hc' & Hd).
    cbn [db_Flush cacheDB transactionDB]. rewrite E. split; [by eexists|]. split; [|done]. intros n k Hk. by destruct (Hd n k).
  - exists ∅. split; [|done]. destruct (cache_Cancel c t t0 Hc) as [Hc' Hd]. split; [by eexists|]. split; [|done].
    intros n k Hk. by destruct (Hd n k).
Qed.

Lemma cache_run c t t0 dirty touched ops : cache_rep c t t0 -> tracks c dirty ->
  (forall n, n ∉ touched -> idle (CacheDB.mem c) n /\ clean t n) -> fresh_reads dirty touched ops = true ->
  (run c ops).2 = (run t ops).2 /\ exists t0', cache_rep (run c ops).1 (run t ops).1 t0'.
Proof.
  revert c t t0 dirty touched. induction ops as [|op ops IH]; intros c t t0 dirty touched Hc Ht Hq Hf; [split; [done|by exists t0]|].
  destruct (cache_op c t t0 dirty touched op ops Hc Ht Hq Hf) as (dirty' & ((t0' & Hc') & Ht' & E) & Hf'). cbn [run].
  assert (forall n, n ∉ next_touched touched op -> idle (CacheDB.mem (do_op c op).1) n /\ clean (do_op t op).1 n) as Hq'.
  { intros n Hn. split; [|by eapply clean_op; [apply Hq|]]. eapply idle_op; [apply Hq| |exact Hn].
    intros _. destruct (cache_Flush c t t0 Hc) as (c' & Ec & _). by exists c'. }
  destruct (do_op c op) as [c1 r1], (do_op t op) as [t1 r2]. cbn in *. subst r2.
  destruct (IH c1 t1 t0' dirty' _ Hc' Ht' Hq' Hf') as [Es Hr]. destruct (run c1 ops), (run t1 ops). cbn in *. by subst.
Qed.

Lemma new_cache d t : db_rep d t -> cache_rep (CacheDB.NewCacheDB d) t t.
Proof.
  intros Hr. split; cbn; [done|done|done|apply rep_clean|done| |done].
  intros n. rewrite !lookup_empty. by destruct (working t !! n).
Qed.

(** C30: caching writes is transparent.  Over any database that behaves as a transaction and
    has nothing pending, a sequence of calls on a new [CacheDB] gives the answers the underlying
    database would have given directly, and after a final [Flush] that database has committed
    the same buckets, provided that no key is read between its deletion and the next flush and
    no bucket is iterated while it has pending changes. *)
Theorem CacheDB_transparent (d : D) (t : TDB) (ops : list dbop) :
  db_rep d t -> committed t = working t -> fresh_reads ∅ ∅ ops = true ->
  (run (CacheDB.NewCacheDB d) ops).2 = (run d ops).2 /\
  db_rep (CacheDB.inner (run (CacheDB.NewCacheDB d) (ops ++ [OpFlush])).1) (run t (ops ++ [OpFlush])).1.
Proof.
  intros Hr Hcl Hf. assert (forall n, clean t n) as Hc0 by (intros n; unfold clean; by rewrite Hcl).
  destruct (run_refines d t ops Hr) as [_ ->]; [by eapply fresh_iters|].
  destruct (cache_run _ _ _ ∅ ∅ ops (new_cache d t Hr) ltac:(done) ltac:(done) Hf) as [E [t0 Hc]]. split; [done|]. rewrite !run_snoc.
  destruct (cache_Flush _ _ _ Hc) as (c' & E' & Hc' & _). cbn [do_op db_Flush cacheDB transactionDB]. rewrite E'. apply Hc'.
Qed.
End CacheRun.

(** Writes and deletions before and after a flush, over a database in memory. *)
Definition sample_ops : list dbop :=
  [OpCreate "A"; OpPut "A" [1] [2]; OpPut "A" [3] [4]; OpFlush; OpGet "A" [1]; OpDelete "A" [1]; OpPut "A" [3] [5];
   OpGet "A" [3]; OpFlush; OpGet "A" [1]; OpGet "A" [3]; OpIter "A"; OpPut "A" [6] [7]; OpCancel; OpGet "A" [6]].

Lemma CacheDB_transparent_witness :
  (run (CacheDB.NewCacheDB MemDB.NewMemDB) sample_ops).2 =
  [RError None; RError None; RError None; RError None; RValue (Some [2]); RError None; RError None;
   RValue (Some [5]); RError None; RValue None; RValue (Some [5]); RPairs {[ [3] := [5] ]} 1; RError None; RError None; RValue None].
Proof.
  destruct (CacheDB_transparent MemDB.NewMemDB (mkT ∅ ∅) sample_ops) as [E _]; [apply rep_clean|reflexivity|by vm_compute|].
  rewrite E. vm_compute. reflexivity.
Defined.

(** A deleted key keeps its old value until the next flush, unlike in the database itself. *)
Lemma CacheDB_stale_read :
  (run (CacheDB.NewCacheDB MemDB.NewMemDB) [OpCreate "A"; OpPut "A" [1] [2]; OpFlush; OpDelete "A" [1]; OpGet "A" [1]]).2 =
    [RError None; RError None; RError None; RError None; RValue (Some [2])] /\
  (run MemDB.NewMemDB [OpCreate "A"; OpPut "A" [1] [2]; OpFlush; OpDelete "A" [1]; OpGet "A" [1]]).2 =
    [RError None; RError None; RError None; RError None; RValue None].
Proof. split; vm_compute; reflexivity. Qed.

(** Neither does an iteration see the pending writes: a [MemDB] skips keys that are not
    committed, a cache also those that are overwritten. *)
Lemma Iter_skips_pending :
  (run MemDB.NewMemDB [OpCreate "A"; OpPut "A" [1] [2]; OpFlush; OpPut "A" [1] [3]; OpPut "A" [4] [5]; OpIter "A"]).2 =
    [RError None; RError None; RError None; RError None; RError None; RPairs {[ [1] := [3] ]} 1] /\
  (run (CacheDB.NewCacheDB MemDB.NewMemDB)
     [OpCreate "A"; OpPut "A" [1] [2]; OpFlush; OpPut "A" [1] [3]; OpPut "A" [4] [5]; OpIter "A"]).2 =
    [RError None; RError None; RError None; RError None; RError None; RPairs ∅ 0].
Proof. split; vm_compute; reflexivity. Qed.
