(* ===== verification/ChainDBStore.v ===== *)
(** * [coreutils/chain/db.go]: the store on a database

    [DBStore] keeps blocks, states, the best chain and the elements of v1 transactions in the
    buckets of a [DB].  Every access fetches its bucket; what a read does to the database
    (opening a transaction, preparing a cache) is not kept, since the next access does it
    again.  Errors of the database and of decoding panic.  The readings of the clock are part
    of the record ([dbs_clock], one per call). *)
From stdpp Require Import prelude strings gmap.
From Stdlib Require Import ZArith Lia.
From S2P Require Import Prelude TypesCurrency TypesData TypesEncoding TypesCodec TypesHash.
From S2P Require Import ConsensusWork ConsensusState ConsensusMerkle ConsensusMidState ConsensusApply ConsensusQday ConsensusCodec.
From S2P Require Import TypesMultiproof ChainStore ChainDB.

(** ** Stored values *)
Record supplementedBlock := {
  sb_Header : option BlockHeader; sb_Block : option Block; sb_Supplement : option V1BlockSupplement }.

Section Codec.
Context {crypto : Crypto}.

Definition supplementedBlock_EncodeTo (sb : supplementedBlock) : outcome bytes :=
  block ← match sb_Block sb with
          | Some b => enc ← V2Block_EncodeTo b; Ok (WriteBool true ++ enc)
          | None => Ok (WriteBool false)
          end;
  Ok (WriteUint8 3 ++ EncodePtr BlockHeader_EncodeTo (sb_Header sb) ++ block ++
      EncodePtr V1BlockSupplement_EncodeTo (sb_Supplement sb)).

Definition supplementedBlock_DecodeFrom : Decode supplementedBlock :=
  v ← ReadUint8;
  if v =? 2 then
    b ← V2Block_DecodeFrom; bs ← DecodePtr V1BlockSupplement_DecodeFrom;
    mret {| sb_Header := None; sb_Block := Some b; sb_Supplement := bs |}
  else if v =? 3 then
    bh ← DecodePtr BlockHeader_DecodeFrom; b ← DecodePtr V2Block_DecodeFrom;
    bs ← DecodePtr V1BlockSupplement_DecodeFrom;
    mret {| sb_Header := bh; sb_Block := b; sb_Supplement := bs |}
  else decode_err "incompatible version".

Definition versionedState_EncodeTo (s : State) : bytes := WriteUint8 2 ++ State_EncodeTo s.
Definition versionedState_DecodeFrom (n : Network) : Decode State :=
  v ← ReadUint8;
  if negb (v =? 2) then decode_err "incompatible version" else State_DecodeFrom n.

(** The parent and timestamp of a stored block, read from the front of its header, or of the
    block itself: both begin with the parent, the nonce and the timestamp. *)
Definition ancestorInfo_DecodeFrom : Decode (BlockID * Time) :=
  v ← ReadUint8;
  if negb (v =? 2) && negb (v =? 3) then decode_err "incompatible version" else
  _ ← (if v =? 3 then
         header ← ReadBool;
         if (header : bool) then mret tt else _ ← ReadBool; mret tt
       else mret tt);
  parentID ← Hash256_DecodeFrom; _ ← ReadUint64; timestamp ← ReadTime;
  mret (parentID, timestamp).

Definition header_DecodeFrom : Decode BlockHeader :=
  v ← ReadUint8;
  if negb (v =? 2) && negb (v =? 3) then decode_err "incompatible version" else
  if v =? 3 then
    bh ← DecodePtr BlockHeader_DecodeFrom;
    match bh with
    | Some bh => mret bh
    | None =>
        block ← ReadBool;
        if (block : bool) then b ← V2Block_DecodeFrom; mret (Block_Header b)
        else decode_err "neither header nor block present"
    end
  else b ← V2Block_DecodeFrom; mret (Block_Header b).
End Codec.

(** ** Buckets *)
Definition bVersion : string := "Version".
Definition bNetwork : string := "Network".
Definition bMainChain : string := "MainChain".
Definition bStates : string := "States".
Definition bBlocks : string := "Blocks".
Definition bFileContractElements : string := "FileContracts".
Definition bSiacoinElements : string := "SiacoinElements".
Definition bSiafundElements : string := "SiafundElements".
Definition bTree : string := "Tree".
Definition bVersion_key : bytes := str_bytes bVersion.
Definition bNetwork_key : bytes := str_bytes bNetwork.
Definition keyHeight : bytes := str_bytes "Height".

Record DBStore (D : Type) := mkS {
  dbs_db : D; dbs_n : Network; dbs_unflushed : Z; dbs_lastFlush : Time;
  dbs_clock : nat -> Time; dbs_ticks : nat }.
Arguments mkS {D}.
Arguments dbs_db {D}.
Arguments dbs_n {D}.
Arguments dbs_unflushed {D}.
Arguments dbs_lastFlush {D}.
Arguments dbs_clock {D}.
Arguments dbs_ticks {D}.

(** [check(err)] *)
Definition check {A} (r : outcome A) : outcome A :=
  match r with Err e => Panic e | r => r end.

Section DBStore.
Context {crypto : Crypto} {D : Type} {db : DB D}.
Abbreviation store := (DBStore D).

Definition set_db (s : store) (d : D) (written : Z) : store :=
  mkS d (dbs_n s) (dbs_unflushed s + written) (dbs_lastFlush s) (dbs_clock s) (dbs_ticks s).

Definition getRaw (s : store) (name : string) (key : bytes) : option bytes :=
  let '(d, ok) := db_Bucket (dbs_db s) name in
  if ok then db_Get d name key else None.

Definition get {A} (s : store) (name : string) (key : bytes) (dec : Decode A) : outcome (option A) :=
  match getRaw s name key with
  | None => Ok None
  | Some val => '(x, _) ← check (dec (NewBufDecoder val)); Ok (Some x)
  end.

Definition putRaw (s : store) (name : string) (key value : bytes) : outcome store :=
  let '(d, ok) := db_Bucket (dbs_db s) name in
  if ok then d ← check (db_Put d name key value); Ok (set_db s d (zlen value)) else nil_dereference.

(** An encoding is collected in a [bytes.Buffer] first. *)
Definition put (s : store) (name : string) (key enc : bytes) : outcome store :=
  if two63 <=? zlen enc then Panic "bytes.Buffer: too large" else putRaw s name key enc.

Definition delete (s : store) (name : string) (key : bytes) : outcome store :=
  let '(d, ok) := db_Bucket (dbs_db s) name in
  if ok then d ← check (db_Delete d name key); Ok (set_db s d (zlen key)) else nil_dereference.

(** ** The best chain *)
Definition encHeight (height : Z) : bytes := be_encode 8 height.

Definition putBestIndex (s : store) (index : ChainIndex) : outcome store :=
  put s bMainChain (encHeight (ci_Height index)) (Array_EncodeTo (ci_ID index)).
Definition deleteBestIndex (s : store) (height : Z) : outcome store :=
  delete s bMainChain (encHeight height).

Definition getHeight (s : store) : Z :=
  match getRaw s bMainChain keyHeight with
  | Some val => if (length val =? 8)%nat then be_decode val else 0
  | None => 0
  end.
Definition putHeight (s : store) (height : Z) : outcome store :=
  putRaw s bMainChain keyHeight (encHeight height).

(** ** States and blocks *)
Definition getState (s : store) (id : BlockID) : outcome (option State) :=
  get s bStates id (versionedState_DecodeFrom (dbs_n s)).
Definition putState (s : store) (cs : State) : outcome store :=
  put s bStates (ci_ID (s_Index cs)) (versionedState_EncodeTo cs).

(** A stored value has a header or a block. *)
Definition getBlock (s : store) (id : BlockID)
    : outcome (option (BlockHeader * option Block * option V1BlockSupplement)) :=
  r ← get s bBlocks id supplementedBlock_DecodeFrom;
  match r with
  | None => Ok None
  | Some sb =>
      match sb_Header sb, sb_Block sb with
      | Some bh, _ => Ok (Some (bh, sb_Block sb, sb_Supplement sb))
      | None, Some b => Ok (Some (Block_Header b, Some b, sb_Supplement sb))
      | None, None => nil_dereference
      end
  end.
Definition putBlock (s : store) (bh : BlockHeader) (b : option Block) (bs : option V1BlockSupplement) : outcome store :=
  enc ← supplementedBlock_EncodeTo {| sb_Header := Some bh; sb_Block := b; sb_Supplement := bs |};
  put s bBlocks (BlockHeader_ID bh) enc.

Definition getAncestorInfo (s : store) (id : BlockID) : outcome (option (BlockID * Time)) :=
  get s bBlocks id ancestorInfo_DecodeFrom.
Definition getBlockHeader (s : store) (id : BlockID) : outcome (option BlockHeader) :=
  get s bBlocks id header_DecodeFrom.

(** ** Elements *)
(** Shifts of a [uint64]. *)
Definition shl64 (x n : Z) : Z := if 64 <=? n then 0 else u64 (Z.shiftl x n).
(** The top [row] bits of a 32-bit column set to 1. *)
Definition treeKey (row col : Z) : bytes :=
  be_encode 4 (u32 (Z.lor (shl64 (u64 (shl64 1 row - 1)) (u64 (32 - row))) col)).

(** The siblings of rows [i], [i+1], ... *)
Fixpoint readProof (s : store) (leafIndex : Z) (i : Z) (n : nat) : outcome (list Hash256) :=
  match n with
  | O => Ok []
  | S n' =>
      r ← get s bTree (treeKey i (Z.lxor (Z.shiftr leafIndex i) 1)) Hash256_DecodeFrom;
      match r with
      | None => Panic "missing proof element"
      | Some h => proof ← readProof s leafIndex (i + 1) n'; Ok (h :: proof)
      end
  end.
Definition getElementProof (s : store) (leafIndex numLeaves : Z) : outcome (list Hash256) :=
  if numLeaves <=? leafIndex then Panic "leafIndex exceeds accumulator size" else
  readProof s leafIndex 0 (Z.to_nat (bits.Len64 (Z.lxor leafIndex numLeaves) - 1)).

Definition with_proof (proof : list Hash256) (se : StateElement) : StateElement :=
  {| se_LeafIndex := se_LeafIndex se; se_MerkleProof := proof; se_shared := se_shared se |}.

Definition getSiacoinElement (s : store) (id : SiacoinOutputID) (numLeaves : Z) : outcome (option SiacoinElement) :=
  r ← get s bSiacoinElements id SiacoinElement_DecodeFrom;
  match r with
  | None => Ok None
  | Some sce =>
      proof ← getElementProof s (se_LeafIndex (sce_StateElement sce)) numLeaves;
      Ok (Some (set_sce_se (with_proof proof) sce))
  end.
Definition putSiacoinElement (s : store) (sce : SiacoinElement) : outcome store :=
  put s bSiacoinElements (sce_ID sce) (SiacoinElement_EncodeTo (set_sce_se nil_proof sce)).
Definition deleteSiacoinElement (s : store) (id : SiacoinOutputID) : outcome store :=
  delete s bSiacoinElements id.

Definition getSiafundElement (s : store) (id : SiafundOutputID) (numLeaves : Z) : outcome (option SiafundElement) :=
  r ← get s bSiafundElements id SiafundElement_DecodeFrom;
  match r with
  | None => Ok None
  | Some sfe =>
      proof ← getElementProof s (se_LeafIndex (sfe_StateElement sfe)) numLeaves;
      Ok (Some (set_sfe_se (with_proof proof) sfe))
  end.
Definition putSiafundElement (s : store) (sfe : SiafundElement) : outcome store :=
  put s bSiafundElements (sfe_ID sfe) (SiafundElement_EncodeTo (set_sfe_se nil_proof sfe)).
Definition deleteSiafundElement (s : store) (id : SiafundOutputID) : outcome store :=
  delete s bSiafundElements id.

Definition getFileContractElement (s : store) (id : FileContractID) (numLeaves : Z) : outcome (option FileContractElement) :=
  r ← get s bFileContractElements id FileContractElement_DecodeFrom;
  match r with
  | None => Ok None
  | Some fce =>
      proof ← getElementProof s (se_LeafIndex (fce_StateElement fce)) numLeaves;
      Ok (Some (set_fce_se (with_proof proof) fce))
  end.
Definition putFileContractElement (s : store) (fce : FileContractElement) : outcome store :=
  put s bFileContractElements (fce_ID fce) (FileContractElement_EncodeTo (set_fce_se nil_proof fce)).
Definition deleteFileContractElement (s : store) (id : FileContractID) : outcome store :=
  delete s bFileContractElements id.

(** ** Expiring contracts: the concatenated IDs under the key of a height *)
Definition rawExpirations (s : store) (height : Z) : bytes :=
  default [] (getRaw s bFileContractElements (encHeight height)).

Definition putFileContractExpiration (s : store) (id : FileContractID) (windowEnd : Z) (apply : bool) : outcome store :=
  putRaw s bFileContractElements (encHeight windowEnd)
    (if apply then rawExpirations s windowEnd ++ Array_EncodeTo id
     else Array_EncodeTo id ++ rawExpirations s windowEnd).

(** [for i := 0; i < len(buf); i += 32], converting to an array of 32 bytes, which panics
    when fewer are left; each round consumes a byte at least. *)
Fixpoint split_ids (fuel : nat) (buf : bytes) : outcome (list FileContractID) :=
  match fuel, buf with
  | _, [] => Ok []
  | O, _ => Ok []
  | S fuel, _ =>
      if (length buf <? 32)%nat then Panic "cannot convert slice to array" else
      ids ← split_ids fuel (drop 32 buf); Ok (take 32 buf :: ids)
  end.
Definition ExpiringFileContractIDs (s : store) (height : Z) : outcome (list FileContractID) :=
  split_ids (length (rawExpirations s height)) (rawExpirations s height).

Definition OverwriteExpiringFileContractIDs (s : store) (height : Z) (ids : list FileContractID) : outcome store :=
  putRaw s bFileContractElements (encHeight height) (concat ids).

(** The offset of the first occurrence of [id]. *)
Fixpoint find_id (fuel : nat) (i : nat) (val : bytes) (id : FileContractID) : outcome nat :=
  match fuel with
  | O => Panic "missing file contract expiration"
  | S fuel =>
      if (length val <=? i)%nat then Panic "missing file contract expiration"
      else if (length val - i <? 32)%nat then Panic "cannot convert slice to array"
      else if bool_decide (slice i (i + 32) val = id) then Ok i
      else find_id fuel (i + 32) val id
  end.
(** The last ID takes the place of the removed one. *)
Definition deleteFileContractExpiration (s : store) (id : FileContractID) (windowEnd : Z) : outcome store :=
  let val := rawExpirations s windowEnd in
  i ← find_id (S (length val)) 0 val id;
  putRaw s bFileContractElements (encHeight windowEnd)
    (take (length val - 32) (take i val ++ drop (length val - 32) val ++ drop (i + 32) val)).

(** ** Applying and reverting blocks *)
Definition applyState (s : store) (next : State) : outcome store :=
  s ← putBestIndex s (s_Index next);
  putHeight s (ci_Height (s_Index next)).
Definition revertState (s : store) (prev : State) : outcome store :=
  s ← deleteBestIndex s (u64 (ci_Height (s_Index prev) + 1));
  putHeight s (ci_Height (s_Index prev)).

Definition putTreeNodes (s : store) (nodes : list treeNode) : outcome store :=
  for_each nodes 0 s (fun _ '(row, col, h) s => putRaw s bTree (treeKey row col) h).

Definition applySiacoinDiff (s : store) (d : SiacoinElementDiff) : outcome store :=
  if sced_Created d && sced_Spent d then Ok s
  else if sced_Spent d then deleteSiacoinElement s (sce_ID (sced_SiacoinElement d))
  else putSiacoinElement s (sced_SiacoinElement d).
Definition applySiafundDiff (s : store) (d : SiafundElementDiff) : outcome store :=
  if sfed_Created d && sfed_Spent d then Ok s
  else if sfed_Spent d then deleteSiafundElement s (sfe_ID (sfed_SiafundElement d))
  else putSiafundElement s (sfed_SiafundElement d).

Definition with_contract (fce : FileContractElement) (fc : FileContract) : FileContractElement :=
  {| fce_ID := fce_ID fce; fce_StateElement := fce_StateElement fce; fce_FileContract := fc |}.

Definition applyFileContractDiff (s : store) (d : FileContractElementDiff) : outcome store :=
  let fce := fced_FileContractElement d in
  let windowEnd := fc_WindowEnd (fce_FileContract fce) in
  if fced_Created d && fced_Resolved d then Ok s
  else if fced_Resolved d then
    s ← deleteFileContractElement s (fce_ID fce);
    deleteFileContractExpiration s (fce_ID fce) windowEnd
  else match fced_Revision d with
       | Some rev =>
           s ← putFileContractElement s (with_contract fce rev);
           if negb (fc_WindowEnd rev =? windowEnd) then
             s ← deleteFileContractExpiration s (fce_ID fce) windowEnd;
             putFileContractExpiration s (fce_ID fce) (fc_WindowEnd rev) true
           else Ok s
       | None =>
           s ← putFileContractElement s fce;
           putFileContractExpiration s (fce_ID fce) windowEnd true
       end.

Definition applyElements (s : store) (cau : ApplyUpdate) : outcome store :=
  s ← putTreeNodes s (ApplyUpdate_ForEachTreeNode cau);
  s ← for_each (au_sces cau) 0 s (fun _ d s => applySiacoinDiff s d);
  s ← for_each (au_sfes cau) 0 s (fun _ d s => applySiafundDiff s d);
  for_each (au_fces cau) 0 s (fun _ d s => applyFileContractDiff s d).

Definition revertFileContractDiff (s : store) (d : FileContractElementDiff) : outcome store :=
  let fce := fced_FileContractElement d in
  let windowEnd := fc_WindowEnd (fce_FileContract fce) in
  if fced_Created d && fced_Resolved d then Ok s
  else if fced_Resolved d then
    s ← putFileContractElement s fce;
    putFileContractExpiration s (fce_ID fce) windowEnd false
  else match fced_Revision d with
       | Some rev =>
           s ← putFileContractElement s fce;
           if negb (fc_WindowEnd rev =? windowEnd) then
             s ← deleteFileContractExpiration s (fce_ID fce) (fc_WindowEnd rev);
             putFileContractExpiration s (fce_ID fce) windowEnd false
           else Ok s
       | None =>
           s ← deleteFileContractElement s (fce_ID fce);
           deleteFileContractExpiration s (fce_ID fce) windowEnd
       end.
Definition revertSiafundDiff (s : store) (d : SiafundElementDiff) : outcome store :=
  if sfed_Created d && sfed_Spent d then Ok s
  else if sfed_Spent d then putSiafundElement s (sfed_SiafundElement d)
  else deleteSiafundElement s (sfe_ID (sfed_SiafundElement d)).
Definition revertSiacoinDiff (s : store) (d : SiacoinElementDiff) : outcome store :=
  if sced_Created d && sced_Spent d then Ok s
  else if sced_Spent d then putSiacoinElement s (sced_SiacoinElement d)
  else deleteSiacoinElement s (sce_ID (sced_SiacoinElement d)).

Definition revertElements (s : store) (cru : RevertUpdate) : outcome store :=
  s ← for_each (ru_fces cru) 0 s (fun _ d s => revertFileContractDiff s d);
  s ← for_each (ru_sfes cru) 0 s (fun _ d s => revertSiafundDiff s d);
  s ← for_each (ru_sces cru) 0 s (fun _ d s => revertSiacoinDiff s d);
  putTreeNodes s (RevertUpdate_ForEachTreeNode cru).

(** ** The [Store] interface *)
Definition BestIndex (s : store) (height : Z) : outcome (option ChainIndex) :=
  r ← get s bMainChain (encHeight height) Hash256_DecodeFrom;
  Ok ((fun id => {| ci_Height := height; ci_ID := id |}) <$> (r : option BlockID)).

(** The number of leaves of the tip, 0 when its state is missing. *)
Definition tipLeaves (s : store) (height : Z) : outcome Z :=
  index ← BestIndex s height;
  cs ← getState s (ci_ID (default zeroIndex index));
  Ok (match cs with Some cs => ea_NumLeaves (s_Elements cs) | None => 0 end).

(** The elements found for a list of IDs, in order. *)
Definition lookupAll {A B} (f : A -> outcome (option B)) (l : list A) : outcome (list B) :=
  for_each l 0 [] (fun _ x acc => r ← f x; Ok (acc ++ option_list r)).

Definition emptyTransactionSupplement : V1TransactionSupplement :=
  {| ts_SiacoinInputs := []; ts_SiafundInputs := []; ts_RevisedFileContracts := []; ts_StorageProofs := [] |}.

Definition SupplementTipTransaction (s : store) (txn : Transaction) : outcome V1TransactionSupplement :=
  let height := getHeight s in
  if n_V2_RequireHeight (dbs_n s) <=? height then Ok emptyTransactionSupplement else
  numLeaves ← tipLeaves s height;
  sces ← lookupAll (fun sci => getSiacoinElement s (sci_ParentID sci) numLeaves) (tx_SiacoinInputs txn);
  sfes ← lookupAll (fun sfi => getSiafundElement s (sfi_ParentID sfi) numLeaves) (tx_SiafundInputs txn);
  fces ← lookupAll (fun fcr => getFileContractElement s (fcr_ParentID fcr) numLeaves) (tx_FileContractRevisions txn);
  sps ← lookupAll (fun sp =>
    fce ← getFileContractElement s (sp_ParentID sp) numLeaves;
    match fce with
    | None => Ok None
    | Some fce =>
        windowIndex ← BestIndex s (u64 (fc_WindowStart (fce_FileContract fce) - 1));
        Ok ((fun i => {| sps_FileContract := fce; sps_WindowID := ci_ID i |}) <$> (windowIndex : option ChainIndex))
    end) (tx_StorageProofs txn);
  Ok {| ts_SiacoinInputs := sces; ts_SiafundInputs := sfes; ts_RevisedFileContracts := fces; ts_StorageProofs := sps |}.

Fixpoint mapM_outcome {A B} (f : A -> outcome B) (l : list A) : outcome (list B) :=
  match l with
  | [] => Ok []
  | x :: l => y ← f x; ys ← mapM_outcome f l; Ok (y :: ys)
  end.

Definition SupplementTipBlock (s : store) (b : Block) : outcome V1BlockSupplement :=
  let height := getHeight s in
  if n_V2_RequireHeight (dbs_n s) <=? height
  then Ok {| bs_Transactions := map (fun _ => emptyTransactionSupplement) (b_Transactions b);
             bs_ExpiringFileContracts := [] |} else
  numLeaves ← tipLeaves s height;
  txns ← mapM_outcome (SupplementTipTransaction s) (b_Transactions b);
  ids ← ExpiringFileContractIDs s (u64 (getHeight s + 1));
  fces ← mapM_outcome (fun id =>
    fce ← getFileContractElement s id numLeaves;
    match fce with Some fce => Ok fce | None => Panic "missing FileContractElement" end) ids;
  Ok {| bs_Transactions := txns; bs_ExpiringFileContracts := fces |}.

(** The ID on the best chain, zero when there is none. *)
Definition getBestID (s : store) (height : Z) : outcome BlockID :=
  r ← get s bMainChain (encHeight height) Hash256_DecodeFrom; Ok (default zeroHash (r : option BlockID)).

(** The walk to the ancestor, from step [i] on with [fuel] steps left of
    [min(AncestorDepth, Height)]. *)
Fixpoint ancestorID (s : store) (height : Z) (fuel : nat) (i : Z) (id : BlockID) : outcome BlockID :=
  match fuel with
  | O => Ok id
  | S fuel =>
      bestID ← getBestID s (u64 (height - i));
      if bool_decide (id = bestID) then
        if height <? AncestorDepth then getBestID s 0 else getBestID s (u64 (height - AncestorDepth))
      else
        info ← getAncestorInfo s id;
        ancestorID s height fuel (i + 1) (match info with Some (parentID, _) => parentID | None => zeroHash end)
  end.
Definition AncestorTimestamp (s : store) (id : BlockID) : outcome (option Time) :=
  cs ← getState s id;
  let height := ci_Height (match cs with Some cs => s_Index cs | None => zeroIndex end) in
  if n_Oak_Height (dbs_n s) <? height then Ok (Some 0) else
  id ← ancestorID s height (Z.to_nat (Z.min AncestorDepth height)) 0 id;
  info ← getAncestorInfo s id;
  Ok (snd <$> (info : option (BlockID * Time))).

Definition Block_ (s : store) (id : BlockID) : outcome (option (Block * option V1BlockSupplement)) :=
  r ← getBlock s id;
  Ok (match r with Some (_, Some b, bs) => Some (b, bs) | _ => None end).
Definition AddBlock (s : store) (b : Block) (bs : option V1BlockSupplement) : outcome store :=
  putBlock s (Block_Header b) (Some b) bs.
Definition PruneBlock (s : store) (id : BlockID) : outcome store :=
  r ← getBlock s id;
  match r with Some (bh, _, _) => putBlock s bh None None | None => Ok s end.

Definition flushSizeThreshold : Z := 100000000.
Definition flushDurationThreshold : Duration := 5 * Second.

(** [time.Now()]: the reading and the store with the clock advanced. *)
Definition now (s : store) : Time * store :=
  (dbs_clock s (dbs_ticks s),
   mkS (dbs_db s) (dbs_n s) (dbs_unflushed s) (dbs_lastFlush s) (dbs_clock s) (S (dbs_ticks s))).

Definition shouldFlush (s : store) : bool * store :=
  if flushSizeThreshold <=? dbs_unflushed s then (true, s)
  else let '(t, s) := now s in (flushDurationThreshold <=? time_Sub t (dbs_lastFlush s), s).

Definition Flush (s : store) : outcome (store * error) :=
  if dbs_unflushed s =? 0 then Ok (s, None) else
  let flushed d := let '(t, s) := now s in mkS d (dbs_n s) 0 t (dbs_clock s) (dbs_ticks s) in
  match db_Flush (dbs_db s) with
  | Ok d => Ok (flushed d, None)
  | Err e => Ok (flushed (dbs_db s), Some e)
  | Panic p => Panic p
  end.

Definition autoFlush (s : store) : outcome store :=
  let '(flush, s) := shouldFlush s in
  if flush then
    '(s, err) ← Flush s;
    match err with Some e => Panic e | None => Ok s end
  else Ok s.

Definition StoreApplyBlock (s : store) (cs : State) (cau : ApplyUpdate) : outcome store :=
  s ← applyState s cs;
  s ← (if ci_Height (s_Index cs) <=? n_V2_RequireHeight (dbs_n s) then applyElements s cau else Ok s);
  autoFlush s.
Definition StoreRevertBlock (s : store) (cs : State) (cru : RevertUpdate) : outcome store :=
  s ← (if ci_Height (s_Index cs) <=? n_V2_RequireHeight (dbs_n s) then revertElements s cru else Ok s);
  s ← revertState s cs;
  autoFlush s.
End DBStore.

#[export] Instance dbStore {crypto : Crypto} {D} {db : DB D} : Store (DBStore D) := {|
  st_BestIndex := BestIndex; st_SupplementTipTransaction := SupplementTipTransaction;
  st_SupplementTipBlock := SupplementTipBlock; st_Block := Block_; st_Header := getBlockHeader;
  st_AddBlock := AddBlock; st_PruneBlock := PruneBlock; st_State := getState; st_AddState := putState;
  st_AncestorTimestamp := AncestorTimestamp; st_ApplyBlock := StoreApplyBlock;
  st_RevertBlock := StoreRevertBlock; st_Flush := Flush |}.
