(* ===== verification/ChainDBInit.v ===== *)
(** * Opening a chain database

    [NewDBStore] and [NewDBStoreAtCheckpoint] of [coreutils/chain/db.go], the migration of
    [migrate.go] and the network check of [network.go].  A panic while opening is recovered
    into an error; the cancelled database is not part of the result.  Progress logging is
    left out. *)
From stdpp Require Import prelude strings gmap.
From Stdlib Require Import ZArith Lia.
From S2P Require Import Prelude TypesCurrency TypesData TypesEncoding TypesHash TypesPolicy.
From S2P Require Import ConsensusWork ConsensusState ConsensusMerkle ConsensusQday ConsensusMidState ConsensusApply.
From S2P Require Import ConsensusDifficulty ConsensusValidateV1 ConsensusValidate ConsensusCodec TypesMultiproof.
From S2P Require Import ChainStore ChainDB ChainDBStore.

(** The first condition that holds names the error. *)
Definition sanityCheckNetwork (n : Network) : outcome unit :=
  _ ← fail_if (bool_decide (n_Name n = "")) "network name cannot be empty";
  _ ← fail_if (bool_decide (n_InitialTarget n = zeroHash)) "impossible initial target";
  _ ← fail_if (n_BlockInterval n <=? 0) "block interval must be positive";
  _ ← fail_if (n_Oak_GenesisTimestamp n =? 0) "genesis timestamp must not be zero";
  _ ← fail_if (n_Tax_Height n <? n_DevAddr_Height n) "tax hardfork must not precede dev address hardfork";
  _ ← fail_if (n_StorageProof_Height n <? n_Tax_Height n) "storage proof hardfork must not precede tax hardfork";
  _ ← fail_if (n_Oak_Height n <? n_StorageProof_Height n) "Oak hardfork must not precede storage proof hardfork";
  _ ← fail_if (n_Oak_FixHeight n <? n_Oak_Height n) "Oak hardfork fix height must not precede Oak hardfork height";
  _ ← fail_if (n_ASIC_Height n <? n_Oak_Height n) "ASIC hardfork must not precede Oak hardfork";
  _ ← fail_if (n_Foundation_Height n <? n_ASIC_Height n) "Foundation hardfork must not precede ASIC hardfork";
  _ ← fail_if (n_V2_AllowHeight n <? n_Foundation_Height n) "v2 hardfork must not precede Foundation hardfork";
  _ ← fail_if (n_V2_RequireHeight n <? n_V2_AllowHeight n) "v2 require height must not precede v2 allow height";
  fail_if (n_V2_FinalCutHeight n <? n_V2_RequireHeight n) "v2 final cut height must not precede v2 require height".

(** [defer recover()] *)
Definition recovered {A} (r : outcome A) : outcome A :=
  match r with Panic p => Err ("panic during database initialization: " +:+ p) | r => r end.

Section Init.
Context {crypto : Crypto} {edwards : Edwards25519} {D : Type} {db : DB D}.
Abbreviation store := (DBStore D).

(** ** Migration *)
Definition return_err (r : outcome (store * error)) : outcome store :=
  '(s, err) ← r; match err with Some e => Err e | None => Ok s end.
(** [if dbs.shouldFlush() { if err := dbs.Flush(); err != nil { return err } }] *)
Definition flushIfDue (s : store) : outcome store :=
  let '(flush, s) := shouldFlush s in if flush then return_err (Flush s) else Ok s.

(** Iterating a bucket; a nil bucket panics. *)
Definition iterBucket (s : store) (name : string) : outcome (list (bytes * bytes)) :=
  let '(d, ok) := db_Bucket (dbs_db s) name in
  if ok then Ok (db_Iter d name) else nil_dereference.

Definition deleteAll (s : store) (name : string) (keys : list bytes) : outcome store :=
  for_each keys 0 s (fun _ key s => delete s name key).
Definition clearBucket (s : store) (name : string) : outcome store :=
  kvs ← iterBucket s name; deleteAll s name (map fst kvs).

(** [(types.BlockID)(key)]: the first 32 bytes. *)
Definition key_id (key : bytes) : outcome BlockID :=
  if (length key <? 32)%nat then Panic "cannot convert slice to array" else Ok (take 32 key).

(** Blocks that are not on the best chain, and their states. *)
Definition removeSidechains (s : store) : outcome store :=
  blocks ← iterBucket s bBlocks;
  ids ← mapM_outcome key_id (map fst blocks);
  best ← iterBucket s bMainChain;
  let onBest id := existsb (fun kv => (length kv.2 =? 32)%nat && bool_decide (kv.2 = id)) best in
  for_each (List.filter (fun id => negb (onBest id)) (remove_dups ids)) 0 s (fun _ id s =>
    s ← delete s bBlocks id; delete s bStates id).

(** [for ; height < v1Blocks; height++ { ... }] *)
Fixpoint removeInvalid (s : store) (height : Z) (n : nat) : outcome store :=
  match n with
  | O => Ok s
  | S n =>
      index ← BestIndex s height;
      s ← match index with
          | None => Ok s
          | Some index =>
              s ← delete s bBlocks (ci_ID index);
              s ← delete s bStates (ci_ID index);
              flushIfDue s
          end;
      removeInvalid s (height + 1) n
  end.

(** The blocks from [height] on, [n] of them, applied to [cs] again. *)
Fixpoint recompute_blocks (s : store) (cs : State) (height : Z) (n : nat) : outcome store :=
  match n with
  | O => Ok s
  | S n' =>
      index ← BestIndex s height;
      r ← getBlock s (ci_ID (default zeroIndex index));
      match r with
      | Some (_, Some b, _) =>
          bs ← SupplementTipBlock s b;
          s ← putBlock s (Block_Header b) (Some b) (Some bs);
          invalid ← (if n_V2_AllowHeight (dbs_n s) <=? height
                     then match ValidateBlock cs b bs with
                          | Ok _ => Ok false
                          | Err _ => Ok (0 <? ci_Height (default {| ci_Height := height; ci_ID := zeroHash |} index))
                          | Panic p => Panic p
                          end
                     else Ok false);
          if invalid : bool then removeInvalid s height (S n') else
          ts ← AncestorTimestamp s (b_ParentID b);
          '(cs, cau) ← ApplyBlock cs b bs (default 0 ts);
          s ← putState s cs;
          s ← StoreApplyBlock s cs cau;
          s ← flushIfDue s;
          recompute_blocks s cs (height + 1) n'
      | _ => Err "missing block needed for migration"
      end
  end.

Definition migrateDB (s : store) : outcome store :=
  match getRaw s bVersion bVersion_key with
  | Some (v :: _) =>
      if (v =? 1) || (v =? 2) || (v =? 3) then
        s ← removeSidechains s;
        s ← clearBucket s bFileContractElements;
        s ← clearBucket s bSiacoinElements;
        s ← clearBucket s bSiafundElements;
        s ← flushIfDue s;
        let v1Blocks := u64 (Z.min (getHeight s) (n_V2_RequireHeight (dbs_n s)) + 1) in
        cs ← GenesisState (dbs_n s);
        s ← recompute_blocks s cs 0 (Z.to_nat v1Blocks);
        s ← return_err (Flush s);
        s ← putRaw s bVersion bVersion_key [4];
        return_err (Flush s)
      else if v =? 4 then Ok s
      else Err "unrecognized version"
  | _ => Panic "index out of range"
  end.

(** ** Opening *)
Definition bucketNames : list string :=
  [bVersion; bNetwork; bMainChain; bStates; bBlocks; bFileContractElements; bSiacoinElements; bSiafundElements; bTree].

Definition createBuckets (d : D) : outcome D :=
  check (for_each bucketNames 0 d (fun _ name d => db_CreateBucket d name)).

(** [n] is the network, [init] what a new database is given after its version and network. *)
Definition openStore (d : D) (clock : nat -> Time) (n : Network) (init : store -> outcome store) : outcome store :=
  _ ← wrap_err "invalid network: " (sanityCheckNetwork n);
  let '(d, siad) := db_Bucket d "ChangeLog" in
  _ ← fail_if siad "detected siad database, refusing to proceed";
  let s := mkS d n 0 0 clock 0 in
  s ← match getRaw s bVersion bVersion_key with
      | Some [v] =>
          if negb (v =? 4) then wrap_err "failed to migrate database: " (migrateDB s) else Ok s
      | _ =>
          d ← createBuckets d;
          s ← putRaw (mkS d n 0 0 clock 0) bVersion bVersion_key [4];
          s ← putRaw s bNetwork bNetwork_key (str_bytes (n_Name n));
          init s
      end;
  match getRaw s bNetwork bNetwork_key with
  | Some network =>
      _ ← fail_if (negb (length network =? 0)%nat && negb (bool_decide (network = str_bytes (n_Name n))))
            "database previously initialized with different network";
      Ok s
  | None => Ok s
  end.

(** A block without v1 supplements, applied to its parent state and stored. *)
Definition storeBlock (s : store) (parent : State) (b : Block) : outcome (store * State) :=
  s ← putState s parent;
  let bs := {| bs_Transactions := map (fun _ => emptyTransactionSupplement) (b_Transactions b);
               bs_ExpiringFileContracts := [] |} in
  '(cs, cau) ← ApplyBlock parent b bs 0;
  s ← putBlock s (Block_Header b) (Some b) (Some bs);
  s ← putState s cs;
  s ← StoreApplyBlock s cs cau;
  s ← return_err (Flush s);
  Ok (s, cs).

Definition zeroState (n : Network) : State :=
  {| s_QdayHeight := 0; s_Network := n; s_Index := zeroIndex; s_PrevTimestamps := replicate 11 0;
     s_Depth := zeroHash; s_ChildTarget := zeroHash; s_SiafundTaxRevenue := Currency.ZeroCurrency;
     s_OakTime := 0; s_OakTarget := zeroHash; s_FoundationSubsidyAddress := zeroHash;
     s_FoundationManagementAddress := zeroHash; s_TotalWork := zeroHash; s_Difficulty := zeroHash;
     s_OakWork := zeroHash; s_Elements := emptyAccumulator; s_Attestations := 0 |}.

Definition NewDBStore (d : D) (clock : nat -> Time) (n : Network) (genesisBlock : Block) : outcome (store * State) :=
  recovered (
    s ← openStore d clock n (fun s =>
      genesisState ← GenesisState n;
      '(s, _) ← storeBlock s genesisState genesisBlock; Ok s);
    index ← BestIndex s (getHeight s);
    cs ← getState s (ci_ID (default zeroIndex index));
    Ok (s, default (zeroState n) cs)).

Definition NewDBStoreAtCheckpoint (d : D) (clock : nat -> Time) (cs : State) (b : Block) : outcome (store * State) :=
  recovered (
    s ← openStore d clock (s_Network cs) Ok;
    storeBlock s cs b).
End Init.
