(* ===== verification/ChainPool.v ===== *)
(** * [coreutils/chain/manager.go]: the transaction pool

    The pool record and the functions that work on it alone: keeping Merkle proofs current
    when blocks are applied and reverted, the checks on incoming sets, the parent map and the
    eviction of cheap transactions.  [indices] holds the positions of both kinds of
    transactions, each in its own slice. *)
From stdpp Require Import prelude strings gmap.
From Stdlib Require Import ZArith Lia.
From S2P Require Import Prelude TypesCurrency TypesData TypesEncoding TypesHash.
From S2P Require Import ConsensusState ConsensusMerkle ConsensusMidState ConsensusApply TypesMultiproof.

Record txpool := {
  tp_txns : list Transaction; tp_v2txns : list V2Transaction; tp_indices : idmap nat;
  tp_ms : option MidState; tp_weight : Z; tp_medianFee : option Currency;
  tp_lastReverted : list Transaction; tp_lastRevertedV2 : list V2Transaction }.

Definition empty_pool : txpool :=
  {| tp_txns := []; tp_v2txns := []; tp_indices := ∅; tp_ms := None; tp_weight := 0;
     tp_medianFee := None; tp_lastReverted := []; tp_lastRevertedV2 := [] |}.

Definition tp_setV2 (p : txpool) (v2txns : list V2Transaction) : txpool :=
  {| tp_txns := tp_txns p; tp_v2txns := v2txns; tp_indices := tp_indices p; tp_ms := tp_ms p;
     tp_weight := tp_weight p; tp_medianFee := tp_medianFee p; tp_lastReverted := tp_lastReverted p;
     tp_lastRevertedV2 := tp_lastRevertedV2 p |}.
Definition tp_setTxns (p : txpool) (txns : list Transaction) (v2txns : list V2Transaction)
    (indices : idmap nat) (ms : option MidState) (weight : Z) : txpool :=
  {| tp_txns := txns; tp_v2txns := v2txns; tp_indices := indices; tp_ms := ms; tp_weight := weight;
     tp_medianFee := tp_medianFee p; tp_lastReverted := tp_lastReverted p;
     tp_lastRevertedV2 := tp_lastRevertedV2 p |}.
(** [m.txpool.ms = nil] *)
Definition tp_invalidate (p : txpool) : txpool :=
  tp_setTxns p (tp_txns p) (tp_v2txns p) (tp_indices p) None (tp_weight p).
Definition tp_setMedian (p : txpool) (fee : option Currency) : txpool :=
  {| tp_txns := tp_txns p; tp_v2txns := tp_v2txns p; tp_indices := tp_indices p; tp_ms := tp_ms p;
     tp_weight := tp_weight p; tp_medianFee := fee; tp_lastReverted := tp_lastReverted p;
     tp_lastRevertedV2 := tp_lastRevertedV2 p |}.
Definition tp_setReverted (p : txpool) (txns : list Transaction) (v2txns : list V2Transaction)
    : txpool :=
  {| tp_txns := tp_txns p; tp_v2txns := tp_v2txns p; tp_indices := tp_indices p; tp_ms := tp_ms p;
     tp_weight := tp_weight p; tp_medianFee := tp_medianFee p; tp_lastReverted := txns;
     tp_lastRevertedV2 := v2txns |}.

(** [txn.DeepCopy()]: the elements are copied. *)
Definition V2Transaction_DeepCopy {crypto : Crypto} (txn : V2Transaction) : V2Transaction :=
  put_elems txn (map StateElement_Copy (elems txn)).

Section Pool.
Context {crypto : Crypto}.

(** ** Merkle proofs

    [updateProof] visits the elements in order; once an element is out of range nothing is
    updated any more. *)
Fixpoint update_elems (update : StateElement -> outcome StateElement) (numLeaves : Z) (valid : bool)
    (es : list StateElement) : outcome (bool * list StateElement) :=
  match es with
  | [] => Ok (valid, [])
  | e :: es' =>
      if se_LeafIndex e =? UnassignedLeafIndex then
        '(v, es'') ← update_elems update numLeaves valid es'; Ok (v, e :: es'')
      else
        let valid := valid && (se_LeafIndex e <? numLeaves) in
        e' ← (if valid then update (StateElement_Copy e) else Ok e);
        '(v, es'') ← update_elems update numLeaves valid es'; Ok (v, e' :: es'')
  end.

Definition updateTxnProofs (txn : V2Transaction) (update : StateElement -> outcome StateElement)
    (numLeaves : Z) : outcome (bool * V2Transaction) :=
  '(valid, es) ← update_elems update numLeaves true (elems txn); Ok (valid, put_elems txn es).

(** The transactions whose proofs could be updated. *)
Definition update_all (update : StateElement -> outcome StateElement) (numLeaves : Z)
    (txns : list V2Transaction) : outcome (list V2Transaction) :=
  for_each txns 0 [] (fun _ txn rem =>
    '(valid, txn) ← updateTxnProofs txn update numLeaves;
    Ok (if (valid : bool) then rem ++ [txn] else rem)).

Definition set_maturity (h : Z) (i : V2SiacoinInput) : V2SiacoinInput :=
  {| v2sci_Parent := {| sce_ID := sce_ID (v2sci_Parent i);
                        sce_StateElement := sce_StateElement (v2sci_Parent i);
                        sce_SiacoinOutput := sce_SiacoinOutput (v2sci_Parent i);
                        sce_MaturityHeight := h |};
     v2sci_SatisfiedPolicy := v2sci_SatisfiedPolicy i |}.
Definition map_sci (f : V2SiacoinInput -> V2SiacoinInput) (txn : V2Transaction) : V2Transaction :=
  {| v2tx_SiacoinInputs := map f (v2tx_SiacoinInputs txn);
     v2tx_SiacoinOutputs := v2tx_SiacoinOutputs txn; v2tx_SiafundInputs := v2tx_SiafundInputs txn;
     v2tx_SiafundOutputs := v2tx_SiafundOutputs txn; v2tx_FileContracts := v2tx_FileContracts txn;
     v2tx_FileContractRevisions := v2tx_FileContractRevisions txn;
     v2tx_FileContractResolutions := v2tx_FileContractResolutions txn;
     v2tx_Attestations := v2tx_Attestations txn; v2tx_ArbitraryData := v2tx_ArbitraryData txn;
     v2tx_NewFoundationAddress := v2tx_NewFoundationAddress txn; v2tx_MinerFee := v2tx_MinerFee txn |}.

Definition sci_unassigned (i : V2SiacoinInput) : bool :=
  se_LeafIndex (sce_StateElement (v2sci_Parent i)) =? UnassignedLeafIndex.

Definition updateQdayEphemeralHeights (txns : list V2Transaction) (height : Z) : list V2Transaction :=
  map (map_sci (fun i => if sci_unassigned i then set_maturity height i else i)) txns.

(** ** Ephemeral elements

    [replace id e] for the parents of a transaction; the proof index of a storage proof is
    not a parent. *)
Definition replace_parents (replace : Hash256 -> StateElement -> StateElement) (txn : V2Transaction)
    : V2Transaction :=
  {| v2tx_SiacoinInputs := map (fun i =>
       {| v2sci_Parent := set_sce_se (replace (sce_ID (v2sci_Parent i))) (v2sci_Parent i);
          v2sci_SatisfiedPolicy := v2sci_SatisfiedPolicy i |}) (v2tx_SiacoinInputs txn);
     v2tx_SiacoinOutputs := v2tx_SiacoinOutputs txn;
     v2tx_SiafundInputs := map (fun i =>
       {| v2sfi_Parent := set_sfe_se (replace (sfe_ID (v2sfi_Parent i))) (v2sfi_Parent i);
          v2sfi_ClaimAddress := v2sfi_ClaimAddress i;
          v2sfi_SatisfiedPolicy := v2sfi_SatisfiedPolicy i |}) (v2tx_SiafundInputs txn);
     v2tx_SiafundOutputs := v2tx_SiafundOutputs txn; v2tx_FileContracts := v2tx_FileContracts txn;
     v2tx_FileContractRevisions := map (fun r =>
       {| v2fcr_Parent := set_v2fce_se (replace (v2fce_ID (v2fcr_Parent r))) (v2fcr_Parent r);
          v2fcr_Revision := v2fcr_Revision r |}) (v2tx_FileContractRevisions txn);
     v2tx_FileContractResolutions := map (fun r =>
       {| res_Parent := set_v2fce_se (replace (v2fce_ID (res_Parent r))) (res_Parent r);
          res_Resolution := res_Resolution r |}) (v2tx_FileContractResolutions txn);
     v2tx_Attestations := v2tx_Attestations txn; v2tx_ArbitraryData := v2tx_ArbitraryData txn;
     v2tx_NewFoundationAddress := v2tx_NewFoundationAddress txn; v2tx_MinerFee := v2tx_MinerFee txn |}.

(** The elements a block created, by ID; later diffs win. *)
Definition created_elements (sces : list SiacoinElementDiff) (sfes : list SiafundElementDiff)
    (fces : list FileContractElementDiff) (v2fces : list V2FileContractElementDiff)
    : idmap StateElement :=
  let m := foldl (fun m d => if sced_Created d
             then <[sce_ID (sced_SiacoinElement d) := StateElement_Share (sce_StateElement (sced_SiacoinElement d))]> m
             else m) ∅ sces in
  let m := foldl (fun m d => if sfed_Created d
             then <[sfe_ID (sfed_SiafundElement d) := StateElement_Share (sfe_StateElement (sfed_SiafundElement d))]> m
             else m) m sfes in
  let m := foldl (fun m d => if fced_Created d
             then <[fce_ID (fced_FileContractElement d) :=
                      StateElement_Share (fce_StateElement (fced_FileContractElement d))]> m
             else m) m fces in
  foldl (fun m d => if v2fced_Created d
    then <[v2fce_ID (v2fced_V2FileContractElement d) :=
             StateElement_Share (v2fce_StateElement (v2fced_V2FileContractElement d))]> m
    else m) m v2fces.

(** [types.StateElement{LeafIndex: types.UnassignedLeafIndex}] *)
Definition unassignedElement : StateElement :=
  {| se_LeafIndex := UnassignedLeafIndex; se_MerkleProof := []; se_shared := false |}.

Definition revertPoolUpdate (p : txpool) (cru : RevertUpdate) (cs : State) : outcome txpool :=
  let uncreated := created_elements (ru_sces cru) (ru_sfes cru) (ru_fces cru) (ru_v2fces cru) in
  let replaceEphemeral id e :=
    if se_LeafIndex e =? UnassignedLeafIndex then e
    else if bool_decide (is_Some (uncreated !! id)) then unassignedElement else e in
  let v2txns := map (replace_parents replaceEphemeral) (tp_v2txns p) in
  rem ← update_all (RevertUpdate_UpdateElementProof cru) (ea_NumLeaves (s_Elements cs)) v2txns;
  Ok (tp_setV2 p rem).

(** A QDAY output is mature at the height of the block that created it. *)
Definition confirm_heights (cs : State) (old new : V2Transaction) : V2Transaction :=
  {| v2tx_SiacoinInputs :=
       zip_with (fun i j => if isQday cs && sci_unassigned i && negb (sci_unassigned j)
                            then set_maturity (ci_Height (s_Index cs)) j else j)
         (v2tx_SiacoinInputs old) (v2tx_SiacoinInputs new);
     v2tx_SiacoinOutputs := v2tx_SiacoinOutputs new; v2tx_SiafundInputs := v2tx_SiafundInputs new;
     v2tx_SiafundOutputs := v2tx_SiafundOutputs new; v2tx_FileContracts := v2tx_FileContracts new;
     v2tx_FileContractRevisions := v2tx_FileContractRevisions new;
     v2tx_FileContractResolutions := v2tx_FileContractResolutions new;
     v2tx_Attestations := v2tx_Attestations new; v2tx_ArbitraryData := v2tx_ArbitraryData new;
     v2tx_NewFoundationAddress := v2tx_NewFoundationAddress new; v2tx_MinerFee := v2tx_MinerFee new |}.

Definition applyPoolUpdate (p : txpool) (cau : ApplyUpdate) (cs : State) : outcome txpool :=
  let newElements := created_elements (au_sces cau) (au_sfes cau) (au_fces cau) (au_v2fces cau) in
  let replaceEphemeral id e :=
    if negb (se_LeafIndex e =? UnassignedLeafIndex) then e
    else match newElements !! id with Some se => StateElement_Share se | None => e end in
  let v2txns := map (fun txn => confirm_heights cs txn (replace_parents replaceEphemeral txn))
                  (tp_v2txns p) in
  rem ← update_all (ApplyUpdate_UpdateElementProof cau) (ea_NumLeaves (s_Elements cs)) v2txns;
  Ok (tp_setV2 p rem).

(** ** [restoreQdayPool]

    [add] with the restored transactions, their IDs and their weight. *)
Definition restore_add (limit : Z) (copyTxn : bool) (txn : V2Transaction)
    (acc : list V2Transaction * gset (list Z) * Z) : option (list V2Transaction * gset (list Z) * Z) :=
  let '(restored, seen, weight) := acc in
  let id := V2Transaction_ID txn in
  if bool_decide (id ∈ seen) || (length (v2tx_SiacoinInputs txn) =? 0)%nat then Some acc else
  let w := V2TransactionWeight txn in
  if u64 (limit - weight) <? w then None else
  let txn := if copyTxn then V2Transaction_DeepCopy txn else txn in
  Some (restored ++ [txn], {[id]} ∪ seen, u64 (weight + w)).

(** [for _, txn := range txns { if !add(txn, copyTxn) { break } }] *)
Fixpoint restore_all (limit : Z) (copyTxn : bool) (txns : list V2Transaction)
    (acc : list V2Transaction * gset (list Z) * Z) : list V2Transaction * gset (list Z) * Z :=
  match txns with
  | [] => acc
  | txn :: txns' => match restore_add limit copyTxn txn acc with
                    | Some acc => restore_all limit copyTxn txns' acc
                    | None => acc
                    end
  end.

Definition restoreQdayPool (p : txpool) (txns : list V2Transaction) : txpool :=
  let limit := MaxBlockWeight * 10 in
  let acc := restore_all limit true txns ([], ∅, 0) in
  let '(restored, _, weight) := restore_all limit false (tp_v2txns p) acc in
  tp_setTxns p (tp_txns p) restored (tp_indices p) None weight.

(** ** Checks on incoming sets *)
Definition checkFileContractRevisions (txns : list V2Transaction) : outcome unit :=
  for_each txns 0 tt (fun _ txn _ =>
    _ ← for_each (v2tx_FileContractRevisions txn) 0 tt (fun _ fcr _ =>
          let rev := v2fcr_Revision fcr in
          fail_if (0 <? Currency.Cmp (v2fc_MissedHostValue rev) (sco_Value (v2fc_HostOutput rev)))
            "revision missed host value exceeds host value");
    for_each (v2tx_FileContractResolutions txn) 0 tt (fun _ fcr _ =>
      let fc := v2fce_V2FileContract (res_Parent fcr) in
      fail_if (match res_Resolution fcr with V2FileContractExpiration => true | _ => false end &&
               (0 <? Currency.Cmp (v2fc_MissedHostValue fc) (sco_Value (v2fc_HostOutput fc))))
        "resolution expires a contract with missed host value exceeding host value")).

Definition checkEphemeralOutputs (txns : list V2Transaction) : outcome unit :=
  _ ← for_each txns 0 (∅ : idmap SiacoinOutput) (fun _ txn sces =>
    let txid := V2Transaction_ID txn in
    _ ← for_each (v2tx_SiacoinInputs txn) 0 tt (fun _ sci _ =>
          if negb (sci_unassigned sci) then Ok tt
          else match sces !! sce_ID (v2sci_Parent sci) with
               | None => Err "siacoin input claims unknown ephemeral output"
               | Some sco => fail_if (negb (bool_decide (sce_SiacoinOutput (v2sci_Parent sci) = sco)))
                               "siacoin input claims incorrect value for ephemeral output"
               end);
    _ ← for_each (v2tx_SiafundInputs txn) 0 tt (fun _ sfi _ =>
          fail_if (se_LeafIndex (sfe_StateElement (v2sfi_Parent sfi)) =? UnassignedLeafIndex)
            "siafund input spends ephemeral output");
    for_each (v2tx_SiacoinOutputs txn) 0 sces (fun i sco sces =>
      Ok (<[V2SiacoinOutputID txid i := sco]> sces)));
  Ok tt.

(** ** The parent map

    The position of the pool transaction that creates an element; v1 and v2 positions share
    the map. *)
Definition number {A} (l : list A) (id : nat -> list Z) (index : nat) (m : idmap nat) : idmap nat :=
  foldl (fun m i => <[id i := index]> m) m (seq 0 (length l)).

Definition computeParentMap (p : txpool) : idmap nat :=
  let m := foldl (fun m '(index, txn) =>
    let m := number (tx_SiacoinOutputs txn) (Transaction_SiacoinOutputID txn) index m in
    let m := number (tx_SiafundInputs txn) (SiafundClaimOutputID txn) index m in
    let m := number (tx_SiafundOutputs txn) (Transaction_SiafundOutputID txn) index m in
    number (tx_FileContracts txn) (Transaction_FileContractID txn) index m) ∅ (imap pair (tp_txns p)) in
  foldl (fun m '(index, txn) =>
    let txid := V2Transaction_ID txn in
    let m := number (v2tx_SiacoinOutputs txn) (V2SiacoinOutputID txid) index m in
    let m := foldl (fun m sfi => <[V2ClaimOutputID (sfe_ID (v2sfi_Parent sfi)) := index]> m) m
               (v2tx_SiafundInputs txn) in
    let m := number (v2tx_SiafundOutputs txn) (V2SiafundOutputID txid) index m in
    number (v2tx_FileContracts txn) (V2FileContractID txid) index m) m (imap pair (tp_v2txns p)).

(** ** Eviction

    [sort.Slice] orders entries with equal keys arbitrarily; here they keep their order. *)
Fixpoint insert_by {A} (before : A -> A -> bool) (x : A) (l : list A) : list A :=
  match l with
  | [] => [x]
  | y :: l' => if before y x then y :: insert_by before x l' else x :: l
  end.
Definition sort_by {A} (before : A -> A -> bool) (l : list A) : list A := foldr (insert_by before) [] l.

Record feeTxn := { ft_index : nat; ft_fees : Currency; ft_weight : Z; ft_v2 : bool }.

(** [fees.Div64(weight)] of the first compared with the second *)
Definition cheaper (a b : feeTxn) : bool :=
  match Currency.Div64 (ft_fees a) (ft_weight a), Currency.Div64 (ft_fees b) (ft_weight b) with
  | Ok x, Ok y => Currency.Cmp x y <? 0
  | _, _ => false
  end.

(** [for weight >= max*3/4 && len(txnFees) > 0 { weight -= txnFees[0].weight; ... }] *)
Fixpoint evict (max weight : Z) (txnFees : list feeTxn) : Z * list feeTxn :=
  match txnFees with
  | [] => (weight, [])
  | ft :: rest => if (max * 3) / 4 <=? weight then evict max (u64 (weight - ft_weight ft)) rest
                  else (weight, txnFees)
  end.

(** Comparing two entries divides by their weights. *)
Definition sort_fees (fees : list feeTxn) : outcome (list feeTxn) :=
  if (2 <=? length fees)%nat && existsb (fun ft => ft_weight ft =? 0) fees
  then Panic "integer divide by zero" else Ok (sort_by cheaper fees).

Definition evictLowFees (p : txpool) (max : Z) : outcome txpool :=
  let fees1 := imap (fun i txn => {| ft_index := i; ft_fees := TotalFees txn;
                                     ft_weight := TransactionWeight txn; ft_v2 := false |}) (tp_txns p) in
  let fees2 := imap (fun i txn => {| ft_index := i; ft_fees := v2tx_MinerFee txn;
                                     ft_weight := V2TransactionWeight txn; ft_v2 := true |}) (tp_v2txns p) in
  sorted ← sort_fees (fees1 ++ fees2);
  let '(weight, kept) := evict max (tp_weight p) sorted in
  let kept := sort_by (fun a b => (ft_index a <? ft_index b)%nat) kept in
  let rem := omap (fun ft => if ft_v2 ft then None else tp_txns p !! ft_index ft) kept in
  let v2rem := omap (fun ft => if ft_v2 ft then tp_v2txns p !! ft_index ft else None) kept in
  Ok (tp_setTxns p rem v2rem (tp_indices p) (tp_ms p) weight).
End Pool.
