(* ===== verification/ChainManager.v ===== *)
(** * [coreutils/chain/manager.go]: the chain manager

    State passing over the manager record.  A method that returns an error after it has
    changed the manager returns the changed manager with the error: [outcome (Manager * error)].
    The mutex is held for the whole of every method, so methods are atomic; the calls of
    listeners, made after it is released, are recorded in [m_calls]. *)
From stdpp Require Import prelude strings gmap.
From Stdlib Require Import ZArith Lia.
From S2P Require Import Prelude TypesCurrency TypesData TypesEncoding TypesHash TypesPolicy.
From S2P Require Import ConsensusWork ConsensusState ConsensusMerkle ConsensusQday ConsensusDifficulty.
From S2P Require Import ConsensusMidState ConsensusApply ConsensusValidateV1 ConsensusValidate.
From S2P Require Import TypesMultiproof ChainStore ChainPool.

(** A call of a registered listener. *)
Inductive call := CallReorg (fn : nat) (tip : ChainIndex) | CallPool (fn : nat).

Record Manager {St : Type} := {
  m_store : St; m_tipState : State; m_onReorg : idmap nat; m_onPool : idmap nat;
  m_expiringFileContractOrder : idmap (list FileContractID); m_txpool : txpool;
  m_calls : list call }.
Arguments Manager : clear implicits.

Section Manager.
Context {crypto : Crypto} {edwards : Edwards25519} {St : Type} {store : Store St}.
Abbreviation Mgr := (Manager St).

Definition set_store (m : Mgr) (s : St) : Mgr :=
  {| m_store := s; m_tipState := m_tipState m; m_onReorg := m_onReorg m; m_onPool := m_onPool m;
     m_expiringFileContractOrder := m_expiringFileContractOrder m; m_txpool := m_txpool m;
     m_calls := m_calls m |}.
Definition set_tip (m : Mgr) (s : St) (p : txpool) (cs : State) : Mgr :=
  {| m_store := s; m_tipState := cs; m_onReorg := m_onReorg m; m_onPool := m_onPool m;
     m_expiringFileContractOrder := m_expiringFileContractOrder m; m_txpool := p;
     m_calls := m_calls m |}.
Definition set_pool (m : Mgr) (p : txpool) : Mgr := set_tip m (m_store m) p (m_tipState m).
Definition set_listeners (m : Mgr) (onReorg onPool : idmap nat) (calls : list call) : Mgr :=
  {| m_store := m_store m; m_tipState := m_tipState m; m_onReorg := onReorg; m_onPool := onPool;
     m_expiringFileContractOrder := m_expiringFileContractOrder m; m_txpool := m_txpool m;
     m_calls := calls |}.

Definition NewManager (s : St) (cs : State) (order : idmap (list FileContractID)) : Mgr :=
  {| m_store := s; m_tipState := cs; m_onReorg := ∅; m_onPool := ∅;
     m_expiringFileContractOrder := order; m_txpool := empty_pool; m_calls := [] |}.

(** ** Listeners; the key is drawn at random. *)
Definition OnReorg (m : Mgr) (key : list Z) (fn : nat) : Mgr :=
  set_listeners m (<[key := fn]> (m_onReorg m)) (m_onPool m) (m_calls m).
Definition OnReorg_cancel (m : Mgr) (key : list Z) : Mgr :=
  set_listeners m (delete key (m_onReorg m)) (m_onPool m) (m_calls m).
Definition OnPoolChange (m : Mgr) (key : list Z) (fn : nat) : Mgr :=
  set_listeners m (m_onReorg m) (<[key := fn]> (m_onPool m)) (m_calls m).
Definition OnPoolChange_cancel (m : Mgr) (key : list Z) : Mgr :=
  set_listeners m (m_onReorg m) (delete key (m_onPool m)) (m_calls m).

Definition notify_pool (m : Mgr) : Mgr :=
  set_listeners m (m_onReorg m) (m_onPool m)
    (m_calls m ++ map (fun kv => CallPool (snd kv)) (map_to_list (m_onPool m))).
Definition notify_reorg (m : Mgr) : Mgr :=
  notify_pool (set_listeners m (m_onReorg m) (m_onPool m)
    (m_calls m ++ map (fun kv => CallReorg (snd kv) (s_Index (m_tipState m)))
                    (map_to_list (m_onReorg m)))).

(** ** Queries *)
Definition TipState (m : Mgr) : State := m_tipState m.
Definition Tip (m : Mgr) : ChainIndex := s_Index (m_tipState m).
Definition Manager_Block (m : Mgr) (id : BlockID) : outcome (option Block) :=
  r ← st_Block (m_store m) id; Ok (option_map fst r).
Definition Manager_State (m : Mgr) (id : BlockID) : outcome (option State) := st_State (m_store m) id.
Definition Manager_BestIndex (m : Mgr) (height : Z) : outcome (option ChainIndex) :=
  st_BestIndex (m_store m) height.

Definition is_some {A} (o : option A) : bool := match o with Some _ => true | None => false end.

Fixpoint min_reorg (n : nat) (m : Mgr) (index : ChainIndex) : outcome ChainIndex :=
  match n with
  | O => Ok index
  | S n' =>
      prev ← st_BestIndex (m_store m) (ci_Height index - 1);
      let prevIndex := default {| ci_Height := ci_Height index - 1; ci_ID := zeroHash |} prev in
      b ← st_Block (m_store m) (ci_ID prevIndex);
      if is_some prev && is_some b then min_reorg n' m prevIndex else Ok index
  end.
Definition MinReorgIndex (m : Mgr) : outcome ChainIndex :=
  min_reorg (Z.to_nat (ci_Height (Tip m))) m (Tip m).

Definition histHeight (tipHeight : Z) (i : nat) : Z :=
  let offset := if (10 <=? i)%nat then 7 + 2 ^ (Z.of_nat i - 8) else Z.of_nat i in
  tipHeight - Z.min offset tipHeight.

(** The array is left zero from the first missing index on. *)
Fixpoint history_from (n i : nat) (m : Mgr) : outcome (list BlockID) :=
  match n with
  | O => Ok []
  | S n' =>
      index ← st_BestIndex (m_store m) (histHeight (ci_Height (Tip m)) i);
      match index with
      | None => Ok (replicate n zeroHash)
      | Some index => rest ← history_from n' (S i) m; Ok (ci_ID index :: rest)
      end
  end.
Definition History (m : Mgr) : outcome (list BlockID) := history_from 32 0 m.

Fixpoint headers_from (n : nat) (height : Z) (m : Mgr) : outcome (list BlockHeader) :=
  match n with
  | O => Ok []
  | S n' =>
      index ← st_BestIndex (m_store m) (u64 (height + 1));
      bh ← st_Header (m_store m) (match index with Some i => ci_ID i | None => zeroHash end);
      match bh with
      | None => Err "missing block header"
      | Some bh => rest ← headers_from n' (height + 1) m; Ok (bh :: rest)
      end
  end.
Definition Headers (m : Mgr) (index : ChainIndex) (maxHeaders : Z) : outcome (list BlockHeader * Z) :=
  best ← st_BestIndex (m_store m) (ci_Height index);
  _ ← fail_if (negb (bool_decide (best = Some index))) "index is not on our best chain";
  let n := Z.min maxHeaders (u64 (ci_Height (Tip m) - ci_Height index)) in
  headers ← headers_from (Z.to_nat n) (ci_Height index) m;
  Ok (headers, u64 (ci_Height (Tip m) - (ci_Height index + n))).

(** The height of the first known ID that is on the best chain. *)
Fixpoint attach_height (history : list BlockID) (m : Mgr) : outcome Z :=
  match history with
  | [] => Ok 0
  | id :: history' =>
      cs ← st_State (m_store m) id;
      match cs with
      | None => attach_height history' m
      | Some cs =>
          index ← st_BestIndex (m_store m) (ci_Height (s_Index cs));
          if bool_decide (index = Some (s_Index cs)) then Ok (ci_Height (s_Index cs))
          else attach_height history' m
      end
  end.
Fixpoint blocks_from (n : nat) (height : Z) (m : Mgr) : outcome (list Block) :=
  match n with
  | O => Ok []
  | S n' =>
      index ← st_BestIndex (m_store m) (u64 (height + 1));
      match index with
      | None => Err "unknown block"
      | Some index =>
          b ← st_Block (m_store m) (ci_ID index);
          match b with
          | None => Err "missing block"
          | Some (b, _) => rest ← blocks_from n' (height + 1) m; Ok (b :: rest)
          end
      end
  end.
Definition BlocksForHistory (m : Mgr) (history : list BlockID) (maxBlocks : Z)
    : outcome (list Block * Z) :=
  attachHeight ← attach_height history m;
  let n := Z.min maxBlocks (u64 (ci_Height (Tip m) - attachHeight)) in
  blocks ← blocks_from (Z.to_nat n) attachHeight m;
  Ok (blocks, u64 (ci_Height (Tip m) - (attachHeight + n))).

(** ** Moving the tip *)

(** [if err := o; err != nil { return err }] in a method that may have changed [m] *)
Definition or_return {A} (m : Mgr) (o : outcome A) (k : A -> outcome (Mgr * error))
    : outcome (Mgr * error) :=
  match o with Ok a => k a | Err e => Ok (m, Some e) | Panic p => Panic p end.

Definition revertTip (m : Mgr) : outcome (Mgr * error) :=
  r ← blockAndParent (m_store m) (ci_ID (Tip m));
  match r with
  | None => Ok (m, Some ErrMissingBlock)
  | Some (_, None, _) => nil_dereference
  | Some (b, Some bs, cs) =>
      cru ← RevertBlock cs b bs;
      s ← st_RevertBlock (m_store m) cs cru;
      p ← revertPoolUpdate (m_txpool m) cru cs;
      let p := if isQday cs then restoreQdayPool p (V2Transactions b) else p in
      Ok (set_tip m s p cs, None)
  end.

(** The end of [applyTip]. *)
Definition commitTip (m : Mgr) (s : St) (cs : State) (cau : ApplyUpdate) : outcome (Mgr * error) :=
  s ← st_ApplyBlock s cs cau;
  p ← applyPoolUpdate (m_txpool m) cau cs;
  Ok (set_tip m s p cs, None).

Definition applyTip (m : Mgr) (index : ChainIndex) : outcome (Mgr * error) :=
  r ← st_Block (m_store m) (ci_ID index);
  match r with
  | None => Ok (m, Some ErrMissingBlock)
  | Some (b, bs) =>
      if negb (bool_decide (b_ParentID b = ci_ID (Tip m)))
      then Panic "applyTip called with non-attaching block" else
      match bs with
      | None =>
          bs ← st_SupplementTipBlock (m_store m) b;
          or_return m (overwriteExpirations (m_expiringFileContractOrder m) (Block_ID b) bs) (fun bs =>
          or_return m (ValidateBlock (m_tipState m) b bs) (fun _ =>
          t ← st_AncestorTimestamp (m_store m) (b_ParentID b);
          match t with
          | None => Ok (m, Some "missing ancestor timestamp")
          | Some ancestorTimestamp =>
              '(cs, cau) ← ApplyBlock (m_tipState m) b bs ancestorTimestamp;
              s ← st_AddState (m_store m) cs;
              s ← st_AddBlock s b (Some bs);
              commitTip m s cs cau
          end))
      | Some bs =>
          t ← st_AncestorTimestamp (m_store m) (b_ParentID b);
          match t with
          | None => Ok (m, Some "missing ancestor timestamp")
          | Some ancestorTimestamp =>
              or_return m (overwriteExpirations (m_expiringFileContractOrder m) (Block_ID b) bs) (fun bs =>
              '(cs, cau) ← ApplyBlock (m_tipState m) b bs ancestorTimestamp;
              commitTip m (m_store m) cs cau)
          end
      end
  end.

Fixpoint revertTips (n : nat) (m : Mgr) : outcome (Mgr * error) :=
  match n with
  | O => Ok (m, None)
  | S n' => '(m, err) ← revertTip m;
            match err with Some e => Ok (m, Some e) | None => revertTips n' m end
  end.

Fixpoint applyTips (indices : list ChainIndex) (m : Mgr) : outcome (Mgr * error) :=
  match indices with
  | [] => Ok (m, None)
  | index :: indices' =>
      '(m, err) ← applyTip m index;
      match err with Some e => Ok (m, Some e) | None => applyTips indices' m end
  end.

Definition maxInt : Z := two63 - 1.

(** The caches dropped and the reverted transactions remembered after a reorganisation. *)
Definition resetPool (m : Mgr) (revert : list ChainIndex) : outcome Mgr :=
  let p := tp_setMedian (tp_invalidate (m_txpool m)) None in
  match revert with
  | [] => Ok (set_pool m p)
  | index :: _ =>
      r ← st_Block (m_store m) (ci_ID index);
      let b := match r with Some (b, _) => b | None => zeroBlock end in
      let txns := List.filter (fun txn => negb (length (tx_MinerFees txn) =? 0)%nat) (b_Transactions b) in
      let v2txns := if isQday (m_tipState m) then tp_lastRevertedV2 p
                    else List.filter (fun txn => negb (Currency.IsZero (v2tx_MinerFee txn)))
                           (V2Transactions b) in
      Ok (set_pool m (tp_setReverted p txns v2txns))
  end.

Definition reorgTo (m : Mgr) (index : ChainIndex) : outcome (Mgr * error) :=
  or_return m (reorgPath (m_store m) (Tip m) index maxInt) (fun '(revert, apply) =>
  '(m, err) ← revertTips (length revert) m;
  match err with
  | Some e => Ok (m, Some e)
  | None =>
      '(m, err) ← applyTips apply m;
      match err with
      | Some e => Ok (m, Some e)
      | None =>
          '(s, err) ← st_Flush (m_store m);
          let m := set_store m s in
          match err with
          | Some e => Ok (m, Some e)
          | None => m ← resetPool m revert; Ok (m, None)
          end
      end
  end).

(** ** Adding blocks *)

(** The end of [AddBlocks] and [AddValidatedV2Blocks]. *)
Definition adopt (m : Mgr) (cs : State) : outcome (Mgr * error) :=
  heavier ← SufficientlyHeavierThan cs (m_tipState m);
  if heavier : bool then
    let oldTip := Tip m in
    '(m, err) ← reorgTo m (s_Index cs);
    match err with
    | Some e =>
        '(m, err) ← reorgTo m oldTip;
        match err with
        | Some e => Ok (m, Some ("failed to revert failed reorg: " +:+ e))
        | None => Ok (m, Some ("reorg failed: " +:+ e))
        end
    | None => Ok (notify_reorg m, None)
    end
  else Ok (m, None).

(** The state returned for an unknown ID: the zero state with the store's network. *)
Definition unknownState (m : Mgr) : State :=
  {| s_QdayHeight := 0; s_Network := s_Network (m_tipState m); s_Index := zeroIndex;
     s_PrevTimestamps := replicate 11 0; s_Depth := zeroHash; s_ChildTarget := zeroHash;
     s_SiafundTaxRevenue := Currency.ZeroCurrency; s_OakTime := 0; s_OakTarget := zeroHash;
     s_FoundationSubsidyAddress := zeroHash; s_FoundationManagementAddress := zeroHash;
     s_TotalWork := zeroHash; s_Difficulty := zeroHash; s_OakWork := zeroHash;
     s_Elements := emptyAccumulator; s_Attestations := 0 |}.

(** The loop of [AddBlocks]; [now i] is the time at its [i]-th step. *)
Fixpoint add_blocks (now : nat -> Time) (i : nat) (blocks : list Block) (m : Mgr) (cs : State)
    (k : Mgr -> State -> outcome (Mgr * error)) : outcome (Mgr * error) :=
  match blocks with
  | [] => k m cs
  | b :: blocks' =>
      let bid := Block_ID b in
      r ← st_Block (m_store m) bid;
      match r with
      | Some (_, Some _) =>
          cs ← st_State (m_store m) bid;
          add_blocks now (S i) blocks' m (default (unknownState m) cs) k
      | _ =>
          parent ← (if bool_decide (b_ParentID b = ci_ID (s_Index cs)) then Ok (Some cs)
                    else st_State (m_store m) (b_ParentID b));
          match parent with
          | None => Ok (m, Some "missing parent state for block")
          | Some cs =>
              if time_After (b_Timestamp b) (MaxFutureTimestamp cs (now i)) then Ok (m, Some ErrFutureBlock) else
              or_return m (ValidateOrphan cs b) (fun _ =>
              t ← st_AncestorTimestamp (m_store m) (b_ParentID b);
              match t with
              | None => Ok (m, Some "missing ancestor timestamp")
              | Some ancestorTimestamp =>
                  cs ← ApplyHeader cs (Block_Header b) ancestorTimestamp;
                  s ← st_AddState (m_store m) cs;
                  s ← st_AddBlock s b None;
                  add_blocks now (S i) blocks' (set_store m s) cs k
              end)
          end
      end
  end.

Definition AddBlocks (now : nat -> Time) (m : Mgr) (blocks : list Block) : outcome (Mgr * error) :=
  match blocks with
  | [] => Ok (m, None)
  | _ => add_blocks now 0 blocks m (m_tipState m) adopt
  end.

Fixpoint add_validated (blocks : list Block) (states : list State) (m : Mgr)
    (k : Mgr -> outcome (Mgr * error)) : outcome (Mgr * error) :=
  match blocks, states with
  | b :: blocks', cs :: states' =>
      if negb (is_some (b_V2 b)) then Ok (m, Some "only v2 blocks can be pre-validated") else
      s ← st_AddBlock (m_store m) b (Some {| bs_Transactions := []; bs_ExpiringFileContracts := [] |});
      s ← st_AddState s cs;
      add_validated blocks' states' (set_store m s) k
  | _, _ => k m
  end.

Definition AddValidatedV2Blocks (m : Mgr) (blocks : list Block) (states : list State)
    : outcome (Mgr * error) :=
  match blocks with
  | [] => Ok (m, None)
  | b :: _ =>
      if negb (length states =? length blocks)%nat
      then Ok (m, Some "chain: expected same number of blocks and states") else
      parent ← st_State (m_store m) (b_ParentID b);
      match parent, last states with
      | None, _ => Ok (m, Some "missing parent for block")
      | _, None => index_out_of_range
      | Some _, Some cs => add_validated blocks states m (fun m => adopt m cs)
      end
  end.

(** ** Pruning and subscriptions *)
Fixpoint prune_from (h : nat) (m : Mgr) : outcome Mgr :=
  match h with
  | O => Ok m
  | S h' =>
      index ← st_BestIndex (m_store m) (Z.of_nat h');
      match index with
      | None => Ok m
      | Some index =>
          b ← st_Block (m_store m) (ci_ID index);
          match b with
          | None => Ok m
          | Some _ => s ← st_PruneBlock (m_store m) (ci_ID index); prune_from h' (set_store m s)
          end
      end
  end.
Definition PruneBlocks (m : Mgr) (height : Z) : outcome Mgr := prune_from (Z.to_nat height) m.

Definition onBestChain (m : Mgr) (index : ChainIndex) : outcome bool :=
  bi ← st_BestIndex (m_store m) (ci_Height index);
  let id := match bi with Some bi => ci_ID bi | None => zeroHash end in
  Ok (bool_decide (id = ci_ID index) || bool_decide (index = zeroIndex)).

Record RevertUpdateM := { rum_update : RevertUpdate; rum_Block : Block; rum_State : State }.
Record ApplyUpdateM := { aum_update : ApplyUpdate; aum_Block : Block; aum_State : State }.

Definition supplemented (m : Mgr) (index : ChainIndex)
    : outcome (Block * V1BlockSupplement * State) :=
  r ← blockAndParent (m_store m) (ci_ID index);
  match r with
  | None => Err ErrMissingBlock
  | Some (_, None, _) => Err "missing supplement for block"
  | Some (b, Some bs, cs) => Ok (b, bs, cs)
  end.

(** Every round adds one update. *)
Fixpoint updates_from (n : nat) (m : Mgr) (index : ChainIndex) (rus : list RevertUpdateM)
    (aus : list ApplyUpdateM) : outcome (list RevertUpdateM * list ApplyUpdateM) :=
  match n with
  | O => Ok (rus, aus)
  | S n' =>
      if bool_decide (index = Tip m) then Ok (rus, aus) else
      best ← onBestChain m index;
      if negb best then
        '(b, bs, cs) ← supplemented m index;
        cru ← RevertBlock cs b bs;
        updates_from n' m (s_Index cs) (rus ++ [{| rum_update := cru; rum_Block := b; rum_State := cs |}]) aus
      else
        let h := if bool_decide (index = zeroIndex) then 0 else u64 (ci_Height index + 1) in
        next ← st_BestIndex (m_store m) h;
        let index := default {| ci_Height := h; ci_ID := zeroHash |} next in
        '(b, bs, cs) ← supplemented m index;
        t ← st_AncestorTimestamp (m_store m) (b_ParentID b);
        _ ← fail_if (negb (is_some t) && negb (ci_Height index =? 0)) "missing ancestor timestamp";
        '(cs, cau) ← ApplyBlock cs b bs (default 0 t);
        updates_from n' m index rus (aus ++ [{| aum_update := cau; aum_Block := b; aum_State := cs |}])
  end.
Definition UpdatesSince (m : Mgr) (index : ChainIndex) (maxBlocks : Z)
    : outcome (list RevertUpdateM * list ApplyUpdateM) :=
  updates_from (Z.to_nat maxBlocks) m index [] [].
End Manager.
