(* ===== verification/ChainManagerPool.v ===== *)
(** * [coreutils/chain/manager.go]: the pool methods of the manager *)
From stdpp Require Import prelude strings gmap.
From Stdlib Require Import ZArith Lia.
From S2P Require Import Prelude TypesCurrency TypesData TypesEncoding TypesHash TypesPolicy.
From S2P Require Import ConsensusWork ConsensusState ConsensusMerkle ConsensusQday ConsensusDifficulty.
From S2P Require Import ConsensusMidState ConsensusApply ConsensusValidateV1 ConsensusValidate.
From S2P Require Import TypesMultiproof ChainStore ChainPool ChainManager.

Section ManagerPool.
Context {crypto : Crypto} {edwards : Edwards25519} {St : Type} {store : Store St}.
Abbreviation Mgr := (Manager St).

(** ** [revalidatePool]

    The two loops that add transactions back: the state so far, the positions, the weight and
    the transactions kept.  Invalid transactions are dropped. *)
Definition txpoolMaxWeight : Z := MaxBlockWeight * 10.

Definition readd (s : St) (txn : Transaction) (acc : MidState * idmap nat * Z * list Transaction)
    : outcome (MidState * idmap nat * Z * list Transaction) :=
  let '(ms, indices, weight, filtered) := acc in
  let id := Transaction_ID txn in
  if bool_decide (is_Some (indices !! id)) then Ok acc else
  ts ← st_SupplementTipTransaction s txn;
  match ValidateTransaction ms txn ts with
  | Err _ => Ok acc
  | Panic p => Panic p
  | Ok _ =>
      ms ← ApplyTransaction ms txn ts;
      Ok (ms, <[id := length filtered]> indices, u64 (weight + TransactionWeight txn),
          filtered ++ [txn])
  end.

Definition readdV2 (txn : V2Transaction) (acc : MidState * idmap nat * Z * list V2Transaction)
    : outcome (MidState * idmap nat * Z * list V2Transaction) :=
  let '(ms, indices, weight, filtered) := acc in
  let id := V2Transaction_ID txn in
  if bool_decide (is_Some (indices !! id)) then Ok acc else
  match ValidateV2Transaction ms txn with
  | Err _ => Ok acc
  | Panic p => Panic p
  | Ok _ =>
      ms ← ApplyV2Transaction ms txn;
      Ok (ms, <[id := length filtered]> indices, u64 (weight + V2TransactionWeight txn),
          filtered ++ [txn])
  end.

Definition revalidatePool (m : Mgr) : outcome Mgr :=
  let p := m_txpool m in
  if is_some (tp_ms p) && (tp_weight p <? txpoolMaxWeight) then Ok m else
  p ← (if txpoolMaxWeight <=? tp_weight p then evictLowFees p txpoolMaxWeight else Ok p);
  '(ms, indices, weight, txns) ←
    for_each (tp_txns p ++ tp_lastReverted p) 0 (NewMidState (m_tipState m), ∅, 0, [])
      (fun _ txn acc => readd (m_store m) txn acc);
  let v2txns := tp_v2txns p ++ tp_lastRevertedV2 p in
  let v2txns := if isQday (m_tipState m)
                then updateQdayEphemeralHeights v2txns (u64 (ci_Height (Tip m) + 1)) else v2txns in
  '(ms, indices, weight, v2txns) ←
    for_each v2txns 0 (ms, indices, weight, []) (fun _ txn acc => readdV2 txn acc);
  Ok (set_pool m (tp_setTxns p txns v2txns indices (Some ms) weight)).

(** ** Pool queries; each revalidates first. *)
Definition PoolTransaction (m : Mgr) (id : TransactionID) : outcome (Mgr * option Transaction) :=
  m ← revalidatePool m;
  match tp_indices (m_txpool m) !! id with
  | None => Ok (m, None)
  | Some i => match tp_txns (m_txpool m) !! i with
              | Some txn => Ok (m, Some txn)
              | None => index_out_of_range
              end
  end.
Definition PoolTransactions (m : Mgr) : outcome (Mgr * list Transaction) :=
  m ← revalidatePool m; Ok (m, tp_txns (m_txpool m)).
Definition V2PoolTransaction (m : Mgr) (id : TransactionID) : outcome (Mgr * option V2Transaction) :=
  m ← revalidatePool m;
  match tp_indices (m_txpool m) !! id with
  | None => Ok (m, None)
  | Some i => match tp_v2txns (m_txpool m) !! i with
              | Some txn => Ok (m, Some (V2Transaction_DeepCopy txn))
              | None => index_out_of_range
              end
  end.
Definition V2PoolTransactions (m : Mgr) : outcome (Mgr * list V2Transaction) :=
  m ← revalidatePool m; Ok (m, map V2Transaction_DeepCopy (tp_v2txns (m_txpool m))).

(** The first transactions with the wanted hashes, and the hashes still wanted. *)
Fixpoint pick {A : Type} (hash : A -> Hash256) (want : gset (list Z)) (l : list A)
    : list A * gset (list Z) :=
  match l with
  | [] => ([], want)
  | x :: l' =>
      if bool_decide (hash x ∈ want) then
        let want := want ∖ {[hash x]} in
        if bool_decide (want = ∅) then ([x], want)
        else let '(r, want) := pick hash want l' in (x :: r, want)
      else pick hash want l'
  end.
(** The loop over v2 transactions is not reached when nothing is wanted after a v1 match. *)
Definition TransactionsForPartialBlock (m : Mgr) (missing : list Hash256)
    : outcome (Mgr * (list Transaction * list V2Transaction)) :=
  m ← revalidatePool m;
  let want : gset (list Z) := list_to_set missing in
  let '(txns, want) := pick Transaction_MerkleLeafHash want (tp_txns (m_txpool m)) in
  if bool_decide (want = ∅) then Ok (m, (txns, [])) else
  let '(v2txns, _) := pick V2Transaction_MerkleLeafHash want (tp_v2txns (m_txpool m)) in
  Ok (m, (txns, map V2Transaction_DeepCopy v2txns)).

(** ** Fees *)
Record weightedFee := { wf_weight : Z; wf_fee : Currency }.

(** The loop stops at the last entry at the latest. *)
Fixpoint percentile (progress : Z) (dflt : Currency) (fees : list weightedFee) : Currency :=
  match fees with
  | [] => dflt
  | wf :: fees' =>
      let progress := u64 (progress + wf_weight wf) in
      if MaxBlockWeight / 4 <? progress then wf_fee wf else percentile progress (wf_fee wf) fees'
  end.

Definition calculateBlockMedianFee (b : Block) : Currency :=
  let fees := map (fun txn => {| wf_weight := TransactionWeight txn; wf_fee := TotalFees txn |})
                (b_Transactions b) ++
              map (fun txn => {| wf_weight := V2TransactionWeight txn; wf_fee := v2tx_MinerFee txn |})
                (V2Transactions b) in
  let remaining := foldl (fun r wf => u64 (r - wf_weight wf)) MaxBlockWeight fees in
  let fees := fees ++ [{| wf_weight := remaining; wf_fee := Currency.ZeroCurrency |}] in
  percentile 0 Currency.ZeroCurrency (sort_by (fun a b => Currency.Cmp (wf_fee a) (wf_fee b) <? 0) fees).

Fixpoint prev_fees (n : nat) (i : Z) (m : Mgr) : outcome (list Currency) :=
  match n with
  | O => Ok []
  | S n' =>
      index ← st_BestIndex (m_store m) (u64 (ci_Height (Tip m) - i));
      r ← blockAndParent (m_store m) (match index with Some i => ci_ID i | None => zeroHash end);
      rest ← prev_fees n' (i + 1) m;
      Ok (match index, r with
          | Some _, Some (b, _, _) => calculateBlockMedianFee b :: rest
          | _, _ => rest
          end)
  end.

Definition computeMedianFee (m : Mgr) : outcome (Mgr * Currency) :=
  match tp_medianFee (m_txpool m) with
  | Some fee => Ok (m, fee)
  | None =>
      fees ← prev_fees 10 0 m;
      let fees := sort_by (fun a b => Currency.Cmp a b <? 0) fees in
      match fees !! (length fees / 2)%nat with
      | None => Ok (m, Currency.ZeroCurrency)
      | Some fee => Ok (set_pool m (tp_setMedian (m_txpool m) (Some fee)), fee)
      end
  end.

Definition RecommendedFee (m : Mgr) : outcome (Mgr * Currency) :=
  m ← revalidatePool m;
  '(m, medianFee) ← computeMedianFee m;
  let estPoolWeight := u64 (tp_weight (m_txpool m) + 10000) in
  let targetWeight := 3000000 in
  sc ← Currency.Siacoins 1;
  w ← Currency.Div64 sc 1000;
  w ← Currency.Mul64 w estPoolWeight;
  w ← Currency.Div64 w targetWeight;
  w ← Currency.Mul64 w estPoolWeight;
  w ← Currency.Div64 w targetWeight;
  w ← Currency.Mul64 w estPoolWeight;
  weightFee ← Currency.Div64 w targetWeight;
  minFee ← Currency.Div64 sc 100000;
  let fee := if Currency.Cmp medianFee weightFee <? 0 then weightFee else medianFee in
  let fee := if Currency.Cmp fee minFee <? 0 then minFee else fee in
  Ok (m, fee).

(** ** Parents *)

(** [check(id)]: the positions seen, and the parents in the order found. *)
Definition check_parent {A : Type} (parentMap : idmap nat) (txns : list A) (id : Hash256)
    (acc : gset nat * list A) : outcome (gset nat * list A) :=
  let '(seen, parents) := acc in
  match parentMap !! id with
  | None => Ok acc
  | Some index =>
      if bool_decide (index ∈ seen) then Ok acc else
      match txns !! index with
      | Some txn => Ok ({[index]} ∪ seen, parents ++ [txn])
      | None => index_out_of_range
      end
  end.
Definition check_parents {A : Type} (parentMap : idmap nat) (txns : list A) (ids : list Hash256)
    (acc : gset nat * list A) : outcome (gset nat * list A) :=
  for_each ids 0 acc (fun _ id acc => check_parent parentMap txns id acc).

Definition v1_parent_ids (txn : Transaction) : list Hash256 :=
  map sci_ParentID (tx_SiacoinInputs txn) ++ map sfi_ParentID (tx_SiafundInputs txn) ++
  map fcr_ParentID (tx_FileContractRevisions txn) ++ map sp_ParentID (tx_StorageProofs txn).
Definition v2_parent_ids (txn : V2Transaction) : list Hash256 :=
  map (fun i => sce_ID (v2sci_Parent i)) (v2tx_SiacoinInputs txn) ++
  map (fun i => sfe_ID (v2sfi_Parent i)) (v2tx_SiafundInputs txn) ++
  map (fun r => v2fce_ID (v2fcr_Parent r)) (v2tx_FileContractRevisions txn) ++
  map (fun r => v2fce_ID (res_Parent r)) (v2tx_FileContractResolutions txn).

(** Rounds over all parents until none is added: at most one round per pool transaction
    and a last one that adds nothing. *)
Fixpoint close_parents (fuel : nat) (parentMap : idmap nat) (txns : list Transaction)
    (acc : gset nat * list Transaction) : outcome (gset nat * list Transaction) :=
  match fuel with
  | O => out_of_fuel
  | S fuel' =>
      acc' ← for_each (snd acc) 0 acc (fun _ txn acc => check_parents parentMap txns (v1_parent_ids txn) acc);
      if (length (snd acc') =? length (snd acc))%nat then Ok acc'
      else close_parents fuel' parentMap txns acc'
  end.

Definition UnconfirmedParents (m : Mgr) (txn : Transaction) : outcome (Mgr * list Transaction) :=
  m ← revalidatePool m;
  let parentMap := computeParentMap (m_txpool m) in
  let txns := tp_txns (m_txpool m) in
  acc ← check_parents parentMap txns (v1_parent_ids txn) (∅, []);
  '(_, parents) ← close_parents (S (length txns)) parentMap txns acc;
  Ok (m, rev parents).

(** [for i := 0; i < len(parents); i++ { addParents(parents[i]) }]: every pool transaction is
    found at most once. *)
Fixpoint walk_parents (fuel i : nat) (parentMap : idmap nat) (txns : list V2Transaction)
    (acc : gset nat * list V2Transaction) : outcome (gset nat * list V2Transaction) :=
  match snd acc !! i with
  | None => Ok acc
  | Some txn =>
      match fuel with
      | O => out_of_fuel
      | S fuel' =>
          acc ← check_parents parentMap txns (v2_parent_ids txn) acc;
          walk_parents fuel' (S i) parentMap txns acc
      end
  end.

(** ** Checking and updating sets *)
Definition checkTxnSet (m : Mgr) (txns : list Transaction) (v2txns : list V2Transaction)
    : outcome bool :=
  _ ← checkEphemeralOutputs v2txns;
  _ ← checkFileContractRevisions v2txns;
  let known id := bool_decide (is_Some (tp_indices (m_txpool m) !! id)) in
  '(allInPool, ms) ← for_each txns 0 (true, NewMidState (m_tipState m)) (fun _ txn '(all, ms) =>
    ts ← st_SupplementTipTransaction (m_store m) txn;
    _ ← wrap_err "transaction is invalid: " (ValidateTransaction ms txn ts);
    ms ← ApplyTransaction ms txn ts;
    Ok (all && known (Transaction_ID txn), ms));
  '(allInPool, _) ← for_each v2txns 0 (allInPool, ms) (fun _ txn '(all, ms) =>
    _ ← wrap_err "v2 transaction is invalid: " (ValidateV2Transaction ms txn);
    ms ← ApplyV2Transaction ms txn;
    Ok (all && known (V2Transaction_ID txn), ms));
  Ok allInPool.

(** A block with its (reordered) supplement and parent state. *)
Definition pathBlock (m : Mgr) (index : ChainIndex) : outcome (Block * V1BlockSupplement * State) :=
  r ← blockAndParent (m_store m) (ci_ID index);
  match r with
  | None => Err "missing block"
  | Some (_, None, _) => Err "missing block supplement"
  | Some (b, Some bs, cs) =>
      bs ← overwriteExpirations (m_expiringFileContractOrder m) (Block_ID b) bs;
      Ok (b, bs, cs)
  end.

Definition update_or_fail (update : StateElement -> outcome StateElement) (numLeaves : Z)
    (txn : V2Transaction) : outcome V2Transaction :=
  '(valid, txn) ← updateTxnProofs txn update numLeaves;
  if (valid : bool) then Ok txn
  else Err "transaction references element that does not exist in our chain".

Definition revertPath (m : Mgr) (index : ChainIndex) (updated : list V2Transaction)
    : outcome (list V2Transaction) :=
  '(b, bs, cs) ← pathBlock m index;
  cru ← RevertBlock cs b bs;
  for_each updated 0 [] (fun _ txn acc =>
    txn ← update_or_fail (RevertUpdate_UpdateElementProof cru) (ea_NumLeaves (s_Elements cs)) txn;
    Ok (acc ++ [txn])).

(** Inputs whose ephemeral parent the block confirmed. *)
Definition confirm_inputs (cs : State) (confirmed : idmap StateElement) (txn : V2Transaction)
    : V2Transaction :=
  let txn := map_sci (fun i =>
    if negb (sci_unassigned i) then i else
    match confirmed !! sce_ID (v2sci_Parent i) with
    | None => i
    | Some se =>
        let i := {| v2sci_Parent := set_sce_se (fun _ => StateElement_Share se) (v2sci_Parent i);
                    v2sci_SatisfiedPolicy := v2sci_SatisfiedPolicy i |} in
        if isQday cs then set_maturity (ci_Height (s_Index cs)) i else i
    end) txn in
  {| v2tx_SiacoinInputs := v2tx_SiacoinInputs txn; v2tx_SiacoinOutputs := v2tx_SiacoinOutputs txn;
     v2tx_SiafundInputs := map (fun i =>
       if negb (se_LeafIndex (sfe_StateElement (v2sfi_Parent i)) =? UnassignedLeafIndex) then i else
       match confirmed !! sfe_ID (v2sfi_Parent i) with
       | None => i
       | Some se => {| v2sfi_Parent := set_sfe_se (fun _ => StateElement_Share se) (v2sfi_Parent i);
                       v2sfi_ClaimAddress := v2sfi_ClaimAddress i;
                       v2sfi_SatisfiedPolicy := v2sfi_SatisfiedPolicy i |}
       end) (v2tx_SiafundInputs txn);
     v2tx_SiafundOutputs := v2tx_SiafundOutputs txn; v2tx_FileContracts := v2tx_FileContracts txn;
     v2tx_FileContractRevisions := v2tx_FileContractRevisions txn;
     v2tx_FileContractResolutions := v2tx_FileContractResolutions txn;
     v2tx_Attestations := v2tx_Attestations txn; v2tx_ArbitraryData := v2tx_ArbitraryData txn;
     v2tx_NewFoundationAddress := v2tx_NewFoundationAddress txn; v2tx_MinerFee := v2tx_MinerFee txn |}.

Definition applyPath (m : Mgr) (index : ChainIndex) (updated : list V2Transaction)
    : outcome (list V2Transaction) :=
  '(b, bs, cs) ← pathBlock m index;
  t ← st_AncestorTimestamp (m_store m) (b_ParentID b);
  '(cs, cau) ← ApplyBlock cs b bs (default 0 t);
  let confirmedTxns : gset (list Z) := list_to_set (map V2Transaction_ID (V2Transactions b)) in
  let confirmed := created_elements (au_sces cau) (au_sfes cau) [] [] in
  for_each updated 0 [] (fun _ txn rem =>
    if bool_decide (V2Transaction_ID txn ∈ confirmedTxns) then Ok rem else
    txn ← update_or_fail (ApplyUpdate_UpdateElementProof cau) (ea_NumLeaves (s_Elements cs))
            (confirm_inputs cs confirmed txn);
    Ok (rem ++ [txn])).

Definition updateV2TransactionProofs (m : Mgr) (txns : list V2Transaction) (from to : ChainIndex)
    : outcome (list V2Transaction) :=
  basis ← st_State (m_store m) (ci_ID from);
  match basis with
  | None => Err "couldn't find state for basis"
  | Some basisState =>
      _ ← for_each txns 0 tt (fun _ txn _ =>
            wrap_err "transaction is invalid: " (ValidateTransactionElements (s_Elements basisState) txn));
      '(revert, apply) ← wrap_err "couldn't determine reorg path: " (reorgPath (m_store m) from to 144);
      let updated := map V2Transaction_DeepCopy txns in
      updated ← for_each revert 0 updated (fun _ index updated => revertPath m index updated);
      updated ← for_each apply 0 updated (fun _ index updated => applyPath m index updated);
      Ok (if isQday basisState && negb (bool_decide (from = to))
          then updateQdayEphemeralHeights updated (u64 (ci_Height to + 1)) else updated)
  end.

Definition UpdateV2TransactionSet (m : Mgr) (txns : list V2Transaction) (from to : ChainIndex)
    : outcome (list V2Transaction) :=
  if bool_decide (from = to) then Ok txns else updateV2TransactionProofs m txns from to.

(** The parents are sorted by their position in the pool. *)
Definition V2TransactionSet (m : Mgr) (basis : ChainIndex) (txn : V2Transaction)
    : outcome (Mgr * (ChainIndex * list V2Transaction)) :=
  m ← revalidatePool m;
  updated ← wrap_err "failed to update transaction set basis: "
              (updateV2TransactionProofs m [txn] basis (Tip m));
  match updated with
  | [] => Ok (m, (Tip m, []))
  | txn :: _ =>
      let parentMap := computeParentMap (m_txpool m) in
      let v2txns := tp_v2txns (m_txpool m) in
      acc ← check_parents parentMap v2txns (v2_parent_ids txn) (∅, []);
      '(_, parents) ← walk_parents (length v2txns) 0 parentMap v2txns acc;
      let parents := map V2Transaction_DeepCopy parents in
      let position p := default 0%nat (tp_indices (m_txpool m) !! V2Transaction_ID p) in
      let parents := sort_by (fun a b => (position a <? position b)%nat) parents in
      Ok (m, (Tip m, parents ++ [txn]))
  end.

(** ** Adding transactions *)
Definition pool_ms (p : txpool) : outcome MidState :=
  match tp_ms p with Some ms => Ok ms | None => nil_dereference end.

Definition in_pool (p : txpool) (id : TransactionID) : bool := bool_decide (is_Some (tp_indices p !! id)).

Fixpoint add_txns (m : Mgr) (txns : list Transaction) : outcome (Mgr * (bool * error)) :=
  match txns with
  | [] => Ok (notify_pool (set_pool m (tp_setMedian (m_txpool m) None)), (false, None))
  | txn :: txns' =>
      let p := m_txpool m in
      let txid := Transaction_ID txn in
      if in_pool p txid then add_txns m txns' else
      ts ← st_SupplementTipTransaction (m_store m) txn;
      ms ← pool_ms p;
      match ValidateTransaction ms txn ts with
      | Panic e => Panic e
      | Err e => Ok (set_pool m (tp_invalidate p), (false, Some ("transaction conflicts with pool: " +:+ e)))
      | Ok _ =>
          ms ← ApplyTransaction ms txn ts;
          add_txns (set_pool m (tp_setTxns p (tp_txns p ++ [txn]) (tp_v2txns p)
                      (<[txid := length (tp_txns p)]> (tp_indices p)) (Some ms)
                      (u64 (tp_weight p + TransactionWeight txn)))) txns'
      end
  end.

Definition AddPoolTransactions (m : Mgr) (txns : list Transaction) : outcome (Mgr * (bool * error)) :=
  m ← revalidatePool m;
  match checkTxnSet m txns [] with
  | Panic e => Panic e
  | Err e => Ok (m, (false, Some e))
  | Ok true => Ok (m, (true, None))
  | Ok false => add_txns m txns
  end.

(** [startLen] and [startWeight] are taken before the loop. *)
Fixpoint add_v2txns (startLen : nat) (startWeight : Z) (m : Mgr) (txns : list V2Transaction)
    : outcome (Mgr * (bool * error)) :=
  match txns with
  | [] => Ok (notify_pool (set_pool m (tp_setMedian (m_txpool m) None)), (false, None))
  | txn :: txns' =>
      let p := m_txpool m in
      let txid := V2Transaction_ID txn in
      if in_pool p txid then add_v2txns startLen startWeight m txns' else
      ms ← pool_ms p;
      match ValidateV2Transaction ms txn with
      | Panic e => Panic e
      | Err e =>
          let indices := foldl (fun idx added => delete (V2Transaction_ID added) idx) (tp_indices p)
                           (drop startLen (tp_v2txns p)) in
          Ok (set_pool m (tp_setTxns p (tp_txns p) (take startLen (tp_v2txns p)) indices None startWeight),
              (false, Some ("transaction conflicts with pool: " +:+ e)))
      | Ok _ =>
          ms ← ApplyV2Transaction ms txn;
          add_v2txns startLen startWeight (set_pool m (tp_setTxns p (tp_txns p) (tp_v2txns p ++ [txn])
            (<[txid := length (tp_v2txns p)]> (tp_indices p)) (Some ms)
            (u64 (tp_weight p + V2TransactionWeight txn)))) txns'
      end
  end.

Definition AddV2PoolTransactions (m : Mgr) (basis : ChainIndex) (txns : list V2Transaction)
    : outcome (Mgr * (bool * error)) :=
  m ← revalidatePool m;
  if negb (length txns =? 0)%nat && forallb (fun txn => in_pool (m_txpool m) (V2Transaction_ID txn)) txns
  then Ok (m, (true, None)) else
  let txns := map V2Transaction_DeepCopy txns in
  match updateV2TransactionProofs m txns basis (Tip m) with
  | Panic e => Panic e
  | Err e => Ok (m, (false, Some ("failed to update set basis: " +:+ e)))
  | Ok txns =>
      match checkTxnSet m [] txns with
      | Panic e => Panic e
      | Err e => Ok (m, (false, Some e))
      | Ok true => Ok (m, (true, None))
      | Ok false => add_v2txns (length (tp_v2txns (m_txpool m))) (tp_weight (m_txpool m)) m txns
      end
  end.
End ManagerPool.
