(* ===== verification/Gateway.v ===== *)
(** * [core/gateway]: outlines, messages and the handshake

    Block outlines ([outline.go]), the objects exchanged by peers ([encoding.go]) and the two
    ends of a handshake ([transport.go]). *)
From stdpp Require Import prelude strings gmap.
From Stdlib Require Import ZArith Lia Ascii.
From S2P Require Import Prelude TypesCurrency TypesData TypesEncoding TypesHash ConsensusState TypesMultiproof.
From S2P Require Import ConsensusCodec ChainStore ChainDBInit.

(** * [core/gateway/outline.go] and [encoding.go]: block outlines and the objects of the protocol

    An outline is a block in which transactions are replaced by their hashes.  A message of the
    protocol is an [Object]: a request with its response, each with a codec and a length limit. *)

(** ** Outlines *)
Record OutlineTransaction := {
  ot_Hash : Hash256; ot_Transaction : option Transaction; ot_V2Transaction : option V2Transaction }.
Record V2BlockOutline := {
  bo_Height : Z; bo_ParentID : BlockID; bo_Nonce : Z; bo_Timestamp : Time; bo_MinerAddress : Address;
  bo_Transactions : list OutlineTransaction }.

Definition set_transactions (bo : V2BlockOutline) (l : list OutlineTransaction) : V2BlockOutline :=
  {| bo_Height := bo_Height bo; bo_ParentID := bo_ParentID bo; bo_Nonce := bo_Nonce bo; bo_Timestamp := bo_Timestamp bo;
     bo_MinerAddress := bo_MinerAddress bo; bo_Transactions := l |}.
Definition omitted (t : OutlineTransaction) : bool :=
  match ot_Transaction t, ot_V2Transaction t with None, None => true | _, _ => false end.

Section Outline.
Context {crypto : Crypto}.

Definition outline_commitment (bo : V2BlockOutline) (cs : State) : Hash256 :=
  Accumulator.Root (Accumulator.of_leaves (State_MerkleLeafHash cs (bo_MinerAddress bo) :: map ot_Hash (bo_Transactions bo))).

Definition outline_ID (bo : V2BlockOutline) (cs : State) : BlockID :=
  BlockHeader_ID {| bh_ParentID := bo_ParentID bo; bh_Nonce := bo_Nonce bo; bh_Timestamp := bo_Timestamp bo;
                    bh_Commitment := outline_commitment bo cs |}.

Definition Missing (bo : V2BlockOutline) : list Hash256 := map ot_Hash (filter (fun t => omitted t = true) (bo_Transactions bo)).

(** [v1hashes] and [v2hashes]: a later transaction replaces an earlier one with its hash. *)
Definition by_hash {A} (hash : A -> Hash256) (l : list A) : idmap A := foldl (fun m x => <[hash x := x]> m) ∅ l.
Definition fill (v1hashes : idmap Transaction) (v2hashes : idmap V2Transaction) (t : OutlineTransaction) : OutlineTransaction :=
  if omitted t then {| ot_Hash := ot_Hash t; ot_Transaction := v1hashes !! ot_Hash t; ot_V2Transaction := v2hashes !! ot_Hash t |}
  else t.

(** The block so far: its transactions and the value of the miner payout. *)
Definition complete_step (t : OutlineTransaction) (acc : list Transaction * list V2Transaction * Currency)
    : outcome (list Transaction * list V2Transaction * Currency) :=
  let '(txns, v2txns, value) := acc in
  match ot_Transaction t, ot_V2Transaction t with
  | Some txn, _ => value ← Currency.Add value (TotalFees txn); Ok (txns ++ [txn], v2txns, value)
  | None, Some txn => value ← Currency.Add value (v2tx_MinerFee txn); Ok (txns, v2txns ++ [txn], value)
  | None, None => Ok acc
  end.
Definition Complete (bo : V2BlockOutline) (cs : State) (txns : list Transaction) (v2txns : list V2Transaction)
    : outcome (V2BlockOutline * (Block * list Hash256)) :=
  reward ← BlockReward cs;
  let bo' := set_transactions bo (map (fill (by_hash Transaction_MerkleLeafHash txns) (by_hash V2Transaction_MerkleLeafHash v2txns))
                                   (bo_Transactions bo)) in
  '(txns, v2txns, value) ← for_each (bo_Transactions bo') 0 ([], [], reward) (fun _ t acc => complete_step t acc);
  Ok (bo', ({| b_ParentID := bo_ParentID bo; b_Nonce := bo_Nonce bo; b_Timestamp := bo_Timestamp bo;
               b_MinerPayouts := [{| sco_Value := value; sco_Address := bo_MinerAddress bo |}]; b_Transactions := txns;
               b_V2 := Some {| v2b_Height := bo_Height bo; v2b_Commitment := outline_commitment bo cs; v2b_Transactions := v2txns |} |},
            Missing bo')).

Definition omit (t : OutlineTransaction) : OutlineTransaction :=
  {| ot_Hash := ot_Hash t; ot_Transaction := None; ot_V2Transaction := None |}.
Definition RemoveTransactions (bo : V2BlockOutline) (txns : list Transaction) (v2txns : list V2Transaction) : V2BlockOutline :=
  let remove : gset (list Z) := list_to_set (map Transaction_MerkleLeafHash txns ++ map V2Transaction_MerkleLeafHash v2txns) in
  set_transactions bo (map (fun t => if bool_decide (ot_Hash t ∈ remove) then omit t else t) (bo_Transactions bo)).

Definition outline_txn (txn : Transaction) : OutlineTransaction :=
  {| ot_Hash := Transaction_MerkleLeafHash txn; ot_Transaction := Some txn; ot_V2Transaction := None |}.
Definition outline_v2txn (txn : V2Transaction) : OutlineTransaction :=
  {| ot_Hash := V2Transaction_MerkleLeafHash txn; ot_Transaction := None; ot_V2Transaction := Some txn |}.
Definition OutlineBlock (b : Block) (txns : list Transaction) (v2txns : list V2Transaction) : outcome V2BlockOutline :=
  match b_V2 b, b_MinerPayouts b with
  | None, _ => nil_dereference
  | Some _, [] => Panic "index out of range"
  | Some v2, payout :: _ =>
      Ok (RemoveTransactions
            {| bo_Height := v2b_Height v2; bo_ParentID := b_ParentID b; bo_Nonce := b_Nonce b; bo_Timestamp := b_Timestamp b;
               bo_MinerAddress := sco_Address payout;
               bo_Transactions := map outline_txn (b_Transactions b) ++ map outline_v2txn (v2b_Transactions v2) |} txns v2txns)
  end.

(** ** Their wire format *)
Definition outline_kind (t : OutlineTransaction) : Z :=
  match ot_Transaction t, ot_V2Transaction t with Some _, _ => 0 | None, Some _ => 1 | None, None => 2 end.
Definition outline_v1s (l : list OutlineTransaction) : list Transaction := omap ot_Transaction l.
Definition outline_v2s (l : list OutlineTransaction) : list V2Transaction :=
  omap (fun t => match ot_Transaction t with Some _ => None | None => ot_V2Transaction t end) l.

Definition outline_encodeTo (ob : V2BlockOutline) : outcome bytes :=
  let l := bo_Transactions ob in
  v2txns ← V2TransactionsMultiproof_EncodeTo (outline_v2s l);
  Ok (WriteUint64 (bo_Height ob) ++ Array_EncodeTo (bo_ParentID ob) ++ WriteUint64 (bo_Nonce ob) ++ WriteTime (bo_Timestamp ob) ++
      Array_EncodeTo (bo_MinerAddress ob) ++ EncodeSlice Transaction_EncodeTo (outline_v1s l) ++ v2txns ++
      EncodeSlice Array_EncodeTo (Missing ob) ++ flat_map (fun t => WriteUint8 (outline_kind t)) l).

Definition read_kind : Decode Z :=
  k ← ReadUint8; if 2 <? k then decode_err "invalid outline transaction type" else mret k.
Definition count_kind (k : Z) (kinds : list Z) : nat := length (filter (fun x => x = k) kinds).
Fixpoint assign_kinds (kinds : list Z) (txns : list Transaction) (v2txns : list V2Transaction) (hashes : list Hash256)
    : outcome (list OutlineTransaction) :=
  match kinds with
  | [] => Ok []
  | k :: kinds =>
      if k =? 0 then
        match txns with
        | [] => Panic "index out of range"
        | txn :: txns => l ← assign_kinds kinds txns v2txns hashes; Ok (outline_txn txn :: l)
        end
      else if k =? 1 then
        match v2txns with
        | [] => Panic "index out of range"
        | txn :: v2txns => l ← assign_kinds kinds txns v2txns hashes; Ok (outline_v2txn txn :: l)
        end
      else
        match hashes with
        | [] => Panic "index out of range"
        | h :: hashes =>
            l ← assign_kinds kinds txns v2txns hashes; Ok ({| ot_Hash := h; ot_Transaction := None; ot_V2Transaction := None |} :: l)
        end
  end.
Definition outline_decodeFrom : Decode V2BlockOutline :=
  height ← ReadUint64; parent ← Hash256_DecodeFrom; nonce ← ReadUint64; timestamp ← ReadTime; miner ← Hash256_DecodeFrom;
  txns ← DecodeSlice Transaction_DecodeFrom;
  v2txns ← V2TransactionsMultiproof_DecodeFrom;
  hashes ← DecodeSlice Hash256_DecodeFrom;
  kinds ← decode_n read_kind (length txns + length v2txns + length hashes);
  if negb ((count_kind 0 kinds =? length txns)%nat && (count_kind 1 kinds =? length v2txns)%nat && (count_kind 2 kinds =? length hashes)%nat)
  then decode_err "outline kinds do not match received kinds" else
  l ← lift_outcome (assign_kinds kinds txns v2txns hashes);
  mret {| bo_Height := height; bo_ParentID := parent; bo_Nonce := nonce; bo_Timestamp := timestamp; bo_MinerAddress := miner;
          bo_Transactions := l |}.

(** ** Objects

    The state of a checkpoint has no network on the wire; the source leaves a nil pointer, which
    the caller replaces by its own network.  Here the network is the argument [n] of the codec. *)
Inductive Object :=
  | RPCShareNodes (Peers : list bytes)
  | RPCDiscoverIP (IP : bytes)
  | RPCSendHeaders (Index : ChainIndex) (Max : Z) (Headers : list BlockHeader) (Remaining : Z)
  | RPCSendV2Blocks (History : list BlockID) (Max : Z) (Blocks : list Block) (Remaining : Z)
  | RPCSendTransactions (Index : ChainIndex) (Hashes : list Hash256) (Transactions : list Transaction) (V2Transactions : list V2Transaction)
  | RPCSendCheckpoint (Index : ChainIndex) (B : Block) (S : State)
  | RPCRelayV2Header (Header : BlockHeader)
  | RPCRelayV2BlockOutline (B : V2BlockOutline)
  | RPCRelayV2TransactionSet (Index : ChainIndex) (Transactions : list V2Transaction).

Definition encodeRequest (r : Object) : outcome bytes :=
  match r with
  | RPCShareNodes _ | RPCDiscoverIP _ => Ok []
  | RPCSendHeaders i m _ _ => Ok (ChainIndex_EncodeTo i ++ WriteUint64 m)
  | RPCSendV2Blocks h m _ _ => Ok (EncodeSlice Array_EncodeTo h ++ WriteUint64 m)
  | RPCSendTransactions i h _ _ => Ok (ChainIndex_EncodeTo i ++ EncodeSlice Array_EncodeTo h)
  | RPCSendCheckpoint i _ _ => Ok (ChainIndex_EncodeTo i)
  | RPCRelayV2Header h => Ok (BlockHeader_EncodeTo h)
  | RPCRelayV2BlockOutline b => outline_encodeTo b
  | RPCRelayV2TransactionSet i txns => Ok (ChainIndex_EncodeTo i ++ EncodeSlice V2Transaction_EncodeTo txns)
  end.
Definition decodeRequest (r : Object) : Decode Object :=
  match r with
  | RPCShareNodes _ | RPCDiscoverIP _ => mret r
  | RPCSendHeaders _ _ hs n => i ← ChainIndex_DecodeFrom; m ← ReadUint64; mret (RPCSendHeaders i m hs n)
  | RPCSendV2Blocks _ _ bs n => h ← DecodeSlice Hash256_DecodeFrom; m ← ReadUint64; mret (RPCSendV2Blocks h m bs n)
  | RPCSendTransactions _ _ ts v2ts =>
      i ← ChainIndex_DecodeFrom; h ← DecodeSlice Hash256_DecodeFrom; mret (RPCSendTransactions i h ts v2ts)
  | RPCSendCheckpoint _ b s => i ← ChainIndex_DecodeFrom; mret (RPCSendCheckpoint i b s)
  | RPCRelayV2Header _ => h ← BlockHeader_DecodeFrom; mret (RPCRelayV2Header h)
  | RPCRelayV2BlockOutline _ => b ← outline_decodeFrom; mret (RPCRelayV2BlockOutline b)
  | RPCRelayV2TransactionSet _ _ =>
      i ← ChainIndex_DecodeFrom; txns ← DecodeSlice V2Transaction_DecodeFrom; mret (RPCRelayV2TransactionSet i txns)
  end.
Definition maxRequestLen (r : Object) : Z :=
  match r with
  | RPCShareNodes _ | RPCDiscoverIP _ => 0
  | RPCSendHeaders _ _ _ _ => 8 + 32 + 8
  | RPCSendV2Blocks _ _ _ _ => 8 + 32 * 32 + 8
  | RPCSendTransactions _ _ _ _ => 8 + 32 + 8 + 100 * 32
  | RPCSendCheckpoint _ _ _ => 8 + 32
  | RPCRelayV2Header _ => 8 + 32 + 32 + 8
  | RPCRelayV2BlockOutline _ => 5000000
  | RPCRelayV2TransactionSet _ _ => 5000000
  end.

(** [EncodeSliceCast[V2Block]]: the encoder of a block may panic. *)
Definition encode_blocks (bs : list Block) : outcome bytes :=
  for_each bs 0 (WriteUint64 (zlen bs)) (fun _ b acc => e ← V2Block_EncodeTo b; Ok (acc ++ e)).
Definition encodeResponse (r : Object) : outcome bytes :=
  match r with
  | RPCShareNodes ps => Ok (EncodeSlice WriteString ps)
  | RPCDiscoverIP ip => Ok (WriteString ip)
  | RPCSendHeaders _ _ hs n => Ok (EncodeSlice BlockHeader_EncodeTo hs ++ WriteUint64 n)
  | RPCSendV2Blocks _ _ bs n => e ← encode_blocks bs; Ok (e ++ WriteUint64 n)
  | RPCSendTransactions _ _ ts v2ts => Ok (EncodeSlice Transaction_EncodeTo ts ++ EncodeSlice V2Transaction_EncodeTo v2ts)
  | RPCSendCheckpoint _ b s =>
      e ← V2Block_EncodeTo b; Ok (e ++ State_EncodeTo s)
  | RPCRelayV2Header _ | RPCRelayV2BlockOutline _ | RPCRelayV2TransactionSet _ _ => Ok []
  end.
Definition decodeResponse (n : Network) (r : Object) : Decode Object :=
  match r with
  | RPCShareNodes _ => ps ← DecodeSlice ReadString; mret (RPCShareNodes ps)
  | RPCDiscoverIP _ => ip ← ReadString; mret (RPCDiscoverIP ip)
  | RPCSendHeaders i m _ _ => hs ← DecodeSlice BlockHeader_DecodeFrom; k ← ReadUint64; mret (RPCSendHeaders i m hs k)
  | RPCSendV2Blocks h m _ _ => bs ← DecodeSlice V2Block_DecodeFrom; k ← ReadUint64; mret (RPCSendV2Blocks h m bs k)
  | RPCSendTransactions i h _ _ =>
      ts ← DecodeSlice Transaction_DecodeFrom; v2ts ← DecodeSlice V2Transaction_DecodeFrom; mret (RPCSendTransactions i h ts v2ts)
  | RPCSendCheckpoint i _ _ => b ← V2Block_DecodeFrom; s ← State_DecodeFrom n; mret (RPCSendCheckpoint i b s)
  | RPCRelayV2Header _ | RPCRelayV2BlockOutline _ | RPCRelayV2TransactionSet _ _ => mret r
  end.
(** [int] is 64 bits wide; the products of a requested number wrap. *)
Definition maxResponseLen (r : Object) : Z :=
  match r with
  | RPCShareNodes _ => 100 * 128
  | RPCDiscoverIP _ => 128
  | RPCSendHeaders _ m _ _ => i64 (8 + i64 m * (32 + 8 + 8 + 32) + 8)
  | RPCSendV2Blocks _ m _ _ => i64 (i64 m * 5000000)
  | RPCSendTransactions _ _ _ _ => 5000000
  | RPCSendCheckpoint _ _ _ => 5000000 + 4000
  | RPCRelayV2Header _ | RPCRelayV2BlockOutline _ | RPCRelayV2TransactionSet _ _ => 0
  end.

Definition idShareNodes : Specifier := NewSpecifier "ShareNodes".
Definition idDiscoverIP : Specifier := NewSpecifier "DiscoverIP".
Definition idSendHeaders : Specifier := NewSpecifier "SendHeaders".
Definition idSendV2Blocks : Specifier := NewSpecifier "SendV2Blocks".
Definition idSendTransactions : Specifier := NewSpecifier "SendTransactions".
Definition idSendCheckpoint : Specifier := NewSpecifier "SendCheckpoint".
Definition idRelayV2Header : Specifier := NewSpecifier "RelayV2Header".
Definition idRelayV2BlockOutline : Specifier := NewSpecifier "RelayV2Outline".
Definition idRelayV2TransactionSet : Specifier := NewSpecifier "RelayV2Txns".

Definition idForObject (o : Object) : Specifier :=
  match o with
  | RPCShareNodes _ => idShareNodes
  | RPCDiscoverIP _ => idDiscoverIP
  | RPCSendHeaders _ _ _ _ => idSendHeaders
  | RPCSendV2Blocks _ _ _ _ => idSendV2Blocks
  | RPCSendTransactions _ _ _ _ => idSendTransactions
  | RPCSendCheckpoint _ _ _ => idSendCheckpoint
  | RPCRelayV2Header _ => idRelayV2Header
  | RPCRelayV2BlockOutline _ => idRelayV2BlockOutline
  | RPCRelayV2TransactionSet _ _ => idRelayV2TransactionSet
  end.

Definition zeroHeader : BlockHeader := {| bh_ParentID := zeroHash; bh_Nonce := 0; bh_Timestamp := 0; bh_Commitment := zeroHash |}.
Definition zeroOutline : V2BlockOutline :=
  {| bo_Height := 0; bo_ParentID := zeroHash; bo_Nonce := 0; bo_Timestamp := 0; bo_MinerAddress := zeroHash; bo_Transactions := [] |}.
Definition ObjectForID (n : Network) (id : Specifier) : option Object :=
  if bool_decide (id = idShareNodes) then Some (RPCShareNodes [])
  else if bool_decide (id = idDiscoverIP) then Some (RPCDiscoverIP [])
  else if bool_decide (id = idSendHeaders) then Some (RPCSendHeaders zeroIndex 0 [] 0)
  else if bool_decide (id = idSendV2Blocks) then Some (RPCSendV2Blocks [] 0 [] 0)
  else if bool_decide (id = idSendTransactions) then Some (RPCSendTransactions zeroIndex [] [] [])
  else if bool_decide (id = idSendCheckpoint) then Some (RPCSendCheckpoint zeroIndex zeroBlock (zeroState n))
  else if bool_decide (id = idRelayV2Header) then Some (RPCRelayV2Header zeroHeader)
  else if bool_decide (id = idRelayV2BlockOutline) then Some (RPCRelayV2BlockOutline zeroOutline)
  else if bool_decide (id = idRelayV2TransactionSet) then Some (RPCRelayV2TransactionSet zeroIndex [])
  else None.

(** ** Streams ([transport.go])

    The bytes that arrive on a stream until it is closed or its deadline passes; what is
    written is returned. *)
Definition withV2Decoder {A} (stream : bytes) (maxLen : Z) (fn : Decode A) : outcome A := fst <$> fn (mkD stream maxLen).
Definition WriteID (r : Object) : bytes := Array_EncodeTo (idForObject r).
Definition ReadID (stream : bytes) : outcome Specifier := withV2Decoder stream 16 Specifier_DecodeFrom.
Definition WriteRequest (r : Object) : outcome bytes := encodeRequest r.
Definition ReadRequest (r : Object) (stream : bytes) : outcome Object :=
  if maxRequestLen r =? 0 then Ok r else withV2Decoder stream (maxRequestLen r) (decodeRequest r).
Definition WriteResponse (r : Object) : outcome bytes := encodeResponse r.
Definition ReadResponse (n : Network) (r : Object) (stream : bytes) : outcome Object :=
  if maxResponseLen r =? 0 then Ok r else withV2Decoder stream (maxResponseLen r) (decodeResponse n r).
End Outline.

(** * [core/gateway/transport.go]: the handshake of two peers

    [Dial] and [Accept] up to the start of the multiplexer, as programs that write to and read
    from a connection, and the runs of two such programs on the two ends of one connection. *)

(** ** Programs on a connection

    [conn.Write] continues with its error, [io.ReadFull] with the bytes or the error that the
    caller is left with. *)
Inductive proc (A : Type) : Type :=
  | Done (r : outcome A)
  | ConnWrite (p : bytes) (k : option string -> proc A)
  | ConnRead (n : nat) (k : outcome bytes -> proc A).
Arguments Done {A} r.
Arguments ConnWrite {A} p k.
Arguments ConnRead {A} n k.

Fixpoint proc_then {A B} (f : A -> proc B) (c : proc A) : proc B :=
  match c with
  | Done (Ok a) => f a
  | Done (Err e) => Done (Err e)
  | Done (Panic p) => Done (Panic p)
  | ConnWrite p k => ConnWrite p (fun err => proc_then f (k err))
  | ConnRead n k => ConnRead n (fun r => proc_then f (k r))
  end.
#[global] Instance proc_ret : MRet proc := fun A a => Done (Ok a).
#[global] Instance proc_bind : MBind proc := fun A B f c => proc_then f c.
Fixpoint p_wrap {A} (prefix : string) (c : proc A) : proc A :=
  match c with
  | Done r => Done (wrap_err prefix r)
  | ConnWrite p k => ConnWrite p (fun err => p_wrap prefix (k err))
  | ConnRead n k => ConnRead n (fun r => p_wrap prefix (k r))
  end.

Definition conn_Write (p : bytes) : proc unit :=
  ConnWrite p (fun err => match err with None => Done (Ok tt) | Some e => Done (Err e) end).

(** A [types.Decoder] on a connection: what it returns and the rest of its budget [N]. *)
Definition Reader (A : Type) : Type := Z -> proc (A * Z).
Definition r_Read (n : nat) : Reader bytes := fun N =>
  if Z.of_nat n <=? N then b ← ConnRead n Done; Done (Ok (b, N - Z.of_nat n))
  else _ ← ConnRead (Z.to_nat N) Done; Done (Err (if N mod 64 =? 0 then "EOF" else "unexpected EOF")).
Definition r_Uint64 : Reader Z := fun N => '(b, N) ← r_Read 8 N; Done (Ok (le_decode b, N)).
Definition r_String : Reader bytes := fun N =>
  '(n, N) ← r_Uint64 N;
  if u64 N <? n then Done (Err "encoded object contains invalid length prefix") else r_Read (Z.to_nat n) N.

(** ** [net] *)
Definition colon : Z := 58.
Fixpoint IndexByte (s : bytes) (c : Z) : option nat :=
  match s with [] => None | x :: s' => if x =? c then Some O else S <$> IndexByte s' c end.
Fixpoint LastIndexByte (s : bytes) (c : Z) : option nat :=
  match s with
  | [] => None
  | x :: s' => match LastIndexByte s' c with
               | Some i => Some (S i)
               | None => if x =? c then Some O else None
               end
  end.
Definition contains (s : bytes) (c : Z) : bool := match IndexByte s c with Some _ => true | None => false end.
Definition SplitHostPort (hostport : bytes) : outcome (bytes * bytes) :=
  match LastIndexByte hostport colon with
  | None => Err "missing port in address"
  | Some i =>
      '(host, j, k) ←
        (if bool_decide (head hostport = Some 91) then
           match IndexByte hostport 93 with
           | None => Err "missing ']' in address"
           | Some e =>
               if (S e =? length hostport)%nat then Err "missing port in address"
               else if (S e =? i)%nat then Ok (drop 1 (take e hostport), 1%nat, S e)
               else if bool_decide (hostport !! S e = Some colon) then Err "too many colons in address"
               else Err "missing port in address"
           end
         else
           let host := take i hostport in
           if contains host colon then Err "too many colons in address" else Ok (host, O, O));
      _ ← fail_if (contains (drop j hostport) 91) "unexpected '[' in address";
      _ ← fail_if (contains (drop k hostport) 93) "unexpected ']' in address";
      Ok (host, drop (S i) hostport)
  end.
Definition JoinHostPort (host port : bytes) : bytes :=
  if contains host colon then [91] ++ host ++ [93; colon] ++ port else host ++ [colon] ++ port.

(** ** [encoding.go] *)
Definition UniqueID : Type := bytes.
Record Header := { h_ProtocolMagic : bytes; h_GenesisID : BlockID; h_UniqueID : UniqueID; h_NetAddress : bytes }.
Definition QdayMagic : bytes := [81; 68; 65; 89; 0; 1; 167; 78].

(** The length prefix of a message, written before what [fn] encodes. *)
Definition v1_message (fn : bytes) : bytes := WriteUint64 (zlen fn) ++ fn.
Definition withV1Encoder (fn : bytes) : proc unit := conn_Write (v1_message fn).
Definition withV1Decoder {A} (maxLen : Z) (fn : Reader A) : proc A :=
  '(_, N) ← r_Uint64 (8 + maxLen); '(a, _) ← fn N; Done (Ok a).
Definition Header_encodeTo (h : Header) : bytes :=
  Array_EncodeTo (h_GenesisID h) ++ h_UniqueID h ++ WriteString (h_NetAddress h).
(** The magic is not part of the encoded header. *)
Definition Header_decodeFrom : Reader Header := fun N =>
  '(genesis, N) ← r_Read 32 N;
  '(id, N) ← r_Read 8 N;
  '(addr, N) ← r_String N;
  Done (Ok ({| h_ProtocolMagic := zeros 8; h_GenesisID := genesis; h_UniqueID := id; h_NetAddress := addr |}, N)).

(** ** The handshake *)
Record Transport := { t_UniqueID : UniqueID; t_Version : bytes; t_Addr : bytes }.
Definition text (b : bytes) : string := foldr (fun c s => String (ascii_of_nat (Z.to_nat c)) s) EmptyString b.

Definition readMagic (expected : bytes) : proc unit :=
  received ← p_wrap "could not read network magic: " (ConnRead 8 Done);
  Done (fail_if (negb (bool_decide (received = expected))) "peer uses a different wire protocol").
Definition validateHeader (ours theirs : Header) : outcome unit :=
  _ ← fail_if (negb (bool_decide (h_GenesisID theirs = h_GenesisID ours))) "peer has different genesis block";
  fail_if (bool_decide (h_UniqueID theirs = h_UniqueID ours)) "peer has same unique ID as us".
Definition writeHeader (ourHeader : Header) : proc unit :=
  _ ← p_wrap "could not write our header: " (withV1Encoder (Header_encodeTo ourHeader));
  accept ← p_wrap "could not read peer header acceptance: " (withV1Decoder 128 r_String);
  Done (fail_if (negb (bool_decide (accept = str_bytes "accept"))) ("peer rejected our header: " +:+ text accept)).
(** [remote] is the remote address of the connection. *)
Definition readHeader (remote : bytes) (ourHeader : Header) : proc (bytes * UniqueID) :=
  peerHeader ← p_wrap "could not read peer's header: " (withV1Decoder (32 + 8 + 128) Header_decodeFrom);
  match validateHeader ourHeader peerHeader with
  | Err e => ConnWrite (v1_message (WriteString (str_bytes e))) (fun _ => Done (Err ("unacceptable header: " +:+ e)))
  | Panic p => Done (Panic p)
  | Ok _ =>
      _ ← p_wrap "could not write accept: " (withV1Encoder (WriteString (str_bytes "accept")));
      '(host, _) ← Done (wrap_err "invalid remote addr: " (SplitHostPort remote));
      '(_, port) ← Done (wrap_err "peer provided invalid net address: " (SplitHostPort (h_NetAddress peerHeader)));
      Done (Ok (JoinHostPort host port, h_UniqueID peerHeader))
  end.

Definition ourVersion : bytes := str_bytes "2.0.0".
Definition write_magic (magic : bytes) : proc unit := p_wrap "could not write network magic: " (conn_Write magic).
Definition Dial (remote : bytes) (ourHeader : Header) : proc Transport :=
  let magic := h_ProtocolMagic ourHeader in
  _ ← (if bool_decide (magic = zeros 8) then Done (Ok tt) else _ ← write_magic magic; readMagic magic);
  _ ← p_wrap "could not write our version: " (withV1Encoder (WriteString ourVersion));
  version ← p_wrap "could not read peer version: " (withV1Decoder 128 r_String);
  _ ← p_wrap "could not write our header: " (writeHeader ourHeader);
  '(addr, id) ← p_wrap "could not read peer's header: " (readHeader remote ourHeader);
  Done (Ok {| t_UniqueID := id; t_Version := version; t_Addr := addr |}).
Definition Accept (remote : bytes) (ourHeader : Header) : proc Transport :=
  let magic := h_ProtocolMagic ourHeader in
  _ ← (if bool_decide (magic = zeros 8) then Done (Ok tt) else _ ← readMagic magic; write_magic magic);
  version ← p_wrap "could not read peer version: " (withV1Decoder 128 r_String);
  _ ← p_wrap "could not write our version: " (withV1Encoder (WriteString ourVersion));
  '(addr, id) ← p_wrap "could not read peer's header: " (readHeader remote ourHeader);
  _ ← p_wrap "could not write our header: " (writeHeader ourHeader);
  Done (Ok {| t_UniqueID := id; t_Version := version; t_Addr := addr |}).

(** ** Two ends of a connection

    The connection keeps the bytes written and not yet read.  An end that fails closes it: the
    other end reads what was written and then the end of the file. *)
Record Link (A B : Type) := mkLink { l_left : proc A; l_right : proc B; l_lr : bytes; l_rl : bytes }.
Arguments mkLink {A B} _ _ _ _.
Arguments l_left {A B} _.
Arguments l_right {A B} _.
Inductive move {A} : proc A -> bytes -> proc A -> bytes -> bytes -> Prop :=
  | move_write p k input : move (ConnWrite p k) input (k None) input p
  | move_read n k input : (n <= length input)%nat -> move (ConnRead n k) input (k (Ok (take n input))) (drop n input) [].
(** The error of a reader that gets [input] instead of what it asked for, in chunks of 64 bytes. *)
Definition eof (input : bytes) : string := if zlen input mod 64 =? 0 then "EOF" else "unexpected EOF".
Inductive link_step {A B} : Link A B -> Link A B -> Prop :=
  | step_left p q lr rl p' rl' out : move p rl p' rl' out -> link_step (mkLink p q lr rl) (mkLink p' q (lr ++ out) rl')
  | step_right p q lr rl q' lr' out : move q lr q' lr' out -> link_step (mkLink p q lr rl) (mkLink p q' lr' (rl ++ out))
  | step_left_eof n k e lr rl : (length rl < n)%nat ->
      link_step (mkLink (ConnRead n k) (Done (Err e)) lr rl) (mkLink (k (Err (eof rl))) (Done (Err e)) lr [])
  | step_right_eof n k e lr rl : (length lr < n)%nat ->
      link_step (mkLink (Done (Err e)) (ConnRead n k) lr rl) (mkLink (Done (Err e)) (k (Err (eof lr))) [] rl).
