(* ===== verification/Syncer.v ===== *)
(** * [coreutils/syncer]: requests of peers, relaying and syncing

    The handler of requests ([peer.go]), the limits on what peers send, the relay plan of the
    pool ([relay_budget.go], [txpool_relay.go]) and the parallel sync ([parallel_sync.go]). *)
From stdpp Require Import prelude strings gmap.
From Stdlib Require Import ZArith Lia.
From S2P Require Import Prelude TypesCurrency TypesData TypesCurrencyText TypesEncoding TypesHash TypesPolicy.
From S2P Require Import TypesQdayAddress ConsensusWork ConsensusState ConsensusMerkle ConsensusQday ConsensusDifficulty ConsensusMidState.
From S2P Require Import ConsensusApply ConsensusValidateV1 ConsensusValidate TypesMultiproof ConsensusCodec ChainStore ChainPool.
From S2P Require Import ChainManager ChainManagerPool Gateway.

(** * [coreutils/syncer/peer.go]: the requests of peers

    [handleRPC] answers a peer from the chain manager, takes in what it relays, and decides
    whether to relay it further, to sync with the peer again or to ban it.  What the network, the
    stores of peers and other goroutines contribute are arguments. *)

(** What the handler has done besides calling the manager, in order. *)
Inductive action :=
  | Respond (r : Object)
  | Resync
  | Ban (err : string)
  | RelayV2Header (bh : BlockHeader)
  | RelayV2BlockOutline (bo : V2BlockOutline)
  | RelayV2TransactionSet (index : ChainIndex) (txns : list V2Transaction).

(** The outside of a request: the bytes that arrive on its stream, what writing to it and banning
    answer, what the peer sends when asked for transactions, the clock, the addresses of connected
    peers (with whether they are inbound) and of known peers in shuffled order, the host of the
    peer's address, the configured limits and the network of the node. *)
Record RPCEnv := {
  re_stream : bytes; re_write : option string; re_ban : string -> option string;
  re_SendTransactions : ChainIndex -> list Hash256 -> outcome (list Transaction * list V2Transaction);
  re_now : nat -> Time; re_connected : list (bytes * bool); re_known : outcome (list bytes);
  re_origin : bytes; re_MaxSendHeaders : Z; re_MaxSendBlocks : Z;
  re_network : Network }.

(** [strconv.Atoi] of a text without underscores; out of range is an error as any other text. *)
Definition Atoi (s : bytes) : option Z :=
  let '(neg, digits) := match s with
                        | 45 :: s' => (true, s')
                        | 43 :: s' => (false, s')
                        | _ => (false, s)
                        end in
  if bool_decide (digits = []) || negb (forallb (fun c => (48 <=? c) && (c <=? 57)) digits) then None else
  let n := foldl (fun n c => 10 * n + (c - 48)) 0 digits in
  let n := if neg : bool then - n else n in
  if (- two63 <=? n) && (n <? two63) then Some n else None.

Definition maxHostLen : Z := 253.
Definition validatePeer (addr : bytes) : outcome unit :=
  '(host, portStr) ← SplitHostPort addr;
  _ ← fail_if (zlen host =? 0) "empty host";
  _ ← fail_if (maxHostLen <? zlen host) "host too long";
  match Atoi portStr with
  | Some port => fail_if ((port <=? 0) || (65535 <? port)) "invalid port"
  | None => Err "invalid port"
  end.

Section Peer.
Context {crypto : Crypto} {edwards : Edwards25519} {St : Type} {store : Store St}.
Abbreviation Mgr := (Manager St).

(** The manager, what other goroutines do to it before each call, and the actions so far. *)
Record RPCState := mkRPC { rs_cm : Mgr; rs_others : list (Mgr -> Mgr); rs_actions : list action }.
Definition RPC (A : Type) : Type := RPCState -> RPCState * outcome A.
#[global] Instance RPC_ret : MRet RPC := fun A a s => (s, Ok a).
#[global] Instance RPC_bind : MBind RPC := fun A B f m s =>
  let '(s, r) := m s in match r with Ok a => f a s | Err e => (s, Err e) | Panic p => (s, Panic p) end.
Definition h_lift {A} (o : outcome A) : RPC A := fun s => (s, o).
Definition act (a : action) : RPC unit := fun s => (mkRPC (rs_cm s) (rs_others s) (rs_actions s ++ [a]), Ok tt).
Definition h_call {A} (f : Mgr -> outcome (Mgr * A)) : RPC A := fun s =>
  let '(m, others) := match rs_others s with [] => (rs_cm s, []) | g :: others => (g (rs_cm s), others) end in
  match f m with
  | Ok (m, a) => (mkRPC m others (rs_actions s), Ok a)
  | Err e => (mkRPC m others (rs_actions s), Err e)
  | Panic p => (mkRPC m others (rs_actions s), Panic p)
  end.
Definition h_query {A} (f : Mgr -> outcome A) : RPC A := h_call (fun m => a ← f m; Ok (m, a)).
Definition State_of (id : BlockID) : RPC (option State) := h_query (fun m => Manager_State m id).
Definition Block_of (id : BlockID) : RPC (option Block) := h_query (fun m => Manager_Block m id).
Definition TipID : RPC BlockID := h_query (fun m => Ok (ci_ID (Tip m))).

Section Handler.
Context (env : RPCEnv).

Definition resync : RPC unit := act Resync.
(** [return s.ban(origin, err)] *)
Definition ban (err : string) : RPC unit :=
  _ ← act (Ban err); match re_ban env err with Some e => h_lift (Err e) | None => mret tt end.
Definition respond (r : Object) : RPC unit :=
  _ ← h_lift (encodeResponse r);
  _ ← act (Respond r); match re_write env with Some e => h_lift (Err e) | None => mret tt end.

Definition peer_ok (addr : bytes) : bool :=
  match validatePeer addr with Ok _ => true | _ => false end.
(** [for i := 0; i < len(candidates) && len(r.Peers) < 10; i++]; [seen] holds the addresses taken. *)
Fixpoint share_peers (candidates : list (bytes * bool)) (peers : list bytes) : list bytes :=
  match candidates with
  | [] => peers
  | (addr, skip) :: rest =>
      if 10 <=? zlen peers then peers
      else if bool_decide (addr ∈ peers) || skip ||
              negb (peer_ok addr) then share_peers rest peers
      else share_peers rest (peers ++ [addr])
  end.
Definition ShareNodes : RPC unit :=
  let peers := share_peers (re_connected env) [] in
  peers ← (if zlen peers <? 10 then
             known ← h_lift (wrap_err "failed to fetch peers: " (re_known env));
             mret (share_peers (map (fun a => (a, false)) known) peers)
           else mret peers);
  respond (RPCShareNodes peers).
Definition DiscoverIP : RPC unit :=
  respond (RPCDiscoverIP (match SplitHostPort (re_origin env) with Ok (host, _) => host | _ => [] end)).

Definition SendHeaders (index : ChainIndex) (max : Z) : RPC unit :=
  let max := if re_MaxSendHeaders env <? max then re_MaxSendHeaders env else max in
  '(headers, remaining) ← h_query (fun m => Headers m index max);
  respond (RPCSendHeaders index max headers remaining).
Definition SendV2Blocks (history : list BlockID) (max : Z) : RPC unit :=
  let max := if re_MaxSendBlocks env <? max then re_MaxSendBlocks env else max in
  '(blocks, remaining) ← h_query (fun m => BlocksForHistory m history max);
  respond (RPCSendV2Blocks history max blocks remaining).

Definition SendTransactions (index : ChainIndex) (hashes : list Hash256) : RPC unit :=
  b ← Block_of (ci_ID index);
  '(txns, v2txns) ← match b with
    | Some b =>
        let want : gset (list Z) := list_to_set hashes in
        mret (filter (fun txn => Transaction_MerkleLeafHash txn ∈ want) (b_Transactions b),
              filter (fun txn => V2Transaction_MerkleLeafHash txn ∈ want) (V2Transactions b))
    | None => h_call (fun m => TransactionsForPartialBlock m hashes)
    end;
  respond (RPCSendTransactions index hashes txns v2txns).
(** An unknown block is the zero block, whose parent is then looked up. *)
Definition SendCheckpoint (index : ChainIndex) : RPC unit :=
  b ← Block_of (ci_ID index);
  cs ← State_of (b_ParentID (default zeroBlock b));
  match b, cs with
  | Some b, Some cs => respond (RPCSendCheckpoint index b cs)
  | _, _ => h_lift (Err "checkpoint not found")
  end.

Definition insufficient_work (cs : State) (id : BlockID) : RPC bool :=
  target ← h_lift (PoWTarget cs); mret (CmpWork id target <? 0).

Definition handle_header (header : BlockHeader) : RPC unit :=
  cs ← State_of (bh_ParentID header);
  match cs with
  | None => resync
  | Some cs =>
      let bid := BlockHeader_ID header in
      seen ← State_of bid;
      if is_some seen then mret tt else
      weak ← insufficient_work cs bid;
      if weak : bool then ban "peer sent v2 header with insufficient work" else
      tip ← TipID;
      if negb (bool_decide (bh_ParentID header = tip)) then resync else
      act (RelayV2Header header)
  end.

(** The transactions that are still missing are requested from the peer.  [None] when the block
    cannot be completed. *)
Definition complete_outline (cs : State) (bid : BlockID) (bo : V2BlockOutline) (b : Block) (missing : list Hash256)
    : RPC (option (V2BlockOutline * Block)) :=
  if bool_decide (missing = []) then mret (Some (bo, b)) else
  match re_SendTransactions env {| ci_Height := bo_Height bo; ci_ID := bid |} missing with
  | Ok (txns, v2txns) =>
      '(bo, (b, missing)) ← h_lift (Complete bo cs txns v2txns);
      if bool_decide (missing = []) then mret (Some (bo, b)) else
      _ ← ban "peer sent wrong missing transactions for a block it relayed"; mret None
  | Err _ => _ ← resync; mret None
  | Panic p => h_lift (Panic p)
  end.
Definition handle_outline (bo : V2BlockOutline) : RPC unit :=
  cs ← State_of (bo_ParentID bo);
  match cs with
  | None => resync
  | Some cs =>
      let bid := outline_ID bo cs in
      seen ← State_of bid;
      if is_some seen then mret tt else
      weak ← insufficient_work cs bid;
      if weak : bool then ban "peer sent v2 outline with insufficient work" else
      tip ← TipID;
      if negb (bool_decide (bo_ParentID bo = tip)) then resync else
      '(txns, v2txns) ← h_call (fun m => TransactionsForPartialBlock m (Missing bo));
      '(bo, (b, missing)) ← h_lift (Complete bo cs txns v2txns);
      done ← complete_outline cs bid bo b missing;
      match done with
      | None => mret tt
      | Some (bo, b) =>
          err ← h_call (fun m => AddBlocks (re_now env) m [b]);
          match err with
          | Some e => ban e
          | None => act (RelayV2BlockOutline (RemoveTransactions bo txns v2txns))
          end
      end
  end.

Definition handle_txns (index : ChainIndex) (txns : list V2Transaction) : RPC unit :=
  b ← Block_of (ci_ID index);
  if negb (is_some b) then resync
  else if zlen txns =? 0 then ban "peer sent an empty transaction set" else
  '(known, err) ← h_call (fun m => AddV2PoolTransactions m index txns);
  if (known : bool) || is_some err then mret tt else act (RelayV2TransactionSet index txns).

Definition dispatch (id : Specifier) : RPC unit :=
  match ObjectForID (re_network env) id with
  | None => h_lift (Err "unrecognized RPC")
  | Some (RPCShareNodes _) => ShareNodes
  | Some (RPCDiscoverIP _) => DiscoverIP
  | Some r =>
      r ← h_lift (ReadRequest r (re_stream env));
      match r with
      | RPCSendHeaders index max _ _ => SendHeaders index max
      | RPCSendV2Blocks history max _ _ => SendV2Blocks history max
      | RPCSendTransactions index hashes _ _ => SendTransactions index hashes
      | RPCSendCheckpoint index _ _ => SendCheckpoint index
      | RPCRelayV2Header header => handle_header header
      | RPCRelayV2BlockOutline bo => handle_outline bo
      | RPCRelayV2TransactionSet index txns => handle_txns index txns
      | _ => h_lift (Err "unrecognized RPC")
      end
  end.
(** The deferred [recover] turns a panic into a return without error. *)
Definition handleRPC (id : Specifier) : RPC unit := fun s =>
  let '(s, r) := dispatch id s in (s, match r with Panic _ => Ok tt | _ => r end).
End Handler.

(** ** The requests to peers

    [answer] is what [callRPC] made of the response. *)
Fixpoint check_headers (cs : State) (headers : list BlockHeader) : outcome unit :=
  match headers with
  | [] => Ok tt
  | bh :: headers =>
      _ ← wrap_err "peer sent invalid header: " (ValidateHeader cs bh);
      cs ← ApplyHeader cs bh 0;
      check_headers cs headers
  end.
Definition Peer_SendHeaders (cs : State) (answer : outcome (list BlockHeader * Z)) : outcome (list BlockHeader * Z) :=
  '(headers, remaining) ← answer;
  _ ← check_headers cs headers;
  Ok (headers, remaining).
Definition Peer_SendCheckpoint (index : ChainIndex) (answer : outcome (State * Block)) : outcome (State * Block) :=
  '(cs, b) ← answer;
  match b_V2 b, b_MinerPayouts b with
  | Some v2, [payout] =>
      _ ← fail_if (negb (bool_decide (Block_ID b = ci_ID index))) "checkpoint has wrong index";
      _ ← fail_if (negb (bool_decide (v2b_Commitment v2 = Commitment cs (sco_Address payout) (b_Transactions b) (V2Transactions b))))
            "checkpoint has wrong commitment";
      Ok (cs, b)
  | _, _ => Err "checkpoint is not a v2 block"
  end.
End Peer.

(** * [coreutils/syncer]: limits on what peers send, and the relay of the pool

    The budget of large relayed payloads ([relay_budget.go]), the limit of requests per subnet
    and the plan of the packets that offer the pool to a peer ([txpool_relay.go]). *)

(** ** [relay_budget.go]; peers are compared by identity *)
Definition maxRelayPayloads : Z := 8.
Definition maxPeerRelayPayloads : Z := 2.
Record relayPayloadBudget := mkBudget { rb_active : Z; rb_peers : gmap nat Z }.
Definition budget_acquire (b : relayPayloadBudget) (p : nat) : relayPayloadBudget * bool :=
  let n := default 0 (rb_peers b !! p) in
  if (maxRelayPayloads <=? rb_active b) || (maxPeerRelayPayloads <=? n) then (b, false)
  else (mkBudget (rb_active b + 1) (<[p := n + 1]> (rb_peers b)), true).
Definition budget_release (b : relayPayloadBudget) (p : nat) : relayPayloadBudget :=
  let n := default 0 (rb_peers b !! p) - 1 in
  mkBudget (rb_active b - 1) (if n =? 0 then delete p (rb_peers b) else <[p := n]> (rb_peers b)).

(** ** Requests per subnet; the empty key stands for an address without a subnet *)
Definition acquireInflight (limit : Z) (m : gmap string Z) (key : string) : gmap string Z * bool :=
  if bool_decide (key = "") || (limit <=? 0) then (m, true)
  else let n := default 0 (m !! key) in
       if limit <=? n then (m, false) else (<[key := n + 1]> m, true).
Definition releaseInflight (limit : Z) (m : gmap string Z) (key : string) : gmap string Z :=
  if bool_decide (key = "") || (limit <=? 0) then m
  else let n := default 0 (m !! key) - 1 in if n <=? 0 then delete key m else <[key := n]> m.

(** ** [txpool_relay.go] *)
Section Plan.
Context {crypto : Crypto}.

Record txpoolRelaySet := { rs_basis : ChainIndex; rs_txns : list V2Transaction }.

Definition encoded_size (txn : V2Transaction) : Z := zlen (V2Transaction_EncodeTo txn).
Fixpoint unconfirmed_parents (outputs : idmap nat) (ins : list V2SiacoinInput) : outcome (list nat) :=
  match ins with
  | [] => Ok []
  | inp :: ins =>
      if negb (se_LeafIndex (sce_StateElement (v2sci_Parent inp)) =? UnassignedLeafIndex) then unconfirmed_parents outputs ins
      else match outputs !! sce_ID (v2sci_Parent inp) with
           | None => Err "transaction pool snapshot is missing an unconfirmed parent"
           | Some parent => rest ← unconfirmed_parents outputs ins; Ok (parent :: rest)
           end
  end.
Fixpoint add_outputs (id : TransactionID) (i j : nat) (outs : list SiacoinOutput) (outputs : idmap nat) : idmap nat :=
  match outs with [] => outputs | _ :: outs => add_outputs id i (S j) outs (<[V2SiacoinOutputID id j := i]> outputs) end.
(** The parents of the transactions from index [i] on. *)
Fixpoint find_parents (i : nat) (txns : list V2Transaction) (outputs : idmap nat) : outcome (list (list nat)) :=
  match txns with
  | [] => Ok []
  | txn :: txns =>
      ps ← unconfirmed_parents outputs (v2tx_SiacoinInputs txn);
      rest ← find_parents (S i) txns (add_outputs (V2Transaction_ID txn) i 0 (v2tx_SiacoinOutputs txn) outputs);
      Ok (ps :: rest)
  end.

Section Pack.
Context (limit : Z) (sizes : list Z) (parents : list (list nat)).
Abbreviation size_of j := (default 0 (sizes !! j)).
Abbreviation parents_of j := (default [] (parents !! j)).

(** The loop over the stack, whose top is the head of the list. *)
Fixpoint walk (fuel : nat) (inPacket needed : gset nat) (stack : list nat) (size : Z) : option (gset nat * Z) :=
  match stack with
  | [] => Some (needed, size)
  | j :: stack =>
      if limit <? size then Some (needed, size) else
      match fuel with
      | O => None
      | S fuel =>
          if bool_decide (j ∈ inPacket) || bool_decide (j ∈ needed) then walk fuel inPacket needed stack size
          else walk fuel inPacket ({[j]} ∪ needed) (rev (parents_of j) ++ stack) (size + size_of j)
      end
  end.
(** Every step takes one index from the stack; each transaction puts its parents there once. *)
Definition walk_fuel : nat := S (sum_list (map length parents)).

(** The packets so far and the one being filled, as indices of the snapshot. *)
Record packing := mkPack { pk_sets : list (list nat); pk_packet : list nat; pk_inPacket : gset nat; pk_bytes : Z }.
Definition flush (st : packing) : packing :=
  mkPack (if bool_decide (pk_packet st = []) then pk_sets st else pk_sets st ++ [pk_packet st]) [] ∅ 0.
(** [sort.Ints] of the keys of [needed], all of them indices of the snapshot. *)
Definition sorted_indices (needed : gset nat) : list nat := filter (fun j => j ∈ needed) (seq 0 (length sizes)).
(** The inner [for]; after a flush the packet is empty, so that it ends in the second round. *)
Fixpoint place (rounds : nat) (i : nat) (st : packing) : option packing :=
  match rounds with
  | O => None
  | S rounds =>
      '(needed, size) ← walk walk_fuel (pk_inPacket st) ∅ [i] 0;
      if (limit <? pk_bytes st + size) && negb (bool_decide (pk_packet st = [])) then place rounds i (flush st)
      else if limit <? size then Some st
      else Some (mkPack (pk_sets st) (pk_packet st ++ sorted_indices needed) (pk_inPacket st ∪ needed) (pk_bytes st + size))
  end.
Fixpoint pack_all (todo : list nat) (st : packing) : option packing :=
  match todo with [] => Some (flush st) | i :: todo => st ← place 2 i st; pack_all todo st end.
End Pack.

Definition qdayPoolRelayPlan (basis : ChainIndex) (txns : list V2Transaction) (maxRequestBytes : Z) : outcome (list txpoolRelaySet) :=
  let limit := maxRequestBytes - (8 + 32 + 8) in
  let sizes := map encoded_size txns in
  parents ← find_parents 0 txns ∅;
  match pack_all limit sizes parents (seq 0 (length txns)) (mkPack [] [] ∅ 0) with
  | None => Panic "does not terminate"
  | Some st => Ok (map (fun packet => {| rs_basis := basis; rs_txns := omap (fun j => txns !! j) packet |}) (pk_sets st))
  end.
End Plan.

(** * [coreutils/syncer/parallel_sync.go]: fetching blocks from many peers

    The headers of a chain are divided into requests, workers fetch and check the blocks of a
    request from one peer each, and the responses are handed to the chain manager in order. *)

Record Req := { rq_base : ChainIndex; rq_tip : ChainIndex; rq_numBlocks : Z }.
Record Resp := { rp_blocks : list Block; rp_states : list State; rp_req : Req; rp_peer : nat; rp_err : option string }.
Definition blocksPerReq : nat := 100.

Section Sync.
Context {crypto : Crypto} {edwards : Edwards25519} (cs : State) (headers : list BlockHeader).

(** The request at index [i]; the headers it reads exist. *)
Definition make_req (i : nat) : Req :=
  let off := (i * blocksPerReq)%nat in
  let rest := drop off headers in
  let numBlocks := Nat.min blocksPerReq (length rest) in
  let base := {| ci_ID := bh_ParentID (nth 0 rest zeroHeader); ci_Height := u64 (ci_Height (s_Index cs) + Z.of_nat off) |} in
  {| rq_base := base;
     rq_tip := {| ci_ID := BlockHeader_ID (nth (numBlocks - 1) rest zeroHeader); ci_Height := u64 (ci_Height base + Z.of_nat numBlocks - 1) |};
     rq_numBlocks := Z.of_nat numBlocks |}.
Definition reqs : list Req := map make_req (seq 0 ((length headers + blocksPerReq - 1) / blocksPerReq)).

(** ** [workFn], from the answers of the peer *)
Definition emptySupplement : V1BlockSupplement := {| bs_Transactions := []; bs_ExpiringFileContracts := [] |}.
Fixpoint validate_all (cs : State) (blocks : list Block) : outcome (list State) :=
  match blocks with
  | [] => Ok []
  | b :: blocks =>
      _ ← ValidateBlock cs b emptySupplement;
      '(cs, _) ← ApplyBlock cs b emptySupplement 0;
      states ← validate_all cs blocks;
      Ok (cs :: states)
  end.
Definition expected_headers (req : Req) : list BlockHeader :=
  take (Z.to_nat (rq_numBlocks req)) (drop (Z.to_nat (u64 (ci_Height (rq_base req) - ci_Height (s_Index cs)))) headers).
Definition from_checkpoint (req : Req) : bool := n_V2_RequireHeight (s_Network cs) <=? ci_Height (rq_base req).
Definition workFn (req : Req) (SendCheckpoint : outcome (State * Block)) (SendV2Blocks : outcome (list Block * Z))
    : outcome (list Block * list State) :=
  if from_checkpoint req then
    '(cs, b) ← Peer_SendCheckpoint (rq_base req) SendCheckpoint;
    '(cs, _) ← ApplyBlock cs b emptySupplement 0;
    '(blocks, _) ← SendV2Blocks;
    _ ← fail_if (negb (zlen blocks =? rq_numBlocks req)) "peer returned wrong number of blocks";
    _ ← fail_if (negb (bool_decide (Block_ID (nth (length blocks - 1) blocks zeroBlock) = ci_ID (rq_tip req)))) "peer returned wrong blocks";
    states ← validate_all cs blocks;
    Ok (blocks, states)
  else
    '(blocks, _) ← SendV2Blocks;
    _ ← fail_if (negb (zlen blocks =? rq_numBlocks req)) "peer returned wrong number of blocks";
    _ ← fail_if (negb (bool_decide (map Block_ID blocks = map BlockHeader_ID (expected_headers req))))
          "peer returned blocks that do not match header chain";
    Ok (blocks, []).
(** A panic ends the program. *)
Definition worked (p : nat) (req : Req) (r : outcome (list Block * list State)) : option Resp :=
  match r with
  | Ok (blocks, states) => Some {| rp_blocks := blocks; rp_states := states; rp_req := req; rp_peer := p; rp_err := None |}
  | Err e => Some {| rp_blocks := []; rp_states := []; rp_req := req; rp_peer := p; rp_err := Some e |}
  | Panic _ => None
  end.

(** ** The coordinator

    The channels as queues, the responses by request, the counters, the workers that wait for
    a request or work on one, the peers seen, and all that was sent on [finishCh]. *)
Record Sync := mkSync {
  sy_reqChan : list Req; sy_respChan : list Resp; sy_resps : list (option Resp); sy_reqIndex : nat; sy_finished : nat;
  sy_idle : list nat; sy_busy : list (nat * Req); sy_seen : gset nat; sy_handed : list Resp }.
Definition initial : Sync := mkSync [] [] (replicate (length reqs) None) 0 0 [] [] ∅ [].

Definition set_reqs (st : Sync) (reqChan : list Req) (reqIndex : nat) : Sync :=
  mkSync reqChan (sy_respChan st) (sy_resps st) reqIndex (sy_finished st) (sy_idle st) (sy_busy st) (sy_seen st) (sy_handed st).
Definition incomplete (resps : list (option Resp)) : list Req :=
  omap (fun x => match x with (Some None, req) => Some req | _ => None end)
    (imap (fun i req => (resps !! i, req)) reqs).
Definition queueRequest (st : Sync) : Sync :=
  match reqs !! sy_reqIndex st with
  | None => st
  | Some req =>
      let reqIndex := S (sy_reqIndex st) in
      let reqChan := sy_reqChan st ++ [req] in
      set_reqs st (if (reqIndex =? length reqs)%nat then reqChan ++ incomplete (sy_resps st) else reqChan) reqIndex
  end.
(** [for finished < len(resps) && resps[finished] != nil], with the responses passed. *)
Fixpoint ready (resps : list (option Resp)) : list Resp :=
  match resps with Some r :: resps => r :: ready resps | _ => [] end.
Definition receive (st : Sync) (r : Resp) (rest : list Resp) : outcome Sync :=
  match rp_err r with
  | Some _ => Ok (mkSync (sy_reqChan st ++ [rp_req r]) rest (sy_resps st) (sy_reqIndex st) (sy_finished st) (sy_idle st) (sy_busy st) (sy_seen st) (sy_handed st))
  | None =>
      let off := Z.to_nat (u64 (ci_Height (rq_base (rp_req r)) - ci_Height (s_Index cs)) / Z.of_nat blocksPerReq) in
      match sy_resps st !! off with
      | None => Panic "index out of range"
      | Some prev =>
          let resps := match prev with None => <[off := Some r]> (sy_resps st) | Some _ => sy_resps st end in
          let batch := ready (drop (sy_finished st) resps) in
          Ok (queueRequest (mkSync (sy_reqChan st) rest resps (sy_reqIndex st) (sy_finished st + length batch) (sy_idle st) (sy_busy st)
                              (sy_seen st) (sy_handed st ++ batch)))
      end
  end.
Inductive sync_step : Sync -> Sync -> Prop :=
  (** a new peer gets a worker *)
  | step_spawn st p : p ∉ sy_seen st ->
      sync_step st (queueRequest (mkSync (sy_reqChan st) (sy_respChan st) (sy_resps st) (sy_reqIndex st) (sy_finished st) (sy_idle st ++ [p])
                                   (sy_busy st) ({[p]} ∪ sy_seen st) (sy_handed st)))
  (** a worker takes a request *)
  | step_take st p before after req rest : sy_idle st = before ++ p :: after -> sy_reqChan st = req :: rest ->
      sync_step st (mkSync rest (sy_respChan st) (sy_resps st) (sy_reqIndex st) (sy_finished st) (before ++ after) ((p, req) :: sy_busy st)
                      (sy_seen st) (sy_handed st))
  (** a worker responds, whatever the peer sent, and exits after an error *)
  | step_work st p req before after chk blocks resp : sy_busy st = before ++ (p, req) :: after ->
      worked p req (workFn req chk blocks) = Some resp ->
      sync_step st (mkSync (sy_reqChan st) (sy_respChan st ++ [resp]) (sy_resps st) (sy_reqIndex st) (sy_finished st)
                      (if is_some (rp_err resp) then sy_idle st else sy_idle st ++ [p]) (before ++ after) (sy_seen st) (sy_handed st))
  | step_receive st r rest st' : sy_respChan st = r :: rest -> receive st r rest = Ok st' -> sync_step st st'.

(** ** The goroutine that adds the blocks *)
Section Finish.
Context {St : Type} {store : Store St}.
Fixpoint finish_all (now : nat -> nat -> Time) (i : nat) (m : Manager St) (resps : list Resp) : outcome (Manager St * option (nat * string)) :=
  match resps with
  | [] => Ok (m, None)
  | r :: resps =>
      '(m, err) ← (if from_checkpoint (rp_req r) then AddValidatedV2Blocks m (rp_blocks r) (rp_states r)
                   else AddBlocks (now i) m (rp_blocks r));
      match err with
      | Some e => Ok (m, Some (rp_peer r, "peer sent invalid blocks: " +:+ e))
      | None => finish_all now (S i) m resps
      end
  end.
End Finish.
End Sync.
