(* ===== verification/ChainStoreSpec.v ===== *)
(** * What a store promises, and the paths between its blocks

    [StoreSpec] is the contract of the [Store] interface towards the chain manager: its
    observations and updates are those of an abstract store of finite maps.  [reorgPath] is
    proved against it. *)
From stdpp Require Import prelude strings gmap.
From Stdlib Require Import ZArith Lia.
From S2P Require Import Prelude TypesCurrency TypesData TypesEncoding TypesCodec TypesHash.
From S2P Require Import ConsensusState ConsensusApply ConsensusCodec ConsensusTypeSpec.
From S2P Require Import TypesMultiproof TypesBlockCodecSpec ChainStore.

(** Stored states are seen through their chain index. *)
Record AStore := {
  as_index : idmap ChainIndex; as_header : idmap BlockHeader;
  as_block : idmap (Block * option V1BlockSupplement); as_best : gmap Z BlockID }.

Definition mk_index (h : Z) (id : BlockID) : ChainIndex := {| ci_Height := h; ci_ID := id |}.
Definition parent_index (i : ChainIndex) (hd : BlockHeader) : ChainIndex :=
  mk_index (u64 (ci_Height i - 1)) (bh_ParentID hd).

Definition a_AddState (a : AStore) (cs : State) : AStore :=
  {| as_index := <[ci_ID (s_Index cs) := s_Index cs]> (as_index a); as_header := as_header a;
     as_block := as_block a; as_best := as_best a |}.
Definition a_PruneBlock (a : AStore) (id : BlockID) : AStore :=
  {| as_index := as_index a; as_header := as_header a; as_block := delete id (as_block a);
     as_best := as_best a |}.
Definition a_SetBest (a : AStore) (best : gmap Z BlockID) : AStore :=
  {| as_index := as_index a; as_header := as_header a; as_block := as_block a; as_best := best |}.

Section Tree.
Context {crypto : Crypto}.
Definition a_AddBlock (a : AStore) (b : Block) (bs : option V1BlockSupplement) : AStore :=
  {| as_index := as_index a; as_header := <[Block_ID b := Block_Header b]> (as_header a);
     as_block := <[Block_ID b := (b, bs)]> (as_block a); as_best := as_best a |}.

(** A well-formed tree of blocks over the genesis block [g]: every stored block has a state
    and a header, and its parent has them too, one height below.  Only the state before
    genesis has no block. *)
Record tree_ok (g : BlockID) (a : AStore) : Prop := {
  tr_zero : as_header a !! zeroHash = None;
  tr_id : forall id i, as_index a !! id = Some i -> ci_ID i = id /\ is_u64 (ci_Height i);
  tr_genesis : as_index a !! g = Some (mk_index 0 g) /\
    exists hd, as_header a !! g = Some hd /\ bh_ParentID hd = zeroHash;
  tr_before : forall j, as_index a !! zeroHash = Some j -> ci_Height j = two64 - 1;
  tr_state : forall id hd, as_header a !! id = Some hd -> is_Some (as_index a !! id);
  tr_root : forall id i, as_index a !! id = Some i -> as_header a !! id = None -> id = zeroHash;
  tr_parent : forall id hd i, as_header a !! id = Some hd -> as_index a !! id = Some i -> id <> g ->
    exists j, as_index a !! bh_ParentID hd = Some j /\ is_Some (as_header a !! bh_ParentID hd) /\
      ci_Height i = ci_Height j + 1;
  tr_block : forall id b bs, as_block a !! id = Some (b, bs) ->
    Block_ID b = id /\ as_header a !! id = Some (Block_Header b) }.
End Tree.

(** A block of the tree. *)
Definition known (a : AStore) (i : ChainIndex) : Prop :=
  as_index a !! ci_ID i = Some i /\ is_Some (as_header a !! ci_ID i).

(** The best chain ends at [tip] and is linked by parents. *)
Record best_ok (a : AStore) (tip : ChainIndex) : Prop := {
  be_tip : as_best a !! ci_Height tip = Some (ci_ID tip);
  be_link : forall h id, as_best a !! h = Some id -> 0 < h -> exists hd,
    as_header a !! id = Some hd /\ as_best a !! (h - 1) = Some (bh_ParentID hd);
  be_known : forall h id, as_best a !! h = Some id -> known a (mk_index h id);
  be_above : forall h, ci_Height tip < h -> as_best a !! h = None }.

(** ** What can be stored *)
Definition good_state (cs : State) : Prop := wf_State cs /\ wf_Network (s_Network cs).

(** A block that its own encoding gives back; well-formed blocks whose Merkle proofs agree are
    of this kind ([V2Block_roundtrip]). *)
Definition storable {crypto : Crypto} (b : Block) : Prop :=
  wf_V2Block b /\ exists enc, V2Block_EncodeTo b = Ok enc /\
    forall rest N, zlen enc <= N < two63 ->
      V2Block_DecodeFrom (mkD (enc ++ rest) N) = Ok (b, mkD rest (N - zlen enc)).

Definition wf_supplement (bs : option V1BlockSupplement) : Prop :=
  match bs with Some bs => wf_V1BlockSupplement bs | None => True end.

Class StoreSpec {crypto : Crypto} (St : Type) {store : Store St} := {
  rep : St -> AStore -> Prop;
  rep_BestIndex : forall s a h, rep s a -> is_u64 h ->
    st_BestIndex s h = Ok (mk_index h <$> as_best a !! h);
  rep_Block : forall s a id, rep s a -> st_Block s id = Ok (as_block a !! id);
  rep_Header : forall s a id, rep s a -> st_Header s id = Ok (as_header a !! id);
  rep_State : forall s a id, rep s a -> exists r, st_State s id = Ok r /\ s_Index <$> r = as_index a !! id /\
    forall cs, r = Some cs -> good_state cs;
  rep_storable : forall s a id b bs, rep s a -> as_block a !! id = Some (b, bs) -> storable b;
  rep_Supplement : forall s a b bs, rep s a -> st_SupplementTipBlock s b = Ok bs -> wf_V1BlockSupplement bs;
  rep_AncestorTimestamp : forall s a g tip i, rep s a -> tree_ok g a -> best_ok a tip -> known a i ->
    exists t, st_AncestorTimestamp s (ci_ID i) = Ok (Some t);
  rep_AddState : forall s a cs s', rep s a -> good_state cs -> st_AddState s cs = Ok s' -> rep s' (a_AddState a cs);
  rep_AddBlock : forall s a b bs s', rep s a -> storable b -> wf_supplement bs ->
    st_AddBlock s b bs = Ok s' -> rep s' (a_AddBlock a b bs);
  rep_PruneBlock : forall s a id s', rep s a -> st_PruneBlock s id = Ok s' -> rep s' (a_PruneBlock a id);
  rep_ApplyBlock : forall s a cs cau s', rep s a -> wf_ChainIndex (s_Index cs) -> st_ApplyBlock s cs cau = Ok s' ->
    rep s' (a_SetBest a (<[ci_Height (s_Index cs) := ci_ID (s_Index cs)]> (as_best a)));
  rep_RevertBlock : forall s a cs cru s', rep s a -> st_RevertBlock s cs cru = Ok s' ->
    rep s' (a_SetBest a (delete (u64 (ci_Height (s_Index cs) + 1)) (as_best a)));
  rep_Flush : forall s a, rep s a -> exists s' err, st_Flush s = Ok (s', err) /\ rep s' a }.

(** [Flush] may fail; what is read does not change.  Where it matters that it does not fail this is
    stated. *)
Definition flush_ok {crypto : Crypto} (St : Type) {store : Store St} {spec : StoreSpec St} : Prop :=
  forall s a s' err, rep s a -> st_Flush s = Ok (s', err) -> err = None.

(** ** Paths *)

(** [path a i l j]: [l] are the blocks from [i] down to, and without, its ancestor [j]. *)
Inductive path (a : AStore) : ChainIndex -> list ChainIndex -> ChainIndex -> Prop :=
| path_nil i : path a i [] i
| path_cons i hd l j : as_header a !! ci_ID i = Some hd -> path a (parent_index i hd) l j ->
    path a i (i :: l) j.

Section Paths.
Context {crypto : Crypto} (a : AStore) (g : BlockID) (Hok : tree_ok g a).

Lemma known_height i : known a i -> is_u64 (ci_Height i).
Proof. intros [H _]. by eapply tr_id. Qed.

Lemma known_index i j : known a i -> known a j -> ci_ID i = ci_ID j -> i = j.
Proof. intros [H1 _] [H2 _] E. rewrite E in H1. congruence. Qed.

Lemma genesis_nonzero : g <> zeroHash.
Proof. intros ->. destruct (tr_genesis _ _ Hok) as [_ (hd & H & _)]. by rewrite (tr_zero _ _ Hok) in H. Qed.

Lemma known_nonzero i : known a i -> ci_ID i <> zeroHash.
Proof. intros [_ [hd H]] E. by rewrite E, (tr_zero _ _ Hok) in H. Qed.

Lemma known_genesis : known a (mk_index 0 g).
Proof. destruct (tr_genesis _ _ Hok) as [H (hd & Hh & _)]. split; [done|by exists hd]. Qed.

Lemma known_zero i : known a i -> ci_Height i = 0 -> i = mk_index 0 g.
Proof.
  intros Hk Hz. apply known_index; [done|apply known_genesis|]. cbn.
  destruct (decide (ci_ID i = g)) as [|Hne]; [done|]. destruct Hk as [Hi [hd Hh]].
  destruct (tr_parent _ _ Hok _ _ _ Hh Hi Hne) as (j & Hj & _ & E).
  pose proof (proj2 (tr_id _ _ Hok _ _ Hj)) as Hu. unfold is_u64 in Hu. lia.
Qed.

Lemma known_parent i hd : known a i -> 0 < ci_Height i -> as_header a !! ci_ID i = Some hd ->
  known a (parent_index i hd) /\ ci_Height (parent_index i hd) = ci_Height i - 1.
Proof.
  intros Hk Hpos Hh. destruct Hk as [Hi _].
  assert (ci_ID i <> g) as Hne.
  { intros E. rewrite E, (proj1 (tr_genesis _ _ Hok)) in Hi. injection Hi as <-. cbn in Hpos. lia. }
  destruct (tr_parent _ _ Hok _ _ _ Hh Hi Hne) as (j & Hj & Hs & E).
  destruct (tr_id _ _ Hok _ _ Hj) as [Ej Hu]. unfold is_u64 in Hu.
  assert (parent_index i hd = j) as ->.
  { unfold parent_index, mk_index. rewrite E, u64_id by (unfold is_u64; lia). destruct j as [h id]. cbn in *.
    subst id. f_equal. lia. }
  split; [split; [by rewrite Ej|by rewrite Ej]|lia].
Qed.

Lemma path_height i l j : path a i l j -> known a i -> zlen l <= ci_Height i ->
  known a j /\ ci_Height j = ci_Height i - zlen l.
Proof.
  unfold zlen. induction 1 as [i|i hd l j Hh Hp IH]; intros Hk Hl; cbn [length] in *; [split; [done|lia]|].
  destruct (known_parent i hd Hk ltac:(lia) Hh) as [Hk' Eh].
  destruct (IH Hk') as [Hj Ej]; [lia|]. split; [done|lia].
Qed.

Lemma path_app i l j l' k : path a i l j -> path a j l' k -> path a i (l ++ l') k.
Proof. induction 1; intros; [done|]. cbn. econstructor; eauto. Qed.

Lemma path_snoc i l j hd : path a i l j -> as_header a !! ci_ID j = Some hd ->
  path a i (l ++ [j]) (parent_index j hd).
Proof. intros Hp Hh. eapply path_app; [done|]. econstructor; [done|constructor]. Qed.

Lemma path_det i l j l' j' : path a i l j -> path a i l' j' -> length l = length l' -> l = l' /\ j = j'.
Proof.
  intros Hp. revert l' j'. induction Hp as [i|i hd l j Hh Hp IH]; intros l' j' Hp' Hlen.
  - destruct l'; [|done]. by inv Hp'.
  - destruct l' as [|x l']; [done|]. inversion Hp' as [|i' hd' l0 j0 Hh' Hp0]; subst.
    assert (hd' = hd) as -> by congruence.
    destruct (IH l' j') as [-> ->]; [done|by injection Hlen|done].
Qed.

Lemma path_split i l l' j : path a i (l ++ l') j -> exists k, path a i l k /\ path a k l' j.
Proof.
  revert i. induction l as [|x l IH]; intros i Hp; [by exists i; split; [constructor|]|].
  inversion Hp as [|i' hd l0 j0 Hh Hp0]; subst. destruct (IH _ Hp0) as (k & H1 & H2).
  exists k. split; [econstructor; eauto|done].
Qed.

Lemma path_elem i l j : path a i l j -> known a i -> zlen l <= ci_Height i ->
  forall x, x ∈ l -> known a x /\ ci_Height j < ci_Height x <= ci_Height i.
Proof.
  intros Hp Hk Hl x Hx. apply list_elem_of_split in Hx as (l1 & l2 & ->).
  unfold zlen in *. rewrite length_app in Hl. cbn [length] in Hl.
  destruct (path_split _ _ _ _ Hp) as (k & H1 & H2).
  destruct (path_height _ _ _ H1 Hk) as [Hkk Ek]; [unfold zlen; lia|].
  unfold zlen in Ek. inversion H2 as [|i' hd l0 j0 Hh Hp0]; subst.
  split; [done|].
  destruct (path_height x (x :: l2) j) as [_ Ej]; [by econstructor|done|unfold zlen; cbn [length]; lia|].
  unfold zlen in *. cbn [length] in Ej. lia.
Qed.
End Paths.
