(* ===== verification/ChainReorgSpec.v ===== *)
(** * [reorgPath] finds the shortest path between two blocks

    The path descends from both blocks to their highest common ancestor, in as many steps as
    the heights say. *)
From stdpp Require Import prelude strings gmap.
From Stdlib Require Import ZArith Lia.
From S2P Require Import Prelude TypesCurrency TypesData TypesEncoding TypesHash.
From S2P Require Import ConsensusState ConsensusApply ChainStore ChainStoreSpec.

(** The result of a loop that appended [n] blocks to the paths in all. *)
Definition capped {A} (maxLen : Z) (n : nat) (x : A) : outcome A :=
  if (0 <? n)%nat && (maxLen <? Z.of_nat n) then Err "reorg path is too long" else Ok x.

Section Reorg.
Context {crypto : Crypto} {St : Type} {store : Store St} {spec : StoreSpec St}.
Context (s : St) (a : AStore) (g : BlockID) (Hrep : rep s a) (Hok : tree_ok g a).

Lemma rewind_spec maxLen n i : known a i -> exists hd, as_header a !! ci_ID i = Some hd /\
  rewind s maxLen n i = if maxLen <? Z.of_nat n then Err "reorg path is too long"
                        else Ok (parent_index i hd).
Proof.
  intros [_ [hd Hh]]. exists hd. split; [done|]. unfold rewind. destruct (_ <? _); [done|].
  by rewrite (rep_Header _ _ _ Hrep), Hh.
Qed.

(** Steps of a loop. *)
Lemma capped_step {A} maxLen (n n' : nat) (x : A) : (0 < n <= n')%nat ->
  (if maxLen <? Z.of_nat n then Err "reorg path is too long" else capped maxLen n' x) = capped maxLen n' x.
Proof.
  intros Hn. unfold capped. destruct (maxLen <? Z.of_nat n) eqn:E; [|done].
  apply Z.ltb_lt in E. rewrite (proj2 (Nat.ltb_lt 0 n')), (proj2 (Z.ltb_lt maxLen (Z.of_nat n'))) by lia. done.
Qed.

Lemma rewind_above_spec fuel maxLen other h : forall i acc,
  known a i -> 0 <= h <= ci_Height i -> (Z.to_nat (ci_Height i - h) <= fuel)%nat ->
  exists l j, path a i l j /\ known a j /\ ci_Height j = h /\ zlen l = ci_Height i - h /\
    rewind_above fuel s maxLen other h i acc =
      match l with [] => Ok (j, acc) | _ => capped maxLen (other + length (acc ++ l)) (j, acc ++ l) end.
Proof.
  induction fuel as [|fuel IH]; intros i acc Hk Hh Hf.
  - exists [], i. assert (ci_Height i = h) as E by lia. cbn [rewind_above]. rewrite E, Z.ltb_irrefl.
    split_and!; [constructor|done|done|unfold zlen; cbn; lia|done].
  - cbn [rewind_above]. destruct (Z.ltb_spec h (ci_Height i)) as [Hlt|Hge].
    + destruct (rewind_spec maxLen (other + length (acc ++ [i])) i Hk) as (hd & Hhd & E).
      destruct (known_parent a g Hok i hd Hk ltac:(lia) Hhd) as [Hk' Eh].
      destruct (IH (parent_index i hd) (acc ++ [i]) Hk' ltac:(lia) ltac:(lia)) as (l & j & Hp & Hj & Ej & El & Er).
      exists (i :: l), j. split_and!; [by econstructor|done|done|unfold zlen in *; cbn [length]; lia|].
      assert (acc ++ i :: l = (acc ++ [i]) ++ l) as -> by (by rewrite <- app_assoc).
      rewrite <- (capped_step maxLen (other + length (acc ++ [i]))) by (rewrite !length_app; cbn [length]; lia).
      rewrite E. destruct (maxLen <? _) eqn:Ec; [done|]. cbn [mbind outcome_bind]. rewrite Er.
      destruct l as [|x l]; [|done]. rewrite app_nil_r. unfold capped. by rewrite Ec, andb_false_r.
    + exists [], i. split_and!; [constructor|done|lia|unfold zlen; cbn; lia|done].
Qed.

Lemma rewind_both_spec fuel maxLen : forall i j revert apply,
  known a i -> known a j -> ci_Height i = ci_Height j -> (Z.to_nat (ci_Height i) <= fuel)%nat ->
  exists l l' c, path a i l c /\ path a j l' c /\ length l = length l' /\ zlen l <= ci_Height i /\
    (forall x, x ∈ l -> x ∉ l') /\
    rewind_both fuel s maxLen i j revert apply =
      match l with
      | [] => Ok (revert, apply)
      | _ => capped maxLen (length (revert ++ l) + length (apply ++ l')) (revert ++ l, apply ++ l')
      end.
Proof.
  induction fuel as [|fuel IH]; intros i j revert apply Hi Hj Eh Hf.
  - assert (i = j) as ->.
    { pose proof (known_height _ _ Hok _ Hi) as Hu. unfold is_u64 in Hu.
      rewrite (known_zero a g Hok i), (known_zero a g Hok j) by (done || lia). done. }
    exists [], [], j. split_and!; try constructor; [|set_solver|cbn; by rewrite bool_decide_true].
    pose proof (known_height _ _ Hok _ Hj) as Hu. unfold is_u64, zlen in *. cbn. lia.
  - pose proof (known_height _ _ Hok _ Hi) as Hu. unfold is_u64 in Hu. cbn [rewind_both].
    destruct (decide (i = j)) as [->|Hne].
    + exists [], [], j. rewrite bool_decide_true by done.
      split_and!; try constructor; [unfold zlen; cbn; lia|set_solver].
    + rewrite bool_decide_false by done.
      assert (0 < ci_Height i) as Hpos.
      { destruct (decide (ci_Height i = 0)) as [Ez|]; [|lia]. destruct Hne.
        by rewrite (known_zero a g Hok i), (known_zero a g Hok j) by (done || lia). }
      set (n := (length (revert ++ [i]) + length (apply ++ [j]))%nat).
      destruct (rewind_spec maxLen n i Hi) as (hd & Hhd & E).
      destruct (rewind_spec maxLen n j Hj) as (hd' & Hhd' & E').
      destruct (known_parent a g Hok i hd Hi Hpos Hhd) as [Hi' Ei].
      destruct (known_parent a g Hok j hd' Hj ltac:(lia) Hhd') as [Hj' Ej].
      destruct (IH (parent_index i hd) (parent_index j hd') (revert ++ [i]) (apply ++ [j]) Hi' Hj'
        ltac:(lia) ltac:(lia)) as (l & l' & c & Hp & Hp' & Hll & Hlh & Hd & Er).
      exists (i :: l), (j :: l'), c.
      assert (zlen l' <= ci_Height (parent_index j hd')) as Hlh' by (unfold zlen in *; lia).
      split_and!; [by econstructor|by econstructor|cbn; lia|unfold zlen in *; cbn [length]; lia| |].
      * intros x. rewrite !elem_of_cons. intros [-> | Hx] [Hxj | Hx'].
        -- done.
        -- pose proof (path_elem a g Hok _ _ _ Hp' Hj' Hlh' _ Hx') as [_ Hb]. lia.
        -- subst x. pose proof (path_elem a g Hok _ _ _ Hp Hi' Hlh _ Hx) as [_ Hb]. lia.
        -- by apply (Hd x).
      * assert (revert ++ i :: l = (revert ++ [i]) ++ l) as -> by (by rewrite <- app_assoc).
        assert (apply ++ j :: l' = (apply ++ [j]) ++ l') as -> by (by rewrite <- app_assoc).
        rewrite <- (capped_step maxLen n) by (unfold n; rewrite !length_app; cbn [length]; lia).
        rewrite E. destruct (maxLen <? Z.of_nat n) eqn:Ec; [done|]. cbn [mbind outcome_bind].
        rewrite E'. cbn [mbind outcome_bind]. rewrite Er.
        destruct l as [|x l]; [|done]. destruct l'; [|done]. rewrite !app_nil_r. fold n. unfold capped.
        by rewrite Ec, andb_false_r.
Qed.

Lemma known_not_zero i : known a i -> bool_decide (i = zeroIndex) = false.
Proof.
  intros Hk. apply bool_decide_eq_false. intros ->. pose proof (known_zero a g Hok _ Hk eq_refl) as E.
  injection E as E. by destruct (genesis_nonzero a g Hok).
Qed.

Lemma capped_bind {A B} maxLen n n' (x : A) (f : A -> outcome B) y : (n <= n')%nat ->
  (n = 0%nat \/ Z.of_nat n <= maxLen -> f x = capped maxLen n' y) ->
  (capped maxLen n x ≫= f) = capped maxLen n' y.
Proof.
  intros Hn E. unfold capped at 1. destruct ((0 <? n)%nat && (maxLen <? Z.of_nat n)) eqn:Ec.
  2: { apply E. apply andb_false_iff in Ec as [Ec%Nat.ltb_ge|Ec%Z.ltb_ge]; [left|right]; lia. }
  apply andb_true_iff in Ec as [E1%Nat.ltb_lt E2%Z.ltb_lt]. unfold capped.
  rewrite (proj2 (Nat.ltb_lt 0 n')), (proj2 (Z.ltb_lt maxLen (Z.of_nat n'))) by lia. done.
Qed.

Lemma capped_0 {A} maxLen (x : A) : capped maxLen 0 x = Ok x.
Proof. done. Qed.

(** The loops as one: two descents to the same height, then one to a common ancestor. *)
Lemma above_capped {A} fuel maxLen other h i :
  known a i -> 0 <= h -> (Z.to_nat (ci_Height i - h) <= fuel)%nat ->
  exists l j, path a i l j /\ known a j /\ ci_Height j = Z.min h (ci_Height i) /\
    zlen l = ci_Height i - ci_Height j /\
    (forall (f : ChainIndex * list ChainIndex -> outcome A) n' y,
       (l <> [] -> (other + length l <= n')%nat) ->
       (l = [] \/ Z.of_nat (other + length l) <= maxLen -> f (j, l) = capped maxLen n' y) ->
       (rewind_above fuel s maxLen other h i [] ≫= f) = capped maxLen n' y).
Proof.
  intros Hk Hh Hf. destruct (Z.le_gt_cases h (ci_Height i)) as [Hle|Hgt].
  - destruct (rewind_above_spec fuel maxLen other h i [] Hk ltac:(lia) Hf) as (l & j & Hp & Hj & Ej & El & Er).
    exists l, j. split_and!; [done|done|lia|lia|]. intros f n' y Hn Ef. rewrite Er. cbn [app].
    destruct l as [|x l]; [by apply Ef; left|]. apply capped_bind; [by apply Hn|].
    intros Hle'. apply Ef. right. cbn [length] in *. lia.
  - exists [], i. split_and!; [constructor|done|lia|unfold zlen; cbn; lia|]. intros f n' y _ Ef.
    destruct fuel; cbn [rewind_above]; rewrite (proj2 (Z.ltb_ge h (ci_Height i))) by lia; by apply Ef; left.
Qed.

Lemma reorgPath_fuel_spec fuel maxLen i j : known a i -> known a j ->
  (Z.to_nat (Z.min (ci_Height i) (ci_Height j)) <= fuel)%nat ->
  exists r p c, path a i r c /\ path a j p c /\ zlen r <= ci_Height i /\ zlen p <= ci_Height j /\
    (forall x, x ∈ r -> x ∉ p) /\
    reorgPath_fuel fuel s i j maxLen = capped maxLen (length r + length p) (r, rev p).
Proof.
  intros Hi Hj Hf. pose proof (known_height _ _ Hok _ Hi) as Hui. pose proof (known_height _ _ Hok _ Hj) as Huj.
  unfold is_u64 in *. unfold reorgPath_fuel.
  destruct (above_capped (A := list ChainIndex * list ChainIndex) (Z.to_nat (ci_Height i - ci_Height j)) maxLen 0
    (ci_Height j) i Hi ltac:(lia) ltac:(lia)) as (r1 & i1 & Hp1 & Hk1 & E1 & L1 & F1).
  destruct (above_capped (A := list ChainIndex * list ChainIndex) (Z.to_nat (ci_Height j - ci_Height i1)) maxLen
    (length r1) (ci_Height i1) j Hj ltac:(lia) ltac:(lia)) as (p1 & j1 & Hq1 & Hl1 & E2 & L2 & F2).
  destruct (rewind_both_spec fuel maxLen i1 j1 r1 p1 Hk1 Hl1 ltac:(lia) ltac:(lia))
    as (l & l' & c & Hp & Hp' & Hll & Hlh & Hd & Er).
  unfold zlen in *. exists (r1 ++ l), (p1 ++ l'), c. rewrite !length_app.
  split_and!; [by eapply path_app|by eapply path_app|lia|lia| |].
  - intros x. rewrite !elem_of_app. intros [Hx|Hx] [Hx'|Hx'].
    + destruct r1 as [|y r1]; [by apply elem_of_nil in Hx|]. destruct p1 as [|z p1]; [by apply elem_of_nil in Hx'|].
      cbn [length] in L1, L2. lia.
    + pose proof (path_elem a g Hok _ _ _ Hp1 Hi ltac:(unfold zlen; lia) _ Hx) as [_ Hb].
      pose proof (path_elem a g Hok _ _ _ Hp' Hl1 ltac:(unfold zlen; lia) _ Hx') as [_ Hb']. lia.
    + pose proof (path_elem a g Hok _ _ _ Hp Hk1 ltac:(unfold zlen; lia) _ Hx) as [_ Hb].
      pose proof (path_elem a g Hok _ _ _ Hq1 Hj ltac:(unfold zlen; lia) _ Hx') as [_ Hb']. lia.
    + by apply (Hd x).
  - apply F1; [lia|]. intros C1. cbv beta iota. apply F2; [lia|]. intros C2. cbv beta iota.
    rewrite (known_not_zero _ Hk1). cbn [mbind outcome_bind]. rewrite Er.
    destruct l as [|x l].
    + destruct l'; [|done]. rewrite !app_nil_r. cbn [mbind outcome_bind length]. rewrite !Nat.add_0_r.
      unfold capped. destruct ((0 <? _)%nat && _) eqn:Ec; [|done]. exfalso.
      apply andb_true_iff in Ec as [Ec1%Nat.ltb_lt Ec2%Z.ltb_lt].
      destruct C2 as [->|]; [|lia]. destruct C1 as [->|]; cbn [length] in *; lia.
    + assert (length (r1 ++ x :: l) + length (p1 ++ l') = length r1 + length (x :: l) + (length p1 + length l'))%nat
        as -> by (rewrite !length_app; lia).
      apply capped_bind; [lia|]. intros Hc. unfold capped.
      destruct ((0 <? _)%nat && _) eqn:Ec; [|done]. exfalso.
      apply andb_true_iff in Ec as [_ Ec2%Z.ltb_lt]. cbn [length] in *. lia.
Qed.
End Reorg.

(** ** Any store *)
Section Termination.
Context {St : Type} {store : Store St}.

Lemma rewind_both_stable (s : St) maxLen : forall fuel fuel' i j revert apply,
  (Z.to_nat (maxLen - Z.of_nat (length revert + length apply)) < fuel)%nat ->
  (Z.to_nat (maxLen - Z.of_nat (length revert + length apply)) < fuel')%nat ->
  rewind_both fuel s maxLen i j revert apply = rewind_both fuel' s maxLen i j revert apply.
Proof.
  induction fuel as [|fuel IH]; intros fuel' i j revert apply H H'; [lia|].
  destruct fuel' as [|fuel']; [lia|]. cbn [rewind_both]. destruct (bool_decide (i = j)); [done|].
  unfold rewind. destruct (maxLen <? _) eqn:E; [done|]. apply Z.ltb_ge in E. rewrite !length_app in E. cbn [length] in E.
  destruct (st_Header s (ci_ID i)) as [[hd|]| |]; [|done..]. cbn [mbind outcome_bind].
  destruct (st_Header s (ci_ID j)) as [[hd'|]| |]; [|done..]. cbn [mbind outcome_bind].
  apply IH; rewrite !length_app; cbn [length]; lia.
Qed.

(** The function returns, with a value or an error. *)
Definition returns {A} (o : outcome A) : Prop := match o with Panic _ => False | _ => True end.

Lemma rewind_returns (s : St) maxLen n i : (forall id, is_Ok (st_Header s id)) -> returns (rewind s maxLen n i).
Proof. intros H. unfold rewind. destruct (_ <? _); [exact I|]. by destruct (H (ci_ID i)) as [[hd|] ->]. Qed.

Lemma bind_returns {A B} (o : outcome A) (f : A -> outcome B) :
  returns o -> (forall x, o = Ok x -> returns (f x)) -> returns (o ≫= f).
Proof. destruct o; cbn; auto. Qed.

Lemma rewind_above_returns (s : St) maxLen other h : (forall id, is_Ok (st_Header s id)) -> 0 <= h ->
  forall fuel i acc, is_u64 (ci_Height i) -> (Z.to_nat (ci_Height i - h) <= fuel)%nat ->
  returns (rewind_above fuel s maxLen other h i acc).
Proof.
  intros Hs Hh. induction fuel as [|fuel IH]; intros i acc Hu Hf; cbn [rewind_above];
    (destruct (Z.ltb_spec h (ci_Height i)); [|exact I]); [lia|].
  apply bind_returns; [by apply rewind_returns|]. intros i' E. unfold rewind in E. destruct (_ <? _); [done|].
  destruct (st_Header s (ci_ID i)) as [[hd|]| |]; [|done..]. injection E as <-. unfold is_u64 in Hu.
  apply IH; cbn [ci_Height]; [apply u64_range|]. rewrite u64_id by (unfold is_u64; lia). lia.
Qed.

Lemma rewind_both_returns (s : St) maxLen : (forall id, is_Ok (st_Header s id)) ->
  forall fuel i j revert apply, (Z.to_nat (maxLen - Z.of_nat (length revert + length apply)) < fuel)%nat ->
  returns (rewind_both fuel s maxLen i j revert apply).
Proof.
  intros Hs. induction fuel as [|fuel IH]; intros i j revert apply Hf; [lia|]. cbn [rewind_both].
  destruct (bool_decide (i = j)); [exact I|].
  apply bind_returns; [by apply rewind_returns|]. intros i' E. unfold rewind in E.
  destruct (maxLen <? _) eqn:El; [done|]. apply Z.ltb_ge in El. rewrite !length_app in El. cbn [length] in El.
  apply bind_returns; [by apply rewind_returns|]. intros j' _. apply IH. rewrite !length_app. cbn [length]. lia.
Qed.

Lemma rewind_above_height (s : St) maxLen other h : 0 <= h -> forall fuel i acc i' acc', is_u64 (ci_Height i) ->
  rewind_above fuel s maxLen other h i acc = Ok (i', acc') -> is_u64 (ci_Height i').
Proof.
  intros Hh. induction fuel as [|fuel IH]; intros i acc i' acc' Hu H; cbn [rewind_above] in H;
    (destruct (h <? ci_Height i); [|by injection H as <- _]); [done|].
  destruct (rewind s _ _ i) as [i1| |] eqn:E; [|done..]. cbn [mbind outcome_bind] in H.
  eapply IH; [|exact H]. unfold rewind in E. destruct (_ <? _); [done|].
  destruct (st_Header s (ci_ID i)) as [[hd|]| |]; [|done..]. injection E as <-. apply u64_range.
Qed.

(** C34: [reorgPath] terminates for every store that can be read, whatever headers it holds: once
    the fuel of its last loop exceeds the length limit, the call returns a path or an error and
    more fuel never changes the result.  Hence cyclic or inconsistent parent links cannot make
    it loop; they are reported as a path that is too long or a missing block. *)
Theorem reorgPath_terminates (s : St) (i j : ChainIndex) (maxLen : Z) (fuel fuel' : nat) :
  (forall id, is_Ok (st_Header s id)) -> is_Ok (st_BestIndex s 0) ->
  is_u64 (ci_Height i) -> is_u64 (ci_Height j) ->
  (Z.to_nat maxLen < fuel)%nat -> (Z.to_nat maxLen < fuel')%nat ->
  returns (reorgPath_fuel fuel s i j maxLen) /\
  reorgPath_fuel fuel s i j maxLen = reorgPath_fuel fuel' s i j maxLen.
Proof.
  intros Hs [o Ho] Hi Hj H H'. unfold reorgPath_fuel.
  pose proof (rewind_above_returns s maxLen 0 (ci_Height j) Hs ltac:(unfold is_u64 in Hj; lia) _ i [] Hi ltac:(reflexivity)) as R1.
  destruct (rewind_above _ s maxLen 0 _ i []) as [[i1 r]| |] eqn:E1; [|done..]. cbn [mbind outcome_bind].
  apply rewind_above_height in E1; [|unfold is_u64 in Hj; lia|done].
  pose proof (rewind_above_returns s maxLen (length r) (ci_Height i1) Hs ltac:(unfold is_u64 in E1; lia) _ j [] Hj ltac:(reflexivity)) as R2.
  destruct (rewind_above _ s maxLen _ _ j []) as [[j1 p]| |]; [|done..]. cbn [mbind outcome_bind].
  assert (forall i2 p2,
    returns ('(revert, apply) ← rewind_both fuel s maxLen i2 j1 r p2; Ok (revert, rev apply)) /\
    ('(revert, apply) ← rewind_both fuel s maxLen i2 j1 r p2; Ok (revert, rev apply)) =
    ('(revert, apply) ← rewind_both fuel' s maxLen i2 j1 r p2; Ok (revert, rev apply))) as Hb.
  { intros i2 p2. pose proof (rewind_both_returns s maxLen Hs fuel i2 j1 r p2 ltac:(lia)) as R3.
    rewrite <- (rewind_both_stable s maxLen fuel fuel') by lia. split; [|done].
    by destruct (rewind_both fuel s maxLen i2 j1 r p2) as [[? ?]| |]. }
  destruct (bool_decide (i1 = zeroIndex)); [rewrite Ho|]; apply Hb.
Qed.
End Termination.

(** ** Well-formed trees *)
Section Correct.
Context {crypto : Crypto} {St : Type} {store : Store St} {spec : StoreSpec St}.

(** An ancestor reached by [n] steps is determined by [n]. *)
Lemma path_member a g i l k r c : tree_ok g a -> known a i -> zlen l <= ci_Height i -> zlen r <= ci_Height i ->
  path a i l k -> path a i r c -> (length l < length r)%nat -> k ∈ r.
Proof.
  intros Hok Hi Hl Hr Hp Hq Hlt.
  rewrite <- (take_drop (length l) r) in Hq. destruct (path_split _ _ _ _ _ Hq) as (k' & H1 & H2).
  destruct (path_det a _ _ _ _ _ Hp H1) as [El <-]; [rewrite length_take; lia|].
  destruct (drop (length l) r) as [|x t] eqn:Ed.
  - apply (f_equal length) in Ed. rewrite length_drop in Ed. cbn in Ed. lia.
  - inversion H2; subst. rewrite <- (take_drop (length l) r), Ed. set_solver.
Qed.

(** Disjoint paths meet at the highest common ancestor. *)
Lemma common_le a g i j l l' k r p c : tree_ok g a -> known a i -> known a j ->
  path a i l k -> path a j l' k -> zlen l <= ci_Height i -> zlen l' <= ci_Height j ->
  path a i r c -> path a j p c -> zlen r <= ci_Height i -> zlen p <= ci_Height j ->
  (forall x, x ∈ r -> x ∉ p) -> (length r <= length l)%nat.
Proof.
  intros Hok Hi Hj Hl Hl' Bl Bl' Hr Hp Br Bp Hd. destruct (decide (length r <= length l)%nat) as [|Hgt]; [done|].
  destruct (path_height a g Hok _ _ _ Hl Hi Bl) as [_ E1]. destruct (path_height a g Hok _ _ _ Hl' Hj Bl') as [_ E2].
  destruct (path_height a g Hok _ _ _ Hr Hi Br) as [_ E3]. destruct (path_height a g Hok _ _ _ Hp Hj Bp) as [_ E4].
  unfold zlen in *. destruct (Hd k).
  - eapply (path_member a g i l k r c); eauto; lia.
  - eapply (path_member a g j l' k p c); eauto; lia.
Qed.

(** C31: in a well-formed block tree [reorgPath] returns the shortest path between any two known
    blocks.  [revert] goes from the first block down to their highest common ancestor [c] and
    [apply] from [c] up to the second; every common ancestor of the two lies at or below [c].
    The call fails exactly when the two paths together exceed [maxLen], and the fuel of the
    model is enough: any larger amount gives the same result. *)
Theorem reorgPath_correct (s : St) (a : AStore) (g : BlockID) (i j : ChainIndex) (maxLen : Z) :
  rep s a -> tree_ok g a -> known a i -> known a j ->
  exists revert apply c,
    path a i revert c /\ path a j (rev apply) c /\ known a c /\
    (forall l l' k, path a i l k -> path a j l' k -> zlen l <= ci_Height i -> zlen l' <= ci_Height j ->
       ci_Height k <= ci_Height c) /\
    (forall fuel, (Z.to_nat (Z.min (ci_Height i) (ci_Height j)) <= fuel)%nat ->
       reorgPath_fuel fuel s i j maxLen = reorgPath s i j maxLen) /\
    reorgPath s i j maxLen =
      (if (0 <? length revert + length apply)%nat && (maxLen <? zlen revert + zlen apply)
       then Err "reorg path is too long" else Ok (revert, apply)).
Proof.
  intros Hrep Hok Hi Hj.
  destruct (reorgPath_fuel_spec s a g Hrep Hok (S (S (Z.to_nat (Z.min (ci_Height i) (ci_Height j))))) maxLen i j Hi Hj
    ltac:(lia)) as (r & p & c & H1 & H2 & H3 & H4 & H5 & H6).
  destruct (path_height a g Hok _ _ _ H1 Hi H3) as [Hc Ec].
  exists r, (rev p), c. rewrite rev_involutive. unfold zlen. rewrite length_rev, <- Nat2Z.inj_add.
  split_and!; [done|done|done| | |exact H6].
  - intros l l' k Hl Hl' Bl Bl'. pose proof (common_le a g i j l l' k r p c Hok Hi Hj Hl Hl' Bl Bl' H1 H2 H3 H4 H5).
    destruct (path_height a g Hok _ _ _ Hl Hi Bl) as [_ E]. unfold zlen in *. lia.
  - intros fuel Hf. unfold reorgPath. rewrite H6.
    destruct (reorgPath_fuel_spec s a g Hrep Hok fuel maxLen i j Hi Hj Hf) as (r' & p' & c' & H1' & H2' & H3' & H4' & H5' & ->).
    pose proof (common_le a g i j r p c r' p' c' Hok Hi Hj H1 H2 H3 H4 H1' H2' H3' H4' H5').
    pose proof (common_le a g i j r' p' c' r p c Hok Hi Hj H1' H2' H3' H4' H1 H2 H3 H4 H5).
    destruct (path_det a _ _ _ _ _ H1 H1') as [-> ->]; [lia|].
    destruct (path_height a g Hok _ _ _ H2 Hj H4) as [_ E]. destruct (path_height a g Hok _ _ _ H2' Hj H4') as [_ E'].
    destruct (path_det a _ _ _ _ _ H2 H2') as [-> _]; [unfold zlen in *; lia|]. done.
Qed.
End Correct.
