(* ===== verification/ChainManagerSpec.v ===== *)
(** * The manager stays on the best chain

    [mgr_inv]: the store holds a block tree, the tip is one of its blocks and the best index
    is the chain from genesis to the tip.  [AddBlocks] preserves it; the tip moves only to a
    chain with sufficiently more work, and a reorganisation that fails half-way is undone. *)
From stdpp Require Import prelude strings gmap.
From Stdlib Require Import ZArith Lia.
From S2P Require Import Prelude TypesCurrency TypesData TypesEncoding TypesCodec TypesHash TypesPolicy.
From S2P Require Import ConsensusWork ConsensusState ConsensusMerkle ConsensusQday ConsensusDifficulty.
From S2P Require Import ConsensusMidState ConsensusApply ConsensusValidateV1 ConsensusValidate ConsensusCodec ConsensusTypeSpec.
From S2P Require Import TypesBlockCodecSpec.
From S2P Require Import ChainStore ChainPool ChainManager ChainStoreSpec ChainReorgSpec.

(** Splits a bind in a hypothesis without unfolding its continuation. *)
Ltac bind_ok H x E :=
  match type of H with
  | (?A ≫= ?f) = ?r =>
      destruct A as [x| |] eqn:E; [change (f x = r) in H; cbv beta in H|discriminate H|discriminate H]
  end.

(** ** Indices of the consensus functions *)
Section Index.
Context {crypto : Crypto} {edwards : Edwards25519}.

Lemma ApplyHeader_index s bh t s' : ApplyHeader s bh t = Ok s' -> bh_ParentID bh <> zeroHash ->
  s_Index s' = mk_index (u64 (ci_Height (s_Index s) + 1)) (BlockHeader_ID bh).
Proof.
  unfold ApplyHeader. intros H Hz. destruct (_ && _); [done|]. rewrite bool_decide_false in H by done.
  bind_ok H next E. bind_ok E w E1. destruct w as [totalWork depth]. bind_ok E w E2. destruct w as [difficulty childTarget].
  bind_ok E w E3. destruct w as [oakWork oakTarget]. injection E as <-. injection H as <-. by destruct (_ <=? _).
Qed.

Lemma ApplyBlock_index s b bs t s' au : ApplyBlock s b bs t = Ok (s', au) -> b_ParentID b <> zeroHash ->
  s_Index s' = mk_index (u64 (ci_Height (s_Index s) + 1)) (Block_ID b).
Proof.
  unfold ApplyBlock. intros H Hz. destruct (_ && _); [done|]. bind_ok H ms E. bind_ok H r E1.
  destruct r as [[acc eau] added]. bind_ok H next E2. injection H as <- <-.
  apply ApplyHeader_index in E2; [|exact Hz]. unfold activate. by repeat case_match.
Qed.

(** No block is valid on the state before genesis: the median timestamp does not exist. *)
Lemma ValidateOrphan_before s b : ci_Height (s_Index s) = two64 - 1 -> ValidateOrphan s b <> Ok tt.
Proof.
  intros Hh H. unfold ValidateOrphan in H. bind_ok H u E. bind_ok H u' E'. bind_ok H u'' E''. clear H.
  unfold wrap_err, ValidateHeader in E''.
  unfold medianTimestamp, numTimestamps, childHeight in E''. rewrite Hh in E''.
  assert (u64 (two64 - 1 + 1) = 0) as Ez by reflexivity. rewrite Ez in E''.
  destruct (fail_if (negb (bool_decide (bh_ParentID (Block_Header b) = _))) _); discriminate E''.
Qed.
End Index.

(** ** Overwriting the order of expiring contracts twice *)
Section Expirations.
Implicit Types (l : list FileContractElement).
Definition by_id l : idmap FileContractElement := foldl (fun m fce => <[fce_ID fce := fce]> m) ∅ l.

Lemma by_id_acc l : forall m id fce,
  (foldl (fun m fce => <[fce_ID fce := fce]> m) m l : idmap FileContractElement) !! id = Some fce ->
  m !! id = Some fce \/ fce_ID fce = id.
Proof.
  induction l as [|x l IH]; intros m id fce H; [by left|]. cbn in H. apply IH in H as [H|H]; [|by right].
  apply lookup_insert_Some in H as [[<- <-]|[_ H]]; [by right|by left].
Qed.

Lemma by_id_elem l id fce : by_id l !! id = Some fce -> fce ∈ l.
Proof.
  assert (forall m, (foldl (fun m fce => <[fce_ID fce := fce]> m) m l : idmap FileContractElement) !! id = Some fce ->
    m !! id = Some fce \/ fce ∈ l) as H.
  { induction l as [|x l IH]; intros m H; [by left|]. cbn in H. apply IH in H as [H|H]; [|right; by right].
    apply lookup_insert_Some in H as [[_ <-]|[_ H]]; [right; left|by left]. }
  intros H'. apply H in H' as [H'|H']; [by rewrite lookup_empty in H'|done].
Qed.

Lemma by_id_key l id fce : by_id l !! id = Some fce -> fce_ID fce = id.
Proof. intros H. apply by_id_acc in H as [H|H]; [by rewrite lookup_empty in H|done]. Qed.

Lemma by_id_total l : forall m fce, fce ∈ l \/ is_Some ((m : idmap FileContractElement) !! fce_ID fce) ->
  is_Some ((foldl (fun m fce => <[fce_ID fce := fce]> m) m l : idmap FileContractElement) !! fce_ID fce).
Proof.
  induction l as [|x l IH]; intros m fce [H|H]; [by apply elem_of_nil in H|done| |]; cbn.
  - apply elem_of_cons in H as [->|H]; apply IH; [right|by left]. by rewrite lookup_insert_eq.
  - apply IH. right. destruct (decide (fce_ID x = fce_ID fce)) as [->|]; [by rewrite lookup_insert_eq|].
    by rewrite lookup_insert_ne.
Qed.

Definition collect (m : idmap FileContractElement) (order : list FileContractID) l0 :=
  for_each order 0 l0 (fun _ fcID acc =>
    match m !! fcID with Some fce => Ok (acc ++ [fce]) | None => Err "missing expiring file contract" end).

Lemma collect_spec m order : forall i l0 l,
  for_each order i l0 (fun _ fcID acc =>
    match (m : idmap FileContractElement) !! fcID with
    | Some fce => Ok (acc ++ [fce]) | None => Err "missing expiring file contract" end) = Ok l ->
  exists l1, l = l0 ++ l1 /\ length l1 = length order /\
    forall id, id ∈ order -> exists fce, m !! id = Some fce /\ fce ∈ l1.
Proof.
  induction order as [|id order IH]; intros i l0 l H; cbn [for_each] in H.
  - injection H as <-. exists []. rewrite app_nil_r. split_and!; [done|done|set_solver].
  - bind_ok H l' E. destruct (m !! id) as [fce|] eqn:Ef; [|done]. injection E as <-.
    apply IH in H as (l1 & -> & Hl & Ho). exists (fce :: l1). rewrite <- app_assoc.
    split_and!; [done|cbn; lia|]. intros id' [->|Hid]%elem_of_cons; [exists fce; split; [done|left]|].
    destruct (Ho id' Hid) as (fce' & ? & ?). exists fce'. split; [done|by right].
Qed.

Lemma collect_elements (P : FileContractElement -> Prop) (m : idmap FileContractElement) order : forall i l0 l,
  for_each order i l0 (fun _ fcID acc =>
    match m !! fcID with
    | Some fce => Ok (acc ++ [fce]) | None => Err "missing expiring file contract" end) = Ok l ->
  (forall id fce, m !! id = Some fce -> P fce) -> Forall P l0 -> Forall P l.
Proof.
  induction order as [|id order IH]; intros i l0 l H Hm Hl; cbn [for_each] in H; [by injection H as <-|].
  bind_ok H l' E. destruct (m !! id) as [fce|] eqn:Ef; [|done]. injection E as <-.
  eapply IH; [exact H|done|]. apply Forall_app. split; [done|]. constructor; [by eapply Hm|done].
Qed.

Lemma collect_total m order : forall i l0,
  (forall id, id ∈ order -> is_Some ((m : idmap FileContractElement) !! id)) ->
  exists l, for_each order i l0 (fun _ fcID acc =>
    match (m : idmap FileContractElement) !! fcID with
    | Some fce => Ok (acc ++ [fce]) | None => Err "missing expiring file contract" end) = Ok l.
Proof.
  induction order as [|id order IH]; intros i l0 H; cbn [for_each]; [by eexists|].
  destruct (H id) as [fce ->]; [left|]. cbn [mbind outcome_bind]. apply IH. intros. apply H. by right.
Qed.

Lemma overwriteExpirations_again order bid bs bs' : overwriteExpirations order bid bs = Ok bs' ->
  is_Ok (overwriteExpirations order bid bs').
Proof.
  unfold overwriteExpirations. destruct (order !! bid) as [ids|]; [|intros [= <-]; by eexists].
  destruct (negb _) eqn:En; [done|]. intros H. bind_ok H fces E. injection H as <-.
  apply collect_spec in E as (l1 & -> & Hl & Ho). cbn [bs_ExpiringFileContracts app].
  rewrite Hl, Nat.eqb_refl. cbn [negb]. fold (by_id l1).
  destruct (collect_total (by_id l1) ids 0 []) as [l El].
  - intros id Hid. destruct (Ho id Hid) as (fce & Hf & Hin). apply by_id_key in Hf as <-.
    apply by_id_total. by left.
  - rewrite El. by eexists.
Qed.

Lemma overwriteExpirations_wf order bid bs bs' : overwriteExpirations order bid bs = Ok bs' ->
  wf_V1BlockSupplement bs -> wf_V1BlockSupplement bs'.
Proof.
  unfold overwriteExpirations. destruct (order !! bid) as [ids|]; [|by intros [= <-]].
  destruct (negb _) eqn:En; [done|]. intros H [Ht Hf]. bind_ok H fces E. injection H as <-. split; [done|]. cbn.
  fold (by_id (bs_ExpiringFileContracts bs)) in E. eapply (collect_elements wf_FileContractElement); [exact E| |constructor].
  intros id fce Hl. eapply Forall_forall; [exact Hf|]. by eapply by_id_elem.
Qed.
End Expirations.

(** ** The invariant *)
Section Inv.
Context {crypto : Crypto} {sizes : CryptoSizes} {edwards : Edwards25519}.
Context {St : Type} {store : Store St} {spec : StoreSpec St}.
Implicit Types (m : Manager St) (a : AStore) (g : BlockID).

Record mgr_inv g m a : Prop := {
  mi_rep : rep (m_store m) a;
  mi_tree : tree_ok g a;
  mi_tip : known a (Tip m);
  mi_best : best_ok a (Tip m);
  mi_supp : forall id b bs, as_block a !! id = Some (b, Some bs) ->
    is_Ok (overwriteExpirations (m_expiringFileContractOrder m) id bs);
  mi_state : good_state (m_tipState m) }.

(** The block of [i] is stored with its supplement. *)
Definition applied a (i : ChainIndex) : Prop := exists b bs, as_block a !! ci_ID i = Some (b, Some bs).

(** Moving the tip keeps the tree and the supplements. *)
Record same_tree a a' : Prop := {
  sm_index : as_index a' = as_index a; sm_header : as_header a' = as_header a;
  sm_applied : forall id b bs, as_block a !! id = Some (b, Some bs) ->
    as_block a' !! id = Some (b, Some bs) }.

Lemma same_refl a : same_tree a a.
Proof. by split. Qed.
Lemma same_trans a a' a'' : same_tree a a' -> same_tree a' a'' -> same_tree a a''.
Proof. intros [H1 H2 H3] [H4 H5 H6]. split; [congruence|congruence|auto]. Qed.
Lemma same_known a a' i : same_tree a a' -> known a i -> known a' i.
Proof. intros [H1 H2 _]. unfold known. by rewrite H1, H2. Qed.
Lemma same_known_inv a a' i : same_tree a a' -> known a' i -> known a i.
Proof. intros [H1 H2 _]. unfold known. by rewrite H1, H2. Qed.
Lemma same_path a a' i l j : same_tree a a' -> path a i l j -> path a' i l j.
Proof. intros [_ H2 _]. induction 1; econstructor; [by rewrite H2|done]. Qed.
Lemma same_sym_path a a' i l j : same_tree a a' -> path a' i l j -> path a i l j.
Proof. intros [_ H2 _]. induction 1; econstructor; [by rewrite <- H2|done]. Qed.
Lemma same_applied a a' i : same_tree a a' -> applied a i -> applied a' i.
Proof. intros H (b & bs & Hb). exists b, bs. by apply (sm_applied _ _ H). Qed.

Lemma tree_set_best g a best : tree_ok g a -> tree_ok g (a_SetBest a best).
Proof. intros []. by split. Qed.
Lemma known_set_best a best i : known (a_SetBest a best) i <-> known a i.
Proof. done. Qed.

Lemma blockAndParent_spec g s a id : rep s a -> tree_ok g a ->
  exists r, blockAndParent s id = Ok r /\
    match r with
    | Some (b, bs, cs) => as_block a !! id = Some (b, bs) /\ as_index a !! b_ParentID b = Some (s_Index cs) /\
                          good_state cs
    | None => as_block a !! id = None \/
              exists b bs, as_block a !! id = Some (b, bs) /\ as_index a !! b_ParentID b = None
    end.
Proof.
  intros Hrep Hok. unfold blockAndParent. rewrite (rep_Block _ _ _ Hrep). cbn [mbind outcome_bind].
  destruct (as_block a !! id) as [[b bs]|] eqn:Eb.
  - destruct (rep_State _ _ (b_ParentID b) Hrep) as (r & -> & Hr & Hg). cbn [mbind outcome_bind]. eexists. split; [done|].
    destruct r as [cs|]; [split_and!; [done|done|by apply Hg]|]. right. by exists b, bs.
  - destruct (rep_State _ _ (b_ParentID zeroBlock) Hrep) as (r & -> & Hr & _). cbn [mbind outcome_bind].
    eexists. split; [by destruct r|]. by left.
Qed.

(** ** Reverting the tip *)
Lemma best_revert a tip hd : best_ok a tip -> 0 < ci_Height tip -> is_u64 (ci_Height tip) ->
  as_header a !! ci_ID tip = Some hd ->
  best_ok (a_SetBest a (delete (ci_Height tip) (as_best a))) (parent_index tip hd).
Proof.
  intros [H1 H2 H3 H4] Hpos Hu Hh. unfold is_u64 in Hu.
  assert (ci_Height (parent_index tip hd) = ci_Height tip - 1) as Eh
    by (cbn; apply u64_id; unfold is_u64; lia).
  split; rewrite ?Eh; cbn [as_best as_header as_index a_SetBest].
  - rewrite lookup_delete_ne by lia. destruct (H2 _ _ H1 Hpos) as (hd' & Hh' & E). cbn. congruence.
  - intros h id [Hne H]%lookup_delete_Some Hp. destruct (H2 h id H Hp) as (hd' & Hh' & E).
    exists hd'. split; [done|]. rewrite lookup_delete_ne; [done|].
    intros Eq. destruct (decide (ci_Height tip < h)) as [Hlt|]; [|lia]. by rewrite (H4 _ Hlt) in H.
  - intros h id [_ H]%lookup_delete_Some. apply known_set_best. by apply H3.
  - intros h Hh'. destruct (decide (h = ci_Height tip)) as [->|]; [by rewrite lookup_delete_eq|].
    rewrite lookup_delete_ne by done. apply H4. lia.
Qed.

Lemma revertTip_spec g m a m' err : mgr_inv g m a -> 0 < ci_Height (Tip m) -> revertTip m = Ok (m', err) ->
  match err with
  | Some _ => m' = m /\ ~ applied a (Tip m)
  | None => exists hd a', as_header a !! ci_ID (Tip m) = Some hd /\ Tip m' = parent_index (Tip m) hd /\
      applied a (Tip m) /\ mgr_inv g m' a' /\ same_tree a a'
  end.
Proof.
  intros [Hrep Hok [Hi [hd Hh]] Hbest Hs Hg] Hpos H. unfold revertTip in H.
  destruct (blockAndParent_spec g _ _ (ci_ID (Tip m)) Hrep Hok) as (r & Er & Hr).
  rewrite Er in H. cbn [mbind outcome_bind] in H.
  destruct (known_parent a g Hok (Tip m) hd (conj Hi (ex_intro _ hd Hh)) Hpos Hh) as [Hkp Ehp].
  destruct r as [[[b [bs|]] cs]|]; [| |].
  - destruct Hr as (Hb & Hc & Hgc). bind_ok H cru E1. bind_ok H s' E2. bind_ok H p E3. injection H as <- <-.
    destruct (tr_block _ _ Hok _ _ _ Hb) as [Eid Ehd].
    assert (hd = Block_Header b) as -> by congruence. change (b_ParentID b) with (bh_ParentID (Block_Header b)) in Hc.
    assert (s_Index cs = parent_index (Tip m) (Block_Header b)) as Ecs.
    { destruct Hkp as [Hkp _]. cbn in Hkp, Hc. congruence. }
    exists (Block_Header b), (a_SetBest a (delete (ci_Height (Tip m)) (as_best a))).
    split_and!; [done|done|by exists b, bs| |by split].
    pose proof (known_height _ _ Hok _ (conj Hi (ex_intro _ _ Hh))) as Hu.
    assert (delete (ci_Height (Tip m)) (as_best a) = delete (u64 (ci_Height (s_Index cs) + 1)) (as_best a)) as Ed.
    { rewrite Ecs, Ehp, u64_id by (unfold is_u64 in *; lia). f_equal. lia. }
    split.
    + rewrite Ed. by eapply rep_RevertBlock.
    + by apply tree_set_best.
    + apply known_set_best. change (known a (s_Index cs)). by rewrite Ecs.
    + change (Tip (set_tip m s' _ cs)) with (s_Index cs). rewrite Ecs. by apply best_revert.
    + exact Hs.
    + exact Hgc.
  - done.
  - injection H as <- <-. split; [done|]. intros (b & bs & Hb). destruct Hr as [Hr|(b' & bs' & Hb' & Hn)]; [congruence|].
    destruct (tr_block _ _ Hok _ _ _ Hb') as [_ Ehd]. assert (hd = Block_Header b') as -> by congruence.
    destruct Hkp as [Hkp _]. cbn in Hkp. congruence.
Qed.

(** ** Applying a block to the tip *)
Lemma best_apply g a tip i hd : tree_ok g a -> best_ok a tip -> known a i -> 0 < ci_Height i ->
  as_header a !! ci_ID i = Some hd -> parent_index i hd = tip ->
  best_ok (a_SetBest a (<[ci_Height i := ci_ID i]> (as_best a))) i.
Proof.
  intros Hok [H1 H2 H3 H4] Hk Hpos Hh E.
  destruct (known_parent a g Hok i hd Hk Hpos Hh) as [_ Eh]. rewrite E in Eh.
  split; cbn [as_best as_header as_index a_SetBest].
  - by rewrite lookup_insert_eq.
  - intros h id [[<- <-]|[Hne H]]%lookup_insert_Some Hp.
    + exists hd. split; [done|]. rewrite lookup_insert_ne by lia. rewrite <- Eh, H1, <- E. done.
    + destruct (H2 h id H Hp) as (hd' & Hh' & E'). exists hd'. split; [done|].
      rewrite lookup_insert_ne; [done|]. intros Eq.
      destruct (decide (ci_Height tip < h)) as [Hlt|]; [|lia]. by rewrite (H4 _ Hlt) in H.
  - intros h id [[<- <-]|[_ H]]%lookup_insert_Some; apply known_set_best; [by destruct i|by apply H3].
  - intros h Hh'. rewrite lookup_insert_ne by lia. apply H4. lia.
Qed.

(** Storing a block of the tree again, now with its supplement. *)
Lemma readd_block g a cs b bs i : tree_ok g a -> known a i -> s_Index cs = i ->
  as_block a !! ci_ID i = Some (b, None) ->
  let a' := a_AddBlock (a_AddState a cs) b (Some bs) in
  tree_ok g a' /\ same_tree a a' /\ as_best a' = as_best a /\
  as_block a' = <[ci_ID i := (b, Some bs)]> (as_block a).
Proof.
  intros Hok [Hi _] Ecs Hb a'. destruct (tr_block _ _ Hok _ _ _ Hb) as [Eid Ehd].
  assert (as_index a' = as_index a) as E1 by (cbn; rewrite Ecs; by apply insert_id).
  assert (as_header a' = as_header a) as E2 by (cbn; apply insert_id; by rewrite Eid).
  assert (as_block a' = <[ci_ID i := (b, Some bs)]> (as_block a)) as E3 by (cbn; by rewrite Eid).
  split_and!; [|split; [done|done|]|done|done].
  - destruct Hok as [K1 K2 K3 K4 K5 K6 K7 K8]. split; rewrite ?E1, ?E2; [done..|].
    intros id b' bs'. rewrite E3. intros [[<- [= <- <-]]|[_ H]]%lookup_insert_Some; [done|by eapply K8].
  - intros id b' bs' H. rewrite E3, lookup_insert_ne; [done|]. intros <-. congruence.
Qed.

Lemma commitTip_spec m s cs cau m' err a : rep s a -> good_state cs -> commitTip m s cs cau = Ok (m', err) ->
  err = None /\ Tip m' = s_Index cs /\
  m_expiringFileContractOrder m' = m_expiringFileContractOrder m /\
  rep (m_store m') (a_SetBest a (<[ci_Height (s_Index cs) := ci_ID (s_Index cs)]> (as_best a))) /\
  good_state (m_tipState m').
Proof.
  intros Hrep Hg H. unfold commitTip in H. bind_ok H s' E1. bind_ok H p E2. injection H as <- <-.
  split_and!; [done|done|done| |done]. eapply rep_ApplyBlock; [done|apply Hg|done].
Qed.

Lemma same_best a a' tip : same_tree a a' -> as_best a' = as_best a -> best_ok a tip -> best_ok a' tip.
Proof.
  intros Hsame E [B1 B2 B3 B4]. split; rewrite E; [done| | |done].
  - intros h id Hbi Hp. destruct (B2 h id Hbi Hp) as (hd' & X & Y). exists hd'. by rewrite (sm_header _ _ Hsame).
  - intros h id Hbi. eapply same_known; [done|]. by apply B3.
Qed.

(** The child [i] of the tip, stored and applied, becomes the tip. *)
Lemma commit_inv g m a i hd s a' cs cau m' err : best_ok a (Tip m) -> known a i -> 0 < ci_Height i ->
  as_header a !! ci_ID i = Some hd -> parent_index i hd = Tip m ->
  rep s a' -> tree_ok g a' -> same_tree a a' -> as_best a' = as_best a ->
  (forall id b bs, as_block a' !! id = Some (b, Some bs) ->
     is_Ok (overwriteExpirations (m_expiringFileContractOrder m) id bs)) ->
  applied a' i -> s_Index cs = i -> good_state cs -> commitTip m s cs cau = Ok (m', err) ->
  err = None /\ exists a3, Tip m' = i /\ mgr_inv g m' a3 /\ same_tree a a3 /\ applied a3 i.
Proof.
  intros Hbest Hk Hpos Hh Ep Hrep' Hok' Hsame Hbest' Hs' Happ Ecs Hg Hc.
  destruct (commitTip_spec _ _ _ _ _ _ _ Hrep' Hg Hc) as (-> & Etip & Eord & Hrep3 & Hg'). split; [done|].
  rewrite Ecs in *. exists (a_SetBest a' (<[ci_Height i := ci_ID i]> (as_best a'))).
  split_and!; [done| |by destruct Hsame|done].
  split; [done|by apply tree_set_best| | |by rewrite Eord|done]; rewrite Etip.
  - apply known_set_best. by eapply same_known.
  - apply (best_apply g a' (Tip m) i hd); [done|by eapply same_best|by eapply same_known|done| |done].
    by rewrite (sm_header _ _ Hsame).
Qed.

Lemma child_index m a g i b bs t cs cau : tree_ok g a -> known a i -> ci_Height (Tip m) = ci_Height i - 1 ->
  Block_ID b = ci_ID i -> b_ParentID b <> zeroHash ->
  ApplyBlock (m_tipState m) b bs t = Ok (cs, cau) -> s_Index cs = i.
Proof.
  intros Hok Hk Eh Eid Hnz E. pose proof (known_height _ _ Hok _ Hk) as Hu. unfold is_u64 in Hu.
  apply ApplyBlock_index in E; [|done]. rewrite E, Eid. change (s_Index (m_tipState m)) with (Tip m).
  rewrite u64_id by (unfold is_u64; lia). destruct i as [h id]. cbn in *. unfold mk_index. f_equal. lia.
Qed.

(** States computed from good states and storable blocks are good. *)
Lemma good_child cs b bs t cs' cau : good_state cs -> storable b -> ApplyBlock cs b bs t = Ok (cs', cau) -> good_state cs'.
Proof.
  intros [Hw Hn] [Hb _] E. destruct (ApplyBlock_typed cs b bs t cs' cau Hn Hw) as [Hw' En]; [apply Hb| |done|].
  - apply Forall_forall. intros txn Hin a Ha. destruct Hb as [_ Hb]. unfold V2Transactions in Hin.
    destruct (b_V2 b) as [d|]; [|by apply elem_of_nil in Hin]. destruct Hb as (_ & _ & Hb).
    eapply Forall_forall in Hb; [|exact Hin]. unfold wf_V2Transaction in Hb. destruct_and? Hb. by rewrite Ha in *.
  - split; [done|by rewrite En].
Qed.
Lemma good_header cs b t cs' : good_state cs -> storable b -> ApplyHeader cs (Block_Header b) t = Ok cs' -> good_state cs'.
Proof.
  intros [Hw Hn] [Hb _] E. destruct (ApplyHeader_typed cs (Block_Header b) t cs' Hn Hw) as [Hw' En]; [apply Hb|done|].
  split; [done|by rewrite En].
Qed.

Lemma applyTip_spec g m a i hd m' err : mgr_inv g m a -> known a i -> 0 < ci_Height i ->
  as_header a !! ci_ID i = Some hd -> parent_index i hd = Tip m -> applyTip m i = Ok (m', err) ->
  match err with
  | Some _ => m' = m /\ ~ applied a i
  | None => exists a', Tip m' = i /\ mgr_inv g m' a' /\ same_tree a a' /\ applied a' i
  end.
Proof.
  intros [Hrep Hok Htip Hbest Hs Hg] Hk Hpos Hh Ep H.
  destruct (known_parent a g Hok i hd Hk Hpos Hh) as [_ Eh]. rewrite Ep in Eh.
  unfold applyTip in H. rewrite (rep_Block _ _ _ Hrep) in H. cbn [mbind outcome_bind] in H.
  destruct (as_block a !! ci_ID i) as [[b obs]|] eqn:Hb.
  2: { injection H as <- <-. split; [done|]. intros (b & bs & Hb'). congruence. }
  destruct (tr_block _ _ Hok _ _ _ Hb) as [Eid Ehd]. assert (hd = Block_Header b) as -> by congruence.
  assert (b_ParentID b = ci_ID (Tip m)) as Epar by (by rewrite <- Ep).
  assert (b_ParentID b <> zeroHash) as Hnz by (rewrite Epar; by eapply known_nonzero).
  rewrite bool_decide_true in H by done. cbn [negb] in H.
  pose proof (rep_storable _ _ _ _ _ Hrep Hb) as Hst.
  destruct (rep_AncestorTimestamp _ _ _ _ _ Hrep Hok Hbest Htip) as [t Ht]. rewrite <- Epar in Ht.
  destruct obs as [bs|]; rewrite Eid in H.
  - rewrite Ht in H. cbn [mbind outcome_bind] in H. destruct (Hs _ _ _ Hb) as [bs' Eo].
    rewrite Eo in H. cbn [or_return] in H. bind_ok H r E. destruct r as [cs cau].
    destruct (commit_inv g m a i (Block_Header b) (m_store m) a cs cau m' err) as [-> (a3 & ?)];
      [done..|apply same_refl|done|done|by exists b, bs|by eapply child_index|by eapply good_child|done|]. by exists a3.
  - bind_ok H bs E0. destruct (overwriteExpirations _ _ bs) as [bs'|e|] eqn:Eo; cbn [or_return] in H; [| |done].
    2: { injection H as <- <-. split; [done|]. intros (b' & bs' & Hb'). congruence. }
    destruct (ValidateBlock (m_tipState m) b bs') as [u|e|] eqn:Ev; cbn [or_return] in H; [| |done].
    2: { injection H as <- <-. split; [done|]. intros (b' & bs'' & Hb'). congruence. }
    rewrite Ht in H. cbn [mbind outcome_bind] in H. bind_ok H r E. destruct r as [cs cau].
    bind_ok H s1 E1. bind_ok H s2 E2.
    assert (s_Index cs = i) as Ecs by (by eapply child_index).
    destruct (readd_block g a cs b bs' i Hok Hk Ecs Hb) as (Hok' & Hsame & Hbest' & Hblk).
    destruct (commit_inv g m a i (Block_Header b) s2 (a_AddBlock (a_AddState a cs) b (Some bs')) cs cau m' err)
      as [-> (a3 & ?)]; [done..| |done|done|done| | |done|by eapply good_child|done|by exists a3].
    + assert (good_state cs) as Hgc by (by eapply good_child).
      eapply rep_AddBlock; [eapply rep_AddState; [exact Hrep|exact Hgc|done]|exact Hst| |done].
      eapply overwriteExpirations_wf; [exact Eo|]. by eapply rep_Supplement.
    + intros id b2 bs2. rewrite Hblk. intros [[<- [= <- <-]]|[_ H2]]%lookup_insert_Some; [|by eapply Hs].
      by eapply overwriteExpirations_again.
    + exists b, bs'. rewrite Hblk. apply lookup_insert_eq.
Qed.
End Inv.
