(* ===== verification/ChainBestSpec.v ===== *)
(** * Reorganisations and [AddBlocks]

    A reorganisation keeps the invariant of the manager; when it fails the blocks it moved
    over are still stored with their supplements, so the way back succeeds. *)
From stdpp Require Import prelude strings gmap.
From Stdlib Require Import ZArith Lia.
From S2P Require Import Prelude TypesCurrency TypesData TypesEncoding TypesHash TypesPolicy.
From S2P Require Import ConsensusWork ConsensusState ConsensusMerkle ConsensusQday ConsensusDifficulty.
From S2P Require Import ConsensusMidState ConsensusApply ConsensusValidateV1 ConsensusValidate.
From S2P Require Import ChainStore ChainPool ChainManager ChainStoreSpec ChainReorgSpec ChainManagerSpec.

Section Best.
Context {crypto : Crypto} {sizes : CryptoSizes} {edwards : Edwards25519}.
Context {St : Type} {store : Store St} {spec : StoreSpec St}.
Context (g : BlockID).
Implicit Types (m : Manager St) (a : AStore).

Lemma Forall_applied a a' l : same_tree a a' -> Forall (applied a) l -> Forall (applied a') l.
Proof. intros H Hl. eapply Forall_impl; [exact Hl|]. intros x. by apply same_applied. Qed.

Lemma revertTips_spec n : forall m a m' err, mgr_inv g m a -> Z.of_nat n <= ci_Height (Tip m) ->
  revertTips n m = Ok (m', err) -> exists a' l,
    path a (Tip m) l (Tip m') /\ (length l <= n)%nat /\ mgr_inv g m' a' /\ same_tree a a' /\
    Forall (applied a') l /\
    match err with None => length l = n | Some _ => (length l < n)%nat /\ ~ applied a' (Tip m') end.
Proof.
  induction n as [|n IH]; intros m a m' err Hinv Hn H; cbn [revertTips] in H.
  - injection H as <- <-. exists a, []. split_and!; [constructor|done|done|apply same_refl|constructor|done].
  - bind_ok H r E. destruct r as [m1 err1]. pose proof (revertTip_spec g m a m1 err1 Hinv ltac:(lia) E) as Hr.
    destruct err1 as [e|].
    + injection H as <- <-. destruct Hr as [-> Hna]. exists a, [].
      split_and!; [constructor|cbn; lia|done|apply same_refl|constructor|cbn; lia|done].
    + destruct Hr as (hd & a1 & Hh & Et & Happ & Hinv1 & Hs1).
      pose proof (known_parent a g (mi_tree _ _ _ Hinv) (Tip m) hd (mi_tip _ _ _ Hinv) ltac:(lia) Hh) as [_ Eh].
      rewrite <- Et in Eh. destruct (IH m1 a1 m' err Hinv1 ltac:(lia) H) as (a' & l & Hp & Hl & Hinv' & Hs' & Hf & He).
      exists a', (Tip m :: l). split_and!.
      * econstructor; [done|]. rewrite <- Et. by eapply same_sym_path.
      * cbn; lia.
      * done.
      * by eapply same_trans.
      * constructor; [|done]. eapply same_applied; [|done]. by eapply same_trans.
      * destruct err; [|cbn; lia]. destruct He. split; [cbn; lia|done].
Qed.

Lemma applyTips_spec j q : forall m a m' err, mgr_inv g m a -> path a j (rev q) (Tip m) ->
  known a j -> zlen q <= ci_Height j -> applyTips q m = Ok (m', err) -> exists a' q1,
    path a (Tip m') (rev q1) (Tip m) /\ zlen q1 <= ci_Height (Tip m') /\ (length q1 <= length q)%nat /\
    mgr_inv g m' a' /\ same_tree a a' /\ Forall (applied a') q1 /\
    match err with None => Tip m' = j | Some _ => exists x, x ∈ q /\ ~ applied a' x end.
Proof.
  unfold zlen. induction q as [|x q IH]; intros m a m' err Hinv Hp Hk Hl H; cbn [applyTips] in H.
  - injection H as <- <-. inversion Hp; subst. exists a, [].
    pose proof (known_height _ _ (mi_tree _ _ _ Hinv) _ (mi_tip _ _ _ Hinv)) as Hu. unfold is_u64 in Hu.
    split_and!; [constructor|cbn; lia|done|done|apply same_refl|constructor|done].
  - bind_ok H r E. destruct r as [m1 err1]. cbn [rev length] in Hp, Hl.
    assert (x ∈ rev q ++ [x]) as Hx by (apply elem_of_app; right; left).
    destruct (path_elem a g (mi_tree _ _ _ Hinv) _ _ _ Hp Hk) with x as [Hkx Hhx];
      [unfold zlen; rewrite length_app, length_rev; cbn [length]; lia|done|].
    pose proof (known_height _ _ (mi_tree _ _ _ Hinv) _ (mi_tip _ _ _ Hinv)) as Hu. unfold is_u64 in Hu.
    destruct (path_split _ _ _ _ _ Hp) as (k & Hp1 & Hp2). inversion Hp2 as [|k' hd l0 j0 Hh Hp3]; subst.
    assert (parent_index x hd = Tip m) as Ek by (by inversion Hp3).
    pose proof (applyTip_spec g m a x hd m1 err1 Hinv Hkx ltac:(lia) Hh ltac:(done) E) as Hr.
    destruct err1 as [e|].
    + injection H as <- <-. destruct Hr as [-> Hna]. exists a, [].
      split_and!; [constructor|cbn; lia|cbn; lia|done|apply same_refl|constructor|]. exists x. split; [left|done].
    + destruct Hr as (a1 & Et & Hinv1 & Hs1 & Happ).
      destruct (IH m1 a1 m' err Hinv1) as (a' & q1 & Hq & Hql & Hqn & Hinv' & Hs' & Hf & He);
        [rewrite Et; by eapply same_path|by eapply same_known|lia|done|].
      exists a', (x :: q1). split_and!.
      * cbn [rev]. eapply path_app; [eapply same_sym_path; [exact Hs1|exact Hq]|]. rewrite Et. econstructor; [done|].
        rewrite Ek. constructor.
      * destruct (path_height a1 g (mi_tree _ _ _ Hinv1) _ _ _ Hq) as [_ Eq];
          [eapply same_known_inv; [exact Hs'|apply Hinv']|unfold zlen; rewrite length_rev; lia|].
        unfold zlen in Eq. rewrite length_rev, Et in Eq. cbn [length]. lia.
      * cbn; lia.
      * done.
      * by eapply same_trans.
      * constructor; [|done]. by eapply same_applied.
      * destruct err; [|done]. destruct He as (y & Hy & Hna). exists y. split; [by right|done].
Qed.

(** ** A reorganisation *)

(** Blocks moved over: from [i] down to a common ancestor with [j] and up to [j]. *)
Definition moved a (i j : ChainIndex) (l l' : list ChainIndex) : Prop := exists c,
  path a i l c /\ path a j l' c /\ zlen l <= ci_Height i /\ zlen l' <= ci_Height j.

Lemma moved_same a a' i j l l' : same_tree a a' -> moved a i j l l' -> moved a' i j l l'.
Proof.
  intros H (c & H1 & H2 & H3 & H4). exists c. split_and!; [by eapply same_path|by eapply same_path|done|done].
Qed.

Lemma inv_pool m m' a : m_store m' = m_store m -> m_tipState m' = m_tipState m ->
  m_expiringFileContractOrder m' = m_expiringFileContractOrder m -> mgr_inv g m a -> mgr_inv g m' a.
Proof.
  intros E1 E2 E3 [H1 H2 H3 H4 H5]. split; unfold Tip; rewrite ?E1, ?E2, ?E3; done.
Qed.

Lemma resetPool_same m revert m' : resetPool m revert = Ok m' ->
  m_store m' = m_store m /\ m_tipState m' = m_tipState m /\
  m_expiringFileContractOrder m' = m_expiringFileContractOrder m.
Proof.
  unfold resetPool. destruct revert as [|i l]; [by intros [= <-]|]. intros H. bind_ok H r E. by injection H as <-.
Qed.

Lemma reorgTo_spec m a i m' err : mgr_inv g m a -> known a i -> reorgTo m i = Ok (m', err) ->
  exists a' r p l l', mgr_inv g m' a' /\ same_tree a a' /\
    (moved a (Tip m) i r p /\ forall x, x ∈ r -> x ∉ p) /\
    (moved a (Tip m) (Tip m') l l' /\ Forall (applied a') l /\ Forall (applied a') l' /\ zlen l + zlen l' <= maxInt) /\
    match err with
    | None => Tip m' = i
    | Some _ => maxInt < zlen r + zlen p \/ (exists x, (x ∈ r \/ x ∈ p) /\ ~ applied a' x) \/
                (* the flush at the end failed *) Tip m' = i /\ ~ flush_ok St
    end.
Proof.
  intros Hinv Hk H. unfold reorgTo in H. pose proof (mi_tree _ _ _ Hinv) as Hok. pose proof (mi_tip _ _ _ Hinv) as Htip.
  pose proof (known_height _ _ Hok _ Htip) as Hu. unfold is_u64 in Hu.
  destruct (reorgPath_fuel_spec (m_store m) a g (mi_rep _ _ _ Hinv) Hok (S (S (Z.to_nat (Z.min (ci_Height (Tip m)) (ci_Height i)))))
    maxInt (Tip m) i Htip Hk ltac:(lia)) as (r & p & c & Hr & Hp & Br & Bp & Hd & E).
  assert (moved a (Tip m) i r p) as Hrp by (by exists c). fold (reorgPath (m_store m) (Tip m) i maxInt) in E.
  assert (moved a (Tip m) (Tip m) [] []) as H00 by (exists (Tip m); split_and!; [constructor|constructor|unfold zlen; cbn; lia..]).
  rewrite E in H. unfold capped in H. unfold zlen in *. destruct ((0 <? _)%nat && _) eqn:Ec; cbn [or_return] in H.
  { injection H as <- <-. exists a, r, p, [], [].
    split_and!; [done|apply same_refl|done|done|done|constructor|constructor|cbn; unfold maxInt; lia|].
    left. apply andb_true_iff in Ec as [_ Ec%Z.ltb_lt]. lia. }
  assert (Z.of_nat (length r) + Z.of_nat (length p) <= maxInt) as Hlen.
  { apply andb_false_iff in Ec as [Ec%Nat.ltb_ge|Ec%Z.ltb_ge]; unfold maxInt in *; lia. } clear Ec.
  bind_ok H x1 E1. destruct x1 as [m1 err1].
  destruct (revertTips_spec _ _ _ _ _ Hinv Br E1) as (a1 & l & Hl & Ll & Hinv1 & Hs1 & Hf1 & He1).
  assert (moved a (Tip m) (Tip m1) l []) as Hm1.
  { exists (Tip m1). unfold zlen. split_and!; [done|constructor|lia|].
    pose proof (known_height _ _ (mi_tree _ _ _ Hinv1) _ (mi_tip _ _ _ Hinv1)) as Hu1. unfold is_u64 in Hu1. cbn. lia. }
  destruct err1 as [e|].
  { injection H as <- <-. exists a1, r, p, l, []. destruct He1 as [Hlt Hna].
    split_and!; [done|done|done|done|done|done|constructor|cbn; lia|]. right. left. exists (Tip m1). split; [|done]. left.
    eapply (path_member a g (Tip m) l (Tip m1) r c); eauto; unfold zlen; lia. }
  destruct (path_det a _ _ _ _ _ Hl Hr He1) as [-> <-]. bind_ok H x2 E2. destruct x2 as [m2 err2].
  destruct (applyTips_spec i (rev p) m1 a1 m2 err2) as (a2 & q1 & Hq & Bq & Lq & Hinv2 & Hs2 & Hf2 & He2);
    [done|rewrite rev_involutive; by eapply same_path|by eapply same_known|unfold zlen; rewrite length_rev; lia|done|].
  rewrite length_rev in Lq. assert (same_tree a a2) as Hs02 by exact (same_trans _ _ _ Hs1 Hs2).
  assert (moved a (Tip m) (Tip m2) r (rev q1)) as Hm2.
  { exists (Tip m1). unfold zlen in *. rewrite length_rev. split_and!; [done|exact (same_sym_path _ _ _ _ _ Hs1 Hq)|lia|lia]. }
  assert (Forall (applied a2) r) as Hf1' by exact (Forall_applied _ _ _ Hs2 Hf1).
  assert (Forall (applied a2) (rev q1)) as Hf2' by (by apply Forall_rev).
  assert (Z.of_nat (length r) + Z.of_nat (length (rev q1)) <= maxInt) as Hlen' by (rewrite length_rev; lia).
  destruct err2 as [e|].
  { injection H as <- <-. exists a2, r, p, r, (rev q1). split_and!; try done. right. left.
    destruct He2 as (x & Hx & Hna). exists x. split; [right|done].
    apply list_elem_of_In. apply list_elem_of_In in Hx. by apply in_rev in Hx. }
  bind_ok H x3 E3. destruct x3 as [s3 err3].
  destruct (rep_Flush _ _ (mi_rep _ _ _ Hinv2)) as (s4 & err4 & E4 & Hrep4). rewrite E4 in E3. injection E3 as <- <-.
  assert (mgr_inv g (set_store m2 s4) a2) as Hinv4.
  { destruct Hinv2 as [K1 K2 K3 K4 K5 K6]. by split. }
  destruct err4 as [e|].
  { injection H as <- <-. exists a2, r, p, r, (rev q1). split_and!; try done. right. right. split; [exact He2|].
    intros Hf. by specialize (Hf _ _ _ _ (mi_rep _ _ _ Hinv2) E4). }
  bind_ok H m4 E5. injection H as <- <-. apply resetPool_same in E5 as (R1 & R2 & R3).
  exists a2, r, p, r, (rev q1). split_and!; try done.
  - by eapply inv_pool.
  - unfold Tip. rewrite R2. done.
  - unfold Tip. by rewrite R2.
Qed.

(** The way back over blocks that are stored with their supplements succeeds, up to the flush at
    its end. *)
Lemma reorgTo_back m a i l l' m' err : mgr_inv g m a -> known a i -> moved a i (Tip m) l l' ->
  Forall (applied a) l -> Forall (applied a) l' -> zlen l + zlen l' <= maxInt ->
  reorgTo m i = Ok (m', err) -> (flush_ok St -> err = None) /\ Tip m' = i /\ exists a', mgr_inv g m' a' /\ same_tree a a'.
Proof.
  intros Hinv Hk (c & P1 & P2 & B1 & B2) F1 F2 Hlen H.
  destruct (reorgTo_spec m a i m' err Hinv Hk H) as (a' & r & p & _ & _ & Hinv' & Hs & [Hrp Hd] & _ & He).
  destruct err as [e|]; [|split_and!; [done|done|by exists a']].
  destruct Hrp as (c' & Q1 & Q2 & C1 & C2). pose proof (mi_tree _ _ _ Hinv) as Hok. pose proof (mi_tip _ _ _ Hinv) as Htip.
  pose proof (common_le a g (Tip m) i l' l c r p c' Hok Htip Hk P2 P1 B2 B1 Q1 Q2 C1 C2 Hd) as Lr.
  assert (length p <= length l)%nat as Lp.
  { pose proof (path_height a g Hok _ _ _ P1 Hk B1) as [_ X1]. pose proof (path_height a g Hok _ _ _ Q2 Hk C2) as [_ X2].
    pose proof (path_height a g Hok _ _ _ P2 Htip B2) as [_ X3]. pose proof (path_height a g Hok _ _ _ Q1 Htip C1) as [_ X4].
    unfold zlen in *. lia. }
  assert (forall k u v d d', path a k u d -> path a k v d' -> (length u <= length v)%nat -> Forall (applied a) v ->
    forall x, x ∈ u -> applied a x) as Hsub.
  { intros k u v d d' Hu Hv Huv Hf x Hx. rewrite <- (take_drop (length u) v) in Hv.
    destruct (path_split _ _ _ _ _ Hv) as (k' & V1 & _).
    destruct (path_det a _ _ _ _ _ Hu V1) as [E _]; [rewrite length_take; lia|].
    rewrite E in Hx. rewrite Forall_forall in Hf. apply Hf. rewrite <- (take_drop (length u) v). apply elem_of_app. by left. }
  destruct He as [He|[(x & [Hx|Hx] & Hna)|[Et Hf]]]; [unfold zlen in *; lia| | |split_and!; [done|done|by exists a']];
    destruct Hna; (eapply same_applied; [exact Hs|]).
  - eapply (Hsub (Tip m) r l'); eauto.
  - eapply (Hsub i p l); eauto.
Qed.

(** ** Adding blocks *)
Lemma inv_notify m a : mgr_inv g m a -> mgr_inv g (notify_reorg m) a.
Proof. by apply inv_pool. Qed.

(** The caches of the pool are dropped, or nothing they depend on has changed. *)
Definition pool_kept m m' : Prop :=
  tp_ms (m_txpool m') = None \/ m_txpool m' = m_txpool m /\ m_tipState m' = m_tipState m.

Lemma resetPool_drops m revert m' : resetPool m revert = Ok m' -> tp_ms (m_txpool m') = None.
Proof.
  unfold resetPool. destruct revert as [|i l]; [by intros [= <-]|]. intros H. bind_ok H r E. by injection H as <-.
Qed.

Lemma reorgTo_drops m i m' : reorgTo m i = Ok (m', None) -> tp_ms (m_txpool m') = None.
Proof.
  unfold reorgTo. intros H. destruct (reorgPath _ _ _ _) as [[revert apply]| |]; cbn [or_return] in H; [|done|done].
  bind_ok H r1 E1. destruct r1 as [m1 [e|]]; [done|]. bind_ok H r2 E2. destruct r2 as [m2 [e|]]; [done|].
  bind_ok H r3 E3. destruct r3 as [s [e|]]; [done|]. bind_ok H m4 E4. injection H as <-. by eapply resetPool_drops.
Qed.

Lemma adopt_spec m a cs m' err : mgr_inv g m a -> known a (s_Index cs) -> adopt m cs = Ok (m', err) ->
  exists a', mgr_inv g m' a' /\ (flush_ok St -> pool_kept m m') /\
    (Tip m' = Tip m \/
     err = None /\ Tip m' = s_Index cs /\ SufficientlyHeavierThan cs (m_tipState m) = Ok true).
Proof.
  intros Hinv Hk H. unfold adopt in H. bind_ok H heavier E. destruct heavier.
  2: { injection H as <- <-. exists a. split_and!; [done|by right|by left]. }
  bind_ok H r E1. destruct r as [m1 err1].
  destruct (reorgTo_spec m a _ m1 err1 Hinv Hk E1) as (a1 & r & p & l & l' & Hinv1 & Hs1 & _ & (Hm & F1 & F2 & Hlen) & He).
  destruct err1 as [e|].
  - bind_ok H r2 E2. destruct r2 as [m2 err2].
    destruct (reorgTo_back m1 a1 (Tip m) l l' m2 err2 Hinv1) as (Hf & Et & a2 & Hinv2 & _);
      [eapply same_known; [exact Hs1|apply Hinv]|by eapply moved_same|done|done|done|done|].
    assert (m' = m2) as -> by (by destruct err2; injection H as <- _). exists a2. split_and!; [done| |by left].
    intros Hok. specialize (Hf Hok). subst err2. left. exact (reorgTo_drops _ _ _ E2).
  - injection H as <- <-. exists a1. split_and!; [by apply inv_notify|intros _; left; exact (reorgTo_drops _ _ _ E1)|]. right. split_and!; [done|exact He|done].
Qed.

(** The identifiers of incoming blocks do not collide with other headers or states. *)
Definition no_collision a (b : Block) : Prop :=
  Block_ID b <> zeroHash /\
  (as_header a !! Block_ID b = Some (Block_Header b) \/
   as_header a !! Block_ID b = None /\ as_index a !! Block_ID b = None).
Definition collision_free a (blocks : list Block) : Prop :=
  (forall b, b ∈ blocks -> no_collision a b) /\
  (forall b b', b ∈ blocks -> b' ∈ blocks -> Block_ID b = Block_ID b' -> Block_Header b = Block_Header b').

(** Storing a new child of a known block. *)
Lemma tree_add a b bs p cs : tree_ok g a -> known a p -> b_ParentID b = ci_ID p -> ci_Height p <> two64 - 1 ->
  no_collision a b -> Block_ID b <> g ->
  s_Index cs = mk_index (u64 (ci_Height p + 1)) (Block_ID b) ->
  let a' := a_AddBlock (a_AddState a cs) b bs in
  tree_ok g a' /\ known a' (s_Index cs) /\ (forall i, known a i -> known a' i) /\
  (forall i hd, as_header a !! i = Some hd -> as_header a' !! i = Some hd).
Proof.
  intros Hok Hp Epar Hmax [Hz Hc] Hg Ecs a'. pose proof (known_height _ _ Hok _ Hp) as Hu. unfold is_u64 in Hu.
  rewrite u64_id in Ecs by (unfold is_u64; lia). destruct Hp as [Hpi [hp Hph]].
  assert (forall i hd, as_header a !! i = Some hd -> as_header a' !! i = Some hd) as Hmono.
  { intros i hd Hi. cbn. destruct (decide (Block_ID b = i)) as [<-|]; [|by rewrite lookup_insert_ne].
    rewrite lookup_insert_eq. destruct Hc as [Hc|[Hc _]]; congruence. }
  assert (as_index a' = <[Block_ID b := mk_index (ci_Height p + 1) (Block_ID b)]> (as_index a)) as Eix by (cbn; by rewrite Ecs).
  assert (forall i j, as_index a !! i = Some j -> as_index a' !! i = Some j) as Hmono2.
  { intros i j Hi. rewrite Eix. destruct (decide (Block_ID b = i)) as [<-|]; [|by rewrite lookup_insert_ne].
    rewrite lookup_insert_eq. destruct Hc as [Hc|[_ Hc]]; [|congruence].
    destruct (tr_parent _ _ Hok _ _ _ Hc Hi Hg) as (k & Hk & _ & E). cbn in Hk.
    rewrite Epar in Hk. assert (k = p) as -> by congruence. destruct (tr_id _ _ Hok _ _ Hi) as [Ej _].
    destruct j as [h id]. cbn in *. subst. done. }
  split_and!; [| |intros i [Hi [hd Hh]]; split; [by apply Hmono2|exists hd; by apply Hmono]|done].
  2: { rewrite Ecs. split; [cbn; rewrite Ecs; apply lookup_insert_eq|]. cbn. rewrite lookup_insert_eq. by eexists. }
  pose proof Hok as [K1 K2 K3 K4 K5 K6 K7 K8]. split; rewrite ?Eix.
  - cbn. by rewrite lookup_insert_ne.
  - intros id i [[<- <-]|[_ H]]%lookup_insert_Some; [split; [done|unfold is_u64; cbn; lia]|by apply K2].
  - destruct K3 as [K3 (hg & K3' & E)]. split; [by rewrite lookup_insert_ne|]. exists hg. split; [by apply Hmono|done].
  - intros j [[E _]|[_ H]]%lookup_insert_Some; [done|by apply K4].
  - intros id hd H. cbn in H. apply lookup_insert_Some in H as [[<- _]|[_ H]]; [rewrite lookup_insert_eq; by eexists|].
    destruct (K5 _ _ H) as [j Hj]. exists j. rewrite <- Eix. by apply Hmono2.
  - intros id i [[<- _]|[_ H]]%lookup_insert_Some Hn; cbn in Hn; [by rewrite lookup_insert_eq in Hn|].
    apply lookup_insert_None in Hn as [Hn _]. by eapply K6.
  - intros id hd i Hh Hi Hne. rewrite <- Eix in Hi |- *. cbn [as_header a'] in Hh.
    destruct (decide (Block_ID b = id)) as [<-|Hd].
    + cbn in Hh. rewrite lookup_insert_eq in Hh. injection Hh as <-. rewrite Eix, lookup_insert_eq in Hi. injection Hi as <-.
      exists p. cbn [bh_ParentID Block_Header]. rewrite Epar. split_and!; [by apply Hmono2|exists hp; by apply Hmono|done].
    + cbn in Hh. rewrite lookup_insert_ne in Hh by done. rewrite Eix, lookup_insert_ne in Hi by done.
      destruct (K7 _ _ _ Hh Hi Hne) as (j & J1 & [hj J2] & J3). exists j. split_and!; [by apply Hmono2|exists hj; by apply Hmono|done].
  - intros id b' bs' H. cbn in H. apply lookup_insert_Some in H as [[<- [= <- <-]]|[Hne H]].
    + split; [done|]. cbn. apply lookup_insert_eq.
    + destruct (K8 _ _ _ H) as [E1 E2]. split; [done|by apply Hmono].
Qed.

Lemma inv_add m a b bs p cs s' : mgr_inv g m a -> known a p -> b_ParentID b = ci_ID p -> ci_Height p <> two64 - 1 ->
  no_collision a b -> s_Index cs = mk_index (u64 (ci_Height p + 1)) (Block_ID b) ->
  (forall x, bs = Some x -> is_Ok (overwriteExpirations (m_expiringFileContractOrder m) (Block_ID b) x)) ->
  rep s' (a_AddBlock (a_AddState a cs) b bs) ->
  mgr_inv g (set_store m s') (a_AddBlock (a_AddState a cs) b bs) /\
  known (a_AddBlock (a_AddState a cs) b bs) (s_Index cs).
Proof.
  intros [H1 H2 H3 [B1 B2 B3 B4] H5 H6] Hp Epar Hmax Hc Ecs Hbs Hrep.
  assert (Block_ID b <> g) as Hg.
  { intros E. destruct (tr_genesis _ _ H2) as [_ (hd & Hh & Ez)]. destruct Hc as [_ [Hc|[Hc _]]]; rewrite E in Hc; [|congruence].
    apply (known_nonzero a g H2 p Hp). rewrite <- Epar. assert (hd = Block_Header b) as -> by congruence. exact Ez. }
  destruct (tree_add a b bs p cs H2 Hp Epar Hmax Hc Hg Ecs) as (T1 & T2 & T3 & T4). split; [|done].
  split; [done|done|by apply T3| | |done].
  - split; cbn [as_best a_AddBlock a_AddState]; [done| |intros h id Hi; by apply T3, B3|done].
    intros h id Hi Hpos. destruct (B2 h id Hi Hpos) as (hd & X & Y). exists hd. split; [by apply T4|done].
  - intros id b' bs' H. cbn in H. apply lookup_insert_Some in H as [[<- [= <- ->]]|[_ H]]; [by apply Hbs|by eapply H5].
Qed.

Lemma collision_free_add a b bs blocks cs : collision_free a (b :: blocks) -> ci_ID (s_Index cs) = Block_ID b ->
  collision_free (a_AddBlock (a_AddState a cs) b bs) blocks.
Proof.
  intros [H1 H2] E. split; [|intros b1 b2 ? ?; apply H2; by right].
  intros b' Hb'. destruct (H1 b') as [Hz Hc]; [by right|]. split; [done|]. cbn. rewrite E.
  destruct (decide (Block_ID b = Block_ID b')) as [Eb|Hne].
  - left. rewrite Eb, lookup_insert_eq. f_equal. apply H2; [left|by right|done].
  - rewrite !lookup_insert_ne by done. exact Hc.
Qed.

(** The parent state of an incoming block, once the block passed the header checks. *)
Lemma parent_known a b cs : tree_ok g a -> as_index a !! b_ParentID b = Some (s_Index cs) ->
  ValidateOrphan cs b = Ok tt -> known a (s_Index cs) /\ b_ParentID b = ci_ID (s_Index cs) /\
    ci_Height (s_Index cs) <> two64 - 1.
Proof.
  intros Hok Hi Hv. destruct (tr_id _ _ Hok _ _ Hi) as [E _].
  assert (ci_Height (s_Index cs) <> two64 - 1) as Hh by (intros Hh; exact (ValidateOrphan_before _ _ Hh Hv)).
  split_and!; [|done|done]. split; [by rewrite E|]. rewrite E.
  destruct (as_header a !! b_ParentID b) as [hd|] eqn:Eh; [by eexists|]. destruct Hh.
  pose proof (tr_root _ _ Hok _ _ Hi Eh) as Ez. rewrite Ez in Hi. by apply (tr_before _ _ Hok).
Qed.

(** The outcome of a call that offered [blocks]: the tip stays, or moves to the last block. *)
Definition outcome_ok m (last : BlockID) m' (err : error) : Prop :=
  Tip m' = Tip m \/
  err = None /\ exists cs, Tip m' = s_Index cs /\ ci_ID (s_Index cs) = last /\
    SufficientlyHeavierThan cs (m_tipState m) = Ok true.

Definition last_id (dflt : BlockID) (blocks : list Block) : BlockID :=
  match last blocks with Some b => Block_ID b | None => dflt end.
Lemma last_id_cons d b blocks : last_id d (b :: blocks) = last_id (Block_ID b) blocks.
Proof.
  unfold last_id. destruct blocks as [|b' blocks]; [done|]. change (last (b :: b' :: blocks)) with (last (b' :: blocks)).
  destruct (last (b' :: blocks)) eqn:E; [done|]. by apply last_None in E.
Qed.

Lemma add_blocks_spec now blocks : forall n m a cs m' err, mgr_inv g m a -> known a (s_Index cs) ->
  good_state cs -> Forall storable blocks -> collision_free a blocks -> add_blocks now n blocks m cs adopt = Ok (m', err) ->
  exists a', mgr_inv g m' a' /\ (flush_ok St -> pool_kept m m') /\ outcome_ok m (last_id (ci_ID (s_Index cs)) blocks) m' err.
Proof.
  induction blocks as [|b blocks IH]; intros n m a cs m' err Hinv Hk Hg Hst Hcf H; cbn [add_blocks] in H.
  { destruct (adopt_spec m a cs m' err Hinv Hk H) as (a' & Hinv' & Hpk & Ht). exists a'. split; [done|]. split; [done|].
    destruct Ht as [Ht|(H1 & H2 & H3)]; [by left|]. right. split; [done|]. by exists cs. }
  pose proof (mi_tree _ _ _ Hinv) as Hok. pose proof (mi_rep _ _ _ Hinv) as Hrep. rewrite last_id_cons.
  inversion Hst as [|? ? Hb Hst']; subst.
  assert (forall e, Ok (m, Some e) = Ok (m', err) ->
    exists a', mgr_inv g m' a' /\ (flush_ok St -> pool_kept m m') /\ outcome_ok m (last_id (Block_ID b) blocks) m' err) as Hstop.
  { intros e [= <- <-]. exists a. split_and!; [done|by right|by left]. }
  rewrite (rep_Block _ _ _ Hrep) in H. cbn [mbind outcome_bind] in H.
  destruct (as_block a !! Block_ID b) as [[b0 [bs0|]]|] eqn:Eb.
  { destruct (tr_block _ _ Hok _ _ _ Eb) as [_ Eh]. destruct (tr_state _ _ Hok _ _ Eh) as [i Hi].
    destruct (rep_State _ _ (Block_ID b) Hrep) as (r & Er & Hr & Hgr). rewrite Er in H. cbn [mbind outcome_bind] in H.
    rewrite Hi in Hr. destruct r as [cs'|]; [|done]. injection Hr as <-. destruct (tr_id _ _ Hok _ _ Hi) as [Ei _].
    destruct (IH (S n) m a cs' m' err Hinv) as (a' & Hinv' & Hpk & Hout); [split; [by rewrite Ei|rewrite Ei; by eexists]|by apply Hgr|done| |exact H|].
    - destruct Hcf as [C1 C2]. split; [intros; apply C1; by right|intros b1 b2 ? ?; apply C2; by right].
    - exists a'. split_and!; [done|done|]. by rewrite Ei in Hout. }
  all: bind_ok H parent Ep; destruct parent as [cs1|]; [|by apply Hstop in H].
  all: assert (as_index a !! b_ParentID b = Some (s_Index cs1) /\ good_state cs1) as [Hpi Hg1] by
    (destruct (bool_decide (b_ParentID b = ci_ID (s_Index cs))) eqn:Ed;
     [apply bool_decide_eq_true in Ed; injection Ep as <-; rewrite Ed; split; [apply Hk|done]
     |destruct (rep_State _ _ (b_ParentID b) Hrep) as (r & Er & Hr & Hgr); rewrite Er in Ep; injection Ep as ->; split; [by rewrite <- Hr|by apply Hgr]]).
  all: destruct (time_After _ _); [by apply Hstop in H|].
  all: destruct (ValidateOrphan cs1 b) as [[]|e|] eqn:Ev; cbn [or_return] in H; [|by apply Hstop in H|done].
  all: destruct (parent_known a b cs1 Hok Hpi Ev) as (Hkp & Epar & Hmax).
  all: bind_ok H t Et; destruct t as [t|]; [|by apply Hstop in H].
  all: bind_ok H cs2 E2; bind_ok H s1 E3; bind_ok H s2 E4.
  all: assert (s_Index cs2 = mk_index (u64 (ci_Height (s_Index cs1) + 1)) (Block_ID b)) as Ecs
    by (eapply ApplyHeader_index; [exact E2|]; cbn; rewrite Epar; by eapply known_nonzero).
  all: assert (good_state cs2) as Hg2 by (by eapply good_header).
  all: assert (rep s2 (a_AddBlock (a_AddState a cs2) b None)) as Hrep2
    by (eapply rep_AddBlock; [eapply rep_AddState; [exact Hrep|exact Hg2|done]|done|done|done]).
  all: destruct (inv_add m a b None (s_Index cs1) cs2 s2 Hinv Hkp Epar Hmax ltac:(apply Hcf; left) Ecs ltac:(done) Hrep2) as [Hinv2 Hk2].
  all: destruct (IH (S n) (set_store m s2) _ cs2 m' err Hinv2 Hk2 Hg2 Hst') as (a' & Hinv' & Hpk & Hout);
    [apply collision_free_add; [done|by rewrite Ecs]|exact H|].
  all: exists a'; split_and!; [done|exact Hpk|]; by rewrite Ecs in Hout.
Qed.

Lemma AddBlocks_spec m a now blocks m' err : mgr_inv g m a -> Forall storable blocks -> collision_free a blocks ->
  AddBlocks now m blocks = Ok (m', err) ->
  exists a', mgr_inv g m' a' /\ (flush_ok St -> pool_kept m m') /\ outcome_ok m (last_id (ci_ID (Tip m)) blocks) m' err.
Proof.
  intros Hinv Hst Hcf H. unfold AddBlocks in H. destruct blocks as [|b blocks].
  - injection H as <- <-. exists a. split_and!; [done|by right|by left].
  - exact (add_blocks_spec now (b :: blocks) 0 m a (m_tipState m) m' err Hinv (mi_tip _ _ _ Hinv) (mi_state _ _ _ Hinv) Hst Hcf H).
Qed.

(** ** Adding blocks that were validated before *)

(** The blocks are valid one after the other from the state [cs] on, with the resulting states,
    which is what the caller has to make sure of. *)
Definition no_supplement : V1BlockSupplement := {| bs_Transactions := []; bs_ExpiringFileContracts := [] |}.
Inductive prevalidated : State -> list Block -> list State -> Prop :=
| pre_nil cs : prevalidated cs [] []
| pre_cons cs b t cs' cau blocks states : ValidateBlock cs b no_supplement = Ok tt ->
    ApplyBlock cs b no_supplement t = Ok (cs', cau) -> prevalidated cs' blocks states ->
    prevalidated cs (b :: blocks) (cs' :: states).

Lemma add_comm a cs b bs : a_AddBlock (a_AddState a cs) b bs = a_AddState (a_AddBlock a b bs) cs.
Proof. reflexivity. Qed.
Lemma last_shift {A} (l : list A) : forall x d, List.last (x :: l) d = List.last l x.
Proof. induction l as [|y l IH]; intros x d; [done|]. change (List.last (x :: y :: l) d) with (List.last (y :: l) d). by rewrite !IH. Qed.

Lemma add_validated_spec blocks final : forall states m a cs m' err, mgr_inv g m a -> known a (s_Index cs) -> good_state cs ->
  prevalidated cs blocks states -> Forall storable blocks -> collision_free a blocks ->
  (forall b, b ∈ blocks -> is_Ok (overwriteExpirations (m_expiringFileContractOrder m) (Block_ID b) no_supplement)) ->
  final = List.last states cs ->
  add_validated blocks states m (fun m => adopt m final) = Ok (m', err) ->
  exists a', mgr_inv g m' a' /\ (flush_ok St -> pool_kept m m') /\ outcome_ok m (last_id (ci_ID (s_Index cs)) blocks) m' err.
Proof.
  induction blocks as [|b blocks IH]; intros states m a cs m' err Hinv Hk Hg Hpre Hst Hcf Hord Hfin H; inversion Hpre; subst.
  { cbn [add_validated List.last] in H. destruct (adopt_spec m a cs m' err Hinv Hk H) as (a' & Hinv' & Hpk & Ht). exists a'. split_and!; [done|done|].
    destruct Ht as [Ht|(H1 & H2 & H3)]; [by left|]. right. split; [done|]. by exists cs. }
  rename cs' into cs1, states0 into states.
  match goal with Hv : ValidateBlock cs b _ = _, Ha : ApplyBlock cs b _ _ = _, Hp : prevalidated cs1 _ _ |- _ => rename Hv into Hval, Ha into Happ, Hp into Hpre1 end.
  cbn [add_validated] in H. rewrite last_id_cons.
  destruct (negb _); [injection H as <- <-; exists a; split_and!; [done|by right|by left]|].
  inversion Hst as [|? ? Hb Hst']; subst.
  assert (ValidateOrphan cs b = Ok tt) as Hor.
  { unfold ValidateBlock in Hval. bind_ok Hval u0 E0. bind_ok Hval u1 E1. by destruct u1. }
  pose proof (mi_tree _ _ _ Hinv) as Hok.
  assert (b_ParentID b = ci_ID (s_Index cs)) as Epar.
  { unfold ValidateOrphan in Hor. bind_ok Hor u0 E0. bind_ok Hor u1 E1. bind_ok Hor u2 E2. unfold wrap_err, ValidateHeader in E2.
    destruct (fail_if (negb (bool_decide (bh_ParentID (Block_Header b) = _))) _) as [u3|e|] eqn:E3; [|discriminate E2|discriminate E2].
    by apply fail_if_ok, negb_false_iff, bool_decide_eq_true in E3. }
  assert (ci_Height (s_Index cs) <> two64 - 1) as Hmax by (intros Hh; exact (ValidateOrphan_before _ _ Hh Hor)).
  assert (s_Index cs1 = mk_index (u64 (ci_Height (s_Index cs) + 1)) (Block_ID b)) as Ecs
    by (eapply ApplyBlock_index; [exact Happ|]; rewrite Epar; by eapply known_nonzero).
  assert (good_state cs1) as Hg1 by (by eapply good_child).
  bind_ok H s1 E1. bind_ok H s2 E2.
  assert (rep s2 (a_AddBlock (a_AddState a cs1) b (Some no_supplement))) as Hrep2.
  { rewrite add_comm. apply (rep_AddState s1 _ cs1 s2); [|exact Hg1|exact E2].
    apply (rep_AddBlock (m_store m)); [exact (mi_rep _ _ _ Hinv)|exact Hb| |exact E1]. split; constructor. }
  destruct (inv_add m a b (Some no_supplement) (s_Index cs) cs1 s2 Hinv Hk Epar Hmax ltac:(apply Hcf; left) Ecs
    ltac:(intros x [= <-]; apply Hord; left) Hrep2) as [Hinv2 Hk2].
  destruct (IH states (set_store m s2) _ cs1 m' err Hinv2 Hk2 Hg1 Hpre1 Hst') as (a' & Hinv' & Hpk & Hout);
    [apply collision_free_add; [done|by rewrite Ecs]|intros b' Hb'; apply Hord; by right| |exact H|].
  - apply last_shift.
  - exists a'. split_and!; [done|exact Hpk|]. by rewrite Ecs in Hout.
Qed.

Lemma AddValidatedV2Blocks_spec m a cs blocks states m' err : mgr_inv g m a -> Forall storable blocks -> collision_free a blocks ->
  known a (s_Index cs) -> good_state cs -> prevalidated cs blocks states ->
  (forall b, b ∈ blocks -> is_Ok (overwriteExpirations (m_expiringFileContractOrder m) (Block_ID b) no_supplement)) ->
  AddValidatedV2Blocks m blocks states = Ok (m', err) ->
  exists a', mgr_inv g m' a' /\ (flush_ok St -> pool_kept m m') /\ outcome_ok m (last_id (ci_ID (s_Index cs)) blocks) m' err.
Proof.
  intros Hinv Hst Hcf Hk Hg Hpre Hord H.
  assert (forall e, Ok (m, e) = Ok (m', err) -> exists a', mgr_inv g m' a' /\ (flush_ok St -> pool_kept m m') /\
    outcome_ok m (last_id (ci_ID (s_Index cs)) blocks) m' err) as Hstop.
  { intros e [= <- <-]. exists a. split_and!; [done|by right|by left]. }
  unfold AddValidatedV2Blocks in H. destruct blocks as [|b blocks]; [by eapply Hstop|]. destruct (negb _); [by eapply Hstop|].
  bind_ok H parent E. destruct parent as [p|]; [|exact (Hstop _ H)]. destruct (last states) as [final|] eqn:El; [|done].
  apply (add_validated_spec (b :: blocks) final states m a cs m' err Hinv Hk Hg Hpre Hst Hcf Hord); [|exact H].
  clear -El. revert cs El. induction states as [|x states IH]; intros cs El; [done|].
  destruct states as [|y states]; [by injection El as <-|]. exact (IH cs El).
Qed.

End Best.
