(* ===== verification/SampleStore.v ===== *)
(** * A store in memory

    An instance of the [Store] interface that satisfies its contract, and the manager of the
    devnet chain after genesis. *)
From stdpp Require Import prelude strings gmap.
From Stdlib Require Import ZArith Lia.
From S2P Require Import Prelude TypesCurrency TypesData TypesEncoding TypesCodec TypesHash SampleCrypto TypesPolicy.
From S2P Require Import ConsensusWork ConsensusState ConsensusMerkle ConsensusQday ConsensusDifficulty.
From S2P Require Import ConsensusMidState ConsensusApply ConsensusValidateV1 ConsensusValidate SampleChain.
From S2P Require Import ConsensusCodec ConsensusTypeSpec TypesMultiproof TypesMultiproofSpec TypesBlockCodecSpec TypesDecodeSpec.
From S2P Require Import ChainStore ChainPool ChainManager ChainStoreSpec ChainReorgSpec ChainManagerSpec ChainBestSpec.

Module SampleStore.
Import SampleChain.

#[export] Instance sample_sizes : @CryptoSizes Sample.crypto := Sample.sizes.

Record t := { states : idmap State; headers : idmap BlockHeader;
              blocks : idmap (Block * option V1BlockSupplement); best : gmap Z BlockID }.

Definition no_txn_supplement : V1TransactionSupplement :=
  {| ts_SiacoinInputs := []; ts_SiafundInputs := []; ts_RevisedFileContracts := []; ts_StorageProofs := [] |}.

#[export] Instance memory_store : Store t := {|
  st_BestIndex s h := Ok (mk_index h <$> best s !! h);
  st_SupplementTipTransaction s txn := Ok no_txn_supplement;
  st_SupplementTipBlock s b := Ok {| bs_Transactions := map (fun _ => no_txn_supplement) (b_Transactions b);
                                     bs_ExpiringFileContracts := [] |};
  st_Block s id := Ok (blocks s !! id);
  st_Header s id := Ok (headers s !! id);
  st_AddBlock s b bs := Ok {| states := states s; headers := <[Block_ID b := Block_Header b]> (headers s);
                              blocks := <[Block_ID b := (b, bs)]> (blocks s); best := best s |};
  st_PruneBlock s id := Ok {| states := states s; headers := headers s; blocks := delete id (blocks s);
                              best := best s |};
  st_State s id := Ok (states s !! id);
  st_AddState s cs := Ok {| states := <[ci_ID (s_Index cs) := cs]> (states s); headers := headers s;
                            blocks := blocks s; best := best s |};
  st_AncestorTimestamp s id := Ok (bh_Timestamp <$> headers s !! id);
  st_ApplyBlock s cs _ := Ok {| states := states s; headers := headers s; blocks := blocks s;
                                best := <[ci_Height (s_Index cs) := ci_ID (s_Index cs)]> (best s) |};
  st_RevertBlock s cs _ := Ok {| states := states s; headers := headers s; blocks := blocks s;
                                 best := delete (u64 (ci_Height (s_Index cs) + 1)) (best s) |};
  st_Flush s := Ok (s, None) |}.

Definition view (s : t) : AStore :=
  {| as_index := s_Index <$> states s; as_header := headers s; as_block := blocks s; as_best := best s |}.

Definition contents_ok (s : t) : Prop :=
  (forall id cs, states s !! id = Some cs -> good_state cs) /\
  (forall id b bs, blocks s !! id = Some (b, bs) -> storable b).

#[export] Instance memory_spec : StoreSpec t.
Proof.
  refine {| rep := fun s a => a = view s /\ contents_ok s |}; try (intros; destruct_and?; subst; done).
  - intros s a id [-> [Hs _]]. eexists. split; [done|]. cbn. rewrite lookup_fmap. split; [done|]. apply Hs.
  - intros s a id b bs [-> [_ Hb]]. apply Hb.
  - intros s a b bs [-> _] [= <-]. split; [|constructor]. cbn. by induction (b_Transactions b); constructor.
  - intros s a g tip i [-> _] Hok Hb [_ [hd Hh]]. exists (bh_Timestamp hd). cbn in *. by rewrite Hh.
  - intros s a cs s' [-> [Hs Hb]] Hg [= <-]. split; [unfold view, a_AddState; cbn; by rewrite fmap_insert|].
    split; [|done]. intros id cs' H. cbn in H. apply lookup_insert_Some in H as [[<- <-]|[_ H]]; [done|by eapply Hs].
  - intros s a b bs s' [-> [Hs Hb]] Hst _ [= <-]. split; [done|]. split; [done|].
    intros id b' bs' H. cbn in H. apply lookup_insert_Some in H as [[_ [= <- _]]|[_ H]]; [done|by eapply Hb].
  - intros s a id s' [-> [Hs Hb]] [= <-]. split; [done|]. split; [done|].
    intros id' b' bs' H. cbn in H. apply lookup_delete_Some in H as [_ H]. by eapply Hb.
  - intros s a cs cau s' [-> H] _ [= <-]. by split.
  - intros s a cs cru s' [-> H] [= <-]. by split.
  - intros s a H. by exists s, None.
Defined.

(** ** The devnet chain after genesis *)
Definition gid : BlockID := Eval vm_compute in Block_ID genesis.
Definition before : State := Eval vm_compute in
  match GenesisState network with Ok s => s | _ => at_height 0 end.
Definition start : t :=
  {| states := {[ zeroHash := before; gid := tip ]}; headers := {[ gid := Block_Header genesis ]};
     blocks := {[ gid := (genesis, Some genesis_supplement) ]}; best := {[ 0 := gid ]} |}.
Definition mgr : Manager t := NewManager start tip ∅.

Lemma gid_genesis : Block_ID genesis = gid.
Proof. vm_cast_no_check (eq_refl gid). Qed.
Lemma tip_index : s_Index tip = mk_index 0 gid.
Proof. vm_cast_no_check (eq_refl (mk_index 0 gid)). Qed.
Lemma before_index : s_Index before = mk_index (two64 - 1) zeroHash.
Proof. reflexivity. Qed.
Lemma gid_nonzero : gid <> zeroHash.
Proof. by vm_compute. Qed.

Lemma view_index id i : as_index (view start) !! id = Some i ->
  id = zeroHash /\ i = mk_index (two64 - 1) zeroHash \/ id = gid /\ i = mk_index 0 gid.
Proof.
  cbn [as_index view states start]. rewrite lookup_fmap. destruct (_ !! id) as [s|] eqn:E; [|done]. intros [= <-].
  apply lookup_insert_Some in E as [[<- <-]|[_ E]]; [by left|]. apply lookup_singleton_Some in E as [<- <-].
  right. split; [done|apply tip_index].
Qed.

Lemma view_tip : as_index (view start) !! gid = Some (mk_index 0 gid).
Proof.
  cbn [as_index view states start]. rewrite lookup_fmap, lookup_insert_ne by (intros E; by apply gid_nonzero).
  rewrite lookup_singleton_eq. cbn [fmap option_fmap option_map]. by rewrite tip_index.
Qed.

Lemma start_tree : tree_ok gid (view start).
Proof.
  split; cbn [as_header as_block view headers blocks start].
  - apply lookup_singleton_ne, gid_nonzero.
  - by intros id i [[-> ->]|[-> ->]]%view_index.
  - split; [apply view_tip|]. exists (Block_Header genesis). by rewrite lookup_singleton_eq.
  - intros j [[_ ->]|[E _]]%view_index; [done|]. by destruct gid_nonzero.
  - intros id hd [<- <-]%lookup_singleton_Some. rewrite view_tip. by eexists.
  - intros id i [[-> ->]|[-> ->]]%view_index H; [done|]. by rewrite lookup_singleton_eq in H.
  - intros id hd i [<- <-]%lookup_singleton_Some. done.
  - intros id b bs [<- [= <- <-]]%lookup_singleton_Some. split; [apply gid_genesis|]. by rewrite lookup_singleton_eq.
Qed.

Lemma start_known : known (view start) (mk_index 0 gid).
Proof. split; [apply view_tip|]. cbn [as_header view headers start ci_ID mk_index]. rewrite lookup_singleton_eq. by eexists. Qed.

(** ** What the chain stores is well-formed *)
Lemma tip_good : good_state tip.
Proof. split; [wf_ground|]. split; [|reflexivity]. split; [discriminate|reflexivity]. Qed.
Lemma before_good : good_state before.
Proof. split; [wf_ground|]. split; [|reflexivity]. split; [discriminate|reflexivity]. Qed.

Lemma genesis_storable : storable genesis.
Proof.
  assert (wf_V2Block genesis) as Hw by wf_ground. split; [exact Hw|]. exact (V2Block_rt [] genesis Hw I).
Qed.

(** The block is what its encoding decodes to. *)
Definition block1_stream : bytes :=
  Eval vm_compute in match V2Block_EncodeTo block1 with Ok enc => enc | _ => [] end.
Lemma block1_stream_ok : bytes_ok block1_stream.
Proof.
  apply Forall_forall. assert (forallb (fun b => (0 <=? b) && (b <? 256))%Z block1_stream = true) as H by (vm_compute; reflexivity).
  rewrite forallb_forall in H. intros x Hx. specialize (H x (proj1 (list_elem_of_In _ _) Hx)). unfold byte_ok. lia.
Qed.
Definition block1_value : Block := Eval vm_compute in block1.
Lemma block1_evaluates : block1 = block1_value.
Proof. vm_cast_no_check (eq_refl block1_value). Qed.
Lemma block1_decodes : V2Block_DecodeFrom (mkD block1_stream (zlen block1_stream)) = Ok (block1, mkD [] 0).
Proof. rewrite block1_evaluates. vm_cast_no_check (eq_refl (Ok (block1_value, mkD [] 0))). Qed.
Lemma block1_wf : wf_V2Block block1.
Proof.
  pose proof (@V2Block_typed Sample.crypto Sample.sizes (mkD block1_stream (zlen block1_stream)) block1_stream_ok) as H.
  rewrite block1_decodes in H. exact (proj1 H).
Qed.

(** The one proof of the block, in the accumulator of two leaves. *)
Definition premine_leaf : mleaf :=
  {| ml_pos := 0; ml_StateElement := sce_StateElement premine; ml_ElementHash := mp_siacoinLeaf premine |}.
Definition two_leaves : list Hash256 := Eval vm_compute in ml_leafHash premine_leaf :: se_MerkleProof (sce_StateElement premine).
Lemma block1_proofs : block_proofs_valid two_leaves block1.
Proof.
  split; [done|]. intros l Hl. change (v2b_Transactions _) with [coinbase; transfer1; transfer2] in Hl.
  assert (forEachElementLeaf [coinbase; transfer1; transfer2] = [premine_leaf]) as E
    by vm_cast_no_check (eq_refl [premine_leaf]).
  rewrite E, list_elem_of_singleton in Hl. subst l.
  split; [done|]. split; [vm_compute; reflexivity|]. exists 1%nat.
  change (mix premine_leaf) with 0%nat. split; [by split|vm_compute; reflexivity].
Qed.
Lemma block1_storable : storable block1.
Proof. split; [exact block1_wf|]. exact (V2Block_rt two_leaves block1 block1_wf block1_proofs). Qed.

Lemma start_ok : contents_ok start.
Proof.
  split.
  - intros id cs H. cbn [states start] in H. apply lookup_insert_Some in H as [[_ <-]|[_ H]]; [exact before_good|].
    apply lookup_singleton_Some in H as [_ <-]. exact tip_good.
  - intros id b bs H. cbn [blocks start] in H. apply lookup_singleton_Some in H as [_ H]. injection H as <- _. exact genesis_storable.
Qed.

Lemma start_inv : mgr_inv gid mgr (view start).
Proof.
  split.
  - split; [reflexivity|exact start_ok].
  - apply start_tree.
  - unfold Tip. cbn [m_tipState mgr NewManager]. rewrite tip_index. apply start_known.
  - unfold Tip. cbn [m_tipState mgr NewManager]. rewrite tip_index. split; cbn [as_best view best start ci_Height ci_ID mk_index].
    + apply lookup_singleton_eq.
    + intros h id [<- <-]%lookup_singleton_Some. done.
    + intros h id [<- <-]%lookup_singleton_Some. apply start_known.
    + intros h Hh. apply lookup_singleton_ne. lia.
  - intros id b bs _. by eexists.
  - exact tip_good.
Qed.

Lemma block1_free : collision_free (view start) [block1].
Proof.
  assert (bool_decide (Block_ID block1 = zeroHash) = false) as E1 by vm_cast_no_check (eq_refl false).
  assert (bool_decide (Block_ID block1 = gid) = false) as E2 by vm_cast_no_check (eq_refl false).
  apply bool_decide_eq_false in E1, E2. split.
  - intros b Hb%list_elem_of_singleton. subst b. split; [exact E1|]. right. split.
    + cbn [as_header view headers start]. rewrite lookup_singleton_ne; [reflexivity|intros E; exact (E2 (eq_sym E))].
    + destruct (as_index (view start) !! Block_ID block1) as [i|] eqn:E; [|reflexivity].
      exfalso. apply view_index in E as [[E _]|[E _]]; [exact (E1 E)|exact (E2 E)].
  - intros b b' Hb%list_elem_of_singleton Hb'%list_elem_of_singleton _. subst. reflexivity.
Qed.

Definition now : nat -> Time := fun _ => time_Add timestamp (10 * Second).

(** The block is accepted and becomes the tip. *)
Lemma add_block1 : (fun r => (ci_Height (Tip (fst r)), snd r)) <$> AddBlocks now mgr [block1] = Ok (1, None).
Proof. vm_cast_no_check (eq_refl (Ok (1, @None string))). Qed.
End SampleStore.
Import SampleChain SampleStore.


(** A store that answers every read, and the path between the two blocks of the chain. *)
Lemma reorgPath_terminates_witness :
  returns (reorgPath_fuel 145 SampleStore.start (mk_index 7 zeroHash) (mk_index 0 SampleStore.gid) 144) /\
  reorgPath_fuel 145 SampleStore.start (mk_index 7 zeroHash) (mk_index 0 SampleStore.gid) 144 =
  reorgPath_fuel 1000 SampleStore.start (mk_index 7 zeroHash) (mk_index 0 SampleStore.gid) 144.
Proof.
  apply (reorgPath_terminates SampleStore.start (mk_index 7 zeroHash) (mk_index 0 SampleStore.gid) 144 145 1000).
  - intros id. eexists. reflexivity.
  - eexists. reflexivity.
  - split; [discriminate|reflexivity].
  - split; [discriminate|reflexivity].
  - cbn; lia.
  - cbn; lia.
Defined.

Lemma reorgPath_correct_witness : exists s a i revert apply c, ci_ID i = Block_ID SampleChain.block1 /\
  path a (mk_index 0 SampleStore.gid) revert c /\ path a i (rev apply) c /\
  reorgPath s (mk_index 0 SampleStore.gid) i 144 =
    (if (0 <? length revert + length apply)%nat && (144 <? zlen revert + zlen apply)
     then Err "reorg path is too long" else Ok (revert, apply)).
Proof.
  pose proof SampleStore.add_block1 as H.
  destruct (AddBlocks SampleStore.now SampleStore.mgr [SampleChain.block1]) as [[m' err]| |] eqn:E; [|done|done].
  cbn [fmap outcome_fmap fst snd] in H. injection H as Hh ->.
  destruct (AddBlocks_spec SampleStore.gid SampleStore.mgr (SampleStore.view SampleStore.start) SampleStore.now
    [SampleChain.block1] m' None SampleStore.start_inv (proj2 (Forall_singleton _ _) SampleStore.block1_storable)
    SampleStore.block1_free E) as (a' & [H1 H2 H3 H4 _ _] & _ & Hout).
  destruct (reorgPath_correct (m_store m') a' SampleStore.gid (mk_index 0 SampleStore.gid) (Tip m') 144 H1 H2
    (known_genesis _ _ H2) H3) as (revert & apply & c & P1 & P2 & _ & _ & _ & P3).
  exists (m_store m'), a', (Tip m'), revert, apply, c. split; [|split; [exact P1|split; [exact P2|exact P3]]].
  destruct Hout as [Ht|(_ & cs & -> & Hid & _)]; [|exact Hid].
  exfalso. rewrite Ht in Hh. unfold Tip in Hh. cbn [m_tipState SampleStore.mgr NewManager] in Hh.
  rewrite SampleStore.tip_index in Hh. discriminate Hh.
Defined.
