(* ===== verification/ChainPoolSpec.v ===== *)
(** * The transaction pool is always a valid set

    [pool_ok]: while its cached state is present, the pool replays on the tip: every
    transaction is valid after the ones before it, the index map holds exactly their positions
    and the weight is the sum of theirs. *)
From stdpp Require Import prelude strings gmap.
From Stdlib Require Import ZArith Lia.
From S2P Require Import Prelude TypesCurrency TypesData TypesEncoding TypesHash TypesPolicy.
From S2P Require Import ConsensusWork ConsensusState ConsensusMerkle ConsensusQday ConsensusDifficulty.
From S2P Require Import ConsensusMidState ConsensusApply ConsensusValidateV1 ConsensusValidate.
From S2P Require Import TypesMultiproof ChainStore ChainPool ChainManager ChainManagerPool ChainManagerSpec.

Section Replay.
Context {crypto : Crypto} {edwards : Edwards25519}.

(** Transactions valid one after the other, with the state they lead to. *)
Inductive runs (ms : MidState) : list (Transaction + V2Transaction) -> MidState -> Prop :=
| runs_nil : runs ms [] ms
| runs_v1 l ms1 txn ts u ms2 : runs ms l ms1 -> ValidateTransaction ms1 txn ts = Ok u ->
    ApplyTransaction ms1 txn ts = Ok ms2 -> runs ms (l ++ [inl txn]) ms2
| runs_v2 l ms1 txn u ms2 : runs ms l ms1 -> ValidateV2Transaction ms1 txn = Ok u ->
    ApplyV2Transaction ms1 txn = Ok ms2 -> runs ms (l ++ [inr txn]) ms2.

(** Any prefix of a valid set is a valid set. *)
Lemma runs_prefix ms l ms' k : runs ms l ms' -> exists ms'', runs ms (take k l) ms''.
Proof.
  induction 1 as [|l ms1 txn ts u ms2 Hr IH Hv Ha|l ms1 txn u ms2 Hr IH Hv Ha].
  - exists ms. rewrite take_nil. constructor.
  - destruct (decide (k <= length l)%nat); [by rewrite take_app_le|].
    exists ms2. rewrite take_ge by (rewrite length_app; cbn; lia). by econstructor.
  - destruct (decide (k <= length l)%nat); [by rewrite take_app_le|].
    exists ms2. rewrite take_ge by (rewrite length_app; cbn; lia). by econstructor.
Qed.

Definition v1s (l : list (Transaction + V2Transaction)) : list Transaction :=
  omap (fun t => match t with inl t => Some t | inr _ => None end) l.
Definition v2s (l : list (Transaction + V2Transaction)) : list V2Transaction :=
  omap (fun t => match t with inl _ => None | inr t => Some t end) l.

Lemma v1s_nil l : v1s l = [] -> l = map inr (v2s l).
Proof. induction l as [|[t|t] l IH]; cbn; [done|done|]. intros H. f_equal. by apply IH. Qed.

(** ** The index map and the weight *)
Definition pool_weight (txns : list Transaction) (v2txns : list V2Transaction) : Z :=
  foldr Z.add 0 (map TransactionWeight txns) + foldr Z.add 0 (map V2TransactionWeight v2txns).

Record indexed (txns : list Transaction) (v2txns : list V2Transaction) (indices : idmap nat) (weight : Z) : Prop := {
  ix_pos : forall id i, indices !! id = Some i <->
    (exists txn, txns !! i = Some txn /\ Transaction_ID txn = id) \/
    (exists txn, v2txns !! i = Some txn /\ V2Transaction_ID txn = id);
  ix_nodup : NoDup (map Transaction_ID txns ++ map V2Transaction_ID v2txns);
  ix_weight : weight = u64 (pool_weight txns v2txns) }.

Lemma sum_snoc l x : foldr Z.add 0 (l ++ [x]) = foldr Z.add 0 l + x.
Proof. induction l as [|y l IH]; cbn in *; lia. Qed.

Lemma lookup_snoc_Some {A} (l : list A) x i y :
  lookup i (l ++ [x]) = Some y <-> (lookup i l = Some y \/ (i = length l /\ x = y)).
Proof.
  destruct (decide (i < length l)%nat) as [Hlt|Hge].
  - rewrite lookup_app_l by done. split; [by left|]. intros [H|[E _]]; [done|lia].
  - rewrite lookup_app_r by lia. split.
    + intros H. destruct (i - length l)%nat as [|k] eqn:E; [|by destruct k]. injection H as ->. right. split; [lia|done].
    + intros [H|[-> ->]]; [apply lookup_lt_Some in H; lia|]. by rewrite Nat.sub_diag.
Qed.

Lemma indexed_fresh txns v2txns indices weight id : indexed txns v2txns indices weight -> indices !! id = None ->
  (id ∉ map Transaction_ID txns) /\ (id ∉ map V2Transaction_ID v2txns).
Proof.
  intros [H _ _] Hn. split; intros Hin; apply list_elem_of_fmap in Hin as (txn & -> & Hin);
    apply list_elem_of_lookup in Hin as [i Hi].
  - pose proof (proj2 (H (Transaction_ID txn) i) (or_introl (ex_intro _ txn (conj Hi eq_refl)))). congruence.
  - pose proof (proj2 (H (V2Transaction_ID txn) i) (or_intror (ex_intro _ txn (conj Hi eq_refl)))). congruence.
Qed.

Lemma u64_add x y : u64 (u64 x + y) = u64 (x + y).
Proof. unfold u64. apply Zplus_mod_idemp_l. Qed.

Lemma indexed_add txns v2txns indices weight txn : indexed txns v2txns indices weight ->
  indices !! Transaction_ID txn = None ->
  indexed (txns ++ [txn]) v2txns (<[Transaction_ID txn := length txns]> indices) (u64 (weight + TransactionWeight txn)).
Proof.
  intros Hix Hn. destruct (indexed_fresh _ _ _ _ _ Hix Hn) as [F1 F2]. destruct Hix as [H1 H2 H3]. split.
  - intros id i. rewrite lookup_insert_Some, H1. split.
    + intros [[<- <-]|[Hne [(t & Ht & E)|Ht]]]; [left; exists txn|left; exists t|by right];
        (split; [|done]); apply lookup_snoc_Some; [by right|by left].
    + intros [(t & [Ht|[-> <-]]%lookup_snoc_Some & <-)|(t & Ht & <-)]; [|by left|].
      * right. split; [|by left; exists t]. intros E. apply F1. rewrite E. by apply list_elem_of_fmap_2, list_elem_of_lookup_2 with i.
      * right. split; [|by right; exists t]. intros E. apply F2. rewrite E. by apply list_elem_of_fmap_2, list_elem_of_lookup_2 with i.
  - rewrite map_app. cbn [map]. apply (NoDup_Permutation_proper _ (Transaction_ID txn :: map Transaction_ID txns ++ map V2Transaction_ID v2txns)).
    + rewrite <- app_assoc. cbn. by rewrite Permutation_middle.
    + constructor; [|done]. rewrite elem_of_app. tauto.
  - rewrite H3, u64_add. f_equal. unfold pool_weight. rewrite map_app. cbn [map]. rewrite sum_snoc. lia.
Qed.

Lemma indexed_addV2 txns v2txns indices weight txn : indexed txns v2txns indices weight ->
  indices !! V2Transaction_ID txn = None ->
  indexed txns (v2txns ++ [txn]) (<[V2Transaction_ID txn := length v2txns]> indices)
    (u64 (weight + V2TransactionWeight txn)).
Proof.
  intros Hix Hn. destruct (indexed_fresh _ _ _ _ _ Hix Hn) as [F1 F2]. destruct Hix as [H1 H2 H3]. split.
  - intros id i. rewrite lookup_insert_Some, H1. split.
    + intros [[<- <-]|[Hne [Ht|(t & Ht & E)]]]; [right; exists txn|by left|right; exists t];
        (split; [|done]); apply lookup_snoc_Some; [by right|by left].
    + intros [(t & Ht & <-)|(t & [Ht|[-> <-]]%lookup_snoc_Some & <-)]; [| |by left].
      * right. split; [|by left; exists t]. intros E. apply F1. rewrite E. by apply list_elem_of_fmap_2, list_elem_of_lookup_2 with i.
      * right. split; [|by right; exists t]. intros E. apply F2. rewrite E. by apply list_elem_of_fmap_2, list_elem_of_lookup_2 with i.
  - rewrite map_app. cbn [map]. rewrite app_assoc. apply NoDup_app. split_and!; [done| |apply NoDup_singleton].
    intros x Hx Hs%list_elem_of_singleton. subst x. apply elem_of_app in Hx. tauto.
  - rewrite H3, u64_add. f_equal. unfold pool_weight. rewrite map_app. cbn [map]. rewrite sum_snoc. lia.
Qed.

Lemma indexed_empty : indexed [] [] ∅ 0.
Proof.
  split; [|constructor|done]. intros id i. rewrite lookup_empty. split; [done|]. by intros [(t & Ht & _)|(t & Ht & _)].
Qed.

(** ** The pool of a manager *)
Context {St : Type} {store : Store St}.
Implicit Types (m : Manager St).

Definition pool_ok (tip : State) (p : txpool) : Prop :=
  match tp_ms p with
  | None => True
  | Some ms => (exists l, runs (NewMidState tip) l ms /\ v1s l = tp_txns p /\ v2s l = tp_v2txns p) /\
               indexed (tp_txns p) (tp_v2txns p) (tp_indices p) (tp_weight p)
  end.

Definition mpool_ok m : Prop := pool_ok (m_tipState m) (m_txpool m).

(** The state of the loops of [revalidatePool]. *)
Definition acc_ok (tip : State) (txns : list Transaction) (v2txns : list V2Transaction)
    (ms : MidState) (indices : idmap nat) (weight : Z) : Prop :=
  (exists l, runs (NewMidState tip) l ms /\ v1s l = txns /\ v2s l = v2txns) /\
  indexed txns v2txns indices weight.

Lemma acc_add tip txns v2txns ms indices weight txn ts u ms' : acc_ok tip txns v2txns ms indices weight ->
  indices !! Transaction_ID txn = None -> ValidateTransaction ms txn ts = Ok u -> ApplyTransaction ms txn ts = Ok ms' ->
  acc_ok tip (txns ++ [txn]) v2txns ms' (<[Transaction_ID txn := length txns]> indices)
    (u64 (weight + TransactionWeight txn)).
Proof.
  intros [(l & Hr & <- & <-) Hix] Hn Hv Ha. split; [|by apply indexed_add].
  exists (l ++ [inl txn]). unfold v1s, v2s. rewrite !omap_app. cbn. rewrite app_nil_r. split_and!; [by econstructor|done|done].
Qed.
Lemma acc_addV2 tip txns v2txns ms indices weight txn u ms' : acc_ok tip txns v2txns ms indices weight ->
  indices !! V2Transaction_ID txn = None -> ValidateV2Transaction ms txn = Ok u -> ApplyV2Transaction ms txn = Ok ms' ->
  acc_ok tip txns (v2txns ++ [txn]) ms' (<[V2Transaction_ID txn := length v2txns]> indices)
    (u64 (weight + V2TransactionWeight txn)).
Proof.
  intros [(l & Hr & <- & <-) Hix] Hn Hv Ha. split; [|by apply indexed_addV2].
  exists (l ++ [inr txn]). unfold v1s, v2s. rewrite !omap_app. cbn. rewrite app_nil_r. split_and!; [by econstructor|done|done].
Qed.

Lemma not_Some_None {A} (o : option A) : bool_decide (is_Some o) = false -> o = None.
Proof. intros H%bool_decide_eq_false. destruct o; [destruct H; by eexists|done]. Qed.

Lemma readd_all tip s l : forall i txns ms indices weight r, acc_ok tip txns [] ms indices weight ->
  for_each l i (ms, indices, weight, txns) (fun _ txn acc => readd s txn acc) = Ok r ->
  let '(ms', indices', weight', txns') := r in acc_ok tip txns' [] ms' indices' weight'.
Proof.
  induction l as [|txn l IH]; intros i txns ms indices weight r Hok H; cbn [for_each] in H.
  - by injection H as <-.
  - bind_ok H acc E. destruct acc as [[[ms1 ix1] w1] t1]. eapply IH; [|exact H]. clear H.
    unfold readd in E. destruct (bool_decide _) eqn:Eb; [by injection E as <- <- <- <-|].
    apply not_Some_None in Eb. bind_ok E ts Et. destruct (ValidateTransaction ms txn ts) as [u|e|] eqn:Ev; [| |done].
    + bind_ok E ms2 Ea. injection E as <- <- <- <-. by eapply acc_add.
    + by injection E as <- <- <- <-.
Qed.

Lemma readdV2_all tip v1txns l : forall i txns ms indices weight r, acc_ok tip v1txns txns ms indices weight ->
  for_each l i (ms, indices, weight, txns) (fun _ txn acc => readdV2 txn acc) = Ok r ->
  let '(ms', indices', weight', txns') := r in acc_ok tip v1txns txns' ms' indices' weight'.
Proof.
  induction l as [|txn l IH]; intros i txns ms indices weight r Hok H; cbn [for_each] in H.
  - by injection H as <-.
  - bind_ok H acc E. destruct acc as [[[ms1 ix1] w1] t1]. eapply IH; [|exact H]. clear H.
    unfold readdV2 in E. destruct (bool_decide _) eqn:Eb; [by injection E as <- <- <- <-|].
    apply not_Some_None in Eb. destruct (ValidateV2Transaction ms txn) as [u|e|] eqn:Ev; [| |done].
    + bind_ok E ms2 Ea. injection E as <- <- <- <-. by eapply acc_addV2.
    + by injection E as <- <- <- <-.
Qed.

(** ** [revalidatePool] *)
Lemma revalidatePool_spec m m' : mpool_ok m -> revalidatePool m = Ok m' ->
  mpool_ok m' /\ m_tipState m' = m_tipState m /\ m_store m' = m_store m /\
  m_expiringFileContractOrder m' = m_expiringFileContractOrder m.
Proof.
  intros Hok H. unfold revalidatePool in H.
  destruct (is_some (tp_ms (m_txpool m)) && _) eqn:Ec.
  { by injection H as <-. }
  bind_ok H p Ep. bind_ok H r1 E1. destruct r1 as [[[ms1 ix1] w1] txns1]. bind_ok H r2 E2.
  destruct r2 as [[[ms2 ix2] w2] txns2]. injection H as <-.
  assert (acc_ok (m_tipState m) [] [] (NewMidState (m_tipState m)) ∅ 0) as H0.
  { split; [|apply indexed_empty]. exists []. split_and!; [constructor|done|done]. }
  apply (readd_all _ _ _ _ _ _ _ _ _ H0) in E1. apply (readdV2_all _ _ _ _ _ _ _ _ _ E1) in E2.
  split_and!; [|done|done|done]. unfold mpool_ok, pool_ok. cbn. exact E2.
Qed.

(** ** Adding transactions *)
Lemma in_pool_false p id : in_pool p id = false -> tp_indices p !! id = None.
Proof. apply not_Some_None. Qed.

Lemma mpool_intro m p ms : tp_ms p = Some ms ->
  acc_ok (m_tipState m) (tp_txns p) (tp_v2txns p) ms (tp_indices p) (tp_weight p) -> mpool_ok (set_pool m p).
Proof. intros E H. unfold mpool_ok, pool_ok. cbn. by rewrite E. Qed.

Lemma mpool_acc m ms : mpool_ok m -> tp_ms (m_txpool m) = Some ms ->
  acc_ok (m_tipState m) (tp_txns (m_txpool m)) (tp_v2txns (m_txpool m)) ms (tp_indices (m_txpool m)) (tp_weight (m_txpool m)).
Proof. intros H E. unfold mpool_ok, pool_ok in H. by rewrite E in H. Qed.

Lemma pool_ms_ok p ms : pool_ms p = Ok ms -> tp_ms p = Some ms.
Proof. unfold pool_ms. destruct (tp_ms p); [by intros [= ->]|done]. Qed.

Lemma add_txns_spec txns : forall m m' r, mpool_ok m -> add_txns m txns = Ok (m', r) ->
  mpool_ok m' /\ m_tipState m' = m_tipState m /\ m_store m' = m_store m /\
  m_expiringFileContractOrder m' = m_expiringFileContractOrder m.
Proof.
  induction txns as [|txn txns IH]; intros m m' r Hok H; cbn [add_txns] in H; [by injection H as <- <-|].
  destruct (in_pool _ _) eqn:Ein; [by eapply IH|]. apply in_pool_false in Ein.
  bind_ok H ts Et. bind_ok H ms Em. apply pool_ms_ok in Em.
  destruct (ValidateTransaction ms txn ts) as [u|e|] eqn:Ev; [| |done].
  - bind_ok H ms' Ea. eapply IH in H as (H1 & H2 & H3 & H4).
    + split_and!; [done|by rewrite H2|by rewrite H3|by rewrite H4].
    + eapply mpool_intro; [done|]. eapply acc_add; [by apply mpool_acc|done|done|done].
  - by injection H as <- <-.
Qed.

(** What a set added so far: [added] at the end of the pool [p0]. *)
Record extends (p0 p : txpool) (added : list V2Transaction) : Prop := {
  ex_txns : tp_txns p = tp_txns p0; ex_v2 : tp_v2txns p = tp_v2txns p0 ++ added;
  ex_new : forall id, id ∈ map V2Transaction_ID added -> tp_indices p0 !! id = None /\ is_Some (tp_indices p !! id);
  ex_old : forall id, id ∉ map V2Transaction_ID added -> tp_indices p !! id = tp_indices p0 !! id }.

Lemma extends_add p0 p added txn ms w : extends p0 p added -> tp_indices p !! V2Transaction_ID txn = None ->
  extends p0 (tp_setTxns p (tp_txns p) (tp_v2txns p ++ [txn])
    (<[V2Transaction_ID txn := length (tp_v2txns p)]> (tp_indices p)) ms w) (added ++ [txn]).
Proof.
  intros [H1 H2 H3 H4] Hn. assert (V2Transaction_ID txn ∉ map V2Transaction_ID added) as Hf.
  { intros [_ [i Hi]]%H3. congruence. }
  split; cbn [tp_txns tp_v2txns tp_indices tp_setTxns].
  - done.
  - by rewrite H2, app_assoc.
  - intros id. rewrite map_app. cbn [map]. intros [Hid|Hid%list_elem_of_singleton]%elem_of_app.
    + destruct (H3 id Hid) as [E1 E2]. split; [done|]. rewrite lookup_insert_ne; [done|]. by intros <-.
    + subst id. rewrite <- H4 by done. split; [done|]. rewrite lookup_insert_eq. by eexists.
  - intros id. rewrite map_app. cbn [map]. rewrite elem_of_app, list_elem_of_singleton. intros Hid.
    rewrite lookup_insert_ne by (intros <-; tauto). apply H4. tauto.
Qed.

Lemma delete_all (l : list V2Transaction) : forall (idx : idmap nat) id,
  foldl (fun idx t => delete (V2Transaction_ID t) idx) idx l !! id =
  if decide (id ∈ map V2Transaction_ID l) then None else idx !! id.
Proof.
  induction l as [|t l IH]; intros idx id; cbn [foldl map].
  - by rewrite decide_False by apply not_elem_of_nil.
  - rewrite IH. destruct (decide (id ∈ map V2Transaction_ID l)) as [H|H].
    + by rewrite decide_True by (by right).
    + destruct (decide (id = V2Transaction_ID t)) as [->|Hne].
      * rewrite lookup_delete_eq, decide_True by left. done.
      * rewrite lookup_delete_ne, decide_False by (done || by apply not_elem_of_cons). done.
Qed.

(** The pool contents, without the caches. *)
Definition same_contents (p p' : txpool) : Prop :=
  tp_txns p' = tp_txns p /\ tp_v2txns p' = tp_v2txns p /\ tp_indices p' = tp_indices p /\ tp_weight p' = tp_weight p.

(** The members of a set that are not known yet, in order; of members with one identifier the
    first counts. *)
Fixpoint new_members (seen : gset (list Z)) (txns : list V2Transaction) : list V2Transaction :=
  match txns with
  | [] => []
  | txn :: txns =>
      if decide (V2Transaction_ID txn ∈ seen) then new_members seen txns
      else txn :: new_members ({[V2Transaction_ID txn]} ∪ seen) txns
  end.

Lemma add_v2txns_spec p0 (txns : list V2Transaction) : forall m m' known err added, mpool_ok m -> extends p0 (m_txpool m) added ->
  add_v2txns (length (tp_v2txns p0)) (tp_weight p0) m txns = Ok (m', (known, err)) ->
  known = false /\ mpool_ok m' /\ m_tipState m' = m_tipState m /\ m_store m' = m_store m /\
  m_expiringFileContractOrder m' = m_expiringFileContractOrder m /\
  match err with
  | Some _ => same_contents p0 (m_txpool m')
  | None => extends p0 (m_txpool m') (added ++ new_members (dom (tp_indices (m_txpool m))) txns) /\
      (forall t, t ∈ txns -> is_Some (tp_indices (m_txpool m') !! V2Transaction_ID t)) /\
      (forall id, is_Some (tp_indices (m_txpool m) !! id) -> is_Some (tp_indices (m_txpool m') !! id))
  end.
Proof.
  induction txns as [|txn txns IH]; intros m m' known err added Hok Hex H; cbn [add_v2txns] in H.
  { injection H as <- <- <-. cbn [new_members]. rewrite app_nil_r. split_and!; try done; [by destruct Hex|by intros t ?%elem_of_nil]. }
  destruct (in_pool _ _) eqn:Ein.
  { eapply IH in H as (-> & H1 & H2 & H3 & H4 & H5); [|done|done]. split_and!; try done. apply bool_decide_eq_true in Ein.
    destruct err; [done|]. destruct H5 as (E1 & E3 & E4). cbn [new_members]. rewrite decide_True by by apply elem_of_dom.
    split_and!; [done| |done]. intros t [->|Hin]%elem_of_cons; [|by apply E3]. by apply E4. }
  apply in_pool_false in Ein. bind_ok H ms Em. apply pool_ms_ok in Em.
  destruct (ValidateV2Transaction ms txn) as [u|e|] eqn:Ev; [| |done].
  - bind_ok H ms' Eap. eapply IH in H as (-> & H1 & H2 & H3 & H4 & H5).
    + split_and!; [done|done|by rewrite H2|by rewrite H3|by rewrite H4|]. destruct err; [done|].
      destruct H5 as (E1 & E3 & E4). cbn [m_txpool set_pool set_tip tp_indices tp_setTxns] in E1, E4.
      cbn [new_members]. rewrite decide_False by by apply not_elem_of_dom. rewrite dom_insert_L in E1. rewrite <- (app_assoc added [txn]) in E1.
      split_and!; [exact E1| |].
      * intros t [->|Hin]%elem_of_cons; [|by apply E3]. apply E4. rewrite lookup_insert_eq. by eexists.
      * intros id Hid. apply E4. destruct (decide (V2Transaction_ID txn = id)) as [<-|]; [rewrite lookup_insert_eq; by eexists|].
        by rewrite lookup_insert_ne.
    + eapply mpool_intro; [done|]. eapply acc_addV2; [by apply mpool_acc|done|done|done].
    + by apply extends_add.
  - injection H as <- <- <-. split_and!; try done. destruct Hex as [X1 X2 X3 X4]. split_and!; cbn.
    + done.
    + rewrite X2. by rewrite take_app_length.
    + apply map_eq. intros id. rewrite X2, drop_app_length, delete_all. destruct (decide _) as [Hid|Hid]; [|by apply X4].
      symmetry. by apply X3.
    + done.
Qed.
End Replay.
