(* ===== verification/ChainLivenessSpec.v ===== *)
(** * A valid child of the tip becomes the tip

    Past the final cut no chain of blocks is held back: one more block of work is enough to
    adopt it. *)
From stdpp Require Import prelude strings gmap.
From Stdlib Require Import ZArith Lia.
From S2P Require Import Prelude TypesCurrency TypesData TypesEncoding TypesHash TypesPolicy.
From S2P Require Import ConsensusWork ConsensusState ConsensusMerkle ConsensusQday ConsensusDifficulty.
From S2P Require Import ConsensusMidState ConsensusApply ConsensusValidateV1 ConsensusValidate.
From S2P Require Import ConsensusBlockSpec ConsensusDifficultySpec SampleChain.
From S2P Require Import ChainStore ChainPool ChainManager ChainStoreSpec ChainReorgSpec ChainManagerSpec ChainBestSpec.
From S2P Require Import SampleStore.

Import WorkSpec.
(** The child of [s] is past the final cut. *)
Record past_cut (s : State) : Prop := {
  pc_pow : pow_ok s; pc_work : wval (s_TotalWork s) + wval (s_Difficulty s) < two256;
  pc_allow : n_V2_AllowHeight (s_Network s) <= ci_Height (s_Index s) + 1;
  pc_cut : n_V2_FinalCutHeight (s_Network s) <= ci_Height (s_Index s) + 1 }.

Section Live.
Context {crypto : Crypto} {sizes : CryptoSizes} {edwards : Edwards25519}.
Context {St : Type} {store : Store St} {spec : StoreSpec St}.
Context (g : BlockID).
Implicit Types (m : Manager St) (a : AStore).

(** Writes to the store do not panic and its flush does not fail. *)
Record writable : Prop := {
  wr_flush : flush_ok St;
  wr_state : forall s a cs, rep s a -> good_state cs -> is_Ok (st_AddState s cs);
  wr_block : forall s a b bs, rep s a -> storable b -> wf_supplement bs -> is_Ok (st_AddBlock s b bs);
  wr_apply : forall s a cs cau, rep s a -> good_state cs -> is_Ok (st_ApplyBlock s cs cau) }.

Lemma past_cut_chain s ms acc : past_cut s -> past_cut (set_chain s ms acc).
Proof. intros [[H1 H2 H3 H4 H5] H6 H7 H8]. split; [by split|done..]. Qed.

(** Past the final cut the ancestor timestamp does not decide whether a block applies. *)
Lemma ApplyBlock_any_time s b bs t r t' : past_cut s -> b_ParentID b = ci_ID (s_Index s) ->
  b_ParentID b <> zeroHash -> is_u64 (ci_Height (s_Index s) + 1) ->
  ApplyBlock s b bs t = Ok r -> exists cs cau, ApplyBlock s b bs t' = Ok (cs, cau).
Proof.
  intros Hc Hp Hz Hu H. unfold ApplyBlock in *. destruct (_ && _); [done|].
  bind_ok H ms E. bind_ok H q E1. destruct q as [[acc eau] added]. cbn [mbind outcome_bind].
  rewrite E1. cbn [mbind outcome_bind].
  destruct (past_cut_chain s ms acc Hc) as [H1 H2 H3 H4].
  destruct (child_heavier (set_chain s ms acc) (Block_Header b) t' H1 H2) as (next & -> & _); [done..|]. by eexists _, _.
Qed.

(** The path from the tip to its child. *)
Lemma child_path m a i hd : mgr_inv g m a -> known a i -> 0 < ci_Height i ->
  as_header a !! ci_ID i = Some hd -> parent_index i hd = Tip m ->
  reorgPath (m_store m) (Tip m) i maxInt = Ok ([], [i]).
Proof.
  intros [Hrep Hok Htip _ _ _] Hk Hpos Hh Ep.
  destruct (known_parent a g Hok i hd Hk Hpos Hh) as [_ Eh]. rewrite Ep in Eh.
  pose proof (known_height _ _ Hok _ Htip) as Hu. unfold is_u64 in Hu.
  destruct (reorgPath_fuel_spec (m_store m) a g Hrep Hok (S (S (Z.to_nat (Z.min (ci_Height (Tip m)) (ci_Height i)))))
    maxInt (Tip m) i Htip Hk ltac:(lia)) as (r & p & c & Hr & Hp & Br & Bp & Hd & E).
  fold (reorgPath (m_store m) (Tip m) i maxInt) in E. rewrite E.
  assert (path a i [i] (Tip m)) as Hi by (econstructor; [done|]; rewrite Ep; constructor).
  pose proof (common_le a g (Tip m) i [] [i] (Tip m) r p c Hok Htip Hk (path_nil _ _) Hi ltac:(unfold zlen; cbn; lia)
    ltac:(unfold zlen; cbn; lia) Hr Hp Br Bp Hd) as Lr. destruct r; [|cbn in Lr; lia]. inversion Hr; subst c.
  destruct (path_height a g Hok _ _ _ Hp Hk Bp) as [_ E1]. unfold zlen in E1.
  destruct (path_det a _ _ _ _ _ Hi Hp) as [<- _]; [cbn; lia|done].
Qed.

(** Applying a stored child that was not applied before. *)
Lemma applyTip_child m a i b bs bs' t r : mgr_inv g m a -> writable -> past_cut (m_tipState m) ->
  known a i -> 0 < ci_Height i -> as_block a !! ci_ID i = Some (b, None) ->
  parent_index i (Block_Header b) = Tip m -> is_u64 (ci_Height (Tip m) + 1) ->
  st_SupplementTipBlock (m_store m) b = Ok bs ->
  overwriteExpirations (m_expiringFileContractOrder m) (Block_ID b) bs = Ok bs' ->
  ValidateBlock (m_tipState m) b bs' = Ok tt -> ApplyBlock (m_tipState m) b bs' t = Ok r ->
  (forall t cs cau, ApplyBlock (m_tipState m) b bs' t = Ok (cs, cau) ->
     is_Ok (applyPoolUpdate (m_txpool m) cau cs)) ->
  exists m', applyTip m i = Ok (m', None).
Proof.
  intros [Hrep Hok Htip Hbest _ Hg] [_ W1 W2 W3] Hc Hk Hpos Hb Ep Hu Hs Ho Hv Ha Hpool.
  assert (b_ParentID b = ci_ID (Tip m)) as Epar by (by rewrite <- Ep).
  assert (b_ParentID b <> zeroHash) as Hnz by (rewrite Epar; by eapply known_nonzero).
  destruct (rep_AncestorTimestamp _ _ _ _ _ Hrep Hok Hbest Htip) as [t' Ht]. rewrite <- Epar in Ht.
  destruct (ApplyBlock_any_time _ _ _ _ _ t' Hc Epar Hnz Hu Ha) as (cs & cau & Ea).
  destruct (Hpool _ _ _ Ea) as [p Hp]. pose proof (rep_storable _ _ _ _ _ Hrep Hb) as Hst.
  assert (good_state cs) as Hgc by (by eapply good_child).
  assert (wf_supplement (Some bs')) as Hbs by (eapply overwriteExpirations_wf; [exact Ho|by eapply rep_Supplement]).
  destruct (W1 (m_store m) a cs Hrep Hgc) as [s1 E1]. pose proof (rep_AddState _ _ _ _ Hrep Hgc E1) as Hrep1.
  destruct (W2 s1 _ b (Some bs') Hrep1 Hst Hbs) as [s2 E2]. pose proof (rep_AddBlock _ _ _ _ _ Hrep1 Hst Hbs E2) as Hrep2.
  destruct (W3 s2 _ cs cau Hrep2 Hgc) as [s3 E3].
  exists (set_tip m s3 p cs). unfold applyTip. rewrite (rep_Block _ _ _ Hrep), Hb. cbn [mbind outcome_bind].
  rewrite bool_decide_true by done. cbn [negb]. rewrite Hs. cbn [mbind outcome_bind]. rewrite Ho. cbn [or_return].
  rewrite Hv. cbn [or_return]. rewrite Ht. cbn [mbind outcome_bind]. rewrite Ea. cbn [mbind outcome_bind].
  rewrite E1. cbn [mbind outcome_bind]. rewrite E2. cbn [mbind outcome_bind]. unfold commitTip.
  rewrite E3. cbn [mbind outcome_bind]. rewrite Hp. reflexivity.
Qed.

(** The way from the tip to its child is to apply the child and to flush. *)
Lemma reorgTo_child m a i hd : mgr_inv g m a -> known a i -> 0 < ci_Height i ->
  as_header a !! ci_ID i = Some hd -> parent_index i hd = Tip m ->
  reorgTo m i = ('(m1, err) ← applyTip m i;
                 match err with
                 | Some e => Ok (m1, Some e)
                 | None => '(s, err) ← st_Flush (m_store m1);
                           match err with Some e => Ok (set_store m1 s, Some e) | None => m2 ← resetPool (set_store m1 s) []; Ok (m2, None) end
                 end).
Proof.
  intros Hinv Hk Hpos Hh Ep. unfold reorgTo. rewrite (child_path m a i hd Hinv Hk Hpos Hh Ep).
  cbn [or_return revertTips length mbind outcome_bind applyTips]. destruct (applyTip m i) as [[m1 [e|]]| |]; [done| |done|done].
  cbn [mbind outcome_bind]. by destruct (st_Flush (m_store m1)) as [[s [e|]]| |].
Qed.

(** The store supplements the block and it is valid with its supplement. *)
Definition supplemented m (b : Block) : Prop := exists bs bs', st_SupplementTipBlock (m_store m) b = Ok bs /\
  overwriteExpirations (m_expiringFileContractOrder m) (Block_ID b) bs = Ok bs' /\ ValidateBlock (m_tipState m) b bs' = Ok tt.

Lemma applyTip_decides m a i b m' err : mgr_inv g m a -> as_block a !! ci_ID i = Some (b, None) -> b_ParentID b = ci_ID (Tip m) ->
  applyTip m i = Ok (m', err) -> (err = None <-> supplemented m b).
Proof.
  intros [Hrep Hok Htip Hbest _ _] Hb Epar H. unfold applyTip in H. rewrite (rep_Block _ _ _ Hrep), Hb in H. cbn [mbind outcome_bind] in H.
  rewrite bool_decide_true in H by done. cbn [negb] in H. unfold supplemented. bind_ok H bs Es.
  destruct (overwriteExpirations _ _ bs) as [bs'|e|p] eqn:Eo; cbn [or_return] in H; [| |done].
  2: { injection H as _ <-. split; [done|]. intros (? & ? & [= <-] & ? & _). congruence. }
  destruct (ValidateBlock _ b bs') as [[]|e|p] eqn:Ev; cbn [or_return] in H; [| |done].
  2: { injection H as _ <-. split; [done|]. intros (? & ? & [= <-] & ? & ?). congruence. }
  destruct (rep_AncestorTimestamp _ _ _ _ _ Hrep Hok Hbest Htip) as [t Ht]. rewrite Epar, Ht in H. cbn [mbind outcome_bind] in H.
  bind_ok H q Ea. destruct q as [cs cau]. bind_ok H s1 E1. bind_ok H s2 E2. unfold commitTip in H. bind_ok H s3 E3. bind_ok H p E4.
  injection H as _ <-. split; [by intros _; exists bs, bs'|done].
Qed.

(** A block that extends the tip and is not stored yet. *)
Record new_child m a (b : Block) : Prop := {
  nc_storable : storable b; nc_new : as_block a !! Block_ID b = None; nc_free : no_collision a b;
  nc_parent : b_ParentID b = ci_ID (Tip m) }.
(** The store once the header state and the block have been written. *)
Definition stored_child m (b : Block) : outcome St :=
  t ← st_AncestorTimestamp (m_store m) (b_ParentID b);
  match t with
  | None => Err "missing ancestor timestamp"
  | Some t => cs ← ApplyHeader (m_tipState m) (Block_Header b) t; s ← st_AddState (m_store m) cs; st_AddBlock s b None
  end.
(** What makes a child of the tip acceptable at the time [now]. *)
Record accepted m (now : nat -> Time) (b : Block) : Prop := {
  ac_time : time_After (b_Timestamp b) (MaxFutureTimestamp (m_tipState m) (now 0%nat)) = false;
  ac_orphan : ValidateOrphan (m_tipState m) b = Ok tt;
  ac_valid : exists s, stored_child m b = Ok s /\ supplemented (set_store m s) b }.

(** The child is stored and it is heavier than the tip. *)
Lemma child_stored m a now b : mgr_inv g m a -> past_cut (m_tipState m) -> new_child m a b ->
  time_After (b_Timestamp b) (MaxFutureTimestamp (m_tipState m) (now 0%nat)) = false -> ValidateOrphan (m_tipState m) b = Ok tt ->
  exists cs, good_state cs /\ s_Index cs = mk_index (ci_Height (Tip m) + 1) (Block_ID b) /\ is_u64 (ci_Height (Tip m) + 1) /\
    SufficientlyHeavierThan cs (m_tipState m) = Ok true /\
    stored_child m b = (s ← st_AddState (m_store m) cs; st_AddBlock s b None) /\
    AddBlocks now m [b] = (s ← stored_child m b; adopt (set_store m s) cs) /\
    forall s, stored_child m b = Ok s -> exists a', mgr_inv g (set_store m s) a' /\ known a' (s_Index cs) /\
      as_block a' !! ci_ID (s_Index cs) = Some (b, None) /\ as_header a' !! ci_ID (s_Index cs) = Some (Block_Header b).
Proof.
  intros Hinv Hc [Hst Hnew Hnc Epar] Htime Horph.
  pose proof (mi_tree _ _ _ Hinv) as Hok. pose proof (mi_tip _ _ _ Hinv) as Htip. pose proof (mi_rep _ _ _ Hinv) as Hrep.
  pose proof (known_height _ _ Hok _ Htip) as Hu0. unfold is_u64 in Hu0.
  assert (ci_Height (Tip m) <> two64 - 1) as Hmax by (intros E; exact (ValidateOrphan_before _ _ E Horph)).
  assert (is_u64 (ci_Height (Tip m) + 1)) as Hu by (unfold is_u64; lia).
  assert (b_ParentID b <> zeroHash) as Hnz by (rewrite Epar; by eapply known_nonzero).
  destruct (rep_AncestorTimestamp _ _ _ _ _ Hrep Hok (mi_best _ _ _ Hinv) Htip) as [t0 Ht0]. rewrite <- Epar in Ht0.
  destruct Hc as [C1 C2 C3 C4].
  destruct (child_heavier (m_tipState m) (Block_Header b) t0 C1 C2 Epar Hnz Hu C3 C4) as (cs & Ecs & Hheavy).
  pose proof (ApplyHeader_index _ _ _ _ Ecs Hnz) as Ei. fold (Block_ID b) in Ei. fold (Tip m) in Ei.
  assert (good_state cs) as Hg by (eapply good_header; [apply Hinv|exact Hst|exact Ecs]).
  assert (stored_child m b = (s ← st_AddState (m_store m) cs; st_AddBlock s b None)) as Estored.
  { unfold stored_child. rewrite Ht0. cbn [mbind outcome_bind]. by rewrite Ecs. }
  pose proof Ei as Ei'. rewrite u64_id in Ei' by done. exists cs. split_and!; [done|done|done|done|done| |].
  - unfold AddBlocks. cbn [add_blocks]. rewrite (rep_Block _ _ _ Hrep), Hnew. cbn [mbind outcome_bind].
    rewrite bool_decide_true by done. cbn [mbind outcome_bind]. rewrite Htime, Horph. cbn [or_return].
    rewrite Ht0. cbn [mbind outcome_bind]. rewrite Ecs. cbn [mbind outcome_bind]. rewrite Estored.
    destruct (st_AddState (m_store m) cs) as [s1| |]; [|done|done]. cbn [mbind outcome_bind]. by destruct (st_AddBlock s1 b None).
  - rewrite Estored. intros s Es. bind_ok Es s1 E1. pose proof (rep_AddState _ _ _ _ Hrep Hg E1) as Hrep1.
    assert (rep s (a_AddBlock (a_AddState a cs) b None)) as Hrep2 by (by eapply rep_AddBlock).
    destruct (inv_add g m a b None (Tip m) cs s Hinv Htip Epar Hmax Hnc Ei ltac:(done) Hrep2) as [Hinv2 Hk2].
    eexists. split; [exact Hinv2|]. split; [exact Hk2|]. rewrite Ei. split; apply lookup_insert_eq.
Qed.

(** What becomes of the stored child. *)
Lemma child_parent m (b : Block) cs : is_u64 (ci_Height (Tip m)) -> b_ParentID b = ci_ID (Tip m) -> s_Index cs = mk_index (ci_Height (Tip m) + 1) (Block_ID b) ->
  parent_index (s_Index cs) (Block_Header b) = Tip m /\ 0 < ci_Height (s_Index cs).
Proof.
  intros Hu Epar Ei. pose proof Hu as Hu'; unfold is_u64 in Hu'. split; [|rewrite Ei; cbn; lia].
  unfold parent_index. rewrite Ei. cbn [ci_Height mk_index]. rewrite Z.add_simpl_r, u64_id by done.
  cbn [bh_ParentID Block_Header]. rewrite Epar. by destruct (Tip m).
Qed.
Lemma adopt_child m a b cs m' err : mgr_inv g m a -> flush_ok St -> b_ParentID b = ci_ID (Tip m) ->
  s_Index cs = mk_index (ci_Height (Tip m) + 1) (Block_ID b) -> SufficientlyHeavierThan cs (m_tipState m) = Ok true ->
  known a (s_Index cs) -> as_block a !! ci_ID (s_Index cs) = Some (b, None) -> as_header a !! ci_ID (s_Index cs) = Some (Block_Header b) ->
  adopt m cs = Ok (m', err) -> (err = None <-> supplemented m b) /\ (err = None -> Tip m' = s_Index cs).
Proof.
  intros Hinv Hf Epar Ei Hheavy Hk Hb Hh H.
  destruct (child_parent m b cs (known_height _ _ (mi_tree _ _ _ Hinv) _ (mi_tip _ _ _ Hinv)) Epar Ei) as [Hpar Hpos].
  unfold adopt in H. rewrite Hheavy in H. cbn [mbind outcome_bind] in H. rewrite (reorgTo_child m a _ _ Hinv Hk Hpos Hh Hpar) in H.
  destruct (applyTip m (s_Index cs)) as [[m1 e1]| |] eqn:Ea; [|done|done]. cbn [mbind outcome_bind] in H.
  pose proof (applyTip_decides m a _ b m1 e1 Hinv Hb Epar Ea) as Hd. pose proof (applyTip_spec g m a _ _ m1 e1 Hinv Hk Hpos Hh Hpar Ea) as Hs.
  destruct e1 as [e1|]; cbn [mbind outcome_bind] in H.
  - bind_ok H q E2. destruct q as [m2 e2]. assert (err <> None) as Hne by (by destruct e2; injection H as _ <-).
    split; [split; [done|]|done]. intros Hx. by apply Hd in Hx.
  - destruct Hs as (a' & Et & Hinv' & _ & _). destruct (rep_Flush _ _ (mi_rep _ _ _ Hinv')) as (s & e2 & Ef & _).
    pose proof (Hf _ _ _ _ (mi_rep _ _ _ Hinv') Ef) as ->. rewrite Ef in H. cbn [mbind outcome_bind resetPool] in H.
    injection H as <- <-. split; [split; [by intros _; apply Hd|done]|by intros _].
Qed.
Lemma adopt_returns m a b cs bs bs' t r : mgr_inv g m a -> writable -> past_cut (m_tipState m) -> b_ParentID b = ci_ID (Tip m) ->
  s_Index cs = mk_index (ci_Height (Tip m) + 1) (Block_ID b) -> is_u64 (ci_Height (Tip m) + 1) ->
  SufficientlyHeavierThan cs (m_tipState m) = Ok true ->
  known a (s_Index cs) -> as_block a !! ci_ID (s_Index cs) = Some (b, None) -> as_header a !! ci_ID (s_Index cs) = Some (Block_Header b) ->
  st_SupplementTipBlock (m_store m) b = Ok bs -> overwriteExpirations (m_expiringFileContractOrder m) (Block_ID b) bs = Ok bs' ->
  ValidateBlock (m_tipState m) b bs' = Ok tt -> ApplyBlock (m_tipState m) b bs' t = Ok r ->
  (forall t cs cau, ApplyBlock (m_tipState m) b bs' t = Ok (cs, cau) -> is_Ok (applyPoolUpdate (m_txpool m) cau cs)) ->
  exists m', adopt m cs = Ok (m', None).
Proof.
  intros Hinv Hw Hc Epar Ei Hu Hheavy Hk Hb Hh Hs Ho Hv Ha Hpool.
  destruct (child_parent m b cs (known_height _ _ (mi_tree _ _ _ Hinv) _ (mi_tip _ _ _ Hinv)) Epar Ei) as [Hpar Hpos].
  destruct (applyTip_child m a (s_Index cs) b bs bs' t r Hinv Hw Hc Hk Hpos Hb Hpar Hu Hs Ho Hv Ha Hpool) as [m1 Em1].
  destruct (applyTip_spec g m a _ _ m1 None Hinv Hk Hpos Hh Hpar Em1) as (a' & _ & Hinv' & _ & _).
  destruct (rep_Flush _ _ (mi_rep _ _ _ Hinv')) as (s & e & Ef & _). pose proof (wr_flush Hw _ _ _ _ (mi_rep _ _ _ Hinv') Ef) as ->.
  unfold adopt. rewrite Hheavy. cbn [mbind outcome_bind]. rewrite (reorgTo_child m a _ _ Hinv Hk Hpos Hh Hpar), Em1. cbn [mbind outcome_bind].
  rewrite Ef. cbn [mbind outcome_bind resetPool]. by eexists.
Qed.

(** A child from the future or with an invalid header is refused at once. *)
Lemma child_refused m a now b : mgr_inv g m a -> new_child m a b ->
  if time_After (b_Timestamp b) (MaxFutureTimestamp (m_tipState m) (now 0%nat)) then AddBlocks now m [b] = Ok (m, Some ErrFutureBlock) else
  match ValidateOrphan (m_tipState m) b with
  | Ok _ => True
  | Err e => AddBlocks now m [b] = Ok (m, Some e)
  | Panic p => AddBlocks now m [b] = Panic p
  end.
Proof.
  intros Hinv Hn. unfold AddBlocks. cbn [add_blocks]. rewrite (rep_Block _ _ _ (mi_rep _ _ _ Hinv)), (nc_new _ _ _ Hn). cbn [mbind outcome_bind].
  rewrite bool_decide_true by apply Hn. cbn [mbind outcome_bind]. destruct (time_After _ _); [done|]. by destruct (ValidateOrphan _ b).
Qed.

(** Whenever [AddBlocks] returns, it has decided by the validity of the child. *)
Lemma child_decided m a now b m' err : mgr_inv g m a -> flush_ok St -> past_cut (m_tipState m) -> new_child m a b ->
  AddBlocks now m [b] = Ok (m', err) ->
  (exists a', mgr_inv g m' a') /\ (err = None <-> accepted m now b) /\
  Tip m' = match err with Some _ => Tip m | None => mk_index (ci_Height (Tip m) + 1) (Block_ID b) end.
Proof.
  intros Hinv Hf Hc Hn H.
  assert (collision_free a [b]) as Hcf.
  { split; [intros b' ->%list_elem_of_singleton; apply Hn|by intros b1 b2 ->%list_elem_of_singleton ->%list_elem_of_singleton]. }
  destruct (AddBlocks_spec g m a now [b] _ _ Hinv (proj2 (Forall_singleton _ _) (nc_storable _ _ _ Hn)) Hcf H) as (a' & Hinv' & _ & Hout).
  split; [by exists a'|]. assert (err <> None -> Tip m' = Tip m) as Hback by (destruct Hout as [?|[? _]]; done).
  assert ((err = None <-> accepted m now b) /\ (err = None -> Tip m' = mk_index (ci_Height (Tip m) + 1) (Block_ID b))) as [H1 H2];
    [|split; [exact H1|by destruct err; auto]].
  pose proof (child_refused m a now b Hinv Hn) as Href.
  destruct (time_After (b_Timestamp b) (MaxFutureTimestamp (m_tipState m) (now 0%nat))) eqn:Htime.
  { rewrite Href in H. injection H as _ <-. split; [|done]. split; [done|]. intros [Ht _ _]. congruence. }
  destruct (ValidateOrphan (m_tipState m) b) as [[]|e|p] eqn:Horph; [| |by rewrite Href in H].
  2: { rewrite Href in H. injection H as _ <-. split; [|done]. split; [done|]. intros [_ Ho _]. congruence. }
  destruct (child_stored m a now b Hinv Hc Hn Htime Horph) as (cs & _ & Ei & Hu & Hheavy & _ & Eadd & Hst). rewrite Eadd in H.
  bind_ok H s Es. destruct (Hst s eq_refl) as (a2 & Hinv2 & Hk & Hb & Hh).
  destruct (adopt_child (set_store m s) a2 b cs m' err Hinv2 Hf (nc_parent _ _ _ Hn) Ei Hheavy Hk Hb Hh H) as [Hd Ht]. rewrite Ei in Ht.
  split; [|exact Ht]. rewrite Hd. split; [intros Hx; split; [done|done|by exists s]|]. intros [_ _ (s' & Es' & Hx)]. congruence.
Qed.

(** An acceptable child makes [AddBlocks] return, unless something panics. *)
Definition applies m (b : Block) : Prop := forall bs, ValidateBlock (m_tipState m) b bs = Ok tt ->
  (exists t, is_Ok (ApplyBlock (m_tipState m) b bs t)) /\
  forall t cs cau, ApplyBlock (m_tipState m) b bs t = Ok (cs, cau) -> is_Ok (applyPoolUpdate (m_txpool m) cau cs).
Lemma child_returns m a now b : mgr_inv g m a -> past_cut (m_tipState m) -> new_child m a b -> accepted m now b -> writable -> applies m b ->
  exists m', AddBlocks now m [b] = Ok (m', None).
Proof.
  intros Hinv Hc Hn [Htime Horph (s & Es & bs & bs' & Hs & Ho & Hv)] Hw Ha.
  destruct (child_stored m a now b Hinv Hc Hn Htime Horph) as (cs & _ & Ei & Hu & Hheavy & _ & -> & Hst). rewrite Es. cbn [mbind outcome_bind].
  destruct (Hst s Es) as (a2 & Hinv2 & Hk & Hb & Hh). destruct (Ha bs' Hv) as [[t [r Hr]] Hp].
  exact (adopt_returns (set_store m s) a2 b cs bs bs' t r Hinv2 Hw Hc (nc_parent _ _ _ Hn) Ei Hu Hheavy Hk Hb Hh Hs Ho Hv Hr Hp).
Qed.

(** C8: past the final cut [AddBlocks] adopts exactly the valid children of the tip.  Take a block that
    extends the tip, is not stored yet, survives its encoding and shares its identifier with no known
    header, and a store whose flush does not fail.  Whenever [AddBlocks] returns, it returns no error
    if and only if the block is acceptable: not from the future, its header valid on the tip and the
    block valid with the supplement of the store; the block is then the new tip, and otherwise the tip
    is the old one; the invariant holds again.  So neither the fork choice rule nor the search of the
    path can hold a valid child back.  And for an acceptable block [AddBlocks] does return, provided that
    writes to the store, [ApplyBlock] of this block and the update of the pool do not panic. *)
Theorem valid_child_adopted m a now b :
  mgr_inv g m a -> flush_ok St -> past_cut (m_tipState m) -> new_child m a b ->
  (forall m' err, AddBlocks now m [b] = Ok (m', err) ->
     (exists a', mgr_inv g m' a') /\ (err = None <-> accepted m now b) /\
     Tip m' = match err with Some _ => Tip m | None => mk_index (ci_Height (Tip m) + 1) (Block_ID b) end) /\
  (accepted m now b -> writable -> applies m b -> exists m', AddBlocks now m [b] = Ok (m', None)).
Proof. intros Hinv Hf Hc Hn. split; [intros m' err H; by eapply child_decided|]. intros Hv Hw Ha. by eapply child_returns. Qed.
End Live.
Import SampleChain SampleStore.

Lemma memory_writable : writable (St := SampleStore.t).
Proof. split; [by intros s a s' err _ [= _ <-]|intros; by eexists..]. Qed.

Lemma tip_past_cut : past_cut SampleChain.tip.
Proof. split; [exact tip_pow_ok|by vm_compute..]. Qed.

Lemma block1_orphan : ValidateOrphan SampleChain.tip SampleChain.block1 = Ok tt.
Proof. vm_cast_no_check (eq_refl (Ok tt)). Qed.

(** An empty pool is updated by every block. *)
Lemma empty_pool_updates (cau : ApplyUpdate) (cs : State) : is_Ok (applyPoolUpdate empty_pool cau cs).
Proof. by eexists. Qed.

Module SampleChild.
Lemma child : new_child SampleStore.mgr (view start) block1.
Proof.
  destruct block1_free as [Hnc _]. split; [exact block1_storable| |apply Hnc; left|reflexivity].
  apply lookup_singleton_ne. intros E. assert (bool_decide (Block_ID block1 = gid) = false) as E2 by vm_cast_no_check (eq_refl false).
  apply bool_decide_eq_false in E2. exact (E2 (eq_sym E)).
Qed.
Lemma no_supplement_only bs : ValidateBlock tip block1 bs = Ok tt -> bs = no_supplement.
Proof.
  intros Hv. destruct (valid_supplement tip block1 bs) as [H1 H2]; [by apply Z.leb_le; vm_cast_no_check (eq_refl true)|exact Hv|].
  clear Hv. destruct bs. cbn in H1, H2. by subst.
Qed.
Lemma acceptable : accepted SampleStore.mgr SampleStore.now block1.
Proof.
  assert (time_After (b_Timestamp block1) (MaxFutureTimestamp (m_tipState SampleStore.mgr) (SampleStore.now 0%nat)) = false) as Ht
    by vm_cast_no_check (eq_refl false).
  split; [exact Ht|exact block1_orphan|].
  destruct (child_stored gid SampleStore.mgr (view start) SampleStore.now block1 start_inv tip_past_cut child Ht block1_orphan)
    as (cs & _ & _ & _ & _ & E & _). rewrite E. eexists. split; [reflexivity|].
  exists no_supplement, no_supplement. split; [reflexivity|]. split; [reflexivity|exact block1_valid].
Qed.
End SampleChild.

Lemma valid_child_adopted_witness : accepted SampleStore.mgr SampleStore.now block1 /\ exists m' a',
  AddBlocks SampleStore.now SampleStore.mgr [block1] = Ok (m', None) /\
  Tip m' = mk_index 1 (Block_ID block1) /\ mgr_inv SampleStore.gid m' a'.
Proof.
  split; [exact SampleChild.acceptable|].
  destruct (valid_child_adopted gid SampleStore.mgr (view start) SampleStore.now block1 start_inv (wr_flush memory_writable) tip_past_cut
    SampleChild.child) as [Hdec Hret].
  destruct Hret as [m' Hadd].
  - exact SampleChild.acceptable.
  - exact memory_writable.
  - intros bs Hv. rewrite (SampleChild.no_supplement_only bs Hv).
    split; [|intros t cs cau _; apply empty_pool_updates]. destruct block1_applies as (cs & au & Ea & _). exists timestamp. by exists (cs, au).
  - destruct (Hdec m' None Hadd) as ([a' Hinv] & _ & Ht). exists m', a'. split; [exact Hadd|]. split; [|exact Hinv]. rewrite Ht. f_equal.
Defined.
