(* ===== verification/ChainInvariantSpec.v ===== *)
(** * The manager as a transition system

    [step]: one call of an exported method that returns.  Whatever calls are made and in
    whatever order, the best index stays the chain to the tip and the pool stays a valid set. *)
From stdpp Require Import prelude strings gmap relations.
From Stdlib Require Import ZArith Lia.
From S2P Require Import Prelude TypesCurrency TypesData TypesEncoding TypesHash TypesPolicy.
From S2P Require Import ConsensusWork ConsensusState ConsensusMerkle ConsensusQday ConsensusDifficulty.
From S2P Require Import ConsensusMidState ConsensusApply ConsensusValidateV1 ConsensusValidate SampleChain.
From S2P Require Import TypesMultiproof ChainStore ChainPool ChainManager ChainManagerPool.
From S2P Require Import ChainStoreSpec ChainReorgSpec ChainManagerSpec ChainBestSpec ChainPoolSpec SampleStore.

Section Pool.
Context {crypto : Crypto} {edwards : Edwards25519} {St : Type} {store : Store St}.
Implicit Types (m : Manager St).

(** A call that touched only the pool. *)
Record pool_step m m' : Prop := {
  ps_pool : mpool_ok m'; ps_tip : m_tipState m' = m_tipState m; ps_store : m_store m' = m_store m;
  ps_order : m_expiringFileContractOrder m' = m_expiringFileContractOrder m }.

Lemma revalidate_step m m' : mpool_ok m -> revalidatePool m = Ok m' -> pool_step m m'.
Proof. intros Hok H. destruct (revalidatePool_spec m m' Hok H) as (H1 & H2 & H3 & H4). by split. Qed.

Lemma pool_step_trans m m1 m' : pool_step m m1 -> pool_step m1 m' -> pool_step m m'.
Proof. intros [_ H1 H2 H3] [H4 H5 H6 H7]. split; congruence. Qed.

Lemma AddPool_step m txns m' r : mpool_ok m -> AddPoolTransactions m txns = Ok (m', r) -> pool_step m m'.
Proof.
  intros Hok H. unfold AddPoolTransactions in H. bind_ok H m0 E. pose proof (revalidate_step m m0 Hok E) as H0.
  destruct (checkTxnSet m0 txns []) as [[|]|e|]; [by injection H as <- <-| |by injection H as <- <-|done].
  eapply pool_step_trans; [exact H0|].
  destruct (add_txns_spec txns m0 m' r (ps_pool _ _ H0) H) as (H1 & H2 & H3 & H4). by split.
Qed.

(** What a call of [AddV2PoolTransactions] with a set does. *)
Definition set_outcome (m0 : Manager St) basis (txns : list V2Transaction) m' (known : bool) (err : error) : Prop :=
  match err with
  | Some _ => known = false /\ same_contents (m_txpool m0) (m_txpool m')
  | None =>
      if known then m' = m0
      else exists updated,
        updateV2TransactionProofs m0 (map V2Transaction_DeepCopy txns) basis (Tip m0) = Ok updated /\
        tp_txns (m_txpool m') = tp_txns (m_txpool m0) /\
        tp_v2txns (m_txpool m') = tp_v2txns (m_txpool m0) ++ new_members (dom (tp_indices (m_txpool m0))) updated /\
        (forall t, t ∈ updated -> in_pool (m_txpool m') (V2Transaction_ID t) = true)
  end.

Lemma same_contents_refl p : same_contents p p.
Proof. done. Qed.

Lemma AddV2Pool_spec m basis txns m' known err :
  mpool_ok m -> AddV2PoolTransactions m basis txns = Ok (m', (known, err)) ->
  exists m0, revalidatePool m = Ok m0 /\ pool_step m m' /\ set_outcome m0 basis txns m' known err.
Proof.
  intros Hok H. unfold AddV2PoolTransactions in H. bind_ok H m0 E. exists m0. split; [done|].
  pose proof (revalidate_step m m0 Hok E) as H0.
  destruct (negb _ && _); [injection H as <- <- <-; by split|].
  destruct (updateV2TransactionProofs m0 _ basis (Tip m0)) as [updated|e|] eqn:Eu; [| |done].
  2: { injection H as <- <- <-. split; [done|]. split; [done|apply same_contents_refl]. }
  destruct (checkTxnSet m0 [] updated) as [[|]|e|]; [injection H as <- <- <-; by split| | |done].
  2: { injection H as <- <- <-. split; [done|]. split; [done|apply same_contents_refl]. }
  assert (extends (m_txpool m0) (m_txpool m0) []) as Hex.
  { split; [done|by rewrite app_nil_r|by intros id ?%elem_of_nil|done]. }
  destruct (add_v2txns_spec (m_txpool m0) updated m0 m' known err [] (ps_pool _ _ H0) Hex H) as (-> & H1 & H2 & H3 & H4 & H5).
  split; [by eapply pool_step_trans; [exact H0|]; split|]. destruct err as [e|]; [by split|].
  destruct H5 as ([X1 X2 X3 X4] & Hin & _). exists updated.
  split_and!; [exact Eu|done|exact X2|]. intros t Ht. unfold in_pool. apply bool_decide_eq_true. by apply Hin.
Qed.

(** C24: [AddV2PoolTransactions] is atomic.  Once the pool is valid it stays valid, on the same
    tip, whatever set is offered.  A set that is refused, because its proofs cannot be moved to
    the tip, because it is invalid on its own or because one of its members conflicts with the
    pool, leaves the contents of the revalidated pool exactly as they were: members added before
    the conflict are taken out again.  Of a set that is accepted, the members that remain once
    its proofs are moved to the tip, which drops those that were confirmed on the way, are
    appended to the pool in their order, except those already present, and each of them can be
    found afterwards. *)
Theorem AddV2PoolTransactions_atomic m basis txns m' known err :
  mpool_ok m -> AddV2PoolTransactions m basis txns = Ok (m', (known, err)) ->
  exists m0, revalidatePool m = Ok m0 /\ mpool_ok m' /\ Tip m' = Tip m /\ m_store m' = m_store m /\
    match err with
    | Some _ => known = false /\ same_contents (m_txpool m0) (m_txpool m')
    | None =>
        if known then m' = m0
        else exists updated,
          updateV2TransactionProofs m0 (map V2Transaction_DeepCopy txns) basis (Tip m0) = Ok updated /\
          tp_txns (m_txpool m') = tp_txns (m_txpool m0) /\
          tp_v2txns (m_txpool m') = tp_v2txns (m_txpool m0) ++ new_members (dom (tp_indices (m_txpool m0))) updated /\
          (forall t, t ∈ updated -> in_pool (m_txpool m') (V2Transaction_ID t) = true)
    end.
Proof.
  intros Hok H. destruct (AddV2Pool_spec m basis txns m' known err Hok H) as (m0 & E & [H1 H2 H3 _] & H4).
  exists m0. split_and!; [done|done|unfold Tip; by rewrite H2|done|exact H4].
Qed.

(** A query revalidates the pool and then only reads. *)
Lemma query_step {A} m (f : Manager St -> outcome (Manager St * A)) m' r :
  (forall m0 m1 r, f m0 = Ok (m1, r) -> mpool_ok m0 -> pool_step m0 m1) -> mpool_ok m ->
  (m0 ← revalidatePool m; f m0) = Ok (m', r) -> pool_step m m'.
Proof.
  intros Hf Hok H. bind_ok H m0 E. pose proof (revalidate_step m m0 Hok E) as H0.
  eapply pool_step_trans; [exact H0|]. eapply Hf; [exact H|]. by destruct H0.
Qed.

Lemma pool_step_refl m : mpool_ok m -> pool_step m m.
Proof. by split. Qed.

(** Ends a query that returns the manager it was given. *)
Ltac unchanged H := injection H as <- _; by apply pool_step_refl.

Lemma PoolTransaction_step m id m' r : mpool_ok m -> PoolTransaction m id = Ok (m', r) -> pool_step m m'.
Proof.
  intros Hok. apply (query_step m); [|done]. intros m0 m1 r1 H H0. destruct (_ !! id); [|unchanged H].
  destruct (_ !! _); [unchanged H|done].
Qed.
Lemma V2PoolTransaction_step m id m' r : mpool_ok m -> V2PoolTransaction m id = Ok (m', r) -> pool_step m m'.
Proof.
  intros Hok. apply (query_step m); [|done]. intros m0 m1 r1 H H0. destruct (_ !! id); [|unchanged H].
  destruct (_ !! _); [unchanged H|done].
Qed.
Lemma PoolTransactions_step m m' r : mpool_ok m -> PoolTransactions m = Ok (m', r) -> pool_step m m'.
Proof. intros Hok. apply (query_step m); [|done]. intros m0 m1 r1 H H0. unchanged H. Qed.
Lemma V2PoolTransactions_step m m' r : mpool_ok m -> V2PoolTransactions m = Ok (m', r) -> pool_step m m'.
Proof. intros Hok. apply (query_step m); [|done]. intros m0 m1 r1 H H0. unchanged H. Qed.
Lemma PartialBlock_step m missing m' r : mpool_ok m -> TransactionsForPartialBlock m missing = Ok (m', r) ->
  pool_step m m'.
Proof.
  intros Hok. apply (query_step m); [|done]. intros m0 m1 r1 H H0.
  destruct (pick Transaction_MerkleLeafHash _ _) as [txns want]. destruct (bool_decide _); [unchanged H|].
  destruct (pick V2Transaction_MerkleLeafHash _ _) as [v2txns want']. unchanged H.
Qed.
Lemma UnconfirmedParents_step m txn m' r : mpool_ok m -> UnconfirmedParents m txn = Ok (m', r) -> pool_step m m'.
Proof.
  intros Hok. apply (query_step m); [|done]. intros m0 m1 r1 H H0. cbv zeta in H. bind_ok H acc E1. bind_ok H q E2.
  destruct q. unchanged H.
Qed.
Lemma V2TransactionSet_step m basis txn m' r : mpool_ok m -> V2TransactionSet m basis txn = Ok (m', r) -> pool_step m m'.
Proof.
  intros Hok. apply (query_step m); [|done]. intros m0 m1 r1 H H0. bind_ok H updated E. destruct updated as [|t l]; [unchanged H|].
  cbv zeta in H. bind_ok H acc E1. bind_ok H q E2. destruct q. unchanged H.
Qed.
Lemma computeMedianFee_step m m' fee : mpool_ok m -> computeMedianFee m = Ok (m', fee) -> pool_step m m'.
Proof.
  intros Hok H. unfold computeMedianFee in H. destruct (tp_medianFee _); [unchanged H|]. bind_ok H fees E.
  cbv zeta in H. destruct (_ !! _); [|unchanged H]. injection H as <- _. by split.
Qed.
Lemma RecommendedFee_step m m' r : mpool_ok m -> RecommendedFee m = Ok (m', r) -> pool_step m m'.
Proof.
  intros Hok. apply (query_step m); [|done]. intros m0 m1 r1 H H0. bind_ok H q E. destruct q as [m2 fee].
  cbv zeta in H. do 9 (let x := fresh in let Ex := fresh in bind_ok H x Ex). injection H as <- _.
  by eapply computeMedianFee_step.
Qed.
End Pool.

(** ** Every method *)
Section Steps.
Context {crypto : Crypto} {sizes : CryptoSizes} {edwards : Edwards25519}.
Context {St : Type} {store : Store St} {spec : StoreSpec St}.
Implicit Types (m : Manager St) (a : AStore).

(** The methods that may change the manager; the others return what they read.  Blocks survive
    their own encoding and their identifiers do not collide; blocks given as validated are so,
    from a state of the tree on. *)
Inductive step m : Manager St -> Prop :=
| step_AddBlocks now blocks m' err : Forall storable blocks -> (forall a, rep (m_store m) a -> collision_free a blocks) ->
    AddBlocks now m blocks = Ok (m', err) -> step m m'
| step_AddValidatedV2Blocks cs blocks states m' err : Forall storable blocks ->
    (forall a, rep (m_store m) a -> collision_free a blocks /\ known a (s_Index cs)) -> good_state cs -> prevalidated cs blocks states ->
    (forall b, b ∈ blocks -> is_Ok (overwriteExpirations (m_expiringFileContractOrder m) (Block_ID b) no_supplement)) ->
    AddValidatedV2Blocks m blocks states = Ok (m', err) -> step m m'
| step_PruneBlocks height m' : PruneBlocks m height = Ok m' -> step m m'
| step_AddPoolTransactions txns m' r : AddPoolTransactions m txns = Ok (m', r) -> step m m'
| step_AddV2PoolTransactions basis txns m' r : AddV2PoolTransactions m basis txns = Ok (m', r) -> step m m'
| step_PoolTransaction id m' r : PoolTransaction m id = Ok (m', r) -> step m m'
| step_PoolTransactions m' r : PoolTransactions m = Ok (m', r) -> step m m'
| step_V2PoolTransaction id m' r : V2PoolTransaction m id = Ok (m', r) -> step m m'
| step_V2PoolTransactions m' r : V2PoolTransactions m = Ok (m', r) -> step m m'
| step_TransactionsForPartialBlock missing m' r : TransactionsForPartialBlock m missing = Ok (m', r) -> step m m'
| step_RecommendedFee m' r : RecommendedFee m = Ok (m', r) -> step m m'
| step_UnconfirmedParents txn m' r : UnconfirmedParents m txn = Ok (m', r) -> step m m'
| step_V2TransactionSet basis txn m' r : V2TransactionSet m basis txn = Ok (m', r) -> step m m'
| step_OnReorg key fn : step m (OnReorg m key fn)
| step_OnReorg_cancel key : step m (OnReorg_cancel m key)
| step_OnPoolChange key fn : step m (OnPoolChange m key fn)
| step_OnPoolChange_cancel key : step m (OnPoolChange_cancel m key).

Definition manager_ok (g : BlockID) m : Prop := (exists a, mgr_inv g m a) /\ mpool_ok m.

Lemma ok_pool_step g m m' : manager_ok g m -> pool_step m m' -> manager_ok g m'.
Proof. intros [[a Ha] _] [H1 H2 H3 H4]. split; [|done]. exists a. by eapply inv_pool. Qed.

(** Adding blocks keeps the pool, or drops its cache. *)
Lemma ok_kept g m m' a' : manager_ok g m -> mgr_inv g m' a' -> pool_kept m m' -> manager_ok g m'.
Proof.
  intros [_ Hp] Ha' Hk. split; [by exists a'|]. unfold mpool_ok, pool_ok. destruct Hk as [->|[-> ->]]; [done|exact Hp].
Qed.
Section Flush.
Context (Hflush : flush_ok St).
Lemma ok_AddBlocks g m now blocks m' err : manager_ok g m -> Forall storable blocks ->
  (forall a, rep (m_store m) a -> collision_free a blocks) ->
  AddBlocks now m blocks = Ok (m', err) -> manager_ok g m'.
Proof.
  intros Hok Hst Hcf H. pose proof Hok as [[a Ha] _].
  destruct (AddBlocks_spec g m a now blocks m' err Ha Hst (Hcf a (mi_rep _ _ _ Ha)) H) as (a' & Ha' & Hk & _). eauto using ok_kept.
Qed.
Lemma ok_AddValidated g m cs blocks states m' err : manager_ok g m -> Forall storable blocks ->
  (forall a, rep (m_store m) a -> collision_free a blocks /\ known a (s_Index cs)) -> good_state cs -> prevalidated cs blocks states ->
  (forall b, b ∈ blocks -> is_Ok (overwriteExpirations (m_expiringFileContractOrder m) (Block_ID b) no_supplement)) ->
  AddValidatedV2Blocks m blocks states = Ok (m', err) -> manager_ok g m'.
Proof.
  intros Hok Hst Hcf Hg Hpre Hord H. pose proof Hok as [[a Ha] _]. destruct (Hcf a (mi_rep _ _ _ Ha)) as [Hc Hk].
  destruct (AddValidatedV2Blocks_spec g m a cs blocks states m' err Ha Hst Hc Hk Hg Hpre Hord H) as (a' & Ha' & Hp & _). eauto using ok_kept.
Qed.

(** Pruning forgets blocks, not their headers and states. *)
Lemma inv_prune g m a id s' : mgr_inv g m a -> st_PruneBlock (m_store m) id = Ok s' ->
  mgr_inv g (set_store m s') (a_PruneBlock a id).
Proof.
  intros [H1 H2 H3 [B1 B2 B3 B4] H5 H6] E. split; [by eapply rep_PruneBlock| |exact H3|by split| |exact H6].
  - destruct H2 as [K1 K2 K3 K4 K5 K6 K7 K8]. split; [done..|]. intros i b bs H. cbn in H. apply lookup_delete_Some in H as [_ H]. by eapply K8.
  - intros i b bs H. cbn in H. apply lookup_delete_Some in H as [_ H]. by eapply H5.
Qed.

Lemma ok_prune g n : forall m m', manager_ok g m -> prune_from n m = Ok m' -> manager_ok g m'.
Proof.
  induction n as [|n IH]; intros m m' Hok H; cbn [prune_from] in H; [by injection H as <-|].
  bind_ok H index E. destruct index as [i|]; [|by injection H as <-]. bind_ok H b E1. destruct b; [|by injection H as <-].
  bind_ok H s E2. eapply IH; [|exact H]. destruct Hok as [[a Ha] Hp]. split; [|exact Hp].
  eexists. by eapply inv_prune.
Qed.

Lemma step_ok g m m' : manager_ok g m -> step m m' -> manager_ok g m'.
Proof.
  intros Hok Hs. pose proof Hok as [[a Ha] Hp].
  destruct Hs; [by eapply ok_AddBlocks|by eapply ok_AddValidated|by eapply ok_prune|eapply ok_pool_step; [exact Hok|]..];
    eauto using AddPool_step, PoolTransaction_step, PoolTransactions_step, V2PoolTransaction_step,
      V2PoolTransactions_step, PartialBlock_step, RecommendedFee_step, UnconfirmedParents_step, V2TransactionSet_step.
  all: try by split. destruct r as [known err]. by destruct (AddV2Pool_spec m basis txns m' known err Hp) as (m0 & _ & ? & _).
Qed.

End Flush.

(** The pool is a set of transactions valid one after the other on the tip, with the state [ms]
    after them, indexed by position and with the right weight; so any initial segment of it can
    go into the next block. *)
Definition valid_pool m (ms : MidState) : Prop :=
  exists l, runs (NewMidState (m_tipState m)) l ms /\
    v1s l = tp_txns (m_txpool m) /\ v2s l = tp_v2txns (m_txpool m) /\
    (forall k, exists ms', runs (NewMidState (m_tipState m)) (take k l) ms') /\
    indexed (tp_txns (m_txpool m)) (tp_v2txns (m_txpool m)) (tp_indices (m_txpool m)) (tp_weight (m_txpool m)).
Lemma mpool_valid m ms : mpool_ok m -> tp_ms (m_txpool m) = Some ms -> valid_pool m ms.
Proof.
  intros Hp E. unfold mpool_ok, pool_ok in Hp. rewrite E in Hp. destruct Hp as [(l & Hr & E1 & E2) Hix].
  exists l. split_and!; [done|done|done| |done]. intros k. by eapply runs_prefix.
Qed.
Lemma revalidated_cached m m1 : revalidatePool m = Ok m1 -> is_Some (tp_ms (m_txpool m1)).
Proof.
  unfold revalidatePool. intros H. destruct (is_some (tp_ms (m_txpool m)) && _) eqn:Ec.
  { injection H as <-. apply andb_true_iff in Ec as [Ec _]. by destruct (tp_ms (m_txpool m)). }
  bind_ok H p Ep. bind_ok H r1 E1. destruct r1 as [[[ms1 ix1] w1] txns1]. bind_ok H r2 E2.
  destruct r2 as [[[ms2 ix2] w2] txns2]. injection H as <-. by eexists.
Qed.

(** C7: the invariant of the chain manager.  A manager created on a store that holds a block tree
    and the chain to its tip keeps it so under every sequence of calls of the methods that may
    change it: blocks added in any order and valid or not, if they survive their own encoding and
    their identifiers do not collide; chains of blocks that were validated before; pruning;
    transactions offered to either pool; queries of the pool and listeners; as long as the
    store's flush does not fail.  In every reachable state the best index is the chain of parents
    from genesis to the tip and all of its blocks are known.  While the cached state of the pool is
    present the pool is valid on the tip, and [revalidatePool], which every method that reads or
    extends the pool runs first, always leaves a valid pool with its cache when it returns. *)
Theorem manager_invariant g s cs order a m :
  flush_ok St -> mgr_inv g (NewManager s cs order) a -> rtc step (NewManager s cs order) m ->
  (exists a', rep (m_store m) a' /\ tree_ok g a' /\ known a' (Tip m) /\ best_ok a' (Tip m)) /\
  (forall ms, tp_ms (m_txpool m) = Some ms -> valid_pool m ms) /\
  (forall m1, revalidatePool m = Ok m1 -> Tip m1 = Tip m /\ exists ms, tp_ms (m_txpool m1) = Some ms /\ valid_pool m1 ms).
Proof.
  intros Hf Hinv Hrtc. assert (manager_ok g m) as [[a' [H1 H2 H3 H4 _ _]] Hp].
  { assert (manager_ok g (NewManager s cs order)) as H0 by (split; [by exists a|done]).
    clear Hinv. induction Hrtc as [|m1 m2 m3 Hs _ IH]; [done|]. apply IH. by eapply step_ok. }
  split; [by exists a'|]. split; [intros ms E; by apply mpool_valid|].
  intros m1 E. destruct (revalidate_step m m1 Hp E) as [Hp1 Et _ _]. destruct (revalidated_cached m m1 E) as [ms Ems].
  split; [unfold Tip; by rewrite Et|]. exists ms. split; [done|by apply mpool_valid].
Qed.
End Steps.

(** ** A transfer offered to the devnet manager *)
Import SampleChain SampleStore.
Definition offer : outcome (Manager SampleStore.t * (bool * error)) :=
  AddV2PoolTransactions SampleStore.mgr (Tip SampleStore.mgr) [SampleChain.transfer1].

Lemma offer_accepted : (fun r => (length (tp_v2txns (m_txpool (fst r))), snd r)) <$> offer = Ok (1%nat, (false, None)).
Proof. vm_cast_no_check (eq_refl (Ok (1%nat, (false, @None string)))). Qed.

Lemma offer_ok : exists m', offer = Ok (m', (false, None)) /\ length (tp_v2txns (m_txpool m')) = 1%nat.
Proof.
  pose proof offer_accepted as H. destruct offer as [[m' [known err]]| |]; [|discriminate H|discriminate H].
  cbn [fmap outcome_fmap fst snd] in H. injection H as H -> ->. exists m'. split; [reflexivity|exact H].
Qed.

Lemma AddV2PoolTransactions_atomic_witness : exists m',
  AddV2PoolTransactions SampleStore.mgr (Tip SampleStore.mgr) [SampleChain.transfer1] = Ok (m', (false, None)) /\
  mpool_ok m' /\ Tip m' = Tip SampleStore.mgr /\ length (tp_v2txns (m_txpool m')) = 1%nat.
Proof.
  destruct offer_ok as (m' & E & El). exists m'. split; [exact E|].
  destruct (AddV2PoolTransactions_atomic SampleStore.mgr (Tip SampleStore.mgr) [SampleChain.transfer1] m' false None I E)
    as (m0 & _ & H1 & H2 & _). split; [exact H1|]. split; [exact H2|exact El].
Defined.

(** The block that holds the transfer is added while the pool holds it too. *)
Definition offered_then_mined : outcome (Manager SampleStore.t * error) :=
  '(m, _) ← offer; AddBlocks SampleStore.now m [SampleChain.block1].

Lemma mined_accepted : (fun r => (ci_Height (Tip (fst r)), snd r)) <$> offered_then_mined = Ok (1, None).
Proof. vm_cast_no_check (eq_refl (Ok (1, @None string))). Qed.

Lemma memory_flush : flush_ok SampleStore.t.
Proof. intros s a s' err _ H. by injection H as _ <-. Qed.

Lemma manager_invariant_witness : exists m m' a',
  offer = Ok (m, (false, None)) /\ AddBlocks SampleStore.now m [SampleChain.block1] = Ok (m', None) /\
  ci_Height (Tip m') = 1 /\ rep (m_store m') a' /\ best_ok a' (Tip m').
Proof.
  destruct offer_ok as (m & E & _). pose proof mined_accepted as H. unfold offered_then_mined in H.
  rewrite E in H. cbn [mbind outcome_bind] in H.
  destruct (AddBlocks SampleStore.now m [SampleChain.block1]) as [[m' err]| |] eqn:E'; [|discriminate H|discriminate H].
  cbn [fmap outcome_fmap fst snd] in H. injection H as Hh ->.
  assert (m_store m = SampleStore.start) as Es.
  { destruct (AddV2Pool_spec SampleStore.mgr _ _ m false None I E) as (m0 & _ & Hp & _). exact (ps_store _ _ Hp). }
  destruct (manager_invariant SampleStore.gid SampleStore.start SampleChain.tip ∅ (SampleStore.view SampleStore.start) m'
    memory_flush SampleStore.start_inv) as [(a' & H1 & _ & _ & H4) _].
  - eapply rtc_l; [eapply step_AddV2PoolTransactions; exact E|]. apply rtc_once.
    eapply step_AddBlocks; [apply Forall_singleton; exact SampleStore.block1_storable| |exact E'].
    intros a [Ha _]. rewrite Es in Ha. rewrite Ha. exact SampleStore.block1_free.
  - exists m, m', a'. split; [exact E|]. split; [exact E'|]. split; [exact Hh|]. split; [exact H1|exact H4].
Defined.
