(* ===== verification/ChainUpdateSpec.v ===== *)
(** * Updated transactions are the same transactions

    [UpdateV2TransactionSet] brings the Merkle proofs of transactions to another tip.  What it
    returns has the identifiers and the contents of what it was given, less the transactions
    that were confirmed on the way, and stays well-typed. *)
From stdpp Require Import prelude strings gmap.
From Stdlib Require Import ZArith Lia.
From S2P Require Import Prelude TypesCurrency TypesData TypesEncoding TypesCodec TypesHash TypesPolicy.
From S2P Require Import ConsensusWork ConsensusState ConsensusMerkle ConsensusQday ConsensusMidState ConsensusApply ConsensusDifficulty.
From S2P Require Import ConsensusCodec ConsensusTypeSpec ConsensusProofSpec TypesMultiproof TypesMultiproofSpec TypesBlockCodecSpec.
From S2P Require Import ChainStore ChainPool ChainManager ChainManagerPool ChainStoreSpec SampleCrypto SampleChain SampleStore.

(** ** Types up to sharing *)
Section Skeleton.
Context {crypto : Crypto}.

(** A value that is well-formed once its elements are copied. *)
Definition typed {T} {E : Elems T} (wf : T -> Prop) (x : T) : Prop := wf (put_elems x (map StateElement_Copy (elems x))).

Lemma typed_list {T} {E : Elems T} (wf : T -> Prop) l : typed (Forall wf) l <-> Forall (typed wf) l.
Proof.
  unfold typed. cbn [elems put_elems list_elems]. induction l as [|x l IH]; cbn; [split; constructor|].
  rewrite map_app. rewrite take_app_length', drop_app_length' by by rewrite length_map. rewrite !Forall_cons. by rewrite IH.
Qed.
Lemma typed_elements {T} {E : Elems T} {L : ElemsLaws T} (wf : T -> Prop) {W : ElemsWf wf} x : typed wf x -> Forall element_ok (elems x).
Proof.
  intros H. apply (wf_elems (wf := wf)) in H. rewrite elems_put in H by by rewrite length_map. eapply Forall_impl; [exact (proj1 (Forall_map _ _ _) H)|].
  by intros e (H1 & H2 & _).
Qed.
Lemma typed_fill {T} {E : Elems T} {L : ElemsLaws T} (wf : T -> Prop) {W : ElemsWf wf} x es : typed wf x -> length es = length (elems x) ->
  Forall element_ok es -> typed wf (put_elems x es).
Proof.
  intros H Hl He. unfold typed. rewrite elems_put, put_put by (rewrite ?length_map; done).
  rewrite <- (put_put x (map StateElement_Copy (elems x))) by (rewrite length_map; done). apply wf_put; [exact H|].
  apply Forall_map. eapply Forall_impl; [exact He|]. intros e Hx. by apply copy_wf.
Qed.

Lemma copy_list {T} {E : Elems T} (l : list T) :
  put_elems l (map StateElement_Copy (elems l)) = map (fun x => put_elems x (map StateElement_Copy (elems x))) l.
Proof.
  cbn [elems put_elems list_elems]. induction l as [|x l IH]; [done|]. cbn. rewrite map_app.
  by rewrite take_app_length', drop_app_length', IH by by rewrite length_map.
Qed.

Abbreviation typed_txn := (typed wf_V2Transaction).
Lemma wf_typed txn : wf_V2Transaction txn -> typed_txn txn.
Proof.
  intros H. apply (wf_put (wf := wf_V2Transaction)); [done|]. apply wf_elems in H. apply Forall_map. eapply Forall_impl; [exact H|]. intros e He. by apply copy_wf, wf_element_ok.
Qed.
Lemma typed_parts txn : typed_txn txn <->
  Forall (typed wf_V2SiacoinInput) (v2tx_SiacoinInputs txn) /\ Forall wf_SiacoinOutput (v2tx_SiacoinOutputs txn) /\
  Forall (typed wf_V2SiafundInput) (v2tx_SiafundInputs txn) /\ Forall wf_SiafundOutput (v2tx_SiafundOutputs txn) /\
  Forall wf_V2FileContract (v2tx_FileContracts txn) /\ Forall (typed wf_V2FileContractRevision) (v2tx_FileContractRevisions txn) /\
  Forall (typed wf_V2FileContractResolution) (v2tx_FileContractResolutions txn) /\ Forall wf_Attestation (v2tx_Attestations txn) /\
  from_option (wf_array 32) True (v2tx_NewFoundationAddress txn) /\ Currency.ok (v2tx_MinerFee txn).
Proof.
  rewrite <- !typed_list. unfold typed. cbn [elems put_elems txn_elems]. unfold V2Transaction_elems, V2Transaction_put. rewrite !map_app.
  rewrite !drop_app_length' by by rewrite length_map. rewrite !take_app_length' by by rewrite length_map.
  unfold wf_V2Transaction. cbn_txn. done.
Qed.
End Skeleton.

(** ** Identifiers *)
Section Ids.
Context {crypto : Crypto}.

(** An encoding that does not look at the proofs. *)
Class ProofFree {T} {E : Elems T} (enc : T -> bytes) : Prop :=
  enc_put : forall x es, map se_LeafIndex es = map se_LeafIndex (elems x) -> enc (put_elems x es) = enc x.

#[export] Instance sci_free : ProofFree (fun i : V2SiacoinInput => Array_EncodeTo (sce_ID (v2sci_Parent i))).
Proof. by intros x [|e [|? ?]] H. Qed.
#[export] Instance sfi_free : ProofFree (fun i : V2SiafundInput => Array_EncodeTo (sfe_ID (v2sfi_Parent i))).
Proof. by intros x [|e [|? ?]] H. Qed.
#[export] Instance fcr_free : ProofFree (fun r : V2FileContractRevision =>
  Array_EncodeTo (v2fce_ID (v2fcr_Parent r)) ++ V2FileContract_EncodeTo (V2FileContract_nilSigs (v2fcr_Revision r))).
Proof. by intros x [|e [|? ?]] H. Qed.
#[export] Instance res_free : ProofFree (fun r : V2FileContractResolution =>
  Array_EncodeTo (v2fce_ID (res_Parent r)) ++ ResolutionType_EncodeTo (Resolution_normalize (res_Resolution r))).
Proof.
  intros [p r] [|e es] H; [done|]. destruct r as [r|sp|]; [done| |done]. destruct es as [|e' es]; [done|]. cbn in H. injection H as _ H2 _.
  cbn. unfold StateElement_EncodeTo. cbn. by rewrite H2.
Qed.
Lemma slice_free {T} {E : Elems T} (enc : T -> bytes) {F : ProofFree enc} (l : list T) es :
  map se_LeafIndex es = map se_LeafIndex (elems l) -> EncodeSlice enc (put_elems l es) = EncodeSlice enc l.
Proof.
  intros H. unfold EncodeSlice. assert (zlen (put_elems l es) = zlen l) as ->.
  { unfold zlen. f_equal. clear H F. revert es. cbn [put_elems list_elems]. induction l as [|x l IH]; intros es; [done|]. cbn. by rewrite IH. }
  f_equal. revert es H. cbn [put_elems elems list_elems]. induction l as [|x l IH]; intros es H; [done|]. cbn in *.
  rewrite map_app in H. assert (length es = length (elems x) + length (concat (map elems l)))%nat as Hl.
  { apply (f_equal length) in H. rewrite length_app, !length_map in H. done. }
  rewrite <- (take_drop (length (elems x)) es), map_app in H. apply app_inj_1 in H as [H1 H2]; [|rewrite !length_map, length_take; lia].
  by rewrite enc_put, IH.
Qed.

Lemma ID_put (txn : V2Transaction) es : map se_LeafIndex es = map se_LeafIndex (elems txn) -> V2Transaction_ID (put_elems txn es) = V2Transaction_ID txn.
Proof.
  intros H. unfold V2Transaction_ID. do 3 f_equal. cbn [elems txn_elems] in H. unfold V2Transaction_elems in H. rewrite !map_app in H.
  assert (length es = length (elems (v2tx_SiacoinInputs txn)) + (length (elems (v2tx_SiafundInputs txn)) +
    (length (elems (v2tx_FileContractRevisions txn)) + length (elems (v2tx_FileContractResolutions txn)))))%nat as Hl.
  { apply (f_equal length) in H. rewrite !length_app, !length_map in H. done. }
  pose proof (split4 es _ _ _ _ Hl) as (L1 & L2 & L3 & L4). cbn [put_elems txn_elems]. unfold V2Transaction_put.
  rewrite <- (take_drop (length (elems (v2tx_SiacoinInputs txn))) es), map_app in H. apply app_inj_1 in H as [H1 H]; [|by rewrite !length_map].
  rewrite <- (take_drop (length (elems (v2tx_SiafundInputs txn))) (drop _ es)), map_app in H. apply app_inj_1 in H as [H2 H]; [|by rewrite !length_map].
  rewrite <- (take_drop (length (elems (v2tx_FileContractRevisions txn))) (drop _ (drop _ es))), map_app in H. apply app_inj_1 in H as [H3 H4]; [|by rewrite !length_map].
  unfold V2TransactionSemantics_EncodeTo. cbn_txn.
  rewrite (slice_free _ _ _ H1), (slice_free _ _ _ H2), (slice_free _ _ _ H3), (slice_free _ _ _ H4). done.
Qed.
Lemma ID_copy txn : V2Transaction_ID (V2Transaction_DeepCopy txn) = V2Transaction_ID txn.
Proof. apply ID_put. by rewrite map_map. Qed.

Lemma slice_map {A} (enc : A -> bytes) (f : A -> A) l : (forall x, enc (f x) = enc x) -> EncodeSlice enc (map f l) = EncodeSlice enc l.
Proof.
  intros H. unfold EncodeSlice, zlen. rewrite length_map. f_equal. induction l as [|x l IH]; [done|]. cbn. by rewrite H, IH.
Qed.
(** Nor do encodings show which elements are shared. *)
Lemma encode_copy txn : V2Transaction_EncodeTo (V2Transaction_DeepCopy txn) = V2Transaction_EncodeTo txn.
Proof.
  unfold V2Transaction_DeepCopy. cbn [elems put_elems txn_elems]. unfold V2Transaction_elems, V2Transaction_put. rewrite !map_app.
  rewrite !drop_app_length' by by rewrite length_map. rewrite !take_app_length' by by rewrite length_map. rewrite !copy_list.
  unfold V2Transaction_EncodeTo, field_flags. cbn_txn.
  assert (forall {A} (f : A -> A) l, nonempty (map f l) = nonempty l) as Hn by (intros A f []; done). rewrite !Hn. rewrite !slice_map; [done|..].
  all: intros x; try done. by destruct x as [p []].
Qed.
Lemma ID_map_sci f txn : (forall i, sce_ID (v2sci_Parent (f i)) = sce_ID (v2sci_Parent i)) -> V2Transaction_ID (map_sci f txn) = V2Transaction_ID txn.
Proof.
  intros H. unfold V2Transaction_ID. do 3 f_equal. unfold V2TransactionSemantics_EncodeTo, map_sci. cbn_txn.
  by rewrite slice_map by (intros i; by rewrite H).
Qed.
Lemma ID_confirm cs confirmed txn : V2Transaction_ID (confirm_inputs cs confirmed txn) = V2Transaction_ID txn.
Proof.
  unfold confirm_inputs. set (txn' := map_sci _ txn). transitivity (V2Transaction_ID txn').
  - unfold V2Transaction_ID. do 3 f_equal. unfold V2TransactionSemantics_EncodeTo. cbn_txn. rewrite slice_map; [done|].
    intros i. destruct (negb _); [done|]. by destruct (confirmed !! _).
  - apply ID_map_sci. intros i. destruct (negb _); [done|]. destruct (confirmed !! _); [|done]. by destruct (isQday cs).
Qed.
End Ids.

(** ** Contents

    All of a transaction but the leaf indices and proofs of its elements and the maturity
    heights of the outputs it spends. *)
Section Content.
Context {crypto : Crypto}.
Definition sci_content (i : V2SiacoinInput) :=
  (sce_ID (v2sci_Parent i), sce_SiacoinOutput (v2sci_Parent i), v2sci_SatisfiedPolicy i).
Definition sfi_content (i : V2SiafundInput) :=
  (sfe_ID (v2sfi_Parent i), sfe_SiafundOutput (v2sfi_Parent i), sfe_ClaimStart (v2sfi_Parent i),
   v2sfi_ClaimAddress i, v2sfi_SatisfiedPolicy i).
Definition fcr_content (r : V2FileContractRevision) :=
  (v2fce_ID (v2fcr_Parent r), v2fce_V2FileContract (v2fcr_Parent r), v2fcr_Revision r).
Definition res_content (r : V2FileContractResolution) :=
  (v2fce_ID (res_Parent r), v2fce_V2FileContract (res_Parent r),
   match res_Resolution r with
   | V2Proof sp => V2Proof {| v2sp_ProofIndex := {| cie_ID := cie_ID (v2sp_ProofIndex sp); cie_StateElement := unassignedElement;
                                                   cie_ChainIndex := cie_ChainIndex (v2sp_ProofIndex sp) |};
                              v2sp_Leaf := v2sp_Leaf sp; v2sp_Proof := v2sp_Proof sp |}
   | x => x
   end).
Definition content (txn : V2Transaction) :=
  (map sci_content (v2tx_SiacoinInputs txn), v2tx_SiacoinOutputs txn, map sfi_content (v2tx_SiafundInputs txn),
   v2tx_SiafundOutputs txn, v2tx_FileContracts txn, map fcr_content (v2tx_FileContractRevisions txn),
   map res_content (v2tx_FileContractResolutions txn), v2tx_Attestations txn, v2tx_ArbitraryData txn,
   v2tx_NewFoundationAddress txn, v2tx_MinerFee txn).
(** What stays the same. *)
Definition identity (txn : V2Transaction) := (V2Transaction_ID txn, content txn).

Lemma put_content {T B} {E : Elems T} (key : T -> B) (l : list T) : (forall x es, key (put_elems x es) = key x) ->
  forall es, map key (put_elems l es) = map key l.
Proof. intros H. cbn [put_elems list_elems]. induction l as [|x l IH]; intros es; [done|]. cbn. by rewrite H, IH. Qed.
Lemma content_put (txn : V2Transaction) es : content (put_elems txn es) = content txn.
Proof.
  unfold content. cbn [put_elems txn_elems]. unfold V2Transaction_put. cbn_txn.
  rewrite !put_content; [done|..].
  - intros [p r] [|e es']; [done|]. cbn. destruct r; try done. by destruct es'.
  - by intros x [|e es'].
  - by intros x [|e es'].
  - by intros x [|e es'].
Qed.
Lemma content_map_sci f txn : (forall i, sci_content (f i) = sci_content i) -> content (map_sci f txn) = content txn.
Proof. intros H. unfold content, map_sci. cbn_txn. rewrite map_map. by rewrite (map_ext _ _ H). Qed.
Lemma content_confirm cs confirmed txn : content (confirm_inputs cs confirmed txn) = content txn.
Proof.
  unfold confirm_inputs. set (txn' := map_sci _ txn). transitivity (content txn').
  - unfold content. cbn_txn. rewrite map_map. erewrite (map_ext (fun x => sfi_content _)); [done|].
    intros i. cbv beta. destruct (negb _); [done|]. by destruct (confirmed !! _).
  - apply content_map_sci. intros i. destruct (negb _); [done|]. destruct (confirmed !! _); [|done]. by destruct (isQday cs).
Qed.
Lemma identity_copy txn : identity (V2Transaction_DeepCopy txn) = identity txn.
Proof. unfold identity. rewrite ID_copy. f_equal. apply content_put. Qed.
Lemma identity_confirm cs confirmed txn : identity (confirm_inputs cs confirmed txn) = identity txn.
Proof. unfold identity. by rewrite ID_confirm, content_confirm. Qed.
End Content.

(** ** Updating *)
Section Update.
Context {crypto : Crypto} {sizes : CryptoSizes}.
Abbreviation typed_txn := (typed wf_V2Transaction).

(** What an update does to an element. *)
Definition sound_update (update : StateElement -> outcome StateElement) : Prop :=
  forall e e', wf_StateElement e -> update e = Ok e' -> wf_StateElement e' /\ se_LeafIndex e' = se_LeafIndex e.

Lemma updateProof_index e updated e' : updateProof e updated = Ok e' -> se_LeafIndex e' = se_LeafIndex e.
Proof.
  unfold updateProof. destruct (updated !! _) as [[|l ls]|]; [by intros [= <-]| |done]. destruct (_ =? _); [by intros [= <-]|].
  destruct (_ || _); [done|by intros [= <-]].
Qed.
Lemma apply_sound eau : apply_ok eau -> sound_update (eau_updateElementProof eau).
Proof.
  intros Ha e e' He H. split; [by eapply eau_update_wf|]. unfold eau_updateElementProof in H. ok_step H. destruct (_ =? _); [done|].
  destruct (_ <=? _); [by injection H as <-|]. ok_step H. apply updateProof_index in E0. destruct (_ =? _); [by injection H as <-|].
  destruct (_ !! _); [by injection H as <-|done].
Qed.
Lemma revert_sound eru : Forall (Forall leaf_ok) (eru_updated eru) -> sound_update (eru_updateElementProof eru).
Proof.
  intros Ha e e' He H. split; [by eapply eru_update_wf|]. unfold eru_updateElementProof in H. ok_step H. destruct (_ =? _); [done|].
  destruct (_ <=? _); [done|]. apply updateProof_index in H. rewrite H. by destruct (_ <=? _).
Qed.

Lemma update_elems_sound update n es : sound_update update -> Forall element_ok es -> forall valid valid' es',
  update_elems update n valid es = Ok (valid', es') -> Forall element_ok es' /\ map se_LeafIndex es' = map se_LeafIndex es.
Proof.
  intros Hu. induction 1 as [|e es He Hes IH]; intros valid valid' es' H; cbn [update_elems] in H; [by injection H as _ <-|].
  destruct (_ =? _).
  - ok_step H. destruct v as [v r]. injection H as _ <-. destruct (IH _ _ _ E) as [H1 H2]. cbn. by rewrite H2; split; [constructor|].
  - ok_step H. ok_step H. destruct v0 as [v0 r]. injection H as _ <-. destruct (IH _ _ _ E0) as [H1 H2].
    assert (element_ok v /\ se_LeafIndex v = se_LeafIndex e) as [Hv1 Hv2].
    { destruct (valid && _); [|by injection E as <-]. apply Hu in E as [Hw Hi]; [|by apply copy_wf]. split; [by apply wf_element_ok|done]. }
    cbn. rewrite H2, Hv2. split; [by constructor|done].
Qed.
Lemma update_or_fail_sound update n txn txn' : sound_update update -> typed_txn txn -> update_or_fail update n txn = Ok txn' ->
  typed_txn txn' /\ identity txn' = identity txn.
Proof.
  intros Hu Ht H. unfold update_or_fail, updateTxnProofs in H. ok_step H. ok_step E. destruct v0 as [valid es]. injection E as <-.
  destruct valid; [|done]. injection H as <-. destruct (update_elems_sound _ _ _ Hu (typed_elements _ _ Ht) _ _ _ E0) as [He Hi].
  assert (length es = length (elems txn)) as Hl by (apply (f_equal length) in Hi; by rewrite !length_map in Hi).
  split; [exact (typed_fill wf_V2Transaction txn es Ht Hl He)|]. unfold identity. f_equal; [by apply ID_put|apply content_put].
Qed.

(** Inputs whose parents a block confirmed take over their elements. *)
Lemma created_ok sces sfes id e :
  Forall (fun d => element_ok (sce_StateElement (sced_SiacoinElement d))) sces ->
  Forall (fun d => element_ok (sfe_StateElement (sfed_SiafundElement d))) sfes ->
  created_elements sces sfes [] [] !! id = Some e -> element_ok e.
Proof.
  intros H1 H2. unfold created_elements. cbn [foldl]. set (P := fun m : idmap StateElement => forall id e, m !! id = Some e -> element_ok e).
  assert (forall {A} (f : A -> bool) k (g : A -> StateElement) l m, Forall (fun d => element_ok (g d)) l -> P m ->
    P (foldl (fun (m : idmap StateElement) d => if f d then <[k d := StateElement_Share (g d)]> m else m) m l)) as Hf.
  { intros A f k g l m Hl. revert m. induction Hl as [|x l Hx Hl IH]; intros m Hm; [done|]. cbn [foldl]. apply IH.
    destruct (f x); [|done]. intros id' e' [[_ <-]|[_ Hin]]%lookup_insert_Some; [done|by eapply Hm]. }
  apply (Hf _ sfed_Created (fun d => sfe_ID (sfed_SiafundElement d)) (fun d => sfe_StateElement (sfed_SiafundElement d))); [done|].
  apply (Hf _ sced_Created (fun d => sce_ID (sced_SiacoinElement d)) (fun d => sce_StateElement (sced_SiacoinElement d))); [done|].
  intros id' e' H. by rewrite lookup_empty in H.
Qed.
Lemma sci_typed i : typed wf_V2SiacoinInput i <-> element_ok (sce_StateElement (v2sci_Parent i)) /\
  wf_array 32 (sce_ID (v2sci_Parent i)) /\ wf_SiacoinOutput (sce_SiacoinOutput (v2sci_Parent i)) /\
  is_u64 (sce_MaturityHeight (v2sci_Parent i)) /\ wf_SatisfiedPolicy (v2sci_SatisfiedPolicy i).
Proof.
  unfold typed. cbn. split.
  - intros (((Ha & Hb & _) & H2 & H3 & H4) & H5). split; [exact (conj Ha Hb)|]. by split_and!.
  - intros ([H1 H1'] & H2 & H3 & H4 & H5). by split_and!.
Qed.
Lemma sfi_typed i : typed wf_V2SiafundInput i <-> element_ok (sfe_StateElement (v2sfi_Parent i)) /\
  wf_array 32 (sfe_ID (v2sfi_Parent i)) /\ wf_SiafundOutput (sfe_SiafundOutput (v2sfi_Parent i)) /\
  Currency.ok (sfe_ClaimStart (v2sfi_Parent i)) /\ wf_array 32 (v2sfi_ClaimAddress i) /\ wf_SatisfiedPolicy (v2sfi_SatisfiedPolicy i).
Proof.
  unfold typed. cbn. split.
  - intros (((Ha & Hb & _) & H2 & H3 & H4) & H5 & H6). split; [exact (conj Ha Hb)|]. by split_and!.
  - intros ([H1 H1'] & H2 & H3 & H4 & H5 & H6). by split_and!.
Qed.

Lemma maturity_typed h i : is_u64 h -> typed wf_V2SiacoinInput i -> typed wf_V2SiacoinInput (set_maturity h i).
Proof. rewrite !sci_typed. intros Hh (H1 & H2 & H3 & H4 & H5). done. Qed.
Lemma map_sci_typed f txn : (forall i, typed wf_V2SiacoinInput i -> typed wf_V2SiacoinInput (f i)) -> typed_txn txn -> typed_txn (map_sci f txn).
Proof.
  intros Hf. rewrite !typed_parts. intros (H1 & H). split; [|done]. cbn. apply Forall_map. eapply Forall_impl; [exact H1|done].
Qed.
Lemma confirm_typed cs confirmed txn : is_u64 (ci_Height (s_Index cs)) -> (forall id e, confirmed !! id = Some e -> element_ok e) ->
  typed_txn txn -> typed_txn (confirm_inputs cs confirmed txn).
Proof.
  intros Hh Hc Ht. unfold confirm_inputs. set (f := fun i : V2SiacoinInput => _) at 1.
  assert (typed_txn (map_sci f txn)) as H.
  { apply map_sci_typed; [|done]. intros i Hi. subst f. cbv beta. destruct (negb _); [done|]. destruct (confirmed !! _) as [se|] eqn:E; [|done].
    apply Hc in E. assert (typed wf_V2SiacoinInput {| v2sci_Parent := set_sce_se (fun _ => StateElement_Share se) (v2sci_Parent i);
      v2sci_SatisfiedPolicy := v2sci_SatisfiedPolicy i |}) as Hx by (rewrite !sci_typed in *; by destruct Hi as (_ & H)).
    destruct (isQday cs); [by apply maturity_typed|done]. }
  revert H. rewrite !typed_parts. cbn_txn. intros (H1 & H2 & H3 & H). split; [done|]. split; [done|]. split; [|done].
  apply Forall_map. eapply Forall_impl; [exact H3|]. intros i Hi. destruct (negb _); [done|]. destruct (confirmed !! _) as [se|] eqn:E; [|done].
  apply Hc in E. rewrite !sfi_typed in *. by destruct Hi as (_ & H').
Qed.

(** *** Elements *)
Definition assigned (e : StateElement) : Prop := se_LeafIndex e <> UnassignedLeafIndex.
Definition holds (V : StateElement -> Prop) (txn : V2Transaction) : Prop := forall e, e ∈ elems txn -> assigned e -> V e.

Lemma update_elems_from update n es : forall valid es', update_elems update n valid es = Ok (true, es') ->
  valid = true /\ length es' = length es /\
  forall e', e' ∈ es' -> assigned e' -> exists e, e ∈ es /\ assigned e /\ update (StateElement_Copy e) = Ok e'.
Proof.
  induction es as [|e es IH]; intros valid es' H; cbn [update_elems] in H.
  { injection H as -> <-. split_and!; [done|done|by intros e' ?%elem_of_nil]. }
  destruct (se_LeafIndex e =? UnassignedLeafIndex) eqn:Eu.
  - ok_step H. destruct v as [v r]. injection H as -> <-. destruct (IH _ _ E) as (-> & Hl & Hf). split_and!; [done|cbn; by rewrite Hl|].
    intros e' [->|Hin]%elem_of_cons Ha; [by apply Z.eqb_eq in Eu|]. destruct (Hf e' Hin Ha) as (x & Hx & H). exists x. by split; [right|].
  - ok_step H. ok_step H. destruct v0 as [v0 r]. injection H as -> <-. destruct (IH _ _ E0) as (Hv & Hl & Hf). rewrite Hv in E.
    apply andb_true_iff in Hv as [-> _]. split_and!; [done|cbn; by rewrite Hl|]. apply Z.eqb_neq in Eu.
    intros e' [->|Hin]%elem_of_cons Ha; [exists e; by split; [left|]|]. destruct (Hf e' Hin Ha) as (x & Hx & H). exists x. by split; [right|].
Qed.
Lemma update_or_fail_holds update n txn txn' (V W : StateElement -> Prop) : update_or_fail update n txn = Ok txn' ->
  (forall e e', V e -> update (StateElement_Copy e) = Ok e' -> W e') -> holds V txn -> holds W txn'.
Proof.
  intros H Hu Hv. unfold update_or_fail, updateTxnProofs in H. ok_step H. ok_step E. destruct v0 as [valid es]. injection E as <-.
  destruct valid; [|done]. injection H as <-. destruct (update_elems_from _ _ _ _ _ E0) as (_ & Hl & Hf). intros e' He' Ha.
  change (e' ∈ elems (put_elems txn es)) in He'. rewrite elems_put in He' by done. destruct (Hf e' He' Ha) as (e & He & Hae & Hup).
  eapply Hu; [|exact Hup]. by apply Hv.
Qed.

Lemma elem_of_parts e (txn : V2Transaction) : e ∈ elems txn <-> e ∈ elems (v2tx_SiacoinInputs txn) \/ e ∈ elems (v2tx_SiafundInputs txn) \/
  e ∈ elems (v2tx_FileContractRevisions txn) \/ e ∈ elems (v2tx_FileContractResolutions txn).
Proof. cbn [elems txn_elems]. unfold V2Transaction_elems. by rewrite !elem_of_app. Qed.
Lemma elem_of_inputs {T} {E : Elems T} (get : T -> StateElement) (l : list T) e : (forall x, elems x = [get x]) ->
  e ∈ elems l <-> exists x, x ∈ l /\ e = get x.
Proof.
  intros Hg. cbn [elems list_elems]. induction l as [|y l IH]; cbn [map concat]; [split; [by intros ?%elem_of_nil|by intros (x & ?%elem_of_nil & _)]|].
  rewrite Hg, elem_of_app, list_elem_of_singleton, IH. split.
  - intros [->|(x & Hx & ->)]; [exists y; by split; [left|]|exists x; by split; [right|]].
  - intros (x & [->|Hx]%elem_of_cons & ->); [by left|right; by exists x].
Qed.
Lemma elem_of_sci e (l : list V2SiacoinInput) : e ∈ elems l <-> exists i, i ∈ l /\ e = sce_StateElement (v2sci_Parent i).
Proof. by apply elem_of_inputs. Qed.
Lemma elem_of_sfi e (l : list V2SiafundInput) : e ∈ elems l <-> exists i, i ∈ l /\ e = sfe_StateElement (v2sfi_Parent i).
Proof. by apply elem_of_inputs. Qed.
Lemma elems_map_sci f txn : (forall i, sce_StateElement (v2sci_Parent (f i)) = sce_StateElement (v2sci_Parent i)) -> forall e, e ∈ elems (map_sci f txn) -> e ∈ elems txn.
Proof.
  intros Hf e. rewrite !elem_of_parts. unfold map_sci. cbn_txn. intros [H|H]; [left|by right]. apply elem_of_sci in H as (i & Hi & ->).
  apply list_elem_of_fmap in Hi as (j & -> & Hj). apply elem_of_sci. exists j. by split; [|apply Hf].
Qed.
Lemma elems_confirm cs confirmed txn e : e ∈ elems (confirm_inputs cs confirmed txn) ->
  e ∈ elems txn \/ exists id se, confirmed !! id = Some se /\ e = StateElement_Share se.
Proof.
  unfold confirm_inputs. rewrite !elem_of_parts. unfold map_sci. cbn_txn. intros [H|[H|H]].
  - apply elem_of_sci in H as (i & Hi & ->). apply list_elem_of_fmap in Hi as (j & -> & Hj).
    destruct (negb _); [left; left; apply elem_of_sci; by exists j|]. destruct (confirmed !! _) as [se|] eqn:E; [|left; left; apply elem_of_sci; by exists j].
    right. exists (sce_ID (v2sci_Parent j)), se. split; [done|]. by destruct (isQday cs).
  - apply elem_of_sfi in H as (i & Hi & ->). apply list_elem_of_fmap in Hi as (j & -> & Hj).
    destruct (negb _); [left; right; left; apply elem_of_sfi; by exists j|]. destruct (confirmed !! _) as [se|] eqn:E; [|left; right; left; apply elem_of_sfi; by exists j].
    right. by exists (sfe_ID (v2sfi_Parent j)), se.
  - left. by right; right.
Qed.
End Update.

(** ** Paths *)
Section Paths.
Context {crypto : Crypto} {sizes : CryptoSizes} {St : Type} {store : Store St}.
Abbreviation typed_txn := (typed wf_V2Transaction).
Abbreviation ids l := (map V2Transaction_ID l).
Abbreviation same l := (map identity l).

(** Every block the store has is well-formed, with its supplement and the state before it. *)
Definition typed_store (s : St) : Prop := forall id b bs cs, blockAndParent s id = Ok (Some (b, Some bs, cs)) ->
  Forall wf_V2Transaction (V2Transactions b) /\ wf_V1BlockSupplement bs /\ wf_State cs.

Lemma overwrite_wf order bid bs bs' : wf_V1BlockSupplement bs -> overwriteExpirations order bid bs = Ok bs' -> wf_V1BlockSupplement bs'.
Proof.
  intros [H1 H2] H. unfold overwriteExpirations in H. destruct (order !! bid) as [l|]; [|by injection H as <-].
  destruct (negb _); [done|]. ok_step H. injection H as <-. split; [done|]. cbn.
  set (m := foldl _ ∅ _) in E. assert (forall id e, m !! id = Some e -> wf_FileContractElement e) as Hm.
  { subst m. assert (forall l (m0 : idmap FileContractElement), Forall wf_FileContractElement l -> (forall id e, m0 !! id = Some e -> wf_FileContractElement e) ->
      forall id e, foldl (fun m fce => <[fce_ID fce := fce]> m) m0 l !! id = Some e -> wf_FileContractElement e) as Hf.
    { intros l0. induction l0 as [|x l0 IH]; intros m0 Hl H0 id e; [apply H0|]. cbn [foldl]. apply Forall_cons in Hl as [Hx Hl].
      apply IH; [done|]. intros id' e' [[_ <-]|[_ Hin]]%lookup_insert_Some; [done|by eapply H0]. }
    apply Hf; [done|]. intros id e He. by rewrite lookup_empty in He. }
  clearbody m. apply (for_each_ok_inv (fun _ acc => Forall wf_FileContractElement acc)) in E; [exact E|constructor|].
  intros j id acc acc' _ Ha Hb. cbv beta in Hb. destruct (m !! id) as [e|] eqn:Em; [|done]. injection Hb as <-. apply Forall_app.
  split; [done|]. constructor; [by eapply Hm|done].
Qed.
Lemma pathBlock_wf m index b bs cs : typed_store (m_store m) -> pathBlock m index = Ok (b, bs, cs) ->
  Forall wf_V2Transaction (V2Transactions b) /\ wf_V1BlockSupplement bs /\ wf_State cs.
Proof.
  intros Hs H. unfold pathBlock in H. ok_step H. destruct v as [[[b' [bs'|]] cs']|]; [|done|done]. ok_step H. injection H as <- <- <-.
  apply Hs in E as (H1 & H2 & H3). split_and!; [done| |done]. by eapply overwrite_wf.
Qed.
Lemma ApplyBlock_height s b bs t s' au : ApplyBlock s b bs t = Ok (s', au) -> is_u64 (ci_Height (s_Index s')).
Proof.
  intros H. unfold ApplyBlock in H. destruct (_ && _); [done|]. ok_step H.
  match type of H with (?e ≫= _) = _ => destruct e as [[[acc eau] added]| |]; [|done|done] end. cbn [mbind outcome_bind] in H.
  ok_step H. injection H as <- _. assert (is_u64 (ci_Height (s_Index v0))) as Hu.
  { unfold ApplyHeader in E0. destruct (_ && _); [done|].
    match type of E0 with (?e ≫= _) = _ => destruct e as [next| |] eqn:E1; [|done|done] end. cbn [mbind outcome_bind] in E0. injection E0 as <-.
    assert (is_u64 (ci_Height (s_Index next))) as Hv; [|by destruct (_ <=? _)]. destruct (bool_decide _).
    - destruct (updateOakWork _) as [[a c]| |]; [|done|done]. cbn [mbind outcome_bind] in E1. injection E1 as <-. by split.
    - destruct (updateTotalWork _) as [[a c]| |]; [|done|done]. destruct (adjustDifficulty _ _ _) as [[d g]| |]; [|done|done].
      destruct (updateOakWork _) as [[h k]| |]; [|done|done]. cbn [mbind outcome_bind] in E1. injection E1 as <-. apply u64_range. }
  unfold activate. destruct (n_Qday _); [|done]. by destruct (_ && _).
Qed.

(** A loop that updates the values it keeps. *)
Lemma collect_loop {A B} (P : A -> Prop) (key : A -> B) (skip : A -> bool) f :
  (forall x y, P x -> f x = Ok y -> P y /\ key y = key x) -> forall l i acc out, Forall P l -> Forall P acc ->
  for_each l i acc (fun _ x acc => if skip x then Ok acc else y ← f x; Ok (acc ++ [y])) = Ok out ->
  Forall P out /\ map key out = map key acc ++ map key (List.filter (fun x => negb (skip x)) l).
Proof.
  intros Hf. induction l as [|x l IH]; intros i acc out Hl Ha H; cbn [for_each] in H.
  - injection H as <-. cbn. by rewrite app_nil_r.
  - apply Forall_cons in Hl as [Hx Hl]. cbn [List.filter]. destruct (skip x); cbn [negb].
    + cbn [mbind outcome_bind] in H. exact (IH _ _ _ Hl Ha H).
    + destruct (f x) as [y| |] eqn:E; [|done|done]. cbn [mbind outcome_bind] in H. destruct (Hf _ _ Hx E) as [Hy Hk].
      apply IH in H as [H1 H2]; [|done|by apply Forall_app_2; [|constructor]]. split; [done|].
      rewrite H2, map_app. cbn. by rewrite Hk, <- app_assoc.
Qed.
Lemma filter_key {A B} (key : A -> B) f l : map key (List.filter (fun x => f (key x)) l) = List.filter f (map key l).
Proof. induction l as [|x l IH]; [done|]. cbn. destruct (f (key x)); cbn; by rewrite IH. Qed.

Lemma revertPath_same m index txns out : typed_store (m_store m) -> Forall typed_txn txns -> revertPath m index txns = Ok out ->
  Forall typed_txn out /\ same out = same txns.
Proof.
  intros Hs Ht H. unfold revertPath in H. ok_step H. destruct v as [[b bs] cs]. destruct (pathBlock_wf _ _ _ _ _ Hs E) as (H1 & H2 & H3).
  ok_step H. pose proof (RevertBlock_proofs _ _ _ _ H1 H2 E0) as Hr.
  apply (collect_loop typed_txn identity (fun _ => false)) in H as [Ha Hb]; [|intros x y Hx Hy|done|constructor].
  - split; [done|]. rewrite Hb. cbn. f_equal. clear. induction txns as [|x l IH]; [done|]. cbn. by rewrite IH.
  - eapply update_or_fail_sound; [apply revert_sound; exact Hr|exact Hx|exact Hy].
Qed.

(** The transactions of the block at [index]. *)
Definition confirms (s : St) (index : ChainIndex) (id : TransactionID) : bool :=
  match blockAndParent s (ci_ID index) with
  | Ok (Some (b, _, _)) => bool_decide (id ∈ ids (V2Transactions b))
  | _ => false
  end.

Lemma applyPath_same m index txns out : typed_store (m_store m) -> Forall typed_txn txns -> applyPath m index txns = Ok out ->
  Forall typed_txn out /\ same out = List.filter (fun k => negb (confirms (m_store m) index k.1)) (same txns).
Proof.
  intros Hs Ht H. unfold applyPath in H. ok_step H. destruct v as [[b bs] cs]. destruct (pathBlock_wf _ _ _ _ _ Hs E) as (H1 & H2 & H3).
  ok_step H. ok_step H. destruct v0 as [cs' cau].
  destruct (ApplyBlock_proofs _ _ _ _ _ _ ltac:(unfold wf_State in H3; by destruct_and? H3) H1 H2 E1) as (Ha & Hsc & Hsf).
  pose proof (ApplyBlock_height _ _ _ _ _ _ E1) as Hh.
  set (cb := list_to_set (ids (V2Transactions b)) : gset (list Z)) in H. cbv zeta in H.
  apply (collect_loop typed_txn identity (fun txn => bool_decide (V2Transaction_ID txn ∈ cb))) in H as [Hx Hy];
    [|intros x y Hx Hy|done|constructor].
  - split; [done|]. rewrite Hy. cbn [map app]. pose (sk := fun id : list Z => bool_decide (id ∈ cb)). etransitivity; [apply (filter_key identity (fun k => negb (sk k.1)))|].
    apply List.filter_ext. intros [id c]. cbn [fst]. f_equal. unfold sk, confirms, pathBlock in *. destruct (blockAndParent _ _) as [[[[b' [bs'|]] cs0]|]| |]; try done.
    cbn [mbind outcome_bind] in E. ok_step E. injection E as <- <- <-. apply bool_decide_ext. subst cb. by rewrite elem_of_list_to_set.
  - destruct (update_or_fail_sound (ApplyUpdate_UpdateElementProof cau) _ _ _ (apply_sound _ Ha) ltac:(apply confirm_typed; [exact Hh| |exact Hx];
      intros id e; exact (created_ok _ _ id e Hsc Hsf)) Hy) as [H4 H5]. split; [exact H4|]. by rewrite H5, identity_confirm.
Qed.

(** Some block of the path holds the transaction. *)
Definition confirmed_on (s : St) (path : list ChainIndex) (id : TransactionID) : bool := existsb (fun index => confirms s index id) path.

Lemma revert_all m path : typed_store (m_store m) -> forall i txns out, Forall typed_txn txns ->
  for_each path i txns (fun _ index updated => revertPath m index updated) = Ok out -> Forall typed_txn out /\ same out = same txns.
Proof.
  intros Hs. induction path as [|x path IH]; intros i txns out Ht H; cbn [for_each] in H; [by injection H as <-|].
  ok_step H. destruct (revertPath_same _ _ _ _ Hs Ht E) as [H1 H2]. rewrite <- H2. by eapply IH.
Qed.
Lemma apply_all m path : typed_store (m_store m) -> forall i txns out, Forall typed_txn txns ->
  for_each path i txns (fun _ index updated => applyPath m index updated) = Ok out ->
  Forall typed_txn out /\ same out = List.filter (fun k => negb (confirmed_on (m_store m) path k.1)) (same txns).
Proof.
  intros Hs. induction path as [|x path IH]; intros i txns out Ht H; cbn [for_each] in H.
  - injection H as <-. split; [done|]. clear Ht. induction txns as [|y l IHl]; [done|]. cbn in *. by rewrite <- IHl.
  - ok_step H. destruct (applyPath_same _ _ _ _ Hs Ht E) as [H1 H2]. apply IH in H as [H3 H4]; [|done]. split; [done|].
    rewrite H4, H2. clear. induction (same txns) as [|id l IHl]; [done|]. cbn [List.filter].
    change (confirmed_on (m_store m) (x :: path) id.1) with (confirms (m_store m) x id.1 || confirmed_on (m_store m) path id.1).
    destruct (confirms (m_store m) x id.1); cbn [negb orb List.filter]; [exact IHl|]. destruct (negb _); [by f_equal|exact IHl].
Qed.
(** ** Proofs follow the path

    [follows m V revert apply W]: whatever the updates of the blocks of the path do to an element for which
    [V] holds, in the end [W] holds for it; likewise for the elements that the blocks of the path create. *)
Inductive follows (m : Manager St) : (StateElement -> Prop) -> list ChainIndex -> list ChainIndex -> (StateElement -> Prop) -> Prop :=
| follows_done V : follows m V [] [] V
| follows_revert V V' W index revert apply :
    (forall b bs cs cru e e', pathBlock m index = Ok (b, bs, cs) -> RevertBlock cs b bs = Ok cru ->
       V e -> RevertUpdate_UpdateElementProof cru (StateElement_Copy e) = Ok e' -> V' e') ->
    follows m V' revert apply W -> follows m V (index :: revert) apply W
| follows_apply V V' W index apply :
    (forall b bs cs t cs' cau e e', pathBlock m index = Ok (b, bs, cs) -> ApplyBlock cs b bs t = Ok (cs', cau) ->
       V e \/ (exists id se, created_elements (au_sces cau) (au_sfes cau) [] [] !! id = Some se /\ e = StateElement_Share se) ->
       ApplyUpdate_UpdateElementProof cau (StateElement_Copy e) = Ok e' -> V' e') ->
    follows m V' [] apply W -> follows m V [] (index :: apply) W.

Lemma collect_holds (f : V2Transaction -> outcome V2Transaction) (skip : V2Transaction -> bool) (V W : StateElement -> Prop) :
  (forall x y, f x = Ok y -> holds V x -> holds W y) -> forall l i acc out, Forall (holds V) l -> Forall (holds W) acc ->
  for_each l i acc (fun _ x acc => if skip x then Ok acc else y ← f x; Ok (acc ++ [y])) = Ok out -> Forall (holds W) out.
Proof.
  intros Hf. induction l as [|x l IH]; intros i acc out Hl Ha H; cbn [for_each] in H; [by injection H as <-|].
  apply Forall_cons in Hl as [Hx Hl]. destruct (skip x); [cbn [mbind outcome_bind] in H; by eapply IH|].
  destruct (f x) as [y| |] eqn:E; [|done|done]. cbn [mbind outcome_bind] in H. eapply IH; [done| |exact H].
  apply Forall_app_2; [done|]. constructor; [by eapply Hf|constructor].
Qed.
Lemma revert_holds m V W index revert apply txns out : follows m V (index :: revert) apply W -> Forall (holds V) txns -> revertPath m index txns = Ok out ->
  exists V', follows m V' revert apply W /\ Forall (holds V') out.
Proof.
  intros Hf Ht H. inversion Hf as [|? V1 ? ? ? ? Hstep Hrest|]; subst. exists V1. split; [done|]. unfold revertPath in H. ok_step H. destruct v as [[b bs] cs].
  ok_step H. eapply (collect_holds _ (fun _ => false) V V1); [|exact Ht|constructor|exact H].
  intros x y Hxy. eapply update_or_fail_holds; [exact Hxy|]. intros e e' He Hu. by eapply Hstep.
Qed.
Lemma apply_holds m V W index apply txns out : follows m V [] (index :: apply) W -> Forall (holds V) txns -> applyPath m index txns = Ok out ->
  exists V', follows m V' [] apply W /\ Forall (holds V') out.
Proof.
  intros Hf Ht H. inversion Hf as [| |? V1 ? ? ? Hstep Hrest]; subst. exists V1. split; [done|]. unfold applyPath in H. ok_step H. destruct v as [[b bs] cs].
  ok_step H. ok_step H. destruct v0 as [cs' cau]. cbv zeta in H. set (confirmed := created_elements _ _ _ _) in H.
  set (C := fun e => V e \/ exists id se, confirmed !! id = Some se /\ e = StateElement_Share se).
  eapply (collect_holds _ _ V V1); [|exact Ht|constructor|exact H]. intros x y Hxy Hx.
  eapply (update_or_fail_holds _ _ _ _ C); [exact Hxy|intros e e' He Hu; by eapply Hstep|].
  intros e He Ha. apply elems_confirm in He as [He|He]; [left; by apply Hx|by right].
Qed.
Lemma path_holds m revert apply V W txns txns1 txns2 : follows m V revert apply W -> Forall (holds V) txns ->
  for_each revert 0 txns (fun _ index updated => revertPath m index updated) = Ok txns1 ->
  for_each apply 0 txns1 (fun _ index updated => applyPath m index updated) = Ok txns2 -> Forall (holds W) txns2.
Proof.
  intros Hf Ht H1 H2. revert H1 H2. generalize 0%nat at 1 as i. generalize 0%nat as j. intros j i. revert i V txns Hf Ht.
  induction revert as [|x revert IH]; intros i V txns Hf Ht H1 H2; cbn [for_each] in H1.
  - injection H1 as <-. revert j V txns Hf Ht H2. induction apply as [|x apply IH]; intros j V txns Hf Ht H2; cbn [for_each] in H2.
    + injection H2 as <-. by inversion Hf; subst.
    + ok_step H2. destruct (apply_holds _ _ _ _ _ _ _ Hf Ht E) as (V' & Hf' & Ht'). by eapply IH.
  - ok_step H1. destruct (revert_holds _ _ _ _ _ _ _ _ Hf Ht E) as (V' & Hf' & Ht'). by eapply IH.
Qed.
Lemma copy_elems (txn : V2Transaction) : elems (V2Transaction_DeepCopy txn) = map StateElement_Copy (elems txn).
Proof. change (elems (put_elems txn (map StateElement_Copy (elems txn))) = map StateElement_Copy (elems txn)). apply elems_put, length_map. Qed.
Lemma updated_holds m txns from to upd V W revert apply : updateV2TransactionProofs m txns from to = Ok upd ->
  reorgPath (m_store m) from to 144 = Ok (revert, apply) -> follows m V revert apply W -> (forall e, V e -> V (StateElement_Copy e)) ->
  Forall (holds V) txns -> Forall (holds W) upd.
Proof.
  intros H Hp Hf Hc Ht. unfold updateV2TransactionProofs in H. ok_step H. destruct v as [basis|]; [|done]. ok_step H. ok_step H.
  destruct v0 as [r a]. apply wrap_err_ok in E1. rewrite Hp in E1. injection E1 as <- <-. ok_step H. ok_step H. injection H as <-.
  assert (Forall (holds W) v1) as Hv.
  { eapply path_holds; [exact Hf| |exact E1|exact E2]. apply Forall_map. eapply Forall_impl; [exact Ht|]. intros txn Hx e He Ha.
    rewrite copy_elems in He. apply (list_elem_of_fmap StateElement_Copy) in He as (e0 & -> & He0). apply Hc, Hx; [exact He0|exact Ha]. }
  destruct (_ && _); [|done]. apply Forall_map. eapply Forall_impl; [exact Hv|]. intros txn Hx e He. apply Hx.
  refine (elems_map_sci _ _ _ e He). intros i. cbv beta. by destruct (sci_unassigned i).
Qed.
Lemma ephemeral_heights txns h : is_u64 h -> Forall typed_txn txns ->
  Forall typed_txn (updateQdayEphemeralHeights txns h) /\ same (updateQdayEphemeralHeights txns h) = same txns.
Proof.
  intros Hh Ht. unfold updateQdayEphemeralHeights. split.
  - apply Forall_map. eapply Forall_impl; [exact Ht|]. intros txn. apply map_sci_typed. intros i Hi.
    destruct (sci_unassigned i); [by apply maturity_typed|done].
  - rewrite map_map. apply map_ext. intros txn. unfold identity. rewrite ID_map_sci, content_map_sci; [done|..]; intros i; by destruct (sci_unassigned i).
Qed.
Lemma updated_set m txns from to upd : typed_store (m_store m) -> Forall typed_txn txns ->
  updateV2TransactionProofs m txns from to = Ok upd ->
  exists revert apply, reorgPath (m_store m) from to 144 = Ok (revert, apply) /\ Forall typed_txn upd /\
    same upd = List.filter (fun k => negb (confirmed_on (m_store m) apply k.1)) (same txns).
Proof.
  intros Hs Ht H. unfold updateV2TransactionProofs in H. ok_step H. destruct v as [basis|]; [|done]. ok_step H. ok_step H.
  destruct v0 as [revert apply]. apply wrap_err_ok in E1. ok_step H. ok_step H. injection H as <-. exists revert, apply. split; [done|].
  assert (Forall typed_txn (map V2Transaction_DeepCopy txns)) as Hc.
  { apply Forall_map. eapply Forall_impl; [exact Ht|]. intros txn Hx. apply wf_typed, Hx. }
  destruct (revert_all _ _ Hs _ _ _ Hc E2) as [H1 H2]. destruct (apply_all _ _ Hs _ _ _ H1 E3) as [H3 H4].
  assert (same v1 = List.filter (fun k => negb (confirmed_on (m_store m) apply k.1)) (same txns)) as H5.
  { rewrite H4, H2. rewrite map_map. f_equal. apply map_ext, identity_copy. }
  destruct (_ && _); [|done]. destruct (ephemeral_heights v1 _ (u64_range (ci_Height to + 1)) H3) as [H6 H7]. split; [done|]. by rewrite H7.
Qed.

Lemma filter_sublist {A} (f : A -> bool) l : List.filter f l `sublist_of` l.
Proof. induction l as [|x l IH]; [done|]. cbn. destruct (f x); by constructor. Qed.
Lemma updated_sublist m txns from to upd : typed_store (m_store m) -> Forall typed_txn txns ->
  UpdateV2TransactionSet m txns from to = Ok upd -> Forall typed_txn upd /\ same upd `sublist_of` same txns.
Proof.
  intros Hs Ht H. unfold UpdateV2TransactionSet in H. destruct (bool_decide _); [by injection H as <-|].
  destruct (updated_set _ _ _ _ _ Hs Ht H) as (r & a & _ & H1 & ->). split; [done|apply filter_sublist].
Qed.

(** C25: [UpdateV2TransactionSet] returns the transactions it was given, in order, less exactly
    those that a block of the path to the new tip confirmed.  Neither the identifier nor the
    contents of a transaction change, its inputs with their policies, signatures and preimages,
    its outputs, contracts, attestations, data and fee; only the leaf indices and proofs of its
    elements and the maturity heights of the outputs it spends do.  The proofs follow the path: take any notion of validity,
    [V] at the old tip and [W] at the new one, such that the updates of the blocks between, one after the other, take valid
    elements to valid ones, and leave valid the elements these blocks create, as they do for Merkle proofs in the accumulator; if all elements that the
    transactions refer to were valid at the old tip, those of the result are valid at the new one.
    Every transaction stays well-typed. *)
Theorem UpdateV2TransactionSet_same m txns from to upd : typed_store (m_store m) -> Forall typed_txn txns ->
  UpdateV2TransactionSet m txns from to = Ok upd ->
  exists revert apply, (from = to /\ revert = [] /\ apply = [] \/ reorgPath (m_store m) from to 144 = Ok (revert, apply)) /\ Forall typed_txn upd /\
    (let kept := List.filter (fun txn => negb (confirmed_on (m_store m) apply (V2Transaction_ID txn))) txns in
     map V2Transaction_ID upd = map V2Transaction_ID kept /\ map content upd = map content kept) /\
    forall V W, follows m V revert apply W -> (forall e, V e -> V (StateElement_Copy e)) -> Forall (holds V) txns -> Forall (holds W) upd.
Proof.
  intros Hs Ht H.
  assert (exists revert apply, (from = to /\ revert = [] /\ apply = [] \/ reorgPath (m_store m) from to 144 = Ok (revert, apply)) /\ Forall typed_txn upd /\
    same upd = List.filter (fun k => negb (confirmed_on (m_store m) apply k.1)) (same txns) /\
    forall V W, follows m V revert apply W -> (forall e, V e -> V (StateElement_Copy e)) -> Forall (holds V) txns -> Forall (holds W) upd)
    as (r & a & H1 & H2 & H3 & H4).
  { unfold UpdateV2TransactionSet in H. destruct (bool_decide _) eqn:E.
    - apply bool_decide_eq_true in E. injection H as <-. exists [], []. split_and!; [by left|done| |].
      + clear. induction txns as [|x l IH]; [done|]. cbn in *. by rewrite <- IH.
      + intros V W Hf _ Hv. by inversion Hf; subst.
    - destruct (updated_set _ _ _ _ _ Hs Ht H) as (r & a & H1 & H2 & H3). exists r, a. split_and!; [by right|done|done|].
      intros V W Hf Hc Hv. by eapply updated_holds. }
  exists r, a. rewrite <- (filter_key identity) in H3.
  pose proof (f_equal (map fst) H3) as E1. pose proof (f_equal (map snd) H3) as E2. rewrite !map_map in E1, E2.
  split_and!; [done|done|exact (conj E1 E2)|exact H4].
Qed.
End Paths.

(** ** A path of one block *)
#[local] Existing Instances Sample.crypto SampleStore.sample_sizes SampleStore.memory_store.
Module SampleUpdate.
(** The block confirms the parent of the second transaction. *)
Definition first : V2Transaction := Eval vm_compute in SampleChain.transfer1.
Definition parent : SiacoinElement := Eval vm_compute in SampleChain.change.
Definition second : V2Transaction :=
  SampleChain.unsigned parent [SampleChain.pay 199997] (sco_Value (SampleChain.pay 2)) [] SampleChain.no_policy.
Definition block : Block :=
  {| b_ParentID := SampleStore.gid; b_Nonce := 0; b_Timestamp := SampleChain.timestamp; b_MinerPayouts := [SampleChain.pay 11];
     b_Transactions := []; b_V2 := Some {| v2b_Height := 1; v2b_Commitment := zeroHash; v2b_Transactions := [first] |} |}.
Definition bid : BlockID := Eval vm_compute in Block_ID block.
Definition store : SampleStore.t :=
  {| SampleStore.states := SampleStore.states SampleStore.start;
     SampleStore.headers := <[bid := Block_Header block]> (SampleStore.headers SampleStore.start);
     SampleStore.blocks := <[bid := (block, Some SampleChain.no_supplement)]> (SampleStore.blocks SampleStore.start);
     SampleStore.best := <[1 := bid]> (SampleStore.best SampleStore.start) |}.
Definition mgr : Manager SampleStore.t := NewManager store SampleChain.tip ∅.
Definition from : ChainIndex := mk_index 0 SampleStore.gid.
Definition to : ChainIndex := mk_index 1 bid.
Definition updated : list V2Transaction := Eval vm_compute in
  match UpdateV2TransactionSet mgr [first; second] from to with Ok l => l | _ => [] end.
Lemma updated_ok : UpdateV2TransactionSet mgr [first; second] from to = Ok updated.
Proof. vm_cast_no_check (eq_refl (Ok updated)). Qed.
Lemma bid_new : bid <> SampleStore.gid.
Proof. by vm_compute. Qed.
Lemma store_typed : typed_store store.
Proof.
  intros id b bs cs. unfold blockAndParent. cbn [st_Block st_State SampleStore.memory_store store SampleStore.blocks SampleStore.states SampleStore.start mbind outcome_bind].
  destruct (_ !! id) as [[b' bs']|] eqn:E; [|by destruct (_ !! _)]. apply lookup_insert_Some in E as [[_ [= <- <-]]|[_ E]].
  - change (b_ParentID block) with SampleStore.gid. rewrite lookup_insert_ne by (intros E; by apply SampleStore.gid_nonzero).
    rewrite lookup_singleton_eq. intros H. injection H as <- <- <-. split_and!; [|by split; constructor|apply SampleStore.tip_good].
    constructor; [|constructor]. wf_ground.
  - apply lookup_singleton_Some in E as [_ [= <- <-]]. change (b_ParentID SampleChain.genesis) with zeroHash. rewrite lookup_insert_eq.
    intros H. injection H as <- <- <-. split_and!; [| |apply SampleStore.before_good]; wf_ground.
Qed.
End SampleUpdate.

Lemma UpdateV2TransactionSet_same_witness : exists revert apply,
  (SampleUpdate.from = SampleUpdate.to /\ revert = [] /\ apply = [] \/
   reorgPath (m_store SampleUpdate.mgr) SampleUpdate.from SampleUpdate.to 144 = Ok (revert, apply)) /\
  Forall (typed wf_V2Transaction) SampleUpdate.updated /\
  (let kept := List.filter (fun txn => negb (confirmed_on (m_store SampleUpdate.mgr) apply (V2Transaction_ID txn)))
     [SampleUpdate.first; SampleUpdate.second] in
   map V2Transaction_ID SampleUpdate.updated = map V2Transaction_ID kept /\ map content SampleUpdate.updated = map content kept) /\
  forall V W, follows SampleUpdate.mgr V revert apply W -> (forall e, V e -> V (StateElement_Copy e)) ->
    Forall (holds V) [SampleUpdate.first; SampleUpdate.second] -> Forall (holds W) SampleUpdate.updated.
Proof.
  apply (UpdateV2TransactionSet_same SampleUpdate.mgr [SampleUpdate.first; SampleUpdate.second] SampleUpdate.from SampleUpdate.to).
  - exact SampleUpdate.store_typed.
  - constructor; [apply wf_typed; wf_ground|]. constructor; [apply wf_typed; wf_ground|constructor].
  - exact SampleUpdate.updated_ok.
Defined.
