(* ===== verification/QdayMiner.v ===== *)
(** * [coreutils/qday/miner.go]: block candidates, nonce search and signing

    The clock, the entropy of a candidate and the cancellation of a context are arguments:
    a context is the list of what the looks at it find, [true] when it has been cancelled, and
    [false] once the list is used up.  The workers of [Mine] share a channel for one nonce and
    a cancellation; a schedule says whose turn it is. *)
From stdpp Require Import prelude strings gmap.
From Stdlib Require Import ZArith Lia.
From S2P Require Import Prelude TypesCurrency TypesData TypesEncoding TypesHash TypesPolicy.
From S2P Require Import ConsensusWork ConsensusState ConsensusMerkle ConsensusQday ConsensusMidState.
From S2P Require Import ConsensusValidateV1 ConsensusValidate ChainStore.

Abbreviation Context := (list bool).
Definition poll (ctx : Context) : bool * Context :=
  match ctx with [] => (false, []) | b :: ctx => (b, ctx) end.
Definition ctx_Err : string := "context canceled".

Definition emptyV2Transaction : V2Transaction :=
  {| v2tx_SiacoinInputs := []; v2tx_SiacoinOutputs := []; v2tx_SiafundInputs := [];
     v2tx_SiafundOutputs := []; v2tx_FileContracts := []; v2tx_FileContractRevisions := [];
     v2tx_FileContractResolutions := []; v2tx_Attestations := []; v2tx_ArbitraryData := [];
     v2tx_NewFoundationAddress := None; v2tx_MinerFee := Currency.ZeroCurrency |}.

Definition noWitness : bytes := zeros 32.

(** [t.UTC().Truncate(time.Second)] *)
Definition truncateSecond (t : Time) : Time := t - t mod Second.

Section Miner.
Context {crypto : Crypto} {edwards : Edwards25519}.

(** ** Candidates *)
Definition coinbaseMarker (miner : QdayKeys) (markerNonce : Z) : V2Transaction :=
  set_ArbitraryData emptyV2Transaction
    (QdayEnvelope_Encode {| qe_Kind := QdayCoinbase; qe_Nonce := markerNonce; qe_Keys := [miner];
                            qe_Witness := noWitness |}).
Definition workMarker (markerNonce : Z) : V2Transaction :=
  set_ArbitraryData emptyV2Transaction
    (QdayEnvelope_Encode {| qe_Kind := QdayMiningWork; qe_Nonce := markerNonce; qe_Keys := [];
                            qe_Witness := noWitness |}).

(** The intermediate state, the weight, the transactions taken and the payout so far. *)
Record selection := mkSel {
  sel_ms : MidState; sel_weight : Z; sel_txns : list V2Transaction; sel_payout : Currency }.

Definition consider (txn : V2Transaction) (acc : selection) : outcome selection :=
  let w := V2TransactionWeight txn in
  if MaxBlockWeight <? u64 (sel_weight acc + w) then Ok acc else
  match ValidateV2Transaction (sel_ms acc) txn with
  | Err _ => Ok acc
  | Panic p => Panic p
  | Ok _ =>
      ms ← ApplyV2Transaction (sel_ms acc) txn;
      payout ← Currency.Add (sel_payout acc) (v2tx_MinerFee txn);
      Ok (mkSel ms (u64 (sel_weight acc + w)) (sel_txns acc ++ [txn]) payout)
  end.

Definition CandidateWithNonce (s : State) (miner : QdayKeys) (txns : list V2Transaction)
    (timestamp : Time) (markerNonce : Z) : outcome Block :=
  reward ← BlockReward s;
  let address := SpendPolicy_Address (QdayKeys_Policy miner) in
  let marker := coinbaseMarker miner markerNonce in
  acc ← for_each txns 0 (mkSel (NewMidState s) (u64 (V2TransactionWeight marker + 128)) [marker] reward)
          (fun _ txn acc => consider txn acc);
  let transactions := sel_txns acc ++
    (if QdayV1Active s (u64 (ci_Height (s_Index s) + 1)) then [workMarker markerNonce] else []) in
  Ok {| b_ParentID := ci_ID (s_Index s); b_Nonce := 0; b_Timestamp := truncateSecond timestamp;
        b_MinerPayouts := [{| sco_Value := sel_payout acc; sco_Address := address |}];
        b_Transactions := [];
        b_V2 := Some {| v2b_Height := u64 (ci_Height (s_Index s) + 1);
                        v2b_Commitment := Commitment s address [] transactions;
                        v2b_Transactions := transactions |} |}.

(** [entropy] is what [rand.Read] returned. *)
Definition Candidate (s : State) (miner : QdayKeys) (txns : list V2Transaction) (timestamp : Time)
    (entropy : bytes) : outcome Block :=
  CandidateWithNonce s miner txns timestamp (le_decode (to_array 8 entropy)).

(** ** The nonce search *)
Record worker := mkWorker { wk_nonce : Z; wk_pending : Z; wk_done : bool }.
Record mining := mkMining {
  mn_workers : list worker; mn_found : option Z; mn_cancelled : bool; mn_hashes : Z }.

Definition start_mining (threads : nat) (factor : Z) : mining :=
  mkMining (map (fun i => mkWorker (u64 (Z.of_nat i * factor)) 0 false) (seq 0 threads)) None false 0.

Definition set_nonce (bh : BlockHeader) (nonce : Z) : BlockHeader :=
  {| bh_ParentID := bh_ParentID bh; bh_Nonce := nonce; bh_Timestamp := bh_Timestamp bh;
     bh_Commitment := bh_Commitment bh |}.

(** One round of the loop of a worker, with the step [threads * factor].  The first nonce
    that is found fills the channel and cancels the others; a worker looks for the
    cancellation every 1024 hashes. *)
Definition worker_round (bh : BlockHeader) (target : BlockID) (step : Z) (i : nat) (m : mining) : mining :=
  match mn_workers m !! i with
  | None => m
  | Some w =>
      if wk_done w then m else
      let pending := u64 (wk_pending w + 1) in
      if 0 <=? CmpWork (BlockHeader_ID (set_nonce bh (wk_nonce w))) target then
        mkMining (<[i := mkWorker (wk_nonce w) pending true]> (mn_workers m))
          (Some (default (wk_nonce w) (mn_found m))) true (u64 (mn_hashes m + pending))
      else
        let nonce := u64 (wk_nonce w + step) in
        if pending =? 1024 then
          mkMining (<[i := mkWorker nonce 0 (mn_cancelled m)]> (mn_workers m))
            (mn_found m) (mn_cancelled m) (u64 (mn_hashes m + pending))
        else
          mkMining (<[i := mkWorker nonce pending false]> (mn_workers m))
            (mn_found m) (mn_cancelled m) (mn_hashes m)
  end.

(** What happens next: a round of a worker, or the caller's context is cancelled. *)
Inductive turn := Round (i : nat) | CancelMining.
Definition mining_turn (bh : BlockHeader) (target : BlockID) (step : Z) (m : mining) (t : turn) : mining :=
  match t with
  | Round i => worker_round bh target step i m
  | CancelMining => mkMining (mn_workers m) (mn_found m) true (mn_hashes m)
  end.

Definition block_nonce (b : Block) (nonce : Z) : Block :=
  {| b_ParentID := b_ParentID b; b_Nonce := nonce; b_Timestamp := b_Timestamp b;
     b_MinerPayouts := b_MinerPayouts b; b_Transactions := b_Transactions b; b_V2 := b_V2 b |}.

(** The block with the nonce found and the hashes counted; [out_of_fuel] when the schedule
    ends before the workers have. *)
Definition Mine (s : State) (b : Block) (threads : Z) (schedule : list turn) : outcome (Block * Z) :=
  if (threads <? 1) || (256 <? threads) then Err "threads must be 1..256" else
  target ← PoWTarget s;
  let factor := NonceFactor s in
  let m := foldl (mining_turn (Block_Header b) target (u64 (threads * factor)))
             (start_mining (Z.to_nat threads) factor) schedule in
  if forallb wk_done (mn_workers m) then
    match mn_found m with
    | Some nonce => Ok (block_nonce b nonce, mn_hashes m)
    | None => Err ctx_Err
    end
  else out_of_fuel.

(** ** Work and signatures of a transaction *)
Definition set_Nonce (e : QdayEnvelope) (nonce : Z) : QdayEnvelope :=
  {| qe_Kind := qe_Kind e; qe_Nonce := nonce; qe_Keys := qe_Keys e; qe_Witness := qe_Witness e |}.

(** [for !QdayWorkValid(intent, e.Nonce, bits) { ... }], at most [fuel] rounds. *)
Fixpoint searchWork (fuel : nat) (ctx : Context) (intent : Hash256) (bits nonce : Z) : outcome (Z * Context) :=
  if QdayWorkValid intent nonce bits then Ok (nonce, ctx) else
  match fuel with
  | O => out_of_fuel
  | S fuel =>
      let nonce := u64 (nonce + 1) in
      if nonce mod 1024 =? 0 then
        let '(done, ctx) := poll ctx in
        if done then Err ctx_Err else searchWork fuel ctx intent bits nonce
      else searchWork fuel ctx intent bits nonce
  end.

Definition PrepareTransactionWork (fuel : nat) (ctx : Context) (s : State) (txn : V2Transaction)
    : outcome (V2Transaction * Context) :=
  e ← ParseQdayEnvelope (v2tx_ArbitraryData txn);
  if QdayActive s (u64 (ci_Height (s_Index s) + 1)) then
    intent ← QdayWorkIntent s txn;
    '(nonce, ctx) ← searchWork fuel ctx intent (match n_Qday (s_Network s) with Some p => qd_DefendBits p | None => 0 end)
                      (qe_Nonce e);
    Ok (set_ArbitraryData txn (QdayEnvelope_Encode (set_Nonce e nonce)), ctx)
  else Ok (txn, ctx).

Definition set_SiacoinInputs (txn : V2Transaction) (l : list V2SiacoinInput) : V2Transaction :=
  {| v2tx_SiacoinInputs := l; v2tx_SiacoinOutputs := v2tx_SiacoinOutputs txn;
     v2tx_SiafundInputs := v2tx_SiafundInputs txn; v2tx_SiafundOutputs := v2tx_SiafundOutputs txn;
     v2tx_FileContracts := v2tx_FileContracts txn;
     v2tx_FileContractRevisions := v2tx_FileContractRevisions txn;
     v2tx_FileContractResolutions := v2tx_FileContractResolutions txn;
     v2tx_Attestations := v2tx_Attestations txn; v2tx_ArbitraryData := v2tx_ArbitraryData txn;
     v2tx_NewFoundationAddress := v2tx_NewFoundationAddress txn;
     v2tx_MinerFee := v2tx_MinerFee txn |}.
Definition with_witness (sp : SatisfiedPolicy) (i : V2SiacoinInput) : V2SiacoinInput :=
  {| v2sci_Parent := v2sci_Parent i; v2sci_SatisfiedPolicy := sp |}.

Definition SignTransfer (fuel : nat) (ctx : Context) (s : State) (txn : V2Transaction)
    (keys : QdayPrivateKeys) : outcome (V2Transaction * Context) :=
  '(txn, ctx) ← PrepareTransactionWork fuel ctx s txn;
  let '(done, ctx) := poll ctx in
  if done : bool then Err ctx_Err else
  sp ← QdayPrivateKeys_Sign keys (InputSigHash s txn);
  Ok (set_SiacoinInputs txn (map (with_witness sp) (v2tx_SiacoinInputs txn)), ctx).

Definition SignAtomicSwapClaim (fuel : nat) (ctx : Context) (s : State) (txn : V2Transaction)
    (swap : QdayAtomicSwap) (keys : option QdayPrivateKeys) (secret : bytes) : outcome (V2Transaction * Context) :=
  match v2tx_SiacoinInputs txn with
  | [_] =>
      '(txn, ctx) ← PrepareTransactionWork fuel ctx s txn;
      witness ← Swap_Claim swap (InputSigHash s txn) keys secret;
      Ok (set_SiacoinInputs txn (map (with_witness witness) (v2tx_SiacoinInputs txn)), ctx)
  | _ => Err "atomic-swap claim must spend exactly one input"
  end.

Definition SignAtomicSwapRefund (fuel : nat) (ctx : Context) (s : State) (txn : V2Transaction)
    (swap : QdayAtomicSwap) (keys : option QdayPrivateKeys) : outcome (V2Transaction * Context) :=
  match v2tx_SiacoinInputs txn with
  | [_] =>
      '(txn, ctx) ← PrepareTransactionWork fuel ctx s txn;
      witness ← RefundSpend swap (InputSigHash s txn) keys;
      Ok (set_SiacoinInputs txn (map (with_witness witness) (v2tx_SiacoinInputs txn)), ctx)
  | _ => Err "atomic-swap refund must spend exactly one input"
  end.
End Miner.
