(* ===== verification/QdayMinerSpec.v ===== *)
(** * What the miner builds, consensus accepts

    The candidate of [CandidateWithNonce] over any list of transactions, with a nonce found by
    [Mine], passes [ValidateBlock]; the workers search disjoint nonces; prepared work and
    signatures satisfy the checks they are made for. *)
From stdpp Require Import prelude strings gmap.
From Stdlib Require Import ZArith Lia.
From S2P Require Import Prelude TypesCurrency TypesData TypesEncoding TypesHash TypesPolicy.
From S2P Require Import ConsensusWork ConsensusState ConsensusMerkle ConsensusQday ConsensusQdaySpec.
From S2P Require Import ConsensusMidState ConsensusMidStateSpec ConsensusApply ConsensusValidateV1 ConsensusValidate.
From S2P Require Import ConsensusEnvelopeSpec ConsensusValidateSpec ConsensusBlockSpec ConsensusPanicSpec.
From S2P Require Import ChainStore QdayMiner SampleCrypto ChainQday SampleChain.

(** ** Loops *)
Lemma for_each_ext_at {A St} (l : list A) i (s : St) f g :
  (forall j x t, l !! j = Some x -> f (i + j)%nat x t = g (i + j)%nat x t) -> for_each l i s f = for_each l i s g.
Proof.
  revert i s. induction l as [|x l IH]; intros i s H; [done|]. cbn [for_each].
  pose proof (H 0%nat x s eq_refl) as E. rewrite Nat.add_0_r in E. rewrite E.
  destruct (g i x s) as [t| |]; [|done|done]. cbn [mbind outcome_bind]. apply IH. intros j y u Hj.
  specialize (H (Datatypes.S j) y u Hj). by rewrite Nat.add_succ_r in H.
Qed.
Lemma for_each_shift {A St} (l : list A) i j (s : St) (f : A -> St -> outcome St) :
  for_each l i s (fun _ x t => f x t) = for_each l j s (fun _ x t => f x t).
Proof.
  revert i j s. induction l as [|x l IH]; intros i j s; [done|]. cbn [for_each].
  destruct (f x s) as [t| |]; cbn [mbind outcome_bind]; auto.
Qed.

Section Candidate.
Context {crypto : Crypto} {edwards : Edwards25519}.

(** ** Application is total on plain transactions *)
Abbreviation indexed := (diffs_ok (fun _ => True)).

Lemma spend_total ms sce txid : indexed ms -> is_Ok (spendSiacoinElement ms sce txid).
Proof.
  intros H. unfold spendSiacoinElement.
  match goal with |- context [modify_sced ms ?i ?f] => destruct (modify_sced_total _ ms i f H) as [ms' ->] end. by eexists.
Qed.
Lemma for_each_total {A St} (I : St -> Prop) (l : list A) i s body :
  I s -> (forall j x t, I t -> exists t', body j x t = Ok t' /\ I t') -> exists s', for_each l i s body = Ok s' /\ I s'.
Proof.
  revert i s. induction l as [|x l IH]; intros i s Hs Hb; [by exists s|]. cbn [for_each].
  destruct (Hb i x s Hs) as (t & -> & Ht). by apply IH.
Qed.
Lemma ApplyV2Transaction_total ms txn : isQday (ms_base ms) = true -> qdayUnsupported txn = false -> indexed ms ->
  exists ms', ApplyV2Transaction ms txn = Ok ms' /\ indexed ms'.
Proof.
  intros Hq Hu Hi. rewrite ApplyV2Transaction_plain by done.
  set (ms0 := if _ && _ then _ else _).
  assert (indexed ms0 /\ isQday (ms_base ms0) = true) as H0 by (subst ms0; destruct (_ && _); [by destruct Hi|done]).
  destruct (for_each_total (fun ms => indexed ms /\ isQday (ms_base ms) = true) (v2tx_SiacoinInputs txn) 0 ms0
    (fun _ sci ms => spendSiacoinElement ms (SiacoinElement_Share (v2sci_Parent sci)) (V2Transaction_ID txn)) H0)
    as (ms1 & -> & H1 & Hq1).
  { intros j sci t [Ht Hqt]. destruct (spend_total t (SiacoinElement_Share (v2sci_Parent sci)) (V2Transaction_ID txn) Ht) as [t' E].
    exists t'. split; [exact E|]. split; [by eapply spend_diffs|]. by rewrite (fr_base _ _ (proj1 (spend_frame _ _ _ _ E))). }
  cbn [mbind outcome_bind]. unfold create_all.
  destruct (for_each_total (fun ms => indexed ms /\ isQday (ms_base ms) = true) (v2tx_SiacoinOutputs txn) 0 ms1
    (fun i sco ms => createSiacoinElement ms (V2SiacoinOutputID (V2Transaction_ID txn) i) sco)) as (ms2 & E2 & H2 & _);
    [done| |by exists ms2].
  intros j sco t [Ht Hqt].
  assert (is_Ok (createSiacoinElement t (V2SiacoinOutputID (V2Transaction_ID txn) j) sco)) as [t' E']
    by (unfold createSiacoinElement; by eapply modify_sced_total).
  exists t'. split; [exact E'|]. split; [by eapply create_diffs|]. by rewrite (fr_base _ _ (create_frame _ _ _ _ E')).
Qed.

(** Applying a marker changes nothing. *)
Lemma apply_bare ms txn : bare txn -> ApplyV2Transaction ms txn = Ok ms.
Proof.
  intros [Hi Ho Hf Hu Hp]. rewrite ApplyV2Transaction_plain, Hi, Ho, Hp by done. by rewrite andb_false_r.
Qed.

(** ** Selecting transactions *)
Definition validated (ms : MidState) (txn : V2Transaction) : outcome MidState :=
  _ ← wrap_err "v2 transaction is invalid: " (ValidateV2Transaction ms txn); ApplyV2Transaction ms txn.
Definition accepts (s : State) (l : list V2Transaction) (ms : MidState) : Prop :=
  for_each l 0 (NewMidState s) (fun _ txn ms => validated ms txn) = Ok ms.
Abbreviation fees l := (sum_Z (map (fun txn => Currency.val (v2tx_MinerFee txn)) l)).
Abbreviation weights l := (sum_Z (map V2TransactionWeight l)).

Lemma sum_map_snoc {A} (f : A -> Z) l x : sum_Z (map f (l ++ [x])) = sum_Z (map f l) + f x.
Proof. rewrite map_app. unfold sum_Z. induction l as [|y l IH]; cbn in *; lia. Qed.

(** A transaction that validation cannot crash on. *)
Definition sane (txn : V2Transaction) : Prop := txn_typed txn /\ nominal_total txn < two128.

Context (s : State) (p : QdayParams) (Hs : qday_state s p) (Hmedian : quiet (medianTimestamp s)).
Context (marker : V2Transaction) (reward : Z).

Record selected (acc : selection) (l : list V2Transaction) : Prop := {
  se_txns : sel_txns acc = marker :: l;
  se_runs : accepts s l (sel_ms acc);
  se_base : ms_base (sel_ms acc) = s;
  se_indexed : indexed (sel_ms acc);
  se_weight : sel_weight acc = V2TransactionWeight marker + 128 + weights l;
  se_bound : sel_weight acc <= MaxBlockWeight;
  se_nonneg : 0 <= sel_weight acc;
  se_payout : sel_payout acc = Currency.of_Z (reward + fees l);
  se_fees : 0 <= reward + fees l < two128;
  se_sane : Forall sane l }.

Lemma weight_nonneg txn : 0 <= V2TransactionWeight txn.
Proof. apply zlen_nonneg. Qed.

Lemma consider_spec txn acc l : sane txn -> selected acc l -> reward + fees l + Currency.val (v2tx_MinerFee txn) < two128 ->
  exists acc', consider txn acc = Ok acc' /\ (selected acc' l \/ selected acc' (l ++ [txn])).
Proof.
  intros [Ht Hn] [Etx Hrun Hb Hi Hw Hwb Hw0 Hp Hf Hsane] Hfit. unfold consider.
  destruct (Z.ltb_spec MaxBlockWeight (u64 (sel_weight acc + V2TransactionWeight txn))) as [|Hle]; [exists acc; split; [done|by left]|].
  assert (qday_state (ms_base (sel_ms acc)) p) as Hs' by by rewrite Hb.
  pose proof (ValidateV2Transaction_quiet (sel_ms acc) p txn Hs' Ht ltac:(by rewrite Hb) Hn) as Hq.
  destruct (ValidateV2Transaction (sel_ms acc) txn) as [[]| |] eqn:Ev; [|exists acc; split; [done|by left]|done].
  destruct (ValidateV2Transaction_inv _ _ _ (qs_net _ _ Hs') Ev) as [[e He] _].
  destruct (ApplyV2Transaction_total (sel_ms acc) txn (qday_isQday _ _ (qs_net _ _ Hs')) (qt_plain _ _ _ _ He) Hi)
    as (ms' & Ea & Hi'). rewrite Ea. cbn [mbind outcome_bind].
  pose proof (Currency.ok_val _ (ty_fee _ Ht)) as Hfee.
  rewrite Hp, Currency.Add_ok by (try apply Currency.of_Z_ok; try apply Ht; rewrite Currency.val_of_Z; lia).
  cbn [mbind outcome_bind]. rewrite Currency.val_of_Z by lia.
  assert (V2TransactionWeight txn <= MaxBlockWeight) as Hmax.
  { rewrite (ValidateV2Transaction_eval _ p) in Ev by done. do 5 ok_step Ev. apply fail_if_ok in E3. by apply Z.ltb_ge in E3. }
  pose proof (weight_nonneg txn) as Hwn.
  assert (u64 (sel_weight acc + V2TransactionWeight txn) = sel_weight acc + V2TransactionWeight txn) as Eu
    by (apply u64_id; unfold is_u64, MaxBlockWeight in *; lia).
  eexists. split; [reflexivity|]. right. rewrite Eu in *. split; cbn [sel_ms sel_weight sel_txns sel_payout];
    rewrite ?sum_map_snoc; try lia.
  - by rewrite Etx.
  - unfold accepts in *. rewrite for_each_snoc, Hrun. cbn [mbind outcome_bind]. unfold validated. by rewrite Ev.
  - rewrite <- Hb. by eapply ApplyV2_base.
  - done.
  - f_equal. lia.
  - apply Forall_app. split; [done|]. by constructor.
Qed.

Lemma consider_all txns i acc l : Forall sane txns -> selected acc l -> reward + fees l + fees txns < two128 ->
  exists acc' l', for_each txns i acc (fun _ txn acc => consider txn acc) = Ok acc' /\ selected acc' l' /\
    (length l' <= length l + length txns)%nat.
Proof.
  intros Ht. revert i acc l. induction Ht as [|txn txns Hx Ht IH]; intros i acc l Hsel Hfit; [exists acc, l; cbn; split_and!; [done|done|lia]|].
  cbn [for_each]. assert (0 <= fees txns) as Hnn.
  { apply sum_Z_nonneg. intros y Hy. apply Currency.ok_val. rewrite Forall_forall in Ht. apply (Ht y Hy). }
  pose proof (Currency.ok_val _ (ty_fee _ (proj1 Hx))) as Hfee. cbn in Hfit. unfold sum_Z in *.
  destruct (consider_spec txn acc l Hx Hsel) as (acc' & -> & Hsel'); [unfold sum_Z; lia|]. cbn [mbind outcome_bind].
  assert (exists l1, selected acc' l1 /\ reward + fees l1 + fees txns < two128 /\ (length l1 <= S (length l))%nat) as (l1 & H1 & H2 & H3).
  { destruct Hsel' as [H|H]; eexists; (split; [exact H|]); rewrite ?sum_map_snoc, ?length_app; unfold sum_Z; cbn [length]; lia. }
  destruct (IH (S i) acc' l1 H1 H2) as (acc2 & l2 & E2 & Hsel2 & Hlen). exists acc2, l2. cbn [length]. split_and!; [exact E2|exact Hsel2|lia].
Qed.
End Candidate.

(** ** The nonce search *)
Section Mine.
Context {crypto : Crypto} (bh : BlockHeader) (target : BlockID) (factor step : Z).
Context (Hpos : 0 < factor) (Hdiv : (factor | two64)) (Hstep : (factor | step)).

Lemma divide_u64 x : (factor | x) -> (factor | u64 x).
Proof.
  intros H. unfold u64. rewrite Z.mod_eq by lia. apply Z.divide_sub_r; [done|]. by apply Z.divide_mul_l.
Qed.

(** A nonce that [ValidateHeader] accepts. *)
Definition solves (n : Z) : Prop :=
  is_u64 n /\ (factor | n) /\ 0 <= CmpWork (BlockHeader_ID (set_nonce bh n)) target.
Definition mining_inv (m : mining) : Prop :=
  Forall (fun w => is_u64 (wk_nonce w) /\ (factor | wk_nonce w)) (mn_workers m) /\
  match mn_found m with Some n => solves n | None => True end.

Lemma turn_inv m t : mining_inv m -> mining_inv (mining_turn bh target step m t).
Proof.
  intros [Hw Hf]. destruct t as [i|]; [|by split]. cbn [mining_turn]. unfold worker_round.
  destruct (mn_workers m !! i) as [w|] eqn:E; [|by split]. destruct (wk_done w); [by split|].
  destruct (Forall_lookup_1 _ _ _ _ Hw E) as [Hr Hd].
  destruct (Z.leb_spec 0 (CmpWork (BlockHeader_ID (set_nonce bh (wk_nonce w))) target)) as [Hok|_].
  - split; cbn [mn_workers mn_found]; [by apply Forall_insert|]. by destruct (mn_found m).
  - assert (is_u64 (u64 (wk_nonce w + step)) /\ (factor | u64 (wk_nonce w + step))) as Hn
      by (split; [apply u64_range|by apply divide_u64, Z.divide_add_r]).
    destruct (_ =? _); split; cbn [mn_workers mn_found]; try done; by apply Forall_insert.
Qed.
Lemma turns_inv m l : mining_inv m -> mining_inv (foldl (mining_turn bh target step) m l).
Proof. revert m. induction l as [|t l IH]; intros m Hm; [done|]. cbn [foldl]. by apply IH, turn_inv. Qed.
Lemma mining_start_inv threads : mining_inv (start_mining threads factor).
Proof.
  split; [|done]. cbn. apply Forall_map, Forall_forall. intros i _. cbn. split; [apply u64_range|].
  apply divide_u64. apply Z.divide_factor_r.
Qed.
End Mine.

Lemma Mine_solves {crypto : Crypto} s b threads schedule b' hashes : 0 < NonceFactor s -> (NonceFactor s | two64) ->
  Mine s b threads schedule = Ok (b', hashes) ->
  exists target n, PoWTarget s = Ok target /\ b' = block_nonce b n /\ solves (Block_Header b) target (NonceFactor s) n.
Proof.
  intros Hpos Hdiv H. unfold Mine in H. destruct (_ || _); [done|]. ok_step H. rename v into target.
  set (m := foldl _ _ schedule) in H. destruct (forallb wk_done (mn_workers m)); [|done].
  assert (mining_inv (Block_Header b) target (NonceFactor s) m) as [_ Hf].
  { apply turns_inv; [done|by apply divide_u64; [|apply Z.divide_factor_r]|by apply mining_start_inv]. }
  destruct (mn_found m) as [n|]; [|done]. injection H as <- _. by exists target, n.
Qed.

(** ** The candidate is valid *)

(** A v2 block needs no v1 supplement. *)
Definition emptySupplement : V1BlockSupplement := {| bs_Transactions := []; bs_ExpiringFileContracts := [] |}.

Section Valid.
Context {crypto : Crypto} {edwards : Edwards25519}.
Context (s : State) (p : QdayParams) (Hs : qday_state s p).

Definition marker_envelope (kind nonce : Z) (ks : list QdayKeys) : QdayEnvelope :=
  {| qe_Kind := kind; qe_Nonce := nonce; qe_Keys := ks; qe_Witness := noWitness |}.
Lemma marker_envelope_ok kind nonce ks : 1 <= kind <= 4 -> is_u64 nonce -> Forall key_ok ks -> zlen ks <= 128 ->
  envelope_ok (marker_envelope kind nonce ks).
Proof.
  intros H1 H2 H3 H4. split; try done. split; [reflexivity|]. apply Forall_replicate. done.
Qed.
Lemma coinbase_ok miner nonce v : key_ok miner -> is_u64 nonce ->
  coinbase_marker_ok (coinbaseMarker miner nonce) {| sco_Value := v; sco_Address := SpendPolicy_Address (QdayKeys_Policy miner) |} = true.
Proof.
  intros Hk Hn. unfold coinbase_marker_ok, coinbaseMarker. cbn [v2tx_ArbitraryData set_ArbitraryData].
  change (QdayEnvelope_Encode _) with (QdayEnvelope_Encode (marker_envelope QdayCoinbase nonce [miner])).
  rewrite Parse_Encode by (apply marker_envelope_ok; [by unfold QdayCoinbase|done|by constructor|done]).
  cbn [marker_envelope qe_Kind qe_Keys sco_Address]. by rewrite bool_decide_eq_true_2.
Qed.
Lemma work_ok nonce : is_u64 nonce -> work_marker_ok (workMarker nonce) = true.
Proof.
  intros Hn. unfold work_marker_ok, workMarker. cbn [v2tx_ArbitraryData set_ArbitraryData].
  change (QdayEnvelope_Encode _) with (QdayEnvelope_Encode (marker_envelope QdayMiningWork nonce [])).
  rewrite Parse_Encode by (apply marker_envelope_ok; [by unfold QdayMiningWork|done|by constructor|done]).
  cbn [marker_envelope qe_Kind qe_Keys qe_Witness]. by rewrite bool_decide_eq_true_2.
Qed.

Lemma marker_weight d : V2TransactionWeight (set_ArbitraryData emptyV2Transaction d) = zlen d.
Proof. unfold V2TransactionWeight. cbn -[zlen]. by rewrite app_nil_r. Qed.
Lemma coinbase_weight miner nonce : key_ok miner -> V2TransactionWeight (coinbaseMarker miner nonce) = 80.
Proof.
  intros Hk. unfold coinbaseMarker. rewrite marker_weight. unfold QdayEnvelope_Encode. cbn [qe_Keys qe_Kind qe_Nonce flat_map].
  unfold zlen. rewrite !length_app, !length_le_encode, (QdayKeys_Bytes_length _ Hk). reflexivity.
Qed.
Lemma work_weight nonce : V2TransactionWeight (workMarker nonce) = 16.
Proof.
  unfold workMarker. rewrite marker_weight. unfold QdayEnvelope_Encode. cbn [qe_Keys qe_Kind qe_Nonce flat_map].
  unfold zlen. rewrite !length_app, !length_le_encode. reflexivity.
Qed.

(** The weight of a block whose transactions stay below the limit. *)
Lemma fold_weights l w : 0 <= w -> w + sum_Z (map V2TransactionWeight l) < two64 ->
  foldl (fun w txn => u64 (w + V2TransactionWeight txn)) w l = w + sum_Z (map V2TransactionWeight l).
Proof.
  revert w. induction l as [|txn l IH]; intros w Hw Hlt; cbn [foldl]; [cbn; lia|].
  pose proof (weight_nonneg txn). cbn in Hlt. unfold sum_Z in *.
  assert (0 <= foldr Z.add 0 (map V2TransactionWeight l)) by (apply (sum_Z_nonneg V2TransactionWeight); intros; apply weight_nonneg).
  rewrite u64_id by (unfold is_u64; lia). rewrite IH by lia. cbn. lia.
Qed.

Lemma add_or_fail_ok sum c msg : Currency.ok sum -> Currency.ok c -> Currency.val sum + Currency.val c < two128 ->
  add_or_fail sum c msg = Ok (Currency.of_Z (Currency.val sum + Currency.val c)).
Proof.
  intros Hs' Hc Hlt. unfold add_or_fail. rewrite Currency.AddWithOverflow_spec by done.
  by rewrite (proj2 (Z.leb_gt _ _)) by lia.
Qed.
Lemma fees_loop_ok l i start : Currency.ok start -> (forall txn, txn ∈ l -> Currency.ok (v2tx_MinerFee txn)) ->
  Currency.val start + sum_Z (map (fun txn => Currency.val (v2tx_MinerFee txn)) l) < two128 ->
  for_each l i start (fun _ txn sum => add_or_fail sum (v2tx_MinerFee txn) "v2 transaction fees overflow") =
  Ok (Currency.of_Z (Currency.val start + sum_Z (map (fun txn => Currency.val (v2tx_MinerFee txn)) l))).
Proof.
  revert i start. induction l as [|txn l IH]; intros i start Hok Ht Hlt; cbn [for_each].
  { cbn. by rewrite Z.add_0_r, Currency.of_Z_val. }
  pose proof (Currency.ok_val _ Hok). pose proof (Currency.ok_val _ (Ht txn ltac:(by left))).
  assert (0 <= sum_Z (map (fun txn => Currency.val (v2tx_MinerFee txn)) l)).
  { apply sum_Z_nonneg. intros y Hy. apply Currency.ok_val, Ht. by right. }
  cbn in Hlt. unfold sum_Z in *.
  rewrite add_or_fail_ok by (done || (apply Ht; by left) || lia). cbn [mbind outcome_bind].
  rewrite IH; rewrite ?Currency.val_of_Z by lia; [do 2 f_equal; cbn; lia|apply Currency.of_Z_ok|intros y Hy; apply Ht; by right|lia].
Qed.

Definition work_tail (nonce : Z) : list V2Transaction :=
  if QdayV1Active s (childHeight s) then [workMarker nonce] else [].

(** A block of the shape the miner builds. *)
Context (miner : QdayKeys) (nonce work : Z) (l : list V2Transaction) (ms : MidState) (b : Block) (payout : Currency).
Context (Hkey : key_ok miner) (Hnonce : is_u64 nonce) (Hwork : is_u64 work) (Hchild : 0 < childHeight s).
Context (Hreward : Currency.ok (qd_Reward p)).
Abbreviation tail := (work_tail work).
Abbreviation address := (SpendPolicy_Address (QdayKeys_Policy miner)).
Context (Hb : b_V2 b = Some {| v2b_Height := childHeight s;
    v2b_Commitment := Commitment s address [] (coinbaseMarker miner nonce :: l ++ tail);
    v2b_Transactions := coinbaseMarker miner nonce :: l ++ tail |}).
Context (Hb1 : b_Transactions b = []) (Hpay : b_MinerPayouts b = [{| sco_Value := payout; sco_Address := address |}]).
Context (Hrun : accepts s l ms).

Lemma txns_eq : V2Transactions b = coinbaseMarker miner nonce :: l ++ tail.
Proof. unfold V2Transactions. by rewrite Hb. Qed.
Lemma coinbase_bare : bare (coinbaseMarker miner nonce).
Proof. eapply coinbase_marker_inv. by apply (coinbase_ok miner nonce payout). Qed.
Lemma work_bare : bare (workMarker work).
Proof. by apply work_marker_inv, work_ok. Qed.
Lemma tail_work : QdayV1Active s (childHeight s) = true -> tail = [workMarker work].
Proof. unfold work_tail. by intros ->. Qed.
Lemma tail_nil : QdayV1Active s (childHeight s) = false -> tail = [].
Proof. unfold work_tail. by intros ->. Qed.

Lemma candidate_markers : validateQdayBlockMarkers s b = Ok tt.
Proof.
  unfold validateQdayBlockMarkers. rewrite txns_eq, Hpay, Hb, Hb1. cbn [zlen length Z.of_nat Z.eqb negb fail_if mbind outcome_bind].
  rewrite coinbase_ok by done. cbn [negb fail_if mbind outcome_bind].
  destruct (QdayV1Active s (childHeight s)) eqn:E; [|done]. rewrite tail_work, last_snoc, work_ok by done. done.
Qed.

(** Every transaction between the markers is validated. *)
Lemma middle_not_marker j txn : l !! j = Some txn -> is_marker s b (1 + j) = false.
Proof.
  intros Hj. apply lookup_lt_Some in Hj. unfold is_marker. rewrite txns_eq. cbn [length]. rewrite length_app.
  destruct (QdayV1Active s (childHeight s)) eqn:E; [|by rewrite andb_false_r].
  rewrite tail_work by done. cbn [length]. apply andb_false_iff. right. apply orb_false_iff. split; [done|].
  rewrite andb_true_l. apply Nat.eqb_neq. lia.
Qed.

Lemma candidate_transactions : validateBlockTransactions s b emptySupplement (NewMidState s) = Ok ms.
Proof.
  unfold validateBlockTransactions. rewrite Hb1, txns_eq. cbn [for_each mbind outcome_bind].
  assert (is_marker s b 0 = true) as -> by (unfold is_marker; by rewrite (qday_isQday _ _ (qs_net _ _ Hs))).
  rewrite apply_bare by apply coinbase_bare. cbn [mbind outcome_bind].
  assert (for_each l 1 (NewMidState s) (fun i txn ms => if is_marker s b i then ApplyV2Transaction ms txn else
      _ ← wrap_err "v2 transaction is invalid: " (ValidateV2Transaction ms txn); ApplyV2Transaction ms txn) = Ok ms) as El.
  { rewrite (for_each_ext_at _ _ _ _ (fun _ txn ms => validated ms txn)); [by rewrite (for_each_shift _ 1 0)|].
    intros j txn t Hj. rewrite (middle_not_marker j txn Hj). done. }
  destruct (QdayV1Active s (childHeight s)) eqn:E; [|by rewrite tail_nil, app_nil_r by done].
  rewrite tail_work, for_each_snoc, El by done. cbn [mbind outcome_bind].
  assert (is_marker s b (1 + length l) = true) as ->; [|apply apply_bare, work_bare].
  unfold is_marker. rewrite (qday_isQday _ _ (qs_net _ _ Hs)), E, txns_eq, tail_work by done. cbn [length andb].
  rewrite length_app. cbn [length]. apply orb_true_iff. right. apply Nat.eqb_eq. lia.
Qed.

Lemma candidate_weight : 208 + sum_Z (map V2TransactionWeight l) <= MaxBlockWeight -> block_weight b <= MaxBlockWeight.
Proof.
  intros Hw. unfold block_weight. rewrite Hb1, txns_eq. cbn [foldl].
  assert (0 <= sum_Z (map V2TransactionWeight l)) by (apply sum_Z_nonneg; intros; apply weight_nonneg).
  assert (0 <= sum_Z (map V2TransactionWeight tail) <= 16) as Ht.
  { unfold work_tail. destruct (QdayV1Active _ _); cbn [map]; unfold sum_Z; cbn [foldr]; [rewrite work_weight|]; lia. }
  assert (sum_Z (map V2TransactionWeight (l ++ tail)) = sum_Z (map V2TransactionWeight l) + sum_Z (map V2TransactionWeight tail)) as E.
  { rewrite map_app. unfold sum_Z. clear. induction (map V2TransactionWeight l) as [|x r IH]; cbn in *; lia. }
  rewrite coinbase_weight by done. unfold MaxBlockWeight in *. rewrite (u64_id (0 + 80)) by (unfold is_u64; lia).
  rewrite fold_weights by lia. lia.
Qed.

Lemma tail_fees : sum_Z (map (fun txn => Currency.val (v2tx_MinerFee txn)) tail) = 0.
Proof. unfold work_tail. by destruct (QdayV1Active _ _). Qed.

Lemma candidate_payouts : (forall txn, txn ∈ l -> Currency.ok (v2tx_MinerFee txn)) ->
  reward_val s + sum_Z (map (fun txn => Currency.val (v2tx_MinerFee txn)) l) < two128 ->
  payout = Currency.of_Z (reward_val s + sum_Z (map (fun txn => Currency.val (v2tx_MinerFee txn)) l)) ->
  validateMinerPayouts s b = Ok tt.
Proof.
  intros Hl Hlt Ep. unfold validateMinerPayouts. destruct (BlockReward_qday s p (qs_net _ _ Hs) Hreward) as (c & -> & Hc & Hv).
  rewrite Hb1, Hb, Hpay. cbn [v2b_Transactions]. remember (coinbaseMarker miner nonce :: l ++ tail) as txns eqn:Etx.
  cbn [for_each mbind outcome_bind].
  assert (sum_Z (map (fun txn => Currency.val (v2tx_MinerFee txn)) (l ++ tail)) = sum_Z (map (fun txn => Currency.val (v2tx_MinerFee txn)) l)) as El.
  { rewrite map_app, <- (Z.add_0_r (sum_Z (map _ l))), <- tail_fees. unfold sum_Z. clear.
    induction (map _ l) as [|x r IH]; cbn in *; lia. }
  pose proof (Currency.ok_val _ Hc) as Hcv. rewrite Hv in Hcv.
  assert (0 <= sum_Z (map (fun txn => Currency.val (v2tx_MinerFee txn)) l)) as Hnn.
  { apply sum_Z_nonneg. intros y Hy. apply Currency.ok_val, Hl, Hy. }
  rewrite (fees_loop_ok txns); rewrite ?Etx.
  - cbn [map]. unfold sum_Z at 1. cbn [foldr]. fold (sum_Z (map (fun txn => Currency.val (v2tx_MinerFee txn)) (l ++ tail))).
    rewrite El, Hv. change (Currency.val (v2tx_MinerFee (coinbaseMarker miner nonce))) with 0. rewrite Z.add_0_l, <- Ep.
    cbn [mbind outcome_bind zlen length Z.of_nat Pos.of_succ_nat Z.eqb Pos.eqb negb fail_if sco_Value].
    rewrite (qday_isQday _ _ (qs_net _ _ Hs)), andb_false_r. cbn [fail_if mbind outcome_bind].
    assert (Currency.ok payout) as Hpo by (rewrite Ep; apply Currency.of_Z_ok).
    assert (Currency.val payout = reward_val s + sum_Z (map (fun txn => Currency.val (v2tx_MinerFee txn)) l)) as Evp
      by (rewrite Ep; apply Currency.val_of_Z; lia).
    rewrite add_or_fail_ok; [|apply Currency.zero_ok|done|change (Currency.val Currency.ZeroCurrency) with 0; lia].
    cbn [mbind outcome_bind]. change (Currency.val Currency.ZeroCurrency) with 0. rewrite Z.add_0_l, Currency.of_Z_val by done.
    change (zlen [_] =? 1) with true. cbn [negb fail_if mbind outcome_bind]. by rewrite bool_decide_eq_true_2.
  - done.
  - intros txn Hx. apply elem_of_cons in Hx as [->|Hx]; [apply Currency.zero_ok|].
    apply elem_of_app in Hx as [Hx|Hx]; [by apply Hl|]. unfold work_tail in Hx. destruct (QdayV1Active _ _); [|by apply not_elem_of_nil in Hx].
    apply list_elem_of_singleton in Hx as ->. apply Currency.zero_ok.
  - cbn [map]. unfold sum_Z at 1. cbn [foldr]. fold (sum_Z (map (fun txn => Currency.val (v2tx_MinerFee txn)) (l ++ tail))).
    rewrite El, Hv. change (Currency.val (v2tx_MinerFee (coinbaseMarker miner nonce))) with 0. lia.
Qed.

Lemma candidate_supplement : validateSupplement s b emptySupplement = Ok tt.
Proof. unfold validateSupplement. rewrite Hb1. cbn. by rewrite andb_false_r. Qed.

Lemma candidate_block_valid : ValidateOrphan s b = Ok tt -> ValidateBlock s b emptySupplement = Ok tt.
Proof.
  intros Ho. unfold ValidateBlock. rewrite (qday_isQday _ _ (qs_net _ _ Hs)), (proj2 (Z.ltb_lt _ _) Hchild). cbn [andb].
  rewrite candidate_markers, Ho, candidate_supplement, Hpay. cbn [mbind outcome_bind wrap_err].
  rewrite candidate_transactions, Hb. cbn [v2b_Commitment sco_Address]. rewrite Hb1, txns_eq.
  by rewrite bool_decide_eq_true_2.
Qed.
End Valid.

(** A found nonce completes the header. *)
Lemma solved_header {crypto : Crypto} s b n median target : b_ParentID b = ci_ID (s_Index s) -> medianTimestamp s = Ok median ->
  median <= b_Timestamp b -> 0 < NonceFactor s -> PoWTarget s = Ok target -> solves (Block_Header b) target (NonceFactor s) n ->
  ValidateHeader s (Block_Header (block_nonce b n)) = Ok tt.
Proof.
  intros Hp Hm Ht Hf Et (_ & Hd & Hw). unfold ValidateHeader. rewrite Hm.
  cbn [Block_Header block_nonce bh_ParentID b_ParentID bh_Timestamp b_Timestamp bh_Nonce b_Nonce].
  rewrite Hp, bool_decide_eq_true_2 by done. cbn [negb fail_if mbind outcome_bind].
  unfold time_Before. rewrite (proj2 (Z.ltb_ge _ _) Ht). cbn [fail_if mbind outcome_bind].
  unfold go_mod. destruct (Z.eqb_spec (NonceFactor s) 0) as [|_]; [lia|]. cbn [mbind outcome_bind].
  rewrite (proj2 (Z.rem_divide n (NonceFactor s) ltac:(lia)) Hd). cbn [Z.eqb negb fail_if mbind outcome_bind]. rewrite Et.
  cbn [mbind outcome_bind]. by rewrite (proj2 (Z.ltb_ge _ _)) by exact Hw.
Qed.

(** What the candidate holds, and that blocks of this shape are valid. *)
Section Assembled.
Context {crypto : Crypto} {edwards : Edwards25519} (s : State) (p : QdayParams) (miner : QdayKeys).
Context (Hs : qday_state s p) (Hr : Currency.ok (qd_Reward p)) (Hh : 0 < childHeight s) (Hk : key_ok miner).
Abbreviation address := (SpendPolicy_Address (QdayKeys_Policy miner)).

Lemma candidate_built txns timestamp median nonce : medianTimestamp s = Ok median -> Forall sane txns ->
  reward_val s + sum_Z (map (fun txn => Currency.val (v2tx_MinerFee txn)) txns) < two128 ->
  exists acc l, selected s (coinbaseMarker miner nonce) (reward_val s) acc l /\ (length l <= length txns)%nat /\
    CandidateWithNonce s miner txns timestamp nonce =
    Ok {| b_ParentID := ci_ID (s_Index s); b_Nonce := 0; b_Timestamp := truncateSecond timestamp;
          b_MinerPayouts := [{| sco_Value := sel_payout acc; sco_Address := address |}]; b_Transactions := [];
          b_V2 := Some {| v2b_Height := childHeight s;
                          v2b_Commitment := Commitment s address [] (coinbaseMarker miner nonce :: l ++ work_tail s nonce);
                          v2b_Transactions := coinbaseMarker miner nonce :: l ++ work_tail s nonce |} |}.
Proof.
  intros Hm Hsane Hfit. unfold CandidateWithNonce.
  destruct (BlockReward_qday s p (qs_net _ _ Hs) Hr) as (c & -> & Hc & Hcv). cbn [mbind outcome_bind].
  pose proof (Currency.ok_val _ Hc) as Hcb. rewrite Hcv in Hcb. rewrite (coinbase_weight miner nonce Hk).
  destruct (consider_all s p Hs ltac:(by rewrite Hm) (coinbaseMarker miner nonce) (reward_val s) txns 0
    (mkSel (NewMidState s) (u64 (80 + 128)) [coinbaseMarker miner nonce] c) []) as (acc & l & -> & Hsel & Hlen); [done| |cbn; lia|].
  { split; cbn [sel_txns sel_ms sel_weight sel_payout map]; try done; rewrite ?coinbase_weight by done;
      change (sum_Z []) with 0; change (u64 (80 + 128)) with 208; unfold MaxBlockWeight; try lia;
      first [apply NewMidState_diffs|by rewrite Z.add_0_r, <- Hcv, Currency.of_Z_val]. }
  cbn [mbind outcome_bind]. exists acc, l. split; [exact Hsel|]. split; [exact Hlen|]. by rewrite (se_txns _ _ _ _ _ Hsel).
Qed.

Lemma assembled_valid nonce work acc l b : is_u64 nonce -> is_u64 work ->
  selected s (coinbaseMarker miner nonce) (reward_val s) acc l ->
  b_MinerPayouts b = [{| sco_Value := sel_payout acc; sco_Address := address |}] -> b_Transactions b = [] ->
  b_V2 b = Some {| v2b_Height := childHeight s;
                   v2b_Commitment := Commitment s address [] (coinbaseMarker miner nonce :: l ++ work_tail s work);
                   v2b_Transactions := coinbaseMarker miner nonce :: l ++ work_tail s work |} ->
  ValidateHeader s (Block_Header b) = Ok tt -> ValidateBlock s b emptySupplement = Ok tt.
Proof.
  intros Hn Hw Hsel Hpay Hb1 Hv2 Hhd. destruct Hsel as [Etx Hrun Hb Hi Hwt Hwb Hw0 Hp Hfe Hsl].
  assert (forall txn, txn ∈ l -> Currency.ok (v2tx_MinerFee txn)) as Hl.
  { intros txn Hx. rewrite Forall_forall in Hsl. apply (Hsl txn Hx). }
  eapply (candidate_block_valid s p Hs miner nonce work l (sel_ms acc) b (sel_payout acc)); try done.
  unfold ValidateOrphan. rewrite (proj2 (Z.ltb_ge _ _)).
  2:{ apply (candidate_weight s miner nonce work l b Hk Hv2 Hb1). rewrite coinbase_weight in Hwt by done. lia. }
  rewrite (candidate_payouts s p Hs miner nonce work l b (sel_payout acc) Hr Hv2 Hb1 Hpay Hl) by (done || lia).
  cbn [fail_if mbind outcome_bind]. rewrite Hhd. cbn [wrap_err mbind outcome_bind].
  rewrite Hv2. cbn [v2b_Height]. by rewrite Z.eqb_refl.
Qed.
End Assembled.

(** C10: mined candidates are valid blocks.  On a QDAY network after genesis, for every list of
    well-typed transactions, valid or not, whose fees and the reward stay below [2^128], and a time that, cut to
    seconds, is not before the median timestamp, [CandidateWithNonce] returns a block, and whatever nonce [Mine]
    finds for it, under any number of threads and any interleaving of their rounds and of
    cancellation, [ValidateBlock] accepts the result: weight, payout, markers, commitment,
    header and every transaction that was taken over. *)
Theorem mined_candidate_valid {crypto : Crypto} {edwards : Edwards25519} (s : State) (p : QdayParams) (miner : QdayKeys)
    (txns : list V2Transaction) (timestamp median : Time) (nonce : Z) :
  qday_state s p -> Currency.ok (qd_Reward p) -> 0 < childHeight s -> key_ok miner -> is_u64 nonce ->
  0 < NonceFactor s -> (NonceFactor s | two64) ->
  medianTimestamp s = Ok median -> median <= truncateSecond timestamp ->
  Forall sane txns -> reward_val s + sum_Z (map (fun txn => Currency.val (v2tx_MinerFee txn)) txns) < two128 ->
  exists b, CandidateWithNonce s miner txns timestamp nonce = Ok b /\
    forall threads schedule b' hashes, Mine s b threads schedule = Ok (b', hashes) ->
      ValidateBlock s b' emptySupplement = Ok tt.
Proof.
  intros Hs Hr Hh Hk Hn Hf Hd Hm Htime Hsane Hfit.
  destruct (candidate_built s p miner Hs Hr Hk txns timestamp median nonce Hm Hsane Hfit) as (acc & l & Hsel & _ & ->).
  eexists. split; [reflexivity|]. intros threads schedule b' hashes HM.
  destruct (Mine_solves _ _ _ _ _ _ Hf Hd HM) as (target & n & Et & -> & Hsol).
  eapply (assembled_valid s p miner Hs Hr Hh Hk nonce nonce acc l); try done. by apply (solved_header s _ n median target).
Qed.

Section Witness.
Import SampleChain.
#[local] Existing Instances Sample.crypto SampleChain.edwards.

Lemma keys_ok : key_ok (qp_Public keys).
Proof.
  split_and!; try (vm_compute; reflexivity);
    (apply (bool_decide_unpack _); vm_cast_no_check I).
Qed.
Lemma transfer1_sane : sane transfer1.
Proof. split; [apply transfer1_typed|]. apply Z.ltb_lt. vm_cast_no_check (eq_refl true). Qed.

Lemma mined_candidate_valid_witness :
  exists b, CandidateWithNonce tip (qp_Public keys) [transfer1] (time_Add timestamp (2 * Second)) 7 = Ok b /\
    forall threads schedule b' hashes, Mine tip b threads schedule = Ok (b', hashes) ->
      ValidateBlock tip b' emptySupplement = Ok tt.
Proof.
  apply (mined_candidate_valid tip params (qp_Public keys) [transfer1] (time_Add timestamp (2 * Second)) timestamp 7).
  - exact sample_state.
  - apply currency_okb_ok. vm_compute. reflexivity.
  - vm_compute. reflexivity.
  - exact keys_ok.
  - by split.
  - vm_compute. reflexivity.
  - exists two64. reflexivity.
  - exact tip_median.
  - vm_compute. discriminate.
  - constructor; [exact transfer1_sane|constructor].
  - apply Z.ltb_lt. vm_cast_no_check (eq_refl true).
Defined.
End Witness.
