(* ===== verification/QdayService.v ===== *)
(** * [node/qday/service.go], [node/qday/rebroadcast.go]: the wallet service

    The service signs payments from the outputs the wallet index reports, hands them to the
    chain manager and keeps them for relaying until they confirm.  It shares the manager with
    other goroutines: [sv_others] lists what they do to it before each of the service's next
    calls.  The pages of the wallet index are an argument, as are the clock, the context and
    the results of file operations. *)
From stdpp Require Import prelude strings gmap.
From Stdlib Require Import ZArith Lia.
From S2P Require Import Prelude TypesCurrency TypesData TypesEncoding TypesHash TypesPolicy TypesQdayAddress.
From S2P Require Import TypesCurrencyText ConsensusWork ConsensusState ConsensusMerkle ConsensusQday ConsensusMidState.
From S2P Require Import ConsensusValidateV1 ConsensusValidate ChainStore ChainPool ChainManager ChainManagerPool QdayMiner.

#[export] Instance ChainIndex_eq_dec : EqDecision ChainIndex.
Proof. solve_decision. Defined.

(** What Go leaves open: the order of equal elements after [sort.Slice] and the order in which
    [range] visits a map. *)
Class GoOrder := {
  sort_Slice : forall {A}, (A -> A -> bool) -> list A -> list A;
  range_map : forall {A}, list A -> list A }.

Record UnspentSiacoinElement := { use_SiacoinElement : SiacoinElement; use_Confirmations : Z }.

Record pendingBroadcast := {
  pb_Basis : ChainIndex; pb_BroadcastedAt : Time; pb_Transactions : list V2Transaction;
  pb_confirmedAt : ChainIndex }.
Record storedPendingBroadcast := {
  sp_Basis : ChainIndex; sp_BroadcastedAt : Time; sp_Transactions : list bytes }.
Record pendingBroadcastFile := { pf_Version : Z; pf_Transactions : list storedPendingBroadcast }.

(** [node/qday/pool_payout.go]: what is known of a pool payout. *)
Record poolPayoutRecord := mkPayout {
  pr_RequestID : bytes; pr_Digest : bytes; pr_Basis : ChainIndex; pr_TransactionID : TransactionID;
  pr_Transaction : bytes; pr_Outputs : Z; pr_Status : string; pr_ConfirmedAt : ChainIndex; pr_CreatedAt : Time }.
Record poolPayoutFile := { ppf_Version : Z; ppf_Records : list poolPayoutRecord }.

(** [node/qday/mining.go]: block templates; texts are lists of bytes. *)
Record MiningTemplateTransaction := {
  mtt_Data : bytes; mtt_Hash : bytes; mtt_TxID : bytes; mtt_Depends : list Z; mtt_Fee : Z; mtt_SigOps : Z;
  mtt_TxType : bytes }.
Record MiningStratumTemplate := {
  mst_Block : bytes; mst_Coinbase1 : bytes; mst_Coinbase2 : bytes; mst_ExtraNonce1Size : Z; mst_ExtraNonce2Size : Z;
  mst_MerkleBranch : list bytes }.
Record MiningTemplateResponse := {
  mtr_Header : bytes; mtr_Commitment : Hash256; mtr_Transactions : list MiningTemplateTransaction;
  mtr_MinerPayout : list MiningTemplateTransaction; mtr_PreviousBlockHash : bytes; mtr_LongPollID : bytes;
  mtr_Target : bytes; mtr_Height : Z; mtr_Timestamp : Z; mtr_Version : Z; mtr_Bits : bytes; mtr_WorkNonce : Z;
  mtr_BlockRewardAtomic : bytes; mtr_FeesAtomic : bytes; mtr_PayoutAtomic : bytes; mtr_MempoolTransactions : Z;
  mtr_Stratum : MiningStratumTemplate }.
Record cachedMiningTemplate := { cmt_response : MiningTemplateResponse; cmt_created : Time }.

Definition rebroadcastPeriod : Duration := 120 * Second.
Definition maxRebroadcastPeriod : Duration := 48 * Hour.
Definition maxRebroadcastFile : Z := Z.shiftl 64 20.
Definition maxRebroadcastSets : Z := 1024.

Definition errNothingToDefend : string := "no outputs need DEFEND yet".
Definition errWalletSyncing : string := "wallet is synchronizing; retry shortly".

Inductive submitMode := submitTransfer | submitDefend | submitBurn | submitProof.
#[export] Instance submitMode_eq_dec : EqDecision submitMode.
Proof. solve_decision. Defined.

Record Service {St : Type} := mkService {
  sv_CM : Manager St; sv_others : list (Manager St -> Manager St);
  sv_keys : option QdayPrivateKeys; sv_public : Address;
  sv_lastError : string; sv_lastRelayError : string;
  sv_rebroadcasts : idmap pendingBroadcast; sv_rebroadcastWake : bool;
  sv_file : option pendingBroadcastFile;
  sv_poolPayouts : idmap poolPayoutRecord; sv_payoutFile : option poolPayoutFile;
  sv_miningTemplate : option cachedMiningTemplate }.
Arguments Service : clear implicits.

(** What saving a file meets: the length of its JSON text, whether the file got replaced and
    the error of the file operations. *)
Record Disk := { dk_json : pendingBroadcastFile -> Z; dk_replaced : bool; dk_error : option string }.

Section Service.
Context {crypto : Crypto} {edwards : Edwards25519} {St : Type} {store : Store St} {order : GoOrder}.
Abbreviation Mgr := (Manager St).
Abbreviation Svc := (Service St).

(** ** Methods

    A method changes the service and returns a value, an error or a panic. *)
Definition M (A : Type) : Type := Svc -> Svc * outcome A.
#[global] Instance M_ret : MRet M := fun A a s => (s, Ok a).
#[global] Instance M_bind : MBind M := fun A B f m s =>
  match m s with
  | (s, Ok a) => f a s
  | (s, Err e) => (s, Err e)
  | (s, Panic p) => (s, Panic p)
  end.
Definition lift {A} (o : outcome A) : M A := fun s => (s, o).
Definition try {A} (m : M A) : M (outcome A) := fun s =>
  match m s with
  | (s, Panic p) => (s, Panic p)
  | (s, r) => (s, Ok r)
  end.
Definition gets {A} (f : Svc -> A) : M A := fun s => (s, Ok (f s)).
Definition modify (f : Svc -> Svc) : M unit := fun s => (f s, Ok tt).

Definition with_CM (s : Svc) (m : Mgr) (others : list (Mgr -> Mgr)) : Svc :=
  mkService St m others (sv_keys s) (sv_public s) (sv_lastError s) (sv_lastRelayError s)
    (sv_rebroadcasts s) (sv_rebroadcastWake s) (sv_file s) (sv_poolPayouts s) (sv_payoutFile s) (sv_miningTemplate s).
Definition with_errors (s : Svc) (lastError lastRelayError : string) : Svc :=
  mkService St (sv_CM s) (sv_others s) (sv_keys s) (sv_public s) lastError lastRelayError
    (sv_rebroadcasts s) (sv_rebroadcastWake s) (sv_file s) (sv_poolPayouts s) (sv_payoutFile s) (sv_miningTemplate s).
Definition with_rebroadcasts (s : Svc) (r : idmap pendingBroadcast) (wake : bool)
    (file : option pendingBroadcastFile) : Svc :=
  mkService St (sv_CM s) (sv_others s) (sv_keys s) (sv_public s) (sv_lastError s) (sv_lastRelayError s)
    r wake file (sv_poolPayouts s) (sv_payoutFile s) (sv_miningTemplate s).
Definition with_payouts (s : Svc) (payouts : idmap poolPayoutRecord) (file : option poolPayoutFile) : Svc :=
  mkService St (sv_CM s) (sv_others s) (sv_keys s) (sv_public s) (sv_lastError s) (sv_lastRelayError s)
    (sv_rebroadcasts s) (sv_rebroadcastWake s) (sv_file s) payouts file (sv_miningTemplate s).
Definition with_template (s : Svc) (template : option cachedMiningTemplate) : Svc :=
  mkService St (sv_CM s) (sv_others s) (sv_keys s) (sv_public s) (sv_lastError s) (sv_lastRelayError s)
    (sv_rebroadcasts s) (sv_rebroadcastWake s) (sv_file s) (sv_poolPayouts s) (sv_payoutFile s) template.

(** A call of the manager, after what other goroutines did to it. *)
Definition call {A} (f : Mgr -> outcome (Mgr * A)) : M A := fun s =>
  let '(m, others) := match sv_others s with
                      | [] => (sv_CM s, [])
                      | g :: others => (g (sv_CM s), others)
                      end in
  match f m with
  | Ok (m, a) => (with_CM s m others, Ok a)
  | Err e => (with_CM s m others, Err e)
  | Panic p => (with_CM s m others, Panic p)
  end.
Definition query {A} (f : Mgr -> outcome A) : M A := call (fun m => a ← f m; Ok (m, a)).
Definition cm_TipState : M State := query (fun m => Ok (TipState m)).
Definition cm_Tip : M ChainIndex := query (fun m => Ok (Tip m)).
Definition cm_V2PoolTransactions : M (list V2Transaction) := call V2PoolTransactions.
Definition cm_BestIndex (height : Z) : M (option ChainIndex) := query (fun m => Manager_BestIndex m height).
Definition cm_Block (id : BlockID) : M (option Block) := query (fun m => Manager_Block m id).
Definition cm_UpdateV2TransactionSet (txns : list V2Transaction) (from to : ChainIndex) : M (list V2Transaction) :=
  query (fun m => UpdateV2TransactionSet m txns from to).
Definition cm_AddV2PoolTransactions (basis : ChainIndex) (txns : list V2Transaction) : M bool :=
  r ← call (fun m => AddV2PoolTransactions m basis txns);
  match r with
  | (known, None) => mret known
  | (_, Some e) => lift (Err e)
  end.

(** [errors.Is(err, syncer.ErrNoPeers)] cannot hold for the errors of the methods modelled. *)
Definition setError (e : string) : M unit := modify (fun s => with_errors s e (sv_lastRelayError s)).
Definition setRelayError (e : option string) : M unit :=
  modify (fun s => with_errors s (sv_lastError s) (default EmptyString e)).

(** ** Pending transactions on disk *)
Definition encodePendingTransaction (txn : V2Transaction) : bytes := V2Transaction_EncodeTo txn.

Definition decodePendingTransaction (b : bytes) : outcome V2Transaction :=
  _ ← fail_if ((zlen b =? 0) || (Z.shiftl 4 20 <? zlen b)) "invalid pending transaction size";
  '(txn, _) ← V2Transaction_DecodeFrom (NewBufDecoder b);
  _ ← fail_if (negb (bool_decide (b = encodePendingTransaction txn))) "non-canonical pending transaction";
  Ok txn.

Definition stored (set : pendingBroadcast) : storedPendingBroadcast :=
  {| sp_Basis := pb_Basis set; sp_BroadcastedAt := pb_BroadcastedAt set;
     sp_Transactions := map encodePendingTransaction (pb_Transactions set) |}.

(** The hexadecimal texts of identifiers compare like the identifiers. *)
Definition pending_file (rebroadcasts : idmap pendingBroadcast) : pendingBroadcastFile :=
  let sets := sort_Slice (fun a b => bytes_compare a.1 b.1 <? 0) (map_to_list rebroadcasts) in
  {| pf_Version := 1; pf_Transactions := map (fun p => stored p.2) sets |}.

Definition savePendingBroadcastsLocked (disk : Disk) : M unit :=
  rebroadcasts ← gets sv_rebroadcasts;
  let file := pending_file rebroadcasts in
  if (maxRebroadcastFile <? dk_json disk file) || (maxRebroadcastSets <? zlen (pf_Transactions file))
  then lift (Err "pending transaction storage limit reached") else
  _ ← modify (fun s => if dk_replaced disk
                       then with_rebroadcasts s (sv_rebroadcasts s) (sv_rebroadcastWake s) (Some file) else s);
  match dk_error disk with Some e => lift (Err e) | None => mret tt end.

(** The sets of a file, as [NewService] reads it at the time [now]. *)
Definition load_set (now : Time) (disk : storedPendingBroadcast) (sets : idmap pendingBroadcast)
    : outcome (idmap pendingBroadcast) :=
  if (sp_BroadcastedAt disk =? 0) || (maxRebroadcastPeriod <? time_Sub now (sp_BroadcastedAt disk)) ||
     (zlen (sp_Transactions disk) =? 0) then Ok sets else
  txns ← for_each (sp_Transactions disk) 0 [] (fun _ encoded txns =>
           txn ← wrap_err "invalid pending transaction: " (decodePendingTransaction encoded); Ok (txns ++ [txn]));
  match last txns with
  | None => index_out_of_range
  | Some txn =>
      Ok (<[V2Transaction_ID txn := {| pb_Basis := sp_Basis disk; pb_BroadcastedAt := sp_BroadcastedAt disk;
            pb_Transactions := txns; pb_confirmedAt := zeroIndex |}]> sets)
  end.
Definition loadPendingBroadcasts (now : Time) (file : option pendingBroadcastFile) : outcome (idmap pendingBroadcast) :=
  match file with
  | None => Ok ∅
  | Some file =>
      _ ← fail_if (negb (pf_Version file =? 1) || (maxRebroadcastSets <? zlen (pf_Transactions file)))
            "invalid pending transaction file";
      for_each (pf_Transactions file) 0 ∅ (fun _ disk sets => load_set now disk sets)
  end.

Definition rememberBroadcast (disk : Disk) (now : Time) (basis : ChainIndex) (txns : list V2Transaction) : M unit :=
  match last txns with
  | None => mret tt
  | Some txn =>
      let set := {| pb_Basis := basis; pb_BroadcastedAt := now;
                    pb_Transactions := map V2Transaction_DeepCopy txns; pb_confirmedAt := zeroIndex |} in
      _ ← modify (fun s => with_rebroadcasts s (<[V2Transaction_ID txn := set]> (sv_rebroadcasts s))
                             (sv_rebroadcastWake s) (sv_file s));
      r ← try (savePendingBroadcastsLocked disk);
      _ ← modify (fun s => with_rebroadcasts s (sv_rebroadcasts s) true (sv_file s));
      lift r
  end.

(** ** The wallet's outputs *)
Section Index.

(** [s.WM.AddressSiacoinOutputs(address, false, offset, limit)]: a page and its basis. *)
Context (AddressSiacoinOutputs : Address -> Z -> Z -> outcome (list UnspentSiacoinElement * ChainIndex)).

Definition spent_ids (pool : list V2Transaction) : gset (list Z) :=
  list_to_set (flat_map (fun txn => map (fun i => sce_ID (v2sci_Parent i)) (v2tx_SiacoinInputs txn)) pool).

(** [for offset := 0; ; offset += 500], at most [fuel] pages. *)
Fixpoint output_pages (fuel : nat) (cs : State) (pub : Address) (spent : gset (list Z)) (offset : Z)
    (result : list UnspentSiacoinElement) : outcome (list UnspentSiacoinElement) :=
  match fuel with
  | O => out_of_fuel
  | S fuel =>
      '(page, basis) ← AddressSiacoinOutputs pub offset 500;
      _ ← fail_if (negb (bool_decide (basis = s_Index cs))) errWalletSyncing;
      let result := result ++ filter (fun e => sce_ID (use_SiacoinElement e) ∉ spent) page in
      if zlen page <? 500 then Ok result else output_pages fuel cs pub spent (offset + 500) result
  end.

Definition outputsAtPool (fuel : nat) (cs : State) (pub : Address) (pool : list V2Transaction)
    : M (list UnspentSiacoinElement) :=
  result ← lift (output_pages fuel cs pub (spent_ids pool) 0 []);
  tip ← cm_Tip;
  if bool_decide (tip = s_Index cs) then mret result else lift (Err errWalletSyncing).

Definition outputs (fuel : nat) (cs : State) (pub : Address) : M (list UnspentSiacoinElement) :=
  pool ← cm_V2PoolTransactions; outputsAtPool fuel cs pub pool.

(** ** Building a payment *)
Definition qday_params (s : State) : outcome QdayParams :=
  match n_Qday (s_Network s) with Some p => Ok p | None => nil_dereference end.

(** The values that order the outputs of a payment; comparing needs at least two outputs. *)
Definition spend_height (cs : State) : Z := u64 (ci_Height (s_Index cs) + 2).
Definition sort_keys (cs : State) (mode : submitMode) (outs : list UnspentSiacoinElement)
    : outcome (list (Currency * UnspentSiacoinElement)) :=
  if bool_decide (mode = submitDefend) || (zlen outs <? 2) then Ok (map (fun o => (Currency.ZeroCurrency, o)) outs) else
  for_each outs 0 [] (fun _ o acc =>
    v ← QdayValue cs (use_SiacoinElement o) (spend_height cs); Ok (acc ++ [(v, o)])).
Definition spend_before (mode : submitMode) (a b : Currency * UnspentSiacoinElement) : bool :=
  let maturity x := sce_MaturityHeight (use_SiacoinElement x.2) in
  if bool_decide (mode = submitDefend) then maturity a <? maturity b else
  let cmp := Currency.Cmp a.1 b.1 in
  if negb (cmp =? 0) then 0 <? cmp else maturity a <? maturity b.

(** [mode == submitDefend] skips outputs whose shield still lasts. *)
Definition shielded (cs : State) (e : SiacoinElement) : outcome bool :=
  p ← qday_params cs;
  let start := Z.max (sce_MaturityHeight e) (s_QdayHeight cs) in
  Ok (u64 (ci_Height (s_Index cs) + Z.max 2 (qd_ShieldBlocks p / 4)) <? u64 (start + qd_ShieldBlocks p)).

Fixpoint fund (cs : State) (mode : submitMode) (policy : SpendPolicy) (required : Currency)
    (outs : list UnspentSiacoinElement) (total : Currency) (inputs : list V2SiacoinInput)
    : outcome (Currency * list V2SiacoinInput) :=
  match outs with
  | [] => Ok (total, inputs)
  | out :: outs =>
      let e := use_SiacoinElement out in
      v ← QdayValue cs e (spend_height cs);
      if Currency.IsZero v then fund cs mode policy required outs total inputs else
      skip ← (if bool_decide (mode = submitDefend) then
                if negb (QdayActive cs (u64 (ci_Height (s_Index cs) + 1))) then Err errNothingToDefend
                else shielded cs e
              else Ok false);
      if skip : bool then fund cs mode policy required outs total inputs else
      total ← Currency.Add total v;
      let inputs := inputs ++ [{| v2sci_Parent := e;
        v2sci_SatisfiedPolicy := {| sat_Policy := policy; sat_Signatures := []; sat_Preimages := [] |} |}] in
      if (zlen inputs =? 128) || (negb (bool_decide (mode = submitDefend)) && (0 <=? Currency.Cmp total required))
      then Ok (total, inputs) else fund cs mode policy required outs total inputs
  end.

(** [if change := total.Sub(amount).Sub(fee); !change.IsZero() { ... }] *)
Definition change_outputs (change : Currency) (self : Address) : list SiacoinOutput :=
  if Currency.IsZero change then [] else [{| sco_Value := change; sco_Address := self |}].

Definition payment_outputs (total amount fee : Currency) (payee self : Address) : outcome (list SiacoinOutput) :=
  change ← Currency.Sub total amount;
  change ← Currency.Sub change fee;
  Ok ({| sco_Value := amount; sco_Address := payee |} :: change_outputs change self).

(** The outputs and the envelope of each mode. *)
Definition pay (mode : submitMode) (total amount fee required : Currency) (to self : Address) (witness : option bytes)
    : outcome (list SiacoinOutput * QdayEnvelope) :=
  let transfer := {| qe_Kind := QdayTransfer; qe_Nonce := 0; qe_Keys := []; qe_Witness := noWitness |} in
  match mode with
  | submitProof =>
      _ ← fail_if (Currency.Cmp total fee <? 0) "insufficient confirmed balance to pay the proof fee";
      match witness with
      | None => nil_dereference
      | Some w =>
          change ← Currency.Sub total fee;
          Ok (change_outputs change self,
              {| qe_Kind := QdayCanaryProof; qe_Nonce := 0; qe_Keys := []; qe_Witness := w |})
      end
  | submitDefend =>
      _ ← fail_if (Currency.Cmp total fee <=? 0) errNothingToDefend;
      v ← Currency.Sub total fee;
      Ok ([{| sco_Value := v; sco_Address := self |}], transfer)
  | submitBurn =>
      _ ← fail_if (Currency.IsZero amount) "burn amount must be positive";
      _ ← fail_if (Currency.Cmp total required <? 0)
            "insufficient confirmed spendable balance (including fee); at most 128 inputs per burn";
      outs ← payment_outputs total amount fee VoidAddress self;
      Ok (outs, transfer)
  | submitTransfer =>
      _ ← QdayAddress_Validate to;
      _ ← fail_if (Currency.IsZero amount) "amount must be positive";
      _ ← fail_if (Currency.Cmp total required <? 0)
            "insufficient confirmed spendable balance (including fee); at most 128 inputs per send";
      outs ← payment_outputs total amount fee to self;
      Ok (outs, transfer)
  end.

(** From the outputs to the transaction before signing. *)
Definition build_payment (cs : State) (keys : QdayPrivateKeys) (mode : submitMode) (fee amount : Currency) (to : Address)
    (witness : option bytes) (outs : list UnspentSiacoinElement) : outcome V2Transaction :=
  keyed ← sort_keys cs mode outs;
  let outs := map snd (sort_Slice (spend_before mode) keyed) in
  let '(required, overflow) := Currency.AddWithOverflow amount fee in
  _ ← fail_if overflow "amount plus fee overflows";
  let policy := QdayKeys_Policy (qp_Public keys) in
  '(total, inputs) ← fund cs mode policy required outs Currency.ZeroCurrency [];
  '(outputs, envelope) ← pay mode total amount fee required to (SpendPolicy_Address policy) witness;
  Ok {| v2tx_SiacoinInputs := inputs; v2tx_SiacoinOutputs := outputs; v2tx_SiafundInputs := [];
        v2tx_SiafundOutputs := []; v2tx_FileContracts := []; v2tx_FileContractRevisions := [];
        v2tx_FileContractResolutions := []; v2tx_Attestations := [];
        v2tx_ArbitraryData := QdayEnvelope_Encode envelope; v2tx_NewFoundationAddress := None;
        v2tx_MinerFee := fee |}.

(** ** Submitting *)
Definition checkUnit (unit' : bytes) (state : State) : outcome unit :=
  if bool_decide (unit' = []) then Ok tt else
  units ← QdayUnits state (ci_Height (s_Index state));
  fail_if (negb (bool_decide (unit' = Currency_ExactString units)))
    "QDAY denomination changed; review the amount and fee again".

Definition is_proof (txn : V2Transaction) : bool :=
  match ParseQdayEnvelope (v2tx_ArbitraryData txn) with
  | Ok e => qe_Kind e =? QdayCanaryProof
  | _ => false
  end.
(** The identifier of the first proof in the pool, [None] for the empty text. *)
Definition pendingProof : M (option TransactionID) :=
  pool ← cm_V2PoolTransactions;
  mret (V2Transaction_ID <$> (snd <$> list_find (fun txn => is_proof txn = true) pool)).

Definition QdayKeys_String (k : QdayKeys) : bytes := QdayAddress_String (QdayKeys_Address k).

Definition submit_fee (rat_other : bytes -> option (Z * Z)) (cs : State) (mode : submitMode) (customFee : bytes)
    : outcome Currency :=
  fee ← Currency.Div64 Currency.HastingsPerSiacoin 1000;
  fee ← (if bool_decide (mode = submitProof) then p ← qday_params cs; Ok (qd_ProofFee p) else Ok fee);
  fee ← (if bool_decide (customFee = []) then Ok fee else
         units ← QdayUnits cs (ci_Height (s_Index cs));
         wrap_err "invalid transaction fee: " (ParseAmount rat_other customFee units));
  _ ← (if bool_decide (mode = submitProof)
       then p ← qday_params cs; fail_if (Currency.Cmp fee (qd_ProofFee p) <? 0) "fee is below the minimum proof publication fee"
       else Ok tt);
  Ok fee.

Definition check_proof (cs : State) (mode : submitMode) (witness : option bytes) : M unit :=
  if bool_decide (mode = submitProof) then
    match witness with
    | None => lift (Err "missing QDAY proof")
    | Some w =>
        _ ← lift (fail_if (negb (s_QdayHeight cs =? 0)) "a QDAY proof is already confirmed");
        p ← lift (qday_params cs);
        _ ← lift (fail_if (negb (VerifyQdayProof (qd_Canary p) w)) "solution does not solve this network's challenge");
        pending ← pendingProof;
        lift (fail_if (is_some pending) "a QDAY proof is already in the local mempool")
    end
  else mret tt.

(** The limits of the loops and the outside world of one submission: rounds of the work search,
    pages of the index, the clock, the disk and the number syntaxes of [big.Rat]. *)
Record Outside := { os_work : nat; os_pages : nat; os_now : Time; os_disk : Disk; os_rat : bytes -> option (Z * Z) }.

(** The signed transaction enters the pool and is kept for relaying. *)
Definition deliver (os : Outside) (cs : State) (unit' : bytes) (txn : V2Transaction) : M TransactionID :=
  current ← cm_TipState;
  _ ← lift (checkUnit unit' current);
  let basis := s_Index current in
  txns ← cm_UpdateV2TransactionSet [txn] (s_Index cs) basis;
  _ ← cm_AddV2PoolTransactions basis txns;
  r ← try (rememberBroadcast (os_disk os) (os_now os) basis txns);
  _ ← match r with
      | Err e => setError ("failed to save pending transaction for rebroadcast: " +:+ e)
      | _ => mret tt
      end;
  mret (V2Transaction_ID txn).

Definition submitReviewed (os : Outside) (ctx : Context) (from unit' customFee : bytes) (to : Address) (amount : Currency)
    (mode : submitMode) (witness : option bytes) : M TransactionID :=
  let '(done, ctx) := poll ctx in
  if done : bool then lift (Err ctx_Err) else
  keys ← gets sv_keys;
  match keys with
  | None => lift (Err "unlock your wallet first")
  | Some keys =>
      _ ← lift (fail_if (negb (bool_decide (from = [])) && negb (bool_decide (from = QdayKeys_String (qp_Public keys))))
                  "the active wallet changed; review the transaction again");
      cs ← cm_TipState;
      _ ← lift (checkUnit unit' cs);
      fee ← lift (submit_fee (os_rat os) cs mode customFee);
      _ ← check_proof cs mode witness;
      outs ← outputs (os_pages os) cs (QdayKeys_Address (qp_Public keys));
      txn ← lift (build_payment cs keys mode fee amount to witness outs);
      '(txn, ctx) ← lift (SignTransfer (os_work os) ctx cs txn keys);
      let '(done, ctx) := poll ctx in
      if done : bool then lift (Err ctx_Err) else
      deliver os cs unit' txn
  end.
Definition submitFor (os : Outside) (ctx : Context) (from : bytes) (to : Address) (amount : Currency)
    (mode : submitMode) (witness : option bytes) : M TransactionID :=
  submitReviewed os ctx from [] [] to amount mode witness.

Definition Transfer (os : Outside) (ctx : Context) (to : Address) (amount : Currency) (defend : bool) : M TransactionID :=
  submitFor os ctx [] to amount (if defend then submitDefend else submitTransfer) None.
Definition Burn (os : Outside) (ctx : Context) (amount : Currency) : M TransactionID :=
  submitFor os ctx [] VoidAddress amount submitBurn None.
Definition PublishProof (os : Outside) (ctx : Context) (witness : bytes) : M TransactionID :=
  submitFor os ctx [] VoidAddress Currency.ZeroCurrency submitProof (Some witness).
End Index.

(** ** Relaying what is pending

    [for range step]: back from an index that is not on the best chain, at most [n] blocks. *)
Fixpoint step_back (n : nat) (to next : ChainIndex) : M ChainIndex :=
  match n with
  | O => mret next
  | S n =>
      if ci_Height next =? 0 then lift (Err "pending transaction basis is outside this chain") else
      block ← cm_Block (ci_ID next);
      match block with
      | None => lift (Err "pending transaction basis is not available yet")
      | Some block =>
          let next := {| ci_Height := u64 (ci_Height next - 1); ci_ID := b_ParentID block |} in
          best ← cm_BestIndex (ci_Height next);
          if bool_decide (best = Some next) && (ci_Height next <=? ci_Height to) then mret next
          else step_back n to next
      end
  end.

Definition next_basis (from to : ChainIndex) : M ChainIndex :=
  best ← cm_BestIndex (ci_Height from);
  let onBest := bool_decide (best = Some from) in
  if onBest && (ci_Height from <? ci_Height to) then
    next ← cm_BestIndex (Z.min (u64 (ci_Height from + 72)) (ci_Height to));
    match next with
    | None => lift (Err "pending transaction is waiting for chain synchronization")
    | Some next => mret next
    end
  else if onBest && (ci_Height from =? ci_Height to) then mret to
  else step_back 72 to from.

(** [for from != to], at most [fuel] rounds; [done] is the context of the service. *)
Fixpoint updatePendingProofs (fuel : nat) (done : bool) (txns : list V2Transaction) (from to : ChainIndex)
    : M (list V2Transaction) :=
  if bool_decide (from = to) then mret txns else
  match fuel with
  | O => lift out_of_fuel
  | S fuel =>
      if done then lift (Err ctx_Err) else
      next ← next_basis from to;
      txns ← cm_UpdateV2TransactionSet txns from next;
      if (zlen txns =? 0) then mret txns else
      best ← cm_BestIndex (ci_Height to);
      if bool_decide (best = Some to) then updatePendingProofs fuel done txns next to
      else lift (Err "chain changed while updating pending transaction proofs")
  end.

Definition put_set (id : TransactionID) (set : pendingBroadcast) : M unit :=
  modify (fun s => with_rebroadcasts s (<[id := set]> (sv_rebroadcasts s)) (sv_rebroadcastWake s) (sv_file s)).
Definition drop_set (id : TransactionID) : M unit :=
  modify (fun s => with_rebroadcasts s (delete id (sv_rebroadcasts s)) (sv_rebroadcastWake s) (sv_file s)).

(** One set; the result tells whether the file has to be written.  [relay] is what the syncer,
    when there is one, answers. *)
Definition rebroadcast_set (fuel : nat) (done : bool) (now : Time) (tip : ChainIndex) (relay : option (option string))
    (id : TransactionID) (set : pendingBroadcast) : M bool :=
  if maxRebroadcastPeriod <? time_Sub now (pb_BroadcastedAt set) then _ ← drop_set id; mret true else
  confirmed ← (if bool_decide (pb_confirmedAt set = zeroIndex) then mret false else
               best ← cm_BestIndex (ci_Height (pb_confirmedAt set));
               mret (bool_decide (best = Some (pb_confirmedAt set))));
  if confirmed : bool then mret false else
  r ← try (updatePendingProofs fuel done (map V2Transaction_DeepCopy (pb_Transactions set)) (pb_Basis set) tip);
  match r with
  | Panic p => lift (Panic p)
  | Err _ => mret false
  | Ok [] =>
      _ ← put_set id {| pb_Basis := pb_Basis set; pb_BroadcastedAt := pb_BroadcastedAt set;
                        pb_Transactions := pb_Transactions set; pb_confirmedAt := tip |};
      mret false
  | Ok updated =>
      r ← try (cm_AddV2PoolTransactions tip updated);
      match r with
      | Panic p => lift (Panic p)
      | Err _ => mret false
      | Ok _ =>
          _ ← put_set id {| pb_Basis := tip; pb_BroadcastedAt := pb_BroadcastedAt set; pb_Transactions := updated;
                            pb_confirmedAt := zeroIndex |};
          _ ← match relay with Some e => setRelayError e | None => mret tt end;
          mret true
      end
  end.

Fixpoint rebroadcast_sets (fuel : nat) (done : bool) (now : Time) (tip : ChainIndex) (relay : option (option string))
    (sets : list (TransactionID * pendingBroadcast)) (changed : bool) : M bool :=
  match sets with
  | [] => mret changed
  | (id, set) :: sets =>
      c ← rebroadcast_set fuel done now tip relay id set;
      rebroadcast_sets fuel done now tip relay sets (changed || c)
  end.

Definition rebroadcastPending (fuel : nat) (done : bool) (now : Time) (relay : option (option string)) (disk : Disk) : M unit :=
  sets ← gets (fun s => range_map (map_to_list (sv_rebroadcasts s)));
  tip ← cm_Tip;
  changed ← rebroadcast_sets fuel done now tip relay sets false;
  if changed : bool then
    r ← try (savePendingBroadcastsLocked disk);
    match r with
    | Err e => setError ("failed to update pending transactions: " +:+ e)
    | _ => mret tt
    end
  else mret tt.
End Service.
