(* ===== verification/QdayMining.v ===== *)
(** * [node/qday/mining.go]: block templates and submitted blocks

    A template is a candidate block of the miner together with what a Stratum bridge needs to
    vary its rightmost transaction.  Random bytes, the clock, the state of the peers and the
    answers of the syncer are arguments; templates wait in rounds, one per turn of the long
    poll. *)
From stdpp Require Import prelude strings gmap.
From Stdlib Require Import ZArith Lia.
From S2P Require Import Prelude TypesCurrency TypesData TypesEncoding TypesHash TypesPolicy TypesQdayAddress.
From S2P Require Import TypesCurrencyText TypesMultiproof ConsensusWork ConsensusState ConsensusMerkle ConsensusQday.
From S2P Require Import ChainStore ChainPool ChainManager ChainManagerPool Gateway QdayMiner QdayService.

Definition miningTemplateMaxAge : Duration := 30 * Second.

(** ** Texts *)

(** [hex.EncodeToString] and the verb [%08X] *)
Definition hex_char (n : Z) : Z := if n <? 10 then 48 + n else 87 + n.
Definition hex_EncodeToString (b : bytes) : bytes := flat_map (fun x => [hex_char (x / 16); hex_char (x mod 16)]) b.
Definition format_08X (n : Z) : bytes := map upper (hex_EncodeToString (be_encode 4 n)).

Definition encodeMiningObject (encoding : bytes) : bytes := hex_EncodeToString encoding.

(** [uint(len(n.Bytes()))] *)
Definition byte_len (n : Z) : Z := if n =? 0 then 0 else Z.log2 n / 8 + 1.
Definition compact_bits (n : Z) : Z :=
  let exponent := byte_len n in
  let mantissa := if exponent <=? 3 then u32 (Z.shiftl (u32 (u64 n)) (8 * (3 - exponent)))
                  else u32 (u64 (Z.shiftr n (8 * (exponent - 3)))) in
  let '(mantissa, exponent) := if negb (Z.land mantissa 0x00800000 =? 0)
                               then (Z.shiftr mantissa 8, exponent + 1) else (mantissa, exponent) in
  Z.lor (u32 (Z.shiftl exponent 24)) mantissa.
Definition compactMiningDifficulty (w : Work) : bytes :=
  let n := be_decode (Array_EncodeTo w) in
  if n =? 0 then str_bytes "00000000" else format_08X (compact_bits n).

(** What the syncer answers when it is asked to broadcast a header or an outline. *)
Record Broadcasts := { br_V2Header : BlockHeader -> option string; br_V2BlockOutline : V2BlockOutline -> option string }.

Section Mining.
Context {crypto : Crypto} {edwards : Edwards25519} {St : Type} {store : Store St} {order : GoOrder}.
Abbreviation M := (M (St := St)).

(** ** The template of a candidate *)
Definition template_transaction (txn : V2Transaction) : MiningTemplateTransaction :=
  {| mtt_Data := encodeMiningObject (V2Transaction_EncodeTo txn); mtt_Hash := [];
     mtt_TxID := hex_EncodeToString (V2Transaction_ID txn); mtt_Depends := []; mtt_Fee := 0; mtt_SigOps := 0;
     mtt_TxType := str_bytes "2" |}.

(** The parts of the rightmost transaction around its nonce, and the sizes of the two extra nonces. *)
Definition split_coinbase (v1 : bool) (coinbase : bytes) : outcome (bytes * bytes * Z * Z) :=
  if negb v1 then Ok (coinbase, [], 0, 0) else
  match hex_DecodeString coinbase with
  | Some workBytes =>
      if zlen workBytes =? 33 then
        Ok (hex_EncodeToString (take 23 workBytes), hex_EncodeToString (drop (23 + 8) workBytes), 4, 4)
      else Err "candidate builder returned a non-compact QDAY mining marker"
  | None => Err "candidate builder returned a non-compact QDAY mining marker"
  end.

(** The roots of the complete trees left of the last leaf, the smallest first. *)
Definition merkle_branch (acc : Accumulator.t) : list bytes :=
  flat_map (fun height => if has_bit (Accumulator.NumLeaves acc) (Z.of_nat height)
                          then [hex_EncodeToString (Accumulator.Trees acc !!! height)] else [])
    (seq 0 (length (Accumulator.Trees acc))).
Definition left_leaves (cs : State) (public : QdayKeys) (txns : list V2Transaction) : list Hash256 :=
  State_MerkleLeafHash cs (SpendPolicy_Address (QdayKeys_Policy public)) ::
  map V2Transaction_MerkleLeafHash (take (length txns - 1) txns).

Definition check_marker (v1 : bool) (txns : list V2Transaction) : outcome QdayEnvelope :=
  match txns !! (if v1 then length txns - 1 else 0)%nat with
  | None => index_out_of_range
  | Some txn =>
      let invalid := "candidate builder returned an invalid QDAY mining marker" in
      match ParseQdayEnvelope (v2tx_ArbitraryData txn) with
      | Ok marker => if (qe_Kind marker =? QdayCoinbase) || (v1 && (qe_Kind marker =? QdayMiningWork))
                     then Ok marker else Err invalid
      | Err _ => Err invalid
      | Panic p => Panic p
      end
  end.

(** [longPollEntropy] is what [rand.Read] returned. *)
Definition mining_template (cs : State) (public : QdayKeys) (block : Block) (longPollEntropy : outcome bytes)
    : outcome MiningTemplateResponse :=
  let incomplete := "candidate builder returned an incomplete QDAY block" in
  match b_V2 block, b_MinerPayouts block with
  | Some v2, [out] =>
      let txns := v2b_Transactions v2 in
      let v1 := QdayV1Active cs (u64 (ci_Height (s_Index cs) + 1)) in
      _ ← fail_if (zlen txns =? 0) incomplete;
      marker ← check_marker v1 txns;
      let header := encodeMiningObject (BlockHeader_EncodeTo (Block_Header block)) in
      _ ← fail_if (negb (zlen header =? 160)) "encoded mining header has the wrong size";
      block_encoding ← V2Block_EncodeTo block;
      let templates := map template_transaction txns in
      let coinbase := default [] (mtt_Data <$> last templates) in
      '(coinbase1, coinbase2, size1, size2) ← split_coinbase v1 coinbase;
      let acc := Accumulator.of_leaves (left_leaves cs public txns) in
      longPoll ← longPollEntropy;
      target ← PoWTarget cs;
      reward ← BlockReward cs;
      fees ← Currency.Sub (sco_Value out) reward;
      Ok {| mtr_Header := header; mtr_Commitment := bh_Commitment (Block_Header block);
            mtr_Transactions := templates;
            mtr_MinerPayout := [{| mtt_Data := encodeMiningObject (V2SiacoinOutput_EncodeTo out); mtt_Hash := [];
              mtt_TxID := []; mtt_Depends := []; mtt_Fee := 0; mtt_SigOps := 0; mtt_TxType := [] |}];
            mtr_PreviousBlockHash := hex_EncodeToString (b_ParentID block);
            mtr_LongPollID := hex_EncodeToString longPoll; mtr_Target := hex_EncodeToString target;
            mtr_Height := u32 (u64 (ci_Height (s_Index cs) + 1)); mtr_Timestamp := Unix (b_Timestamp block);
            mtr_Version := 2; mtr_Bits := compactMiningDifficulty (s_Difficulty cs); mtr_WorkNonce := qe_Nonce marker;
            mtr_BlockRewardAtomic := Currency_ExactString reward; mtr_FeesAtomic := Currency_ExactString fees;
            mtr_PayoutAtomic := Currency_ExactString (sco_Value out);
            mtr_MempoolTransactions := zlen txns - (if v1 then 2 else 1);
            mtr_Stratum := {| mst_Block := encodeMiningObject block_encoding; mst_Coinbase1 := coinbase1;
              mst_Coinbase2 := coinbase2; mst_ExtraNonce1Size := size1; mst_ExtraNonce2Size := size2;
              mst_MerkleBranch := merkle_branch acc |} |}
  | _, _ => Err incomplete
  end.

(** ** Building and waiting *)

(** The peers as [Synced()] and [Err()] describe them, when there is a syncer. *)
Definition networkSynced (development : bool) (peers : option (list (bool * option string))) : bool :=
  development || existsb (fun p => p.1 && negb (is_some p.2)) (default [] peers).

(** What one template meets: the network, the clock (also in each round of the candidate
    loop) and the random bytes. *)
Record MiningWorld := {
  mw_synced : bool; mw_genesis : Time; mw_now : Time; mw_timestamp : nat -> Time; mw_entropy : nat -> bytes;
  mw_longPoll : outcome bytes; mw_created : Time; mw_rounds : nat }.

(** [for { ... }] until the tip is still that of the candidate. *)
Fixpoint tip_candidate (rounds i : nat) (w : MiningWorld) (public : QdayKeys) (workNonce : option Z) : M (State * Block) :=
  match rounds with
  | O => lift out_of_fuel
  | S rounds =>
      cs ← cm_TipState;
      pool ← cm_V2PoolTransactions;
      block ← lift (match workNonce with
                    | None => Candidate cs public pool (mw_timestamp w i) (mw_entropy w i)
                    | Some nonce => CandidateWithNonce cs public pool (mw_timestamp w i) nonce
                    end);
      tip ← cm_Tip;
      if bool_decide (tip = s_Index cs) then mret (cs, block) else tip_candidate rounds (S i) w public workNonce
  end.

Definition buildMiningTemplate (w : MiningWorld) (workNonce : option Z) : M cachedMiningTemplate :=
  keys ← gets sv_keys;
  match keys with
  | None => lift (Err "unlock the payout wallet before requesting mining work")
  | Some keys =>
      let public := qp_Public keys in
      _ ← lift (fail_if (negb (mw_synced w)) "waiting for synchronization with a network peer");
      _ ← lift (fail_if (time_Before (mw_now w) (mw_genesis w)) "waiting for the genesis start time");
      '(cs, block) ← tip_candidate (mw_rounds w) 0 w public workNonce;
      response ← lift (mining_template cs public block (mw_longPoll w));
      mret {| cmt_response := response; cmt_created := mw_created w |}
  end.

Definition invalidateMiningTemplate : M unit := modify (fun s => with_template s None).

(** Why a long poll goes on or ends. *)
Inductive wake := caller_done | service_done | template_invalidated | template_expired.
(** One turn: what other goroutines did to the template before it, the clock when the age is
    looked at, the world of a new template, and the wake-up. *)
Record poll_turn := {
  pt_others : option cachedMiningTemplate -> option cachedMiningTemplate; pt_checked : Time; pt_aged : Time;
  pt_world : MiningWorld; pt_wake : wake }.

Definition current_template (t : poll_turn) : M cachedMiningTemplate :=
  _ ← modify (fun s => with_template s (pt_others t (sv_miningTemplate s)));
  cached ← gets sv_miningTemplate;
  let rebuild :=
    template ← buildMiningTemplate (pt_world t) None;
    _ ← modify (fun s => with_template s (Some template)); mret template in
  match cached with
  | None => rebuild
  | Some template => if miningTemplateMaxAge <=? time_Sub (pt_checked t) (cmt_created template) then rebuild else mret template
  end.
Fixpoint long_poll (turns : list poll_turn) (longPollID : bytes) : M MiningTemplateResponse :=
  match turns with
  | [] => lift out_of_fuel
  | t :: turns =>
      template ← current_template t;
      if negb (bool_decide (mtr_LongPollID (cmt_response template) = longPollID)) then mret (cmt_response template) else
      let age := time_Sub (pt_aged t) (cmt_created template) in
      if miningTemplateMaxAge - age <=? 0 then _ ← invalidateMiningTemplate; long_poll turns longPollID else
      match pt_wake t with
      | caller_done | service_done => lift (Err ctx_Err)
      | template_invalidated => long_poll turns longPollID
      | template_expired => _ ← invalidateMiningTemplate; long_poll turns longPollID
      end
  end.

Definition MiningTemplateForWork (w : MiningWorld) (turns : list poll_turn) (longPollID : bytes) (workNonce : option Z)
    : M MiningTemplateResponse :=
  match workNonce with
  | Some nonce =>
      _ ← lift (fail_if (negb (bool_decide (longPollID = []))) "worknonce cannot be combined with longpollid");
      _ ← lift (fail_if (nonce =? 0) "worknonce must be nonzero");
      template ← buildMiningTemplate w (Some nonce);
      mret (cmt_response template)
  | None => long_poll turns longPollID
  end.
Definition MiningTemplate (w : MiningWorld) (turns : list poll_turn) (longPollID : bytes) : M MiningTemplateResponse :=
  MiningTemplateForWork w turns longPollID None.

(** ** Blocks *)
Record MiningBlockStatus := {
  mbs_Block : BlockID; mbs_Known : bool; mbs_Canonical : bool; mbs_Height : Z; mbs_TipHeight : Z;
  mbs_Confirmations : Z; mbs_MaturityHeight : Z }.

Definition cm_State (id : BlockID) : M (option State) := query (fun m => Manager_State m id).

Definition MiningStatus (id : BlockID) : M MiningBlockStatus :=
  tip ← cm_Tip;
  state ← cm_State id;
  match state with
  | None => mret {| mbs_Block := id; mbs_Known := false; mbs_Canonical := false; mbs_Height := 0;
                    mbs_TipHeight := ci_Height tip; mbs_Confirmations := 0; mbs_MaturityHeight := 0 |}
  | Some state =>
      let height := ci_Height (s_Index state) in
      best ← cm_BestIndex height;
      let canonical := bool_decide (ci_ID <$> best = Some id) in
      mret {| mbs_Block := id; mbs_Known := true; mbs_Canonical := canonical; mbs_Height := height;
              mbs_TipHeight := ci_Height tip;
              mbs_Confirmations := if canonical && (height <=? ci_Height tip) then u64 (u64 (ci_Height tip - height) + 1) else 0;
              mbs_MaturityHeight := u64 (height + n_MaturityDelay (s_Network state)) |}
  end.

Definition cm_AddBlocks (now : nat -> Time) (blocks : list Block) : M unit :=
  err ← call (fun m => AddBlocks now m blocks);
  match err with None => mret tt | Some e => lift (Err e) end.
Definition cm_PoolTransactions : M (list Transaction) := call PoolTransactions.

Definition decode_submitted (encoded : bytes) : outcome Block :=
  _ ← fail_if ((zlen encoded =? 0) || (Z.shiftl 16 20 <? zlen encoded)) "encoded block must contain at most 8 MiB";
  match hex_DecodeString encoded with
  | None => Err "block must be hexadecimal QDAY v2 encoding"
  | Some raw =>
      '(block, _) ← wrap_err "invalid QDAY v2 block encoding: " (V2Block_DecodeFrom (NewBufDecoder raw));
      canonical ← V2Block_EncodeTo block;
      _ ← fail_if (negb (bool_decide (encodeMiningObject canonical = map lower encoded)))
            "trailing or non-canonical bytes after QDAY v2 block";
      _ ← fail_if (negb (is_some (b_V2 block))) "QDAY requires a v2 block";
      Ok block
  end.

Definition SubmitMiningBlock (now : nat -> Time) (syncer : option Broadcasts) (encoded : bytes) : M BlockID :=
  block ← lift (decode_submitted encoded);
  _ ← cm_AddBlocks now [block];
  _ ← match syncer with
      | None => mret tt
      | Some syncer =>
          _ ← setRelayError (br_V2Header syncer (Block_Header block));
          txns ← cm_PoolTransactions;
          v2txns ← cm_V2PoolTransactions;
          outline ← lift (OutlineBlock block txns v2txns);
          setRelayError (br_V2BlockOutline syncer outline)
      end;
  mret (Block_ID block).
End Mining.
