(* ===== verification/QdayPayout.v ===== *)
(** * [node/qday/pool_payout.go]: retry-safe payouts of a pool

    A payout is kept under its request identifier, in memory and in a file, before it is
    relayed; asking again returns the same transaction.  The file is the value its JSON text
    stands for; what saving it meets is an argument. *)
From stdpp Require Import prelude strings gmap.
From Stdlib Require Import ZArith Lia.
From S2P Require Import Prelude TypesCurrency TypesData TypesEncoding TypesHash TypesPolicy TypesQdayAddress.
From S2P Require Import TypesCurrencyText ConsensusWork ConsensusState ConsensusMerkle ConsensusQday ConsensusMidState.
From S2P Require Import ChainStore ChainPool ChainManager ChainManagerPool QdayMiner QdayService QdayMining.

Definition maxPoolPayoutFile : Z := Z.shiftl 128 20.
Definition maxPoolPayoutRecords : Z := 100000.
Definition maxPoolPayoutOutputs : Z := 127.
Definition poolPayoutFinality : Z := 6.

Record PoolPayoutOutput := { ppo_Address : bytes; ppo_AmountAtomic : bytes }.
Record PoolPayoutRequest := {
  ppr_RequestID : bytes; ppr_FromAddress : bytes; ppr_ExpectedUnitAtomic : bytes; ppr_FeeAtomic : bytes;
  ppr_Outputs : list PoolPayoutOutput }.
Record PoolPayoutResponse := {
  pps_RequestID : bytes; pps_Transaction : TransactionID; pps_Outputs : Z; pps_Status : string }.
Record PoolDefendResponse := { pds_Status : string; pds_Transaction : option TransactionID }.
Record validatedPoolPayoutOutput := { vpo_Address : Address; vpo_Amount : Currency }.
Record validatedPoolPayout := {
  vp_RequestID : bytes; vp_FromAddress : bytes; vp_ExpectedUnitAtomic : bytes; vp_Fee : Currency;
  vp_Outputs : list validatedPoolPayoutOutput; vp_Digest : bytes }.

(** [PoolPayoutResponse{}] *)
Definition zeroPayoutResponse : PoolPayoutResponse :=
  {| pps_RequestID := []; pps_Transaction := zeroHash; pps_Outputs := 0; pps_Status := "" |}.

(** ** Requests *)

(** [json.Marshal] of a text of printable ASCII characters: quotes and backslashes are escaped,
    and so are the characters that matter in HTML. *)
Definition json_char (c : Z) : bytes :=
  if (c =? 34) || (c =? 92) then [92; c]
  else if (c =? 38) || (c =? 60) || (c =? 62) then str_bytes "\u00" ++ [hex_char (c / 16); hex_char (c mod 16)]
  else [c].
Definition json_string (s : bytes) : bytes := 34 :: flat_map json_char s ++ [34].
Definition json_field (name : string) (value : bytes) : bytes := json_string (str_bytes name) ++ 58 :: value.
Fixpoint json_join (values : list bytes) : bytes :=
  match values with
  | [] => []
  | [v] => v
  | v :: values => v ++ 44 :: json_join values
  end.
Definition json_object (fields : list bytes) : bytes := 123 :: json_join fields ++ [125].
Definition json_array (values : list bytes) : bytes := 91 :: json_join values ++ [93].

Definition json_output (o : PoolPayoutOutput) : bytes :=
  json_object [json_field "address" (json_string (ppo_Address o));
               json_field "amountAtomic" (json_string (ppo_AmountAtomic o))].
Definition json_request (r : PoolPayoutRequest) : bytes :=
  json_object [json_field "requestID" (json_string (ppr_RequestID r));
               json_field "fromAddress" (json_string (ppr_FromAddress r));
               json_field "expectedUnitAtomic" (json_string (ppr_ExpectedUnitAtomic r));
               json_field "feeAtomic" (json_string (ppr_FeeAtomic r));
               json_field "outputs" (json_array (map json_output (ppr_Outputs r)))].

Definition canonicalAtomic (rat_other : bytes -> option (Z * Z)) (name : string) (value : bytes) (allowZero : bool)
    : outcome Currency :=
  let err := name +:+ " must be a canonical atomic integer" in
  if bool_decide (value = []) || (80 <? zlen value) then Err err else
  match ParseCurrency rat_other value with
  | Ok amount =>
      if negb (bool_decide (Currency_ExactString amount = value)) then Err err
      else if negb allowZero && Currency.IsZero amount then Err (name +:+ " must be positive")
      else Ok amount
  | Err _ => Err err
  | Panic p => Panic p
  end.

(** What saving the payout file meets: an error or the length of its JSON text, and either an error before
    the file is replaced or the outcome of flushing the directory after it. *)
Inductive saved := not_replaced (e : string) | replaced (e : option string).
Record PayoutDisk := { pd_json : poolPayoutFile -> string + Z; pd_saved : saved }.

Section Payout.
Context {crypto : Crypto} {edwards : Edwards25519} {St : Type} {store : Store St} {order : GoOrder}.
Abbreviation M := (M (St := St)).

Definition requestID_error : string := "requestID must contain 1..128 printable ASCII characters".

(** The outputs in their order, with the addresses seen so far. *)
Definition validate_output (rat_other : bytes -> option (Z * Z)) (output : PoolPayoutOutput)
    (acc : list validatedPoolPayoutOutput * gset (list Z)) : outcome (list validatedPoolPayoutOutput * gset (list Z)) :=
  let '(outputs, seen) := acc in
  address ← wrap_err "output address: " (ParseQdayAddress (TrimSpace (ppo_Address output)));
  _ ← fail_if (bool_decide (address ∈ seen)) "output repeats address";
  amount ← canonicalAtomic rat_other "output amountAtomic" (ppo_AmountAtomic output) false;
  Ok (outputs ++ [{| vpo_Address := address; vpo_Amount := amount |}], {[address]} ∪ seen).

Definition canonical_output (o : validatedPoolPayoutOutput) : PoolPayoutOutput :=
  {| ppo_Address := QdayAddress_String (vpo_Address o); ppo_AmountAtomic := Currency_ExactString (vpo_Amount o) |}.

Definition validatePoolPayoutRequest (rat_other : bytes -> option (Z * Z)) (req : PoolPayoutRequest)
    : outcome validatedPoolPayout :=
  let id := TrimSpace (ppr_RequestID req) in
  _ ← fail_if ((zlen id <? 1) || (128 <? zlen id)) requestID_error;
  _ ← fail_if (existsb (fun r => (r <? 0x21) || (0x7e <? r)) id) requestID_error;
  from ← wrap_err "invalid fromAddress: " (ParseQdayAddress (TrimSpace (ppr_FromAddress req)));
  unit' ← canonicalAtomic rat_other "expectedUnitAtomic" (ppr_ExpectedUnitAtomic req) false;
  fee ← canonicalAtomic rat_other "feeAtomic" (ppr_FeeAtomic req) true;
  _ ← fail_if ((zlen (ppr_Outputs req) =? 0) || (maxPoolPayoutOutputs <? zlen (ppr_Outputs req)))
        "outputs must contain 1..127 payments";
  '(outputs, _) ← for_each (ppr_Outputs req) 0 ([], ∅) (fun _ output acc => validate_output rat_other output acc);
  let outputs := sort_Slice (fun a b => bytes_compare (QdayAddress_String (vpo_Address a)) (QdayAddress_String (vpo_Address b)) <? 0)
                   outputs in
  let canonical := {| ppr_RequestID := id; ppr_FromAddress := QdayAddress_String from;
                      ppr_ExpectedUnitAtomic := Currency_ExactString unit'; ppr_FeeAtomic := Currency_ExactString fee;
                      ppr_Outputs := map canonical_output outputs |} in
  let digest := sha256_Sum256 (json_request canonical) in
  Ok {| vp_RequestID := ppr_RequestID canonical; vp_FromAddress := ppr_FromAddress canonical;
        vp_ExpectedUnitAtomic := ppr_ExpectedUnitAtomic canonical; vp_Fee := fee; vp_Outputs := outputs;
        vp_Digest := hex_EncodeToString digest |}.

(** ** The records *)
Definition put_payouts (payouts : idmap poolPayoutRecord) : M unit := modify (fun s => with_payouts s payouts (sv_payoutFile s)).

Definition payout_file (payouts : idmap poolPayoutRecord) : poolPayoutFile :=
  let ids := sort_Slice (fun a b : bytes * poolPayoutRecord => bytes_compare a.1 b.1 <? 0) (map_to_list payouts) in
  {| ppf_Version := 1; ppf_Records := map snd ids |}.

Definition load_record (record : poolPayoutRecord) : M unit :=
  let invalid := "invalid pool payout record" in
  _ ← lift (fail_if (bool_decide (pr_RequestID record = []) || bool_decide (pr_Digest record = []) || (pr_CreatedAt record =? 0) ||
               negb (bool_decide (pr_Status record = "queued"%string) || bool_decide (pr_Status record = "confirming"%string) ||
                     bool_decide (pr_Status record = "confirmed"%string))) invalid);
  _ ← (if bool_decide (pr_Status record = "confirmed"%string) then
         lift (fail_if (negb (zlen (pr_Transaction record) =? 0) || bool_decide (pr_TransactionID record = zeroHash))
                 "invalid confirmed pool payout record")
       else
         txn ← lift (wrap_err "invalid pool payout transaction: " (decodePendingTransaction (pr_Transaction record)));
         let id := V2Transaction_ID txn in
         _ ← lift (fail_if (negb (bool_decide (id = pr_TransactionID record))) "pool payout transaction ID mismatch");
         pending ← gets (fun s => sv_rebroadcasts s !! id);
         match pending with
         | Some _ => mret tt
         | None => put_set id {| pb_Basis := pr_Basis record; pb_BroadcastedAt := pr_CreatedAt record;
                                 pb_Transactions := [txn]; pb_confirmedAt := zeroIndex |}
         end);
  payouts ← gets sv_poolPayouts;
  if bool_decide (is_Some (payouts !! pr_RequestID record)) then lift (Err "duplicate pool payout requestID")
  else put_payouts (<[pr_RequestID record := record]> payouts).

Fixpoint load_records (records : list poolPayoutRecord) : M unit :=
  match records with
  | [] => mret tt
  | record :: records => _ ← load_record record; load_records records
  end.

(** [size] is the length of the file's text. *)
Definition loadPoolPayouts (size : Z) : M unit :=
  file ← gets sv_payoutFile;
  match file with
  | None => mret tt
  | Some stored =>
      _ ← lift (fail_if (maxPoolPayoutFile <? size) "pool payout file is too large");
      _ ← lift (fail_if (negb (ppf_Version stored =? 1) || (maxPoolPayoutRecords <? zlen (ppf_Records stored)))
                  "invalid pool payout file");
      load_records (ppf_Records stored)
  end.

Definition savePoolPayoutsLocked (disk : PayoutDisk) : M unit :=
  payouts ← gets sv_poolPayouts;
  let stored := payout_file payouts in
  size ← lift (match pd_json disk stored with inl e => Err e | inr size => Ok size end);
  if (maxPoolPayoutFile <? size) || (maxPoolPayoutRecords <? zlen (ppf_Records stored))
  then lift (Err "pool payout storage limit reached") else
  match pd_saved disk with
  | not_replaced e => lift (Err e)
  | replaced e =>
      _ ← modify (fun s => with_payouts s (sv_poolPayouts s) (Some stored));
      match e with Some e => lift (Err e) | None => mret tt end
  end.

Definition savePoolPayoutRecord (disk : PayoutDisk) (record : poolPayoutRecord) : M poolPayoutRecord :=
  payouts ← gets sv_poolPayouts;
  let previous := payouts !! pr_RequestID record in
  if bool_decide (previous = None) && (maxPoolPayoutRecords <=? Z.of_nat (size payouts))
  then lift (Err "pool payout storage limit reached") else
  _ ← put_payouts (<[pr_RequestID record := record]> payouts);
  r ← try (savePoolPayoutsLocked disk);
  match r with
  | Err e =>
      now ← gets sv_poolPayouts;
      _ ← put_payouts match previous with
                      | Some previous => <[pr_RequestID record := previous]> now
                      | None => delete (pr_RequestID record) now
                      end;
      lift (Err e)
  | Ok _ => mret record
  | Panic p => lift (Panic p)
  end.

(** ** Paying *)

(** The outside world of a payout: rounds of proof updates, the files, the context of the
    service, the answer of the syncer when there is one, and that of a submission. *)
Record PayoutWorld := {
  pw_fuel : nat; pw_done : bool; pw_disk : PayoutDisk; pw_ensure_disk : PayoutDisk; pw_relay : option (option string);
  pw_os : Outside }.

Definition set_status (record : poolPayoutRecord) (status : string) (confirmedAt : ChainIndex) (txn : bytes) : poolPayoutRecord :=
  mkPayout (pr_RequestID record) (pr_Digest record) (pr_Basis record) (pr_TransactionID record) txn (pr_Outputs record)
    status confirmedAt (pr_CreatedAt record).

(** The best chain still has the block in which the record was confirmed. *)
Definition still_confirmed (record : poolPayoutRecord) : M bool :=
  if bool_decide (pr_ConfirmedAt record = zeroIndex) then mret false else
  best ← cm_BestIndex (ci_Height (pr_ConfirmedAt record));
  mret (bool_decide (best = Some (pr_ConfirmedAt record))).

Definition finish_payout (w : PayoutWorld) (record : poolPayoutRecord) : M poolPayoutRecord :=
  let record := set_status record "confirmed" (pr_ConfirmedAt record) [] in
  _ ← drop_set (pr_TransactionID record);
  _ ← savePendingBroadcastsLocked (os_disk (pw_os w));
  savePoolPayoutRecord (pw_ensure_disk w) record.

Definition requeue_payout (w : PayoutWorld) (tip : ChainIndex) (record : poolPayoutRecord) : M poolPayoutRecord :=
  txn ← lift (decodePendingTransaction (pr_Transaction record));
  updated ← updatePendingProofs (pw_fuel w) (pw_done w) [txn] (pr_Basis record) tip;
  match updated with
  | [] => savePoolPayoutRecord (pw_ensure_disk w) (set_status record "confirming" tip (pr_Transaction record))
  | first :: _ =>
      _ ← cm_AddV2PoolTransactions tip updated;
      r ← try (rememberBroadcast (os_disk (pw_os w)) (os_now (pw_os w)) tip updated);
      _ ← match r with
          | Err e => setError ("failed to save pool payout for rebroadcast: " +:+ e)
          | _ => mret tt
          end;
      _ ← match pw_relay w with Some e => setRelayError e | None => mret tt end;
      savePoolPayoutRecord (pw_ensure_disk w)
        (mkPayout (pr_RequestID record) (pr_Digest record) tip (V2Transaction_ID first) (encodePendingTransaction first)
           (pr_Outputs record) "queued" (pr_ConfirmedAt record) (pr_CreatedAt record))
  end.

Definition ensurePoolPayout (w : PayoutWorld) (record : poolPayoutRecord) : M poolPayoutRecord :=
  if bool_decide (pr_Status record = "confirmed"%string) then mret record else
  tip ← cm_Tip;
  confirmed ← still_confirmed record;
  if confirmed : bool then
    if ci_Height tip <? u64 (ci_Height (pr_ConfirmedAt record) + poolPayoutFinality - 1) then mret record
    else finish_payout w record
  else
    requeue_payout w tip
      (if bool_decide (pr_ConfirmedAt record = zeroIndex) then record
       else set_status record "queued" zeroIndex (pr_Transaction record)).

Definition payout_response (record : poolPayoutRecord) : PoolPayoutResponse :=
  {| pps_RequestID := pr_RequestID record; pps_Transaction := pr_TransactionID record; pps_Outputs := pr_Outputs record;
     pps_Status := pr_Status record |}.

(** The amounts and the fee. *)
Definition payout_required (validated : validatedPoolPayout) : outcome Currency :=
  required ← for_each (vp_Outputs validated) 0 Currency.ZeroCurrency (fun _ output required =>
    let '(required, overflow) := Currency.AddWithOverflow required (vpo_Amount output) in
    _ ← fail_if overflow "pool payout amount overflows"; Ok required);
  let '(required, overflow) := Currency.AddWithOverflow required (vp_Fee validated) in
  _ ← fail_if overflow "pool payout amount plus fee overflows";
  Ok required.

(** The outputs are ordered and taken as for a transfer. *)
Definition build_payout (cs : State) (keys : QdayPrivateKeys) (validated : validatedPoolPayout) (required : Currency)
    (outs : list UnspentSiacoinElement) : outcome V2Transaction :=
  keyed ← sort_keys cs submitTransfer outs;
  let outs := map snd (sort_Slice (spend_before submitTransfer) keyed) in
  let policy := QdayKeys_Policy (qp_Public keys) in
  '(total, inputs) ← fund cs submitTransfer policy required outs Currency.ZeroCurrency [];
  _ ← fail_if (Currency.Cmp total required <? 0) "insufficient confirmed spendable balance for pool payout";
  change ← Currency.Sub total required;
  Ok {| v2tx_SiacoinInputs := inputs;
        v2tx_SiacoinOutputs := map (fun o => {| sco_Value := vpo_Amount o; sco_Address := vpo_Address o |}) (vp_Outputs validated) ++
                               change_outputs change (SpendPolicy_Address policy);
        v2tx_SiafundInputs := []; v2tx_SiafundOutputs := []; v2tx_FileContracts := []; v2tx_FileContractRevisions := [];
        v2tx_FileContractResolutions := []; v2tx_Attestations := [];
        v2tx_ArbitraryData := QdayEnvelope_Encode {| qe_Kind := QdayTransfer; qe_Nonce := 0; qe_Keys := []; qe_Witness := noWitness |};
        v2tx_NewFoundationAddress := None; v2tx_MinerFee := vp_Fee validated |}.

Definition check_denomination (cs : State) (unit' : bytes) (msg : string) : outcome unit :=
  units ← QdayUnits cs (ci_Height (s_Index cs));
  fail_if (negb (bool_decide (Currency_ExactString units = unit'))) msg.

Section Index.
Context (AddressSiacoinOutputs : Address -> Z -> Z -> outcome (list UnspentSiacoinElement * ChainIndex)).

(** A request that is not known yet. *)
Definition first_payout (w : PayoutWorld) (ctx : Context) (validated : validatedPoolPayout) : M PoolPayoutResponse :=
  keys ← gets sv_keys;
  match keys with
  | None => lift (Err "unlock your wallet first")
  | Some keys =>
      _ ← lift (fail_if (negb (bool_decide (vp_FromAddress validated = QdayKeys_String (qp_Public keys))))
                  "the active wallet changed; review the pool payout again");
      cs ← cm_TipState;
      _ ← lift (check_denomination cs (vp_ExpectedUnitAtomic validated) "QDAY denomination changed; rebuild the pool payout");
      required ← lift (payout_required validated);
      outs ← outputs AddressSiacoinOutputs (os_pages (pw_os w)) cs (QdayKeys_Address (qp_Public keys));
      txn ← lift (build_payout cs keys validated required outs);
      '(txn, _) ← lift (SignTransfer (os_work (pw_os w)) ctx cs txn keys);
      current ← cm_TipState;
      _ ← lift (check_denomination current (vp_ExpectedUnitAtomic validated)
                  "QDAY denomination changed while signing; rebuild the pool payout");
      updated ← cm_UpdateV2TransactionSet [txn] (s_Index cs) (s_Index current);
      match updated with
      | [txn] =>
          let record := mkPayout (vp_RequestID validated) (vp_Digest validated) (s_Index current) (V2Transaction_ID txn)
            (encodePendingTransaction txn) (zlen (vp_Outputs validated)) "queued" zeroIndex (os_now (pw_os w)) in
          _ ← savePoolPayoutRecord (pw_disk w) record;
          record ← ensurePoolPayout w record;
          mret (payout_response record)
      | _ => mret zeroPayoutResponse
      end
  end.

Definition PoolPayout (w : PayoutWorld) (ctx : Context) (req : PoolPayoutRequest) : M PoolPayoutResponse :=
  validated ← lift (validatePoolPayoutRequest (os_rat (pw_os w)) req);
  payouts ← gets sv_poolPayouts;
  match payouts !! vp_RequestID validated with
  | Some record =>
      _ ← lift (fail_if (negb (bool_decide (pr_Digest record = vp_Digest validated)))
                  "requestID was already used for a different pool payout");
      record ← ensurePoolPayout w record;
      mret (payout_response record)
  | None => first_payout w ctx validated
  end.

(** [errors.Is(err, errNothingToDefend)]: the error is returned as it is. *)
Definition PoolDefend (os : Outside) (ctx : Context) : M PoolDefendResponse :=
  r ← try (Transfer AddressSiacoinOutputs os ctx VoidAddress Currency.ZeroCurrency true);
  match r with
  | Ok id => mret {| pds_Status := "queued"; pds_Transaction := Some id |}
  | Err e => if bool_decide (e = errNothingToDefend) then mret {| pds_Status := "idle"; pds_Transaction := None |}
             else lift (Err e)
  | Panic p => lift (Panic p)
  end.
End Index.
End Payout.
