(* ===== verification/QdaySwap.v ===== *)
(** * [node/qday/swap.go]: atomic swaps of the wallet service

    A contract arrives as texts, is checked and turned into the swap of [core/types], and an
    output at its address is claimed with the secret or refunded after its height.  The wallet
    index is an argument, as is what registering an address with it answers. *)
From stdpp Require Import prelude strings gmap.
From Stdlib Require Import ZArith Lia.
From S2P Require Import Prelude TypesCurrency TypesData TypesEncoding TypesHash TypesPolicy TypesQdayAddress.
From S2P Require Import TypesCurrencyText ConsensusWork ConsensusState ConsensusMerkle ConsensusQday ConsensusMidState.
From S2P Require Import ChainStore ChainPool ChainManager ChainManagerPool QdayMiner QdayService QdayMining QdayPayout.

Record AtomicSwapKeys := { ask_Classical : bytes; ask_Reserve : bytes; ask_Address : bytes }.
Record AtomicSwapContract := {
  asc_Recipient : AtomicSwapKeys; asc_Refund : AtomicSwapKeys; asc_SecretHash : bytes; asc_RefundHeight : Z }.
Record AtomicSwapOutput := {
  aso_ID : bytes; aso_ValueAtomic : bytes; aso_SpendableAtomic : bytes; aso_MaturityHeight : Z; aso_Confirmations : Z }.
Record AtomicSwapView := {
  asv_Address : bytes; asv_Height : Z; asv_ActivationHeight : Z; asv_Active : bool; asv_Outputs : list AtomicSwapOutput }.
Record AtomicSwapSpendRequest := {
  asr_Contract : AtomicSwapContract; asr_Output : bytes; asr_FeeAtomic : bytes; asr_Secret : bytes }.

(** [core/types]: [unmarshalHex] into an array of [n] bytes and the texts of output identifiers. *)
Definition unmarshalHex (n : nat) (data : bytes) : outcome bytes :=
  _ ← fail_if (Z.of_nat n * 2 <? zlen data) "input too long";
  match hex_DecodeString data with
  | None => Err "decoding failed"
  | Some b => _ ← fail_if (zlen b <? Z.of_nat n) "decoding failed: unexpected EOF"; Ok b
  end.
Definition SiacoinOutputID_UnmarshalText (b : bytes) : outcome SiacoinOutputID := unmarshalHex 32 b.
Definition SiacoinOutputID_String (id : SiacoinOutputID) : bytes := hex_EncodeToString id.

(** Texts of 32 bytes in lower-case hexadecimal digits. *)
Definition lower_hex32 (what : string) (value : bytes) : outcome bytes :=
  let err := what +:+ " must be 32-byte lowercase hexadecimal data" in
  if negb (bool_decide (value = map lower value)) || negb (zlen value =? 64) then Err err else
  match hex_DecodeString value with
  | Some b => if zlen b =? 32 then Ok b else Err err
  | None => Err err
  end.

Section Swap.
Context {crypto : Crypto} {edwards : Edwards25519} {St : Type} {store : Store St} {order : GoOrder}.
Abbreviation M := (M (St := St)).

Definition atomicSwapKeys (public : QdayKeys) : AtomicSwapKeys :=
  {| ask_Classical := hex_EncodeToString (qk_Classical public); ask_Reserve := hex_EncodeToString (qk_Reserve public);
     ask_Address := QdayAddress_String (QdayKeys_Address public) |}.

Definition parseAtomicSwapKeys (name : string) (encoded : AtomicSwapKeys) : outcome QdayKeys :=
  classical ← lower_hex32 (name +:+ ".classical") (ask_Classical encoded);
  reserve ← lower_hex32 (name +:+ ".reserve") (ask_Reserve encoded);
  let keys := {| qk_Classical := classical; qk_Reserve := reserve |} in
  _ ← wrap_err (name +:+ ": ") (QdayKeys_Validate keys);
  _ ← fail_if (negb (bool_decide (ask_Address encoded = [])) &&
               negb (bool_decide (ask_Address encoded = QdayAddress_String (QdayKeys_Address keys))))
        (name +:+ ".address does not match its public keys");
  Ok keys.

Definition contract_swap (contract : AtomicSwapContract) : outcome QdayAtomicSwap :=
  recipient ← parseAtomicSwapKeys "recipient" (asc_Recipient contract);
  refund ← parseAtomicSwapKeys "refund" (asc_Refund contract);
  secretHash ← lower_hex32 "secretHash" (asc_SecretHash contract);
  let swap := {| sw_Recipient := recipient; sw_Refund := refund; sw_SecretHash := secretHash;
                 sw_RefundHeight := asc_RefundHeight contract |} in
  _ ← Swap_Policy swap;
  Ok swap.

Definition AtomicSwapPublicKeys : M AtomicSwapKeys :=
  keys ← gets sv_keys;
  match keys with
  | None => lift (Err "unlock your wallet first")
  | Some keys => mret (atomicSwapKeys (qp_Public keys))
  end.

(** The view of a contract before its outputs. *)
Definition swap_view (cs : State) (address : Address) (outputs : list AtomicSwapOutput) : outcome AtomicSwapView :=
  p ← qday_params cs;
  Ok {| asv_Address := QdayAddress_String address; asv_Height := ci_Height (s_Index cs);
        asv_ActivationHeight := qd_V1Height p; asv_Active := QdayV1Active cs (u64 (ci_Height (s_Index cs) + 1));
        asv_Outputs := outputs |}.

Definition DeriveAtomicSwap (contract : AtomicSwapContract) : M AtomicSwapView :=
  swap ← lift (contract_swap contract);
  address ← lift (Swap_Address swap);
  cs ← cm_TipState;
  lift (swap_view cs address []).

Section Index.
Context (AddressSiacoinOutputs : Address -> Z -> Z -> outcome (list UnspentSiacoinElement * ChainIndex)).

Definition swap_output (cs : State) (output : UnspentSiacoinElement) : outcome AtomicSwapOutput :=
  let e := use_SiacoinElement output in
  spendable ← QdayValue cs e (u64 (ci_Height (s_Index cs) + 1));
  Ok {| aso_ID := SiacoinOutputID_String (sce_ID e); aso_ValueAtomic := Currency_ExactString (sco_Value (sce_SiacoinOutput e));
        aso_SpendableAtomic := Currency_ExactString spendable; aso_MaturityHeight := sce_MaturityHeight e;
        aso_Confirmations := use_Confirmations output |}.

(** [for offset := 0; ; offset += 500], at most [fuel] pages. *)
Fixpoint swap_pages (fuel : nat) (cs : State) (address : Address) (spent : gset (list Z)) (offset : Z)
    (outputs : list AtomicSwapOutput) : outcome (list AtomicSwapOutput) :=
  match fuel with
  | O => out_of_fuel
  | S fuel =>
      '(page, basis) ← AddressSiacoinOutputs address offset 500;
      _ ← fail_if (negb (bool_decide (basis = s_Index cs))) errWalletSyncing;
      outputs ← for_each page 0 outputs (fun _ output outputs =>
        if bool_decide (sce_ID (use_SiacoinElement output) ∈ spent) then Ok outputs else
        o ← swap_output cs output; Ok (outputs ++ [o]));
      if zlen page <? 500 then Ok outputs else swap_pages fuel cs address spent (offset + 500) outputs
  end.

Definition AtomicSwapStatus (pages : nat) (contract : AtomicSwapContract) : M AtomicSwapView :=
  swap ← lift (contract_swap contract);
  address ← lift (Swap_Address swap);
  cs ← cm_TipState;
  pool ← cm_V2PoolTransactions;
  _ ← lift (swap_view cs address []);
  outputs ← lift (swap_pages pages cs address (spent_ids pool) 0 []);
  lift (swap_view cs address outputs).

(** [AddAddresses] is what the wallet manager answers to the new address and its policy. *)
Definition WatchAtomicSwap (AddAddresses : Address -> SpendPolicy -> outcome unit) (pages : nat) (contract : AtomicSwapContract)
    : M AtomicSwapView :=
  swap ← lift (contract_swap contract);
  policy ← lift (Swap_Policy swap);
  keys ← gets sv_keys;
  match keys with
  | None => lift (Err "unlock your wallet first")
  | Some _ =>
      _ ← lift (AddAddresses (SpendPolicy_Address policy) policy);
      AtomicSwapStatus pages contract
  end.

(** ** Spending *)
Fixpoint find_output (fuel : nat) (cs : State) (address : Address) (outputID : SiacoinOutputID) (offset : Z)
    : outcome (option UnspentSiacoinElement) :=
  match fuel with
  | O => out_of_fuel
  | S fuel =>
      '(page, basis) ← AddressSiacoinOutputs address offset 500;
      _ ← fail_if (negb (bool_decide (basis = s_Index cs))) errWalletSyncing;
      let parent := snd <$> list_find (fun o => sce_ID (use_SiacoinElement o) = outputID) page in
      if is_some parent || (zlen page <? 500) then Ok parent else find_output fuel cs address outputID (offset + 500)
  end.

(** The transaction before signing.  The witness of its input is empty in the source, without a
    policy type; signing replaces it and nothing looks at it before. *)
Definition swap_transaction (cs : State) (self : Address) (parent : option UnspentSiacoinElement) (fee : Currency)
    : outcome V2Transaction :=
  match parent with
  | None => Err "atomic-swap output is not watched, unspent and confirmed"
  | Some parent =>
      let e := use_SiacoinElement parent in
      let next := u64 (ci_Height (s_Index cs) + 1) in
      _ ← fail_if (next <? sce_MaturityHeight e) "atomic-swap output is not mature";
      value ← QdayValue cs e next;
      _ ← fail_if (Currency.Cmp value fee <=? 0) "atomic-swap output does not cover the fee";
      rest ← Currency.Sub value fee;
      Ok {| v2tx_SiacoinInputs := [{| v2sci_Parent := e; v2sci_SatisfiedPolicy :=
              {| sat_Policy := AnyoneCanSpend; sat_Signatures := []; sat_Preimages := [] |} |}];
            v2tx_SiacoinOutputs := [{| sco_Value := rest; sco_Address := self |}];
            v2tx_SiafundInputs := []; v2tx_SiafundOutputs := []; v2tx_FileContracts := []; v2tx_FileContractRevisions := [];
            v2tx_FileContractResolutions := []; v2tx_Attestations := [];
            v2tx_ArbitraryData := QdayEnvelope_Encode {| qe_Kind := QdayTransfer; qe_Nonce := 0; qe_Keys := []; qe_Witness := noWitness |};
            v2tx_NewFoundationAddress := None; v2tx_MinerFee := fee |}
  end.

Definition sign_swap (fuel : nat) (ctx : Context) (cs : State) (txn : V2Transaction) (swap : QdayAtomicSwap)
    (keys : QdayPrivateKeys) (request : AtomicSwapSpendRequest) (claim : bool) : outcome (V2Transaction * Context) :=
  if claim then
    secret ← lower_hex32 "secret" (asr_Secret request);
    SignAtomicSwapClaim fuel ctx cs txn swap (Some keys) secret
  else
    _ ← fail_if (negb (bool_decide (asr_Secret request = []))) "refund request must not contain a secret";
    _ ← fail_if (ci_Height (s_Index cs) <? sw_RefundHeight swap) "refund is locked";
    SignAtomicSwapRefund fuel ctx cs txn swap (Some keys).

Definition keep_pending (os : Outside) (basis : ChainIndex) (txns : list V2Transaction) : M unit :=
  r ← try (rememberBroadcast (os_disk os) (os_now os) basis txns);
  match r with
  | Err e => setError ("failed to save pending atomic swap for rebroadcast: " +:+ e)
  | _ => mret tt
  end.

(** The first pending transaction that spends the output, if there is one, must be this one. *)
Definition spends_output (outputID : SiacoinOutputID) (txn : V2Transaction) : bool :=
  existsb (fun i => bool_decide (sce_ID (v2sci_Parent i) = outputID)) (v2tx_SiacoinInputs txn).
Definition submit_swap (os : Outside) (cs : State) (outputID : SiacoinOutputID) (txn : V2Transaction) : M TransactionID :=
  let id := V2Transaction_ID txn in
  pool ← cm_V2PoolTransactions;
  match snd <$> list_find (fun pending => spends_output outputID pending = true) pool with
  | Some pending =>
      _ ← lift (fail_if (negb (bool_decide (V2Transaction_ID pending = id)))
                  "atomic-swap output is already spent by another pending transaction");
      tip ← cm_Tip;
      _ ← keep_pending os tip [pending];
      mret id
  | None =>
      current ← cm_TipState;
      let basis := s_Index current in
      txns ← cm_UpdateV2TransactionSet [txn] (s_Index cs) basis;
      _ ← cm_AddV2PoolTransactions basis txns;
      _ ← keep_pending os basis txns;
      mret id
  end.

Definition spendAtomicSwap (os : Outside) (ctx : Context) (request : AtomicSwapSpendRequest) (claim : bool) : M TransactionID :=
  let '(done, ctx) := poll ctx in
  if done : bool then lift (Err ctx_Err) else
  swap ← lift (contract_swap (asr_Contract request));
  fee ← lift (canonicalAtomic (os_rat os) "feeAtomic" (asr_FeeAtomic request) true);
  outputID ← lift (match SiacoinOutputID_UnmarshalText (TrimSpace (asr_Output request)) with
                   | Err _ => Err "output must be a 32-byte hexadecimal siacoin output ID"
                   | r => r
                   end);
  keys ← gets sv_keys;
  match keys with
  | None => lift (Err "unlock your wallet first")
  | Some keys =>
      _ ← lift (fail_if (claim && negb (bool_decide (qp_Public keys = sw_Recipient swap))) "active wallet is not the swap recipient");
      _ ← lift (fail_if (negb claim && negb (bool_decide (qp_Public keys = sw_Refund swap))) "active wallet is not the swap refund owner");
      cs ← cm_TipState;
      _ ← lift (fail_if (negb (QdayV1Active cs (u64 (ci_Height (s_Index cs) + 1)))) "atomic swaps are not active yet");
      address ← lift (Swap_Address swap);
      parent ← lift (find_output (os_pages os) cs address outputID 0);
      txn ← lift (swap_transaction cs (SpendPolicy_Address (QdayKeys_Policy (qp_Public keys))) parent fee);
      '(txn, _) ← lift (sign_swap (os_work os) ctx cs txn swap keys request claim);
      submit_swap os cs outputID txn
  end.

Definition ClaimAtomicSwap (os : Outside) (ctx : Context) (request : AtomicSwapSpendRequest) : M TransactionID :=
  spendAtomicSwap os ctx request true.
Definition RefundAtomicSwap (os : Outside) (ctx : Context) (request : AtomicSwapSpendRequest) : M TransactionID :=
  spendAtomicSwap os ctx request false.
End Index.
End Swap.
