(* ===== verification/QdaySignSpec.v ===== *)
(** * What [SignTransfer] signs, consensus accepts

    The work search finds a nonce, work and signatures do not change what they are made for,
    and a transfer that spends the signer's outputs passes [ValidateV2Transaction] once
    signed. *)
From stdpp Require Import prelude strings gmap.
From Stdlib Require Import ZArith Lia.
From S2P Require Import Prelude TypesCurrency TypesData TypesEncoding TypesHash TypesPolicy TypesPolicySpec.
From S2P Require Import ConsensusWork ConsensusState ConsensusMerkle ConsensusQday ConsensusQdaySpec.
From S2P Require Import ConsensusMidState ConsensusApply ConsensusValidateV1 ConsensusValidate.
From S2P Require Import ConsensusEnvelopeSpec ConsensusValidateSpec ConsensusPanicSpec ChainStore QdayMiner.

Section Work.
Context {crypto : Crypto}.

(** ** The work search *)
Lemma searchWork_inv fuel ctx intent bits nonce n ctx' : is_u64 nonce ->
  searchWork fuel ctx intent bits nonce = Ok (n, ctx') -> is_u64 n /\ QdayWorkValid intent n bits = true.
Proof.
  revert ctx nonce. induction fuel as [|fuel IH]; intros ctx nonce Hn H; cbn [searchWork] in H;
    destruct (QdayWorkValid intent nonce bits) eqn:E; try done; try (by injection H as <- <-).
  pose proof (u64_range (nonce + 1)) as Hr. destruct (_ =? 0); [|by eapply IH].
  destruct (poll ctx) as [[] ctx1]; [done|by eapply IH].
Qed.

Definition not_cancelled (ctx : Context) : Prop := Forall (eq false) ctx.
Lemma poll_live ctx : not_cancelled ctx -> exists ctx', poll ctx = (false, ctx') /\ not_cancelled ctx'.
Proof. intros H. destruct H as [|b ctx <- H]; [exists []|exists ctx]; (split; [done|by try constructor]). Qed.

(** The search ends at a nonce that is valid if one is in reach. *)
Lemma searchWork_finds intent bits k : forall fuel ctx nonce, (k <= fuel)%nat -> not_cancelled ctx ->
  QdayWorkValid intent (u64 (nonce + Z.of_nat k)) bits = true -> is_u64 nonce ->
  exists n ctx', searchWork fuel ctx intent bits nonce = Ok (n, ctx') /\ not_cancelled ctx'.
Proof.
  induction k as [|k IH]; intros fuel ctx nonce Hk Hctx Hv Hn.
  { rewrite Z.add_0_r, u64_id in Hv by done. destruct fuel; cbn [searchWork]; rewrite Hv; by eexists _, _. }
  destruct fuel as [|fuel]; [lia|]. cbn [searchWork]. destruct (QdayWorkValid intent nonce bits); [by eexists _, _|].
  assert (QdayWorkValid intent (u64 (u64 (nonce + 1) + Z.of_nat k)) bits = true) as Hv'.
  { replace (u64 (u64 (nonce + 1) + Z.of_nat k)) with (u64 (nonce + Z.of_nat (S k))); [done|].
    unfold u64. rewrite Zplus_mod_idemp_l. f_equal. lia. }
  destruct (_ =? 0); [|apply IH; (done || lia || apply u64_range)].
  destruct (poll_live ctx Hctx) as (ctx1 & -> & Hc1). apply IH; (done || lia || apply u64_range).
Qed.

(** ** What work and witnesses leave alone *)
Definition signed (txn : V2Transaction) (e : QdayEnvelope) (n : Z) (w : SatisfiedPolicy) : V2Transaction :=
  set_SiacoinInputs (set_ArbitraryData txn (QdayEnvelope_Encode (set_Nonce e n)))
    (map (with_witness w) (v2tx_SiacoinInputs txn)).

Lemma witness_semantics txn w :
  V2TransactionSemantics_EncodeTo (set_SiacoinInputs txn (map (with_witness w) (v2tx_SiacoinInputs txn))) =
  V2TransactionSemantics_EncodeTo txn.
Proof.
  assert (EncodeSlice (fun i => Array_EncodeTo (sce_ID (v2sci_Parent i))) (map (with_witness w) (v2tx_SiacoinInputs txn)) =
          EncodeSlice (fun i => Array_EncodeTo (sce_ID (v2sci_Parent i))) (v2tx_SiacoinInputs txn)) as E.
  { unfold EncodeSlice, zlen. rewrite length_map. f_equal. induction (v2tx_SiacoinInputs txn) as [|i l IH]; [done|].
    cbn [map flat_map]. by rewrite IH. }
  unfold V2TransactionSemantics_EncodeTo. cbn [set_SiacoinInputs v2tx_SiacoinInputs]. by rewrite E.
Qed.
Lemma witness_sigHash s txn w :
  InputSigHash s (set_SiacoinInputs txn (map (with_witness w) (v2tx_SiacoinInputs txn))) = InputSigHash s txn.
Proof. unfold InputSigHash. by rewrite !witness_semantics. Qed.

Lemma clear_nonce_set e n : clear_nonce (QdayEnvelope_Encode (set_Nonce e n)) = clear_nonce (QdayEnvelope_Encode e).
Proof.
  unfold clear_nonce, QdayEnvelope_Encode. cbn [set_Nonce qe_Kind qe_Nonce qe_Keys qe_Witness].
  set (rest := _ ++ flat_map _ _ ++ _).
  assert (forall m, zlen (qdayMagic ++ [qe_Kind e] ++ le_encode 8 m ++ rest) = 14 + zlen rest) as Hl.
  { intros m. unfold zlen. rewrite !length_app, length_le_encode. cbn. lia. }
  rewrite !Hl, (proj2 (Z.leb_le 14 (14 + zlen rest))) by (pose proof (zlen_nonneg rest); lia).
  assert (forall m, take 6 (qdayMagic ++ [qe_Kind e] ++ le_encode 8 m ++ rest) = qdayMagic ++ [qe_Kind e]) as Ht.
  { intros m. rewrite app_assoc. apply (take_app_length (qdayMagic ++ [qe_Kind e])). }
  assert (forall m, drop 14 (qdayMagic ++ [qe_Kind e] ++ le_encode 8 m ++ rest) = rest) as Hd.
  { intros m. rewrite !app_assoc. rewrite drop_app_length'; [done|]. rewrite !length_app, length_le_encode. done. }
  by rewrite !Ht, !Hd.
Qed.
Lemma signed_intent s txn e n w : v2tx_ArbitraryData txn = QdayEnvelope_Encode e ->
  QdayWorkIntent s (signed txn e n w) = QdayWorkIntent s txn.
Proof.
  intros Hd. unfold QdayWorkIntent. destruct (n_Qday (s_Network s)); [|done]. do 4 f_equal. f_equal. unfold V2Transaction_ID. do 2 f_equal. f_equal.
  unfold signed. cbn [set_SiacoinInputs set_ArbitraryData v2tx_ArbitraryData]. rewrite clear_nonce_set, Hd.
  f_equal. exact (witness_semantics (set_ArbitraryData txn (clear_nonce (QdayEnvelope_Encode e))) w).
Qed.

(** The nonce meets the DEFEND target where work is due. *)
Definition worked (s : State) (txn : V2Transaction) (e : QdayEnvelope) (n : Z) : Prop :=
  if QdayActive s (childHeight s) then exists intent, QdayWorkIntent s txn = Ok intent /\
    QdayWorkValid intent n (match n_Qday (s_Network s) with Some p => qd_DefendBits p | None => 0 end) = true
  else n = qe_Nonce e.
Lemma worked_signed s txn e n w : v2tx_ArbitraryData txn = QdayEnvelope_Encode e -> worked s txn e n -> worked s (signed txn e n w) e n.
Proof.
  intros Hd. unfold worked. destruct (QdayActive s (childHeight s)); [|done]. intros (intent & Hi & Hv). exists intent. split; [|done].
  rewrite <- Hi. exact (signed_intent s txn e n w Hd).
Qed.

Lemma Prepare_inv fuel ctx s txn txn1 ctx1 e : v2tx_ArbitraryData txn = QdayEnvelope_Encode e -> envelope_ok e ->
  PrepareTransactionWork fuel ctx s txn = Ok (txn1, ctx1) ->
  exists n, txn1 = set_ArbitraryData txn (QdayEnvelope_Encode (set_Nonce e n)) /\ is_u64 n /\ worked s txn e n.
Proof.
  intros Hd He H. unfold PrepareTransactionWork in H. rewrite Hd, Parse_Encode in H by done.
  cbn [mbind outcome_bind] in H. fold (childHeight s) in H. unfold worked. destruct (QdayActive s (childHeight s)).
  - ok_step H. ok_step H. destruct v0 as [n c]. injection H as <- _. apply searchWork_inv in E0 as [Hn Hv]; [|apply He].
    exists n. split_and!; [done|done|]. by exists v.
  - injection H as <- _. exists (qe_Nonce e). split_and!; [|apply He|done]. destruct e, txn; cbn in *. unfold set_Nonce. cbn. by rewrite Hd.
Qed.
Lemma Prepare_ok fuel ctx s txn e : v2tx_ArbitraryData txn = QdayEnvelope_Encode e -> envelope_ok e -> not_cancelled ctx ->
  (QdayActive s (childHeight s) = true -> exists p intent k, n_Qday (s_Network s) = Some p /\ QdayWorkIntent s txn = Ok intent /\
     (k <= fuel)%nat /\ QdayWorkValid intent (u64 (qe_Nonce e + Z.of_nat k)) (qd_DefendBits p) = true) ->
  exists txn1 ctx1, PrepareTransactionWork fuel ctx s txn = Ok (txn1, ctx1) /\ not_cancelled ctx1.
Proof.
  intros Hd He Hctx Hwork. unfold PrepareTransactionWork. rewrite Hd, Parse_Encode by done. cbn [mbind outcome_bind]. fold (childHeight s).
  destruct (QdayActive s (childHeight s)); [|by eexists _, _]. destruct (Hwork eq_refl) as (p & intent & k & -> & -> & Hk & Hv).
  cbn [mbind outcome_bind]. destruct (searchWork_finds intent _ k fuel ctx (qe_Nonce e) Hk Hctx Hv (eo_nonce _ He)) as (n & c & -> & Hc).
  cbn [mbind outcome_bind]. by eexists _, _.
Qed.

Lemma SignTransfer_inv fuel ctx s txn keys txn' ctx' e : v2tx_ArbitraryData txn = QdayEnvelope_Encode e -> envelope_ok e ->
  SignTransfer fuel ctx s txn keys = Ok (txn', ctx') ->
  exists n w, txn' = signed txn e n w /\ is_u64 n /\ QdayPrivateKeys_Sign keys (InputSigHash s txn') = Ok w /\ worked s txn' e n.
Proof.
  intros Hd He H. unfold SignTransfer in H. ok_step H. destruct v as [txn1 ctx1]. destruct (poll ctx1) as [[] ctx2]; [done|]. ok_step H.
  injection H as <- _. apply (Prepare_inv _ _ _ _ _ _ e Hd He) in E as (n & -> & Hn & Hw). exists n, v.
  split_and!; [done|done|by rewrite witness_sigHash|]. by apply (worked_signed s txn e n v).
Qed.

(** Signing succeeds for keys that accept their own signatures, once work is in reach. *)
Lemma SignTransfer_ok fuel ctx s txn keys e `{!SchemeCorrect keys} : v2tx_ArbitraryData txn = QdayEnvelope_Encode e ->
  envelope_ok e -> not_cancelled ctx ->
  (QdayActive s (childHeight s) = true -> exists p intent k, n_Qday (s_Network s) = Some p /\ QdayWorkIntent s txn = Ok intent /\
     (k <= fuel)%nat /\ QdayWorkValid intent (u64 (qe_Nonce e + Z.of_nat k)) (qd_DefendBits p) = true) ->
  exists txn' ctx', SignTransfer fuel ctx s txn keys = Ok (txn', ctx') /\ not_cancelled ctx'.
Proof.
  intros Hd He Hctx Hwork. unfold SignTransfer. destruct (Prepare_ok fuel ctx s txn e Hd He Hctx Hwork) as (txn1 & ctx1 & -> & Hc1).
  cbn [mbind outcome_bind]. destruct (poll_live ctx1 Hc1) as (ctx2 & -> & Hc2).
  destruct (Sign_signed keys (InputSigHash s txn1)) as (w & -> & _). cbn [mbind outcome_bind]. by eexists _, _.
Qed.
End Work.

Lemma zlen_map {A B} (f : A -> B) l : zlen (map f l) = zlen l.
Proof. unfold zlen. by rewrite length_map. Qed.
Lemma zlen_flat_map_le {A} (f : A -> bytes) l n : (forall x, x ∈ l -> zlen (f x) <= n) -> zlen (flat_map f l) <= n * zlen l.
Proof.
  induction l as [|x l IH]; intros H; [unfold zlen; cbn; lia|]. cbn [flat_map]. rewrite zlen_app.
  pose proof (H x ltac:(left)). specialize (IH ltac:(intros; apply H; by right)). unfold zlen in *. cbn [length]. lia.
Qed.
Lemma zlen_flat_map {A} (f : A -> bytes) l n : (forall x, x ∈ l -> zlen (f x) = n) -> zlen (flat_map f l) = n * zlen l.
Proof.
  induction l as [|x l IH]; intros H; [unfold zlen; cbn; lia|]. cbn [flat_map]. rewrite zlen_app, IH, H by (try (intros; apply H; by right); left).
  unfold zlen. cbn [length]. lia.
Qed.

(** ** A signed transfer is valid *)
Section Valid.
Context {crypto : Crypto} {edwards : Edwards25519}.
Context (ms : MidState) (p : QdayParams) (self : Address).
Abbreviation base := (ms_base ms).

(** A confirmed, mature, unspent output at the address. *)
Record own_input (i : V2SiacoinInput) : Prop := {
  oi_address : sco_Address (sce_SiacoinOutput (v2sci_Parent i)) = self;
  oi_mature : sce_MaturityHeight (v2sci_Parent i) <= childHeight base;
  oi_leaf : se_LeafIndex (sce_StateElement (v2sci_Parent i)) <> UnassignedLeafIndex;
  oi_unspent : containsUnspentSiacoinElement (s_Elements base) (SiacoinElement_Share (v2sci_Parent i)) = true;
  oi_free : ms_isSpent ms (sce_ID (v2sci_Parent i)) = false;
  oi_id : length (sce_ID (v2sci_Parent i)) = 32%nat }.

Record transfer_ready (txn : V2Transaction) (e : QdayEnvelope) : Prop := {
  tr_typed : txn_typed txn; tr_nominal : nominal_total txn < two128;
  tr_plain : qdayUnsupported txn = false;
  tr_data : v2tx_ArbitraryData txn = QdayEnvelope_Encode e; tr_envelope : envelope_ok e;
  tr_kind : qe_Kind e = QdayTransfer \/
    qe_Kind e = QdayCanaryProof /\ s_QdayHeight base = 0 /\ ms_qdayProved ms = false /\ qe_Nonce e = 0 /\
    VerifyQdayProof (qd_Canary p) (qe_Witness e) = true /\ 0 <= Currency.Cmp (v2tx_MinerFee txn) (qd_ProofFee p);
  tr_keys : qe_Keys e = [];
  tr_inputs : 0 < zlen (v2tx_SiacoinInputs txn) <= 128;
  tr_outputs : zlen (v2tx_SiacoinOutputs txn) <= 128;
  tr_pays : qe_Kind e = QdayTransfer -> v2tx_SiacoinOutputs txn <> [];
  tr_nonzero : existsb (fun o => Currency.IsZero (sco_Value o)) (v2tx_SiacoinOutputs txn) = false;
  tr_addresses : Forall (fun o => length (sco_Address o) = 32%nat) (v2tx_SiacoinOutputs txn);
  tr_value : outputs_total txn + Currency.val (v2tx_MinerFee txn) <= spendable_total base p txn;
  tr_own : Forall own_input (v2tx_SiacoinInputs txn);
  tr_distinct : NoDup (map (fun i => sce_ID (v2sci_Parent i)) (v2tx_SiacoinInputs txn)) }.

Context (Hs : qday_state base p) (median : Time) (Hmedian : medianTimestamp base = Ok median).
Context (Hself : length self = 32%nat) (Hallow : n_V2_AllowHeight (s_Network base) <= childHeight base).

(** A witness that consensus accepts for the address. *)
Record witness_for (h : Hash256) (w : SatisfiedPolicy) : Prop := {
  wn_address : SpendPolicy_Address (sat_Policy w) = self;
  wn_verify : Verify (ci_Height (s_Index base)) median h (sat_Policy w) (sat_Signatures w) (sat_Preimages w) = Ok tt;
  wn_shape : IsQdayNativePolicy (sat_Policy w) = true \/
    QdayV1Active base (childHeight base) = true /\ IsQdaySwapSpendPolicy (sat_Policy w) = true;
  wn_size : zlen (SatisfiedPolicy_EncodeTo w) <= 8300 }.

Lemma signed_inputs_ok h w : witness_for h w -> forall l k spent, Forall own_input l ->
  NoDup (map (fun i => sce_ID (v2sci_Parent i)) l) -> (forall i, i ∈ l -> sce_ID (v2sci_Parent i) ∉ spent) ->
  exists spent', for_each (map (with_witness w) l) k spent (fun _ sci spent => validateV2SiacoinInput ms h sci spent) = Ok spent'.
Proof.
  intros Hw. induction l as [|i l IH]; intros k spent Ho Hn Hd; [by eexists|].
  apply Forall_cons in Ho as [Hi Ho]. cbn [map] in Hn. apply NoDup_cons in Hn as [Hni Hn]. cbn [map for_each].
  assert (validateV2SiacoinInput ms h (with_witness w i) spent = Ok ({[ sce_ID (v2sci_Parent i) ]} ∪ spent)) as ->.
  { unfold validateV2SiacoinInput. cbn [with_witness v2sci_Parent v2sci_SatisfiedPolicy]. destruct Hi as [H1 H2 H3 H4 H5 _].
    rewrite H5, (bool_decide_eq_false_2 (_ ∈ spent)) by (apply Hd; left). cbn [fail_if mbind outcome_bind].
    rewrite (proj2 (Z.ltb_ge _ _)) by done. cbn [fail_if mbind outcome_bind]. rewrite (proj2 (Z.eqb_neq _ _)) by done. rewrite H4.
    cbn [negb mbind outcome_bind]. unfold validateV2SpendPolicy. rewrite H1, (wn_address _ _ Hw), bool_decide_eq_true_2 by done.
    cbn [negb fail_if mbind outcome_bind]. rewrite Hmedian. cbn [mbind outcome_bind]. by rewrite (wn_verify _ _ Hw). }
  cbn [mbind outcome_bind]. apply IH; [done|done|]. intros j Hj. rewrite not_elem_of_union, not_elem_of_singleton. split; [|apply Hd; by right].
  intros E. apply Hni. rewrite <- E. by apply list_elem_of_fmap_2 with (f := fun i => sce_ID (v2sci_Parent i)).
Qed.

(** ** Weight *)
Lemma output_size o : length (sco_Address o) = 32%nat -> zlen (V2SiacoinOutput_EncodeTo o) = 48.
Proof.
  intros H. unfold V2SiacoinOutput_EncodeTo, V2Currency_EncodeTo, WriteUint64, Array_EncodeTo, zlen.
  rewrite !length_app, !length_le_encode, H. done.
Qed.
Lemma input_size h w i : witness_for h w -> own_input i ->
  zlen (V2SiacoinInput_EncodeTo (sci_nilProof (with_witness w i))) <= 8404.
Proof.
  intros Hw Hi. unfold V2SiacoinInput_EncodeTo. cbn [sci_nilProof with_witness v2sci_Parent v2sci_SatisfiedPolicy].
  rewrite zlen_app. pose proof (wn_size _ _ Hw). assert (zlen (SiacoinElement_EncodeTo (v2sci_Parent (sci_nilProof (with_witness w i)))) = 104) as E; [|cbn in *; lia].
  unfold SiacoinElement_EncodeTo, StateElement_EncodeTo, EncodeSlice. cbn [sci_nilProof with_witness v2sci_Parent]. rewrite !zlen_app.
  rewrite output_size by (cbn; rewrite (oi_address _ Hi); exact Hself). unfold zlen, WriteUint64, Array_EncodeTo.
  rewrite !length_le_encode. cbn. rewrite (oi_id _ Hi). done.
Qed.

Lemma signed_weight txn e n w h : transfer_ready txn e -> witness_for h w ->
  0 < V2TransactionWeight (signed txn e n w) <= MaxBlockWeight.
Proof.
  intros [] Hw. apply qdayUnsupported_nil in tr_plain0 as (E1 & E2 & E3 & E4 & E5 & E6 & E7).
  unfold V2TransactionWeight, signed. cbn [set_SiacoinInputs set_ArbitraryData v2tx_SiacoinInputs v2tx_SiacoinOutputs
    v2tx_SiafundInputs v2tx_SiafundOutputs v2tx_FileContracts v2tx_FileContractRevisions v2tx_FileContractResolutions
    v2tx_Attestations v2tx_ArbitraryData v2tx_NewFoundationAddress].
  rewrite E1, E2, E3, E4, E5, E6, E7. cbn [flat_map app]. rewrite !zlen_app, app_nil_r || rewrite !zlen_app.
  assert (0 <= zlen (flat_map (fun i => V2SiacoinInput_EncodeTo (sci_nilProof i)) (map (with_witness w) (v2tx_SiacoinInputs txn)))
            <= 8404 * zlen (v2tx_SiacoinInputs txn)) as Hins.
  { split; [apply zlen_nonneg|]. rewrite <- (zlen_map (with_witness w)). apply zlen_flat_map_le.
    intros i (j & -> & Hj)%list_elem_of_fmap. rewrite Forall_forall in tr_own0. eapply input_size; [done|]. by apply tr_own0. }
  rewrite (zlen_flat_map V2SiacoinOutput_EncodeTo _ 48).
  - assert (0 < zlen (QdayEnvelope_Encode (set_Nonce e n)) <= 48) as Hd.
    { unfold QdayEnvelope_Encode. cbn [set_Nonce qe_Kind qe_Nonce qe_Keys qe_Witness]. rewrite tr_keys0. cbn [flat_map].
      destruct (eo_witness _ tr_envelope0) as [Lw _]. unfold zlen. rewrite !length_app, !length_le_encode. cbn. destruct (_ =? _); cbn; lia. }
    pose proof (zlen_nonneg (v2tx_SiacoinOutputs txn)).
    change (zlen (@nil Z)) with 0. unfold MaxBlockWeight. lia.
  - intros o Ho. apply output_size. rewrite Forall_forall in tr_addresses0. by apply tr_addresses0.
Qed.

Lemma signed_parents txn e n w : map v2sci_Parent (v2tx_SiacoinInputs (signed txn e n w)) = map v2sci_Parent (v2tx_SiacoinInputs txn).
Proof. unfold signed. cbn [set_SiacoinInputs v2tx_SiacoinInputs]. by rewrite map_map. Qed.
Lemma signed_typed txn e n w : txn_typed txn -> txn_typed (signed txn e n w).
Proof.
  intros [H1 H2 H3]. split; [|done|done]. intros i (j & -> & Hj)%list_elem_of_fmap. exact (H1 j Hj).
Qed.
Lemma signed_sums txn e n w : nominal_total (signed txn e n w) = nominal_total txn /\
  spendable_total base p (signed txn e n w) = spendable_total base p txn.
Proof.
  unfold nominal_total, spendable_total, total. rewrite <- !(map_map v2sci_Parent (fun e => spendable base p e (childHeight base))).
  rewrite <- !(map_map v2sci_Parent (fun e => sco_Value (sce_SiacoinOutput e))). by rewrite signed_parents.
Qed.

Lemma for_each_units {A} (l : list A) i (f : nat -> A -> unit -> outcome unit) : (forall j x u, x ∈ l -> f j x u = Ok tt) ->
  for_each l i tt f = Ok tt.
Proof.
  revert i. induction l as [|x l IH]; intros i H; [done|]. cbn [for_each]. rewrite H by left. cbn [mbind outcome_bind].
  apply IH. intros j y u Hy. apply H. by right.
Qed.

Lemma signed_qday_ok txn e n w h : transfer_ready txn e -> is_u64 n -> witness_for h w -> worked base (signed txn e n w) e n ->
  validateQdayTransaction ms (signed txn e n w) = Ok tt.
Proof.
  intros [] Hn Hp Hwork. unfold worked in Hwork. unfold validateQdayTransaction. rewrite (qs_net _ _ Hs) in Hwork |- *.
  change (v2tx_ArbitraryData (signed txn e n w)) with (QdayEnvelope_Encode (set_Nonce e n)).
  rewrite Parse_Encode by (destruct tr_envelope0; by split). cbn [mbind outcome_bind].
  change (qdayUnsupported (signed txn e n w)) with (qdayUnsupported txn). rewrite tr_plain0.
  change (v2tx_MinerFee (signed txn e n w)) with (v2tx_MinerFee txn).
  change (v2tx_SiacoinOutputs (signed txn e n w)) with (v2tx_SiacoinOutputs txn).
  change (v2tx_SiacoinInputs (signed txn e n w)) with (map (with_witness w) (v2tx_SiacoinInputs txn)).
  cbn [set_Nonce qe_Kind qe_Nonce qe_Keys qe_Witness fail_if mbind outcome_bind].
  assert (qe_Kind e <> QdayCoinbase /\ qe_Kind e <> QdayMiningWork) as [K1 K2].
  { unfold QdayTransfer, QdayCanaryProof, QdayCoinbase, QdayMiningWork in *. lia. }
  rewrite (proj2 (Z.eqb_neq _ _) K1), (proj2 (Z.eqb_neq _ _) K2). cbn [fail_if mbind outcome_bind].
  assert ((if qe_Kind e =? QdayCanaryProof then
             _ ← fail_if (negb (s_QdayHeight base =? 0) || ms_qdayProved ms || negb (n =? 0) ||
                          negb (VerifyQdayProof (qd_Canary p) (qe_Witness e))) "invalid or repeated QDAY proof";
             fail_if (Currency.Cmp (v2tx_MinerFee txn) (qd_ProofFee p) <? 0) "QDAY proof does not pay the minimum network fee"
           else Ok tt) = Ok tt) as ->.
  { destruct tr_kind0 as [K|(K & Hq & Hpr & Hz & Hv & Hf)]; rewrite K; [done|]. cbn.
    assert (n = 0) as ->.
    { unfold QdayActive in Hwork. rewrite (qs_net _ _ Hs), Hq in Hwork. cbn in Hwork. congruence. }
    rewrite Hq, Hpr, Hv. cbn. by rewrite (proj2 (Z.ltb_ge _ _)). }
  cbn [mbind outcome_bind]. rewrite zlen_map.
  rewrite (proj2 (Z.eqb_neq _ 0)), (proj2 (Z.ltb_ge 128 (zlen (v2tx_SiacoinInputs txn)))), (proj2 (Z.ltb_ge 128 (zlen (v2tx_SiacoinOutputs txn)))) by lia.
  rewrite tr_keys0. change (negb (zlen (@nil QdayKeys) =? 0)) with false. rewrite orb_false_r.
  assert ((zlen (v2tx_SiacoinOutputs txn) =? 0) && negb (qe_Kind e =? QdayCanaryProof) = false) as ->.
  { destruct tr_kind0 as [K|(K & _)]; rewrite K; [|by rewrite andb_false_r]. destruct (v2tx_SiacoinOutputs txn) eqn:Eo; [by specialize (tr_pays0 K)|done]. }
  cbn [orb fail_if mbind outcome_bind]. rewrite for_each_units.
  2:{ intros j x [] (y & -> & _)%list_elem_of_fmap. cbn [with_witness v2sci_SatisfiedPolicy].
      destruct (wn_shape _ _ Hp) as [->|[-> ->]]; [done|]. by destruct (IsQdayNativePolicy _). }
  cbn [mbind outcome_bind]. destruct (QdayActive _ _); [|done]. destruct Hwork as (intent & -> & Hv). cbn [mbind outcome_bind]. by rewrite Hv.
Qed.

(** Signed by a witness for the address, a transfer that is ready is one that consensus accepts. *)
Lemma signed_valid txn e n w : transfer_ready txn e -> is_u64 n -> witness_for (InputSigHash base (signed txn e n w)) w ->
  worked base (signed txn e n w) e n -> ValidateV2Transaction ms (signed txn e n w) = Ok tt.
Proof.
  intros Hr Hn Hw Hwork. pose proof Hr as []. destruct (signed_sums txn e n w) as [E1 E2].
  rewrite (ValidateV2Transaction_eval ms p) by (done || by apply signed_typed || by rewrite E1).
  rewrite (signed_qday_ok txn e n w _ Hr Hn Hw Hwork). cbn [mbind outcome_bind].
  rewrite (proj2 (Z.ltb_ge (childHeight base) _)) by exact Hallow. cbn [fail_if mbind outcome_bind].
  change (outputs_total (signed txn e n w)) with (outputs_total txn). change (v2tx_MinerFee (signed txn e n w)) with (v2tx_MinerFee txn).
  pose proof (spendable_nominal base p txn (qs_schedule _ _ Hs) tr_typed0).
  rewrite (proj2 (Z.leb_gt two128 (outputs_total txn + Currency.val (v2tx_MinerFee txn)))) by lia. cbn [fail_if mbind outcome_bind].
  pose proof (signed_weight txn e n w _ Hr Hw) as Hwt. rewrite (proj2 (Z.eqb_neq _ 0)), (proj2 (Z.ltb_ge MaxBlockWeight _)) by lia.
  cbn [fail_if mbind outcome_bind]. set (h := InputSigHash base (signed txn e n w)) in *.
  change (v2tx_SiacoinInputs (signed txn e n w)) with (map (with_witness w) (v2tx_SiacoinInputs txn)).
  destruct (signed_inputs_ok h w Hw (v2tx_SiacoinInputs txn) 0%nat ∅ tr_own0 tr_distinct0) as [spent ->]; [set_solver|]. cbn [mbind outcome_bind].
  change (v2tx_SiacoinOutputs (signed txn e n w)) with (v2tx_SiacoinOutputs txn). rewrite tr_nonzero0, E2. cbn [fail_if mbind outcome_bind].
  by rewrite (proj2 (Z.ltb_ge _ _)) by lia.
Qed.
End Valid.

(** ** The wallet's own signature *)
Section Native.
Context {crypto : Crypto} {edwards : Edwards25519}.
Context (ms : MidState) (p : QdayParams) (keys : QdayPrivateKeys).
Abbreviation base := (ms_base ms).
Abbreviation self := (QdayKeys_Address (qp_Public keys)).
Context (Hs : qday_state base p) (median : Time) (Hmedian : medianTimestamp base = Ok median).
Context (Hkeys : SchemeCorrect keys) (Hpub : key_ok (qp_Public keys)) (Hself : length self = 32%nat).
Context (Hallow : n_V2_AllowHeight (s_Network base) <= childHeight base).

Lemma witness_size h w : QdayPrivateKeys_Sign keys h = Ok w -> zlen (SatisfiedPolicy_EncodeTo w) = 8022.
Proof.
  intros H. unfold QdayPrivateKeys_Sign in H. do 2 ok_step H. apply Ok_inj in H. subst w. destruct Hpub as (L1 & L2 & _).
  unfold SatisfiedPolicy_EncodeTo, SpendPolicy_EncodeTo, QdayKeys_Policy, EncodeSlice. cbn [sat_Policy sat_Signatures sat_Preimages].
  rewrite !zlen_app. rewrite (zlen_flat_map _ (map _ _) 32).
  - unfold zlen, WriteUint64, WriteUint8. cbn [encodePolicy flat_map]. rewrite !length_app, !length_le_encode, length_map, length_seq, QdaySignatureChunks_val.
    unfold Array_EncodeTo, SignHash, WriteUint8. rewrite L1, L2, length_to_array. done.
  - intros x (i & -> & _)%list_elem_of_fmap. unfold zlen, Array_EncodeTo, sig_chunk. by rewrite length_to_array.
Qed.
(** The native policy accepts the signature. *)
Lemma Sign_verifies h w : QdayPrivateKeys_Sign keys h = Ok w -> witness_for ms self median h w.
Proof.
  intros Hw. pose proof (witness_size h w Hw) as Hz. destruct (Sign_signed keys h) as (w' & Hw' & Hp & Hh & Hl). rewrite Hw in Hw'. injection Hw' as <-.
  split; [by rewrite Hp| |left; by rewrite Hp|lia]. rewrite Hp. apply Verify_Sat; [cbn; unfold is_u8; repeat split; lia|].
  split_and!; [by apply Sat_native_iff|vm_compute; discriminate|repeat split; vm_compute; discriminate].
Qed.
(** [SignTransfer] turns a transfer that is ready into one that consensus accepts. *)
Lemma signed_transfer_valid fuel ctx txn e txn' ctx' : transfer_ready ms p self txn e ->
  SignTransfer fuel ctx base txn keys = Ok (txn', ctx') -> ValidateV2Transaction ms txn' = Ok tt.
Proof.
  intros Hr H. destruct (SignTransfer_inv _ _ _ _ _ _ _ e (tr_data _ _ _ _ _ Hr) (tr_envelope _ _ _ _ _ Hr) H) as (n & w & -> & Hn & Hw & Hwork).
  exact (signed_valid ms p self Hs median Hmedian Hself Hallow txn e n w Hr Hn (Sign_verifies _ w Hw) Hwork).
Qed.
End Native.
