(* ===== verification/QdayPaymentSpec.v ===== *)
(** * The payments the wallet builds

    Choosing outputs for a payment: what [fund] takes, that it is the best choice of 128
    outputs, what [pay] makes of it, and that the signed transaction passes
    [ValidateV2Transaction]. *)
From stdpp Require Import prelude strings gmap.
From Stdlib Require Import ZArith Lia Sorting.Sorted.
From S2P Require Import Prelude TypesCurrency TypesData TypesEncoding TypesHash TypesPolicy TypesPolicySpec TypesQdayAddress.
From S2P Require Import ConsensusWork ConsensusState ConsensusMerkle ConsensusQday ConsensusQdaySpec.
From S2P Require Import ConsensusMidState ConsensusMidStateSpec ConsensusApply ConsensusValidateV1 ConsensusValidate.
From S2P Require Import ConsensusEnvelopeSpec ConsensusValidateSpec ConsensusBlockSpec ConsensusPanicSpec.
From S2P Require Import ChainStore ChainPool QdayMiner QdayMinerSpec QdayService.

(** What Go promises of the orders it leaves open. *)
Class GoOrderSpec `{order : GoOrder} : Prop := {
  sort_perm : forall A less (l : list A), sort_Slice less l ≡ₚ l;
  sort_sorted : forall A less (l : list A),
    (forall a b, less a b = true -> less b a = false) ->
    (forall a b c, less b a = false -> less c b = false -> less c a = false) ->
    StronglySorted (fun a b => less b a = false) (sort_Slice less l);
  range_perm : forall A (l : list A), range_map l ≡ₚ l }.

(** Insertion sort, and visiting in order, are among them. *)
Definition stable_order : GoOrder := {| sort_Slice A := sort_by; range_map A l := l |}.

Lemma insert_by_perm {A} (less : A -> A -> bool) x l : insert_by less x l ≡ₚ x :: l.
Proof.
  induction l as [|y l IH]; [done|]. cbn [insert_by]. destruct (less y x); [|done].
  rewrite IH. apply Permutation_swap.
Qed.
Lemma sort_by_perm {A} (less : A -> A -> bool) l : sort_by less l ≡ₚ l.
Proof. induction l as [|x l IH]; [done|]. cbn. rewrite insert_by_perm. by f_equiv. Qed.
Lemma insert_by_sorted {A} (less : A -> A -> bool) x l :
  (forall a b, less a b = true -> less b a = false) ->
  (forall a b c, less b a = false -> less c b = false -> less c a = false) ->
  StronglySorted (fun a b => less b a = false) l -> StronglySorted (fun a b => less b a = false) (insert_by less x l).
Proof.
  intros Ha Ht. induction 1 as [|y l Hl IH Hy]; [repeat constructor|]. cbn [insert_by]. destruct (less y x) eqn:E.
  - constructor; [done|]. rewrite insert_by_perm. constructor; [by apply Ha|done].
  - constructor; [by constructor|]. constructor; [done|]. eapply Forall_impl; [done|]. intros z Hz. by eapply Ht.
Qed.
#[export] Instance stable_order_spec : GoOrderSpec (order := stable_order).
Proof.
  split; cbn.
  - intros A less l. apply sort_by_perm.
  - intros A less l Ha Ht. induction l as [|x l IH]; [constructor|]. cbn. by apply insert_by_sorted.
  - done.
Qed.

(** ** The heaviest outputs *)
Definition sumZ {A} (f : A -> Z) (l : list A) : Z := sum_Z (map f l).
Lemma sumZ_cons {A} (f : A -> Z) x l : sumZ f (x :: l) = f x + sumZ f l.
Proof. done. Qed.
Lemma sumZ_app {A} (f : A -> Z) l k : sumZ f (l ++ k) = sumZ f l + sumZ f k.
Proof. unfold sumZ, sum_Z. rewrite map_app. induction l as [|x l IH]; cbn in *; lia. Qed.
Lemma sumZ_nonneg {A} (f : A -> Z) l : (forall x, x ∈ l -> 0 <= f x) -> 0 <= sumZ f l.
Proof. apply sum_Z_nonneg. Qed.
#[export] Instance sumZ_perm {A} (f : A -> Z) : Proper ((≡ₚ) ==> eq) (sumZ f).
Proof. induction 1; rewrite ?sumZ_cons in *; lia. Qed.
Lemma sumZ_submseteq {A} (f : A -> Z) l k : (forall x, x ∈ k -> 0 <= f x) -> l ⊆+ k -> sumZ f l <= sumZ f k.
Proof.
  intros Hk H. apply submseteq_Permutation in H as [r Hr]. rewrite Hr, sumZ_app.
  assert (0 <= sumZ f r); [|lia]. apply sumZ_nonneg. intros x Hx. apply Hk. rewrite Hr. apply elem_of_app. by right.
Qed.

(** In a list sorted by weight the first [n] elements are the heaviest [n]. *)
Lemma heaviest {A} (f : A -> Z) (l S : list A) (n : nat) : (forall x, x ∈ l -> 0 <= f x) ->
  StronglySorted (fun a b => f b <= f a) l -> S ⊆+ l -> (length S <= n)%nat -> sumZ f S <= sumZ f (take n l).
Proof.
  intros Hl Hs. revert S n. induction Hs as [|x l Hs IH Hx]; intros S n HS Hn.
  { apply submseteq_nil_r in HS as ->. by rewrite take_nil. }
  assert (forall y, y ∈ l -> 0 <= f y) as Hl' by (intros y Hy; apply Hl; by right).
  pose proof (Hl x ltac:(left)) as Hx0. rewrite Forall_forall in Hx.
  destruct n as [|n]; [destruct S; [done|cbn in Hn; lia]|]. cbn [take]. rewrite sumZ_cons.
  apply submseteq_cons_r in HS as [HS|(S' & E & HS)].
  - destruct S as [|y S].
    + assert (0 <= sumZ f (take n l)); [|cbn; lia]. apply sumZ_nonneg. intros y Hy. apply Hl'.
      rewrite <- (take_drop n l). apply elem_of_app. by left.
    + apply submseteq_cons_l in HS as (k & Ek & HS). cbn in Hn. rewrite sumZ_cons.
      pose proof (Hx y ltac:(rewrite Ek; left)). specialize (IH Hl' S n).
      assert (S ⊆+ l) by (rewrite Ek; by apply submseteq_cons). specialize (IH ltac:(done) ltac:(lia)). lia.
  - rewrite E, sumZ_cons. apply Permutation_length in E. cbn in E. specialize (IH Hl' S' n HS ltac:(lia)). lia.
Qed.

(** ** The order of spending *)
Lemma Cmp_cases c v :
  ((Currency.Hi c = Currency.Hi v /\ Currency.Lo c = Currency.Lo v) /\ Currency.Cmp c v = 0) \/
  ((Currency.Hi c < Currency.Hi v \/ Currency.Hi c = Currency.Hi v /\ Currency.Lo c < Currency.Lo v) /\ Currency.Cmp c v = -1) \/
  ((Currency.Hi v < Currency.Hi c \/ Currency.Hi v = Currency.Hi c /\ Currency.Lo v < Currency.Lo c) /\ Currency.Cmp c v = 1).
Proof.
  unfold Currency.Cmp. case_bool_decide as E; [left; by subst v|right].
  assert (Currency.Hi c <> Currency.Hi v \/ Currency.Lo c <> Currency.Lo v) as Hne.
  { destruct c as [l h], v as [l' h']; cbn. destruct (Z.eq_dec h h') as [->|]; [|by left]. right. intros ->. done. }
  destruct (_ || _) eqn:Eb; [left|right]; (split; [|done]).
  - apply orb_true_iff in Eb as [?%Z.ltb_lt|[?%Z.eqb_eq ?%Z.ltb_lt]%andb_true_iff]; lia.
  - apply orb_false_iff in Eb as [?%Z.ltb_ge [?%Z.eqb_neq|?%Z.ltb_ge]%andb_false_iff]; lia.
Qed.

Ltac cmp_cases := repeat match goal with
  | |- context [Currency.Cmp ?a ?b] => let H := fresh "HC" in destruct (Cmp_cases a b) as [[H ->]|[[H ->]|[H ->]]]
  end.
Lemma spend_before_asym mode a b : spend_before mode a b = true -> spend_before mode b a = false.
Proof.
  unfold spend_before. case_bool_decide; [intros H1%Z.ltb_lt; apply Z.ltb_ge; lia|].
  cmp_cases; cbn; try done; try (intros; lia); intros H1%Z.ltb_lt; apply Z.ltb_ge; lia.
Qed.
Lemma spend_before_trans mode a b c : spend_before mode b a = false -> spend_before mode c b = false -> spend_before mode c a = false.
Proof.
  unfold spend_before. case_bool_decide; [intros H1%Z.ltb_ge H2%Z.ltb_ge; apply Z.ltb_ge; lia|].
  cmp_cases; cbn; try done; try (intros; lia); intros H1%Z.ltb_ge H2%Z.ltb_ge; apply Z.ltb_ge; lia.
Qed.

(** ** Choosing outputs *)
Definition element_of (o : UnspentSiacoinElement) : SiacoinElement := use_SiacoinElement o.

Section Payment.
Context {crypto : Crypto} {edwards : Edwards25519}.
Context (cs : State) (p : QdayParams) (Hs : qday_state cs p).

(** The value of an output when a payment made now confirms one block late. *)
Definition worth (o : UnspentSiacoinElement) : Z := spendable cs p (element_of o) (spend_height cs).

(** What the fields of an output in the index are. *)
Definition output_typed (o : UnspentSiacoinElement) : Prop :=
  Currency.ok (sco_Value (sce_SiacoinOutput (element_of o))) /\ is_u64 (sce_MaturityHeight (element_of o)).

Lemma worth_value o : output_typed o -> QdayValue cs (element_of o) (spend_height cs) = Ok (Currency.of_Z (worth o)).
Proof. intros [Hv Hm]. destruct Hs as [Hn Hsch Hq]. apply QdayValue_spendable; try done. apply u64_range. Qed.
Lemma worth_bounds o : output_typed o -> 0 <= worth o <= Currency.val (sco_Value (sce_SiacoinOutput (element_of o))).
Proof. intros [Hv _]. apply spendable_bounds; [apply Hs|done]. Qed.
Lemma worth_zero o : output_typed o -> Currency.IsZero (Currency.of_Z (worth o)) = (worth o =? 0).
Proof.
  intros Ho. pose proof (worth_bounds o Ho) as Hb. pose proof (Currency.ok_val _ (proj1 Ho)). unfold Currency.IsZero.
  destruct (Z.eqb_spec (worth o) 0) as [->|Hne]; [by apply bool_decide_eq_true_2|].
  apply bool_decide_eq_false_2. intros E%(f_equal Currency.val). rewrite Currency.val_of_Z in E by lia. done.
Qed.

Definition input_of (policy : SpendPolicy) (o : UnspentSiacoinElement) : V2SiacoinInput :=
  {| v2sci_Parent := element_of o;
     v2sci_SatisfiedPolicy := {| sat_Policy := policy; sat_Signatures := []; sat_Preimages := [] |} |}.

Section Fund.
Context (mode : submitMode) (policy : SpendPolicy) (required : Currency) (Hreq : Currency.ok required).

Lemma add_worth T o : output_typed o -> 0 <= T -> T + worth o < two128 ->
  Currency.Add (Currency.of_Z T) (Currency.of_Z (worth o)) = Ok (Currency.of_Z (T + worth o)).
Proof.
  intros Ho HT Hlt. pose proof (worth_bounds o Ho).
  rewrite Currency.Add_ok, !Currency.val_of_Z; try apply Currency.of_Z_ok; rewrite ?Currency.val_of_Z; try lia; done.
Qed.
Lemma worth_sum_nonneg outs : Forall output_typed outs -> 0 <= sumZ worth outs.
Proof. intros H. apply sumZ_nonneg. intros x Hx. rewrite Forall_forall in H. by apply worth_bounds, H. Qed.

(** Whatever the mode, the inputs are distinct members of the list with a positive value. *)
Lemma fund_inv outs : forall T inputs c ins, Forall output_typed outs -> 0 <= T -> T + sumZ worth outs < two128 ->
  zlen inputs < 128 -> fund cs mode policy required outs (Currency.of_Z T) inputs = Ok (c, ins) ->
  exists taken, sublist taken outs /\ c = Currency.of_Z (T + sumZ worth taken) /\ ins = inputs ++ map (input_of policy) taken /\
    Forall (fun o => 0 < worth o) taken /\ zlen ins <= 128.
Proof.
  induction outs as [|o outs IH]; intros T inputs c ins Ho HT Hlt Hlen H.
  { injection H as <- <-. exists []. split_and!; [constructor|cbn; f_equal; lia|by rewrite app_nil_r|done|lia]. }
  cbn [fund] in H. apply Forall_cons in Ho as [Ho Hos]. rewrite sumZ_cons in Hlt. pose proof (worth_bounds o Ho) as Hb.
  pose proof (worth_sum_nonneg outs Hos) as Hnn. change (use_SiacoinElement o) with (element_of o) in H.
  rewrite worth_value in H by done. cbn [mbind outcome_bind] in H. rewrite worth_zero in H by done.
  assert (forall T inputs, 0 <= T -> T + sumZ worth outs < two128 -> zlen inputs < 128 ->
    fund cs mode policy required outs (Currency.of_Z T) inputs = Ok (c, ins) -> _) as IH'
    by (intros T' inputs' H1 H2 H3 H4; exact (IH T' inputs' c ins Hos H1 H2 H3 H4)).
  destruct (Z.eqb_spec (worth o) 0) as [|Hne].
  { destruct (IH' T inputs HT ltac:(lia) Hlen H) as (taken & Hsub & Hrest). exists taken. split; [by constructor|done]. }
  ok_step H. destruct v.
  { destruct (IH' T inputs HT ltac:(lia) Hlen H) as (taken & Hsub & Hrest). exists taken. split; [by constructor|done]. }
  rewrite add_worth in H by (done || lia). cbn [mbind outcome_bind] in H.
  change {| v2sci_Parent := _; v2sci_SatisfiedPolicy := _ |} with (input_of policy o) in H.
  destruct ((zlen (inputs ++ [input_of policy o]) =? 128) || _) eqn:Es.
  - injection H as <- <-. exists [o]. split_and!; [by constructor; apply sublist_nil_l|cbn; do 2 f_equal; lia|done|repeat constructor; lia|].
    unfold zlen in *. rewrite length_app. cbn. lia.
  - apply orb_false_iff in Es as [Es%Z.eqb_neq _]. destruct (IH' (T + worth o) (inputs ++ [input_of policy o])) as (taken & Hsub & Hc & Hi & Hp & Hl);
      [lia|lia|unfold zlen in *; rewrite length_app in *; cbn in *; lia|done|].
    exists (o :: taken). split_and!; [by constructor|rewrite Hc, sumZ_cons; f_equal; lia| |constructor; [lia|done]|done].
    rewrite Hi, <- app_assoc. done.
Qed.

(** A payment takes a prefix of the positive outputs: enough of them, 128 of them or all. *)
Lemma fund_ok outs : mode <> submitDefend -> forall T inputs, Forall output_typed outs -> 0 <= T -> T + sumZ worth outs < two128 ->
  zlen inputs < 128 -> exists k, let taken := take k (filter (fun o => 0 < worth o) outs) in
  fund cs mode policy required outs (Currency.of_Z T) inputs =
    Ok (Currency.of_Z (T + sumZ worth taken), inputs ++ map (input_of policy) taken) /\
  (Currency.val required <= T + sumZ worth taken \/ zlen inputs + zlen taken = 128 \/
   taken = filter (fun o => 0 < worth o) outs).
Proof.
  intros Hmode. induction outs as [|o outs IH]; intros T inputs Ho HT Hlt Hlen.
  { exists 0%nat. cbn. rewrite app_nil_r, Z.add_0_r. split; [done|by right; right]. }
  apply Forall_cons in Ho as [Ho Hos]. rewrite sumZ_cons in Hlt. pose proof (worth_bounds o Ho) as Hb.
  pose proof (worth_sum_nonneg outs Hos) as Hnn. cbn [fund]. change (use_SiacoinElement o) with (element_of o).
  rewrite worth_value by done. cbn [mbind outcome_bind]. rewrite worth_zero by done. rewrite filter_cons.
  destruct (Z.eqb_spec (worth o) 0) as [E0|Hne]; [rewrite decide_False by lia; apply IH; (done || lia)|].
  rewrite decide_True by lia. rewrite (bool_decide_eq_false_2 (mode = submitDefend)) by done. cbn [mbind outcome_bind negb andb].
  rewrite add_worth by (done || lia). cbn [mbind outcome_bind].
  change {| v2sci_Parent := _; v2sci_SatisfiedPolicy := _ |} with (input_of policy o).
  rewrite Currency.Cmp_spec, Currency.val_of_Z by (done || apply Currency.of_Z_ok || lia).
  destruct ((zlen (inputs ++ [input_of policy o]) =? 128) || _) eqn:Es.
  - exists 1%nat. cbn [take]. rewrite take_0. cbn. split; [do 3 f_equal; lia|].
    apply orb_true_iff in Es as [Es%Z.eqb_eq|Es%Z.leb_le]; unfold zlen in *; rewrite ?length_app in Es; cbn in *.
    + right; left. lia.
    + left. destruct (_ =? _) eqn:E1; [apply Z.eqb_eq in E1; lia|]. destruct (_ <? _) eqn:E2; [lia|apply Z.ltb_ge in E2; lia].
  - apply orb_false_iff in Es as [Es%Z.eqb_neq _].
    destruct (IH (T + worth o) (inputs ++ [input_of policy o])) as (k & E & Hk);
      [done|lia|lia|unfold zlen in *; rewrite length_app in *; cbn in *; lia|].
    exists (S k). cbn [take]. rewrite E, sumZ_cons. cbn [map]. rewrite <- app_assoc. cbn [app]. split; [do 3 f_equal; lia|].
    destruct Hk as [Hk|[Hk|Hk]]; [left; lia|right; left; unfold zlen in *; rewrite length_app in Hk; cbn in *; lia|right; right; by rewrite Hk].
Qed.
End Fund.

Lemma for_each_keys outs : forall i acc, Forall output_typed outs ->
  for_each outs i acc (fun _ o acc => v ← QdayValue cs (use_SiacoinElement o) (spend_height cs); Ok (acc ++ [(v, o)])) =
  Ok (acc ++ map (fun o => (Currency.of_Z (worth o), o)) outs).
Proof.
  induction outs as [|o outs IH]; intros i acc Ho; cbn [for_each map]; [by rewrite app_nil_r|].
  apply Forall_cons in Ho as [Ho Hos]. change (use_SiacoinElement o) with (element_of o).
  rewrite worth_value by done. cbn [mbind outcome_bind]. rewrite IH by done. by rewrite <- app_assoc.
Qed.

Context {order : GoOrder} {Horder : GoOrderSpec}.

(** The outputs in the order of spending: the most valuable first, in a payment. *)
Lemma spending_order mode outs : Forall output_typed outs -> exists keyed l,
  sort_keys cs mode outs = Ok keyed /\ map snd (sort_Slice (spend_before mode) keyed) = l /\ l ≡ₚ outs /\
  (mode <> submitDefend -> StronglySorted (fun a b => worth b <= worth a) l).
Proof.
  intros Ho. unfold sort_keys. destruct (decide (mode = submitDefend)) as [Em|Em].
  { rewrite bool_decide_eq_true_2 by done. cbn [orb]. eexists _, _. split_and!; [done|done| |done].
    rewrite sort_perm, map_map, map_id. done. }
  rewrite bool_decide_eq_false_2 by done. cbn [orb]. destruct (Z.ltb_spec (zlen outs) 2) as [Hl|Hl].
  - eexists _, _. split_and!; [done|done|by rewrite sort_perm, map_map, map_id|]. intros _.
    match goal with |- StronglySorted _ (map snd ?l) => assert (length l <= 1)%nat as H1 end.
    { rewrite sort_perm, length_map. unfold zlen in Hl. lia. }
    destruct (sort_Slice _ _) as [|x [|y l]]; cbn in *; [constructor|repeat constructor|lia].
  - rewrite for_each_keys by done. cbn [app]. eexists _, _. split_and!; [done|done|by rewrite sort_perm, map_map, map_id|]. intros _.
    pose proof (sort_sorted _ (spend_before mode) (map (fun o => (Currency.of_Z (worth o), o)) outs)
      (spend_before_asym mode) (spend_before_trans mode)) as Hsorted.
    pose proof (sort_perm _ (spend_before mode) (map (fun o => (Currency.of_Z (worth o), o)) outs)) as Hperm.
    assert (Forall (fun k => k.1 = Currency.of_Z (worth k.2) /\ output_typed k.2)
      (sort_Slice (spend_before mode) (map (fun o => (Currency.of_Z (worth o), o)) outs))) as Hk.
    { rewrite Hperm. apply Forall_map. eapply Forall_impl; [exact Ho|]. done. }
    clear Hperm Hl. induction Hsorted as [|x l Hsort IH Hx]; cbn [map]; [constructor|]. apply Forall_cons in Hk as [[Hkx Htx] Hk].
    constructor; [by apply IH|]. apply Forall_map. rewrite Forall_forall in Hx, Hk |- *. intros y Hy.
    specialize (Hx y Hy). destruct (Hk y Hy) as [Hky Hty]. unfold spend_before in Hx. rewrite bool_decide_eq_false_2 in Hx by done.
    rewrite Hkx, Hky, Currency.Cmp_spec in Hx by apply Currency.of_Z_ok.
    pose proof (worth_bounds _ Htx). pose proof (worth_bounds _ Hty). pose proof (Currency.ok_val _ (proj1 Htx)). pose proof (Currency.ok_val _ (proj1 Hty)).
    rewrite !Currency.val_of_Z in Hx by lia. destruct (Z.eqb_spec (worth y.2) (worth x.2)); [lia|].
    destruct (Z.ltb_spec (worth y.2) (worth x.2)); [lia|done].
Qed.

(** ** Outputs of a payment *)
Lemma change_total change self : Currency.ok change -> total (values (change_outputs change self)) = Currency.val change /\
  existsb (fun o => Currency.IsZero (sco_Value o)) (change_outputs change self) = false /\
  Forall (fun o => Currency.ok (sco_Value o)) (change_outputs change self) /\ zlen (change_outputs change self) <= 1.
Proof.
  intros Hc. unfold change_outputs. destruct (Currency.IsZero change) eqn:E.
  - apply bool_decide_eq_true in E as ->. split_and!; done.
  - split_and!; [unfold total, values, sum_Z; cbn; lia|cbn; by rewrite E|constructor; [done|constructor]|done].
Qed.

Definition payee_of (mode : submitMode) (to : Address) : Address := if bool_decide (mode = submitBurn) then VoidAddress else to.
Definition is_payment (mode : submitMode) : Prop := mode = submitTransfer \/ mode = submitBurn.

(** The outputs and the fee use up the inputs exactly; a payment starts with the amount paid,
    and what is left returns to the wallet. *)
Record pays (mode : submitMode) (to self : Address) (amount : Currency) (T : Z) (fee : Currency) (outs : list SiacoinOutput)
    (e : QdayEnvelope) : Prop := {
  py_payment : is_payment mode -> exists change, outs = {| sco_Value := amount; sco_Address := payee_of mode to |} :: change_outputs change self;
  py_self : ~ is_payment mode -> Forall (fun o => sco_Address o = self) outs;
  py_total : total (values outs) + Currency.val fee = T;
  py_nonzero : existsb (fun o => Currency.IsZero (sco_Value o)) outs = false;
  py_ok : Forall (fun o => Currency.ok (sco_Value o)) outs;
  py_count : zlen outs <= 2;
  py_some : mode <> submitProof -> outs <> [];
  py_kind : qe_Kind e = if bool_decide (mode = submitProof) then QdayCanaryProof else QdayTransfer;
  py_nonce : qe_Nonce e = 0; py_keys : qe_Keys e = [] }.

Lemma payment_outputs_ok T amount fee payee self : Currency.ok amount -> Currency.ok fee ->
  Currency.val amount + Currency.val fee <= T < two128 -> exists change, Currency.ok change /\
  Currency.val change = T - Currency.val amount - Currency.val fee /\
  payment_outputs (Currency.of_Z T) amount fee payee self =
    Ok ({| sco_Value := amount; sco_Address := payee |} :: change_outputs change self).
Proof.
  intros Ha Hf HT. pose proof (Currency.ok_val _ Ha). pose proof (Currency.ok_val _ Hf). unfold payment_outputs.
  rewrite Currency.Sub_ok, Currency.val_of_Z by (done || apply Currency.of_Z_ok || (rewrite ?Currency.val_of_Z by lia; lia) || lia).
  cbn [mbind outcome_bind]. rewrite Currency.Sub_ok by (done || apply Currency.of_Z_ok || (rewrite Currency.val_of_Z by lia; lia)).
  cbn [mbind outcome_bind]. rewrite Currency.val_of_Z by lia. eexists. split; [|split; [|done]]; [apply Currency.of_Z_ok|].
  rewrite Currency.val_of_Z; lia.
Qed.

Lemma pays_payment mode T amount fee to change self e : Currency.ok amount -> Currency.ok change -> is_payment mode ->
  Currency.IsZero amount = false -> Currency.val change = T - Currency.val amount - Currency.val fee ->
  qe_Kind e = QdayTransfer -> qe_Nonce e = 0 -> qe_Keys e = [] ->
  pays mode to self amount T fee ({| sco_Value := amount; sco_Address := payee_of mode to |} :: change_outputs change self) e.
Proof.
  intros Ha Hc Hm Hz Hv H1 H2 H3. destruct (change_total change self Hc) as (C1 & C2 & C3 & C4). split; try done.
  - intros _. by exists change.
  - unfold total, values, sum_Z in *. cbn [map foldr sco_Value]. lia.
  - cbn [existsb sco_Value]. by rewrite Hz, C2.
  - by constructor.
  - unfold zlen in *. cbn. lia.
  - rewrite bool_decide_eq_false_2; [done|]. by destruct Hm as [-> | ->].
Qed.

Lemma Cmp_ltb T c : Currency.ok c -> 0 <= T < two128 -> (Currency.Cmp (Currency.of_Z T) c <? 0) = (T <? Currency.val c).
Proof.
  intros Hc HT. rewrite Currency.Cmp_spec, Currency.val_of_Z by (done || apply Currency.of_Z_ok).
  destruct (Z.eqb_spec T (Currency.val c)) as [->|]; [by rewrite (Z.ltb_irrefl (Currency.val c))|]. by destruct (T <? Currency.val c).
Qed.
Lemma Cmp_leb T c : Currency.ok c -> 0 <= T < two128 -> (Currency.Cmp (Currency.of_Z T) c <=? 0) = (T <=? Currency.val c).
Proof.
  intros Hc HT. rewrite Currency.Cmp_spec, Currency.val_of_Z by (done || apply Currency.of_Z_ok).
  destruct (Z.eqb_spec T (Currency.val c)) as [->|]; [by rewrite (Z.leb_refl (Currency.val c))|].
  destruct (Z.ltb_spec T (Currency.val c)), (Z.leb_spec T (Currency.val c)); try lia; done.
Qed.
Lemma Sub_fee T fee : Currency.ok fee -> Currency.val fee <= T < two128 ->
  Currency.Sub (Currency.of_Z T) fee = Ok (Currency.of_Z (T - Currency.val fee)).
Proof.
  intros Hf HT. pose proof (Currency.ok_val _ Hf). rewrite Currency.Sub_ok; rewrite ?Currency.val_of_Z; try lia; try done. apply Currency.of_Z_ok.
Qed.

Lemma pay_inv mode T amount fee required to self witness outs e : Currency.ok amount -> Currency.ok fee -> 0 <= T < two128 ->
  Currency.ok required -> Currency.val required = Currency.val amount + Currency.val fee ->
  pay mode (Currency.of_Z T) amount fee required to self witness = Ok (outs, e) ->
  pays mode to self amount T fee outs e /\ (mode = submitProof -> witness = Some (qe_Witness e)) /\ (mode <> submitProof -> qe_Witness e = noWitness).
Proof.
  intros Ha Hf HT Hr Er H. pose proof (Currency.ok_val _ Ha). pose proof (Currency.ok_val _ Hf).
  assert (forall payee, (T <? Currency.val required) = false -> exists change, Currency.ok change /\
    Currency.val change = T - Currency.val amount - Currency.val fee /\ payment_outputs (Currency.of_Z T) amount fee payee self =
    Ok ({| sco_Value := amount; sco_Address := payee |} :: change_outputs change self)) as Hpay
    by (intros payee ?%Z.ltb_ge; apply payment_outputs_ok; (done || lia)).
  unfold pay in H. destruct mode; rewrite ?Cmp_ltb, ?Cmp_leb in H by done.
  - do 3 ok_step H. apply fail_if_ok in E0, E1. destruct (Hpay to E1) as (change & Hc & Hcv & E3). rewrite E3 in H.
    injection H as <- <-. split; [|done]. refine (pays_payment submitTransfer T amount fee to change self _ Ha Hc _ _ Hcv _ _ _); try done; by left.
  - ok_step H. apply fail_if_ok, Z.leb_gt in E. rewrite Sub_fee in H by (done || lia). injection H as <- <-.
    split; [|done]. split; try done; try (by intros [?|?]); [by constructor|..].
    + unfold total, values, sum_Z. cbn [map foldr sco_Value]. rewrite Currency.val_of_Z by lia. lia.
    + cbn. rewrite orb_false_r. apply bool_decide_eq_false_2. intros Ez%(f_equal Currency.val). rewrite Currency.val_of_Z in Ez by lia.
      change (Currency.val Currency.ZeroCurrency) with 0 in Ez. lia.
    + constructor; [apply Currency.of_Z_ok|constructor].
  - do 2 ok_step H. apply fail_if_ok in E, E0. destruct (Hpay VoidAddress E0) as (change & Hc & Hcv & E3). rewrite E3 in H.
    injection H as <- <-. split; [|done]. refine (pays_payment submitBurn T amount fee to change self _ Ha Hc _ _ Hcv _ _ _); try done; by right.
  - ok_step H. apply fail_if_ok, Z.ltb_ge in E. destruct witness as [w|]; [|done].
    rewrite Sub_fee in H by (done || lia). injection H as <- <-. split; [|done].
    destruct (change_total (Currency.of_Z (T - Currency.val fee)) self) as (C1 & C2 & C3 & C4); [apply Currency.of_Z_ok|].
    split; try done; try (by intros [?|?]); [|rewrite C1, Currency.val_of_Z by lia; lia|lia].
    intros _. unfold change_outputs. by destruct (Currency.IsZero _); repeat constructor.
Qed.

(** ** The transaction before signing *)
Context (keys : QdayPrivateKeys).
Abbreviation policy := (QdayKeys_Policy (qp_Public keys)).

Record built (mode : submitMode) (outs : list UnspentSiacoinElement) (to : Address) (amount fee : Currency) (witness : option bytes) (txn : V2Transaction)
    (taken : list UnspentSiacoinElement) (e : QdayEnvelope) : Prop := {
  bt_inputs : v2tx_SiacoinInputs txn = map (input_of policy) taken;
  bt_taken : taken ⊆+ outs;
  bt_positive : Forall (fun o => 0 < worth o) taken;
  bt_count : zlen taken <= 128;
  bt_pays : pays mode to (SpendPolicy_Address policy) amount (sumZ worth taken) fee (v2tx_SiacoinOutputs txn) e;
  bt_data : v2tx_ArbitraryData txn = QdayEnvelope_Encode e;
  bt_fee : v2tx_MinerFee txn = fee;
  bt_plain : qdayUnsupported txn = false;
  bt_proof : mode = submitProof -> witness = Some (qe_Witness e);
  bt_noproof : mode <> submitProof -> qe_Witness e = noWitness }.

Lemma build_payment_inv mode fee amount to witness outs txn : Forall output_typed outs -> sumZ worth outs < two128 ->
  Currency.ok amount -> Currency.ok fee -> build_payment cs keys mode fee amount to witness outs = Ok txn ->
  exists taken e, built mode outs to amount fee witness txn taken e.
Proof.
  intros Ho Hsum Ha Hf H. unfold build_payment in H. destruct (spending_order mode outs Ho) as (keyed & l & E1 & E2 & E3 & _).
  rewrite E1 in H. cbn [mbind outcome_bind] in H. rewrite E2, Currency.AddWithOverflow_spec in H by done.
  ok_step H. apply fail_if_ok, Z.leb_gt in E. pose proof (Currency.ok_val _ Ha). pose proof (Currency.ok_val _ Hf).
  assert (Forall output_typed l) as Hl by by rewrite E3.
  ok_step H. destruct v0 as [c ins]. change Currency.ZeroCurrency with (Currency.of_Z 0) in E0.
  destruct (fund_inv _ _ _ l 0 [] c ins Hl ltac:(lia) ltac:(rewrite E3; lia) ltac:(done) E0) as (taken & Hsub & -> & -> & Hp & Hlen).
  ok_step H. destruct v0 as [outputs e]. cbn [app] in *. rewrite Z.add_0_l in E4.
  assert (taken ⊆+ outs) as Hsub' by (rewrite <- E3; by apply sublist_submseteq).
  assert (0 <= sumZ worth taken < two128) as HT.
  { assert (forall x, x ∈ outs -> 0 <= worth x) as Hnn by (intros x Hx; rewrite Forall_forall in Ho; by apply worth_bounds, Ho).
    split; [|pose proof (sumZ_submseteq worth taken outs Hnn Hsub'); lia]. apply sumZ_nonneg. intros x Hx. apply Hnn.
    by eapply elem_of_submseteq. }
  eapply pay_inv in E4 as (Hpays & Hw1 & Hw2); try done; [|apply Currency.of_Z_ok|rewrite Currency.val_of_Z; lia].
  injection H as <-. exists taken, e. split; try done. unfold zlen in *. by rewrite length_map in Hlen.
Qed.

(** ** A payment is made whenever 128 outputs suffice *)
Lemma filter_sorted_take (l : list UnspentSiacoinElement) : StronglySorted (fun a b => worth b <= worth a) l ->
  StronglySorted (fun a b => worth b <= worth a) (filter (fun o => 0 < worth o) l).
Proof.
  induction 1 as [|x l Hl IH Hx]; [constructor|]. rewrite filter_cons. case_decide; [|done]. constructor; [done|].
  rewrite Forall_forall in Hx |- *. intros y [_ Hy]%list_elem_of_filter. by apply Hx.
Qed.
Lemma sumZ_positive (l : list UnspentSiacoinElement) : Forall output_typed l -> sumZ worth (filter (fun o => 0 < worth o) l) = sumZ worth l.
Proof.
  induction 1 as [|o l Ho Hl IH]; [done|]. rewrite filter_cons, sumZ_cons. pose proof (worth_bounds o Ho).
  case_decide; rewrite ?sumZ_cons; lia.
Qed.

Lemma fund_enough mode required outs l chosen : mode <> submitDefend -> Forall output_typed outs -> sumZ worth outs < two128 ->
  Currency.ok required -> l ≡ₚ outs -> StronglySorted (fun a b => worth b <= worth a) l ->
  chosen ⊆+ outs -> (length chosen <= 128)%nat -> Currency.val required <= sumZ worth chosen ->
  exists T ins, fund cs mode policy required l Currency.ZeroCurrency [] = Ok (Currency.of_Z T, ins) /\ Currency.val required <= T < two128.
Proof.
  intros Hm Ho Hsum Hr El Hl Hch Hlen Hreq. assert (Forall output_typed l) as Hol by by rewrite El.
  change Currency.ZeroCurrency with (Currency.of_Z 0).
  destruct (fund_ok mode policy required Hr l Hm 0 [] Hol ltac:(lia) ltac:(rewrite El; lia) ltac:(done)) as (k & E & Hk).
  eexists _, _. split; [exact E|]. set (pos := filter _ l) in *. rewrite !Z.add_0_l in *.
  assert (forall x, x ∈ l -> 0 <= worth x) as Hnn by (intros x Hx; rewrite Forall_forall in Hol; by apply worth_bounds, Hol).
  assert (take k pos ⊆+ l) as Htl.
  { etransitivity; [apply sublist_submseteq, sublist_take|]. apply sublist_submseteq, sublist_filter. }
  pose proof (sumZ_submseteq worth _ _ Hnn Htl) as Hub. rewrite El in Hub. split; [|lia].
  destruct Hk as [Hk|[Hk|Hk]]; [done| |].
  - assert (length (take k pos) = 128%nat) as E128 by (unfold zlen in Hk; cbn in Hk; lia).
    assert (take k pos = take 128 pos) as E1.
    { rewrite length_take in E128. destruct (decide (k <= length pos)%nat); [by replace k with 128%nat by lia|].
      rewrite !take_ge by lia. done. }
    rewrite E1. etransitivity; [exact Hreq|]. rewrite <- (sumZ_positive chosen).
    + apply heaviest; [|by apply filter_sorted_take| |].
      * intros x [? _]%list_elem_of_filter. lia.
      * subst pos. rewrite El. apply submseteq_Permutation in Hch as [r ->]. rewrite filter_app. apply submseteq_inserts_r. done.
      * etransitivity; [apply length_filter|done].
    + rewrite Forall_forall in Ho |- *. intros x Hx. apply Ho. by eapply elem_of_submseteq.
  - rewrite Hk. subst pos. rewrite sumZ_positive, El by done. etransitivity; [exact Hreq|]. apply sumZ_submseteq; [|done].
    intros x Hx. apply Hnn. by rewrite El.
Qed.

Lemma build_payment_ok mode fee amount to witness outs chosen : is_payment mode -> (mode = submitTransfer -> QdayAddress_Validate to = Ok tt) ->
  Forall output_typed outs -> sumZ worth outs < two128 -> Currency.ok amount -> Currency.ok fee -> Currency.IsZero amount = false ->
  Currency.val amount + Currency.val fee < two128 -> chosen ⊆+ outs -> (length chosen <= 128)%nat ->
  Currency.val amount + Currency.val fee <= sumZ worth chosen ->
  exists txn, build_payment cs keys mode fee amount to witness outs = Ok txn.
Proof.
  intros Hm Hto Ho Hsum Ha Hf Hz Hlt Hch Hlen Hreq. pose proof (Currency.ok_val _ Ha). pose proof (Currency.ok_val _ Hf).
  unfold build_payment. destruct (spending_order mode outs Ho) as (keyed & l & -> & E2 & E3 & Hsorted). cbn [mbind outcome_bind].
  rewrite E2, Currency.AddWithOverflow_spec by done. rewrite (proj2 (Z.leb_gt _ _)) by lia. cbn [fail_if mbind outcome_bind].
  set (required := Currency.of_Z _). assert (Currency.val required = Currency.val amount + Currency.val fee) as Er by (apply Currency.val_of_Z; lia).
  destruct (fund_enough mode required outs l chosen) as (T & ins & -> & HT);
    [by destruct Hm as [-> | ->]|done|done|apply Currency.of_Z_ok|done|apply Hsorted; by destruct Hm as [-> | ->]|done|done|by rewrite Er|].
  cbn [mbind outcome_bind].
  destruct (payment_outputs_ok T amount fee (payee_of mode to) (SpendPolicy_Address policy) Ha Hf ltac:(lia)) as (change & _ & _ & Ep).
  assert ((Currency.Cmp (Currency.of_Z T) required <? 0) = false) as Ec.
  { rewrite Cmp_ltb by (apply Currency.of_Z_ok || lia). apply Z.ltb_ge. lia. }
  destruct Hm as [-> | ->]; cbn [pay]; [rewrite (Hto eq_refl)|]; cbn [mbind outcome_bind]; rewrite Hz, Ec; cbn [fail_if mbind outcome_bind].
  - change (payee_of submitTransfer to) with to in Ep. rewrite Ep. cbn [mbind outcome_bind]. by eexists.
  - change (payee_of submitBurn to) with VoidAddress in Ep. rewrite Ep. cbn [mbind outcome_bind]. by eexists.
Qed.
End Payment.
