(* ===== verification/QdayServiceSpec.v ===== *)
(** * A payment reaches the pool

    On a node at rest, a payment from an unlocked wallet that 128 of its outputs can fund is
    built, signed, accepted by the pool and kept for relaying. *)
From stdpp Require Import prelude strings gmap.
From Stdlib Require Import ZArith Lia Sorting.Sorted.
From S2P Require Import Prelude TypesCurrency TypesData TypesEncoding TypesHash TypesPolicy TypesPolicySpec TypesQdayAddress.
From S2P Require Import ConsensusWork ConsensusState ConsensusMerkle ConsensusQday ConsensusQdaySpec.
From S2P Require Import ConsensusMidState ConsensusMidStateSpec ConsensusApply ConsensusValidateV1 ConsensusValidate.
From S2P Require Import ConsensusEnvelopeSpec ConsensusValidateSpec ConsensusBlockSpec ConsensusPanicSpec.
From S2P Require Import TypesMultiproof TypesMultiproofSpec ChainStore ChainPool ChainManager ChainManagerPool ChainPoolSpec.
From S2P Require Import QdayMiner QdayMinerSpec QdayService QdaySignSpec QdayPaymentSpec.
From S2P Require Import SampleCrypto ChainQday SampleChain SampleStore.

Section Pool.
Context {crypto : Crypto} {edwards : Edwards25519} {St : Type} {store : Store St}.
Implicit Types (m : Manager St).

(** ** The pool's state *)

(** A pool without v1 transactions is a run of QDAY transactions. *)
Lemma runs_run s p l ms : n_Qday (s_Network s) = Some p -> runs (NewMidState s) (map inr l) ms -> run s p l ms.
Proof.
  intros Hn H. remember (map inr l) as tl eqn:El. revert l El.
  induction H as [|tl ms1 txn ts u ms2 H IH Hv Ha|tl ms1 txn u ms2 H IH Hv Ha]; intros l El.
  - destruct l; [|done]. constructor.
  - exfalso. destruct l as [|x l] using rev_ind; [by destruct tl|]. rewrite map_app in El. by apply app_inj_tail in El as [_ ?].
  - destruct l as [|x l] using rev_ind; [by destruct tl|clear IHl]. rewrite map_app in El. apply app_inj_tail in El as [-> [= ->]].
    specialize (IH l eq_refl). destruct u. pose proof (run_base _ _ _ _ IH) as Hb.
    destruct (ValidateV2Transaction_inv ms1 x p) as [[e He] Hsc]; [by rewrite Hb|done|]. by eapply run_txn.
Qed.

(** A plain transaction spends its inputs and nothing else. *)
Lemma spend_all_spends txid (l : list V2SiacoinInput) : forall i ms ms',
  for_each l i ms (fun _ sci ms => spendSiacoinElement ms (SiacoinElement_Share (v2sci_Parent sci)) txid) = Ok ms' ->
  forall id, is_Some (ms_spends ms' !! id) -> is_Some (ms_spends ms !! id) \/ id ∈ map (fun i => sce_ID (v2sci_Parent i)) l.
Proof.
  induction l as [|sci l IH]; intros i ms ms' H id Hid; cbn [for_each] in H; [injection H as <-; by left|].
  ok_step H. destruct (IH _ _ _ H id Hid) as [Hs|Hs]; [|right; by right].
  unfold spendSiacoinElement in E. ok_step E. injection E as <-. destruct (modify_sced_frame _ _ _ _ E0) as [_ E1].
  cbn [ms_spends set_spends ms_with] in Hs. rewrite E1 in Hs. destruct (decide (id = sce_ID (v2sci_Parent sci))) as [->|Hne]; [right; left|].
  rewrite lookup_insert_ne in Hs; [by left|]. by intros <-.
Qed.
Lemma create_all_spends f outs : forall i ms ms',
  for_each outs i ms (fun i sco ms => createSiacoinElement ms (f i) sco) = Ok ms' -> ms_spends ms' = ms_spends ms.
Proof.
  induction outs as [|o outs IH]; intros i ms ms' H; cbn [for_each] in H; [by injection H as <-|].
  ok_step H. rewrite (IH _ _ _ H). unfold createSiacoinElement in E. by destruct (modify_sced_frame _ _ _ _ E) as [_ ->].
Qed.
Lemma plain_spends ms txn ms' id : qdayUnsupported txn = false -> ApplyV2Transaction ms txn = Ok ms' ->
  is_Some (ms_spends ms' !! id) -> is_Some (ms_spends ms !! id) \/ id ∈ map (fun i => sce_ID (v2sci_Parent i)) (v2tx_SiacoinInputs txn).
Proof.
  intros Hu H Hid. rewrite ApplyV2Transaction_plain in H by done. ok_step H. unfold create_all in H.
  rewrite (create_all_spends _ _ _ _ _ H) in Hid. destruct (spend_all_spends _ _ _ _ _ E id Hid) as [Hs|Hs]; [left|by right].
  by destruct (_ && _).
Qed.
Lemma run_spends s p l ms id : run s p l ms -> is_Some (ms_spends ms !! id) -> id ∈ spent_ids l.
Proof.
  unfold spent_ids. induction 1 as [|l x ms ms' Hrun IH Hb Ha|l x e ms ms' Hrun IH He Hv Ha]; intros Hid.
  { by destruct Hid. }
  all: eapply plain_spends in Hid; [|by first [apply Hb|apply He]|exact Ha].
  all: rewrite flat_map_app, list_to_set_app_L; apply elem_of_union; cbn [flat_map]; rewrite app_nil_r.
  all: destruct Hid as [Hid|Hid]; [left; by apply IH|right; by apply elem_of_list_to_set].
Qed.

(** A pool that has just been revalidated. *)
Record fresh_pool m (p : QdayParams) (ms : MidState) : Prop := {
  fp_state : qday_state (m_tipState m) p;
  fp_ms : tp_ms (m_txpool m) = Some ms;
  fp_weight : tp_weight (m_txpool m) < txpoolMaxWeight;
  fp_ok : mpool_ok m;
  fp_v1 : tp_txns (m_txpool m) = [];
  fp_store : st_State (m_store m) (ci_ID (Tip m)) = Ok (Some (m_tipState m));
  fp_tip : Tip m <> zeroIndex }.

Lemma fresh_revalidate m p ms : fresh_pool m p ms -> revalidatePool m = Ok m.
Proof. intros []. unfold revalidatePool. by rewrite fp_ms0, (proj2 (Z.ltb_lt _ _)). Qed.
Lemma fresh_run m p ms : fresh_pool m p ms -> run (m_tipState m) p (tp_v2txns (m_txpool m)) ms.
Proof.
  intros [Hst Hms Hw Hok Hv1 _ _]. unfold mpool_ok, pool_ok in Hok. rewrite Hms in Hok. destruct Hok as [(l & Hr & H1 & H2) _].
  rewrite Hv1 in H1. apply v1s_nil in H1. rewrite H2 in H1. rewrite H1 in Hr. apply runs_run; [apply Hst|done].
Qed.

(** ** Accepting one transaction *)
Lemma reorgPath_same (s : St) i maxLen : i <> zeroIndex -> reorgPath s i i maxLen = Ok ([], []).
Proof.
  intros Hi. assert (forall path other, rewind_above (Z.to_nat (ci_Height i - ci_Height i)) s maxLen other (ci_Height i) i path = Ok (i, path)) as E.
  { intros path other. destruct (Z.to_nat _); cbn [rewind_above]; by rewrite Z.ltb_irrefl. }
  unfold reorgPath, reorgPath_fuel. rewrite E. cbn [mbind outcome_bind]. rewrite E. cbn [mbind outcome_bind].
  rewrite bool_decide_eq_false_2 by done. cbn [mbind outcome_bind rewind_both]. by rewrite bool_decide_eq_true_2.
Qed.

(** A transaction as a caller hands it over: its elements are its own and confirmed. *)
Record confirmed_inputs (cs : State) (txn : V2Transaction) : Prop := {
  cf_plain : qdayUnsupported txn = false;
  cf_copy : forall i, i ∈ v2tx_SiacoinInputs txn -> se_shared (sce_StateElement (v2sci_Parent i)) = false;
  cf_leaf : forall i, i ∈ v2tx_SiacoinInputs txn -> se_LeafIndex (sce_StateElement (v2sci_Parent i)) <> UnassignedLeafIndex;
  cf_unspent : forall i, i ∈ v2tx_SiacoinInputs txn ->
    containsUnspentSiacoinElement (s_Elements cs) (SiacoinElement_Share (v2sci_Parent i)) = true }.

Lemma DeepCopy_own cs txn : confirmed_inputs cs txn -> V2Transaction_DeepCopy txn = txn.
Proof.
  intros [Hu Hc _ _]. unfold V2Transaction_DeepCopy. transitivity (put_elems txn (elems txn)); [f_equal|apply put_same].
  apply qdayUnsupported_nil in Hu as (E1 & _ & _ & E2 & E3 & _ & _).
  change (elems txn) with (V2Transaction_elems txn). unfold V2Transaction_elems. rewrite E1, E2, E3. cbn [elems list_elems concat map].
  rewrite !app_nil_r. rewrite concat_map, map_map. f_equal. apply map_ext_in. intros i Hi%list_elem_of_In. specialize (Hc i Hi).
  cbn. destruct i as [[id [leaf proof shared] o h] sp]. cbn in *. by subst shared.
Qed.

Lemma elements_valid cs txn : confirmed_inputs cs txn -> ValidateTransactionElements (s_Elements cs) txn = Ok tt.
Proof.
  intros [Hu _ Hl Hc]. apply qdayUnsupported_nil in Hu as (E1 & _ & _ & E2 & E3 & _ & _).
  unfold ValidateTransactionElements. rewrite E1, E2, E3. rewrite (for_each_units (v2tx_SiacoinInputs txn)); [done|].
  intros j i [] Hi. specialize (Hc i Hi).
  assert (containsLeaf (s_Elements cs) (siacoinLeaf RefLocal (v2sci_Parent i) false) = true) as -> by exact Hc.
  by rewrite andb_false_r.
Qed.

Lemma no_ephemeral cs txn : confirmed_inputs cs txn -> checkEphemeralOutputs [txn] = Ok tt /\ checkFileContractRevisions [txn] = Ok tt.
Proof.
  intros [Hu _ Hl _]. apply qdayUnsupported_nil in Hu as (E1 & _ & _ & E2 & E3 & _ & _). split.
  - unfold checkEphemeralOutputs. cbn [for_each]. rewrite (for_each_units (v2tx_SiacoinInputs txn)).
    + cbn [mbind outcome_bind]. rewrite E1. cbn [for_each mbind outcome_bind].
      match goal with |- context [for_each ?l ?i ?s ?f] => assert (exists r, for_each l i s f = Ok r) as [r ->] end; [|done].
      generalize 0%nat, (∅ : idmap SiacoinOutput). induction (v2tx_SiacoinOutputs txn) as [|o outs IH]; intros k acc; [by eexists|]. cbn [for_each mbind outcome_bind]. apply IH.
    + intros j i [] Hi. unfold sci_unassigned. by rewrite (proj2 (Z.eqb_neq _ _) (Hl i Hi)).
  - unfold checkFileContractRevisions. cbn [for_each]. by rewrite E2, E3.
Qed.

Lemma accept_one m p ms txn : fresh_pool m p ms -> confirmed_inputs (m_tipState m) txn ->
  ValidateV2Transaction (NewMidState (m_tipState m)) txn = Ok tt -> ValidateV2Transaction ms txn = Ok tt ->
  exists m' known, AddV2PoolTransactions m (Tip m) [txn] = Ok (m', (known, None)) /\ m_tipState m' = m_tipState m /\
    is_Some (tp_indices (m_txpool m') !! V2Transaction_ID txn) /\
    (m' = m \/ tp_v2txns (m_txpool m') = tp_v2txns (m_txpool m) ++ [txn]).
Proof.
  intros Hf Hc Hv0 Hv. pose proof (fresh_run _ _ _ Hf) as Hrun. pose proof Hf as [Hst Hms Hw Hok Hv1 Hstore Htip].
  pose proof (qday_isQday _ _ (qs_net _ _ Hst)) as Hq.
  unfold AddV2PoolTransactions. rewrite (fresh_revalidate _ _ _ Hf). cbn [mbind outcome_bind length Nat.eqb negb andb forallb].
  rewrite andb_true_r. destruct (in_pool (m_txpool m) (V2Transaction_ID txn)) eqn:Ein.
  { exists m, true. split_and!; [done|done|by apply bool_decide_eq_true in Ein|by left]. }
  cbn [map]. rewrite (DeepCopy_own _ _ Hc). unfold updateV2TransactionProofs. rewrite Hstore. cbn [mbind outcome_bind for_each].
  rewrite (elements_valid _ _ Hc). cbn [wrap_err mbind outcome_bind]. rewrite reorgPath_same by done. cbn [wrap_err mbind outcome_bind for_each map].
  rewrite (DeepCopy_own _ _ Hc), (bool_decide_eq_true_2 (Tip m = Tip m)), andb_false_r by done.
  unfold checkTxnSet. destruct (no_ephemeral _ _ Hc) as [-> ->]. cbn [mbind outcome_bind for_each]. rewrite Hv0. cbn [wrap_err mbind outcome_bind].
  destruct (ApplyV2Transaction_total (NewMidState (m_tipState m)) txn Hq (cf_plain _ _ Hc) (NewMidState_diffs _ _)) as (ms0 & -> & _).
  cbn [mbind outcome_bind]. unfold in_pool in Ein. rewrite Ein. cbn [andb]. cbn [add_v2txns]. unfold in_pool, pool_ms. rewrite Ein, Hms. cbn [mbind outcome_bind].
  rewrite Hv. pose proof (run_base _ _ _ _ Hrun) as Hb.
  destruct (ApplyV2Transaction_total ms txn ltac:(by rewrite Hb) (cf_plain _ _ Hc)
    (diffs_ok_mono _ _ _ (fun _ _ => I) (run_diffs _ _ _ _ (qs_net _ _ Hst) Hrun))) as (ms1 & -> & _).
  cbn [mbind outcome_bind]. eexists _, false. split_and!; [done|done| |by right].
  cbn. rewrite lookup_insert_eq. by eexists.
Qed.
End Pool.

(** ** The wallet index *)

(** A confirmed, mature and unspent output of the address [self], with a proof of its own. *)
Record wallet_output (cs : State) (self : Address) (o : UnspentSiacoinElement) : Prop := {
  wo_typed : output_typed o;
  wo_address : sco_Address (sce_SiacoinOutput (element_of o)) = self;
  wo_mature : sce_MaturityHeight (element_of o) <= ci_Height (s_Index cs);
  wo_leaf : se_LeafIndex (sce_StateElement (element_of o)) <> UnassignedLeafIndex;
  wo_own : se_shared (sce_StateElement (element_of o)) = false;
  wo_id : length (sce_ID (element_of o)) = 32%nat }.

Definition output_id (o : UnspentSiacoinElement) : SiacoinOutputID := sce_ID (element_of o).
Definition nominal (o : UnspentSiacoinElement) : Z := Currency.val (sco_Value (sce_SiacoinOutput (element_of o))).

(** What the service relies on: the pages of [AddressSiacoinOutputs] are those of one list, the
    unspent mature outputs of the address at the state [cs]. *)
Class WalletIndexSpec {crypto : Crypto} (AddressSiacoinOutputs : Address -> Z -> Z -> outcome (list UnspentSiacoinElement * ChainIndex))
    (cs : State) (self : Address) (utxos : list UnspentSiacoinElement) : Prop := {
  wi_pages : forall offset limit, 0 <= offset -> 0 < limit ->
    AddressSiacoinOutputs self offset limit = Ok (take (Z.to_nat limit) (drop (Z.to_nat offset) utxos), s_Index cs);
  wi_outputs : Forall (wallet_output cs self) utxos;
  wi_unspent : forall o, o ∈ utxos -> containsUnspentSiacoinElement (s_Elements cs) (SiacoinElement_Share (element_of o)) = true;
  wi_distinct : NoDup (map output_id utxos);
  wi_supply : sumZ nominal utxos < two128 }.

Section Index.
Context {crypto : Crypto} {edwards : Edwards25519}.
Context (index : Address -> Z -> Z -> outcome (list UnspentSiacoinElement * ChainIndex)) (cs : State) (self : Address)
  (utxos : list UnspentSiacoinElement) (Hindex : WalletIndexSpec index cs self utxos).

(** Paging through the index gives every output that the pool does not spend. *)
Lemma output_pages_from fuel spent : forall k result, (length utxos < 500 * (k + fuel))%nat -> (500 * k <= length utxos)%nat ->
  output_pages index fuel cs self spent (500 * Z.of_nat k) result =
  Ok (result ++ filter (fun e => sce_ID (use_SiacoinElement e) ∉ spent) (drop (500 * k) utxos)).
Proof.
  induction fuel as [|fuel IH]; intros k result Hf Hk; [lia|]. cbn [output_pages].
  rewrite wi_pages by lia. cbn [mbind outcome_bind]. rewrite bool_decide_eq_true_2 by done. cbn [negb fail_if mbind outcome_bind].
  change (Z.to_nat 500) with 500%nat. replace (Z.to_nat (500 * Z.of_nat k)) with (500 * k)%nat by lia.
  set (rest := drop (500 * k) utxos). assert (length rest = length utxos - 500 * k)%nat as Hr by apply length_drop.
  unfold zlen. rewrite length_take. destruct (Z.ltb_spec (Z.of_nat (500 `min` length rest)) 500) as [Hlt|Hge].
  - by rewrite take_ge by lia.
  - replace (500 * Z.of_nat k + 500) with (500 * Z.of_nat (S k)) by lia. rewrite IH by lia.
    rewrite <- app_assoc, <- filter_app. do 3 f_equal. rewrite <- (take_drop 500 rest) at 2. f_equal. subst rest. rewrite drop_drop. f_equal. lia.
Qed.
Lemma output_pages_all fuel spent : (length utxos < 500 * fuel)%nat ->
  output_pages index fuel cs self spent 0 [] = Ok (filter (fun e => sce_ID (use_SiacoinElement e) ∉ spent) utxos).
Proof. intros Hf. exact (output_pages_from fuel spent 0 [] ltac:(lia) ltac:(lia)). Qed.
End Index.

(** ** From the outputs to a valid transaction *)
Lemma spendable_mono s p e h1 h2 : schedule_ok p -> Currency.ok (sco_Value (sce_SiacoinOutput e)) -> h1 <= h2 ->
  spendable s p e h2 <= spendable s p e h1.
Proof.
  intros Hp Hv Hle. pose proof (spendable_bounds s p e h2 Hp Hv) as Hb. pose proof (Currency.ok_val _ Hv). unfold spendable in *.
  destruct (Z.eqb_spec (s_QdayHeight s) 0), (Z.ltb_spec h1 (s_QdayHeight s)), (Z.ltb_spec h2 (s_QdayHeight s)); cbn [orb] in *; try lia.
  apply decayed_mono; [done|lia|done].
Qed.

Section Ready.
Context {crypto : Crypto} {edwards : Edwards25519}.
Context (cs : State) (p : QdayParams) (Hs : qday_state cs p) (Hheight : 0 <= ci_Height (s_Index cs) < two64 - 2).
Context (keys : QdayPrivateKeys) (Hself : length (QdayKeys_Address (qp_Public keys)) = 32%nat).
Abbreviation self := (QdayKeys_Address (qp_Public keys)).

Context (mode : submitMode) (outs : list UnspentSiacoinElement) (to : Address) (amount fee : Currency) (witness : option bytes)
  (txn : V2Transaction) (taken : list UnspentSiacoinElement) (e : QdayEnvelope).
Context (Hbuilt : built cs p keys mode outs to amount fee witness txn taken e).
Context (Houts : Forall (wallet_output cs self) outs) (Hids : NoDup (map output_id outs)) (Hsupply : sumZ nominal outs < two128).
Context (Hunspent : forall o, o ∈ outs -> containsUnspentSiacoinElement (s_Elements cs) (SiacoinElement_Share (element_of o)) = true).
Context (Hto : length to = 32%nat) (Hfee : Currency.ok fee).

Lemma taken_outs o : o ∈ taken -> o ∈ outs.
Proof. intros H. by eapply elem_of_submseteq; [|apply Hbuilt]. Qed.
Lemma taken_output o : o ∈ taken -> wallet_output cs self o.
Proof. intros H%taken_outs. rewrite Forall_forall in Houts. by apply Houts. Qed.
Lemma input_parents : map v2sci_Parent (v2tx_SiacoinInputs txn) = map element_of taken.
Proof. rewrite (bt_inputs _ _ _ _ _ _ _ _ _ _ _ _ Hbuilt), map_map. done. Qed.

Lemma taken_nodup : NoDup (map output_id taken).
Proof.
  pose proof (bt_taken _ _ _ _ _ _ _ _ _ _ _ _ Hbuilt) as [r Hr]%submseteq_Permutation. rewrite Hr, map_app in Hids. by apply NoDup_app in Hids as [? _].
Qed.

Lemma taken_value : sumZ (worth cs p) taken <= sumZ (fun o => spendable cs p (element_of o) (childHeight cs)) taken /\ sumZ nominal taken < two128.
Proof.
  split.
  - unfold sumZ. apply sum_Z_le. intros o Ho. pose proof (taken_output o Ho) as []. unfold worth, spend_height, childHeight.
    rewrite !u64_id by (unfold is_u64; lia). apply spendable_mono; [apply Hs|apply wo_typed0|lia].
  - pose proof (bt_taken _ _ _ _ _ _ _ _ _ _ _ _ Hbuilt) as Hsub. apply (sumZ_submseteq nominal) in Hsub; [lia|].
    intros o Ho. rewrite Forall_forall in Houts. apply Currency.ok_val, (wo_typed _ _ _ (Houts o Ho)).
Qed.

Lemma taken_positive : (mode = submitProof -> 0 < Currency.val fee) -> 0 < zlen taken.
Proof.
  intros Hf. destruct taken as [|o l] eqn:E; [|unfold zlen; cbn; lia]. exfalso.
  destruct (bt_pays _ _ _ _ _ _ _ _ _ _ _ _ Hbuilt) as [_ _ Ht Hz Ho _ Hsome _ _ _]. cbn in Ht. pose proof (Currency.ok_val _ Hfee).
  assert (forall o, o ∈ v2tx_SiacoinOutputs txn -> 0 <= Currency.val (sco_Value o)) as Hnn.
  { intros x Hx. rewrite Forall_forall in Ho. by apply Currency.ok_val, Ho. }
  assert (0 <= total (values (v2tx_SiacoinOutputs txn))) as H0.
  { unfold total, values. rewrite map_map. by apply sum_Z_nonneg. }
  destruct (decide (mode = submitProof)) as [Em|Em]; [specialize (Hf Em); lia|]. specialize (Hsome Em).
  destruct (v2tx_SiacoinOutputs txn) as [|x xs]; [done|]. cbn in Hz. apply orb_false_iff in Hz as [Hz _]. apply bool_decide_eq_false in Hz.
  rewrite Forall_cons in Ho. destruct Ho as [Hx Hxs]. unfold total, values, sum_Z in *. cbn in Ht.
  assert (0 <= foldr Z.add 0 (map Currency.val (map sco_Value xs))).
  { rewrite map_map. apply (sum_Z_nonneg (fun o => Currency.val (sco_Value o))). intros y Hy. apply Hnn. by right. }
  apply Hz. apply Currency.val_inj; [done|apply (Currency.of_Z_ok 0)|]. pose proof (Currency.ok_val _ Hx). change (Currency.val Currency.ZeroCurrency) with 0. lia.
Qed.

Lemma built_ready ms : ms_base ms = cs -> (forall o, o ∈ taken -> ms_isSpent ms (output_id o) = false) ->
  (mode = submitProof -> 0 < Currency.val fee /\ s_QdayHeight cs = 0 /\ ms_qdayProved ms = false /\
     0 <= Currency.Cmp fee (qd_ProofFee p) /\ length (qe_Witness e) = 32%nat /\ bytes_ok (qe_Witness e) /\
     VerifyQdayProof (qd_Canary p) (qe_Witness e) = true) ->
  transfer_ready ms p (QdayKeys_Address (qp_Public keys)) txn e.
Proof.
  intros Hb Hfree Hproof. destruct taken_value as [Hv1 Hv2]. pose proof (taken_positive ltac:(intros Em; by destruct (Hproof Em))) as Hpos.
  pose proof Hbuilt as [Hin Hsub Hp Hcnt Hpays Hdata Hf Hplain Hw1 Hw2]. pose proof Hpays as [Hpay Hothers Ht Hz Hok Hc Hsome Hkind Hnonce Hkeys].
  assert (length self = 32%nat) as Hself' by done. rewrite <- Hb in Hs.
  split; rewrite ?Hin, ?zlen_map, ?Hf; try done.
  - split; [|intros o Ho; rewrite Forall_forall in Hok; by apply Hok|by rewrite Hf].
    rewrite Hin. intros i (o & -> & Ho)%list_elem_of_fmap. apply (taken_output o Ho).
  - unfold nominal_total, total. rewrite Hin, !map_map. exact Hv2.
  - case_bool_decide as Em.
    + destruct (Hproof Em) as (_ & _ & _ & _ & H1 & H2 & _). split; rewrite ?Hkind, ?Hnonce, ?Hkeys; by try constructor.
    + split; rewrite ?Hkind, ?Hnonce, ?Hkeys, ?(Hw2 Em); try done. split; [done|by apply Forall_replicate].
  - rewrite Hkind. case_bool_decide as Em; [right|by left]. rewrite Hb. destruct (Hproof Em) as (_ & H1 & H2 & H3 & _ & _ & H4). done.
  - lia.
  - intros Hk. apply Hsome. intros ->. rewrite bool_decide_eq_true_2 in Hkind by done. rewrite Hkind in Hk. done.
  - destruct (decide (is_payment mode)) as [Hm|Hm].
    + destruct (Hpay Hm) as [change ->]. constructor.
      * cbn [sco_Address]. unfold payee_of. destruct (bool_decide (mode = submitBurn)); [reflexivity|exact Hto].
      * unfold change_outputs. destruct (Currency.IsZero change); [constructor|]. by repeat constructor.
    + eapply Forall_impl; [by apply Hothers|]. intros o Ho. cbn in Ho. by rewrite Ho.
  - unfold outputs_total, spendable_total. rewrite Hin, map_map, Hb. unfold sumZ in *. cbn [v2sci_Parent input_of]. lia.
  - apply Forall_map, Forall_forall. intros o Ho. pose proof (taken_output o Ho) as []. split; cbn [input_of v2sci_Parent]; rewrite ?Hb; try done.
    + unfold childHeight. rewrite u64_id by (unfold is_u64; lia). lia.
    + by apply Hunspent, taken_outs.
    + by apply Hfree.
  - rewrite map_map. exact taken_nodup.
Qed.
End Ready.

(** ** Running methods *)
Section Methods.
Context {crypto : Crypto} {edwards : Edwards25519} {St : Type} {store : Store St} {order : GoOrder}.

Lemma M_bind_ok {A B} (f : M A) (k : A -> M B) s s' r : (f ≫= k) s = (s', Ok r) ->
  exists (s1 : Service St) a, f s = (s1, Ok a) /\ k a s1 = (s', Ok r).
Proof. unfold mbind, M_bind. destruct (f s) as [s1 [a| |]]; [|done|done]. by exists s1, a. Qed.
Implicit Types (s : Service St).

Lemma bind_ok {A B} (f : M A) (k : A -> M B) s s' a : f s = (s', Ok a) -> (f ≫= k) s = k a s'.
Proof. intros H. unfold mbind, M_bind. by rewrite H. Qed.

Lemma with_CM_same s : sv_others s = [] -> with_CM s (sv_CM s) [] = s.
Proof. destruct s. cbn. by intros ->. Qed.
Lemma call_rest {A} (f : Manager St -> outcome (Manager St * A)) s m a : sv_others s = [] -> f (sv_CM s) = Ok (m, a) ->
  call f s = (with_CM s m [], Ok a).
Proof. intros Ho Hf. unfold call. by rewrite Ho, Hf. Qed.
Lemma query_rest {A} (f : Manager St -> outcome A) s a : sv_others s = [] -> f (sv_CM s) = Ok a -> query f s = (s, Ok a).
Proof. intros Ho Hf. unfold query. rewrite (call_rest _ s (sv_CM s) a Ho); [by rewrite with_CM_same|by rewrite Hf]. Qed.

Lemma save_total disk s : exists s' r, try (savePendingBroadcastsLocked disk) s = (s', Ok r) /\ (forall m, r <> Panic m) /\
  sv_CM s' = sv_CM s /\ sv_others s' = sv_others s /\ sv_keys s' = sv_keys s /\ sv_rebroadcasts s' = sv_rebroadcasts s.
Proof.
  unfold try, savePendingBroadcastsLocked. rewrite (bind_ok (gets sv_rebroadcasts) _ s s (sv_rebroadcasts s)) by done. cbv zeta.
  destruct (_ || _); [by eexists _, _|]. erewrite bind_ok by done. destruct (dk_error disk), (dk_replaced disk); by eexists _, _.
Qed.

(** Keeping a transaction for relaying never fails the caller. *)
Lemma remember_one disk now basis txn s : exists s' r, try (rememberBroadcast disk now basis [txn]) s = (s', Ok r) /\ (forall m, r <> Panic m) /\
  sv_CM s' = sv_CM s /\ sv_others s' = sv_others s /\ sv_keys s' = sv_keys s /\
  sv_rebroadcasts s' = <[V2Transaction_ID txn := {| pb_Basis := basis; pb_BroadcastedAt := now;
    pb_Transactions := [V2Transaction_DeepCopy txn]; pb_confirmedAt := zeroIndex |}]> (sv_rebroadcasts s).
Proof.
  unfold try at 1, rememberBroadcast. cbn [last map]. erewrite bind_ok by done.
  match goal with |- context [with_rebroadcasts s ?r ?w ?f] => destruct (save_total disk (with_rebroadcasts s r w f)) as (s1 & r1 & E & Hp & E1 & E2 & E3 & E4) end.
  rewrite (bind_ok _ _ _ _ _ E). erewrite bind_ok by done. unfold lift. destruct r1 as [u|err|m]; [| |by destruct (Hp m)];
    eexists _, _; (split; [reflexivity|]); split_and!; try done; cbn; congruence.
Qed.

Lemma DeepCopy_ids (txn : V2Transaction) : map (fun i => sce_ID (v2sci_Parent i)) (v2tx_SiacoinInputs (V2Transaction_DeepCopy txn)) =
  map (fun i => sce_ID (v2sci_Parent i)) (v2tx_SiacoinInputs txn).
Proof.
  unfold V2Transaction_DeepCopy. change (put_elems (T := V2Transaction)) with V2Transaction_put. unfold V2Transaction_put. cbn [v2tx_SiacoinInputs].
  generalize (take (length (elems (v2tx_SiacoinInputs txn))) (map StateElement_Copy (elems txn))). cbn [put_elems list_elems].
  induction (v2tx_SiacoinInputs txn) as [|i l IH]; intros es; [done|]. cbn [put_list map]. rewrite IH. f_equal. by destruct (take _ es).
Qed.
Lemma DeepCopy_spent pool : spent_ids (map V2Transaction_DeepCopy pool) = spent_ids pool.
Proof.
  unfold spent_ids. f_equal. induction pool as [|txn pool IH]; [done|]. cbn [map flat_map]. by rewrite DeepCopy_ids, IH.
Qed.
End Methods.

(** ** A payment, from the request to the pool *)
Section Submit.
Context {crypto : Crypto} {edwards : Edwards25519} {St : Type} {store : Store St} {order : GoOrder} {Horder : GoOrderSpec}.

(** An unlocked wallet on a node at rest, with keys that accept their own signatures. *)
Record ready_wallet (s : Service St) (p : QdayParams) (ms : MidState) (median : Time) (keys : QdayPrivateKeys) : Prop := {
  rw_alone : sv_others s = [];
  rw_keys : sv_keys s = Some keys;
  rw_pool : fresh_pool (sv_CM s) p ms;
  rw_median : medianTimestamp (TipState (sv_CM s)) = Ok median;
  rw_allow : n_V2_AllowHeight (s_Network (TipState (sv_CM s))) <= childHeight (TipState (sv_CM s));
  rw_height : 0 <= ci_Height (s_Index (TipState (sv_CM s))) < two64 - 2;
  rw_scheme : SchemeCorrect keys;
  rw_public : key_ok (qp_Public keys);
  rw_self : length (QdayKeys_Address (qp_Public keys)) = 32%nat }.

(** The outputs of the wallet that no transaction of the pool spends. *)
Definition available (s : Service St) (utxos : list UnspentSiacoinElement) : list UnspentSiacoinElement :=
  filter (fun o => sce_ID (use_SiacoinElement o) ∉ spent_ids (tp_v2txns (m_txpool (sv_CM s)))) utxos.

Context (index : Address -> Z -> Z -> outcome (list UnspentSiacoinElement * ChainIndex)) (os : Outside).
Context (s : Service St) (p : QdayParams) (ms : MidState) (median : Time) (keys : QdayPrivateKeys) (Hw : ready_wallet s p ms median keys).
Abbreviation cs := (TipState (sv_CM s)).
Abbreviation self := (QdayKeys_Address (qp_Public keys)).
Context (utxos : list UnspentSiacoinElement) (Hindex : WalletIndexSpec index cs self utxos) (Hpages : (length utxos < 500 * os_pages os)%nat).

Lemma rest_TipState : cm_TipState s = (s, Ok cs).
Proof. apply query_rest; [apply Hw|done]. Qed.
Lemma rest_pool : cm_V2PoolTransactions s = (s, Ok (map V2Transaction_DeepCopy (tp_v2txns (m_txpool (sv_CM s))))).
Proof.
  unfold cm_V2PoolTransactions. rewrite (call_rest _ s (sv_CM s) (map V2Transaction_DeepCopy (tp_v2txns (m_txpool (sv_CM s)))) (rw_alone _ _ _ _ _ Hw)).
  - by rewrite (with_CM_same s (rw_alone _ _ _ _ _ Hw)).
  - unfold V2PoolTransactions. by rewrite (fresh_revalidate _ _ _ (rw_pool _ _ _ _ _ Hw)).
Qed.
Lemma rest_outputs : outputs index (os_pages os) cs self s = (s, Ok (available s utxos)).
Proof.
  unfold outputs. rewrite (bind_ok _ _ _ _ _ rest_pool). unfold outputsAtPool. rewrite DeepCopy_spent.
  unfold lift. rewrite (output_pages_all index cs self utxos Hindex) by done.
  erewrite bind_ok by reflexivity. rewrite (bind_ok cm_Tip _ s s (Tip (sv_CM s))) by (apply query_rest; [apply Hw|done]).
  by rewrite bool_decide_eq_true_2.
Qed.

(** *** The outputs offered to [build_payment] *)
Lemma available_sub : available s utxos ⊆+ utxos.
Proof. apply sublist_submseteq, sublist_filter. Qed.
Lemma available_in o : o ∈ available s utxos -> o ∈ utxos.
Proof. by intros [_ ?]%list_elem_of_filter. Qed.
Lemma available_outputs : Forall (wallet_output cs self) (available s utxos).
Proof. apply Forall_forall. intros o Ho%available_in. pose proof (wi_outputs (WalletIndexSpec := Hindex)) as H. rewrite Forall_forall in H. by apply H. Qed.
Lemma available_typed : Forall output_typed (available s utxos).
Proof. eapply Forall_impl; [apply available_outputs|]. by intros o []. Qed.
Lemma available_distinct : NoDup (map output_id (available s utxos)).
Proof.
  pose proof (wi_distinct (WalletIndexSpec := Hindex)) as H. pose proof available_sub as [r Hr]%submseteq_Permutation.
  rewrite Hr, map_app in H. by apply NoDup_app in H as [? _].
Qed.
Lemma available_supply : sumZ nominal (available s utxos) < two128.
Proof.
  pose proof (wi_supply (WalletIndexSpec := Hindex)).
  enough (sumZ nominal (available s utxos) <= sumZ nominal utxos) by lia. apply sumZ_submseteq; [|apply available_sub].
  intros o Ho. pose proof (wi_outputs (WalletIndexSpec := Hindex)) as Hf. rewrite Forall_forall in Hf. apply Currency.ok_val, (wo_typed _ _ _ (Hf o Ho)).
Qed.
Lemma available_worth : sumZ (worth cs p) (available s utxos) < two128.
Proof.
  pose proof available_supply. enough (sumZ (worth cs p) (available s utxos) <= sumZ nominal (available s utxos)) by lia.
  unfold sumZ. apply sum_Z_le. intros o Ho. pose proof available_typed as Ht. rewrite Forall_forall in Ht.
  apply worth_bounds; [apply Hw|by apply Ht].
Qed.
Lemma available_free o : o ∈ available s utxos -> ms_isSpent ms (output_id o) = false.
Proof.
  intros [Hn _]%list_elem_of_filter. apply bool_decide_eq_false_2. intros Hid. apply Hn.
  eapply run_spends; [exact (fresh_run _ _ _ (rw_pool _ _ _ _ _ Hw))|exact Hid].
Qed.

(** *** Building, signing and delivering *)
Context (ctx : Context) (from unit' customFee : bytes) (to : Address) (amount fee : Currency) (mode : submitMode).
Context (Hctx : not_cancelled ctx) (Hfrom : from = [] \/ from = QdayKeys_String (qp_Public keys)) (Hunit : checkUnit unit' cs = Ok tt).
Context (Hfee : submit_fee (os_rat os) cs mode customFee = Ok fee) (Hfok : Currency.ok fee).
Context (Hmode : is_payment mode) (Hto : mode = submitTransfer -> QdayAddress_Validate to = Ok tt) (Htolen : length to = 32%nat).
Context (Haok : Currency.ok amount) (Hamount : Currency.IsZero amount = false) (Hfits : Currency.val amount + Currency.val fee < two128).

(** What the submission of [txn], built from [taken], promises. *)
Record payment_made (s' : Service St) (txn : V2Transaction) (taken : list UnspentSiacoinElement) : Prop := {
  pm_pool : is_Some (tp_indices (m_txpool (sv_CM s')) !! V2Transaction_ID txn);
  pm_added : sv_CM s' = sv_CM s \/ tp_v2txns (m_txpool (sv_CM s')) = tp_v2txns (m_txpool (sv_CM s)) ++ [txn];
  pm_valid : ValidateV2Transaction ms txn = Ok tt;
  pm_taken : taken ⊆+ available s utxos;
  pm_parents : map v2sci_Parent (v2tx_SiacoinInputs txn) = map element_of taken;
  pm_outputs : exists change, v2tx_SiacoinOutputs txn =
    {| sco_Value := amount; sco_Address := payee_of mode to |} :: change_outputs change self;
  pm_exact : outputs_total txn + Currency.val fee = sumZ (worth cs p) taken;
  pm_fee : v2tx_MinerFee txn = fee;
  pm_relay : exists set, sv_rebroadcasts s' !! V2Transaction_ID txn = Some set /\ pb_Transactions set = [txn] /\ pb_Basis set = s_Index cs }.

Lemma deliver_one txn : confirmed_inputs cs txn -> ValidateV2Transaction (NewMidState cs) txn = Ok tt -> ValidateV2Transaction ms txn = Ok tt ->
  exists s', deliver os cs unit' txn s = (s', Ok (V2Transaction_ID txn)) /\
    is_Some (tp_indices (m_txpool (sv_CM s')) !! V2Transaction_ID txn) /\
    (sv_CM s' = sv_CM s \/ tp_v2txns (m_txpool (sv_CM s')) = tp_v2txns (m_txpool (sv_CM s)) ++ [txn]) /\
    exists set, sv_rebroadcasts s' !! V2Transaction_ID txn = Some set /\ pb_Transactions set = [txn] /\ pb_Basis set = s_Index cs.
Proof.
  intros Hc Hv0 Hv. unfold deliver. rewrite (bind_ok _ _ _ _ _ rest_TipState). rewrite (bind_ok (lift _) _ s s tt) by (unfold lift; by rewrite Hunit).
  rewrite (bind_ok _ _ s s [txn]).
  2:{ apply query_rest; [apply Hw|]. unfold UpdateV2TransactionSet. by rewrite bool_decide_eq_true_2. }
  destruct (accept_one (sv_CM s) p ms txn (rw_pool _ _ _ _ _ Hw) Hc Hv0 Hv) as (m' & known & Ea & Et & Hin & Hadd).
  rewrite (bind_ok _ _ s (with_CM s m' []) known).
  2:{ unfold cm_AddV2PoolTransactions. erewrite bind_ok by (apply call_rest; [apply Hw|exact Ea]). done. }
  destruct (remember_one (os_disk os) (os_now os) (s_Index cs) txn (with_CM s m' [])) as (s2 & r & Er & Hp & E1 & E2 & E3 & E4).
  rewrite (bind_ok _ _ _ _ _ Er).
  assert (exists s3, (match r with
      | Err e => setError ("failed to save pending transaction for rebroadcast: " +:+ e)
      | _ => mret tt end) s2 = (s3, Ok tt) /\ sv_CM s3 = sv_CM s2 /\ sv_rebroadcasts s3 = sv_rebroadcasts s2) as (s3 & Es & F1 & F2)
    by (destruct r; by eexists).
  rewrite (bind_ok _ _ _ _ _ Es). exists s3. rewrite F1, F2, E1, E4. cbn [with_CM sv_CM sv_rebroadcasts].
  split_and!; [done|done|destruct Hadd as [->|?]; [by left|by right]|]. rewrite lookup_insert_eq. eexists. split_and!; [done| |done].
  cbn [pb_Transactions]. by rewrite (DeepCopy_own _ _ Hc).
Qed.

Lemma submit_payment chosen : chosen ⊆+ available s utxos -> (length chosen <= 128)%nat ->
  Currency.val amount + Currency.val fee <= sumZ (worth cs p) chosen ->
  (forall txn intent, QdayActive cs (childHeight cs) = true -> build_payment cs keys mode fee amount to None (available s utxos) = Ok txn ->
     QdayWorkIntent cs txn = Ok intent -> exists k, (k <= os_work os)%nat /\ QdayWorkValid intent (u64 (Z.of_nat k)) (qd_DefendBits p) = true) ->
  exists s' txn taken, submitReviewed index os ctx from unit' customFee to amount mode None s = (s', Ok (V2Transaction_ID txn)) /\
    payment_made s' txn taken.
Proof.
  intros Hch Hlen Hreq Hwork. pose proof Hw as [_ Hkeys Hpool Hmed Hallow Hheight Hscheme Hpub Hselflen].
  assert (qday_state cs p) as Hst by exact (fp_state _ _ _ Hpool). unfold submitReviewed.
  destruct (poll_live ctx Hctx) as (ctx1 & -> & Hctx1). rewrite (bind_ok (gets sv_keys) _ s s (Some keys)) by (unfold gets; by rewrite Hkeys).
  rewrite (bind_ok (lift _) _ s s tt).
  2:{ unfold lift. destruct Hfrom as [->|Ef]; [done|]. by rewrite (bool_decide_eq_true_2 (from = QdayKeys_String (qp_Public keys)) Ef), andb_false_r. }
  rewrite (bind_ok _ _ _ _ _ rest_TipState). rewrite (bind_ok (lift _) _ s s tt) by (unfold lift; by rewrite Hunit).
  rewrite (bind_ok (lift _) _ s s fee) by (unfold lift; by rewrite Hfee).
  rewrite (bind_ok (check_proof _ _ _) _ s s tt) by (unfold check_proof; by destruct Hmode as [-> | ->]).
  rewrite (bind_ok _ _ _ _ _ rest_outputs).
  destruct (build_payment_ok cs p Hst keys mode fee amount to None (available s utxos) chosen Hmode Hto available_typed available_worth
    Haok Hfok Hamount Hfits Hch Hlen Hreq) as [txn Hb].
  rewrite (bind_ok (lift _) _ s s txn) by (unfold lift; by rewrite Hb).
  destruct (build_payment_inv cs p Hst keys mode fee amount to None _ txn available_typed available_worth Haok Hfok Hb) as (taken & e & Hbt).
  assert (mode <> submitProof) as Hnp by (by destruct Hmode as [-> | ->]).
  assert (forall ms', ms_base ms' = cs -> (forall o, o ∈ taken -> ms_isSpent ms' (output_id o) = false) -> transfer_ready ms' p (QdayKeys_Address (qp_Public keys)) txn e) as Hready.
  { intros ms' Hb' Hfree. eapply (built_ready cs p Hst Hheight keys Hselflen mode _ to amount fee None txn taken e Hbt available_outputs
      available_distinct available_supply); try done. intros o Ho. apply (wi_unspent (WalletIndexSpec := Hindex)). by apply available_in. }
  pose proof (run_base _ _ _ _ (fresh_run _ _ _ Hpool)) as Hbase.
  assert (transfer_ready ms p (QdayKeys_Address (qp_Public keys)) txn e) as Hr1.
  { apply Hready; [done|]. intros o Ho. apply available_free. eapply elem_of_submseteq; [done|apply Hbt]. }
  assert (transfer_ready (NewMidState cs) p (QdayKeys_Address (qp_Public keys)) txn e) as Hr0 by by apply Hready.
  pose proof (tr_data _ _ _ _ _ Hr1) as Hdata. pose proof (tr_envelope _ _ _ _ _ Hr1) as Henv.
  assert (qe_Nonce e = 0) as Hnonce by apply (bt_pays _ _ _ _ _ _ _ _ _ _ _ _ Hbt).
  destruct (SignTransfer_ok (os_work os) ctx1 cs txn keys e Hdata Henv Hctx1) as (txn' & ctx2 & Hsign & Hctx2).
  { intros Hact. assert (exists intent, QdayWorkIntent cs txn = Ok intent) as [intent Hi] by (unfold QdayWorkIntent; rewrite (qs_net _ _ Hst); by eexists).
    destruct (Hwork txn intent Hact Hb Hi) as (k & Hk & Hv). exists p, intent, k. split_and!; [apply Hst|done|done|].
    by rewrite Hnonce, Z.add_0_l. }
  rewrite (bind_ok (lift _) _ s s (txn', ctx2)) by (unfold lift; by rewrite Hsign). cbv beta iota.
  destruct (poll_live ctx2 Hctx2) as (ctx3 & -> & _).
  assert (forall ms', ms_base ms' = cs -> transfer_ready ms' p (QdayKeys_Address (qp_Public keys)) txn e -> ValidateV2Transaction ms' txn' = Ok tt) as Hvalid.
  { intros ms' Hb' Hr. rewrite <- Hb' in Hsign, Hmed, Hallow, Hst.
    exact (signed_transfer_valid ms' p keys Hst median Hmed Hscheme Hpub Hselflen Hallow _ _ _ _ _ _ Hr Hsign). }
  destruct (SignTransfer_inv _ _ _ _ _ _ _ e Hdata Henv Hsign) as (n & w & -> & _).
  destruct (deliver_one (signed txn e n w)) as (s' & Ed & Hin & Hadd & Hset); [|by apply Hvalid|by apply Hvalid|].
  { pose proof (bt_inputs _ _ _ _ _ _ _ _ _ _ _ _ Hbt) as Hins.
    assert (forall i, i ∈ v2tx_SiacoinInputs (signed txn e n w) -> exists o, o ∈ available s utxos /\ v2sci_Parent i = element_of o) as Hpar.
    { intros i (j & -> & Hj)%list_elem_of_fmap. rewrite Hins in Hj. apply list_elem_of_fmap in Hj as (o & -> & Ho).
      exists o. split; [|done]. eapply elem_of_submseteq; [done|apply Hbt]. }
    pose proof available_outputs as Hout. rewrite Forall_forall in Hout.
    split; [apply Hr1| | |]; intros i Hi; destruct (Hpar i Hi) as (o & Ho & ->); [apply (Hout o Ho)|apply (Hout o Ho)|].
    apply (wi_unspent (WalletIndexSpec := Hindex)). by apply available_in. }
  exists s', (signed txn e n w), taken. split; [exact Ed|]. destruct (bt_pays _ _ _ _ _ _ _ _ _ _ _ _ Hbt) as [Hpay _ Htot _ _ _ _ _ _ _].
  split; try done.
  - by apply Hvalid.
  - apply Hbt.
  - rewrite signed_parents, (bt_inputs _ _ _ _ _ _ _ _ _ _ _ _ Hbt), map_map. done.
  - by apply Hpay.
  - apply Hbt.
Qed.
End Submit.

(** A request the wallet can serve: a payment of [amount] with the fee [fee], which some choice of at
    most 128 outputs can fund and for which DEFEND work, when it is due, is within reach. *)
Record payable {crypto : Crypto} {edwards : Edwards25519} {St : Type} {order : GoOrder} (os : Outside) (s : Service St) (p : QdayParams)
    (keys : QdayPrivateKeys) (utxos : list UnspentSiacoinElement) (ctx : Context) (from unit' customFee : bytes) (to : Address)
    (amount fee : Currency) (mode : submitMode) (chosen : list UnspentSiacoinElement) : Prop := {
  pa_mode : is_payment mode;
  pa_to : (mode = submitTransfer -> QdayAddress_Validate to = Ok tt) /\ length to = 32%nat;
  pa_ctx : not_cancelled ctx;
  pa_from : from = [] \/ from = QdayKeys_String (qp_Public keys);
  pa_unit : checkUnit unit' (TipState (sv_CM s)) = Ok tt;
  pa_fee : submit_fee (os_rat os) (TipState (sv_CM s)) mode customFee = Ok fee /\ Currency.ok fee;
  pa_amount : Currency.ok amount /\ Currency.IsZero amount = false;
  pa_fits : Currency.val amount + Currency.val fee < two128;
  pa_pages : (length utxos < 500 * os_pages os)%nat;
  pa_chosen : chosen ⊆+ available s utxos /\ (length chosen <= 128)%nat;
  pa_enough : Currency.val amount + Currency.val fee <= sumZ (worth (TipState (sv_CM s)) p) chosen;
  pa_work : forall txn intent, QdayActive (TipState (sv_CM s)) (childHeight (TipState (sv_CM s))) = true ->
    build_payment (TipState (sv_CM s)) keys mode fee amount to None (available s utxos) = Ok txn ->
    QdayWorkIntent (TipState (sv_CM s)) txn = Ok intent ->
    exists k, (k <= os_work os)%nat /\ QdayWorkValid intent (u64 (Z.of_nat k)) (qd_DefendBits p) = true }.

(** C11: a payment that can be funded is made.  On a node at rest, for an unlocked wallet whose
    index is current, [submitReviewed] in the modes of [Transfer] and [Burn] succeeds whenever
    some choice of at most 128 outputs, valued as they will be two blocks ahead, covers the amount
    and the fee; however [sort.Slice] orders equal outputs.  The transaction it returns is in the
    pool, passes [ValidateV2Transaction] there, spends only outputs of the wallet that the pool does
    not spend, pays exactly the amount first, returns the rest to the wallet so that outputs and fee
    equal the value of the inputs two blocks ahead, and is kept for relaying. *)
Theorem payment_reaches_pool {crypto : Crypto} {edwards : Edwards25519} {St : Type} {store : Store St} {order : GoOrder} {Horder : GoOrderSpec}
    (index : Address -> Z -> Z -> outcome (list UnspentSiacoinElement * ChainIndex)) os s p ms median keys utxos ctx from unit' customFee to
    amount fee mode chosen :
  ready_wallet s p ms median keys -> WalletIndexSpec index (TipState (sv_CM s)) (QdayKeys_Address (qp_Public keys)) utxos ->
  payable os s p keys utxos ctx from unit' customFee to amount fee mode chosen ->
  exists s' txn taken, submitReviewed index os ctx from unit' customFee to amount mode None s = (s', Ok (V2Transaction_ID txn)) /\
    payment_made s p ms keys utxos to amount fee mode s' txn taken.
Proof.
  intros Hw Hi []. destruct pa_to0, pa_fee0, pa_amount0, pa_chosen0.
  by eapply (submit_payment index os s p ms median keys Hw utxos Hi).
Qed.

Module SampleWallet.
Import SampleChain SampleStore.
#[local] Existing Instances Sample.crypto SampleChain.edwards stable_order.

Definition utxo : UnspentSiacoinElement := {| use_SiacoinElement := SiacoinElement_Copy premine; use_Confirmations := 1 |}.
Definition manager : Manager SampleStore.t := set_pool mgr (tp_setTxns empty_pool [] [] ∅ (Some (NewMidState tip)) 0).
Definition service : Service SampleStore.t := mkService _ manager [] (Some keys) owner "" "" ∅ false None ∅ None None.
Definition index (a : Address) (offset limit : Z) : outcome (list UnspentSiacoinElement * ChainIndex) :=
  Ok (take (Z.to_nat limit) (drop (Z.to_nat offset) [utxo]), s_Index tip).
Definition outside : Outside :=
  {| os_work := 0; os_pages := 1; os_now := timestamp;
     os_disk := {| dk_json := fun _ => 0; dk_replaced := true; dk_error := None |}; os_rat := fun _ => None |}.
Definition payee : Address := replicate 32 9.

Lemma keys_seed : keys = ex_private 5.
Proof. vm_cast_no_check (eq_refl keys). Qed.
Lemma owner_address : QdayKeys_Address (qp_Public keys) = owner.
Proof. vm_cast_no_check (eq_refl owner). Qed.
Lemma sample_median : medianTimestamp tip = Ok timestamp.
Proof. exact tip_median. Qed.
Lemma utxo_unspent : containsUnspentSiacoinElement (s_Elements tip) (SiacoinElement_Share (element_of utxo)) = true.
Proof. vm_cast_no_check (eq_refl true). Qed.
Lemma store_tip : st_State start gid = Ok (Some tip).
Proof.
  cbn [st_State memory_store states start]. rewrite lookup_insert_ne by (intros E; by apply gid_nonzero). by rewrite lookup_singleton_eq.
Qed.

Lemma manager_fresh : fresh_pool manager params (NewMidState tip).
Proof.
  split.
  - exact sample_state.
  - done.
  - done.
  - split; [exists []; split_and!; [constructor|done|done]|apply indexed_empty].
  - done.
  - unfold Tip. change (m_tipState manager) with tip. rewrite tip_index. exact store_tip.
  - unfold Tip. change (m_tipState manager) with tip. rewrite tip_index. by vm_compute.
Qed.
Lemma wallet_ready : ready_wallet service params (NewMidState tip) timestamp keys.
Proof.
  split; [done|done|..].
  - exact manager_fresh.
  - exact sample_median.
  - apply Z.leb_le. vm_cast_no_check (eq_refl true).
  - change (TipState (sv_CM service)) with tip. by rewrite tip_index.
  - rewrite keys_seed. apply sample_scheme_correct.
  - exact keys_ok.
  - by rewrite owner_address.
Qed.
Lemma wallet_index : WalletIndexSpec index (TipState (sv_CM service)) (QdayKeys_Address (qp_Public keys)) [utxo].
Proof.
  change (TipState (sv_CM service)) with tip. rewrite owner_address. split.
  - done.
  - constructor; [|constructor]. split; [|done|by rewrite tip_index|done|done|done].
    split; [apply currency_okb_ok; reflexivity|done].
  - intros o ->%list_elem_of_singleton. exact utxo_unspent.
  - apply NoDup_singleton.
  - apply Z.ltb_lt. vm_cast_no_check (eq_refl true).
Qed.
Lemma wallet_payable :
  payable outside service params keys [utxo] [] [] [] [] payee (coins 1000) (Currency.of_Z (10 ^ 21)) submitTransfer [utxo].
Proof.
  split.
  - by left.
  - split; [intros _; reflexivity|reflexivity].
  - constructor.
  - by left.
  - vm_cast_no_check (eq_refl (Ok tt : outcome unit)).
  - split; [vm_cast_no_check (eq_refl (Ok (Currency.of_Z (10 ^ 21)) : outcome Currency))|apply Currency.of_Z_ok].
  - split; [apply currency_okb_ok; reflexivity|reflexivity].
  - reflexivity.
  - cbn. lia.
  - split; [|cbn; lia]. unfold available. rewrite filter_cons_True, filter_nil by apply not_elem_of_empty. done.
  - apply Z.leb_le. vm_cast_no_check (eq_refl true).
  - intros txn intent Hact. change (TipState (sv_CM service)) with tip in Hact. discriminate Hact.
Qed.
End SampleWallet.

#[local] Existing Instance SampleStore.memory_store.
Lemma payment_reaches_pool_witness : exists s' txn taken,
  submitReviewed (crypto := Sample.crypto) (edwards := SampleChain.edwards) (order := stable_order) SampleWallet.index SampleWallet.outside
    [] [] [] [] SampleWallet.payee (coins 1000) submitTransfer None SampleWallet.service = (s', Ok (V2Transaction_ID (crypto := Sample.crypto) txn)) /\
  payment_made (crypto := Sample.crypto) (edwards := SampleChain.edwards) SampleWallet.service SampleChain.params
    (NewMidState SampleChain.tip) SampleChain.keys [SampleWallet.utxo] SampleWallet.payee (coins 1000) (Currency.of_Z (10 ^ 21))
    submitTransfer s' txn taken.
Proof.
  exact (payment_reaches_pool (crypto := Sample.crypto) (edwards := SampleChain.edwards) (order := stable_order) SampleWallet.index
    SampleWallet.outside SampleWallet.service SampleChain.params (NewMidState SampleChain.tip) SampleChain.timestamp SampleChain.keys
    [SampleWallet.utxo] [] [] [] [] SampleWallet.payee (coins 1000) (Currency.of_Z (10 ^ 21)) submitTransfer [SampleWallet.utxo]
    SampleWallet.wallet_ready SampleWallet.wallet_index SampleWallet.wallet_payable).
Defined.
