(* ===== verification/QdayRelaySpec.v ===== *)
(** * Pending transactions are not lost

    What the service keeps for relaying survives a restart, and a pass of the relay drops
    nothing before its deadline. *)
From stdpp Require Import prelude strings gmap.
From Stdlib Require Import ZArith Lia.
From S2P Require Import Prelude TypesCurrency TypesData TypesEncoding TypesCodec TypesHash TypesPolicy.
From S2P Require Import ConsensusWork ConsensusState ConsensusQday ChainStore ChainPool ChainManager ChainManagerPool.
From S2P Require Import ConsensusMerkle ConsensusMidState ConsensusApply ConsensusValidateV1 ConsensusValidate ConsensusCodec ConsensusProofSpec TypesBlockCodecSpec TypesMultiproof TypesMultiproofSpec ChainUpdateSpec.
From S2P Require Import QdayMiner QdayService QdayPaymentSpec QdayServiceSpec SampleCrypto ChainQday SampleChain SampleStore.

(** ** Managers keep their store *)
Section Pool.
Context {crypto : Crypto} {edwards : Edwards25519} {St : Type} {store : Store St}.

Lemma revalidate_store (m m' : Manager St) : revalidatePool m = Ok m' -> m_store m' = m_store m.
Proof.
  unfold revalidatePool. destruct (_ && _); [by intros [= <-]|]. intros H. ok_step H. ok_step H. destruct v0 as [[[ms idx] w] l].
  ok_step H. destruct v0 as [[[ms' idx'] w'] l']. by apply Ok_inj in H as <-.
Qed.
Lemma add_v2_store n w txns : forall (m m' : Manager St) r, add_v2txns n w m txns = Ok (m', r) -> m_store m' = m_store m.
Proof.
  induction txns as [|txn txns IH]; intros m m' r H; cbn [add_v2txns] in H; [by injection H as <- _|].
  destruct (in_pool _ _); [by eapply IH|]. ok_step H. destruct (ValidateV2Transaction _ _); [|by injection H as <- _|done].
  ok_step H. by apply IH in H.
Qed.
Lemma add_pool_store (m : Manager St) basis txns m' r : AddV2PoolTransactions m basis txns = Ok (m', r) -> m_store m' = m_store m.
Proof.
  unfold AddV2PoolTransactions. intros H. ok_step H. apply revalidate_store in E. rewrite <- E. destruct (_ && _); [by injection H as <- _|].
  cbv zeta in H. destruct (updateV2TransactionProofs _ _ _ _); [|by injection H as <- _|done].
  destruct (checkTxnSet _ _ _) as [[]| |]; [by injection H as <- _| |by injection H as <- _|done]. by eapply add_v2_store.
Qed.
Lemma v2_pool_store (m m' : Manager St) l : V2PoolTransactions m = Ok (m', l) -> m_store m' = m_store m.
Proof. unfold V2PoolTransactions. intros H. ok_step H. injection H as <- _. by apply revalidate_store. Qed.
End Pool.

Section Relay.
Context {crypto : Crypto} {sizes : CryptoSizes} {edwards : Edwards25519} {St : Type} {store : Store St} {order : GoOrder} {Horder : GoOrderSpec}.

(** ** Restart *)

(** A set as it comes back from the file. *)
Definition restored (set : pendingBroadcast) : pendingBroadcast :=
  {| pb_Basis := pb_Basis set; pb_BroadcastedAt := pb_BroadcastedAt set; pb_Transactions := pb_Transactions set;
     pb_confirmedAt := zeroIndex |}.

Definition storable_txn (txn : V2Transaction) : Prop :=
  wf_V2Transaction txn /\ 0 < zlen (V2Transaction_EncodeTo txn) <= Z.shiftl 4 20.

(** A set under its key: the identifier of its last transaction; not expired at [now]. *)
Record kept (now : Time) (id : TransactionID) (set : pendingBroadcast) : Prop := {
  kp_key : V2Transaction_ID <$> last (pb_Transactions set) = Some id;
  kp_txns : Forall storable_txn (pb_Transactions set);
  kp_time : pb_BroadcastedAt set <> 0;
  kp_live : time_Sub now (pb_BroadcastedAt set) <= maxRebroadcastPeriod }.

Lemma pending_decode txn : storable_txn txn -> decodePendingTransaction (encodePendingTransaction txn) = Ok txn.
Proof.
  intros [Hwf Hl]. unfold decodePendingTransaction, encodePendingTransaction.
  rewrite (proj2 (Z.eqb_neq _ 0)), (proj2 (Z.ltb_ge (Z.shiftl 4 20) _)) by lia. cbn [orb fail_if mbind outcome_bind].
  rewrite (codec_buf wf_V2Transaction V2Transaction_EncodeTo V2Transaction_DecodeFrom txn Hwf) by (change (Z.shiftl 4 20) with 4194304 in Hl; lia).
  cbn [mbind outcome_bind]. by rewrite bool_decide_eq_true_2.
Qed.

Lemma decode_all txns : forall i acc, Forall storable_txn txns ->
  for_each (map encodePendingTransaction txns) i acc (fun _ encoded txns =>
    txn ← wrap_err "invalid pending transaction: " (decodePendingTransaction encoded); Ok (txns ++ [txn])) = Ok (acc ++ txns).
Proof.
  induction txns as [|txn txns IH]; intros i acc Hs; cbn [map for_each]; [by rewrite app_nil_r|].
  apply Forall_cons in Hs as [H Hs]. rewrite pending_decode by done. cbn [wrap_err mbind outcome_bind]. rewrite IH by done. by rewrite <- app_assoc.
Qed.

Lemma load_stored now id set sets : kept now id set -> load_set now (stored set) sets = Ok (<[id := restored set]> sets).
Proof.
  intros [Hk Ht Hz Hl]. unfold load_set, stored. cbn [sp_BroadcastedAt sp_Transactions sp_Basis].
  rewrite (proj2 (Z.eqb_neq _ 0)) by done. rewrite (proj2 (Z.ltb_ge _ _)) by done.
  destruct (pb_Transactions set) as [|t txns] eqn:E; [done|].
  assert ((zlen (map encodePendingTransaction (t :: txns)) =? 0) = false) as -> by (apply Z.eqb_neq; unfold zlen; cbn; lia).
  cbn [orb]. rewrite decode_all by done. cbn [mbind outcome_bind app]. destruct (last (t :: txns)) as [x|]; [|done]. injection Hk as <-.
  unfold restored. by rewrite E.
Qed.

Definition insert_all (l : list (TransactionID * pendingBroadcast)) (acc : idmap pendingBroadcast) : idmap pendingBroadcast :=
  foldl (fun m kv => <[kv.1 := restored kv.2]> m) acc l.
Lemma load_all now l : forall i acc, Forall (fun kv => kept now kv.1 kv.2) l ->
  for_each (map (fun kv => stored kv.2) l) i acc (fun _ disk sets => load_set now disk sets) = Ok (insert_all l acc).
Proof.
  induction l as [|[id set] l IH]; intros i acc Hl; [done|]. apply Forall_cons in Hl as [H Hl]. cbn [map for_each].
  rewrite (load_stored now id set) by done. cbn [mbind outcome_bind]. by apply IH.
Qed.
Lemma insert_all_lookup l : forall acc id, NoDup l.*1 ->
  insert_all l acc !! id = match list_to_map (M := idmap _) l !! id with Some set => Some (restored set) | None => acc !! id end.
Proof.
  induction l as [|[k set] l IH]; intros acc id Hn; [by rewrite list_to_map_nil, lookup_empty|]. cbn [fmap list_fmap fst] in Hn. apply NoDup_cons in Hn as [Hk Hn].
  change (insert_all ((k, set) :: l) acc) with (insert_all l (<[k := restored set]> acc)). rewrite IH by done. rewrite list_to_map_cons.
  destruct (decide (id = k)) as [->|Hne].
  - rewrite lookup_insert_eq, (not_elem_of_list_to_map_1 _ _ Hk). cbn. by rewrite lookup_insert_eq.
  - rewrite !lookup_insert_ne by done. done.
Qed.

Lemma pending_restart (now : Time) (sets : idmap pendingBroadcast) : (forall id set, sets !! id = Some set -> kept now id set) ->
  Z.of_nat (size sets) <= maxRebroadcastSets ->
  loadPendingBroadcasts now (Some (pending_file sets)) = Ok (restored <$> sets).
Proof.
  intros Hk Hsize. unfold loadPendingBroadcasts, pending_file. cbn [pf_Version pf_Transactions].
  set (l := sort_Slice _ (map_to_list sets)). assert (l ≡ₚ map_to_list sets) as Hl by apply sort_perm.
  assert (zlen (map (fun p => stored p.2) l) <= maxRebroadcastSets) as Hlen.
  { unfold zlen. rewrite length_map, Hl. by rewrite length_map_to_list. }
  rewrite (proj2 (Z.ltb_ge _ _)) by done. cbn [Z.eqb Pos.eqb negb orb fail_if mbind outcome_bind]. rewrite load_all.
  - f_equal. apply map_eq. intros id. assert (NoDup l.*1) as Hn by (rewrite Hl; apply NoDup_fst_map_to_list).
    rewrite insert_all_lookup, lookup_fmap, lookup_empty by done. rewrite (list_to_map_proper l (map_to_list sets)), list_to_map_to_list by done.
    by destruct (sets !! id).
  - rewrite Hl. apply Forall_forall. intros [id set] Hin%elem_of_map_to_list. by apply Hk.
Qed.

(** ** A pass of the relay *)

(** The store satisfies [I], whatever the other goroutines do. *)
Definition service_holds (I : St -> Prop) (s : Service St) : Prop :=
  I (m_store (sv_CM s)) /\ Forall (fun g : Manager St -> Manager St => forall m, I (m_store m) -> I (m_store (g m))) (sv_others s).

(** Methods that only use the manager, and leave its store to the other goroutines. *)
Definition leaves {A} (f : M (St := St) A) : Prop := forall s,
  sv_rebroadcasts (f s).1 = sv_rebroadcasts s /\ sv_file (f s).1 = sv_file s /\
  forall I, service_holds I s -> service_holds I (f s).1.

Lemma leaves_ret {A} (a : A) : leaves (mret a).
Proof. done. Qed.
Lemma leaves_lift {A} (o : outcome A) : leaves (lift o).
Proof. done. Qed.
Lemma leaves_bind {A B} (f : M A) (k : A -> M B) : leaves f -> (forall a, leaves (k a)) -> leaves (f ≫= k).
Proof.
  intros Hf Hk s. unfold mbind, M_bind. destruct (Hf s) as (H1 & H2 & H3). destruct (f s) as [s1 [a|e|m]]; cbn [fst] in *; [|done|done].
  destruct (Hk a s1) as (G1 & G2 & G3). split_and!; [congruence|congruence|auto].
Qed.
Lemma leaves_call {A} (f : Manager St -> outcome (Manager St * A)) :
  (forall m m' a, f m = Ok (m', a) -> m_store m' = m_store m) -> leaves (call f).
Proof.
  intros Hf s. unfold call. destruct (match sv_others s with [] => _ | _ => _ end) as [m others] eqn:E.
  assert (forall I : St -> Prop, service_holds I s -> I (m_store m) /\
    Forall (fun g : Manager St -> Manager St => forall m, I (m_store m) -> I (m_store (g m))) others) as Hs.
  { intros I [H1 H2]. destruct (sv_others s) as [|g l]; injection E as <- <-; [done|]. apply Forall_cons in H2 as [H2 H3]. split; [by apply H2|done]. }
  destruct (f m) as [[m' a]|e|p] eqn:Ef; (split; [done|split; [done|]]; intros I Ht; destruct (Hs I Ht) as [H1 H2]; split; cbn; [|done]); [|done|done].
  by rewrite (Hf _ _ _ Ef).
Qed.
Lemma leaves_query {A} (f : Manager St -> outcome A) : leaves (query f).
Proof. apply leaves_call. intros m m' a H. ok_step H. by injection H as <- _. Qed.
Lemma leaves_try {A} (f : M A) : leaves f -> leaves (try f).
Proof. intros Hf s. specialize (Hf s). unfold try. by destruct (f s) as [s1 [a|e|m]]. Qed.
Lemma leaves_if {A} (c : bool) (f g : M A) : leaves f -> leaves g -> leaves (if c then f else g).
Proof. by destruct c. Qed.
Create HintDb leaves.
#[local] Hint Resolve leaves_ret leaves_lift leaves_query leaves_try leaves_if : leaves.
#[local] Hint Extern 1 (leaves (cm_BestIndex _)) => apply leaves_query : leaves.
#[local] Hint Extern 1 (leaves (cm_Block _)) => apply leaves_query : leaves.
#[local] Hint Extern 1 (leaves (cm_UpdateV2TransactionSet _ _ _)) => apply leaves_query : leaves.
#[local] Hint Extern 2 (leaves (_ ≫= _)) => apply leaves_bind; [|intros] : leaves.
#[local] Hint Extern 2 (leaves (match ?x with _ => _ end)) => destruct x : leaves.

Lemma step_back_leaves n to : forall next, leaves (step_back n to next).
Proof. induction n as [|n IH]; intros next; cbn [step_back]; auto 10 with leaves. Qed.
#[local] Hint Resolve step_back_leaves : leaves.
Lemma next_basis_leaves from to : leaves (next_basis from to).
Proof. unfold next_basis. cbv zeta. auto 10 with leaves. Qed.
#[local] Hint Resolve next_basis_leaves : leaves.
Lemma update_leaves fuel done to : forall txns from, leaves (updatePendingProofs fuel done txns from to).
Proof. induction fuel as [|fuel IH]; intros txns from; cbn [updatePendingProofs]; auto 12 with leaves. Qed.
Lemma add_leaves basis txns : leaves (cm_AddV2PoolTransactions basis txns).
Proof. unfold cm_AddV2PoolTransactions. apply leaves_bind; [|auto with leaves]. apply leaves_call. intros m m' a. apply add_pool_store. Qed.
#[local] Hint Resolve update_leaves add_leaves : leaves.

(** ** What a pass may do to one set *)

Abbreviation typed_txn := (typed wf_V2Transaction).
Abbreviation same l := (map identity l).
Definition expired (now : Time) (set : pendingBroadcast) : bool := maxRebroadcastPeriod <? time_Sub now (pb_BroadcastedAt set).
(** A block of a store with [I] holds the transaction. *)
Definition on_chain (I : St -> Prop) (id : TransactionID) : Prop := exists st index, I st /\ confirms st index id = true.
(** The transactions of [txns] in order, with the same identifiers and contents, less some that were confirmed. *)
Definition less (I : St -> Prop) (txns txns' : list V2Transaction) : Prop := exists gone : list TransactionID,
  (forall id, id ∈ gone -> on_chain I id) /\ same txns' = List.filter (fun k => negb (bool_decide (k.1 ∈ gone))) (same txns).
(** The set keeps the time of its first broadcast, and its transactions less those that were confirmed;
    when all of them were it stays as it is. *)
Definition refreshed (I : St -> Prop) (set set' : pendingBroadcast) : Prop :=
  pb_BroadcastedAt set' = pb_BroadcastedAt set /\
  (pb_Basis set' = pb_Basis set /\ pb_Transactions set' = pb_Transactions set \/
   pb_Transactions set' <> [] /\ less I (pb_Transactions set) (pb_Transactions set')).

Section Holds.
Context (I : St -> Prop) (Hty : forall st, I st -> typed_store st).

Lemma filter_all {A} (f : A -> bool) l : (forall x, f x = true) -> List.filter f l = l.
Proof. intros H. induction l as [|x l IH]; [done|]. cbn. by rewrite H, IH. Qed.
Lemma less_same txns txns' : same txns' = same txns -> less I txns txns'.
Proof. intros E. exists []. split; [by intros id ?%elem_of_nil|]. rewrite E, filter_all; [done|]. intros k. by rewrite bool_decide_eq_false_2 by apply not_elem_of_nil. Qed.
Lemma less_trans l1 l2 l3 : less I l1 l2 -> less I l2 l3 -> less I l1 l3.
Proof.
  intros (g1 & H1 & E1) (g2 & H2 & E2). exists (g1 ++ g2). split; [by intros id [?|?]%elem_of_app; auto|]. rewrite E2, E1. clear.
  induction (same l1) as [|k l IH]; [done|]. cbn [List.filter]. rewrite (bool_decide_ext _ _ (elem_of_app g1 g2 k.1)), bool_decide_or.
  destruct (bool_decide (k.1 ∈ g1)); cbn [negb orb List.filter]; [done|]. destruct (negb _); [by f_equal|done].
Qed.
Lemma less_ids txns txns' : less I txns txns' -> map V2Transaction_ID txns' `sublist_of` map V2Transaction_ID txns.
Proof.
  intros (g & _ & E). assert (forall l, map V2Transaction_ID l = map fst (same l)) as Hm by (intros l; by rewrite map_map).
  rewrite !Hm, E. apply (fmap_sublist fst), filter_sublist.
Qed.
Lemma updated_less m txns from to upd : I (m_store m) -> Forall typed_txn txns -> UpdateV2TransactionSet m txns from to = Ok upd ->
  Forall typed_txn upd /\ less I txns upd.
Proof.
  intros Hi Ht H. unfold UpdateV2TransactionSet in H. destruct (bool_decide _); [injection H as <-; split; [done|by apply less_same]|].
  destruct (updated_set _ _ _ _ _ (Hty _ Hi) Ht H) as (r & path & _ & H1 & E). split; [done|].
  exists (List.filter (confirmed_on (m_store m) path) (map fst (same txns))). split.
  - intros id Hin. apply list_elem_of_In, List.filter_In in Hin as [_ Hc]. apply existsb_exists in Hc as (index & _ & Hc). by exists (m_store m), index.
  - rewrite E. clear - E. apply filter_ext_in. intros k Hk. f_equal. apply eq_true_iff_eq. rewrite bool_decide_eq_true.
    rewrite list_elem_of_In, List.filter_In. split; [|by intros [_ ?]]. intros Hc. split; [by apply in_map|done].
Qed.

Lemma query_holds {A} (f : Manager St -> outcome A) s s' a : service_holds I s -> query f s = (s', Ok a) ->
  exists m, I (m_store m) /\ f m = Ok a.
Proof.
  intros [H1 H2] H. unfold query, call in H. destruct (sv_others s) as [|g l].
  - exists (sv_CM s). split; [done|]. destruct (f (sv_CM s)) as [b| |]; [|done|done]. by injection H as _ <-.
  - apply Forall_cons in H2 as [H2 _]. exists (g (sv_CM s)). split; [by apply H2|]. destruct (f (g (sv_CM s))) as [b| |]; [|done|done]. by injection H as _ <-.
Qed.
Lemma leaves_holds {A} (f : M A) s s' o : leaves f -> service_holds I s -> f s = (s', o) -> service_holds I s'.
Proof. intros Hf Hs H. destruct (Hf s) as (_ & _ & G). rewrite H in G. by apply G. Qed.

Lemma pending_less fuel done to : forall txns from s s' upd, service_holds I s -> Forall typed_txn txns ->
  updatePendingProofs fuel done txns from to s = (s', Ok upd) -> Forall typed_txn upd /\ less I txns upd.
Proof.
  assert (forall l, less I l l) as Hrefl by (intros l; by apply less_same).
  induction fuel as [|fuel IH]; intros txns from s s' upd Hs Ht H; cbn [updatePendingProofs] in H; destruct (bool_decide (from = to));
    [by injection H as _ <-|done|by injection H as _ <-|].
  destruct done; [done|]. apply M_bind_ok in H as (s1 & next & H1 & H). apply (leaves_holds _ _ _ _ (next_basis_leaves _ _) Hs) in H1 as Hs1.
  apply M_bind_ok in H as (s2 & txns1 & H2 & H). destruct (query_holds _ _ _ _ Hs1 H2) as (m & Hm & Hu).
  apply (leaves_holds _ _ _ _ (leaves_query _) Hs1) in H2 as Hs2. destruct (updated_less _ _ _ _ _ Hm Ht Hu) as [Ht1 Hsub].
  destruct (zlen txns1 =? 0); [injection H as _ <-; done|]. apply M_bind_ok in H as (s3 & best & H3 & H).
  apply (leaves_holds _ _ _ _ (leaves_query _) Hs2) in H3 as Hs3. destruct (bool_decide _); [|done].
  destruct (IH _ _ _ _ _ Hs3 Ht1 H) as [H4 H5]. split; [done|by eapply less_trans].
Qed.
End Holds.

(** A method that leaves the sets alone either ends the pass or goes on. *)
Lemma after_leaves {A B} (f : M A) (k : A -> M B) s : leaves f -> exists s1 r, f s = (s1, r) /\
  sv_rebroadcasts s1 = sv_rebroadcasts s /\ sv_file s1 = sv_file s /\ (forall I, service_holds I s -> service_holds I s1) /\
  ((exists o, (f ≫= k) s = (s1, o) /\ forall b, o <> Ok b) \/ exists a, r = Ok a /\ (f ≫= k) s = k a s1).
Proof.
  intros Hf. destruct (Hf s) as (H1 & H2 & H3). unfold mbind, M_bind. destruct (f s) as [s1 r]; cbn [fst] in *. exists s1, r. split_and!; [done..|].
  destruct r as [a|e|m]; [right; by exists a|left; by eexists|left; by eexists].
Qed.
Section Pass.
Context (I : St -> Prop) (Hty : forall st, I st -> typed_store st).
Context (fuel : nat) (done : bool) (now : Time) (relay : option (option string)).

(** What the visit of one set leaves behind; when the file need not be written, what it would hold is the same. *)
Record visited (id : TransactionID) (set : pendingBroadcast) (s s' : Service St) (r : outcome bool) : Prop := {
  vi_holds : service_holds I s';
  vi_file : sv_file s' = sv_file s;
  vi_sets : sv_rebroadcasts s' = sv_rebroadcasts s \/
            expired now set = true /\ sv_rebroadcasts s' = delete id (sv_rebroadcasts s) \/
            exists set', refreshed I set set' /\ Forall typed_txn (pb_Transactions set') /\ sv_rebroadcasts s' = <[id := set']> (sv_rebroadcasts s);
  vi_same : r = Ok false -> restored <$> sv_rebroadcasts s' = restored <$> sv_rebroadcasts s }.
Lemma visited_none id set s s' r : service_holds I s' -> sv_file s' = sv_file s -> sv_rebroadcasts s' = sv_rebroadcasts s -> visited id set s s' r.
Proof. intros H1 H2 H3. split; [done|done|by left|by rewrite H3]. Qed.

Lemma visited_put id set set' s s' r : service_holds I s' -> sv_file s' = sv_file s -> sv_rebroadcasts s' = <[id := set']> (sv_rebroadcasts s) ->
  refreshed I set set' -> Forall typed_txn (pb_Transactions set') ->
  (r = Ok false -> sv_rebroadcasts s !! id = Some set /\ restored set' = restored set) -> visited id set s s' r.
Proof.
  intros H1 H2 H3 Hr Ht Hsame. split; [done|done|by right; right; exists set'|]. intros [Hid E]%Hsame. rewrite H3, fmap_insert, E.
  apply insert_id. by rewrite lookup_fmap, Hid.
Qed.

Lemma set_pass tip id set s : service_holds I s -> sv_rebroadcasts s !! id = Some set -> Forall typed_txn (pb_Transactions set) ->
  visited id set s (rebroadcast_set fuel done now tip relay id set s).1 (rebroadcast_set fuel done now tip relay id set s).2.
Proof.
  intros Hs Hid Ht. unfold rebroadcast_set. fold (expired now set). destruct (expired now set) eqn:Ex.
  { split; [done|done|by right; left|done]. }
  match goal with |- context [(?f ≫= ?k) s] => destruct (after_leaves f k s) as (s1 & r1 & _ & E1 & F1 & S1 & [(o & -> & _)|(confirmed & _ & ->)]);
    [auto 10 with leaves|apply visited_none; auto|] end.
  destruct confirmed; [apply visited_none; cbn; auto|].
  match goal with |- context [(?f ≫= ?k) s1] => destruct (after_leaves f k s1) as (s2 & r2 & Hu & E2 & F2 & S2 & [(o & -> & _)|(upd & -> & ->)]);
    [auto with leaves|apply visited_none; cbn; auto; congruence|] end.
  assert (service_holds I s2) as Hs2 by auto. assert (sv_rebroadcasts s2 = sv_rebroadcasts s /\ sv_file s2 = sv_file s) as [E F] by (split; congruence).
  destruct upd as [[|t txns]|e|m]; [| |apply visited_none; done|apply visited_none; done].
  { apply (visited_put id set {| pb_Basis := pb_Basis set; pb_BroadcastedAt := pb_BroadcastedAt set; pb_Transactions := pb_Transactions set; pb_confirmedAt := tip |});
      [done|done|by rewrite <- E|by split; [|left]|done|done]. }
  match goal with |- context [(?f ≫= ?k) s2] => destruct (after_leaves f k s2) as (s3 & r3 & _ & E3 & F3 & S3 & [(o & -> & _)|(known & _ & ->)]);
    [auto with leaves|apply visited_none; cbn; auto; congruence|] end.
  assert (sv_rebroadcasts s3 = sv_rebroadcasts s /\ sv_file s3 = sv_file s) as [E' F'] by (split; congruence).
  destruct known as [known|e|m]; [|apply visited_none; auto|apply visited_none; auto].
  assert (Forall typed_txn (t :: txns) /\ less I (pb_Transactions set) (t :: txns)) as [Ht' Hl].
  { unfold try in Hu. destruct (updatePendingProofs _ _ _ _ _ _) as [s4 [l|e|p]] eqn:Ep; [|done|done]. injection Hu as -> ->.
    apply (pending_less I Hty) in Ep as [H1 H2]; [|auto|by apply Forall_map; eapply Forall_impl; [exact Ht|]; intros x Hx; apply wf_typed, Hx].
    split; [done|]. eapply less_trans; [|exact H2]. apply less_same. rewrite map_map. apply map_ext, identity_copy. }
  set (set' := {| pb_Basis := tip; pb_BroadcastedAt := _; pb_Transactions := _; pb_confirmedAt := _ |}).
  assert (refreshed I set set') as Hr by (split; [done|right; done]).
  destruct relay as [e|]; (apply (visited_put id set set'); [by apply S3|done|by rewrite <- E'|done|done|done]).
Qed.

(** What a pass makes of the sets [before]. *)
Definition passed (before after : idmap pendingBroadcast) : Prop :=
  forall id set, before !! id = Some set -> expired now set = false -> exists set', after !! id = Some set' /\ refreshed I set set'.
Definition typed_sets (sets : idmap pendingBroadcast) : Prop := forall id set, sets !! id = Some set -> Forall typed_txn (pb_Transactions set).

Lemma refreshed_refl set : refreshed I set set.
Proof. split; [done|by left]. Qed.

(** The sets of [l] are still to be visited. *)
Record passing (before : idmap pendingBroadcast) (file : option pendingBroadcastFile) (l : list (TransactionID * pendingBroadcast))
    (changed : bool) (s : Service St) : Prop := {
  pg_holds : service_holds I s;
  pg_file : sv_file s = file;
  pg_typed : typed_sets (sv_rebroadcasts s);
  pg_todo : forall id set, (id, set) ∈ l -> before !! id = Some set /\ sv_rebroadcasts s !! id = Some set;
  pg_passed : passed before (sv_rebroadcasts s);
  pg_same : changed = false -> restored <$> sv_rebroadcasts s = restored <$> before }.

Lemma visit_passing before file tip id set l changed s : NoDup ((id, set) :: l).*1 -> passing before file ((id, set) :: l) changed s ->
  let '(s', r) := rebroadcast_set fuel done now tip relay id set s in
  passing before file l (changed || match r with Ok c => c | _ => true end) s'.
Proof.
  intros Hn [P1 P2 P3 P4 P5 P6]. cbn [fmap list_fmap fst] in Hn. apply NoDup_cons in Hn as [Hid Hn].
  destruct (P4 id set ltac:(left)) as [Hb Hs]. destruct (set_pass tip id set s P1 Hs (P3 _ _ Hs)) as [V1 V2 V3 V4].
  destruct (rebroadcast_set _ _ _ _ _ _ _ _) as [s' r]. cbn [fst snd] in *. split; [done|congruence| | | |].
  - destruct V3 as [->|[[_ ->]|(set' & _ & Ht & ->)]]; [done| |]; intros k st.
    + intros [_ H]%lookup_delete_Some. by eapply P3.
    + intros [[_ <-]|[_ H]]%lookup_insert_Some; [done|by eapply P3].
  - intros k st Hk. destruct (P4 k st ltac:(by right)) as [H1 H2]. split; [done|].
    assert (k <> id) by (intros ->; apply Hid; change id with (id, st).1; by apply list_elem_of_fmap_2).
    destruct V3 as [->|[[_ ->]|(set' & _ & _ & ->)]]; [done|by rewrite lookup_delete_ne|by rewrite lookup_insert_ne].
  - intros k st Hk Hx. destruct V3 as [->|[[He ->]|(set' & Hr & _ & ->)]]; [by apply P5| |].
    + rewrite lookup_delete_ne; [by apply P5|]. intros <-. congruence.
    + destruct (decide (k = id)) as [->|Hne]; [|rewrite lookup_insert_ne by done; by apply P5].
      rewrite lookup_insert_eq. exists set'. split; [done|]. congruence.
  - intros [Hc Hr]%orb_false_iff. destruct r as [c|e|m]; [|done|done]. rewrite V4, P6; [done|done|by rewrite Hr].
Qed.

Lemma sets_passing before file tip l : forall changed s, NoDup l.*1 -> passing before file l changed s ->
  let '(s', r) := rebroadcast_sets fuel done now tip relay l changed s in
  exists l' c, passing before file l' c s' /\ forall c', r = Ok c' -> c' = c.
Proof.
  induction l as [|[id set] l IH]; intros changed s Hn Hp; [exists [], changed; split; [done|by intros c' [= <-]]|].
  pose proof (visit_passing before file tip id set l changed s Hn Hp) as Hv. cbn [fmap list_fmap fst] in Hn. apply NoDup_cons in Hn as [_ Hn].
  cbn [rebroadcast_sets]. unfold mbind, M_bind. destruct (rebroadcast_set _ _ _ _ _ _ _ _) as [s1 [c|e|m]]; [by apply IH|by exists l; eexists|by exists l; eexists].
Qed.

(** The file would give the sets back. *)
Definition durable (restart : Time) (s : Service St) : Prop :=
  loadPendingBroadcasts restart (sv_file s) = Ok (restored <$> sv_rebroadcasts s).
(** The write goes through: the file is replaced and the limits of [savePendingBroadcastsLocked] are met. *)
Definition writes (disk : Disk) (sets : idmap pendingBroadcast) : Prop :=
  dk_replaced disk = true /\ dk_json disk (pending_file sets) <= maxRebroadcastFile /\ Z.of_nat (size sets) <= maxRebroadcastSets.

Lemma gets_bind {A B} (f : Service St -> A) (k : A -> M B) s : (gets f ≫= k) s = k (f s) s.
Proof. done. Qed.
Lemma save_written disk s : let s' := (savePendingBroadcastsLocked disk s).1 in
  sv_rebroadcasts s' = sv_rebroadcasts s /\ (service_holds I s -> service_holds I s') /\
  (writes disk (sv_rebroadcasts s) -> sv_file s' = Some (pending_file (sv_rebroadcasts s))).
Proof.
  cbv zeta. unfold savePendingBroadcastsLocked. rewrite gets_bind. cbv zeta. unfold writes.
  assert (zlen (pf_Transactions (pending_file (sv_rebroadcasts s))) = Z.of_nat (size (sv_rebroadcasts s))) as ->.
  { unfold pending_file, zlen. cbn [pf_Transactions]. rewrite length_map, sort_perm. by rewrite length_map_to_list. }
  destruct (_ || _) eqn:E; [split_and!; [done|done|]; intros (_ & H1 & H2); apply orb_true_iff in E as [?%Z.ltb_lt|?%Z.ltb_lt]; lia|].
  unfold modify, mbind, M_bind. destruct (dk_error disk), (dk_replaced disk); split_and!; try done; by intros [? _].
Qed.

Lemma relay_pass disk s : service_holds I s -> typed_sets (sv_rebroadcasts s) ->
  let '(s', r) := rebroadcastPending fuel done now relay disk s in
  service_holds I s' /\ typed_sets (sv_rebroadcasts s') /\ passed (sv_rebroadcasts s) (sv_rebroadcasts s') /\
  (r = Ok tt -> sv_file s' = sv_file s /\ restored <$> sv_rebroadcasts s' = restored <$> sv_rebroadcasts s \/
                (writes disk (sv_rebroadcasts s') -> sv_file s' = Some (pending_file (sv_rebroadcasts s')))).
Proof.
  intros Hs Ht. assert (passed (sv_rebroadcasts s) (sv_rebroadcasts s)) as Hself by (intros id set H _; exists set; by split; [|apply refreshed_refl]).
  unfold rebroadcastPending. rewrite gets_bind.
  match goal with |- context [(cm_Tip ≫= ?k) s] => destruct (after_leaves cm_Tip k s) as (s1 & r1 & _ & E1 & F1 & S1 & [(o & -> & Ho)|(tip & _ & ->)]);
    [apply leaves_query|rewrite E1; split_and!; [auto|done|done|by intros ->; edestruct Ho]|] end.
  set (l := range_map (map_to_list (sv_rebroadcasts s))). assert (l ≡ₚ map_to_list (sv_rebroadcasts s)) as Hl by apply range_perm.
  assert (passing (sv_rebroadcasts s) (sv_file s) l false s1) as Hp.
  { split; [auto|done|by rewrite E1| |by rewrite E1|by rewrite E1]. intros id set. rewrite Hl, E1. intros H. apply elem_of_map_to_list in H. done. }
  apply (sets_passing _ _ tip) in Hp; [|rewrite Hl; apply NoDup_fst_map_to_list]. unfold mbind at 1, M_bind at 1.
  destruct (rebroadcast_sets _ _ _ _ _ _ _ _) as [s2 r2]. destruct Hp as (l' & c & [P1 P2 P3 P4 P5 P6] & Hc).
  destruct r2 as [c2|e|m]; [|split_and!; done|split_and!; done]. specialize (Hc c2 eq_refl) as ->.
  destruct c; [|split_and!; [done..|]; intros _; left; auto].
  destruct (save_written disk s2) as (W1 & W2 & W3). unfold try, mbind, M_bind.
  destruct (savePendingBroadcastsLocked disk s2) as [s3 [[]|e|m]]; cbn [fst] in *; cbn; rewrite ?W1; (split_and!; [by apply W2|done|done|]);
    (intros _; right; exact W3) || done.
Qed.
End Pass.
End Relay.

(** C28: transactions kept for relaying are not lost.  Take a service whose store stays well-typed,
    with whatever else ([I]) the other goroutines maintain of it.  A pass of [rebroadcastPending], whatever
    the chain manager answers, other goroutines do to it, the file system reports and the order in
    which the map is visited, keeps every set younger than 48 hours under its key with the time of its
    first broadcast; the set holds the same transactions in the same order, with their identifiers
    and contents and refreshed proofs, less only transactions that a block of such a store holds, and
    unchanged when none would be left.  And the sets stay durable: if the file gave them back before,
    then after a pass that returns and whose write goes through it gives back exactly the sets after
    the pass, each with its transactions, basis and time, to a service that restarts before they expire. *)
Theorem pending_not_lost {crypto : Crypto} {sizes : CryptoSizes} {edwards : Edwards25519} {St : Type} {store : Store St} {order : GoOrder}
    {Horder : GoOrderSpec} (I : St -> Prop) (fuel : nat) (done : bool) (now : Time) (relay : option (option string)) (disk : Disk)
    (s s' : Service St) (r : outcome unit) :
  (forall st, I st -> typed_store st) -> service_holds I s -> typed_sets (sv_rebroadcasts s) ->
  rebroadcastPending fuel done now relay disk s = (s', r) ->
  passed I now (sv_rebroadcasts s) (sv_rebroadcasts s') /\ service_holds I s' /\ typed_sets (sv_rebroadcasts s') /\
  forall restart, durable restart s -> r = Ok tt -> writes disk (sv_rebroadcasts s') ->
    (forall id set, sv_rebroadcasts s' !! id = Some set -> kept restart id set) -> durable restart s'.
Proof.
  intros Hty Hs Ht E. pose proof (relay_pass I Hty fuel done now relay disk s Hs Ht) as H. rewrite E in H. destruct H as (H1 & H2 & H3 & H4).
  split_and!; [done|done|done|]. intros restart Hd Hr Hw Hk. unfold durable in *. destruct (H4 Hr) as [[-> ->]|Hf]; [done|].
  rewrite (Hf Hw). apply pending_restart; [done|apply Hw].
Qed.

(** ** A pass over a payment *)
#[local] Existing Instances Sample.crypto SampleChain.edwards stable_order SampleStore.sample_sizes SampleStore.memory_store.
Module SampleRelay.
(** The wallet has made a payment, which is pending. *)
Definition paid : Service SampleStore.t :=
  (submitReviewed SampleWallet.index SampleWallet.outside [] [] [] [] SampleWallet.payee (coins 1000) submitTransfer None SampleWallet.service).1.
Definition txn : V2Transaction := Eval vm_compute in
  match map_to_list (sv_rebroadcasts paid) with (_, {| pb_Transactions := [t] |}) :: _ => t | _ => ex_txn end.
Definition set : pendingBroadcast :=
  {| pb_Basis := s_Index SampleChain.tip; pb_BroadcastedAt := SampleChain.timestamp; pb_Transactions := [txn]; pb_confirmedAt := zeroIndex |}.
Definition sets : idmap pendingBroadcast := {[ V2Transaction_ID txn := set ]}.
Definition pass : Service SampleStore.t * outcome unit :=
  rebroadcastPending 1 false SampleChain.timestamp None (os_disk SampleWallet.outside) paid.
Lemma triple_inj {A B C} (a a' : A) (b b' : B) (c c' : C) : (a, b, c) = (a', b', c') -> a = a' /\ b = b' /\ c = c'.
Proof. by intros [= -> -> ->]. Qed.
Definition before_after := (sv_rebroadcasts paid, sv_rebroadcasts pass.1, pass.2).
Lemma pass_runs : before_after = (sets, sets, Ok tt).
Proof. vm_cast_no_check (eq_refl (sets, sets, Ok tt)). Qed.
Lemma pass_gives : sv_rebroadcasts paid = sets /\ sv_rebroadcasts pass.1 = sets /\ pass.2 = Ok tt.
Proof. pose proof pass_runs as E. unfold before_after in E. exact (triple_inj _ _ _ _ _ _ E). Qed.
Lemma sets_kept id st : sets !! id = Some st -> kept SampleChain.timestamp id st.
Proof.
  unfold sets. intros [<- <-]%lookup_singleton_Some. split; [done| |done|done]. constructor; [|constructor].
  split; [wf_ground|]. split; [apply Z.ltb_lt|apply Z.leb_le]; vm_cast_no_check (eq_refl true).
Qed.
Lemma start_typed : typed_store SampleStore.start.
Proof.
  intros id b bs cs. unfold blockAndParent. cbn [st_Block st_State SampleStore.memory_store SampleStore.blocks SampleStore.states SampleStore.start mbind outcome_bind].
  destruct (_ !! id) as [[b' bs']|] eqn:E; [|by destruct (_ !! _)]. apply lookup_singleton_Some in E as [_ [= <- <-]].
  change (b_ParentID SampleChain.genesis) with zeroHash. rewrite lookup_insert_eq.
  intros H. injection H as <- <- <-. split_and!; [| |apply SampleStore.before_good]; wf_ground.
Qed.
Definition stored_run := (loadPendingBroadcasts SampleChain.timestamp (sv_file paid), sv_others paid, m_store (sv_CM paid)).
Lemma paid_runs : stored_run = (Ok (restored <$> sets), [], SampleStore.start).
Proof. vm_cast_no_check (eq_refl (Ok (restored <$> sets), [] : list (Manager SampleStore.t -> Manager SampleStore.t), SampleStore.start)). Qed.
Lemma paid_holds : service_holds typed_store paid.
Proof.
  pose proof paid_runs as E. unfold stored_run in E. apply triple_inj in E as (_ & E1 & E2).
  split; [rewrite E2; exact start_typed|rewrite E1; constructor].
Qed.
Lemma paid_durable : durable SampleChain.timestamp paid.
Proof.
  unfold durable. rewrite (proj1 pass_gives). pose proof paid_runs as E. unfold stored_run in E. by apply triple_inj in E as (E & _ & _).
Qed.
Lemma sets_typed : typed_sets sets.
Proof. unfold sets. intros id st [_ <-]%lookup_singleton_Some. constructor; [|constructor]. apply wf_typed. wf_ground. Qed.
Lemma written : writes (os_disk SampleWallet.outside) sets.
Proof. split; [done|]. unfold sets. rewrite map_size_singleton. split; [|done]. apply Z.leb_le. vm_cast_no_check (eq_refl true). Qed.
End SampleRelay.

Lemma pending_not_lost_witness : passed typed_store SampleChain.timestamp SampleRelay.sets SampleRelay.sets /\
  durable SampleChain.timestamp SampleRelay.pass.1.
Proof.
  destruct SampleRelay.pass_gives as (E1 & E2 & E3).
  destruct (pending_not_lost typed_store 1 false SampleChain.timestamp None (os_disk SampleWallet.outside) SampleRelay.paid
    SampleRelay.pass.1 SampleRelay.pass.2) as (H1 & _ & _ & H2).
  - done.
  - exact SampleRelay.paid_holds.
  - rewrite E1. exact SampleRelay.sets_typed.
  - apply surjective_pairing.
  - rewrite E1, E2 in H1. split; [exact H1|]. apply H2.
    + exact SampleRelay.paid_durable.
    + exact E3.
    + rewrite E2. exact SampleRelay.written.
    + rewrite E2. exact SampleRelay.sets_kept.
Defined.
