(* ===== verification/QdayMiningSpec.v ===== *)
(** * Stratum jobs commit to valid blocks

    A bridge varies the rightmost transaction of a template and folds the Merkle branch into
    its leaf.  What it obtains is the commitment of a block that [ValidateBlock] accepts as
    soon as its header is solved, and submitting a block hands exactly that block to the
    manager. *)
From stdpp Require Import prelude strings gmap.
From Stdlib Require Import ZArith Lia.
From S2P Require Import Prelude TypesCurrency TypesData TypesEncoding TypesCodec TypesHash TypesMerkle TypesPolicy.
From S2P Require Import TypesQdayAddress TypesMultiproof TypesBlockCodecSpec.
From S2P Require Import ConsensusWork ConsensusState ConsensusMerkle ConsensusQday ConsensusQdaySpec ConsensusDifficulty.
From S2P Require Import ConsensusMidState ConsensusValidateV1 ConsensusValidate ConsensusEnvelopeSpec ConsensusValidateSpec.
From S2P Require Import ConsensusBlockSpec ConsensusPanicSpec ChainStore ChainPool ChainManager ChainManagerPool Gateway QdayMiner QdayMinerSpec QdayService QdayServiceSpec QdayMining.
From S2P Require Import SampleCrypto ChainQday SampleChain SampleStore.

(** Digests are strings of bytes. *)
Class CryptoBytes `{Crypto} : Prop := blake2b_bytes : forall b, bytes_ok (blake2b_Sum256 b).

(** ** Hexadecimal texts *)
Lemma hex_char_back n : 0 <= n < 16 -> from_hex_char (hex_char n) = Some n.
Proof.
  intros H. unfold hex_char, from_hex_char. destruct (Z.ltb_spec n 10).
  - rewrite (proj2 (Z.leb_le 48 _)), (proj2 (Z.leb_le (48 + n) 57)) by lia. cbn [andb]. f_equal. lia.
  - rewrite (proj2 (Z.leb_gt (87 + n) 57)), andb_false_r by lia.
    rewrite (proj2 (Z.leb_le 97 _)), (proj2 (Z.leb_le (87 + n) 102)) by lia. cbn [andb]. f_equal. lia.
Qed.
Lemma hex_roundtrip b : bytes_ok b -> hex_DecodeString (hex_EncodeToString b) = Some b.
Proof.
  induction 1 as [|x b Hx _ IH]; [done|]. cbn [hex_EncodeToString flat_map app hex_DecodeString].
  unfold byte_ok in Hx. change two8 with 256 in Hx.
  rewrite !hex_char_back by (split; [try apply Z.div_pos; try apply Z.mod_pos_bound|try apply Z.div_lt_upper_bound; try apply Z.mod_pos_bound]; lia).
  cbn [mbind option_bind]. change (flat_map _ b) with (hex_EncodeToString b). rewrite IH. cbn [mbind option_bind].
  by rewrite <- Z.div_mod by lia.
Qed.
Lemma hex_length b : zlen (hex_EncodeToString b) = 2 * zlen b.
Proof. unfold zlen. induction b as [|x b IH]; [done|]. change (hex_EncodeToString (x :: b)) with ([hex_char (x / 16); hex_char (x mod 16)] ++ hex_EncodeToString b).
  rewrite length_app. cbn [length]. lia.
Qed.

(** ** The Merkle branch *)
Section Branch.
Context {crypto : Crypto}.

(** The miner's side: the branch is folded into the leaf of the rightmost transaction. *)
Definition fold_branch (root : Hash256) (branch : list Hash256) : Hash256 :=
  foldl (fun root left => SumPair left root) root branch.

(** The trees of an accumulator from height [i], [k] of them. *)
Definition trees_from (acc : Accumulator.t) (i k : nat) : list Hash256 :=
  flat_map (fun h => if has_bit (Accumulator.NumLeaves acc) (Z.of_nat h) then [Accumulator.Trees acc !!! h] else []) (seq i k).

Lemma fold_trees acc l x : acc_inv acc l -> forall k i, (i + k = 64)%nat ->
  fold_branch (merkle_root (low_leaves l i ++ [x])) (trees_from acc i k) = merkle_root (low_leaves l 64 ++ [x]).
Proof.
  intros Hinv. induction k as [|k IH]; intros i Hik; [by replace i with 64%nat by lia|].
  unfold trees_from. cbn [seq flat_map]. change (flat_map _ (seq (S i) k)) with (trees_from acc (S i) k).
  change (has_bit _ (Z.of_nat i)) with (Accumulator.hasTreeAtHeight acc i). rewrite (acc_has _ _ i Hinv).
  pose proof (low_leaves_succ l i) as Hs. destruct (Nat.testbit (length l) i) eqn:Hb.
  - unfold fold_branch. cbn [app foldl]. rewrite (ai_tree _ _ Hinv i ltac:(lia) Hb), <- merkle_root_perfect by by apply length_segment.
    rewrite <- (merkle_root_split i); [|by apply length_segment|].
    + rewrite app_assoc, <- Hs. apply IH. lia.
    + rewrite length_app. unfold low_leaves. rewrite length_drop. cbn [length].
      pose proof (Nat.mod_upper_bound (length l) (2 ^ i) ltac:(pose proof (pow2_pos i); lia)).
      pose proof (Nat.Div0.mod_le (length l) (2 ^ i)). lia.
  - cbn [app]. rewrite <- Hs. apply IH. lia.
Qed.

(** Folding the trees left of a leaf gives the root of all leaves. *)
Lemma branch_root l x : zlen l + 1 < two64 ->
  fold_branch x (trees_from (Accumulator.of_leaves l) 0 64) = Accumulator.Root (Accumulator.of_leaves (l ++ [x])).
Proof.
  intros Hl. assert (Z.of_nat (length l) < two64) as Hl' by (unfold zlen in Hl; lia).
  pose proof (fold_trees _ l x (of_leaves_inv l Hl') 64 0 eq_refl) as E. unfold low_leaves in E.
  change (2 ^ 0)%nat with 1%nat in E. rewrite Nat.mod_1_r, Nat.sub_0_r, drop_all in E. cbn [app] in E.
  change (merkle_root [x]) with x in E. rewrite E, Nat.mod_small, Nat.sub_diag.
  - symmetry. assert (Z.of_nat (length (l ++ [x])) < two64) by (rewrite length_app; unfold zlen in Hl; cbn; lia).
    by apply Root_spec; [apply of_leaves_inv|].
  - apply Nat2Z.inj_lt. rewrite Nat2Z.inj_pow. exact Hl'.
Qed.

Context {Hbytes : CryptoBytes}.
Lemma perfect_bytes h : forall l, Forall bytes_ok l -> (2 ^ h <= length l)%nat -> bytes_ok (perfect h l).
Proof.
  destruct h as [|h]; intros l Hl Hlen.
  - destruct l as [|x l]; [cbn in Hlen; lia|]. by inv Hl.
  - apply blake2b_bytes.
Qed.
Lemma tree_bytes l i : Forall bytes_ok l -> zlen l < two64 -> (i < 64)%nat -> Nat.testbit (length l) i = true ->
  bytes_ok (Accumulator.Trees (Accumulator.of_leaves l) !!! i).
Proof.
  intros Hl Hlt Hi Hb. rewrite (ai_tree _ _ (of_leaves_inv l Hlt) i Hi Hb). apply perfect_bytes.
  - unfold segment. by apply Forall_take, Forall_drop.
  - by rewrite length_segment.
Qed.
Lemma branch_texts l : Forall bytes_ok l -> zlen l < two64 ->
  mapM hex_DecodeString (merkle_branch (Accumulator.of_leaves l)) = Some (trees_from (Accumulator.of_leaves l) 0 64).
Proof.
  intros Hl Hlt. pose proof (of_leaves_inv l Hlt) as Hinv. unfold merkle_branch. rewrite (ai_trees _ _ Hinv).
  unfold trees_from. apply mapM_Some. assert (Forall (fun i => (i < 64)%nat) (seq 0 64)) as Hr.
  { apply Forall_forall. intros i Hi%elem_of_seq. lia. }
  induction Hr as [|i hs Hi Hr IH]; [constructor|]. cbn [flat_map]. apply Forall2_app; [|exact IH].
  change (has_bit _ (Z.of_nat i)) with (Accumulator.hasTreeAtHeight (Accumulator.of_leaves l) i). rewrite (acc_has _ _ i Hinv).
  destruct (Nat.testbit (length l) i) eqn:Hb; [|constructor]. constructor; [|constructor]. by apply hex_roundtrip, tree_bytes.
Qed.
End Branch.

(** ** Stratum jobs *)

(** The rightmost transaction around its nonce. *)
Definition work_head : bytes := take 23 (V2Transaction_EncodeTo (workMarker 0)).
Lemma work_encoding w : V2Transaction_EncodeTo (workMarker w) = work_head ++ le_encode 8 w ++ [0; 0].
Proof. reflexivity. Qed.
Lemma work_wf w : wf_V2Transaction (workMarker w).
Proof. by split_and!; try constructor. Qed.
Lemma work_bytes w : bytes_ok (V2Transaction_EncodeTo (workMarker w)).
Proof.
  rewrite work_encoding. apply Forall_app. split; [|apply Forall_app; split; [apply bytes_ok_le_encode|]];
    apply (bool_decide_unpack _); vm_compute; exact I.
Qed.
Lemma split_work w : split_coinbase true (encodeMiningObject (V2Transaction_EncodeTo (workMarker w))) =
  Ok (hex_EncodeToString work_head, hex_EncodeToString [0; 0], 4, 4).
Proof.
  unfold split_coinbase, encodeMiningObject. cbn [negb]. rewrite hex_roundtrip by apply work_bytes. rewrite work_encoding.
  unfold zlen. rewrite !length_app, length_le_encode. cbn [length Nat.add].
  change (Z.of_nat (length work_head + (8 + 2)) =? 33) with true. cbv iota.
  rewrite take_app_length' by done. rewrite app_assoc, drop_app_length' by (rewrite length_app, length_le_encode; done). done.
Qed.

(** The block a bridge assembles from a template: the work transaction and the folded root in
    place of the last transaction and the commitment, its own time and nonce. *)
Definition stratum_block (b : Block) (work : V2Transaction) (root : Hash256) (t : Time) (nonce : Z) : Block :=
  {| b_ParentID := b_ParentID b; b_Nonce := nonce; b_Timestamp := t; b_MinerPayouts := b_MinerPayouts b;
     b_Transactions := b_Transactions b;
     b_V2 := (fun d => {| v2b_Height := v2b_Height d; v2b_Commitment := root;
                          v2b_Transactions := take (length (v2b_Transactions d) - 1) (v2b_Transactions d) ++ [work] |}) <$> b_V2 b |}.

Section Jobs.
Context {crypto : Crypto} {edwards : Edwards25519} {sizes : CryptoSizes} {Hbytes : CryptoBytes}.
Context (s : State) (p : QdayParams) (miner : QdayKeys) (target : BlockID).
Abbreviation address := (SpendPolicy_Address (QdayKeys_Policy miner)).

(** The candidate over the selected transactions [l]. *)
Definition candidate_over (acc : selection) (l : list V2Transaction) (timestamp : Time) (nonce : Z) : Block :=
  {| b_ParentID := ci_ID (s_Index s); b_Nonce := 0; b_Timestamp := truncateSecond timestamp;
     b_MinerPayouts := [{| sco_Value := sel_payout acc; sco_Address := address |}]; b_Transactions := [];
     b_V2 := Some {| v2b_Height := childHeight s;
                     v2b_Commitment := Commitment s address [] (coinbaseMarker miner nonce :: l ++ work_tail s nonce);
                     v2b_Transactions := coinbaseMarker miner nonce :: l ++ work_tail s nonce |} |}.

Lemma take_last {A} (x : A) l y : take (length (x :: l ++ [y]) - 1) (x :: l ++ [y]) = x :: l.
Proof.
  rewrite app_comm_cons, length_app. cbn [length]. rewrite Nat.add_sub. change (S (length l)) with (length (x :: l)). apply take_app_length.
Qed.
Lemma leaves_bytes txns : Forall bytes_ok (left_leaves s miner txns).
Proof. constructor; [apply blake2b_bytes|]. apply Forall_map, Forall_forall. intros x _. apply blake2b_bytes. Qed.

Lemma last_data txns : mtt_Data <$> last (map template_transaction txns) =
  (fun txn => encodeMiningObject (V2Transaction_EncodeTo txn)) <$> last txns.
Proof. rewrite fmap_last. by destruct (last txns). Qed.

(** The folded branch is the commitment with the last transaction replaced. *)
Lemma folded_commitment l x : zlen l < two63 ->
  fold_branch (leaf_hash (V2Transaction_EncodeTo x)) (trees_from (Accumulator.of_leaves (State_MerkleLeafHash s address :: map V2Transaction_MerkleLeafHash l)) 0 64) =
  Commitment s address [] (l ++ [x]).
Proof.
  intros Hl. unfold Commitment. cbn [map app]. rewrite map_app. cbn [map]. rewrite app_comm_cons, <- branch_root.
  - unfold V2Transaction_MerkleLeafHash at 2. unfold hashAll. cbn [concat map]. by rewrite app_nil_r.
  - unfold zlen in *. cbn [length]. rewrite length_map. change two64 with (2 * two63). change two63 with 9223372036854775808 in *. lia.
Qed.
Lemma commitment_length l x : zlen l < two63 -> length (Commitment s address [] (l ++ [x])) = 32%nat.
Proof.
  intros Hl. unfold Commitment. cbn [map app]. set (leaves := _ :: map _ _).
  assert (length leaves = S (S (length l))) as Hlen by (subst leaves; cbn [length]; rewrite length_map, length_app; cbn [length]; lia).
  assert (Z.of_nat (length leaves) < two64) by (rewrite Hlen; unfold zlen in Hl; lia).
  rewrite (Root_spec _ leaves), merkle_root_eq; [apply blake2b_len|lia|by apply of_leaves_inv|done].
Qed.

Context (Hs : qday_state s p) (Hr : Currency.ok (qd_Reward p)) (Hparent : length (ci_ID (s_Index s)) = 32%nat).
Context (Hv1 : QdayV1Active s (childHeight s) = true) (Htarget : PoWTarget s = Ok target).

Lemma candidate_template acc l timestamp nonce longPoll enc :
  is_u64 nonce -> selected s (coinbaseMarker miner nonce) (reward_val s) acc l -> zlen l < two63 - 1 ->
  V2Block_EncodeTo (candidate_over acc l timestamp nonce) = Ok enc ->
  exists r, mining_template s miner (candidate_over acc l timestamp nonce) (Ok longPoll) = Ok r /\
    mst_Coinbase1 (mtr_Stratum r) = hex_EncodeToString work_head /\ mst_Coinbase2 (mtr_Stratum r) = hex_EncodeToString [0; 0] /\
    mst_MerkleBranch (mtr_Stratum r) =
      merkle_branch (Accumulator.of_leaves (left_leaves s miner (coinbaseMarker miner nonce :: l ++ [workMarker nonce]))).
Proof.
  intros Hn Hsel Hl He. unfold mining_template. rewrite He. cbn [candidate_over b_V2 b_MinerPayouts v2b_Transactions].
  unfold work_tail. change (u64 (ci_Height (s_Index s) + 1)) with (childHeight s). rewrite Hv1.
  set (txns := coinbaseMarker miner nonce :: l ++ [workMarker nonce]).
  assert (last txns = Some (workMarker nonce)) as Hlast by (subst txns; rewrite app_comm_cons; apply last_snoc).
  assert ((zlen txns =? 0) = false) as -> by (apply Z.eqb_neq; unfold zlen; cbn; lia). cbn [fail_if mbind outcome_bind].
  assert (check_marker true txns = Ok (marker_envelope QdayMiningWork nonce [])) as ->.
  { unfold check_marker. rewrite last_lookup in Hlast. rewrite Nat.sub_1_r, Hlast. cbn [v2tx_ArbitraryData workMarker set_ArbitraryData].
    change (QdayEnvelope_Encode _) with (QdayEnvelope_Encode (marker_envelope QdayMiningWork nonce [])).
    by rewrite Parse_Encode by (apply marker_envelope_ok; [by unfold QdayMiningWork|done|by constructor|done]). }
  cbn [mbind outcome_bind]. rewrite hex_length.
  assert (zlen (BlockHeader_EncodeTo (Block_Header (candidate_over acc l timestamp nonce))) = 80) as ->.
  { unfold BlockHeader_EncodeTo, Array_EncodeTo, zlen. rewrite !length_app. cbn [Block_Header candidate_over bh_ParentID bh_Commitment b_V2 b_ParentID v2b_Commitment].
    rewrite Hparent. unfold WriteUint64, WriteTime. rewrite !length_le_encode.
    unfold work_tail. rewrite Hv1, app_comm_cons, commitment_length; [done|]. unfold zlen in *. cbn [length]. lia. }
  cbn [Z.mul Z.eqb Pos.eqb Pos.mul negb fail_if mbind outcome_bind].
  rewrite (last_data txns), Hlast. change (default [] (_ <$> Some (workMarker nonce))) with (encodeMiningObject (V2Transaction_EncodeTo (workMarker nonce))).
  rewrite split_work. cbn [mbind outcome_bind]. rewrite Htarget. cbn [mbind outcome_bind].
  destruct (BlockReward_qday s p (qs_net _ _ Hs) Hr) as (c & -> & Hc & Hcv). cbn [mbind outcome_bind sco_Value].
  destruct Hsel as [_ _ _ _ _ _ _ Hp Hfe Hsane]. pose proof (Currency.ok_val _ Hc).
  assert (0 <= sum_Z (map (fun txn => Currency.val (v2tx_MinerFee txn)) l)).
  { apply sum_Z_nonneg. intros x Hx. rewrite Forall_forall in Hsane. apply Currency.ok_val, (Hsane x Hx). }
  rewrite Hp, (Currency.Sub_ok _ c) by (try apply Currency.of_Z_ok; try done; rewrite Currency.val_of_Z by lia; lia).
  cbn [mbind outcome_bind]. eexists. split; [reflexivity|]. done.
Qed.
End Jobs.

(** C26: solved Stratum jobs are valid blocks.  Once the version 1 rules are active, every
    candidate over well-typed transactions that can be encoded gives a template, and for every
    choice of the eight bytes of extra nonce the text around them is the encoding of a
    transaction whose leaf, folded with the template's Merkle branch, is the commitment of the
    block with that transaction in place of the last: [ValidateBlock] accepts this block with
    any nonce and any time not before the median timestamp that solve its header. *)
Theorem stratum_job_valid {crypto : Crypto} {edwards : Edwards25519} {sizes : CryptoSizes} {Hbytes : CryptoBytes}
    (s : State) (p : QdayParams) (miner : QdayKeys) (txns : list V2Transaction) (timestamp median : Time) (nonce : Z)
    (target : BlockID) (longPoll : bytes) :
  qday_state s p -> Currency.ok (qd_Reward p) -> 0 < childHeight s -> key_ok miner -> is_u64 nonce ->
  length (ci_ID (s_Index s)) = 32%nat -> QdayV1Active s (childHeight s) = true -> PoWTarget s = Ok target ->
  0 < NonceFactor s -> medianTimestamp s = Ok median -> zlen txns < two63 - 1 ->
  Forall sane txns -> reward_val s + sum_Z (map (fun txn => Currency.val (v2tx_MinerFee txn)) txns) < two128 ->
  exists b, CandidateWithNonce s miner txns timestamp nonce = Ok b /\
    forall enc, V2Block_EncodeTo b = Ok enc ->
    exists r coinbase1 coinbase2 branch, mining_template s miner b (Ok longPoll) = Ok r /\
      hex_DecodeString (mst_Coinbase1 (mtr_Stratum r)) = Some coinbase1 /\
      hex_DecodeString (mst_Coinbase2 (mtr_Stratum r)) = Some coinbase2 /\
      mapM hex_DecodeString (mst_MerkleBranch (mtr_Stratum r)) = Some branch /\
      forall extra, length extra = 8%nat -> bytes_ok extra ->
      exists work rest, V2Transaction_DecodeFrom (NewBufDecoder (coinbase1 ++ extra ++ coinbase2)) = Ok (work, rest) /\
        forall t n, median <= t ->
          let b' := stratum_block b work (fold_branch (leaf_hash (coinbase1 ++ extra ++ coinbase2)) branch) t n in
          solves (Block_Header b') target (NonceFactor s) n -> ValidateBlock s b' emptySupplement = Ok tt.
Proof.
  intros Hs Hr Hh Hk Hn Hparent Hv1 Ht Hf Hm Hlen Hsane Hfit.
  destruct (candidate_built s p miner Hs Hr Hk txns timestamp median nonce Hm Hsane Hfit) as (acc & l & Hsel & Hl & ->).
  assert (zlen l < two63 - 1) as Hl' by (unfold zlen in *; lia).
  eexists. split; [reflexivity|]. intros enc He. fold (candidate_over s miner acc l timestamp nonce) in He |- *.
  destruct (candidate_template s p miner target Hs Hr Hparent Hv1 Ht acc l timestamp nonce longPoll enc Hn Hsel Hl' He)
    as (r & Er & E1 & E2 & E3).
  assert (zlen (left_leaves s miner (coinbaseMarker miner nonce :: l ++ [workMarker nonce])) < two64) as Hleaves.
  { unfold left_leaves. rewrite take_last. unfold zlen in *. cbn [length]. rewrite length_map. cbn [length]. lia. }
  pose proof (branch_texts _ (leaves_bytes s miner _) Hleaves) as Hbr.
  exists r, work_head, [0; 0], (trees_from (Accumulator.of_leaves (left_leaves s miner (coinbaseMarker miner nonce :: l ++ [workMarker nonce]))) 0 64).
  rewrite E1, E2, E3. split_and!; [exact Er|apply hex_roundtrip; apply (bool_decide_unpack _); vm_compute; exact I|done|exact Hbr|].
  intros extra Hx1 Hx2. set (w := le_decode extra).
  assert (extra = le_encode 8 w) as Ex by (subst w; rewrite <- Hx1; symmetry; by apply le_encode_decode).
  assert (is_u64 w) as Hw by (pose proof (le_decode_range extra Hx2) as R; unfold zlen in R; rewrite Hx1 in R; exact R).
  rewrite Ex, <- work_encoding. clearbody w. clear Ex.
  eexists _, _. split.
  { apply (codec_buf wf_V2Transaction V2Transaction_EncodeTo V2Transaction_DecodeFrom); [apply work_wf|].
    rewrite work_encoding. unfold zlen. rewrite !length_app, length_le_encode. done. }
  intros t n Htime b' Hsol. pose proof (eq_refl b') as Eb. unfold b' at 2, left_leaves in Eb. rewrite take_last in Eb.
  rewrite (folded_commitment s miner (coinbaseMarker miner nonce :: l) (workMarker w)) in Eb by (unfold zlen in *; cbn [length]; lia).
  unfold stratum_block, candidate_over in Eb. cbn [b_ParentID b_MinerPayouts b_Transactions b_V2 fmap option_fmap option_map v2b_Height v2b_Transactions] in Eb.
  unfold work_tail in Eb. rewrite Hv1, take_last in Eb.
  eapply (assembled_valid s p miner Hs Hr Hh Hk nonce w acc l b'); try done; try (by rewrite Eb).
  - rewrite Eb. cbn [b_V2]. unfold work_tail. by rewrite Hv1.
  - replace b' with (block_nonce b' n) by by rewrite Eb. apply (solved_header s b' n median target); try done; by rewrite Eb.
Qed.

(** ** Submitted blocks *)
Lemma from_hex_lower c : from_hex_char (lower c) = from_hex_char c.
Proof.
  unfold lower. destruct ((65 <=? c) && (c <=? 90)) eqn:E; [|done]. unfold from_hex_char.
  apply andb_prop in E as [E1%Z.leb_le E2%Z.leb_le].
  rewrite (proj2 (Z.leb_gt (c + 32) 57)), (proj2 (Z.leb_gt c 57)), !andb_false_r by lia.
  rewrite (proj2 (Z.leb_le 97 (c + 32))), (proj2 (Z.leb_gt 97 c)), (proj2 (Z.leb_le 65 c)) by lia. cbn [andb].
  destruct (Z.leb_spec (c + 32) 102), (Z.leb_spec c 70); try lia; [f_equal; lia|].
  by rewrite (proj2 (Z.leb_gt (c + 32) 70)), andb_false_r by lia.
Qed.
Lemma hex_decode_lower s : hex_DecodeString (map lower s) = hex_DecodeString s.
Proof.
  induction s as [s IH] using (induction_ltof1 _ (@length Z)). unfold ltof in IH. destruct s as [|a [|b s]]; [done|done|].
  cbn [map hex_DecodeString]. rewrite !from_hex_lower, IH by (cbn; lia). done.
Qed.

Section Submit.
Context {crypto : Crypto} {edwards : Edwards25519} {St : Type} {store : Store St}.

(** The text of a block: hexadecimal digits of either case. *)
Definition block_text (b : Block) (text : bytes) : Prop :=
  exists enc, V2Block_EncodeTo b = Ok enc /\ map lower text = hex_EncodeToString enc.

Lemma decode_submitted_inv text b : decode_submitted text = Ok b -> block_text b text /\ is_Some (b_V2 b).
Proof.
  unfold decode_submitted. intros H. ok_step H. clear E. destruct (hex_DecodeString text) as [raw|]; [|done].
  ok_step H. destruct v0 as [b' d]. ok_step H. ok_step H. ok_step H. injection H as ->.
  apply fail_if_ok in E1, E2. apply negb_false_iff in E1, E2. apply bool_decide_eq_true in E1.
  split; [|by destruct (b_V2 b)]. exists v0. by split.
Qed.

Lemma decode_submitted_ok L b enc text : wf_V2Block b -> block_proofs_valid L b -> is_Some (b_V2 b) ->
  V2Block_EncodeTo b = Ok enc -> bytes_ok enc -> 2 * zlen enc <= Z.shiftl 16 20 -> map lower text = hex_EncodeToString enc ->
  decode_submitted text = Ok b.
Proof.
  intros Hwf Hv [v2 Hv2] He Hb Hsize Htext. unfold decode_submitted.
  assert (zlen text = 2 * zlen enc) as Hlen by (rewrite <- hex_length, <- Htext; unfold zlen; by rewrite length_map).
  destruct (V2Block_rt L b Hwf Hv) as (enc' & He' & Hrt). rewrite He in He'. injection He' as <-.
  assert (0 < zlen enc) as Hpos.
  { revert He. unfold V2Block_EncodeTo. rewrite Hv2. intros H. ok_step H. ok_step E. injection E as <-. injection H as <-.
    rewrite !zlen_app. pose proof (zlen_nonneg (V1Block_EncodeTo b)). unfold zlen in *. cbn [length app WriteBool]. lia. }
  rewrite (proj2 (Z.eqb_neq (zlen text) 0)), (proj2 (Z.ltb_ge (Z.shiftl 16 20) (zlen text))) by lia. cbn [orb fail_if mbind outcome_bind].
  rewrite <- hex_decode_lower, Htext, hex_roundtrip by done. unfold NewBufDecoder.
  specialize (Hrt [] (zlen enc)). rewrite app_nil_r in Hrt. change (Z.shiftl 16 20) with 16777216 in Hsize.
  rewrite Hrt by lia. cbn [wrap_err mbind outcome_bind]. rewrite He. cbn [mbind outcome_bind].
  rewrite bool_decide_eq_true_2 by done. cbn [negb fail_if mbind outcome_bind]. by rewrite Hv2.
Qed.

(** The service at its next call of the manager: other goroutines had their turn. *)
Definition at_call (s : Service St) : Service St :=
  match sv_others s with [] => s | g :: others => with_CM s (g (sv_CM s)) others end.
Lemma call_at {A} (f : Manager St -> outcome (Manager St * A)) s :
  call f s = match f (sv_CM (at_call s)) with
             | Ok (m, a) => (with_CM (at_call s) m (sv_others (at_call s)), Ok a)
             | Err e => (with_CM (at_call s) (sv_CM (at_call s)) (sv_others (at_call s)), Err e)
             | Panic p => (with_CM (at_call s) (sv_CM (at_call s)) (sv_others (at_call s)), Panic p)
             end.
Proof. unfold call, at_call. destruct s as [cm [|g others] k pu le lr rb wk fl pp pf mt]; cbn; by destruct (f _) as [[m a]| |]. Qed.

Lemma at_call_errors s e e' : at_call (with_errors s e e') = with_errors (at_call s) e e'.
Proof. unfold at_call. by destruct s as [cm [|g others] k pu le lr rb wk fl pp pf mt]. Qed.

(** What follows once the manager has the block. *)
Definition submit_rest (syncer : option Broadcasts) (b : Block) : M (St := St) BlockID :=
  _ ← match syncer with
      | None => mret tt
      | Some syncer =>
          _ ← setRelayError (br_V2Header syncer (Block_Header b));
          txns ← cm_PoolTransactions; v2txns ← cm_V2PoolTransactions; outline ← lift (OutlineBlock b txns v2txns);
          setRelayError (br_V2BlockOutline syncer outline)
      end;
  mret (Block_ID b).
Lemma submit_relays syncer b s m1 txns m2 v2txns outline : PoolTransactions (sv_CM (at_call s)) = Ok (m1, txns) ->
  let s2 := with_CM (at_call s) m1 (sv_others (at_call s)) in
  V2PoolTransactions (sv_CM (at_call s2)) = Ok (m2, v2txns) -> OutlineBlock b txns v2txns = Ok outline ->
  submit_rest (Some syncer) b s =
  (with_errors (with_CM (at_call s2) m2 (sv_others (at_call s2))) (sv_lastError s) (default EmptyString (br_V2BlockOutline syncer outline)), Ok (Block_ID b)).
Proof.
  intros Hp s2 Hv Ho. unfold submit_rest. set (r := sv_lastError s). set (h := default EmptyString (br_V2Header syncer (Block_Header b))).
  assert (call PoolTransactions (with_errors s r h) = (with_errors s2 r h, Ok txns)) as E1.
  { rewrite call_at, at_call_errors. change (sv_CM (with_errors (at_call s) r h)) with (sv_CM (at_call s)). by rewrite Hp. }
  assert (call V2PoolTransactions (with_errors s2 r h) = (with_errors (with_CM (at_call s2) m2 (sv_others (at_call s2))) r h, Ok v2txns)) as E2.
  { rewrite call_at, at_call_errors. change (sv_CM (with_errors (at_call s2) r h)) with (sv_CM (at_call s2)). by rewrite Hv. }
  rewrite (bind_ok _ _ s (with_errors (with_CM (at_call s2) m2 (sv_others (at_call s2))) r (default EmptyString (br_V2BlockOutline syncer outline))) tt); [done|].
  rewrite (bind_ok _ _ s (with_errors s r h) tt) by done. rewrite (bind_ok cm_PoolTransactions _ _ _ _ E1).
  rewrite (bind_ok cm_V2PoolTransactions _ _ _ _ E2). erewrite bind_ok by (unfold lift; by rewrite Ho). done.
Qed.

End Submit.

Section Witness.
Import SampleChain.
#[local] Existing Instances Sample.crypto SampleChain.edwards.

#[local] Existing Instances SampleStore.sample_sizes SampleStore.memory_store.
#[local] Instance sample_bytes : @CryptoBytes Sample.crypto.
Proof.
  intros b. unfold blake2b_Sum256, Sample.crypto, Sample.sum256. repeat case_decide;
    [apply (bool_decide_unpack _); vm_compute; exact I..|apply bytes_ok_le_encode].
Qed.

(** The sample chain at the last height before the version 1 rules. *)
Definition late : State :=
  set_pow tip {| ci_Height := QdayV1ActivationHeight - 1; ci_ID := ci_ID (s_Index tip) |} (replicate 11 timestamp)
    (s_Depth tip) (s_ChildTarget tip) (s_OakTime tip) (s_OakTarget tip) (s_TotalWork tip) (s_Difficulty tip) (s_OakWork tip).
Definition late_target : BlockID := Eval vm_compute in match PoWTarget late with Ok t => t | _ => [] end.

Lemma stratum_job_valid_witness :
  exists b, CandidateWithNonce late (qp_Public keys) [] (time_Add timestamp (2 * Second)) 7 = Ok b /\
    exists r coinbase1 coinbase2 branch, mining_template late (qp_Public keys) b (Ok (zeros 16)) = Ok r /\
      hex_DecodeString (mst_Coinbase1 (mtr_Stratum r)) = Some coinbase1 /\
      hex_DecodeString (mst_Coinbase2 (mtr_Stratum r)) = Some coinbase2 /\
      mapM hex_DecodeString (mst_MerkleBranch (mtr_Stratum r)) = Some branch /\
      exists work rest, V2Transaction_DecodeFrom (NewBufDecoder (coinbase1 ++ [1; 2; 3; 4; 5; 6; 7; 8] ++ coinbase2)) = Ok (work, rest) /\
        forall t n, timestamp <= t ->
          let b' := stratum_block b work (fold_branch (leaf_hash (coinbase1 ++ [1; 2; 3; 4; 5; 6; 7; 8] ++ coinbase2)) branch) t n in
          solves (Block_Header b') late_target (NonceFactor late) n -> ValidateBlock late b' emptySupplement = Ok tt.
Proof.
  destruct (stratum_job_valid (crypto := Sample.crypto) late params (qp_Public keys) [] (time_Add timestamp (2 * Second)) timestamp 7 late_target (zeros 16))
    as (b & Eb & H).
  - split; [reflexivity|apply launchParams_schedule|by vm_compute].
  - apply currency_okb_ok. vm_compute. reflexivity.
  - vm_compute. reflexivity.
  - exact keys_ok.
  - by split.
  - vm_compute. reflexivity.
  - vm_compute. reflexivity.
  - vm_compute. reflexivity.
  - vm_compute. reflexivity.
  - vm_compute. reflexivity.
  - vm_compute. reflexivity.
  - constructor.
  - vm_compute. reflexivity.
  - exists b. split; [exact Eb|].
    assert (exists enc, V2Block_EncodeTo b = Ok enc) as [enc He].
    { assert (match CandidateWithNonce late (qp_Public keys) [] (time_Add timestamp (2 * Second)) 7 with
              | Ok b => match V2Block_EncodeTo b with Ok _ => true | _ => false end | _ => false end = true) as E
        by (vm_compute; reflexivity).
      rewrite Eb in E. destruct (V2Block_EncodeTo b) as [enc| |]; [by exists enc|done..]. }
    destruct (H enc He) as (r & c1 & c2 & branch & Er & E1 & E2 & E3 & Hx). exists r, c1, c2, branch.
    split; [exact Er|]. split; [exact E1|]. split; [exact E2|]. split; [exact E3|].
    apply (Hx [1; 2; 3; 4; 5; 6; 7; 8]); [reflexivity|]. apply (bool_decide_unpack _). vm_compute. exact I.
Defined.

Definition idle : Service SampleStore.t := mkService _ SampleStore.mgr [] None owner "" "" ∅ false None ∅ None None.
(** The block is adopted, and the pool can be listed afterwards. *)
Definition adopted_and_listed : bool :=
  match AddBlocks SampleStore.now SampleStore.mgr [block1] with
  | Ok (m, None) => (ci_Height (Tip m) =? 1) &&
      match PoolTransactions m with Ok (m1, _) => match V2PoolTransactions m1 with Ok _ => true | _ => false end | _ => false end
  | _ => false
  end.
Lemma adopted_and_listed_ok : adopted_and_listed = true.
Proof. vm_cast_no_check (eq_refl true). Qed.
End Witness.
