(* ===== verification/QdayPayoutSpec.v ===== *)
(** * A payout is made once

    Whatever happens between two requests with the same identifier, failures of the disk and
    restarts included, both are answered with the same transaction. *)
From stdpp Require Import prelude strings gmap.
From Stdlib Require Import ZArith Lia.
From S2P Require Import Prelude TypesCurrency TypesData TypesEncoding TypesCodec TypesHash TypesPolicy TypesQdayAddress TypesCurrencyText.
From S2P Require Import ConsensusWork ConsensusState ConsensusMerkle ConsensusQday ConsensusMidState ConsensusApply ConsensusValidateV1 ConsensusValidate ConsensusCodec ConsensusProofSpec.
From S2P Require Import TypesMultiproof TypesMultiproofSpec TypesBlockCodecSpec ChainStore ChainPool ChainManager ChainManagerPool ChainUpdateSpec.
From S2P Require Import SampleCrypto SampleChain SampleStore QdayMiner QdayService QdayMining ConsensusValidateSpec QdaySignSpec QdayPaymentSpec QdayServiceSpec QdayRelaySpec QdayMiningSpec ConsensusEnvelopeSpec QdayPayout.

(** ** Methods that do not touch the payouts *)
Section Apart.
Context {crypto : Crypto} {edwards : Edwards25519} {St : Type} {store : Store St} {order : GoOrder}.
Abbreviation M := (M (St := St)).

Definition keys_typed (k : QdayPrivateKeys) : Prop := wf_array 32 (qk_Classical (qp_Public k)) /\ wf_array 32 (qk_Reserve (qp_Public k)).

(** What the service works with is well-typed, whatever the other goroutines do. *)
Record typed_service (s : Service St) : Prop := {
  ts_store : typed_store (m_store (sv_CM s));
  ts_others : Forall (fun g : Manager St -> Manager St => forall m, typed_store (m_store m) -> typed_store (m_store (g m))) (sv_others s);
  ts_keys : forall k, sv_keys s = Some k -> keys_typed k }.

Definition apart {A} (f : M A) : Prop := forall s, let s' := (f s).1 in
  sv_poolPayouts s' = sv_poolPayouts s /\ sv_payoutFile s' = sv_payoutFile s /\ (typed_service s -> typed_service s').

Lemma apart_ret {A} (a : A) : apart (mret a).
Proof. done. Qed.
Lemma apart_lift {A} (o : outcome A) : apart (lift o).
Proof. done. Qed.
Lemma apart_gets {A} (f : Service St -> A) : apart (gets f).
Proof. done. Qed.
Lemma apart_bind {A B} (f : M A) (k : A -> M B) : apart f -> (forall a, apart (k a)) -> apart (f ≫= k).
Proof.
  intros Hf Hk s. cbv zeta. unfold mbind, M_bind. destruct (Hf s) as (H1 & H2 & H3). destruct (f s) as [s1 [a|e|m]]; cbn [fst] in *; [|done|done].
  destruct (Hk a s1) as (G1 & G2 & G3). split_and!; [congruence|congruence|auto].
Qed.
Lemma apart_try {A} (f : M A) : apart f -> apart (try f).
Proof. intros Hf s. specialize (Hf s). unfold try. by destruct (f s) as [s1 [a|e|m]]. Qed.
Lemma apart_if {A} (c : bool) (f g : M A) : apart f -> apart g -> apart (if c then f else g).
Proof. by destruct c. Qed.
Lemma apart_modify f : (forall s, sv_poolPayouts (f s) = sv_poolPayouts s /\ sv_payoutFile (f s) = sv_payoutFile s /\
  sv_CM (f s) = sv_CM s /\ sv_others (f s) = sv_others s /\ sv_keys (f s) = sv_keys s) -> apart (modify f).
Proof.
  intros H s. destruct (H s) as (H1 & H2 & H3 & H4 & H5). split_and!; [done|done|]. intros [T1 T2 T3]. cbn [modify fst].
  split; [by rewrite H3|by rewrite H4|by rewrite H5].
Qed.
Lemma apart_call {A} (f : Manager St -> outcome (Manager St * A)) :
  (forall m m' a, f m = Ok (m', a) -> m_store m' = m_store m) -> apart (call f).
Proof.
  intros Hf s. unfold call. destruct (match sv_others s with [] => _ | _ => _ end) as [m others] eqn:E.
  assert (typed_service s -> typed_store (m_store m) /\ Forall (fun g : Manager St -> Manager St => forall m, typed_store (m_store m) -> typed_store (m_store (g m))) others) as Hs.
  { intros [H1 H2 _]. destruct (sv_others s) as [|g l]; injection E as <- <-; [done|]. apply Forall_cons in H2 as [H2 H3]. split; [by apply H2|done]. }
  destruct (f m) as [[m' a]|e|p] eqn:Ef; (split; [done|split; [done|]]; intros Ht; destruct (Hs Ht) as [H1 H2]; split; cbn; [|done|apply Ht]); [|done|done].
  by rewrite (Hf _ _ _ Ef).
Qed.
Lemma apart_query {A} (f : Manager St -> outcome A) : apart (query f).
Proof. apply apart_call. intros m m' a H. ok_step H. by injection H as <- _. Qed.
End Apart.
Create HintDb apart.
#[export] Hint Resolve apart_ret apart_lift apart_gets apart_try apart_if apart_query : apart.
#[export] Hint Extern 1 (apart (cm_BestIndex _)) => apply apart_query : apart.
#[export] Hint Extern 1 (apart cm_Tip) => apply apart_query : apart.
#[export] Hint Extern 1 (apart cm_TipState) => apply apart_query : apart.
#[export] Hint Extern 1 (apart (cm_Block _)) => apply apart_query : apart.
#[export] Hint Extern 1 (apart (cm_UpdateV2TransactionSet _ _ _)) => apply apart_query : apart.
#[export] Hint Extern 1 (apart (modify _)) => apply apart_modify; done : apart.
#[export] Hint Extern 2 (apart (_ ≫= _)) => apply apart_bind; [|intros] : apart.
#[export] Hint Extern 2 (apart (match ?x with _ => _ end)) => destruct x : apart.

Section Methods.
Context {crypto : Crypto} {edwards : Edwards25519} {St : Type} {store : Store St} {order : GoOrder}.
Abbreviation apart := (apart (St := St)).

Lemma step_back_apart n to : forall next, apart (step_back n to next).
Proof. induction n as [|n IH]; intros next; cbn [step_back]; auto 10 with apart. Qed.
#[local] Hint Resolve step_back_apart : apart.
Lemma next_basis_apart from to : apart (next_basis from to).
Proof. unfold next_basis. cbv zeta. auto 10 with apart. Qed.
#[local] Hint Resolve next_basis_apart : apart.
Lemma update_apart fuel done to : forall txns from, apart (updatePendingProofs fuel done txns from to).
Proof. induction fuel as [|fuel IH]; intros txns from; cbn [updatePendingProofs]; auto 12 with apart. Qed.
Lemma add_apart basis txns : apart (cm_AddV2PoolTransactions basis txns).
Proof. unfold cm_AddV2PoolTransactions. apply apart_bind; [|auto with apart]. apply apart_call. intros m m' a. apply add_pool_store. Qed.
Lemma pool_apart : apart cm_V2PoolTransactions.
Proof. apply apart_call. intros m m' a. apply v2_pool_store. Qed.
Lemma save_pending_apart disk : apart (savePendingBroadcastsLocked disk).
Proof.
  unfold savePendingBroadcastsLocked. apply apart_bind; [auto with apart|]. intros r. cbv zeta. apply apart_if; [auto with apart|].
  apply apart_bind; [|auto with apart]. apply apart_modify. intros s. by destruct (dk_replaced disk).
Qed.
#[local] Hint Resolve save_pending_apart pool_apart : apart.
Lemma remember_apart disk now basis txns : apart (rememberBroadcast disk now basis txns).
Proof. unfold rememberBroadcast. cbv zeta. auto 12 with apart. Qed.
Lemma outputs_apart index fuel cs pub : apart (outputs index fuel cs pub).
Proof. unfold outputs, outputsAtPool. auto 12 with apart. Qed.
Lemma still_confirmed_apart record : apart (still_confirmed record).
Proof. unfold still_confirmed. auto 12 with apart. Qed.
End Methods.
#[export] Hint Resolve step_back_apart next_basis_apart update_apart add_apart pool_apart save_pending_apart remember_apart
  outputs_apart still_confirmed_apart : apart.

(** ** The transaction of a payout is well-typed *)
Section Typing.
Context {crypto : Crypto} {sizes : CryptoSizes} {edwards : Edwards25519} {St : Type} {store : Store St} {order : GoOrder} {Horder : GoOrderSpec}.
Abbreviation typed_txn := (typed wf_V2Transaction).

Record utxo_typed (o : UnspentSiacoinElement) : Prop := {
  ut_element : element_ok (sce_StateElement (use_SiacoinElement o)); ut_id : wf_array 32 (sce_ID (use_SiacoinElement o));
  ut_output : wf_SiacoinOutput (sce_SiacoinOutput (use_SiacoinElement o)); ut_height : is_u64 (sce_MaturityHeight (use_SiacoinElement o)) }.
Definition typed_index (index : Address -> Z -> Z -> outcome (list UnspentSiacoinElement * ChainIndex)) : Prop :=
  forall a offset limit page basis, index a offset limit = Ok (page, basis) -> Forall utxo_typed page.

Lemma pages_typed index cs pub spent : typed_index index -> forall fuel offset acc r, Forall utxo_typed acc ->
  output_pages index fuel cs pub spent offset acc = Ok r -> Forall utxo_typed r.
Proof.
  intros Hi. induction fuel as [|fuel IH]; intros offset acc r Ha H; cbn [output_pages] in H; [done|]. ok_step H. destruct v as [page basis].
  ok_step H. assert (Forall utxo_typed (acc ++ filter (fun e => sce_ID (use_SiacoinElement e) ∉ spent) page)) as Hr.
  { apply Forall_app. split; [done|]. apply Forall_forall. intros e [_ He]%list_elem_of_filter.
    exact (proj1 (Forall_forall _ _) (Hi _ _ _ _ _ E) e He). }
  cbv zeta in H. destruct (_ <? _); [by injection H as <-|by eapply IH].
Qed.
Lemma outputs_typed index fuel cs pub (s s' : Service St) outs : typed_index index -> outputs index fuel cs pub s = (s', Ok outs) -> Forall utxo_typed outs.
Proof.
  intros Hi H. unfold outputs, outputsAtPool in H. apply M_bind_ok in H as (s1 & pool & _ & H). apply M_bind_ok in H as (s2 & r & H1 & H).
  apply M_bind_ok in H as (s3 & tip & _ & H). destruct (bool_decide _); [|done]. injection H as _ <-. injection H1 as _ H1.
  by eapply pages_typed; [| |exact H1].
Qed.
Lemma keyed_typed cs mode outs keyed : Forall utxo_typed outs -> sort_keys cs mode outs = Ok keyed -> Forall (fun p => utxo_typed p.2) keyed.
Proof.
  intros Ho H. unfold sort_keys in H. destruct (_ || _).
  - injection H as <-. apply Forall_map. exact Ho.
  - apply (for_each_ok_inv (fun _ acc => Forall (fun p => utxo_typed p.2) acc)) in H; [exact H|constructor|].
    intros j o acc acc' Hj Ha Hb. ok_step Hb. injection Hb as <-. apply Forall_app. split; [done|]. constructor; [|constructor].
    by eapply Forall_lookup_1 in Hj; [|exact Ho].
Qed.

Definition input_typed (policy : SpendPolicy) (i : V2SiacoinInput) : Prop :=
  exists o, utxo_typed o /\ i = {| v2sci_Parent := use_SiacoinElement o;
    v2sci_SatisfiedPolicy := {| sat_Policy := policy; sat_Signatures := []; sat_Preimages := [] |} |}.
Lemma fund_typed cs mode policy required outs : Forall utxo_typed outs -> forall total inputs total' inputs', Forall (input_typed policy) inputs ->
  fund cs mode policy required outs total inputs = Ok (total', inputs') -> Forall (input_typed policy) inputs'.
Proof.
  induction 1 as [|o outs Ho Hs IH]; intros total inputs total' inputs' Hi H; cbn [fund] in H; [by injection H as _ <-|].
  ok_step H. destruct (Currency.IsZero v); [by eapply IH|]. ok_step H. destruct v0; [by eapply IH|]. ok_step H. cbv zeta in H.
  assert (Forall (input_typed policy) (inputs ++ [{| v2sci_Parent := use_SiacoinElement o;
    v2sci_SatisfiedPolicy := {| sat_Policy := policy; sat_Signatures := []; sat_Preimages := [] |} |}])) as Hx.
  { apply Forall_app. split; [done|]. constructor; [by exists o|constructor]. }
  destruct (_ || _); [by injection H as _ <-|by eapply IH].
Qed.

Lemma sub_typed a b c : Currency.Sub a b = Ok c -> Currency.ok c.
Proof.
  unfold Currency.Sub, Currency.SubWithUnderflow, bits.Sub64. destruct (negb _); [done|]. intros [= <-]. split; apply u64_range.
Qed.
Lemma parse_typed rat s c : ParseCurrency rat s = Ok c -> Currency.ok c.
Proof.
  assert (forall s c, parseHastings s = Ok c -> Currency.ok c) as Hh.
  { intros s' c'. unfold parseHastings. destruct (Int_SetString s'); [|done]. destruct (_ <? _); [done|]. destruct (_ <=? _); [done|].
    intros [= <-]. split; apply u64_range. }
  unfold ParseCurrency. cbv zeta. destruct (_ =? _)%nat; [done|]. destruct (_ || _); [apply Hh|]. destruct (Rat_SetString _ _) as [[num den]|]; [|done].
  destruct (currencyUnits _); [|done]. destruct (negb _); [done|apply Hh].
Qed.
Lemma atomic_typed rat name s z c : canonicalAtomic rat name s z = Ok c -> Currency.ok c.
Proof.
  unfold canonicalAtomic. cbv zeta. destruct (_ || _); [done|]. destruct (ParseCurrency rat s) as [a| |] eqn:E; [|done|done].
  destruct (negb _); [done|]. destruct (_ && _); [done|]. intros [= <-]. by eapply parse_typed.
Qed.
Lemma keys_address_typed k : wf_array 32 (SpendPolicy_Address (QdayKeys_Policy k)).
Proof. apply blake2b_len. Qed.
Lemma address_typed s a : ParseQdayAddress s = Ok a -> wf_array 32 a.
Proof.
  unfold ParseQdayAddress, parse_legacy. intros H. destruct (_ && _).
  - destruct (hex_DecodeString _); [|done]. cbv zeta in H. destruct (negb _); [done|]. ok_step H. injection H as <-. apply keys_address_typed.
  - destruct (negb _); [done|]. ok_step H. destruct v as [hrp data]. destruct (_ || _); [done|]. destruct (bech32ConvertBits _ _ _ _); [|done|done].
    destruct (negb _); [done|]. ok_step H. injection H as <-. apply length_to_array.
Qed.

(** What validation says of the outputs of a request. *)
Definition payment_typed (o : validatedPoolPayoutOutput) : Prop := Currency.ok (vpo_Amount o) /\ wf_array 32 (vpo_Address o).
Lemma validated_typed rat req v : validatePoolPayoutRequest rat req = Ok v ->
  Currency.ok (vp_Fee v) /\ Forall payment_typed (vp_Outputs v) /\ vp_RequestID v <> [].
Proof.
  intros H. unfold validatePoolPayoutRequest in H. cbv zeta in H. repeat ok_step H. destruct v6 as [outs seen]. injection H as <-. cbn.
  split; [by eapply atomic_typed|]. split.
  - rewrite sort_perm. revert E5. assert (Forall payment_typed []) as Ho by constructor. revert Ho.
    generalize (@nil validatedPoolPayoutOutput) (∅ : gset (list Z)) 0%nat. clear -sizes. induction (ppr_Outputs req) as [|o l IH]; intros acc seen0 i Ha H.
    + injection H as <- _. done.
    + cbn [for_each] in H. ok_step H. unfold validate_output in E. ok_step E. ok_step E. ok_step E. injection E as <-. eapply IH; [|exact H]. apply Forall_app. split; [done|].
      constructor; [|constructor]. split; [by eapply atomic_typed|]. apply wrap_err_ok in E0. by eapply address_typed.
  - intros Hn. rewrite Hn in E. discriminate E.
Qed.

Lemma keys_policy_wf k : keys_typed k -> wf_SpendPolicy (QdayKeys_Policy (qp_Public k)).
Proof. intros [H1 H2]. split; [|by apply Nat.leb_le]. cbn. split; [done|]. split; [done|]. by split_and!. Qed.
Lemma sign_wf k h w : keys_typed k -> QdayPrivateKeys_Sign k h = Ok w -> wf_SatisfiedPolicy w.
Proof.
  intros Hk H. unfold QdayPrivateKeys_Sign in H. ok_step H. ok_step H. apply Ok_inj in H as <-. split_and!; cbn [sat_Policy sat_Signatures sat_Preimages].
  - by apply keys_policy_wf.
  - constructor; [apply length_to_array|constructor].
  - apply Forall_forall. intros x (i & -> & _)%list_elem_of_fmap. apply length_to_array.
Qed.

Lemma payout_typed cs keys v required outs txn fuel ctx txn' ctx' : keys_typed keys -> Currency.ok (vp_Fee v) -> Forall payment_typed (vp_Outputs v) ->
  Forall utxo_typed outs -> build_payout cs keys v required outs = Ok txn -> SignTransfer fuel ctx cs txn keys = Ok (txn', ctx') -> typed_txn txn'.
Proof.
  intros Hk Hf Hv Ho Hb Hs. unfold build_payout in Hb. ok_step Hb. pose proof (keyed_typed _ _ _ _ Ho E) as Hkeyed.
  ok_step Hb. destruct v1 as [total inputs]. ok_step Hb. ok_step Hb. apply sub_typed in E2.
  set (e := {| qe_Kind := QdayTransfer |}) in Hb.
  assert (v2tx_ArbitraryData txn = QdayEnvelope_Encode e) as Hd by by injection Hb as <-.
  apply (SignTransfer_inv _ _ _ _ _ _ _ e Hd) in Hs as (n & w & -> & _ & Hw & _).
  2:{ split; [done|done|constructor|done|split; [done|]|done]. change (bytes_ok (replicate 32 0)). by apply Forall_replicate. }
  apply sign_wf in Hw; [|done]. injection Hb as <-. apply typed_parts. unfold signed, set_SiacoinInputs, set_ArbitraryData. cbn_txn.
  split_and!; [|apply Forall_app_2|constructor..|done|done].
  - apply Forall_map. eapply Forall_impl; [eapply fund_typed; [|constructor|exact E0]|].
    { apply Forall_map. rewrite sort_perm. exact Hkeyed. }
    intros i (o & [H1 H2 H3 H4] & ->). apply sci_typed. cbn. by split_and!.
  - apply Forall_map. exact Hv.
  - unfold change_outputs. destruct (Currency.IsZero _); [constructor|]. constructor; [|constructor]. split; [done|apply keys_address_typed].
Qed.
End Typing.

(** ** Records *)
Section Records.
Context {crypto : Crypto} {sizes : CryptoSizes} {edwards : Edwards25519} {St : Type} {store : Store St} {order : GoOrder} {Horder : GoOrderSpec}.
Abbreviation typed_txn := (typed wf_V2Transaction).
Abbreviation ids l := (map V2Transaction_ID l).
Abbreviation Svc := (Service St).

(** The transaction of a record has the identifier of the record. *)
Definition record_ok (r : poolPayoutRecord) : Prop :=
  forall t, decodePendingTransaction (pr_Transaction r) = Ok t -> typed_txn t /\ V2Transaction_ID t = pr_TransactionID r.

(** What must not change. *)
Definition key_of (r : poolPayoutRecord) : bytes * bytes * TransactionID * Z :=
  (pr_RequestID r, pr_Digest r, pr_TransactionID r, pr_Outputs r).
Definition file_records (s : Svc) : list poolPayoutRecord := match sv_payoutFile s with Some f => ppf_Records f | None => [] end.

(** Every record in memory is on disk, up to the progress of its transaction. *)
Record pay_inv (s : Svc) : Prop := {
  pi_typed : typed_service s;
  pi_memory : forall id r, sv_poolPayouts s !! id = Some r -> pr_RequestID r = id /\ record_ok r;
  pi_file : forall r, r ∈ file_records s -> record_ok r;
  pi_durable : forall id r, sv_poolPayouts s !! id = Some r -> exists r', r' ∈ file_records s /\ key_of r' = key_of r }.
Definition grows (s s' : Svc) : Prop :=
  forall id r, sv_poolPayouts s !! id = Some r -> exists r', sv_poolPayouts s' !! id = Some r' /\ key_of r' = key_of r.
Definition known_as (s : Svc) (r : poolPayoutRecord) : Prop :=
  forall prev, sv_poolPayouts s !! pr_RequestID r = Some prev -> key_of prev = key_of r.
Definition same_payouts (s s' : Svc) : Prop :=
  sv_poolPayouts s' = sv_poolPayouts s /\ sv_payoutFile s' = sv_payoutFile s /\ typed_service s'.

Lemma grows_refl s : grows s s.
Proof. intros id r H. by exists r. Qed.
Lemma grows_trans s1 s2 s3 : grows s1 s2 -> grows s2 s3 -> grows s1 s3.
Proof. intros H1 H2 id r H. destruct (H1 id r H) as (r1 & Hr1 & E1). destruct (H2 id r1 Hr1) as (r2 & Hr2 & E2). exists r2. split; [done|congruence]. Qed.
Lemma inv_same s s' : pay_inv s -> same_payouts s s' -> pay_inv s' /\ grows s s'.
Proof.
  intros [H1 H2 H3 H4] (E1 & E2 & E3). split; [|intros id r Hr; exists r; by rewrite E1].
  split; unfold file_records; rewrite ?E1, ?E2; done.
Qed.
Lemma apart_same {A} (f : M A) s s' o : apart f -> typed_service s -> f s = (s', o) -> same_payouts s s'.
Proof. intros Hq Ht H. destruct (Hq s) as (H1 & H2 & H3). rewrite H in *. cbn in *. split_and!; [done|done|auto]. Qed.

(** A method apart before [k] either ends the whole or hands over. *)
Lemma after_apart {A B} (f : M A) (k : A -> M B) s s' o : apart f -> pay_inv s -> (f ≫= k) s = (s', o) -> exists s1, same_payouts s s1 /\
  ((exists a, f s = (s1, Ok a) /\ k a s1 = (s', o)) \/ s' = s1 /\ forall b, o <> Ok b).
Proof.
  intros Hq [Ht _ _ _] H. unfold mbind, M_bind in H. destruct (f s) as [s1 [a|e|m]] eqn:E; exists s1; (split; [by eapply apart_same|]).
  - left. by exists a.
  - right. by injection H as <- <-.
  - right. by injection H as <- <-.
Qed.

Lemma query_typed {A} (f : Manager St -> outcome A) s s' a : typed_service s -> query f s = (s', Ok a) ->
  exists m, typed_store (m_store m) /\ f m = Ok a.
Proof.
  intros [H1 H2 _] H. unfold query, call in H. destruct (sv_others s) as [|g l].
  - exists (sv_CM s). split; [done|]. destruct (f (sv_CM s)) as [b| |]; [|done|done]. by injection H as _ <-.
  - apply Forall_cons in H2 as [H2 _]. exists (g (sv_CM s)). split; [by apply H2|]. destruct (f (g (sv_CM s))) as [b| |]; [|done|done]. by injection H as _ <-.
Qed.

Lemma decode_copy u t : typed_txn u -> decodePendingTransaction (encodePendingTransaction u) = Ok t -> t = V2Transaction_DeepCopy u.
Proof.
  intros Hu H. unfold decodePendingTransaction, encodePendingTransaction in H. rewrite <- encode_copy in H. ok_step H.
  apply fail_if_ok, orb_false_iff in E as [_ E%Z.ltb_ge]. change (Z.shiftl 4 20) with 4194304 in E.
  assert (zlen (V2Transaction_EncodeTo (V2Transaction_DeepCopy u)) < two63) as Hl by lia. clear E.
  assert (wf_V2Transaction (V2Transaction_DeepCopy u)) as Hw by exact Hu. clear Hu. revert Hl Hw H. generalize (V2Transaction_DeepCopy u) as w. intros w Hl Hw H.
  rewrite (codec_buf wf_V2Transaction V2Transaction_EncodeTo V2Transaction_DecodeFrom w Hw Hl) in H.
  cbn [mbind outcome_bind] in H. ok_step H. by apply Ok_inj in H.
Qed.
Lemma encoded_ok r u : typed_txn u -> pr_Transaction r = encodePendingTransaction u -> pr_TransactionID r = V2Transaction_ID u -> record_ok r.
Proof.
  intros Hu E1 E2 t Ht. rewrite E1 in Ht. apply decode_copy in Ht as ->; [|done]. split; [by apply wf_typed|]. by rewrite E2, ID_copy.
Qed.

Lemma holds_typed s : typed_service s -> service_holds typed_store s.
Proof. by intros [H1 H2 _]. Qed.
Lemma pending_same fuel done to txns from s s' upd : typed_service s -> Forall typed_txn txns ->
  updatePendingProofs fuel done txns from to s = (s', Ok upd) -> Forall typed_txn upd /\ ids upd `sublist_of` ids txns.
Proof.
  intros Hs Ht H. destruct (pending_less typed_store (fun _ H => H) fuel done to _ _ _ _ _ (holds_typed _ Hs) Ht H) as [Hu Hl].
  split; [done|by apply (less_ids typed_store)].
Qed.

(** ** Saving a record *)
Lemma file_member payouts r : r ∈ ppf_Records (payout_file payouts) <-> exists id, payouts !! id = Some r.
Proof.
  unfold payout_file. cbn [ppf_Records]. rewrite list_elem_of_fmap. setoid_rewrite (sort_perm _ _ (map_to_list payouts)). split.
  - intros ([id x] & -> & H%elem_of_map_to_list). by exists id.
  - intros [id H]. exists (id, r). split; [done|]. by apply elem_of_map_to_list.
Qed.

Definition with_record (s : Svc) (r : poolPayoutRecord) : idmap poolPayoutRecord := <[pr_RequestID r := r]> (sv_poolPayouts s).

Lemma write_cases disk (s s' : Svc) o : savePoolPayoutsLocked disk s = (s', o) ->
  sv_poolPayouts s' = sv_poolPayouts s /\ (typed_service s -> typed_service s') /\
  (o = Ok tt /\ sv_payoutFile s' = Some (payout_file (sv_poolPayouts s)) \/
   exists e, o = Err e /\ (sv_payoutFile s' = sv_payoutFile s \/ sv_payoutFile s' = Some (payout_file (sv_poolPayouts s)))).
Proof.
  assert (typed_service s -> typed_service (with_payouts s (sv_poolPayouts s) (Some (payout_file (sv_poolPayouts s))))) as Ht by (intros [T1 T2 T3]; by split).
  unfold savePoolPayoutsLocked, mbind, M_bind, gets, lift, modify. cbv beta iota zeta. destruct (pd_json disk _) as [e|size].
  { intros [= <- <-]. split_and!; [done|done|]. right. exists e. split; [done|by left]. }
  destruct (_ || _); [intros [= <- <-]; split_and!; [done|done|]; right; eexists; split; [done|by left]|].
  destruct (pd_saved disk) as [e|[e|]]; intros [= <- <-]; (split; [done|]); (split; [done|]).
  - right. exists e. split; [done|by left].
  - right. exists e. split; [done|by right].
  - by left.
Qed.
Lemma save_cases disk (s : Svc) r s' o : savePoolPayoutRecord disk r s = (s', o) ->
  (typed_service s -> typed_service s') /\
  (sv_poolPayouts s' = with_record s r /\ o = Ok r /\ sv_payoutFile s' = Some (payout_file (with_record s r)) \/
   sv_poolPayouts s' = sv_poolPayouts s /\ (exists e, o = Err e) /\
   (sv_payoutFile s' = sv_payoutFile s \/ sv_payoutFile s' = Some (payout_file (with_record s r)))).
Proof.
  unfold savePoolPayoutRecord, put_payouts, try. unfold mbind at 1, M_bind at 1, gets at 1. cbv beta iota zeta.
  destruct (_ && _); [intros [= <- <-]; split; [done|]; right; split_and!; [done|by eexists|by left]|].
  unfold mbind at 1, M_bind at 1, modify at 1. cbv beta iota. unfold mbind at 1, M_bind at 1. fold (with_record s r).
  set (s1 := with_payouts s _ _). assert (typed_service s -> typed_service s1) as H1 by (intros [T1 T2 T3]; by split).
  destruct (savePoolPayoutsLocked disk s1) as [s2 o2] eqn:E. apply write_cases in E as (E1 & E2 & [[-> E3]|(e & -> & E3)]).
  - intros [= <- <-]. split; [auto|]. by left.
  - unfold mbind, M_bind, modify, gets, lift. cbv beta iota. intros [= <- <-]. split.
    { intros Hs. destruct (E2 (H1 Hs)) as [T1 T2 T3]. by split. }
    right. cbn [with_payouts sv_poolPayouts sv_payoutFile]. rewrite E1. cbn [s1 with_payouts sv_poolPayouts]. split_and!; [|by eexists|done].
    unfold with_record. destruct (sv_poolPayouts s !! pr_RequestID r) as [prev|] eqn:Ep; [by rewrite insert_insert_eq, insert_id|by rewrite delete_insert_id].
Qed.

Lemma save_keeps disk s r s' o : pay_inv s -> record_ok r -> known_as s r -> savePoolPayoutRecord disk r s = (s', o) ->
  pay_inv s' /\ grows s s' /\ forall x, o = Ok x -> x = r /\ sv_poolPayouts s' !! pr_RequestID r = Some r.
Proof.
  intros [H1 H2 H3 H4] Hr Hk H. apply save_cases in H as [Ht Hc].
  assert (forall id x, with_record s r !! id = Some x -> pr_RequestID x = id /\ record_ok x) as Hm.
  { unfold with_record. intros id x [[<- <-]|[_ Hx]]%lookup_insert_Some; [done|by apply H2]. }
  assert (forall id x, sv_poolPayouts s !! id = Some x -> exists y, with_record s r !! id = Some y /\ key_of y = key_of x) as Hg.
  { intros id x Hx. unfold with_record. destruct (decide (pr_RequestID r = id)) as [<-|Hne].
    - rewrite lookup_insert_eq. exists r. split; [done|]. by rewrite (Hk x).
    - rewrite lookup_insert_ne by done. by exists x. }
  destruct Hc as [(E1 & -> & E2)|(E1 & [e ->] & E2)].
  - split; [|split; [intros id x Hx; rewrite E1; by apply Hg|]].
    + split; unfold file_records; rewrite ?E1, ?E2; [auto|exact Hm| |].
      * intros x [id Hx]%file_member. exact (proj2 (Hm _ _ Hx)).
      * intros id x Hx. exists x. split; [|done]. apply file_member. by exists id.
    + intros x [= <-]. split; [done|]. rewrite E1. apply lookup_insert_eq.
  - split; [|split; [intros id x Hx; rewrite E1; by exists x|done]].
    split; unfold file_records; rewrite ?E1; [auto|exact H2| |].
    + destruct E2 as [-> | ->]; [exact H3|]. intros x [id Hx]%file_member. exact (proj2 (Hm _ _ Hx)).
    + destruct E2 as [-> | ->]; [exact H4|]. intros id x Hx. destruct (Hg id x Hx) as (y & Hy & Ey). exists y. split; [|done].
      apply file_member. by exists id.
Qed.

(** ** Asking again *)

(** A method that keeps the records, and what it returns. *)
Definition keeps_records {A} (f : M A) (pre : Svc -> Prop) (post : A -> Svc -> Prop) : Prop := forall s s' o,
  pay_inv s -> pre s -> f s = (s', o) -> pay_inv s' /\ grows s s' /\ forall a, o = Ok a -> post a s'.

(** Methods apart first; [pre] speaks of the payouts only. *)
Lemma records_apart {A B} (f : M A) (k : A -> M B) (pre : Svc -> Prop) (post : B -> Svc -> Prop) : apart f ->
  (forall s s', same_payouts s s' -> pre s -> pre s') ->
  (forall a, (exists s s', typed_service s /\ f s = (s', Ok a)) -> keeps_records (k a) pre post) ->
  keeps_records (f ≫= k) pre post.
Proof.
  intros Hq Hpre Hk s s' o Hs Hp H. destruct (after_apart _ _ _ _ _ Hq Hs H) as (s1 & Hsame & [(a & Ha & H1)|[-> Ho]]).
  - destruct (inv_same _ _ Hs Hsame) as [Hs1 Hg]. destruct (Hk a (ex_intro _ s (ex_intro _ s1 (conj (pi_typed _ Hs) Ha))) s1 s' o Hs1 (Hpre _ _ Hsame Hp) H1) as (H2 & H3 & H4).
    split_and!; [done|by eapply grows_trans|done].
  - destruct (inv_same _ _ Hs Hsame) as [Hs1 Hg]. split_and!; [done|done|]. intros a ->. by destruct (Ho a).
Qed.
Lemma known_same r s s' : same_payouts s s' -> known_as s r -> known_as s' r.
Proof. intros (E & _ & _) H prev. rewrite E. apply H. Qed.
Lemma known_key r r' s : key_of r' = key_of r -> known_as s r -> known_as s r'.
Proof. intros E H prev Hp. injection E as E1 E2 E3 E4. rewrite E1 in Hp. rewrite (H _ Hp). unfold key_of. congruence. Qed.
Lemma records_ret {A} (a : A) (pre : Svc -> Prop) (post : A -> Svc -> Prop) : (forall s, pre s -> post a s) -> keeps_records (mret a) pre post.
Proof. intros H s s' o Hs Hp [= <- <-]. split_and!; [done|apply grows_refl|]. intros b [= <-]. by apply H. Qed.
Lemma records_save disk r r0 : record_ok r -> key_of r = key_of r0 ->
  keeps_records (savePoolPayoutRecord disk r) (fun s => known_as s r0) (fun x _ => key_of x = key_of r0).
Proof.
  intros Hr E s s' o Hs Hk H. destruct (save_keeps disk s r s' o Hs Hr (known_key _ _ _ E Hk) H) as (H1 & H2 & H3). split_and!; [done|done|].
  intros x Hx. by destruct (H3 x Hx) as [-> _].
Qed.

Lemma finish_keeps w r : keeps_records (finish_payout w r) (fun s => known_as s r) (fun x _ => key_of x = key_of r).
Proof.
  unfold finish_payout. cbv zeta. apply records_apart; [apply apart_modify; done|intros ? ?; apply known_same|]. intros _ _.
  apply records_apart; [apply save_pending_apart|intros ? ?; apply known_same|]. intros _ _. by apply records_save.
Qed.
Lemma requeue_keeps w tip r r0 : record_ok r -> key_of r = key_of r0 ->
  keeps_records (requeue_payout w tip r) (fun s => known_as s r0) (fun x _ => key_of x = key_of r0).
Proof.
  intros Hr Hkey. unfold requeue_payout. apply records_apart; [apply apart_lift|intros ? ?; apply known_same|].
  intros txn (s & s' & _ & Hd). injection Hd as _ Hd. destruct (Hr txn Hd) as [Ht Hid].
  apply records_apart; [apply update_apart|intros ? ?; apply known_same|]. intros upd (s1 & s1' & Hs1 & Hu).
  apply pending_same in Hu as [Htu Hsub]; [|done|by constructor]. destruct upd as [|first upd].
  - apply records_save; [exact Hr|done].
  - cbn [map] in Hsub. apply Forall_cons in Htu as [Hf _]. assert (V2Transaction_ID first = pr_TransactionID r) as Hi.
    { rewrite <- Hid. apply sublist_cons_l in Hsub as (k1 & k2 & E & _). destruct k1 as [|x k1]; [by injection E as -> _|]. injection E as _ E. by destruct k1. }
    apply records_apart; [apply add_apart|intros ? ?; apply known_same|intros ? _].
    apply records_apart; [apply apart_try, remember_apart|intros ? ?; apply known_same|intros o _].
    apply records_apart; [destruct o; [apply apart_ret|by apply apart_modify|apply apart_ret]|intros ? ?; apply known_same|intros _ _].
    apply records_apart; [destruct (pw_relay w); [by apply apart_modify|apply apart_ret]|intros ? ?; apply known_same|intros _ _].
    apply records_save; [by apply (encoded_ok _ first)|]. unfold key_of. cbn. rewrite Hi. exact Hkey.
Qed.
Lemma ensure_keeps w r : record_ok r -> keeps_records (ensurePoolPayout w r) (fun s => known_as s r) (fun x _ => key_of x = key_of r).
Proof.
  intros Hr. unfold ensurePoolPayout. destruct (bool_decide _); [by apply records_ret|].
  apply records_apart; [apply apart_query|intros ? ?; apply known_same|]. intros tip _.
  apply records_apart; [apply still_confirmed_apart|intros ? ?; apply known_same|]. intros [] _.
  - destruct (_ <? _); [by apply records_ret|apply finish_keeps].
  - apply requeue_keeps; by destruct (bool_decide _).
Qed.

Lemma records_bind {A B} (f : M A) (k : A -> M B) pre (mid : A -> Svc -> Prop) post :
  keeps_records f pre mid -> (forall a, keeps_records (k a) (mid a) post) -> keeps_records (f ≫= k) pre post.
Proof.
  intros Hf Hk s s' o Hs Hp H. unfold mbind, M_bind in H. destruct (f s) as [s1 o1] eqn:E. destruct (Hf _ _ _ Hs Hp E) as (H1 & H2 & H3).
  destruct o1 as [a|e|m]; [|injection H as <- <-; done|injection H as <- <-; done].
  destruct (Hk a _ _ _ H1 (H3 a eq_refl) H) as (G1 & G2 & G3). split_and!; [done|by eapply grows_trans|done].
Qed.

(** A response tells what memory holds for the request. *)
Definition answered (v : validatedPoolPayout) (resp : PoolPayoutResponse) (s : Svc) : Prop :=
  pps_RequestID resp = vp_RequestID v /\ exists r, sv_poolPayouts s !! vp_RequestID v = Some r /\
    key_of r = (vp_RequestID v, vp_Digest v, pps_Transaction resp, pps_Outputs resp).
Definition response_ok (rat : bytes -> option (Z * Z)) (req : PoolPayoutRequest) (resp : PoolPayoutResponse) (s : Svc) : Prop :=
  resp = zeroPayoutResponse \/ exists v, validatePoolPayoutRequest rat req = Ok v /\ answered v resp s.

(** Once a record is in memory, ensuring it answers the request. *)
Definition holds (r : poolPayoutRecord) (s : Svc) : Prop := exists r', sv_poolPayouts s !! pr_RequestID r = Some r' /\ key_of r' = key_of r.
Lemma ensure_answers w rat req v r : record_ok r -> validatePoolPayoutRequest rat req = Ok v -> pr_RequestID r = vp_RequestID v -> pr_Digest r = vp_Digest v ->
  keeps_records (record ← ensurePoolPayout w r; mret (payout_response record)) (holds r) (response_ok rat req).
Proof.
  intros Hr Hv E1 E2. apply (records_bind _ _ _ (fun x s => key_of x = key_of r /\ holds r s)).
  - intros s s' o Hs (r' & Hr' & E) H. destruct (ensure_keeps w r Hr s s' o Hs) as (H1 & H2 & H3); [|done|].
    { intros prev Hp. congruence. }
    split_and!; [done|done|]. intros a Ha. split; [by apply H3|]. destruct (H2 _ _ Hr') as (x & Hx & Ex). exists x. split; [done|congruence].
  - intros x. apply records_ret. intros s [Ex (r' & Hr' & E)]. right. exists v. split; [done|]. injection Ex as X1 X2 X3 X4.
    split; [cbn; congruence|]. exists r'. rewrite <- E1, E. split; [done|]. unfold key_of. cbn. congruence.
Qed.

Lemma first_keeps index w ctx req v : typed_index index -> validatePoolPayoutRequest (os_rat (pw_os w)) req = Ok v ->
  keeps_records (first_payout index w ctx v) (fun s => sv_poolPayouts s !! vp_RequestID v = None) (response_ok (os_rat (pw_os w)) req).
Proof.
  intros Hi Hv. destruct (validated_typed _ _ _ Hv) as (Hfee & Houts & _).
  assert (forall s s', same_payouts s s' -> sv_poolPayouts s !! vp_RequestID v = None -> sv_poolPayouts s' !! vp_RequestID v = None) as Hp
    by (intros s s' (E & _ & _); by rewrite E).
  unfold first_payout. apply records_apart; [apply apart_gets|done|]. intros [keys|] (s & s' & Hs & Hg).
  2:{ intros t t' o Ht Hn [= <- <-]. split_and!; [done|apply grows_refl|done]. }
  assert (keys_typed keys) as Hk. { injection Hg as _ Hg. by eapply ts_keys. }
  apply records_apart; [apply apart_lift|done|intros _ _]. apply records_apart; [apply apart_query|done|intros cs _].
  apply records_apart; [apply apart_lift|done|intros _ _]. apply records_apart; [apply apart_lift|done|intros required _].
  apply records_apart; [apply outputs_apart|done|intros outs (s1 & s2 & _ & Ho)]. apply outputs_typed in Ho; [|done].
  apply records_apart; [apply apart_lift|done|intros txn (s3 & s4 & _ & Hb)]. injection Hb as _ Hb.
  apply records_apart; [apply apart_lift|done|intros [txn1 ctx1] (s5 & s6 & _ & Hsg)]. injection Hsg as _ Hsg.
  pose proof (payout_typed _ _ _ _ _ _ _ _ _ _ Hk Hfee Houts Ho Hb Hsg) as Ht.
  apply records_apart; [apply apart_query|done|intros current _]. apply records_apart; [apply apart_lift|done|intros _ _].
  apply records_apart; [apply apart_query|done|intros upd (s7 & s8 & Hs7 & Hu)]. apply query_typed in Hu as (m & Hm & Hu); [|done].
  apply updated_sublist in Hu as [Htu _]; [|done|by constructor].
  assert (keeps_records (mret zeroPayoutResponse) (fun s => sv_poolPayouts s !! vp_RequestID v = None) (response_ok (os_rat (pw_os w)) req)) as Hz
    by (apply records_ret; intros; by left).
  destruct upd as [|txn2 [|]]; [exact Hz| |exact Hz]. apply Forall_cons in Htu as [Ht2 _]. cbv zeta. set (record := mkPayout _ _ _ _ _ _ _ _ _).
  assert (record_ok record) as Hr by by apply (encoded_ok _ txn2).
  apply (records_bind _ _ _ (fun _ s => holds record s)).
  - intros t t' o Ht' Hn H. destruct (fun K => save_keeps _ t record t' o Ht' Hr K H) as (H1 & H2 & H3).
    { intros prev Hprev. cbn [record pr_RequestID] in Hprev. congruence. }
    split_and!; [done|done|]. intros a Ha. exists record. by destruct (H3 a Ha).
  - intros x. by apply (ensure_answers w _ _ v).
Qed.

Lemma payout_keeps index w ctx req : typed_index index ->
  keeps_records (PoolPayout index w ctx req) (fun _ => True) (response_ok (os_rat (pw_os w)) req).
Proof.
  intros Hi. unfold PoolPayout. apply records_apart; [apply apart_lift|done|]. intros v (s & s' & _ & Hv). injection Hv as _ Hv.
  intros t t' o Ht _ H. rewrite gets_bind in H.
  destruct (sv_poolPayouts t !! vp_RequestID v) as [r|] eqn:E; [|by eapply first_keeps].
  destruct (pi_memory _ Ht _ _ E) as [E1 Hr]. destruct (bool_decide (pr_Digest r = vp_Digest v)) eqn:Ed.
  - apply bool_decide_eq_true in Ed. eapply (ensure_answers w _ req v r); [exact Hr|exact Hv|exact E1|exact Ed|exact Ht| |exact H].
    exists r. by rewrite E1.
  - injection H as <- <-. split_and!; [done|apply grows_refl|done].
Qed.

(** ** Restarts *)
Lemma load_record_ok r (s s' : Svc) : load_record r s = (s', Ok tt) ->
  sv_poolPayouts s !! pr_RequestID r = None /\ sv_poolPayouts s' = with_record s r /\ sv_payoutFile s' = sv_payoutFile s /\
  (typed_service s -> typed_service s').
Proof.
  intros H. unfold load_record in H. cbv zeta in H. apply M_bind_ok in H as (s1 & [] & H1 & H). apply (f_equal fst) in H1. cbn in H1. subst s1.
  apply M_bind_ok in H as (s1 & [] & H1 & H).
  assert (apart (if bool_decide (pr_Status r = "confirmed"%string) then
         lift (fail_if (negb (zlen (pr_Transaction r) =? 0) || bool_decide (pr_TransactionID r = zeroHash)) "invalid confirmed pool payout record")
       else
         txn ← lift (wrap_err "invalid pool payout transaction: " (decodePendingTransaction (pr_Transaction r)));
         _ ← lift (fail_if (negb (bool_decide (V2Transaction_ID txn = pr_TransactionID r))) "pool payout transaction ID mismatch");
         pending ← gets (fun s : Svc => sv_rebroadcasts s !! V2Transaction_ID txn);
         match pending with
         | Some _ => mret tt
         | None => put_set (V2Transaction_ID txn) {| pb_Basis := pr_Basis r; pb_BroadcastedAt := pr_CreatedAt r;
                                 pb_Transactions := [txn]; pb_confirmedAt := zeroIndex |}
         end)) as Hq.
  { apply apart_if; [apply apart_lift|]. apply apart_bind; [apply apart_lift|intros txn]. apply apart_bind; [apply apart_lift|intros _].
    apply apart_bind; [apply apart_gets|intros [p|]]; [apply apart_ret|by apply apart_modify]. }
  destruct (Hq s) as (Q1 & Q2 & Q3). rewrite H1 in Q1, Q2, Q3. cbn [fst] in Q1, Q2, Q3. clear Hq H1. rewrite gets_bind in H.
  destruct (bool_decide _) eqn:E; [done|]. apply bool_decide_eq_false, eq_None_not_Some in E. injection H as <-. rewrite Q1 in E. split; [done|].
  unfold with_record. cbn. rewrite Q1. split_and!; [done|done|]. intros Hs. destruct (Q3 Hs) as [T1 T2 T3]. by split.
Qed.
Lemma load_records_ok l : forall (s s' : Svc), load_records l s = (s', Ok tt) ->
  sv_payoutFile s' = sv_payoutFile s /\ (typed_service s -> typed_service s') /\
  forall id r, sv_poolPayouts s' !! id = Some r <-> sv_poolPayouts s !! id = Some r \/ r ∈ l /\ pr_RequestID r = id.
Proof.
  induction l as [|x l IH]; intros s s' H; cbn [load_records] in H.
  - injection H as <-. split_and!; [done|done|]. intros id r. split; [by left|]. by intros [?|[?%elem_of_nil _]].
  - apply M_bind_ok in H as (s1 & [] & H1 & H). apply load_record_ok in H1 as (E0 & E1 & E2 & E3). apply IH in H as (G1 & G2 & G3).
    split_and!; [congruence|auto|]. intros id r. rewrite G3, E1. unfold with_record. rewrite lookup_insert_Some, elem_of_cons. split.
    + intros [[[<- <-]|[_ H]]|[H1 H2]]; [right|by left|right]; split; auto.
    + intros [H|[[->|H1] H2]]; [|left; left; done|by right]. left. right. split; [|done]. intros <-. congruence.
Qed.

(** ** Runs

    Payouts, restarts with what the file holds, and anything else that leaves the payouts alone:
    relaying, payments, mining, locking the wallet, blocks and transactions of other nodes. *)
Inductive payout_step : Svc -> Svc -> Prop :=
| step_payout index w ctx req s : typed_index index -> payout_step s (PoolPayout index w ctx req s).1
| step_restart size s s0 s' : typed_service s0 -> sv_poolPayouts s0 = ∅ -> sv_payoutFile s0 = sv_payoutFile s ->
    loadPoolPayouts size s0 = (s', Ok tt) -> payout_step s s'
| step_other s s' : same_payouts s s' -> payout_step s s'.

Lemma restart_keeps size s s0 s' : pay_inv s -> typed_service s0 -> sv_poolPayouts s0 = ∅ -> sv_payoutFile s0 = sv_payoutFile s ->
  loadPoolPayouts size s0 = (s', Ok tt) -> pay_inv s' /\ grows s s'.
Proof.
  intros [H1 H2 H3 H4] Ht E1 E2 H. assert (sv_payoutFile s' = sv_payoutFile s /\ typed_service s' /\
    forall id r, sv_poolPayouts s' !! id = Some r <-> r ∈ file_records s /\ pr_RequestID r = id) as (E3 & Ht' & Hm).
  { unfold loadPoolPayouts in H. rewrite gets_bind in H. unfold file_records. rewrite <- E2. destruct (sv_payoutFile s0) as [f|] eqn:Ef.
    - apply M_bind_ok in H as (s1 & [] & Ha & H). apply (f_equal fst) in Ha. cbn in Ha. subst s1.
      apply M_bind_ok in H as (s1 & [] & Ha & H). apply (f_equal fst) in Ha. cbn in Ha. subst s1.
      apply load_records_ok in H as (G1 & G2 & G3). split_and!; [congruence|auto|]. intros id r. rewrite G3, E1, lookup_empty. split; [by intros [?|?]|by right].
    - injection H as <-. split_and!; [congruence|done|]. intros id r. rewrite E1, lookup_empty. split; [done|]. by intros [?%elem_of_nil _]. }
  split.
  - split; [done| |unfold file_records; by rewrite E3|].
    + intros id r [Hr <-]%Hm. split; [done|by apply H3].
    + intros id r [Hr <-]%Hm. exists r. unfold file_records. by rewrite E3.
  - intros id r Hr. destruct (H4 id r Hr) as (r' & Hr' & E). exists r'. split; [|done]. apply Hm. split; [done|].
    destruct (H2 id r Hr) as [<- _]. unfold key_of in E. congruence.
Qed.
Lemma step_keeps s s' : payout_step s s' -> pay_inv s -> pay_inv s' /\ grows s s'.
Proof.
  intros [index w ctx req s1 Hi|size s1 s0 s2|s1 s2 H] Hs.
  - destruct (PoolPayout index w ctx req s1) as [s2 o] eqn:E. by destruct (payout_keeps index w ctx req Hi s1 s2 o Hs I E) as (H1 & H2 & _).
  - by eapply restart_keeps.
  - by apply inv_same.
Qed.
Lemma steps_keep s s' : rtc payout_step s s' -> pay_inv s -> pay_inv s' /\ grows s s'.
Proof.
  induction 1 as [s|s1 s2 s3 H _ IH]; intros Hs; [split; [done|apply grows_refl]|]. destruct (step_keeps _ _ H Hs) as [H1 G1].
  destruct (IH H1) as [H2 G2]. split; [done|by eapply grows_trans].
Qed.

(** A service that has not seen a payout. *)
Definition no_payouts (s : Svc) : Prop := typed_service s /\ sv_poolPayouts s = ∅ /\ sv_payoutFile s = None.
Lemma no_payouts_inv s : no_payouts s -> pay_inv s.
Proof.
  intros (Ht & E1 & E2). split; [done| |unfold file_records; rewrite E2; by intros r ?%elem_of_nil|]; intros id r; by rewrite E1, lookup_empty.
Qed.

(** C12: a payout request is paid once.  Take any run of a pool wallet from its first start: payouts
    with whatever failures of signing, of the pool and of each step of saving the record file,
    restarts that read that file, and anything else that blocks, payments and the relay do in between.
    If two calls of [PoolPayout] succeed with the same request identifier, they return the same
    transaction and the same number of outputs, and their requests have the same digest: a retry
    never pays twice, and changed fields are refused. *)
Theorem payout_idempotent s0 s s1 s2 s3 index w ctx req resp index' w' ctx' req' resp' :
  no_payouts s0 -> rtc payout_step s0 s -> typed_index index -> typed_index index' ->
  PoolPayout index w ctx req s = (s1, Ok resp) -> rtc payout_step s1 s2 -> PoolPayout index' w' ctx' req' s2 = (s3, Ok resp') ->
  pps_RequestID resp' = pps_RequestID resp -> pps_RequestID resp <> [] ->
  pps_Transaction resp' = pps_Transaction resp /\ pps_Outputs resp' = pps_Outputs resp /\
  exists v v', validatePoolPayoutRequest (os_rat (pw_os w)) req = Ok v /\ validatePoolPayoutRequest (os_rat (pw_os w')) req' = Ok v' /\
    vp_Digest v' = vp_Digest v.
Proof.
  intros H0 Hrun Hi Hi' H1 Hrun' H2 Hid Hne. destruct (steps_keep _ _ Hrun (no_payouts_inv _ H0)) as [Hs _].
  destruct (payout_keeps _ _ _ _ Hi _ _ _ Hs I H1) as (Hs1 & _ & Hr). destruct (steps_keep _ _ Hrun' Hs1) as [Hs2 Hg].
  destruct (payout_keeps _ _ _ _ Hi' _ _ _ Hs2 I H2) as (_ & Hg' & Hr'). destruct (Hr resp eq_refl) as [->|(v & Hv & E1 & r & Hm & Ek)]; [done|].
  destruct (Hr' resp' eq_refl) as [->|(v' & Hv' & E1' & r' & Hm' & Ek')]; [by rewrite <- Hid in Hne|].
  destruct (grows_trans _ _ _ Hg Hg' _ _ Hm) as (r2 & Hm2 & E2). assert (vp_RequestID v' = vp_RequestID v) as Ev by congruence.
  rewrite Ev in Hm'. rewrite Hm' in Hm2. injection Hm2 as <-. rewrite Ek', Ek in E2. injection E2 as _ D T O. split_and!; [done|done|].
  by exists v, v'.
Qed.
End Records.

(** ** A batch, asked for twice *)
#[local] Existing Instances Sample.crypto SampleChain.edwards stable_order SampleStore.sample_sizes SampleStore.memory_store.
Module SamplePayout.
Definition request : PoolPayoutRequest := Eval vm_compute in
  {| ppr_RequestID := str_bytes "batch-1"; ppr_FromAddress := QdayAddress_String SampleChain.owner;
     ppr_ExpectedUnitAtomic := match QdayUnits SampleChain.tip 0 with Ok u => Currency_ExactString u | _ => [] end;
     ppr_FeeAtomic := str_bytes "5";
     ppr_Outputs := [{| ppo_Address := QdayAddress_String SampleWallet.payee; ppo_AmountAtomic := str_bytes "7" |}] |}.
Definition world : PayoutWorld :=
  {| pw_fuel := 1; pw_done := false; pw_disk := {| pd_json := fun _ => inr 0; pd_saved := replaced None |};
     pw_ensure_disk := {| pd_json := fun _ => inr 0; pd_saved := replaced None |}; pw_relay := None; pw_os := SampleWallet.outside |}.
Definition run (s : Service SampleStore.t) : Service SampleStore.t * outcome PoolPayoutResponse := PoolPayout SampleWallet.index world [] request s.
Definition both : outcome PoolPayoutResponse * outcome PoolPayoutResponse := let r := run SampleWallet.service in (r.2, (run r.1).2).
Definition resp : PoolPayoutResponse := Eval vm_compute in match (run SampleWallet.service).2 with Ok r => r | _ => zeroPayoutResponse end.

Lemma both_ok : both = (Ok resp, Ok resp).
Proof. vm_cast_no_check (eq_refl (Ok resp, Ok resp)). Qed.
Lemma runs_ok : (run SampleWallet.service).2 = Ok resp /\ (run (run SampleWallet.service).1).2 = Ok resp.
Proof.
  pose proof both_ok as H. unfold both in H. cbv zeta in H. revert H. generalize (run SampleWallet.service).2 (run (run SampleWallet.service).1).2.
  intros o o' H. by injection H as -> ->.
Qed.

Lemma fresh : no_payouts SampleWallet.service.
Proof.
  split_and!; [|done|done]. split; [exact SampleRelay.start_typed|constructor|]. intros k Hk. injection Hk as <-. by split.
Qed.
Lemma index_typed : typed_index SampleWallet.index.
Proof.
  intros a offset limit page basis H. injection H as <- _. apply Forall_take, Forall_drop. constructor; [|constructor].
  split; [|done|split; [apply currency_okb_ok; reflexivity|done]|done]. split; [done|by repeat constructor].
Qed.
End SamplePayout.

Lemma payout_idempotent_witness :
  pps_Transaction SamplePayout.resp = pps_Transaction SamplePayout.resp /\ pps_Outputs SamplePayout.resp = pps_Outputs SamplePayout.resp /\
  exists v v', validatePoolPayoutRequest (os_rat (pw_os SamplePayout.world)) SamplePayout.request = Ok v /\
    validatePoolPayoutRequest (os_rat (pw_os SamplePayout.world)) SamplePayout.request = Ok v' /\ vp_Digest v' = vp_Digest v.
Proof.
  destruct SamplePayout.runs_ok as [H1 H2].
  apply (payout_idempotent SampleWallet.service SampleWallet.service (SamplePayout.run SampleWallet.service).1 (SamplePayout.run SampleWallet.service).1
    (SamplePayout.run (SamplePayout.run SampleWallet.service).1).1 SampleWallet.index SamplePayout.world [] SamplePayout.request SamplePayout.resp
    SampleWallet.index SamplePayout.world [] SamplePayout.request SamplePayout.resp).
  - exact SamplePayout.fresh.
  - apply rtc_refl.
  - exact SamplePayout.index_typed.
  - exact SamplePayout.index_typed.
  - rewrite <- H1. apply surjective_pairing.
  - apply rtc_refl.
  - rewrite <- H2. apply surjective_pairing.
  - reflexivity.
  - discriminate.
Defined.
