(* ===== verification/QdaySwapSpec.v ===== *)
(** * An atomic swap is settled

    The descriptors of keys round-trip through their texts, a wallet that is a party to a swap
    can make its witness, and on a node at rest the claim or the refund of a confirmed output
    reaches the pool. *)
From stdpp Require Import prelude strings gmap.
From Stdlib Require Import ZArith Lia.
From S2P Require Import Prelude TypesCurrency TypesData TypesEncoding TypesCodec TypesHash TypesPolicy TypesPolicySpec TypesQdayAddress.
From S2P Require Import TypesCurrencyText ConsensusWork ConsensusState ConsensusMerkle ConsensusQday ConsensusQdaySpec.
From S2P Require Import ConsensusMidState ConsensusMidStateSpec ConsensusApply ConsensusValidateV1 ConsensusValidate.
From S2P Require Import ConsensusEnvelopeSpec ConsensusValidateSpec ConsensusBlockSpec ConsensusPanicSpec.
From S2P Require Import ChainStore ChainPool ChainManager ChainManagerPool ChainPoolSpec.
From S2P Require Import QdayMiner QdayMinerSpec QdayService QdaySignSpec QdayPaymentSpec QdayServiceSpec.
From S2P Require Import QdayMining QdayMiningSpec QdayPayout QdayPayoutSpec QdaySwap.
From S2P Require Import SampleCrypto ChainQday SampleChain SampleStore.

(** ** Texts *)
Lemma hex_char_inv c n : from_hex_char c = Some n -> lower c = c -> c = hex_char n /\ 0 <= n < 16.
Proof.
  unfold from_hex_char, lower, hex_char. intros H Hl.
  destruct (Z.leb_spec 48 c), (Z.leb_spec c 57); cbn [andb] in H; [injection H as <-; destruct (Z.ltb_spec (c - 48) 10); lia|..];
    destruct (Z.leb_spec 97 c), (Z.leb_spec c 102); cbn [andb] in H; try (injection H as <-; destruct (Z.ltb_spec (c - 87) 10); lia);
    destruct (Z.leb_spec 65 c), (Z.leb_spec c 70); cbn [andb] in H; try discriminate H;
    rewrite ?(proj2 (Z.leb_le c 90)) in Hl by lia; cbn [andb] in Hl; lia.
Qed.
Lemma lower_hex_inv v : forall b, hex_DecodeString v = Some b -> map lower v = v -> v = hex_EncodeToString b /\ bytes_ok b.
Proof.
  induction v as [v IH] using (induction_ltof1 _ (@length Z)). unfold ltof in IH. intros b H Hl.
  destruct v as [|a [|c v]]; [injection H as <-; by split; [|constructor]|done|]. cbn [hex_DecodeString] in H.
  injection Hl as Ha Hc Hl. destruct (from_hex_char a) as [x|] eqn:Ea; [|done]. destruct (from_hex_char c) as [y|] eqn:Ec; [|done].
  cbn [mbind option_bind] in H. destruct (hex_DecodeString v) as [r|] eqn:Ev; [|done]. injection H as <-.
  apply hex_char_inv in Ea as [-> Hx]; [|done]. apply hex_char_inv in Ec as [-> Hy]; [|done].
  destruct (IH v ltac:(cbn; lia) r Ev Hl) as [-> Hr]. split.
  - cbn [hex_EncodeToString flat_map app]. rewrite (Z.mul_comm 16 x), Z.div_add_l, Z.div_small, Z.add_0_r by lia.
    by rewrite Z.add_comm, Z.mod_add, Z.mod_small by lia.
  - constructor; [unfold byte_ok; change two8 with 256; lia|done].
Qed.
Lemma hex_is_lower b : bytes_ok b -> map lower (hex_EncodeToString b) = hex_EncodeToString b.
Proof.
  assert (forall n, 0 <= n < 16 -> lower (hex_char n) = hex_char n) as Hc.
  { intros n Hn. unfold lower, hex_char. destruct (Z.ltb_spec n 10); [rewrite (proj2 (Z.leb_gt 65 _)) by lia; done|].
    by rewrite (proj2 (Z.leb_gt (87 + n) 90)), andb_false_r by lia. }
  induction 1 as [|x b Hx _ IH]; [done|]. unfold byte_ok in Hx. change two8 with 256 in Hx.
  cbn [hex_EncodeToString flat_map app map]. change (flat_map _ b) with (hex_EncodeToString b). rewrite IH, !Hc; [done|..].
  - apply Z.mod_pos_bound. lia.
  - split; [apply Z.div_pos; lia|apply Z.div_lt_upper_bound; lia].
Qed.
(** The texts that are accepted are those of 32 bytes. *)
Lemma lower_hex32_exact what v b : lower_hex32 what v = Ok b <-> v = hex_EncodeToString b /\ length b = 32%nat /\ bytes_ok b.
Proof.
  unfold lower_hex32. split.
  - destruct (bool_decide_reflect (v = map lower v)) as [El|]; [|done]. destruct (zlen v =? 64); [|done]. cbn [negb orb].
    destruct (hex_DecodeString v) as [x|] eqn:E; [|done]. destruct (Z.eqb_spec (zlen x) 32) as [Ex|]; [|done]. intros [= <-].
    destruct (lower_hex_inv v x E (eq_sym El)) as [-> Hx]. unfold zlen in Ex. split_and!; [done|lia|done].
  - intros (-> & Hl & Hb). rewrite hex_is_lower, bool_decide_eq_true_2, hex_length, hex_roundtrip by done. unfold zlen. by rewrite Hl.
Qed.

Section Keys.
Context {crypto : Crypto}.

(** A descriptor is accepted for exactly one pair of valid keys, and then it is their own, with or without the address. *)
Definition keys_typed (k : QdayKeys) : Prop :=
  (length (qk_Classical k) = 32%nat /\ bytes_ok (qk_Classical k)) /\ (length (qk_Reserve k) = 32%nat /\ bytes_ok (qk_Reserve k)) /\
  QdayKeys_Validate k = Ok tt.
Lemma parse_keys_exact name d k : parseAtomicSwapKeys name d = Ok k <->
  keys_typed k /\ (d = atomicSwapKeys k \/
    d = {| ask_Classical := ask_Classical (atomicSwapKeys k); ask_Reserve := ask_Reserve (atomicSwapKeys k); ask_Address := [] |}).
Proof.
  unfold parseAtomicSwapKeys, keys_typed. split.
  - intros H. ok_step H. ok_step H. ok_step H. ok_step H. injection H as <-. apply lower_hex32_exact in E, E0. destruct E as (Ec & ? & ?), E0 as (Er & ? & ?).
    apply fail_if_ok in E2. split.
    + cbn [qk_Classical qk_Reserve]. split_and!; try done. destruct (QdayKeys_Validate _) as [[]| |]; done.
    + unfold atomicSwapKeys. cbn [qk_Classical qk_Reserve ask_Classical ask_Reserve]. rewrite <- Ec, <- Er. destruct d as [c r a]. cbn in *.
      apply andb_false_iff in E2 as [E2%negb_false_iff%bool_decide_eq_true|E2%negb_false_iff%bool_decide_eq_true]; [right; by subst a|left; by f_equal].
  - intros (([H1 H2] & [H3 H4] & H5) & Hd). assert (ask_Classical d = hex_EncodeToString (qk_Classical k) /\ ask_Reserve d = hex_EncodeToString (qk_Reserve k))
      as [Ec Er] by by destruct Hd as [-> | ->]. rewrite Ec, Er.
    rewrite (proj2 (lower_hex32_exact _ _ _) (conj eq_refl (conj H1 H2))). cbn [mbind outcome_bind].
    rewrite (proj2 (lower_hex32_exact _ _ _) (conj eq_refl (conj H3 H4))). cbn [mbind outcome_bind].
    replace {| qk_Classical := qk_Classical k; qk_Reserve := qk_Reserve k |} with k by by destruct k. rewrite H5. cbn [wrap_err mbind outcome_bind].
    destruct Hd as [-> | ->]; cbn [atomicSwapKeys ask_Address]; [|by rewrite (bool_decide_eq_true_2 ([] = []))]. replace (negb (bool_decide (QdayAddress_String (QdayKeys_Address k) = QdayAddress_String (QdayKeys_Address k)))) with false; [by rewrite andb_false_r|]. by rewrite bool_decide_eq_true_2.
Qed.
(** What the parties' wallets publish is accepted as their descriptors. *)
Lemma contract_swap_inv c w : contract_swap c = Ok w -> Swap_validate w = Ok tt /\ keys_typed (sw_Recipient w) /\ keys_typed (sw_Refund w) /\
  length (sw_SecretHash w) = 32%nat.
Proof.
  intros H. unfold contract_swap in H. ok_step H. ok_step H. ok_step H. ok_step H. apply Ok_inj in H. subst w. cbn.
  apply parse_keys_exact in E, E0. apply lower_hex32_exact in E1. split_and!; try apply E; try apply E0; [|apply E1].
  unfold Swap_Policy in E2. ok_step E2. by destruct v3.
Qed.
End Keys.

(** ** The parties' witnesses *)
Section Party.
Context {crypto : Crypto} {sizes : CryptoSizes} {edwards : Edwards25519}.
Context (ms : MidState) (median : Time) (keys : QdayPrivateKeys) (swap : QdayAtomicSwap) (self : Address).
Abbreviation base := (ms_base ms).
Context (Hkeys : SchemeCorrect keys) (Hpub : key_ok (qp_Public keys)).
Context (Hswap : Swap_validate swap = Ok tt) (Hrecipient : keys_typed (sw_Recipient swap)) (Hrefund : keys_typed (sw_Refund swap)).
Context (Hlock : length (sw_SecretHash swap) = 32%nat) (Hself : Swap_Address swap = Ok self).
Context (Hactive : QdayV1Active base (childHeight base) = true).

Lemma set_policy_size w p extra : zlen (SatisfiedPolicy_EncodeTo (set_policy w p extra)) =
  zlen (SatisfiedPolicy_EncodeTo w) - zlen (SpendPolicy_EncodeTo (sat_Policy w)) + zlen (SpendPolicy_EncodeTo p) + zlen (concat extra).
Proof.
  unfold SatisfiedPolicy_EncodeTo, EncodeSlice, set_policy. cbn [sat_Policy sat_Signatures sat_Preimages]. unfold Array_EncodeTo.
  rewrite flat_map_app, !zlen_app, (flat_map_concat_map _ extra), map_id. unfold zlen, WriteUint64. rewrite !length_le_encode. lia.
Qed.
Lemma swap_validated : sw_SecretHash swap <> zeroHash /\ sw_RefundHeight swap <> 0.
Proof.
  pose proof Hswap as H. unfold Swap_validate in H. rewrite (proj2 (proj2 Hrecipient)), (proj2 (proj2 Hrefund)) in H.
  ok_step H. apply fail_if_ok in E, H. apply bool_decide_eq_false in E. apply Z.eqb_neq in H. done.
Qed.
Lemma branch_address b : (b = claimBranch swap \/ b = refundBranch swap) -> length (SpendPolicy_Address b) = 32%nat.
Proof. intros [-> | ->]; apply blake2b_len. Qed.
Ltac policy_size La := unfold SpendPolicy_EncodeTo, claimBranch, refundBranch; cbn [encodePolicy flat_map];
  unfold zlen, Array_EncodeTo, WriteUint8, WriteUint64; rewrite !length_app, ?length_le_encode, La; cbn [length]; lia.
Lemma policy_sizes : exists claim refund, ClaimPolicy swap = Ok claim /\ RefundPolicy swap = Ok refund /\
  zlen (SpendPolicy_EncodeTo claim) <= 200 /\ zlen (SpendPolicy_EncodeTo refund) <= 200 /\
  SpendPolicy_Address claim = self /\ SpendPolicy_Address refund = self /\
  IsQdaySwapSpendPolicy claim = true /\ IsQdaySwapSpendPolicy refund = true.
Proof.
  destruct swap_validated as [Hh Hr]. unfold ClaimPolicy, RefundPolicy. unfold Swap_Address, Swap_Policy in Hself. rewrite Hswap in Hself |- *.
  cbn [mbind outcome_bind] in Hself |- *. apply Ok_inj in Hself. destruct Hrecipient as ([L1 _] & [L2 _] & _), Hrefund as ([L3 _] & [L4 _] & _).
  eexists _, _. split_and!; [done|done|..].
  - pose proof (branch_address (refundBranch swap) ltac:(by right)) as La. change (PolicyOpaque (refundBranch swap)) with (PolicyTypeOpaque (SpendPolicy_Address (refundBranch swap))).
    revert La. generalize (SpendPolicy_Address (refundBranch swap)). intros a La. policy_size La.
  - pose proof (branch_address (claimBranch swap) ltac:(by left)) as La. change (PolicyOpaque (claimBranch swap)) with (PolicyTypeOpaque (SpendPolicy_Address (claimBranch swap))).
    revert La. generalize (SpendPolicy_Address (claimBranch swap)). intros a La. policy_size La.
  - by rewrite <- Hself.
  - by rewrite <- Hself.
  - cbn. by rewrite bool_decide_eq_false_2.
  - cbn. by rewrite (proj2 (Z.eqb_neq _ _) Hr).
Qed.

Lemma native_policy_size h w : QdayPrivateKeys_Sign keys h = Ok w -> 0 <= zlen (SpendPolicy_EncodeTo (sat_Policy w)) /\ zlen (SatisfiedPolicy_EncodeTo w) = 8022.
Proof. intros H. split; [apply zlen_nonneg|]. by apply (witness_size keys Hpub h). Qed.
Lemma swap_witness h w policy extra : QdayPrivateKeys_Sign keys h = Ok w -> SpendPolicy_Address policy = self ->
  IsQdaySwapSpendPolicy policy = true -> zlen (SpendPolicy_EncodeTo policy) <= 200 -> zlen (concat extra) <= 32 ->
  Verify (ci_Height (s_Index base)) median h policy (sat_Signatures w) (sat_Preimages w ++ extra) = Ok tt ->
  witness_for ms self median h (set_policy w policy extra).
Proof.
  intros Hw Ha Hs Hz He Hv. destruct (native_policy_size h w Hw). split; [done|done|by right|]. rewrite set_policy_size. lia.
Qed.

(** What a party needs: the recipient the secret of the hash lock, the owner of the refund its height. *)
Lemma claim_witness h secret : qp_Public keys = sw_Recipient swap -> length secret = 32%nat -> sha256_Sum256 secret = sw_SecretHash swap ->
  exists w, Swap_Claim swap h (Some keys) secret = Ok w /\ witness_for ms self median h w.
Proof.
  intros Hk Hl Hsec. destruct policy_sizes as (claim & _ & Ec & _ & Hz & _ & Ha & _ & Hs & _).
  destruct (sign_then_verify keys swap (ci_Height (s_Index base)) median h secret) as (_ & H & _).
  destruct (H Hswap Hk Hsec) as (w & Hw & Hv). exists w. split; [done|]. unfold Swap_Claim in Hw. ok_step Hw. ok_step Hw. ok_step Hw.
  rewrite Ec in Hw. apply Ok_inj in Hw. subst w. apply swap_witness; try done. unfold zlen. cbn [concat]. rewrite app_nil_r. lia.
Qed.
Lemma refund_witness h : qp_Public keys = sw_Refund swap -> sw_RefundHeight swap <= ci_Height (s_Index base) ->
  exists w, RefundSpend swap h (Some keys) = Ok w /\ witness_for ms self median h w.
Proof.
  intros Hk Hh. destruct policy_sizes as (_ & refund & _ & Er & _ & Hz & _ & Ha & _ & Hs).
  destruct (sign_then_verify keys swap (ci_Height (s_Index base)) median h []) as (_ & _ & H).
  destruct (H Hswap Hk) as (w & Hw & Hv). exists w. split; [done|]. apply Hv in Hh. clear Hv. unfold RefundSpend in Hw. ok_step Hw. ok_step Hw.
  rewrite Er in Hw. apply Ok_inj in Hw. subst w. by apply swap_witness.
Qed.
End Party.

(** ** Finding the output *)
Section Find.
Context {crypto : Crypto} {edwards : Edwards25519}.
Context (index : Address -> Z -> Z -> outcome (list UnspentSiacoinElement * ChainIndex)) (cs : State) (self : Address)
  (utxos : list UnspentSiacoinElement) (Hindex : WalletIndexSpec index cs self utxos) (o : UnspentSiacoinElement).

Lemma output_inj x y : x ∈ utxos -> y ∈ utxos -> output_id x = output_id y -> x = y.
Proof.
  intros [i Hi]%list_elem_of_lookup [j Hj]%list_elem_of_lookup E. pose proof (wi_distinct (WalletIndexSpec := Hindex)) as Hn.
  assert (i = j) as ->; [|congruence]. apply (proj1 (NoDup_alt _) Hn i j (output_id x)).
  - by rewrite (list_lookup_fmap output_id), Hi.
  - by rewrite (list_lookup_fmap output_id), Hj, E.
Qed.

(** A listed output is found by its identifier. *)
Lemma find_output_from fuel : forall k, (length utxos < 500 * (k + fuel))%nat -> o ∈ drop (500 * k) utxos ->
  find_output index fuel cs self (output_id o) (500 * Z.of_nat k) = Ok (Some o).
Proof.
  induction fuel as [|fuel IH]; intros k Hf Ho; assert (500 * k < length utxos)%nat as Hk
    by (apply list_elem_of_lookup in Ho as [i Hi%lookup_lt_Some]; rewrite length_drop in Hi; lia); [lia|].
  cbn [find_output]. rewrite wi_pages by lia. cbn [mbind outcome_bind]. rewrite bool_decide_eq_true_2 by done. cbn [negb fail_if mbind outcome_bind].
  change (Z.to_nat 500) with 500%nat. replace (Z.to_nat (500 * Z.of_nat k)) with (500 * k)%nat by lia.
  set (rest := drop (500 * k) utxos) in *. assert (length rest = length utxos - 500 * k)%nat as Hr by apply length_drop.
  destruct (list_find _ (take 500 rest)) as [[i x]|] eqn:E; cbn [fmap option_fmap option_map snd is_some].
  - apply list_find_Some in E as (Hi%list_elem_of_lookup_2 & Hid & _). cbn [orb].
    rewrite (output_inj x o); [done| |by eapply subseteq_drop|done]. by eapply subseteq_drop, subseteq_take.
  - apply list_find_None in E. rewrite Forall_forall in E. rewrite <- (take_drop 500 rest), elem_of_app in Ho. destruct Ho as [Ho|Ho]; [by destruct (E o Ho)|].
    subst rest. rewrite drop_drop in Ho. cbn [orb]. unfold zlen.
    assert (500 * k + 500 < length utxos)%nat by (apply list_elem_of_lookup in Ho as [i Hi%lookup_lt_Some]; rewrite length_drop in Hi; lia).
    rewrite (proj2 (Z.ltb_ge _ _)) by (rewrite length_take; lia).
    replace (500 * Z.of_nat k + 500) with (500 * Z.of_nat (S k)) by lia. apply IH; [lia|].
    by replace (500 * S k)%nat with (500 * k + 500)%nat by lia.
Qed.
Lemma find_output_listed fuel : (length utxos < 500 * fuel)%nat -> o ∈ utxos -> find_output index fuel cs self (output_id o) 0 = Ok (Some o).
Proof. intros Hf Ho. by apply (find_output_from fuel 0). Qed.
End Find.

(** ** The transaction *)
Section Ready.
Context {crypto : Crypto} {edwards : Edwards25519}.
Context (cs : State) (p : QdayParams) (Hs : qday_state cs p) (Hheight : 0 <= ci_Height (s_Index cs) < two64 - 2).
Context (payee self : Address) (Hpayee : length payee = 32%nat) (o : UnspentSiacoinElement) (fee : Currency).
Context (Ho : wallet_output cs self o) (Hfee : Currency.ok fee).
Context (Hunspent : containsUnspentSiacoinElement (s_Elements cs) (SiacoinElement_Share (element_of o)) = true).
Abbreviation value := (spendable cs p (element_of o) (childHeight cs)).
Context (Hcovers : Currency.val fee < value).

Definition swap_envelope : QdayEnvelope := {| qe_Kind := QdayTransfer; qe_Nonce := 0; qe_Keys := []; qe_Witness := noWitness |}.
Definition swap_payout : SiacoinOutput := {| sco_Value := Currency.of_Z (value - Currency.val fee); sco_Address := payee |}.

Lemma swap_value : 0 <= Currency.val fee /\ value < two128 /\ value <= nominal o.
Proof.
  destruct (wo_typed _ _ _ Ho) as [Hv _]. pose proof (spendable_bounds cs p (element_of o) (childHeight cs) (qs_schedule _ _ Hs) Hv).
  pose proof (Currency.ok_val _ Hv). pose proof (Currency.ok_val _ Hfee). unfold nominal. lia.
Qed.
Lemma swap_transaction_ok : exists txn, swap_transaction cs payee (Some o) fee = Ok txn /\
  map v2sci_Parent (v2tx_SiacoinInputs txn) = [element_of o] /\ v2tx_SiacoinOutputs txn = [swap_payout] /\ v2tx_MinerFee txn = fee /\
  qdayUnsupported txn = false /\ v2tx_ArbitraryData txn = QdayEnvelope_Encode swap_envelope /\ length (v2tx_SiacoinInputs txn) = 1%nat.
Proof.
  destruct swap_value as (Hf & Hlt & _). destruct (wo_typed _ _ _ Ho) as [Hv Hm]. pose proof (wo_mature _ _ _ Ho).
  unfold swap_transaction. fold (childHeight cs). change (use_SiacoinElement o) with (element_of o).
  assert (childHeight cs = ci_Height (s_Index cs) + 1) as Eh by (unfold childHeight; apply u64_id; unfold is_u64; lia).
  rewrite (proj2 (Z.ltb_ge (childHeight cs) _)) by lia. cbn [fail_if mbind outcome_bind].
  rewrite (QdayValue_spendable cs (element_of o) (childHeight cs) p); try apply Hs; try done; [|apply u64_range]. cbn [mbind outcome_bind].
  rewrite Cmp_leb, (proj2 (Z.leb_gt _ _)) by (done || lia). cbn [fail_if mbind outcome_bind]. rewrite Sub_fee by (done || lia).
  cbn [mbind outcome_bind]. eexists. by split_and!.
Qed.

Lemma swap_ready ms txn : ms_base ms = cs -> ms_isSpent ms (output_id o) = false -> swap_transaction cs payee (Some o) fee = Ok txn ->
  transfer_ready ms p self txn swap_envelope.
Proof.
  intros Hb Hfree H. destruct swap_transaction_ok as (txn' & H' & Hin & Hout & Hmf & Hplain & Hdata & Hlen). rewrite H in H'. injection H' as <-.
  destruct swap_value as (Hf & Hlt & Hnom). pose proof Ho as [[Hv Hm] Ha Hmat Hleaf _ Hid].
  destruct (v2tx_SiacoinInputs txn) as [|i [|? ?]] eqn:Ei; try done. injection Hin as Hi.
  assert (Currency.ok (Currency.of_Z (value - Currency.val fee))) as Hok by apply Currency.of_Z_ok.
  assert (Currency.val (Currency.of_Z (value - Currency.val fee)) = value - Currency.val fee) as Ev by (apply Currency.val_of_Z; lia).
  pose proof (Currency.ok_val _ Hv). split; rewrite ?Ei, ?Hout, ?Hmf; try done.
  - split; rewrite ?Ei, ?Hout, ?Hmf; [|by intros ? ->%list_elem_of_singleton|done]. intros ? ->%list_elem_of_singleton. by rewrite Hi.
  - unfold nominal_total, total, sum_Z. rewrite Ei. cbn [map foldr]. rewrite Hi. lia.
  - split; try done. split; [done|by apply (Forall_replicate _ 32 0)].
  - by left.
  - cbn [existsb]. unfold Currency.IsZero. rewrite bool_decide_eq_false_2; [done|]. intros E%(f_equal Currency.val). cbn [sco_Value swap_payout] in E.
    rewrite Ev in E. change (Currency.val Currency.ZeroCurrency) with 0 in E. lia.
  - by constructor.
  - unfold outputs_total, spendable_total, total, values, sum_Z. rewrite Ei, Hout, Hb. cbn [map foldr sco_Value swap_payout]. rewrite Ev, Hi. lia.
  - constructor; [|constructor]. split; rewrite ?Hi, ?Hb; try done. unfold childHeight. rewrite u64_id by (unfold is_u64; lia). lia.
  - apply NoDup_singleton.
Qed.
End Ready.

(** ** From the request to the pool *)
Section Settle.
Context {crypto : Crypto} {sizes : CryptoSizes} {edwards : Edwards25519} {St : Type} {store : Store St} {order : GoOrder}.
Context (index : Address -> Z -> Z -> outcome (list UnspentSiacoinElement * ChainIndex)) (os : Outside).
Context (s : Service St) (p : QdayParams) (ms : MidState) (median : Time) (keys : QdayPrivateKeys) (Hw : ready_wallet s p ms median keys).
Abbreviation cs := (TipState (sv_CM s)).
Abbreviation payee := (QdayKeys_Address (qp_Public keys)).

(** A request that the wallet, a party to the swap, can serve: it names a confirmed output that no
    pending transaction spends and that covers the fee; the recipient knows the secret, or the
    refund height is reached; and DEFEND work, when it is due, is within reach. *)
Record settleable (utxos : list UnspentSiacoinElement) (request : AtomicSwapSpendRequest) (claim : bool) (swap : QdayAtomicSwap)
    (o : UnspentSiacoinElement) (fee : Currency) : Prop := {
  st_contract : contract_swap (asr_Contract request) = Ok swap;
  st_fee : canonicalAtomic (os_rat os) "feeAtomic" (asr_FeeAtomic request) true = Ok fee /\ Currency.ok fee;
  st_output : SiacoinOutputID_UnmarshalText (TrimSpace (asr_Output request)) = Ok (output_id o);
  st_listed : o ∈ utxos;
  st_free : output_id o ∉ spent_ids (tp_v2txns (m_txpool (sv_CM s)));
  st_pages : (length utxos < 500 * os_pages os)%nat;
  st_active : QdayV1Active cs (childHeight cs) = true;
  st_covers : Currency.val fee < spendable cs p (element_of o) (childHeight cs);
  st_party : if claim then qp_Public keys = sw_Recipient swap /\
                 exists secret, lower_hex32 "secret" (asr_Secret request) = Ok secret /\ sha256_Sum256 secret = sw_SecretHash swap
             else qp_Public keys = sw_Refund swap /\ asr_Secret request = [] /\ sw_RefundHeight swap <= ci_Height (s_Index cs);
  st_work : forall txn intent, QdayActive cs (childHeight cs) = true -> swap_transaction cs payee (Some o) fee = Ok txn ->
    QdayWorkIntent cs txn = Ok intent -> exists k, (k <= os_work os)%nat /\ QdayWorkValid intent (u64 (Z.of_nat k)) (qd_DefendBits p) = true }.

(** What has happened once the spend of [o] is submitted as [txn]. *)
Record settled (o : UnspentSiacoinElement) (fee : Currency) (s' : Service St) (txn : V2Transaction) : Prop := {
  sd_pool : is_Some (tp_indices (m_txpool (sv_CM s')) !! V2Transaction_ID txn);
  sd_added : sv_CM s' = sv_CM s \/ tp_v2txns (m_txpool (sv_CM s')) = tp_v2txns (m_txpool (sv_CM s)) ++ [txn];
  sd_valid : ValidateV2Transaction ms txn = Ok tt;
  sd_parent : map v2sci_Parent (v2tx_SiacoinInputs txn) = [element_of o];
  sd_outputs : v2tx_SiacoinOutputs txn = [swap_payout cs p payee o fee];
  sd_fee : v2tx_MinerFee txn = fee;
  sd_relay : exists set, sv_rebroadcasts s' !! V2Transaction_ID txn = Some set /\ pb_Transactions set = [txn] /\ pb_Basis set = s_Index cs }.

Lemma not_pending id : id ∉ spent_ids (tp_v2txns (m_txpool (sv_CM s))) ->
  list_find (fun pending => spends_output id pending = true) (map V2Transaction_DeepCopy (tp_v2txns (m_txpool (sv_CM s)))) = None.
Proof.
  intros Hn. apply list_find_None, Forall_forall. intros txn Ht Hsp. apply Hn. rewrite <- DeepCopy_spent. unfold spent_ids.
  apply elem_of_list_to_set, list_elem_of_In, in_flat_map. exists txn. split; [by apply list_elem_of_In|].
  unfold spends_output in Hsp. apply existsb_exists in Hsp as (i & Hi & E%bool_decide_eq_true). apply in_map_iff. by exists i.
Qed.

Lemma submit_swap_ok o txn : confirmed_inputs cs txn -> output_id o ∉ spent_ids (tp_v2txns (m_txpool (sv_CM s))) ->
  ValidateV2Transaction (NewMidState cs) txn = Ok tt -> ValidateV2Transaction ms txn = Ok tt ->
  exists s', submit_swap os cs (output_id o) txn s = (s', Ok (V2Transaction_ID txn)) /\
    is_Some (tp_indices (m_txpool (sv_CM s')) !! V2Transaction_ID txn) /\
    (sv_CM s' = sv_CM s \/ tp_v2txns (m_txpool (sv_CM s')) = tp_v2txns (m_txpool (sv_CM s)) ++ [txn]) /\
    exists set, sv_rebroadcasts s' !! V2Transaction_ID txn = Some set /\ pb_Transactions set = [txn] /\ pb_Basis set = s_Index cs.
Proof.
  intros Hc Hn Hv0 Hv. unfold submit_swap. cbv zeta. erewrite bind_ok by eapply rest_pool, Hw. rewrite (not_pending _ Hn). cbn [fmap option_fmap option_map].
  erewrite bind_ok by eapply rest_TipState, Hw. rewrite (bind_ok _ _ s s [txn]).
  2:{ apply query_rest; [apply Hw|]. unfold UpdateV2TransactionSet. by rewrite bool_decide_eq_true_2. }
  destruct (accept_one (sv_CM s) p ms txn (rw_pool _ _ _ _ _ Hw) Hc Hv0 Hv) as (m' & known & Ea & Et & Hin & Hadd).
  rewrite (bind_ok _ _ s (with_CM s m' []) known).
  2:{ unfold cm_AddV2PoolTransactions. erewrite bind_ok by (apply call_rest; [apply Hw|exact Ea]). done. }
  destruct (remember_one (os_disk os) (os_now os) (s_Index cs) txn (with_CM s m' [])) as (s2 & r & Er & Hp & E1 & E2 & E3 & E4).
  assert (exists s3, keep_pending os (s_Index cs) [txn] (with_CM s m' []) = (s3, Ok tt) /\ sv_CM s3 = sv_CM s2 /\ sv_rebroadcasts s3 = sv_rebroadcasts s2)
    as (s3 & Es & F1 & F2) by (unfold keep_pending; rewrite (bind_ok _ _ _ _ _ Er); destruct r; by eexists).
  rewrite (bind_ok _ _ _ _ _ Es). exists s3. rewrite F1, F2, E1, E4. cbn [with_CM sv_CM sv_rebroadcasts].
  split_and!; [done|done|destruct Hadd as [->|?]; [by left|by right]|]. rewrite lookup_insert_eq. eexists. split_and!; [done| |done].
  cbn [pb_Transactions]. by rewrite (DeepCopy_own _ _ Hc).
Qed.

Context (utxos : list UnspentSiacoinElement) (request : AtomicSwapSpendRequest) (claim : bool) (swap : QdayAtomicSwap)
  (o : UnspentSiacoinElement) (fee : Currency) (self : Address).
Context (Hst : settleable utxos request claim swap o fee) (Hself : Swap_Address swap = Ok self) (Hindex : WalletIndexSpec index cs self utxos).

Lemma witness_base ms1 ms2 h w : ms_base ms1 = ms_base ms2 -> witness_for ms1 self median h w -> witness_for ms2 self median h w.
Proof. intros E []. split; [done|by rewrite <- E|by rewrite <- E|done]. Qed.

Lemma sign_swap_ok ctx txn : not_cancelled ctx -> swap_transaction cs payee (Some o) fee = Ok txn ->
  exists n w ctx', sign_swap (os_work os) ctx cs txn swap keys request claim = Ok (signed txn swap_envelope n w, ctx') /\ is_u64 n /\
    worked cs txn swap_envelope n /\ witness_for (NewMidState cs) self median (InputSigHash cs (signed txn swap_envelope n w)) w.
Proof.
  intros Hctx Htxn. destruct (contract_swap_inv _ _ (st_contract _ _ _ _ _ _ Hst)) as (Hv & K1 & K2 & Hl). pose proof (st_active _ _ _ _ _ _ Hst) as Ha.
  pose proof Hw as [_ _ Hpool _ _ Hheight Hscheme Hpub Hpayee]. pose proof (fp_state _ _ _ Hpool : qday_state cs p) as Hq.
  assert (wallet_output cs self o) as Ho.
  { pose proof (wi_outputs (WalletIndexSpec := Hindex)) as H. rewrite Forall_forall in H. apply H, Hst. }
  destruct (swap_transaction_ok cs p Hq Hheight payee self Hpayee o fee Ho (proj2 (st_fee _ _ _ _ _ _ Hst)) (st_covers _ _ _ _ _ _ Hst))
    as (txn0 & E & _ & _ & _ & _ & Hdata & Hlen). rewrite Htxn in E. injection E as <-.
  assert (envelope_ok swap_envelope) as He by (split; try done; split; [done|by apply (Forall_replicate _ 32 0)]).
  destruct (Prepare_ok (os_work os) ctx cs txn swap_envelope Hdata He Hctx) as (txn1 & ctx1 & Hp & _).
  { intros Hact. assert (exists intent, QdayWorkIntent cs txn = Ok intent) as [intent Hi] by (unfold QdayWorkIntent; rewrite (qs_net _ _ Hq); by eexists).
    destruct (st_work _ _ _ _ _ _ Hst txn intent Hact Htxn Hi) as (k & Hk & Hk'). exists p, intent, k. split_and!; [apply Hq|done|done|done]. }
  destruct (Prepare_inv _ _ _ _ _ _ swap_envelope Hdata He Hp) as (n & -> & Hn & Hwork). set (txn1 := set_ArbitraryData _ _) in *.
  pose proof (st_party _ _ _ _ _ _ Hst) as Hparty. destruct (v2tx_SiacoinInputs txn) as [|i [|? ?]] eqn:Ei; try done.
  assert (forall w, InputSigHash cs (signed txn swap_envelope n w) = InputSigHash cs txn1) as Hh by (intros w; exact (witness_sigHash cs txn1 w)).
  unfold sign_swap. destruct claim.
  - destruct Hparty as (Hk & secret & Es & Hsec). rewrite Es. cbn [mbind outcome_bind]. apply lower_hex32_exact in Es as (_ & Ls & _).
    destruct (claim_witness (NewMidState cs) median keys swap self Hscheme Hpub Hv K1 K2 Hl Hself Ha (InputSigHash cs txn1) secret Hk Ls Hsec) as (w & Ew & Hwit).
    unfold SignAtomicSwapClaim. rewrite Ei, Hp. cbn [mbind outcome_bind]. rewrite Ew. cbn [mbind outcome_bind].
    exists n, w, ctx1. split_and!; [done|done|done|]. by rewrite Hh.
  - destruct Hparty as (Hk & Es & Hr). rewrite Es, (proj2 (Z.ltb_ge _ _) Hr). cbn [fail_if mbind outcome_bind].
    rewrite (bool_decide_eq_true_2 ([] = [])) by done. cbn [negb fail_if mbind outcome_bind].
    destruct (refund_witness (NewMidState cs) median keys swap self Hscheme Hpub Hv K1 K2 Hl Hself Ha (InputSigHash cs txn1) Hk Hr) as (w & Ew & Hwit).
    unfold SignAtomicSwapRefund. rewrite Ei, Hp. cbn [mbind outcome_bind]. rewrite Ew. cbn [mbind outcome_bind].
    exists n, w, ctx1. split_and!; [done|done|done|]. by rewrite Hh.
Qed.

Lemma swap_address_length : length self = 32%nat.
Proof. unfold Swap_Address in Hself. destruct (Swap_Policy swap) as [q| |] eqn:E; [|done|done]. unfold Swap_Policy in E. ok_step E. injection E as <-.
  injection Hself as <-. apply blake2b_len. Qed.

Lemma spend_settles ctx : not_cancelled ctx ->
  exists s' txn, spendAtomicSwap index os ctx request claim s = (s', Ok (V2Transaction_ID txn)) /\ settled o fee s' txn.
Proof.
  intros Hctx. pose proof Hw as [_ Hkeys Hpool Hmed Hallow Hheight Hscheme Hpub Hpayee]. pose proof (fp_state _ _ _ Hpool : qday_state cs p) as Hq.
  pose proof Hst as [Hc [Hfee Hfok] Hout Hlisted Hfree Hpages Hact Hcov Hparty _].
  assert (wallet_output cs self o) as Ho.
  { pose proof (wi_outputs (WalletIndexSpec := Hindex)) as H. rewrite Forall_forall in H. by apply H. }
  pose proof (wi_unspent (WalletIndexSpec := Hindex) o Hlisted) as Huns.
  unfold spendAtomicSwap. destruct (poll_live ctx Hctx) as (ctx1 & -> & Hctx1).
  rewrite (bind_ok (lift _) _ s s swap) by (unfold lift; by rewrite Hc). rewrite (bind_ok (lift _) _ s s fee) by (unfold lift; by rewrite Hfee).
  rewrite (bind_ok (lift _) _ s s (output_id o)) by (unfold lift; by rewrite Hout).
  rewrite (bind_ok (gets sv_keys) _ s s (Some keys)) by (unfold gets; by rewrite Hkeys).
  rewrite (bind_ok (lift _) _ s s tt) by (unfold lift; destruct claim; [by rewrite (proj1 Hparty), bool_decide_eq_true_2|done]).
  rewrite (bind_ok (lift _) _ s s tt) by (unfold lift; destruct claim; [done|by rewrite (proj1 Hparty), bool_decide_eq_true_2]).
  erewrite bind_ok by eapply rest_TipState, Hw. fold (childHeight cs). rewrite (bind_ok (lift _) _ s s tt) by (unfold lift; by rewrite Hact).
  rewrite (bind_ok (lift _) _ s s self) by (unfold lift; by rewrite Hself).
  rewrite (bind_ok (lift _) _ s s (Some o)) by (unfold lift; by rewrite (find_output_listed index cs self utxos Hindex)).
  destruct (swap_transaction_ok cs p Hq Hheight payee self Hpayee o fee Ho Hfok Hcov) as (txn & Htxn & Hin & Houts & Hmf & Hplain & _ & _).
  change (SpendPolicy_Address (QdayKeys_Policy (qp_Public keys))) with payee.
  rewrite (bind_ok (lift _) _ s s txn) by (unfold lift; by rewrite Htxn).
  destruct (sign_swap_ok ctx1 txn Hctx1 Htxn) as (n & w & ctx2 & Hsign & Hn & Hwork & Hwit).
  rewrite (bind_ok (lift _) _ s s (signed txn swap_envelope n w, ctx2)) by (unfold lift; by rewrite Hsign). cbv beta iota.
  pose proof (fresh_run _ _ _ Hpool) as Hrun. pose proof (run_base _ _ _ _ Hrun) as Hbase.
  assert (forall ms', ms_base ms' = cs -> ms_isSpent ms' (output_id o) = false -> ValidateV2Transaction ms' (signed txn swap_envelope n w) = Ok tt) as Hvalid.
  { intros ms' Hb Hf. pose proof (swap_ready cs p Hq Hheight payee self Hpayee o fee Ho Hfok Huns Hcov ms' txn Hb Hf Htxn) as Hr.
    pose proof (witness_base (NewMidState cs) ms' _ w ltac:(by rewrite Hb) Hwit) as Hwit'. rewrite <- Hb in Hq, Hmed, Hallow, Hwork, Hwit'.
    apply (signed_valid ms' p self Hq median Hmed swap_address_length Hallow txn swap_envelope n w Hr Hn Hwit').
    apply worked_signed; [apply Hr|done]. }
  assert (ms_isSpent ms (output_id o) = false) as Hunspent.
  { apply bool_decide_eq_false_2. intros Hid. apply Hfree. by eapply run_spends. }
  destruct (submit_swap_ok o (signed txn swap_envelope n w)) as (s' & Ed & Hinp & Hadd & Hset); [|done|by apply Hvalid|by apply Hvalid|].
  - assert (forall i, i ∈ v2tx_SiacoinInputs (signed txn swap_envelope n w) -> v2sci_Parent i = element_of o) as Hpar.
    { intros i Hi. apply (list_elem_of_fmap_2 v2sci_Parent) in Hi. change (fmap v2sci_Parent) with (map v2sci_Parent) in Hi.
      rewrite signed_parents, Hin in Hi. by apply list_elem_of_singleton in Hi. }
    split; [exact Hplain| | |]; intros i Hi; rewrite (Hpar i Hi); [apply Ho|apply Ho|done].
  - exists s', (signed txn swap_envelope n w). split; [exact Ed|]. split; try done; [by apply Hvalid|by rewrite signed_parents].
Qed.
End Settle.

(** C13: the swap of a party is settled.  On a node at rest whose next block is under the version 1
    rules, for an unlocked wallet that is the
    recipient of an atomic swap and knows its secret, or the owner of its refund once the refund
    height is reached, [spendAtomicSwap] succeeds on every confirmed output of the contract that no
    pending transaction spends and whose decayed value exceeds the fee, if its work, once required, is found
    within the tries.  The transaction it returns is
    in the pool, passes [ValidateV2Transaction] there, spends this output and nothing else, pays its
    decayed value less the fee to the wallet, and is kept for relaying. *)
Theorem swap_reaches_pool {crypto : Crypto} {sizes : CryptoSizes} {edwards : Edwards25519} {St : Type} {store : Store St} {order : GoOrder}
    (index : Address -> Z -> Z -> outcome (list UnspentSiacoinElement * ChainIndex)) os s p ms median keys utxos request claim swap o fee self ctx :
  ready_wallet s p ms median keys -> settleable os s p keys utxos request claim swap o fee -> Swap_Address swap = Ok self ->
  WalletIndexSpec index (TipState (sv_CM s)) self utxos -> not_cancelled ctx ->
  exists s' txn, spendAtomicSwap index os ctx request claim s = (s', Ok (V2Transaction_ID txn)) /\ settled s p ms keys o fee s' txn.
Proof. intros Hw Hst Hself Hi Hctx. by eapply spend_settles. Qed.

Module SampleSwap.
Import SampleChain SampleStore.
#[local] Existing Instances Sample.crypto SampleChain.edwards stable_order.

Definition address : Address := Eval vm_compute in match Swap_Address ex_swap with Ok a => a | _ => [] end.
Definition coin : SiacoinElement :=
  {| sce_ID := replicate 32 8; sce_StateElement := {| se_LeafIndex := 0; se_MerkleProof := []; se_shared := false |};
     sce_SiacoinOutput := {| sco_Value := coins 500; sco_Address := address |}; sce_MaturityHeight := 0 |}.
Definition utxo : UnspentSiacoinElement := {| use_SiacoinElement := coin; use_Confirmations := 1 |}.
Definition elements : ElementAccumulator := Eval vm_compute in
  fst (fst (addLeaves emptyAccumulator [siacoinLeaf RefLocal coin false])).
(** The sample chain at the last height before the version 1 rules, with the coin unspent. *)
Definition swap_tip : State :=
  {| s_QdayHeight := 0; s_Network := network; s_Index := {| ci_Height := QdayV1ActivationHeight - 1; ci_ID := gid |};
     s_PrevTimestamps := replicate 11 timestamp; s_Depth := s_Depth tip; s_ChildTarget := s_ChildTarget tip;
     s_SiafundTaxRevenue := s_SiafundTaxRevenue tip; s_OakTime := s_OakTime tip; s_OakTarget := s_OakTarget tip;
     s_FoundationSubsidyAddress := s_FoundationSubsidyAddress tip; s_FoundationManagementAddress := s_FoundationManagementAddress tip;
     s_TotalWork := s_TotalWork tip; s_Difficulty := s_Difficulty tip; s_OakWork := s_OakWork tip;
     s_Elements := elements; s_Attestations := 0 |}.
Definition store : SampleStore.t := {| states := {[ gid := swap_tip ]}; headers := ∅; blocks := ∅; best := {[ ci_Height (s_Index swap_tip) := gid ]} |}.
Definition manager : Manager SampleStore.t := set_pool (NewManager store swap_tip ∅) (tp_setTxns empty_pool [] [] ∅ (Some (NewMidState swap_tip)) 0).
Definition service : Service SampleStore.t := mkService _ manager [] (Some keys) owner "" "" ∅ false None ∅ None None.
Definition index (a : Address) (offset limit : Z) : outcome (list UnspentSiacoinElement * ChainIndex) :=
  Ok (take (Z.to_nat limit) (drop (Z.to_nat offset) [utxo]), s_Index swap_tip).
Definition request : AtomicSwapSpendRequest :=
  {| asr_Contract := {| asc_Recipient := atomicSwapKeys (sw_Recipient ex_swap); asc_Refund := atomicSwapKeys (sw_Refund ex_swap);
                        asc_SecretHash := hex_EncodeToString (sw_SecretHash ex_swap); asc_RefundHeight := 100 |};
     asr_Output := hex_EncodeToString (replicate 32 8); asr_FeeAtomic := str_bytes "7"; asr_Secret := hex_EncodeToString ex_secret |}.

Lemma swap_ready_wallet : ready_wallet service params (NewMidState swap_tip) timestamp keys.
Proof.
  split; [done|done|..].
  - split; [split; [reflexivity|apply launchParams_schedule|by vm_compute]|done|done|..].
    + split; [exists []; split_and!; [constructor|done|done]|apply indexed_empty].
    + done.
    + change (Ok (states store !! gid) = Ok (Some swap_tip)). apply f_equal. exact (lookup_singleton_eq (M := gmap BlockID) gid swap_tip).
    + by vm_compute.
  - vm_cast_no_check (eq_refl (Ok timestamp : outcome Time)).
  - apply Z.leb_le. vm_cast_no_check (eq_refl true).
  - split; vm_compute; done.
  - rewrite SampleWallet.keys_seed. apply sample_scheme_correct.
  - exact keys_ok.
  - by rewrite SampleWallet.owner_address.
Qed.
Lemma swap_index : WalletIndexSpec index (TipState (sv_CM service)) address [utxo].
Proof.
  change (TipState (sv_CM service)) with swap_tip. split.
  - done.
  - constructor; [|constructor]. split; [|done|by vm_compute|done|done|done].
    split; [apply currency_okb_ok; reflexivity|done].
  - intros o ->%list_elem_of_singleton. vm_cast_no_check (eq_refl true).
  - apply NoDup_singleton.
  - apply Z.ltb_lt. vm_cast_no_check (eq_refl true).
Qed.
Lemma swap_settleable : settleable SampleWallet.outside service params keys [utxo] request true ex_swap utxo (Currency.of_Z 7).
Proof.
  split.
  - vm_cast_no_check (eq_refl (Ok ex_swap)).
  - split; [vm_cast_no_check (eq_refl (Ok (Currency.of_Z 7)))|apply Currency.of_Z_ok].
  - vm_cast_no_check (eq_refl (Ok (replicate 32 8))).
  - left.
  - apply not_elem_of_empty.
  - cbn. lia.
  - vm_cast_no_check (eq_refl true).
  - apply Z.ltb_lt. vm_cast_no_check (eq_refl true).
  - split; [by rewrite SampleWallet.keys_seed|]. exists ex_secret. split; [vm_cast_no_check (eq_refl (Ok ex_secret))|reflexivity].
  - intros txn intent Hact. discriminate Hact.
Qed.
End SampleSwap.

#[local] Existing Instances SampleStore.memory_store SampleStore.sample_sizes.
Lemma swap_reaches_pool_witness : exists s' txn,
  spendAtomicSwap (crypto := Sample.crypto) (edwards := SampleChain.edwards) (order := stable_order) SampleSwap.index SampleWallet.outside
    [] SampleSwap.request true SampleSwap.service = (s', Ok (V2Transaction_ID (crypto := Sample.crypto) txn)) /\
  settled (crypto := Sample.crypto) (edwards := SampleChain.edwards) SampleSwap.service SampleChain.params
    (NewMidState SampleSwap.swap_tip) SampleChain.keys SampleSwap.utxo (Currency.of_Z 7) s' txn.
Proof.
  exact (swap_reaches_pool (crypto := Sample.crypto) (edwards := SampleChain.edwards) (order := stable_order) SampleSwap.index
    SampleWallet.outside SampleSwap.service SampleChain.params (NewMidState SampleSwap.swap_tip) SampleChain.timestamp SampleChain.keys
    [SampleSwap.utxo] SampleSwap.request true ex_swap SampleSwap.utxo (Currency.of_Z 7) SampleSwap.address []
    SampleSwap.swap_ready_wallet SampleSwap.swap_settleable eq_refl SampleSwap.swap_index ltac:(constructor)).
Defined.
