(* ===== verification/GatewaySpec.v ===== *)
(** * Block outlines and messages arrive as they were sent

    An outline stands for one block: with any choice of transactions left out it has the
    identifier of the block, completing it gives the block back, and its wire format
    round-trips. *)
From stdpp Require Import prelude strings gmap.
From Stdlib Require Import ZArith Lia.
From S2P Require Import Prelude TypesCurrency TypesData TypesEncoding TypesCodec TypesHash TypesMultiproof TypesMultiproofSpec.
From S2P Require Import TypesBlockCodecSpec TypesDecodeSpec.
From S2P Require Import ConsensusWork ConsensusState ConsensusQday ConsensusQdaySpec ConsensusMidState ConsensusValidateV1 ConsensusValidate.
From S2P Require Import ConsensusValidateSpec ConsensusBlockSpec ConsensusPanicSpec.
From S2P Require Import ConsensusCodec ChainStore ChainStoreSpec Gateway SampleCrypto SampleChain.

Section Outline.
Context {crypto : Crypto}.

(** ** What an outline stands for *)
Definition full_outline (b : Block) : list OutlineTransaction := map outline_txn (b_Transactions b) ++ map outline_v2txn (V2Transactions b).
Record outlines (b : Block) (bo : V2BlockOutline) : Prop := {
  ol_v2 : exists v2, b_V2 b = Some v2 /\ v2b_Height v2 = bo_Height bo;
  ol_parent : bo_ParentID bo = b_ParentID b; ol_nonce : bo_Nonce bo = b_Nonce b; ol_time : bo_Timestamp bo = b_Timestamp b;
  ol_payout : exists payout, b_MinerPayouts b = [payout] /\ sco_Address payout = bo_MinerAddress bo;
  ol_txns : Forall2 (fun f t => t = f \/ t = omit f) (full_outline b) (bo_Transactions bo) }.

(** The block commits to its transactions on the state [cs]. *)
Definition committed (cs : State) (b : Block) : Prop := forall payout v2, b_MinerPayouts b = [payout] -> b_V2 b = Some v2 ->
  v2b_Commitment v2 = Commitment cs (sco_Address payout) (b_Transactions b) (V2Transactions b).

Lemma full_hashes b : map ot_Hash (full_outline b) = map Transaction_MerkleLeafHash (b_Transactions b) ++ map V2Transaction_MerkleLeafHash (V2Transactions b).
Proof. unfold full_outline. by rewrite map_app, !map_map. Qed.
Lemma outline_hashes b bo : outlines b bo -> map ot_Hash (bo_Transactions bo) = map ot_Hash (full_outline b).
Proof. intros H. induction (ol_txns _ _ H) as [|f t l l' [-> | ->] _ IH]; cbn; by rewrite ?IH. Qed.
Lemma outline_commits cs b bo : outlines b bo -> committed cs b -> exists v2, b_V2 b = Some v2 /\ outline_commitment bo cs = v2b_Commitment v2.
Proof.
  intros H Hc. destruct (ol_v2 _ _ H) as (v2 & E & _), (ol_payout _ _ H) as (payout & Ep & Ea). exists v2. split; [done|].
  rewrite (Hc payout v2 Ep E). unfold outline_commitment, Commitment. by rewrite (outline_hashes b bo H), full_hashes, Ea.
Qed.
Lemma outline_has_ID cs b bo : outlines b bo -> committed cs b -> outline_ID bo cs = Block_ID b.
Proof.
  intros H Hc. destruct (outline_commits cs b bo H Hc) as (v2 & E & Ec). unfold outline_ID, Block_ID, Block_Header.
  by rewrite E, Ec, (ol_parent _ _ H), (ol_nonce _ _ H), (ol_time _ _ H).
Qed.

Lemma RemoveTransactions_outlines b bo txns v2txns : outlines b bo -> outlines b (RemoveTransactions bo txns v2txns).
Proof.
  intros []. split; try done. cbn [RemoveTransactions set_transactions bo_Transactions].
  induction ol_txns0 as [|f t l l' Ht _ IH]; constructor; [|done]. destruct (bool_decide _); [right|done]. by destruct Ht as [-> | ->].
Qed.
Lemma OutlineBlock_outlines b v2 payout txns v2txns : b_V2 b = Some v2 -> b_MinerPayouts b = [payout] ->
  exists bo, OutlineBlock b txns v2txns = Ok bo /\ outlines b bo.
Proof.
  intros E Ep. unfold OutlineBlock. rewrite E, Ep. eexists. split; [done|]. apply RemoveTransactions_outlines.
  split; cbn; eauto. unfold full_outline, V2Transactions. rewrite E. apply Forall2_same_length_lookup_2; [done|].
  intros i x y Hx Hy. left. congruence.
Qed.

(** ** Completing *)

(** The supplied transactions include no stranger with the hash of one of the block's. *)
Record faithful (b : Block) (txns : list Transaction) (v2txns : list V2Transaction) : Prop := {
  ff_v1 : forall x f, x ∈ txns -> f ∈ full_outline b -> Transaction_MerkleLeafHash x = ot_Hash f -> f = outline_txn x;
  ff_v2 : forall x f, x ∈ v2txns -> f ∈ full_outline b -> V2Transaction_MerkleLeafHash x = ot_Hash f -> f = outline_v2txn x }.

Lemma by_hash_lookup {A} (hash : A -> Hash256) l h x : by_hash hash l !! h = Some x -> x ∈ l /\ hash x = h.
Proof.
  unfold by_hash. induction l as [|y l IH] using rev_ind; [done|]. rewrite foldl_snoc. intros [[<- <-]|[_ H]]%lookup_insert_Some.
  - split; [set_solver|done].
  - destruct (IH H). split; [set_solver|done].
Qed.
Lemma by_hash_some {A} (hash : A -> Hash256) l x : x ∈ l -> is_Some (by_hash hash l !! hash x).
Proof.
  unfold by_hash. induction l as [|y l IH] using rev_ind; [by intros ?%not_elem_of_nil|]. rewrite foldl_snoc.
  intros Hx. destruct (decide (hash y = hash x)) as [->|Hne]; [rewrite lookup_insert_eq; by eexists|].
  rewrite lookup_insert_ne by done. apply IH. apply elem_of_app in Hx as [Hx|Hx]; [done|]. apply list_elem_of_singleton in Hx. congruence.
Qed.

Abbreviation fill_from txns v2txns := (fill (by_hash Transaction_MerkleLeafHash txns) (by_hash V2Transaction_MerkleLeafHash v2txns)).
Lemma full_cases b f : f ∈ full_outline b -> (exists x, f = outline_txn x) \/ (exists x, f = outline_v2txn x).
Proof. unfold full_outline. intros [H|H]%elem_of_app; apply list_elem_of_fmap in H as (x & -> & _); eauto. Qed.
Lemma fill_one b txns v2txns f t : faithful b txns v2txns -> f ∈ full_outline b -> t = f \/ t = omit f ->
  fill_from txns v2txns t = f \/ fill_from txns v2txns t = omit f.
Proof.
  intros [F1 F2] Hf Ht. assert (omitted f = false) as Ho by (destruct (full_cases b f Hf) as [[x ->]|[x ->]]; done).
  destruct Ht as [-> | ->]; unfold fill; [rewrite Ho; by left|]. cbn [omitted omit ot_Hash ot_Transaction ot_V2Transaction].
  destruct (by_hash Transaction_MerkleLeafHash txns !! ot_Hash f) as [x|] eqn:E1.
  - apply by_hash_lookup in E1 as [Hx Eh]. pose proof (F1 x f Hx Hf Eh) as ->. left.
    destruct (by_hash V2Transaction_MerkleLeafHash v2txns !! _) as [y|] eqn:E2; [|done].
    apply by_hash_lookup in E2 as [Hy Eh']. by pose proof (F2 y _ Hy Hf Eh').
  - destruct (by_hash V2Transaction_MerkleLeafHash v2txns !! ot_Hash f) as [y|] eqn:E2; [left|by right].
    apply by_hash_lookup in E2 as [Hy Eh]. by pose proof (F2 y f Hy Hf Eh) as ->.
Qed.
(** A transaction of the block that is supplied is filled in. *)
Definition supplied (f : OutlineTransaction) (txns : list Transaction) (v2txns : list V2Transaction) : Prop :=
  (exists x, f = outline_txn x /\ x ∈ txns) \/ (exists x, f = outline_v2txn x /\ x ∈ v2txns).
Lemma fill_supplied b txns v2txns f t : faithful b txns v2txns -> f ∈ full_outline b -> t = f \/ t = omit f -> supplied f txns v2txns ->
  fill_from txns v2txns t = f.
Proof.
  intros Hff Hf Ht Hs. destruct (fill_one b txns v2txns f t Hff Hf Ht) as [?|E]; [done|]. exfalso.
  assert (omitted t = true) as Ho.
  { destruct (omitted t) eqn:Eo; [done|]. unfold fill in E. rewrite Eo in E. by rewrite E in Eo. }
  unfold fill in E. rewrite Ho in E. injection E as _ E1 E2. assert (ot_Hash t = ot_Hash f) as Eh by by destruct Ht as [-> | ->].
  rewrite Eh in E1, E2. destruct Hs as [(x & -> & Hx)|(x & -> & Hx)];
    apply (by_hash_some Transaction_MerkleLeafHash) in Hx as [y Hy] || apply (by_hash_some V2Transaction_MerkleLeafHash) in Hx as [y Hy];
    cbn [outline_txn outline_v2txn ot_Hash] in E1, E2; congruence.
Qed.

Lemma Forall2_map_r {A B} (P Q : A -> B -> Prop) (g : B -> B) l l' : Forall2 P l l' ->
  (forall x y, x ∈ l -> P x y -> Q x (g y)) -> Forall2 Q l (map g l').
Proof.
  induction 1 as [|x y l l' H _ IH]; intros Hg; constructor; [apply Hg; [left|done]|]. apply IH. intros a c Ha. apply Hg. by right.
Qed.
Lemma fill_outlines b bo txns v2txns : outlines b bo -> faithful b txns v2txns ->
  outlines b (set_transactions bo (map (fill_from txns v2txns) (bo_Transactions bo))).
Proof.
  intros [] Hff. split; try done. eapply Forall2_map_r; [done|]. intros f t Hf Ht. by eapply fill_one.
Qed.

Lemma Missing_nil b bo : outlines b bo -> Missing bo = [] -> bo_Transactions bo = full_outline b.
Proof.
  intros H Hm. unfold Missing in Hm. pose proof (ol_txns _ _ H) as Ht. revert Hm.
  induction Ht as [|f t l l' [-> | ->] _ IH]; [done|..].
  - rewrite filter_cons. destruct (decide _); [done|]. intros Hm. by rewrite (IH Hm).
  - by rewrite filter_cons_True.
Qed.
Lemma Missing_supplied b bo txns v2txns : outlines b bo -> faithful b txns v2txns ->
  (forall f, f ∈ full_outline b -> ot_Hash f ∈ Missing bo -> supplied f txns v2txns) ->
  map (fill_from txns v2txns) (bo_Transactions bo) = full_outline b.
Proof.
  intros H Hff Hs. pose proof (ol_txns _ _ H) as Ht. unfold Missing in Hs.
  assert (forall f t, f ∈ full_outline b -> t ∈ bo_Transactions bo -> t = f \/ t = omit f -> fill_from txns v2txns t = f) as Hfill.
  { intros f t Hf Hin Ho. destruct (omitted t) eqn:E.
    - eapply fill_supplied; [done|done|done|]. apply Hs; [done|]. apply list_elem_of_fmap. exists t. split; [by destruct Ho as [-> | ->]|].
      by apply list_elem_of_filter.
    - unfold fill. rewrite E. destruct Ho as [?|Ho]; [done|]. by rewrite Ho in E. }
  clear Hs. revert Hfill. induction Ht as [|f t l l' Hft _ IH]; intros Hfill; [done|]. cbn [map]. f_equal.
  - apply Hfill; [left|left|done].
  - apply IH. intros f' t' Hf' Ht'. apply Hfill; by right.
Qed.

(** Nothing goes missing. *)
Lemma Missing_fill bo v1hashes v2hashes : (length (Missing (set_transactions bo (map (fill v1hashes v2hashes) (bo_Transactions bo)))) <= length (Missing bo))%nat.
Proof.
  unfold Missing. cbn [set_transactions bo_Transactions]. rewrite !length_map. induction (bo_Transactions bo) as [|t l IH]; [done|]. cbn [map].
  rewrite !filter_cons. destruct (decide (omitted t = true)) as [Ho|Ho]; [destruct (decide _); cbn [length]; lia|].
  apply not_true_iff_false in Ho. assert (omitted (fill v1hashes v2hashes t) <> true) as Hf by (unfold fill; rewrite Ho; congruence).
  by rewrite decide_False.
Qed.

(** *** The payout *)
Definition outline_fee (t : OutlineTransaction) : Currency :=
  match ot_Transaction t, ot_V2Transaction t with Some x, _ => TotalFees x | None, Some x => v2tx_MinerFee x | None, None => Currency.ZeroCurrency end.
Abbreviation fees l := (sum_Z (map (fun t => Currency.val (outline_fee t)) l)).
(** The miner is paid the reward and the fees. *)
Record paid (cs : State) (b : Block) (payout : SiacoinOutput) (reward : Currency) : Prop := {
  pd_reward : BlockReward cs = Ok reward /\ Currency.ok reward;
  pd_payout : b_MinerPayouts b = [payout] /\ Currency.ok (sco_Value payout);
  pd_fees : forall f, f ∈ full_outline b -> Currency.ok (outline_fee f);
  pd_sum : Currency.val (sco_Value payout) = Currency.val reward + fees (full_outline b) }.

Lemma complete_loop l : forall i txs v2s value, Currency.ok value -> (forall t, t ∈ l -> Currency.ok (outline_fee t)) ->
  Currency.val value + fees l < two128 ->
  for_each l i (txs, v2s, value) (fun _ t acc => complete_step t acc) =
  Ok (txs ++ outline_v1s l, v2s ++ outline_v2s l, Currency.of_Z (Currency.val value + fees l)).
Proof.
  induction l as [|t l IH]; intros i txs v2s value Hv Hf Hlt; cbn [for_each].
  { cbn. rewrite !app_nil_r, Z.add_0_r. by rewrite Currency.of_Z_val. }
  pose proof (Hf t ltac:(left)) as Ht. pose proof (Currency.ok_val _ Ht). pose proof (Currency.ok_val _ Hv).
  assert (0 <= fees l) as Hl by (apply (sum_Z_nonneg (fun t => Currency.val (outline_fee t))); intros x Hx; apply Currency.ok_val, Hf; by right).
  unfold sum_Z in *. cbn [map foldr] in Hlt |- *.
  assert (complete_step t (txs, v2s, value) = Ok (txs ++ outline_v1s [t], v2s ++ outline_v2s [t], Currency.of_Z (Currency.val value + Currency.val (outline_fee t)))) as ->.
  { unfold complete_step, outline_fee, outline_v1s, outline_v2s in *. cbn [omap list_omap]. destruct (ot_Transaction t) as [x|]; [|destruct (ot_V2Transaction t) as [x|]].
    1,2: rewrite Currency.Add_ok by (done || lia); by rewrite ?app_nil_r.
    change (Currency.val Currency.ZeroCurrency) with 0. by rewrite Z.add_0_r, Currency.of_Z_val, !app_nil_r. }
  cbn [mbind outcome_bind]. rewrite IH.
  - rewrite <- !app_assoc, Currency.val_of_Z, Z.add_assoc by lia. do 2 f_equal. f_equal; f_equal; unfold outline_v1s, outline_v2s; cbn [omap list_omap].
    + by destruct (ot_Transaction t).
    + by destruct (ot_Transaction t), (ot_V2Transaction t).
  - apply Currency.of_Z_ok.
  - intros x Hx. apply Hf. by right.
  - rewrite Currency.val_of_Z by lia. lia.
Qed.

Lemma outline_fees b bo : outlines b bo -> (forall f, f ∈ full_outline b -> Currency.ok (outline_fee f)) ->
  (forall t, t ∈ bo_Transactions bo -> Currency.ok (outline_fee t)) /\ fees (bo_Transactions bo) <= fees (full_outline b).
Proof.
  intros H. pose proof (ol_txns _ _ H) as Ht. induction Ht as [|f t l l' Hft _ IH]; intros Hok; [split; [by intros t ?%not_elem_of_nil|done]|].
  destruct IH as [IH1 IH2]; [intros x Hx; apply Hok; by right|]. pose proof (Hok f ltac:(left)) as Hf. pose proof (Currency.ok_val _ Hf).
  unfold sum_Z in *. cbn [map foldr]. destruct Hft as [-> | ->].
  - split; [|lia]. intros t [->|Ht]%elem_of_cons; auto.
  - change (outline_fee (omit f)) with Currency.ZeroCurrency. change (Currency.val Currency.ZeroCurrency) with 0.
    split; [|lia]. intros t [->|Ht]%elem_of_cons; [apply Currency.zero_ok|auto].
Qed.
Lemma full_parts b : outline_v1s (full_outline b) = b_Transactions b /\ outline_v2s (full_outline b) = V2Transactions b.
Proof.
  unfold full_outline, outline_v1s, outline_v2s. rewrite !omap_app. split.
  - replace (omap ot_Transaction (map outline_v2txn (V2Transactions b))) with (@nil Transaction) by (by induction (V2Transactions b)).
    rewrite app_nil_r. induction (b_Transactions b) as [|x l IH]; [done|]. cbn. by f_equal.
  - match goal with |- ?a ++ ?c = _ => replace a with (@nil V2Transaction) by (by induction (b_Transactions b)) end.
    cbn [app]. induction (V2Transactions b) as [|x l IH]; [done|]. cbn. by f_equal.
Qed.

(** Completing an outline never panics, gives an outline of the same block and, once nothing is missing, the block. *)
Lemma Complete_outline cs b bo payout reward txns v2txns : outlines b bo -> committed cs b -> paid cs b payout reward -> faithful b txns v2txns ->
  exists bo' b', Complete bo cs txns v2txns = Ok (bo', (b', Missing bo')) /\ outlines b bo' /\ (Missing bo' = [] -> b' = b) /\
    (length (Missing bo') <= length (Missing bo))%nat /\
    ((forall f, f ∈ full_outline b -> ot_Hash f ∈ Missing bo -> supplied f txns v2txns) -> Missing bo' = []).
Proof.
  intros H Hc [[Hr Hrok] [Hp Hpok] Hf Hsum] Hff. pose proof (fill_outlines b bo txns v2txns H Hff) as H'.
  set (bo' := set_transactions bo _) in *. destruct (outline_fees b bo' H' Hf) as [Hok Hle]. pose proof (Currency.ok_val _ Hpok).
  unfold Complete. rewrite Hr. cbn [mbind outcome_bind]. fold bo'. rewrite complete_loop by (done || lia). cbn [mbind outcome_bind app].
  eexists bo', _. split; [done|]. split; [done|]. split; [|split; [apply Missing_fill|]].
  - intros Hm. rewrite (Missing_nil b bo' H' Hm). destruct (full_parts b) as [-> ->]. rewrite <- Hsum, (Currency.of_Z_val _ Hpok).
    destruct (outline_commits cs b bo H Hc) as (v2 & E & ->). destruct (ol_v2 _ _ H) as (v2' & E' & Eh). rewrite E in E'. injection E' as <-.
    destruct (ol_payout _ _ H) as (payout' & Ep & Ea). rewrite Hp in Ep. injection Ep as <-.
    rewrite (ol_parent _ _ H), (ol_nonce _ _ H), (ol_time _ _ H), <- Ea, <- Eh. unfold V2Transactions. rewrite E.
    destruct b, v2, payout. cbn in *. by subst.
  - intros Hs. unfold Missing, bo'. cbn [set_transactions bo_Transactions]. rewrite (Missing_supplied b bo txns v2txns H Hff Hs).
    assert (forall f, f ∈ full_outline b -> omitted f = false) as Ho by (intros f [[x ->]|[x ->]]%full_cases; done).
    clear - Ho. revert Ho. induction (full_outline b) as [|f l IH]; intros Ho; [done|]. rewrite filter_cons_False by (rewrite Ho by left; done).
    apply IH. intros g Hg. apply Ho. by right.
Qed.
End Outline.

(** ** Valid blocks *)
Section Valid.
Context {crypto : Crypto} {edwards : Edwards25519}.

Lemma valid_paid s p b bs : qday_state s p -> Currency.ok (qd_Reward p) -> 0 < childHeight s -> block_typed b -> ValidateBlock s b bs = Ok tt ->
  committed s b /\ (exists payout reward, paid s b payout reward) /\ exists v2 payout, b_V2 b = Some v2 /\ b_MinerPayouts b = [payout].
Proof.
  intros Hs Hr Hh Ht Hv. pose proof Hs as [Hn _ _].
  destruct (ValidateBlock_run _ _ _ _ Hn Hh Hv) as (Hnil & [payout Hpay] & Horph & _).
  unfold ValidateOrphan in Horph. do 2 ok_step Horph. destruct v0. pose proof (miner_payout _ _ _ Hn Hr Ht Hnil (ex_intro _ payout Hpay) E0) as Hm.
  unfold ValidateBlock in Hv. rewrite (qday_isQday _ _ Hn), (proj2 (Z.ltb_lt _ _) Hh) in Hv. cbn [andb] in Hv.
  do 5 ok_step Hv. unfold validateQdayBlockMarkers in E1. destruct (b_V2 b) as [d|] eqn:Ev2; [|done]. rewrite Hpay in E4.
  apply fail_if_ok, negb_false_iff, bool_decide_eq_true in E4. split_and!.
  - intros payout' v2' Ep Ev. rewrite Hpay in Ep. injection Ep as <-. rewrite Ev2 in Ev. by injection Ev as <-.
  - destruct (BlockReward_qday _ _ Hn Hr) as (reward & Er & Hrok & Hrv). exists payout, reward. split.
    + done.
    + split; [done|]. apply (bt_payouts _ Ht). rewrite Hpay. left.
    + intros f Hf. unfold full_outline in Hf. rewrite Hnil in Hf. cbn [map app] in Hf. apply list_elem_of_fmap in Hf as (x & -> & Hx).
      apply (bt_txns _ Ht x Hx).
    + rewrite Hpay in Hm. unfold total, values, sum_Z in *. cbn [map foldr] in Hm. unfold full_outline. rewrite Hnil, Hrv. cbn [map app].
      rewrite map_map. cbn [outline_v2txn outline_fee ot_Transaction ot_V2Transaction] in *. lia.
  - by eexists _, _.
Qed.
End Valid.

(** ** The wire format *)
Section Wire.
Context {crypto : Crypto}.

(** A transaction of an outline as it is decoded: its data with its hash, or a hash. *)
Definition wf_otxn (t : OutlineTransaction) : Prop :=
  match ot_Transaction t, ot_V2Transaction t with
  | Some x, None => wf_Transaction x /\ t = outline_txn x
  | None, Some x => wf_V2Transaction x /\ t = outline_v2txn x
  | None, None => wf_array 32 (ot_Hash t)
  | Some _, Some _ => False
  end.
Definition wf_outline (bo : V2BlockOutline) : Prop :=
  is_u64 (bo_Height bo) /\ wf_array 32 (bo_ParentID bo) /\ is_u64 (bo_Nonce bo) /\ wf_time (bo_Timestamp bo) /\
  wf_array 32 (bo_MinerAddress bo) /\ Forall wf_otxn (bo_Transactions bo).

Definition is_kind (k : Z) : Prop := 0 <= k <= 2.
#[export] Instance kind_codec : Codec is_kind WriteUint8 read_kind.
Proof.
  intros k rest N Hk HN. unfold read_kind. rewrite (codec_step is_u8); [|apply _|unfold is_kind, is_u8 in *; lia|done].
  by rewrite (proj2 (Z.ltb_ge 2 k)) by apply Hk.
Qed.
#[export] Instance kind_typed : Typed is_kind read_kind.
Proof.
  unfold read_kind. typed_field. intros d Hd. destruct (Z.ltb_spec 2 x); [done|]. split; [|done]. unfold is_u8, is_kind in *. lia.
Qed.

Abbreviation hashes_of l := (map ot_Hash (filter (fun t => omitted t = true) l)).
Definition parts (t : OutlineTransaction) : list Transaction * list V2Transaction * list Hash256 :=
  (outline_v1s [t], outline_v2s [t], hashes_of [t]).
Lemma parts_cons t l : let '(a, c, h) := parts t in
  outline_v1s (t :: l) = a ++ outline_v1s l /\ outline_v2s (t :: l) = c ++ outline_v2s l /\ hashes_of (t :: l) = h ++ hashes_of l.
Proof.
  unfold parts. split_and!; [exact (omap_app _ [t] l)|exact (omap_app _ [t] l)|by rewrite <- map_app, <- (filter_app _ [t])].
Qed.
(** The three kinds. *)
Lemma otxn_cases t : wf_otxn t ->
  (exists x, t = outline_txn x /\ wf_Transaction x /\ parts t = ([x], [], []) /\ outline_kind t = 0) \/
  (exists x, t = outline_v2txn x /\ wf_V2Transaction x /\ parts t = ([], [x], []) /\ outline_kind t = 1) \/
  (t = {| ot_Hash := ot_Hash t; ot_Transaction := None; ot_V2Transaction := None |} /\ wf_array 32 (ot_Hash t) /\
   parts t = ([], [], [ot_Hash t]) /\ outline_kind t = 2).
Proof.
  destruct t as [h [x|] [y|]]; unfold wf_otxn; cbn [ot_Transaction ot_V2Transaction ot_Hash]; [done|..].
  - intros [Hx ->]. left. by exists x.
  - intros [Hx ->]. right; left. by exists y.
  - intros Hh. right; right. done.
Qed.
Lemma assign_back l : Forall wf_otxn l -> assign_kinds (map outline_kind l) (outline_v1s l) (outline_v2s l) (hashes_of l) = Ok l.
Proof.
  induction 1 as [|t l Ht _ IH]; [done|]. pose proof (parts_cons t l) as Hp. cbn [map].
  destruct (otxn_cases t Ht) as [(x & E & _ & Ep & Ek)|[(x & E & _ & Ep & Ek)|(E & _ & Ep & Ek)]]; rewrite Ep in Hp; destruct Hp as (-> & -> & ->);
    rewrite Ek; cbn [assign_kinds app Z.eqb]; rewrite IH; cbn [mbind outcome_bind]; by rewrite E.
Qed.
Lemma kinds_counted l : Forall wf_otxn l -> let kinds := map outline_kind l in
  count_kind 0 kinds = length (outline_v1s l) /\ count_kind 1 kinds = length (outline_v2s l) /\ count_kind 2 kinds = length (hashes_of l) /\
  length kinds = (length (outline_v1s l) + length (outline_v2s l) + length (hashes_of l))%nat /\ Forall is_kind kinds.
Proof.
  induction 1 as [|t l Ht _ IH]; [done|]. cbv zeta in *. destruct IH as (I0 & I1 & I2 & Il & Ik). pose proof (parts_cons t l) as Hp. cbn [map].
  unfold count_kind in *.
  destruct (otxn_cases t Ht) as [(x & E & _ & Ep & Ek)|[(x & E & _ & Ep & Ek)|(E & _ & Ep & Ek)]]; rewrite Ep in Hp; destruct Hp as (-> & -> & ->);
    rewrite Ek, !filter_cons; cbn [decide]; repeat (destruct (decide _) as [?|?]; [|try done]); try done; cbn [length app];
    (split_and!; [lia..|constructor; [unfold is_kind; lia|done]]).
Qed.
Lemma wf_parts l : Forall wf_otxn l -> Forall wf_Transaction (outline_v1s l) /\ Forall wf_V2Transaction (outline_v2s l) /\ Forall (wf_array 32) (hashes_of l).
Proof.
  induction 1 as [|t l Ht _ IH]; [done|]. destruct IH as (I0 & I1 & I2). pose proof (parts_cons t l) as Hp.
  destruct (otxn_cases t Ht) as [(x & E & Hw & Ep & Ek)|[(x & E & Hw & Ep & Ek)|(E & Hw & Ep & Ek)]]; rewrite Ep in Hp; destruct Hp as (-> & -> & ->);
    cbn [app]; split_and!; try done; by constructor.
Qed.

Lemma outline_rt L ob : wf_outline ob -> proofs_valid L (outline_v2s (bo_Transactions ob)) ->
  exists enc : bytes, outline_encodeTo ob = Ok enc /\
    forall rest N, zlen enc <= N < two63 -> outline_decodeFrom (mkD (enc ++ rest) N) = Ok (ob, mkD rest (N - zlen enc)).
Proof.
  intros (H1 & H2 & H3 & H4 & H5 & Hl) Hv. destruct (wf_parts _ Hl) as (W1 & W2 & W3). destruct (kinds_counted _ Hl) as (C0 & C1 & C2 & Cl & Ck).
  destruct (multiproof_roundtrip L _ W2 Hv) as (enc & E & Hrt). unfold outline_encodeTo. rewrite E. cbn [mbind outcome_bind].
  assert (forall l, flat_map (fun t => WriteUint8 (outline_kind t)) l = flat_map WriteUint8 (map outline_kind l)) as -> by (by induction l as [|t l IH]; cbn; rewrite ?IH).
  eexists. split; [done|]. intros rest N HN. unfold Missing in *. rewrite !zlen_app in *. rewrite <- !app_assoc.
  unfold outline_decodeFrom. do 6 codec_field. unfold mbind at 1, decode_bind at 1. rewrite Hrt by zl. codec_field.
  unfold mbind at 1, decode_bind at 1. rewrite <- Cl. pose proof (zlen_nonneg rest). rewrite (decode_n_rt is_kind WriteUint8 read_kind (map outline_kind (bo_Transactions ob)) rest _ Ck) by zl.
  rewrite C0, C1, C2, !Nat.eqb_refl. cbn [andb negb]. unfold mbind, decode_bind, lift_outcome. rewrite (assign_back _ Hl). cbn [mbind outcome_bind].
  unfold mret, decode_ret. destruct ob. cbn in *. do 3 f_equal. zl.
Qed.

(** Decoding an outline is total: its hashes are those of the transactions it holds. *)
Lemma count_cons k x kinds : count_kind k (x :: kinds) = ((if decide (x = k) then 1 else 0) + count_kind k kinds)%nat.
Proof. unfold count_kind. rewrite filter_cons. by destruct (decide (x = k)). Qed.
Lemma assign_typed kinds : forall txns v2txns hashes, Forall is_kind kinds -> Forall wf_Transaction txns -> Forall wf_V2Transaction v2txns ->
  Forall (wf_array 32) hashes -> count_kind 0 kinds = length txns -> count_kind 1 kinds = length v2txns -> count_kind 2 kinds = length hashes ->
  exists l, assign_kinds kinds txns v2txns hashes = Ok l /\ Forall wf_otxn l.
Proof.
  induction kinds as [|k kinds IH]; intros txns v2txns hashes Hk H1 H2 H3 C0 C1 C2; [by eexists|].
  apply Forall_cons in Hk as [Hk Hks]. rewrite !count_cons in C0, C1, C2. unfold is_kind in Hk. cbn [assign_kinds].
  assert (k = 0 \/ k = 1 \/ k = 2) as [-> |[-> | ->]] by lia; cbn [Z.eqb decide] in *;
    repeat (destruct (decide _) as [?|?] in C0, C1, C2; try lia); cbn [Nat.add] in *.
  - destruct txns as [|x txns]; [done|]. apply Forall_cons in H1 as [Hx H1]. destruct (IH txns v2txns hashes) as (l & -> & Hl); try done; [by injection C0|].
    eexists. split; [done|]. by constructor.
  - destruct v2txns as [|x v2txns]; [done|]. apply Forall_cons in H2 as [Hx H2]. destruct (IH txns v2txns hashes) as (l & -> & Hl); try done; [by injection C1|].
    eexists. split; [done|]. by constructor.
  - destruct hashes as [|x hashes]; [done|]. apply Forall_cons in H3 as [Hx H3]. destruct (IH txns v2txns hashes) as (l & -> & Hl); try done; [by injection C2|].
    eexists. split; [done|]. by constructor.
Qed.
#[export] Instance outline_typed {sizes : CryptoSizes} : Typed wf_outline outline_decodeFrom.
Proof.
  unfold outline_decodeFrom. do 8 typed_field. eapply typed_bind; [apply decode_n_typed, kind_typed|]. intros kinds [Hk Hlen].
  destruct ((_ =? _)%nat && _ && _) eqn:E; cbn [negb]; [|apply typed_err]. apply andb_true_iff in E as [[E0%Nat.eqb_eq E1%Nat.eqb_eq]%andb_true_iff E2%Nat.eqb_eq].
  destruct (assign_typed kinds x4 x5 x6) as (l & El & Hl); try done. intros d Hd. unfold mbind, decode_bind, lift_outcome. rewrite El.
  cbn [mbind outcome_bind]. unfold mret, decode_ret. by split_and!.
Qed.
End Wire.

(** ** Messages *)
Section Messages.
Context {crypto : Crypto}.

(** What can be sent in a request; the proofs of an outline are valid for the leaves [L]. *)
Definition wf_request (L : list Hash256) (r : Object) : Prop :=
  match r with
  | RPCShareNodes _ | RPCDiscoverIP _ => True
  | RPCSendHeaders i m _ _ => wf_ChainIndex i /\ is_u64 m
  | RPCSendV2Blocks h m _ _ => Forall (wf_array 32) h /\ is_u64 m
  | RPCSendTransactions i h _ _ => wf_ChainIndex i /\ Forall (wf_array 32) h
  | RPCSendCheckpoint i _ _ => wf_ChainIndex i
  | RPCRelayV2Header h => wf_BlockHeader h
  | RPCRelayV2BlockOutline b => wf_outline b /\ proofs_valid L (outline_v2s (bo_Transactions b))
  | RPCRelayV2TransactionSet i txns => wf_ChainIndex i /\ Forall wf_V2Transaction txns
  end.
(** The request of an object, with an empty response. *)
Definition request_of (n : Network) (r : Object) : Object :=
  match r with
  | RPCShareNodes _ => RPCShareNodes []
  | RPCDiscoverIP _ => RPCDiscoverIP []
  | RPCSendHeaders i m _ _ => RPCSendHeaders i m [] 0
  | RPCSendV2Blocks h m _ _ => RPCSendV2Blocks h m [] 0
  | RPCSendTransactions i h _ _ => RPCSendTransactions i h [] []
  | RPCSendCheckpoint i _ _ => RPCSendCheckpoint i zeroBlock (ChainDBInit.zeroState n)
  | RPCRelayV2Header _ | RPCRelayV2BlockOutline _ | RPCRelayV2TransactionSet _ _ => r
  end.

Lemma ObjectForID_kind n r : exists r0, ObjectForID n (idForObject r) = Some r0 /\ maxRequestLen r0 = maxRequestLen r /\
  forall d, decodeRequest r0 d = decodeRequest (request_of n r) d.
Proof. destruct r; eexists; (split; [vm_compute; reflexivity|split; [reflexivity|intros d; reflexivity]]). Qed.

Ltac codec_last := unfold mret, decode_ret; match goal with |- Ok (_, mkD _ ?n) = Ok (_, mkD _ ?m) => replace m with n by zl; reflexivity end.
Lemma decode_request L n r : wf_request L r -> exists enc, WriteRequest r = Ok enc /\ forall rest N, zlen enc <= N < two63 ->
  decodeRequest (request_of n r) (mkD (enc ++ rest) N) = Ok (request_of n r, mkD rest (N - zlen enc)).
Proof.
  intros Hw. unfold WriteRequest.
  destruct r; cbn [wf_request encodeRequest request_of decodeRequest] in *; lazymatch type of Hw with _ /\ _ => destruct Hw as [Hw1 Hw2] | _ => idtac end;
    try (eexists; split; [done|]; intros rest N HN; rewrite ?zlen_app in *; rewrite <- ?app_assoc; repeat codec_field; codec_last).
  destruct (outline_rt L B Hw1 Hw2) as (enc & -> & Hrt). eexists. split; [done|]. intros rest N HN. unfold mbind, decode_bind. rewrite Hrt by done. done.
Qed.
(** A request within its limit is read back, whatever follows it in the stream. *)
Lemma request_rt L n r : wf_request L r -> exists enc, WriteRequest r = Ok enc /\
  (zlen enc <= maxRequestLen r -> forall rest, exists r0, ObjectForID n (idForObject r) = Some r0 /\ ReadRequest r0 (enc ++ rest) = Ok (request_of n r)).
Proof.
  intros Hw. destruct (ObjectForID_kind n r) as (r0 & E0 & El & Ed). destruct (decode_request L n r Hw) as (enc & Ee & Hrt).
  exists enc. split; [done|]. intros Hz rest. exists r0. split; [done|]. unfold ReadRequest, withV2Decoder. rewrite El.
  destruct (Z.eqb_spec (maxRequestLen r) 0) as [Er|Er].
  - clear - E0 Er. destruct r; try discriminate; vm_compute in E0; by injection E0 as <-.
  - rewrite Ed, Hrt; [done|]. split; [done|]. by destruct r.
Qed.

(** *** Responses *)
#[export] Instance BlockHeader_nonempty : NonEmpty wf_BlockHeader BlockHeader_EncodeTo.
Proof. nonempty_record wf_BlockHeader BlockHeader_EncodeTo. Qed.
Definition wf_response (r : Object) : Prop :=
  match r with
  | RPCShareNodes _ | RPCDiscoverIP _ => True
  | RPCSendHeaders _ _ hs k => Forall wf_BlockHeader hs /\ is_u64 k
  | RPCSendV2Blocks _ _ bs k => Forall storable bs /\ is_u64 k
  | RPCSendTransactions _ _ ts v2ts => Forall wf_Transaction ts /\ Forall wf_V2Transaction v2ts
  | RPCSendCheckpoint _ b s => storable b /\ wf_State s
  | RPCRelayV2Header _ | RPCRelayV2BlockOutline _ | RPCRelayV2TransactionSet _ _ => True
  end.
(** What the caller gets: a state loses what its height makes irrelevant and gets the caller's network. *)
Definition response_of (n : Network) (r : Object) : Object :=
  match r with RPCSendCheckpoint i b s => RPCSendCheckpoint i b (norm_State n s) | _ => r end.

Lemma block_nonempty b enc : V2Block_EncodeTo b = Ok enc -> 1 <= zlen enc.
Proof.
  intros E. unfold V2Block_EncodeTo in E. ok_step E. injection E as <-. unfold V1Block_EncodeTo. rewrite !zlen_app, zlen_WriteUint64.
  pose proof (zlen_nonneg (Array_EncodeTo (b_ParentID b))). pose proof (zlen_nonneg v). pose proof (zlen_nonneg (WriteTime (b_Timestamp b))).
  pose proof (zlen_nonneg (EncodeSlice V1SiacoinOutput_EncodeTo (b_MinerPayouts b))).
  pose proof (zlen_nonneg (EncodeSlice Transaction_EncodeTo (b_Transactions b))). lia.
Qed.
Lemma encode_blocks_from bs : forall i acc, Forall storable bs -> exists enc, zlen bs <= zlen enc /\
  for_each bs i acc (fun _ b acc => e ← V2Block_EncodeTo b; Ok (acc ++ e)) = Ok (acc ++ enc) /\
  forall rest N, zlen enc <= N < two63 -> decode_n V2Block_DecodeFrom (length bs) (mkD (enc ++ rest) N) = Ok (bs, mkD rest (N - zlen enc)).
Proof.
  induction bs as [|b bs IH]; intros i acc Hs.
  { exists []. split; [done|]. split; [by rewrite app_nil_r|]. intros rest N HN. unfold zlen. cbn. by rewrite Z.sub_0_r. }
  apply Forall_cons in Hs as [(_ & e & E & Hrt) Hs]. destruct (IH (S i) (acc ++ e) Hs) as (enc & Hz & Ef & Hd).
  pose proof (block_nonempty b e E). exists (e ++ enc). rewrite zlen_app. split; [unfold zlen in *; cbn [length]; lia|]. split.
  - cbn [for_each]. rewrite E. cbn [mbind outcome_bind]. by rewrite Ef, app_assoc.
  - intros rest N HN. pose proof (zlen_nonneg enc). cbn [length decode_n]. rewrite <- app_assoc. unfold mbind at 1, decode_bind at 1.
    rewrite Hrt by lia. unfold mbind at 1, decode_bind at 1. rewrite Hd by lia. unfold mret, decode_ret. do 3 f_equal. lia.
Qed.
Lemma encode_blocks_rt bs : Forall storable bs -> exists enc, encode_blocks bs = Ok enc /\
  forall rest N, zlen enc <= N < two63 -> DecodeSlice V2Block_DecodeFrom (mkD (enc ++ rest) N) = Ok (bs, mkD rest (N - zlen enc)).
Proof.
  intros Hs. destruct (encode_blocks_from bs 0 (WriteUint64 (zlen bs)) Hs) as (enc & Hz & E & Hd). exists (WriteUint64 (zlen bs) ++ enc).
  split; [exact E|]. intros rest N HN. rewrite zlen_app, zlen_WriteUint64 in *. rewrite <- app_assoc. pose proof (zlen_nonneg bs). unfold DecodeSlice.
  rewrite (codec_step is_u64); [|apply _|unfold is_u64; lia|rewrite zlen_WriteUint64; lia]. rewrite zlen_WriteUint64, check_prefix_step by lia.
  unfold zlen at 1. rewrite Nat2Z.id, Hd by lia. do 3 f_equal. lia.
Qed.

Lemma response_rt n r : wf_response r -> exists enc, WriteResponse r = Ok enc /\
  (zlen enc <= maxResponseLen r -> forall rest, ReadResponse n (request_of n r) (enc ++ rest) = Ok (response_of n r)).
Proof.
  intros Hw. assert (exists enc, WriteResponse r = Ok enc /\ forall rest N, zlen enc <= N < two63 ->
    decodeResponse n (request_of n r) (mkD (enc ++ rest) N) = Ok (response_of n r, mkD rest (N - zlen enc))) as (enc & E & Hrt).
  { unfold WriteResponse.
    destruct r; cbn [wf_response encodeResponse request_of response_of decodeResponse] in *;
      lazymatch type of Hw with _ /\ _ => destruct Hw as [Hw1 Hw2] | _ => idtac end.
    all: try (eexists; split; [done|]; intros rest N HN; rewrite ?zlen_app in *; rewrite <- ?app_assoc; repeat codec_field; codec_last).
    - eexists. split; [done|]. intros rest N HN. unfold mbind, decode_bind. change ReadString with ReadBytes. change WriteString with WriteBytes in *.
      by rewrite (slice_codec wf_any WriteBytes ReadBytes Peers rest N (Forall_true wf_any Peers (fun _ => I)) HN).
    - destruct (encode_blocks_rt Blocks Hw1) as (enc & -> & Hrt). cbn [mbind outcome_bind]. eexists. split; [done|]. intros rest N HN.
      rewrite zlen_app in *. pose proof (zlen_nonneg (WriteUint64 Remaining)). pose proof (zlen_nonneg enc). rewrite <- app_assoc.
      unfold mbind at 1, decode_bind at 1. rewrite Hrt by lia. codec_field. codec_last.
    - destruct Hw1 as (_ & enc & -> & Hrt). cbn [mbind outcome_bind]. eexists. split; [done|]. intros rest N HN.
      rewrite zlen_app in *. pose proof (zlen_nonneg (State_EncodeTo S)). pose proof (zlen_nonneg enc). rewrite <- app_assoc.
      unfold mbind at 1, decode_bind at 1. rewrite Hrt by lia. unfold mbind at 1, decode_bind at 1. rewrite State_roundtrip by (done || lia).
      codec_last. }
  exists enc. split; [done|]. intros Hz rest. unfold ReadResponse, withV2Decoder.
  assert (maxResponseLen (request_of n r) = maxResponseLen r) as -> by by destruct r.
  assert (maxResponseLen r < two63) as Hm by (destruct r; cbn [maxResponseLen]; try lia; apply i64_range).
  destruct (Z.eqb_spec (maxResponseLen r) 0) as [Er|Er]; [|by rewrite Hrt].
  destruct enc as [|x enc]; [|unfold zlen in Hz; cbn [length] in Hz; lia]. specialize (Hrt [] 0 ltac:(done)). by destruct r.
Qed.
Lemma ID_rt r rest : ReadID (WriteID r ++ rest) = Ok (idForObject r).
Proof. unfold ReadID, WriteID, withV2Decoder, Specifier_DecodeFrom. rewrite Read_app; [done|by destruct r|done]. Qed.

(** The requests that fit their limits. *)
Lemma request_fits L r enc : wf_request L r -> WriteRequest r = Ok enc ->
  match r with
  | RPCSendV2Blocks h _ _ _ => zlen enc <= maxRequestLen r <-> zlen h <= 32
  | RPCSendTransactions _ h _ _ => zlen enc <= maxRequestLen r <-> zlen h <= 100
  | RPCRelayV2BlockOutline _ | RPCRelayV2TransactionSet _ _ => True
  | _ => zlen enc <= maxRequestLen r
  end.
Proof.
  intros Hw E. assert (forall h : list Hash256, Forall (wf_array 32) h -> zlen (EncodeSlice Array_EncodeTo h) = 8 + 32 * zlen h) as Hs.
  { intros h Hh. unfold EncodeSlice. rewrite zlen_app, zlen_WriteUint64. f_equal.
    induction Hh as [|x h Hx _ IH]; [done|]. cbn [flat_map]. rewrite zlen_app, IH. unfold wf_array in Hx. unfold Array_EncodeTo, zlen. rewrite Hx. cbn [length]. lia. }
  assert (forall i, wf_ChainIndex i -> zlen (ChainIndex_EncodeTo i) = 40) as Hi.
  { intros i [_ Hi]. unfold ChainIndex_EncodeTo. rewrite zlen_app, zlen_WriteUint64. unfold Array_EncodeTo, zlen. by rewrite Hi. }
  unfold WriteRequest in E. destruct r; cbn [wf_request encodeRequest maxRequestLen] in *; try done; apply Ok_inj in E; subst enc; rewrite ?zlen_app, ?zlen_WriteUint64; try done.
  - rewrite Hi by apply Hw. done.
  - rewrite Hs by apply Hw. lia.
  - rewrite Hi, Hs by apply Hw. lia.
  - by rewrite Hi.
  - destruct Hw as (W1 & W2 & W3 & W4). unfold BlockHeader_EncodeTo. rewrite !zlen_app, zlen_WriteUint64. unfold WriteTime. rewrite zlen_WriteUint64.
    unfold Array_EncodeTo, zlen, wf_array in *. lia.
Qed.
End Messages.

(** C18: messages arrive as they were sent.  The identifier of an object read from a stream selects an
    object of the same kind.  A well-formed request (the proofs of an outline valid for one
    accumulator) is encoded without panic and, within the length limit of its kind, is read back
    exactly; the limits always suffice for requests of headers, checkpoints and relayed headers, for up to 32
    block identifiers and for up to 100 transaction hashes, and not for more.  A well-formed response
    within its limit is read back exactly, up to what the height of a state makes irrelevant. *)
Theorem messages_roundtrip {crypto : Crypto} (L : list Hash256) (n : Network) (r : Object) (rest : bytes) :
  wf_request L r -> wf_response r ->
  ReadID (WriteID r ++ rest) = Ok (idForObject r) /\
  exists request response r0, WriteRequest r = Ok request /\ WriteResponse r = Ok response /\ ObjectForID n (idForObject r) = Some r0 /\
    (zlen request <= maxRequestLen r -> ReadRequest r0 (request ++ rest) = Ok (request_of n r)) /\
    (zlen response <= maxResponseLen r -> ReadResponse n (request_of n r) (response ++ rest) = Ok (response_of n r)) /\
    match r with
    | RPCSendV2Blocks h _ _ _ => zlen request <= maxRequestLen r <-> zlen h <= 32
    | RPCSendTransactions _ h _ _ => zlen request <= maxRequestLen r <-> zlen h <= 100
    | RPCRelayV2BlockOutline _ | RPCRelayV2TransactionSet _ _ => True
    | _ => zlen request <= maxRequestLen r
    end.
Proof.
  intros Hq Hp. split; [apply ID_rt|]. destruct (request_rt L n r Hq) as (request & Er & Hr). destruct (response_rt n r Hp) as (response & Es & Hs).
  destruct (ObjectForID_kind n r) as (r0 & E0 & _). exists request, response, r0. split_and!; try done.
  - intros Hz. destruct (Hr Hz rest) as (r1 & E1 & Hread). rewrite E0 in E1. by injection E1 as <-.
  - intros Hz. by apply Hs.
  - by apply (request_fits L).
Qed.

Module SampleOutline.
#[local] Existing Instance Sample.crypto.
Definition outline : V2BlockOutline :=
  {| bo_Height := 5; bo_ParentID := replicate 32 1%Z; bo_Nonce := 77; bo_Timestamp := time_Unix 1600000000; bo_MinerAddress := zeros 32;
     bo_Transactions := [{| ot_Hash := replicate 32 9; ot_Transaction := None; ot_V2Transaction := None |}; outline_v2txn SampleBlock.txn] |}.
Lemma outline_wf : wf_request SampleBlock.hashes (RPCRelayV2BlockOutline outline).
Proof.
  split; [|exact SampleBlock.valid]. split_and!; [done|done|done|by exists 1600000000|done|].
  constructor; [reflexivity|]. constructor; [|constructor]. split; [|done]. wf_ground.
Qed.
End SampleOutline.

Lemma messages_roundtrip_witness : exists request r0,
  WriteRequest (crypto := Sample.crypto) (RPCRelayV2BlockOutline SampleOutline.outline) = Ok request /\
  ObjectForID SampleChain.SampleChain.network idRelayV2BlockOutline = Some r0 /\
  ReadRequest (crypto := Sample.crypto) r0 (request ++ [1; 2; 3]) = Ok (RPCRelayV2BlockOutline SampleOutline.outline).
Proof.
  destruct (messages_roundtrip (crypto := Sample.crypto) SampleBlock.hashes SampleChain.SampleChain.network (RPCRelayV2BlockOutline SampleOutline.outline) [1; 2; 3]
    SampleOutline.outline_wf I) as (_ & request & response & r0 & E1 & _ & E2 & H & _).
  exists request, r0. split; [exact E1|]. split; [exact E2|]. apply H. vm_compute in E1. injection E1 as <-. vm_compute. discriminate.
Defined.
