(* ===== verification/GatewayTransportSpec.v ===== *)
(** * The handshake of two peers completes

    Whatever the interleaving of the two ends of a connection, the handshake comes to the same
    end, which the two headers and the addresses determine. *)
From stdpp Require Import prelude strings relations.
From Stdlib Require Import ZArith Lia.
From S2P Require Import Prelude TypesData TypesEncoding TypesCodec TypesHash Gateway.

(** ** Runs that cannot diverge *)
Section Diamond.
Context {S : Type} (R : S -> S -> Prop).
Context (diamond : forall s a b, R s a -> R s b -> a = b \/ exists c, R a c /\ R b c).

(** A step out of the start of a run to a normal form is the start of a run of the same length. *)
Lemma diamond_step n s f a : nsteps R (Datatypes.S n) s f -> nf R f -> R s a -> nsteps R n a f.
Proof.
  revert s f a. induction n as [|n IH]; intros s f a Hn Hf Ha; inversion Hn as [|? ? b ? Hb Hrest]; subst.
  - inversion Hrest; subst. destruct (diamond _ _ _ Ha Hb) as [->|(c & _ & Hc)]; [constructor|]. destruct Hf. by exists c.
  - destruct (diamond _ _ _ Ha Hb) as [->|(c & Hac & Hbc)]; [done|]. econstructor; [exact Hac|]. by eapply IH.
Qed.
Lemma diamond_run n s f : nsteps R n s f -> nf R f -> forall k a, nsteps R k s a -> (k <= n)%nat /\ nsteps R (n - k) a f.
Proof.
  intros Hn Hf k. revert n s Hn. induction k as [|k IH]; intros n s Hn a Hk; inversion Hk as [|? ? b ? Hb Hrest]; subst.
  - rewrite Nat.sub_0_r. split; [lia|done].
  - destruct n as [|n]; [inversion Hn; subst; destruct Hf; by exists b|].
    pose proof (diamond_step n s f b Hn Hf Hb) as Hn'. destruct (IH n b Hn' a Hrest) as [? ?]. split; [lia|done].
Qed.
End Diamond.

(** ** Moves *)
Section Moves.
Context {A : Type}.
Implicit Types (p : proc A).

Lemma move_det p i p1 i1 o1 p2 i2 o2 : move p i p1 i1 o1 -> move p i p2 i2 o2 -> p1 = p2 /\ i1 = i2 /\ o1 = o2.
Proof. intros H1 H2. destruct H1; inversion H2; by subst. Qed.
Lemma move_frame p i p' i' o x : move p i p' i' o -> move p (i ++ x) p' (i' ++ x) o.
Proof.
  intros H. destruct H as [bs k input|n k input Hn]; [constructor|].
  rewrite <- (take_app_le input x n Hn), <- (drop_app_le input x n Hn). constructor. rewrite length_app. lia.
Qed.

(** Several moves, with all that is written. *)
Inductive moves : proc A -> bytes -> proc A -> bytes -> bytes -> Prop :=
  | moves_nil p i : moves p i p i []
  | moves_cons p i p1 i1 o1 p2 i2 o2 : move p i p1 i1 o1 -> moves p1 i1 p2 i2 o2 -> moves p i p2 i2 (o1 ++ o2).
Lemma moves_trans p i p1 i1 o1 p2 i2 o2 : moves p i p1 i1 o1 -> moves p1 i1 p2 i2 o2 -> moves p i p2 i2 (o1 ++ o2).
Proof. induction 1; intros H2; [done|]. rewrite <- app_assoc. econstructor; [done|auto]. Qed.
Lemma moves_frame p i p' i' o x : moves p i p' i' o -> moves p (i ++ x) p' (i' ++ x) o.
Proof. induction 1; econstructor; [|done]. by apply move_frame. Qed.
Lemma moves_wrap prefix p i p' i' o : moves p i p' i' o -> moves (p_wrap prefix p) i (p_wrap prefix p') i' o.
Proof. induction 1 as [|? ? ? ? ? ? ? ? H _ IH]; [constructor|]. econstructor; [|exact IH]. destruct H; cbn [p_wrap]; by constructor. Qed.
End Moves.
Lemma moves_bind {A B} (f : A -> proc B) p i p' i' o : moves p i p' i' o -> moves (p ≫= f) i (p' ≫= f) i' o.
Proof.
  induction 1 as [|? ? ? ? ? ? ? ? H _ IH]; [constructor|]. econstructor; [|exact IH]. destruct H; unfold mbind, proc_bind; cbn [proc_then]; by constructor.
Qed.

(** ** Links *)
Section Links.
Context {A B : Type}.
Implicit Types (s : Link A B) (p : proc A) (q : proc B).

Lemma link_diamond s a b : link_step s a -> link_step s b -> a = b \/ exists c, link_step a c /\ link_step b c.
Proof.
  intros Ha Hb.
  destruct Ha as [p q lr rl p' rl' out Hp|p q lr rl q' lr' out Hq|n k e lr rl Hn|n k e lr rl Hn].
  - inversion Hb as [? ? ? ? ? ? ? Hp2|? ? ? ? q2 lr2 out2 Hq2|? ? ? ? ? Hn2|? ? ? ? ? Hn2]; subst.
    + left. by destruct (move_det _ _ _ _ _ _ _ _ Hp Hp2) as (-> & -> & ->).
    + right. eexists. split; [apply step_right, move_frame, Hq2|]. apply step_left, move_frame, Hp.
    + inversion Hp; subst. lia.
    + inversion Hp.
  - inversion Hb as [? ? ? ? p2 rl2 out2 Hp2|? ? ? ? q2 lr2 out2 Hq2|? ? ? ? ? Hn2|? ? ? ? ? Hn2]; subst.
    + right. eexists. split; [apply step_left, move_frame, Hp2|]. apply step_right, move_frame, Hq.
    + left. by destruct (move_det _ _ _ _ _ _ _ _ Hq Hq2) as (-> & -> & ->).
    + inversion Hq.
    + inversion Hq; subst. lia.
  - inversion Hb as [? ? ? ? ? ? ? Hp2|? ? ? ? ? ? ? Hq2|? ? ? ? ? Hn2|? ? ? ? ? Hn2]; subst; [inversion Hp2; subst; lia|inversion Hq2|by left].
  - inversion Hb as [? ? ? ? ? ? ? Hp2|? ? ? ? ? ? ? Hq2|? ? ? ? ? Hn2|? ? ? ? ? Hn2]; subst; [inversion Hp2|inversion Hq2; subst; lia|by left].
Qed.
Lemma moves_left p q lr rl p' rl' out : moves p rl p' rl' out -> rtc link_step (mkLink p q lr rl) (mkLink p' q (lr ++ out) rl').
Proof.
  intros H. revert lr. induction H as [|p i p1 i1 o1 p2 i2 o2 H _ IH]; intros lr; [by rewrite app_nil_r|].
  rewrite app_assoc. eapply rtc_l; [by apply step_left|apply IH].
Qed.
Lemma moves_right p q lr rl q' lr' out : moves q lr q' lr' out -> rtc link_step (mkLink p q lr rl) (mkLink p q' lr' (rl ++ out)).
Proof.
  intros H. revert rl. induction H as [|q i q1 i1 o1 q2 i2 o2 H _ IH]; intros rl; [by rewrite app_nil_r|].
  rewrite app_assoc. eapply rtc_l; [by apply step_right|apply IH].
Qed.
Lemma finished_nf (r1 : outcome A) (r2 : outcome B) lr rl : nf link_step (mkLink (Done r1) (Done r2) lr rl).
Proof. intros [y Hy]. inversion Hy as [? ? ? ? ? ? ? H|? ? ? ? ? ? ? H| |]; subst; inversion H. Qed.
End Links.

(** ** Messages *)

(** The program reads exactly [input] and returns [a]. *)
Abbreviation gets p input a := (moves p input (Done (Ok a)) [] []).
Lemma conn_gets_bind {A B} (p : proc A) (f : A -> proc B) i1 i2 a b : gets p i1 a -> gets (f a) i2 b -> gets (p ≫= f) (i1 ++ i2) b.
Proof.
  intros H1 H2. apply (moves_trans _ _ (f a) i2 [] _ [] []); [|done].
  exact (moves_frame _ _ _ _ _ i2 (moves_bind f _ _ _ _ _ H1)).
Qed.
Lemma gets_ret {A} (a : A) : gets (Done (Ok a)) [] a.
Proof. constructor. Qed.
Lemma read_done bs : gets (ConnRead (length bs) Done) bs bs.
Proof.
  pose proof (move_read (A := bytes) (length bs) Done bs ltac:(done)) as H. rewrite drop_all, take_ge in H by done.
  exact (moves_cons _ _ _ _ _ _ _ [] H (moves_nil _ _)).
Qed.
Lemma r_Read_gets n N bs : length bs = n -> Z.of_nat n <= N -> gets (r_Read n N) bs (bs, N - Z.of_nat n).
Proof.
  intros <- HN. unfold r_Read. rewrite (proj2 (Z.leb_le _ _) HN). pose proof (conn_gets_bind _ (fun b => Done (Ok (b, N - Z.of_nat (length bs)))) bs [] bs _ (read_done bs) (gets_ret _)) as H.
  by rewrite app_nil_r in H.
Qed.
Lemma r_Uint64_gets u N : is_u64 u -> 8 <= N -> gets (r_Uint64 N) (WriteUint64 u) (u, N - 8).
Proof.
  intros Hu HN. unfold r_Uint64. rewrite <- (app_nil_r (WriteUint64 u)). eapply conn_gets_bind; [by apply r_Read_gets|].
  cbn beta iota. unfold WriteUint64. rewrite le_decode_encode_8 by done. apply gets_ret.
Qed.
Lemma r_String_gets s N : 8 + zlen s <= N < two64 -> gets (r_String N) (WriteString s) (s, N - 8 - zlen s).
Proof.
  intros HN. pose proof (zlen_nonneg s). unfold r_String, WriteString, WriteBytes. assert (is_u64 (zlen s)) by (unfold is_u64; lia).
  eapply conn_gets_bind; [apply r_Uint64_gets; [done|lia]|]. cbn beta iota. rewrite u64_id by (unfold is_u64; lia).
  rewrite (proj2 (Z.ltb_ge _ _)) by lia. replace (N - 8 - zlen s) with (N - 8 - Z.of_nat (Z.to_nat (zlen s))) by lia.
  apply r_Read_gets; unfold zlen in *; lia.
Qed.
Lemma message_gets {A} (fn : Reader A) enc maxLen a N' : zlen enc < two64 -> 0 <= maxLen -> gets (fn maxLen) enc (a, N') ->
  gets (withV1Decoder maxLen fn) (v1_message enc) a.
Proof.
  intros Hz Hm H. pose proof (zlen_nonneg enc). unfold withV1Decoder, v1_message.
  eapply conn_gets_bind; [apply r_Uint64_gets; unfold is_u64; lia|]. cbn beta iota. replace (8 + maxLen - 8) with maxLen by lia.
  rewrite <- (app_nil_r enc). eapply conn_gets_bind; [exact H|apply gets_ret].
Qed.
Lemma string_gets s : zlen s <= 120 -> gets (withV1Decoder 128 r_String) (v1_message (WriteString s)) s.
Proof.
  intros Hs. eapply message_gets; [|lia|apply r_String_gets; lia]. unfold WriteString, WriteBytes. rewrite zlen_app, zlen_WriteUint64. lia.
Qed.

(** What is sent in a header arrives, except for the magic. *)
Definition wf_header (h : Header) : Prop :=
  length (h_ProtocolMagic h) = 8%nat /\ length (h_GenesisID h) = 32%nat /\ length (h_UniqueID h) = 8%nat /\ zlen (h_NetAddress h) <= 120.
Definition sent (h : Header) : Header :=
  {| h_ProtocolMagic := zeros 8; h_GenesisID := h_GenesisID h; h_UniqueID := h_UniqueID h; h_NetAddress := h_NetAddress h |}.
Lemma header_gets h : wf_header h -> gets (withV1Decoder (32 + 8 + 128) Header_decodeFrom) (v1_message (Header_encodeTo h)) (sent h).
Proof.
  intros (_ & H1 & H2 & H3). eapply message_gets; [|lia|].
  - unfold Header_encodeTo, WriteString, WriteBytes, Array_EncodeTo. rewrite !zlen_app, zlen_WriteUint64. unfold zlen in *. lia.
  - unfold Header_decodeFrom, Header_encodeTo, Array_EncodeTo.
    eapply conn_gets_bind; [apply r_Read_gets; [done|lia]|]. cbn beta iota. eapply conn_gets_bind; [apply r_Read_gets; [done|lia]|]. cbn beta iota.
    rewrite <- (app_nil_r (WriteString _)). eapply conn_gets_bind; [apply r_String_gets; lia|apply gets_ret].
Qed.

(** ** The run in which the ends take turns *)
Lemma bind_done {A B} (a : A) (f : A -> proc B) : Done (Ok a) ≫= f = f a.
Proof. done. Qed.
Lemma bind_err {A B} e (f : A -> proc B) : Done (Err e) ≫= f = Done (Err e).
Proof. done. Qed.
Lemma wrap_done {A} prefix (a : A) : p_wrap prefix (Done (Ok a)) = Done (Ok a).
Proof. done. Qed.
Lemma wrap_fail {A} prefix e : p_wrap prefix (Done (Err e) : proc A) = Done (Err (prefix +:+ e)).
Proof. done. Qed.
Lemma send_moves bs i : moves (conn_Write bs) i (Done (Ok tt)) i bs.
Proof. rewrite <- (app_nil_r bs) at 2. eapply moves_cons; [apply move_write|constructor]. Qed.
Lemma move_one {A} bs (p : proc A) i : moves (ConnWrite bs (fun _ => p)) i p i bs.
Proof. rewrite <- (app_nil_r bs) at 2. eapply moves_cons; [apply move_write|constructor]. Qed.
Lemma recv_moves bs : length bs = 8%nat -> gets (ConnRead 8 Done) bs bs.
Proof. intros <-. apply read_done. Qed.

Ltac settle := repeat first [rewrite wrap_done | rewrite bind_done | rewrite wrap_fail | rewrite bind_err]; cbn beta iota.
(** A move of one end inside its context. *)
Ltac in_context t := repeat first [t | apply moves_bind | apply moves_wrap].
Tactic Notation "left_turn" uconstr(t) := etrans; [apply moves_left; in_context ltac:(apply t; done)|]; settle; cbn [app].
Tactic Notation "right_turn" uconstr(t) := etrans; [apply moves_right; in_context ltac:(apply t; done)|]; settle; cbn [app].

(** What [readHeader] makes of the remote address of the connection and the announced one. *)
Definition peer_addr (remote addr : bytes) : outcome bytes :=
  '(host, _) ← wrap_err "invalid remote addr: " (SplitHostPort remote);
  '(_, port) ← wrap_err "peer provided invalid net address: " (SplitHostPort addr);
  Ok (JoinHostPort host port).
Lemma addr_tail remote addr (id : UniqueID) :
  ('(host, _) ← Done (wrap_err "invalid remote addr: " (SplitHostPort remote));
   '(_, port) ← Done (wrap_err "peer provided invalid net address: " (SplitHostPort addr));
   Done (Ok (JoinHostPort host port, id))) = Done ((fun a => (a, id)) <$> peer_addr remote addr).
Proof. unfold peer_addr. destruct (SplitHostPort remote) as [[host p]| |]; [|done|done]. by destruct (SplitHostPort addr) as [[q port]| |]. Qed.
Lemma split_no_panic hostport p : SplitHostPort hostport <> Panic p.
Proof.
  unfold SplitHostPort. destruct (LastIndexByte _ _) as [i|]; [|done]. intros H.
  match type of H with (?x ≫= _) = _ => assert (forall q, x <> Panic q) as Hx; [|destruct x as [[[host j] k]|e|q]; [|done|by apply (Hx q)]] end.
  { intros q. case_bool_decide; [|by destruct (contains _ _)]. destruct (IndexByte _ _); [|done]. destruct (_ =? _)%nat; [done|].
    destruct (_ =? _)%nat; [done|]. by case_bool_decide. }
  cbn [mbind outcome_bind] in H. destruct (contains (drop j hostport) 91); [done|]. by destruct (contains (drop k hostport) 93).
Qed.
Lemma addr_no_panic remote addr p : peer_addr remote addr <> Panic p.
Proof.
  unfold peer_addr. pose proof (split_no_panic remote) as H1. destruct (SplitHostPort remote) as [[host q]|e|q]; [|done|by destruct (H1 q)].
  cbn [wrap_err mbind outcome_bind]. pose proof (split_no_panic addr) as H2. destruct (SplitHostPort addr) as [[q' port]|e|q']; [done|done|by destruct (H2 q')].
Qed.
(** The connection to the peer with header [h]. *)
Definition transport_to (h : Header) (addr : bytes) : Transport := {| t_UniqueID := h_UniqueID h; t_Version := ourVersion; t_Addr := addr |}.

Section Runs.
Context (r1 r2 : bytes) (h1 h2 : Header) (H1 : wf_header h1) (H2 : wf_header h2).

(** Both ends have the same magic: they get to the exchange of headers. *)
Definition dial_headers : proc Transport :=
  _ ← p_wrap "could not write our header: " (writeHeader h1);
  '(addr, id) ← p_wrap "could not read peer's header: " (readHeader r1 h1);
  Done (Ok {| t_UniqueID := id; t_Version := ourVersion; t_Addr := addr |}).
Definition accept_headers : proc Transport :=
  '(addr, id) ← p_wrap "could not read peer's header: " (readHeader r2 h2);
  _ ← p_wrap "could not write our header: " (writeHeader h2);
  Done (Ok {| t_UniqueID := id; t_Version := ourVersion; t_Addr := addr |}).
Lemma versions_run : rtc link_step
  (mkLink (_ ← p_wrap "could not write our version: " (withV1Encoder (WriteString ourVersion));
           version ← p_wrap "could not read peer version: " (withV1Decoder 128 r_String);
           _ ← p_wrap "could not write our header: " (writeHeader h1);
           '(addr, id) ← p_wrap "could not read peer's header: " (readHeader r1 h1);
           Done (Ok {| t_UniqueID := id; t_Version := version; t_Addr := addr |}))
          (version ← p_wrap "could not read peer version: " (withV1Decoder 128 r_String);
           _ ← p_wrap "could not write our version: " (withV1Encoder (WriteString ourVersion));
           '(addr, id) ← p_wrap "could not read peer's header: " (readHeader r2 h2);
           _ ← p_wrap "could not write our header: " (writeHeader h2);
           Done (Ok {| t_UniqueID := id; t_Version := version; t_Addr := addr |})) [] [])
  (mkLink dial_headers accept_headers [] []).
Proof.
  left_turn send_moves. right_turn (string_gets ourVersion). right_turn send_moves. left_turn (string_gets ourVersion).
  reflexivity.
Qed.

Lemma headers_agree h h' : h_GenesisID h' = h_GenesisID h -> h_UniqueID h' <> h_UniqueID h -> validateHeader h (sent h') = Ok tt.
Proof.
  intros Eg Eu. unfold validateHeader. cbn [sent h_GenesisID h_UniqueID]. rewrite (bool_decide_eq_true_2 _ Eg), (bool_decide_eq_false_2 _ Eu). done.
Qed.
Lemma accepted_run addr2 : h_GenesisID h1 = h_GenesisID h2 -> h_UniqueID h1 <> h_UniqueID h2 -> peer_addr r2 (h_NetAddress h1) = Ok addr2 ->
  rtc link_step (mkLink dial_headers accept_headers [] [])
    (mkLink (Done (wrap_err "could not read peer's header: " (transport_to h2 <$> peer_addr r1 (h_NetAddress h2))))
            (Done (Ok (transport_to h1 addr2))) [] []).
Proof.
  intros Eg Eu A2. unfold dial_headers, accept_headers, writeHeader, readHeader.
  left_turn send_moves. right_turn header_gets.
  rewrite headers_agree by done. right_turn send_moves. cbn [sent h_NetAddress h_UniqueID]. rewrite addr_tail, A2. cbn [fmap outcome_fmap]. settle.
  left_turn (string_gets (str_bytes "accept")). rewrite bool_decide_true by done. cbn [negb fail_if]. settle.
  right_turn send_moves. left_turn header_gets. rewrite headers_agree by done. left_turn send_moves.
  cbn [sent h_NetAddress h_UniqueID]. rewrite addr_tail.
  right_turn (string_gets (str_bytes "accept")). rewrite bool_decide_true by done. cbn [negb fail_if]. settle.
  by destruct (peer_addr r1 (h_NetAddress h2)).
Qed.
(** The accepting end has no use for the address; the dialling end finds the connection closed. *)
Lemma no_addr_run e : h_GenesisID h1 = h_GenesisID h2 -> h_UniqueID h1 <> h_UniqueID h2 -> peer_addr r2 (h_NetAddress h1) = Err e ->
  rtc link_step (mkLink dial_headers accept_headers [] [])
    (mkLink (Done (Err "could not read peer's header: could not read peer's header: EOF"))
            (Done (Err ("could not read peer's header: " +:+ e))) [] []).
Proof.
  intros Eg Eu A2. unfold dial_headers, accept_headers, writeHeader, readHeader.
  left_turn send_moves. right_turn header_gets.
  rewrite headers_agree by done. right_turn send_moves. cbn [sent h_NetAddress h_UniqueID]. rewrite addr_tail, A2. cbn [fmap outcome_fmap]. settle.
  left_turn (string_gets (str_bytes "accept")). rewrite bool_decide_true by done. cbn [negb fail_if]. settle.
  apply rtc_once. exact (step_left_eof 8 _ _ [] [] ltac:(cbn; lia)).
Qed.

(** The answering end rejects the header and says why. *)
Lemma str_bytes_text e : text (str_bytes e) = e.
Proof. induction e as [|c e IH]; [done|]. cbn [str_bytes text foldr]. fold (text (str_bytes e)). by rewrite IH, Nat2Z.id, Ascii.ascii_nat_embedding. Qed.
Lemma rejected_run reason : validateHeader h2 (sent h1) = Err reason -> zlen (str_bytes reason) <= 120 -> reason <> "accept" ->
  rtc link_step (mkLink dial_headers accept_headers [] [])
    (mkLink (Done (Err ("could not write our header: " +:+ ("peer rejected our header: " +:+ reason))))
            (Done (Err ("could not read peer's header: " +:+ ("unacceptable header: " +:+ reason)))) [] []).
Proof.
  intros Ev Hz Hne. unfold dial_headers, accept_headers, writeHeader, readHeader.
  left_turn send_moves. right_turn header_gets. rewrite Ev.
  right_turn move_one. left_turn (string_gets (str_bytes reason)). rewrite bool_decide_false.
  - cbn [negb fail_if]. settle. rewrite str_bytes_text. settle. reflexivity.
  - intros E. apply Hne. rewrite <- (str_bytes_text reason), E. apply str_bytes_text.
Qed.

(** *** The magic *)
Lemma same_magic : h_ProtocolMagic h1 = h_ProtocolMagic h2 ->
  rtc link_step (mkLink (Dial r1 h1) (Accept r2 h2) [] []) (mkLink dial_headers accept_headers [] []).
Proof.
  intros E. unfold Dial, Accept. rewrite E. destruct H2 as (Hm & _). case_bool_decide as Hz; [apply versions_run|].
  unfold write_magic, readMagic. left_turn send_moves. right_turn recv_moves. rewrite bool_decide_true by done. cbn [negb fail_if]. settle.
  right_turn send_moves. left_turn recv_moves. rewrite bool_decide_true by done. cbn [negb fail_if]. settle. apply versions_run.
Qed.
Lemma other_magic : h_ProtocolMagic h1 <> h_ProtocolMagic h2 -> h_ProtocolMagic h1 <> zeros 8 -> h_ProtocolMagic h2 <> zeros 8 ->
  rtc link_step (mkLink (Dial r1 h1) (Accept r2 h2) [] [])
    (mkLink (Done (Err "could not read network magic: EOF")) (Done (Err "peer uses a different wire protocol")) [] []).
Proof.
  intros E Z1 Z2. unfold Dial, Accept. rewrite !bool_decide_false by done. unfold write_magic, readMagic. destruct H1 as (Hm & _).
  left_turn send_moves. right_turn recv_moves. rewrite bool_decide_false by done. cbn [negb fail_if]. settle.
  apply rtc_once. exact (step_left_eof 8 _ _ [] [] ltac:(cbn; lia)).
Qed.
End Runs.

(** ** Any peer *)

(** Whatever is read and whether or not writes fail, the program returns a value in [P] or fails. *)
Fixpoint returns {A} (P : A -> Prop) (p : proc A) : Prop :=
  match p with
  | Done (Ok a) => P a
  | Done _ => True
  | ConnWrite _ k => forall err, returns P (k err)
  | ConnRead _ k => forall r, returns P (k r)
  end.
Lemma returns_any {A} (p : proc A) : returns (fun _ => True) p.
Proof. induction p as [[]| |]; cbn; auto. Qed.
Lemma returns_bind {A B} (Q : A -> Prop) (P : B -> Prop) p (f : A -> proc B) : returns Q p -> (forall a, Q a -> returns P (f a)) -> returns P (p ≫= f).
Proof. intros Hp Hf. unfold mbind, proc_bind. induction p as [[a| |]|bs k IH|n k IH]; cbn in *; auto. Qed.
Lemma returns_wrap {A} (P : A -> Prop) prefix p : returns P p -> returns P (p_wrap prefix p).
Proof. induction p as [[a| |]|bs k IH|n k IH]; cbn; auto. Qed.
Lemma returns_move {A} (P : A -> Prop) p i p' i' o : move p i p' i' o -> returns P p -> returns P p'.
Proof. intros H. destruct H; cbn; auto. Qed.
Lemma returns_left {A B} (P : A -> Prop) (s s' : Link A B) : rtc link_step s s' -> returns P (l_left s) -> returns P (l_left s').
Proof.
  induction 1 as [|s s1 s' H _ IH]; [done|]. intros Hs. apply IH. destruct H; cbn [l_left] in *; [by eapply returns_move|done|apply Hs|done].
Qed.
Lemma returns_right {A B} (P : B -> Prop) (s s' : Link A B) : rtc link_step s s' -> returns P (l_right s) -> returns P (l_right s').
Proof.
  induction 1 as [|s s1 s' H _ IH]; [done|]. intros Hs. apply IH. destruct H; cbn [l_right] in *; [done|by eapply returns_move|done|apply Hs].
Qed.

Lemma readHeader_other remote h : returns (fun r => snd r <> h_UniqueID h) (readHeader remote h).
Proof.
  unfold readHeader. eapply returns_bind; [apply returns_any|]. intros peer _. destruct (validateHeader h peer) as [[]| |] eqn:E; [|done|done].
  eapply returns_bind; [apply returns_any|]. intros _ _. eapply returns_bind; [apply returns_any|]. intros [host port] _.
  eapply returns_bind; [apply returns_any|]. intros [peerHost peerPort] _. cbn [returns snd].
  unfold validateHeader in E. ok_step E. by apply fail_if_ok, bool_decide_eq_false in E.
Qed.
Lemma Dial_other remote h : returns (fun t => t_UniqueID t <> h_UniqueID h) (Dial remote h).
Proof.
  unfold Dial. do 4 (eapply returns_bind; [apply returns_any|]; intros ? _).
  eapply returns_bind; [apply returns_wrap, readHeader_other|]. by intros [addr id] Hid.
Qed.
Lemma Accept_other remote h : returns (fun t => t_UniqueID t <> h_UniqueID h) (Accept remote h).
Proof.
  unfold Accept. do 3 (eapply returns_bind; [apply returns_any|]; intros ? _).
  eapply returns_bind; [apply returns_wrap, readHeader_other|]. intros [addr id] Hid. eapply returns_bind; [apply returns_any|]. by intros ? _.
Qed.

(** Every run from [s] has a bounded length and can only end in [f]. *)
Definition settles {A B} (s f : Link A B) : Prop :=
  exists n, forall k s', nsteps link_step k s s' -> (k <= n)%nat /\ nsteps link_step (n - k) s' f.
Lemma settles_in {A B} (s : Link A B) r1 r2 lr rl : rtc link_step s (mkLink (Done r1) (Done r2) lr rl) -> settles s (mkLink (Done r1) (Done r2) lr rl).
Proof.
  intros [n Hn]%rtc_nsteps. exists n. intros k s' Hk. by apply (diamond_run link_step link_diamond n s _ Hn (finished_nf _ _ _ _)).
Qed.

(** C17: the handshake comes to an end that does not depend on the interleaving.  Take two ends of
    a connection, one that dials and one that accepts, with headers of the right widths and
    network addresses of at most 120 bytes; either both use a protocol magic or neither does.  Every run of the two
    has a bounded number of steps and can be continued to one end only.  With different magics both fail.
    With the same magic and a different genesis block or the same identifier both fail, the dialling end with the
    reason given by the other.  Otherwise it depends on the addresses: if the accepting end cannot
    combine its remote address with the announced port, both fail; else it succeeds, knowing the version
    and the identifier of the other and its remote host with the announced port, and the
    dialling end succeeds likewise or, when it cannot combine the addresses, fails alone.  Whatever
    the other end does, an end that succeeds is not connected to itself. *)
Theorem handshake_settles r1 r2 h1 h2 : wf_header h1 -> wf_header h2 ->
  let start := mkLink (Dial r1 h1) (Accept r2 h2) [] [] in
  let rejected reason := mkLink (Done (Err ("could not write our header: peer rejected our header: " +:+ reason)))
                                (Done (Err ("could not read peer's header: unacceptable header: " +:+ reason))) [] [] in
  (h_ProtocolMagic h1 <> h_ProtocolMagic h2 -> h_ProtocolMagic h1 <> zeros 8 -> h_ProtocolMagic h2 <> zeros 8 ->
     settles start (mkLink (Done (Err "could not read network magic: EOF")) (Done (Err "peer uses a different wire protocol")) [] [])) /\
  (h_ProtocolMagic h1 = h_ProtocolMagic h2 ->
     (h_GenesisID h1 <> h_GenesisID h2 -> settles start (rejected "peer has different genesis block")) /\
     (h_GenesisID h1 = h_GenesisID h2 -> h_UniqueID h1 = h_UniqueID h2 -> settles start (rejected "peer has same unique ID as us")) /\
     (h_GenesisID h1 = h_GenesisID h2 -> h_UniqueID h1 <> h_UniqueID h2 ->
      match peer_addr r2 (h_NetAddress h1) with
      | Ok addr2 => settles start
          (mkLink (Done (wrap_err "could not read peer's header: " (transport_to h2 <$> peer_addr r1 (h_NetAddress h2))))
                  (Done (Ok (transport_to h1 addr2))) [] [])
      | Err e => settles start
          (mkLink (Done (Err "could not read peer's header: could not read peer's header: EOF"))
                  (Done (Err ("could not read peer's header: " +:+ e))) [] [])
      | Panic _ => False
      end)) /\
  (forall B (peer : proc B) lr rl s t, rtc link_step (mkLink (Dial r1 h1) peer lr rl) s -> l_left s = Done (Ok t) -> t_UniqueID t <> h_UniqueID h1) /\
  (forall A (peer : proc A) lr rl s t, rtc link_step (mkLink peer (Accept r2 h2) lr rl) s -> l_right s = Done (Ok t) -> t_UniqueID t <> h_UniqueID h2).
Proof.
  intros H1 H2 start rejected. split_and!.
  - intros. by apply settles_in, other_magic.
  - intros Em. assert (rtc link_step start (mkLink (dial_headers r1 h1) (accept_headers r2 h2) [] [])) as Hs by by apply same_magic. split_and!.
    + intros Eg. apply settles_in. etrans; [exact Hs|]. eapply rejected_run; [done..| |done|done].
      unfold validateHeader. cbn [sent h_GenesisID]. by rewrite (bool_decide_eq_false_2 _ Eg).
    + intros Eg Eu. apply settles_in. etrans; [exact Hs|]. eapply rejected_run; [done..| |done|done].
      unfold validateHeader. cbn [sent h_GenesisID h_UniqueID]. by rewrite (bool_decide_eq_true_2 _ Eg), (bool_decide_eq_true_2 _ Eu).
    + intros Eg Eu. destruct (peer_addr r2 (h_NetAddress h1)) as [addr2|e|p] eqn:Ea; [| |by apply addr_no_panic in Ea];
        (apply settles_in; etrans; [exact Hs|]); [by apply accepted_run|by apply no_addr_run].
  - intros B peer lr rl s t Hr Hd. pose proof (returns_left _ _ _ Hr (Dial_other r1 h1)) as H. by rewrite Hd in H.
  - intros A peer lr rl s t Hr Hd. pose proof (returns_right _ _ _ Hr (Accept_other r2 h2)) as H. by rewrite Hd in H.
Qed.

Module SampleHandshake.
Definition header (id : Z) (addr : string) : Header :=
  {| h_ProtocolMagic := QdayMagic; h_GenesisID := replicate 32 3; h_UniqueID := replicate 8 id; h_NetAddress := str_bytes addr |}.
Definition dialer : Header := header 1 "10.0.0.1:9981".
Definition listener : Header := header 2 "[::]:9982".
End SampleHandshake.

Lemma handshake_settles_witness :
  settles (mkLink (Dial (str_bytes "10.0.0.2:5000") SampleHandshake.dialer) (Accept (str_bytes "[fe80::1]:6000") SampleHandshake.listener) [] [])
    (mkLink (Done (Ok {| t_UniqueID := replicate 8 2; t_Version := str_bytes "2.0.0"; t_Addr := str_bytes "10.0.0.2:9982" |}))
            (Done (Ok {| t_UniqueID := replicate 8 1; t_Version := str_bytes "2.0.0"; t_Addr := str_bytes "[fe80::1]:9981" |})) [] []).
Proof.
  destruct (handshake_settles (str_bytes "10.0.0.2:5000") (str_bytes "[fe80::1]:6000") SampleHandshake.dialer SampleHandshake.listener)
    as (_ & H & _ & _).
  - by vm_compute.
  - by vm_compute.
  - destruct (H eq_refl) as (_ & _ & Hok). refine (Hok eq_refl _). discriminate.
Defined.
