(* ===== verification/SyncerPeerSpec.v ===== *)
(** * A relayed block reaches the chain

    From the bytes of a relayed outline to the new tip: the request is decoded, the outline is
    completed from the pool and from the peer, the block is adopted and its outline is relayed
    to the other peers. *)
From stdpp Require Import prelude strings gmap.
From Stdlib Require Import ZArith Lia.
From S2P Require Import Prelude TypesCurrency TypesData TypesEncoding TypesCodec TypesHash TypesPolicy TypesMultiproof TypesMultiproofSpec TypesBlockCodecSpec.
From S2P Require Import ConsensusWork ConsensusState ConsensusMerkle ConsensusQday ConsensusDifficulty.
From S2P Require Import ConsensusMidState ConsensusApply ConsensusValidateV1 ConsensusValidate ConsensusValidateSpec ConsensusBlockSpec.
From S2P Require Import ConsensusDifficultySpec SampleCrypto SampleChain.
From S2P Require Import ChainStore ChainPool ChainManager ChainManagerPool ChainStoreSpec ChainReorgSpec ChainManagerSpec ChainBestSpec.
From S2P Require Import SampleStore ChainPoolSpec ChainLivenessSpec ChainInvariantSpec Gateway GatewaySpec Syncer.

(** ** Steps of the handler *)
Section Steps.
Context {crypto : Crypto} {edwards : Edwards25519} {St : Type} {store : Store St}.
Implicit Types (s : RPCState (St := St)).

Lemma h_bind_ok {A B} (c : RPC A) (f : A -> RPC B) s s' x : c s = (s', Ok x) -> (x ← c; f x) s = f x s'.
Proof. intros H. unfold mbind, RPC_bind. by rewrite H. Qed.
Lemma h_call_ok {A} (f : Manager St -> outcome (Manager St * A)) m acts m' x :
  f m = Ok (m', x) -> h_call f (mkRPC m [] acts) = (mkRPC m' [] acts, Ok x).
Proof. intros H. unfold h_call. cbn [rs_others rs_cm rs_actions]. by rewrite H. Qed.
Lemma State_of_ok m acts id r : st_State (m_store m) id = Ok r -> State_of id (mkRPC m [] acts) = (mkRPC m [] acts, Ok r).
Proof. intros H. apply h_call_ok. unfold Manager_State. by rewrite H. Qed.
Lemma Block_of_ok m acts id r : st_Block (m_store m) id = Ok r -> Block_of id (mkRPC m [] acts) = (mkRPC m [] acts, Ok (option_map fst r)).
Proof. intros H. apply h_call_ok. unfold Manager_Block. by rewrite H. Qed.
Lemma TipID_ok (m : Manager St) acts : TipID (mkRPC m [] acts) = (mkRPC m [] acts, Ok (ci_ID (Tip m))).
Proof. by apply h_call_ok. Qed.
Lemma orphan_header cs b : ValidateOrphan cs b = Ok tt -> ValidateHeader cs (Block_Header b) = Ok tt.
Proof. intros H. unfold ValidateOrphan in H. do 3 ok_step H. destruct v1. by apply wrap_err_ok in E1. Qed.
Lemma enough_work cs bh s : ValidateHeader cs bh = Ok tt -> insufficient_work cs (BlockHeader_ID bh) s = (s, Ok false).
Proof.
  intros H. unfold ValidateHeader in H. do 5 ok_step H. ok_step H. apply fail_if_ok in H. unfold insufficient_work.
  erewrite h_bind_ok by (unfold h_lift; f_equal; eassumption). by rewrite H.
Qed.

(** The transactions of a block with the wanted hashes, as a node that has the block serves them. *)
Definition wanted (b : Block) (hashes : list Hash256) : list Transaction * list V2Transaction :=
  let want : gset (list Z) := list_to_set hashes in
  (filter (fun txn => Transaction_MerkleLeafHash txn ∈ want) (b_Transactions b),
   filter (fun txn => V2Transaction_MerkleLeafHash txn ∈ want) (V2Transactions b)).
Lemma SendTransactions_serves env m acts b bs index hashes enc : st_Block (m_store m) (ci_ID index) = Ok (Some (b, bs)) -> re_write env = None ->
  encodeResponse (RPCSendTransactions index hashes (wanted b hashes).1 (wanted b hashes).2) = Ok enc ->
  SendTransactions env index hashes (mkRPC m [] acts) =
  (mkRPC m [] (acts ++ [Respond (RPCSendTransactions index hashes (wanted b hashes).1 (wanted b hashes).2)]), Ok tt).
Proof.
  intros Hb Hw He. unfold SendTransactions. rewrite (h_bind_ok _ _ _ _ _ (Block_of_ok m acts _ _ Hb)). cbn [option_map fst].
  rewrite (h_bind_ok _ _ _ _ _ eq_refl). unfold respond. change (filter _ (b_Transactions b)) with (wanted b hashes).1.
  change (filter _ (V2Transactions b)) with (wanted b hashes).2.
  erewrite h_bind_ok by (unfold h_lift; rewrite He; reflexivity). erewrite h_bind_ok by reflexivity. by rewrite Hw.
Qed.
Lemma wanted_faithful b hashes : faithful b (b_Transactions b) (V2Transactions b) -> faithful b (wanted b hashes).1 (wanted b hashes).2.
Proof. intros [H1 H2]. split; intros x f Hx; apply list_elem_of_filter in Hx as [_ Hx]; eauto. Qed.
Lemma wanted_supplied b hashes f : f ∈ full_outline b -> ot_Hash f ∈ hashes -> supplied f (wanted b hashes).1 (wanted b hashes).2.
Proof.
  intros Hf Hh. unfold full_outline in Hf. apply elem_of_app in Hf as [Hf|Hf]; apply list_elem_of_fmap in Hf as (x & -> & Hx); [left|right];
    exists x; (split; [done|]); apply list_elem_of_filter; (split; [|done]); by apply elem_of_list_to_set.
Qed.
End Steps.

(** Outlines of one block differ in what they leave out. *)
Lemma outlines_agree {crypto : Crypto} b bo bo' : outlines b bo -> outlines b bo' -> set_transactions bo' (bo_Transactions bo) = bo.
Proof.
  intros [(v & E & Eh) E1 E2 E3 (p & Ep & Ea) _] [(v' & E' & Eh') E1' E2' E3' (p' & Ep' & Ea') _].
  destruct bo, bo'. unfold set_transactions. cbn in *. rewrite E in E'. injection E' as <-. rewrite Ep in Ep'. injection Ep' as <-. by subst.
Qed.
Lemma outline_full {crypto : Crypto} b bo bo' : outlines b bo -> outlines b bo' -> Missing bo' = [] -> bo' = set_transactions bo (full_outline b).
Proof. intros H H' Hm. by rewrite <- (Missing_nil b bo' H' Hm), (outlines_agree b bo' bo H' H). Qed.

(** ** A relayed outline *)
Section Relay.
Context {crypto : Crypto} {sizes : CryptoSizes} {edwards : Edwards25519}.
Context {St : Type} {store : Store St} {spec : StoreSpec St}.
Implicit Types (m : Manager St) (a : AStore).

(** Asked for at most as many transactions of [b] as a request can name, the peer sends them. *)
Definition honest (env : RPCEnv) (b : Block) (height : Z) : Prop :=
  forall hashes, (length hashes <= 100)%nat -> re_SendTransactions env {| ci_Height := height; ci_ID := Block_ID b |} hashes = Ok (wanted b hashes).

Lemma complete_outline_done env cs b b' bo payout reward s : outlines b bo -> committed cs b -> paid cs b payout reward ->
  faithful b (b_Transactions b) (V2Transactions b) -> honest env b (bo_Height bo) -> (length (Missing bo) <= 100)%nat -> (Missing bo = [] -> b' = b) ->
  complete_outline (St := St) env cs (Block_ID b) bo b' (Missing bo) s = (s, Ok (Some (set_transactions bo (full_outline b), b))).
Proof.
  intros Ho Hc Hp Hf Hh Hlen Hb. unfold complete_outline. case_bool_decide as Hm.
  - rewrite (Hb Hm), (outline_full b bo bo Ho Ho Hm) at 1. done.
  - rewrite Hh by done. destruct (wanted b (Missing bo)) as [txns v2txns] eqn:Ew.
    pose proof (wanted_faithful b (Missing bo) Hf) as Hf'. rewrite Ew in Hf'. cbn [fst snd] in Hf'.
    destruct (Complete_outline cs b bo payout reward txns v2txns Ho Hc Hp Hf') as (bo' & b1 & E & Ho' & Hb1 & _ & Hs).
    assert (Missing bo' = []) as Hm'.
    { apply Hs. intros f Hin Hmiss. pose proof (wanted_supplied b (Missing bo) f Hin Hmiss) as Hsup. by rewrite Ew in Hsup. }
    erewrite h_bind_ok by (unfold h_lift; rewrite E; reflexivity). cbn beta iota. rewrite bool_decide_true by done.
    by rewrite (Hb1 Hm'), (outline_full b bo bo' Ho Ho' Hm').
Qed.

(** What the handler does with the answer of [AddBlocks]. *)
Definition after_add (env : RPCEnv) (acts : list action) (relayed : V2BlockOutline) m1 (r : outcome (Manager St * error)) : RPCState (St := St) * outcome unit :=
  match r with
  | Ok (m2, None) => (mkRPC m2 [] (acts ++ [RelayV2BlockOutline relayed]), Ok tt)
  | Ok (m2, Some e) => ban env e (mkRPC m2 [] acts)
  | Err e => (mkRPC m1 [] acts, Err e)
  | Panic p => (mkRPC m1 [] acts, Panic p)
  end.

(** The handler completes the outline of a valid block and hands the block to [AddBlocks]. *)
Lemma handle_outline_adds g env m a p b bs' bo acts m1 txns v2txns :
  mgr_inv g m a -> b_ParentID b = ci_ID (Tip m) -> ValidateOrphan (m_tipState m) b = Ok tt -> ValidateBlock (m_tipState m) b bs' = Ok tt ->
  qday_state (m_tipState m) p -> Currency.ok (qd_Reward p) -> 0 < childHeight (m_tipState m) -> block_typed b ->
  st_State (m_store m) (ci_ID (Tip m)) = Ok (Some (m_tipState m)) -> as_index a !! Block_ID b = None -> outlines b bo ->
  TransactionsForPartialBlock m (Missing bo) = Ok (m1, (txns, v2txns)) -> faithful b txns v2txns ->
  faithful b (b_Transactions b) (V2Transactions b) -> honest env b (bo_Height bo) -> (length (Missing bo) <= 100)%nat ->
  handle_outline env bo (mkRPC m [] acts) =
  after_add env acts (RemoveTransactions (set_transactions bo (full_outline b)) txns v2txns) m1 (AddBlocks (re_now env) m1 [b]).
Proof.
  intros Hinv Hpar Horph Hv Hq Hr Hh Ht Htip Hnew Ho Hpool Hf Hff Hhon Hlen.
  destruct (valid_paid (m_tipState m) p b bs' Hq Hr Hh Ht Hv) as (Hc & (payout & reward & Hp) & _).
  pose proof (outline_has_ID (m_tipState m) b bo Ho Hc) as Eid.
  assert (bo_ParentID bo = ci_ID (Tip m)) as Epar by (by rewrite (ol_parent _ _ Ho)).
  destruct (rep_State _ _ (Block_ID b) (mi_rep _ _ _ Hinv)) as (r & Er & Ei & _). rewrite Hnew in Ei. destruct r; [done|]. clear Ei.
  destruct (Complete_outline (m_tipState m) b bo payout reward txns v2txns Ho Hc Hp Hf) as (bo1 & b1 & E1 & Ho1 & Hb1 & Hlen1 & _).
  unfold handle_outline. rewrite Epar.
  rewrite (h_bind_ok _ _ _ _ _ (State_of_ok m acts _ _ Htip)), Eid, (h_bind_ok _ _ _ _ _ (State_of_ok m acts _ _ Er)). cbn [is_some].
  pose proof (orphan_header _ _ Horph) as Hhd.
  unfold Block_ID. rewrite (h_bind_ok _ _ _ _ _ (enough_work _ _ _ Hhd)). fold (Block_ID b).
  rewrite (h_bind_ok _ _ _ _ _ (TipID_ok m acts)), bool_decide_true by done. cbn [negb].
  rewrite (h_bind_ok _ _ _ _ _ (h_call_ok _ m acts m1 _ Hpool)). cbn beta iota.
  erewrite h_bind_ok by (unfold h_lift; rewrite E1; reflexivity). cbn beta iota.
  assert (bo_Height bo1 = bo_Height bo) as Eh.
  { destruct (ol_v2 _ _ Ho) as (v & Ev & <-), (ol_v2 _ _ Ho1) as (v' & Ev' & <-). congruence. }
  erewrite h_bind_ok by (apply (complete_outline_done env (m_tipState m) b b1 bo1 payout reward); try done; [by rewrite Eh|lia]).
  assert (set_transactions bo1 (full_outline b) = set_transactions bo (full_outline b)) as -> by (by rewrite <- (outlines_agree b bo1 bo Ho1 Ho)).
  cbn beta iota. unfold mbind at 1, RPC_bind at 1, h_call. cbn [rs_others rs_cm rs_actions].
  destruct (AddBlocks (re_now env) m1 [b]) as [[m2 [e|]]| |]; reflexivity.
Qed.

(** A refreshed pool changes neither the chain nor what is valid on it. *)
Lemma child_step m m1 a now b : pool_step m m1 -> new_child m a b -> accepted m now b -> new_child m1 a b /\ accepted m1 now b.
Proof.
  intros [_ E1 E2 E3] [N1 N2 N3 N4] [A1 A2 (s & As & bs & bs' & Hb & Ho & Hv)]. unfold Tip in *. split; [by split; unfold Tip; rewrite ?E1|].
  split; [by rewrite E1|by rewrite E1|]. exists s. unfold stored_child in *. rewrite E1, E2. split; [done|]. exists bs, bs'.
  cbn [set_store m_store m_tipState m_expiringFileContractOrder] in *. by rewrite E1, E3.
Qed.

End Relay.
Import SampleChain SampleStore.

(** The sample block, relayed with its two transfers left out to a node with an empty pool. *)
Module SampleRelay.
#[local] Existing Instances Sample.crypto SampleChain.edwards SampleStore.sample_sizes SampleStore.memory_store.
Definition bo : V2BlockOutline := Eval vm_compute in
  match OutlineBlock block1 [] [transfer1; transfer2] with Ok bo => bo | _ => zeroOutline end.
Lemma bo_outlines : outlines block1 bo.
Proof.
  assert (OutlineBlock block1 [] [transfer1; transfer2] = Ok bo) as E by vm_cast_no_check (eq_refl (Ok bo)).
  destruct (OutlineBlock_outlines block1 _ (pay 11) [] [transfer1; transfer2] eq_refl eq_refl) as (bo' & E' & H).
  rewrite E in E'. apply Ok_inj in E'. by rewrite E'.
Qed.
Lemma omits_two : length (Missing bo) = 2%nat.
Proof. reflexivity. Qed.
Definition request : bytes := Eval vm_compute in match WriteRequest (RPCRelayV2BlockOutline bo) with Ok enc => enc | _ => [] end.
Lemma request_ok : WriteRequest (RPCRelayV2BlockOutline bo) = Ok request.
Proof. vm_cast_no_check (eq_refl (Ok request)). Qed.
Definition env : RPCEnv :=
  {| re_stream := request ++ [1; 2]; re_write := None; re_ban := fun _ => None;
     re_SendTransactions := fun _ hashes => Ok (wanted block1 hashes); re_now := SampleStore.now; re_connected := []; re_known := Ok [];
     re_origin := []; re_MaxSendHeaders := 2000; re_MaxSendBlocks := 10; re_network := network |}.
Lemma bo_wf : wf_outline bo.
Proof.
  split_and!; [done|done|done|by exists 1788998402|done|].
  constructor; [|constructor; [reflexivity|constructor; [reflexivity|constructor]]]. split; [wf_ground|].
  vm_cast_no_check (eq_refl (outline_v2txn coinbase)).
Qed.
Lemma own_faithful : faithful block1 (b_Transactions block1) (V2Transactions block1).
Proof.
  assert (NoDup (map V2Transaction_MerkleLeafHash [coinbase; transfer1; transfer2])) as Hnd by (eapply bool_decide_unpack; vm_cast_no_check I).
  split; [by intros x f ?%not_elem_of_nil|]. intros x f Hx Hf E. unfold full_outline in Hf. apply list_elem_of_fmap in Hf as (y & -> & Hy).
  change (x ∈ [coinbase; transfer1; transfer2]) in Hx. change (y ∈ [coinbase; transfer1; transfer2]) in Hy.
  f_equal. apply list_elem_of_lookup in Hx as [i Hi], Hy as [j Hj].
  assert (i = j) as <- by (eapply NoDup_lookup; [exact Hnd|rewrite list_lookup_fmap, Hi; reflexivity|rewrite list_lookup_fmap, Hj; exact (f_equal Some (eq_sym E))]).
  congruence.
Qed.
(** The manager with the cached state of its empty pool. *)
Definition refreshed : Manager SampleStore.t :=
  set_pool SampleStore.mgr (tp_setTxns empty_pool [] [] ∅ (Some (NewMidState tip)) 0).
Lemma nothing_pooled : TransactionsForPartialBlock SampleStore.mgr (Missing bo) = Ok (refreshed, ([], [])).
Proof. reflexivity. Qed.
Lemma block_applies : applies refreshed block1.
Proof.
  intros bs Hv. rewrite (SampleChild.no_supplement_only bs Hv). split; [|intros t cs cau _; by eexists].
  destruct block1_applies as (cs & au & Ea & _). exists timestamp. by exists (cs, au).
Qed.
Lemma nothing_strange : faithful block1 [] [].
Proof. split; by intros x f ?%not_elem_of_nil. Qed.
Lemma block1_unknown : as_index (view start) !! Block_ID block1 = None.
Proof.
  destruct block1_free as [H _]. destruct (H block1 ltac:(left)) as [Hnz [Hk|[_ H2]]]; [|exact H2]. exfalso.
  revert Hk. cbn [as_header view headers start].
  assert (bool_decide (gid = Block_ID block1) = false) as E2 by vm_cast_no_check (eq_refl false). apply bool_decide_eq_false in E2.
  by rewrite lookup_singleton_ne.
Qed.
End SampleRelay.

