(* ===== verification/SyncerSpec.v ===== *)
(** * Relaying the pool and syncing with many peers

    The packets of the relay plan stand alone, fit a request and reach every transaction that can be sent; the blocks
    of a parallel sync are added in the order of their headers. *)
From stdpp Require Import prelude strings gmap.
From Stdlib Require Import ZArith Lia.
From S2P Require Import Prelude TypesCurrency TypesData TypesEncoding TypesCodec TypesHash SampleCrypto.
From S2P Require Import TypesPolicy ConsensusWork ConsensusState ConsensusMerkle ConsensusQday ConsensusDifficulty ConsensusMidState.
From S2P Require Import ConsensusApply ConsensusValidateV1 ConsensusValidate SampleChain ChainStore ChainManager ChainManagerSpec.
From S2P Require Import SyncerPeerSpec Gateway Syncer.

(** * The packets of the pool relay are complete and fit

    The budget of relayed payloads is never exceeded.  The relay plan of a pool snapshot
    consists of standalone sets within the length limit of a request and reaches every
    transaction that can be sent with its unconfirmed ancestors in one request. *)

Lemma elem_rev {A} (x : A) l : x ∈ rev l <-> x ∈ l.
Proof. by rewrite !list_elem_of_In, <- in_rev. Qed.

(** ** The budget of relayed payloads

    [held] are the peers of the payloads in progress, one entry for each. *)
Definition held_by (p : nat) (held : list nat) : Z := zlen (filter (fun q => q = p) held).
Record budget_inv (held : list nat) (b : relayPayloadBudget) : Prop := {
  bi_active : rb_active b = zlen held /\ zlen held <= maxRelayPayloads;
  bi_peers : forall p, default 0 (rb_peers b !! p) = held_by p held /\ held_by p held <= maxPeerRelayPayloads }.
Lemma held_cons p q held : held_by p (q :: held) = (if decide (q = p) then 1 else 0) + held_by p held.
Proof. unfold held_by. rewrite filter_cons. unfold zlen. destruct (decide (q = p)); cbn [length]; lia. Qed.
(** A payload is admitted exactly when the limits leave room for it. *)
Lemma acquire_inv held b p : budget_inv held b ->
  let '(b', ok) := budget_acquire b p in
  (ok = true <-> zlen held < maxRelayPayloads /\ held_by p held < maxPeerRelayPayloads) /\
  budget_inv (if ok then p :: held else held) b'.
Proof.
  intros [[H1 H2] H3]. destruct (H3 p) as [Hp _]. unfold budget_acquire. rewrite H1, Hp.
  destruct (Z.leb_spec maxRelayPayloads (zlen held)); cbn [orb]; [split; [split; [done|lia]|by split]|].
  destruct (Z.leb_spec maxPeerRelayPayloads (held_by p held)); [split; [split; [done|lia]|by split]|].
  split; [done|]. split.
  - cbn [rb_active]. unfold zlen in *. cbn [length]. lia.
  - intros q. cbn [rb_peers]. rewrite held_cons. destruct (decide (p = q)) as [<-|Hne]; [rewrite lookup_insert_eq; cbn; lia|].
    rewrite lookup_insert_ne by done. apply H3.
Qed.
Lemma release_inv held b p : budget_inv (p :: held) b -> budget_inv held (budget_release b p).
Proof.
  intros [[H1 H2] H3]. destruct (H3 p) as [Hp Hp2]. rewrite held_cons, decide_True in Hp, Hp2 by done. unfold zlen in H1, H2. cbn [length] in H1, H2.
  split; [cbn [budget_release rb_active]; unfold zlen; lia|]. intros q. destruct (H3 q) as [Hq Hq2]. rewrite held_cons in Hq, Hq2. cbn [budget_release rb_peers]. rewrite Hp.
  replace (1 + held_by p held - 1) with (held_by p held) by lia. destruct (decide (p = q)) as [<-|Hne].
  - split; [|lia]. destruct (Z.eqb_spec (held_by p held) 0) as [E|E]; [by rewrite lookup_delete_eq, E|by rewrite lookup_insert_eq].
  - split; [|lia]. destruct (_ =? 0); rewrite ?lookup_delete_ne, ?lookup_insert_ne by done; lia.
Qed.

(** ** Sums over sets of indices *)
Section Weights.
Context (size : nat -> Z) (size_pos : forall j, 0 <= size j).
Definition load (l : list nat) : Z := foldr (fun j acc => size j + acc) 0 l.
Definition weight (X : gset nat) : Z := load (elements X).
Lemma load_app l l' : load (l ++ l') = load l + load l'.
Proof. induction l as [|j l IH]; [done|]. cbn. unfold load in *. lia. Qed.
Lemma load_perm l l' : l ≡ₚ l' -> load l = load l'.
Proof. unfold load. induction 1; cbn; lia. Qed.
Lemma load_nonneg l : 0 <= load l.
Proof. induction l as [|j l IH]; [done|]. cbn. specialize (size_pos j). unfold load in *. lia. Qed.
Lemma weight_insert j X : j ∉ X -> weight ({[j]} ∪ X) = size j + weight X.
Proof. intros Hj. unfold weight. by rewrite (load_perm _ _ (elements_union_singleton X j Hj)). Qed.
Lemma weight_mono X Y : X ⊆ Y -> weight X <= weight Y.
Proof.
  intros HXY. rewrite (union_difference_L X Y HXY). unfold weight.
  rewrite (load_perm _ _ (elements_disj_union X (Y ∖ X) ltac:(set_solver))), load_app. pose proof (load_nonneg (elements (Y ∖ X))). lia.
Qed.
Lemma weight_list l X : NoDup l -> (forall j, j ∈ l <-> j ∈ X) -> load l = weight X.
Proof. intros Hl HX. apply load_perm, NoDup_Permutation; [done|apply NoDup_elements|]. intros j. by rewrite elem_of_elements. Qed.
End Weights.

Lemma sum_insert (f : nat -> nat) j needed l : NoDup l -> j ∉ needed ->
  sum_list_with (fun k => if decide (k ∈ needed) then O else f k) l =
  ((if decide (j ∈ l) then f j else 0) + sum_list_with (fun k => if decide (k ∈ ({[j]} ∪ needed : gset nat)) then O else f k) l)%nat.
Proof.
  intros Hl Hj. induction Hl as [|k l Hk _ IH]; [done|]. cbn [sum_list_with]. rewrite IH. clear IH. destruct (decide (k = j)) as [->|Hne].
  - rewrite (decide_True (P := j ∈ j :: l)) by left. rewrite decide_False by done. rewrite (decide_False (P := j ∈ l)) by done.
    rewrite (decide_True (P := j ∈ {[j]} ∪ needed)) by set_solver. lia.
  - rewrite (decide_ext (j ∈ k :: l) (j ∈ l)) by (rewrite elem_of_cons; intuition congruence).
    rewrite (decide_ext (k ∈ {[j]} ∪ needed) (k ∈ needed)) by (rewrite elem_of_union, elem_of_singleton; intuition congruence).
    destruct (decide (k ∈ needed)); lia.
Qed.

(** ** Packing *)
Section Pack.
Context (limit : Z) (sizes : list Z) (parents : list (list nat)).
Context (sizes_pos : Forall (fun z => 0 <= z) sizes) (same_length : length parents = length sizes).
Abbreviation size_of := (fun j => default 0 (sizes !! j)).
Abbreviation parents_of := (fun j => default [] (parents !! j)).
(** Parents come before their children. *)
Context (parents_lt : forall j p, p ∈ parents_of j -> (p < j)%nat).

Lemma size_pos j : 0 <= size_of j.
Proof. cbn. destruct (sizes !! j) as [z|] eqn:E; cbn; [|lia]. by eapply Forall_lookup_1 in E. Qed.

(** A set that has the parents of its members. *)
Definition closed (C : gset nat) : Prop := forall j p, j ∈ C -> p ∈ parents_of j -> p ∈ C.

Definition remaining (needed : gset nat) : nat :=
  sum_list_with (fun j => if decide (j ∈ needed) then O else length (parents_of j)) (seq 0 (length parents)).
Lemma remaining_insert j needed : j ∉ needed -> (j < length parents)%nat ->
  remaining needed = (length (parents_of j) + remaining ({[j]} ∪ needed))%nat.
Proof.
  intros Hj Hlt. unfold remaining. rewrite (sum_insert (fun j => length (parents_of j)) j needed) by (done || apply NoDup_seq).
  rewrite decide_True; [done|]. apply elem_of_seq. lia.
Qed.
Lemma remaining_empty : remaining ∅ = sum_list (map length parents).
Proof.
  unfold remaining. clear. induction parents as [|ps l IH] using rev_ind; [done|].
  rewrite length_app, seq_app, sum_list_with_app, map_app, sum_list_with_app. cbn. f_equal.
  - rewrite <- IH. assert (forall l', (forall j, j ∈ l' -> (j < length l)%nat) ->
      sum_list_with (fun j => length (default [] ((l ++ [ps]) !! j))) l' = sum_list_with (fun j => length (default [] (l !! j))) l') as H.
    { induction l' as [|j l' IH']; intros Hl; [done|]. cbn. rewrite lookup_app_l by (apply Hl; left). f_equal. apply IH'. intros k Hk. apply Hl. by right. }
    etrans; [|apply H; intros j Hj; apply elem_of_seq in Hj; lia]. done.
  - by rewrite lookup_app_r, Nat.sub_diag by lia.
Qed.

Record walked (inPacket : gset nat) (from : gset nat) (stack : list nat) (needed : gset nat) (size : Z) : Prop := {
  wk_size : size = weight size_of needed; wk_from : from ⊆ needed; wk_new : needed ## inPacket;
  wk_range : forall j, j ∈ needed -> (j < length parents)%nat;
  wk_least : forall C, closed C -> from ⊆ C -> (forall j, j ∈ stack -> j ∈ C) -> needed ⊆ C;
  wk_done : size <= limit -> (forall j, j ∈ stack -> j ∈ needed ∪ inPacket) /\
    forall j p, j ∈ needed -> p ∈ parents_of j -> p ∈ needed ∪ inPacket }.
Lemma walk_spec fuel : forall inPacket needed stack size, size = weight size_of needed -> needed ## inPacket ->
  (forall j, j ∈ needed -> (j < length parents)%nat) -> (forall j, j ∈ stack -> (j < length parents)%nat) ->
  (forall j p, j ∈ needed -> p ∈ parents_of j -> p ∈ needed ∪ inPacket \/ p ∈ stack) ->
  (length stack + remaining needed <= fuel)%nat ->
  exists needed' size', walk limit sizes parents fuel inPacket needed stack size = Some (needed', size') /\ walked inPacket needed stack needed' size'.
Proof.
  induction fuel as [|fuel IH]; intros inPacket needed stack size Hs Hd Hn Hst Hp Hf; (destruct stack as [|j stack]; cbn [walk];
    [exists needed, size; split; [done|]; split; try done; intros _; split; [by intros k ?%not_elem_of_nil|];
     intros k p Hk Hkp; destruct (Hp k p Hk Hkp) as [?|?%not_elem_of_nil]; done|]).
  - cbn in Hf. lia.
  - destruct (Z.ltb_spec limit size) as [Hlim|Hlim].
    { exists needed, size. split; [done|]. split; try done. intros ?. lia. }
    destruct (decide (j ∈ inPacket ∪ needed)) as [Hin|Hout].
    + assert (bool_decide (j ∈ inPacket) || bool_decide (j ∈ needed) = true) as ->.
      { apply elem_of_union in Hin as [?|?]; [by rewrite bool_decide_true|]. by rewrite (bool_decide_true (j ∈ needed)), orb_true_r. }
      destruct (IH inPacket needed stack size) as (n' & s' & E & [W1 W2 W3 W4 W5 W6]); try done.
      * intros k Hk. apply Hst. by right.
      * intros k p Hk Hkp. destruct (Hp k p Hk Hkp) as [?|Hps]; [by left|]. apply elem_of_cons in Hps as [->|?]; [left; set_solver|by right].
      * cbn in Hf. lia.
      * exists n', s'. split; [done|]. split; try done.
        -- intros C HC Hne Hk. apply W5; [done|done|]. intros k Hk'. apply Hk. by right.
        -- intros Hle. destruct (W6 Hle) as [Q1 Q2]. split; [|done]. intros k [->|Hk]%elem_of_cons; [set_solver|by apply Q1].
    + apply not_elem_of_union in Hout as [Ho1 Ho2]. rewrite !bool_decide_false by done. cbn [orb].
      assert (j < length parents)%nat as Hj by (apply Hst; left).
      destruct (IH inPacket ({[j]} ∪ needed) (rev (parents_of j) ++ stack) (size + size_of j)) as (n' & s' & E & [W1 W2 W3 W4 W5 W6]).
      * rewrite weight_insert by done. lia.
      * set_solver.
      * intros k [->%elem_of_singleton|Hk]%elem_of_union; [done|by apply Hn].
      * intros k [Hk|Hk]%elem_of_app; [|apply Hst; by right]. apply elem_rev, parents_lt in Hk. lia.
      * intros k p Hk Hkp. rewrite elem_of_app, elem_rev. apply elem_of_union in Hk as [->%elem_of_singleton|Hk]; [right; by left|].
        destruct (Hp k p Hk Hkp) as [?|Hps]; [left; set_solver|]. apply elem_of_cons in Hps as [->|?]; [left; set_solver|right; by right].
      * rewrite (remaining_insert j needed Ho2 Hj) in Hf. rewrite length_app, length_rev. cbn in Hf |- *. lia.
      * exists n', s'. split; [done|]. split; try done.
        -- set_solver.
        -- intros C HC Hne Hk. apply W5; [done| |].
           ++ intros k [->%elem_of_singleton|?]%elem_of_union; [apply Hk; left|by apply Hne].
           ++ intros k [Hk'|Hk']%elem_of_app; [|apply Hk; by right]. exact (HC j k (Hk j ltac:(left)) (proj1 (elem_rev k _) Hk')).
        -- intros Hle. destruct (W6 Hle) as [Q1 Q2]. split; [|done]. intros k [->|Hk]%elem_of_cons; [set_solver|]. apply Q1, elem_of_app. by right.
Qed.
Lemma walk_one inPacket i : (i < length parents)%nat ->
  exists needed size, walk limit sizes parents (walk_fuel parents) inPacket ∅ [i] 0 = Some (needed, size) /\ walked inPacket ∅ [i] needed size.
Proof.
  intros Hi. apply walk_spec; [done|set_solver|set_solver|by intros j ->%list_elem_of_singleton|set_solver|].
  rewrite remaining_empty. unfold walk_fuel. cbn. lia.
Qed.

(** *** Packets *)

(** Each index once, after its parents, and all within the limit. *)
Record good_packet (l : list nat) : Prop := {
  gp_nodup : NoDup l; gp_range : forall j, j ∈ l -> (j < length parents)%nat;
  gp_order : forall k j p, l !! k = Some j -> p ∈ parents_of j -> p ∈ take k l;
  gp_fits : l = [] \/ load size_of l <= limit }.
(** What can be sent in one packet is in a packet. *)
Definition served (i : nat) (st : packing) : Prop :=
  forall C, closed C -> i ∈ C -> weight size_of C <= limit -> i ∈ pk_packet st \/ exists l, l ∈ pk_sets st /\ i ∈ l.
Record pack_ok (upto : nat) (st : packing) : Prop := {
  po_sets : forall l, l ∈ pk_sets st -> good_packet l /\ l <> [];
  po_packet : good_packet (pk_packet st);
  po_in : forall j, j ∈ pk_inPacket st <-> j ∈ pk_packet st;
  po_bytes : pk_bytes st = load size_of (pk_packet st);
  po_served : forall i, (i < upto)%nat -> served i st }.

Lemma empty_packet : good_packet [].
Proof. split; [constructor|by intros j ?%not_elem_of_nil|done|by left]. Qed.
Lemma good_closed l j p : good_packet l -> j ∈ l -> p ∈ parents_of j -> p ∈ l.
Proof.
  intros [_ _ Ho _] Hj Hp. apply list_elem_of_lookup in Hj as [k Hk]. pose proof (Ho k j p Hk Hp) as H.
  apply elem_of_take in H as (i & Hi & _). by eapply list_elem_of_lookup_2.
Qed.
Lemma flush_ok upto st : pack_ok upto st -> pack_ok upto (flush st) /\ pk_packet (flush st) = [].
Proof.
  intros [H1 H2 H3 H4 H5]. split; [|done]. split; cbn [flush pk_sets pk_packet pk_inPacket pk_bytes].
  - intros l Hl. case_bool_decide as Hn; [by apply H1|]. apply elem_of_app in Hl as [Hl| ->%list_elem_of_singleton]; [by apply H1|done].
  - apply empty_packet.
  - intros j. split; [by intros ?%elem_of_empty|by intros ?%not_elem_of_nil].
  - done.
  - intros i Hi C HC HiC Hw. right. destruct (H5 i Hi C HC HiC Hw) as [Hp|(l & Hl & Hil)].
    + exists (pk_packet st). split; [|done]. cbn [flush pk_sets]. rewrite bool_decide_false by (intros E; rewrite E in Hp; by apply not_elem_of_nil in Hp). set_solver.
    + exists l. split; [|done]. cbn [flush pk_sets]. case_bool_decide; set_solver.
Qed.

Lemma elem_of_sorted needed j : (forall k, k ∈ needed -> (k < length sizes)%nat) -> j ∈ sorted_indices sizes needed <-> j ∈ needed.
Proof. intros Hr. unfold sorted_indices. rewrite list_elem_of_filter, elem_of_seq. split; [by intros [? _]|]. intros Hj. split; [done|]. specialize (Hr j Hj). lia. Qed.
(** The indices before a member are the smaller ones. *)
Lemma sorted_before needed k j p : sorted_indices sizes needed !! k = Some j -> p ∈ sorted_indices sizes needed -> (p < j)%nat ->
  p ∈ take k (sorted_indices sizes needed).
Proof.
  unfold sorted_indices. generalize 0%nat. revert k. clear. induction (length sizes) as [|n IH]; intros k s; [done|]. cbn [seq]. rewrite filter_cons.
  destruct (decide (s ∈ needed)); [|apply IH]. intros Hk Hp Hlt. destruct k as [|k]; cbn [lookup list_lookup take] in Hk |- *.
  - injection Hk as ->. apply elem_of_cons in Hp as [->|Hp]; [lia|]. apply list_elem_of_filter in Hp as [_ Hp%elem_of_seq]. lia.
  - apply elem_of_cons in Hp as [->|Hp]; [left|right; by apply IH].
Qed.

Lemma good_append l needed size i : good_packet l -> walked (list_to_set l) ∅ [i] needed size -> load size_of l + size <= limit ->
  good_packet (l ++ sorted_indices sizes needed) /\ load size_of (l ++ sorted_indices sizes needed) = load size_of l + size /\
  (size <= limit -> i ∈ l ++ sorted_indices sizes needed).
Proof.
  intros Hl [W1 W2 W3 W4 W5 W6] Hle.
  assert (forall j, j ∈ sorted_indices sizes needed <-> j ∈ needed) as Hmem.
  { intros j. apply elem_of_sorted. rewrite <- same_length. done. }
  assert (NoDup (sorted_indices sizes needed)) as Hnd by (apply NoDup_filter, NoDup_seq).
  pose proof (weight_list size_of _ needed Hnd Hmem) as Hwt. pose proof (load_nonneg size_of size_pos l) as Hpos.
  assert (size <= limit) as Hsz by lia. destruct (W6 Hsz) as [Q1 Q2].
  assert (load size_of (l ++ sorted_indices sizes needed) = load size_of l + size) as Hload by (rewrite load_app; lia).
  split; [|split; [done|]].
  - destruct Hl as [G1 G2 G3 G4]. split.
    + apply NoDup_app. split_and!; [done| |done]. intros j Hj Hj'%Hmem. set_solver.
    + intros j [Hj|Hj%Hmem]%elem_of_app; [by apply G2|by apply W4].
    + intros k j p Hk Hp. apply lookup_app_Some in Hk as [Hk|[Hge Hk]].
      * rewrite take_app_le by (apply lookup_lt_Some in Hk; lia). by eapply G3.
      * rewrite take_app_ge by done. apply elem_of_app. assert (j ∈ needed) as Hj by (apply Hmem; by eapply list_elem_of_lookup_2).
        pose proof (Q2 j p Hj Hp) as Hx. apply elem_of_union in Hx as [Hn|Hin]; [right|left; by apply elem_of_list_to_set in Hin].
        apply (sorted_before needed _ j); [done|by apply Hmem|by apply parents_lt].
    + right. lia.
  - intros _. apply elem_of_app. pose proof (Q1 i ltac:(left)) as Hx. apply elem_of_union in Hx as [Hn|Hin]; [right; by apply Hmem|left; by apply elem_of_list_to_set in Hin].
Qed.

(** A transaction that does not fit cannot be sent in any packet. *)
Lemma too_large inPacket i needed size C : walked inPacket ∅ [i] needed size -> closed C -> i ∈ C -> limit < size -> limit < weight size_of C.
Proof.
  intros [W1 W2 W3 W4 W5 W6] HC Hi Hlt. assert (needed ⊆ C) as Hsub by (apply W5; [done|set_solver|by intros j ->%list_elem_of_singleton]).
  pose proof (weight_mono size_of size_pos needed C Hsub). lia.
Qed.
Lemma served_extends i st st' : served i st -> pk_sets st = pk_sets st' -> (forall j, j ∈ pk_packet st -> j ∈ pk_packet st') -> served i st'.
Proof. intros Hs E Hp C HC Hi Hw. rewrite <- E. destruct (Hs C HC Hi Hw) as [?|?]; [left; by apply Hp|by right]. Qed.

(** The last round, in which there is room or nothing to flush. *)
Lemma place_here rounds i st needed size : pack_ok i st -> walked (pk_inPacket st) ∅ [i] needed size ->
  walk limit sizes parents (walk_fuel parents) (pk_inPacket st) ∅ [i] 0 = Some (needed, size) ->
  (limit <? pk_bytes st + size) && negb (bool_decide (pk_packet st = [])) = false ->
  exists st', place limit sizes parents (S rounds) i st = Some st' /\ pack_ok (S i) st'.
Proof.
  intros Hok Hw E Hroom. cbn [place]. rewrite E. cbn [mbind option_bind]. rewrite Hroom. destruct Hok as [H1 H2 H3 H4 H5].
  assert (pk_inPacket st = list_to_set (pk_packet st)) as Ein by (apply leibniz_equiv; intros j; by rewrite H3, elem_of_list_to_set).
  destruct (Z.ltb_spec limit size) as [Hlt|Hle].
  - exists st. split; [done|]. split; try done. intros i' Hi' C HC HiC Hwt. destruct (decide (i' = i)) as [->|Hne]; [|exact (H5 i' ltac:(lia) C HC HiC Hwt)].
    pose proof (too_large _ _ _ _ _ Hw HC HiC Hlt). lia.
  - assert (load size_of (pk_packet st) + size <= limit) as Hfit.
    { apply andb_false_iff in Hroom as [Hr%Z.ltb_ge|Hr]; [lia|]. apply negb_false_iff, bool_decide_eq_true in Hr. rewrite Hr. cbn. lia. }
    rewrite Ein in Hw. destruct (good_append _ _ _ _ H2 Hw Hfit) as (G & Gl & Gi). eexists. split; [done|]. split; cbn [pk_sets pk_packet pk_inPacket pk_bytes].
    + done.
    + done.
    + intros j. rewrite elem_of_union, elem_of_app, H3, elem_of_sorted; [done|]. rewrite <- same_length. apply Hw.
    + lia.
    + intros i' Hi'. destruct (decide (i' = i)) as [->|Hne].
      * intros C HC HiC Hwt. left. by apply Gi.
      * apply (served_extends i' st); [apply H5; lia|done|]. intros j Hj. cbn [pk_packet]. apply elem_of_app. by left.
Qed.
Lemma place_ok i st : (i < length parents)%nat -> pack_ok i st -> exists st', place limit sizes parents 2 i st = Some st' /\ pack_ok (S i) st'.
Proof.
  intros Hi Hok. destruct (walk_one (pk_inPacket st) i Hi) as (needed & size & E & Hw).
  destruct ((limit <? pk_bytes st + size) && negb (bool_decide (pk_packet st = []))) eqn:Er; [|by eapply place_here].
  destruct (flush_ok i st Hok) as [Hok' Hempty]. destruct (walk_one (pk_inPacket (flush st)) i Hi) as (needed' & size' & E' & Hw').
  change (place limit sizes parents 2 i st) with ('(needed, size) ← walk limit sizes parents (walk_fuel parents) (pk_inPacket st) ∅ [i] 0;
    if (limit <? pk_bytes st + size) && negb (bool_decide (pk_packet st = [])) then place limit sizes parents 1 i (flush st)
    else if limit <? size then Some st
    else Some (mkPack (pk_sets st) (pk_packet st ++ sorted_indices sizes needed) (pk_inPacket st ∪ needed) (pk_bytes st + size))).
  rewrite E. cbn [mbind option_bind]. rewrite Er. eapply place_here; [done|done|done|]. by rewrite Hempty, bool_decide_true, andb_false_r.
Qed.
Lemma pack_all_ok : exists sets, pk_sets <$> pack_all limit sizes parents (seq 0 (length sizes)) (mkPack [] [] ∅ 0) = Some sets /\
  (forall l, l ∈ sets -> good_packet l /\ l <> []) /\
  forall i C, (i < length sizes)%nat -> closed C -> i ∈ C -> weight size_of C <= limit -> exists l, l ∈ sets /\ i ∈ l.
Proof.
  assert (forall n s st, (s + n <= length parents)%nat -> pack_ok s st ->
    exists st', pack_all limit sizes parents (seq s n) st = Some (flush st') /\ pack_ok (s + n) st') as H.
  { induction n as [|n IH]; intros s st Hle Hok; cbn [seq pack_all]; [exists st; by rewrite Nat.add_0_r|].
    destruct (place_ok s st ltac:(lia) Hok) as (st1 & -> & Hok1). cbn [mbind option_bind].
    destruct (IH (S s) st1 ltac:(lia) Hok1) as (st' & ? & ?). exists st'. by rewrite Nat.add_succ_r. }
  destruct (H (length sizes) 0%nat (mkPack [] [] ∅ 0)) as (st & E & Hok); [lia|split; cbn; [by intros l ?%not_elem_of_nil|apply empty_packet|set_solver|done|lia]|].
  destruct (flush_ok _ _ Hok) as [[F1 _ _ _ F5] Fe]. exists (pk_sets (flush st)). rewrite E. split_and!; [done|done|].
  intros i C Hi HC HiC Hw. destruct (F5 i Hi C HC HiC Hw) as [Hp|?]; [|done]. rewrite Fe in Hp. by apply not_elem_of_nil in Hp.
Qed.
End Pack.

(** ** The parents of a snapshot *)
Section Parents.
Context {crypto : Crypto}.
Implicit Types (txns pre : list V2Transaction) (id : SiacoinOutputID).

Definition creates (txn : V2Transaction) (id : SiacoinOutputID) : Prop :=
  exists j, (j < length (v2tx_SiacoinOutputs txn))%nat /\ V2SiacoinOutputID (V2Transaction_ID txn) j = id.
(** [txn] spends the output [id] of a transaction that is not in a block. *)
Definition spends_unconfirmed (txn : V2Transaction) (id : SiacoinOutputID) : Prop :=
  exists inp, inp ∈ v2tx_SiacoinInputs txn /\ se_LeafIndex (sce_StateElement (v2sci_Parent inp)) = UnassignedLeafIndex /\ sce_ID (v2sci_Parent inp) = id.
Definition last_creator txns (i : nat) (id : SiacoinOutputID) (p : nat) : Prop :=
  (p < i)%nat /\ (exists t, txns !! p = Some t /\ creates t id) /\ forall q t, (p < q < i)%nat -> txns !! q = Some t -> ~ creates t id.
Definition parent_of txns (i p : nat) : Prop :=
  exists txn id, txns !! i = Some txn /\ spends_unconfirmed txn id /\ last_creator txns i id p.

Definition outputs_ok pre (outputs : idmap nat) : Prop := forall id,
  match outputs !! id with Some p => last_creator pre (length pre) id p | None => forall t, t ∈ pre -> ~ creates t id end.

Lemma last_creator_app pre rest i id p : (i <= length pre)%nat -> last_creator (pre ++ rest) i id p <-> last_creator pre i id p.
Proof.
  intros Hi. unfold last_creator. split; intros (H1 & (t & Ht & Hc) & H3); (split; [done|]; split).
  - exists t. by rewrite lookup_app_l in Ht by lia.
  - intros q t' Hq Ht'. apply (H3 q); [done|]. by rewrite lookup_app_l by lia.
  - exists t. by rewrite lookup_app_l by lia.
  - intros q t' Hq Ht'. rewrite lookup_app_l in Ht' by lia. by apply (H3 q).
Qed.
Lemma add_outputs_lookup id i outs : forall j m x,
  (exists k, (j <= k < j + length outs)%nat /\ V2SiacoinOutputID id k = x) /\ add_outputs id i j outs m !! x = Some i \/
  (forall k, (j <= k < j + length outs)%nat -> V2SiacoinOutputID id k <> x) /\ add_outputs id i j outs m !! x = m !! x.
Proof.
  induction outs as [|o outs IH]; intros j m x; cbn [add_outputs length]; [right; split; [lia|done]|].
  destruct (IH (S j) (<[V2SiacoinOutputID id j := i]> m) x) as [[(k & Hk & E) H]|[Hn H]].
  - left. split; [exists k; split; [lia|done]|done].
  - destruct (decide (V2SiacoinOutputID id j = x)) as [E|Hne].
    + left. split; [exists j; split; [lia|done]|]. rewrite H. subst x. apply lookup_insert_eq.
    + right. split; [|rewrite H; by apply lookup_insert_ne]. intros k Hk. destruct (decide (k = j)) as [->|]; [done|]. apply Hn. lia.
Qed.
Lemma outputs_snoc pre txn outputs : outputs_ok pre outputs ->
  outputs_ok (pre ++ [txn]) (add_outputs (V2Transaction_ID txn) (length pre) 0 (v2tx_SiacoinOutputs txn) outputs).
Proof.
  intros Ho x. destruct (add_outputs_lookup (V2Transaction_ID txn) (length pre) (v2tx_SiacoinOutputs txn) 0 outputs x) as [[(k & Hk & E) ->]|[Hn ->]].
  - split; [rewrite length_app; cbn; lia|]. split.
    + exists txn. split; [by rewrite lookup_app_r, Nat.sub_diag by lia|]. exists k. split; [lia|done].
    + intros q t Hq. rewrite length_app in Hq. cbn in Hq. lia.
  - assert (~ creates txn x) as Hno by (intros (k & Hk & E); apply (Hn k); [lia|done]).
    specialize (Ho x). destruct (outputs !! x) as [p|].
    + destruct Ho as (H1 & (t & Ht & Hc) & H3). split; [rewrite length_app; cbn; lia|]. split.
      * exists t. split; [by apply lookup_app_l_Some|done].
      * intros q t' Hq Ht'. apply lookup_app_Some in Ht' as [Ht'|[Hge Ht']]; [apply (H3 q); [apply lookup_lt_Some in Ht'; lia|done]|].
        apply list_lookup_singleton_Some in Ht' as [_ <-]. done.
    + intros t [Ht| ->%list_elem_of_singleton]%elem_of_app; [by apply Ho|done].
Qed.
Definition missing_parent : string := "transaction pool snapshot is missing an unconfirmed parent".
Lemma unconfirmed_parents_spec outputs ins :
  match unconfirmed_parents outputs ins with
  | Ok ps => (forall p, p ∈ ps <-> exists inp, inp ∈ ins /\ se_LeafIndex (sce_StateElement (v2sci_Parent inp)) = UnassignedLeafIndex /\
                outputs !! sce_ID (v2sci_Parent inp) = Some p) /\
             forall inp, inp ∈ ins -> se_LeafIndex (sce_StateElement (v2sci_Parent inp)) = UnassignedLeafIndex -> is_Some (outputs !! sce_ID (v2sci_Parent inp))
  | Err e => e = missing_parent /\ exists inp, inp ∈ ins /\ se_LeafIndex (sce_StateElement (v2sci_Parent inp)) = UnassignedLeafIndex /\ outputs !! sce_ID (v2sci_Parent inp) = None
  | Panic _ => False
  end.
Proof.
  induction ins as [|inp ins IH]; cbn [unconfirmed_parents].
  { split; [|by intros inp ?%not_elem_of_nil]. intros p. split; [by intros ?%not_elem_of_nil|]. by intros (inp & ?%not_elem_of_nil & _). }
  destruct (Z.eqb_spec (se_LeafIndex (sce_StateElement (v2sci_Parent inp))) UnassignedLeafIndex) as [El|El]; cbn [negb].
  - destruct (outputs !! sce_ID (v2sci_Parent inp)) as [p0|] eqn:E0; [|split; [done|]; exists inp; split; [left|done]].
    destruct (unconfirmed_parents outputs ins) as [ps|e|]; cbn [mbind outcome_bind]; [|destruct IH as [-> (i' & ? & ?)]; split; [done|]; exists i'; split; [by right|done]|done].
    destruct IH as [IH1 IH2]. split.
    + intros p. rewrite elem_of_cons, IH1. split.
      * intros [->|(i' & ? & ?)]; [exists inp; split; [left|done]|exists i'; split; [by right|done]].
      * intros (i' & [->|Hi]%elem_of_cons & Hl & E'); [left; congruence|right; by exists i'].
    + intros i' [->|Hi]%elem_of_cons Hl; [by eexists|by apply IH2].
  - destruct (unconfirmed_parents outputs ins) as [ps|e|]; [|destruct IH as [-> (i' & ? & ?)]; split; [done|]; exists i'; split; [by right|done]|done].
    destruct IH as [IH1 IH2]. split.
    + intros p. rewrite IH1. split.
      * intros (i' & ? & ?). exists i'. split; [by right|done].
      * intros (i' & [->|Hi]%elem_of_cons & Hl & E'); [done|by exists i'].
    + intros i' [->|Hi]%elem_of_cons Hl; [done|by apply IH2].
Qed.

(** Every unconfirmed parent is created earlier in the snapshot, as in a valid pool. *)
Definition complete_snapshot txns : Prop := forall i txn id, txns !! i = Some txn -> spends_unconfirmed txn id ->
  exists p t, (p < i)%nat /\ txns !! p = Some t /\ creates t id.

Lemma find_parents_spec txns : forall pre outputs, outputs_ok pre outputs ->
  match find_parents (length pre) txns outputs with
  | Ok ps => length ps = length txns /\ (forall k p, p ∈ default [] (ps !! k) <-> parent_of (pre ++ txns) (length pre + k) p) /\
      forall k txn id, txns !! k = Some txn -> spends_unconfirmed txn id -> exists p, last_creator (pre ++ txns) (length pre + k) id p
  | Err e => e = missing_parent /\ exists k txn id, txns !! k = Some txn /\ spends_unconfirmed txn id /\
      forall t, t ∈ take (length pre + k) (pre ++ txns) -> ~ creates t id
  | Panic _ => False
  end.
Proof.
  induction txns as [|txn txns IH]; intros pre outputs Ho; cbn [find_parents].
  { split; [done|]. split; [|done]. intros k p. split; [by intros ?%not_elem_of_nil|]. intros (txn & id & H & _ & _). rewrite lookup_app_r, lookup_nil in H by lia. done. }
  pose proof (unconfirmed_parents_spec outputs (v2tx_SiacoinInputs txn)) as Hu.
  destruct (unconfirmed_parents outputs (v2tx_SiacoinInputs txn)) as [ps|e|]; cbn [mbind outcome_bind]; [|destruct Hu as [-> (inp & Hi & Hl & E)]|done].
  2: { split; [done|]. exists 0%nat, txn, (sce_ID (v2sci_Parent inp)). split; [done|]. split; [by exists inp|]. rewrite Nat.add_0_r, take_app_length. specialize (Ho (sce_ID (v2sci_Parent inp))). by rewrite E in Ho. }
  destruct Hu as [Hu1 Hu2]. specialize (IH (pre ++ [txn]) _ (outputs_snoc pre txn outputs Ho)). rewrite length_app, Nat.add_comm in IH. cbn [length Nat.add] in IH.
  rewrite <- app_assoc in IH. cbn [app] in IH.
  destruct (find_parents (S (length pre)) txns _) as [rest|e|]; cbn [mbind outcome_bind]; [|destruct IH as [-> (k & t & id & Hk & Hs & Hn)]|done].
  2: { split; [done|]. exists (S k), t, id. rewrite Nat.add_succ_r. by split_and!. }
  assert (forall id p, outputs !! id = Some p <-> last_creator (pre ++ txn :: txns) (length pre) id p) as Hlast.
  { intros id p. rewrite last_creator_app by done. specialize (Ho id). split; [intros E; by rewrite E in Ho|]. intros (H1 & (t & Ht & Hc) & H3).
    destruct (outputs !! id) as [q|]; [|by destruct (Ho t (list_elem_of_lookup_2 _ _ _ Ht))]. destruct Ho as (Q1 & (t' & Ht' & Hc') & Q3).
    destruct (Nat.lt_trichotomy p q) as [Hlt|[->|Hgt]]; [by destruct (H3 q t')|done|by destruct (Q3 p t)]. }
  destruct IH as (IH1 & IH2 & IH3). split; [cbn; lia|]. split.
  - intros [|k] p; cbn [lookup list_lookup].
    + rewrite Nat.add_0_r. unfold parent_of. cbn [default]. rewrite Hu1. split.
      * intros (inp & Hi & Hl & E). exists txn, (sce_ID (v2sci_Parent inp)). split; [by rewrite lookup_app_r, Nat.sub_diag by lia|]. split; [by exists inp|]. by apply Hlast.
      * intros (t & id & Ht & (inp & Hi & Hl & <-) & Hc). rewrite lookup_app_r, Nat.sub_diag in Ht by lia. injection Ht as <-. exists inp. split_and!; [done|done|]. by apply Hlast.
    + rewrite Nat.add_succ_r. apply IH2.
  - intros [|k] t id Hk Hs; cbn in Hk.
    + injection Hk as <-. destruct Hs as (inp & Hi & Hl & <-). destruct (Hu2 inp Hi Hl) as [p E]. exists p. rewrite Nat.add_0_r. by apply Hlast.
    + rewrite Nat.add_succ_r. by eapply IH3.
Qed.
Lemma snapshot_parents txns :
  (exists ps, find_parents 0 txns ∅ = Ok ps /\ complete_snapshot txns /\ length ps = length txns /\
     (forall k p, p ∈ default [] (ps !! k) <-> parent_of txns k p) /\
     forall k txn id, txns !! k = Some txn -> spends_unconfirmed txn id -> exists p, last_creator txns k id p) \/
  find_parents 0 txns ∅ = Err missing_parent /\ ~ complete_snapshot txns.
Proof.
  assert (outputs_ok [] ∅) as Ho by (intros id; rewrite lookup_empty; by intros t ?%not_elem_of_nil).
  pose proof (find_parents_spec txns [] ∅ Ho) as H. cbn [length Nat.add app] in H. destruct (find_parents 0 txns ∅) as [ps|e|]; [left|right|done].
  - destruct H as (H1 & H2 & H3). exists ps. split_and!; try done. intros i txn id Hi Hs. destruct (H3 i txn id Hi Hs) as (p & Hlt & (t & Ht & Hc) & _). by exists p, t.
  - destruct H as [-> (k & txn & id & Hk & Hs & Hn)]. split; [done|]. intros Hc. destruct (Hc k txn id Hk Hs) as (p & t & Hp & Ht & Hcr).
    apply (Hn t); [|done]. apply elem_of_take. by exists p.
Qed.
End Parents.

(** ** The plan *)
Section Plan.
Context {crypto : Crypto}.

Lemma packet_txns (txns : list V2Transaction) (l : list nat) : (forall j, j ∈ l -> (j < length txns)%nat) ->
  Forall2 (fun j t => txns !! j = Some t) l (omap (fun j => txns !! j) l).
Proof.
  induction l as [|j l IH]; intros Hl; [constructor|]. cbn. destruct (lookup_lt_is_Some_2 txns j (Hl j ltac:(left))) as [t Et]. rewrite Et.
  constructor; [done|]. apply IH. intros k Hk. apply Hl. by right.
Qed.
Abbreviation sizes_of txns := (fun j => default 0 (map encoded_size txns !! j)).
Lemma packet_bytes (txns : list V2Transaction) l ts : Forall2 (fun j t => txns !! j = Some t) l ts ->
  zlen (flat_map V2Transaction_EncodeTo ts) = load (sizes_of txns) l.
Proof.
  induction 1 as [|j t l ts E _ IH]; [done|]. cbn [flat_map load foldr]. rewrite zlen_app, IH. f_equal.
  rewrite list_lookup_fmap, E. reflexivity.
Qed.

(** A set that can be added to a pool that has none of its transactions: every unconfirmed parent is in the set, before its child. *)
Definition standalone (l : list V2Transaction) : Prop := forall k txn id, l !! k = Some txn -> spends_unconfirmed txn id ->
  exists k' t, (k' < k)%nat /\ l !! k' = Some t /\ creates t id.
(** The indices [C] are those of transactions of the snapshot together with all of their unconfirmed ancestors. *)
Definition with_ancestors (txns : list V2Transaction) (C : gset nat) : Prop := forall j p, j ∈ C -> parent_of txns j p -> p ∈ C.

Lemma packet_standalone limit txns ps l : length ps = length txns ->
  (forall k p, p ∈ default [] (ps !! k) <-> parent_of txns k p) ->
  (forall k txn id, txns !! k = Some txn -> spends_unconfirmed txn id -> exists p, last_creator txns k id p) ->
  good_packet limit (map encoded_size txns) ps l -> standalone (omap (fun j => txns !! j) l).
Proof.
  intros Hlen Hps Hlast [_ Hr Ho _] k txn id Hk Hs.
  assert (Forall2 (fun j t => txns !! j = Some t) l (omap (fun j => txns !! j) l)) as HF by (apply packet_txns; intros j Hj; rewrite <- Hlen; by apply Hr).
  destruct (Forall2_lookup_r _ _ _ _ _ HF Hk) as (j & Hj & Et). destruct (Hlast j txn id Et Hs) as (p & Hp).
  assert (p ∈ take k l) as Hin by (apply (Ho k j p Hj), Hps; by exists txn, id).
  apply elem_of_take in Hin as (k' & Hk' & Hlt). destruct (Forall2_lookup_l _ _ _ _ _ HF Hk') as (t & Ht & Etp).
  exists k', t. split_and!; [done|done|]. destruct Hp as (_ & (t' & Ht' & Hcr) & _). congruence.
Qed.
End Plan.

(** C16: the relay plan of the pool.  [qdayPoolRelayPlan] succeeds exactly on the snapshots in which every
    unconfirmed parent comes before its child, and its loops end.  Every set of the plan is
    not empty, has the given basis, consists of different transactions of the snapshot with every unconfirmed parent
    before its child, and is encoded in a request of at most the given length.  Every
    transaction that can be sent together with its unconfirmed ancestors in one such request is
    in a set of the plan. *)
Theorem relay_plan_correct {crypto : Crypto} basis txns maxRequestBytes : length (ci_ID basis) = 32%nat ->
  (complete_snapshot txns <-> is_Ok (qdayPoolRelayPlan basis txns maxRequestBytes)) /\
  (~ complete_snapshot txns -> qdayPoolRelayPlan basis txns maxRequestBytes = Err missing_parent) /\
  forall sets, qdayPoolRelayPlan basis txns maxRequestBytes = Ok sets ->
    (forall set, set ∈ sets -> rs_basis set = basis /\ rs_txns set <> [] /\ standalone (rs_txns set) /\
       (exists l, NoDup l /\ Forall2 (fun j t => txns !! j = Some t) l (rs_txns set)) /\
       exists request, WriteRequest (RPCRelayV2TransactionSet (rs_basis set) (rs_txns set)) = Ok request /\ zlen request <= maxRequestBytes) /\
    forall i txn C, txns !! i = Some txn -> with_ancestors txns C -> i ∈ C ->
      8 + 32 + 8 + weight (fun j => default 0 (map encoded_size txns !! j)) C <= maxRequestBytes ->
      exists set, set ∈ sets /\ txn ∈ rs_txns set.
Proof.
  intros Hid. unfold qdayPoolRelayPlan.
  destruct (snapshot_parents txns) as [(ps & -> & Hc & Hlen & Hps & Hlast)|[-> Hn]]; cbn [mbind outcome_bind].
  2: { split; [split; [done|by intros [? ?]]|]. by split. }
  set (limit := maxRequestBytes - (8 + 32 + 8)). set (sizes := map encoded_size txns).
  assert (length sizes = length txns) as Els by apply length_map.
  assert (Forall (fun z => 0 <= z) sizes) as Hpos by (apply Forall_forall; intros z Hz; apply list_elem_of_fmap in Hz as (t & -> & _); apply zlen_nonneg).
  assert (forall j p, p ∈ default [] (ps !! j) -> (p < j)%nat) as Hlt by (intros j p (t & id & _ & _ & H & _)%Hps; done).
  destruct (pack_all_ok limit sizes ps Hpos ltac:(congruence) Hlt) as (packs & E & Hgood & Hserve). rewrite Els in E.
  destruct (pack_all limit sizes ps (seq 0 (length txns)) _) as [st|]; [|done]. injection E as <-.
  split; [split; [by eexists|done]|]. split; [done|]. intros sets Hsets. apply Ok_inj in Hsets. subst sets. split.
  - intros set Hset. apply list_elem_of_fmap in Hset as (l & -> & Hl). cbn [rs_basis rs_txns]. destruct (Hgood l Hl) as [Hg Hne].
    assert (Forall2 (fun j t => txns !! j = Some t) l (omap (fun j => txns !! j) l)) as HF by (apply packet_txns; intros j Hj; rewrite <- Hlen; by apply Hg).
    split_and!; [done| | | |].
    + intros E0. rewrite E0 in HF. by inversion HF.
    + by eapply packet_standalone.
    + exists l. split; [apply Hg|done].
    + eexists. split; [reflexivity|]. unfold ChainIndex_EncodeTo, EncodeSlice. rewrite !zlen_app, !zlen_WriteUint64, (packet_bytes txns l _ HF).
      unfold Array_EncodeTo, zlen. rewrite Hid. destruct (gp_fits _ _ _ _ Hg) as [->|Hfit]; [done|]. unfold limit in Hfit. fold sizes. lia.
  - intros i txn C Hi HC HiC Hw. destruct (Hserve i C) as (l & Hl & Hil); [rewrite Els; by eapply lookup_lt_Some|..].
    + intros j p Hj Hp. by apply (HC j), Hps.
    + done.
    + unfold limit. fold sizes in Hw. lia.
    + eexists. split; [apply list_elem_of_fmap; by exists l|]. cbn [rs_txns]. apply list_elem_of_omap. by exists i.
Qed.

#[local] Existing Instance Sample.crypto.
Lemma relay_plan_correct_witness : exists sets,
  qdayPoolRelayPlan (s_Index SampleChain.tip) [SampleChain.transfer1; SampleChain.transfer2] 5000000 = Ok sets /\
  sets <> [] /\ Forall (fun set => standalone (rs_txns set)) sets.
Proof.
  destruct (relay_plan_correct (s_Index SampleChain.tip) [SampleChain.transfer1; SampleChain.transfer2] 5000000 eq_refl) as (_ & _ & H).
  assert (length <$> qdayPoolRelayPlan (s_Index SampleChain.tip) [SampleChain.transfer1; SampleChain.transfer2] 5000000 = Ok 1%nat) as E
    by vm_cast_no_check (eq_refl (Ok 1%nat)).
  destruct (qdayPoolRelayPlan (s_Index SampleChain.tip) [SampleChain.transfer1; SampleChain.transfer2] 5000000) as [sets| |] eqn:Ep;
    [|discriminate E|discriminate E].
  exists sets. split; [exact eq_refl|]. split; [intros ->; discriminate E|].
  destruct (H sets eq_refl) as [H1 _]. apply Forall_forall. intros set Hset. exact (proj1 (proj2 (proj2 (H1 set Hset)))).
Defined.

(** * Blocks fetched from many peers are added in order

    Whatever the peers send and however the workers interleave, the blocks handed to the chain
    manager are those of the headers, in the order of the headers. *)

Section Chains.
Context {crypto : Crypto}.
Implicit Types (hs : list BlockHeader).

Definition linked hs : Prop := forall k a b, hs !! k = Some a -> hs !! S k = Some b -> bh_ParentID b = BlockHeader_ID a.
(** A received header with the identifier of an expected one and another parent: two strings with one digest, since the
    identifier is the digest of an encoding that begins with the parent. *)
Definition forged (bs hs : list BlockHeader) : Prop := exists b h, b ∈ bs /\ h ∈ hs /\
  BlockHeader_ID b = BlockHeader_ID h /\ bh_ParentID b <> bh_ParentID h.
Lemma forged_mono bs bs' hs hs' : bs ⊆ bs' -> hs ⊆ hs' -> forged bs hs -> forged bs' hs'.
Proof. intros Hb Hh (b & h & H1 & H2 & H3). exists b, h. auto. Qed.

Lemma linked_snoc hs h : linked (hs ++ [h]) -> linked hs /\ forall a, last hs = Some a -> bh_ParentID h = BlockHeader_ID a.
Proof.
  intros H. split.
  - intros k a b Ha Hb. apply (H k); by apply lookup_app_l_Some.
  - intros a Ha. rewrite last_lookup in Ha. destruct hs as [|x hs]; [done|]. cbn [length pred] in Ha. apply (H (length hs)); [by apply lookup_app_l_Some|].
    rewrite lookup_app_r by (cbn; lia). by rewrite Nat.sub_diag.
Qed.
(** Two chains of one length that end in the same identifier are the same, unless one is forged. *)
Lemma chains_agree bs : forall hs, length bs = length hs -> linked bs -> linked hs ->
  (forall b h, last bs = Some b -> last hs = Some h -> BlockHeader_ID b = BlockHeader_ID h) ->
  map BlockHeader_ID bs = map BlockHeader_ID hs \/ forged bs hs.
Proof.
  induction bs as [|b bs IH] using rev_ind; intros hs Hlen Hb Hh Hl.
  { destruct hs; [by left|done]. }
  destruct hs as [|h hs _] using rev_ind; [rewrite length_app in Hlen; cbn in Hlen; lia|].
  rewrite !length_app in Hlen. cbn in Hlen. apply linked_snoc in Hb as [Hb Hb'], Hh as [Hh Hh'].
  assert (BlockHeader_ID b = BlockHeader_ID h) as Eid by (apply Hl; by rewrite last_snoc).
  destruct (decide (bh_ParentID b = bh_ParentID h)) as [Ep|Hne].
  2: { right. exists b, h. split_and!; [apply elem_of_app; right; left|apply elem_of_app; right; left|done|done]. }
  destruct (IH hs) as [E|Hf]; [lia|done|done| |left; rewrite !map_app, E; cbn; by rewrite Eid|right].
  - intros x y Hx Hy. by rewrite <- (Hb' x Hx), <- (Hh' y Hy).
  - eapply forged_mono; [| |exact Hf]; intros x Hx; apply elem_of_app; by left.
Qed.
End Chains.

Section Work.
Context {crypto : Crypto} {edwards : Edwards25519}.

Lemma ApplyHeader_ID s bh t s' : ApplyHeader s bh t = Ok s' -> ci_ID (s_Index s') = BlockHeader_ID bh.
Proof.
  unfold ApplyHeader. intros H. destruct (_ && _); [done|]. bind_ok H next E. apply Ok_inj in H. subst s'.
  assert (ci_ID (s_Index next) = BlockHeader_ID bh) as En.
  { destruct (bool_decide _); [bind_ok E w E1|bind_ok E w E1; destruct w; bind_ok E w E2; destruct w; bind_ok E w E3]; destruct w; apply Ok_inj in E; by subst next. }
  by destruct (_ <=? _).
Qed.
Lemma ApplyBlock_ID s b bs t s' cau : ApplyBlock s b bs t = Ok (s', cau) -> ci_ID (s_Index s') = Block_ID b.
Proof.
  unfold ApplyBlock. intros H. destruct (_ && _); [done|]. bind_ok H ms E. bind_ok H q E1. destruct q as [[acc eau] added].
  bind_ok H next E2. injection H as <- _. apply ApplyHeader_ID in E2. unfold activate. by repeat case_match.
Qed.
Lemma valid_parent s b bs : ValidateBlock s b bs = Ok tt -> b_ParentID b = ci_ID (s_Index s).
Proof.
  intros H. unfold ValidateBlock in H. do 2 ok_step H. clear H. destruct v0. apply orphan_header in E0. unfold ValidateHeader in E0.
  ok_step E0. by apply fail_if_ok, negb_false_iff, bool_decide_eq_true in E1.
Qed.
Lemma linked_cons h hs : linked hs -> (forall b, head hs = Some b -> bh_ParentID b = BlockHeader_ID h) -> linked (h :: hs).
Proof.
  intros Hl Hh [|k] a b Ha Hb; cbn in Ha, Hb; [|by apply (Hl k)]. injection Ha as <-. apply Hh. by rewrite head_lookup.
Qed.
Lemma validate_all_linked blocks : forall s states, validate_all s blocks = Ok states ->
  linked (map Block_Header blocks) /\ (forall b, head blocks = Some b -> b_ParentID b = ci_ID (s_Index s)) /\ length states = length blocks.
Proof.
  induction blocks as [|b blocks IH]; intros s states H; cbn [validate_all] in H; [apply Ok_inj in H; subst; split_and!; [by intros k a c ?|done|done]|].
  bind_ok H u E. destruct u. bind_ok H q E1. destruct q as [s1 cau]. bind_ok H rest E2. apply Ok_inj in H. subst states.
  destruct (IH s1 rest E2) as (H1 & H2 & H3). split_and!; [|intros b' [= <-]; by eapply valid_parent|cbn; lia].
  cbn [map]. apply linked_cons; [done|]. intros h Hh. destruct blocks as [|b1 blocks]; [done|]. injection Hh as <-.
  cbn [bh_ParentID Block_Header]. rewrite (H2 b1 eq_refl). exact (ApplyBlock_ID _ _ _ _ _ _ E1).
Qed.
End Work.

(** ** Requests *)
Section Requests.
Context {crypto : Crypto} {edwards : Edwards25519} (cs : State) (headers : list BlockHeader).
Context (Hlinked : linked headers) (Hheight : 0 <= ci_Height (s_Index cs) /\ ci_Height (s_Index cs) + zlen headers < two64).
Abbreviation reqs := (reqs cs headers).
Abbreviation part k := (take blocksPerReq (drop (k * blocksPerReq) headers)).

Lemma reqs_lookup k req : reqs !! k = Some req -> req = make_req cs headers k /\ (k * blocksPerReq < length headers)%nat.
Proof.
  intros H. unfold Syncer.reqs in H. apply list_lookup_fmap_Some in H as (i & -> & Hi). apply lookup_seq in Hi as [-> Hlt]. split; [done|]. cbn [Nat.add].
  pose proof (Nat.Div0.mul_div_le (length headers + blocksPerReq - 1) blocksPerReq). unfold blocksPerReq in *. nia.
Qed.
Lemma req_offset k req : reqs !! k = Some req -> u64 (ci_Height (rq_base req) - ci_Height (s_Index cs)) = Z.of_nat (k * blocksPerReq).
Proof.
  intros [-> Hlt]%reqs_lookup. cbn [make_req rq_base ci_Height]. unfold zlen in Hheight. rewrite (u64_id (_ + _)) by (unfold is_u64; lia).
  rewrite u64_id by (unfold is_u64; lia). lia.
Qed.
Lemma req_expected k req : reqs !! k = Some req -> expected_headers cs headers req = part k /\ Z.to_nat (rq_numBlocks req) = length (part k).
Proof.
  intros H. pose proof (req_offset k req H) as Eo. apply reqs_lookup in H as [-> Hlt]. unfold expected_headers. rewrite Eo, Nat2Z.id.
  cbn [make_req rq_numBlocks]. rewrite Nat2Z.id, length_take. split; [|done].
  destruct (Nat.le_ge_cases blocksPerReq (length (drop (k * blocksPerReq) headers))); [by rewrite Nat.min_l|].
  rewrite Nat.min_r by done. by rewrite !take_ge by lia.
Qed.
Lemma linked_part k : linked (part k).
Proof.
  intros i a b Ha Hb. apply lookup_take_Some in Ha as [Ha _], Hb as [Hb _]. rewrite lookup_drop in Ha, Hb.
  apply (Hlinked (k * blocksPerReq + i)%nat); [done|]. by rewrite <- Nat.add_succ_r.
Qed.

(** What a worker accepts for a request are the blocks of its headers. *)
Lemma workFn_sound k req chk answer blocks states : reqs !! k = Some req -> workFn cs headers req chk answer = Ok (blocks, states) ->
  map Block_ID blocks = map BlockHeader_ID (part k) \/ forged (map Block_Header blocks) headers.
Proof.
  intros Hreq H. destruct (req_expected k req Hreq) as [Ee En]. unfold workFn in H. destruct (from_checkpoint cs req).
  - bind_ok H q E. destruct q as [cs1 b]. bind_ok H q E1. destruct q as [cs2 cau]. bind_ok H q E2. destruct q as [bs z]. bind_ok H u E3. bind_ok H u' E4. bind_ok H sts E5.
    apply Ok_inj in H. injection H as -> ->. destruct (validate_all_linked blocks cs2 states E5) as (Hl & _ & _).
    apply fail_if_ok, negb_false_iff, Z.eqb_eq in E3. apply fail_if_ok, negb_false_iff, bool_decide_eq_true in E4.
    destruct (chains_agree (map Block_Header blocks) (part k)) as [E'|Hf]; [rewrite length_map, <- En; unfold zlen in E3; lia|done|apply linked_part| |left|right].
    + intros x y Hx Hy. rewrite last_lookup, length_map, list_lookup_fmap in Hx. rewrite last_lookup, <- En in Hy.
      destruct (blocks !! pred (length blocks)) as [xb|] eqn:Eb; [|done]. injection Hx as <-.
      assert (nth (length blocks - 1) blocks zeroBlock = xb) as En' by (apply nth_lookup_Some; by rewrite Nat.sub_1_r).
      rewrite En' in E4. change (Block_ID xb = BlockHeader_ID y). rewrite E4. apply reqs_lookup in Hreq as [-> Hlt].
      cbn [make_req rq_tip ci_ID rq_numBlocks] in Hy |- *. rewrite Nat2Z.id in Hy. f_equal. apply nth_lookup_Some.
      apply lookup_take_Some in Hy as [Hy _]. by rewrite Nat.sub_1_r.
    + rewrite map_map in E'. exact E'.
    + eapply forged_mono; [done| |exact Hf]. intros x Hx. apply elem_of_take in Hx as (i & Hi & _). rewrite lookup_drop in Hi.
      by eapply list_elem_of_lookup_2.
  - bind_ok H q E2. destruct q as [bs z]. bind_ok H u E3. bind_ok H u' E4. apply Ok_inj in H. injection H as -> <-.
    apply fail_if_ok, negb_false_iff, bool_decide_eq_true in E4. left. by rewrite E4, Ee.
Qed.

(** ** The coordinator *)

(** A response without error is one of a worker for its request. *)
Definition earned (r : Resp) : Prop := rp_err r = None ->
  exists chk answer, workFn cs headers (rp_req r) chk answer = Ok (rp_blocks r, rp_states r).
Record sync_inv (st : Sync) : Prop := {
  si_queued : forall req, req ∈ sy_reqChan st -> req ∈ reqs;
  si_busy : forall p req, (p, req) ∈ sy_busy st -> req ∈ reqs;
  si_responses : forall r, r ∈ sy_respChan st -> rp_req r ∈ reqs /\ earned r;
  si_length : length (sy_resps st) = length reqs;
  si_resps : forall k r, sy_resps st !! k = Some (Some r) -> reqs !! k = Some (rp_req r) /\ rp_err r = None /\ earned r;
  si_handed : map Some (sy_handed st) = take (sy_finished st) (sy_resps st) /\ (sy_finished st <= length (sy_resps st))%nat;
  si_next : sy_resps st !! sy_finished st = None \/ sy_resps st !! sy_finished st = Some None }.

Lemma initial_inv : sync_inv (initial cs headers).
Proof.
  split; cbn [initial sy_reqChan sy_busy sy_respChan sy_resps sy_handed sy_finished].
  - by intros req ?%not_elem_of_nil.
  - by intros p req ?%not_elem_of_nil.
  - by intros r ?%not_elem_of_nil.
  - apply length_replicate.
  - intros k r H. apply lookup_replicate in H as [H _]. done.
  - split; [done|lia].
  - destruct (length reqs); [by left|by right].
Qed.
Lemma incomplete_reqs resps req : req ∈ incomplete cs headers resps -> req ∈ reqs.
Proof.
  intros H. unfold incomplete in H. apply list_elem_of_omap in H as ([o x] & Hx & E). apply list_elem_of_lookup in Hx as [i Hi].
  rewrite list_lookup_imap in Hi. destruct (reqs !! i) as [y|] eqn:Ey; [|done]. injection Hi as <- <-.
  destruct (resps !! i) as [[|]|]; [done| |done]. injection E as <-. by eapply list_elem_of_lookup_2.
Qed.
Lemma queue_inv st : sync_inv st -> sync_inv (queueRequest cs headers st).
Proof.
  intros []. unfold queueRequest. destruct (reqs !! sy_reqIndex st) as [req|] eqn:E; [|by split].
  split; try done. cbn [set_reqs sy_reqChan]. intros r Hr. apply list_elem_of_lookup_2 in E.
  assert (r ∈ sy_reqChan st ++ [req] -> r ∈ reqs) as Hq by (intros [?| ->%list_elem_of_singleton]%elem_of_app; auto).
  destruct (_ =? _)%nat; [|auto]. apply elem_of_app in Hr as [?|?]; [auto|by eapply incomplete_reqs].
Qed.

Lemma ready_take l : map Some (ready l) = take (length (ready l)) l /\ (length (ready l) <= length l)%nat /\
  (l !! length (ready l) = None \/ l !! length (ready l) = Some None).
Proof.
  induction l as [|[r|] l IH]; cbn; [split_and!; [done|lia|by left]| |split_and!; [done|lia|by right]].
  destruct IH as (H1 & H2 & H3). rewrite H1. split_and!; [done|lia|done].
Qed.
(** Handing over all that is ready. *)
Lemma handed_inv st resps rest : sync_inv st -> length resps = length reqs ->
  (forall r, r ∈ rest -> r ∈ sy_respChan st) ->
  (forall k r, resps !! k = Some (Some r) -> reqs !! k = Some (rp_req r) /\ rp_err r = None /\ earned r) ->
  take (sy_finished st) resps = take (sy_finished st) (sy_resps st) ->
  let batch := ready (drop (sy_finished st) resps) in
  sync_inv (mkSync (sy_reqChan st) rest resps (sy_reqIndex st) (sy_finished st + length batch) (sy_idle st) (sy_busy st) (sy_seen st) (sy_handed st ++ batch)).
Proof.
  intros [I1 I2 I3 I4 I5 [I6 I6'] I7] Hlen Hrest Hres Htake batch. destruct (ready_take (drop (sy_finished st) resps)) as (R1 & R2 & R3). fold batch in R1, R2, R3.
  rewrite length_drop in R2. split; cbn [sy_reqChan sy_busy sy_respChan sy_resps sy_handed sy_finished]; try done; auto.
  - split; [|lia]. rewrite map_app, I6, R1, <- Htake, take_take_drop. done.
  - rewrite lookup_drop in R3. done.
Qed.

Lemma receive_inv st r rest st' : sync_inv st -> sy_respChan st = r :: rest -> receive cs headers st r rest = Ok st' -> sync_inv st'.
Proof.
  intros Hinv Er H. pose proof Hinv as [I1 I2 I3 I4 I5 [I6 I6'] I7]. destruct (I3 r) as [Hreq He]; [rewrite Er; left|].
  assert (forall x, x ∈ rest -> x ∈ sy_respChan st) as Hrest by (intros x Hx; rewrite Er; by right).
  unfold receive in H. destruct (rp_err r) as [e|] eqn:Ee.
  - apply Ok_inj in H. subst st'. split; cbn [sy_reqChan sy_busy sy_respChan sy_resps sy_handed sy_finished]; auto.
    intros x [?| ->%list_elem_of_singleton]%elem_of_app; auto.
  - apply list_elem_of_lookup in Hreq as [k Hk]. rewrite (req_offset k _ Hk) in H.
    replace (Z.to_nat (Z.of_nat (k * blocksPerReq) / Z.of_nat blocksPerReq)) with k in H by (rewrite Nat2Z.inj_mul, Z.div_mul by done; lia).
    destruct (sy_resps st !! k) as [[prev|]|] eqn:Ep; [| |done]; apply Ok_inj in H; subst st'; apply queue_inv, handed_inv; auto.
    + by rewrite length_insert.
    + intros j x Hj. apply list_lookup_insert_Some in Hj as [(<- & Hx & _)|[_ Hj]]; [|auto]. injection Hx as <-. auto.
    + apply take_insert_ge. destruct (Nat.le_gt_cases (sy_finished st) k) as [?|Hlt]; [done|]. exfalso.
      assert (take (sy_finished st) (sy_resps st) !! k = Some None) as Hx by (by rewrite lookup_take_lt).
      rewrite <- I6, list_lookup_fmap in Hx. by destruct (sy_handed st !! k).
Qed.
Lemma step_inv st st' : sync_inv st -> sync_step cs headers st st' -> sync_inv st'.
Proof.
  intros Hinv Hs. destruct Hs as [st p Hp|st p before after req rest Ei Eq|st p req before after chk answer resp Eb Ew|st r rest st' Er H].
  - apply queue_inv. destruct Hinv. by split.
  - destruct Hinv as [I1 I2 I3 I4 I5 I6 I7]. split; cbn [sy_reqChan sy_busy]; try done.
    + intros x Hx. apply I1. rewrite Eq. by right.
    + intros q x [[= -> ->]|Hx]%elem_of_cons; [apply I1; rewrite Eq; left|by eapply I2].
  - destruct Hinv as [I1 I2 I3 I4 I5 I6 I7]. assert (req ∈ reqs) as Hreq by (apply (I2 p); rewrite Eb; set_solver).
    split; cbn [sy_reqChan sy_busy sy_respChan]; try done.
    + intros q x Hx. apply (I2 q). rewrite Eb. set_solver.
    + intros r [Hr| ->%list_elem_of_singleton]%elem_of_app; [auto|]. unfold worked in Ew.
      destruct (workFn cs headers req chk answer) as [[bs sts]|e|] eqn:E; [| |done]; injection Ew as <-; (split; [done|]); [by exists chk, answer|done].
  - by eapply receive_inv.
Qed.
Lemma reachable_inv st : rtc (sync_step cs headers) (initial cs headers) st -> sync_inv st.
Proof.
  intros H. remember (initial cs headers) as s0 eqn:E0. assert (sync_inv s0) as Hi by (subst; apply initial_inv). clear E0.
  induction H as [|s s1 s2 Hs _ IH]; [done|]. apply IH. by eapply step_inv.
Qed.

(** The blocks of the first [n] requests, by identifier. *)
Lemma parts_take n : map BlockHeader_ID (take (n * blocksPerReq) headers) = concat (map (fun k => map BlockHeader_ID (part k)) (seq 0 n)).
Proof.
  induction n as [|n IH]; [done|]. rewrite seq_S, map_app, concat_app, <- IH. cbn [Nat.add map concat]. rewrite app_nil_r, <- map_app.
  f_equal. rewrite take_take_drop. f_equal. lia.
Qed.
Lemma handed_blocks st : sync_inv st ->
  map Block_ID (concat (map rp_blocks (sy_handed st))) = map BlockHeader_ID (take (sy_finished st * blocksPerReq) headers) \/
  forged (map Block_Header (concat (map rp_blocks (sy_handed st)))) headers.
Proof.
  intros [_ _ _ _ I5 [I6 I6'] _]. rewrite parts_take, concat_map, map_map.
  assert (length (sy_handed st) = sy_finished st) as Hl by (rewrite <- (length_map Some), I6, length_take; lia).
  assert (forall k r, sy_handed st !! k = Some r -> map Block_ID (rp_blocks r) = map BlockHeader_ID (part k) \/
    forged (map Block_Header (rp_blocks r)) headers) as Hp.
  { intros k r Hk. assert (sy_resps st !! k = Some (Some r)) as Hr.
    { pose proof (f_equal (fun l => l !! k) I6) as H. cbn beta in H. rewrite list_lookup_fmap, Hk in H. symmetry in H. by apply lookup_take_Some in H as [H _]. }
    destruct (I5 k r Hr) as (Hreq & He & Hea). destruct (Hea He) as (chk & answer & Hw). by eapply workFn_sound. }
  rewrite <- Hl. clear - Hp. revert Hp. induction (sy_handed st) as [|r l IH] using rev_ind; intros Hp; [by left|].
  assert (forall x, forged (map Block_Header x) headers -> x ⊆ concat (map rp_blocks (l ++ [r])) ->
    forged (map Block_Header (concat (map rp_blocks (l ++ [r])))) headers) as Hmono.
  { intros x Hx Hs. eapply forged_mono; [|done|exact Hx]. intros h (b & -> & Hb)%list_elem_of_fmap. apply list_elem_of_fmap. eauto. }
  assert (concat (map rp_blocks (l ++ [r])) = concat (map rp_blocks l) ++ rp_blocks r) as Ec.
  { rewrite map_app, concat_app. cbn. by rewrite app_nil_r. }
  destruct IH as [IH|Hf]; [intros k x Hx; apply Hp; by apply lookup_app_l_Some| |right; apply (Hmono _ Hf); intros b Hb; rewrite Ec; apply elem_of_app; by left].
  destruct (Hp (length l) r) as [E|Hf]; [by rewrite lookup_app_r, Nat.sub_diag by done| |right; apply (Hmono _ Hf); intros b Hb; rewrite Ec; apply elem_of_app; by right].
  left. rewrite length_app, Nat.add_comm. cbn [length Nat.add]. rewrite seq_S, !map_app, !concat_app, IH. cbn [map concat Nat.add]. by rewrite !app_nil_r, E.
Qed.
End Requests.


(** A run with one request: the first peer fails and the second sends the blocks. *)
Section TwoPeers.
Context {crypto : Crypto} {edwards : Edwards25519} (cs : State) (headers : list BlockHeader) (req : Req) (bs : list Block) (e : string).
Context (Ereqs : reqs cs headers = [req]) (Eoff : u64 (ci_Height (rq_base req) - ci_Height (s_Index cs)) = 0).
Context (Efail : workFn cs headers req (Err "") (Err e) = Err e) (Eok : workFn cs headers req (Err "") (Ok (bs, 0)) = Ok (bs, [])).
Definition failed : Resp := {| rp_blocks := []; rp_states := []; rp_req := req; rp_peer := 1; rp_err := Some e |}.
Definition fetched : Resp := {| rp_blocks := bs; rp_states := []; rp_req := req; rp_peer := 2; rp_err := None |}.
Definition final : Sync := mkSync [req] [] [Some fetched] 1 1 [2%nat] [] ({[2%nat]} ∪ ({[1%nat]} ∪ ∅)) [fetched].
Lemma two_peers_run : rtc (sync_step cs headers) (initial cs headers) final.
Proof.
  unfold initial. rewrite Ereqs. cbn [length replicate].
  eapply rtc_l; [apply (step_spawn cs headers _ 1%nat); set_solver|].
  unfold queueRequest, incomplete, set_reqs. cbn [sy_reqIndex sy_reqChan sy_resps sy_respChan sy_finished sy_idle sy_busy sy_seen sy_handed app].
  rewrite Ereqs. cbn.
  eapply rtc_l; [apply (step_take cs headers _ 1%nat [] [] req [req]); reflexivity|]. cbn.
  eapply rtc_l; [apply (step_work cs headers _ 1%nat req [] [] (Err "") (Err e) failed); [reflexivity|by rewrite Efail]|]. cbn.
  eapply rtc_l; [eapply step_receive; reflexivity|]. cbn.
  eapply rtc_l; [apply (step_spawn cs headers _ 2%nat); set_solver|].
  unfold queueRequest. cbn [sy_reqIndex sy_reqChan sy_resps sy_respChan sy_finished sy_idle sy_busy sy_seen sy_handed app]. rewrite Ereqs. cbn [lookup list_lookup].
  eapply rtc_l; [apply (step_take cs headers _ 2%nat [] [] req [req]); reflexivity|]. cbn.
  eapply rtc_l; [apply (step_work cs headers _ 2%nat req [] [] (Err "") (Ok (bs, 0)) fetched); [reflexivity|by rewrite Eok]|]. cbn.
  apply rtc_once. eapply step_receive; [reflexivity|]. unfold receive. cbn [fetched rp_err rp_req]. rewrite Eoff. change (Z.to_nat (0 / Z.of_nat blocksPerReq)) with 0%nat.
  cbn [sy_resps lookup list_lookup]. unfold queueRequest. cbn [sy_reqIndex sy_reqChan]. rewrite Ereqs. reflexivity.
Qed.
End TwoPeers.

Module SampleSync.
#[local] Existing Instances Sample.crypto SampleChain.edwards.
Import SampleChain.
Definition headers : list BlockHeader := [Block_Header block1].
Definition req : Req := Eval vm_compute in make_req tip headers 0.
Lemma one_request : reqs tip headers = [req].
Proof. vm_cast_no_check (eq_refl [req]). Qed.
Lemma peer_fails : workFn tip headers req (Err "") (Err "timeout") = Err "timeout".
Proof. vm_cast_no_check (@eq_refl (outcome (list Block * list State)) (Err "timeout")). Qed.
Lemma peer_sends : workFn tip headers req (Err "") (Ok ([block1], 0)) = Ok ([block1], []).
Proof. vm_cast_no_check (eq_refl (Ok ([block1], @nil State))). Qed.
End SampleSync.

#[local] Existing Instances Sample.crypto SampleChain.edwards.
